(* ===== verification/_CoqProject ===== *)
-Q . S2P
Prelude.v
Text.v
Unicode.v
Validate.v
Permission.v
AlertData.v
Effects.v
Database.v
GoTime.v
Clock.v
WeekdayFilter.v
Rotation.v
RotationManager.v
Assignment.v
Rule.v
TempSchedule.v
TimeIterator.v
Calculators.v
Spans.v
Constructors.v
RuleCalc.v
OnCall.v
OnCallSpec.v
Dest.v
Messages.v
Throttle.v
Queue.v
Retry.v
Diagnostics.v
Outgoing.v
Sender.v
Cycle.v
NotificationRule.v
OnCallUpdate.v
ScheduleManager.v
ScheduleManagerSpec.v
IDLocker.v
Lifecycle.v
LifecycleSpec.v
Escalation.v
EscalationSpec.v
AlertDB.v
AlertLog.v
AlertStore.v
AlertInvariant.v
AlertStoreSpec.v
AlertDedup.v
AlertDedupSpec.v
AlertEngine.v
AlertStatusSpec.v
Heartbeat.v
HeartbeatManager.v
HeartbeatSpec.v
HeartbeatApi.v
ErrorMap.v
Webhooks.v
WebhookSpec.v
Email.v
EmailSpec.v
AuthToken.v
Keyring.v
KeyringSpec.v
Session.v
SessionSpec.v
TimeZone.v
Organization.v
OrganizationSpec.v
ExecutionContext.v
ContactRules.v
StatusManager.v
StatusManagerSpec.v
NotificationCycle.v
NotificationCycleSpec.v
AlertPath.v
GatewayTarget.v
TokenStore.v
TokenRotation.v
TokenRotationSpec.v
TokenProtocol.v
TokenSuccess.v
