(* ===== verification/Prelude.v ===== *)
(** * ms-oncall (GoAlert): a verification library

    ms-oncall is a server for on-call schedules: it knows who is on call, and
    when an alert is created it notifies those people, over and over, until
    somebody acknowledges it.  This library has a Rocq definition for each of the
    parts of the server that compute or change what that depends on, as they are
    written in Go and SQL, and the theorems that make the parts correct.

    ** The program

    - A schedule has rules ([schedule/rule]), rotations ([schedule/rotation]),
      overrides and temporary schedules ([schedule]).  [oncall] computes from
      them who is on call over a span of time.
    - An alert comes in through a webhook ([genericapi], [grafana], [site24x7],
      [prometheusalertmanager]), an email ([mailgun], [smtpsrv]), a heartbeat that
      is missing ([heartbeat], [engine/heartbeatmanager]) or the API.  The store
      ([alert], [alert/alertlog]) deduplicates it, changes its status and logs what
      happened, under triggers of the database.  [permission] and [auth] say who
      may do it: a request is one of a user in a session, whose token is signed with
      a key of the [keyring], or of an integration key.  Users belong to organizations
      ([organization]), and an execution context ([executioncontext]) says in which
      of them a request acts; changes of contact methods and notification rules
      ([user/contactmethod], [user/notificationrule]) need it as evidence.
    - The engine runs its modules one after the other, every few seconds, each in
      transactions under the lock of the module ([engine/processinglock]).
      [rotationmanager] moves rotations on, [schedulemanager] records who goes on
      and off call and notifies channels of it, [escalationmanager] finds the
      users on call for each step of an escalation policy and escalates alerts,
      [npcyclemanager] ticks the notification cycles of the notified users and
      inserts rows into [outgoing_messages], and [engine/message] sends these
      within rate limits, retries them and follows their status.  [statusmgr] tells
      those who were notified how the alert goes on, in jobs beside the modules.
    - What a provider says of a message goes through [notification/nfymsg] before
      it is stored.  [notification/webhook] replaces the token in the URL of a
      webhook while the server and its Gateway both run.
    - [app/lifecycle] starts, pauses and stops the server, [ctxlock] limits what
      is done at the same time for one id.

    The modules meet in the tables: what one writes the next reads.  [AlertEngine]
    composes the alert store with the escalation manager, [AlertPath] that with
    the notification cycles, [Webhooks], [Email] and [HeartbeatManager] call the
    store, [Session] calls the keyring, [ExecutionContext] takes the requester of
    [Session] and the tables of [Organization], [ContactRules] its evidence, [Cycle]
    relates sending to the life of the rows it works on, [OnCallSpec] composes rules,
    rotations, temporary schedules and calculators, [RotationManager] relates the
    engine to the calculation.

    ** The files

    Shared: [Prelude] (64-bit integers, order of sort.Slice and of map ranges,
    lists, tactics), [Text] (strings, decimal numbers, UUID texts, base64),
    [Unicode] (runes), [Effects] (state, errors and panics; triples), [Database]
    (transactions under the module lock, engine/processinglock/lock.go), [GoTime]
    (package time), [Validate] (validation/validate), [Permission] (permission),
    [ErrorMap] (util/errutil, limit), [Retry] (retry).

    Time and schedules:
    - [Clock], [WeekdayFilter]: util/timeutil/clock.go, weekdayfilter.go.
    - [Rotation]: schedule/rotation/rotation.go; [RotationManager]:
      engine/rotationmanager/advance.go, legacyadvance.go, updaterotation.go.
    - [Assignment]: assignment; [Rule]: schedule/rule/rule.go; [TempSchedule]:
      schedule/temporaryschedule.go, fixedshift.go, storetemporaryschedules.go.
    - [TimeIterator], [Calculators], [OnCall]: oncall/timeiterator.go, the
      calculators and state.go; [Spans], [Constructors], [RuleCalc]
      their lemmas, [OnCallSpec] the specification.
    - [NotificationRule]: schedule/oncallnotificationrule.go; [OnCallUpdate]:
      engine/schedulemanager/calcupdates.go; [ScheduleManager]: its update.go,
      db.go, state.go, staffing.go, scheduledata.go, [ScheduleManagerSpec] the specification.

    Alerts:
    - [AlertData]: alert/alert.go, dedup.go, status.go, metadata.go; [AlertDB]: the
      tables, the triggers of migrate/schema.sql and transactions; [AlertLog]:
      alert/alertlog; [AlertStore]: alert/store.go.  [AlertInvariant] is what
      every statement keeps and an example, [AlertStoreSpec] what every
      operation does; [AlertDedup] and [AlertDedupSpec] relate deduplication to a
      map, [AlertStatusSpec] is about changes of the status, [AlertEngine] about
      what the engine does with an alert.
    - [Webhooks], [WebhookSpec]: genericapi/handler.go, grafana, site24x7,
      prometheusalertmanager; [Email], [EmailSpec]: mailgun, smtpsrv and
      integrationkey.Store.Authorize.
    - [Heartbeat], [HeartbeatApi]: heartbeat and its mutations in
      graphql2/graphqlapp; [HeartbeatManager], [HeartbeatSpec]: engine/heartbeatmanager.
    - [StatusManager], [StatusManagerSpec]: engine/statusmgr.

    Messages:
    - [Escalation], [EscalationSpec]: engine/escalationmanager;
      [NotificationCycle], [NotificationCycleSpec]: engine/npcyclemanager;
      [AlertPath] both.
    - [Dest]: gadb/dest.go; [Messages]: engine/message, deduplication and
      bundling; [Throttle]: its rate limits; [Queue]: queue.go;
      [Diagnostics]: notification/nfymsg/diagnostics.go; [Outgoing]: the statements of
      engine/message/db.go and the life of a row; [Sender]: the cycle of sending;
      [Cycle]: that it is part of that life.

    Requests:
    - [AuthToken]: auth/authtoken; [Keyring], [KeyringSpec]: keyring; [Session],
      [SessionSpec]: auth/handler.go, requester.go, gettoken.go and the Authorize
      functions of calsub, integrationkey and apikey.
    - [TimeZone]: timezone; [Organization], [OrganizationSpec]: organization;
      [ExecutionContext]: executioncontext; [ContactRules]: its cmnr_authority.go and cmnr_transaction.go,
      user/contactmethod/cmnr_guard.go, and what of user/notificationrule/store.go and
      user/contactmethod/store.go they protect.

    Tokens of the Gateway (notification/webhook):
    - [GatewayTarget]: gateway_target.go and the preparation in
      gateway_token_cas.go; [TokenStore]: the database side of
      gateway_token_rotation.go; [TokenRotation]: the coordinator;
      [TokenRotationSpec], [TokenProtocol], [TokenSuccess]: what it keeps, in
      which order it asks, and when it succeeds.

    Processes: [IDLocker]: ctxlock; [Lifecycle], [LifecycleSpec]:
    app/lifecycle/manager.go and the methods beside it.

    ** What the theorems show

    A doc comment that starts with a number [C..] marks the main theorems; the
    other theorems named here stand beside them, and the lemmas before them are
    shared.

    - Who is on call.  [CalculateShifts_exact]: for inputs that do not overlap and a
      constant offset, the shifts are exactly what a declarative specification says
      of every second (with its conditions after the history cutoff).  Under it:
      [IsActive_correct], [UserID_advances_per_handoff],
      [SetTemporarySchedule_exact], [TempOnCall_exact], [ticks_visit_every_change],
      [engine_and_calculator_agree].
    - The engine keeps that up to date: [update_brings_up_to_date] (from any
      tables), [quiet_update_writes_nothing], [notifications_follow_due_times],
      [calcLatestOnCall_exact], [nextOnCallNotification_first].
    - The alert store: [alerts_keep_constraints] (every operation, whatever fails
      and whatever others commit), [createOrUpdate_refines_map] and
      [createOrUpdate_succeeds] (deduplication is a map of open alerts),
      [UpdateManyAlertStatus_exact] (what it changes and what it only logs),
      [UpdateStatus_outcome],
      [ParseDedupString_roundtrip].
    - Alerts that come in: [ServeCreateAlert_is_true] (an answer of success is true,
      with retries and lost commits), [accepted_email_raises_alerts],
      [processAll_exact] (heartbeats), [requests_mute_nothing].
    - Alerts that go out: [new_alert_is_paged_by_engine],
      [requested_escalation_is_selected], [escalations_follow_policy],
      [updateOnCall_exact], [resting_alert_untouched], [rules_fire_once],
      [most_overdue_first], [tick_handles_all_due], and
      [alert_reaches_users_on_call] for the whole path; [jobs_tell_once] and
      [found_jobs_bring_up_to_date] for the news after it.
    - Messages: [cycle_refines_life] (a cycle of sending, with any errors, only
      does what the life of a message allows), [at_most_four_attempts],
      [temporary_failure_retried], [queue_keeps_limits], [NextByType_most_urgent],
      [bundleAlertMessages_one_per_service], [ProviderError_keeps_class],
      [DoTemporaryError_ends_within_limit].
    - Requests: [requester_is_session_user] (no forged and no inherited requester),
      [session_is_recognized], [Parse_Encode], [instances_accept_each_other] (any
      number of servers that rotate the keys of one table), [rotation_when_due],
      [ReEncryptAll_first_key], [WithoutAuth_leaves_nothing].
    - Organizations: [operations_keep_constraints] (what is stored can be read),
      [Resolve_exact], [Resolve_ignores_order] and [resolved_user_is_found] (from the
      identifiers of a user to the organization where the user is found),
      [admission_exact] (which execution context a handler finds),
      [changes_are_authorized] (over any history of requests) and
      [session_changes_own]; [Search_next_page] (pages of time zones leave nothing out).
    - Tokens: [revoked_token_never_in_use], [results_are_true],
      [requests_in_order], [start_replaces_token], [finalize_after_the_overlap].
    - Processes: [only_overlapping_pauses_panic] (with the two panics that overlapping
      pauses reach), [functions_run_one_at_a_time], [some_call_can_step],
      [locker_keeps_limits] (any goroutine may unlock; one call too many panics).
    - Texts: [codecs_roundtrip_wf], [validGatewayToken_iff], [SanitizeText_is_valid].

    ** How the code is modelled

    - Go's integers are [Z] with the wrap-around written out where it can matter
      ([wrap64]); [Time.Sub] saturates ([sat64]).  A time is an instant and a
      location, a location is its function from instants to offsets.
    - A panic is [None] or a constructor; an error is a value.
    - A function that changes tables is a state transformer over a record of
      tables.  Every database call may fail ([db_err], [stmt_err], [Env]): a
      theorem that does not say so holds for all failures.  An error undoes its
      transaction.  One SQL statement reads the tables as they were at its start.
    - A commit that fails may have taken effect ([commit_lost]).  Where a
      transaction waits for a row lock, others may have committed what the rows it
      has locked already allow ([wait] in [AlertDB], [others] in [Heartbeat],
      [StatusManager] and [Keyring]); the theorems assume of them what they show of
      the modelled operations (the invariant of [AlertInvariant], [extends] of
      [KeyringSpec]), or nothing.
    - A scan of a table, and a range over a Go map, is in an order that is a
      parameter ([GoMapRange]); so are [sort.Slice] on equal keys ([GoSort]) and
      [rand.Shuffle] ([GoRand]).
    - Goroutines are program counters between sections that hold a lock; a step
      relation interleaves them ([IDLocker], [Lifecycle], the loop of [Keyring]).
      The engine runs its modules one at a time, so their cycles are functions.
    - Code that is not in the repository is an interface with the laws that the
      code relies on, and an instance: [UUIDText] (google/uuid), [Unicode] (the
      tables of unicode), [Digest] (sha512; no laws), [Crypto] (ecdsa, x509, pem
      and the JSON of keys), [ScheduleJSON] (encoding/json with raw fields kept),
      [NetURL] (net/url; no laws), [Participant] and [GatewayContract] (the Gateway,
      as its contract in docs/ says).  [HandoffLaws] is what a rotation promises to
      its client, [SubLaws] what a part of a time iterator does, [Registry] the
      types of destinations.

    ** Fuel

    Recursion that is not structural has fuel, and where running out would differ
    from the code there is a theorem that it does not: the iteration of
    [CalculateShifts] visits every second at most once ([ticks_visit_every_change]
    and [CalculateShifts_exact] have no bound in their conclusion), draining a
    queue ends ([draining_terminates]), a retry loop stops at its options
    ([DoTemporaryError_ends_within_limit]).  Loops that the code itself bounds have
    its bound: 100000 rounds of a rule and the search of a handoff, which panic in
    the code, and the 64 links of an error chain in [GatewayTarget].

    ** Approximations

    - The messages of a cycle are sent one after the other; the program sends
      those of different types in parallel, each type under the same queue.
    - The advisory locks are not lost while they are held.
    - In the older parts of the engine a transaction is one step for others, and so it
      is for organizations and contact methods, where statements lock the rows that
      the transaction works on; the parts named above under commits, and the token
      rotation, have others act between its statements.
    - Column defaults are part of the rows that are inserted, and foreign keys are
      checked where the code distinguishes their errors.
    - The crypto laws are exact: what is signed verifies, what is encrypted opens
      with its key.  That nothing else verifies is not assumed, and a theorem that
      needs it says so of the function that verifies.

    ** Not modelled

    - Generated code (gadb, graphql2, web assets); of gadb the queries that a
      modelled function calls are modelled with it.
    - Transport: the GraphQL resolvers other than those of heartbeats, the login
      through identity providers and the senders (Twilio, Slack, SMTP, webhooks):
      request parsing and calls of other services around the stores.
    - The other stores (users, services, rules and so on, and of contact methods what
      needs no evidence), and search: one query per operation with validation, whose
      content is SQL.
    - Configuration, migrations and the switchover (swo), which are about the
      database as a whole.
    - The small modules of the engine that delete or move rows, and the loop
      that calls the modules.
    - [app] apart from the lifecycle; the wiring of the server. *)

From stdpp Require Export base list gmap strings sorting.
From Stdlib Require Export ZArith Lia Bool.

#[export] Set Default Proof Using "Type".
Open Scope Z_scope.

(** [uuid.UUID] is sixteen bytes, read as a number. *)
Notation UUID := Z (only parsing).

(** ** Machine integers

    Go's [int], [int64] and [time.Duration] are 64-bit two's complement on the
    platforms the program is built for.  A value is a [Z]; [wrap64] is the
    wrap-around of an arithmetic result, [sat64] the saturation that
    [time.Time.Sub] documents. *)

Definition two63 : Z := 9223372036854775808.

Definition wrap64 (z : Z) : Z := (z + two63) mod (2 * two63) - two63.

Definition sat64 (z : Z) : Z := Z.max (- two63) (Z.min z (two63 - 1)).

(** [in64 z]: the value is representable in a signed 64-bit integer. *)
Definition in64 (z : Z) : Prop := - two63 <= z < two63.

Lemma wrap64_id z : in64 z -> wrap64 z = z.
Proof.
  unfold in64, wrap64, two63. intros. rewrite Z.mod_small by lia. lia.
Qed.

Lemma wrap64_range z : in64 (wrap64 z).
Proof.
  unfold in64, wrap64, two63.
  pose proof (Z.mod_pos_bound (z + 9223372036854775808) (2 * 9223372036854775808)).
  lia.
Qed.

Lemma sat64_id z : in64 z -> sat64 z = z.
Proof. unfold in64, sat64, two63. lia. Qed.

Lemma sat64_range z : in64 (sat64 z).
Proof. unfold in64, sat64, two63. lia. Qed.

(** Go's [/] and [%] on integers truncate toward zero: [`quot`] and [`rem`]. *)

(** Truncated and floored division are related by the usual correction. *)
Lemma quot_rem_floor a b :
  0 < b ->
  a = b * (a `quot` b) + a `rem` b /\
  (0 <= a -> 0 <= a `rem` b < b) /\ (a <= 0 -> - b < a `rem` b <= 0).
Proof.
  intros Hb. split; [apply Z.quot_rem; lia|]. split; intros.
  - apply Z.rem_bound_pos; lia.
  - pose proof (Z.rem_bound_pos (- a) b). rewrite Z.rem_opp_l in *; lia.
Qed.

(** The correction the program writes by hand ("if rem < 0 add the divisor")
    turns Go's remainder into the floored one. *)
Lemma rem_correct_mod a b :
  0 < b -> (if a `rem` b <? 0 then a `rem` b + b else a `rem` b) = a mod b.
Proof.
  intros Hb. destruct (quot_rem_floor a b Hb) as (E & P & N).
  destruct (a `rem` b <? 0) eqn:L.
  - apply Z.ltb_lt in L. apply (Z.mod_unique _ _ (a `quot` b - 1)); lia.
  - apply Z.ltb_ge in L. apply (Z.mod_unique _ _ (a `quot` b)); [|lia].
    left. destruct (Z_le_gt_dec 0 a); lia.
Qed.

(** ** Case analysis on boolean comparisons *)

Ltac bprop :=
  repeat match goal with
  | H : (_ <? _) = true |- _ => apply Z.ltb_lt in H
  | H : (_ <? _) = false |- _ => apply Z.ltb_ge in H
  | H : (_ <=? _) = true |- _ => apply Z.leb_le in H
  | H : (_ <=? _) = false |- _ => apply Z.leb_gt in H
  | H : (_ =? _) = true |- _ => apply Z.eqb_eq in H
  | H : (_ =? _) = false |- _ => apply Z.eqb_neq in H
  | H : _ && _ = true |- _ => apply andb_true_iff in H; destruct H
  | H : _ || _ = false |- _ => apply orb_false_iff in H; destruct H
  | H : negb _ = true |- _ => apply negb_true_iff in H
  | H : negb _ = false |- _ => apply negb_false_iff in H
  end.

(** Split every boolean comparison the goal branches on and finish with [lia]. *)
Ltac bcase :=
  repeat match goal with
  | |- context [if ?b then _ else _] => destruct b eqn:?
  end; bprop.

Ltac blia := bcase; try lia.

(** The same, splitting the conditionals of the hypotheses too. *)
Ltac bcase_all :=
  repeat match goal with
  | |- context [if ?b then _ else _] => destruct b eqn:?
  | H : context [if ?b then _ else _] |- _ => destruct b eqn:?
  end; bprop.

(** [lia] with division and remainder by constants. *)
Ltac dlia := Z.to_euclidean_division_equations; lia.

(** ** The Go runtime: what the language leaves open

    [sort.Slice] is not stable and ranging over a map follows no order.  Code
    that uses either is a function of the choice made, and its theorems hold
    for every choice that obeys the documented contract. *)

Definition strict_weak {A} (less : A -> A -> bool) : Prop :=
  (forall x y, less x y = true -> less y x = false) /\
  (forall x y z, less y x = false -> less z y = false -> less z x = false).

Definition not_after {A} (less : A -> A -> bool) (x y : A) : Prop := less y x = false.

(** The comparison need only be an order on the elements that are sorted. *)
Definition strict_weak_on {A} (P : A -> Prop) (less : A -> A -> bool) : Prop :=
  (forall x y, P x -> P y -> less x y = true -> less y x = false) /\
  (forall x y z, P x -> P y -> P z -> less y x = false -> less z y = false -> less z x = false).

Class GoSort := {
  sort_slice : forall {A : Type}, (A -> A -> bool) -> list A -> list A;
  sort_slice_perm : forall {A} (less : A -> A -> bool) l, sort_slice less l ≡ₚ l;
  sort_slice_sorted_on : forall {A} (less : A -> A -> bool) l,
    strict_weak_on (fun x => x ∈ l) less -> StronglySorted (not_after less) (sort_slice less l)
}.

Lemma sort_slice_sorted `{GoSort} {A} (less : A -> A -> bool) l :
  strict_weak less -> StronglySorted (not_after less) (sort_slice less l).
Proof. intros [H1 H2]. apply sort_slice_sorted_on. split; eauto. Qed.

Class GoMapRange := {
  map_range : forall {K} `{Countable K} {V : Type}, gmap K V -> list (K * V);
  map_range_perm : forall {K} `{Countable K} {V} (m : gmap K V), map_range m ≡ₚ map_to_list m
}.

(** A set is ranged over like a map. *)
Definition range_set `{GoMapRange} {K} `{Countable K} (s : gset K) : list K :=
  map fst (map_range (mapset.mapset_car s)).

Lemma range_set_perm `{GoMapRange} {K} `{Countable K} (s : gset K) : range_set s ≡ₚ elements s.
Proof. destruct s as [m]. unfold range_set. rewrite (map_range_perm m). reflexivity. Qed.

Lemma map_range_elem `{GoMapRange} {K} `{Countable K} {V} (m : gmap K V) k v :
  (k, v) ∈ map_range m <-> m !! k = Some v.
Proof. rewrite (map_range_perm m). apply elem_of_map_to_list. Qed.

Lemma map_range_nodup `{GoMapRange} {K} `{Countable K} {V} (m : gmap K V) : NoDup (map_range m).*1.
Proof.
  assert ((map_range m).*1 ≡ₚ (map_to_list m).*1) as -> by by rewrite map_range_perm.
  apply NoDup_fst_map_to_list.
Qed.

(** [sort.SliceStable]: the order of equal elements is kept, which determines
    the result; insertion sort computes it. *)
Fixpoint insert_stable {A} (less : A -> A -> bool) (x : A) (l : list A) : list A :=
  match l with
  | [] => [x]
  | y :: ys => if less y x then y :: insert_stable less x ys else x :: y :: ys
  end.

Fixpoint sort_stable {A} (less : A -> A -> bool) (l : list A) : list A :=
  match l with
  | [] => []
  | x :: xs => insert_stable less x (sort_stable less xs)
  end.

Section sort_stable.
Context {A : Type} (less : A -> A -> bool).

Lemma insert_stable_perm x l : insert_stable less x l ≡ₚ x :: l.
Proof.
  induction l as [|y ys IH]; simpl; [done|].
  destruct (less y x); [|done]. rewrite IH. apply Permutation_swap.
Qed.

Lemma sort_stable_perm l : sort_stable less l ≡ₚ l.
Proof.
  induction l as [|x xs IH]; simpl; [done|]. by rewrite insert_stable_perm, IH.
Qed.

Context (P : A -> Prop).
Hypothesis Hsw : strict_weak_on P less.

Lemma insert_stable_sorted x l :
  P x -> Forall P l -> StronglySorted (not_after less) l ->
  StronglySorted (not_after less) (insert_stable less x l).
Proof using Hsw.
  destruct Hsw as [Hasym Htrans]. intros Hx HP.
  induction 1 as [|y ys Hs IH Hall]; simpl.
  { constructor; constructor. }
  apply Forall_cons in HP as [Hy HP]. destruct (less y x) eqn:E.
  - constructor; [by apply IH|].
    rewrite insert_stable_perm. constructor; [by apply Hasym|done].
  - constructor; [by constructor|]. constructor; [done|].
    rewrite Forall_forall in Hall. rewrite Forall_forall in HP. apply Forall_forall.
    intros z Hz. apply (Htrans x y z); auto. by apply Hall.
Qed.

Lemma sort_stable_sorted l : Forall P l -> StronglySorted (not_after less) (sort_stable less l).
Proof using Hsw.
  induction 1 as [|x xs Hx HP IH]; simpl; [constructor|].
  apply insert_stable_sorted; [done|by rewrite sort_stable_perm|done].
Qed.
End sort_stable.

(** Sorting stably by a second comparison a list already in the order of a first
    one orders it by the second, then by the first. *)
Definition lex_after {A} (less less' : A -> A -> bool) (x y : A) : Prop :=
  less y x = false /\ (less x y = false -> less' y x = false).

Section sort_stable_lex.
Context {A : Type} (less less' : A -> A -> bool).
Hypothesis Hsw : strict_weak less.

Lemma insert_stable_lex x l :
  Forall (not_after less' x) l -> StronglySorted (lex_after less less') l ->
  StronglySorted (lex_after less less') (insert_stable less x l).
Proof using Hsw.
  destruct Hsw as [Hasym Htrans]. intros HF. induction 1 as [|y ys Hs IH Hall]; simpl.
  { constructor; constructor. }
  apply Forall_cons in HF as [Hy HF]. destruct (less y x) eqn:E.
  - constructor; [by apply IH|]. rewrite insert_stable_perm. constructor; [|done].
    split; [by apply Hasym|]. by rewrite E.
  - constructor; [by constructor|]. constructor; [by split|].
    rewrite Forall_forall in Hall. rewrite Forall_forall in HF. apply Forall_forall. intros z Hz.
    split; [|by intros; apply HF]. apply (Htrans x y z); [done|]. by apply Hall.
Qed.

Lemma sort_stable_lex l : StronglySorted (not_after less') l ->
  StronglySorted (lex_after less less') (sort_stable less l).
Proof using Hsw.
  induction 1 as [|x xs Hs IH Hall]; simpl; [constructor|].
  apply insert_stable_lex; [by rewrite sort_stable_perm|done].
Qed.
End sort_stable_lex.

(** The instances witnesses compute with: one admissible choice each. *)
Definition stable_go_sort : GoSort := {|
  sort_slice := @sort_stable;
  sort_slice_perm := @sort_stable_perm;
  sort_slice_sorted_on := fun A less l H =>
    @sort_stable_sorted A less (fun x => x ∈ l) H l (proj2 (Forall_forall _ l) (fun x Hx => Hx))
|}.

Definition ordered_map_range : GoMapRange := {|
  map_range := fun K _ _ V m => map_to_list m;
  map_range_perm := fun K _ _ V m => Permutation_refl _
|}.

(** Sorting by a [Z]-valued key is a strict weak order. *)
Lemma strict_weak_key {A} (key : A -> Z) :
  strict_weak (fun x y => key x <? key y).
Proof. split; intros *; rewrite ?Z.ltb_lt, ?Z.ltb_ge; lia. Qed.

(** Go compares strings bytewise: [String.ltb]. *)
Lemma string_ltb_asym x y : String.ltb x y = true -> String.ltb y x = false.
Proof.
  unfold String.ltb. rewrite (String.compare_antisym y x). by destruct (x ?= y)%string.
Qed.

Lemma string_ltb_cotrans x y z :
  String.ltb y x = false -> String.ltb z y = false -> String.ltb z x = false.
Proof.
  unfold String.ltb. revert y z.
  induction x as [|a x IH]; intros [|b y] [|c z]; simpl; try done.
  unfold Ascii.compare.
  destruct (N.compare_spec (Ascii.N_of_ascii b) (Ascii.N_of_ascii a)) as [E1|E1|E1]; [|done|];
    destruct (N.compare_spec (Ascii.N_of_ascii c) (Ascii.N_of_ascii b)) as [E2|E2|E2]; try done;
    destruct (N.compare_spec (Ascii.N_of_ascii c) (Ascii.N_of_ascii a)) as [E3|E3|E3];
    try done; try lia. by apply IH.
Qed.

Lemma string_ltb_total x y : String.ltb x y = false -> String.ltb y x = false -> x = y.
Proof.
  unfold String.ltb. rewrite (String.compare_antisym y x).
  destruct (x ?= y)%string eqn:E; try done. intros. by apply String.compare_eq_iff.
Qed.

(** ** Some element of a list *)

Definition ex_in {A} (P : A -> Prop) (l : list A) : Prop := exists x, x ∈ l /\ P x.

Lemma ex_in_nil {A} (P : A -> Prop) : ex_in P [] <-> False.
Proof. split; [intros (x & Hx & _); by apply elem_of_nil in Hx|done]. Qed.

Lemma ex_in_cons {A} (P : A -> Prop) x l : ex_in P (x :: l) <-> P x \/ ex_in P l.
Proof.
  split.
  - intros (y & [->|Hy]%elem_of_cons & HP); [by left|right; by exists y].
  - intros [HP|(y & Hy & HP)]; [exists x|exists y]; (split; [apply elem_of_cons; auto|done]).
Qed.

Lemma ex_in_app {A} (P : A -> Prop) l l' : ex_in P (l ++ l') <-> ex_in P l \/ ex_in P l'.
Proof.
  split.
  - intros (y & [Hy|Hy]%elem_of_app & HP); [left|right]; by exists y.
  - intros [(y & Hy & HP)|(y & Hy & HP)]; exists y; (split; [apply elem_of_app; auto|done]).
Qed.

Lemma ex_in_concat {A} (P : A -> Prop) (ll : list (list A)) : ex_in P (concat ll) <-> ex_in (ex_in P) ll.
Proof.
  induction ll as [|l ll IH]; simpl; [by rewrite !ex_in_nil|].
  by rewrite ex_in_app, ex_in_cons, IH.
Qed.

Lemma ex_in_map {A B} (P : A -> Prop) (f : B -> A) (l : list B) :
  ex_in P (map f l) <-> ex_in (fun x => P (f x)) l.
Proof.
  induction l as [|x l IH]; simpl; [by rewrite !ex_in_nil|]. by rewrite !ex_in_cons, IH.
Qed.

Lemma ex_in_filter {A} (P : A -> Prop) (f : A -> bool) l :
  ex_in P (List.filter f l) <-> ex_in (fun x => f x = true /\ P x) l.
Proof.
  induction l as [|x l IH]; simpl; [by rewrite !ex_in_nil|].
  destruct (f x) eqn:E; rewrite ?ex_in_cons, IH; intuition congruence.
Qed.

Lemma ex_in_iff {A} (P Q : A -> Prop) l :
  (forall x, x ∈ l -> P x <-> Q x) -> ex_in P l <-> ex_in Q l.
Proof. intros H. split; intros (x & Hx & HP); exists x; (split; [done|by apply H]). Qed.

Lemma ex_in_and_r {A} (P : A -> Prop) (Q : Prop) l :
  ex_in (fun x => P x /\ Q) l <-> ex_in P l /\ Q.
Proof.
  split; [intros (x & Hx & HP & HQ)|intros [(x & Hx & HP) HQ]]; [split; [by exists x|done]|].
  by exists x.
Qed.

Lemma ex_in_perm {A} (P : A -> Prop) l l' : l ≡ₚ l' -> ex_in P l <-> ex_in P l'.
Proof.
  intros E. split; intros (x & Hx & HP); exists x; (split; [|done]);
    [by rewrite <- E|by rewrite E].
Qed.

(** Neither equivalent predicates nor the order make a difference. *)
#[export] Instance ex_in_proper {A} :
  Proper (pointwise_relation A iff ==> Permutation ==> iff) (@ex_in A).
Proof.
  intros P Q HPQ l l' E. rewrite (ex_in_perm P l l' E). apply ex_in_iff. intros x _. apply HPQ.
Qed.

Lemma elem_of_filter_bool {A} (f : A -> bool) l x : x ∈ List.filter f l <-> x ∈ l /\ f x = true.
Proof. rewrite !list_elem_of_In. apply filter_In. Qed.

Lemma NoDup_map_filter {A B} (g : A -> B) (f : A -> bool) l : NoDup (map g l) -> NoDup (map g (List.filter f l)).
Proof.
  induction l as [|x l IH]; cbn [List.filter map]; [done|]. intros [Hn HN]%NoDup_cons.
  destruct (f x); [|by apply IH]. cbn [map]. constructor; [|by apply IH].
  intros (y & HE & [Hy _]%elem_of_filter_bool)%list_elem_of_fmap. apply Hn. rewrite HE. by apply list_elem_of_fmap_2.
Qed.

Lemma Forall_filter {A} (P : A -> Prop) (f : A -> bool) l :
  Forall P l -> Forall (fun x => f x = true /\ P x) (List.filter f l).
Proof. induction 1; simpl; [constructor|]. destruct (f x) eqn:E; [by constructor|done]. Qed.

(** Parts of sorted lists. *)
Lemma sorted_filter {A} (R : A -> A -> Prop) (f : A -> bool) l :
  StronglySorted R l -> StronglySorted R (List.filter f l).
Proof.
  induction 1 as [|x l Hl IH Hx]; simpl; [constructor|]. destruct (f x); [|done].
  constructor; [done|]. apply Forall_forall. intros y [Hy _]%elem_of_filter_bool.
  rewrite Forall_forall in Hx. by apply Hx.
Qed.

Lemma sorted_app {A} (R : A -> A -> Prop) l l' x y : StronglySorted R (l ++ l') -> x ∈ l -> y ∈ l' -> R x y.
Proof.
  induction l as [|z l IH]; cbn; intros HS Hx Hy; [by apply elem_of_nil in Hx|].
  inversion HS as [|? ? HS' HF]; subst. apply elem_of_cons in Hx as [->|Hx]; [|by apply IH].
  rewrite Forall_forall in HF. apply HF, elem_of_app. by right.
Qed.

Lemma elem_of_firstn {A} n (l : list A) x : x ∈ firstn n l -> x ∈ l.
Proof. intros Hx. rewrite <- (firstn_skipn n). apply elem_of_app. by left. Qed.

(** A symmetric relation between all pairs does not depend on the order. *)
Lemma pairwise_perm {A} (R : A -> A -> Prop) l l' :
  (forall x y, R x y -> R y x) -> l ≡ₚ l' -> ForallOrdPairs R l -> ForallOrdPairs R l'.
Proof.
  intros Hsym. induction 1 as [|x l l' E IH|x y l|l l' l'' E1 IH1 E2 IH2]; intros H.
  - done.
  - inversion H; subst. constructor; [by rewrite <- E|auto].
  - inversion H as [|? ? Hy H']; subst. inversion H' as [|? ? Hx H'']; subst.
    inversion Hy; subst. repeat (constructor; auto).
  - auto.
Qed.

Lemma pairwise_app {A} (R : A -> A -> Prop) l l' :
  ForallOrdPairs R l -> ForallOrdPairs R l' -> Forall (fun x => Forall (R x) l') l ->
  ForallOrdPairs R (l ++ l').
Proof.
  induction 1 as [|x l Hx Hl IH]; simpl; [done|]. intros H' Hc. inversion Hc; subst.
  constructor; [by apply Forall_app|auto].
Qed.

Lemma pairwise_app_inv {A} (R : A -> A -> Prop) l l' :
  ForallOrdPairs R (l ++ l') -> Forall (fun x => Forall (R x) l') l.
Proof.
  induction l as [|x l IH]; simpl; intros H; [constructor|]. inversion H as [|? ? Hx Hl]; subst.
  apply Forall_app in Hx as [_ Hx]. constructor; auto.
Qed.

(** ** Sums over maps *)

Section tally.
Context {K A : Type} `{Countable K} (f : A -> Z).
Implicit Types (m : gmap K A).

Definition tally (m : gmap K A) : Z := map_fold (fun _ x n => f x + n) 0 m.

Lemma tally_insert m t x : m !! t = None -> tally (<[t := x]> m) = f x + tally m.
Proof. intros E. unfold tally. rewrite map_fold_insert_L; [done|intros; lia|done]. Qed.

Lemma tally_update m t x y : m !! t = Some y -> tally (<[t := x]> m) = tally m - f y + f x.
Proof.
  intros E. rewrite <- (insert_delete_id m t y E) at 2.
  rewrite <- insert_delete_eq, !tally_insert by apply lookup_delete_eq. lia.
Qed.

Lemma tally_nonneg m : (forall x, 0 <= f x) -> 0 <= tally m.
Proof.
  intros Hf. unfold tally. apply (map_fold_weak_ind (fun n _ => 0 <= n)); [done|].
  intros i x m' n _ Hn. specialize (Hf x). lia.
Qed.

Lemma tally_ge m t x : (forall y, 0 <= f y) -> m !! t = Some x -> f x <= tally m.
Proof.
  intros Hf Hx. rewrite <- (insert_delete_id m t x Hx), tally_insert by apply lookup_delete_eq.
  pose proof (tally_nonneg (delete t m) Hf). lia.
Qed.

Lemma tally_pos m : 0 < tally m -> exists t x, m !! t = Some x /\ 0 < f x.
Proof.
  induction m as [|t x m E IH] using map_ind; unfold tally in *; [rewrite map_fold_empty; lia|].
  intros Hp. fold (tally (<[t := x]> m)) in Hp. rewrite tally_insert in Hp by done.
  destruct (decide (0 < f x)); [exists t, x; by rewrite lookup_insert_eq|].
  destruct IH as (t' & x' & E' & Hx); [fold (tally m); lia|]. exists t', x'. split; [|done].
  rewrite lookup_insert_ne; [done|]. intros <-. congruence.
Qed.
End tally.

Lemma tally_plus {K A} `{Countable K} (f g : A -> Z) (m : gmap K A) :
  tally (fun x => f x + g x) m = tally f m + tally g m.
Proof.
  induction m as [|t x m E IH] using map_ind; [done|]. rewrite !tally_insert by done. lia.
Qed.

Lemma tally_ext {K A} `{Countable K} (f g : A -> Z) (m : gmap K A) :
  (forall x, f x = g x) -> tally f m = tally g m.
Proof.
  intros Hfg. induction m as [|t x m E IH] using map_ind; [done|]. rewrite !tally_insert by done. congruence.
Qed.

Lemma tally_le {K A} `{Countable K} (f g : A -> Z) (m : gmap K A) :
  (forall x, f x <= g x) -> tally f m <= tally g m.
Proof.
  intros Hfg. induction m as [|t x m E IH] using map_ind; [done|]. rewrite !tally_insert by done.
  specialize (Hfg x). lia.
Qed.

(** ** Tables changed row by row *)

(** The part of one element, where each has rows of its own. *)
Lemma filter_one {A B} (f : A -> Z) (g : A -> list B) (h : B -> Z) a l :
  NoDup (map f l) -> (forall x y, y ∈ g x -> h y = f x) ->
  (forall x, x ∈ l -> f x = a -> List.filter (fun y => h y =? a) (flat_map g l) = g x) /\
  ((forall x, x ∈ l -> f x <> a) -> List.filter (fun y => h y =? a) (flat_map g l) = []).
Proof.
  intros HN Hg.
  assert (forall x, f x = a -> List.filter (fun y => h y =? a) (g x) = g x) as Hsame.
  { intros x Hx. assert (Forall (fun y => h y = a) (g x)) as HF by (apply Forall_forall; intros y Hy; rewrite <- Hx; by apply Hg).
    induction HF as [|y l' Hy HF IH]; [done|]. cbn. rewrite Hy, Z.eqb_refl. by f_equal. }
  assert (forall x, f x <> a -> List.filter (fun y => h y =? a) (g x) = []) as Hother.
  { intros x Hx. assert (Forall (fun y => h y <> a) (g x)) as HF
      by (apply Forall_forall; intros y Hy; by rewrite (Hg _ _ Hy)).
    induction HF as [|y l' Hy HF IH]; [done|]. cbn. by apply Z.eqb_neq in Hy as ->. }
  induction l as [|z l IH]; [split; [by intros x ?%elem_of_nil|done]|].
  cbn in HN. apply NoDup_cons in HN as [Hz HN]. destruct (IH HN) as [IH1 IH2]. cbn. rewrite List.filter_app. split.
  - intros x Hx E. apply elem_of_cons in Hx as [->|Hx].
    + rewrite Hsame, IH2, app_nil_r; [done| |done]. intros y Hy Ey. apply Hz. rewrite E, <- Ey. by apply list_elem_of_fmap_2.
    + rewrite Hother, (IH1 x) by (try done; intros Ez; apply Hz; rewrite Ez, <- E; by apply list_elem_of_fmap_2). done.
  - intros Hl. rewrite Hother, IH2; [done| |apply Hl; by left]. intros x Hx. apply Hl. by right.
Qed.

Section fold_alter.
Context {A K V : Type} `{Countable K} (f : A -> V -> V) (key : A -> K).
Implicit Types (m : gmap K V).

Lemma fold_alter_other l m a :
  (forall x, x ∈ l -> key x <> a) -> fold_left (fun m x => alter (f x) (key x) m) l m !! a = m !! a.
Proof.
  revert m. induction l as [|x l IH]; intros m Hl; [done|]. cbn. rewrite IH by (intros y Hy; apply Hl; by right).
  apply lookup_alter_ne. apply Hl. by left.
Qed.

Lemma fold_alter_one l m x :
  NoDup (map key l) -> x ∈ l -> fold_left (fun m x => alter (f x) (key x) m) l m !! key x = f x <$> m !! key x.
Proof.
  revert m. induction l as [|y l IH]; intros m HN Hx; [by apply elem_of_nil in Hx|].
  cbn in *. apply NoDup_cons in HN as [Hy HN]. apply elem_of_cons in Hx as [->|Hx].
  - rewrite fold_alter_other; [apply lookup_alter_eq|]. intros z Hz E. apply Hy. rewrite <- E. by apply list_elem_of_fmap_2.
  - rewrite (IH _ HN Hx). rewrite lookup_alter_ne; [done|]. intros E. apply Hy. rewrite E. by apply list_elem_of_fmap_2.
Qed.
End fold_alter.

Lemma filter_perm_fst {A} (l l' : list (Z * A)) a x :
  l ≡ₚ l' -> List.filter (fun p => fst p =? a) l' = x -> (length x <= 1)%nat -> List.filter (fun p => fst p =? a) l = x.
Proof.
  intros HP E Hx. assert (List.filter (fun p => fst p =? a) l ≡ₚ x) as HP'.
  { rewrite <- E. clear E Hx. induction HP; cbn; repeat case_match; try done; eauto using Permutation. }
  destruct x as [|y [|? ?]]; [by apply Permutation_nil_r in HP'|by apply Permutation_singleton_r in HP'|cbn in Hx; lia].
Qed.

Create HintDb oncall.
#[export] Hint Resolve wrap64_range sat64_range strict_weak_key : oncall.
