(* ===== verification/Text.v ===== *)
(** * Texts: what the program uses of [strings], [strconv] and the uuid package

    Prefixes and suffixes, decimal numbers, and an interface for the text of a
    UUID with an instance to compute with. *)

From Stdlib Require Import Ascii.
From S2P Require Import Prelude.

(** ** Prefixes and suffixes *)

Fixpoint strip_prefix (p s : string) : option string :=
  match p, s with
  | "", s => Some s
  | String a p, String b s => if Ascii.eqb a b then strip_prefix p s else None
  | _, _ => None
  end.

Lemma strip_prefix_app p : forall s rest, strip_prefix p s = Some rest -> s = (p ++ rest)%string.
Proof.
  induction p as [|a p IH]; intros s rest E; cbn in E; [by injection E as ->|].
  destruct s as [|b s]; [done|]. destruct (Ascii.eqb_spec a b) as [->|]; [|done].
  change (String b s = String b (p ++ rest)). f_equal. by apply IH.
Qed.

Lemma substring_all b : String.substring 0 (String.length b) b = b.
Proof. induction b as [|c b IH]; simpl; [done|]. by rewrite IH. Qed.

Lemma substring_app a b : String.substring (String.length a) (String.length b) (a ++ b) = b.
Proof. induction a as [|c a IH]; [apply substring_all|]. exact IH. Qed.

Lemma substring_prefix a b : String.substring 0 (String.length a) (a ++ b) = a.
Proof. induction a as [|c a IH]; simpl; [by destruct b|]. by rewrite IH. Qed.

Lemma string_length_app a b : String.length (a ++ b) = (String.length a + String.length b)%nat.
Proof. induction a as [|c a IH]; simpl; [done|]. by rewrite IH. Qed.

Lemma string_app_assoc (a b c : string) : (a ++ b ++ c = (a ++ b) ++ c)%string.
Proof. induction a as [|x a IH]; [done|]. exact (f_equal (String x) IH). Qed.

Definition HasPrefix (s p : string) : bool := match strip_prefix p s with Some _ => true | None => false end.
Definition TrimPrefix (s p : string) : string := default s (strip_prefix p s).

Definition HasSuffix (s x : string) : bool :=
  (String.length x <=? String.length s)%nat &&
  String.eqb (String.substring (String.length s - String.length x) (String.length x) s) x.
Definition TrimSuffix (s x : string) : string :=
  if HasSuffix s x then String.substring 0 (String.length s - String.length x) s else s.

(** [strings.Contains] of one character. *)
Fixpoint contains (c : ascii) (s : string) : bool :=
  match s with EmptyString => false | String d s => Ascii.eqb c d || contains c s end.

(** [strings.Contains], and [strings.Split] at a character *)
Fixpoint Contains (s sub : string) : bool :=
  HasPrefix s sub || match s with EmptyString => false | String _ s => Contains s sub end.

Fixpoint split_char (c : ascii) (s : string) : list string :=
  match s with
  | EmptyString => [EmptyString]
  | String a s =>
      match split_char c s with
      | x :: l => if Ascii.eqb a c then EmptyString :: x :: l else String a x :: l
      | [] => []
      end
  end.

Lemma strip_prefix_self p s : strip_prefix p (p ++ s) = Some s.
Proof. induction p as [|c p IH]; simpl; [done|]. by rewrite Ascii.eqb_refl. Qed.

Lemma HasPrefix_app s p : HasPrefix s p = true -> s = (p ++ TrimPrefix s p)%string.
Proof.
  unfold HasPrefix, TrimPrefix. destruct (strip_prefix p s) as [r|] eqn:E; [|done]. intros _. by apply strip_prefix_app.
Qed.

Lemma TrimPrefix_app p s : TrimPrefix (p ++ s) p = s.
Proof. unfold TrimPrefix. by rewrite strip_prefix_self. Qed.

Lemma substring_split n s : (n <= String.length s)%nat ->
  s = (String.substring 0 n s ++ String.substring n (String.length s - n) s)%string.
Proof.
  revert s. induction n as [|n IH]; intros s Hn.
  - rewrite Nat.sub_0_r, substring_all. by destruct s.
  - destruct s as [|c s]; simpl in *; [lia|]. change (String c s =
      String c (String.substring 0 n s ++ String.substring n (String.length s - n) s)). f_equal. apply IH. lia.
Qed.

Lemma HasSuffix_app s x : HasSuffix s x = true -> s = (TrimSuffix s x ++ x)%string.
Proof.
  intros H. unfold TrimSuffix. rewrite H. unfold HasSuffix in H. apply andb_true_iff in H as [Hl H].
  apply Nat.leb_le in Hl. apply String.eqb_eq in H.
  rewrite (substring_split (String.length s - String.length x) s) at 1 by lia.
  f_equal. etrans; [|exact H]. f_equal. lia.
Qed.

Lemma HasSuffix_self s x : HasSuffix (s ++ x) x = true.
Proof.
  unfold HasSuffix. rewrite string_length_app. apply andb_true_intro. split; [apply Nat.leb_le; lia|].
  apply String.eqb_eq. replace (String.length s + String.length x - String.length x)%nat with (String.length s) by lia.
  apply substring_app.
Qed.

Lemma TrimSuffix_self s x : TrimSuffix (s ++ x) x = s.
Proof.
  unfold TrimSuffix. rewrite HasSuffix_self, string_length_app.
  replace (String.length s + String.length x - String.length x)%nat with (String.length s) by lia. apply substring_prefix.
Qed.

(** ** Decimal numbers: [%d], [strconv.Itoa], [strconv.ParseInt(s, 10, 32)] and [strconv.Atoi] *)

Definition is_digit (c : Ascii.ascii) : bool := (48 <=? Ascii.nat_of_ascii c)%nat && (Ascii.nat_of_ascii c <=? 57)%nat.

Definition digit (n : Z) : Ascii.ascii := Ascii.ascii_of_nat (48 + Z.to_nat n).

Fixpoint digits (fuel : nat) (n : Z) (acc : string) : string :=
  match fuel with
  | O => acc
  | S fuel =>
      let acc := String (digit (n mod 10)) acc in
      if n <? 10 then acc else digits fuel (n / 10) acc
  end.

(** The number has at most as many digits as bits. *)
Definition utoa (n : Z) : string := digits (S (Z.to_nat (Z.log2 n))) n "".
Definition itoa (n : Z) : string := if n <? 0 then String "-"%char (utoa (- n)) else utoa n.

Fixpoint parse_digits (s : string) (acc : Z) : option Z :=
  match s with
  | EmptyString => Some acc
  | String c s =>
      if is_digit c then parse_digits s (acc * 10 + (Z.of_nat (Ascii.nat_of_ascii c) - 48)) else None
  end.

Definition ParseUint (s : string) : option Z :=
  match s with EmptyString => None | _ => parse_digits s 0 end.

Definition int32 (n : Z) : bool := (-2147483648 <=? n) && (n <=? 2147483647).

Definition parse_signed (s : string) : option Z :=
  match s with
  | String "-"%char s => n ← ParseUint s; Some (- n)
  | String "+"%char s => ParseUint s
  | _ => ParseUint s
  end.

Definition ParseInt32 (s : string) : option Z := n ← parse_signed s; if int32 n then Some n else None.

Definition int64 (n : Z) : bool := (- two63 <=? n) && (n <? two63).
Definition Atoi (s : string) : option Z := n ← parse_signed s; if int64 n then Some n else None.

(** ** Decimal numbers read back *)

Lemma is_digit_digit n : 0 <= n < 10 -> is_digit (digit n) = true /\ Z.of_nat (Ascii.nat_of_ascii (digit n)) = 48 + n.
Proof.
  intros Hn. unfold is_digit, digit. rewrite Ascii.nat_ascii_embedding by lia. split; [|lia].
  apply andb_true_intro. split; apply Nat.leb_le; lia.
Qed.

Lemma digits_parse fuel : forall n acc, 0 <= n < 2 ^ Z.of_nat fuel -> (0 < fuel)%nat ->
  exists p, forall a, parse_digits (digits fuel n acc) a = parse_digits acc (a * p + n).
Proof.
  induction fuel as [|fuel IH]; intros n acc Hn Hf; [lia|]. cbn [digits].
  pose proof (Z.mod_pos_bound n 10 ltac:(lia)) as Hm.
  destruct (is_digit_digit (n mod 10) Hm) as [HD HV].
  destruct (n <? 10) eqn:E; bprop.
  - exists 10. intros a. cbn [parse_digits]. rewrite HD, HV, Z.mod_small by lia. f_equal. lia.
  - destruct (decide (fuel = 0%nat)) as [->|]; [change (2 ^ Z.of_nat 1) with 2 in Hn; lia|].
    destruct (IH (n / 10) (String (digit (n mod 10)) acc)) as [p Hp]; [|lia|].
    { rewrite Nat2Z.inj_succ, Z.pow_succ_r in Hn by lia. dlia. }
    exists (10 * p). intros a. rewrite Hp. cbn [parse_digits]. rewrite HD, HV. f_equal. dlia.
Qed.

Lemma digits_head fuel : forall n acc, 0 <= n -> (0 < fuel)%nat ->
  exists c s, digits fuel n acc = String c s /\ is_digit c = true.
Proof.
  induction fuel as [|fuel IH]; intros n acc Hn Hf; [lia|]. cbn [digits].
  destruct (is_digit_digit (n mod 10)) as [HD _]; [apply Z.mod_pos_bound; lia|].
  destruct (n <? 10); [eauto|]. destruct fuel; [simpl; eauto|]. apply IH; [|lia].
  apply Z.div_pos; lia.
Qed.

Lemma ParseUint_utoa n : 0 <= n -> ParseUint (utoa n) = Some n.
Proof.
  intros Hn. unfold utoa. set (fuel := S (Z.to_nat (Z.log2 n))).
  destruct (digits_head fuel n "" Hn ltac:(lia)) as (c & s & E & _).
  destruct (digits_parse fuel n "") as [p Hp]; [|lia|].
  { split; [done|]. unfold fuel. rewrite Nat2Z.inj_succ, Z2Nat.id by apply Z.log2_nonneg.
    destruct (decide (n = 0)) as [->|]; [done|]. apply Z.log2_spec. lia. }
  specialize (Hp 0). unfold ParseUint. rewrite E in *. rewrite Hp. done.
Qed.

Lemma parse_signed_itoa n : parse_signed (itoa n) = Some n.
Proof.
  unfold parse_signed, itoa. destruct (n <? 0) eqn:E; bprop.
  - rewrite ParseUint_utoa by lia. simpl. by rewrite Z.opp_involutive.
  - pose proof (ParseUint_utoa n E) as HP.
    destruct (digits_head (S (Z.to_nat (Z.log2 n))) n "" E ltac:(lia)) as (c & s & Ed & Hc).
    fold (utoa n) in Ed. rewrite Ed in *.
    destruct c as [[] [] [] [] [] [] [] []]; try discriminate Hc; exact HP.
Qed.

Lemma ParseInt32_itoa n : int32 n = true -> ParseInt32 (itoa n) = Some n.
Proof. intros Hn. unfold ParseInt32. rewrite parse_signed_itoa. simpl. by rewrite Hn. Qed.

Lemma ParseInt32_range s n : ParseInt32 s = Some n -> int32 n = true.
Proof.
  unfold ParseInt32. intros E. apply bind_Some in E as (m & _ & E).
  destruct (int32 m) eqn:Em; congruence.
Qed.

Lemma itoa_nonempty n : (1 <= String.length (itoa n))%nat.
Proof.
  unfold itoa. destruct (n <? 0) eqn:E; bprop; [simpl; lia|].
  destruct (digits_head (S (Z.to_nat (Z.log2 n))) n "" E ltac:(lia)) as (c & s & Ed & _).
  unfold utoa. rewrite Ed. simpl. lia.
Qed.

(** ** UUIDs *)

(** [uuid.Nil] *)
Definition uuid_Nil : UUID := 0.

Definition is_uuid (u : UUID) : Prop := 0 <= u < 2 ^ 128.

(** What the program uses of the uuid package. *)
Class UUIDText := {
  uuid_String : UUID -> string;
  uuid_Parse : string -> option UUID;
  uuid_String_length : forall u, String.length (uuid_String u) = 36%nat;
  uuid_Parse_String : forall u, is_uuid u -> uuid_Parse (uuid_String u) = Some u;
  uuid_Parse_range : forall s u, uuid_Parse s = Some u -> is_uuid u
}.

Lemma uuid_String_inj `{UUIDText} u v : is_uuid u -> is_uuid v -> uuid_String u = uuid_String v -> u = v.
Proof. intros Hu Hv E. apply uuid_Parse_String in Hu, Hv. rewrite E in Hu. congruence. Qed.

(** Thirty-six letters from "a" to "p", a nibble each. *)
Fixpoint nibbles (k : nat) (n : Z) (acc : string) : string :=
  match k with
  | O => acc
  | S k => nibbles k (n / 16) (String (ascii_of_nat (97 + Z.to_nat (n mod 16))) acc)
  end.

Fixpoint parse_nibbles (s : string) (acc : Z) : option Z :=
  match s with
  | EmptyString => Some acc
  | String c s =>
      let v := Z.of_nat (nat_of_ascii c) - 97 in
      if (0 <=? v) && (v <? 16) then parse_nibbles s (acc * 16 + v) else None
  end.

Lemma nibbles_length k : forall n acc, String.length (nibbles k n acc) = (k + String.length acc)%nat.
Proof. induction k as [|k IH]; intros; cbn [nibbles]; [done|]. rewrite IH. simpl. lia. Qed.

Lemma nibbles_parse k : forall n acc a, 0 <= n < 16 ^ Z.of_nat k ->
  parse_nibbles (nibbles k n acc) a = parse_nibbles acc (a * 16 ^ Z.of_nat k + n).
Proof.
  induction k as [|k IH]; intros n acc a Hn; cbn [nibbles].
  { change (16 ^ Z.of_nat 0) with 1 in *. f_equal. lia. }
  rewrite Nat2Z.inj_succ, Z.pow_succ_r in Hn by lia.
  pose proof (Z.mod_pos_bound n 16 ltac:(lia)) as Hm.
  rewrite IH by dlia. cbn [parse_nibbles]. rewrite nat_ascii_embedding by lia.
  replace (Z.of_nat (97 + Z.to_nat (n mod 16)) - 97) with (n mod 16) by lia.
  rewrite (proj2 (Z.leb_le _ _)), (proj2 (Z.ltb_lt _ _)) by lia. cbn [andb]. f_equal.
  rewrite Nat2Z.inj_succ, Z.pow_succ_r by lia. dlia.
Qed.

Definition nibble_Parse (s : string) : option Z :=
  if (String.length s =? 36)%nat then
    n ← parse_nibbles s 0;
    if (0 <=? n) && (n <? 2 ^ 128) then Some n else None
  else None.

Lemma nibble_Parse_String u : is_uuid u -> nibble_Parse (nibbles 36 u "") = Some u.
Proof.
  intros Hu. unfold nibble_Parse. rewrite nibbles_length. cbn [String.length Nat.add Nat.eqb].
  rewrite nibbles_parse.
  - cbn [parse_nibbles mbind option_bind]. rewrite Z.mul_0_l, Z.add_0_l. destruct Hu as [H1 H2].
    by rewrite (proj2 (Z.leb_le _ _) H1), (proj2 (Z.ltb_lt _ _) H2).
  - destruct Hu as [H1 H2]. split; [done|]. etransitivity; [exact H2|].
    change (16 ^ Z.of_nat 36) with (2 ^ 144). by apply Z.pow_lt_mono_r.
Qed.

Lemma nibble_Parse_range s u : nibble_Parse s = Some u -> is_uuid u.
Proof.
  unfold nibble_Parse. destruct (String.length s =? 36)%nat; [|done]. intros E.
  apply bind_Some in E as (n & _ & E). destruct ((0 <=? n) && (n <? 2 ^ 128)) eqn:B; [|done].
  injection E as ->. by bprop.
Qed.

Definition nibble_uuid : UUIDText := {|
  uuid_String := fun u => nibbles 36 u "";
  uuid_Parse := nibble_Parse;
  uuid_String_length := fun u => nibbles_length 36 u "";
  uuid_Parse_String := nibble_Parse_String;
  uuid_Parse_range := nibble_Parse_range
|}.

(** ** [base64.RawURLEncoding]

    Six bits a letter, no padding.  The decoder skips line breaks and does not
    look at the bits that are left over. *)

Definition b64_char (v : Z) : ascii :=
  ascii_of_nat (Z.to_nat (if v <? 26 then 65 + v else if v <? 52 then 97 + (v - 26) else if v <? 62 then 48 + (v - 52)
    else if v =? 62 then 45 else 95)).

Definition b64_value (c : ascii) : option Z :=
  let n := Z.of_nat (nat_of_ascii c) in
  if (65 <=? n) && (n <=? 90) then Some (n - 65)
  else if (97 <=? n) && (n <=? 122) then Some (n - 97 + 26)
  else if (48 <=? n) && (n <=? 57) then Some (n - 48 + 52)
  else if n =? 45 then Some 62
  else if n =? 95 then Some 63
  else None.

Definition line_break (c : ascii) : bool := (nat_of_ascii c =? 10)%nat || (nat_of_ascii c =? 13)%nat.

Fixpoint b64_values (s : string) : option (list Z) :=
  match s with
  | EmptyString => Some []
  | String c s =>
      if line_break c then b64_values s
      else v ← b64_value c; vs ← b64_values s; Some (v :: vs)
  end.

Fixpoint b64_bytes (vs : list Z) : option (list Z) :=
  match vs with
  | a :: b :: c :: d :: vs =>
      bs ← b64_bytes vs;
      Some (a * 4 + b / 16 :: b mod 16 * 16 + c / 4 :: c mod 4 * 64 + d :: bs)
  | [a; b; c] => Some [a * 4 + b / 16; b mod 16 * 16 + c / 4]
  | [a; b] => Some [a * 4 + b / 16]
  | [_] => None
  | [] => Some []
  end.

Definition DecodeString (s : string) : option (list Z) := vs ← b64_values s; b64_bytes vs.

Fixpoint b64_split (bs : list Z) : list Z :=
  match bs with
  | x :: y :: z :: bs => x / 4 :: x mod 4 * 16 + y / 16 :: y mod 16 * 4 + z / 64 :: z mod 64 :: b64_split bs
  | [x; y] => [x / 4; x mod 4 * 16 + y / 16; y mod 16 * 4]
  | [x] => [x / 4; x mod 4 * 16]
  | [] => []
  end.

Definition EncodeToString (bs : list Z) : string := foldr (fun v s => String (b64_char v) s) "" (b64_split bs).

Definition byte (b : Z) : Prop := 0 <= b < 256.

Lemma list_ind3 {A} (P : list A -> Prop) :
  P [] -> (forall x, P [x]) -> (forall x y, P [x; y]) -> (forall x y z l, P l -> P (x :: y :: z :: l)) -> forall l, P l.
Proof.
  intros H0 H1 H2 H3. fix IH 1. intros [|x [|y [|z l]]]; [apply H0|apply H1|apply H2|apply H3, IH].
Qed.

Lemma b64_value_char v : 0 <= v < 64 -> line_break (b64_char v) = false /\ b64_value (b64_char v) = Some v.
Proof.
  intros Hv. assert (forallb (fun n => let v := Z.of_nat n in
    negb (line_break (b64_char v)) && bool_decide (b64_value (b64_char v) = Some v)) (seq 0 64) = true) as HA by (vm_compute; reflexivity).
  rewrite forallb_forall in HA. specialize (HA (Z.to_nat v) ltac:(apply in_seq; lia)). cbv zeta in HA.
  rewrite Z2Nat.id in HA by lia. apply andb_true_iff in HA as [H1 H2]. apply negb_true_iff in H1.
  apply bool_decide_eq_true_1 in H2. done.
Qed.

Lemma b64_value_range c v : b64_value c = Some v -> 0 <= v < 64.
Proof. unfold b64_value. intros E. bcase_all; simplify_eq; lia. Qed.

Lemma b64_split_range bs : Forall byte bs -> Forall (fun v => 0 <= v < 64) (b64_split bs).
Proof.
  induction bs as [|x|x y|x y z bs IH] using list_ind3; intros HF; cbn [b64_split]; rewrite ?Forall_cons in HF; unfold byte in HF;
    [constructor|repeat (constructor; [dlia|])..]; try constructor. apply IH. tauto.
Qed.

Lemma b64_values_encode vs : Forall (fun v => 0 <= v < 64) vs -> b64_values (foldr (fun v s => String (b64_char v) s) "" vs) = Some vs.
Proof.
  induction 1 as [|v vs Hv HF IH]; cbn [foldr b64_values]; [done|]. destruct (b64_value_char v Hv) as [-> ->].
  by rewrite IH.
Qed.

Lemma b64_bytes_split bs : Forall byte bs -> b64_bytes (b64_split bs) = Some bs.
Proof.
  induction bs as [|x|x y|x y z bs IH] using list_ind3; intros HF; cbn [b64_split b64_bytes]; rewrite ?Forall_cons in HF; unfold byte in HF;
    [done|repeat f_equal; dlia..|]. destruct HF as (Hx & Hy & Hz & HF). rewrite (IH HF). cbn. repeat f_equal; dlia.
Qed.

Lemma DecodeString_Encode bs : Forall byte bs -> DecodeString (EncodeToString bs) = Some bs.
Proof.
  intros HF. unfold DecodeString, EncodeToString. rewrite b64_values_encode by by apply b64_split_range. by apply b64_bytes_split.
Qed.

Lemma b64_values_range s vs : b64_values s = Some vs -> Forall (fun v => 0 <= v < 64) vs.
Proof.
  revert vs. induction s as [|c s IH]; intros vs E; cbn [b64_values] in E; [injection E as <-; constructor|].
  destruct (line_break c); [by apply IH|]. apply bind_Some in E as (v & Ev & E). apply bind_Some in E as (vs' & Es & [= <-]).
  constructor; [by eapply b64_value_range|by apply IH].
Qed.

Lemma DecodeString_bytes s bs : DecodeString s = Some bs -> Forall byte bs.
Proof.
  unfold DecodeString. intros E. apply bind_Some in E as (vs & Ev & E). apply b64_values_range in Ev.
  revert bs Ev E. induction vs as [vs IH] using (induction_ltof1 _ (@length Z)); unfold ltof in IH. intros bs HF E.
  destruct vs as [|a [|b [|c [|d vs]]]]; cbn [b64_bytes] in E; try (apply bind_Some in E as (bs' & Eb & E)); simplify_eq;
    rewrite ?Forall_cons in HF; unfold byte; repeat (constructor; [dlia|]); try constructor.
  eapply IH; [|apply HF|exact Eb]. simpl. lia.
Qed.
