(* ===== verification/Unicode.v ===== *)
(** * Texts as runes: [unicode/utf8] and what the program uses of [unicode]

    A Go string is bytes; ranging over it, or converting it to runes, decodes
    UTF-8, and a byte that does not belong to a valid encoding is the rune
    U+FFFD.  The tables of [unicode] are an interface with the values that the
    program relies on. *)

From Stdlib Require Import Ascii.
From S2P Require Import Prelude Text.

#[local] Ltac Zify.zify_post_hook ::= Z.div_mod_to_equations.

Definition RuneError : Z := 65533.

Definition code (c : ascii) : Z := Z.of_N (N_of_ascii c).
Definition char (z : Z) : ascii := ascii_of_N (Z.to_N z).

(** A Unicode scalar value. *)
Definition valid_rune (r : Z) : Prop := 0 <= r < 55296 \/ 57344 <= r <= 1114111.

(** ** Encoding *)

Definition EncodeRune (r : Z) : string :=
  if (r <? 0) || (1114111 <? r) || ((55296 <=? r) && (r <=? 57343)) then
    String (char 239) (String (char 191) (String (char 189) ""))
  else if r <? 128 then String (char r) ""
  else if r <? 2048 then String (char (192 + r / 64)) (String (char (128 + r mod 64)) "")
  else if r <? 65536 then
    String (char (224 + r / 4096)) (String (char (128 + r / 64 mod 64)) (String (char (128 + r mod 64)) ""))
  else
    String (char (240 + r / 262144)) (String (char (128 + r / 4096 mod 64))
      (String (char (128 + r / 64 mod 64)) (String (char (128 + r mod 64)) ""))).

(** [string(runes)] *)
Definition text (rs : list Z) : string := foldr (fun r s => (EncodeRune r ++ s)%string) "" rs.

(** ** Decoding *)

Definition cont (c : ascii) : bool := (128 <=? code c) && (code c <=? 191).
Definition between (lo hi : Z) (c : ascii) : bool := (lo <=? code c) && (code c <=? hi).

(** The first rune of a string that is not empty, and how many bytes follow its
    first. *)
Definition DecodeRune (c0 : ascii) (s : string) : Z * nat :=
  let b0 := code c0 in
  let bad := (RuneError, 0%nat) in
  if b0 <? 128 then (b0, 0%nat)
  else if between 194 223 c0 then
    match s with
    | String c1 _ => if cont c1 then ((b0 - 192) * 64 + (code c1 - 128), 1%nat) else bad
    | _ => bad
    end
  else if between 224 239 c0 then
    match s with
    | String c1 (String c2 _) =>
        let ok := if b0 =? 224 then between 160 191 c1 else if b0 =? 237 then between 128 159 c1 else cont c1 in
        if ok && cont c2 then ((b0 - 224) * 4096 + (code c1 - 128) * 64 + (code c2 - 128), 2%nat) else bad
    | _ => bad
    end
  else if between 240 244 c0 then
    match s with
    | String c1 (String c2 (String c3 _)) =>
        let ok := if b0 =? 240 then between 144 191 c1 else if b0 =? 244 then between 128 143 c1 else cont c1 in
        if ok && cont c2 && cont c3 then
          ((b0 - 240) * 262144 + (code c1 - 128) * 4096 + (code c2 - 128) * 64 + (code c3 - 128), 3%nat)
        else bad
    | _ => bad
    end
  else bad.

Fixpoint runes_from (skip : nat) (s : string) : list Z :=
  match s with
  | "" => []
  | String c s =>
      match skip with
      | S k => runes_from k s
      | O => let '(r, n) := DecodeRune c s in r :: runes_from n s
      end
  end.

(** [[]rune(s)], and [range s] *)
Definition runes (s : string) : list Z := runes_from 0 s.

(** ** Decoding is the inverse of encoding *)

Lemma code_range c : 0 <= code c < 256.
Proof. unfold code. pose proof (N_ascii_bounded c). lia. Qed.

Lemma code_char z : 0 <= z < 256 -> code (char z) = z.
Proof. intros Hz. unfold code, char. rewrite N_ascii_embedding by lia. lia. Qed.

Lemma between_spec lo hi c : between lo hi c = true <-> lo <= code c <= hi.
Proof. unfold between. rewrite andb_true_iff, !Z.leb_le. lia. Qed.

Lemma cont_char z : 0 <= z < 64 -> cont (char (128 + z)) = true.
Proof. intros Hz. apply between_spec. rewrite code_char; lia. Qed.

Lemma DecodeRune_valid c s : valid_rune (DecodeRune c s).1.
Proof.
  assert (valid_rune RuneError) as HE by (right; unfold RuneError; lia).
  pose proof (code_range c). unfold DecodeRune. unfold cont in *. destruct (Z.ltb_spec (code c) 128); [left; cbn; lia|].
  destruct (between 194 223 c) eqn:B1; [|destruct (between 224 239 c) eqn:B2; [|destruct (between 240 244 c) eqn:B3; [|done]]].
  - destruct s as [|c1 s]; [done|]. destruct (_ && _) eqn:C1; [|done]. apply between_spec in B1, C1. left. cbn. lia.
  - destruct s as [|c1 [|c2 s]]; [done..|]. destruct (_ && _) eqn:C; [|done]. apply andb_true_iff in C as [C1 C2].
    apply between_spec in B2, C2. unfold valid_rune. cbn.
    destruct (Z.eqb_spec (code c) 224); [|destruct (Z.eqb_spec (code c) 237)]; apply between_spec in C1; lia.
  - destruct s as [|c1 [|c2 [|c3 s]]]; [done..|]. destruct (_ && _ && _) eqn:C; [|done].
    apply andb_true_iff in C as [C C3]. apply andb_true_iff in C as [C1 C2]. apply between_spec in B3, C2, C3.
    unfold valid_rune. cbn. destruct (Z.eqb_spec (code c) 240); [|destruct (Z.eqb_spec (code c) 244)]; apply between_spec in C1; lia.
Qed.

Lemma runes_from_valid s : forall k, Forall valid_rune (runes_from k s).
Proof.
  induction s as [|c s IH]; intros k; cbn; [constructor|]. destruct k as [|k]; [|apply IH].
  pose proof (DecodeRune_valid c s) as HV. destruct (DecodeRune c s) as [r n]. by constructor.
Qed.

Lemma runes_valid s : Forall valid_rune (runes s).
Proof. apply runes_from_valid. Qed.

Lemma append_cons c a b : (String c a ++ b = String c (a ++ b))%string.
Proof. reflexivity. Qed.

Lemma append_nil b : ("" ++ b = b)%string.
Proof. reflexivity. Qed.

(** A rune is read back, whatever follows. *)
Lemma runes_encode r s : valid_rune r -> runes (EncodeRune r ++ s) = r :: runes s.
Proof.
  intros Hr. unfold EncodeRune, runes.
  assert ((r <? 0) || (1114111 <? r) || ((55296 <=? r) && (r <=? 57343)) = false) as ->.
  { apply not_true_is_false. rewrite !orb_true_iff, andb_true_iff, !Z.ltb_lt, !Z.leb_le. unfold valid_rune in Hr. lia. }
  assert (0 <= r <= 1114111) as Hb by (unfold valid_rune in Hr; lia).
  destruct (Z.ltb_spec r 128); [|destruct (Z.ltb_spec r 2048); [|destruct (Z.ltb_spec r 65536)]].
  - change (runes_from 0 (String (char r) s) = r :: runes_from 0 s). cbn [runes_from]. unfold DecodeRune.
    rewrite code_char by lia. by rewrite (proj2 (Z.ltb_lt _ _)).
  - assert (between 194 223 (char (192 + r / 64)) = true) as E0 by (apply between_spec; rewrite code_char; lia).
    rewrite !append_cons, append_nil. cbn [runes_from]. unfold DecodeRune. rewrite E0, cont_char by lia. rewrite !code_char by lia.
    rewrite (proj2 (Z.ltb_ge _ 128)) by lia. cbn [runes_from]. f_equal. lia.
  - assert (between 194 223 (char (224 + r / 4096)) = false) as E0 by (apply not_true_is_false; rewrite between_spec, code_char; lia).
    assert (between 224 239 (char (224 + r / 4096)) = true) as E1 by (apply between_spec; rewrite code_char; lia).
    assert ((if 224 + r / 4096 =? 224 then between 160 191 (char (128 + r / 64 mod 64))
             else if 224 + r / 4096 =? 237 then between 128 159 (char (128 + r / 64 mod 64)) else cont (char (128 + r / 64 mod 64))) = true) as E2.
    { unfold valid_rune in Hr. destruct (Z.eqb_spec (224 + r / 4096) 224); [apply between_spec; rewrite code_char; lia|].
      destruct (Z.eqb_spec (224 + r / 4096) 237); [apply between_spec; rewrite code_char; lia|apply cont_char; lia]. }
    rewrite !append_cons, append_nil. cbn [runes_from]. unfold DecodeRune. rewrite E0, E1, !code_char by lia. rewrite E2, cont_char by lia.
    rewrite (proj2 (Z.ltb_ge _ 128)) by lia. cbn [andb runes_from]. f_equal. lia.
  - assert (between 194 223 (char (240 + r / 262144)) = false) as E0 by (apply not_true_is_false; rewrite between_spec, code_char; lia).
    assert (between 224 239 (char (240 + r / 262144)) = false) as E1 by (apply not_true_is_false; rewrite between_spec, code_char; lia).
    assert (between 240 244 (char (240 + r / 262144)) = true) as E2 by (apply between_spec; rewrite code_char; lia).
    assert ((if 240 + r / 262144 =? 240 then between 144 191 (char (128 + r / 4096 mod 64))
             else if 240 + r / 262144 =? 244 then between 128 143 (char (128 + r / 4096 mod 64)) else cont (char (128 + r / 4096 mod 64))) = true) as E3.
    { destruct (Z.eqb_spec (240 + r / 262144) 240); [apply between_spec; rewrite code_char; lia|].
      destruct (Z.eqb_spec (240 + r / 262144) 244); [apply between_spec; rewrite code_char; lia|apply cont_char; lia]. }
    rewrite !append_cons, append_nil. cbn [runes_from]. unfold DecodeRune. rewrite E0, E1, E2, !code_char by lia. rewrite E3, !cont_char by lia.
    rewrite (proj2 (Z.ltb_ge _ 128)) by lia. cbn [andb runes_from]. f_equal. lia.
Qed.

Lemma runes_text rs : Forall valid_rune rs -> runes (text rs) = rs.
Proof.
  induction 1 as [|r rs Hr _ IH]; [done|]. cbn [text foldr]. rewrite runes_encode by done. by rewrite <- IH at 2.
Qed.

(** ** The tables *)

Class Unicode := {
  IsPrint : Z -> bool;
  IsSpace : Z -> bool;
  LowerRune : Z -> Z;
  LowerRune_ascii : forall r, 0 <= r < 128 -> LowerRune r = if (65 <=? r) && (r <=? 90) then r + 32 else r;
  IsPrint_space : IsPrint 32 = true;
  IsPrint_ellipsis : IsPrint 8230 = true;
  IsSpace_ascii : IsSpace 9 = true /\ IsSpace 10 = true /\ IsSpace 32 = true;
  IsSpace_ellipsis : IsSpace 8230 = false;
  IsPrint_only_space : forall r, IsPrint r = true -> IsSpace r = true -> r = 32
}.

(** ASCII, and the ellipsis. *)
Definition ascii_unicode : Unicode.
Proof.
  refine {| IsPrint := fun r => ((32 <=? r) && (r <=? 126)) || (r =? 8230);
            IsSpace := fun r => ((9 <=? r) && (r <=? 13)) || (r =? 32);
            LowerRune := fun r => if (65 <=? r) && (r <=? 90) then r + 32 else r |}; try done.
  intros r HP HS. rewrite orb_true_iff, andb_true_iff, !Z.leb_le, Z.eqb_eq in HP, HS. lia.
Defined.

(** [strings.ToLower] *)
Definition ToLower {HU : Unicode} (s : string) : string := text (map LowerRune (runes s)).
