(* ===== verification/Validate.v ===== *)
(** * Validation of fields: [validation/validate], [validation]

    The validators of texts and numbers, and the functions that change a text so
    that it is valid.  A text is worked on as its runes where the code does: the
    separators it splits at and replaces are ASCII, for which the two are the same.
    Telephone numbers, addresses, URLs and JMESPath are checked by libraries. *)

From Stdlib Require Import Ascii.
From S2P Require Import Prelude Text Unicode.

(** ** Errors *)

Record FieldError := mkFieldErr { fe_field : string; fe_reason : string }.

(** A field error, several, or an error of another kind. *)
Inductive VErr := Field (e : FieldError) | MultiField (l : list FieldError) | OtherError (text : string).

Definition NewFieldError (fname reason : string) : option VErr := Some (Field (mkFieldErr fname reason)).

(** [validation.AddPrefix] *)
Definition AddPrefix (p : string) (err : option VErr) : option VErr :=
  let f e := mkFieldErr (p ++ fe_field e)%string (fe_reason e) in
  match err with
  | Some (Field e) => Some (Field (f e))
  | Some (MultiField l) => Some (MultiField (map f l))
  | _ => err
  end.

(** [Many]: field errors are collected, another error is returned at once. *)
Fixpoint flatten (errs : list (option VErr)) : list FieldError + VErr :=
  match errs with
  | [] => inl []
  | None :: errs => flatten errs
  | Some (OtherError t) :: _ => inr (OtherError t)
  | Some (Field e) :: errs => match flatten errs with inl l => inl (e :: l) | r => r end
  | Some (MultiField l) :: errs => match flatten errs with inl l' => inl (l ++ l') | r => r end
  end.

Definition Many (errs : list (option VErr)) : option VErr :=
  match flatten errs with
  | inr e => Some e
  | inl [] => None
  | inl [e] => Some (Field e)
  | inl l => Some (MultiField l)
  end.

(** ** Numbers and options *)

Definition Range (fname : string) (val min max : Z) : option VErr :=
  if (min =? 0) && (val <? 0) then NewFieldError fname "must not be negative"
  else if val <? min then NewFieldError fname ("must not be below " ++ itoa min)
  else if max <? val then NewFieldError fname ("must not be over " ++ itoa max)
  else None.

Definition Len {A} (fname : string) (val : list A) (min max : Z) : option VErr :=
  if Z.of_nat (length val) <? min then NewFieldError fname ("must have at least " ++ itoa min ++ " items")
  else if max <? Z.of_nat (length val) then NewFieldError fname ("must have at most " ++ itoa max ++ " items")
  else None.

Definition Duration (fname : string) (show : Z -> string) (val min max : Z) : option VErr :=
  if val <? min then NewFieldError fname ("must not be below " ++ show min)
  else if max <? val then NewFieldError fname ("must not be over " ++ show max)
  else None.

Fixpoint join (sep : string) (l : list string) : string :=
  match l with
  | [] => ""
  | [s] => s
  | s :: l => s ++ sep ++ join sep l
  end.

Definition OneOf (fname value : string) (options : list string) : option VErr :=
  if existsb (fun o => String.eqb o value) options then None
  else NewFieldError fname ("must be one of: " ++ join ", " options).

(** ** Operations on runes *)

(** [strings.ReplaceAll]: from the left, without overlap. *)
Fixpoint replace_from (old new : list Z) (skip : nat) (s : list Z) : list Z :=
  match s with
  | [] => []
  | r :: s' =>
      match skip with
      | S k => replace_from old new k s'
      | O => if bool_decide (take (length old) s = old) then new ++ replace_from old new (length old - 1) s'
             else r :: replace_from old new 0 s'
      end
  end.

(** [old] is not empty. *)
Definition ReplaceAll (s old new : list Z) : list Z := replace_from old new 0 s.

(** [strings.Split] at one rune *)
Fixpoint split_at (sep : Z) (s : list Z) : list (list Z) :=
  match s with
  | [] => [[]]
  | r :: s =>
      if r =? sep then [] :: split_at sep s
      else match split_at sep s with
           | line :: lines => (r :: line) :: lines
           | [] => [[r]]
           end
  end.

Fixpoint join_with (sep : Z) (lines : list (list Z)) : list Z :=
  match lines with
  | [] => []
  | [l] => l
  | l :: lines => l ++ sep :: join_with sep lines
  end.

Fixpoint trim_left (p : Z -> bool) (s : list Z) : list Z :=
  match s with
  | [] => []
  | r :: s' => if p r then trim_left p s' else s
  end.

Definition trim_right (p : Z -> bool) (s : list Z) : list Z := reverse (trim_left p (reverse s)).

Section validate.
Context {HU : Unicode}.

Definition TrimSpace (s : list Z) : list Z := trim_right IsSpace (trim_left IsSpace s).

(** ** Texts: [text.go] *)

Definition tab : Z := 9.
Definition newline : Z := 10.
Definition space : Z := 32.
Definition ellipsis : Z := 8230.

Definition text_rune (r : Z) : bool := IsPrint r || (r =? tab) || (r =? newline).

Definition SanitizeText (body : string) (maxLen : Z) : string :=
  let body := omap (fun r => if text_rune r then Some r else if IsSpace r then Some space else None) (runes body) in
  let lines := map (trim_right (fun r => (r =? space) || (r =? tab))) (split_at newline body) in
  let body := join_with newline lines in
  let body := ReplaceAll body [newline; newline; newline] [newline; newline] in
  let body := TrimSpace body in
  if (0 <? maxLen) && (maxLen <? Z.of_nat (length body)) then text (take (Z.to_nat (maxLen - 1)) body ++ [ellipsis])
  else text body.

Definition first_and_last (r : list Z) : option (Z * Z) := f ← head r; l ← last r; Some (f, l).

Definition RequiredText (fname body : string) (min max : Z) : option VErr :=
  let r := runes body in
  let l := Z.of_nat (length r) in
  if (l =? 0) && (min =? 0) then None
  else if (1 <? min) && (l <? min) then NewFieldError fname ("must be at least " ++ itoa min ++ " characters")
  else if (min =? 1) && (l <? min) then NewFieldError fname "must not be empty"
  else if max <? l then NewFieldError fname ("cannot exceed " ++ itoa max ++ " characters")
  else if negb (forallb text_rune r) then NewFieldError fname "only printable characters allowed"
  else match first_and_last r with
       | Some (f, l) =>
           if IsSpace f then NewFieldError fname "cannot begin with a space"
           else if IsSpace l then NewFieldError fname "cannot end with a space"
           else None
       | None => Some (OtherError "index out of range")    (* a panic *)
       end.

Definition Text (fname body : string) (min max : Z) : option VErr :=
  if String.eqb body "" then None else RequiredText fname body min max.

Definition MeasurementID (fname value : string) : option VErr :=
  if negb (HasPrefix value "G-") then NewFieldError fname "must start with G-" else Text fname value 0 50.

(** [search.go] *)
Definition Search_ (fname body : string) : option VErr :=
  if String.eqb body "" then None
  else if 255 <? Z.of_nat (length (runes body)) then NewFieldError fname "cannot exceed 255 characters"
  else if negb (forallb text_rune (runes body)) then NewFieldError fname "only printable characters allowed"
  else None.

(** ** Names: [name.go], [idname.go], [username.go] *)

Definition upperLimit : Z := 256.

Definition SanitizeName (name : string) : string :=
  let name := omap (fun r => if IsSpace r then Some space else if IsPrint r then Some r else None) (runes name) in
  let name := TrimSpace name in
  let name := ReplaceAll name [space; space] [space] in
  if Z.of_nat (length name) <? 1 then ""
  else if upperLimit <? Z.of_nat (length name) then text (TrimSpace (take (Z.to_nat upperLimit) name))
  else text name.

Definition Name (fname name : string) : option VErr :=
  let r := runes name in
  let l := Z.of_nat (length r) in
  if l <? 1 then NewFieldError fname "must not be empty"
  else if upperLimit <? l then NewFieldError fname ("cannot be more than " ++ itoa upperLimit ++ " characters")
  else if existsb (fun c => (IsSpace c && negb (c =? space)) || negb (IsPrint c)) r then
    NewFieldError fname "can only contain printable characters"
  else if negb (bool_decide (TrimSpace r = r)) then NewFieldError fname "must not begin or end with space"
  else None.

Definition lower (c : ascii) : bool := between 97 122 c.
Definition upper (c : ascii) : bool := between 65 90 c.

Fixpoint all_chars (p : ascii -> bool) (s : string) : bool :=
  match s with "" => true | String c s => p c && all_chars p s end.

(** [^[a-zA-Z0-9 \-_']+$] *)
Definition idRx (s : string) : bool :=
  negb (String.eqb s "") &&
  all_chars (fun c => lower c || upper c || is_digit c || Ascii.eqb c " " || Ascii.eqb c "-" || Ascii.eqb c "_" || Ascii.eqb c "'") s.

Definition last_char (s : string) : option ascii := String.get (String.length s - 1) s.

Definition IDName (fname name : string) : option VErr :=
  let l := Z.of_nat (String.length name) in
  if l <? 2 then NewFieldError fname "must be at least 2 characters"
  else if 64 <? l then NewFieldError fname "cannot be more than 64 characters"
  else match name with
       | "" => None
       | String c _ =>
           if negb (lower c) && negb (upper c) then NewFieldError fname "must begin with a letter"
           else if negb (idRx name) then
             NewFieldError fname "can only contain letters, digits, hyphens, underscores, apostrophe and space"
           else if bool_decide (last_char name = Some " "%char) then NewFieldError fname "must not end with space"
           else None
       end.

Definition Username (fname value : string) : option VErr :=
  let l := Z.of_nat (String.length value) in
  if l <? 3 then NewFieldError fname "must be at least 3 characters"
  else if 24 <? l then NewFieldError fname "cannot be more than 24 characters"
  else if forallb (fun c => ((97 <=? c) && (c <=? 122)) || ((48 <=? c) && (c <=? 57)) || (c =? 45) || (c =? 95) || (c =? 46)) (runes value)
  then None
  else NewFieldError fname "can only contain lower-case letters, digits, and the characters '-', '_', and '.'".

(** ** ASCII: [ascii.go], [subjectid.go], [oauthscope.go], [twiliofromvalue.go] *)

Fixpoint find_rune (p : Z -> bool) (rs : list Z) : option Z :=
  match rs with
  | [] => None
  | r :: rs => if p r then Some r else find_rune p rs
  end.

Definition ASCII (fname val : string) (minLen maxLen : Z) : option VErr :=
  let l := Z.of_nat (String.length val) in
  if (1 <? minLen) && (l <? minLen) then NewFieldError fname ("must be at least " ++ itoa minLen ++ " characters")
  else if (minLen =? 1) && (l <? minLen) then NewFieldError fname "must not be empty"
  else if maxLen <? l then NewFieldError fname ("cannot exceed " ++ itoa maxLen ++ " characters")
  else match find_rune (fun r => negb ((32 <=? r) && (r <=? 126))) (runes val) with
       | None => None
       | Some r =>
           if IsPrint r then NewFieldError fname ("invalid character '" ++ EncodeRune r ++ "'")
           else NewFieldError fname ("invalid character 0x" ++ itoa r)
       end.

Definition TwilioSID (fname prefix value : string) : option VErr :=
  if negb (HasPrefix value prefix) then NewFieldError fname ("must start with " ++ prefix)
  else ASCII fname value (Z.of_nat (String.length prefix)) 64.

Definition SubjectID (fname body : string) : option VErr :=
  if existsb (fun r => (r <? 32) || (126 <? r)) (runes body) then NewFieldError fname "must not contain non-ASCII characters"
  else
    let l := Z.of_nat (length (runes body)) in
    if l <? 1 then NewFieldError fname "must not be empty"
    else if 255 <? l then NewFieldError fname "cannot exceed 255 characters"
    else None.

Definition scope_rune (r : Z) : bool :=
  (r =? 32) || (r =? 33) || ((35 <=? r) && (r <=? 91)) || ((93 <=? r) && (r <=? 126)).

Fixpoint scopes_ok (fname : string) (seen scopes : list (list Z)) : option VErr + list (list Z) :=
  match scopes with
  | [] => inr seen
  | s :: scopes =>
      if bool_decide (s = []) then inl (NewFieldError fname "must not contain empty scopes")
      else if bool_decide (s ∈ seen) then inl (NewFieldError fname ("duplicate scope '" ++ text s ++ "'"))
      else scopes_ok fname (s :: seen) scopes
  end.

Definition OAuthScope (fname val : string) (required : list string) : option VErr :=
  if String.eqb val "" then NewFieldError fname "must not be empty"
  else if negb (forallb scope_rune (runes val)) then NewFieldError fname "invalid character"
  else match scopes_ok fname [] (split_at space (runes val)) with
       | inl e => e
       | inr m =>
           match List.find (fun req => negb (bool_decide (runes req ∈ m))) required with
           | Some req => NewFieldError fname ("missing required scope '" ++ req ++ "'")
           | None => None
           end
       end.

(** ** Labels: [labelvalue.go], [labelkey.go] *)

Fixpoint double_space (s : list Z) : bool :=
  match s with
  | a :: s' => match s' with b :: _ => ((a =? space) && (b =? space)) || double_space s' | [] => false end
  | [] => false
  end.

Definition LabelValue (fname body : string) : option VErr :=
  let r := runes body in
  let l := Z.of_nat (length r) in
  if l =? 0 then None
  else if l <? 3 then NewFieldError fname "must be at least 3 characters"
  else if 255 <? l then NewFieldError fname "cannot exceed 255 characters"
  else if negb (bool_decide (TrimSpace r = r)) then NewFieldError fname "must not begin or end with a space"
  else if double_space r then NewFieldError fname "must not contain double spaces"
  else if negb (forallb IsPrint r) then NewFieldError fname "must only contain printable characters"
  else None.

Definition alnum (c : ascii) : bool := lower c || is_digit c.

(** [strings.SplitN(s, sep, 2)] with two parts, at the first [sep] *)
Fixpoint cut (sep : ascii) (s : string) : option (string * string) :=
  match s with
  | "" => None
  | String c s => if Ascii.eqb c sep then Some ("", s) else '(a, b) ← cut sep s; Some (String c a, b)
  end.

(** [[a-z0-9][a-z0-9-]{2,63}] between dots; [n] is the length of the segment so far. *)
Fixpoint domain_from (n : nat) (s : string) : bool :=
  match s with
  | "" => (3 <=? n)%nat && (n <=? 64)%nat
  | String c s =>
      if Ascii.eqb c "." then (3 <=? n)%nat && (n <=? 64)%nat && domain_from 0 s
      else (alnum c || (Ascii.eqb c "-" && negb (n =? 0)%nat)) && domain_from (S n) s
  end.

Definition labelKeyPrefixRx (s : string) : bool := domain_from 0 s.

Definition LabelKey (fname body : string) : option VErr :=
  let l := Z.of_nat (length (runes body)) in
  if l <? 1 then NewFieldError fname "must not be empty"
  else if 255 <? l then NewFieldError fname "cannot exceed 255 characters"
  else match cut "/" body with
       | None => NewFieldError fname "prefix and suffix must be separated by `/`"
       | Some (prefix, suffix) =>
           if (String.length prefix <? 3)%nat then NewFieldError fname "prefix: must be at least 3 characters"
           else if (String.length suffix =? 0)%nat then NewFieldError fname "suffix: must not be empty"
           else match prefix with
                | "" => None
                | String c _ =>
                    if negb (alnum c) then NewFieldError fname "prefix: must begin with a lower-case letter or number"
                    else if existsb (fun r => negb ((r =? 46) || (r =? 45) || ((48 <=? r) && (r <=? 57)) || ((97 <=? r) && (r <=? 122)))) (runes prefix)
                    then NewFieldError fname "prefix: may only contain lowercase letters, numbers, hyphens, or periods"
                    else if negb (labelKeyPrefixRx prefix) then NewFieldError fname "prefix: must follow domain name formatting"
                    else match LabelValue fname suffix with
                         | Some (Field e) => NewFieldError fname ("suffix: " ++ fe_reason e)
                         | _ => None
                         end
                end
       end.
End validate.

(** ** Examples, as the tests of the package have them *)

Section examples.
#[local] Existing Instance ascii_unicode.
Local Abbreviation ok e := (e = None).

Example IDName_tests :
  forallb (fun n => bool_decide (IDName "" n = None)) [""; "  "; " 5"; "5for"; "_asdf"; ",asdf"; "end "; "a#%$^#$%&#2a"] = false /\
  ok (IDName "" "a-_' 0").
Proof. split; reflexivity. Qed.

Example LabelKey_tests :
  forallb (fun k => match LabelKey "" k with None => true | _ => false end) ["foo/bar"; "bin.baz/abc"; "0123/abc"; "foo-bar/abc"] = true /\
  existsb (fun k => match LabelKey "" k with None => true | _ => false end)
    ["test"; "Foo/bar"; "-test/ok"; "a/b"; "foo/ok"; "foo'/bar"; " "; ""; "foo /bar"; "/"; "//"; "/foo/"; "/foo/bar"; "foo/"] = false.
Proof. split; vm_compute; reflexivity. Qed.

Example SanitizeName_tests :
  map SanitizeName [" foo"; "foo-bar"; String.append "okay" (String (char 10) (String (char 10) "then"))] = ["foo"; "foo-bar"; "okay then"].
Proof. vm_compute. reflexivity. Qed.

(** More than two line breaks in a row may stay. *)
Example SanitizeText_newlines :
  runes (SanitizeText (text [97; 10; 10; 10; 10; 98]) 100) = [97; 10; 10; 10; 98].
Proof. vm_compute. reflexivity. Qed.
End examples.

(** ** What is trimmed and replaced *)

Lemma trim_left_forall {P : Z -> Prop} p s : Forall P s -> Forall P (trim_left p s).
Proof. induction 1 as [|r s Hr Hs IH]; cbn; [done|]. destruct (p r); [done|by constructor]. Qed.

Lemma trim_right_forall {P : Z -> Prop} p s : Forall P s -> Forall P (trim_right p s).
Proof. intros H. unfold trim_right. apply Forall_reverse, trim_left_forall, Forall_reverse, H. Qed.

Lemma trim_left_head p s r : head (trim_left p s) = Some r -> p r = false.
Proof. induction s as [|x s IH]; cbn; [done|]. destruct (p x) eqn:E; [done|]. by intros [= <-]. Qed.

Lemma trim_left_keep p s r : head s = Some r -> p r = false -> trim_left p s = s.
Proof. destruct s; cbn; [done|]. by intros [= ->] ->. Qed.

Lemma trim_left_suffix p s : exists l, s = l ++ trim_left p s /\ Forall (fun r => p r = true) l.
Proof.
  induction s as [|r s (l & E & Hl)]; [by exists []|]. cbn. destruct (p r) eqn:Ep; [|by exists []].
  exists (r :: l). split; [by rewrite E at 1|by constructor].
Qed.

Lemma trim_left_length p s : (length (trim_left p s) <= length s)%nat.
Proof. induction s as [|r s IH]; cbn; [done|]. destruct (p r); cbn; lia. Qed.

Lemma trim_left_last p s : trim_left p s <> [] -> last (trim_left p s) = last s.
Proof.
  intros Hne. destruct (trim_left_suffix p s) as (l & E & _). rewrite E at 2. rewrite last_app.
  destruct (trim_left p s) as [|x t] eqn:Et; [done|]. destruct (last (x :: t)) eqn:El; [done|]. by apply last_None in El.
Qed.

Lemma trim_right_last p s r : last (trim_right p s) = Some r -> p r = false.
Proof. unfold trim_right. rewrite last_reverse. apply trim_left_head. Qed.

Lemma trim_right_head p s : trim_right p s <> [] -> head (trim_right p s) = head s.
Proof.
  unfold trim_right. intros Hne. rewrite head_reverse, trim_left_last; [by rewrite last_reverse|].
  intros E. apply Hne. by rewrite E.
Qed.

Lemma trim_right_keep p s r : last s = Some r -> p r = false -> trim_right p s = s.
Proof.
  intros El Hp. unfold trim_right. rewrite (trim_left_keep p (reverse s) r), reverse_involutive by (rewrite ?head_reverse; done). done.
Qed.

Lemma trim_right_nonempty p r s : r ∈ s -> p r = false -> trim_right p s <> [].
Proof.
  unfold trim_right. rewrite <- elem_of_reverse. intros Hin Hp E. apply (f_equal reverse) in E.
  rewrite reverse_involutive in E. cbn in E. induction Hin as [x l|x y l Hin IH]; cbn in E; [by rewrite Hp in E|].
  destruct (p y); [by apply IH|done].
Qed.

Lemma replace_forall {P : Z -> Prop} old new : Forall P new -> forall s k, Forall P s -> Forall P (replace_from old new k s).
Proof.
  intros Hn s. induction s as [|r s IH]; intros k Hs; cbn; [done|]. apply Forall_cons in Hs as [Hr Hs].
  destruct k; [|by apply IH]. destruct (bool_decide _); [apply Forall_app; split; [done|by apply IH]|].
  constructor; [done|by apply IH].
Qed.

Lemma replace_length old new : (length new <= length old)%nat -> old <> [] -> forall s k,
  (k <= length s)%nat -> (length (replace_from old new k s) + k <= length s)%nat.
Proof.
  intros Hl Ho s. induction s as [|r s IH]; intros k Hk; cbn in *; [lia|]. destruct k as [|k]; [|specialize (IH k); lia].
  destruct (bool_decide _) eqn:E; [|cbn; specialize (IH 0%nat); lia]. apply bool_decide_eq_true_1 in E.
  apply (f_equal length) in E. rewrite length_take in E. cbn in E. rewrite length_app. destruct old; [done|]. cbn in *.
  specialize (IH (length old - 0)%nat). lia.
Qed.

(** The first and the last rune stay if they do not occur in what is replaced. *)
Lemma replace_head old new s r : old <> [] -> head s = Some r -> r ∉ old -> head (ReplaceAll s old new) = Some r.
Proof.
  intros Ho Hh Hr. destruct s as [|x s]; [done|]. injection Hh as ->. unfold ReplaceAll. cbn. rewrite bool_decide_eq_false_2; [done|].
  intros E. destruct old as [|o old]; [done|]. cbn in E. injection E as <- _. apply Hr. by left.
Qed.

Lemma replace_last old new r : r ∉ old -> old <> [] -> forall s k, last s = Some r ->
  Forall (fun x => x ∈ old) (take k s) -> last (replace_from old new k s) = Some r.
Proof.
  intros Hr Ho s. induction s as [|x s IH]; intros k Hl HF; [done|]. cbn [replace_from].
  assert (forall n, s <> [] -> Forall (fun y => y ∈ old) (take n s) -> last (replace_from old new n s) = Some r) as HK.
  { intros n Hne. apply IH. destruct s; [done|]. by rewrite last_cons_cons in Hl. }
  destruct k as [|k].
  - destruct (bool_decide _) eqn:E.
    + apply bool_decide_eq_true_1 in E. destruct old as [|o old]; [done|]. cbn in E. injection E as <- E.
      destruct (decide (s = [])) as [->|Hne]; [injection Hl as ->; by destruct Hr; left|].
      rewrite last_app, HK; [done|done|]. cbn. rewrite Nat.sub_0_r, E. apply Forall_forall. intros y Hy. by right.
    + destruct (decide (s = [])) as [->|Hne]; [done|]. specialize (HK 0%nat Hne (Forall_nil_2 _)).
      destruct (replace_from old new 0 s); [done|]. by rewrite last_cons_cons.
  - cbn in HF. apply Forall_cons in HF as [Hx HF]. destruct (decide (s = [])) as [->|Hne]; [injection Hl as ->; done|].
    by apply HK.
Qed.

Lemma join_forall {P : Z -> Prop} sep lines : P sep -> Forall (Forall P) lines -> Forall P (join_with sep lines).
Proof.
  intros Hs. induction 1 as [|l lines Hl HF IH]; cbn; [done|]. destruct lines; [done|].
  apply Forall_app. split; [done|]. by constructor.
Qed.

Lemma split_forall {P : Z -> Prop} sep s : Forall P s -> Forall (Forall P) (split_at sep s).
Proof.
  induction 1 as [|r s Hr Hs IH]; cbn; [by repeat constructor|]. destruct (r =? sep); [by constructor|].
  destruct (split_at sep s) as [|l ls]; [by repeat constructor|]. apply Forall_cons in IH as [? ?]. constructor; [by constructor|done].
Qed.

Section theorems.
Context {HU : Unicode}.

Lemma TrimSpace_ends s : match first_and_last (TrimSpace s) with
  | Some (f, l) => IsSpace f = false /\ IsSpace l = false | None => TrimSpace s = [] end.
Proof.
  unfold TrimSpace. set (t := trim_left IsSpace s).
  destruct (decide (trim_right IsSpace t = [])) as [E|Hne]; [by rewrite E|].
  pose proof (trim_right_head IsSpace t Hne) as Hh. destruct (trim_right IsSpace t) as [|x u] eqn:Eu; [done|].
  unfold first_and_last. cbn. destruct (last (x :: u)) as [l|] eqn:El; [|by apply last_None in El]. cbn. split.
  - apply (trim_left_head _ s). exact (eq_sym Hh).
  - apply (trim_right_last _ t). by rewrite Eu.
Qed.

Lemma TrimSpace_forall {P : Z -> Prop} s : Forall P s -> Forall P (TrimSpace s).
Proof. intros H. by apply trim_right_forall, trim_left_forall. Qed.

Lemma TrimSpace_length s : (length (TrimSpace s) <= length s)%nat.
Proof.
  unfold TrimSpace, trim_right. rewrite length_reverse. etransitivity; [apply trim_left_length|].
  rewrite length_reverse. apply trim_left_length.
Qed.

Lemma TrimSpace_starts f s : head s = Some f -> IsSpace f = false -> exists t, TrimSpace s = f :: t.
Proof.
  intros Hh Hf. unfold TrimSpace. rewrite (trim_left_keep _ _ f) by done. destruct s as [|x s]; [done|]. injection Hh as ->.
  pose proof (trim_right_nonempty IsSpace f (f :: s) ltac:(left) Hf) as Hne. pose proof (trim_right_head IsSpace _ Hne) as HH.
  destruct (trim_right IsSpace (f :: s)) as [|y u]; [done|]. injection HH as ->. by exists u.
Qed.

Lemma TrimSpace_keep s f l : first_and_last s = Some (f, l) -> IsSpace f = false -> IsSpace l = false -> TrimSpace s = s.
Proof.
  unfold first_and_last. destruct (head s) as [f'|] eqn:Eh; [|done]. cbn. destruct (last s) as [l'|] eqn:El; [|done].
  cbn. intros [= -> ->] Hf Hl. unfold TrimSpace. rewrite (trim_left_keep _ _ f) by done. by apply (trim_right_keep _ _ l).
Qed.

Definition clean (r : Z) : Prop := valid_rune r /\ text_rune r = true.

Lemma clean_known r : r = space \/ r = newline \/ r = ellipsis -> clean r.
Proof.
  intros H. split; [left; unfold space, newline, ellipsis in H; lia|]. unfold text_rune. destruct H as [->|[->| ->]].
  - by rewrite (IsPrint_space : IsPrint space = true).
  - by rewrite Z.eqb_refl, orb_true_r.
  - by rewrite (IsPrint_ellipsis : IsPrint ellipsis = true).
Qed.

Ltac known_list := repeat (apply Forall_cons_2; [apply clean_known; tauto|]); apply Forall_nil_2.

(** Clean runes without a space at their ends are a valid text. *)
Lemma text_valid fname rs max : Forall clean rs -> Z.of_nat (length rs) <= max ->
  match first_and_last rs with Some (f, l) => IsSpace f = false /\ IsSpace l = false | None => rs = [] end ->
  Text fname (text rs) 1 max = None.
Proof.
  intros HF Hl HE. unfold Text. destruct (String.eqb_spec (text rs) "") as [|Hne]; [done|]. unfold RequiredText.
  rewrite runes_text by (eapply Forall_impl; [exact HF|by intros r []]).
  destruct rs as [|r rs]; [done|]. rewrite (proj2 (Z.eqb_neq _ 0)) by (cbn; lia). cbn [andb Z.ltb Z.compare Pos.compare].
  rewrite (proj2 (Z.ltb_ge (Z.of_nat _) 1)) by (cbn; lia). cbn [Z.eqb Pos.eqb andb]. rewrite (proj2 (Z.ltb_ge max _)) by lia.
  assert (forallb text_rune (r :: rs) = true) as ->.
  { apply forallb_forall. intros x Hx. rewrite Forall_forall in HF. by apply HF, list_elem_of_In. }
  cbn [negb]. destruct (first_and_last (r :: rs)) as [[f l]|]; [|done]. by destruct HE as [-> ->].
Qed.

(** C39: what [SanitizeText] returns is a valid text of at most that length. *)
Theorem SanitizeText_is_valid fname body maxLen (Hmax : 1 <= maxLen) : Text fname (SanitizeText body maxLen) 1 maxLen = None.
Proof.
  unfold SanitizeText. set (b1 := omap _ (runes body)).
  assert (Forall clean b1) as H1.
  { apply Forall_forall. intros r Hr. apply list_elem_of_omap in Hr as (x & Hx & E).
    destruct (text_rune x) eqn:Ex; [injection E as <-; split; [|done]; pose proof (runes_valid body) as HV; rewrite Forall_forall in HV; by apply HV|].
    destruct (IsSpace x); [|done]. injection E as <-. apply clean_known. by left. }
  set (b2 := join_with newline _). assert (Forall clean b2) as H2.
  { apply join_forall; [apply clean_known; tauto|]. apply Forall_fmap, (Forall_impl (Forall clean)); [by apply split_forall|].
    intros l. apply trim_right_forall. }
  set (b3 := ReplaceAll b2 _ _). assert (Forall clean b3) as H3.
  { apply replace_forall; [|done]. known_list. }
  pose proof (TrimSpace_ends b3) as HE. pose proof (TrimSpace_forall b3 H3) as H4. set (b4 := TrimSpace b3) in *. clearbody b4.
  destruct (Z.ltb_spec 0 maxLen); [|lia]. destruct (Z.ltb_spec maxLen (Z.of_nat (length b4))); cbn [andb]; [|by apply text_valid].
  apply text_valid.
  - apply Forall_app. split; [by apply Forall_take|]. known_list.
  - rewrite length_app, length_take. cbn. lia.
  - unfold first_and_last in *. rewrite last_snoc. destruct b4 as [|x b4]; [cbn in *; lia|]. cbn [head mbind option_bind] in *.
    destruct (last (x :: b4)) as [l|] eqn:El; [|by apply last_None in El]. cbn in HE.
    destruct (Z.to_nat (maxLen - 1)); cbn; [by rewrite (IsSpace_ellipsis : IsSpace ellipsis = false)|].
    split; [by destruct HE|exact IsSpace_ellipsis].
Qed.

Definition name_rune (r : Z) : Prop := valid_rune r /\ IsPrint r = true /\ (IsSpace r = true -> r = space).

Lemma name_valid fname rs : Forall name_rune rs -> (1 <= length rs)%nat -> Z.of_nat (length rs) <= upperLimit ->
  TrimSpace rs = rs -> Name fname (text rs) = None.
Proof.
  intros HF Hl Hu HT. unfold Name. rewrite runes_text by (eapply Forall_impl; [exact HF|by intros r []]).
  rewrite (proj2 (Z.ltb_ge _ 1)), (proj2 (Z.ltb_ge upperLimit _)) by lia.
  assert (existsb (fun c => (IsSpace c && negb (c =? space)) || negb (IsPrint c)) rs = false) as ->.
  { apply not_true_is_false. rewrite existsb_exists. intros (c & Hc & E). rewrite Forall_forall in HF.
    destruct (HF c) as (_ & H1 & H2); [by apply list_elem_of_In|]. rewrite H1 in E. destruct (IsSpace c); [|done].
    by rewrite H2, Z.eqb_refl in E. }
  by rewrite HT, bool_decide_eq_true_2.
Qed.

Lemma flatten_none errs : flatten errs = inl [] <-> Forall (fun e => e = None \/ e = Some (MultiField [])) errs.
Proof.
  induction errs as [|e errs IH]; [split; [constructor|done]|]. rewrite Forall_cons, <- IH. cbn.
  destruct e as [[e|l|t]|]; [| | |naive_solver].
  - destruct (flatten errs); naive_solver.
  - destruct l as [|x l]; destruct (flatten errs); naive_solver.
  - naive_solver.
Qed.

(** [Many] reports no error only where no validator has one. *)
Theorem Many_none errs : Many errs = None <-> Forall (fun e => e = None \/ e = Some (MultiField [])) errs.
Proof.
  rewrite <- flatten_none. unfold Many. destruct (flatten errs) as [[|x [|y l]]|e]; naive_solver.
Qed.

(** What [SanitizeName] returns is empty or a valid name. *)
Theorem SanitizeName_is_valid fname name : SanitizeName name = "" \/ Name fname (SanitizeName name) = None.
Proof.
  unfold SanitizeName. set (b1 := omap _ (runes name)).
  assert (Forall name_rune b1) as H1.
  { apply Forall_forall. intros r Hr. apply list_elem_of_omap in Hr as (x & Hx & E).
    destruct (IsSpace x) eqn:Ex; [injection E as <-|destruct (IsPrint x) eqn:Ep; [|done]; injection E as <-].
    - split; [left; unfold space; lia|]. split; [exact IsPrint_space|done].
    - split; [|split; [done|congruence]]. pose proof (runes_valid name) as HV. rewrite Forall_forall in HV. by apply HV. }
  pose proof (TrimSpace_ends b1) as HE. pose proof (TrimSpace_forall b1 H1) as H2. set (b2 := TrimSpace b1) in *. clearbody b2.
  set (b3 := ReplaceAll b2 [space; space] [space]).
  assert (Forall name_rune b3) as H3.
  { apply replace_forall; [|done]. apply Forall_singleton. split; [left; unfold space; lia|]. split; [exact IsPrint_space|done]. }
  destruct (Z.ltb_spec (Z.of_nat (length b3)) 1); [by left|]. right.
  assert (exists f l, first_and_last b3 = Some (f, l) /\ IsSpace f = false /\ IsSpace l = false) as (f & l & Efl & Hf & Hl).
  { unfold first_and_last in *. destruct b2 as [|x b2]; [cbn in *; lia|]. cbn [head mbind option_bind] in HE.
    destruct (last (x :: b2)) as [l|] eqn:El; [|by apply last_None in El]. cbn in HE. destruct HE as [HE1 HE2].
    assert (forall r, IsSpace r = false -> r ∉ [space; space]) as HN.
    { intros r Hr Hin. assert (r = space) as -> by set_solver. by rewrite (proj2 (proj2 IsSpace_ascii) : IsSpace space = true) in Hr. }
    assert (head b3 = Some x) as Eh by (apply replace_head; [done|done|by apply HN]).
    assert (last b3 = Some l) as Ela by (apply replace_last; [by apply HN|done|done|constructor]).
    exists x, l. by rewrite Eh, Ela. }
  pose proof (TrimSpace_keep _ _ _ Efl Hf Hl) as HK.
  destruct (Z.ltb_spec upperLimit (Z.of_nat (length b3))); [|apply name_valid; [done|lia|done|done]].
  pose proof (TrimSpace_ends (take (Z.to_nat upperLimit) b3)) as HT. set (b4 := TrimSpace (take _ b3)) in *.
  destruct (TrimSpace_starts f (take (Z.to_nat upperLimit) b3)) as (t & Et); [|done|].
  { unfold first_and_last in Efl. destruct b3 as [|x b3']; [done|]. cbn in Efl. destruct (last _); [|done].
    injection Efl as -> _. by destruct (Z.to_nat upperLimit) eqn:Eu. }
  fold b4 in Et.
  apply name_valid.
  - apply TrimSpace_forall, Forall_take, H3.
  - rewrite Et. cbn. lia.
  - pose proof (TrimSpace_length (take (Z.to_nat upperLimit) b3)) as HL. fold b4 in HL. rewrite length_take in HL.
    unfold upperLimit in *. lia.
  - rewrite Et in *. destruct (first_and_last (f :: t)) as [[f' l']|] eqn:E; [|done]. destruct HT. by eapply TrimSpace_keep.
Qed.
End theorems.

(** The hypothesis of [SanitizeText_is_valid], at ten runes of a longer text with a tab at its end *)
Lemma SanitizeText_is_valid_witness : 1 <= 10 /\ SanitizeText (HU := ascii_unicode) (text [9; 97; 7; 98; 99; 32; 10; 97; 97; 97; 97; 97; 97; 97]) 10 = text [97; 98; 99; 10; 97; 97; 97; 97; 97; 8230] /\
  Text (HU := ascii_unicode) "f" (SanitizeText (HU := ascii_unicode) (text [9; 97; 7; 98; 99; 32; 10; 97; 97; 97; 97; 97; 97; 97]) 10) 1 10 = None.
Proof.
  split; [lia|]. split; [vm_compute; reflexivity|]. apply (SanitizeText_is_valid (HU := ascii_unicode)). lia.
Defined.
