(* ===== verification/Permission.v ===== *)
(** * Permissions: [permission]

    What a request may do is in its context: [UserContext] and the like add
    values, the checkers read them, and [LimitCheckAny] refuses a request that
    passes none of the checks.  A context is the values at the keys of the
    package; a value that is not of the expected type, such as [nil], is none. *)

From Stdlib Require Import Ascii.
From S2P Require Import Prelude Text Unicode Validate.

Local Open Scope string_scope.

(** ** Values *)

Inductive Role := RoleUser | RoleAdmin | RoleUnknown | RoleOther (s : string).

Inductive SourceType := SourceTypeNotificationCallback | SourceTypeIntegrationKey | SourceTypeAuthProvider
  | SourceTypeContactMethod | SourceTypeHeartbeat | SourceTypeNotificationChannel | SourceTypeCalendarSubscription
  | SourceTypeGQLAPIKey | SourceTypeUIK.

#[global] Instance SourceType_eq_dec : EqDecision SourceType.
Proof. solve_decision. Defined.

Record SourceInfo := mkSource { src_type : SourceType; src_id : string }.

Record Ctx := mkCtx {
  k_role : option Role;
  k_user : option string;
  k_service : option string;
  k_system : option string;
  k_auth : option Z;
  k_team : option string;
  k_source : option SourceInfo
}.

Definition Background : Ctx := mkCtx None None None None None None None.

(** [genericError] *)
Record Denied := mkDenied { unauthorized : bool; reason : string }.

Definition NewAccessDenied (reason : string) : Denied := mkDenied false reason.
Definition Unauthorized : Denied := mkDenied true "".

(** [genericError.Error] *)
Definition denied_text (e : Denied) : string :=
  let prefix := if unauthorized e then "unauthorized" else "access denied" in
  if String.eqb (reason e) "" then prefix else prefix ++ ": " ++ reason e.

(** [Role.Scan], of a text *)
Definition Role_Scan (t : string) : Role + string :=
  if String.eqb t "admin" then inl RoleAdmin else if String.eqb t "user" then inl RoleUser
  else if String.eqb t "unknown" then inl RoleUnknown else inr ("unknown value for role " ++ t).

(** [Role.Value] *)
Definition Role_Value (r : Role) : string + string :=
  match r with
  | RoleUser => inl "user"
  | RoleAdmin => inl "admin"
  | RoleUnknown => inl "unknown"
  | RoleOther s => inr ("invalid role value: " ++ s)
  end.

(** ** Reading a context *)

Definition UserID (c : Ctx) : string := default "" (k_user c).
Definition ServiceID (c : Ctx) : string := default "" (k_service c).
Definition SystemComponentName (c : Ctx) : string := default "" (k_system c).
Definition TeamID (c : Ctx) : string := default "" (k_team c).
Definition Source (c : Ctx) : option SourceInfo := k_source c.

(** [uuid.Parse] may fail. *)
Definition UserNullUUID {HT : UUIDText} (c : Ctx) : option UUID := uuid_Parse (UserID c).
Definition ServiceNullUUID {HT : UUIDText} (c : Ctx) : option UUID := uuid_Parse (ServiceID c).

(** ** Checkers *)

Definition Checker := Ctx -> bool.

Definition All (c : Ctx) : bool := bool_decide (k_auth c = Some 1).

Definition System (c : Ctx) : bool := negb (String.eqb (SystemComponentName c) "").

Definition Admin (c : Ctx) : bool :=
  if System c then true else match k_role c with Some RoleAdmin => true | _ => false end.

Definition User (c : Ctx) : bool :=
  if System c then true else match k_role c with Some RoleUser | Some RoleAdmin => true | _ => false end.

Definition Service (c : Ctx) : bool := negb (String.eqb (ServiceID c) "").
Definition Team (c : Ctx) : bool := negb (String.eqb (TeamID c) "").

(** [nil] is a check that fails. *)
Definition LimitCheckAny (c : Ctx) (checks : list (option Checker)) : option Denied :=
  if negb (All c) then Some (mkDenied true "")
  else if bool_decide (length checks = 0%nat) then None
  else if existsb (fun k => match k with Some k => k c | None => false end) checks then None
  else Some (mkDenied false "").

(** ** Building a context *)

Definition with_source (v : option SourceInfo) (c : Ctx) : Ctx :=
  mkCtx (k_role c) (k_user c) (k_service c) (k_system c) (k_auth c) (k_team c) v.
Definition with_auth (v : option Z) (c : Ctx) : Ctx :=
  mkCtx (k_role c) (k_user c) (k_service c) (k_system c) v (k_team c) (k_source c).
Definition with_user (u : option string) (r : option Role) (c : Ctx) : Ctx :=
  mkCtx r u (k_service c) (k_system c) (k_auth c) (k_team c) (k_source c).
Definition with_service (v : option string) (c : Ctx) : Ctx :=
  mkCtx (k_role c) (k_user c) v (k_system c) (k_auth c) (k_team c) (k_source c).
Definition with_system (v : option string) (c : Ctx) : Ctx :=
  mkCtx (k_role c) (k_user c) (k_service c) v (k_auth c) (k_team c) (k_source c).
Definition with_team (v : option string) (c : Ctx) : Ctx :=
  mkCtx (k_role c) (k_user c) (k_service c) (k_system c) (k_auth c) v (k_source c).

Definition SourceContext (c : Ctx) (src : option SourceInfo) : Ctx :=
  match src with None => c | Some s => with_source (Some s) c end.

Section contexts.
Context {HU : Unicode}.

Definition MatchService (id : string) : Checker := fun c =>
  if String.eqb id "" then false else String.eqb (ServiceID c) (ToLower id).
Definition MatchTeam (id : string) : Checker := fun c => String.eqb (TeamID c) (ToLower id).
Definition MatchUser (id : string) : Checker := fun c =>
  if String.eqb id "" then false else String.eqb (UserID c) (ToLower id).

Definition UserContext (c : Ctx) (id : string) (r : Role) : Ctx :=
  with_user (Some (ToLower id)) (Some r) (with_auth (Some 1) c).

Definition UserSourceContext (c : Ctx) (id : string) (r : Role) (src : option SourceInfo) : Ctx :=
  UserContext (SourceContext c src) id r.

Definition ServiceContext (c : Ctx) (id : string) : Ctx := with_service (Some (ToLower id)) (with_auth (Some 1) c).

Definition ServiceSourceContext (c : Ctx) (id : string) (src : option SourceInfo) : Ctx :=
  ServiceContext (SourceContext c src) id.

Definition TeamContext (c : Ctx) (id : string) : Ctx := with_team (Some (ToLower id)) (with_auth (Some 1) c).
End contexts.

(** [[a-zA-Z0-9]+] *)
Definition component (s : string) : bool :=
  negb (String.eqb s "") && all_chars (fun a => lower a || upper a || is_digit a) s.

(** [^([a-zA-Z0-9]+|Sudo\[[a-zA-Z0-9]+\])$] *)
Definition sysRx (s : string) : bool :=
  component s ||
  match strip_prefix "Sudo[" s with Some r => HasSuffix r "]" && component (TrimSuffix r "]") | None => false end.

(** [None] is a panic. *)
Definition SystemContext (c : Ctx) (name : string) : option Ctx :=
  if sysRx name then Some (with_system (Some name) (with_auth (Some 1) c)) else None.

(** The context that the callback is called with *)
Definition SudoContext (c : Ctx) : option Ctx :=
  let cname := SystemComponentName c in
  SystemContext c (if String.eqb cname "" then "Sudo" else "Sudo[" ++ cname ++ "]").

Definition WithoutAuth (c : Ctx) : Ctx :=
  let c := if System c then with_system None c else c in
  let c := match k_user c with
           | Some id => if String.eqb id "" then c else with_user None None c
           | None => c
           end in
  let c := if Service c then with_service None c else c in
  if bool_decide (k_auth c = Some 1) then with_auth None c else c.

(** ** Checks *)

Lemma all_chars_app p a b : all_chars p (a ++ b) = all_chars p a && all_chars p b.
Proof. induction a as [|x a IH]; [done|]. rewrite append_cons. cbn. by rewrite IH, andb_assoc. Qed.

Lemma sudo_not_component x : component ("Sudo[" ++ x ++ "]") = false.
Proof. unfold component. rewrite all_chars_app. cbn. by rewrite andb_false_r. Qed.

Lemma sudo_name x : component x = true -> sysRx ("Sudo[" ++ x ++ "]") = true.
Proof.
  intros Hx. unfold sysRx. rewrite sudo_not_component, strip_prefix_self, HasSuffix_self, TrimSuffix_self, Hx. done.
Qed.

Lemma sudo_name_inv x : sysRx ("Sudo[" ++ x ++ "]") = true -> component x = true.
Proof.
  unfold sysRx. rewrite sudo_not_component, strip_prefix_self, HasSuffix_self, TrimSuffix_self. done.
Qed.

Section checks.
Context {HU : Unicode}.

(** The contexts that the package builds; no user has the empty id. *)
Inductive built : Ctx -> Prop :=
  | built_background : built Background
  | built_source c s : built c -> built (SourceContext c s)
  | built_user c id r : built c -> ToLower id <> "" -> built (UserContext c id r)
  | built_service c id : built c -> built (ServiceContext c id)
  | built_team c id : built c -> built (TeamContext c id)
  | built_system c name c' : built c -> SystemContext c name = Some c' -> built c'
  | built_without c : built c -> built (WithoutAuth c).

(** A role belongs to a user, whatever is known of the request is marked by
    [contextHasAuth], and the name of a component is one. *)
Definition ctx_ok (c : Ctx) : Prop :=
  (is_Some (k_role c) -> UserID c <> "") /\
  (k_auth c = None \/ k_auth c = Some 1) /\
  (SystemComponentName c = "" \/ sysRx (SystemComponentName c) = true).

Ltac open_ctx c :=
  let r := fresh "r" in let u := fresh "u" in let s := fresh "s" in let y := fresh "y" in let a := fresh "a" in
  destruct c as [r [u|] [s|] [y|] a t o];
  unfold WithoutAuth, System, Service, All, SystemComponentName, ServiceID, UserID, with_user, with_system, with_service, with_auth;
  cbn;
  repeat match goal with |- context [String.eqb ?x ""] => destruct (String.eqb_spec x "") as [->|]; cbn end;
  (destruct (bool_decide_reflect (a = Some 1)) as [->|]; cbn);
  repeat match goal with H : ?x <> "" |- context [String.eqb ?x ""] => rewrite (proj2 (String.eqb_neq x "") H); cbn end.

Lemma without_known c :
  System (WithoutAuth c) = false /\ Service (WithoutAuth c) = false /\ UserID (WithoutAuth c) = "" /\
  (k_auth c = None \/ k_auth c = Some 1 -> k_auth (WithoutAuth c) = None).
Proof. open_ctx c; naive_solver. Qed.

Lemma without_role c : ctx_ok c -> k_role (WithoutAuth c) = None.
Proof.
  intros (Hr & _). destruct (k_role c) as [r0|] eqn:E.
  - specialize (Hr ltac:(by eexists)). revert Hr. open_ctx c; done.
  - revert E. open_ctx c; done.
Qed.

Lemma built_ok c : built c -> ctx_ok c.
Proof.
  induction 1 as [|c s H IH|c id r H IH Hid|c id H IH|c id H IH|c name c' H IH E|c H IH].
  - split; [by intros [? ?]|]. split; by left.
  - destruct s; done.
  - destruct IH as (_ & _ & Hs). split; [done|]. split; [by right|done].
  - destruct IH as (Hr & _ & Hs). split; [done|]. split; [by right|done].
  - destruct IH as (Hr & _ & Hs). split; [done|]. split; [by right|done].
  - unfold SystemContext in E. destruct (sysRx name) eqn:Ex; [|done]. injection E as <-. destruct IH as (Hr & _ & _).
    split; [done|]. split; by right.
  - pose proof (without_role c IH) as Er. pose proof (without_known c) as (Es & _ & _ & Ea). split; [|split].
    + rewrite Er. by intros [? ?].
    + left. by apply Ea, IH.
    + left. unfold System in Es. apply negb_false_iff, String.eqb_eq in Es. done.
Qed.

Lemma ToLower_empty s : ToLower s = "" <-> s = "".
Proof.
  split; [|by intros ->]. destruct s as [|c s]; [done|]. unfold ToLower, runes. cbn [runes_from].
  destruct (DecodeRune c s) as [r n]. cbn. unfold EncodeRune. by repeat case_match.
Qed.

(** A context without its authorization is refused whatever is checked, and
    authorized for a service, as a heartbeat is, it has the rights of that
    service alone. *)
Theorem WithoutAuth_leaves_nothing c id src (Hc : built c) (Hid : id <> "") :
  let c0 := WithoutAuth c in
  let c1 := ServiceSourceContext c0 id src in
  (forall checks, LimitCheckAny c0 checks = Some Unauthorized) /\
  System c1 = false /\ Admin c1 = false /\ User c1 = false /\ (forall u, MatchUser u c1 = false) /\
  (forall x, MatchService x c1 = String.eqb (ToLower x) (ToLower id)) /\
  (forall x, LimitCheckAny c1 [Some System; Some Admin; Some User; Some (MatchService x)] = None <-> ToLower x = ToLower id).
Proof.
  intros c0 c1. pose proof (without_known c) as (Hs & _ & Hu & Ha). pose proof (without_role c (built_ok c Hc)) as Hr.
  destruct (built_ok c Hc) as (_ & Hk & _). specialize (Ha Hk).
  assert (System c1 = false) as H1 by (destruct src; exact Hs).
  assert (k_role c1 = None) as H2 by (destruct src; exact Hr).
  assert (UserID c1 = "") as H3 by (destruct src; exact Hu).
  assert (Admin c1 = false /\ User c1 = false) as [H4 H5] by (unfold Admin, User; by rewrite H1, H2).
  assert (forall x, MatchService x c1 = String.eqb (ToLower x) (ToLower id)) as H6.
  { intros x. unfold MatchService. replace (ServiceID c1) with (ToLower id) by (by destruct src).
    destruct (String.eqb_spec x "") as [->|Hx]; [|apply String.eqb_sym]. symmetry. apply String.eqb_neq. intros E.
    by apply Hid, ToLower_empty. }
  split_and!; try done.
  - intros checks. unfold LimitCheckAny, All, c0. by rewrite Ha.
  - intros u. unfold MatchUser. rewrite H3. destruct (String.eqb_spec u "") as [->|Hx]; [done|]. apply String.eqb_neq.
    intros E. by apply Hx, ToLower_empty.
  - intros x. unfold LimitCheckAny. cbn [existsb]. rewrite H1, H4, H5, H6. replace (All c1) with true by (by destruct src).
    cbn. destruct (String.eqb_spec (ToLower x) (ToLower id)); done.
Qed.

(** The rights of the system can be taken inside themselves once, or twice
    from a request without them; once more is a panic. *)
Theorem SudoContext_nesting c (Hc : built c) :
  (SudoContext c = None <-> System c = true /\ component (SystemComponentName c) = false) /\
  (System c = true -> (c1 ← SudoContext c; SudoContext c1) = None) /\
  (System c = false -> exists c1 c2, SudoContext c = Some c1 /\ SudoContext c1 = Some c2 /\ SudoContext c2 = None /\
     LimitCheckAny c1 [Some System] = None /\ LimitCheckAny c2 [Some System] = None).
Proof.
  assert (forall c, System c = true -> SudoContext c = SystemContext c ("Sudo[" ++ SystemComponentName c ++ "]")) as HS.
  { intros x Hx. unfold SudoContext, System in *. by destruct (String.eqb (SystemComponentName x) ""). }
  assert (forall c, System c = true -> SudoContext c = None <-> component (SystemComponentName c) = false) as HN.
  { intros x Hx. rewrite HS by done. unfold SystemContext. destruct (sysRx _) eqn:E.
    - apply sudo_name_inv in E. by rewrite E.
    - split; [|done]. intros _. apply not_true_is_false. intros E'. by rewrite (sudo_name _ E') in E. }
  assert (System c = false -> SudoContext c = Some (with_system (Some "Sudo") (with_auth (Some 1) c))) as H0.
  { unfold SudoContext, System. intros Hx. apply negb_false_iff in Hx. by rewrite Hx. }
  split_and!.
  - destruct (System c) eqn:Es; [rewrite HN by done; naive_solver|]. rewrite H0 by done. naive_solver.
  - intros Es. rewrite HS by done. unfold SystemContext. destruct (sysRx _); [|done]. cbn. apply HN; [done|].
    apply sudo_not_component.
  - intros Es. rewrite H0 by done. eexists _, _. split_and!; [done|reflexivity|reflexivity|done|done].
Qed.
End checks.

(** The hypotheses of the theorems, at a user of the interface and at a module
    of the engine *)
Section witnesses.
#[local] Existing Instance ascii_unicode.

Lemma WithoutAuth_leaves_nothing_witness :
  let c := UserContext Background "Bob" RoleAdmin in
  built c /\ "svc" <> "" /\ Admin c = true /\ User (ServiceSourceContext (WithoutAuth c) "svc" None) = false.
Proof.
  assert (built (UserContext Background "Bob" RoleAdmin)) as Hc by (apply built_user; [constructor|done]).
  split; [exact Hc|]. split; [done|]. split; [done|].
  exact (proj1 (proj2 (proj2 (proj2 (WithoutAuth_leaves_nothing _ "svc" None Hc ltac:(done)))))).
Defined.

Lemma SudoContext_nesting_witness :
  exists c, SystemContext Background "Engine" = Some c /\ built c /\ (c1 ← SudoContext c; SudoContext c1) = None.
Proof.
  assert (built (with_system (Some "Engine") (with_auth (Some 1) Background))) as Hc
    by (apply (built_system Background "Engine"); [apply built_background|reflexivity]).
  eexists. split; [reflexivity|]. split; [exact Hc|]. exact (proj1 (proj2 (SudoContext_nesting _ Hc)) eq_refl).
Defined.
End witnesses.
