(* ===== verification/AlertData.v ===== *)
(** * The data of alerts: [alert]

    An alert as it is created, its text for deduplication, and the checks of
    [Normalize] and of metadata.  The fields that are Go strings are strings; the
    store refuses those that are not values of the enum of the database. *)

From Stdlib Require Import Ascii.
From S2P Require Import Prelude Text Unicode Validate Permission.

Local Open Scope string_scope.
Local Open Scope Z_scope.

(** ** Constants: [status.go], [source.go], [alert.go], [store.go] *)

Definition StatusTriggered_ : string := "triggered".
Definition StatusActive_ : string := "active".
Definition StatusClosed_ : string := "closed".

Definition sources : list string :=
  ["manual"; "grafana"; "site24x7"; "prometheusAlertmanager"; "email"; "generic"; "universal"].

Definition MaxSummaryLength : Z := 1024.
Definition MaxDetailsLength : Z := 6144.
Definition maxBatch : Z := 500.

(** [Status.Value], [Source.Value]: an empty value is the default. *)
Definition Status_Value (s : string) : string := if String.eqb s "" then StatusTriggered_ else s.
Definition Source_Value (s : string) : string := if String.eqb s "" then "manual" else s.

(** ** Deduplication: [dedup.go] *)

Record DedupID := mkDedup { dd_type : string; dd_version : Z; dd_payload : string }.

#[global] Instance DedupID_eq_dec : EqDecision DedupID.
Proof. solve_decision. Defined.

Definition colon : ascii := ":".

(** [strings.SplitN(s, ":", 3)] and its parts *)
Definition ParseDedupString (s : string) : option DedupID :=
  '(ty, rest) ← cut colon s;
  '(vers, payload) ← cut colon rest;
  vers ← Atoi vers;
  Some (mkDedup ty vers payload).

(** [DedupID.Value] *)
Definition Dedup_Value (d : DedupID) : string := dd_type d ++ ":" ++ itoa (dd_version d) ++ ":" ++ dd_payload d.

(** [DedupID.Scan], of a text; a null is an error. *)
Definition Dedup_Scan (v : option string) : option DedupID := v ≫= ParseDedupString.

Definition NewUserDedup {HU : Unicode} (str : string) : option DedupID :=
  let str := SanitizeText str 512 in
  if String.eqb str "" then None else Some (mkDedup "user" 1 str).

(** ** Alerts: [alert.go] *)

Record Alert := mkAlert {
  ID : Z;
  Status : string;
  Summary : string;
  Details : string;
  Source : string;
  ServiceID : string;
  CreatedAt : Z;
  Dedup : option DedupID
}.

Definition newline_text : string := String (char 10) "".

Definition Description (a : Alert) : string :=
  if String.eqb (Details a) "" then Summary a else Summary a ++ newline_text ++ Details a.

(** [sha512.Sum512] and [hex.EncodeToString]: 128 digits. *)
Class Digest := { sha512_hex : string -> string }.

Definition DedupKey {HD : Digest} (a : Alert) : DedupID :=
  match Dedup a with Some d => d | None => mkDedup "auto" 1 (sha512_hex (Description a)) end.

(** [strings.ReplaceAll] of a line feed by a space, and of two spaces by one *)
Fixpoint unline (s : string) : string :=
  match s with
  | "" => ""
  | String c s => String (if Ascii.eqb c (char 10) then " "%char else c) (unline s)
  end.

Fixpoint halve (s : string) : string :=
  match s with
  | "" => ""
  | String c s' =>
      match s' with
      | String d s'' => if Ascii.eqb c " " && Ascii.eqb d " " then String " " (halve s'') else String c (halve s')
      | "" => s
      end
  end.

(** [validate.UUID] *)
Definition ValidUUID {HT : UUIDText} (fname u : string) : option VErr :=
  if negb (String.length u =? 36)%nat then
    NewFieldError fname "must be valid UUID: format must be xxxxxxxx-xxxx-xxxx-xxxx-xxxxxxxxxxxx"
  else match uuid_Parse u with
       | None => NewFieldError fname "must be a valid UUID"
       | Some _ => None
       end.

Definition with_texts (source status summary : string) (a : Alert) : Alert :=
  mkAlert (ID a) status summary (Details a) source (ServiceID a) (CreatedAt a) (Dedup a).

Definition statuses : list string := [StatusTriggered_; StatusActive_; StatusClosed_].

Definition Normalize {HU : Unicode} {HT : UUIDText} (a : Alert) : Alert + VErr :=
  let a := with_texts (if String.eqb (Source a) "" then "manual" else Source a)
             (if String.eqb (Status a) "" then StatusTriggered_ else Status a)
             (halve (unline (Summary a))) a in
  match Many [Text "Summary" (Summary a) 1 MaxSummaryLength;
              Text "Details" (Details a) 0 MaxDetailsLength;
              OneOf "Source" (Source a) sources;
              OneOf "Status" (Status a) statuses;
              ValidUUID "ServiceID" (ServiceID a)] with
  | Some e => inr e
  | None => inl a
  end.

(** ** Metadata: [metadata.go] *)

(** The keys and values in the order of a [range] over the map; [nil] is no map. *)
Definition ValidateMetadata {HU : Unicode} {HR : GoMapRange} (m : option (gmap string string)) : option VErr :=
  match m with
  | None => NewFieldError "Meta" "cannot be nil"
  | Some m =>
      match List.find (fun '(k, _) => match ASCII "Meta[<key>]" k 1 255 with Some _ => true | None => false end) (map_range m) with
      | Some (k, _) => ASCII "Meta[<key>]" k 1 255
      | None =>
          if (32768 <? foldr (fun '(k, v) n => Z.of_nat (String.length k + String.length v) + n) 0 (map_range m))%Z
          then NewFieldError "Meta" "cannot exceed 32KiB in size" else None
      end
  end.

(** ** The deduplication id is read back *)

Lemma cut_app c a b : contains c a = false -> cut c (a ++ String c b) = Some (a, b).
Proof.
  induction a as [|d a IH]; intros H; [rewrite append_nil; cbn [cut]; by rewrite Ascii.eqb_refl|]. cbn in H. apply orb_false_iff in H as [Hd Ha].
  rewrite append_cons. cbn [cut]. rewrite Ascii.eqb_sym, Hd, IH by done. done.
Qed.

Lemma digits_no_colon fuel : forall n acc, 0 <= n -> contains colon acc = false -> contains colon (digits fuel n acc) = false.
Proof.
  induction fuel as [|fuel IH]; intros n acc Hn Ha; [done|]. cbn [digits].
  assert (contains colon (String (digit (n mod 10)) acc) = false) as HC.
  { cbn [contains]. rewrite Ha, orb_false_r. apply Ascii.eqb_neq. intros E.
    destruct (is_digit_digit (n mod 10) (Z.mod_pos_bound n 10 ltac:(lia))) as [HD _]. by rewrite <- E in HD. }
  destruct (n <? 10); [done|]. apply IH; [apply Z.div_pos; lia|done].
Qed.

Lemma itoa_no_colon n : contains colon (itoa n) = false.
Proof.
  unfold itoa, utoa. destruct (Z.ltb_spec n 0); [cbn [contains]|]; rewrite ?digits_no_colon; done || lia.
Qed.

Lemma Atoi_itoa n : int64 n = true -> Atoi (itoa n) = Some n.
Proof. intros Hn. unfold Atoi. rewrite parse_signed_itoa. cbn. by rewrite Hn. Qed.

(** An id of which the type holds no colon is read back from its text, and ids
    with the same text are the same. *)
Theorem ParseDedupString_roundtrip d (Ht : contains colon (dd_type d) = false) (Hv : int64 (dd_version d) = true) :
  ParseDedupString (Dedup_Value d) = Some d /\
  forall d', contains colon (dd_type d') = false -> int64 (dd_version d') = true -> Dedup_Value d' = Dedup_Value d -> d' = d.
Proof.
  assert (forall d, contains colon (dd_type d) = false -> int64 (dd_version d) = true -> ParseDedupString (Dedup_Value d) = Some d) as HP.
  { intros [ty v p] H1 H2. unfold ParseDedupString, Dedup_Value. cbn in *. rewrite append_cons, append_nil.
    rewrite cut_app by done. cbn. rewrite append_cons, append_nil, cut_app by apply itoa_no_colon. cbn.
    by rewrite Atoi_itoa. }
  split; [by apply HP|]. intros d' H1 H2 E. pose proof (HP d Ht Hv) as E1. pose proof (HP d' H1 H2) as E2. congruence.
Qed.

(** ** What [Normalize] accepts *)

Lemma Many_cons_none e errs : Many (e :: errs) = None -> (forall l, e <> Some (MultiField l)) ->
  e = None /\ Many errs = None.
Proof.
  unfold Many. cbn. intros H Hm. destruct e as [[e|l|t]|]; [| |done|by split].
  - destruct (flatten errs) as [[|]|]; done.
  - by destruct (Hm l).
Qed.

Lemma Text_bound {HU : Unicode} fname body min max : Text fname body min max = None -> 0 <= max ->
  Z.of_nat (length (runes body)) <= max.
Proof.
  unfold Text. destruct (String.eqb_spec body "") as [->|Hne]; [done|]. unfold RequiredText. intros H Hm.
  destruct ((_ =? 0) && _) eqn:E; [bprop; lia|]. destruct ((1 <? min) && _); [done|]. destruct ((min =? 1) && _); [done|].
  destruct (Z.ltb_spec max (Z.of_nat (length (runes body)))); [done|lia].
Qed.

Lemma halve_no_line s : contains (char 10) (halve (unline s)) = false.
Proof.
  assert (forall s, contains (char 10) (unline s) = false) as HU.
  { intros s0. induction s0 as [|c s0 IH]; [done|]. cbn [unline contains]. rewrite IH, orb_false_r.
    destruct (Ascii.eqb_spec c (char 10)) as [->|Hn]; [done|]. apply Ascii.eqb_neq. congruence. }
  specialize (HU s). revert HU. generalize (unline s). clear s. intros s. induction s as [s IH] using (induction_ltof1 _ String.length).
  unfold ltof in IH. destruct s as [|c [|d s]]; [done|done|]. intros H. cbn [contains] in H. apply orb_false_iff in H as [Hc H].
  cbn [halve]. destruct (Ascii.eqb c " " && Ascii.eqb d " ").
  - cbn [contains]. apply orb_false_iff in H as [_ H]. rewrite (IH s); [done|cbn; lia|done].
  - cbn [contains]. change (contains (char 10) (String c (halve (String d s))) = false). cbn [contains].
    rewrite Hc. apply (IH (String d s)); [cbn; lia|done].
Qed.

Lemma OneOf_in fname value options : OneOf fname value options = None -> value ∈ options.
Proof.
  unfold OneOf. destruct (existsb _ options) eqn:E; [|done]. intros _. apply existsb_exists in E as (x & Hx & E).
  apply String.eqb_eq in E as ->. by apply list_elem_of_In.
Qed.

(** The checks of [Normalize], and what it changes *)
Lemma Normalize_checks {HU : Unicode} {HT : UUIDText} a n : Normalize a = inl n ->
  n = with_texts (if String.eqb (Source a) "" then "manual" else Source a)
        (if String.eqb (Status a) "" then StatusTriggered_ else Status a) (halve (unline (Summary a))) a /\
  Text "Summary" (Summary n) 1 MaxSummaryLength = None /\ Text "Details" (Details n) 0 MaxDetailsLength = None /\
  Source n ∈ sources /\ Status n ∈ statuses /\ ValidUUID "ServiceID" (ServiceID n) = None.
Proof.
  unfold Normalize. set (b := with_texts _ _ _ a). intros HN. destruct (Many _) eqn:EM; [done|]. injection HN as <-.
  assert (forall f b lo hi l, Text f b lo hi <> Some (MultiField l)) as HTx.
  { intros f b0 lo hi l. unfold Text, RequiredText. repeat (case_match; try done). }
  assert (forall f v o l, OneOf f v o <> Some (MultiField l)) as HO by (intros; unfold OneOf; by case_match).
  apply Many_cons_none in EM as [E1 EM]; [|apply HTx]. apply Many_cons_none in EM as [E2 EM]; [|apply HTx].
  apply Many_cons_none in EM as [E3 EM]; [|apply HO]. apply Many_cons_none in EM as [E4 EM]; [|apply HO].
  apply Many_cons_none in EM as [E5 _]; [|intros l; unfold ValidUUID; by repeat case_match].
  split_and!; try done; by eapply OneOf_in.
Qed.

(** A normalized alert has a source and a status of the database and a
    service, its texts are in their bounds and the summary is one line; the rest
    of the alert is as it was. *)
Theorem Normalize_sound {HU : Unicode} {HT : UUIDText} a n (HN : Normalize a = inl n) :
  Status n ∈ statuses /\ Source n ∈ sources /\ is_Some (uuid_Parse (ServiceID n)) /\
  Z.of_nat (length (runes (Summary n))) <= MaxSummaryLength /\ Z.of_nat (length (runes (Details n))) <= MaxDetailsLength /\
  contains (char 10) (Summary n) = false /\
  (Status a <> "" -> Status n = Status a) /\ (Source a <> "" -> Source n = Source a) /\
  ID n = ID a /\ ServiceID n = ServiceID a /\ Details n = Details a /\ Dedup n = Dedup a.
Proof.
  destruct (Normalize_checks a n HN) as (En & E1 & E2 & E3 & E4 & E5). split_and!; try done.
  - unfold ValidUUID in E5. destruct (negb _); [done|]. by destruct (uuid_Parse (ServiceID n)).
  - by apply (Text_bound "Summary" _ 1).
  - by apply (Text_bound "Details" _ 0).
  - rewrite En. apply halve_no_line.
  - intros Hs. rewrite En. cbn. by destruct (String.eqb_spec (Status a) "").
  - intros Hs. rewrite En. cbn. by destruct (String.eqb_spec (Source a) "").
  - by rewrite En.
  - by rewrite En.
  - by rewrite En.
  - by rewrite En.
Qed.

(** ** Examples, and the hypotheses of the theorems at one of them *)

Section examples.
#[local] Existing Instance ascii_unicode.
#[local] Existing Instance nibble_uuid.

Definition ex_alert (summary status : string) : Alert := mkAlert 0 status summary "" "" (uuid_String 7) 0 None.

(** A summary of at least one character is asked for, but an empty one is accepted. *)
Example Normalize_empty_summary : exists n, Normalize (ex_alert "" "") = inl n /\ Summary n = "".
Proof. eexists. split; vm_compute; reflexivity. Qed.

Example Normalize_closes_gaps :
  match Normalize (ex_alert ("disk  full" ++ newline_text ++ "on a") "closed") with inl n => Summary n | inr _ => "" end = "disk full on a".
Proof. vm_compute. reflexivity. Qed.

Lemma Normalize_sound_witness : exists n, Normalize (ex_alert "disk  full" "") = inl n /\ Status n ∈ statuses.
Proof.
  eexists. split; [vm_compute; reflexivity|]. eapply (Normalize_sound (ex_alert "disk  full" "")). vm_compute. reflexivity.
Defined.

Lemma ParseDedupString_roundtrip_witness :
  ParseDedupString "user:1:a:b" = Some (mkDedup "user" 1 "a:b") /\
  ParseDedupString (Dedup_Value (mkDedup "user" 1 "a:b")) = Some (mkDedup "user" 1 "a:b").
Proof. split; [reflexivity|]. exact (proj1 (ParseDedupString_roundtrip (mkDedup "user" 1 "a:b") eq_refl eq_refl)). Defined.
End examples.
