(* ===== verification/Effects.v ===== *)
(** * Effectful code: state, errors and panics

    The functions of the program that talk to the database or to the clock are
    written in a state monad with errors: [M S E A] runs on a state [S] and
    returns a value, an error of type [E], or panics.  A triple states what a
    function does from the states that satisfy a precondition. *)

From S2P Require Import Prelude.

Inductive res (E A : Type) := Ok (a : A) | Err (e : E) | Panic.
Arguments Ok {E A} a.
Arguments Err {E A} e.
Arguments Panic {E A}.

Definition M (S E A : Type) : Type := S -> res E A * S.

Definition ret {S E A} (a : A) : M S E A := fun w => (Ok a, w).
Definition fail {S E A} (e : E) : M S E A := fun w => (Err e, w).
Definition panic {S E A} : M S E A := fun w => (Panic, w).
Definition bind {S E A B} (m : M S E A) (k : A -> M S E B) : M S E B := fun w =>
  match m w with
  | (Ok a, w) => k a w
  | (Err e, w) => (Err e, w)
  | (Panic, w) => (Panic, w)
  end.

(** A value that is missing is a panic. *)
Definition need {S E A} (o : option A) : M S E A := fun w =>
  match o with Some a => (Ok a, w) | None => (Panic, w) end.

Declare Scope effects_scope.
Delimit Scope effects_scope with effects.
Notation "'let!' x ':=' m 'in' k" := (bind m (fun x => k))
  (at level 10, x name, m at level 100, k at level 200) : effects_scope.
Notation "m ';;;' k" := (bind m (fun _ => k)) (at level 100, right associativity) : effects_scope.
Open Scope effects_scope.

Lemma bind_ret {S E A B} (a : A) (k : A -> M S E B) w : bind (ret a) k w = k a w.
Proof. done. Qed.

Lemma bind_ok {S E A B} (m : M S E A) (k : A -> M S E B) a w w' :
  m w = (Ok a, w') -> bind m k w = k a w'.
Proof. intros Em. unfold bind. by rewrite Em. Qed.

Lemma bind_inv {S E A B} (m : M S E A) (k : A -> M S E B) b w w' :
  bind m k w = (Ok b, w') -> exists a w1, m w = (Ok a, w1) /\ k a w1 = (Ok b, w').
Proof. unfold bind. destruct (m w) as [[a|e|] w1]; [|done|done]. intros Ek. by exists a, w1. Qed.

(** A loop over a slice: the first error ends it. *)
Fixpoint each {S E A} (f : A -> M S E unit) (l : list A) : M S E unit :=
  match l with
  | [] => ret tt
  | x :: l => f x ;;; each f l
  end.

(** [P] before, [Q] after a result, [X (Some e)] after an error, [X None] after
    a panic. *)
Definition triple {S E A} (P : S -> Prop) (m : M S E A) (Q : A -> S -> Prop)
  (X : option E -> S -> Prop) : Prop :=
  forall w, P w ->
    match m w with (Ok a, w') => Q a w' | (Err e, w') => X (Some e) w' | (Panic, w') => X None w' end.

(** No panic, and nothing is said after an error. *)
Definition no_panic {S E} (x : option E) (_ : S) : Prop := is_Some x.

Section triples.
Context {S E : Type}.
Implicit Types (P : S -> Prop) (X : option E -> S -> Prop).

Lemma triple_ret {A} (a : A) P X : triple P (ret (E := E) a) (fun a' w => a' = a /\ P w) X.
Proof. intros w HP. done. Qed.

Lemma triple_bind {A B} (m : M S E A) (k : A -> M S E B) P Q R X :
  triple P m Q X -> (forall a, triple (Q a) (k a) R X) -> triple P (bind m k) R X.
Proof.
  intros Hm Hk w HP. unfold bind. specialize (Hm w HP). destruct (m w) as [[a|e|] w']; [by apply Hk|done|done].
Qed.

Lemma triple_weaken {A} (m : M S E A) P P' (Q Q' : A -> S -> Prop) X X' :
  triple P m Q X -> (forall w, P' w -> P w) -> (forall a w, Q a w -> Q' a w) ->
  (forall x w, X x w -> X' x w) -> triple P' m Q' X'.
Proof.
  intros Hm HP HQ HX w Hw. specialize (Hm w (HP w Hw)). destruct (m w) as [[a|e|] w']; auto.
Qed.

(** The invariant [I l] holds before the elements [l] are processed. *)
Lemma triple_each {A} (f : A -> M S E unit) (I : list A -> S -> Prop) X l :
  (forall x l, triple (I (x :: l)) (f x) (fun _ => I l) X) ->
  triple (I l) (each f l) (fun _ => I []) X.
Proof.
  intros Hf. induction l as [|x l IH]; cbn [each]; [by intros w HI|].
  eapply triple_bind; [apply Hf|]. intros u. apply IH.
Qed.
End triples.
