(* ===== verification/Database.v ===== *)
(** * Locked transactions: [engine/processinglock]

    The engine modules run every transaction under the advisory lock that keeps
    migrations out and the row lock of their module.  A world is the tables a
    module works on and the number of database calls made; the n-th call fails
    with [db_err n], and the advisory lock is granted if [adv_lock n].  All of a
    transaction has the time of its start ([now()]), and an error undoes it. *)

From S2P Require Import Prelude Effects.

(** What a database call, or [processinglock], fails with. *)
Inductive DBErr := PgErr (code constraint : string) | ErrNoRows | ErrNoLock | OtherErr.

#[global] Instance DBErr_eq_dec : EqDecision DBErr.
Proof. solve_decision. Defined.

Record DBWorld (T : Type) := mkDB { db_tbl : T; db_calls : nat }.
Arguments mkDB {T}.
Arguments db_tbl {T}.
Arguments db_calls {T}.

Section Database.
Context {T : Type}.
Context (db_err : nat -> option DBErr) (adv_lock : nat -> bool) (clock : nat -> Z).

Local Notation M := (Effects.M (DBWorld T) DBErr).

Definition tick (w : DBWorld T) : DBWorld T := mkDB (db_tbl w) (S (db_calls w)).
Definition set_tbl (t : T) (w : DBWorld T) : DBWorld T := mkDB t (db_calls w).

(** A statement: it reads and writes the tables, or a constraint refuses it. *)
Definition stmt {A} (f : T -> A * T + DBErr) : M A := fun w =>
  match db_err (db_calls w) with
  | Some e => (Err e, tick w)
  | None => match f (db_tbl w) with
            | inl (a, t) => (Ok a, set_tbl t (tick w))
            | inr e => (Err e, tick w)
            end
  end.

Definition call : M unit := stmt (fun t => inl (tt, t)).

(** [55P03] is [lock_not_available]. *)
Definition acquire_error (e : DBErr) : DBErr :=
  match e with
  | ErrNoRows => ErrNoLock
  | PgErr c _ => if String.eqb c "55P03" then ErrNoLock else e
  | _ => e
  end.

Definition map_err {A} (f : DBErr -> DBErr) (m : M A) : M A := fun w =>
  match m w with (Err e, w) => (Err (f e), w) | r => r end.

(** [ProcSharedAdvisoryLock] and the lock of the module. *)
Definition BeginTx : M unit :=
  call ;;;
  let! gotAdvLock := (fun w => stmt (fun t => inl (adv_lock (db_calls w), t)) w) in
  if (gotAdvLock : bool) then map_err acquire_error call else fail ErrNoLock.

(** [body] runs at the time of the start of the transaction. *)
Definition WithTx {A} (body : Z -> M A) : M A := fun w =>
  match bind BeginTx (fun _ => let! a := body (clock (db_calls w)) in call ;;; ret a) w with
  | (Ok a, w') => (Ok a, w')
  | (Err e, w') => (Err e, set_tbl (db_tbl w) w')
  | (Panic, w') => (Panic, set_tbl (db_tbl w) w')
  end.

Definition Exec (f : Z -> T -> T + DBErr) : M unit :=
  WithTx (fun now => stmt (fun t => match f now t with inl t => inl (tt, t) | inr e => inr e end)).

(** ** What a transaction keeps *)

Lemma stmt_inv {A} (P : T -> Prop) (Q : A -> T -> Prop) f w :
  (forall a t, f (db_tbl w) = inl (a, t) -> Q a t) -> (P (db_tbl w)) ->
  match stmt f w with (Ok a, w') => Q a (db_tbl w') | (_, w') => P (db_tbl w') end.
Proof.
  intros HQ HP. unfold stmt. destruct (db_err (db_calls w)); [done|].
  destruct (f (db_tbl w)) as [[a t]|e] eqn:E; [|done]. by apply HQ.
Qed.

Lemma call_tbl w : db_tbl (call w).2 = db_tbl w.
Proof. unfold call, stmt. by destruct (db_err (db_calls w)). Qed.

Lemma BeginTx_tbl w : db_tbl (BeginTx w).2 = db_tbl w.
Proof.
  unfold BeginTx, bind, call, stmt, map_err, fail. cbn.
  repeat (case_match; simplify_eq; cbn in *; try done).
Qed.

(** What [body] establishes holds after a commit; nothing changes otherwise. *)
Lemma WithTx_spec {A} (Q : A -> T -> Prop) (body : Z -> M A) w :
  (forall w', db_tbl w' = db_tbl w ->
     match body (clock (db_calls w)) w' with (Ok a, w'') => Q a (db_tbl w'') | _ => True end) ->
  match WithTx body w with (Ok a, w') => Q a (db_tbl w') | (_, w') => db_tbl w' = db_tbl w end.
Proof.
  intros HB. unfold WithTx, bind at 1. pose proof (BeginTx_tbl w) as H0.
  destruct (BeginTx w) as [[u|e|] w1]; [|done|done]. cbn in H0. unfold bind at 1.
  specialize (HB w1 H0). destruct (body (clock (db_calls w)) w1) as [[a|e|] w2]; [|done|done].
  unfold bind at 1. pose proof (call_tbl w2) as H2. destruct (call w2) as [[u'|e|] w3]; [|done|done].
  cbn in *. by rewrite H2.
Qed.

(** A transaction under which an invariant holds whatever happens. *)
Lemma WithTx_keeps {A} (I : T -> Prop) (body : Z -> M A) w :
  I (db_tbl w) ->
  (forall w', I (db_tbl w') -> match body (clock (db_calls w)) w' with (Ok _, w'') => I (db_tbl w'') | _ => True end) ->
  I (db_tbl (WithTx body w).2).
Proof.
  intros HI HB. pose proof (WithTx_spec (fun _ => I) body w) as HS.
  destruct (WithTx body w) as [[a|e|] w']; cbn; [apply HS|rewrite HS|rewrite HS]; try done;
    intros w1 E; apply HB; by rewrite E.
Qed.

Lemma Exec_spec f w :
  match Exec f w with
  | (Ok _, w') => f (clock (db_calls w)) (db_tbl w) = inl (db_tbl w')
  | (_, w') => db_tbl w' = db_tbl w
  end.
Proof.
  apply (WithTx_spec (fun _ t => f (clock (db_calls w)) (db_tbl w) = inl t)).
  intros w' E. unfold stmt. destruct (db_err (db_calls w')); [done|].
  rewrite E. by destruct (f (clock (db_calls w)) (db_tbl w)).
Qed.
End Database.
