(* ===== verification/GoTime.v ===== *)
(** * The part of Go's [time] package the program computes with

    An instant is a number of nanoseconds since the Unix epoch, a location is
    the function from Unix seconds to the UTC offset in seconds, a [Time] is an
    instant seen in a location.  The definitions follow the documented
    behaviour of [time.Date] (normalisation of month and day overflow, the two
    offset look-ups), [Time.Date], [Time.Clock], [Time.Weekday], [Time.AddDate],
    [Time.Truncate] (relative to the zero time, January 1 of year 1 UTC) and
    [Time.Sub] (saturating).  The ranges Go allows for an instant (years
    before 292277026596) are not bounded here. *)

From S2P Require Import Prelude.

(** ** Durations and instants *)

Definition Nanosecond : Z := 1.
Definition Second : Z := 1000000000.
Definition Minute : Z := 60 * Second.
Definition Hour : Z := 60 * Minute.
Definition Day : Z := 24 * Hour.

Definition Location := Z -> Z.

Definition UTC : Location := fun _ => 0.
Definition fixed_zone (o : Z) : Location := fun _ => o.

(** A location with one transition: offset [o1] before the Unix second [T] and
    [o2] from [T] on, which is what a day with a clock change looks like. *)
Definition step_zone (T o1 o2 : Z) : Location := fun u => if u <? T then o1 else o2.

Record Time := mkTime { inst : Z; zone : Location }.

(** The zero [time.Time]: January 1, year 1, 00:00:00 UTC. *)
Definition zero_inst : Z := - 62135596800 * Second.
Definition zeroTime : Time := mkTime zero_inst UTC.

Definition IsZero (t : Time) : bool := inst t =? zero_inst.
Definition Before (a b : Time) : bool := inst a <? inst b.
Definition After (a b : Time) : bool := inst b <? inst a.
Definition EqualT (a b : Time) : bool := inst a =? inst b.
Definition Add (t : Time) (d : Z) : Time := mkTime (inst t + d) (zone t).
Definition Sub (a b : Time) : Z := sat64 (inst a - inst b).
Definition In_ (t : Time) (l : Location) : Time := mkTime (inst t) l.
Definition Unix (t : Time) : Z := inst t / Second.
Definition time_Unix (s : Z) : Time := mkTime (s * Second) UTC.
Definition Truncate (t : Time) (d : Z) : Time :=
  if d <=? 0 then t
  else mkTime (inst t - (inst t - zero_inst) mod d) (zone t).

(** [Duration.Truncate]: toward zero to a multiple of [m]. *)
Definition dTruncate (d m : Z) : Z := if m <=? 0 then d else d - d `rem` m.

(** ** The proleptic Gregorian calendar *)

Definition days_from_civil (y m d : Z) : Z :=
  let y' := if m <=? 2 then y - 1 else y in
  let yoe := y' mod 400 in
  let mp := if 2 <? m then m - 3 else m + 9 in
  y' / 400 * 146097
    + (yoe * 365 + yoe / 4 - yoe / 100 + ((153 * mp + 2) / 5 + d - 1)) - 719468.

Definition yoe_of (doe : Z) : Z :=
  (doe - doe / 1460 + doe / 36524 - doe / 146096) / 365.
Definition doy_of (doe : Z) : Z :=
  let yoe := yoe_of doe in doe - (365 * yoe + yoe / 4 - yoe / 100).

Definition civil_from_days (z : Z) : Z * Z * Z :=
  let doe := (z + 719468) mod 146097 in
  let y := yoe_of doe + (z + 719468) / 146097 * 400 in
  let mp := (5 * doy_of doe + 2) / 153 in
  let d := doy_of doe - (153 * mp + 2) / 5 + 1 in
  let m := if mp <? 10 then mp + 3 else mp - 9 in
  (if m <=? 2 then y + 1 else y, m, d).

(** ** Wall-clock readings *)

Definition local_sec (t : Time) : Z := Unix t + zone t (Unix t).
Definition local_day (t : Time) : Z := local_sec t / 86400.
Definition sec_of_day (t : Time) : Z := local_sec t mod 86400.

(** [Time.Zone], without the abbreviation. *)
Definition Zone (t : Time) : Z := zone t (Unix t).

Definition Date (t : Time) : Z * Z * Z := civil_from_days (local_day t).

Definition ClockHMS (t : Time) : Z * Z * Z :=
  let s := sec_of_day t in (s / 3600, s mod 3600 / 60, s mod 60).

(** Sunday is 0. *)
Definition Weekday (t : Time) : Z := (local_day t + 4) mod 7.

(** [time.Date] guesses the offset at the local reading taken as UTC, and looks
    it up again at the instant the guess gives. *)
Definition unlocal (l : Location) (u : Z) : Z :=
  let o := l u in if o =? 0 then u else u - l (u - o).

Definition norm_days (y m d : Z) : Z :=
  days_from_civil (y + (m - 1) / 12) ((m - 1) mod 12 + 1) 1 + (d - 1).

Definition date (y m d hh mm ss ns : Z) (l : Location) : Time :=
  mkTime (unlocal l (norm_days y m d * 86400 + hh * 3600 + mm * 60 + ss) * Second + ns) l.

Definition AddDate (t : Time) (years months days : Z) : Time :=
  let '(y, m, d) := Date t in
  let '(hh, mm, ss) := ClockHMS t in
  date (y + years) (m + months) (d + days) hh mm ss (inst t mod Second) (zone t).

(** ** Facts about the calendar *)

Lemma doe_bounds z :
  0 <= z < 146097 -> 0 <= yoe_of z < 400 /\ 0 <= doy_of z <= 365.
Proof.
  intros Hz. unfold doy_of. cbv zeta.
  assert (0 <= yoe_of z < 400) as Hy by (unfold yoe_of; dlia).
  split; [done|].
  assert (exists b, (b = 0 \/ b = 1 \/ b = 2 \/ b = 3 \/ b = 4) /\ z / 36524 = b)
    as (b & Hb & Eb) by (eexists; split; [|reflexivity]; dlia).
  unfold yoe_of in *. rewrite Eb in *.
  destruct Hb as [->|[->|[->|[->| ->]]]]; dlia.
Qed.

(** Reading the calendar and writing it back is the identity on days. *)
Lemma civil_roundtrip z :
  let '(y, m, d) := civil_from_days z in days_from_civil y m d = z /\ 1 <= m <= 12.
Proof.
  unfold civil_from_days, days_from_civil.
  set (doe := (z + 719468) mod 146097).
  assert (0 <= doe < 146097) as Hd by (apply Z.mod_pos_bound; lia).
  destruct (doe_bounds doe Hd) as [Hy Hdoy].
  set (mp := (5 * doy_of doe + 2) / 153).
  assert (0 <= mp <= 11) as Hmp by (clear - Hdoy; subst mp; dlia).
  assert ((if (if mp <? 10 then mp + 3 else mp - 9) <=? 2
           then (if (if mp <? 10 then mp + 3 else mp - 9) <=? 2
                 then yoe_of doe + (z + 719468) / 146097 * 400 + 1
                 else yoe_of doe + (z + 719468) / 146097 * 400) - 1
           else if (if mp <? 10 then mp + 3 else mp - 9) <=? 2
                then yoe_of doe + (z + 719468) / 146097 * 400 + 1
                else yoe_of doe + (z + 719468) / 146097 * 400)
          = yoe_of doe + (z + 719468) / 146097 * 400) as -> by blia.
  rewrite Z.mod_add, Z.div_add, Z.mod_small, Z.div_small by lia.
  assert ((if 2 <? (if mp <? 10 then mp + 3 else mp - 9)
           then (if mp <? 10 then mp + 3 else mp - 9) - 3
           else (if mp <? 10 then mp + 3 else mp - 9) + 9) = mp) as -> by blia.
  split; [|blia].
  unfold doy_of. cbv zeta.
  pose proof (Z.div_mod (z + 719468) 146097). fold doe in H. lia.
Qed.

Lemma norm_days_civil z (y m d : Z) :
  civil_from_days z = (y, m, d) -> norm_days y m (d + 0) = z.
Proof.
  intros E. pose proof (civil_roundtrip z) as R. rewrite E in R. destruct R as [R Hm].
  unfold norm_days. rewrite Z.div_small, Z.mod_small by lia.
  rewrite !Z.add_0_r, Z.sub_add. rewrite <- R.
  unfold days_from_civil. cbv zeta. dlia.
Qed.

(** Moving the day of the month moves the date by as many days. *)
Lemma norm_days_shift z (y m d k : Z) :
  civil_from_days z = (y, m, d) -> norm_days y m (d + k) = z + k.
Proof.
  intros E. apply norm_days_civil in E. unfold norm_days in *. lia.
Qed.

(** Months have between 28 and 31 days, so the first of the month is strictly
    increasing in the month count. *)
Lemma norm_days_month_step y m d :
  28 <= norm_days y (m + 1) d - norm_days y m d <= 31.
Proof.
  unfold norm_days.
  set (k := m - 1).
  replace (m + 1 - 1) with (k + 1) by lia. replace (m - 1) with k by lia.
  assert (0 <= k mod 12 < 12) as Hk by (apply Z.mod_pos_bound; lia).
  assert (((k + 1) mod 12 = k mod 12 + 1 /\ (k + 1) / 12 = k / 12 /\ k mod 12 < 11) \/
          ((k + 1) mod 12 = 0 /\ (k + 1) / 12 = k / 12 + 1 /\ k mod 12 = 11)) as HS by dlia.
  set (r := k mod 12) in *. set (q := (k + 1) / 12) in *. set (r' := (k + 1) mod 12) in *.
  clearbody k r r'. 
  assert (forall e, days_from_civil e 3 1 - days_from_civil e 2 1 = 28 \/
                    days_from_civil e 3 1 - days_from_civil e 2 1 = 29) as HF.
  { intros e. unfold days_from_civil. simpl. dlia. }
  destruct HS as [(-> & -> & Hr)|(-> & -> & ->)].
  - destruct (decide (r = 1)) as [->|Hn].
    + destruct (HF (y + k / 12)); change (1 + 1 + 1) with 3; change (1 + 1) with 2; lia.
    + unfold days_from_civil. cbv zeta.
      assert (r = 0 \/ 2 <= r <= 10) as [->| Hr2] by lia; [simpl; dlia|].
      replace (r + 1 + 1 <=? 2) with false by (symmetry; apply Z.leb_gt; lia).
      replace (r + 1 <=? 2) with false by (symmetry; apply Z.leb_gt; lia).
      replace (2 <? r + 1 + 1) with true by (symmetry; apply Z.ltb_lt; lia).
      replace (2 <? r + 1) with true by (symmetry; apply Z.ltb_lt; lia). dlia.
  - unfold days_from_civil. simpl. replace (y + (k / 12 + 1) - 1) with (y + k / 12) by lia.
    dlia.
Qed.

Lemma norm_days_month_mono y m d n :
  0 <= n -> 28 * n <= norm_days y (m + n) d - norm_days y m d <= 31 * n.
Proof.
  intros Hn. pattern n. apply natlike_ind; [rewrite Z.add_0_r; lia| |done].
  intros x Hx IH. pose proof (norm_days_month_step y (m + x) d).
  replace (m + Z.succ x) with (m + x + 1) by lia. lia.
Qed.

Lemma Truncate_minute_mod t : inst (Truncate t Minute) = inst t - inst t mod Minute.
Proof.
  unfold Truncate. simpl.
  change (Minute <=? 0) with false. simpl.
  replace (inst t - zero_inst) with (inst t + 1035593280 * Minute)
    by (unfold zero_inst, Minute, Second; lia).
  rewrite Z.mod_add; [done|]. unfold Minute, Second. lia.
Qed.

Lemma Truncate_minute t :
  Truncate t Minute = mkTime (inst t - inst t mod Minute) (zone t).
Proof. rewrite <- Truncate_minute_mod. done. Qed.
