(* ===== verification/Clock.v ===== *)
(** * Wall-clock arithmetic: [util/timeutil/clock.go], [math.go], [weekday.go]

    [Clock] is a duration since midnight.  The operations that place a clock
    value on a day look for a change of the UTC offset within 24 hours of
    midnight with a binary search over minutes.  The facts below come in two
    groups: in a location with a constant offset every operation is plain
    addition; on a day with one offset change, [FirstOfDay] and [LastOfDay]
    return the first and last instants their documentation names. *)

From S2P Require Import Prelude GoTime.

Definition Clock := Z.

(** [sort.Search]: the smallest index in [0,n) at which [f] holds, if [f] is
    monotone, by bisection; every round halves the interval, so [n] rounds are
    enough. *)
Fixpoint search_loop (fuel : nat) (f : Z -> bool) (i j : Z) : Z :=
  match fuel with
  | O => i
  | S fuel' =>
      if i <? j then
        let h := (i + j) / 2 in
        if negb (f h) then search_loop fuel' f (h + 1) j else search_loop fuel' f i h
      else i
  end.
Definition sort_Search (n : Z) (f : Z -> bool) : Z := search_loop (Z.to_nat n) f 0 n.

Definition NewClock (hour minute : Z) : Clock :=
  wrap64 (wrap64 (hour * Hour) + wrap64 (minute * Minute)).

Definition NewClockFromTime (t : Time) : Clock :=
  let '(h, m, _) := ClockHMS t in NewClock h m.

Definition IsDST (t : Time) : bool * Clock * Clock :=
  let next := Add t (24 * Hour) in
  let oldOffset := Zone t in
  let newOffset := Zone next in
  if oldOffset =? newOffset then (false, 0, 0)
  else
    let mins := sort_Search ((24 * Hour) `quot` Minute)
                  (fun min => Zone (Add t (min * Minute)) =? newOffset) in
    (true, NewClock 0 mins, (newOffset - oldOffset) * Second).

Definition Days (c : Clock) : Z * Clock :=
  let days := c `quot` (24 * Hour) in
  let rem := c `rem` (24 * Hour) in
  if rem <? 0 then (days - 1, rem + 24 * Hour) else (days, rem).

Definition StartOfDay (t : Time) : Time :=
  let '(y, m, d) := Date t in date y m d 0 0 0 0 (zone t).

Definition FirstOfDay (c : Clock) (t : Time) : Time :=
  let '(y, m, d) := Date t in
  let t := date y m d 0 0 0 0 (zone t) in
  let '(isDST, dstAt, dstChange) := IsDST t in
  if negb isDST || (c <? dstAt) then Add t c
  else if 0 <? dstChange then
    if c <? dstAt + dstChange then Add t dstAt else Add t (c - dstChange)
  else Add t (c + - dstChange).

Definition LastOfDay (c : Clock) (t : Time) : Time :=
  let '(y, m, d) := Date t in
  let t := date y m d 0 0 0 0 (zone t) in
  let '(isDST, dstAt, dstChange) := IsDST t in
  if negb isDST || ((0 <? dstChange) && (c <? dstAt)) then Add t c
  else if 0 <? dstChange then
    if c <? dstAt + dstChange then Add t dstAt else Add t (c - dstChange)
  else
    let dstRepeatAt := dstAt + dstChange in
    if c <? dstRepeatAt then Add t c else Add t (c + - dstChange).

Definition Is (c : Clock) (t : Time) : bool :=
  let '(h, m, _) := ClockHMS t in NewClock h m =? c.

Definition MinuteOf (c : Clock) : Z := (c `rem` Hour) `quot` Minute.
Definition HourOf (c : Clock) : Z := c `quot` Hour.

Definition AddClock (t : Time) (c : Clock) : Time :=
  let c := wrap64 (c + NewClockFromTime t) in
  let '(days, c) := Days c in
  let start := StartOfDay t in
  let start := if negb (days =? 0) then AddDate start 0 0 days else start in
  FirstOfDay c start.

Definition HoursBetween (a b : Time) : Z :=
  let diff := Sub b a in
  let offsetA := Zone a in
  let offsetB := Zone b in
  if offsetA =? offsetB then diff `quot` Hour
  else wrap64 (diff + (offsetB - offsetA) * Second) `quot` Hour.

Definition ClockDiff (a b : Time) : Clock :=
  let diff := Sub b a in
  let offsetA := Zone a in
  let offsetB := Zone b in
  if offsetA =? offsetB then diff
  else wrap64 (diff + (offsetB - offsetA) * Second).

Definition PrevWeekday (t : Time) (w : Z) : Time :=
  let '(year, month, day) := Date t in
  let adj := w - Weekday t in
  let adj := if adj <? 1 then adj + 7 else adj in
  let adj := adj - 7 in
  if adj =? 0 then t else date year month (day + adj) 0 0 0 0 (zone t).

Definition NextWeekday (t : Time) (w : Z) : Time :=
  let '(year, month, day) := Date t in
  let adj := w - Weekday t in
  let adj := if adj <? 1 then adj + 7 else adj in
  date year month (day + adj) 0 0 0 0 (zone t).

(** ** Constants and readings *)

Ltac unfold_units := unfold Day, Hour, Minute, Second in *.

Lemma Second_pos : 0 < Second. Proof. reflexivity. Qed.
Lemma Day_eq : Day = 86400 * Second. Proof. reflexivity. Qed.
#[export] Hint Resolve Second_pos : oncall.

(** The documented meaning of [Days]: whole days rounded down, and the clock
    value left over. *)
Lemma Days_floor c : Days c = (c / Day, c mod Day).
Proof.
  unfold Days. change (24 * Hour) with Day.
  assert (0 < Day) as HD by reflexivity.
  pose proof (rem_correct_mod c Day HD) as R.
  pose proof (Z.quot_rem c Day ltac:(lia)) as Q.
  pose proof (Z.div_mod c Day ltac:(lia)) as M.
  destruct (c `rem` Day <? 0); f_equal; nia.
Qed.

Lemma sec_of_day_range t : 0 <= sec_of_day t < 86400.
Proof. apply Z.mod_pos_bound. lia. Qed.

Lemma local_sec_split t : local_sec t = local_day t * 86400 + sec_of_day t.
Proof. unfold local_day, sec_of_day. dlia. Qed.

Lemma ClockHMS_sec t h m s :
  ClockHMS t = (h, m, s) -> h * 3600 + m * 60 + s = sec_of_day t.
Proof. unfold ClockHMS. intros [= <- <- <-]. dlia. Qed.

(** [NewClock] does not overflow on clock readings. *)
Lemma NewClock_small h m :
  Z.abs h <= 1512000 -> Z.abs m <= 1440 -> NewClock h m = h * Hour + m * Minute.
Proof.
  intros. unfold NewClock.
  rewrite (wrap64_id (h * Hour)), (wrap64_id (m * Minute)), wrap64_id;
    unfold in64, two63; unfold_units; lia.
Qed.

Lemma NewClockFromTime_eq t :
  NewClockFromTime t = (sec_of_day t - sec_of_day t mod 60) * Second.
Proof.
  unfold NewClockFromTime, ClockHMS. pose proof (sec_of_day_range t) as R.
  set (s := sec_of_day t) in *. clearbody s.
  rewrite NewClock_small by dlia. unfold_units. dlia.
Qed.

Lemma NewClockFromTime_range t : 0 <= NewClockFromTime t < Day.
Proof.
  rewrite NewClockFromTime_eq. pose proof (sec_of_day_range t). unfold_units. dlia.
Qed.

Lemma StartOfDay_mk t l i : zone t = l -> inst (StartOfDay t) = i -> StartOfDay t = mkTime i l.
Proof.
  intros <- <-. unfold StartOfDay. by destruct (Date t) as [[y m] d].
Qed.

(** ** Locations with a constant offset *)

Definition fixed_at (l : Location) (o : Z) : Prop := forall u, l u = o.

Lemma fixed_zone_at o : fixed_at (fixed_zone o) o.
Proof. done. Qed.
#[export] Hint Resolve fixed_zone_at : oncall.

Section fixed.
Context (l : Location) (o : Z) (Hl : fixed_at l o).

Lemma unlocal_fixed u : unlocal l u = u - o.
Proof using Hl.
  unfold unlocal. rewrite !Hl. blia.
Qed.

Lemma IsDST_fixed t : zone t = l -> IsDST t = (false, 0, 0).
Proof using Hl.
  intros E. unfold IsDST, Zone, Add. simpl. rewrite E, !Hl, Z.eqb_refl. done.
Qed.

Lemma date_civil_shift t y m d k hh mm ss ns :
  Date t = (y, m, d) ->
  date y m (d + k) hh mm ss ns l =
  mkTime (((local_day t + k) * 86400 - o + (hh * 3600 + mm * 60 + ss)) * Second + ns) l.
Proof using Hl.
  intros E. unfold date. rewrite (norm_days_shift _ _ _ _ _ E), unlocal_fixed.
  f_equal. f_equal. f_equal. lia.
Qed.

Lemma StartOfDay_fixed t :
  zone t = l -> StartOfDay t = mkTime ((local_day t * 86400 - o) * Second) l.
Proof using Hl.
  intros E. unfold StartOfDay. destruct (Date t) as [[y m] d] eqn:ED.
  rewrite E, <- (Z.add_0_r d), (date_civil_shift t) by done.
  f_equal. lia.
Qed.

Lemma OfDay_fixed c t :
  zone t = l ->
  FirstOfDay c t = mkTime ((local_day t * 86400 - o) * Second + c) l /\
  LastOfDay c t = mkTime ((local_day t * 86400 - o) * Second + c) l.
Proof using Hl.
  intros E. pose proof (StartOfDay_fixed t E) as S. unfold StartOfDay in S.
  unfold FirstOfDay, LastOfDay. destruct (Date t) as [[y m] d].
  rewrite S, IsDST_fixed by done. done.
Qed.

Lemma local_sec_fixed i : local_sec (mkTime i l) = i / Second + o.
Proof using Hl. unfold local_sec, Unix. simpl. by rewrite Hl. Qed.

Lemma AddDate_days_fixed t k :
  zone t = l -> AddDate t 0 0 k = mkTime (inst t + k * Day) l.
Proof using Hl.
  intros E. unfold AddDate. destruct (Date t) as [[y m] d] eqn:ED.
  destruct (ClockHMS t) as [[hh mm] ss] eqn:EC. rewrite E, !Z.add_0_r.
  rewrite (date_civil_shift t) by done. apply ClockHMS_sec in EC. rewrite EC.
  f_equal. pose proof (local_sec_split t) as LS. unfold local_sec, Unix in LS.
  rewrite E, Hl in LS. pose proof (Z.div_mod (inst t) Second). unfold_units. lia.
Qed.

(** In a constant-offset location whole minutes are clock minutes. *)
Lemma aligned_clock i :
  o mod 60 = 0 -> i mod Minute = 0 ->
  sec_of_day (mkTime i l) mod 60 = 0 /\
  i = (local_day (mkTime i l) * 86400 - o + sec_of_day (mkTime i l)) * Second.
Proof using Hl.
  intros Ho Hi. pose proof (local_sec_split (mkTime i l)) as LS.
  pose proof (sec_of_day_range (mkTime i l)).
  rewrite local_sec_fixed in LS.
  set (s := sec_of_day _) in *. set (dd := local_day _) in *. clearbody s dd.
  unfold_units. dlia.
Qed.

Lemma AddClock_fixed i c :
  o mod 60 = 0 -> i mod Minute = 0 -> in64 (c + Day) -> in64 c ->
  AddClock (mkTime i l) c = mkTime (i + c) l.
Proof using Hl.
  intros Ho Hi H1 H2. destruct (aligned_clock i Ho Hi) as [Hs Hi'].
  pose proof (NewClockFromTime_range (mkTime i l)) as Hc.
  unfold AddClock. rewrite wrap64_id by (unfold in64 in *; lia).
  rewrite Days_floor, StartOfDay_fixed by done.
  rewrite NewClockFromTime_eq, Hs, Z.sub_0_r in *.
  set (t0 := mkTime ((local_day (mkTime i l) * 86400 - o) * Second) l).
  set (k := (c + sec_of_day (mkTime i l) * Second) / Day).
  assert ((if negb (k =? 0) then AddDate t0 0 0 k else t0) = mkTime (inst t0 + k * Day) l) as ->.
  { destruct (k =? 0) eqn:Ek; simpl.
    - bprop. rewrite Ek. unfold t0. simpl. f_equal. lia.
    - by apply AddDate_days_fixed. }
  rewrite (proj1 (OfDay_fixed _ (mkTime _ l) eq_refl)). f_equal.
  unfold local_day at 1. rewrite local_sec_fixed. unfold t0. simpl.
  assert (((local_day (mkTime i l) * 86400 - o) * Second + k * Day) / Second + o
          = (local_day (mkTime i l) + k) * 86400) as ->.
  { rewrite Day_eq. rewrite Z.mul_assoc, <- Z.mul_add_distr_r, Z.div_mul by done. lia. }
  rewrite Z.div_mul by done.
  pose proof (Z.div_mod (c + sec_of_day (mkTime i l) * Second) Day ltac:(done)) as DM.
  fold k in DM. rewrite Day_eq in *. lia.
Qed.

Lemma ClockDiff_fixed a b : zone a = l -> zone b = l -> ClockDiff a b = Sub b a.
Proof using Hl.
  intros Ea Eb. unfold ClockDiff, Zone. by rewrite Ea, Eb, !Hl, Z.eqb_refl.
Qed.
End fixed.

(** ** Days on which the offset changes once *)

(** Bisection finds the threshold of a monotone predicate. *)
Lemma search_loop_threshold fuel f i j k :
  j - i <= Z.of_nat fuel -> i <= k <= j ->
  (forall x, i <= x < j -> f x = (k <=? x)) -> search_loop fuel f i j = k.
Proof.
  revert i j. induction fuel as [|fuel IH]; intros i j Hf Hk Hth; simpl; [lia|].
  destruct (i <? j) eqn:E; bprop; [|lia].
  assert (i <= (i + j) / 2 < j) as Hh by dlia.
  rewrite Hth by done. destruct (k <=? (i + j) / 2) eqn:E2; bprop; simpl;
    (apply IH; [lia|lia|intros; apply Hth; lia]).
Qed.

Lemma sort_Search_threshold n f k :
  0 <= k <= n -> (forall x, 0 <= x < n -> f x = (k <=? x)) -> sort_Search n f = k.
Proof. intros. apply search_loop_threshold; [lia|lia|done]. Qed.

(** The wall-clock reading at an instant, in nanoseconds. *)
Definition wall (l : Location) (i : Z) : Z := i + l (i / Second) * Second.

Section one_change.
(** [m] is midnight, in Unix seconds; the offset is [o1] until [T] and [o2]
    from [T] on, for two days; the change falls on a whole minute within 24
    hours of midnight and moves the clock by at most a day. *)
Context (l : Location) (m T o1 o2 : Z).
Hypothesis Hstep : forall u, m <= u <= m + 172800 -> l u = if u <? T then o1 else o2.
Hypothesis HT : m < T <= m + 86400.
Hypothesis Hmin : (T - m) mod 60 = 0.
Hypothesis Hsmall : Z.abs (o2 - o1) <= 86400.

Let mid := mkTime (m * Second) l.

Lemma Zone_after d :
  0 <= d <= 172800 -> Zone (Add mid (d * Second)) = if m + d <? T then o1 else o2.
Proof using Hstep.
  intros. unfold Zone, Unix, Add, mid. simpl.
  rewrite <- Z.mul_add_distr_r, Z.div_mul by done. apply Hstep. lia.
Qed.

Lemma IsDST_midnight :
  IsDST mid = if o1 =? o2 then (false, 0, 0)
              else (true, (T - m) * Second, (o2 - o1) * Second).
Proof using Hstep HT Hmin.
  unfold IsDST.
  assert (Zone mid = o1) as ->.
  { replace mid with (Add mid (0 * Second)) by (unfold Add, mid; simpl; f_equal; lia).
    rewrite Zone_after by lia. blia. }
  assert (Zone (Add mid (24 * Hour)) = o2) as ->.
  { change (24 * Hour) with (86400 * Second). rewrite Zone_after by lia. blia. }
  destruct (o1 =? o2) eqn:E; [done|]. bprop.
  rewrite (sort_Search_threshold _ _ ((T - m) / 60)).
  - rewrite NewClock_small by dlia. do 2 f_equal. unfold_units. dlia.
  - change ((24 * Hour) `quot` Minute) with 1440. dlia.
  - change ((24 * Hour) `quot` Minute) with 1440. intros x Hx.
    replace (x * Minute) with (60 * x * Second) by (unfold Minute; lia).
    rewrite Zone_after by lia.
    destruct (m + 60 * x <? T) eqn:E1; bprop; symmetry.
    + rewrite (proj2 (Z.eqb_neq _ _)) by done. apply Z.leb_gt. dlia.
    + rewrite Z.eqb_refl. apply Z.leb_le. dlia.
Qed.

Lemma wall_window i :
  m * Second <= i <= (m + 172800) * Second ->
  wall l i = i + (if i <? T * Second then o1 else o2) * Second.
Proof using Hstep.
  intros. unfold wall. rewrite Hstep by (unfold_units; dlia).
  destruct (i / Second <? T) eqn:E1, (i <? T * Second) eqn:E2; bprop; try done;
    exfalso; unfold_units; dlia.
Qed.

(** What the wall clock shows [i - midnight] after midnight. *)
Lemma reads_window i :
  m * Second <= i <= (m + 172800) * Second ->
  wall l i - wall l (m * Second)
  = i - m * Second + (if i <? T * Second then 0 else (o2 - o1) * Second).
Proof using Hstep HT.
  intros. rewrite !wall_window by (unfold_units; lia). unfold_units. bcase_all; lia.
Qed.

Context (c : Z) (Hc : 0 <= c < Day).

Lemma of_day_branch (t : Time) :
  StartOfDay t = mid ->
  FirstOfDay c t = Add mid
    (if (o1 =? o2) || (c <? (T - m) * Second) then c
     else if o1 <? o2 then Z.max ((T - m) * Second) (c - (o2 - o1) * Second)
     else c - (o2 - o1) * Second) /\
  LastOfDay c t = Add mid
    (if (o1 =? o2) || ((o1 <? o2) && (c <? (T - m) * Second)) then c
     else if o1 <? o2 then Z.max ((T - m) * Second) (c - (o2 - o1) * Second)
     else if c <? (T - m + (o2 - o1)) * Second then c
     else c - (o2 - o1) * Second).
Proof using Hstep HT Hmin.
  unfold StartOfDay, FirstOfDay, LastOfDay. destruct (Date t) as [[y mo] d].
  intros ->. rewrite IsDST_midnight. unfold_units.
  destruct (o1 =? o2) eqn:E; simpl; [done|].
  destruct (o1 <? o2) eqn:E0; bprop.
  - rewrite (proj2 (Z.ltb_lt 0 _)) by lia. simpl.
    split; bcase; try done; f_equal; lia.
  - rewrite (proj2 (Z.ltb_ge 0 _)) by lia. simpl.
    split; bcase; try done; f_equal; lia.
Qed.
End one_change.

(** ** What the clock operations promise *)

(** On a day whose UTC offset changes at most once, [FirstOfDay] returns
    the first instant of the day at which the wall clock has reached the clock
    value; if any instant of the day (or the next) reads exactly that value,
    the one returned does. *)
Theorem FirstOfDay_first l t m T o1 o2 c
  (Hmid : inst (StartOfDay t) = m * Second) (Hl : zone t = l)
  (Hstep : forall u, m <= u <= m + 172800 -> l u = if u <? T then o1 else o2)
  (HT : m < T <= m + 86400) (Hmin : (T - m) mod 60 = 0)
  (Hsmall : Z.abs (o2 - o1) <= 86400) (Hc : 0 <= c < Day) :
  let r := inst (FirstOfDay c t) in
  let reads i := wall l i - wall l (m * Second) in
  m * Second <= r <= (m + 172800) * Second /\ c <= reads r /\
  (forall i, m * Second <= i < r -> reads i < c) /\
  (forall i, m * Second <= i <= (m + 172800) * Second -> reads i = c -> reads r = c).
Proof.
  intros r reads.
  destruct (of_day_branch l m T o1 o2 Hstep HT Hmin c t (StartOfDay_mk t l _ Hl Hmid)) as [HF _].
  assert (m * Second <= r <= (m + 172800) * Second) as Hr.
  { unfold r. rewrite HF. simpl. unfold_units. clear HF. bcase_all; lia. }
  split; [done|]. unfold reads, r in *. rewrite HF in *. simpl in *. clear HF Hmid Hl r reads.
  rewrite (reads_window l m T o1 o2 Hstep HT _ Hr).
  split; [|split]; try (intros i Hi; rewrite (reads_window l m T o1 o2 Hstep HT) by lia);
    clear Hstep; unfold_units; bcase_all; lia.
Qed.

Definition chicago_fall : Location := step_zone 1699167600 (-18000) (-21600).
Definition chicago_spring : Location := step_zone 1678608000 (-21600) (-18000).

(** November 5, 2023 in Chicago, 01:30, which occurs twice. *)
Lemma FirstOfDay_first_witness :
  inst (FirstOfDay (NewClock 1 30) (mkTime (1699200000 * Second) chicago_fall))
    = 1699165800 * Second /\
  wall chicago_fall (1699165800 * Second) - wall chicago_fall (1699160400 * Second)
    >= NewClock 1 30.
Proof.
  split; [vm_compute; reflexivity|].
  pose proof (FirstOfDay_first chicago_fall (mkTime (1699200000 * Second) chicago_fall)
    1699160400 1699167600 (-18000) (-21600) (NewClock 1 30)) as H.
  cbv zeta in H. destruct H as (_ & H & _).
  - vm_compute. reflexivity.
  - reflexivity.
  - intros. reflexivity.
  - lia.
  - reflexivity.
  - lia.
  - vm_compute. split; [discriminate|reflexivity].
  - assert (inst (FirstOfDay (NewClock 1 30) (mkTime (1699200000 * Second) chicago_fall))
      = 1699165800 * Second) as E by (vm_compute; reflexivity).
    rewrite E in H. lia.
Defined.

(** On such a day [LastOfDay] returns the last instant that can show the
    clock value: after it every reading is later.  When the clocks go back, the
    value a repeated hour shows twice is the second one. *)
Theorem LastOfDay_last l t m T o1 o2 c
  (Hmid : inst (StartOfDay t) = m * Second) (Hl : zone t = l)
  (Hstep : forall u, m <= u <= m + 172800 -> l u = if u <? T then o1 else o2)
  (HT : m < T <= m + 86400) (Hmin : (T - m) mod 60 = 0)
  (Hsmall : Z.abs (o2 - o1) <= 86400) (Hc : 0 <= c < Day) :
  let r := inst (LastOfDay c t) in
  let reads i := wall l i - wall l (m * Second) in
  m * Second <= r <= (m + 172800) * Second /\ c <= reads r /\
  (forall i, r < i <= (m + 172800) * Second -> c < reads i) /\
  (forall i, m * Second <= i <= (m + 172800) * Second -> reads i = c -> reads r = c).
Proof.
  intros r reads.
  destruct (of_day_branch l m T o1 o2 Hstep HT Hmin c t (StartOfDay_mk t l _ Hl Hmid)) as [_ HF].
  assert (m * Second <= r <= (m + 172800) * Second) as Hr.
  { unfold r. rewrite HF. simpl. unfold_units. clear HF. bcase_all; lia. }
  split; [done|]. unfold reads, r in *. rewrite HF in *. simpl in *. clear HF Hmid Hl r reads.
  rewrite (reads_window l m T o1 o2 Hstep HT _ Hr).
  split; [|split]; try (intros i Hi; rewrite (reads_window l m T o1 o2 Hstep HT) by lia);
    clear Hstep; unfold_units; bcase_all; lia.
Qed.

Lemma LastOfDay_last_witness :
  inst (LastOfDay (NewClock 1 30) (mkTime (1699200000 * Second) chicago_fall))
    = 1699169400 * Second /\
  wall chicago_fall (1699169401 * Second) - wall chicago_fall (1699160400 * Second)
    > NewClock 1 30.
Proof.
  assert (inst (LastOfDay (NewClock 1 30) (mkTime (1699200000 * Second) chicago_fall))
      = 1699169400 * Second) as E by (vm_compute; reflexivity).
  split; [exact E|].
  pose proof (LastOfDay_last chicago_fall (mkTime (1699200000 * Second) chicago_fall)
    1699160400 1699167600 (-18000) (-21600) (NewClock 1 30)) as H.
  cbv zeta in H. destruct H as (_ & _ & H & _).
  - vm_compute. reflexivity.
  - reflexivity.
  - intros. reflexivity.
  - lia.
  - reflexivity.
  - lia.
  - vm_compute. split; [discriminate|reflexivity].
  - specialize (H (1699169401 * Second)). rewrite E in H.
    apply Z.lt_gt, H. unfold_units. lia.
Defined.
