(* ===== verification/WeekdayFilter.v ===== *)
(** * Weekday filters: [util/timeutil/weekdayfilter.go]

    A filter is an array of seven bytes, Sunday first; the program stores 0 or
    1 in each, which is the well-formedness invariant.  The file has the
    filter's queries, its text, GraphQL and database forms, and the facts that
    the queries return what their names say in a location with a constant
    offset. *)

From S2P Require Import Prelude GoTime Clock.

Abbreviation WeekdayFilter := (list Z).

(** [f[i]]; every use below has [0 <= i < 7]. *)
Definition at_ (f : WeekdayFilter) (i : Z) : Z := nth (Z.to_nat i) f 0.

Definition neverDays : WeekdayFilter := [0; 0; 0; 0; 0; 0; 0].
Definition everyDay : WeekdayFilter := [1; 1; 1; 1; 1; 1; 1].

Definition feq (f g : WeekdayFilter) : bool := bool_decide (f = g).
Definition IsNever (f : WeekdayFilter) : bool := feq f neverDays.
Definition IsAlways (f : WeekdayFilter) : bool := feq f everyDay.
Definition EveryDay : WeekdayFilter := everyDay.

(** [for i := range f { day := (w + (i+1)) % 7; if f[day] == v {...} }] *)
Fixpoint next_loop (f : WeekdayFilter) (v w : Z) (i : Z) (n : nat) : option Z :=
  match n with
  | O => None
  | S n' =>
      let day := (w + (i + 1)) mod 7 in
      if at_ f day =? v then Some day else next_loop f v w (i + 1) n'
  end.

Definition NextActive (f : WeekdayFilter) (t : Time) : Time :=
  match next_loop f 1 (Weekday t) 0 7 with
  | Some day => NextWeekday t day
  | None => zeroTime
  end.

Definition NextInactive (f : WeekdayFilter) (t : Time) : Time :=
  match next_loop f 0 (Weekday t) 0 7 with
  | Some day => NextWeekday t day
  | None => zeroTime
  end.

(** The number of enabled days up to and including today, at most seven. *)
Fixpoint run_length (f : WeekdayFilter) (w : Z) (i : Z) (n : nat) : Z :=
  match n with
  | O => 0
  | S n' =>
      let day := (7 + (w - i)) mod 7 in
      if at_ f day =? 0 then 0 else 1 + run_length f w (i + 1) n'
  end.

Definition StartTime (f : WeekdayFilter) (t : Time) : Time :=
  let days := run_length f (Weekday t) 0 7 in
  if days =? 0 then NextActive f t
  else
    let '(year, mon, day) := Date t in
    date year mon (day - days + 1) 0 0 0 0 (zone t).

(** [d % 7] truncates; [d] is a weekday or one less than Sunday. *)
Definition DayOn (f : WeekdayFilter) (d : Z) : bool :=
  let d := if d <? 0 then d + 7 else d in at_ f (d `rem` 7) =? 1.

Definition SetDay (f : WeekdayFilter) (d : Z) (enabled : bool) : WeekdayFilter :=
  <[Z.to_nat d := if enabled then 1 else 0]> f.

(** [bytes.IndexByte] and [bytes.LastIndexByte]: -1 when absent. *)
Fixpoint IndexByte (l : list Z) (v : Z) : Z :=
  match l with
  | [] => -1
  | x :: xs => if x =? v then 0
               else let i := IndexByte xs v in if i =? -1 then -1 else 1 + i
  end.

Fixpoint LastIndexByte (l : list Z) (v : Z) : Z :=
  match l with
  | [] => -1
  | x :: xs => let i := LastIndexByte xs v in
               if i =? -1 then (if x =? v then 0 else -1) else 1 + i
  end.

Definition DaysUntil (f : WeekdayFilter) (d : Z) (enabled : bool) : Z :=
  if enabled && feq f neverDays then -1
  else if negb enabled && feq f everyDay then -1
  else
    let val := if enabled then 1 else 0 in
    let idx := IndexByte (drop (Z.to_nat d) f) val in
    if -1 <? idx then idx
    else let idx := IndexByte f val in 7 - d + idx.

Definition DaysSince (f : WeekdayFilter) (d : Z) (enabled : bool) : Z :=
  if enabled && feq f neverDays then -1
  else if negb enabled && feq f everyDay then -1
  else
    let val := if enabled then 1 else 0 in
    let idx := LastIndexByte (take (Z.to_nat (d + 1)) f) val in
    if -1 <? idx then d - idx
    else let idx := LastIndexByte (drop (Z.to_nat (d + 1)) f) val in 6 - idx.

(** *** Text form: seven characters [0] or [1] *)

Definition byte0 : Z := 48.
Definition byte1 : Z := 49.

Definition MarshalText (f : WeekdayFilter) : list Z :=
  map (fun v => if v =? 0 then byte0 else byte1) f.

(** The loop stores as it goes: on an error the prefix is already replaced. *)
Fixpoint unmarshal_loop (f : WeekdayFilter) (i : nat) (s : list Z) : WeekdayFilter * bool :=
  match s with
  | [] => (f, true)
  | r :: s' =>
      if r =? byte0 then unmarshal_loop (<[i := 0]> f) (S i) s'
      else if r =? byte1 then unmarshal_loop (<[i := 1]> f) (S i) s'
      else (f, false)
  end.

(** The new value of the receiver, and whether the error is nil. *)
Definition UnmarshalText (f : WeekdayFilter) (data : list Z) : WeekdayFilter * bool :=
  match data with
  | [] => (neverDays, true)
  | _ => if negb (Nat.eqb (length data) 7) then (f, false) else unmarshal_loop f 0 data
  end.

(** *** Database form: an array of booleans *)

Definition Value (f : WeekdayFilter) : list bool := map (fun v => negb (v =? 0)) f.

Definition Scan (b : list bool) : WeekdayFilter :=
  map (fun i => if bool_decide (b !! i = Some true) then 1 else 0) (seq 0 7).

(** *** GraphQL form *)

#[local] Set Warnings "-register-all".
Inductive GqlValue :=
  | GqlBool (b : bool)
  | GqlList (l : list GqlValue)
  | GqlOther.

Definition MarshalGQL (f : WeekdayFilter) : GqlValue :=
  GqlList (map (fun v => GqlBool (v =? 1)) f).

Fixpoint unmarshal_gql_loop (f : WeekdayFilter) (i : nat) (s : list GqlValue)
  : WeekdayFilter * bool :=
  match s with
  | [] => (f, true)
  | GqlBool b :: s' => unmarshal_gql_loop (<[i := if b then 1 else 0]> f) (S i) s'
  | _ :: _ => (f, false)
  end.

Definition UnmarshalGQL (f : WeekdayFilter) (v : GqlValue) : WeekdayFilter * bool :=
  match v with
  | GqlList slice =>
      if negb (Nat.eqb (length slice) 7) then (f, false) else unmarshal_gql_loop f 0 slice
  | _ => (f, false)
  end.

(** *** Display form *)

Definition dayName (d : Z) : string :=
  nth (Z.to_nat d) ["Sun"; "Mon"; "Tue"; "Wed"; "Thu"; "Fri"; "Sat"]%string EmptyString.

Definition flushChain (days : list string) (chain : list Z) : list string :=
  if bool_decide (length chain < 3)%nat then days ++ map dayName chain
  else days ++ [(dayName (hd 0 chain) ++ "-" ++ dayName (List.last chain 0))%string].

Fixpoint string_loop (f : WeekdayFilter) (d : Z) (days : list string) (chain : list Z)
  : list string :=
  match f with
  | [] => flushChain days chain
  | act :: f' =>
      if act =? 1 then string_loop f' (d + 1) days (chain ++ [d])
      else string_loop f' (d + 1) (flushChain days chain) []
  end.

Definition WeekdayString (f : WeekdayFilter) : string :=
  if feq f [1; 0; 0; 0; 0; 0; 1] then "weekends"
  else if feq f neverDays then "never"
  else if feq f everyDay then "every day"
  else if feq f [0; 1; 1; 1; 1; 1; 0] then "M-F"
  else if feq f [0; 1; 1; 1; 1; 1; 1] then "M-F and Sat"
  else if feq f [1; 1; 1; 1; 1; 1; 0] then "M-F and Sun"
  else String.concat "," (string_loop f 0 [] []).

(** ** The invariant and case analysis over all 128 filters *)

Definition wf (f : WeekdayFilter) : Prop :=
  length f = 7%nat /\ Forall (fun v => v = 0 \/ v = 1) f.

Fixpoint all_filters (n : nat) : list WeekdayFilter :=
  match n with
  | O => [[]]
  | S n' => flat_map (fun f => [0 :: f; 1 :: f]) (all_filters n')
  end.

Lemma all_filters_complete n f :
  length f = n -> Forall (fun v => v = 0 \/ v = 1) f -> In f (all_filters n).
Proof.
  revert f. induction n as [|n IH]; intros [|v f] Hl Hf; try done; [by left|].
  apply in_flat_map. exists f. inversion Hf; subst. split.
  - apply IH; [by injection Hl|done].
  - simpl. destruct H1 as [->| ->]; auto.
Qed.

(** A decidable property of well-formed filters holds if it computes to true
    on each of them. *)
Lemma wf_forall (P : WeekdayFilter -> bool) :
  forallb P (all_filters 7) = true -> forall f, wf f -> P f = true.
Proof.
  intros H f [Hl Hf]. rewrite forallb_forall in H. by apply H, all_filters_complete.
Qed.

Definition weekdays : list Z := [0; 1; 2; 3; 4; 5; 6].

Lemma weekdays_complete d : 0 <= d < 7 -> In d weekdays.
Proof. intros. simpl. lia. Qed.

Lemma wf_forall_days (P : WeekdayFilter -> Z -> bool) :
  forallb (fun f => forallb (P f) weekdays) (all_filters 7) = true ->
  forall f d, wf f -> 0 <= d < 7 -> P f d = true.
Proof.
  intros H f d Hf Hd. pose proof (wf_forall _ H f Hf) as Hw. cbv beta in Hw.
  eapply forallb_forall in Hw; [exact Hw|by apply weekdays_complete].
Qed.

Lemma wf_at f i : wf f -> 0 <= i < 7 -> at_ f i = 0 \/ at_ f i = 1.
Proof.
  intros [Hl Hf] Hi. rewrite Forall_forall in Hf. apply Hf.
  apply list_elem_of_In, nth_In. lia.
Qed.

Lemma wf_everyDay : wf everyDay. Proof. split; [done|]. repeat constructor; lia. Qed.
Lemma wf_neverDays : wf neverDays. Proof. split; [done|]. repeat constructor; lia. Qed.

Lemma wf_insert f i v : wf f -> v = 0 \/ v = 1 -> wf (<[i := v]> f).
Proof. intros [Hl Hf] Hv. split; [by rewrite length_insert|by apply Forall_insert]. Qed.
#[export] Hint Resolve wf_everyDay wf_neverDays wf_insert : oncall.

(** ** Queries *)

Lemma Weekday_range t : 0 <= Weekday t < 7.
Proof. apply Z.mod_pos_bound. lia. Qed.
#[export] Hint Resolve Weekday_range : oncall.

(** The loop finds the nearest later day with the wanted value. *)
Lemma next_loop_spec f v w i n :
  match next_loop f v w i n with
  | Some day => exists k, i < k <= i + Z.of_nat n /\ day = (w + k) mod 7 /\ at_ f day = v /\
                 forall j, i < j < k -> at_ f ((w + j) mod 7) <> v
  | None => forall j, i < j <= i + Z.of_nat n -> at_ f ((w + j) mod 7) <> v
  end.
Proof.
  revert i. induction n as [|n IH]; intros i; cbn [next_loop]; [intros; lia|].
  cbv zeta. destruct (at_ f ((w + (i + 1)) mod 7) =? v) eqn:E; bprop.
  - exists (i + 1). split_and!; [lia|lia|done|done|intros; lia].
  - specialize (IH (i + 1)). destruct (next_loop f v w (i + 1) n) as [day|].
    + destruct IH as (k & Hk & Hd & Hv & Hj). exists k. split_and!; [lia|lia|done|done|].
      intros j Hj'. destruct (decide (j = i + 1)) as [->|]; [done|]. apply Hj. lia.
    + intros j Hj. destruct (decide (j = i + 1)) as [->|]; [done|]. apply IH. lia.
Qed.

Lemma run_length_spec f w i n :
  let k := run_length f w i n in
  0 <= k <= Z.of_nat n /\
  (forall j, 0 <= j < k -> at_ f ((7 + (w - (i + j))) mod 7) <> 0) /\
  (k < Z.of_nat n -> at_ f ((7 + (w - (i + k))) mod 7) = 0).
Proof.
  revert i. induction n as [|n IH]; intros i; cbn [run_length]; cbv zeta; [split_and!; intros; lia|].
  destruct (at_ f ((7 + (w - i)) mod 7) =? 0) eqn:E; bprop.
  - split; [lia|]. split; [intros; lia|]. by rewrite Z.add_0_r.
  - destruct (IH (i + 1)) as (H1 & H2 & H3). cbv zeta in *. split; [lia|]. split.
    + intros j Hj. destruct (decide (j = 0)) as [->|]; [by rewrite Z.add_0_r|].
      replace (i + j) with (i + 1 + (j - 1)) by lia. apply H2. lia.
    + intros. replace (i + (1 + run_length f w (i + 1) n))
        with (i + 1 + run_length f w (i + 1) n) by lia. apply H3. lia.
Qed.

Section fixed.
Context (l : Location) (o : Z) (Hl : fixed_at l o).

Definition midnight (d : Z) : Time := mkTime ((d * 86400 - o) * Second) l.

Lemma NextWeekday_fixed t k :
  zone t = l -> 1 <= k <= 7 ->
  NextWeekday t ((Weekday t + k) mod 7) = midnight (local_day t + k).
Proof using Hl.
  intros E Hk. unfold NextWeekday. destruct (Date t) as [[y m] d] eqn:ED.
  rewrite E, (date_civil_shift l o Hl t) by done.
  pose proof (Weekday_range t). set (w := Weekday t) in *. clearbody w.
  unfold midnight. f_equal. rewrite Z.add_0_r. f_equal.
  assert ((if (w + k) mod 7 - w <? 1 then (w + k) mod 7 - w + 7 else (w + k) mod 7 - w) = k)
    as -> by (bcase; dlia).
  lia.
Qed.

(** The midnight [NextActive] and [NextInactive] return, as a day number. *)
Lemma next_day_fixed f v t :
  zone t = l ->
  match next_loop f v (Weekday t) 0 7 with
  | Some day => exists k, 1 <= k <= 7 /\ NextWeekday t day = midnight (local_day t + k) /\
      at_ f ((Weekday t + k) mod 7) = v /\
      forall j, 1 <= j < k -> at_ f ((Weekday t + j) mod 7) <> v
  | None => forall j, 0 <= j < 7 -> at_ f j <> v
  end.
Proof using Hl.
  intros E. pose proof (next_loop_spec f v (Weekday t) 0 7) as H.
  destruct (next_loop f v (Weekday t) 0 7) as [day|].
  - destruct H as (k & Hk & -> & Hv & Hj). exists k. split; [lia|].
    split; [by apply NextWeekday_fixed; [|lia]|]. split; [done|]. intros; apply Hj; lia.
  - intros j Hj. pose proof (Weekday_range t). set (w := Weekday t) in *. clearbody w.
    replace j with ((w + (if w <? j then j - w else j - w + 7)) mod 7) by (bcase; dlia).
    apply H. blia.
Qed.

Lemma StartTime_fixed f t :
  zone t = l -> run_length f (Weekday t) 0 7 <> 0 ->
  StartTime f t = midnight (local_day t - run_length f (Weekday t) 0 7 + 1).
Proof using Hl.
  intros E Hr. unfold StartTime. rewrite (proj2 (Z.eqb_neq _ _)) by done.
  destruct (Date t) as [[y m] d] eqn:ED. rewrite E.
  replace (d - run_length f (Weekday t) 0 7 + 1)
    with (d + (1 - run_length f (Weekday t) 0 7)) by lia.
  rewrite (date_civil_shift l o Hl t) by done. unfold midnight. f_equal. lia.
Qed.
End fixed.

(** ** Every decoder keeps the invariant *)

Lemma unmarshal_loop_wf f i s : wf f -> wf (fst (unmarshal_loop f i s)).
Proof.
  revert f i. induction s as [|r s IH]; intros f i Hf; simpl; [done|].
  bcase; eauto with oncall.
Qed.

Lemma unmarshal_gql_loop_wf f i s : wf f -> wf (fst (unmarshal_gql_loop f i s)).
Proof.
  revert f i. induction s as [|[b| |] s IH]; intros f i Hf; simpl; try done.
  apply IH, wf_insert; [done|]. destruct b; lia.
Qed.

Lemma Scan_wf b : wf (Scan b).
Proof.
  split; [done|]. apply Forall_forall. intros v Hv.
  apply list_elem_of_fmap in Hv as (i & -> & _). case_bool_decide; lia.
Qed.

(** ** What the filter promises *)

(** Each of the three encodings of a filter (text, GraphQL, database) is
    decoded to the filter it was made from, whatever the receiver held, and no
    decoder, failing or not, leaves anything but 0 and 1 in the seven days. *)
Theorem codecs_roundtrip_wf f g s v b (Hf : wf f) (Hg : wf g) :
  (UnmarshalText g (MarshalText f) = (f, true) /\
   UnmarshalGQL g (MarshalGQL f) = (f, true) /\ Scan (Value f) = f) /\
  wf (fst (UnmarshalText g s)) /\ wf (fst (UnmarshalGQL g v)) /\ wf (Scan b).
Proof.
  split.
  - pose proof Hg as [Hl _]. repeat (destruct g as [|? g]; try discriminate Hl). clear Hl Hg.
    destruct Hf as [Hl Hf]. repeat (destruct f as [|? f]; try discriminate Hl). clear Hl.
    repeat match goal with H : Forall _ (_ :: _) |- _ => inversion H; subst; clear H end.
    split_and!.
    all: repeat match goal with H : _ \/ _ |- _ => destruct H as [->| ->] end; reflexivity.
  - split_and!; [| |apply Scan_wf].
    + unfold UnmarshalText. destruct s; [apply wf_neverDays|]. bcase; [done|].
      by apply unmarshal_loop_wf.
    + destruct v; simpl; try done. bcase; [done|]. by apply unmarshal_gql_loop_wf.
Qed.

Lemma codecs_roundtrip_wf_witness :
  wf [0; 1; 1; 1; 1; 1; 0] /\
  UnmarshalText everyDay (MarshalText [0; 1; 1; 1; 1; 1; 0]) = ([0; 1; 1; 1; 1; 1; 0], true) /\
  wf (fst (UnmarshalText everyDay [byte0; byte0; 65; byte0; byte0; byte0; byte0])).
Proof.
  assert (wf [0; 1; 1; 1; 1; 1; 0]) as W by (split; [done|repeat constructor; lia]).
  destruct (codecs_roundtrip_wf [0; 1; 1; 1; 1; 1; 0] everyDay
    [byte0; byte0; 65; byte0; byte0; byte0; byte0] GqlOther [] W wf_everyDay)
    as ((H1 & _) & H2 & _).
  split; [exact W|]. split; [exact H1|exact H2].
Defined.

Definition least_in (p : Z -> bool) (k : Z) : bool :=
  if k =? -1 then forallb (fun j => negb (p j)) weekdays
  else (0 <=? k) && (k <? 7) && p k
       && forallb (fun j => if j <? k then negb (p j) else true) weekdays.

Lemma least_in_spec p k :
  least_in p k = true ->
  (k = -1 /\ forall j, 0 <= j < 7 -> p j = false) \/
  (0 <= k < 7 /\ p k = true /\ forall j, 0 <= j < k -> p j = false).
Proof.
  unfold least_in. intros H. destruct (k =? -1) eqn:E; bprop.
  - left. split; [done|]. intros j Hj. apply weekdays_complete in Hj.
    eapply forallb_forall in H; [|exact Hj]. by apply negb_true_iff in H.
  - right. split; [lia|]. split; [done|]. intros j Hj.
    assert (In j weekdays) as Hin by (apply weekdays_complete; lia).
    eapply forallb_forall in H0; [|exact Hin]. cbv beta in H0.
    rewrite (proj2 (Z.ltb_lt j k)) in H0 by lia. by apply negb_true_iff in H0.
Qed.

(** [DaysUntil] is the least number of days forward, and [DaysSince] the
    least number of days back, to a day that is enabled (or disabled), counting
    the given weekday as zero; both are -1 exactly when there is no such day. *)
Theorem DaysUntil_DaysSince_least f d (Hf : wf f) (Hd : 0 <= d < 7) (enabled : bool) :
  let on j := Bool.eqb (DayOn f ((d + j) mod 7)) enabled in
  let was j := Bool.eqb (DayOn f ((d - j) mod 7)) enabled in
  let u := DaysUntil f d enabled in
  let s := DaysSince f d enabled in
  ((u = -1 /\ forall j, 0 <= j < 7 -> on j = false) \/
   (0 <= u < 7 /\ on u = true /\ forall j, 0 <= j < u -> on j = false)) /\
  ((s = -1 /\ forall j, 0 <= j < 7 -> was j = false) \/
   (0 <= s < 7 /\ was s = true /\ forall j, 0 <= j < s -> was j = false)).
Proof.
  intros on was u s. split; apply least_in_spec; destruct enabled.
  - by apply (wf_forall_days (fun f d => least_in
      (fun j => Bool.eqb (DayOn f ((d + j) mod 7)) true) (DaysUntil f d true))).
  - by apply (wf_forall_days (fun f d => least_in
      (fun j => Bool.eqb (DayOn f ((d + j) mod 7)) false) (DaysUntil f d false))).
  - by apply (wf_forall_days (fun f d => least_in
      (fun j => Bool.eqb (DayOn f ((d - j) mod 7)) true) (DaysSince f d true))).
  - by apply (wf_forall_days (fun f d => least_in
      (fun j => Bool.eqb (DayOn f ((d - j) mod 7)) false) (DaysSince f d false))).
Qed.

Lemma DaysUntil_DaysSince_least_witness :
  wf [0; 1; 1; 1; 1; 1; 0] /\ DaysUntil [0; 1; 1; 1; 1; 1; 0] 6 true = 2 /\
  DayOn [0; 1; 1; 1; 1; 1; 0] 0 = false.
Proof.
  assert (wf [0; 1; 1; 1; 1; 1; 0]) as W by (split; [done|repeat constructor; lia]).
  split; [exact W|]. split; [reflexivity|].
  destruct (DaysUntil_DaysSince_least [0; 1; 1; 1; 1; 1; 0] 6 W ltac:(lia) true)
    as [[[H _]|(_ & _ & H)] _]; [vm_compute in H; discriminate H|].
  specialize (H 1 ltac:(vm_compute; split; [discriminate|reflexivity])).
  change (Bool.eqb (DayOn [0; 1; 1; 1; 1; 1; 0] 0) true = false) in H.
  destruct (DayOn [0; 1; 1; 1; 1; 1; 0] 0); [discriminate H|reflexivity].
Defined.

(** The doc comments of [NextActive], [NextInactive] and [StartTime] say that a
    filter that is active every day (or never) gives the zero time.  The code
    returns the next midnight for [NextActive] on every day and for
    [NextInactive] on no day. *)
Lemma NextActive_everyDay_not_zero :
  IsZero (NextActive everyDay zeroTime) = false /\
  IsZero (NextInactive neverDays zeroTime) = false /\
  IsZero (StartTime everyDay zeroTime) = false.
Proof. vm_compute. done. Qed.
