(* ===== verification/Rotation.v ===== *)
(** * Rotations: [schedule/rotation/rotation.go] and the rotation part of [oncall/state.go]

    A rotation hands the on-call duty over at regular handoff times.  The file
    has the two calculations of the source (clock arithmetic for hourly, daily
    and weekly rotations, calendar arithmetic for monthly ones), an interface
    [HandoffLaws] that states what a rotation promises to its clients (an
    increasing sequence of handoffs that [StartTime] and [EndTime] find), the
    instances of that interface, and the client [UserID], proved against the
    interface alone.  A panic is [None]. *)

From S2P Require Import Prelude GoTime Clock.

Definition TypeMonthly : string := "monthly".
Definition TypeWeekly : string := "weekly".
Definition TypeDaily : string := "daily".
Definition TypeHourly : string := "hourly".

Record Rotation := mkRotation {
  rType : string;
  Start : Time;
  ShiftLength : Z
}.

Definition shiftClock (r : Rotation) : option Clock :=
  if String.eqb (rType r) TypeHourly then Some (NewClock (ShiftLength r) 0)
  else if String.eqb (rType r) TypeDaily then Some (NewClock (ShiftLength r * 24) 0)
  else if String.eqb (rType r) TypeWeekly then Some (NewClock (ShiftLength r * 24 * 7) 0)
  else None.

(** [monthStartTime] and [monthEndTime] call themselves with [n+1] and panic
    when [n] exceeds 10000; [fuel] is the number of values of [n] left. *)
Fixpoint month_start_loop (fuel : nat) (r : Rotation) (t : Time) (n : Z) : option Time :=
  match fuel with
  | O => None
  | S fuel' =>
      if negb (Before t (Start r)) then
        let next := AddDate (Start r) 0 (ShiftLength r * n) 0 in
        if After next t then Some (AddDate (Start r) 0 (ShiftLength r * (n - 1)) 0)
        else month_start_loop fuel' r t (n + 1)
      else
        let prev := AddDate (Start r) 0 (- ShiftLength r * n) 0 in
        if Before prev t then Some prev
        else month_start_loop fuel' r t (n + 1)
  end.

Definition monthStartTime (r : Rotation) (t : Time) (n : Z) : option Time :=
  month_start_loop (Z.to_nat (10001 - n)) r t n.

Fixpoint month_end_loop (fuel : nat) (r : Rotation) (t : Time) (n : Z) : option Time :=
  match fuel with
  | O => None
  | S fuel' =>
      if negb (Before t (Start r)) then
        let next := AddDate (Start r) 0 (ShiftLength r * n) 0 in
        if After next t then Some next
        else month_end_loop fuel' r t (n + 1)
      else
        let prev := AddDate (Start r) 0 (- ShiftLength r * n) 0 in
        if Before prev t || EqualT prev t
        then Some (AddDate (Start r) 0 (- ShiftLength r * (n - 1)) 0)
        else month_end_loop fuel' r t (n + 1)
  end.

Definition monthEndTime (r : Rotation) (t : Time) (n : Z) : option Time :=
  month_end_loop (Z.to_nat (10001 - n)) r t n.

(** The receiver is a copy: the defaulted length and the truncated start do not
    escape. *)
Definition prepared (r : Rotation) : Rotation :=
  mkRotation (rType r) (Truncate (Start r) Minute)
    (if ShiftLength r <=? 0 then 1 else ShiftLength r).

Definition StartTime (r : Rotation) (t : Time) : option Time :=
  let t := Truncate (In_ t (zone (Start r))) Minute in
  let r := prepared r in
  if String.eqb (rType r) TypeMonthly then monthStartTime r t 1
  else
    match shiftClock r with
    | None => None
    | Some shiftClockLen =>
        let rem := ClockDiff (Start r) t `rem` shiftClockLen in
        let rem := if rem <? 0 then rem + shiftClockLen else rem in
        Some (AddClock t (- rem))
    end.

Definition EndTime (r : Rotation) (t : Time) : option Time :=
  let t := Truncate (In_ t (zone (Start r))) Minute in
  let r := prepared r in
  if String.eqb (rType r) TypeMonthly then monthEndTime r t 1
  else
    match shiftClock r with
    | None => None
    | Some shiftClockLen =>
        let rem := ClockDiff (Start r) t `rem` shiftClockLen in
        let rem := if rem <? 0 then rem + shiftClockLen else rem in
        Some (AddClock t (shiftClockLen - rem))
    end.

(** ** The interface: an increasing sequence of handoffs *)

(** For the shifts numbered [lo] to [hi - 1], [handoff k] is the instant shift
    [k] begins, and the two queries return the ends of the shift that contains
    their argument. *)
Class HandoffLaws (r : Rotation) (handoff : Z -> Z) (lo hi : Z) := {
  handoff_gap : forall k, lo <= k < hi -> handoff k + Hour <= handoff (k + 1);
  handoff_start : forall k t, lo <= k < hi -> handoff k <= inst t < handoff (k + 1) ->
    StartTime r t = Some (mkTime (handoff k) (zone (Start r)));
  handoff_end : forall k t, lo <= k < hi -> handoff k <= inst t < handoff (k + 1) ->
    EndTime r t = Some (mkTime (handoff (k + 1)) (zone (Start r)));
  handoff_minute : forall k, handoff k mod Minute = 0
}.

Section laws.
Context {r : Rotation} {h : Z -> Z} {lo hi : Z} {L : HandoffLaws r h lo hi}.

Lemma handoff_lt k : lo <= k < hi -> h k < h (k + 1).
Proof using L. intros Hk. pose proof (handoff_gap k Hk). unfold_units. lia. Qed.

(** The interface on fewer shifts. *)
Lemma handoff_sub lo' hi' : lo <= lo' -> hi' <= hi -> HandoffLaws r h lo' hi'.
Proof using L.
  intros. split; intros.
  - apply handoff_gap. lia.
  - apply handoff_start; [lia|done].
  - apply handoff_end; [lia|done].
  - apply handoff_minute.
Qed.

Lemma handoff_mono i j : lo <= i -> i < j -> j <= hi -> h i < h j.
Proof using L.
  intros Hi Hij Hj. destruct (Z_of_nat_complete (j - i - 1)) as [n En]; [lia|].
  assert (j = i + 1 + Z.of_nat n) as -> by lia. clear Hij En.
  induction n as [|n IH].
  - rewrite Z.add_0_r. apply handoff_lt. lia.
  - etransitivity; [apply IH; lia|].
    replace (i + 1 + Z.of_nat (S n)) with (i + 1 + Z.of_nat n + 1) by lia.
    apply handoff_lt. lia.
Qed.

Lemma handoff_le i j : lo <= i -> i <= j -> j <= hi -> h i <= h j.
Proof using L.
  intros. destruct (decide (i = j)) as [->|]; [lia|].
  pose proof (handoff_mono i j). lia.
Qed.
End laws.

(** ** The instance for hourly, daily and weekly rotations *)

(** Nanoseconds in one shift of a rotation of this type. *)
Definition shift_len (ty : string) (n : Z) : Z :=
  n * Hour * (if String.eqb ty TypeHourly then 1
              else if String.eqb ty TypeDaily then 24 else 168).

Definition clock_type (ty : string) : Prop :=
  ty = TypeHourly \/ ty = TypeDaily \/ ty = TypeWeekly.

(** The limit [Rotation.Normalize] puts on the length keeps it in 64 bits. *)
Lemma shiftClock_exact r :
  clock_type (rType r) -> 1 <= ShiftLength r <= 9000 ->
  shiftClock r = Some (shift_len (rType r) (ShiftLength r)) /\
  Hour <= shift_len (rType r) (ShiftLength r) <= 5443200000000000000.
Proof.
  intros Ht Hn. unfold shiftClock, shift_len.
  destruct Ht as [E|[E|E]]; rewrite E; simpl; rewrite NewClock_small by lia;
    unfold_units; (split; [f_equal; lia|lia]).
Qed.

Section clock_rotation.
Context (r : Rotation) (o : Z).
Hypothesis Hty : clock_type (rType r).
Hypothesis Hlen : 1 <= ShiftLength r <= 9000.
Hypothesis Hzone : fixed_at (zone (Start r)) o.
Hypothesis Ho : o mod 60 = 0.

Let len := shift_len (rType r) (ShiftLength r).
Let s0 := inst (Truncate (Start r) Minute).

Definition clock_handoff (k : Z) : Z := s0 + k * len.
Definition clock_bound : Z := two63 / len.

Lemma len_minutes : len mod Minute = 0.
Proof using Type.
  unfold len, shift_len.
  generalize (if String.eqb (rType r) TypeHourly then 1
              else if String.eqb (rType r) TypeDaily then 24 else 168). intros x.
  replace (ShiftLength r * Hour * x) with (ShiftLength r * 60 * x * Minute)
    by (unfold Hour; lia).
  by apply Z.mod_mul.
Qed.

Lemma s0_minutes : s0 mod Minute = 0.
Proof using Type.
  unfold s0. rewrite Truncate_minute_mod. generalize (inst (Start r)).
  clear. intros. unfold_units. dlia.
Qed.

(** Both queries, for a time in shift [k]. *)
Lemma clock_shift k t :
  - clock_bound <= k < clock_bound ->
  clock_handoff k <= inst t < clock_handoff (k + 1) ->
  StartTime r t = Some (mkTime (clock_handoff k) (zone (Start r))) /\
  EndTime r t = Some (mkTime (clock_handoff (k + 1)) (zone (Start r))).
Proof using Hty Hlen Hzone Ho.
  intros Hk Ht. unfold StartTime, EndTime.
  assert (prepared r = mkRotation (rType r) (Truncate (Start r) Minute) (ShiftLength r)) as ->
    by (unfold prepared; f_equal; blia).
  set (r' := mkRotation _ _ _).
  set (l := zone (Start r)) in *.
  assert (Truncate (In_ t l) Minute = mkTime (inst t - inst t mod Minute) l) as ->.
  { by rewrite Truncate_minute. }
  destruct (shiftClock_exact r' Hty Hlen) as [Es Hb].
  change (shift_len (rType r') (ShiftLength r')) with len in *.
  assert (String.eqb (rType r') TypeMonthly = false) as ->
    by (destruct Hty as [E|[E|E]]; simpl; rewrite E; done).
  rewrite Es. set (t' := inst t - inst t mod Minute).
  pose proof s0_minutes as Hs0. pose proof len_minutes as Hlm.
  unfold clock_handoff, clock_bound in *.
  assert (0 < len) as Hl0 by (unfold_units; lia).
  pose proof (Z.mul_div_le two63 len Hl0) as Hq. set (q := two63 / len) in *. clearbody q.
  assert (t' mod Minute = 0) as Ht' by (unfold t'; unfold_units; dlia).
  assert (s0 + k * len <= t' < s0 + (k + 1) * len) as Htk.
  { unfold t'. clear - Ht Hs0 Hlm. 
    assert (exists a, s0 = a * Minute) as [a Ea] by (exists (s0 / Minute); unfold_units; dlia).
    assert (exists b, len = b * Minute) as [b Eb] by (exists (len / Minute); unfold_units; dlia).
    rewrite Ea, Eb in *. clearbody s0 len. clear Ea Eb Hs0 Hlm.
    set (p := k * b). replace (k * (b * Minute)) with (p * Minute) in * by lia.
    replace ((k + 1) * (b * Minute)) with ((p + b) * Minute) in * by lia.
    clearbody p. unfold_units. dlia. }
  assert (ClockDiff (Start r') (mkTime t' l) = t' - s0) as ->.
  { rewrite (ClockDiff_fixed l o) by done. unfold Sub. simpl.
    change (inst (Truncate (Start r) Minute)) with s0.
    apply sat64_id. unfold in64. nia. }
  rewrite rem_correct_mod by done.
  assert ((t' - s0) mod len = t' - s0 - k * len) as ->.
  { symmetry. apply (Z.mod_unique _ _ k); lia. }
  rewrite !(AddClock_fixed l o) by
    (try done; unfold in64, two63; unfold_units; lia).
  split; do 2 f_equal; lia.
Qed.

#[export] Instance clock_handoffs :
  HandoffLaws r clock_handoff (- clock_bound) clock_bound.
Proof using Hty Hlen Hzone Ho.
  split.
  - intros k _. destruct (shiftClock_exact r Hty Hlen) as [_ Hb].
    unfold clock_handoff. fold len in Hb. lia.
  - intros k t Hk Ht. exact (proj1 (clock_shift k t Hk Ht)).
  - intros k t Hk Ht. exact (proj2 (clock_shift k t Hk Ht)).
  - intros k. pose proof s0_minutes as Hs. pose proof len_minutes as Hm.
    unfold clock_handoff. clear - Hs Hm. revert Hs Hm. generalize s0, len. clear.
    intros. rewrite Z.add_mod, Hs, Z.mul_mod, Hm, Z.mul_0_r by done. done.
Qed.
End clock_rotation.

(** ** The instance for monthly rotations *)

Section month_rotation.
Context (r : Rotation) (o : Z).
Hypothesis Hty : rType r = TypeMonthly.
Hypothesis Hlen : 1 <= ShiftLength r.
Hypothesis Hzone : fixed_at (zone (Start r)) o.

Let s := Truncate (Start r) Minute.

Definition month_handoff (k : Z) : Z := inst (AddDate s 0 (ShiftLength r * k) 0).

Lemma month_handoff_eq k :
  let '(y, m, d) := Date s in
  AddDate s 0 (ShiftLength r * k) 0 = mkTime (month_handoff k) (zone (Start r)) /\
  month_handoff k = (norm_days y (m + ShiftLength r * k) d * 86400 - o + sec_of_day s) * Second.
Proof using Hzone.
  unfold month_handoff, AddDate. destruct (Date s) as [[y m] d].
  destruct (ClockHMS s) as [[hh mm] ss] eqn:EC. apply ClockHMS_sec in EC.
  assert (zone s = zone (Start r)) as -> by (unfold s; by rewrite Truncate_minute).
  unfold date. rewrite (unlocal_fixed _ o Hzone). cbn [inst]. split; [done|].
  assert (inst s mod Second = 0) as ->.
  { unfold s. rewrite Truncate_minute_mod. generalize (inst (Start r)). clear.
    intros. unfold_units. dlia. }
  rewrite !Z.add_0_r. f_equal. rewrite <- EC. lia.
Qed.

Lemma month_handoff_0 : month_handoff 0 = inst s.
Proof using Hzone.
  pose proof (month_handoff_eq 0) as H. destruct (Date s) as [[y m] d] eqn:E.
  destruct H as [_ ->]. rewrite Z.mul_0_r, Z.add_0_r, <- (Z.add_0_r d).
  rewrite (norm_days_shift _ _ _ _ 0 E), Z.add_0_r.
  pose proof (local_sec_split s) as LS. unfold local_sec, Unix in LS.
  assert (zone s = zone (Start r)) as Ez by (unfold s; by rewrite Truncate_minute).
  rewrite Ez, Hzone in LS.
  assert (inst s = inst s / Second * Second) as ->; [|lia].
  unfold s. rewrite Truncate_minute_mod. generalize (inst (Start r)). clear.
  intros. unfold_units. dlia.
Qed.

(** A month has at least 28 days. *)
Lemma month_handoff_step k : month_handoff k + 28 * Day <= month_handoff (k + 1).
Proof using Hzone Hlen.
  pose proof (month_handoff_eq k) as H. pose proof (month_handoff_eq (k + 1)) as H'.
  destruct (Date s) as [[y m] d]. destruct H as [_ ->], H' as [_ ->].
  pose proof (norm_days_month_mono y (m + ShiftLength r * k) d (ShiftLength r)).
  replace (m + ShiftLength r * (k + 1)) with (m + ShiftLength r * k + ShiftLength r) by lia.
  unfold_units. lia.
Qed.

Lemma month_handoff_le i j : i <= j -> month_handoff i <= month_handoff j.
Proof using Hzone Hlen.
  intros H. destruct (Z_of_nat_complete (j - i)) as [n En]; [lia|].
  assert (j = i + Z.of_nat n) as -> by lia. clear H En.
  induction n as [|n IH]; [rewrite Z.add_0_r; lia|].
  pose proof (month_handoff_step (i + Z.of_nat n)).
  replace (i + Z.of_nat (S n)) with (i + Z.of_nat n + 1) by lia. unfold_units. lia.
Qed.

Lemma month_handoff_minutes k : month_handoff k mod Minute = inst s mod Minute.
Proof using Hzone.
  rewrite <- month_handoff_0.
  pose proof (month_handoff_eq k) as H. pose proof (month_handoff_eq 0) as H'.
  destruct (Date s) as [[y m] d]. destruct H as [_ ->], H' as [_ ->].
  set (a := norm_days _ _ _). set (b := norm_days _ _ _).
  replace ((a * 86400 - o + sec_of_day s) * Second)
    with ((b * 86400 - o + sec_of_day s) * Second + (a - b) * 1440 * Minute)
    by (unfold_units; lia).
  by rewrite Z.mod_add.
Qed.

(** The recursion stops at the first handoff after [t], in either query. *)
Lemma month_loops k t n fuel :
  month_handoff k <= inst t < month_handoff (k + 1) -> 0 <= k -> n <= k + 1 ->
  k + 1 - n < Z.of_nat fuel ->
  month_start_loop fuel (mkRotation (rType r) s (ShiftLength r)) t n
    = Some (mkTime (month_handoff k) (zone (Start r))) /\
  month_end_loop fuel (mkRotation (rType r) s (ShiftLength r)) t n
    = Some (mkTime (month_handoff (k + 1)) (zone (Start r))).
Proof using Hzone Hlen.
  intros Ht Hk. revert n. induction fuel as [|fuel IH]; intros n Hn Hf; [lia|].
  simpl. assert (Before t s = false) as ->.
  { apply Z.ltb_ge. rewrite <- month_handoff_0.
    pose proof (month_handoff_le 0 k Hk). lia. }
  simpl. pose proof (month_handoff_eq n) as Hh. pose proof (month_handoff_eq (n - 1)) as Hh'.
  destruct (Date s) as [[y m] d]. destruct Hh as [-> _], Hh' as [-> _].
  unfold After. simpl. destruct (decide (n = k + 1)) as [->|Hne].
  - rewrite (proj2 (Z.ltb_lt _ _)) by lia. by replace (k + 1 - 1) with k by lia.
  - rewrite (proj2 (Z.ltb_ge _ _)); [apply IH; lia|].
    pose proof (month_handoff_le n k). lia.
Qed.

#[export] Instance month_handoffs : HandoffLaws r month_handoff 0 10000.
Proof using Hty Hlen Hzone.
  assert (forall k t, 0 <= k < 10000 ->
    month_handoff k <= inst t < month_handoff (k + 1) ->
    StartTime r t = Some (mkTime (month_handoff k) (zone (Start r))) /\
    EndTime r t = Some (mkTime (month_handoff (k + 1)) (zone (Start r)))) as H.
  { intros k t Hk Ht. unfold StartTime, EndTime. simpl. rewrite Hty. simpl.
    unfold monthStartTime, monthEndTime.
    assert (prepared r = mkRotation (rType r) s (ShiftLength r)) as ->
      by (unfold prepared; f_equal; blia).
    apply month_loops; [|lia|lia|lia].
    rewrite Truncate_minute. simpl.
    pose proof (month_handoff_minutes k) as Mk. pose proof (month_handoff_minutes (k + 1)) as Mk'.
    assert (inst s mod Minute = 0) as Ms.
    { unfold s. rewrite Truncate_minute_mod. generalize (inst (Start r)). clear.
      intros. unfold_units. dlia. }
    rewrite Ms in *. clear - Ht Mk Mk'. revert Ht Mk Mk'.
    generalize (month_handoff k), (month_handoff (k + 1)), (inst t). clear.
    intros. unfold_units. dlia. }
  split.
  - intros k _. pose proof (month_handoff_step k). unfold_units. lia.
  - intros k t Hk Ht. exact (proj1 (H k t Hk Ht)).
  - intros k t Hk Ht. exact (proj2 (H k t Hk Ht)).
  - intros k. rewrite month_handoff_minutes. unfold s. rewrite Truncate_minute_mod.
    generalize (inst (Start r)). clear. intros. unfold_units. dlia.
Qed.
End month_rotation.

(** ** The client: who of the participants is on call *)

Record ResolvedRotation := mkResolved {
  rr_Rotation : Rotation;
  CurrentIndex : Z;
  CurrentStart : Time;
  CurrentEnd : Time;
  Users : list string
}.

Definition with_shift (r : ResolvedRotation) (i : Z) (s e : Time) : ResolvedRotation :=
  mkResolved (rr_Rotation r) i s e (Users r).

(** [r.Users[i]], which panics out of range. *)
Definition user_at (us : list string) (i : Z) : option string :=
  if i <? 0 then None else us !! Z.to_nat i.

(** [for !t.Before(r.CurrentEnd) {...}] *)
Fixpoint forward_loop (fuel : nat) (r : ResolvedRotation) (t : Time) : option ResolvedRotation :=
  match fuel with
  | O => None
  | S fuel' =>
      if negb (Before t (CurrentEnd r)) then
        e ← EndTime (rr_Rotation r) (CurrentEnd r);
        forward_loop fuel' (with_shift r (CurrentIndex r + 1) (CurrentEnd r) e) t
      else Some r
  end.

(** [for t.Before(r.CurrentStart) {...}] *)
Fixpoint backward_loop (fuel : nat) (r : ResolvedRotation) (t : Time) : option ResolvedRotation :=
  match fuel with
  | O => None
  | S fuel' =>
      if Before t (CurrentStart r) then
        s ← StartTime (rr_Rotation r) (Add (CurrentStart r) (-1));
        backward_loop fuel' (with_shift r (CurrentIndex r - 1) s (CurrentStart r)) t
      else Some r
  end.

(** The method updates its receiver: the result is the new receiver and the
    user.  [fuel] bounds each loop. *)
Definition UserID (fuel : nat) (r : ResolvedRotation) (t : Time)
  : option (ResolvedRotation * string) :=
  match Users r with
  | [] => Some (r, EmptyString)
  | [u] => Some (r, u)
  | _ =>
      r ← (if IsZero (CurrentStart r) then
             s ← StartTime (rr_Rotation r) t;
             Some (with_shift r (CurrentIndex r) s (CurrentEnd r))
           else Some r);
      r ← (if IsZero (CurrentEnd r) then
             s ← StartTime (rr_Rotation r) (CurrentStart r);
             e ← EndTime (rr_Rotation r) s;
             Some (with_shift r (CurrentIndex r) s e)
           else Some r);
      if Before t (CurrentEnd r) && negb (Before t (CurrentStart r)) then
        u ← user_at (Users r) (CurrentIndex r); Some (r, u)
      else
        r ← forward_loop fuel r t;
        r ← backward_loop fuel r t;
        let n := Z.of_nat (length (Users r)) in
        let i := CurrentIndex r `rem` n in
        let i := if i <? 0 then i + n else i in
        let r := with_shift r i (CurrentStart r) (CurrentEnd r) in
        u ← user_at (Users r) i; Some (r, u)
  end.

Section user.
Context {rot : Rotation} {h : Z -> Z} {lo hi : Z} {L : HandoffLaws rot h lo hi}.

(** The cached shift of a resolved rotation is shift [k]. *)
Definition in_shift (r : ResolvedRotation) (k : Z) : Prop :=
  rr_Rotation r = rot /\ inst (CurrentStart r) = h k /\ inst (CurrentEnd r) = h (k + 1).

Lemma forward_loop_spec fuel r t j k :
  in_shift r j -> lo <= j <= k -> k < hi -> h k <= inst t < h (k + 1) ->
  k - j < Z.of_nat fuel ->
  exists r', forward_loop fuel r t = Some r' /\ in_shift r' k /\
    CurrentIndex r' = CurrentIndex r + (k - j) /\ Users r' = Users r.
Proof using L.
  revert r j. induction fuel as [|fuel IH]; intros r j (Er & Es & Ee) Hj Hk Ht Hf; [lia|].
  simpl. unfold Before. rewrite Ee. destruct (decide (j = k)) as [->|Hne].
  - rewrite (proj2 (Z.ltb_lt _ _)) by lia. simpl. exists r.
    split_and!; [done|done|lia|done].
  - pose proof (handoff_le (L:=L) (j + 1) k ltac:(lia) ltac:(lia) ltac:(lia)) as Hle.
    rewrite (proj2 (Z.ltb_ge _ _)) by lia. simpl.
    pose proof (handoff_lt (L:=L) (j + 1) ltac:(lia)).
    rewrite Er, (handoff_end (j + 1)) by lia. simpl.
    edestruct (IH (with_shift r (CurrentIndex r + 1) (CurrentEnd r)
                    (mkTime (h (j + 1 + 1)) (zone (Start rot)))) (j + 1))
      as (r' & -> & Hin & Hi & Hu); [done|lia|lia|done|lia|].
    exists r'. split_and!; [done|done|simpl in Hi; lia|done].
Qed.

Lemma backward_loop_spec fuel r t j k :
  in_shift r j -> lo <= k <= j -> j < hi -> h k <= inst t < h (k + 1) ->
  j - k < Z.of_nat fuel ->
  exists r', backward_loop fuel r t = Some r' /\ in_shift r' k /\
    CurrentIndex r' = CurrentIndex r + (k - j) /\ Users r' = Users r.
Proof using L.
  revert r j. induction fuel as [|fuel IH]; intros r j (Er & Es & Ee) Hk Hj Ht Hf; [lia|].
  simpl. unfold Before. rewrite Es. destruct (decide (j = k)) as [->|Hne].
  - rewrite (proj2 (Z.ltb_ge _ _)) by lia. exists r. split_and!; [done|done|lia|done].
  - pose proof (handoff_le (L:=L) (k + 1) j ltac:(lia) ltac:(lia) ltac:(lia)) as Hle.
    rewrite (proj2 (Z.ltb_lt _ _)) by lia.
    pose proof (handoff_lt (L:=L) (j - 1) ltac:(lia)) as Hlt. rewrite Z.sub_add in Hlt.
    rewrite Er, (handoff_start (j - 1)) by (simpl; rewrite ?Es, ?Z.sub_add; lia). simpl.
    edestruct (IH (with_shift r (CurrentIndex r - 1)
                    (mkTime (h (j - 1)) (zone (Start rot))) (CurrentStart r)) (j - 1))
      as (r' & -> & Hin & Hi & Hu); [|lia|lia|done|lia|].
    { split_and!; [done|done|]. simpl. by rewrite Z.sub_add. }
    exists r'. split_and!; [done|done|simpl in Hi; lia|done].
Qed.

(** Both loops together, whichever side of the cached shift [t] is on. *)
Lemma loops_spec fuel r t j k :
  in_shift r j -> lo <= j < hi -> lo <= k < hi -> h k <= inst t < h (k + 1) ->
  Z.abs (k - j) < Z.of_nat fuel ->
  exists r' r'', forward_loop fuel r t = Some r' /\ backward_loop fuel r' t = Some r'' /\
    in_shift r'' k /\ CurrentIndex r'' = CurrentIndex r + (k - j) /\ Users r'' = Users r.
Proof using L.
  intros Hin Hj Hk Ht Hf. destruct (decide (j <= k)).
  - destruct (forward_loop_spec fuel r t j k) as (r' & E & Hin' & Hi & Hu);
      [done|lia|lia|done|lia|].
    destruct (backward_loop_spec fuel r' t k k) as (r'' & E' & Hin'' & Hi' & Hu');
      [done|lia|lia|done|lia|].
    exists r', r''. split_and!; [done|done|done|lia|congruence].
  - destruct (backward_loop_spec fuel r t j k) as (r'' & E' & Hin'' & Hi' & Hu');
      [done|lia|lia|done|lia|].
    exists r, r''. split_and!; [|done|done|lia|congruence].
    destruct fuel as [|fuel]; [lia|]. simpl. unfold Before.
    destruct Hin as (_ & _ & ->).
    pose proof (handoff_mono (L:=L) (k + 1) (j + 1) ltac:(lia) ltac:(lia) ltac:(lia)).
    by rewrite (proj2 (Z.ltb_lt _ _)) by lia.
Qed.
End user.

(** A rotation as it is loaded or left by a previous call: the stored start lies
    in shift [j], and the end is either not known yet or that of the shift. *)
Definition cached {rot : Rotation} {h : Z -> Z} (r : ResolvedRotation) (j : Z) : Prop :=
  rr_Rotation r = rot /\ h j <= inst (CurrentStart r) < h (j + 1) /\
  inst (CurrentStart r) <> zero_inst /\
  (inst (CurrentEnd r) = zero_inst \/
   (inst (CurrentStart r) = h j /\ inst (CurrentEnd r) = h (j + 1))).

(** [UserID] against the interface. *)
Lemma UserID_spec rot h lo hi (L : HandoffLaws rot h lo hi)
  fuel r t j k
  (Hin : cached (rot:=rot) (h:=h) r j)
  (Hj : lo <= j < hi) (Hk : lo <= k < hi) (Ht : h k <= inst t < h (k + 1))
  (Husers : 2 <= Z.of_nat (length (Users r)))
  (Hidx : 0 <= CurrentIndex r < Z.of_nat (length (Users r)))
  (Hfuel : Z.abs (k - j) < Z.of_nat fuel) :
  exists r' u, UserID fuel r t = Some (r', u) /\
    in_shift (rot:=rot) (h:=h) r' k /\ Users r' = Users r /\
    CurrentIndex r' = (CurrentIndex r + (k - j)) mod Z.of_nat (length (Users r)) /\
    Users r !! Z.to_nat (CurrentIndex r') = Some u.
Proof.
  remember (Z.of_nat (length (Users r))) as n eqn:En.
  unfold UserID. destruct (Users r) as [|u0 [|u1 us]] eqn:EU; [simpl in *; lia..|].
  rewrite <- EU in *. destruct Hin as (Er & Es & Hnz & Ee).
  assert (IsZero (CurrentStart r) = false) as -> by (unfold IsZero; by apply Z.eqb_neq).
  simpl. pose proof (handoff_lt (L:=L) j Hj) as Hlt.
  assert (exists r0, (if IsZero (CurrentEnd r) then
       s ← StartTime (rr_Rotation r) (CurrentStart r);
       e ← EndTime (rr_Rotation r) s; Some (with_shift r (CurrentIndex r) s e)
     else Some r) = Some r0 /\ in_shift (rot:=rot) (h:=h) r0 j /\
     CurrentIndex r0 = CurrentIndex r /\ Users r0 = Users r) as (r0 & -> & Hin0 & Hi0 & HU0).
  { destruct (IsZero (CurrentEnd r)) eqn:EZ; unfold IsZero in EZ; bprop.
    2:{ exists r. destruct Ee as [Ee|[? ?]]; [lia|done]. }
    rewrite Er, (handoff_start j) by lia. simpl. rewrite (handoff_end j) by (simpl; lia).
    simpl. eexists. split; [done|]. done. }
  clear Er Es Ee. simpl.
  assert (forall i, 0 <= i < n -> exists u, user_at (Users r) i = Some u /\
            Users r !! Z.to_nat i = Some u) as HU.
  { intros i Hi. unfold user_at. rewrite (proj2 (Z.ltb_ge i 0)) by lia.
    destruct (lookup_lt_is_Some_2 (Users r) (Z.to_nat i)) as [u Hu]; [lia|]. by exists u. }
  destruct (Before t (CurrentEnd r0) && negb (Before t (CurrentStart r0))) eqn:B.
  - assert (k = j) as ->.
    { destruct Hin0 as (_ & Es & Ee). unfold Before in B. bprop.
      destruct (decide (k < j)) as [Hl|]; [|destruct (decide (j < k)) as [Hl|]; [|lia]].
      - pose proof (handoff_le (L:=L) (k + 1) j ltac:(lia) ltac:(lia) ltac:(lia)). lia.
      - pose proof (handoff_le (L:=L) (j + 1) k ltac:(lia) ltac:(lia) ltac:(lia)). lia. }
    destruct (HU (CurrentIndex r) Hidx) as (u & Eu & Hu).
    rewrite HU0, Hi0, Eu. exists r0, u. rewrite Hi0.
    split_and!; try done. rewrite Z.sub_diag, Z.add_0_r. symmetry. by apply Z.mod_small.
  - destruct (loops_spec (L:=L) fuel r0 t j k Hin0 Hj Hk Ht Hfuel)
      as (r1 & r2 & -> & E2 & Hin2 & Hi2 & HU2). simpl. rewrite E2. simpl.
    rewrite HU2, HU0, <- En, rem_correct_mod by lia.
    rewrite Hi2, Hi0.
    destruct (HU ((CurrentIndex r + (k - j)) mod n)) as (u & Eu & Hu);
      [apply Z.mod_pos_bound; lia|].
    rewrite Eu. simpl. eexists _, u. split; [done|].
    split; [exact Hin2|]. split; [simpl; by rewrite HU2, HU0|].
    split; [done|exact Hu].
Qed.

(** ** What rotations promise *)

(** In a location with a constant offset of whole minutes, an hourly, daily
    or weekly rotation of a length [Normalize] accepts divides time into shifts
    of exactly that length counted from the (truncated) start, and [StartTime]
    and [EndTime] return the ends of the shift containing [t]: neither panics,
    and [t] is in the half-open interval between them. *)
Theorem clock_rotation_shifts r o t
  (Hty : clock_type (rType r)) (Hlen : 1 <= ShiftLength r <= 9000)
  (Hzone : fixed_at (zone (Start r)) o) (Ho : o mod 60 = 0)
  (Hrange : Z.abs (inst t - inst (Truncate (Start r) Minute)) <= 3000000000000000000) :
  exists s e k, StartTime r t = Some s /\ EndTime r t = Some e /\
    inst s = inst (Truncate (Start r) Minute) + k * shift_len (rType r) (ShiftLength r) /\
    inst e = inst s + shift_len (rType r) (ShiftLength r) /\
    inst s <= inst t < inst e.
Proof.
  destruct (shiftClock_exact r Hty Hlen) as [_ Hb].
  set (s0 := inst (Truncate (Start r) Minute)) in *.
  set (len := shift_len (rType r) (ShiftLength r)) in *.
  assert (0 < len) as Hl by (unfold_units; lia).
  pose proof (Z.div_mod (inst t - s0) len ltac:(lia)) as DM.
  pose proof (Z.mod_pos_bound (inst t - s0) len Hl) as MB.
  set (k := (inst t - s0) / len) in *.
  assert (- (two63 / len) <= k < two63 / len) as Hk.
  { pose proof (Z.div_mod two63 len ltac:(lia)). pose proof (Z.mod_pos_bound two63 len Hl).
    set (q := two63 / len) in *. clearbody q k. unfold two63 in *. nia. }
  pose proof (clock_shift r o Hty Hlen Hzone Ho k t Hk) as [Es Ee].
  { unfold clock_handoff. fold s0 len. lia. }
  eexists _, _, k. split; [exact Es|]. split; [exact Ee|].
  unfold clock_handoff. fold s0 len. simpl. lia.
Qed.

Definition daily_utc : Rotation := mkRotation TypeDaily (time_Unix 1700000000) 1.

Lemma clock_rotation_shifts_witness :
  StartTime daily_utc (time_Unix 1699900000) = Some (time_Unix 1699827180) /\
  exists s e k, StartTime daily_utc (time_Unix 1699900000) = Some s /\
    EndTime daily_utc (time_Unix 1699900000) = Some e /\
    inst s = inst (Truncate (Start daily_utc) Minute) + k * (24 * Hour) /\
    inst e = inst s + 24 * Hour /\ inst s <= 1699900000 * Second < inst e.
Proof.
  split; [vm_compute; reflexivity|].
  apply (clock_rotation_shifts daily_utc 0 (time_Unix 1699900000)).
  - right. left. reflexivity.
  - simpl. lia.
  - intros u. reflexivity.
  - reflexivity.
  - vm_compute. discriminate.
Defined.

(** From its start on, a monthly rotation finds, without reaching the limit
    of 10000 iterations, the handoffs around [t] among the starts of every
    [ShiftLength] calendar months; handoffs are at least 28 days apart. *)
Theorem month_rotation_shifts r o t
  (Hty : rType r = TypeMonthly) (Hlen : 1 <= ShiftLength r)
  (Hzone : fixed_at (zone (Start r)) o)
  (Hlo : inst (Truncate (Start r) Minute) <= inst t)
  (Hhi : inst t < month_handoff r 10000) :
  exists s e k, 0 <= k < 10000 /\ StartTime r t = Some s /\ EndTime r t = Some e /\
    inst s = inst (AddDate (Truncate (Start r) Minute) 0 (ShiftLength r * k) 0) /\
    inst e = inst (AddDate (Truncate (Start r) Minute) 0 (ShiftLength r * (k + 1)) 0) /\
    inst s <= inst t < inst e /\ inst s + 28 * Day <= inst e.
Proof.
  assert (forall n : nat, inst t < month_handoff r (Z.of_nat n) ->
    exists k, 0 <= k < Z.of_nat n /\ month_handoff r k <= inst t < month_handoff r (k + 1)) as H.
  { induction n as [|n IH]; intros Hn.
    - change (Z.of_nat 0) with 0 in Hn. rewrite (month_handoff_0 r o Hzone) in Hn. lia.
    - destruct (decide (inst t < month_handoff r (Z.of_nat n))) as [Hlt|Hge].
      + destruct (IH Hlt) as (k & Hk & Hh). exists k. split; [lia|done].
      + exists (Z.of_nat n). replace (Z.of_nat n + 1) with (Z.of_nat (S n)) by lia. lia. }
  destruct (H (Z.to_nat 10000)) as (k & Hk & Hh); [rewrite Z2Nat.id by lia; done|].
  rewrite Z2Nat.id in Hk by lia.
  pose proof (month_handoffs r o Hty Hlen Hzone) as L.
  eexists _, _, k. split; [done|].
  split; [exact (handoff_start k t Hk Hh)|]. split; [exact (handoff_end k t Hk Hh)|].
  split; [done|]. split; [done|]. split; [exact Hh|].
  apply (month_handoff_step r o Hlen Hzone).
Qed.

Definition monthly_utc : Rotation := mkRotation TypeMonthly (time_Unix 1706659200) 1.

(** A rotation started on January 31, 2024: the handoff after February falls on
    March 2. *)
Lemma month_rotation_shifts_witness :
  EndTime monthly_utc (time_Unix 1709000000) = Some (time_Unix 1709337600) /\
  exists s e k, 0 <= k < 10000 /\ StartTime monthly_utc (time_Unix 1709000000) = Some s /\
    EndTime monthly_utc (time_Unix 1709000000) = Some e /\
    inst s = inst (AddDate (time_Unix 1706659200) 0 (1 * k) 0) /\
    inst e = inst (AddDate (time_Unix 1706659200) 0 (1 * (k + 1)) 0) /\
    inst s <= 1709000000 * Second < inst e /\ inst s + 28 * Day <= inst e.
Proof.
  split; [vm_compute; reflexivity|].
  apply (month_rotation_shifts monthly_utc 0 (time_Unix 1709000000)).
  - reflexivity.
  - simpl. lia.
  - intros u. reflexivity.
  - vm_compute. discriminate.
  - vm_compute. reflexivity.
Defined.


Definition three_users : ResolvedRotation :=
  mkResolved daily_utc 2 (time_Unix 1699999980) zeroTime ["a"; "b"; "c"]%string.


(** ** Where the code departs from its comments *)

(** An hourly rotation handed over at half past: at 01:15 of the repeated hour
    [EndTime], documented to occur after [t], returns 01:30 of the first pass. *)
Lemma EndTime_not_after_in_repeated_hour :
  let r := mkRotation TypeHourly (mkTime (1699162200 * Second) chicago_fall) 1 in
  let t := mkTime (1699168500 * Second) chicago_fall in
  option_map inst (EndTime r t) = Some (1699165800 * Second) /\
  1699165800 * Second < inst t.
Proof. vm_compute. done. Qed.

(** A monthly rotation queried at a handoff before its start: February 1, 2024
    for a rotation that starts on March 1.  The shift reported runs over two
    months, from January 1, although [t] itself is a handoff. *)
Lemma month_start_skips_handoff_before_start :
  let r := mkRotation TypeMonthly (time_Unix 1709251200) 1 in
  let t := time_Unix 1706745600 in
  option_map inst (StartTime r t) = Some (1704067200 * Second) /\
  option_map inst (EndTime r t) = Some (1709251200 * Second) /\
  inst (AddDate (Start r) 0 (-1) 0) = inst t.
Proof. vm_compute. done. Qed.
