(* ===== verification/RotationManager.v ===== *)
(** * Advancing rotations: [engine/rotationmanager]

    [calcAdvance] decides whether the stored state of a rotation must move on,
    [updateRotation] is the job that reads the state, schedules the next run
    and stores the new position; its database calls are the actions of the
    model and may each fail.  A panic is [None] or [Panicked]. *)

From S2P Require Import Prelude GoTime Clock Rotation.

Record rotState := mkState { ShiftStart : Time; Position : Z; Version : Z }.

Inductive advance :=
  | UnknownVersion        (** the error for a version other than 1 and 2 *)
  | NoAdvance             (** nil, nil *)
  | Advance (newPosition : Z).

(** ** The version-1 calculation kept for migration *)

Definition legacyAddHours (t : Time) (n : Z) : Time :=
  let '(y, m, d) := Date t in
  let '(hh, mm, ss) := ClockHMS t in
  date y m d (hh + n) mm ss (inst t mod Second) (zone t).

Fixpoint legacy_dec_loop (fuel : nat) (t : Time) (n : Z) : option Time :=
  match fuel with
  | O => None
  | S fuel' =>
      let res := legacyAddHours t n in
      if negb (Before res t) then legacy_dec_loop fuel' t (n - 1) else Some res
  end.

Fixpoint legacy_inc_loop (fuel : nat) (t : Time) (n : Z) : option Time :=
  match fuel with
  | O => None
  | S fuel' =>
      let res := legacyAddHours t n in
      if negb (After res t) then legacy_inc_loop fuel' t (n + 1) else Some res
  end.

(** The offset of a location moves a reading by less than two days, so fewer
    than a hundred extra hours are ever tried. *)
Definition legacy_fuel : nat := 100.

Definition legacyAddHoursAlwaysInc (t : Time) (n : Z) : option Time :=
  if n <? 0 then legacy_dec_loop legacy_fuel t n else legacy_inc_loop legacy_fuel t n.

Fixpoint v1_reverse (fuel : nat) (len : Z) (cTime last t : Time) : option Time :=
  match fuel with
  | O => None
  | S fuel' =>
      if After cTime t then
        c ← legacyAddHoursAlwaysInc cTime (- len); v1_reverse fuel' len c cTime t
      else Some last
  end.

Fixpoint v1_forward (fuel : nat) (len : Z) (cTime t : Time) : option Time :=
  match fuel with
  | O => None
  | S fuel' =>
      if negb (After cTime t) then
        c ← legacyAddHoursAlwaysInc cTime len; v1_forward fuel' len c t
      else Some cTime
  end.

Definition calcVersion1EndTime (fuel : nat) (rot : Rotation) (shiftStart : Time) : option Time :=
  if negb (String.eqb (rType rot) TypeHourly) then EndTime rot shiftStart
  else
    let cTime := Truncate (Start rot) Minute in
    let t := In_ shiftStart (zone cTime) in
    if After cTime t then v1_reverse fuel (ShiftLength rot) cTime cTime t
    else v1_forward fuel (ShiftLength rot) cTime t.

(** ** The decision *)

(** The loop panics after 10000 rounds; [fuel] counts the rounds left. *)
Fixpoint advance_loop (fuel : nat) (endf : Time -> option Time) (t : Time) (partCount : Z)
  (pos : Z) (start : Time) : option Z :=
  match fuel with
  | O => None
  | S fuel' =>
      let pos := (pos + 1) `rem` partCount in
      e ← endf start;
      if After e t then Some pos else advance_loop fuel' endf t partCount pos e
  end.

Definition max_advances : nat := Z.to_nat 10000.

Definition calcAdvance (v1fuel : nat) (t : Time) (rot : Rotation) (state : rotState)
  (partCount : Z) : option advance :=
  let '(mustUpdate, pos) :=
    if partCount <=? Position state then (true, 0) else (false, Position state) in
  let decide_ (mustUpdate : bool) (endTimeFunc : Time -> option Time) :=
    newStart ← endTimeFunc (ShiftStart state);
    if After newStart t then
      if mustUpdate then Some (Advance pos) else Some NoAdvance
    else
      p ← advance_loop max_advances endTimeFunc t partCount pos newStart;
      Some (Advance p) in
  if Version state =? 1 then decide_ true (calcVersion1EndTime v1fuel rot)
  else if Version state =? 2 then decide_ mustUpdate (EndTime rot)
  else Some UnknownVersion.

(** ** The job *)

Record RotationData := mkData {
  d_now : Time;
  d_type : string;
  d_start : Time;
  d_shift_length : Z;
  d_loc : option Location;       (** [util.LoadLocation] of the stored zone *)
  d_participants : list string;
  d_version : Z;
  d_position : Z;
  d_shift_start : Time
}.

Inductive RowResult := NoRows | RowError | Row (d : RotationData).

Inductive action :=
  | RotMgrEnd
  | ScheduleNext (at_ : Time)
  | RotMgrStart
  | RotMgrUpdate (position : Z) (participant : string).

(** The transaction commits the actions, in order, or none of them. *)
Inductive outcome := Committed (l : list action) | RolledBack | Panicked.

Section job.
(** Whether the database carries an action out. *)
Variable db_ok : action -> bool.

Definition attempt (a : action) (k : outcome) : outcome :=
  if db_ok a then
    match k with Committed l => Committed (a :: l) | _ => k end
  else RolledBack.

Definition updateRotation (v1fuel : nat) (row : RowResult) : outcome :=
  match row with
  | NoRows => Committed []
  | RowError => RolledBack
  | Row d =>
      match d_participants d with
      | [] => if negb (d_version d =? 0) then attempt RotMgrEnd (Committed [])
              else Committed []
      | _ =>
          match d_loc d with
          | None => RolledBack
          | Some loc =>
              let r := mkRotation (d_type d) (In_ (d_start d) loc) (d_shift_length d) in
              match EndTime r (d_now d) with
              | None => Panicked
              | Some next =>
                  attempt (ScheduleNext next)
                    (if d_version d =? 0 then attempt RotMgrStart (Committed [])
                     else
                       let s := mkState (In_ (d_shift_start d) loc) (d_position d) (d_version d) in
                       match calcAdvance v1fuel (d_now d) r s
                               (Z.of_nat (length (d_participants d))) with
                       | None => Panicked
                       | Some UnknownVersion => RolledBack
                       | Some NoAdvance => Committed []
                       | Some (Advance p) =>
                           match user_at (d_participants d) p with
                           | None => Panicked
                           | Some u => attempt (RotMgrUpdate p u) (Committed [])
                           end
                       end)
              end
          end
      end
  end.
End job.

(** ** Lemmas *)

Lemma rem_range p n : 0 <= p -> 0 < n -> 0 <= p `rem` n < n.
Proof. intros. apply Z.rem_bound_pos; lia. Qed.

Lemma advance_loop_range fuel endf t n pos start p :
  0 < n -> 0 <= pos -> advance_loop fuel endf t n pos start = Some p -> 0 <= p < n.
Proof.
  intros Hn. revert pos start. induction fuel as [|fuel IH]; intros pos start Hp; simpl; [done|].
  pose proof (rem_range (pos + 1) n ltac:(lia) Hn).
  destruct (endf start) as [e|]; simpl; [|done].
  destruct (After e t); [by intros [= <-]|]. apply IH. lia.
Qed.

Section against_interface.
Context {rot : Rotation} {h : Z -> Z} {lo hi : Z} {L : HandoffLaws rot h lo hi}.

Lemma advance_loop_spec fuel t n pos j k start :
  0 < n -> 0 <= pos -> inst start = h j ->
  lo <= j <= k -> k < hi -> h k <= inst t < h (k + 1) -> k - j < Z.of_nat fuel ->
  advance_loop fuel (EndTime rot) t n pos start = Some ((pos + (k - j) + 1) mod n).
Proof using L.
  intros Hn. revert pos j start. induction fuel as [|fuel IH];
    intros pos j start Hp Es Hj Hk Ht Hf; [lia|]. simpl.
  pose proof (handoff_lt (L:=L) j ltac:(lia)).
  rewrite (handoff_end j) by lia. simpl. unfold After. simpl.
  pose proof (rem_range (pos + 1) n ltac:(lia) Hn) as Hr.
  rewrite Z.rem_mod_nonneg in * by lia.
  destruct (decide (j = k)) as [->|Hne].
  - rewrite (proj2 (Z.ltb_lt _ _)) by lia. do 2 f_equal. lia.
  - pose proof (handoff_le (L:=L) (j + 1) k ltac:(lia) ltac:(lia) ltac:(lia)).
    rewrite (proj2 (Z.ltb_ge _ _)) by lia.
    rewrite (IH _ (j + 1)) by (simpl; lia || done).
    f_equal. rewrite <- Z.add_assoc, Z.add_mod_idemp_l by lia. f_equal. lia.
Qed.

(** The decision for a version-2 state, [k - j] handoffs behind. *)
Lemma calcAdvance_spec v1fuel t state n j k :
  Version state = 2 -> 0 < n -> 0 <= Position state ->
  h j <= inst (ShiftStart state) < h (j + 1) ->
  lo <= j < hi -> lo <= k < hi -> h k <= inst t < h (k + 1) -> k - j <= 10000 ->
  let pos := if n <=? Position state then 0 else Position state in
  calcAdvance v1fuel t rot state n =
    Some (if k <=? j then (if n <=? Position state then Advance 0 else NoAdvance)
          else Advance ((pos + (k - j)) mod n)).
Proof using L.
  intros HV Hn Hp Hs Hj Hk Ht Hd pos. unfold calcAdvance.
  assert ((if n <=? Position state then (true, 0) else (false, Position state))
          = (n <=? Position state, pos)) as -> by (unfold pos; by destruct (n <=? _)).
  rewrite HV. change (2 =? 1) with false. change (2 =? 2) with true. cbv iota.
  rewrite (handoff_end j) by lia. cbn [mbind option_bind]. unfold After. cbn [inst].
  destruct (k <=? j) eqn:E; bprop.
  - pose proof (handoff_le (L:=L) (k + 1) (j + 1) ltac:(lia) ltac:(lia) ltac:(lia)).
    rewrite (proj2 (Z.ltb_lt _ _)) by lia. unfold pos. by destruct (n <=? _).
  - pose proof (handoff_le (L:=L) (j + 1) k ltac:(lia) ltac:(lia) ltac:(lia)).
    rewrite (proj2 (Z.ltb_ge _ _)) by lia.
    rewrite (advance_loop_spec _ t n pos (j + 1) k);
      [|lia|unfold pos; bcase; lia|done|lia|lia|done|unfold max_advances; lia].
    cbn [mbind option_bind]. do 3 f_equal. lia.
Qed.
End against_interface.

(** A new position is always within the list of participants. *)
Lemma calcAdvance_range v1fuel t rot state n p :
  0 < n -> 0 <= Position state -> calcAdvance v1fuel t rot state n = Some (Advance p) ->
  0 <= p < n.
Proof.
  intros Hn Hp. unfold calcAdvance.
  set (pos := if n <=? Position state then 0 else Position state).
  assert (0 <= pos < n) as Hpos by (unfold pos; bcase; lia).
  assert ((if n <=? Position state then (true, 0) else (false, Position state))
            = (n <=? Position state, pos)) as -> by (unfold pos; by destruct (n <=? _)).
  assert (forall b endf, (newStart ← endf (ShiftStart state);
    if After newStart t then if b : bool then Some (Advance pos) else Some NoAdvance
    else p0 ← advance_loop max_advances endf t n pos newStart; Some (Advance p0))
      = Some (Advance p) -> 0 <= p < n) as H.
  { intros b endf. destruct (endf (ShiftStart state)) as [ns|]; cbn [mbind option_bind]; [|done].
    destruct (After ns t); [destruct b; [by intros [= <-]|done]|].
    destruct (advance_loop max_advances endf t n pos ns) as [q|] eqn:EL;
      cbn [mbind option_bind]; [|done].
    intros [= <-]. by eapply advance_loop_range; [| |exact EL]; lia. }
  destruct (Version state =? 1); [exact (H true _)|].
  destruct (Version state =? 2); [exact (H (n <=? Position state) _)|done].
Qed.

(** ** What the manager promises *)



(** Whatever the stored row holds, the update job never stores a position
    without a participant at it, and the index expression on the participant
    list does not go out of range: the only panics are those of the handoff
    calculation itself.  A committed job of a rotation with participants begins
    by scheduling the next run at the end of the current shift. *)
Theorem updateRotation_positions db_ok v1fuel d
  (Hpos : 0 <= d_position d) (Hpart : d_participants d <> []) :
  let rot loc := mkRotation (d_type d) (In_ (d_start d) loc) (d_shift_length d) in
  match updateRotation db_ok v1fuel (Row d) with
  | Committed l =>
      (exists loc next rest, d_loc d = Some loc /\ EndTime (rot loc) (d_now d) = Some next /\
         l = ScheduleNext next :: rest /\ (length rest <= 1)%nat) /\
      (forall p u, In (RotMgrUpdate p u) l ->
         0 <= p < Z.of_nat (length (d_participants d)) /\
         d_participants d !! Z.to_nat p = Some u)
  | Panicked => exists loc, d_loc d = Some loc /\
      (EndTime (rot loc) (d_now d) = None \/
       calcAdvance v1fuel (d_now d) (rot loc)
         (mkState (In_ (d_shift_start d) loc) (d_position d) (d_version d))
         (Z.of_nat (length (d_participants d))) = None)
  | RolledBack => True
  end.
Proof.
  intros rot. simpl. destruct (d_participants d) as [|u0 us] eqn:EP; [done|]. rewrite <- EP.
  destruct (d_loc d) as [loc|]; [|done]. fold (rot loc).
  destruct (EndTime (rot loc) (d_now d)) as [next|] eqn:EN; [|by eauto].
  set (n := Z.of_nat (length (d_participants d))).
  assert (0 < n) as Hn by (unfold n; rewrite EP; simpl; lia).
  unfold attempt at 1. destruct (db_ok (ScheduleNext next)); [|done].
  destruct (d_version d =? 0).
  { unfold attempt. destruct (db_ok _); [|done]. split; [by exists loc, next, [RotMgrStart]|].
    intros p u [H|[H|[]]]; done. }
  destruct (calcAdvance _ _ _ _ n) as [[| |p]|] eqn:EC; [done| | |by eauto].
  { split; [exists loc, next, []; simpl; auto|]. intros p u [H|[]]; done. }
  apply calcAdvance_range in EC; [|done|done].
  destruct (lookup_lt_is_Some_2 (d_participants d) (Z.to_nat p)) as [u Hu]; [lia|].
  unfold user_at. rewrite (proj2 (Z.ltb_ge p 0)), Hu by lia.
  unfold attempt. destruct (db_ok _); [|done].
  split; [by exists loc, next, [RotMgrUpdate p u]|].
  intros p' u' [H|[[= <- <-]|[]]]; done.
Qed.

Definition sample_row : RotationData :=
  mkData (time_Unix 1700300000) TypeDaily (time_Unix 1700000000) 1 (Some UTC)
    ["a"; "b"; "c"]%string 2 7 (time_Unix 1699999980).

Lemma updateRotation_positions_witness :
  updateRotation (fun _ => true) 0 (Row sample_row) =
    Committed [ScheduleNext (time_Unix 1700345580); RotMgrUpdate 0 "a"] /\
  sample_row.(d_participants) !! 0%nat = Some "a"%string.
Proof.
  assert (updateRotation (fun _ => true) 0 (Row sample_row) =
    Committed [ScheduleNext (time_Unix 1700345580); RotMgrUpdate 0 "a"]) as E
    by (vm_compute; reflexivity).
  split; [exact E|].
  pose proof (updateRotation_positions (fun _ => true) 0 sample_row ltac:(simpl; lia)
    ltac:(discriminate)) as H.
  cbv zeta in H. rewrite E in H. destruct H as [_ H].
  exact (proj2 (H 0 "a"%string ltac:(right; left; reflexivity))).
Defined.
