(* ===== verification/Assignment.v ===== *)
(** * Assignment targets: [assignment/target.go], [assignment/targettype.go]

    What a rule, an override or a step points at: a type and an identifier.
    The Go types that implement [Target] differ only in the constant their
    [TargetType] method returns, so a target is the pair [RawTarget]. *)

From S2P Require Import Prelude.

Inductive TargetType :=
  | TargetTypeUnspecified
  | TargetTypeEscalationPolicy
  | TargetTypeNotificationPolicy
  | TargetTypeRotation
  | TargetTypeService
  | TargetTypeSchedule
  | TargetTypeCalendarSubscription
  | TargetTypeUser
  | TargetTypeNotificationChannel
  | TargetTypeSlackChannel
  | TargetTypeSlackUserGroup
  | TargetTypeChanWebhook
  | TargetTypeIntegrationKey
  | TargetTypeUserOverride
  | TargetTypeNotificationRule
  | TargetTypeContactMethod
  | TargetTypeHeartbeatMonitor
  | TargetTypeUserSession.

#[export] Instance TargetType_eq_dec : EqDecision TargetType.
Proof. solve_decision. Defined.

Record RawTarget := mkTarget { TType : TargetType; TID : string }.

#[export] Instance RawTarget_eq_dec : EqDecision RawTarget.
Proof. solve_decision. Defined.

Definition UserTarget (id : string) : RawTarget := mkTarget TargetTypeUser id.
Definition RotationTarget (id : string) : RawTarget := mkTarget TargetTypeRotation id.
Definition ScheduleTarget (id : string) : RawTarget := mkTarget TargetTypeSchedule id.

(** [TargetType.UnmarshalText]; [None] is the field error. *)
Definition UnmarshalText (str : string) : option TargetType :=
  if String.eqb str "escalationPolicy" then Some TargetTypeEscalationPolicy
  else if String.eqb str "notificationPolicy" then Some TargetTypeNotificationPolicy
  else if String.eqb str "rotation" then Some TargetTypeRotation
  else if String.eqb str "service" then Some TargetTypeService
  else if String.eqb str "schedule" then Some TargetTypeSchedule
  else if String.eqb str "calendarSubscription" then Some TargetTypeCalendarSubscription
  else if String.eqb str "user" then Some TargetTypeUser
  else if String.eqb str "integrationKey" then Some TargetTypeIntegrationKey
  else if String.eqb str "notificationChannel" then Some TargetTypeNotificationChannel
  else if String.eqb str "slackChannel" then Some TargetTypeSlackChannel
  else if String.eqb str "slackUserGroup" then Some TargetTypeSlackUserGroup
  else if String.eqb str "chanWebhook" then Some TargetTypeChanWebhook
  else if String.eqb str "userOverride" then Some TargetTypeUserOverride
  else if String.eqb str "contactMethod" then Some TargetTypeContactMethod
  else if String.eqb str "notificationRule" then Some TargetTypeNotificationRule
  else if String.eqb str "heartbeatMonitor" then Some TargetTypeHeartbeatMonitor
  else if String.eqb str "userSession" then Some TargetTypeUserSession
  else None.

Definition MarshalText (tt : TargetType) : option string :=
  match tt with
  | TargetTypeEscalationPolicy => Some "escalationPolicy"
  | TargetTypeNotificationPolicy => Some "notificationPolicy"
  | TargetTypeRotation => Some "rotation"
  | TargetTypeService => Some "service"
  | TargetTypeSchedule => Some "schedule"
  | TargetTypeCalendarSubscription => Some "calendarSubscription"
  | TargetTypeUser => Some "user"
  | TargetTypeIntegrationKey => Some "integrationKey"
  | TargetTypeUserOverride => Some "userOverride"
  | TargetTypeNotificationChannel => Some "notificationChannel"
  | TargetTypeSlackChannel => Some "slackChannel"
  | TargetTypeSlackUserGroup => Some "slackUserGroup"
  | TargetTypeChanWebhook => Some "chanWebhook"
  | TargetTypeContactMethod => Some "contactMethod"
  | TargetTypeNotificationRule => Some "notificationRule"
  | TargetTypeHeartbeatMonitor => Some "heartbeatMonitor"
  | TargetTypeUserSession => Some "userSession"
  | TargetTypeUnspecified => None
  end%string.

(** The two tables are inverse to each other; only the unspecified type has no
    name. *)
Lemma target_type_roundtrip tt s : MarshalText tt = Some s <-> UnmarshalText s = Some tt.
Proof.
  split.
  - destruct tt; simpl; intros [= <-]; reflexivity.
  - unfold UnmarshalText.
    repeat match goal with
    | |- context [String.eqb s ?k] =>
        destruct (String.eqb_spec s k) as [->|_]; [intros [= <-]; reflexivity|]
    end. done.
Qed.

Lemma target_type_named tt : MarshalText tt = None <-> tt = TargetTypeUnspecified.
Proof. by destruct tt. Qed.
