(* ===== verification/Rule.v ===== *)
(** * Schedule rules: [schedule/rule/rule.go]

    A rule is active on the enabled weekdays from [Start] to [End], overnight
    when [Start] is not before [End].  The declarative reading is the union of
    one [slot] per enabled day; the theorems show, in a location with a
    constant offset, that the program's case analysis computes it. *)

From S2P Require Import Prelude GoTime Clock WeekdayFilter Assignment.

Record Rule := mkRule {
  ID : string;
  ScheduleID : string;
  RFilter : WeekdayFilter;      (** the embedded [timeutil.WeekdayFilter] *)
  RStart : Clock;
  REnd : Clock;
  RTarget : RawTarget
}.

Definition NewAlwaysActive (scheduleID : string) (tgt : RawTarget) : Rule :=
  mkRule "" scheduleID EveryDay 0 0 tgt.

(** [validUUID] stands for [validate.UUID], which calls the uuid package. *)
Definition Normalize (validUUID : string -> bool) (r : Rule) : option Rule :=
  if validUUID (ScheduleID r) then
    Some (mkRule (ID r) (ScheduleID r) (RFilter r) (dTruncate (RStart r) Minute)
            (dTruncate (REnd r) Minute) (RTarget r))
  else None.

(** ** The database row *)

Record RuleRow := mkRow {
  row_ID : string;
  row_ScheduleID : string;
  row_filter : WeekdayFilter;
  row_Start : Clock;
  row_End : Clock;
  row_usr : option string;      (** [sql.NullString] *)
  row_rot : option string
}.

(** [None] is [errNoKnownTarget]. *)
Definition scanFrom (row : RuleRow) : option Rule :=
  let fields tgt := mkRule (row_ID row) (row_ScheduleID row) (row_filter row)
                      (row_Start row) (row_End row) tgt in
  match row_usr row, row_rot row with
  | Some usr, _ => Some (fields (UserTarget usr))
  | None, Some rot => Some (fields (RotationTarget rot))
  | None, None => None
  end.

Definition readFields (r : Rule) : RuleRow :=
  let '(usr, rot) :=
    match TType (RTarget r) with
    | TargetTypeUser => (Some (TID (RTarget r)), None)
    | TargetTypeRotation => (None, Some (TID (RTarget r)))
    | _ => (None, None)
    end in
  mkRow (ID r) (ScheduleID r) (RFilter r) (RStart r) (REnd r) usr rot.

(** ** When a rule is active *)

Definition NeverActive (r : Rule) : bool := IsNever (RFilter r).
Definition AlwaysActive (r : Rule) : bool := IsAlways (RFilter r) && (RStart r =? REnd r).

Definition StartTime (r : Rule) (t : Time) : Time :=
  if NeverActive r then zeroTime
  else if AlwaysActive r then zeroTime
  else
    let t := Truncate t Minute in
    let w := Weekday t in
    let isTodayEnabled := DayOn (RFilter r) w in
    if isTodayEnabled && (RStart r =? REnd r) then
      FirstOfDay (RStart r) (WeekdayFilter.StartTime (RFilter r) t)
    else if RStart r <? REnd r then
      if negb isTodayEnabled then FirstOfDay (RStart r) (NextActive (RFilter r) t)
      else
        let end_ := LastOfDay (REnd r) t in
        if Before t end_ then FirstOfDay (RStart r) t
        else FirstOfDay (RStart r) (NextActive (RFilter r) t)
    else
      let end_ := LastOfDay (REnd r) t in
      if DayOn (RFilter r) (w - 1) && Before t end_ then
        FirstOfDay (RStart r) (AddDate t 0 0 (-1))
      else if isTodayEnabled then FirstOfDay (RStart r) t
      else FirstOfDay (RStart r) (NextActive (RFilter r) t).

Definition EndTime (r : Rule) (t : Time) : Time :=
  let start := StartTime r t in
  if IsZero start then start
  else if RStart r <? REnd r then LastOfDay (REnd r) start
  else if REnd r <? RStart r then LastOfDay (REnd r) (AddDate start 0 0 1)
  else LastOfDay (REnd r) (NextInactive (RFilter r) start).

Definition IsActive (r : Rule) (t : Time) : bool :=
  if NeverActive r then false
  else if AlwaysActive r then true
  else negb (After (StartTime r t) t).

(** ** The declarative reading *)

(** Day [d] (days since the epoch) is enabled. *)
Definition day_on (f : WeekdayFilter) (d : Z) : Prop := at_ f ((d + 4) mod 7) = 1.

Definition wf_rule (r : Rule) : Prop :=
  wf (RFilter r) /\ 0 <= RStart r < Day /\ 0 <= REnd r < Day /\
  RStart r mod Minute = 0 /\ REnd r mod Minute = 0.

Section spec.
(** [o]: the offset of the location from UTC in seconds. *)
Context (o : Z) (r : Rule).

Definition slot_start (d : Z) : Z := (d * 86400 - o) * Second + RStart r.
Definition slot_end (d : Z) : Z :=
  ((if RStart r <? REnd r then d else d + 1) * 86400 - o) * Second + REnd r.

(** The instant [i] lies in the shift of an enabled day. *)
Definition active_at (i : Z) : Prop :=
  exists d, day_on (RFilter r) d /\ slot_start d <= i < slot_end d.
End spec.

(** ** Days and instants *)

Definition mid (o d : Z) : Z := (d * 86400 - o) * Second.

Lemma mid_mono o d e : d <= e -> mid o d + (e - d) * Day = mid o e.
Proof. unfold mid. unfold_units. lia. Qed.

Lemma DayOn_spec f w d :
  wf f -> -1 <= w < 7 -> w mod 7 = (d + 4) mod 7 -> DayOn f w = true <-> day_on f d.
Proof.
  intros Hf Hw E. unfold DayOn, day_on. rewrite <- E, Z.eqb_eq.
  assert ((if w <? 0 then w + 7 else w) `rem` 7 = w mod 7) as ->; [|done].
  bcase; [|rewrite Z.rem_small, Z.mod_small; lia].
  rewrite Z.rem_small by lia. dlia.
Qed.

Lemma day_off f d : wf f -> ~ day_on f d -> at_ f ((d + 4) mod 7) = 0.
Proof.
  intros Hf Hn. destruct (wf_at f ((d + 4) mod 7) Hf) as [E|E]; [|done|done].
  apply Z.mod_pos_bound. lia.
Qed.

Lemma day_on_dec f d : {day_on f d} + {~ day_on f d}.
Proof. unfold day_on. apply Z.eq_dec. Defined.

Lemma day_on_period f d : day_on f (d + 7) <-> day_on f d.
Proof. unfold day_on. by replace (d + 7 + 4) with (d + 4 + 1 * 7) by lia; rewrite Z.mod_add. Qed.

Lemma feq_true f g : feq f g = true <-> f = g.
Proof. unfold feq. apply bool_decide_eq_true. Qed.

Lemma no_day_on f : wf f -> (forall j, 0 <= j < 7 -> at_ f j <> 1) -> f = neverDays.
Proof.
  intros [Hl Hf] H. repeat (destruct f as [|? f]; try discriminate Hl).
  pose proof (H 0); pose proof (H 1); pose proof (H 2); pose proof (H 3); pose proof (H 4);
    pose proof (H 5); pose proof (H 6). unfold at_ in *. simpl in *. clear H Hl.
  repeat match goal with X : Forall _ (_ :: _) |- _ => inversion X; subst; clear X end.
  unfold neverDays. repeat f_equal; lia.
Qed.

Lemma all_days_on f : wf f -> (forall j, 0 <= j < 7 -> at_ f j <> 0) -> f = everyDay.
Proof.
  intros [Hl Hf] H. repeat (destruct f as [|? f]; try discriminate Hl).
  pose proof (H 0); pose proof (H 1); pose proof (H 2); pose proof (H 3); pose proof (H 4);
    pose proof (H 5); pose proof (H 6). unfold at_ in *. simpl in *. clear H Hl.
  repeat match goal with X : Forall _ (_ :: _) |- _ => inversion X; subst; clear X end.
  unfold everyDay. repeat f_equal; lia.
Qed.

Section fixed.
Context (l : Location) (o : Z) (Hl : fixed_at l o).

Lemma mid_local_day i : mid o (local_day (mkTime i l)) <= i < mid o (local_day (mkTime i l) + 1).
Proof using Hl.
  pose proof (local_sec_split (mkTime i l)) as LS. pose proof (sec_of_day_range (mkTime i l)).
  rewrite (local_sec_fixed l o Hl) in LS.
  set (s := sec_of_day _) in *. set (dd := local_day _) in *. clearbody s dd.
  unfold mid. unfold_units. dlia.
Qed.

Lemma local_day_mid d c : 0 <= c < Day -> local_day (mkTime (mid o d + c) l) = d.
Proof using Hl.
  intros Hc. unfold local_day. rewrite (local_sec_fixed l o Hl). unfold mid. unfold_units. dlia.
Qed.

Lemma First_mid c t d : zone t = l -> local_day t = d -> FirstOfDay c t = mkTime (mid o d + c) l.
Proof using Hl. intros E <-. apply (OfDay_fixed l o Hl c t E). Qed.

Lemma Last_mid c t d : zone t = l -> local_day t = d -> LastOfDay c t = mkTime (mid o d + c) l.
Proof using Hl. intros E <-. apply (OfDay_fixed l o Hl c t E). Qed.

Lemma midnight_mid d : midnight l o d = mkTime (mid o d) l.
Proof. done. Qed.

Lemma local_day_midnight d : local_day (midnight l o d) = d.
Proof using Hl. rewrite midnight_mid, <- (Z.add_0_r (mid o d)). by apply local_day_mid. Qed.

(** The first enabled day after today. *)
Lemma NextActive_mid f t :
  wf f -> zone t = l -> IsNever f = false ->
  exists k, 1 <= k <= 7 /\ NextActive f t = midnight l o (local_day t + k) /\
    day_on f (local_day t + k) /\
    forall j, local_day t < j < local_day t + k -> ~ day_on f j.
Proof using Hl.
  intros Hf E Hn. pose proof (next_day_fixed l o Hl f 1 t E) as H. unfold NextActive.
  destruct (next_loop f 1 (Weekday t) 0 7) as [day|].
  - destruct H as (k & Hk & Hw & Hv & Hj). exists k. split_and!; try lia; try done.
    + unfold day_on. rewrite <- Hv. f_equal. unfold Weekday. dlia.
    + intros j Hj' Hon. apply (Hj (j - local_day t)); [lia|]. rewrite <- Hon. f_equal.
      unfold Weekday. dlia.
  - apply no_day_on in H; [|done]. unfold IsNever in Hn. apply feq_true in H. congruence.
Qed.

Lemma NextInactive_mid f t :
  wf f -> zone t = l -> IsAlways f = false ->
  exists k, 1 <= k <= 7 /\ NextInactive f t = midnight l o (local_day t + k) /\
    ~ day_on f (local_day t + k) /\
    forall j, local_day t < j < local_day t + k -> day_on f j.
Proof using Hl.
  intros Hf E Hn. pose proof (next_day_fixed l o Hl f 0 t E) as H. unfold NextInactive.
  destruct (next_loop f 0 (Weekday t) 0 7) as [day|].
  - destruct H as (k & Hk & Hw & Hv & Hj). exists k. split_and!; try lia; try done.
    + unfold day_on. assert ((local_day t + k + 4) mod 7 = (Weekday t + k) mod 7) as ->; [|lia].
      unfold Weekday. dlia.
    + intros j Hj'. destruct (day_on_dec f j) as [|Hoff]; [done|exfalso].
      apply (Hj (j - local_day t)); [lia|]. rewrite <- (day_off f j Hf Hoff). f_equal.
      unfold Weekday. dlia.
  - apply all_days_on in H; [|done]. unfold IsAlways in Hn. apply feq_true in H. congruence.
Qed.

(** The first day of the run of enabled days that today belongs to. *)
Lemma filter_start_mid f t :
  wf f -> zone t = l -> IsAlways f = false -> day_on f (local_day t) ->
  exists d, d <= local_day t /\ WeekdayFilter.StartTime f t = midnight l o d /\
    (forall j, d <= j <= local_day t -> day_on f j) /\ ~ day_on f (d - 1).
Proof using Hl.
  intros Hf E Hn Hon. pose proof (run_length_spec f (Weekday t) 0 7) as H. cbv zeta in H.
  pose proof (StartTime_fixed l o Hl f t E) as HS.
  set (k := run_length f (Weekday t) 0 7) in *. clearbody k. destruct H as (Hk & Hin & Hout).
  change (Z.of_nat 7) with 7 in *.
  assert (forall j, (7 + (Weekday t - (0 + j))) mod 7 = (local_day t - j + 4) mod 7) as EJ
    by (intros j; unfold Weekday; dlia).
  assert (k <> 0) as Hk0.
  { intros ->. specialize (Hout ltac:(lia)). rewrite EJ in Hout. unfold day_on in Hon.
    rewrite Z.sub_0_r in Hout. congruence. }
  assert (forall j, local_day t - k + 1 <= j <= local_day t -> day_on f j) as Hrun.
  { intros j Hj. destruct (day_on_dec f j) as [|Hoff]; [done|exfalso].
    apply (Hin (local_day t - j)); [lia|]. rewrite EJ.
    replace (local_day t - (local_day t - j)) with j by lia. by apply day_off. }
  exists (local_day t - k + 1). split_and!; [lia|by apply HS|done|].
  destruct (decide (k = 7)) as [->|].
  - exfalso. assert (f = everyDay) as ->; [|done]. apply all_days_on; [done|]. intros j Hj.
    specialize (Hrun (local_day t - (local_day t + 4 - j) mod 7)). unfold day_on in Hrun.
    assert ((local_day t - (local_day t + 4 - j) mod 7 + 4) mod 7 = j) as EJ2 by dlia.
    rewrite EJ2 in Hrun. rewrite Hrun; dlia.
  - specialize (Hout ltac:(lia)). rewrite EJ in Hout. unfold day_on.
    replace (local_day t - k + 1 - 1 + 4) with (local_day t - k + 4) by lia. lia.
Qed.
End fixed.

Section rule.
Context (l : Location) (o : Z) (Hl : fixed_at l o).
Context (r : Rule) (Hr : wf_rule r).

Lemma slots_ordered d e : d < e -> slot_end o r d <= slot_start o r e.
Proof using Hr.
  destruct Hr as (_ & Hs & He & _). intros Hd. unfold slot_end, slot_start.
  unfold_units. destruct (RStart r <? REnd r) eqn:E; bprop; lia.
Qed.

Lemma slot_mono d e : d <= e -> slot_end o r d <= slot_end o r e /\
  slot_start o r d <= slot_start o r e.
Proof.
  intros. unfold slot_end, slot_start. unfold_units. bcase; lia.
Qed.

Lemma slot_nonempty d : slot_start o r d < slot_end o r d.
Proof using Hr.
  destruct Hr as (_ & Hs & He & _). unfold slot_end, slot_start.
  unfold_units. destruct (RStart r <? REnd r) eqn:E; bprop; lia.
Qed.

(** The shift found from the truncated time [i]: it starts on an enabled day
    [d], days [d .. x] are enabled and their shifts are contiguous, [x]'s shift
    ends after [i], and no earlier enabled day has a shift that does. *)
Definition found (i d x : Z) : Prop :=
  d <= x /\ (d < x -> RStart r = REnd r) /\
  (forall j, d <= j <= x -> day_on (RFilter r) j) /\ i < slot_end o r x /\
  forall j, day_on (RFilter r) j -> i < slot_end o r j -> d <= j.

Lemma found_one i d :
  day_on (RFilter r) d -> i < slot_end o r d ->
  (forall j, j < d -> day_on (RFilter r) j -> slot_end o r j <= i) -> found i d d.
Proof.
  intros Hd Hi Hj. split_and!; [lia|lia| |done|].
  - intros j Hj'. by replace j with d by lia.
  - intros j Hon Hlt. destruct (decide (d <= j)); [done|]. specialize (Hj j ltac:(lia) Hon). lia.
Qed.

Ltac slot_lia :=
  unfold slot_end, slot_start, mid in *; unfold_units;
  destruct (RStart r <? REnd r) eqn:?; bprop; (lia || congruence).

Lemma found_start i d x :
  found i d x -> forall i', i <= i' -> active_at o r i' -> slot_start o r d <= i'.
Proof.
  intros (_ & _ & _ & _ & H) i' Hi (j & Hon & Hs & He).
  specialize (H j Hon ltac:(lia)). pose proof (slot_mono d j H). lia.
Qed.

Lemma found_active i d x :
  found i d x -> forall i', slot_start o r d <= i' < slot_end o r x -> active_at o r i'.
Proof using Hr.
  intros (Hdx & Heq & Hon & _) i' Hi'.
  destruct (decide (d = x)) as [->|Hne]; [exists x; split; [apply Hon; lia|done]|].
  specialize (Heq ltac:(lia)). pose proof Hr as (_ & Hs & _).
  exists ((i' - slot_start o r 0) / Day).
  assert (let j := (i' - slot_start o r 0) / Day in
    slot_start o r j <= i' < slot_end o r j) as Hj.
  { cbv zeta. set (q := (i' - slot_start o r 0) / Day).
    pose proof (Z.div_mod (i' - slot_start o r 0) Day ltac:(done)) as DM.
    pose proof (Z.mod_pos_bound (i' - slot_start o r 0) Day ltac:(done)). fold q in DM.
    clearbody q. slot_lia. }
  cbv zeta in Hj. split; [|done]. apply Hon.
  set (q := (i' - slot_start o r 0) / Day) in *. clearbody q.
  pose proof (slots_ordered q d). pose proof (slots_ordered x q). lia.
Qed.

Section now.
Context (t0 : Time) (E0 : zone t0 = l).
Let D := local_day t0.

Lemma now_in_day : mid o D <= inst t0 < mid o (D + 1).
Proof using Hl E0.
  pose proof (mid_local_day l o Hl (inst t0)) as H. unfold D. rewrite <- E0 in H.
  by destruct t0.
Qed.

Lemma today_on : DayOn (RFilter r) (Weekday t0) = true <-> day_on (RFilter r) D.
Proof using Hr.
  pose proof (Weekday_range t0).
  apply DayOn_spec; [apply Hr|lia|unfold Weekday, D; dlia].
Qed.

Lemma yesterday_on : DayOn (RFilter r) (Weekday t0 - 1) = true <-> day_on (RFilter r) (D - 1).
Proof using Hr.
  pose proof (Weekday_range t0).
  apply DayOn_spec; [apply Hr|lia|unfold Weekday, D; dlia].
Qed.

Lemma first_today : FirstOfDay (RStart r) t0 = mkTime (slot_start o r D) l.
Proof using Hl E0. by apply First_mid. Qed.

Lemma last_today : LastOfDay (REnd r) t0 = mkTime (mid o D + REnd r) l.
Proof using Hl E0. by apply Last_mid. Qed.

Lemma first_yesterday :
  FirstOfDay (RStart r) (AddDate t0 0 0 (-1)) = mkTime (slot_start o r (D - 1)) l.
Proof using Hl E0.
  pose proof now_in_day. rewrite (AddDate_days_fixed l o Hl) by done.
  apply (First_mid l o Hl); [done|].
  replace (inst t0 + -1 * Day) with (mid o (D - 1) + (inst t0 - mid o D))
    by (unfold mid; unfold_units; lia).
  apply (local_day_mid l o Hl). unfold mid in *. unfold_units. lia.
Qed.

(** The shift of the next enabled day is the one found when no earlier enabled
    day has a shift that is still to end. *)
Lemma found_next :
  NeverActive r = false ->
  (forall j, j <= D -> day_on (RFilter r) j -> slot_end o r j <= inst t0) ->
  exists d x, FirstOfDay (RStart r) (NextActive (RFilter r) t0) = mkTime (slot_start o r d) l /\
    found (inst t0) d x.
Proof using Hl Hr E0.
  intros Hnv Hpast.
  destruct (NextActive_mid l o Hl (RFilter r) t0 ltac:(apply Hr) E0 Hnv)
    as (k & Hk & EN & Hon & Hgap). fold D in EN, Hon, Hgap.
  exists (D + k), (D + k). split.
  - rewrite EN. apply (First_mid l o Hl); [done|]. by apply local_day_midnight.
  - pose proof now_in_day. destruct Hr as (_ & Hs & He & _).
    apply found_one; [done|slot_lia|]. intros j Hj Hon'.
    destruct (decide (j <= D)); [by apply Hpast|]. by destruct (Hgap j ltac:(lia)).
Qed.

(** The 24-hour rule on an enabled day. *)
Lemma found_run :
  AlwaysActive r = false -> RStart r = REnd r -> day_on (RFilter r) D ->
  exists d x, FirstOfDay (RStart r) (WeekdayFilter.StartTime (RFilter r) t0)
      = mkTime (slot_start o r d) l /\ found (inst t0) d x.
Proof using Hl Hr E0.
  intros Hal Heq HonD.
  assert (IsAlways (RFilter r) = false) as Hna.
  { unfold AlwaysActive in Hal. rewrite Heq, Z.eqb_refl, andb_true_r in Hal. done. }
  destruct (filter_start_mid l o Hl (RFilter r) t0 ltac:(apply Hr) E0 Hna HonD)
    as (d & Hd & EWS & Hrun & Hoff). fold D in Hd, Hrun.
  pose proof now_in_day. destruct Hr as (_ & Hs & He & _).
  exists d, D. split.
  - rewrite EWS. apply (First_mid l o Hl); [done|]. by apply local_day_midnight.
  - split_and!; [done|done|done|slot_lia|]. intros j Hj Hlt.
    destruct (decide (d <= j)); [done|exfalso].
    destruct (decide (j = d - 1)) as [->|]; [done|]. slot_lia.
Qed.
End now.

Lemma StartTime_found t :
  zone t = l -> NeverActive r = false -> AlwaysActive r = false ->
  exists d x, StartTime r t = mkTime (slot_start o r d) l /\
    found (inst (Truncate t Minute)) d x.
Proof using Hl Hr.
  intros Ez Hnv Hal. unfold StartTime. rewrite Hnv, Hal.
  set (t0 := Truncate t Minute). assert (zone t0 = l) as E0 by done. clearbody t0.
  rewrite (last_today t0 E0), (first_today t0 E0), (first_yesterday t0 E0).
  pose proof (now_in_day t0 E0) as HD. pose proof (today_on t0) as Htoday.
  pose proof (yesterday_on t0) as Hyest. pose proof (found_next t0 E0 Hnv) as Hnext.
  pose proof (found_run t0 E0 Hal) as Hrun. set (D := local_day t0) in *.
  pose proof Hr as (_ & Hs & He & _). unfold Before. cbn [inst].
  assert (forall j, day_on (RFilter r) j -> DayOn (RFilter r) (Weekday t0) = false -> j <> D)
    as Hnot by (intros j Hj E ->; apply Htoday in Hj; congruence).
  assert (forall j, day_on (RFilter r) j -> DayOn (RFilter r) (Weekday t0 - 1) = false ->
    j <> D - 1) as Hnot' by (intros j Hj E ->; apply Hyest in Hj; congruence).
  destruct (DayOn (RFilter r) (Weekday t0)) eqn:E1,
    (DayOn (RFilter r) (Weekday t0 - 1)) eqn:E2; cbn [andb negb];
    destruct (RStart r =? REnd r) eqn:E3; bprop;
    try (apply Hrun; [done|by apply Htoday]);
    destruct (RStart r <? REnd r) eqn:E4; bprop; try lia;
    try (destruct (inst t0 <? mid o D + REnd r) eqn:E5; bprop);
    first
    [ apply Hnext; intros j Hj Hj2; specialize (Hnot j Hj2); specialize (Hnot' j Hj2);
      try specialize (Hnot eq_refl); try specialize (Hnot' eq_refl); slot_lia
    | exists D, D; split; [done|]; apply found_one; [by apply Htoday|slot_lia|];
      intros j Hj Hj2; specialize (Hnot' j Hj2);
      try specialize (Hnot' eq_refl); slot_lia
    | exists (D - 1), (D - 1); split; [done|]; apply found_one; [by apply Hyest|slot_lia|];
      intros j Hj Hj2; slot_lia ].
Qed.

(** The end computed from a found shift is the end of its run of days. *)
Lemma EndTime_found t i d x :
  StartTime r t = mkTime (slot_start o r d) l -> found i d x -> AlwaysActive r = false ->
  slot_start o r d <> zero_inst ->
  exists y, EndTime r t = mkTime (slot_end o r y) l /\ found i d y /\
    (RStart r = REnd r -> ~ day_on (RFilter r) (y + 1)).
Proof using Hl Hr.
  intros ES F Hal Hz. pose proof F as (Hdx & Heq & Hon & Hi & Hj).
  pose proof Hr as (Hf & Hs & He & _). unfold EndTime. rewrite ES. unfold IsZero. cbn [inst].
  rewrite (proj2 (Z.eqb_neq _ _)) by done.
  assert (local_day (mkTime (slot_start o r d) l) = d) as ED by by apply local_day_mid.
  destruct (RStart r <? REnd r) eqn:E1; [|destruct (REnd r <? RStart r) eqn:E2]; bprop.
  - assert (x = d) as -> by (destruct (decide (d < x)) as [H|]; [specialize (Heq H)|]; lia).
    exists d. split; [|split; [done|lia]].
    rewrite (Last_mid l o Hl _ _ d) by done. f_equal. slot_lia.
  - assert (x = d) as -> by (destruct (decide (d < x)) as [H|]; [specialize (Heq H)|]; lia).
    exists d. split; [|split; [done|lia]].
    rewrite (AddDate_days_fixed l o Hl) by done. cbn [inst].
    replace (slot_start o r d + 1 * Day) with (mid o (d + 1) + RStart r) by slot_lia.
    rewrite (Last_mid l o Hl _ _ (d + 1)) by (done || by apply local_day_mid).
    f_equal. slot_lia.
  - assert (IsAlways (RFilter r) = false) as Hna.
    { unfold AlwaysActive in Hal. replace (RStart r =? REnd r) with true in Hal
        by (symmetry; apply Z.eqb_eq; lia). by rewrite andb_true_r in Hal. }
    destruct (NextInactive_mid l o Hl (RFilter r) (mkTime (slot_start o r d) l) Hf eq_refl Hna)
      as (k & Hk & EN & Hoff & Hbefore). rewrite ED in *.
    assert (x < d + k) as Hxk.
    { destruct (decide (x < d + k)); [done|]. destruct Hoff. apply Hon. lia. }
    exists (d + k - 1). split; [|split].
    + rewrite EN, (Last_mid l o Hl _ _ (d + k)) by (done || by apply local_day_midnight).
      f_equal. slot_lia.
    + pose proof (slot_mono x (d + k - 1) ltac:(lia)). split_and!; [lia|lia| |lia|done].
      intros j Hj'. destruct (decide (j = d)) as [->|]; [apply Hon; lia|apply Hbefore; lia].
    + intros _. by replace (d + k - 1 + 1) with (d + k) by lia.
Qed.

Lemma slot_minutes (Ho : o mod 60 = 0) d :
  slot_start o r d mod Minute = 0 /\ slot_end o r d mod Minute = 0.
Proof using Hr.
  destruct Hr as (_ & _ & _ & Hs & He). unfold slot_start, slot_end.
  unfold_units. destruct (RStart r <? REnd r); dlia.
Qed.

(** Whether a rule is active does not change within a minute. *)
Lemma active_minute (Ho : o mod 60 = 0) i : active_at o r i <-> active_at o r (i - i mod Minute).
Proof using Hr.
  unfold active_at. split; intros (d & Hon & Hi); exists d; (split; [done|]);
    pose proof (slot_minutes Ho d); unfold_units; dlia.
Qed.

Lemma never_active i : NeverActive r = true -> ~ active_at o r i.
Proof.
  intros H (d & Hon & _). apply feq_true in H. unfold day_on in Hon. rewrite H in Hon.
  assert (0 <= (d + 4) mod 7 < 7) as Hd by dlia.
  assert (forall k, 0 <= k < 7 -> at_ neverDays k = 0) as H0.
  { intros k Hk. apply weekdays_complete in Hk.
    simpl in Hk. by repeat destruct Hk as [<-|Hk]. }
  rewrite H0 in Hon; lia.
Qed.

Lemma always_active i : AlwaysActive r = true -> active_at o r i.
Proof.
  intros H. unfold AlwaysActive in H. bprop. apply feq_true in H.
  exists ((i - slot_start o r 0) / Day). split.
  - unfold day_on. rewrite H.
    assert (forall k, 0 <= k < 7 -> at_ everyDay k = 1) as H1.
    { intros k Hk. apply weekdays_complete in Hk.
      simpl in Hk. by repeat destruct Hk as [<-|Hk]. }
    apply H1. dlia.
  - set (q := (i - slot_start o r 0) / Day).
    pose proof (Z.div_mod (i - slot_start o r 0) Day ltac:(done)) as DM.
    pose proof (Z.mod_pos_bound (i - slot_start o r 0) Day ltac:(done)). fold q in DM.
    clearbody q. slot_lia.
Qed.

(** ** From one time the rule is active to the next *)

(** Without a rule that is always active, a run has at most six days, so the
    start found is not long before the time of the query. *)
Lemma found_near i d x : AlwaysActive r = false -> found i d x -> i - 9 * Day < slot_start o r d.
Proof using Hr.
  intros Hal (Hdx & Heq & Hon & Hi & _).
  assert (x < d + 7) as Hx.
  { destruct (decide (x < d + 7)) as [|Hge]; [done|exfalso].
    assert (IsAlways (RFilter r) = true) as HA.
    { unfold IsAlways. apply feq_true, all_days_on; [apply Hr|]. intros j Hj.
      assert (day_on (RFilter r) (d + (j - (d + 4)) mod 7)) as Hd by (apply Hon; dlia).
      unfold day_on in Hd. replace ((d + (j - (d + 4)) mod 7 + 4) mod 7) with j in Hd by dlia. lia. }
    unfold AlwaysActive in Hal. rewrite HA, (Heq ltac:(lia)), Z.eqb_refl in Hal. done. }
  destruct Hr as (_ & Hs & He & _). slot_lia.
Qed.

(** From the start of an enabled day's shift: [EndTime] is the end of a time the
    rule is active, and the next [StartTime] is at least a day after. *)
Lemma rule_iter d :
  NeverActive r = false -> AlwaysActive r = false -> o mod 60 = 0 ->
  day_on (RFilter r) d -> zero_inst + 9 * Day < slot_start o r d ->
  exists y d' x',
    EndTime r (mkTime (slot_start o r d) l) = mkTime (slot_end o r y) l /\ d <= y /\
    (forall i, slot_start o r d <= i < slot_end o r y -> active_at o r i) /\
    StartTime r (mkTime (slot_end o r y) l) = mkTime (slot_start o r d') l /\ y < d' /\
    found (slot_end o r y) d' x' /\ day_on (RFilter r) d'.
Proof using Hl Hr.
  intros Hnv Hal Ho Hd Hz. set (t := mkTime (slot_start o r d) l).
  destruct (StartTime_found t eq_refl Hnv Hal) as (d1 & x1 & ES & F1).
  pose proof (found_near _ _ _ Hal F1) as Hnear.
  assert (inst (Truncate t Minute) = slot_start o r d) as ET.
  { rewrite Truncate_minute_mod. cbn [t inst]. destruct (slot_minutes Ho d) as [-> _]. lia. }
  rewrite ET in *.
  destruct (EndTime_found t _ d1 x1 ES F1 Hal ltac:(lia)) as (y & EE & Fy & Hoff).
  pose proof Fy as (Hd1y & Heq & Hon & Hlt & Hmin).
  assert (d <= y) as Hdy.
  { destruct (decide (d <= y)); [done|]. pose proof (slots_ordered y d ltac:(lia)). lia. }
  destruct (StartTime_found (mkTime (slot_end o r y) l) eq_refl Hnv Hal) as (d' & x' & ES' & F').
  rewrite Truncate_minute_mod in F'. cbn [inst] in F'.
  destruct (slot_minutes Ho y) as [_ EM]. rewrite EM, Z.sub_0_r in F'.
  pose proof F' as (Hdx' & Heq' & Hon' & Hlt' & _).
  assert (y < x') as Hyx.
  { destruct (decide (y < x')); [done|]. pose proof (slot_mono x' y ltac:(lia)). lia. }
  exists y, d', x'. split; [exact EE|]. split; [done|]. split; [|split; [exact ES'|]].
  - intros i Hi. apply (found_active _ d1 y Fy). pose proof (slot_mono d1 d (Hmin d Hd ltac:(
      pose proof (slot_nonempty d); lia))). lia.
  - split; [|split; [done|apply Hon'; lia]].
    destruct (decide (y < d')); [done|exfalso]. specialize (Heq' ltac:(lia)).
    apply (Hoff Heq'), Hon'. lia.
Qed.
End rule.

(** ** What a rule promises *)

Lemma IsActive_spec l o r t (Hl : fixed_at l o) (Ho : o mod 60 = 0) (Hr : wf_rule r)
  (Hz : zone t = l) : IsActive r t = true <-> active_at o r (inst t).
Proof.
  unfold IsActive.
  destruct (NeverActive r) eqn:EN; [split; [done|intros H; by destruct (never_active o r _ EN H)]|].
  destruct (AlwaysActive r) eqn:EA; [split; [by intros; apply always_active|done]|].
  destruct (StartTime_found l o Hl r Hr t Hz EN EA) as (d & x & -> & F).
  rewrite Truncate_minute_mod in F. unfold After. cbn [inst].
  rewrite negb_true_iff, Z.ltb_ge. split.
  - intros Hs. apply (found_active o r Hr _ d x F). split; [done|].
    destruct F as (_ & _ & _ & Hlt & _). pose proof (slot_minutes o r Hr Ho x).
    unfold_units. dlia.
  - intros Ha. apply (active_minute o r Hr Ho) in Ha.
    pose proof (found_start o r _ d x F _ ltac:(reflexivity) Ha).
    pose proof (Z.mod_pos_bound (inst t) Minute ltac:(done)). lia.
Qed.


(** Friday to Saturday night, 22:00 to 06:00, five hours west of Greenwich. *)
Definition night_rule : Rule :=
  mkRule "" "" [0; 0; 0; 0; 0; 1; 1] (NewClock 22 0) (NewClock 6 0) (UserTarget "u").
Definition est : Location := fixed_zone (-18000).

Lemma night_rule_wf : wf_rule night_rule.
Proof. repeat split; try done. repeat constructor; lia. Qed.


(** For a rule that is neither always nor never active, [StartTime] and
    [EndTime] name the current or next time the rule is active: the rule is
    active throughout [StartTime, EndTime), which ends after [t], is not active
    between [t] and [StartTime], and is not active at [EndTime]. *)
Theorem StartTime_EndTime_bracket l o r t (Hl : fixed_at l o) (Ho : o mod 60 = 0)
  (Hr : wf_rule r) (Hz : zone t = l) (Hn : NeverActive r = false) (Ha : AlwaysActive r = false)
  (Hyear1 : IsZero (StartTime r t) = false) :
  let s := inst (StartTime r t) in
  let e := inst (EndTime r t) in
  s < e /\ inst t < e /\ (forall i, s <= i < e -> active_at o r i) /\
  (forall i, inst t <= i < s -> ~ active_at o r i) /\ ~ active_at o r e.
Proof.
  destruct (StartTime_found l o Hl r Hr t Hz Hn Ha) as (d & x & ES & F).
  unfold IsZero in Hyear1. rewrite ES in Hyear1. bprop.
  destruct (EndTime_found l o Hl r Hr t _ d x ES F Ha Hyear1) as (y & EE & Fy & Hoff).
  cbv zeta. rewrite ES, EE. cbn [inst].
  rewrite Truncate_minute_mod in Fy.
  pose proof (Z.mod_pos_bound (inst t) Minute ltac:(done)) as Hm.
  pose proof (slot_minutes o r Hr Ho y) as Hal.
  pose proof Fy as (Hdy & Heq & _ & Hlt & _). split_and!.
  - pose proof (slot_nonempty o r Hr y). pose proof (slot_mono o r d y Hdy). lia.
  - unfold_units. dlia.
  - exact (found_active o r Hr _ d y Fy).
  - intros i Hi Hact. pose proof (found_start o r _ d y Fy i ltac:(lia) Hact). lia.
  - intros (j & Hon & Hj).
    assert (y < j) as Hyj.
    { destruct (decide (y < j)); [done|]. pose proof (slot_mono o r j y ltac:(lia)). lia. }
    destruct (decide (j = y + 1)) as [->|].
    + assert (RStart r = REnd r) as EQ; [|by apply (Hoff EQ)].
      destruct Hr as (_ & Hs & He & _). unfold slot_start, slot_end in Hj.
      unfold_units. destruct (RStart r <? REnd r) eqn:E; bprop; lia.
    + pose proof (slots_ordered o r Hr y (y + 1) ltac:(lia)).
      pose proof (slots_ordered o r Hr (y + 1) j ltac:(lia)).
      pose proof (slot_nonempty o r Hr (y + 1)). lia.
Qed.

Lemma StartTime_EndTime_bracket_witness :
  inst (StartTime night_rule (mkTime (1699165800 * Second) est)) = 1699153200 * Second /\
  inst (EndTime night_rule (mkTime (1699165800 * Second) est)) = 1699182000 * Second /\
  ~ active_at (-18000) night_rule (1699182000 * Second).
Proof.
  assert (inst (EndTime night_rule (mkTime (1699165800 * Second) est)) = 1699182000 * Second)
    as E by (vm_compute; reflexivity).
  split; [vm_compute; reflexivity|]. split; [exact E|].
  pose proof (StartTime_EndTime_bracket est (-18000) night_rule
    (mkTime (1699165800 * Second) est) (fixed_zone_at _) eq_refl night_rule_wf eq_refl
    ltac:(reflexivity) ltac:(reflexivity) ltac:(vm_compute; reflexivity)) as H.
  cbv zeta in H. rewrite E in H. exact (proj2 (proj2 (proj2 (proj2 H)))).
Defined.

(** ** Rows *)

(** A rule that targets a user or a rotation is read back from the row it was
    written to; any other target makes a row that the reader rejects. *)
Lemma row_roundtrip r :
  scanFrom (readFields r) =
  match TType (RTarget r) with
  | TargetTypeUser | TargetTypeRotation => Some r
  | _ => None
  end.
Proof.
  unfold readFields. destruct r as [id sid f s e [ty tid]]. destruct ty; reflexivity.
Qed.

(** [Normalize] leaves whole minutes and is idempotent. *)
Lemma Normalize_minutes valid r r' :
  Normalize valid r = Some r' ->
  RStart r' `rem` Minute = 0 /\ REnd r' `rem` Minute = 0 /\ Normalize valid r' = Some r'.
Proof.
  unfold Normalize. destruct (valid (ScheduleID r)) eqn:E; [|done]. intros [= <-].
  cbn [RStart REnd ScheduleID ID RFilter RTarget]. rewrite E. unfold dTruncate.
  change (Minute <=? 0) with false. cbv iota.
  assert (forall z, (z - z `rem` Minute) `rem` Minute = 0) as H by (intros; unfold_units; dlia).
  rewrite !H, !Z.sub_0_r. done.
Qed.

(** A 24-hour rule on Monday and Tuesday, 08:00 to 08:00: on Tuesday the rule
    became active on Monday, but early on Wednesday [StartTime] says Tuesday. *)
Lemma StartTime_of_a_run_on_its_last_morning :
  let r := mkRule "" "" [0; 1; 1; 0; 0; 0; 0] (NewClock 8 0) (NewClock 8 0) (UserTarget "u") in
  let at_day d h := mkTime ((1699228800 + d * 86400 + h * 3600) * Second) UTC in
  inst (StartTime r (at_day 1 9)) = inst (at_day 0 8) /\
  inst (StartTime r (at_day 2 3)) = inst (at_day 1 8) /\
  IsActive r (at_day 2 3) = true.
Proof. vm_compute. done. Qed.
