(* ===== verification/TempSchedule.v ===== *)
(** * Temporary schedules: [schedule/temporaryschedule.go], [schedule/fixedshift.go],
      [schedule/validate.go], [schedule/data.go], [schedule/storetemporaryschedules.go]

    A schedule holds a list of temporary schedules, time spans with fixed
    shifts.  Setting one replaces whatever the list says about its span; the
    list stays sorted, without overlap, every shift inside its span.  What the
    list means is given by [covers] (a temporary schedule is in force) and
    [on_call] (a user has a shift), functions of the instant only.

    The slices the Go code filters and merges in place are written at or behind
    the position being read and are not shared between temporary schedules, so
    lists by value describe them. *)

From S2P Require Import Prelude GoTime.

Record FixedShift := mkShift { fsStart : Time; fsEnd : Time; fsUser : string }.

Record TemporarySchedule := mkTemp {
  tsStart : Time;
  tsEnd : Time;
  tsShifts : list FixedShift
}.

Definition zeroTemp : TemporarySchedule := mkTemp zeroTime zeroTime [].

Definition maxTime (a b : Time) : Time := if After a b then a else b.

(** ** Trimming *)

Definition TrimEnd (temp : TemporarySchedule) (t : Time) : TemporarySchedule :=
  if negb (Before (tsStart temp) t) then zeroTemp
  else if negb (After (tsEnd temp) t) then temp
  else
    mkTemp (tsStart temp) t
      (map (fun shift => if After (fsEnd shift) t
                         then mkShift (fsStart shift) t (fsUser shift) else shift)
        (List.filter (fun shift => Before (fsStart shift) t) (tsShifts temp))).

Definition TrimStart (temp : TemporarySchedule) (t : Time) : TemporarySchedule :=
  if negb (Before (tsStart temp) t) then temp
  else if negb (After (tsEnd temp) t) then zeroTemp
  else
    mkTemp t (tsEnd temp)
      (map (fun shift => if Before (fsStart shift) t
                         then mkShift t (fsEnd shift) (fsUser shift) else shift)
        (List.filter (fun shift => After (fsEnd shift) t) (tsShifts temp))).

(** [deleteFixedShifts] *)
Definition deleteFixedShifts (tempScheds : list TemporarySchedule) (start end_ : Time)
  : list TemporarySchedule :=
  if negb (After end_ start) then tempScheds
  else
    concat (map (fun temp =>
      let before := TrimEnd temp start in
      let after := TrimStart temp end_ in
      (if negb (IsZero (tsStart before)) then [before] else []) ++
      (if negb (IsZero (tsStart after)) then [after] else [])) tempScheds).

(** ** Merging shifts *)

Definition clamp1 (start end_ : Time) (s : FixedShift) : FixedShift :=
  let s := if Before (fsStart s) start then mkShift start (fsEnd s) (fsUser s) else s in
  if After (fsEnd s) end_ then mkShift (fsStart s) end_ (fsUser s) else s.

Definition clampShiftTimes (start end_ : Time) (shifts : list FixedShift) : list FixedShift :=
  List.filter (fun s => After (fsEnd s) (fsStart s)) (map (clamp1 start end_) shifts).

(** The loop of [mergeShiftsByTime]; [cur] is [result[l]].  The lower-casing of
    [s.UserID] before the merge has no effect: only [s.End] is used after it. *)
Fixpoint merge_shift_loop (cur : FixedShift) (shifts : list FixedShift) : list FixedShift :=
  match shifts with
  | [] => [cur]
  | s :: rest =>
      if negb (After (fsEnd s) (fsStart s)) then merge_shift_loop cur rest
      else if After (fsStart s) (fsEnd cur) then cur :: merge_shift_loop s rest
      else merge_shift_loop (mkShift (fsStart cur) (maxTime (fsEnd cur) (fsEnd s)) (fsUser cur)) rest
  end.

Definition shift_by_start (a b : FixedShift) : bool := Before (fsStart a) (fsStart b).

Definition shift_by_start_user (a b : FixedShift) : bool :=
  if negb (EqualT (fsStart a) (fsStart b)) then Before (fsStart a) (fsStart b)
  else String.ltb (fsUser a) (fsUser b).

Definition temp_by_start (a b : TemporarySchedule) : bool := Before (tsStart a) (tsStart b).

Definition group_by_user (shifts : list FixedShift) : gmap string (list FixedShift) :=
  fold_left (fun m s => <[fsUser s := default [] (m !! fsUser s) ++ [s]]> m) shifts ∅.

Section merge.
Context `{GoSort} `{GoMapRange}.

Definition mergeShiftsByTime (shifts : list FixedShift) : list FixedShift :=
  match sort_slice shift_by_start shifts with
  | [] => []
  | s :: rest => merge_shift_loop s rest
  end.

Definition mergeShifts (shifts : list FixedShift) : list FixedShift :=
  sort_slice shift_by_start_user
    (concat (map (fun e => mergeShiftsByTime e.2) (map_range (group_by_user shifts)))).

(** ** Merging temporary schedules *)

Fixpoint merge_temp_loop (cur : TemporarySchedule) (rest : list TemporarySchedule)
  : list TemporarySchedule :=
  match rest with
  | [] => [cur]
  | g :: rest =>
      if After (tsStart g) (tsEnd cur) then cur :: merge_temp_loop g rest
      else merge_temp_loop (mkTemp (tsStart cur) (maxTime (tsEnd cur) (tsEnd g))
                              (tsShifts cur ++ tsShifts g)) rest
  end.

Definition merge_content (g : TemporarySchedule) : TemporarySchedule :=
  mkTemp (tsStart g) (tsEnd g)
    (mergeShifts (clampShiftTimes (tsStart g) (tsEnd g) (tsShifts g))).

Definition MergeTemporarySchedules (tempScheds : list TemporarySchedule)
  : list TemporarySchedule :=
  match sort_slice temp_by_start tempScheds with
  | [] => []
  | g :: rest => map merge_content (merge_temp_loop g rest)
  end.

Definition setFixedShifts (tempScheds : list TemporarySchedule) (newSched : TemporarySchedule)
  : list TemporarySchedule :=
  MergeTemporarySchedules
    (deleteFixedShifts tempScheds (tsStart newSched) (tsEnd newSched) ++ [newSched]).
End merge.

(** ** Validation *)

Definition FixedShiftsPerTemporaryScheduleLimit : nat := 150.

Definition validateTimeRange (start end_ : Time) : bool := After end_ start.

Definition validateWithinTimeRange (tStart tEnd start end_ : Time) : bool :=
  if Before tStart start then false
  else if negb (Before tStart end_) then false
  else if negb (After tEnd start) then false
  else if After tEnd end_ then false else true.

(** [time.Until(t) > 5*time.Minute], the clock reading [now]. *)
Definition validateFuture (now t : Time) : bool := 5 * Minute <? Sub t now.

Section validation.
(** [validate.UUID]; the existence check is skipped when it is nil. *)
Variable validUUID : string -> bool.
Variable checkUser : option (string -> bool).

Definition validateShifts (temp : TemporarySchedule) : bool :=
  if bool_decide (FixedShiftsPerTemporaryScheduleLimit < length (tsShifts temp))%nat then false
  else forallb (fun s =>
         validUUID (fsUser s) && validateTimeRange (fsStart s) (fsEnd s) &&
         validateWithinTimeRange (fsStart s) (fsEnd s) (tsStart temp) (tsEnd temp) &&
         match checkUser with Some exists_ => exists_ (fsUser s) | None => true end)
       (tsShifts temp).

(** [Normalize] reads the clock twice, at [now] and, for the check of the end,
    at [now']. *)
Definition Normalize (now now' : Time) (temp : TemporarySchedule) : option TemporarySchedule :=
  let temp := mkTemp (Truncate (tsStart temp) Minute) (tsEnd temp) (tsShifts temp) in
  let now := Truncate now Minute in
  let temp := if Before (tsStart temp) now then TrimStart temp now else temp in
  let temp := mkTemp (tsStart temp) (Truncate (tsEnd temp) Minute)
    (map (fun s => mkShift (Truncate (fsStart s) Minute) (Truncate (fsEnd s) Minute) (fsUser s))
      (tsShifts temp)) in
  if validateFuture now' (tsEnd temp) && validateTimeRange (tsStart temp) (tsEnd temp)
     && validateShifts temp
  then Some temp else None.
End validation.

(** ** The store's operations on a schedule's list

    [Normalize], the checks and the update [updateScheduleData] applies to the
    list it loaded; [None] is an error, after which nothing is stored.
    [permitted] is the permission check, [users_ok] the check that the users
    belong to the schedule's organization; both ask the database. *)
Section store.
Context `{GoSort} `{GoMapRange}.
Variable validUUID : string -> bool.
Variable checkUser : option (string -> bool).
Variable permitted : bool.
Variable users_ok : TemporarySchedule -> bool.

Definition SetTemporarySchedule (now now' : Time) (temp : TemporarySchedule)
  (tempScheds : list TemporarySchedule) : option (list TemporarySchedule) :=
  if negb permitted then None
  else
    newTemp ← Normalize validUUID checkUser now now' temp;
    if negb (users_ok newTemp) then None
    else Some (setFixedShifts tempScheds newTemp).

Definition SetClearTemporarySchedule (now now' now'' : Time) (temp : TemporarySchedule)
  (clearStart clearEnd : Time) (tempScheds : list TemporarySchedule)
  : option (list TemporarySchedule) :=
  if negb permitted then None
  else
    newTemp ← Normalize validUUID checkUser now now' temp;
    if negb (validateTimeRange clearStart clearEnd) then None
    else
      let clearStart := if Before clearStart now'' then now'' else clearStart in
      if negb (users_ok newTemp) then None
      else Some (setFixedShifts (deleteFixedShifts tempScheds clearStart clearEnd) newTemp).

Definition ClearTemporarySchedules (now now' now'' : Time) (start end_ : Time)
  (tempScheds : list TemporarySchedule) : option (list TemporarySchedule) :=
  if negb permitted then None
  else if negb (validateFuture now end_ && validateTimeRange start end_) then None
  else
    let start := if 0 <? Sub now' start then now'' else start in
    Some (deleteFixedShifts tempScheds start end_).
End store.

(** ** Reading *)

Section read.
Context `{GoSort} `{GoMapRange}.

(** [Store.TemporarySchedules], from the stored list. *)
Definition TemporarySchedules (userExists : string -> bool)
  (stored : list TemporarySchedule) : list TemporarySchedule :=
  MergeTemporarySchedules
    (map (fun tmp => mkTemp (tsStart tmp) (tsEnd tmp)
            (List.filter (fun shift => userExists (fsUser shift)) (tsShifts tmp))) stored).
End read.

(** [uuid.Parse] is the parameter [parse]. *)
Fixpoint TempOnCall {U} (parse : string -> option U) (t : Time)
  (temps : list TemporarySchedule) : bool * list U :=
  match temps with
  | [] => (false, [])
  | temp :: rest =>
      if Before t (tsStart temp) || negb (Before t (tsEnd temp)) then TempOnCall parse t rest
      else
        (true, omap (fun shift =>
           if Before t (fsStart shift) || negb (Before t (fsEnd shift)) then None
           else parse (fsUser shift)) (tsShifts temp))
  end.

(** ** Meaning *)

Definition in_shift (s : FixedShift) (i : Z) : Prop := inst (fsStart s) <= i < inst (fsEnd s).
Definition in_temp (T : TemporarySchedule) (i : Z) : Prop := inst (tsStart T) <= i < inst (tsEnd T).

(** User [u] has a shift at [i]. *)
Definition on_shift (l : list FixedShift) (u : string) (i : Z) : Prop :=
  ex_in (fun s => fsUser s = u /\ in_shift s i) l.

Definition covers (l : list TemporarySchedule) (i : Z) : Prop := ex_in (fun T => in_temp T i) l.

Definition on_call (l : list TemporarySchedule) (u : string) (i : Z) : Prop :=
  ex_in (fun T => in_temp T i /\ on_shift (tsShifts T) u i) l.

(** ** The invariant *)

Definition wf_shift (a b : Z) (s : FixedShift) : Prop :=
  a <= inst (fsStart s) /\ inst (fsStart s) < inst (fsEnd s) /\ inst (fsEnd s) <= b.

Definition wf_temp (T : TemporarySchedule) : Prop :=
  zero_inst < inst (tsStart T) /\ inst (tsStart T) < inst (tsEnd T) /\
  Forall (wf_shift (inst (tsStart T)) (inst (tsEnd T))) (tsShifts T).

(** In order, and a gap between any two. *)
Definition separated (l : list TemporarySchedule) : Prop :=
  StronglySorted (fun a b => inst (tsEnd a) < inst (tsStart b)) l.

Definition wf_list (l : list TemporarySchedule) : Prop := Forall wf_temp l /\ separated l.

(** Two shifts of one user do not touch. *)
Definition apart (a b : FixedShift) : Prop :=
  fsUser a = fsUser b -> inst (fsEnd a) < inst (fsStart b) \/ inst (fsEnd b) < inst (fsStart a).

Lemma maxTime_inst a b : inst (maxTime a b) = Z.max (inst a) (inst b).
Proof. unfold maxTime, After. blia. Qed.

Lemma strict_weak_temp : strict_weak temp_by_start.
Proof. apply (strict_weak_key (fun T => inst (tsStart T))). Qed.

Lemma strict_weak_shift : strict_weak shift_by_start.
Proof. apply (strict_weak_key (fun T => inst (fsStart T))). Qed.

(** ** Trimming keeps the invariant and cuts the meaning *)

Ltac unfold_cmp := unfold After, Before, EqualT, IsZero in *; cbn [inst tsStart tsEnd tsShifts] in *.

Lemma TrimEnd_spec T t :
  wf_temp T -> inst (tsStart T) < inst t ->
  wf_temp (TrimEnd T t) /\ tsStart (TrimEnd T t) = tsStart T /\
  inst (tsEnd (TrimEnd T t)) = Z.min (inst (tsEnd T)) (inst t) /\
  (forall u i, in_temp (TrimEnd T t) i /\ on_shift (tsShifts (TrimEnd T t)) u i <->
     in_temp T i /\ i < inst t /\ on_shift (tsShifts T) u i).
Proof.
  intros (H0 & Hse & Hf) Ht. unfold TrimEnd. unfold_cmp.
  rewrite (proj2 (Z.ltb_lt _ _)) by done. cbn [negb].
  destruct (inst t <? inst (tsEnd T)) eqn:E; bprop; cbn [negb].
  2:{ split; [done|]. split; [done|]. split; [lia|]. unfold in_temp. intuition lia. }
  split; [split; [done|split; [done|]]|split; [done|split; [simpl; lia|]]].
  - apply Forall_map. eapply Forall_impl; [by apply Forall_filter|].
    intros s (Hb & H1 & H2 & H3). bprop. unfold wf_shift. bcase; simpl; lia.
  - intros u i. unfold in_temp. cbn [tsShifts tsStart tsEnd].
    match goal with |- context [on_shift (map ?f (List.filter ?g _))] =>
      assert (inst (tsStart T) <= i < inst (tsEnd T) -> i < inst t ->
        on_shift (map f (List.filter g (tsShifts T))) u i <-> on_shift (tsShifts T) u i) as HS
    end.
    { intros. unfold on_shift. rewrite ex_in_map, ex_in_filter. apply ex_in_iff. intros s _.
      unfold in_shift. rewrite Z.ltb_lt. bcase; simpl; intuition lia. }
    split; intros Hx; (split; [lia|]); try (split; [lia|]); apply HS; try lia; apply Hx.
Qed.

Lemma TrimStart_spec T t :
  wf_temp T -> inst t < inst (tsEnd T) ->
  wf_temp (TrimStart T t) /\ tsEnd (TrimStart T t) = tsEnd T /\
  inst (tsStart (TrimStart T t)) = Z.max (inst (tsStart T)) (inst t) /\
  (forall u i, in_temp (TrimStart T t) i /\ on_shift (tsShifts (TrimStart T t)) u i <->
     in_temp T i /\ inst t <= i /\ on_shift (tsShifts T) u i).
Proof.
  intros (H0 & Hse & Hf) Ht. unfold TrimStart. unfold_cmp.
  destruct (inst (tsStart T) <? inst t) eqn:E; bprop; cbn [negb].
  2:{ split; [done|]. split; [done|]. split; [lia|]. unfold in_temp. intuition lia. }
  rewrite (proj2 (Z.ltb_lt _ _)) by done. cbn [negb].
  split; [split; [simpl; lia|split; [done|]]|split; [done|split; [simpl; lia|]]].
  - apply Forall_map. eapply Forall_impl; [by apply Forall_filter|].
    intros s (Hb & H1 & H2 & H3). bprop. unfold wf_shift. bcase; simpl; lia.
  - intros u i. unfold in_temp. cbn [tsShifts tsStart tsEnd].
    match goal with |- context [on_shift (map ?f (List.filter ?g _))] =>
      assert (inst (tsStart T) <= i < inst (tsEnd T) -> inst t <= i ->
        on_shift (map f (List.filter g (tsShifts T))) u i <-> on_shift (tsShifts T) u i) as HS
    end.
    { intros. unfold on_shift. rewrite ex_in_map, ex_in_filter. apply ex_in_iff. intros s _.
      unfold in_shift. rewrite Z.ltb_lt. bcase; simpl; intuition lia. }
    split; intros Hx; (split; [lia|]); try (split; [lia|]); apply HS; try lia; apply Hx.
Qed.

(** The pieces left of one temporary schedule. *)
Definition pieces (start end_ : Time) (temp : TemporarySchedule) : list TemporarySchedule :=
  (if negb (IsZero (tsStart (TrimEnd temp start))) then [TrimEnd temp start] else []) ++
  (if negb (IsZero (tsStart (TrimStart temp end_))) then [TrimStart temp end_] else []).

Lemma pieces_eq start end_ T :
  wf_temp T -> inst start < inst end_ ->
  pieces start end_ T =
    (if inst (tsStart T) <? inst start then [TrimEnd T start] else []) ++
    (if inst end_ <? inst (tsEnd T) then [TrimStart T end_] else []).
Proof.
  intros HT Hse. pose proof HT as (H0 & Hlt & _). unfold pieces. f_equal.
  - destruct (inst (tsStart T) <? inst start) eqn:E; bprop.
    + destruct (TrimEnd_spec T start HT E) as (_ & -> & _). unfold_cmp.
      by rewrite (proj2 (Z.eqb_neq _ _)) by lia.
    + unfold TrimEnd. unfold_cmp. by rewrite (proj2 (Z.ltb_ge _ _)) by done.
  - destruct (inst end_ <? inst (tsEnd T)) eqn:E; bprop.
    + unfold TrimStart. unfold_cmp. rewrite (proj2 (Z.ltb_lt (inst end_) (inst (tsEnd T)))) by done.
      cbn [negb]. destruct (inst (tsStart T) <? inst end_) eqn:E2; bprop; simpl;
        by rewrite (proj2 (Z.eqb_neq _ _)) by lia.
    + unfold TrimStart. unfold_cmp. rewrite (proj2 (Z.ltb_ge (inst end_) (inst (tsEnd T)))) by done.
      destruct (inst (tsStart T) <? inst end_) eqn:E2; bprop; simpl; [done|lia].
Qed.

Ltac lists := unfold separated;
  repeat first [apply SSorted_nil|apply SSorted_cons|apply Forall_cons_2|apply Forall_nil_2];
  cbv beta.

Lemma pieces_spec start end_ T :
  wf_temp T -> inst start < inst end_ ->
  wf_list (pieces start end_ T) /\
  Forall (fun P => inst (tsStart T) <= inst (tsStart P) /\ inst (tsEnd P) <= inst (tsEnd T))
    (pieces start end_ T) /\
  (forall i, covers (pieces start end_ T) i <-> in_temp T i /\ ~ inst start <= i < inst end_) /\
  (forall u i, on_call (pieces start end_ T) u i <->
     in_temp T i /\ on_shift (tsShifts T) u i /\ ~ inst start <= i < inst end_).
Proof.
  intros HT Hse. rewrite pieces_eq by done. pose proof HT as (H0 & Hlt & _).
  destruct (inst (tsStart T) <? inst start) eqn:E1;
    destruct (inst end_ <? inst (tsEnd T)) eqn:E2; bprop; cbn [app];
      try (destruct (TrimEnd_spec T start HT E1) as (W1 & S1 & N1 & M1));
    try (destruct (TrimStart_spec T end_ HT E2) as (W2 & N2 & S2 & M2)).
  all: split; [split; lists; (assumption || (rewrite ?N1, ?S2; lia))|].
  all: split; [lists; rewrite ?S1, ?N1, ?N2, ?S2; lia|].
  all: unfold covers, on_call.
  all: split; [intros i; unfold in_temp|intros u i]; rewrite ?ex_in_cons, ex_in_nil;
    [rewrite ?S1, ?N1, ?N2, ?S2; lia|rewrite ?M1, ?M2; unfold in_temp;
       destruct (Z.lt_ge_cases i (inst start)), (Z.lt_ge_cases i (inst end_)); intuition lia].
Qed.

Lemma deleteFixedShifts_spec l start end_ :
  wf_list l -> inst start < inst end_ ->
  wf_list (deleteFixedShifts l start end_) /\
  (forall i, covers (deleteFixedShifts l start end_) i <->
     covers l i /\ ~ inst start <= i < inst end_) /\
  (forall u i, on_call (deleteFixedShifts l start end_) u i <->
     on_call l u i /\ ~ inst start <= i < inst end_).
Proof.
  intros [HW HS] Hse. unfold deleteFixedShifts. unfold_cmp.
  rewrite (proj2 (Z.ltb_lt _ _)) by done. cbn [negb].
  change (concat (map _ l)) with (concat (map (pieces start end_) l)).
  assert (forall T, T ∈ l -> wf_temp T) as HW' by by apply Forall_forall.
  split; [|split].
  - clear HW'. induction l as [|T l IH]; [split; constructor|].
    inversion HW as [|? ? HT HW1]; subst. inversion HS as [|? ? HS1 Hlt]; subst.
    destruct (IH HW1 HS1) as [IW IS].
    destruct (pieces_spec start end_ T HT Hse) as ([PW PS] & PB & _). simpl. split.
    + by apply Forall_app.
    + apply StronglySorted_app_2; [|done|done]. intros P Q HP HQ.
      rewrite Forall_forall in PB. destruct (PB P HP) as [_ PE].
      apply list_elem_of_In, in_concat in HQ as (ps & Hps & HQ).
      apply in_map_iff in Hps as (T' & <- & HT'). apply list_elem_of_In in HQ, HT'.
      rewrite Forall_forall in HW1. specialize (HW1 T' HT').
      destruct (pieces_spec start end_ T' HW1 Hse) as (_ & PB' & _).
      rewrite Forall_forall in PB', Hlt. specialize (PB' Q HQ). specialize (Hlt T' HT').
      cbv beta in *. lia.
  - intros i. unfold covers at 1. rewrite ex_in_concat, ex_in_map.
    rewrite (ex_in_iff _ (fun T => in_temp T i /\ ~ inst start <= i < inst end_)).
    + apply ex_in_and_r.
    + intros T HT. by apply pieces_spec; [apply HW'|].
  - intros u i. unfold on_call at 1. rewrite ex_in_concat, ex_in_map.
    rewrite (ex_in_iff _ (fun T => (in_temp T i /\ on_shift (tsShifts T) u i) /\
      ~ inst start <= i < inst end_)).
    + apply ex_in_and_r.
    + intros T HT. destruct (pieces_spec start end_ T (HW' T HT) Hse) as (_ & _ & _ & HO).
      specialize (HO u i). unfold on_call in HO. tauto.
Qed.

(** ** Merging shifts keeps who is on shift *)

Lemma merge_shift_loop_spec a b rest : forall cur,
  Forall (fun s => fsUser s = fsUser cur /\ inst (fsStart cur) <= inst (fsStart s)) rest ->
  StronglySorted (not_after shift_by_start) rest ->
  Forall (wf_shift a b) (cur :: rest) ->
  let out := merge_shift_loop cur rest in
  (forall u i, on_shift out u i <-> on_shift (cur :: rest) u i) /\
  Forall (fun s => fsUser s = fsUser cur /\ inst (fsStart cur) <= inst (fsStart s)) out /\
  Forall (wf_shift a b) out /\ ForallOrdPairs apart out.
Proof.
  induction rest as [|s rest IH]; intros cur Hrest Hs Hwf; cbn [merge_shift_loop].
  { split; [done|]. split; [repeat constructor; lia|]. split; [done|]. repeat constructor. }
  inversion Hrest as [|? ? [Hu Hle] Hr]; subst. inversion Hs as [|? ? Hs' Hmin]; subst.
  inversion Hwf as [|? ? Hc Hwf1]; subst. inversion Hwf1 as [|? ? Hws Hwf2]; subst.
  destruct Hws as (W1 & W2 & W3). unfold_cmp.
  rewrite (proj2 (Z.ltb_lt _ _)) by done. cbn [negb].
  assert (Forall (fun s' => inst (fsStart s) <= inst (fsStart s')) rest) as Hmin'.
  { eapply Forall_impl; [exact Hmin|]. intros s' Hs''. unfold not_after, shift_by_start in Hs''.
    unfold_cmp. by bprop. }
  destruct (inst (fsEnd cur) <? inst (fsStart s)) eqn:E; bprop.
  - destruct (IH s) as (M & F & W & P); [|done|done|].
    { apply Forall_and. split; [|done]. eapply Forall_impl; [exact Hr|]. simpl. intros ? []. congruence. }
    split; [intros u i; unfold on_shift in *; by rewrite !(ex_in_cons _ cur), M|].
    split; [|split; [by constructor|]].
    + constructor; [split; [done|lia]|]. eapply Forall_impl; [exact F|]. simpl. intros ? [].
      split; [congruence|lia].
    + constructor; [|done]. eapply Forall_impl; [exact F|]. simpl. intros x [] _. left. lia.
  - destruct Hc as (C1 & C2 & C3).
    assert (inst (fsEnd (mkShift (fsStart cur) (maxTime (fsEnd cur) (fsEnd s)) (fsUser cur)))
      = Z.max (inst (fsEnd cur)) (inst (fsEnd s))) as EM by apply maxTime_inst.
    destruct (IH (mkShift (fsStart cur) (maxTime (fsEnd cur) (fsEnd s)) (fsUser cur)))
      as (M & F & W & P); [done|done| |].
    { constructor; [|done]. unfold wf_shift. rewrite EM. simpl. lia. }
    split; [|done]. intros u i. rewrite M. unfold on_shift. rewrite !ex_in_cons.
    unfold in_shift. rewrite EM. cbn [fsStart fsUser]. rewrite Hu.
    assert (inst (fsStart cur) <= i < Z.max (inst (fsEnd cur)) (inst (fsEnd s)) <->
      inst (fsStart cur) <= i < inst (fsEnd cur) \/ inst (fsStart s) <= i < inst (fsEnd s))
      as -> by lia. tauto.
Qed.

Section merge.
Context {HG : GoSort} {HM : GoMapRange}.

Lemma mergeShiftsByTime_spec a b v l :
  Forall (fun s => fsUser s = v) l -> Forall (wf_shift a b) l ->
  let out := mergeShiftsByTime l in
  (forall u i, on_shift out u i <-> on_shift l u i) /\
  Forall (fun s => fsUser s = v) out /\ Forall (wf_shift a b) out /\ ForallOrdPairs apart out.
Proof.
  intros Hu Hw. unfold mergeShiftsByTime. pose proof (sort_slice_perm shift_by_start l) as HP.
  pose proof (sort_slice_sorted shift_by_start l strict_weak_shift) as HS.
  destruct (sort_slice shift_by_start l) as [|cur rest].
  { apply Permutation_nil in HP as ->. split; [done|]. repeat constructor. }
  rewrite <- HP in Hu, Hw. inversion Hu as [|? ? Hc Hr]; subst.
  inversion HS as [|? ? HS' Hmin]; subst.
  destruct (merge_shift_loop_spec a b rest cur) as (M & F & W & P); [|done|done|].
  { apply Forall_and. split; [done|]. eapply Forall_impl; [exact Hmin|]. intros s Hs.
    unfold not_after, shift_by_start in Hs. unfold_cmp. by bprop. }
  split; [intros u i; rewrite M; by apply ex_in_perm|]. split; [|done].
  eapply Forall_impl; [exact F|]. by intros s [].
Qed.

Lemma group_by_user_spec l :
  (forall k v, group_by_user l !! k = Some v -> Forall (fun s => fsUser s = k) v) /\
  (forall s, s ∈ l <-> exists k v, group_by_user l !! k = Some v /\ s ∈ v).
Proof.
  unfold group_by_user. induction l as [|s l [IH1 IH2]] using rev_ind; simpl.
  { split; [done|]. intros s. split; [by intros ?%elem_of_nil|by intros (? & ? & ? & ?)]. }
  rewrite fold_left_app. cbn [fold_left].
  set (m := fold_left _ l ∅) in *. clearbody m. split.
  - intros k v. rewrite lookup_insert_Some. intros [[<- <-]|[_ H]]; [|by apply IH1].
    apply Forall_app. split; [|by repeat constructor].
    destruct (m !! fsUser s) eqn:E; simpl; [by apply IH1|constructor].
  - intros s'. rewrite elem_of_app, IH2, list_elem_of_singleton. split.
    + intros [(k & v & Hk & Hs)| ->].
      * destruct (decide (k = fsUser s)) as [->|Hne].
        -- exists (fsUser s). eexists. split; [apply lookup_insert_eq|]. rewrite Hk. simpl.
           apply elem_of_app. by left.
        -- exists k, v. by rewrite lookup_insert_ne.
      * exists (fsUser s). eexists. split; [apply lookup_insert_eq|]. apply elem_of_app. right.
        by apply list_elem_of_singleton.
    + intros (k & v & Hk & Hs). apply lookup_insert_Some in Hk as [[<- <-]|[_ H]].
      * apply elem_of_app in Hs as [Hs|Hs%list_elem_of_singleton]; [|by right]. left.
        destruct (m !! fsUser s) as [v|] eqn:E; simpl in Hs; [by exists (fsUser s), v|].
        by apply elem_of_nil in Hs.
      * left. by exists k, v.
Qed.

Lemma map_range_spec {V} (m : gmap string V) :
  NoDup (map_range m).*1 /\ forall k v, (k, v) ∈ map_range m <-> m !! k = Some v.
Proof.
  split.
  - rewrite (map_range_perm m). apply NoDup_fst_map_to_list.
  - intros k v. rewrite (map_range_perm m). apply elem_of_map_to_list.
Qed.

(** Joining the merged groups: groups of different users are apart. *)
Lemma concat_apart (gs : list (string * list FixedShift)) (f : list FixedShift -> list FixedShift) :
  NoDup gs.*1 ->
  (forall k v, (k, v) ∈ gs -> Forall (fun s => fsUser s = k) (f v) /\ ForallOrdPairs apart (f v)) ->
  ForallOrdPairs apart (concat (map (fun e => f e.2) gs)).
Proof.
  induction gs as [|[k v] gs IH]; intros Hn Hf; simpl; [constructor|].
  inversion Hn as [|? ? Hk Hn']; subst.
  destruct (Hf k v) as [Hu Hp]; [by left|]. apply pairwise_app; [done| |].
  { apply IH; [done|]. intros k' v' H. apply Hf. by right. }
  eapply Forall_impl; [exact Hu|]. intros s Hs. simpl in Hs. apply Forall_concat, Forall_map.
  apply Forall_forall. intros [k' v'] H'.
  destruct (Hf k' v') as [Hu' _]; [by right|]. simpl. eapply Forall_impl; [exact Hu'|].
  intros s' Hs' Heq. destruct Hk. simpl in Hs'. apply list_elem_of_fmap. exists (k', v').
  split; [simpl; congruence|done].
Qed.

Lemma strict_weak_start_user : strict_weak shift_by_start_user.
Proof.
  unfold shift_by_start_user, Before, EqualT. split.
  - intros x y. destruct (inst (fsStart x) =? inst (fsStart y)) eqn:E; bprop; cbn [negb].
    + rewrite E, Z.eqb_refl. apply string_ltb_asym.
    + rewrite (proj2 (Z.eqb_neq (inst (fsStart y)) _)) by lia. simpl.
      rewrite Z.ltb_lt, Z.ltb_ge. lia.
  - intros x y z. intros H1 H2.
    destruct (inst (fsStart y) =? inst (fsStart x)) eqn:E1,
      (inst (fsStart z) =? inst (fsStart y)) eqn:E2,
      (inst (fsStart z) =? inst (fsStart x)) eqn:E3; cbn [negb] in *; bprop; try lia;
      first [apply Z.ltb_ge; lia|by eapply string_ltb_cotrans].
Qed.

Lemma mergeShifts_spec a b l :
  Forall (wf_shift a b) l ->
  let out := mergeShifts l in
  (forall u i, on_shift out u i <-> on_shift l u i) /\
  Forall (wf_shift a b) out /\ ForallOrdPairs apart out /\
  StronglySorted (not_after shift_by_start_user) out.
Proof.
  intros Hw. unfold mergeShifts. destruct (group_by_user_spec l) as [HG1 HG2].
  destruct (map_range_spec (group_by_user l)) as [HN HR].
  set (gs := map_range (group_by_user l)) in *. set (f := fun e : string * _ => mergeShiftsByTime e.2).
  pose proof (sort_slice_perm shift_by_start_user (concat (map f gs))) as HP.
  pose proof (sort_slice_sorted shift_by_start_user (concat (map f gs)) strict_weak_start_user) as HS.
  assert (forall k v, (k, v) ∈ gs -> Forall (fun s => fsUser s = k) v /\ Forall (wf_shift a b) v) as HV.
  { intros k v Hkv. apply HR in Hkv. split; [by apply HG1|]. apply Forall_forall. intros s Hs.
    rewrite Forall_forall in Hw. apply Hw, HG2. by exists k, v. }
  split; [|split; [|split; [|exact HS]]].
  - intros u i. unfold on_shift at 1. rewrite (ex_in_perm _ _ _ HP), ex_in_concat, ex_in_map.
    rewrite (ex_in_iff _ (fun e => on_shift e.2 u i)).
    + unfold on_shift, ex_in. split.
      * intros ([k v] & Hkv & s & Hs & Hsu). exists s. split; [|done]. apply HG2.
        exists k, v. split; [by apply HR|done].
      * intros (s & Hs & Hsu). apply HG2 in Hs as (k & v & Hkv & Hs). exists (k, v).
        split; [by apply HR|]. by exists s.
    + intros [k v] Hkv. destruct (HV k v Hkv). by apply (mergeShiftsByTime_spec a b k).
  - rewrite HP. apply Forall_concat, Forall_map, Forall_forall. intros [k v] Hkv.
    destruct (HV k v Hkv). by apply (mergeShiftsByTime_spec a b k).
  - apply (pairwise_perm apart (concat (map f gs))); [|by symmetry|].
    + unfold apart. intros x y H E. destruct H; auto.
    + apply concat_apart; [done|]. intros k v Hkv. destruct (HV k v Hkv) as [H1 H2].
      destruct (mergeShiftsByTime_spec a b k v H1 H2) as (_ & ? & _ & ?). done.
Qed.

Lemma clamp_spec start end_ l :
  Forall (wf_shift (inst start) (inst end_)) (clampShiftTimes start end_ l) /\
  forall u i, on_shift (clampShiftTimes start end_ l) u i <->
    inst start <= i < inst end_ /\ on_shift l u i.
Proof.
  assert (forall s, inst (fsStart (clamp1 start end_ s)) = Z.max (inst start) (inst (fsStart s)) /\
    inst (fsEnd (clamp1 start end_ s)) = Z.min (inst end_) (inst (fsEnd s)) /\
    fsUser (clamp1 start end_ s) = fsUser s) as HC.
  { intros s. unfold clamp1. unfold_cmp. split_and!; bcase; simpl in *; lia || done. }
  unfold clampShiftTimes. split.
  - apply Forall_forall. intros s Hs. apply list_elem_of_In, filter_In in Hs as [Hs Hb].
    apply in_map_iff in Hs as (s' & <- & _). unfold_cmp. destruct (HC s') as (E1 & E2 & _).
    unfold wf_shift. bprop. lia.
  - intros u i. unfold on_shift. rewrite ex_in_filter, ex_in_map. unfold ex_in, in_shift, After.
    setoid_rewrite (fun s => proj1 (HC s)). setoid_rewrite (fun s => proj1 (proj2 (HC s))).
    setoid_rewrite (fun s => proj2 (proj2 (HC s))). setoid_rewrite Z.ltb_lt.
    split.
    + intros (s & Hs & Hlt & Hu & Hi). split; [lia|]. exists s. split_and!; (done || lia).
    + intros (Hi & s & Hs & Hu & Hi2). exists s. split_and!; (done || lia).
Qed.
End merge.

(** ** Merging temporary schedules *)

Definition by_gap (A B : TemporarySchedule) : Prop := inst (tsEnd A) < inst (tsStart B).

(** The shape a temporary schedule has while it is being merged. *)
Definition pre_temp (T : TemporarySchedule) : Prop :=
  zero_inst < inst (tsStart T) /\ inst (tsStart T) < inst (tsEnd T).

Lemma merge_temp_loop_spec rest : forall cur,
  Forall (fun T => inst (tsStart cur) <= inst (tsStart T)) rest ->
  StronglySorted (not_after temp_by_start) rest ->
  Forall pre_temp (cur :: rest) ->
  let out := merge_temp_loop cur rest in
  Forall pre_temp out /\ StronglySorted by_gap out /\
  Forall (fun T => inst (tsStart cur) <= inst (tsStart T)) out /\
  (forall i, covers out i <-> covers (cur :: rest) i).
Proof.
  induction rest as [|g rest IH]; intros cur Hrest Hs Hp; cbn [merge_temp_loop]; cbv zeta.
  { split; [done|]. split; [repeat constructor|]. split; [|done]. by constructor. }
  inversion Hrest as [|? ? Hle Hr]; subst. inversion Hs as [|? ? Hs' Hmin]; subst.
  inversion Hp as [|? ? Hc Hp1]; subst. inversion Hp1 as [|? ? Hg Hp2]; subst.
  assert (Forall (fun T => inst (tsStart g) <= inst (tsStart T)) rest) as Hmin'.
  { eapply Forall_impl; [exact Hmin|]. intros T HT. unfold not_after, temp_by_start in HT.
    unfold_cmp. by bprop. }
  unfold_cmp. destruct (inst (tsEnd cur) <? inst (tsStart g)) eqn:E; bprop.
  - destruct (IH g Hmin' Hs' Hp1) as (P & S & M & C). split; [by constructor|].
    split; [constructor; [done|]|].
    { eapply Forall_impl; [exact M|]. intros T HT. unfold by_gap. cbv beta in *. lia. }
    split; [constructor; [lia|]; eapply Forall_impl; [exact M|]; simpl; lia|].
    intros i. unfold covers in *. by rewrite ex_in_cons, C, (ex_in_cons _ cur).
  - set (cur' := mkTemp (tsStart cur) (maxTime (tsEnd cur) (tsEnd g)) _).
    assert (inst (tsEnd cur') = Z.max (inst (tsEnd cur)) (inst (tsEnd g))) as EM
      by apply maxTime_inst.
    destruct (IH cur' Hr Hs') as (P & S & M & C).
    { constructor; [|done]. unfold pre_temp in *. rewrite EM. simpl. lia. }
    split; [done|]. split; [done|]. split; [done|]. intros i. rewrite C. unfold covers, in_temp.
    rewrite !ex_in_cons, EM. cbn [tsStart]. simpl (tsStart cur').
    assert (inst (tsStart cur) <= i < Z.max (inst (tsEnd cur)) (inst (tsEnd g)) <->
      inst (tsStart cur) <= i < inst (tsEnd cur) \/ inst (tsStart g) <= i < inst (tsEnd g))
      as -> by lia. tauto.
Qed.

(** The loop keeps every shift of a temporary schedule in the one that covers
    its span. *)
Lemma merge_temp_loop_shifts rest : forall cur u i,
  ex_in (fun T => on_shift (tsShifts T) u i) (merge_temp_loop cur rest) <->
  ex_in (fun T => on_shift (tsShifts T) u i) (cur :: rest).
Proof.
  induction rest as [|g rest IH]; intros cur u i; cbn [merge_temp_loop]; [done|].
  destruct (After (tsStart g) (tsEnd cur)).
  - by rewrite ex_in_cons, IH, (ex_in_cons _ cur).
  - rewrite IH, !ex_in_cons. cbn [tsShifts]. unfold on_shift. rewrite ex_in_app. tauto.
Qed.

(** Every shift lies within the span of its temporary schedule. *)
Definition inside (T : TemporarySchedule) : Prop :=
  forall u i, on_shift (tsShifts T) u i -> in_temp T i.

Lemma merge_temp_loop_inside rest : forall cur,
  Forall (fun T => inst (tsStart cur) <= inst (tsStart T)) rest ->
  StronglySorted (not_after temp_by_start) rest ->
  Forall inside (cur :: rest) -> Forall inside (merge_temp_loop cur rest).
Proof.
  induction rest as [|g rest IH]; intros cur Hrest Hs Hi; cbn [merge_temp_loop]; [done|].
  inversion Hrest as [|? ? Hle Hr]; subst. inversion Hs as [|? ? Hs' Hmin]; subst.
  inversion Hi as [|? ? Hc Hi1]; subst. inversion Hi1 as [|? ? Hg Hi2]; subst.
  unfold_cmp. destruct (inst (tsEnd cur) <? inst (tsStart g)) eqn:E; bprop.
  - constructor; [done|]. apply IH; [|done|done].
    eapply Forall_impl; [exact Hmin|]. intros T HT. unfold not_after, temp_by_start in HT.
    unfold_cmp. by bprop.
  - apply IH; [done|done|]. constructor; [|done]. intros u i. cbn [tsShifts].
    unfold on_shift. rewrite ex_in_app. unfold in_temp. cbn [tsStart tsEnd].
    rewrite maxTime_inst. intros [H|H]; [apply Hc in H|apply Hg in H]; unfold in_temp in H; lia.
Qed.

Lemma wf_temp_inside T : wf_temp T -> inside T.
Proof.
  intros (_ & _ & Hf) u i (s & Hs & _ & Hi). rewrite Forall_forall in Hf.
  specialize (Hf s Hs). unfold wf_shift, TempSchedule.in_shift in *. unfold in_temp. lia.
Qed.

Lemma on_call_inside l u i :
  Forall inside l -> on_call l u i <-> ex_in (fun T => on_shift (tsShifts T) u i) l.
Proof.
  intros H. apply ex_in_iff. intros T HT. rewrite Forall_forall in H.
  split; [by intros []|]. intros Ho. split; [by eapply H|done].
Qed.

Section merge_all.
Context {HG : GoSort} {HM : GoMapRange}.

Lemma merge_content_spec g :
  pre_temp g -> wf_temp (merge_content g) /\
  (forall u i, on_shift (tsShifts (merge_content g)) u i <-> in_temp g i /\ on_shift (tsShifts g) u i) /\
  ForallOrdPairs apart (tsShifts (merge_content g)) /\
  StronglySorted (not_after shift_by_start_user) (tsShifts (merge_content g)).
Proof.
  intros [Hz Hlt]. destruct (clamp_spec (tsStart g) (tsEnd g) (tsShifts g)) as [CW CS].
  destruct (mergeShifts_spec (inst (tsStart g)) (inst (tsEnd g)) _ CW) as (M & W & A & S).
  split; [done|]. split; [|done]. intros u i. unfold merge_content. cbn [tsShifts]. by rewrite M, CS.
Qed.

Lemma MergeTemporarySchedules_spec l :
  Forall pre_temp l ->
  let out := MergeTemporarySchedules l in
  wf_list out /\ (forall i, covers out i <-> covers l i) /\
  (Forall inside l -> forall u i, on_call out u i <-> on_call l u i) /\
  Forall (fun T => ForallOrdPairs apart (tsShifts T) /\
            StronglySorted (not_after shift_by_start_user) (tsShifts T)) out.
Proof.
  intros Hp. unfold MergeTemporarySchedules. pose proof (sort_slice_perm temp_by_start l) as HP.
  pose proof (sort_slice_sorted temp_by_start l strict_weak_temp) as HS.
  destruct (sort_slice temp_by_start l) as [|cur rest].
  { apply Permutation_nil in HP as ->. repeat split; try constructor; intros; done. }
  rewrite <- HP in Hp. inversion HS as [|? ? HS' Hmin]; subst.
  assert (Forall (fun T => inst (tsStart cur) <= inst (tsStart T)) rest) as Hmin'.
  { eapply Forall_impl; [exact Hmin|]. intros T HT. unfold not_after, temp_by_start in HT.
    unfold_cmp. by bprop. }
  destruct (merge_temp_loop_spec rest cur Hmin' HS' Hp) as (P & S & _ & C). cbv zeta.
  split; [split|split; [|split]].
  - apply Forall_map. eapply Forall_impl; [exact P|]. intros T HT. by apply merge_content_spec.
  - clear - S. induction S as [|T out HS IH HT]; simpl; [constructor|]. constructor; [done|].
    by apply Forall_map.
  - intros i. unfold covers at 1. rewrite ex_in_map. unfold covers in C. rewrite (C i).
    by apply ex_in_perm.
  - intros Hin u i. unfold on_call at 1. rewrite ex_in_map.
    rewrite (ex_in_iff _ (fun T => in_temp T i /\ on_shift (tsShifts T) u i)).
    2:{ intros T HT. rewrite Forall_forall in P. specialize (P T HT).
        destruct (merge_content_spec T P) as (_ & -> & _). unfold in_temp. simpl. tauto. }
    assert (Forall inside (cur :: rest)) as Hin' by by rewrite HP.
    change (ex_in _ (merge_temp_loop cur rest)) with (on_call (merge_temp_loop cur rest) u i).
    rewrite on_call_inside, merge_temp_loop_shifts by by apply merge_temp_loop_inside.
    rewrite (ex_in_perm _ _ _ HP). symmetry. by apply on_call_inside.
  - apply Forall_map. eapply Forall_impl; [exact P|]. intros T HT.
    by apply merge_content_spec.
Qed.
End merge_all.

Lemma TrimStart_zero_or T t :
  TrimStart T t = zeroTemp \/ inst t <= inst (tsStart (TrimStart T t)).
Proof. unfold TrimStart. unfold_cmp. bcase; bprop; auto; right; simpl; lia. Qed.

Lemma Normalize_wf valid check now now' temp new :
  zero_inst + Minute <= inst now -> Normalize valid check now now' temp = Some new ->
  wf_temp new /\ inst (Truncate now Minute) <= inst (tsStart new).
Proof.
  intros Hnow. unfold Normalize.
  set (t1 := mkTemp (Truncate (tsStart temp) Minute) (tsEnd temp) (tsShifts temp)).
  set (n := Truncate now Minute). set (t2 := if Before (tsStart t1) n then _ else t1).
  assert (t2 = zeroTemp \/ inst n <= inst (tsStart t2)) as Ht2.
  { unfold t2. destruct (Before (tsStart t1) n) eqn:E; [apply TrimStart_zero_or|].
    right. unfold_cmp. by bprop. }
  assert (zero_inst < inst n) as Hn.
  { unfold n. rewrite Truncate_minute_mod.
    assert (inst now mod Minute = (inst now - zero_inst) mod Minute) as ->.
    { unfold zero_inst, Minute, Second. dlia. }
    assert (0 < Minute) as HM by done.
    pose proof (Z.div_mod (inst now - zero_inst) Minute ltac:(lia)).
    pose proof (Z.div_le_lower_bound (inst now - zero_inst) Minute 1 HM ltac:(lia)). nia. }
  clearbody t2 n. clear t1. cbv zeta.
  destruct (validateFuture _ _ && _ && _) eqn:E; [|done]. intros [= <-]. bprop.
  unfold validateTimeRange, validateShifts in *. unfold_cmp. bprop.
  destruct Ht2 as [->|Hs]; [vm_compute in H0; done|].
  split; [|done]. split; [cbn [tsStart]; lia|]. split; [done|]. cbn [tsStart tsEnd tsShifts] in *.
  match goal with X : (if bool_decide _ then _ else _) = true |- _ => rename X into HF end.
  destruct (bool_decide _); [done|]. rewrite forallb_forall in HF.
  apply Forall_forall. intros s Hsin. apply list_elem_of_In, HF in Hsin. clear HF.
  unfold validateTimeRange, validateWithinTimeRange in Hsin. unfold_cmp. unfold wf_shift.
  apply andb_true_iff in Hsin as [Hsin _]. apply andb_true_iff in Hsin as [Hsin Hr].
  apply andb_true_iff in Hsin as [_ Hse]. revert Hr. bcase; bprop; (done || lia).
Qed.

Section set.
Context {HG : GoSort} {HM : GoMapRange}.

(** Replacing the span of [new]: the meaning of [setFixedShifts]. *)
Lemma setFixedShifts_spec l new :
  wf_list l -> wf_temp new ->
  let out := setFixedShifts l new in
  wf_list out /\
  (forall i, covers out i <-> in_temp new i \/ covers l i) /\
  (forall u i, in_temp new i -> (on_call out u i <-> on_shift (tsShifts new) u i)) /\
  (forall u i, ~ in_temp new i -> (on_call out u i <-> on_call l u i)).
Proof.
  intros Hl Hn. pose proof Hn as (Hz & Hlt & _). unfold setFixedShifts.
  destruct (deleteFixedShifts_spec l (tsStart new) (tsEnd new) Hl Hlt) as ([DW DS] & DC & DO).
  set (kept := deleteFixedShifts l (tsStart new) (tsEnd new)) in *.
  assert (Forall wf_temp (kept ++ [new])) as HW by (apply Forall_app; auto).
  destruct (MergeTemporarySchedules_spec (kept ++ [new])) as (W & C & O & _).
  { eapply Forall_impl; [exact HW|]. intros T (? & ? & _). done. }
  specialize (O ltac:(eapply Forall_impl; [exact HW|exact wf_temp_inside])).
  assert (forall u i, on_call (kept ++ [new]) u i <->
    (on_call l u i /\ ~ in_temp new i) \/ (in_temp new i /\ on_shift (tsShifts new) u i)) as HO.
  { intros u i. unfold on_call at 1. rewrite ex_in_app, ex_in_cons, ex_in_nil.
    specialize (DO u i). unfold on_call at 1 in DO. rewrite DO. unfold in_temp. tauto. }
  split; [done|]. split; [|split].
  - intros i. rewrite C. unfold covers at 1. rewrite ex_in_app, ex_in_cons, ex_in_nil.
    specialize (DC i). unfold covers at 1 in DC. rewrite DC. unfold in_temp.
    destruct (Z.le_gt_cases (inst (tsStart new)) i), (Z.lt_ge_cases i (inst (tsEnd new)));
      intuition lia.
  - intros u i Hi. rewrite O, HO. tauto.
  - intros u i Hi. rewrite O, HO. tauto.
Qed.

(** ** What the operations promise *)

(** C30: a stored list keeps its invariant when a temporary schedule is set,
    and the new one replaces exactly its own span: inside it the users on call
    are those of the new shifts and nobody else, outside it nothing changes;
    nothing before the current minute is touched. *)
Theorem SetTemporarySchedule_exact valid check permitted users_ok now now' temp l out
  (Hl : wf_list l) (Hnow : zero_inst + Minute <= inst now)
  (HS : SetTemporarySchedule valid check permitted users_ok now now' temp l = Some out) :
  exists new, Normalize valid check now now' temp = Some new /\ wf_temp new /\
    inst (Truncate now Minute) <= inst (tsStart new) /\ wf_list out /\
    (forall i, covers out i <-> in_temp new i \/ covers l i) /\
    (forall u i, in_temp new i -> (on_call out u i <-> on_shift (tsShifts new) u i)) /\
    (forall u i, ~ in_temp new i -> (on_call out u i <-> on_call l u i)).
Proof.
  unfold SetTemporarySchedule in HS. destruct (negb permitted); [done|].
  destruct (Normalize valid check now now' temp) as [new|] eqn:EN; [|done].
  cbn [mbind option_bind] in HS. destruct (negb (users_ok new)); [done|].
  injection HS as <-. destruct (Normalize_wf _ _ _ _ _ _ Hnow EN) as [HW Hs].
  exists new. split; [done|]. split; [done|]. split; [done|]. by apply setFixedShifts_spec.
Qed.

(** Clearing keeps the invariant and removes exactly the part of the
    requested span that is not in the past: there nothing is in force any more,
    elsewhere coverage and users are as before. *)
Theorem ClearTemporarySchedules_exact permitted now now' now'' start end_ l out
  (Hl : wf_list l) (Hnow : inst now'' < inst end_)
  (HC : ClearTemporarySchedules permitted now now' now'' start end_ l = Some out) :
  exists from, (from = start \/ (from = now'' /\ inst start < inst now')) /\
    wf_list out /\
    (forall i, covers out i <-> covers l i /\ ~ inst from <= i < inst end_) /\
    (forall u i, on_call out u i <-> on_call l u i /\ ~ inst from <= i < inst end_).
Proof.
  unfold ClearTemporarySchedules in HC. destruct (negb permitted); [done|].
  destruct (validateFuture now end_ && validateTimeRange start end_) eqn:E; [|done].
  cbn [negb] in HC. bprop. unfold validateTimeRange in *. unfold_cmp. bprop.
  destruct (0 <? Sub now' start) eqn:ES; injection HC as <-.
  - exists now''. split; [right; split; [done|]|by apply deleteFixedShifts_spec].
    unfold Sub in ES. bprop. unfold sat64, two63 in ES. lia.
  - exists start. split; [by left|by apply deleteFixedShifts_spec].
Qed.

(** Whatever overlapping spans and shifts it is given, merging returns a
    list in order, without overlap or contact, that covers the same instants;
    in it no two shifts of one user touch, shifts are ordered by start and then
    user, and if every shift was within its span, everybody is on call exactly
    when they were. *)
Theorem MergeTemporarySchedules_correct l
  (Hl : Forall (fun T => zero_inst < inst (tsStart T) /\ inst (tsStart T) < inst (tsEnd T)) l) :
  let out := MergeTemporarySchedules l in
  wf_list out /\ (forall i, covers out i <-> covers l i) /\
  ((forall T u i, T ∈ l -> on_shift (tsShifts T) u i -> in_temp T i) ->
   forall u i, on_call out u i <-> on_call l u i) /\
  Forall (fun T => ForallOrdPairs apart (tsShifts T) /\
            StronglySorted (not_after shift_by_start_user) (tsShifts T)) out.
Proof.
  destruct (MergeTemporarySchedules_spec l Hl) as (W & C & O & S).
  split; [done|]. split; [done|]. split; [|done]. intros Hin. apply O.
  apply Forall_forall. intros T HT u i. by apply Hin.
Qed.

End set.

Lemma TempOnCall_spec {U} (parse : string -> option U) t l (Hl : wf_list l) :
  ((TempOnCall parse t l).1 = true <-> covers l (inst t)) /\
  forall id, id ∈ (TempOnCall parse t l).2 <->
    exists u, on_call l u (inst t) /\ parse u = Some id.
Proof.
  destruct Hl as [HW HS]. induction l as [|T l IH].
  { split; [split; [done|intros []%ex_in_nil]|]. intros id. split; [by intros ?%elem_of_nil|].
    by intros (u & []%ex_in_nil & _). }
  inversion HW as [|? ? HT HW1]; subst. inversion HS as [|? ? HS1 Hgap]; subst.
  destruct (IH HW1 HS1) as [IH1 IH2]. clear IH. cbn [TempOnCall].
  unfold covers, on_call in *. setoid_rewrite ex_in_cons.
  destruct (Before t (tsStart T) || negb (Before t (tsEnd T))) eqn:E; unfold_cmp; bprop.
  - assert (~ in_temp T (inst t)) as Hn.
    { unfold in_temp. apply orb_true_iff in E as [E|E]; bprop; lia. }
    split; [tauto|]. intros id. rewrite IH2.
    split; [intros (u & H & Hp); exists u; tauto|].
    intros (u & [[H _]|H] & Hp); [done|by exists u].
  - assert (in_temp T (inst t)) as Hin by (unfold in_temp; lia).
    assert (forall P, ~ ex_in (fun T0 => in_temp T0 (inst t) /\ P T0) l) as Hno.
    { intros P (T' & HT' & Hin' & _). rewrite Forall_forall in Hgap.
      specialize (Hgap T' HT'). unfold in_temp in *. cbv beta in *. lia. }
    split; [split; [by left|done]|]. intros id. cbn [snd]. rewrite list_elem_of_omap. split.
    + intros (s & Hs & Hp). destruct (_ <? _) eqn:E1; [done|].
      destruct (inst t <? inst (fsEnd s)) eqn:E2; [|done]. bprop. exists (fsUser s).
      split; [|done]. left. split; [done|]. exists s. unfold TempSchedule.in_shift. auto.
    + intros (u & [[_ (s & Hs & <- & Hi)]|Hx] & Hp); [|by destruct (Hno _ Hx)].
      exists s. split; [done|]. unfold TempSchedule.in_shift in Hi.
      rewrite (proj2 (Z.ltb_ge _ _)), (proj2 (Z.ltb_lt _ _)) by lia. done.
Qed.

(** On a list that satisfies the invariant, [TempOnCall], which looks at
    the first temporary schedule that is in force, reports whether any is and
    lists exactly the users on call whose identifiers parse. *)
Theorem TempOnCall_exact {U} (parse : string -> option U) t l (Hl : wf_list l) :
  ((TempOnCall parse t l).1 = true <-> covers l (inst t)) /\
  forall id, id ∈ (TempOnCall parse t l).2 <->
    exists u, on_call l u (inst t) /\ parse u = Some id.
Proof. exact (TempOnCall_spec parse t l Hl). Qed.

(** ** Samples *)

Definition at_min (m : Z) : Time := time_Unix (1700000040 + m * 60).

Definition sample_list : list TemporarySchedule :=
  [mkTemp (at_min 0) (at_min 100) [mkShift (at_min 0) (at_min 60) "a"; mkShift (at_min 60) (at_min 100) "b"]].

Definition sample_temp : TemporarySchedule :=
  mkTemp (at_min 30) (at_min 70) [mkShift (at_min 30) (at_min 50) "c"].

Lemma sample_list_wf : wf_list sample_list.
Proof.
  split; [|repeat constructor]. repeat constructor.
  all: vm_compute; (reflexivity || discriminate).
Qed.

Definition set_sample : option (list TemporarySchedule) :=
  @SetTemporarySchedule stable_go_sort ordered_map_range (fun _ => true) None true
    (fun _ => true) (at_min 10) (at_min 10) sample_temp sample_list.

Lemma SetTemporarySchedule_exact_witness :
  exists out, set_sample = Some out /\ wf_list out /\
    on_call out "c" (inst (at_min 40)) /\ ~ on_call out "a" (inst (at_min 40)).
Proof.
  destruct set_sample as [out|] eqn:E; [|vm_compute in E; discriminate].
  exists out. split; [reflexivity|].
  destruct (@SetTemporarySchedule_exact stable_go_sort ordered_map_range (fun _ => true) None true
    (fun _ => true) (at_min 10) (at_min 10) sample_temp sample_list out sample_list_wf
    ltac:(vm_compute; discriminate) E) as (new & EN & _ & _ & W & _ & H & _).
  split; [exact W|].
  vm_compute in EN. injection EN as <-.
  split; (rewrite H; [|vm_compute; split; [discriminate|reflexivity]]).
  - exists (mkShift (at_min 30) (at_min 50) "c"). split; [left|]. split; [reflexivity|].
    vm_compute. split; [discriminate|reflexivity].
  - intros (s & Hs & Hu & _). apply list_elem_of_singleton in Hs. subst s. discriminate.
Defined.

Definition clear_sample : option (list TemporarySchedule) :=
  ClearTemporarySchedules true (at_min 10) (at_min 10) (at_min 10) (at_min 0) (at_min 50) sample_list.

Lemma ClearTemporarySchedules_exact_witness :
  exists out, clear_sample = Some out /\ wf_list out /\
    ~ covers out (inst (at_min 20)) /\ covers out (inst (at_min 5)).
Proof.
  destruct clear_sample as [out|] eqn:E; [|vm_compute in E; discriminate].
  exists out. split; [reflexivity|].
  destruct (ClearTemporarySchedules_exact true (at_min 10) (at_min 10) (at_min 10) (at_min 0)
    (at_min 50) sample_list out sample_list_wf ltac:(vm_compute; reflexivity) E)
    as (from & _ & W & C & _).
  split; [exact W|].
  vm_compute in E. injection E as <-. split.
  - intros (T & HT & Hi). repeat (apply elem_of_cons in HT as [->|HT]); try by apply elem_of_nil in HT.
    all: destruct Hi as [H1 H2]; vm_compute in H1, H2; (discriminate || (apply H1; reflexivity)).
  - eexists. split; [left|]. vm_compute. split; [discriminate|reflexivity].
Defined.

Lemma MergeTemporarySchedules_correct_witness :
  let out := @MergeTemporarySchedules stable_go_sort ordered_map_range (sample_temp :: sample_list) in
  wf_list out /\ length out = 1%nat.
Proof.
  split; [|vm_compute; reflexivity].
  refine (proj1 (@MergeTemporarySchedules_correct stable_go_sort ordered_map_range
    (sample_temp :: sample_list) _)).
  repeat constructor; vm_compute; reflexivity.
Defined.

Lemma TempOnCall_exact_witness :
  TempOnCall Some (at_min 40) sample_list = (true, ["a"%string]) /\
  exists u, on_call sample_list u (inst (at_min 40)) /\ Some u = Some "a"%string.
Proof.
  split; [vm_compute; reflexivity|].
  apply (proj1 (proj2 (TempOnCall_exact Some (at_min 40) sample_list sample_list_wf) "a"%string)).
  vm_compute. left.
Defined.
