(* ===== verification/TimeIterator.v ===== *)
(** * The time iterator: [oncall/timeiterator.go]

    The iterator visits the timestamps at which one of its sub-iterators may
    change.  The sub-iterators live in a store [W]; the interface they are
    called through is the class [SubIterators], what they promise the class
    [SubLaws].  The theorems are proved against these, the calculators of the
    on-call computation are the instance. *)

From S2P Require Import Prelude GoTime.

Record TimeIterator := mkIter {
  it_t : Z;
  it_start : Z;
  it_end : Z;
  it_step : Z;
  it_nextStep : Z;
  it_init : bool
}.

(** [NewTimeIterator]; the sub-iterators are kept in the store. *)
Definition NewTimeIterator (start end_ : Time) (step : Z) : TimeIterator :=
  let step := dTruncate step Second in
  let stepUnix := step `quot` Second in
  let start := Truncate start step in
  let end_ := Truncate end_ step in
  mkIter 0 (Unix start) (Unix end_) stepUnix (Unix start) false.

Definition it_Start (it : TimeIterator) : Time := time_Unix (it_start it).
Definition it_End (it : TimeIterator) : Time := time_Unix (it_end it).
Definition it_Step (it : TimeIterator) : Z := wrap64 (Second * it_step it).

(** A store of sub-iterators: how many are registered, [Process] of the [k]-th
    ([None] is a panic) and [StartUnix] of those that are [Startable]. *)
Class SubIterators (W : Type) := {
  sub_count : W -> nat;
  sub_process : nat -> Z -> W -> option (W * Z);
  sub_start : nat -> W -> option Z
}.

Section iterator.
Context {W : Type} {SI : SubIterators W}.

(** [iter.start] after the first loop of [Next]. *)
Fixpoint start_loop (ks : list nat) (w : W) (step start : Z) : Z :=
  match ks with
  | [] => start
  | k :: ks =>
      match sub_start k w with
      | None => start_loop ks w step start
      | Some st =>
          let st := st - st `rem` step in
          start_loop ks w step
            (if negb (st =? 0) && (st <? start) then st else start)
      end
  end.

Definition initIter (it : TimeIterator) (w : W) : TimeIterator :=
  if it_init it then it
  else
    let start := start_loop (seq 0 (sub_count w)) w (it_step it) (it_start it) in
    mkIter (it_t it) start (it_end it) (it_step it) start true.

(** The second loop of [Next]: [next] is [iter.nextStep]. *)
Fixpoint process_loop (ks : list nat) (t end_ : Z) (next : Z) (w : W) : option (W * Z) :=
  match ks with
  | [] => Some (w, next)
  | k :: ks =>
      '(w, nextStep) ← sub_process k t w;
      if (0 <? nextStep) && (nextStep <=? t) then None
      else
        let nextStep := if nextStep =? -1 then end_ else nextStep in
        let next :=
          if next =? 0 then nextStep
          else if (0 <? nextStep) && (nextStep <? next) then nextStep
          else next in
        process_loop ks t end_ next w
  end.

Definition Next (it : TimeIterator) (w : W) : option (bool * TimeIterator * W) :=
  let it := initIter it w in
  if it_end it <=? it_t it then Some (false, it, w)
  else
    let t := it_nextStep it in
    '(w, next) ← process_loop (seq 0 (sub_count w)) t (it_end it) 0 w;
    let next :=
      if next =? 0 then t + it_step it
      else if it_end it <? next then it_end it
      else next in
    Some (true, mkIter t (it_start it) (it_end it) (it_step it) next true, w).

(** [for t.Next() { body }]: the ticks, in order, with what [body] reads off the
    store at each; [None] when a sub-iterator panics or the fuel runs out. *)
Fixpoint ticks {A} (body : Z -> W -> A) (fuel : nat) (it : TimeIterator) (w : W)
  : option (list (Z * A) * TimeIterator) :=
  match fuel with
  | O => None
  | S fuel =>
      '(more, it, w) ← Next it w;
      if more : bool then
        '(rest, last) ← ticks body fuel it w;
        Some ((it_t it, body (it_t it) w) :: rest, last)
      else Some ([], it)
  end.
End iterator.

(** ** What the sub-iterators promise *)

(** The answers of one round of [Process] calls. *)
Fixpoint process_all {W} {SI : SubIterators W} (ks : list nat) (t : Z) (w : W)
  : option (W * list Z) :=
  match ks with
  | [] => Some (w, [])
  | k :: ks =>
      '(w, h) ← sub_process k t w;
      '(w, hs) ← process_all ks t w;
      Some (w, h :: hs)
  end.

(** The documented contract of an answer to [Process]. *)
Definition answer_ok (t h : Z) : Prop := h = -1 \/ h = 0 \/ t < h.

(** [Inv t w]: the store has been processed at [t] and describes [t].
    [bound w b]: something in the store may change at [b], not before.
    A round of calls at a later [t'], up to the bounds, does not panic, its
    answers obey the contract, the store then describes [t'], and each bound of
    the new store is among the answers. *)
Class SubLaws (W : Type) {SI : SubIterators W} (Inv : Z -> W -> Prop)
  (bound : W -> Z -> Prop) := {
  sub_round : forall t t' w, Inv t w -> t < t' -> 0 < t' -> (forall b, bound w b -> t' <= b) ->
    exists w' hs,
      process_all (seq 0 (sub_count w)) t' w = Some (w', hs) /\
      Inv t' w' /\ (forall h, h ∈ hs -> answer_ok t' h) /\ (forall b, bound w' b -> b ∈ hs);
  sub_bound : forall t w b, Inv t w -> bound w b -> t < b
}.

(** Combining the answers. *)
Definition combine (end_ : Z) (next h : Z) : Z :=
  let h := if h =? -1 then end_ else h in
  if next =? 0 then h else if (0 <? h) && (h <? next) then h else next.

Ltac combine_lia h :=
  unfold combine; intros; destruct (h =? -1) eqn:?; bcase; bprop; try lia;
  repeat match goal with X : _ && _ = false |- _ => apply andb_false_iff in X as [X|X] end;
  bprop; lia.

(** With answers after [t], the combined hint is 0 if all are 0, else it is
    after [t] or the end, and no later than any of them. *)
Lemma combine_spec end_ t hs next :
  0 < t -> 0 < end_ -> (forall h, h ∈ hs -> answer_ok t h) ->
  next = 0 \/ t < next \/ next = end_ ->
  let r := fold_left (combine end_) hs next in
  (r = 0 \/ t < r \/ r = end_) /\ (0 < next -> 0 < r <= next) /\
  (forall h, h ∈ hs -> 0 < h -> 0 < r <= h).
Proof.
  intros Ht He. revert next. induction hs as [|h hs IH]; intros next Hh Hn; cbn [fold_left].
  { split; [done|]. split; [lia|]. intros h Hin. by apply elem_of_nil in Hin. }
  assert (Hh' : forall h', h' ∈ hs -> answer_ok t h') by (intros; apply Hh; by right).
  pose proof (Hh h ltac:(by left)) as Hcase. unfold answer_ok in Hcase.
  assert (combine end_ next h = 0 \/ t < combine end_ next h \/ combine end_ next h = end_) as Hn'
    by combine_lia h.
  destruct (IH (combine end_ next h) Hh' Hn') as (H1 & H2 & H3).
  assert (0 < next -> 0 < combine end_ next h <= next) as HA by combine_lia h.
  assert (0 < h -> 0 < combine end_ next h <= h) as HB by combine_lia h.
  split; [done|]. split; [intros; specialize (HA ltac:(lia)); lia|].
  intros h' [->|Hin]%elem_of_cons Hp; [specialize (HB Hp); lia|by apply H3].
Qed.

Section progress.
Context {W : Type} {SI : SubIterators W}.

Lemma process_loop_all ks t end_ : forall w w' hs next,
  process_all ks t w = Some (w', hs) -> (forall h, h ∈ hs -> answer_ok t h) ->
  process_loop ks t end_ next w = Some (w', fold_left (combine end_) hs next).
Proof.
  induction ks as [|k ks IH]; intros w w' hs next; cbn [process_all process_loop].
  { by intros [= <- <-]. }
  destruct (sub_process k t w) as [[w1 h]|]; cbn [mbind option_bind]; [|done].
  destruct (process_all ks t w1) as [[w2 hs']|] eqn:E; cbn [mbind option_bind]; [|done].
  intros [= <- <-] Hh. pose proof (Hh h ltac:(by left)) as Hc. unfold answer_ok in Hc.
  assert ((0 <? h) && (h <=? t) = false) as ->.
  { apply andb_false_iff. rewrite Z.ltb_ge, Z.leb_gt. lia. }
  cbn [fold_left]. apply IH; [done|]. intros h' Hin. apply Hh. by right.
Qed.

Context {Inv : Z -> W -> Prop} {bound : W -> Z -> Prop} {L : SubLaws W Inv bound}.

(** The iterator before a call of [Next]: the store describes [t]; unless the
    end is reached, the next timestamp is later and no later than any bound. *)
Definition ready (t : Z) (it : TimeIterator) (w : W) : Prop :=
  it_init it = true /\ 0 < it_step it /\ 0 < it_end it /\ Inv t w /\
  (it_t it < it_end it -> t < it_nextStep it /\ 0 < it_nextStep it /\
     forall b, bound w b -> it_nextStep it <= b).

(** A round at the next timestamp: [Next] does not panic, moves to exactly that
    timestamp, and is ready again. *)
Lemma Next_ready t it w :
  ready t it w -> it_t it < it_end it ->
  exists it' w', Next it w = Some (true, it', w') /\ it_t it' = it_nextStep it /\
    it_end it' = it_end it /\ ready (it_t it') it' w' /\
    (it_t it' < it_end it' -> it_t it' < it_nextStep it').
Proof using L.
  intros (Hi & Hs & He & HI & Hn) Hlt. destruct (Hn Hlt) as (Hn1 & Hn0 & Hb). unfold Next, initIter.
  rewrite Hi. rewrite (proj2 (Z.leb_gt _ _)) by done.
  destruct (sub_round t (it_nextStep it) w HI Hn1 Hn0 Hb) as (w' & hs & EP & HI' & Hok & Hbs).
  rewrite (process_loop_all _ _ _ _ _ _ _ EP Hok). cbn [mbind option_bind].
  destruct (combine_spec (it_end it) (it_nextStep it) hs 0 Hn0 He Hok ltac:(by left))
    as (H1 & _ & H3).
  set (r := fold_left (combine (it_end it)) hs 0) in *. clearbody r.
  set (next := if r =? 0 then _ else _).
  assert (it_nextStep it < it_end it ->
    it_nextStep it < next /\ forall b, bound w' b -> next <= b) as Hnext.
  { intros Hlt'. split; [unfold next; bcase; bprop; lia|]. intros b Hbd.
    pose proof (sub_bound (Inv:=Inv) _ w' b HI' Hbd).
    specialize (H3 b (Hbs b Hbd) ltac:(lia)). unfold next. bcase; bprop; lia. }
  eexists _, w'. split; [reflexivity|]. split; [done|]. split; [done|].
  split; [|intros Hlt'; by apply Hnext]. split; [done|]. split; [done|]. split; [done|]. split; [done|].
  cbn [it_t it_end it_nextStep]. intros Hlt'. destruct (Hnext Hlt'). split; [done|].
  split; [lia|done].
Qed.

Lemma Next_done t it w : ready t it w -> it_end it <= it_t it -> Next it w = Some (false, it, w).
Proof.
  intros (Hi & _) Hle. unfold Next, initIter. rewrite Hi, (proj2 (Z.leb_le _ _)) by done. done.
Qed.

(** The ticks of a loop: strictly increasing, past no bound of the store of the
    tick before, each with a store that describes it, until the end. *)
Inductive trace {A} (body : Z -> W -> A) (end_ : Z) : Z -> W -> list (Z * A) -> Prop :=
  | trace_end t w : end_ <= t -> trace body end_ t w []
  | trace_tick t w t' w' l :
      t < end_ -> t < t' -> (forall b, bound w b -> t' <= b) -> Inv t' w' ->
      trace body end_ t' w' l ->
      trace body end_ t w ((t', body t' w') :: l).

Lemma ticks_ready {A} (body : Z -> W -> A) fuel it w :
  ready (it_t it) it w -> Z.max 0 (it_end it - it_t it) < Z.of_nat fuel ->
  exists l last, ticks body fuel it w = Some (l, last) /\
    trace body (it_end it) (it_t it) w l /\ it_end it <= it_t last.
Proof using L.
  revert it w. induction fuel as [|fuel IH]; intros it w Hr Hf.
  - lia.
  - cbn [ticks]. destruct (decide (it_end it <= it_t it)) as [Hd|Hd].
    + rewrite (Next_done _ _ _ Hr Hd). exists [], it. split; [done|]. split; [by constructor|done].
    + destruct (Next_ready _ it w Hr ltac:(lia)) as (it' & w' & EN & Et & Ee & Hr' & _).
      rewrite EN. cbn [mbind option_bind].
      pose proof Hr as (_ & _ & _ & _ & Hn). destruct (Hn ltac:(lia)) as (Hn1 & _ & Hb).
      destruct (IH it' w' Hr') as (l & last & EL & HT & Hend); [rewrite Ee, Et; lia|].
      rewrite EL. cbn [mbind option_bind]. eexists _, last. split; [reflexivity|].
      rewrite Ee in *. split; [|done]. rewrite Et in *. constructor; [lia|done|done| |done].
      by destruct Hr' as (_ & _ & _ & ? & _).
Qed.

(** ** The loop over a fresh iterator *)

Lemma start_loop_le ks w step start :
  0 < step -> start_loop ks w step start <= start /\
  forall k st, k ∈ ks -> sub_start k w = Some st -> 0 < st -> step <= st ->
    start_loop ks w step start <= st.
Proof.
  intros Hs. revert start. induction ks as [|k ks IH]; intros start; cbn [start_loop].
  { split; [lia|]. intros k st Hk. by apply elem_of_nil in Hk. }
  destruct (sub_start k w) as [st|] eqn:E.
  - cbv zeta. set (start' := if negb _ && _ then _ else start).
    destruct (IH start') as [H1 H2].
    assert (start' <= start) as Hle by (unfold start'; bcase; bprop; lia).
    split; [lia|]. intros k' st' [->|Hk]%elem_of_cons E' Hp Hst; [|by eapply H2].
    assert (st' = st) as -> by congruence.
    assert (start' <= st) as Hle'; [|lia].
    pose proof (Z.rem_bound_pos st step ltac:(lia) Hs).
    assert (st `rem` step < st) by lia. unfold start'.
    destruct (negb (st - st `rem` step =? 0) && (st - st `rem` step <? start)) eqn:EB; [lia|].
    apply andb_false_iff in EB as [EB|EB]; bprop; lia.
  - destruct (IH start) as [H1 H2]. split; [done|].
    intros k' st' [->|Hk]%elem_of_cons E'; [congruence|by eapply H2].
Qed.

(** Where a fresh iterator begins. *)
Definition first_tick (it : TimeIterator) (w : W) : Z :=
  start_loop (seq 0 (sub_count w)) w (it_step it) (it_start it).

Lemma ticks_fresh {A} (body : Z -> W -> A) fuel it w :
  it_init it = false -> it_t it < it_end it -> 0 < it_step it -> 0 < it_end it ->
  0 < first_tick it w -> Inv (first_tick it w - 1) w ->
  (forall b, bound w b -> first_tick it w <= b) ->
  Z.max 0 (it_end it - first_tick it w) < Z.of_nat fuel ->
  exists w1 l last,
    ticks body (S fuel) it w = Some ((first_tick it w, body (first_tick it w) w1) :: l, last) /\
    Inv (first_tick it w) w1 /\
    trace body (it_end it) (first_tick it w) w1 l /\ it_end it <= it_t last.
Proof using L.
  intros Hi Ht Hs He H0 HI Hb Hf. set (it1 := initIter it w).
  assert (it1 = mkIter (it_t it) (it_start it1) (it_end it) (it_step it) (first_tick it w) true)
    as E1 by (unfold it1, initIter; rewrite Hi; done).
  assert (Next it w = Next it1 w) as EN.
  { unfold Next. assert (initIter it1 w = it1) as -> by by rewrite E1. done. }
  assert (ready (first_tick it w - 1) it1 w) as Hr.
  { rewrite E1. split; [done|]. split; [done|]. split; [done|]. split; [done|].
    cbn [it_nextStep]. intros _. split; [lia|done]. }
  destruct (Next_ready _ it1 w Hr) as (it' & w' & E' & Et & Ee & Hr' & _); [by rewrite E1|].
  rewrite E1 in Et, Ee. cbn [it_nextStep it_end] in Et, Ee.
  cbn [ticks]. rewrite EN, E'. cbn [mbind option_bind].
  destruct (ticks_ready body fuel it' w' Hr') as (l & last & EL & HT & Hend); [lia|].
  rewrite EL. cbn [mbind option_bind]. rewrite Et in *. exists w', l, last.
  split; [reflexivity|]. rewrite Ee in *. split; [|split; [done|lia]].
  by destruct Hr' as (_ & _ & _ & ? & _).
Qed.

(** At any time before the end the last tick so far describes the store, and
    nothing has changed since. *)
Lemma trace_covers {A} (body : Z -> W -> A) end_ t0 w0 l :
  trace body end_ t0 w0 l -> forall t, t0 <= t < end_ ->
  (forall b, bound w0 b -> t < b) \/
  exists t1 w1, (t1, body t1 w1) ∈ l /\ t0 < t1 <= t /\ Inv t1 w1 /\ forall b, bound w1 b -> t < b.
Proof.
  induction 1 as [t0 w0 Hle|t0 w0 t' w' l Hend Hlt Hb HI HT IH]; intros t Ht; [lia|].
  destruct (decide (t' <= t)) as [Hd|Hd].
  - right. destruct (IH t ltac:(lia)) as [HB|(t1 & w1 & Hin & H1 & H2)].
    + exists t', w'. split; [by left|]. split; [lia|done].
    + exists t1, w1. split; [by right|]. split; [lia|done].
  - left. intros b HB. specialize (Hb b HB). lia.
Qed.

Lemma trace_sorted {A} (body : Z -> W -> A) end_ t0 w0 l :
  trace body end_ t0 w0 l ->
  StronglySorted (fun p q => p.1 < q.1) l /\ Forall (fun p => t0 < p.1) l.
Proof.
  induction 1 as [t0 w0 Hle|t0 w0 t' w' l Hend Hlt Hb HI HT [IH1 IH2]]; [split; constructor|].
  split.
  - by constructor.
  - constructor; [done|]. eapply Forall_impl; [exact IH2|]. simpl. lia.
Qed.
End progress.

(** ** What the iterator promises *)

(** With sub-iterators that obey the contract of [Process], a loop over
    [Next] ends without a panic; the timestamps it visits strictly increase
    from the start (or the earliest start a sub-iterator reports), and no
    change is missed: at every time before the end, the last visited timestamp
    saw a state of the sub-iterators in which nothing changes until after that
    time. *)
Theorem ticks_visit_every_change {W} {SI : SubIterators W} {Inv bound} {L : SubLaws W Inv bound}
  {A} (body : Z -> W -> A) fuel it w
  (Hfresh : it_init it = false /\ it_t it < it_end it)
  (Hpos : 0 < it_step it /\ 0 < it_end it /\ 0 < first_tick it w)
  (HInv : Inv (first_tick it w - 1) w) (Hb : forall b, bound w b -> first_tick it w <= b)
  (Hfuel : Z.max 0 (it_end it - first_tick it w) < Z.of_nat fuel) :
  exists l last, ticks body (S fuel) it w = Some (l, last) /\ it_end it <= it_t last /\
    StronglySorted (fun p q => p.1 < q.1) l /\ Forall (fun p => first_tick it w <= p.1) l /\
    forall t, first_tick it w <= t < it_end it ->
      exists t1 w1, (t1, body t1 w1) ∈ l /\ t1 <= t /\ Inv t1 w1 /\
        forall b, bound w1 b -> t < b.
Proof.
  destruct Hfresh, Hpos as (? & ? & ?).
  destruct (ticks_fresh (L:=L) body fuel it w) as (w1 & l & last & E & HI & T & Hend); try done.
  eexists _, last. destruct (trace_sorted _ _ _ _ _ T) as [S1 S2].
  split; [exact E|]. split; [done|]. split; [by constructor|]. split.
  - constructor; [simpl; lia|]. eapply Forall_impl; [exact S2|]. simpl. lia.
  - intros t Ht.
    destruct (trace_covers _ _ _ _ _ T t Ht) as [HB|(t1 & w2 & Hin & Hle & Hrest)].
    + exists (first_tick it w), w1. split; [by left|]. split; [lia|done].
    + exists t1, w2. split; [by right|]. split; [lia|done].
Qed.

(** ** Functions as sub-iterators: [NextFunc] *)

Definition NextFunc := Z -> Z.

#[export] Instance NextFunc_SubIterators : SubIterators (list NextFunc) := {
  sub_count := length;
  sub_process := fun k t w => option_map (fun fn : NextFunc => (w, fn t)) (w !! k);
  sub_start := fun _ _ => None
}.

(** Functions that obey the contract; they announce no bounds. *)
Definition NextFunc_ok (t : Z) (w : list NextFunc) : Prop :=
  forall fn, fn ∈ w -> forall t, answer_ok t (fn t).

Lemma process_all_NextFunc (w : list NextFunc) t ks :
  (forall k, k ∈ ks -> (k < length w)%nat) ->
  exists hs, process_all ks t w = Some (w, hs) /\
    forall h, h ∈ hs -> exists fn, fn ∈ w /\ h = fn t.
Proof.
  induction ks as [|k ks IH]; intros Hk; cbn [process_all].
  { exists []. split; [done|]. intros h Hh. by apply elem_of_nil in Hh. }
  destruct (lookup_lt_is_Some_2 w k (Hk k ltac:(by left))) as [fn Hfn]. simpl. rewrite Hfn. simpl.
  destruct IH as (hs & -> & Hhs); [intros; apply Hk; by right|]. simpl.
  eexists. split; [reflexivity|]. intros h [->|Hin]%elem_of_cons; [|by apply Hhs].
  exists fn. split; [by eapply list_elem_of_lookup_2|done].
Qed.

#[export] Instance NextFunc_laws : SubLaws (list NextFunc) NextFunc_ok (fun _ _ => False).
Proof.
  split; [|done]. intros t t' w Hok _ _ _.
  destruct (process_all_NextFunc w t' (seq 0 (sub_count w))) as (hs & E & Hhs).
  { intros k Hk. apply elem_of_seq in Hk. simpl in *. lia. }
  exists w, hs. split; [done|]. split; [done|]. split; [|done].
  intros h Hh. destruct (Hhs h Hh) as (fn & Hfn & ->). by apply Hok.
Qed.

Definition every7 : NextFunc := fun t => t + 7.

Definition sample_iter : TimeIterator := NewTimeIterator (time_Unix 60) (time_Unix 120) Minute.

Lemma ticks_visit_every_change_witness :
  exists l last,
    ticks (fun t _ => t) 62 sample_iter [every7] = Some (l, last) /\ 120 <= it_t last /\
    (map fst l = [60; 67; 74; 81; 88; 95; 102; 109; 116; 120]) /\ Forall (fun p => 60 <= p.1) l.
Proof.
  destruct (ticks_visit_every_change (L:=NextFunc_laws) (fun t _ => t) 61 sample_iter [every7])
    as (l & last & E & H1 & _ & H2 & _).
  - split; reflexivity.
  - vm_compute. repeat split.
  - intros fn Hfn t. apply list_elem_of_singleton in Hfn as ->. right. right. unfold every7. lia.
  - intros b [].
  - vm_compute. reflexivity.
  - exists l, last. split; [exact E|]. split; [exact H1|]. split; [|exact H2].
    vm_compute in E. injection E as <- _. reflexivity.
Defined.
