(* ===== verification/Calculators.v ===== *)
(** * The calculators of the on-call computation: [oncall/activecalculator.go],
      [oncall/usercalculator.go], [oncall/singlerulecalculator.go],
      [oncall/overridecalculator.go], [oncall/rulescalculator.go],
      [oncall/temporaryschedulecalculator.go]

    The calculators are objects that refer to each other and are registered
    with one iterator, which processes them in the order of registration.  The
    model is that store: a list of calculators, a reference is a position in
    it.  A rotation that several rules use is one object in a second list.
    [None] is a panic. *)

From S2P Require Import Prelude GoTime Clock WeekdayFilter Assignment Rule.
From S2P Require Rotation.
From S2P Require Import TempSchedule TimeIterator.

(** ** The objects *)

Record activeCalcValue := mkVal { acT : Z; IsStart : bool }.

Record ActiveCalculator := mkActive {
  states : list activeCalcValue;
  ac_init : bool;
  ac_active : activeCalcValue;
  ac_changed : bool
}.

Record UserCalculator := mkUser {
  calc : list (string * nat);     (** an [ActiveCalculator] for each id *)
  u_active : list string;
  u_changed : bool
}.

Record SingleRuleCalculator := mkSingle {
  sr_act : nat;
  sr_rot : option nat;            (** a [UserCalculator] *)
  sr_target : RawTarget;
  sr_userID : string;
  sr_changed : bool
}.

Record OverrideCalculator := mkOverride {
  o_add : nat;
  o_remove : nat;
  o_replace : nat;
  userMap : gmap string string
}.

Record RulesCalculator := mkRules {
  r_rules : list nat;
  r_userIDs : list string;
  r_changed : bool
}.

Inductive Sub :=
  | SActive (a : ActiveCalculator)
  | SUser (u : UserCalculator)
  | SSingle (r : SingleRuleCalculator)
  | SOverride (o : OverrideCalculator)
  | SRules (r : RulesCalculator).

Abbreviation store := (list Sub).

(** ** Reading a reference *)

Definition get_active (w : store) (k : nat) : option ActiveCalculator :=
  match w !! k with Some (SActive a) => Some a | _ => None end.
Definition get_user (w : store) (k : nat) : option UserCalculator :=
  match w !! k with Some (SUser u) => Some u | _ => None end.
Definition get_single (w : store) (k : nat) : option SingleRuleCalculator :=
  match w !! k with Some (SSingle r) => Some r | _ => None end.
Definition get_rules (w : store) (k : nat) : option RulesCalculator :=
  match w !! k with Some (SRules r) => Some r | _ => None end.

Definition Active (a : ActiveCalculator) : bool := IsStart (ac_active a).

(** ** [ActiveCalculator] *)

Definition newActive : ActiveCalculator := mkActive [] false (mkVal 0 false) false.

Definition set_states (a : ActiveCalculator) (l : list activeCalcValue) : ActiveCalculator :=
  mkActive l (ac_init a) (ac_active a) (ac_changed a).

(** [act.set]: [last] is the last entry. *)
Definition set_state (id : Z) (isStart : bool) (a : ActiveCalculator) : option ActiveCalculator :=
  match last (states a) with
  | None =>
      if negb isStart then None else Some (set_states a (states a ++ [mkVal id isStart]))
  | Some l =>
      if eqb isStart (IsStart l) then None
      else if isStart && (id =? acT l) then Some (set_states a (removelast (states a)))
      else if id <=? acT l then None
      else Some (set_states a (states a ++ [mkVal id isStart]))
  end.

Definition SetSpan (it : TimeIterator) (start end_ : Time) (a : ActiveCalculator)
  : option ActiveCalculator :=
  if ac_init a then None
  else
    let start := Truncate start (it_Step it) in
    let end_ := Truncate end_ (it_Step it) in
    if negb (After end_ start) then Some a
    else if negb (After end_ (it_Start it)) then Some a
    else if negb (Before start (it_End it)) then Some a
    else a ← set_state (Unix start) true a; set_state (Unix end_) false a.

Definition initActive (a : ActiveCalculator) : ActiveCalculator :=
  mkActive (states a) true (ac_active a) (ac_changed a).

Definition processActive (t : Z) (a : ActiveCalculator) : option (ActiveCalculator * Z) :=
  if negb (ac_init a) then None
  else
    match states a with
    | [] => Some (mkActive [] true (ac_active a) false, -1)
    | val :: rest =>
        if acT val =? t then
          Some (mkActive rest true val true, match rest with [] => -1 | v :: _ => acT v end)
        else Some (mkActive (states a) true (ac_active a) false, acT val)
    end.

Definition StartUnix (a : ActiveCalculator) : Z :=
  match states a with [] => 0 | v :: _ => acT v end.

(** ** [UserCalculator] *)

Fixpoint omitStr (s : list string) (val : string) : list string :=
  match s with
  | [] => []
  | str :: rest => if negb (String.eqb str val) then str :: omitStr rest val else rest
  end.

Fixpoint user_loop (w : store) (cs : list (string * nat)) (active : list string) (changed : bool)
  : option (list string * bool) :=
  match cs with
  | [] => Some (active, changed)
  | (id, k) :: cs =>
      c ← get_active w k;
      if negb (ac_changed c) then user_loop w cs active changed
      else user_loop w cs (if Active c then active ++ [id] else omitStr active id) true
  end.

Definition processUser (w : store) (u : UserCalculator) : option (UserCalculator * Z) :=
  match calc u with
  | [] => Some (u, -1)
  | _ =>
      '(active, changed) ← user_loop w (calc u) (u_active u) false;
      Some (mkUser (calc u) active changed, 0)
  end.

(** ** [SingleRuleCalculator] *)

Definition processSingle (w : store) (r : SingleRuleCalculator)
  : option (SingleRuleCalculator * Z) :=
  act ← get_active w (sr_act r);
  newUserID ←
    (if Active act then
       match sr_rot r with
       | Some k => u ← get_user w k; Some (hd EmptyString (u_active u))
       | None =>
           Some (if decide (TType (sr_target r) = TargetTypeUser) then TID (sr_target r)
                 else EmptyString)
       end
     else Some EmptyString);
  Some (mkSingle (sr_act r) (sr_rot r) (sr_target r) newUserID
          (negb (String.eqb (sr_userID r) newUserID)), 0).

(** ** [OverrideCalculator] *)

Definition newline : Ascii.ascii := Ascii.ascii_of_nat 10.

Definition replace_id (remove add : string) : string :=
  (remove ++ String newline add)%string.

(** [strings.SplitN(id, "\n", 2)]; [None] when there is no newline, where the
    access to [parts[1]] panics. *)
Fixpoint SplitN2 (s : string) : option (string * string) :=
  match s with
  | EmptyString => None
  | String c s' =>
      if Ascii.eqb c newline then Some (EmptyString, s')
      else '(a, b) ← SplitN2 s'; Some (String c a, b)
  end.

Fixpoint replace_loop (ids : list string) (m : gmap string string) : option (gmap string string) :=
  match ids with
  | [] => Some m
  | id :: ids => '(a, b) ← SplitN2 id; replace_loop ids (<[a := b]> m)
  end.

Definition processOverride (w : store) (o : OverrideCalculator)
  : option (OverrideCalculator * Z) :=
  remove ← get_user w (o_remove o);
  replace ← get_user w (o_replace o);
  if negb (u_changed remove) && negb (u_changed replace) then Some (o, 0)
  else
    let m := fold_left (fun m id => <[id := EmptyString]> m) (u_active remove) ∅ in
    m ← replace_loop (u_active replace) m;
    Some (mkOverride (o_add o) (o_remove o) (o_replace o) m, 0).

(** [MapUsers]: the result is read before the next call. *)
Definition MapUsers (w : store) (o : OverrideCalculator) (userIDs : list string)
  : option (list string) :=
  add ← get_user w (o_add o);
  Some (omap (fun id =>
          match userMap o !! id with
          | None => Some id
          | Some newID => if String.eqb newID EmptyString then None else Some newID
          end) userIDs ++ u_active add).

(** ** [RulesCalculator] *)

Definition processRules (w : store) (r : RulesCalculator) : option (RulesCalculator * Z) :=
  rs ← mapM (get_single w) (r_rules r);
  if negb (existsb sr_changed rs) then Some (mkRules (r_rules r) (r_userIDs r) false, 0)
  else
    Some (mkRules (r_rules r)
            (List.filter (fun id => negb (String.eqb id EmptyString)) (map sr_userID rs)) true, 0).

(** ** The store as sub-iterators *)

Definition process (k : nat) (t : Z) (w : store) : option (store * Z) :=
  match w !! k with
  | None => None
  | Some (SActive a) => '(a, h) ← processActive t a; Some (<[k := SActive a]> w, h)
  | Some (SUser u) => '(u, h) ← processUser w u; Some (<[k := SUser u]> w, h)
  | Some (SSingle r) => '(r, h) ← processSingle w r; Some (<[k := SSingle r]> w, h)
  | Some (SOverride o) => '(o, h) ← processOverride w o; Some (<[k := SOverride o]> w, h)
  | Some (SRules r) => '(r, h) ← processRules w r; Some (<[k := SRules r]> w, h)
  end.

#[export] Instance store_SubIterators : SubIterators store := {
  sub_count := length;
  sub_process := process;
  sub_start := fun k w => match w !! k with Some (SActive a) => Some (StartUnix a) | _ => None end
}.

(** ** Construction

    A constructor registers its calculators at the end of the store. *)

(** A call of a method of the [ActiveCalculator] number [k]. *)
Definition updActive (k : nat) (f : ActiveCalculator -> option ActiveCalculator) (w : store)
  : option store :=
  a ← get_active w k; a ← f a; Some (<[k := SActive a]> w).

(** [NewActiveCalculator]: the calculator is registered at [length w]. *)
Definition NewActiveCalculator (w : store) : store := w ++ [SActive newActive].

(** A [UserCalculator] before [Init] is its map [m] of active calculators. *)
Abbreviation UserMap := (gmap string nat).

Definition UserSetSpan (it : TimeIterator) (start end_ : Time) (id : string)
  (mw : UserMap * store) : option (UserMap * store) :=
  let '(m, w) := mw in
  match m !! id with
  | Some c => w ← updActive c (SetSpan it start end_) w; Some (m, w)
  | None =>
      let c := length w in
      w ← updActive c (SetSpan it start end_) (NewActiveCalculator w);
      Some (<[id := c]> m, w)
  end.

Definition span := (Time * Time * string)%type.

Fixpoint UserSetSpans (it : TimeIterator) (l : list span) (mw : UserMap * store)
  : option (UserMap * store) :=
  match l with
  | [] => Some mw
  | (start, end_, id) :: l => mw ← UserSetSpan it start end_ id mw; UserSetSpans it l mw
  end.

Fixpoint SetSpans (it : TimeIterator) (l : list (Time * Time)) (a : ActiveCalculator)
  : option ActiveCalculator :=
  match l with
  | [] => Some a
  | (start, end_) :: l => a ← SetSpan it start end_ a; SetSpans it l a
  end.

Fixpoint init_loop (cs : list (string * nat)) (w : store) : option store :=
  match cs with
  | [] => Some w
  | (_, c) :: cs => w ← updActive c (fun a => Some (initActive a)) w; init_loop cs w
  end.

Record UserOverride := mkOv {
  ov_AddUserID : string;
  ov_RemoveUserID : string;
  ov_Start : Time;
  ov_End : Time
}.

Definition override_by_start (a b : UserOverride) : bool := Before (ov_Start a) (ov_Start b).

Record ResolvedRule := mkRR {
  rr_Rule : Rule;
  rr_Rotation : option nat        (** a pointer to a shared rotation *)
}.

(** [loopLimit] *)
Definition loop_limit : nat := Z.to_nat 100000.

(** The loop over the active times of a rule; [limit] is what is left of the
    loop limit, returned for the next loop. *)
Fixpoint rule_loop (limit : nat) (it : TimeIterator) (rule : Rule) (cur : Time)
  (a : ActiveCalculator) : option (ActiveCalculator * nat) :=
  if negb (Before cur (it_End it)) then Some (a, limit)
  else
    match limit with
    | O => None
    | S limit =>
        let end_ := Rule.EndTime rule cur in
        a ← SetSpan it cur end_ a;
        rule_loop limit it rule (Rule.StartTime rule end_) a
    end.

(** The loop over the shifts of a rotation; [fuel] is for [UserID]. *)
Fixpoint rot_loop (limit fuel : nat) (it : TimeIterator) (rot : Rotation.ResolvedRotation)
  (cur : Time) (mw : UserMap * store)
  : option (Rotation.ResolvedRotation * (UserMap * store)) :=
  if negb (Before cur (it_End it)) then Some (rot, mw)
  else
    match limit with
    | O => None
    | S limit =>
        '(rot, userID) ← Rotation.UserID fuel rot cur;
        mw ← UserSetSpan it (Rotation.CurrentStart rot) (Rotation.CurrentEnd rot) userID mw;
        rot_loop limit fuel it rot (Rotation.CurrentEnd rot) mw
    end.

Section construct.
Context `{GoSort} `{GoMapRange}.

(** [UserCalculator.Init]: the calculator is registered at the end. *)
Definition UserInit (m : UserMap) (w : store) : option store :=
  let cs := map_range m in
  w ← init_loop cs w; Some (w ++ [SUser (mkUser cs [] false)]).

(** A user calculator from the list of its spans; the result is its position. *)
Definition NewUserCalculator (it : TimeIterator) (l : list span) (w : store)
  : option (nat * store) :=
  '(m, w) ← UserSetSpans it l (∅, w);
  w ← UserInit m w;
  Some (Nat.pred (length w), w).

(** The spans of the rule itself, with what is left of the loop limit. *)
Definition rule_spans (it : TimeIterator) (loc : Location) (rule : Rule)
  : option (ActiveCalculator * nat) :=
  if AlwaysActive rule then
    a ← SetSpan it (it_Start it) (Add (it_End it) (it_Step it)) newActive;
    Some (a, loop_limit)
  else if negb (NeverActive rule) then
    rule_loop loop_limit it rule (Rule.StartTime rule (In_ (it_Start it) loc)) newActive
  else Some (newActive, loop_limit).

(** The spans of its rotation. *)
Definition rotation_spans (limit fuel : nat) (it : TimeIterator) (loc : Location)
  (r : Rotation.ResolvedRotation) (mw : UserMap * store)
  : option (Rotation.ResolvedRotation * (UserMap * store)) :=
  match Rotation.Users r with
  | [] => Some (r, mw)
  | [_] =>
      '(r, userID) ← Rotation.UserID fuel r (it_Start it);
      mw ← UserSetSpan it (it_Start it) (Add (it_End it) (it_Step it)) userID mw;
      Some (r, mw)
  | _ => rot_loop limit fuel it r (In_ (it_Start it) loc) mw
  end.

Definition NewSingleRuleCalculator (fuel : nat) (it : TimeIterator) (loc : Location)
  (rule : ResolvedRule) (rots : list Rotation.ResolvedRotation) (w : store)
  : option (list Rotation.ResolvedRotation * store) :=
  let act := length w in
  let w := NewActiveCalculator w in
  '(a, limit) ← rule_spans it loc (rr_Rule rule);
  let w := <[act := SActive (initActive a)]> w in
  '(rot, rots, w) ←
    match rr_Rotation rule with
    | None => Some (None, rots, w)
    | Some p =>
        r ← rots !! p;
        '(r, (m, w)) ← rotation_spans limit fuel it loc r (∅, w);
        w ← UserInit m w;
        Some (Some (Nat.pred (length w)), <[p := r]> rots, w)
    end;
  Some (rots, w ++ [SSingle (mkSingle act rot (RTarget (rr_Rule rule)) EmptyString false)]).

Fixpoint single_loop (fuel : nat) (it : TimeIterator) (loc : Location)
  (rules : list ResolvedRule) (rots : list Rotation.ResolvedRotation) (w : store)
  : option (list nat * list Rotation.ResolvedRotation * store) :=
  match rules with
  | [] => Some ([], rots, w)
  | r :: rules =>
      '(rots, w) ← NewSingleRuleCalculator fuel it loc r rots w;
      '(ks, rots, w') ← single_loop fuel it loc rules rots w;
      Some (Nat.pred (length w) :: ks, rots, w')
  end.

Definition NewRulesCalculator (fuel : nat) (it : TimeIterator) (loc : Location)
  (rules : list ResolvedRule) (rots : list Rotation.ResolvedRotation) (w : store)
  : option (nat * store) :=
  '(ks, _, w) ← single_loop fuel it loc rules rots w;
  Some (length w, w ++ [SRules (mkRules ks [] false)]).

(** The three maps of an override calculator while it is filled. *)
Fixpoint override_loop (it : TimeIterator) (os : list UserOverride)
  (add remove replace : UserMap) (w : store) : option (UserMap * UserMap * UserMap * store) :=
  match os with
  | [] => Some (add, remove, replace, w)
  | o :: os =>
      if negb (String.eqb (ov_AddUserID o) EmptyString) &&
         negb (String.eqb (ov_RemoveUserID o) EmptyString) then
        '(replace, w) ← UserSetSpan it (ov_Start o) (ov_End o)
                          (replace_id (ov_RemoveUserID o) (ov_AddUserID o)) (replace, w);
        override_loop it os add remove replace w
      else if negb (String.eqb (ov_AddUserID o) EmptyString) then
        '(add, w) ← UserSetSpan it (ov_Start o) (ov_End o) (ov_AddUserID o) (add, w);
        override_loop it os add remove replace w
      else if negb (String.eqb (ov_RemoveUserID o) EmptyString) then
        '(remove, w) ← UserSetSpan it (ov_Start o) (ov_End o) (ov_RemoveUserID o) (remove, w);
        override_loop it os add remove replace w
      else override_loop it os add remove replace w
  end.

Definition NewOverrideCalculator (it : TimeIterator) (overrides : list UserOverride) (w : store)
  : option (nat * store) :=
  '(add, remove, replace, w) ←
    override_loop it (sort_slice override_by_start overrides) ∅ ∅ ∅ w;
  w1 ← UserInit add w;
  w2 ← UserInit remove w1;
  w3 ← UserInit replace w2;
  Some (length w3,
        w3 ++ [SOverride (mkOverride (Nat.pred (length w1)) (Nat.pred (length w2))
                            (Nat.pred (length w3)) ∅)]).

(** The calculator itself is not registered: the result is the positions of its
    two parts, [act] and [usr]. *)
Definition NewTemporaryScheduleCalculator (it : TimeIterator)
  (tempScheds : list TemporarySchedule) (w : store) : option (nat * nat * store) :=
  let act := length w in
  let w := NewActiveCalculator w in
  let temps := sort_slice temp_by_start tempScheds in
  a ← SetSpans it (map (fun temp => (tsStart temp, tsEnd temp)) temps) newActive;
  let w := <[act := SActive a]> w in
  let allShifts := sort_slice shift_by_start (concat (map tsShifts temps)) in
  '(m, w) ← UserSetSpans it (map (fun s => (fsStart s, fsEnd s, fsUser s)) allShifts) (∅, w);
  w ← updActive act (fun a => Some (initActive a)) w;
  w ← UserInit m w;
  Some (act, Nat.pred (length w), w).
End construct.

(** ** What a store describes

    [S0] is the store before the iteration: it holds all the entries.  The
    value of every calculator at a time [t] is a function of it. *)

(** The last entry not after [t] decides. *)
Fixpoint state_at (l : list activeCalcValue) (t : Z) (cur : bool) : bool :=
  match l with
  | [] => cur
  | v :: rest => if acT v <=? t then state_at rest t (IsStart v) else cur
  end.

(** Entries in order, alternating between start and end. *)
Fixpoint alternating (l : list activeCalcValue) (cur : bool) (t : Z) : Prop :=
  match l with
  | [] => True
  | v :: rest => t < acT v /\ IsStart v = negb cur /\ alternating rest (IsStart v) (acT v)
  end.

Definition act_val (S0 : store) (k : nat) (t : Z) : bool :=
  match get_active S0 k with Some a => state_at (states a) t false | None => false end.

Definition user_val (S0 : store) (k : nat) (t : Z) (id : string) : Prop :=
  exists u c, get_user S0 k = Some u /\ (id, c) ∈ calc u /\ act_val S0 c t = true.

(** The user of a rule: the relation leaves open which user a rotation with
    several active ones reports. *)
Definition single_val (S0 : store) (r : SingleRuleCalculator) (t : Z) (id : string) : Prop :=
  if act_val S0 (sr_act r) t then
    match sr_rot r with
    | Some k => user_val S0 k t id \/ (id = EmptyString /\ forall id', ~ user_val S0 k t id')
    | None => id = if decide (TType (sr_target r) = TargetTypeUser) then TID (sr_target r)
                   else EmptyString
    end
  else id = EmptyString.

(** The map of an override calculator: an id that is removed maps to the empty
    string, one that is replaced to (one of) its replacements. *)
Definition map_val (S0 : store) (o : OverrideCalculator) (t : Z) (m : gmap string string) : Prop :=
  (forall id v, m !! id = Some v ->
     (exists rid, user_val S0 (o_replace o) t rid /\ SplitN2 rid = Some (id, v)) \/
     (v = EmptyString /\ user_val S0 (o_remove o) t id)) /\
  (forall id, m !! id = None ->
     ~ user_val S0 (o_remove o) t id /\
     forall rid v, user_val S0 (o_replace o) t rid -> SplitN2 rid <> Some (id, v)) /\
  (** a replacement takes precedence over a removal *)
  (forall id, m !! id = Some EmptyString ->
     (exists rid, user_val S0 (o_replace o) t rid /\ SplitN2 rid = Some (id, EmptyString)) \/
     (forall rid v, user_val S0 (o_replace o) t rid -> SplitN2 rid <> Some (id, v))).

(** ** Well-formed initial stores *)

Definition wf_sub (S0 : store) (k : nat) (s : Sub) : Prop :=
  match s with
  | SActive a =>
      (** entries are whole minutes after the first of 1970 *)
      ac_init a = true /\ alternating (states a) false 59 /\ Active a = false
  | SUser u =>
      (forall id c, (id, c) ∈ calc u -> (c < k)%nat /\ is_Some (get_active S0 c)) /\
      NoDup (calc u).*1 /\ u_active u = [] /\ u_changed u = false
  | SSingle r =>
      (sr_act r < k)%nat /\ is_Some (get_active S0 (sr_act r)) /\
      (forall j, sr_rot r = Some j -> (j < k)%nat /\ is_Some (get_user S0 j)) /\
      sr_userID r = EmptyString
  | SOverride o =>
      (o_add o < k /\ o_remove o < k /\ o_replace o < k)%nat /\
      is_Some (get_user S0 (o_add o)) /\ is_Some (get_user S0 (o_remove o)) /\
      is_Some (get_user S0 (o_replace o)) /\ userMap o = ∅ /\
      forall u id c, get_user S0 (o_replace o) = Some u -> (id, c) ∈ calc u -> is_Some (SplitN2 id)
  | SRules r =>
      (forall j, j ∈ r_rules r -> (j < k)%nat /\ is_Some (get_single S0 j)) /\ r_userIDs r = []
  end.

Definition wf_store (S0 : store) : Prop := forall k s, S0 !! k = Some s -> wf_sub S0 k s.

(** ** The store at a time *)

Definition nonempty (ids : list string) : list string :=
  List.filter (fun id => negb (String.eqb id EmptyString)) ids.

(** [w]'s calculator number [k], given what it was before, describes [t]. *)
Definition describes_active (a0 a : ActiveCalculator) (t : Z) : Prop :=
  ac_init a = true /\ Active a = state_at (states a0) t false /\
  alternating (states a) (Active a) t /\
  forall t', t <= t' -> state_at (states a0) t' false = state_at (states a) t' (Active a).

Definition describes_sub (S0 w : store) (t : Z) (k : nat) : Prop :=
  match S0 !! k, w !! k with
  | Some (SActive a0), Some (SActive a) => describes_active a0 a t
  | Some (SUser u0), Some (SUser u) =>
      calc u = calc u0 /\ NoDup (u_active u) /\ (forall id, id ∈ u_active u <-> user_val S0 k t id) /\
      (calc u = [] -> u_changed u = false)
  | Some (SSingle r0), Some (SSingle r) =>
      sr_act r = sr_act r0 /\ sr_rot r = sr_rot r0 /\ sr_target r = sr_target r0 /\
      single_val S0 r0 t (sr_userID r)
  | Some (SOverride o0), Some (SOverride o) =>
      o_add o = o_add o0 /\ o_remove o = o_remove o0 /\ o_replace o = o_replace o0 /\
      map_val S0 o0 t (userMap o)
  | Some (SRules r0), Some (SRules r) =>
      r_rules r = r_rules r0 /\
      exists rs, mapM (get_single w) (r_rules r) = Some rs /\ r_userIDs r = nonempty (map sr_userID rs)
  | None, None => True
  | _, _ => False
  end.

Definition describes (S0 : store) (t : Z) (w : store) : Prop := forall k, describes_sub S0 w t k.

(** The next entry of an active calculator is a bound. *)
Definition bound (w : store) (b : Z) : Prop :=
  exists k a v rest, get_active w k = Some a /\ states a = v :: rest /\ b = acT v.

(** ** Entries *)

Lemma state_at_before l cur t : alternating l cur t -> state_at l t cur = cur.
Proof.
  destruct l as [|v l]; simpl; [done|]. intros (H & _). by rewrite (proj2 (Z.leb_gt _ _)).
Qed.

Lemma alternating_weaken l cur t t' : t' <= t -> alternating l cur t -> alternating l cur t'.
Proof. destruct l; simpl; [done|]. intros ? (? & ? & ?). split; [lia|done]. Qed.

Lemma state_at_none l cur t : (forall v, v ∈ l -> t < acT v) -> state_at l t cur = cur.
Proof.
  destruct l as [|v l]; simpl; [done|]. intros H. rewrite (proj2 (Z.leb_gt _ _)); [done|].
  apply H. by left.
Qed.

(** ** Lists of users *)

Lemma omitStr_spec l v :
  NoDup l -> NoDup (omitStr l v) /\ forall x, x ∈ omitStr l v <-> x ∈ l /\ x <> v.
Proof.
  induction 1 as [|y l Hy Hl [IH1 IH2]]; simpl.
  { split; [constructor|]. intros x. rewrite elem_of_nil. tauto. }
  destruct (String.eqb_spec y v) as [->|Hne]; simpl.
  - split; [done|]. intros x. rewrite elem_of_cons. split; [|tauto].
    intros Hx. split; [by right|]. intros ->. done.
  - split; [constructor; [rewrite IH2; tauto|done]|]. intros x. rewrite !elem_of_cons, IH2.
    split; [intros [->|[? ?]]; auto|tauto].
Qed.

Lemma nonempty_spec ids id : id ∈ nonempty ids <-> id ∈ ids /\ id <> EmptyString.
Proof.
  unfold nonempty. rewrite list_elem_of_In, filter_In, <- list_elem_of_In.
  destruct (String.eqb_spec id EmptyString); simpl; intuition congruence.
Qed.

Lemma get_active_lookup w k a : get_active w k = Some a <-> w !! k = Some (SActive a).
Proof. unfold get_active. destruct (w !! k) as [[]|]; naive_solver. Qed.
Lemma get_user_lookup w k a : get_user w k = Some a <-> w !! k = Some (SUser a).
Proof. unfold get_user. destruct (w !! k) as [[]|]; naive_solver. Qed.
Lemma get_single_lookup w k a : get_single w k = Some a <-> w !! k = Some (SSingle a).
Proof. unfold get_single. destruct (w !! k) as [[]|]; naive_solver. Qed.

(** ** One round *)

Lemma active_step a0 a t t' :
  describes_active a0 a t -> t < t' ->
  (forall v rest, states a = v :: rest -> t' <= acT v) ->
  exists a' h, processActive t' a = Some (a', h) /\ describes_active a0 a' t' /\
    ac_changed a' = negb (eqb (state_at (states a0) t false) (state_at (states a0) t' false)) /\
    answer_ok t' h /\ (forall v rest, states a' = v :: rest -> acT v = h).
Proof.
  intros (Hi & Hv & Ha & Hs) Hlt Hb. unfold processActive. rewrite Hi. cbn [negb].
  pose proof (Hs t' ltac:(lia)) as Ht'. rewrite <- Hv.
  destruct (states a) as [|v rest] eqn:E.
  - simpl in Ht'. eexists _, _. split; [reflexivity|]. rewrite Ht'. unfold describes_active, Active. simpl.
    split_and!; [done|done|done| |by rewrite eqb_reflx|by left|done].
    intros t2 Ht2. by rewrite Hs by lia.
  - specialize (Hb v rest eq_refl). simpl in Ha. destruct Ha as (Ht & Hneg & Ha).
    destruct (acT v =? t') eqn:ET; bprop.
    + assert (state_at (states a0) t' false = IsStart v) as E'.
      { rewrite Ht'. simpl. rewrite (proj2 (Z.leb_le _ _)) by lia.
        apply state_at_before. by rewrite <- ET. }
      eexists _, _. split; [reflexivity|]. rewrite E'. unfold describes_active, Active.
      cbn [ac_init ac_active states ac_changed]. split_and!.
      * done.
      * done.
      * by rewrite <- ET.
      * intros t2 Ht2. rewrite Hs by lia. simpl. by rewrite (proj2 (Z.leb_le _ _)) by lia.
      * rewrite Hneg. unfold Active. by destruct (IsStart (ac_active a)).
      * destruct rest as [|v2 rest]; [by left|]. simpl in Ha. right. right. lia.
      * intros v2 r2 Hr. by rewrite Hr.
    + assert (state_at (states a0) t' false = Active a) as E'.
      { rewrite Ht'. simpl. by rewrite (proj2 (Z.leb_gt _ _)) by lia. }
      eexists _, _. split; [reflexivity|]. rewrite E'. unfold describes_active, Active.
      cbn [ac_init ac_active states ac_changed]. split_and!.
      * done.
      * done.
      * split; [lia|]. split; [done|done].
      * intros t2 Ht2. by rewrite Hs by lia.
      * by rewrite eqb_reflx.
      * right. right. lia.
      * by intros v2 r2 [= <- <-].
Qed.

(** What a round has done to calculator [k] of the store [w], from [prev] at
    [t] to [t']. *)
Definition changes (S0 prev w : store) (t t' : Z) (k : nat) : Prop :=
  match S0 !! k, w !! k with
  | Some (SActive a0), Some (SActive a) =>
      ac_changed a = negb (eqb (state_at (states a0) t false) (state_at (states a0) t' false))
  | Some (SUser u0), Some (SUser u) =>
      u_changed u = false -> forall id, user_val S0 k t id <-> user_val S0 k t' id
  | Some (SSingle r0), Some (SSingle r) =>
      exists rp, get_single prev k = Some rp /\
        (sr_changed r = false -> sr_userID r = sr_userID rp)
  | _, _ => True
  end.

Section round.
Context (S0 prev : store) (t t' : Z).
Hypothesis Hwf : wf_store S0.
Hypothesis Hprev : describes S0 t prev.
Hypothesis Hlt : t < t'.
Hypothesis Hbound : forall b, bound prev b -> t' <= b.

(** The first [k] calculators have been processed. *)
Definition mid (k : nat) (w : store) : Prop :=
  length w = length prev /\ (forall j, (k <= j)%nat -> w !! j = prev !! j) /\
  forall j, (j < k)%nat -> describes_sub S0 w t' j /\ changes S0 prev w t t' j.

Lemma get_same w w' j : w' !! j = w !! j -> get_active w' j = get_active w j /\
  get_user w' j = get_user w j /\ get_single w' j = get_single w j.
Proof. intros E. unfold get_active, get_user, get_single. by rewrite E. Qed.

(** What the first [k] describe does not depend on the rest. *)
Lemma describes_sub_mono w w' u j :
  (forall i, (i <= j)%nat -> w' !! i = w !! i) ->
  describes_sub S0 w u j -> describes_sub S0 w' u j.
Proof using Hwf.
  intros Hsame. unfold describes_sub. rewrite (Hsame j) by done.
  destruct (S0 !! j) as [s0|] eqn:E0; [|done]. destruct (w !! j) as [s|] eqn:E; [|done].
  destruct s0, s; try done. intros (Hr & rs & Hrs & Hu). split; [done|]. exists rs.
  split; [|done]. rewrite <- Hrs. rewrite Hr. specialize (Hwf j _ E0) as [Hw _].
  assert (forall i, i ∈ r_rules r -> get_single w' i = get_single w i) as HG.
  { intros i Hi. destruct (Hw i Hi) as [Hij _]. apply get_same, Hsame. lia. }
  clear - HG. induction (r_rules r) as [|i l IH]; simpl; [done|].
  rewrite HG by left. rewrite IH; [done|]. intros; apply HG; by right.
Qed.

Lemma mid_extend k w s :
  mid k w -> (k < length w)%nat ->
  describes_sub S0 (<[k:=s]> w) t' k -> changes S0 prev (<[k:=s]> w) t t' k ->
  mid (S k) (<[k:=s]> w).
Proof using Hwf.
  intros (Hl & Hge & Hmid) Hk Hd Hc. split; [by rewrite length_insert|]. split.
  - intros j Hj. rewrite list_lookup_insert_ne by lia. apply Hge. lia.
  - intros j Hj. destruct (decide (j = k)) as [->|Hne]; [done|].
    destruct (Hmid j ltac:(lia)) as [Hd' Hc']. split.
    + eapply describes_sub_mono; [|exact Hd']. intros i Hi. apply list_lookup_insert_ne. lia.
    + unfold changes in *. by rewrite list_lookup_insert_ne by lia.
Qed.

(** A processed active calculator. *)
Lemma mid_active k w c a0 :
  mid k w -> (c < k)%nat -> get_active S0 c = Some a0 ->
  exists a, get_active w c = Some a /\ Active a = act_val S0 c t' /\
    ac_changed a = negb (eqb (act_val S0 c t) (act_val S0 c t')).
Proof.
  intros (_ & _ & Hmid) Hc E0. destruct (Hmid c Hc) as [Hd Hch].
  unfold act_val. rewrite E0. apply get_active_lookup in E0.
  unfold describes_sub, changes in *. rewrite E0 in *.
  destruct (w !! c) as [[a| | | |]|] eqn:E; try done. exists a.
  split; [by apply get_active_lookup|]. split; [apply Hd|done].
Qed.

Lemma mid_user k w c u0 :
  mid k w -> (c < k)%nat -> get_user S0 c = Some u0 ->
  exists u, get_user w c = Some u /\ NoDup (u_active u) /\
    (forall id, id ∈ u_active u <-> user_val S0 c t' id) /\
    (u_changed u = false -> forall id, user_val S0 c t id <-> user_val S0 c t' id).
Proof.
  intros (_ & _ & Hmid) Hc E0. destruct (Hmid c Hc) as [Hd Hch].
  apply get_user_lookup in E0. unfold describes_sub, changes in *. rewrite E0 in *.
  destruct (w !! c) as [[|u| | |]|] eqn:E; try done. exists u.
  split; [by apply get_user_lookup|]. split; [apply Hd|]. split; [apply Hd|done].
Qed.

(** The loop of [UserCalculator.Process]: [done] is the part already seen. *)
Lemma user_loop_spec k w cs : forall seen active changed,
  mid k w -> NoDup (seen ++ cs).*1 ->
  (forall id c, (id, c) ∈ cs -> (c < k)%nat /\ is_Some (get_active S0 c)) ->
  NoDup active ->
  (forall id, id ∈ active <-> (exists c, (id, c) ∈ seen /\ act_val S0 c t' = true) \/
                              (exists c, (id, c) ∈ cs /\ act_val S0 c t = true)) ->
  exists active' changed', user_loop w cs active changed = Some (active', changed') /\
    NoDup active' /\
    (forall id, id ∈ active' <-> exists c, (id, c) ∈ seen ++ cs /\ act_val S0 c t' = true) /\
    (changed' = false -> changed = false /\
       forall id c, (id, c) ∈ cs -> act_val S0 c t = act_val S0 c t').
Proof.
  induction cs as [|[id c] cs IH]; intros seen active changed Hmid Hnd Hcs Ha Hset;
    cbn [user_loop].
  { exists active, changed. split; [done|]. split; [done|]. split.
    - intros i. rewrite Hset, app_nil_r. split; [|by left].
      intros [H|(x & H & _)]; [done|by apply elem_of_nil in H].
    - intros Hch. split; [done|]. intros i x H. by apply elem_of_nil in H. }
  destruct (Hcs id c ltac:(by left)) as [Hck [a0 E0]].
  destruct (mid_active k w c a0 Hmid Hck E0) as (a & -> & EA & EC). cbn [mbind option_bind].
  assert (Hid : forall c', (id, c') ∈ seen -> False).
  { intros c' Hin. rewrite fmap_app, NoDup_app in Hnd. destruct Hnd as (_ & Hnd & _).
    apply (Hnd id); [apply list_elem_of_fmap; by exists (id, c')|by left]. }
  assert (Hid' : forall c', (id, c') ∈ cs -> False).
  { intros c' Hin. rewrite fmap_app, NoDup_app in Hnd. destruct Hnd as (_ & _ & Hnd).
    inversion Hnd as [|? ? Hn _]; subst. apply Hn, list_elem_of_fmap. by exists (id, c'). }
  assert (Hnd' : NoDup ((seen ++ [(id, c)]) ++ cs).*1) by by rewrite <- app_assoc.
  assert (Hcs' : forall i x, (i, x) ∈ cs -> (x < k)%nat /\ is_Some (get_active S0 x))
    by (intros i x H; apply (Hcs i x); by right).
  assert (Hset' : forall i, i ∈ (if negb (ac_changed a) then active
                     else if Active a then active ++ [id] else omitStr active id) <->
    (exists x, (i, x) ∈ seen ++ [(id, c)] /\ act_val S0 x t' = true) \/
    (exists x, (i, x) ∈ cs /\ act_val S0 x t = true)).
  { intros i. rewrite EC, EA.
    assert ((exists x, (i, x) ∈ seen ++ [(id, c)] /\ act_val S0 x t' = true) <->
      (exists x, (i, x) ∈ seen /\ act_val S0 x t' = true) \/ (i = id /\ act_val S0 c t' = true)) as ->.
    { split.
      - intros (x & [H|H]%elem_of_app & Hv); [left; by exists x|].
        apply list_elem_of_singleton in H as [= -> ->]. by right.
      - intros [(x & H & Hv)|[-> Hv]]; [exists x|exists c]; (split; [|done]); apply elem_of_app; [by left|].
        right. by apply list_elem_of_singleton. }
    assert (i ∈ active <-> (exists x, (i, x) ∈ seen /\ act_val S0 x t' = true) \/
      (i = id /\ act_val S0 c t = true) \/ (exists x, (i, x) ∈ cs /\ act_val S0 x t = true)) as HA.
    { rewrite Hset. split.
      - intros [H|(x & [[= -> ->]|H]%elem_of_cons & Hv)]; [by left|right; by left|].
        right. right. by exists x.
      - intros [H|[[-> Hv]|(x & H & Hv)]]; [by left|right; exists c; split; [by left|done]|].
        right. exists x. split; [by right|done]. }
    destruct (act_val S0 c t) eqn:V, (act_val S0 c t') eqn:V'; cbn [eqb negb].
    - rewrite HA. tauto.
    - rewrite (proj2 (omitStr_spec active id Ha)), HA. split; [|].
      + intros [[H|[[H _]|H]] Hne]; [by left; left|done|by right].
      + intros [[(x & H & Hv)|[_ H]]|(x & H & Hv)]; [|done|].
        * split; [left; by exists x|]. intros ->. by eapply Hid.
        * split; [right; right; by exists x|]. intros ->. by eapply Hid'.
    - rewrite elem_of_app, list_elem_of_singleton, HA. intuition congruence.
    - rewrite HA. intuition congruence. }
  assert (NoDup (if negb (ac_changed a) then active
                     else if Active a then active ++ [id] else omitStr active id)) as Ha'.
  { destruct (ac_changed a) eqn:EC2; cbn [negb]; [|done].
    destruct (Active a) eqn:EA2; [|by apply omitStr_spec].
    apply NoDup_app. split; [done|]. split; [|by apply NoDup_singleton].
    intros x Hx Hx'. apply list_elem_of_singleton in Hx' as ->. apply Hset in Hx as [(x & H & _)|(x & H & Hv)].
    - by eapply Hid.
    - apply elem_of_cons in H as [[= ->]|H]; [|by eapply Hid'].
      rewrite <- EA, Hv in EC. discriminate. }
  specialize (IH (seen ++ [(id, c)])
    (if negb (ac_changed a) then active else if Active a then active ++ [id] else omitStr active id)
    (if negb (ac_changed a) then changed else true) Hmid Hnd' Hcs' Ha' Hset').
  destruct IH as (active' & changed' & E & H1 & H2 & H3).
  exists active', changed'. split; [by destruct (ac_changed a)|]. split; [done|]. split.
  - intros i. by rewrite H2, <- app_assoc.
  - intros Hc. destruct (H3 Hc) as [Hc1 Hc2]. destruct (ac_changed a); cbn [negb] in Hc1; [done|].
    split; [done|]. intros i x [[= -> ->]|H]%elem_of_cons; [|by eapply Hc2].
    destruct (act_val S0 c t), (act_val S0 c t'); done.
Qed.
Lemma user_val_iff k u0 u id :
  get_user S0 k = Some u0 ->
  user_val S0 k u id <-> exists c, (id, c) ∈ calc u0 /\ act_val S0 c u = true.
Proof.
  intros E. unfold user_val. rewrite E. split.
  - intros (u1 & c & [= <-] & H). by exists c.
  - intros (c & H). by exists u0, c.
Qed.

Lemma step_user k w u0 u :
  mid k w -> S0 !! k = Some (SUser u0) -> w !! k = Some (SUser u) ->
  describes_sub S0 prev t k -> prev !! k = Some (SUser u) ->
  exists u' h, processUser w u = Some (u', h) /\ (h = -1 \/ h = 0) /\
    describes_sub S0 (<[k:=SUser u']> w) t' k /\ changes S0 prev (<[k:=SUser u']> w) t t' k.
Proof using Hwf.
  intros Hmid E0 Ew Hd Ep. unfold describes_sub in Hd. rewrite E0, Ep in Hd.
  destruct Hd as (Ec & Hn & Hset & Hch). pose proof (Hwf k _ E0) as (Hcalc & Hnd & _).
  assert (k < length w)%nat as Hk by by eapply lookup_lt_Some.
  assert (get_user S0 k = Some u0) as Eg by by apply get_user_lookup.
  unfold processUser. destruct (calc u) as [|e cs] eqn:EC.
  - exists u, (-1). split; [done|]. split; [by left|].
    unfold describes_sub, changes. rewrite E0, list_lookup_insert_eq by done.
    assert (forall v id, ~ user_val S0 k v id) as Hno.
    { intros v id. rewrite (user_val_iff k u0) by done. rewrite <- Ec.
      intros (c & H & _). by apply elem_of_nil in H. }
    split; [|intros _ id; split; intros H; by destruct (Hno _ _ H)].
    split; [congruence|]. split; [done|]. split; [|intros _; by apply Hch]. intros id. rewrite Hset.
    split; intros H; by destruct (Hno _ _ H).
  - rewrite <- EC. destruct (user_loop_spec k w (calc u) [] (u_active u) false Hmid)
      as (act' & ch' & E & H1 & H2 & H3).
    + rewrite EC, Ec. done.
    + rewrite EC, Ec. done.
    + done.
    + intros id. rewrite Hset, (user_val_iff k u0) by done. rewrite EC, Ec. split; [by right|].
      intros [(c & H & _)|H]; [by apply elem_of_nil in H|done].
    + rewrite E. cbn [mbind option_bind]. eexists _, 0. split; [reflexivity|]. split; [by right|].
      unfold describes_sub, changes. rewrite E0, list_lookup_insert_eq by done.
      cbn [calc u_active u_changed]. split.
      * split; [congruence|]. split; [done|]. split; [|congruence]. intros id.
        rewrite H2, (user_val_iff k u0) by done. by rewrite EC, Ec.
      * intros Hf id. destruct (H3 Hf) as [_ Hsame]. rewrite !(user_val_iff k u0) by done.
        rewrite EC, Ec in Hsame. split; intros (c & Hin & Hv); exists c; (split; [done|]).
        -- by rewrite <- (Hsame id c Hin).
        -- by rewrite (Hsame id c Hin).
Qed.

Lemma step_single k w r0 r :
  mid k w -> S0 !! k = Some (SSingle r0) -> w !! k = Some (SSingle r) ->
  describes_sub S0 prev t k -> prev !! k = Some (SSingle r) ->
  exists r', processSingle w r = Some (r', 0) /\
    describes_sub S0 (<[k:=SSingle r']> w) t' k /\ changes S0 prev (<[k:=SSingle r']> w) t t' k.
Proof using Hwf.
  intros Hmid E0 Ew Hd Ep. unfold describes_sub in Hd. rewrite E0, Ep in Hd.
  destruct Hd as (Ea & Er & Et & _). pose proof (Hwf k _ E0) as (Hak & [a0 Ha0] & Hrot & _).
  assert (k < length w)%nat as Hk by by eapply lookup_lt_Some.
  destruct (mid_active k w _ a0 Hmid Hak Ha0) as (a & EA & EV & _).
  assert (forall id b, describes_sub S0 (<[k:=SSingle (mkSingle (sr_act r) (sr_rot r) (sr_target r) id b)]> w) t' k
    <-> single_val S0 r0 t' id) as HD.
  { intros id b. unfold describes_sub. rewrite E0, list_lookup_insert_eq by done. simpl. tauto. }
  assert (forall id b, (b = false -> id = sr_userID r) ->
    changes S0 prev (<[k:=SSingle (mkSingle (sr_act r) (sr_rot r) (sr_target r) id b)]> w) t t' k) as HC.
  { intros id b H. unfold changes. rewrite E0, list_lookup_insert_eq by done.
    exists r. split; [by apply get_single_lookup|done]. }
  assert (forall id, negb (String.eqb (sr_userID r) id) = false -> id = sr_userID r) as Hsame.
  { intros id H. apply negb_false_iff, String.eqb_eq in H. done. }
  unfold processSingle. rewrite Ea, EA. cbn [mbind option_bind].
  rewrite EV. unfold single_val in HD.
  destruct (act_val S0 (sr_act r0) t') eqn:EVal.
  - rewrite Er. destruct (sr_rot r0) as [j|] eqn:EJ.
    + destruct (Hrot j eq_refl) as [Hjk [u0 Hu0]].
      destruct (mid_user k w j u0 Hmid Hjk Hu0) as (u & EU & _ & HU & _). rewrite EU. cbn [mbind option_bind].
      eexists. rewrite <- Ea, <- Er. split; [reflexivity|]. split; [|by apply HC; auto]. apply HD.
      destruct (u_active u) as [|x l] eqn:EL; cbn [hd].
      * right. split; [done|]. intros id' Hv. apply HU in Hv. by apply elem_of_nil in Hv.
      * left. apply HU. by left.
    + cbn [mbind option_bind]. eexists. rewrite <- Ea, <- Er. split; [reflexivity|].
      split; [|by apply HC; auto]. apply HD. by rewrite Et.
  - cbn [mbind option_bind]. eexists. rewrite <- Ea. split; [reflexivity|].
    split; [|by apply HC; auto]. by apply HD.
Qed.

Lemma replace_loop_spec ids : forall m,
  (forall id, id ∈ ids -> is_Some (SplitN2 id)) ->
  exists m', replace_loop ids m = Some m' /\
    (forall id v, m' !! id = Some v ->
       (exists rid, rid ∈ ids /\ SplitN2 rid = Some (id, v)) \/
       (m !! id = Some v /\ forall rid v', rid ∈ ids -> SplitN2 rid <> Some (id, v'))) /\
    (forall id, m' !! id = None ->
       m !! id = None /\ forall rid v', rid ∈ ids -> SplitN2 rid <> Some (id, v')).
Proof.
  induction ids as [|i ids IH]; intros m Hs; cbn [replace_loop].
  { exists m. split; [done|]. split.
    - intros id v H. right. split; [done|]. intros rid v' Hr. by apply elem_of_nil in Hr.
    - intros id H. split; [done|]. intros rid v' Hr. by apply elem_of_nil in Hr. }
  destruct (Hs i ltac:(by left)) as [[a b] Ei]. rewrite Ei. cbn [mbind option_bind].
  destruct (IH (<[a:=b]> m)) as (m' & E & H1 & H2); [intros; apply Hs; by right|].
  exists m'. split; [done|]. split.
  - intros id v H. destruct (H1 id v H) as [(rid & Hr & Hsp)|[Hm Hno]].
    + left. exists rid. split; [by right|done].
    + apply lookup_insert_Some in Hm as [[-> ->]|[Hne Hm]].
      * left. exists i. split; [by left|done].
      * right. split; [done|]. intros rid v' [->|Hr]%elem_of_cons; [congruence|by apply Hno].
  - intros id H. destruct (H2 id H) as [Hm Hno]. apply lookup_insert_None in Hm as [Hm Hne].
    split; [done|]. intros rid v' [->|Hr]%elem_of_cons; [congruence|by apply Hno].
Qed.

Lemma remove_fold_spec ids : forall (m : gmap string string),
  let m' := fold_left (fun m id => <[id := EmptyString]> m) ids m in
  forall id v, m' !! id = Some v <-> (id ∈ ids /\ v = EmptyString) \/ (~ (id ∈ ids) /\ m !! id = Some v).
Proof.
  induction ids as [|i ids IH]; intros m; cbn [fold_left]; cbv zeta; intros id v.
  { rewrite elem_of_nil. tauto. }
  rewrite IH. rewrite lookup_insert_Some, elem_of_cons.
  destruct (decide (id ∈ ids)), (decide (id = i)) as [->|Hne]; intuition congruence.
Qed.

Lemma map_val_iff o u u' m :
  (forall id, user_val S0 (o_remove o) u id <-> user_val S0 (o_remove o) u' id) ->
  (forall id, user_val S0 (o_replace o) u id <-> user_val S0 (o_replace o) u' id) ->
  map_val S0 o u m -> map_val S0 o u' m.
Proof.
  intros Hr Hp (H1 & H2 & H3). split; [|split].
  - intros id v H. destruct (H1 id v H) as [(rid & Hu & Hs)|[Hv Hu]].
    + left. exists rid. by rewrite <- Hp.
    + right. by rewrite <- Hr.
  - intros id H. destruct (H2 id H) as [Ha Hb]. rewrite <- Hr. split; [done|].
    intros rid v Hu. apply Hb. by apply Hp.
  - intros id H. destruct (H3 id H) as [(rid & Hu & Hs)|Hn].
    + left. exists rid. by rewrite <- Hp.
    + right. intros rid v Hu. apply Hn. by apply Hp.
Qed.

Lemma step_override k w o0 o :
  mid k w -> S0 !! k = Some (SOverride o0) -> w !! k = Some (SOverride o) ->
  describes_sub S0 prev t k -> prev !! k = Some (SOverride o) ->
  exists o', processOverride w o = Some (o', 0) /\
    describes_sub S0 (<[k:=SOverride o']> w) t' k /\ changes S0 prev (<[k:=SOverride o']> w) t t' k.
Proof using Hwf.
  intros Hmid E0 Ew Hd Ep. unfold describes_sub in Hd. rewrite E0, Ep in Hd.
  destruct Hd as (Ea & Er & Et & Hm).
  pose proof (Hwf k _ E0) as ((_ & Hrk & Hpk) & _ & [ur Hur] & [up Hup] & _ & Hsplit).
  assert (k < length w)%nat as Hk by by eapply lookup_lt_Some.
  destruct (mid_user k w _ ur Hmid Hrk Hur) as (r & EU & _ & Hr & Hrc).
  destruct (mid_user k w _ up Hmid Hpk Hup) as (p & EP & _ & Hp & Hpc).
  unfold processOverride. rewrite Er, EU, Et, EP. cbn [mbind option_bind].
  assert (forall m, map_val S0 o0 t' m ->
    describes_sub S0 (<[k:=SOverride (mkOverride (o_add o) (o_remove o) (o_replace o) m)]> w) t' k /\
    changes S0 prev (<[k:=SOverride (mkOverride (o_add o) (o_remove o) (o_replace o) m)]> w) t t' k) as HD.
  { intros m H. unfold describes_sub, changes. by rewrite E0, list_lookup_insert_eq by done. }
  destruct (negb (u_changed r) && negb (u_changed p)) eqn:EC.
  - exists o. split; [done|]. apply andb_true_iff in EC as [EC1 EC2].
    apply negb_true_iff in EC1, EC2. destruct o as [oa orr op om]. apply HD. cbn [userMap] in *.
    apply (map_val_iff o0 t); auto.
  - destruct (replace_loop_spec (u_active p)
      (fold_left (fun m id => <[id := EmptyString]> m) (u_active r) ∅)) as (m & EM & H1 & H2).
    { intros id Hid. apply Hp in Hid. apply (user_val_iff _ up) in Hid as (c & Hc & _); [|done].
      by eapply Hsplit. }
    rewrite EM. cbn [mbind option_bind]. eexists. rewrite <- Et, <- Er. split; [reflexivity|].
    apply HD. split; [|split].
    + intros id v H. destruct (H1 id v H) as [(rid & Hu & Hs)|[Hf _]].
      * left. exists rid. split; [by apply Hp|done].
      * right. apply remove_fold_spec in Hf as [[Hin ->]|[_ Hf]]; [|done].
        split; [done|by apply Hr].
    + intros id H. destruct (H2 id H) as [Hf Hno]. split.
      * intros Hv. apply Hr in Hv.
        pose proof (proj2 (remove_fold_spec (u_active r) ∅ id EmptyString)
          (or_introl (conj Hv eq_refl))) as E. cbv zeta in E. congruence.
      * intros rid v Hv. apply Hno. by apply Hp.
    + intros id H. destruct (H1 id _ H) as [(rid & Hu & Hs)|[_ Hno]].
      * left. exists rid. split; [by apply Hp|done].
      * right. intros rid v Hv. apply Hno. by apply Hp.
Qed.

Lemma mapM_single_spec w refs :
  (forall j, j ∈ refs -> is_Some (get_single w j)) ->
  exists rs, mapM (get_single w) refs = Some rs /\ Forall2 (fun j r => get_single w j = Some r) refs rs.
Proof.
  induction refs as [|j refs IH]; intros H; simpl; [by exists []; split|].
  destruct (H j ltac:(by left)) as [r Er]. rewrite Er. simpl.
  destruct IH as (rs & -> & HF); [intros; apply H; by right|]. exists (r :: rs). by split; [|constructor].
Qed.

Lemma mapM_single_insert (w : store) k s refs :
  (forall j, j ∈ refs -> (j < k)%nat) ->
  mapM (get_single (<[k:=s]> w)) refs = mapM (get_single w) refs.
Proof.
  induction refs as [|j refs IH]; intros H; simpl; [done|].
  rewrite IH by (intros; apply H; by right). specialize (H j ltac:(by left)).
  assert (get_single (<[k:=s]> w) j = get_single w j) as ->; [|done].
  apply get_same, list_lookup_insert_ne. lia.
Qed.

Lemma step_rules k w r0 r :
  mid k w -> S0 !! k = Some (SRules r0) -> w !! k = Some (SRules r) ->
  describes_sub S0 prev t k -> prev !! k = Some (SRules r) ->
  exists r', processRules w r = Some (r', 0) /\
    describes_sub S0 (<[k:=SRules r']> w) t' k /\ changes S0 prev (<[k:=SRules r']> w) t t' k.
Proof using Hwf.
  intros Hmid E0 Ew Hd Ep. unfold describes_sub in Hd. rewrite E0, Ep in Hd.
  destruct Hd as (Ea & rs0 & Hrs0 & Hids). pose proof (Hwf k _ E0) as (Hrefs & _).
  assert (k < length w)%nat as Hk by by eapply lookup_lt_Some.
  assert (forall j, j ∈ r_rules r -> exists rj rp, get_single w j = Some rj /\
    get_single prev j = Some rp /\ (sr_changed rj = false -> sr_userID rj = sr_userID rp)) as Hj.
  { intros j Hj. rewrite Ea in Hj. destruct (Hrefs j Hj) as [Hjk [s0 Es0]].
    destruct Hmid as (_ & _ & Hmid). destruct (Hmid j Hjk) as [Hdj Hcj].
    apply get_single_lookup in Es0. unfold describes_sub, changes in *. rewrite Es0 in *.
    destruct (w !! j) as [[| |rj| |]|] eqn:Ej; try done. destruct Hcj as (rp & Hp & Hc).
    exists rj, rp. split; [by apply get_single_lookup|done]. }
  destruct (mapM_single_spec w (r_rules r)) as (rs & ERS & HF).
  { intros j Hin. destruct (Hj j Hin) as (rj & _ & -> & _). done. }
  assert (forall s, mapM (get_single (<[k:=s]> w)) (r_rules r) = Some rs) as ERS'.
  { intros s. rewrite mapM_single_insert; [done|]. intros j Hin. rewrite Ea in Hin.
    by destruct (Hrefs j Hin). }
  assert (forall ids b, ids = nonempty (map sr_userID rs) ->
    describes_sub S0 (<[k:=SRules (mkRules (r_rules r) ids b)]> w) t' k /\
    changes S0 prev (<[k:=SRules (mkRules (r_rules r) ids b)]> w) t t' k) as HD.
  { intros ids b Hi. unfold describes_sub, changes. rewrite E0, list_lookup_insert_eq by done.
    split; [|done]. split; [done|]. exists rs. split; [apply ERS'|done]. }
  unfold processRules. rewrite ERS. cbn [mbind option_bind].
  destruct (existsb sr_changed rs) eqn:EX; cbn [negb].
  - eexists. split; [reflexivity|]. by apply HD.
  - eexists. split; [reflexivity|]. apply HD. rewrite Hids. f_equal.
    clear - HF Hrs0 EX Hj. revert rs0 Hrs0.
    induction HF as [|j r1 refs rs Hjr HF IH]; intros rs0 Hrs0; simpl in *.
    { by injection Hrs0 as <-. }
    apply orb_false_iff in EX as [EX1 EX2].
    destruct (Hj j ltac:(by left)) as (rj & rp & E1 & E2 & Hc). rewrite E2 in Hrs0. simpl in Hrs0.
    destruct (mapM (get_single prev) refs) as [rs1|] eqn:EM; [|done]. simpl in Hrs0.
    injection Hrs0 as <-. simpl. rewrite (IH ltac:(intros; apply Hj; by right) EX2 rs1 eq_refl).
    f_equal. rewrite Hjr in E1. injection E1 as <-. symmetry. by apply Hc.
Qed.

Lemma step k w :
  mid k w -> (k < length prev)%nat ->
  exists w1 h, process k t' w = Some (w1, h) /\ mid (S k) w1 /\ answer_ok t' h /\
    (forall a v rest, get_active w1 k = Some a -> states a = v :: rest -> acT v = h) /\
    (forall j, j <> k -> w1 !! j = w !! j).
Proof using Hwf Hprev Hlt Hbound.
  intros Hmid Hk. pose proof Hmid as (Hl & Hge & _).
  pose proof (Hprev k) as Hd. pose proof (Hge k ltac:(lia)) as Ek.
  assert (k < length w)%nat as Hkw by lia.
  assert (forall s j, j <> k -> <[k:=s]> w !! j = w !! j) as Hother
    by (intros; by apply list_lookup_insert_ne).
  assert (forall s a v (rest : list activeCalcValue) (h : Z), (forall x, s <> SActive x) ->
    get_active (<[k:=s]> w) k = Some a -> states a = v :: rest -> acT v = h) as Hnot.
  { intros s a v rest h Hs H. apply get_active_lookup in H.
    rewrite list_lookup_insert_eq in H by done. injection H as ->. by destruct (Hs a). }
  destruct (lookup_lt_is_Some_2 prev k Hk) as [s Es]. rewrite Es in Ek.
  unfold process. rewrite Ek. pose proof Hd as Hd'. unfold describes_sub in Hd. rewrite Es in Hd.
  destruct (S0 !! k) as [s0|] eqn:E0; [|done]. destruct s0, s; try done.
  - destruct (active_step a a0 t t' Hd Hlt) as (a' & h & EP & H1 & H2 & H3 & H4).
    { intros v rest Hs. apply Hbound. exists k, a0, v, rest. split; [by apply get_active_lookup|done]. }
    rewrite EP. cbn [mbind option_bind]. eexists _, h. split; [reflexivity|]. split; [|split; [done|]].
    + apply mid_extend; [done|done| |];
        unfold describes_sub, changes; by rewrite E0, list_lookup_insert_eq by done.
    + split; [|by apply Hother]. intros x v rest Hx Hs. apply get_active_lookup in Hx.
      rewrite list_lookup_insert_eq in Hx by done. injection Hx as <-. by eapply H4.
  - destruct (step_user k w u u0 Hmid E0 Ek Hd' Es) as (u' & h & EP & Hh & H1 & H2).
    rewrite EP. cbn [mbind option_bind]. eexists _, h. split; [reflexivity|].
    split; [by apply mid_extend|]. split; [unfold answer_ok; tauto|].
    split; [intros a v rest; apply Hnot; discriminate|by apply Hother].
  - destruct (step_single k w r r0 Hmid E0 Ek Hd' Es) as (r' & EP & H1 & H2).
    rewrite EP. cbn [mbind option_bind]. eexists _, 0. split; [reflexivity|].
    split; [by apply mid_extend|]. split; [unfold answer_ok; tauto|].
    split; [intros a v rest; apply Hnot; discriminate|by apply Hother].
  - destruct (step_override k w o o0 Hmid E0 Ek Hd' Es) as (o' & EP & H1 & H2).
    rewrite EP. cbn [mbind option_bind]. eexists _, 0. split; [reflexivity|].
    split; [by apply mid_extend|]. split; [unfold answer_ok; tauto|].
    split; [intros a v rest; apply Hnot; discriminate|by apply Hother].
  - destruct (step_rules k w r r0 Hmid E0 Ek Hd' Es) as (r' & EP & H1 & H2).
    rewrite EP. cbn [mbind option_bind]. eexists _, 0. split; [reflexivity|].
    split; [by apply mid_extend|]. split; [unfold answer_ok; tauto|].
    split; [intros a v rest; apply Hnot; discriminate|by apply Hother].
Qed.

Lemma round_loop m : forall k w,
  mid k w -> (k + m = length prev)%nat ->
  exists w' hs, process_all (seq k m) t' w = Some (w', hs) /\ mid (length prev) w' /\
    (forall h, h ∈ hs -> answer_ok t' h) /\
    (forall j a v rest, (k <= j)%nat -> get_active w' j = Some a -> states a = v :: rest -> acT v ∈ hs) /\
    (forall j, (j < k)%nat -> w' !! j = w !! j).
Proof using Hwf Hprev Hlt Hbound.
  induction m as [|m IH]; intros k w Hmid Hk; cbn [seq process_all].
  { exists w, []. split; [done|]. replace (length prev) with k by lia. split; [done|].
    split; [intros h H; by apply elem_of_nil in H|]. split; [|done].
    intros j a v rest Hj H. apply get_active_lookup, lookup_lt_Some in H. destruct Hmid. lia. }
  destruct (step k w Hmid ltac:(lia)) as (w1 & h & EP & Hmid1 & Hh & Hv & Hother).
  change (sub_process k t' w) with (process k t' w). rewrite EP. cbn [mbind option_bind].
  destruct (IH (S k) w1 Hmid1 ltac:(lia)) as (w' & hs & EA & Hm & Hok & Hb & Hsame).
  rewrite EA. cbn [mbind option_bind]. exists w', (h :: hs). split; [done|]. split; [done|].
  split; [intros h' [->|H]%elem_of_cons; auto|]. split.
  - intros j a v rest Hj Ha Hs. destruct (decide (j = k)) as [->|Hne].
    + apply elem_of_cons. left. eapply Hv; [|exact Hs].
      apply get_active_lookup. rewrite <- (Hsame k) by lia. by apply get_active_lookup.
    + apply elem_of_cons. right. eapply Hb; [|exact Ha|exact Hs]. lia.
  - intros j Hj. rewrite Hsame by lia. apply Hother. lia.
Qed.
End round.

(** ** The instance *)

Lemma describes_bound S0 t w b : describes S0 t w -> bound w b -> t < b.
Proof.
  intros Hd (k & a & v & rest & Ha & Hs & ->). specialize (Hd k).
  apply get_active_lookup in Ha. unfold describes_sub in Hd. rewrite Ha in Hd.
  destruct (S0 !! k) as [[]|]; try done. destruct Hd as (_ & _ & Hd & _). rewrite Hs in Hd.
  by destruct Hd.
Qed.

Definition store_inv (S0 : store) (t : Z) (w : store) : Prop := wf_store S0 /\ describes S0 t w.

#[export] Instance store_laws (S0 : store) : SubLaws store (store_inv S0) bound.
Proof.
  split.
  - intros t t' w [Hwf Hd] Hlt _ Hb.
    assert (mid S0 w t t' 0 w) as Hmid by (split; [done|split; [done|intros; lia]]).
    destruct (round_loop S0 w t t' Hwf Hd Hlt Hb (length w) 0 w Hmid ltac:(lia))
      as (w' & hs & E & (Hl & _ & Hall) & Hok & Hbs & _).
    exists w', hs. split; [exact E|]. split.
    + split; [done|]. intros k. destruct (decide (k < length w)%nat) as [Hk|Hk].
      * by apply Hall.
      * unfold describes_sub. rewrite (lookup_ge_None_2 w') by lia. specialize (Hd k).
        unfold describes_sub in Hd. rewrite (lookup_ge_None_2 w) in Hd by lia.
        by destruct (S0 !! k) as [[]|].
    + split; [done|]. intros b (k & a & v & rest & Ha & Hs & ->).
      eapply Hbs; [|exact Ha|exact Hs]. lia.
  - intros t w b [_ Hd]. by eapply describes_bound.
Qed.
