(* ===== verification/Spans.v ===== *)
(** * What the constructors of the calculators put in the store

    The spans given to [SetSpan] are kept as entries for their ends; this file
    shows that the entries describe the union of the spans, that the
    constructors do not panic on spans in order, and that they leave a store
    that is well formed. *)

From S2P Require Import Prelude GoTime TempSchedule TimeIterator Calculators.

(** ** Whole minutes, in Unix seconds *)

Definition tmin (t : Time) : Z := Unix (Truncate t Minute).

Lemma tmin_inst t : inst (Truncate t Minute) = tmin t * Second.
Proof. unfold tmin, Unix. rewrite Truncate_minute_mod. unfold Minute, Second. dlia. Qed.

Lemma tmin_minute t : tmin t mod 60 = 0.
Proof. unfold tmin, Unix. rewrite Truncate_minute_mod. unfold Minute, Second. dlia. Qed.

Lemma tmin_le a b : inst a <= inst b -> tmin a <= tmin b.
Proof. unfold tmin, Unix. rewrite !Truncate_minute_mod. unfold Minute, Second. dlia. Qed.

(** The second [i] is in the span, ends truncated to the minute. *)
Definition in_span (start end_ : Time) (i : Z) : Prop := tmin start <= i < tmin end_.

(** ** Entries as a list of spans *)

Definition flat (sp : list (Z * Z)) : list activeCalcValue :=
  concat (map (fun p => [mkVal p.1 true; mkVal p.2 false]) sp).

Fixpoint ordered (lo : Z) (sp : list (Z * Z)) : Prop :=
  match sp with
  | [] => True
  | p :: sp => lo < p.1 /\ p.1 < p.2 /\ ordered p.2 sp
  end.

Definition covered (sp : list (Z * Z)) (i : Z) : Prop := ex_in (fun p => p.1 <= i < p.2) sp.

Lemma ordered_alternating lo sp : ordered lo sp -> alternating (flat sp) false lo.
Proof. revert lo. induction sp as [|p sp IH]; intros lo; simpl; [done|]. intros (? & ? & ?). split_and!; auto. Qed.

Lemma ordered_lower lo sp i : ordered lo sp -> covered sp i -> lo < i.
Proof.
  revert lo. induction sp as [|p sp IH]; intros lo; simpl; [by intros _ []%ex_in_nil|].
  intros (H1 & H2 & H3) [H|H]%ex_in_cons; [lia|]. specialize (IH _ H3 H). lia.
Qed.

Lemma flat_state lo sp i : ordered lo sp -> state_at (flat sp) i false = true <-> covered sp i.
Proof.
  revert lo. induction sp as [|p sp IH]; intros lo; simpl.
  { intros _. split; [done|intros []%ex_in_nil]. }
  intros (H1 & H2 & H3). unfold covered in *. rewrite ex_in_cons.
  destruct (p.1 <=? i) eqn:E1; bprop.
  - destruct (p.2 <=? i) eqn:E2; bprop.
    + rewrite (IH _ H3). split; [by right|intros [H|H]; [lia|done]].
    + split; [left; lia|done].
  - split; [done|]. intros [H|H]; [lia|]. apply (ordered_lower _ _ _ H3) in H. lia.
Qed.

Lemma ordered_snoc lo sp p q :
  ordered lo (sp ++ [(p, q)]) <->
  ordered lo sp /\ p < q /\ lo < p /\ forall x, x ∈ sp -> x.2 < p.
Proof.
  revert lo. induction sp as [|[a b] sp IH]; intros lo; simpl.
  { split; [intros (? & ? & _); split_and!; try done; intros x Hx; by apply elem_of_nil in Hx|tauto]. }
  rewrite IH. split.
  - intros (H1 & H2 & H3 & H4 & H5 & H6). split_and!; try done; try lia.
    intros x [->|Hx]%elem_of_cons; [done|by apply H6].
  - intros ((H1 & H2 & H3) & H4 & H5 & H6). split_and!; try done.
    + apply (H6 (a, b)). by left.
    + intros x Hx. apply H6. by right.
Qed.

Lemma flat_snoc sp p q : flat (sp ++ [(p, q)]) = flat sp ++ [mkVal p true; mkVal q false].
Proof. unfold flat. by rewrite map_app, concat_app. Qed.

(** A calculator that has been given spans and not started. *)
Definition blank (a : ActiveCalculator) (sp : list (Z * Z)) : Prop :=
  states a = flat sp /\ ordered 59 sp /\ ac_init a = false /\ Active a = false.

Lemma newActive_blank : blank newActive [].
Proof. done. Qed.

(** Setting the span [p, q): it is appended, or joined to the last one. *)
Lemma set_states_spec a sp p q :
  blank a sp -> 59 < p -> p < q -> (forall x, x ∈ sp -> x.2 <= p) ->
  exists a' sp', (a ← set_state p true a; set_state q false a) = Some a' /\ blank a' sp' /\
    (forall i, covered sp' i <-> covered sp i \/ p <= i < q) /\
    (forall x, x ∈ sp' -> (exists y, y ∈ sp /\ x.2 = y.2) \/ x.2 = q).
Proof.
  intros (Hs & Ho & Hi & Ha) Hp Hpq Hle.
  destruct sp as [|[p0 q0] sp0 _] using rev_ind.
  - unfold set_state at 2. rewrite Hs. cbn [flat map concat last negb mbind option_bind].
    unfold set_state. cbn [states set_states app last IsStart eqb acT andb].
    rewrite (proj2 (Z.leb_gt q p)) by done. eexists _, [(p, q)].
    split; [reflexivity|]. split; [split_and!; simpl; auto|]. split.
    + intros i. unfold covered. rewrite ex_in_cons, ex_in_nil. simpl. tauto.
    + intros x Hx. apply list_elem_of_singleton in Hx as ->. by right.
  - assert (Hq0 : q0 <= p) by (apply (Hle (p0, q0)), elem_of_app; right; by left).
    apply ordered_snoc in Ho as (Ho & Hpq0 & Hp0 & Hlt). rewrite flat_snoc in Hs.
    assert (last (states a) = Some (mkVal q0 false)) as EL.
    { rewrite Hs. change [mkVal p0 true; mkVal q0 false] with ([mkVal p0 true] ++ [mkVal q0 false]).
      rewrite app_assoc. apply last_snoc. }
    unfold set_state at 2. rewrite EL. cbn [IsStart acT eqb andb].
    destruct (p =? q0) eqn:E; bprop.
    + subst q0. cbn [mbind option_bind].
      assert (removelast (states a) = flat sp0 ++ [mkVal p0 true]) as ER.
      { rewrite Hs. change [mkVal p0 true; mkVal p false] with ([mkVal p0 true] ++ [mkVal p false]).
        rewrite app_assoc. apply removelast_last. }
      unfold set_state. cbn [states set_states]. rewrite ER, last_snoc. cbn [IsStart acT eqb andb].
      rewrite (proj2 (Z.leb_gt q p0)) by lia. eexists _, (sp0 ++ [(p0, q)]).
      split; [reflexivity|]. split; [|split].
      * split_and!; [cbn [states set_states]; by rewrite flat_snoc, <- app_assoc| |done|done].
        apply ordered_snoc. split_and!; try done. lia.
      * intros i. unfold covered. rewrite !ex_in_app, !ex_in_cons, !ex_in_nil. simpl.
        assert (p0 <= i < q <-> p0 <= i < p \/ p <= i < q) as -> by lia. tauto.
      * intros x [Hx|Hx]%elem_of_app; [left; exists x; rewrite elem_of_app; auto|].
        apply list_elem_of_singleton in Hx as ->. by right.
    + rewrite (proj2 (Z.leb_gt p q0)) by lia. cbn [mbind option_bind].
      unfold set_state. cbn [states set_states]. rewrite last_snoc. cbn [IsStart acT eqb andb].
      rewrite (proj2 (Z.leb_gt q p)) by lia. eexists _, ((sp0 ++ [(p0, q0)]) ++ [(p, q)]).
      split; [reflexivity|]. split; [|split].
      * split_and!; [cbn [states set_states]; by rewrite !flat_snoc, Hs, <- !app_assoc| |done|done].
        apply ordered_snoc. split_and!; [by apply ordered_snoc|done|done|].
        intros x [Hx|Hx]%elem_of_app; [specialize (Hlt x Hx); lia|].
        apply list_elem_of_singleton in Hx as ->. simpl. lia.
      * intros i. unfold covered. rewrite (ex_in_app _ (sp0 ++ _)), ex_in_cons, ex_in_nil. simpl. tauto.
      * intros x [Hx|Hx]%elem_of_app; [left; by exists x|].
        apply list_elem_of_singleton in Hx as ->. by right.
Qed.

(** ** [SetSpan] *)

Section spans.
Context (it : TimeIterator).
Hypothesis Hstep : it_step it = 60.

Definition window (i : Z) : Prop := it_start it <= i < it_end it.

Lemma Step_minute : it_Step it = Minute.
Proof using Hstep. unfold it_Step. by rewrite Hstep. Qed.

(** Within the window, [SetSpan] adds exactly the span it is given; one that is
    empty after truncation is skipped. *)
Lemma SetSpan_spec a sp start end_ :
  blank a sp ->
  (tmin start < tmin end_ -> 59 < tmin start /\ forall x, x ∈ sp -> x.2 <= tmin start) ->
  exists a' sp', SetSpan it start end_ a = Some a' /\ blank a' sp' /\
    (forall i, window i -> covered sp' i <-> covered sp i \/ in_span start end_ i) /\
    (forall x, x ∈ sp' ->
       (exists y, y ∈ sp /\ x.2 = y.2) \/ (x.2 = tmin end_ /\ tmin start < tmin end_)).
Proof using Hstep.
  intros Hb Hs. pose proof Hb as (_ & _ & Hi & _). unfold SetSpan. rewrite Hi, Step_minute.
  unfold After, Before. rewrite !tmin_inst. unfold it_Start, it_End, time_Unix. cbn [inst].
  assert (0 < Second) as HS by done.
  assert (forall x y : Z, (x * Second <? y * Second) = (x <? y)) as Hcmp.
  { intros x y. destruct (x <? y) eqn:E; bprop; [apply Z.ltb_lt|apply Z.ltb_ge]; nia. }
  rewrite !Hcmp.
  assert (forall P, (forall i, window i -> ~ in_span start end_ i) ->
    P = Some a -> exists a' sp', P = Some a' /\ blank a' sp' /\
    (forall i, window i -> covered sp' i <-> covered sp i \/ in_span start end_ i) /\
    (forall x, x ∈ sp' ->
       (exists y, y ∈ sp /\ x.2 = y.2) \/ (x.2 = tmin end_ /\ tmin start < tmin end_))) as Hskip.
  { intros P Hno ->. exists a, sp. split; [done|]. split; [done|]. split.
    - intros i Hw. specialize (Hno i Hw). tauto.
    - intros x Hx. left. by exists x. }
  unfold window, in_span in *.
  destruct (tmin start <? tmin end_) eqn:E1; bprop; cbn [negb]; [|apply Hskip; [lia|done]].
  destruct (it_start it <? tmin end_) eqn:E2; bprop; cbn [negb]; [|apply Hskip; [lia|done]].
  destruct (tmin start <? it_end it) eqn:E3; bprop; cbn [negb]; [|apply Hskip; [lia|done]].
  destruct (Hs E1) as [Hs1 Hle].
  destruct (set_states_spec a sp (tmin start) (tmin end_) Hb Hs1 E1 Hle) as (a' & sp' & E & H1 & H2 & H3).
  exists a', sp'. split; [exact E|]. split; [done|]. split; [intros i _; apply H2|].
  intros x Hx. destruct (H3 x Hx); auto.
Qed.

(** ** Lists of spans *)

Definition span_id (s : span) : string := s.2.
Definition span_start (s : span) : Time := s.1.1.
Definition span_end (s : span) : Time := s.1.2.
Definition span_covers (s : span) (i : Z) : Prop := in_span (span_start s) (span_end s) i.

Definition nonempty_span (s : span) : Prop := tmin (span_start s) < tmin (span_end s).

(** Spans of one id follow each other, and start after the first minute of
    1970; spans that are empty after truncation do not matter. *)
Definition span_before (a b : span) : Prop :=
  span_id a = span_id b -> nonempty_span a -> nonempty_span b ->
  tmin (span_end a) <= tmin (span_start b).
Definition span_late (s : span) : Prop := nonempty_span s -> 59 < tmin (span_start s).
Definition spans_ok (l : list span) : Prop := Forall span_late l /\ ForallOrdPairs span_before l.

(** Some span of [l] with the given id covers [i]. *)
Definition on_span (l : list span) (id : string) (i : Z) : Prop :=
  ex_in (fun s => span_id s = id /\ span_covers s i) l.

(** The entry for [id] after the spans [l] were set. *)
Definition entry (a : ActiveCalculator) (l : list span) (id : string) : Prop :=
  exists sp, blank a sp /\ (forall i, window i -> covered sp i <-> on_span l id i) /\
    forall x, x ∈ sp -> exists s, s ∈ l /\ span_id s = id /\ nonempty_span s /\
      x.2 = tmin (span_end s).

Definition in_range (m : UserMap) (k : nat) : Prop := exists id, m !! id = Some k.

(** The map [m] after the spans [l] were set, its calculators at or after [n]. *)
Record builder (n : nat) (m : UserMap) (w : store) (l : list span) : Prop := {
  b_entry : forall id c, m !! id = Some c ->
    (n <= c < length w)%nat /\ exists a, w !! c = Some (SActive a) /\ entry a l id;
  b_inj : forall id id' c, m !! id = Some c -> m !! id' = Some c -> id = id';
  b_none : forall id, m !! id = None -> forall s, s ∈ l -> span_id s <> id;
  b_some : forall id c, m !! id = Some c -> exists s, s ∈ l /\ span_id s = id
}.

Lemma builder_nil n w : builder n ∅ w [].
Proof. split; [done|done| |done]. intros id _ s Hs. by apply elem_of_nil in Hs. Qed.

Lemma builder_frame n m w w' l :
  builder n m w l -> (length w <= length w')%nat ->
  (forall k, in_range m k -> w' !! k = w !! k) -> builder n m w' l.
Proof.
  intros [B1 B2 B3 B4] Hl Hsame. split; [|done|done|done]. intros id c Hc.
  destruct (B1 id c Hc) as [Hr H]. split; [lia|]. rewrite Hsame; [done|by exists id].
Qed.

Lemma on_span_snoc l s id i :
  on_span (l ++ [s]) id i <-> on_span l id i \/ (span_id s = id /\ span_covers s i).
Proof. unfold on_span. rewrite ex_in_app, ex_in_cons, ex_in_nil. tauto. Qed.

(** Setting one more span with [SetSpan]. *)
Lemma entry_SetSpan a l s id :
  entry a l id -> span_late s -> span_id s = id -> (forall x, x ∈ l -> span_before x s) ->
  exists a', SetSpan it (span_start s) (span_end s) a = Some a' /\ entry a' (l ++ [s]) id.
Proof using Hstep.
  intros (sp & Hb & Hc & Hx) Hs Hid Hle.
  destruct (SetSpan_spec a sp (span_start s) (span_end s) Hb) as (a' & sp' & E & H1 & H2 & H3).
  { intros Hne. split; [by apply Hs|]. intros x Hin.
    destruct (Hx x Hin) as (y & Hy & Hyid & Hyne & ->). apply Hle; [done|congruence|done|done]. }
  exists a'. split; [done|]. exists sp'. split; [done|]. split.
  - intros i Hw. rewrite (H2 i Hw), (Hc i Hw), on_span_snoc. unfold span_covers. tauto.
  - intros x Hin. destruct (H3 x Hin) as [(y & Hy & ->)|[Hq Hne]].
    + destruct (Hx y Hy) as (z & Hz & ? & ? & ?). exists z. rewrite elem_of_app. auto.
    + exists s. split; [apply elem_of_app; right; by left|done].
Qed.

Lemma entry_other a l s id : entry a l id -> span_id s <> id -> entry a (l ++ [s]) id.
Proof.
  intros (sp & Hb & Hc & Hx) Hne. exists sp. split; [done|]. split.
  - intros i Hw. rewrite (Hc i Hw), on_span_snoc. tauto.
  - intros x Hin. destruct (Hx x Hin) as (z & Hz & ? & ? & ?). exists z. rewrite elem_of_app. auto.
Qed.

Lemma entry_new l id : (forall s, s ∈ l -> span_id s <> id) -> entry newActive l id.
Proof.
  intros Hno. exists []. split; [done|]. split.
  - intros i _. unfold covered, on_span. rewrite ex_in_nil. split; [done|].
    intros (s & Hs & Hid & _). by apply (Hno s Hs).
  - intros x Hx. by apply elem_of_nil in Hx.
Qed.

Lemma get_active_insert w k a : (k < length w)%nat -> get_active (<[k := SActive a]> w) k = Some a.
Proof. intros. unfold get_active. by rewrite list_lookup_insert_eq. Qed.

Lemma UserSetSpan_spec n m w l s :
  builder n m w l -> (n <= length w)%nat -> span_late s -> (forall x, x ∈ l -> span_before x s) ->
  exists m' w', UserSetSpan it (span_start s) (span_end s) (span_id s) (m, w) = Some (m', w') /\
    builder n m' w' (l ++ [s]) /\ (length w <= length w')%nat /\
    (forall k, (k < length w)%nat -> ~ in_range m k -> w' !! k = w !! k) /\
    (forall k, in_range m k -> in_range m' k) /\
    (forall k, in_range m' k -> in_range m k \/ (length w <= k)%nat) /\
    (forall k, (length w <= k < length w')%nat -> in_range m' k).
Proof using Hstep.
  intros [B1 B2 B3 B4] Hn Hs Hle. unfold UserSetSpan.
  destruct (m !! span_id s) as [c|] eqn:EM.
  - destruct (B1 _ _ EM) as (Hr & a & Ha & He).
    destruct (entry_SetSpan a l s (span_id s) He Hs eq_refl Hle) as (a' & E & He').
    unfold updActive. unfold get_active. rewrite Ha. cbn [mbind option_bind]. rewrite E.
    cbn [mbind option_bind]. eexists m, _. split; [reflexivity|]. split; [split|].
    + intros id c' Hc'. rewrite length_insert. destruct (B1 _ _ Hc') as (Hr' & a1 & Ha1 & He1).
      split; [done|]. destruct (decide (id = span_id s)) as [->|Hne].
      * assert (c' = c) as -> by congruence. exists a'. by rewrite list_lookup_insert_eq by lia.
      * exists a1. rewrite list_lookup_insert_ne; [split; [done|by apply entry_other]|].
        intros <-. by apply Hne, (B2 _ _ c).
    + done.
    + intros id Hid x [Hx|Hx]%elem_of_app; [by apply (B3 id)|].
      apply list_elem_of_singleton in Hx as ->. congruence.
    + intros id c' Hc'. destruct (B4 _ _ Hc') as (x & Hx & Hid). exists x.
      rewrite elem_of_app. auto.
    + rewrite length_insert. split; [done|]. split_and!.
      * intros k Hk Hnr. apply list_lookup_insert_ne. intros <-. apply Hnr. by exists (span_id s).
      * done.
      * by left.
      * intros k Hk. lia.
  - assert (Hlen : length (NewActiveCalculator w) = S (length w))
      by (unfold NewActiveCalculator; rewrite length_app; simpl; lia).
    destruct (entry_SetSpan newActive l s (span_id s)) as (a' & E & He'); [|done|done|done|].
    { apply entry_new. by apply B3. }
    unfold updActive.
    assert (get_active (NewActiveCalculator w) (length w) = Some newActive) as ->.
    { unfold get_active, NewActiveCalculator. by rewrite lookup_app_r, Nat.sub_diag by lia. }
    cbn [mbind option_bind]. rewrite E. cbn [mbind option_bind].
    assert (Hkeep : forall k, (k < length w)%nat ->
      <[length w := SActive a']> (NewActiveCalculator w) !! k = w !! k).
    { intros k Hk. rewrite list_lookup_insert_ne by lia. unfold NewActiveCalculator.
      by rewrite lookup_app_l. }
    eexists _, _. split; [reflexivity|]. split; [split|].
    + intros id c Hc. rewrite length_insert, Hlen.
      apply lookup_insert_Some in Hc as [[<- <-]|[Hne Hc]].
      * split; [lia|]. exists a'. by rewrite list_lookup_insert_eq by lia.
      * destruct (B1 _ _ Hc) as (Hr & a1 & Ha1 & He1). split; [lia|]. exists a1.
        rewrite Hkeep by lia. split; [done|by apply entry_other].
    + intros id id' c H1 H2. apply lookup_insert_Some in H1 as [[<- <-]|[Hne1 H1]];
        apply lookup_insert_Some in H2 as [[<- E2]|[Hne2 H2]]; try done.
      * apply B1 in H2 as [Hr _]. lia.
      * subst c. apply B1 in H1 as [Hr _]. lia.
      * by apply (B2 _ _ c).
    + intros id Hid x [Hx|Hx]%elem_of_app; apply lookup_insert_None in Hid as [Hid Hne];
        [by apply (B3 id)|]. by apply list_elem_of_singleton in Hx as ->.
    + intros id c Hc. apply lookup_insert_Some in Hc as [[<- <-]|[Hne Hc]].
      * exists s. rewrite elem_of_app, list_elem_of_singleton. auto.
      * destruct (B4 _ _ Hc) as (x & Hx & Hid). exists x. rewrite elem_of_app. auto.
    + rewrite length_insert, Hlen. split; [lia|]. split_and!.
      * intros k Hk _. by apply Hkeep.
      * intros k (id & Hid). exists id. rewrite lookup_insert_ne; [done|congruence].
      * intros k (id & Hid). apply lookup_insert_Some in Hid as [[<- <-]|[_ Hid]];
          [by right|left; by exists id].
      * intros k Hk. exists (span_id s). assert (k = length w) as -> by lia. apply lookup_insert_eq.
Qed.

Lemma UserSetSpans_spec n : forall l' l m w,
  builder n m w l -> (n <= length w)%nat -> spans_ok (l ++ l') ->
  exists m' w', UserSetSpans it l' (m, w) = Some (m', w') /\
    builder n m' w' (l ++ l') /\ (length w <= length w')%nat /\
    (forall k, (k < length w)%nat -> ~ in_range m k -> w' !! k = w !! k) /\
    (forall k, in_range m k -> in_range m' k) /\
    (forall k, in_range m' k -> in_range m k \/ (length w <= k)%nat) /\
    (forall k, (length w <= k < length w')%nat -> in_range m' k).
Proof using Hstep.
  induction l' as [|s l' IH]; intros l m w HB Hn Hok; cbn [UserSetSpans].
  { exists m, w. rewrite app_nil_r. split; [done|]. split; [done|]. split_and!; try done; [by left|].
    intros. lia. }
  pose proof Hok as [Hpos Hord]. destruct s as [[start end_] id].
  assert (Hs : span_late (start, end_, id)).
  { rewrite Forall_forall in Hpos. apply Hpos, elem_of_app. right. by left. }
  assert (Hle : forall x, x ∈ l -> span_before x (start, end_, id)).
  { intros x Hx. apply pairwise_app_inv in Hord. rewrite Forall_forall in Hord.
    specialize (Hord x Hx). rewrite Forall_forall in Hord. apply Hord. by left. }
  destruct (UserSetSpan_spec n m w l (start, end_, id) HB Hn Hs Hle)
    as (m1 & w1 & E & HB1 & Hl1 & Hk1 & Hr1 & Hr1' & Hnew1).
  unfold span_start, span_end, span_id in E. cbn [fst snd] in E. rewrite E. cbn [mbind option_bind].
  destruct (IH (l ++ [(start, end_, id)]) m1 w1 HB1 ltac:(lia)) as (m2 & w2 & E2 & HB2 & Hl2 & Hk2 & Hr2 & Hr2' & Hnew2).
  { by rewrite <- app_assoc. }
  exists m2, w2. rewrite <- app_assoc in HB2. split; [done|]. split; [done|]. split_and!.
  - lia.
  - intros k Hk Hnr. rewrite Hk2; [by apply Hk1|lia|]. intros H. apply Hr1' in H as [H|H]; [done|lia].
  - auto.
  - intros k Hk. apply Hr2' in Hk as [Hk|Hk]; [|right; lia]. by apply Hr1'.
  - intros k Hk. destruct (decide (k < length w1)%nat); [apply Hr2, Hnew1; lia|apply Hnew2; lia].
Qed.
End spans.

(** ** [Init] *)

Lemma init_loop_spec cs : forall w,
  (forall id c, (id, c) ∈ cs -> is_Some (get_active w c)) ->
  exists w', init_loop cs w = Some w' /\ length w' = length w /\
    forall k, w' !! k =
      match get_active w k with
      | Some a => Some (SActive (if decide (k ∈ cs.*2) then initActive a else a))
      | None => w !! k
      end.
Proof.
  induction cs as [|[id c] cs IH]; intros w Hcs; cbn [init_loop].
  { exists w. split; [done|]. split; [done|]. intros k.
    destruct (get_active w k) as [a|] eqn:E; [|done]. apply get_active_lookup in E. rewrite E.
    destruct (decide (k ∈ [].*2)) as [H|]; [|done]. by apply elem_of_nil in H. }
  destruct (Hcs id c ltac:(by left)) as [a Ha]. unfold updActive at 1. rewrite Ha. cbn [mbind option_bind].
  assert (c < length w)%nat as Hc by (apply get_active_lookup in Ha; by eapply lookup_lt_Some).
  destruct (IH (<[c := SActive (initActive a)]> w)) as (w' & E & Hl & Hk).
  { intros id' c' Hin. destruct (decide (c' = c)) as [->|Hne]; [by rewrite get_active_insert|].
    destruct (Hcs id' c' ltac:(by right)) as [a' Ha']. exists a'. apply get_active_lookup.
    rewrite list_lookup_insert_ne by done. by apply get_active_lookup. }
  exists w'. split; [done|]. rewrite length_insert in Hl. split; [done|]. intros k. rewrite Hk.
  cbn [fmap list_fmap]. destruct (decide (k = c)) as [->|Hne].
  - rewrite get_active_insert, Ha by done. rewrite (decide_True (P := c ∈ c :: list_fmap _ _ snd cs)) by by left.
    by destruct (decide (c ∈ cs.*2)).
  - assert (get_active (<[c:=SActive (initActive a)]> w) k = get_active w k) as ->
      by (apply get_same, list_lookup_insert_ne; done).
    rewrite list_lookup_insert_ne by done. destruct (get_active w k); [|done].
    destruct (decide (k ∈ cs.*2)) as [H|H]; [rewrite decide_True|rewrite decide_False];
      try done; rewrite elem_of_cons; [by right|]. by intros [H'|H'].
Qed.

Section init.
Context {HG : GoSort} {HM : GoMapRange}.

Lemma in_range_elem m k : k ∈ (map_range m).*2 <-> in_range m k.
Proof.
  destruct (map_range_spec m) as [_ HR]. rewrite list_elem_of_fmap. split.
  - intros ([id c] & -> & H). exists id. by apply HR.
  - intros (id & H). exists (id, k). split; [done|by apply HR].
Qed.

Lemma UserInit_spec it n m w l :
  builder it n m w l ->
  exists w', UserInit m w = Some w' /\ length w' = S (length w) /\
    w' !! length w = Some (SUser (mkUser (map_range m) [] false)) /\
    forall k, (k < length w)%nat -> (in_range m k ->
        exists a, w !! k = Some (SActive a) /\ w' !! k = Some (SActive (initActive a))) /\
      (~ in_range m k -> w' !! k = w !! k).
Proof.
  intros [B1 B2 B3 B4]. unfold UserInit. destruct (map_range_spec m) as [_ HR].
  destruct (init_loop_spec (map_range m) w) as (w' & E & Hl & Hk).
  { intros id c Hin. apply HR in Hin. destruct (B1 id c Hin) as (_ & a & Ha & _). exists a.
    by apply get_active_lookup. }
  rewrite E. cbn [mbind option_bind]. eexists. split; [reflexivity|].
  split; [rewrite length_app; simpl; lia|]. split.
  - rewrite <- Hl. rewrite lookup_app_r, Nat.sub_diag by lia. done.
  - intros k Hlt. rewrite lookup_app_l by lia. rewrite Hk. split.
    + intros (id & Hid). destruct (B1 id k Hid) as (_ & a & Ha & _). exists a. split; [done|].
      rewrite (proj2 (get_active_lookup w k a) Ha).
      rewrite decide_True; [done|]. apply in_range_elem. by exists id.
    + intros Hnr. destruct (get_active w k) as [a|] eqn:Ea; [|done].
      apply get_active_lookup in Ea. rewrite Ea.
      rewrite decide_False; [done|]. by rewrite in_range_elem.
Qed.
End init.

(** ** Stores under construction *)

(** The calculators for which [P] holds have not been initialised. *)
Definition pend (P : nat -> Prop) (w : store) : Prop :=
  forall k s, w !! k = Some s ->
    (P k -> exists a sp, s = SActive a /\ blank a sp) /\ (~ P k -> wf_sub w k s).

Lemma pend_none w : pend (fun _ => False) w <-> wf_store w.
Proof.
  split.
  - intros H k s Hk. apply (H k s Hk). tauto.
  - intros H k s Hk. split; [done|]. intros _. by apply H.
Qed.

Lemma pend_iff (P Q : nat -> Prop) w :
  (forall k, (k < length w)%nat -> P k <-> Q k) -> pend P w -> pend Q w.
Proof.
  intros HPQ H k s Hk. assert (k < length w)%nat as Hlt by by eapply lookup_lt_Some.
  rewrite <- (HPQ k Hlt). by apply H.
Qed.

(** Active calculators may change, everything else stays. *)
Definition same_kinds (w w' : store) : Prop :=
  forall k s, w !! k = Some s -> w' !! k = Some s \/
    exists a a', s = SActive a /\ w' !! k = Some (SActive a').

Lemma same_kinds_get w w' :
  same_kinds w w' -> forall k,
  (is_Some (get_active w k) -> is_Some (get_active w' k)) /\
  (forall u, get_user w k = Some u -> get_user w' k = Some u) /\
  (forall r, get_single w k = Some r -> get_single w' k = Some r).
Proof.
  intros H k. split_and!.
  - intros [a Ha]. apply get_active_lookup in Ha. destruct (H k _ Ha) as [E|(b & b' & _ & E)];
      [exists a|exists b']; by apply get_active_lookup.
  - intros u Hu. apply get_user_lookup in Hu. destruct (H k _ Hu) as [E|(b & b' & Eb & E)]; [|done].
    by apply get_user_lookup.
  - intros u Hu. apply get_single_lookup in Hu. destruct (H k _ Hu) as [E|(b & b' & Eb & E)]; [|done].
    by apply get_single_lookup.
Qed.

Lemma wf_sub_kinds w w' k s :
  same_kinds w w' -> wf_sub w k s -> wf_sub w' k s.
Proof.
  intros HK. pose proof (same_kinds_get w w' HK) as HG.
  assert (forall k, is_Some (get_user w k) -> is_Some (get_user w' k)) as HU
    by (intros j [u Hu]; exists u; by apply HG).
  destruct s as [a|u|r|o|r]; simpl.
  - done.
  - intros (H1 & H2). split; [|done]. intros id c Hc. destruct (H1 id c Hc). split; [done|]. by apply HG.
  - intros (H1 & H2 & H3 & H4). split; [done|]. split; [by apply HG|]. split; [|done].
    intros j Hj. destruct (H3 j Hj). auto.
  - intros (H1 & H2 & H3 & H4 & H5 & H6). split; [done|]. split; [by apply HU|].
    split; [by apply HU|]. split; [by apply HU|]. split; [done|].
    intros u id c Hu Hin. destruct H4 as [u0 Hu0].
    assert (get_user w' (o_replace o) = Some u0) as E by by apply HG.
    assert (u = u0) as -> by congruence. by eapply H6.
  - intros (H1 & H2). split; [|done]. intros j Hj. destruct (H1 j Hj) as [? [r0 Hr0]].
    split; [done|]. exists r0. by apply HG.
Qed.

(** ** Initialised calculators *)

(** The active calculator [c] describes [cov] within the window. *)
Definition active_ready (it : TimeIterator) (w : store) (c : nat) (cov : Z -> Prop) : Prop :=
  (exists a, get_active w c = Some a /\ wf_sub w c (SActive a)) /\
  forall i, window it i -> act_val w c i = true <-> cov i.

(** The user calculator [k] has the users of the spans [l] within the window. *)
Definition user_ready (it : TimeIterator) (w : store) (k : nat) (l : list span) : Prop :=
  (exists u, get_user w k = Some u /\
     forall id c, (id, c) ∈ calc u -> (c < k)%nat /\ exists s, s ∈ l /\ span_id s = id) /\
  forall id i, window it i -> user_val w k i id <-> on_span l id i.

Lemma blank_wf w k a sp : blank a sp -> wf_sub w k (SActive (initActive a)).
Proof.
  intros (Hs & Ho & _ & Ha). simpl. split; [done|]. split; [|done].
  rewrite Hs. by apply ordered_alternating.
Qed.

Lemma blank_val w c a sp i :
  blank a sp -> w !! c = Some (SActive (initActive a)) -> act_val w c i = true <-> covered sp i.
Proof.
  intros (Hs & Ho & _ & Ha) Hc. unfold act_val. rewrite (proj2 (get_active_lookup _ _ _) Hc).
  cbn [initActive states]. rewrite Hs. by apply (flat_state 59).
Qed.

Lemma act_val_same w w' c i : w' !! c = w !! c -> act_val w' c i = act_val w c i.
Proof. intros E. unfold act_val. by rewrite (proj1 (get_same w w' c E)). Qed.

Lemma user_ready_frame it w w' k l :
  user_ready it w k l -> w' !! k = w !! k ->
  (forall u id c, get_user w k = Some u -> (id, c) ∈ calc u -> w' !! c = w !! c) ->
  user_ready it w' k l.
Proof.
  intros [(u & Hu & Hc) Hv] Ek Hcs. destruct (get_same w w' k Ek) as (_ & EU & _).
  split; [exists u; by rewrite EU|]. intros id i Hw. rewrite <- (Hv id i Hw).
  assert (get_user w' k = Some u) as Hu' by by rewrite EU.
  rewrite (user_val_iff w' k u i id Hu'), (user_val_iff w k u i id Hu).
  split; intros (c & Hin & H); exists c; (split; [done|]).
  - by rewrite <- (act_val_same w w' c i (Hcs u id c Hu Hin)).
  - by rewrite (act_val_same w w' c i (Hcs u id c Hu Hin)).
Qed.

Lemma active_ready_frame it w w' c cov :
  active_ready it w c cov -> w' !! c = w !! c -> active_ready it w' c cov.
Proof.
  intros [(a & Ha & Hw) Hv] E. split.
  - exists a. by rewrite (proj1 (get_same w w' c E)).
  - intros i Hi. by rewrite (act_val_same w w' c i E), Hv.
Qed.

Section ready.
Context {HG : GoSort} {HM : GoMapRange}.

(** [Init] of one of the maps of a store under construction. *)
Lemma UserInit_ready it n m w l P :
  builder it n m w l -> pend P w -> (forall k, P k -> (k < length w)%nat) ->
  exists w', UserInit m w = Some w' /\ length w' = S (length w) /\
    pend (fun k => P k /\ ~ in_range m k) w' /\ user_ready it w' (length w) l /\
    (forall k, (k < length w)%nat -> ~ in_range m k -> w' !! k = w !! k) /\
    (forall u, get_user w' (length w) = Some u -> forall id c, (id, c) ∈ calc u -> in_range m c).
Proof.
  intros HB HP HPl. destruct (UserInit_spec it n m w l HB) as (w' & E & Hl & Hu & Hk).
  pose proof HB as [B1 B2 B3 B4]. destruct (map_range_spec m) as [HN HR].
  assert (same_kinds w w') as HK.
  { intros k s Hs. assert (k < length w)%nat as Hlt by by eapply lookup_lt_Some.
    destruct (Hk k Hlt) as [H1 H2]. destruct (decide (k ∈ (map_range m).*2)) as [Hr|Hr].
    - rewrite in_range_elem in Hr. destruct (H1 Hr) as (a & Ha & Ha'). right.
      exists a, (initActive a). split; [congruence|done].
    - left. rewrite H2; [done|]. by rewrite <- in_range_elem. }
  assert (forall id c, m !! id = Some c -> exists a sp, w' !! c = Some (SActive (initActive a)) /\
    blank a sp /\ forall i, window it i -> covered sp i <-> on_span l id i) as HC.
  { intros id c Hid. destruct (B1 id c Hid) as (Hr & a & Ha & sp & Hb & Hc & _).
    destruct (Hk c ltac:(lia)) as [H1 _]. destruct (H1 ltac:(by exists id)) as (a' & Ha' & Hw').
    exists a, sp. assert (a' = a) as -> by congruence. done. }
  exists w'. split; [done|]. split; [done|]. split; [|split; [|split]].
  - intros k s Hs. split.
    + intros [HPk Hr]. specialize (HPl k HPk). destruct (Hk k HPl) as [_ H2].
      rewrite (H2 Hr) in Hs. by apply (HP k s Hs).
    + intros Hnot. destruct (decide (k = length w)) as [->|Hne].
      * rewrite Hu in Hs. injection Hs as <-. simpl. split; [|done]. intros id c Hin.
        apply HR in Hin. destruct (B1 id c Hin) as [Hr _]. split; [lia|].
        destruct (HC id c Hin) as (a & sp & Ha & _). exists (initActive a). by apply get_active_lookup.
      * assert (k < length w)%nat as Hlt by (apply lookup_lt_Some in Hs; lia).
        destruct (Hk k Hlt) as [_ H2]. destruct (decide (k ∈ (map_range m).*2)) as [Hr|Hr];
          rewrite in_range_elem in Hr.
        -- destruct Hr as (id & Hid). destruct (HC id k Hid) as (a & sp & Ha & Hb & _).
           assert (s = SActive (initActive a)) as -> by congruence. by eapply blank_wf.
        -- apply (wf_sub_kinds w); [done|]. rewrite (H2 Hr) in Hs. apply (HP k s Hs). tauto.
  - split.
    + eexists. split; [by apply get_user_lookup|]. intros id c Hin. apply HR in Hin.
      destruct (B1 id c Hin) as (Hr & _). split; [lia|]. by eapply B4.
    + intros id i Hw. rewrite (user_val_iff w' _ _ i id (proj2 (get_user_lookup _ _ _) Hu)).
      cbn [calc]. split.
      * intros (c & Hin & Hv). apply HR in Hin. destruct (HC id c Hin) as (a & sp & Ha & Hb & Hc).
        apply (Hc i Hw). by apply (blank_val w' c a sp i Hb Ha).
      * intros Hon. destruct (m !! id) as [c|] eqn:EM.
        -- exists c. split; [by apply HR|]. destruct (HC id c EM) as (a & sp & Ha & Hb & Hc).
           apply (blank_val w' c a sp i Hb Ha). by apply (Hc i Hw).
        -- destruct Hon as (s & Hs & Hid & _). by destruct (B3 id EM s Hs).
  - intros k Hlt Hnr. by apply Hk.
  - intros u Hu' id c Hin. apply get_user_lookup in Hu'. rewrite Hu in Hu'. injection Hu' as <-.
    apply HR in Hin. by exists id.
Qed.
End ready.
