(* ===== verification/Constructors.v ===== *)
(** * The constructors of the calculators: [NewUserCalculator],
      [NewTemporaryScheduleCalculator], [NewOverrideCalculator]

    Each constructor, on spans that do not overlap, succeeds, extends the store
    and leaves it well formed, and the calculators it registered describe the
    spans it was given. *)

From S2P Require Import Prelude GoTime TempSchedule TimeIterator Calculators Spans.

(** ** Extending a store *)

Definition ext (w w' : store) : Prop :=
  (length w <= length w')%nat /\ forall k, (k < length w)%nat -> w' !! k = w !! k.

Lemma ext_refl w : ext w w.
Proof. by split. Qed.

Lemma ext_trans w1 w2 w3 : ext w1 w2 -> ext w2 w3 -> ext w1 w3.
Proof. intros [L1 H1] [L2 H2]. split; [lia|]. intros k Hk. rewrite H2 by lia. by apply H1. Qed.

Lemma ext_app w l : ext w (w ++ l).
Proof. split; [rewrite length_app; lia|]. intros k Hk. by apply lookup_app_l. Qed.

Lemma ext_kinds w w' : ext w w' -> same_kinds w w'.
Proof. intros [_ H] k s Hk. left. rewrite H; [done|]. by eapply lookup_lt_Some. Qed.

Lemma ext_active_ready it w w' c cov : ext w w' -> active_ready it w c cov -> active_ready it w' c cov.
Proof.
  intros [_ H] Hr. apply (active_ready_frame it w); [done|]. apply H.
  destruct Hr as [(a & Ha & _) _]. apply get_active_lookup in Ha. by eapply lookup_lt_Some.
Qed.

Lemma ext_user_ready it w w' k l : ext w w' -> user_ready it w k l -> user_ready it w' k l.
Proof.
  intros [_ H] Hr. pose proof Hr as [(u & Hu & Hc) _].
  assert (k < length w)%nat as Hk by (apply get_user_lookup in Hu; by eapply lookup_lt_Some).
  apply (user_ready_frame it w); [done|by apply H|]. intros u' id c Hu' Hin.
  assert (u' = u) as -> by congruence. apply H. destruct (Hc id c Hin). lia.
Qed.

#[export] Hint Resolve ext_refl ext_app ext_active_ready ext_user_ready : oncall.

(** A registered calculator at the end of a well-formed store. *)
Lemma wf_store_snoc w s : wf_store w -> wf_sub (w ++ [s]) (length w) s -> wf_store (w ++ [s]).
Proof.
  intros Hw Hs k x Hk. apply lookup_snoc_Some in Hk as [[Hlt Hk]|[-> <-]]; [|done].
  apply (wf_sub_kinds w); [apply ext_kinds, ext_app|by apply Hw].
Qed.

(** Some pending calculators are changed and new ones registered, all not yet
    initialised. *)
Lemma pend_step (P R : nat -> Prop) w w' :
  pend P w -> (length w <= length w')%nat ->
  (forall k, (k < length w)%nat -> ~ R k -> w' !! k = w !! k) ->
  (forall k, R k -> exists a sp, w' !! k = Some (SActive a) /\ blank a sp) ->
  (forall k, (length w <= k < length w')%nat -> R k) ->
  (forall k, R k -> (k < length w)%nat -> P k) ->
  (forall k, {R k} + {~ R k}) ->
  pend (fun k => P k \/ R k) w'.
Proof.
  intros HP Hl Hsame Hblank Hnew HRP Hdec.
  assert (same_kinds w w') as HK.
  { intros k s Hk. assert (k < length w)%nat as Hlt by by eapply lookup_lt_Some.
    destruct (Hdec k) as [Hr|Hr]; [right|left; by rewrite Hsame].
    destruct (Hblank k Hr) as (a' & sp & Ha' & _).
    destruct (proj1 (HP k s Hk) (HRP k Hr Hlt)) as (a & _ & -> & _). by exists a, a'. }
  intros k s Hk. destruct (Hdec k) as [Hr|Hr].
  - destruct (Hblank k Hr) as (a & sp & Ha & Hb). split; [|tauto]. intros _. exists a, sp.
    split; [congruence|done].
  - assert (k < length w)%nat as Hlt.
    { apply lookup_lt_Some in Hk. destruct (decide (k < length w)%nat) as [|Hge]; [done|].
      destruct Hr. apply Hnew. lia. }
    rewrite Hsame in Hk by done. destruct (HP k s Hk) as [H1 H2]. split.
    + intros [H|H]; [by apply H1|done].
    + intros H. apply (wf_sub_kinds w); [done|]. apply H2. tauto.
Qed.

Lemma in_range_dec (m : UserMap) k : {in_range m k} + {~ in_range m k}.
Proof.
  destruct (decide (k ∈ (map_to_list m).*2)) as [H|H]; [left|right].
  - apply list_elem_of_fmap in H as ([id c] & -> & H). exists id. by apply elem_of_map_to_list.
  - intros (id & Hid). apply H, list_elem_of_fmap. exists (id, k). split; [done|].
    by apply elem_of_map_to_list.
Qed.

Lemma in_range_empty k : ~ in_range ∅ k.
Proof. intros (id & Hid). by rewrite lookup_empty in Hid. Qed.

Lemma builder_blank it n m w l k :
  builder it n m w l -> in_range m k -> exists a sp, w !! k = Some (SActive a) /\ blank a sp.
Proof. intros HB (id & Hid). destruct (b_entry _ _ _ _ _ HB id k Hid) as (_ & a & Ha & sp & Hb & _). eauto. Qed.

Section constructors.
Context {HG : GoSort} {HM : GoMapRange}.
Context (it : TimeIterator).
Hypothesis Hstep : it_step it = 60.

(** Setting the spans of a new user calculator, and then initialising it. *)
Lemma fill_user P l w :
  pend P w -> (forall k, P k -> (k < length w)%nat) -> spans_ok l ->
  exists m w', UserSetSpans it l (∅, w) = Some (m, w') /\ builder it (length w) m w' l /\
    ext w w' /\ pend (fun k => P k \/ in_range m k) w' /\
    (forall k, in_range m k <-> (length w <= k < length w')%nat).
Proof using Hstep.
  intros HP HPl Hok.
  destruct (UserSetSpans_spec it Hstep (length w) l [] ∅ w) as (m & w' & E & HB & Hl & Hk & _ & Hr & Hn);
    [apply builder_nil|done|done|].
  cbn [app] in HB.
  assert (forall k, in_range m k <-> (length w <= k < length w')%nat) as HR.
  { intros k. split; [|apply Hn]. intros Hin. split.
    - apply Hr in Hin as [Hin|]; [by apply in_range_empty in Hin|done].
    - destruct Hin as (id & Hid). destruct (b_entry _ _ _ _ _ HB id k Hid) as ([_ ?] & _). done. }
  assert (ext w w') as Hext.
  { split; [done|]. intros k Hlt. apply Hk; [done|]. apply in_range_empty. }
  exists m, w'. split; [done|]. split; [done|]. split; [done|]. split; [|done].
  apply (pend_step P (in_range m) w w'); [done|done| | | | |apply in_range_dec].
  - intros k Hlt _. by apply Hext.
  - intros k Hin. by eapply builder_blank.
  - intros k Hin. by apply HR.
  - intros k Hin Hlt. apply HR in Hin. lia.
Qed.

Lemma new_user P l w :
  pend P w -> (forall k, P k -> (k < length w)%nat) -> spans_ok l ->
  exists m w1 w', UserSetSpans it l (∅, w) = Some (m, w1) /\ UserInit m w1 = Some w' /\
    ext w w' /\ (length w < length w')%nat /\ pend P w' /\
    user_ready it w' (Nat.pred (length w')) l.
Proof using Hstep.
  intros HP HPl Hok. destruct (fill_user P l w HP HPl Hok) as (m & w1 & E & HB & Hext & HP1 & HR).
  destruct (UserInit_ready it (length w) m w1 l _ HB HP1) as (w' & EI & Hl & HP' & Hu & Hk & _).
  { intros k [H|H]; [destruct Hext; specialize (HPl k H); lia|apply HR in H; lia]. }
  exists m, w1, w'. split; [done|]. split; [done|]. pose proof Hext as [Hl1 Hk1].
  split; [|split; [|split]].
  - split; [lia|]. intros k Hlt. rewrite Hk; [by apply Hk1|lia|]. intros H. apply HR in H. lia.
  - lia.
  - apply (pend_iff (fun k => (P k \/ in_range m k) /\ ~ in_range m k)); [|done].
    intros k _. split; [tauto|]. intros H. split; [by left|]. intros Hin. apply HR in Hin.
    specialize (HPl k H). lia.
  - by rewrite Hl.
Qed.

Lemma NewUserCalculator_ready l w :
  wf_store w -> spans_ok l ->
  exists k w', NewUserCalculator it l w = Some (k, w') /\ wf_store w' /\ ext w w' /\
    user_ready it w' k l.
Proof using Hstep.
  intros Hw Hok. apply pend_none in Hw.
  destruct (new_user _ l w Hw ltac:(done) Hok) as (m & w1 & w' & E1 & E2 & Hext & Hlt & HP & Hu).
  unfold NewUserCalculator. rewrite E1. cbn [mbind option_bind]. rewrite E2. cbn [mbind option_bind].
  exists (Nat.pred (length w')), w'. split; [done|]. split; [by apply pend_none|]. done.
Qed.

(** ** [NewTemporaryScheduleCalculator] *)

Definition with_id (id : string) (p : Time * Time) : span := (p.1, p.2, id).

Lemma SetSpans_spec id : forall l' l a,
  entry it a l id -> spans_ok (l ++ map (with_id id) l') ->
  exists a', SetSpans it l' a = Some a' /\ entry it a' (l ++ map (with_id id) l') id.
Proof using Hstep.
  induction l' as [|[s e] l' IH]; intros l a He Hok; cbn [SetSpans map].
  { exists a. rewrite app_nil_r. done. }
  pose proof Hok as [Hlate Hord]. cbn [map] in *.
  destruct (entry_SetSpan it Hstep a l (with_id id (s, e)) id He) as (a1 & E1 & He1).
  - rewrite Forall_forall in Hlate. apply Hlate, elem_of_app. right. by left.
  - done.
  - intros x Hx. apply pairwise_app_inv in Hord. rewrite Forall_forall in Hord.
    specialize (Hord x Hx). rewrite Forall_forall in Hord. apply Hord. by left.
  - change (span_start (with_id id (s, e))) with s in E1. change (span_end (with_id id (s, e))) with e in E1.
    rewrite E1. cbn [mbind option_bind].
    destruct (IH (l ++ [with_id id (s, e)]) a1 He1) as (a' & E & He'); [by rewrite <- app_assoc|].
    exists a'. rewrite <- app_assoc in He'. done.
Qed.

(** The initialised calculator of an entry. *)
Lemma entry_ready w c a l id :
  (c < length w)%nat -> entry it a l id ->
  active_ready it (<[c := SActive (initActive a)]> w) c (on_span l id).
Proof.
  intros Hc (sp & Hb & Hcov & _). assert (<[c := SActive (initActive a)]> w !! c =
    Some (SActive (initActive a))) as E by by rewrite list_lookup_insert_eq.
  split.
  - exists (initActive a). split; [by apply get_active_lookup|]. by apply (blank_wf _ _ a sp).
  - intros i Hi. rewrite (blank_val _ c a sp i Hb E). by apply Hcov.
Qed.

Definition temp_spans (temps : list TemporarySchedule) : list span :=
  map (with_id EmptyString) (map (fun t => (tsStart t, tsEnd t)) temps).

Definition shift_spans (l : list FixedShift) : list span :=
  map (fun s => (fsStart s, fsEnd s, fsUser s)) l.

Lemma on_temp_spans temps i :
  on_span (temp_spans temps) EmptyString i <-> ex_in (fun t => in_span (tsStart t) (tsEnd t) i) temps.
Proof.
  unfold on_span, temp_spans. rewrite !ex_in_map. apply ex_in_iff. intros t. unfold span_id. simpl. tauto.
Qed.

Lemma NewTemporaryScheduleCalculator_ready temps w :
  wf_store w ->
  spans_ok (temp_spans (sort_slice temp_by_start temps)) ->
  spans_ok (shift_spans (sort_slice shift_by_start (concat (map tsShifts (sort_slice temp_by_start temps))))) ->
  exists act usr w', NewTemporaryScheduleCalculator it temps w = Some (act, usr, w') /\
    wf_store w' /\ ext w w' /\
    active_ready it w' act (fun i => ex_in (fun t => in_span (tsStart t) (tsEnd t) i) temps) /\
    user_ready it w' usr
      (shift_spans (sort_slice shift_by_start (concat (map tsShifts (sort_slice temp_by_start temps))))).
Proof using Hstep.
  intros Hw Hok1 Hok2. unfold NewTemporaryScheduleCalculator.
  set (ts := sort_slice temp_by_start temps) in *. set (l2 := shift_spans _) in *.
  destruct (SetSpans_spec EmptyString (map (fun t => (tsStart t, tsEnd t)) ts) [] newActive)
    as (a & Ea & He); [by apply entry_new; intros s Hs%elem_of_nil|done|].
  rewrite Ea. cbn [mbind option_bind app] in *. set (n := length w).
  set (w1 := <[n := SActive a]> (NewActiveCalculator w)).
  assert (w1 = w ++ [SActive a]) as E1.
  { unfold w1, NewActiveCalculator, n. by rewrite insert_app_r_alt, Nat.sub_diag by lia. }
  assert (pend (fun k => k = n) w1) as HP1.
  { apply (pend_iff (fun k => False \/ k = n)); [tauto|].
    apply (pend_step (fun _ => False) (fun k => k = n) w); rewrite ?E1.
    - by apply pend_none.
    - rewrite length_app. lia.
    - intros k Hk _. by apply lookup_app_l.
    - intros k ->. destruct He as (sp & Hb & _). exists a, sp. split; [|done].
      by rewrite lookup_app_r, Nat.sub_diag by (unfold n; lia).
    - intros k Hk. rewrite length_app in Hk. simpl in Hk. unfold n. lia.
    - intros k ->. unfold n. lia.
    - intros k. destruct (decide (k = n)); auto. }
  assert (length w1 = S n) as Hl1 by (rewrite E1, length_app; simpl; unfold n; lia).
  destruct (fill_user _ l2 w1 HP1) as (m & w2 & E2 & HB & Hext2 & HP2 & HR); [lia|done|].
  unfold l2, shift_spans in E2. rewrite E2. cbn [mbind option_bind].
  assert (w2 !! n = Some (SActive a)) as Hn2.
  { rewrite (proj2 Hext2) by lia. rewrite E1. by rewrite lookup_app_r, Nat.sub_diag by (unfold n; lia). }
  unfold updActive. rewrite (proj2 (get_active_lookup _ _ _) Hn2). cbn [mbind option_bind].
  set (w3 := <[n := SActive (initActive a)]> w2).
  assert (Hl2 : (S n <= length w2)%nat) by (destruct Hext2; lia).
  assert (length w3 = length w2) as Hl3 by apply length_insert.
  assert (forall k, k <> n -> w3 !! k = w2 !! k) as Hk3 by (intros; by apply list_lookup_insert_ne).
  assert (builder it (length w1) m w3 l2) as HB3.
  { eapply builder_frame; [exact HB|lia|]. intros k Hin. apply HR in Hin. apply Hk3. lia. }
  assert (pend (in_range m) w3) as HP3.
  { intros k s Hk. destruct (decide (k = n)) as [->|Hne].
    - split; [intros Hin; apply HR in Hin; lia|]. intros _.
      assert (s = SActive (initActive a)) as ->.
      { unfold w3 in Hk. rewrite list_lookup_insert_eq in Hk by lia. congruence. }
      destruct He as (sp & Hb & _). by apply (blank_wf _ _ a sp).
    - rewrite Hk3 in Hk by done. destruct (HP2 k s Hk) as [H1 H2]. split; [intros H; apply H1; by right|].
      intros H. apply (wf_sub_kinds w2); [|apply H2; tauto].
      intros j x Hj. destruct (decide (j = n)) as [->|]; [|left; by rewrite Hk3].
      right. exists a, (initActive a). split; [congruence|]. unfold w3. apply list_lookup_insert_eq. lia. }
  destruct (UserInit_ready it (length w1) m w3 l2 _ HB3 HP3) as (w4 & E4 & Hl4 & HP4 & Hu & Hk4 & _).
  { intros k Hin. apply HR in Hin. lia. }
  rewrite E4. cbn [mbind option_bind]. exists n, (Nat.pred (length w4)), w4.
  split; [done|]. split; [|split; [|split]].
  - apply pend_none. eapply pend_iff; [|exact HP4]. tauto.
  - split; [unfold n in *; lia|]. intros k Hk. rewrite Hk4; [|unfold n in *; lia|].
    + rewrite Hk3 by (unfold n; lia). rewrite (proj2 Hext2) by (unfold n in *; lia). rewrite E1. by apply lookup_app_l.
    + intros Hin. apply HR in Hin. unfold n in *. lia.
  - apply (active_ready_frame it w3).
    + pose proof (entry_ready w2 n a _ _ ltac:(lia) He) as [H1 H2]. split; [done|].
      intros i Hi. unfold w3. rewrite (H2 i Hi). etransitivity; [apply on_temp_spans|].
      apply ex_in_perm. apply sort_slice_perm.
    + apply Hk4; [lia|]. intros Hin. apply HR in Hin. lia.
  - by rewrite Hl4.
Qed.

(** ** [NewOverrideCalculator] *)

Definition no_id (s : string) : bool := String.eqb s EmptyString.

Definition add_span (o : UserOverride) : option span :=
  if negb (no_id (ov_AddUserID o)) && no_id (ov_RemoveUserID o)
  then Some (ov_Start o, ov_End o, ov_AddUserID o) else None.
Definition remove_span (o : UserOverride) : option span :=
  if no_id (ov_AddUserID o) && negb (no_id (ov_RemoveUserID o))
  then Some (ov_Start o, ov_End o, ov_RemoveUserID o) else None.
Definition replace_span (o : UserOverride) : option span :=
  if negb (no_id (ov_AddUserID o)) && negb (no_id (ov_RemoveUserID o))
  then Some (ov_Start o, ov_End o, replace_id (ov_RemoveUserID o) (ov_AddUserID o)) else None.

(** Three maps in one store. *)
Record three (n : nat) (a r p : UserMap) (w : store) (la lr lp : list span) : Prop := {
  t_add : builder it n a w la;
  t_remove : builder it n r w lr;
  t_replace : builder it n p w lp;
  t_apart : forall k, (in_range a k -> ~ in_range r k /\ ~ in_range p k) /\
                      (in_range r k -> ~ in_range p k);
  t_all : forall k, (n <= k < length w)%nat -> in_range a k \/ in_range r k \/ in_range p k
}.

(** What [SetSpan] on the map [m] leaves alone. *)
Lemma UserSetSpan_apart n m w l s m1 w1 :
  builder it n m w l -> (n <= length w)%nat -> span_late s -> (forall x, x ∈ l -> span_before x s) ->
  UserSetSpan it (span_start s) (span_end s) (span_id s) (m, w) = Some (m1, w1) ->
  builder it n m1 w1 (l ++ [s]) /\ (length w <= length w1)%nat /\
  (forall k, (k < n)%nat -> w1 !! k = w !! k) /\
  (forall k, (length w <= k < length w1)%nat -> in_range m1 k) /\
  (forall k, in_range m k -> in_range m1 k) /\
  forall m' l', builder it n m' w l' -> (forall k, in_range m k -> ~ in_range m' k) ->
    builder it n m' w1 l' /\ forall k, in_range m1 k -> ~ in_range m' k.
Proof using Hstep.
  intros HB Hn Hl Hb E.
  destruct (UserSetSpan_spec it Hstep n m w l s HB Hn Hl Hb) as (m2 & w2 & E' & HB' & Hlen & Hk & Hin & Hr & Hnew).
  rewrite E in E'. injection E' as <- <-. split; [done|]. split; [done|]. split; [|split; [done|split; [done|]]].
  - intros k Hkn. apply Hk; [lia|]. intros (id & Hid).
    destruct (b_entry _ _ _ _ _ HB id k Hid) as ([? ?] & _). lia.
  - intros m' l' HB1 Hap.
    assert (forall k, in_range m' k -> (k < length w)%nat) as Hlt.
    { intros k (id & Hid). by destruct (b_entry _ _ _ _ _ HB1 id k Hid) as ([? ?] & _). }
    split.
    + eapply builder_frame; [exact HB1|done|]. intros k Hk1. apply Hk; [by apply Hlt|].
      intros Hk2. by apply (Hap k).
    + intros k Hk1 Hk2. apply Hr in Hk1 as [Hk1|Hk1]; [by apply (Hap k)|]. specialize (Hlt k Hk2). lia.
Qed.

(** The spans that are still to come after [l]. *)
Lemma late_snoc l s l' : spans_ok (l ++ s :: l') -> span_late s /\ forall x, x ∈ l -> span_before x s.
Proof.
  intros [Hlate Hord]. split.
  - rewrite Forall_forall in Hlate. apply Hlate, elem_of_app. right. by left.
  - intros x Hx. apply pairwise_app_inv in Hord. rewrite Forall_forall in Hord.
    specialize (Hord x Hx). rewrite Forall_forall in Hord. apply Hord. by left.
Qed.

Lemma override_loop_spec n os : forall a r p w la lr lp,
  three n a r p w la lr lp -> (n <= length w)%nat ->
  spans_ok (la ++ omap add_span os) -> spans_ok (lr ++ omap remove_span os) ->
  spans_ok (lp ++ omap replace_span os) ->
  exists a' r' p' w', override_loop it os a r p w = Some (a', r', p', w') /\
    three n a' r' p' w' (la ++ omap add_span os) (lr ++ omap remove_span os)
      (lp ++ omap replace_span os) /\
    (length w <= length w')%nat /\ forall k, (k < n)%nat -> w' !! k = w !! k.
Proof using Hstep.
  induction os as [|o os IH]; intros a r p w la lr lp HT Hn Ha Hr Hp; cbn [override_loop omap list_omap] in *.
  { exists a, r, p, w. rewrite !app_nil_r. done. }
  change (String.eqb (ov_AddUserID o) EmptyString) with (no_id (ov_AddUserID o)).
  change (String.eqb (ov_RemoveUserID o) EmptyString) with (no_id (ov_RemoveUserID o)).
  remember (omap add_span os) as oa. remember (omap remove_span os) as orm.
  remember (omap replace_span os) as op. clear Heqoa Heqorm Heqop.
  unfold add_span, remove_span, replace_span in *.
  pose proof HT as [T1 T2 T3 T4 T5].
  destruct (no_id (ov_AddUserID o)) eqn:EA, (no_id (ov_RemoveUserID o)) eqn:ER; cbn [negb andb] in *.
  - by apply IH.
  - destruct (late_snoc _ _ _ Hr) as [Hl Hb]. set (s := (ov_Start o, ov_End o, ov_RemoveUserID o)) in *.
    destruct (UserSetSpan_spec it Hstep n r w lr s T2 Hn Hl Hb) as (r1 & w1 & E & _).
    destruct (UserSetSpan_apart n r w lr s r1 w1 T2 Hn Hl Hb E) as (B & Hlen & Hkeep & Hnew & Hmono & Hap).
    destruct (Hap a la T1) as [B1 A1]; [intros k H1 H2; destruct (T4 k); tauto|].
    destruct (Hap p lp T3) as [B3 A3]; [intros k H1 H2; destruct (T4 k); tauto|].
    change (ov_Start o) with (span_start s). change (ov_End o) with (span_end s).
    change (ov_RemoveUserID o) with (span_id s). rewrite E. cbn [mbind option_bind].
    destruct (IH a r1 p w1 la (lr ++ [s]) lp) as (a' & r' & p' & w' & E' & HT' & Hl' & Hk');
      [|lia|done|by rewrite <- app_assoc|done|].
    { split; [done|done|done| |].
      - intros k. specialize (A1 k). specialize (A3 k). destruct (T4 k). tauto.
      - intros k Hk. destruct (decide (k < length w)%nat).
        + destruct (T5 k ltac:(lia)) as [H|[H|H]]; auto.
        + right; left. apply Hnew. lia. }
    exists a', r', p', w'. rewrite <- app_assoc in HT'. split; [done|]. split; [done|]. split; [lia|].
    intros k Hk. rewrite Hk' by done. by apply Hkeep.
  - destruct (late_snoc _ _ _ Ha) as [Hl Hb]. set (s := (ov_Start o, ov_End o, ov_AddUserID o)) in *.
    destruct (UserSetSpan_spec it Hstep n a w la s T1 Hn Hl Hb) as (a1 & w1 & E & _).
    destruct (UserSetSpan_apart n a w la s a1 w1 T1 Hn Hl Hb E) as (B & Hlen & Hkeep & Hnew & Hmono & Hap).
    destruct (Hap r lr T2) as [B1 A1]; [intros k H1 H2; destruct (T4 k); tauto|].
    destruct (Hap p lp T3) as [B3 A3]; [intros k H1 H2; destruct (T4 k); tauto|].
    change (ov_Start o) with (span_start s). change (ov_End o) with (span_end s).
    change (ov_AddUserID o) with (span_id s). rewrite E. cbn [mbind option_bind].
    destruct (IH a1 r p w1 (la ++ [s]) lr lp) as (a' & r' & p' & w' & E' & HT' & Hl' & Hk');
      [|lia|by rewrite <- app_assoc|done|done|].
    { split; [done|done|done| |].
      - intros k. specialize (A1 k). specialize (A3 k). destruct (T4 k). tauto.
      - intros k Hk. destruct (decide (k < length w)%nat).
        + destruct (T5 k ltac:(lia)) as [H|[H|H]]; auto.
        + left. apply Hnew. lia. }
    exists a', r', p', w'. rewrite <- app_assoc in HT'. split; [done|]. split; [done|]. split; [lia|].
    intros k Hk. rewrite Hk' by done. by apply Hkeep.
  - destruct (late_snoc _ _ _ Hp) as [Hl Hb].
    set (s := (ov_Start o, ov_End o, replace_id (ov_RemoveUserID o) (ov_AddUserID o))) in *.
    destruct (UserSetSpan_spec it Hstep n p w lp s T3 Hn Hl Hb) as (p1 & w1 & E & _).
    destruct (UserSetSpan_apart n p w lp s p1 w1 T3 Hn Hl Hb E) as (B & Hlen & Hkeep & Hnew & Hmono & Hap).
    destruct (Hap a la T1) as [B1 A1]; [intros k H1 H2; destruct (T4 k); tauto|].
    destruct (Hap r lr T2) as [B3 A3]; [intros k H1 H2; destruct (T4 k); tauto|].
    change (ov_Start o) with (span_start s). change (ov_End o) with (span_end s).
    change (replace_id (ov_RemoveUserID o) (ov_AddUserID o)) with (span_id s). rewrite E. cbn [mbind option_bind].
    destruct (IH a r p1 w1 la lr (lp ++ [s])) as (a' & r' & p' & w' & E' & HT' & Hl' & Hk');
      [|lia|done|done|by rewrite <- app_assoc|].
    { split; [done|done|done| |].
      - intros k. specialize (A1 k). specialize (A3 k). destruct (T4 k). tauto.
      - intros k Hk. destruct (decide (k < length w)%nat).
        + destruct (T5 k ltac:(lia)) as [H|[H|H]]; auto.
        + right; right. apply Hnew. lia. }
    exists a', r', p', w'. rewrite <- app_assoc in HT'. split; [done|]. split; [done|]. split; [lia|].
    intros k Hk. rewrite Hk' by done. by apply Hkeep.
Qed.

Definition override_ready (w : store) (k : nat) (os : list UserOverride) : Prop :=
  exists o, w !! k = Some (SOverride o) /\
    user_ready it w (o_add o) (omap add_span os) /\
    user_ready it w (o_remove o) (omap remove_span os) /\
    user_ready it w (o_replace o) (omap replace_span os).

Lemma SplitN2_replace a b : is_Some (SplitN2 (replace_id a b)).
Proof.
  unfold replace_id. induction a as [|c a IH]; simpl.
  - done.
  - destruct (Ascii.eqb c newline); [by eexists|]. destruct IH as [[x y] ->]. simpl. by eexists.
Qed.

Lemma replace_span_split (os : list UserOverride) s : s ∈ omap replace_span os -> is_Some (SplitN2 (span_id s)).
Proof.
  intros (o & _ & Ho)%list_elem_of_omap. unfold replace_span in Ho.
  destruct (negb _ && negb _); [|done]. injection Ho as <-. apply SplitN2_replace.
Qed.

(** Initialising the map of one builder keeps the user calculators made so far. *)
Lemma user_ready_step w w' k l (R : nat -> Prop) :
  user_ready it w k l -> (k < length w)%nat ->
  (forall j, (j < length w)%nat -> ~ R j -> w' !! j = w !! j) -> ~ R k ->
  (forall u, get_user w k = Some u -> forall id c, (id, c) ∈ calc u -> ~ R c) ->
  user_ready it w' k l /\
  (forall u, get_user w' k = Some u -> get_user w k = Some u).
Proof.
  intros Hr Hk Hsame HRk HRc. pose proof Hr as [(u & Hu & Hc) _].
  assert (w' !! k = w !! k) as E by by apply Hsame.
  split.
  - apply (user_ready_frame it w); [done|done|]. intros u' id c Hu' Hin.
    assert (u' = u) as -> by congruence. apply Hsame; [destruct (Hc id c Hin); lia|by eapply HRc].
  - intros u'. by rewrite (proj1 (proj2 (get_same w w' k E))).
Qed.

Lemma NewOverrideCalculator_ready overrides w :
  let os := sort_slice override_by_start overrides in
  wf_store w -> spans_ok (omap add_span os) -> spans_ok (omap remove_span os) ->
  spans_ok (omap replace_span os) ->
  exists k w', NewOverrideCalculator it overrides w = Some (k, w') /\ wf_store w' /\ ext w w' /\
    override_ready w' k os.
Proof using Hstep.
  intros os Hw Ha Hr Hp. unfold NewOverrideCalculator. fold os.
  destruct (override_loop_spec (length w) os ∅ ∅ ∅ w [] [] []) as
    (a & r & p & w0 & E & [B1 B2 B3 T4 T5] & Hl0 & Hk0); [|done|done|done|done|].
  { split; try apply builder_nil; [|lia].
    intros k. split; intros H; by apply in_range_empty in H. }
  cbn [app] in *. rewrite E. cbn [mbind option_bind].
  assert (forall m l, builder it (length w) m w0 l -> forall k, in_range m k ->
    (length w <= k < length w0)%nat) as Hrange.
  { intros m l HB k (id & Hid). by destruct (b_entry _ _ _ _ _ HB id k Hid) as [? _]. }
  pose proof (Hrange _ _ B1) as R1. pose proof (Hrange _ _ B2) as R2. pose proof (Hrange _ _ B3) as R3.
  assert (pend (fun k => in_range a k \/ in_range r k \/ in_range p k) w0) as HP.
  { apply (pend_iff (fun k => False \/ (in_range a k \/ in_range r k \/ in_range p k))); [tauto|].
    apply (pend_step (fun _ => False) _ w).
    - by apply pend_none.
    - done.
    - intros k Hk _. by apply Hk0.
    - intros k [H|[H|H]]; [eapply (builder_blank _ _ a)|eapply (builder_blank _ _ r)|
        eapply (builder_blank _ _ p)]; done.
    - done.
    - intros k [H|[H|H]] Hk; [apply R1 in H|apply R2 in H|apply R3 in H]; lia.
    - intros k. destruct (in_range_dec a k), (in_range_dec r k), (in_range_dec p k); tauto. }
  destruct (UserInit_ready it (length w) a w0 _ _ B1 HP) as (w1 & E1 & L1 & P1 & U1 & K1 & C1).
  { intros k [H|[H|H]]; auto; [apply R1 in H|apply R2 in H|apply R3 in H]; lia. }
  assert (forall m l, builder it (length w) m w0 l -> (forall k, in_range m k -> ~ in_range a k) ->
    builder it (length w) m w1 l) as F1.
  { intros m l HB Hap. eapply builder_frame; [exact HB|lia|]. intros k Hk.
    apply K1; [by eapply Hrange|by apply Hap]. }
  assert (builder it (length w) r w1 (omap remove_span os)) as B2'
    by (apply F1; [done|intros k; destruct (T4 k); tauto]).
  assert (builder it (length w) p w1 (omap replace_span os)) as B3'
    by (apply F1; [done|intros k; destruct (T4 k); tauto]).
  destruct (UserInit_ready it (length w) r w1 _ _ B2' P1) as (w2 & E2 & L2 & P2 & U2 & K2 & C2).
  { intros k [[H|[H|H]] _]; [apply R1 in H|apply R2 in H|apply R3 in H]; lia. }
  assert (builder it (length w) p w2 (omap replace_span os)) as B3''.
  { eapply builder_frame; [exact B3'|lia|]. intros k Hk. pose proof (R3 k Hk).
    apply K2; [lia|]. destruct (T4 k); tauto. }
  destruct (UserInit_ready it (length w) p w2 _ _ B3'' P2) as (w3 & E3 & L3 & P3 & U3 & K3 & C3).
  { intros k [[[H|[H|H]] _] _]; [apply R1 in H|apply R2 in H|apply R3 in H]; lia. }
  rewrite E1. cbn [mbind option_bind]. rewrite E2. cbn [mbind option_bind]. rewrite E3.
  cbn [mbind option_bind]. rewrite L1, L2, L3. cbn [Nat.pred].
  (* the users of the first two stay *)
  assert (user_ready it w2 (length w0) (omap add_span os) /\
    (forall u, get_user w2 (length w0) = Some u -> get_user w1 (length w0) = Some u)) as [U1' G1].
  { apply (user_ready_step w1 w2 _ _ (in_range r)); [done|lia|done| |].
    - intros H. apply R2 in H. lia.
    - intros u Hu id c Hin Hr'. pose proof (C1 u Hu id c Hin). destruct (T4 c); tauto. }
  assert (user_ready it w3 (length w0) (omap add_span os)) as U1''.
  { apply (user_ready_step w2 w3 _ _ (in_range p)); [done|lia|done| |].
    - intros H. apply R3 in H. lia.
    - intros u Hu id c Hin Hr'. pose proof (C1 u (G1 u Hu) id c Hin). destruct (T4 c); tauto. }
  assert (user_ready it w3 (length w1) (omap remove_span os)) as U2'.
  { apply (user_ready_step w2 w3 _ _ (in_range p)); [done|lia|done| |].
    - intros H. apply R3 in H. lia.
    - intros u Hu id c Hin Hr'. pose proof (C2 u Hu id c Hin). destruct (T4 c); tauto. }
  rewrite L1 in U2'. rewrite L2 in U3. rewrite L1 in U3.
  set (o := mkOverride (length w0) (S (length w0)) (S (S (length w0))) ∅).
  exists (length w3), (w3 ++ [SOverride o]). rewrite L3, L2, L1. split; [done|].
  assert (wf_store w3) as W3 by (apply pend_none; eapply pend_iff; [|exact P3]; intros; tauto).
  pose proof (ext_app w3 [SOverride o]) as Hext.
  assert (forall k l, user_ready it w3 k l -> user_ready it (w3 ++ [SOverride o]) k l) as HX
    by (intros; by eapply ext_user_ready).
  split; [|split].
  - apply wf_store_snoc; [done|]. simpl. rewrite L3, L2, L1.
    apply HX in U1'', U2', U3. destruct U1'' as [(u1 & Hu1 & _) _], U2' as [(u2 & Hu2 & _) _],
      U3 as [(u3 & Hu3 & H3) _].
    split; [lia|]. split; [by eexists|]. split; [by eexists|]. split; [by eexists|]. split; [done|].
    intros u id c Hu Hin. assert (u = u3) as -> by congruence.
    destruct (H3 id c Hin) as (_ & s & Hs & <-). by eapply replace_span_split.
  - apply (ext_trans w w3); [|done]. split; [lia|]. intros k Hk.
    rewrite K3, K2, K1, Hk0; [done|lia|lia|..|lia| |lia|]; intros H;
      [apply R1 in H|apply R2 in H|apply R3 in H]; lia.
  - exists o. split; [rewrite lookup_app_r by lia; by replace (S (S (S (length w0))) - length w3)%nat with 0%nat by lia|].
    simpl. auto.
Qed.
End constructors.
