(* ===== verification/RuleCalc.v ===== *)
(** * The calculators of rules: [NewSingleRuleCalculator], [NewRulesCalculator]

    The loops over the times a rule is active and over the shifts of a rotation
    give the active calculators exactly the spans of their declarative readings,
    within the loop limit. *)

From S2P Require Import Prelude GoTime Clock WeekdayFilter Assignment Rule.
From S2P Require Rotation.
From S2P Require Import TempSchedule TimeIterator Calculators Spans Constructors.

Lemma tmin_exact t : inst t mod Minute = 0 -> tmin t * Second = inst t.
Proof. intros H. rewrite <- tmin_inst, Truncate_minute_mod, H. lia. Qed.

Lemma in_span_exact s e i :
  inst s mod Minute = 0 -> inst e mod Minute = 0 ->
  in_span s e i <-> inst s <= i * Second < inst e.
Proof.
  intros Hs He. unfold in_span. pose proof (tmin_exact s Hs). pose proof (tmin_exact e He).
  pose proof Second_pos. nia.
Qed.

Lemma floor_le m a b : 0 < m -> a <= b -> a - a mod m <= b - b mod m.
Proof.
  intros Hm Hab. pose proof (Z.div_le_mono a b m Hm Hab).
  pose proof (Z.div_mod a m ltac:(lia)). pose proof (Z.div_mod b m ltac:(lia)). nia.
Qed.

(** ** The loop over the active times of a rule *)

Section rule.
Context (it : TimeIterator) (Hstep : it_step it = 60).
Context (l : Location) (o : Z) (Hl : fixed_at l o) (Ho : o mod 60 = 0).
Context (r : Rule) (Hr : wf_rule r).
Context (Hnv : NeverActive r = false) (Hal : AlwaysActive r = false).

(** Rounds the loop needs from a shift that starts at [s]. *)
Definition rule_rounds (s : Z) : Z := Z.max 0 ((it_end it * Second - s) / Day + 1).

Lemma rule_rounds_step s s' :
  s < it_end it * Second -> s + Day <= s' -> 1 + rule_rounds s' <= rule_rounds s.
Proof.
  unfold rule_rounds. intros H1 H2. clear - H1 H2.
  assert ((it_end it * Second - s') / Day + 1 <= (it_end it * Second - s) / Day); [|unfold_units; dlia].
  replace ((it_end it * Second - s') / Day + 1) with ((it_end it * Second - s' + 1 * Day) / Day)
    by (by rewrite Z.div_add). apply Z.div_le_mono; unfold_units; lia.
Qed.

Lemma rule_loop_spec : forall limit d a sp,
  day_on (RFilter r) d -> Minute <= slot_start o r d ->
  blank a sp -> (forall x, x ∈ sp -> x.2 * Second <= slot_start o r d) ->
  (forall i, window it i -> i * Second < slot_start o r d ->
     covered sp i <-> active_at o r (i * Second)) ->
  rule_rounds (slot_start o r d) <= Z.of_nat limit ->
  exists a' sp' limit',
    rule_loop limit it r (mkTime (slot_start o r d) l) a = Some (a', limit') /\ blank a' sp' /\
    (forall i, window it i -> covered sp' i <-> active_at o r (i * Second)) /\
    Z.of_nat limit - rule_rounds (slot_start o r d) <= Z.of_nat limit'.
Proof using Hstep Hl Ho Hr Hnv Hal.
  induction limit as [|limit IH]; intros d a sp Hd Hmin Hb Hx Hcov Hlim; cbn [rule_loop];
    unfold Before at 1; cbn [inst it_End time_Unix];
    destruct (slot_start o r d <? it_end it * Second) eqn:EB; bprop; cbn [negb].
  - unfold rule_rounds in Hlim. unfold_units. dlia.
  - exists a, sp, O. split; [done|]. split; [done|]. split; [|unfold rule_rounds; lia].
    intros i Hi. apply Hcov; [done|]. destruct Hi. pose proof Second_pos. nia.
  - assert (zero_inst + 9 * Day < slot_start o r d) as Hz by (unfold zero_inst in *; unfold_units; lia).
    destruct (rule_iter l o Hl r Hr d Hnv Hal Ho Hd Hz)
      as (y & d' & x' & EE & Hdy & Hact & ES & Hyd & F' & Hd'). rewrite EE.
    destruct (slot_minutes o r Hr Ho d) as [Ms _]. destruct (slot_minutes o r Hr Ho y) as [_ Me].
    set (s := mkTime (slot_start o r d) l) in *. set (e := mkTime (slot_end o r y) l) in *.
    pose proof (tmin_exact s Ms) as Ts. cbn [inst s] in Ts. pose proof (tmin_exact e Me) as Te. cbn [inst e] in Te.
    pose proof Second_pos as HS0.
    pose proof (slots_ordered o r Hr y d' Hyd) as Hyd'.
    assert (slot_start o r d + Day <= slot_start o r d') as Hday.
    { unfold slot_start. unfold_units. lia. }
    assert (slot_start o r d < slot_end o r y) as Hlt.
    { pose proof (slot_nonempty o r Hr y). pose proof (slot_mono o r d y Hdy). lia. }
    destruct (SetSpan_spec it Hstep a sp s e Hb) as (a1 & sp1 & -> & Hb1 & Hc1 & Hx1).
    { intros _. split; [unfold_units; nia|]. intros x Hin. specialize (Hx x Hin). nia. }
    cbn [mbind option_bind]. rewrite ES.
    destruct (IH d' a1 sp1 Hd') as (a' & sp' & limit' & E & Hb' & Hc' & Hl'); [lia|done| | | |].
    + intros x Hin. destruct (Hx1 x Hin) as [(z & Hz1 & ->)|[-> _]]; [specialize (Hx z Hz1); lia|lia].
    + intros i Hw Hi. rewrite (Hc1 i Hw), (in_span_exact s e i Ms Me). cbn [inst s e].
      destruct (decide (i * Second < slot_start o r d)) as [Hbe|Hbe].
      * rewrite (Hcov i Hw Hbe). split; [intros [H|H]; [done|lia]|by left].
      * assert (~ covered sp i) as Hno.
        { intros (x & Hin & H1 & H2). specialize (Hx x Hin). nia. }
        split.
        -- intros [H|H]; [done|]. apply Hact. lia.
        -- intros H. right. split; [lia|]. destruct (decide (i * Second < slot_end o r y)); [done|].
           pose proof (found_start o r _ d' x' F' (i * Second) ltac:(lia) H). lia.
    + pose proof (rule_rounds_step _ _ EB Hday). lia.
    + exists a', sp', limit'. split; [done|]. split; [done|]. split; [done|].
      pose proof (rule_rounds_step _ _ EB Hday). lia.
  - exists a, sp, (S limit). split; [done|]. split; [done|]. split; [|unfold rule_rounds; lia].
    intros i Hi. apply Hcov; [done|]. destruct Hi. pose proof Second_pos. nia.
Qed.

(** From the start of the window. *)
Lemma rule_loop_ready limit :
  864000 <= it_start it -> it_start it <= it_end it ->
  (it_end it - it_start it) / 86400 + 11 <= Z.of_nat limit ->
  exists a' sp' limit',
    rule_loop limit it r (StartTime r (In_ (it_Start it) l)) newActive = Some (a', limit') /\
    blank a' sp' /\
    (forall i, window it i -> covered sp' i <-> active_at o r (i * Second)) /\
    Z.of_nat limit - ((it_end it - it_start it) / 86400 + 11) <= Z.of_nat limit'.
Proof using Hstep Hl Ho Hr Hnv Hal.
  intros Hbase Hse Hlim.
  destruct (StartTime_found l o Hl r Hr (In_ (it_Start it) l) eq_refl Hnv Hal) as (d & x & -> & F).
  pose proof (found_near o r Hr _ d x Hal F) as Hnear.
  rewrite Truncate_minute_mod in *. cbn [In_ it_Start time_Unix inst] in *.
  pose proof (Z.mod_pos_bound (it_start it * Second) Minute ltac:(done)) as HM.
  assert (rule_rounds (slot_start o r d) <= (it_end it - it_start it) / 86400 + 11) as Hrr.
  { unfold rule_rounds.
    assert ((it_end it * Second - slot_start o r d) / Day <= (it_end it - it_start it) / 86400 + 10); [|dlia].
    transitivity (((it_end it - it_start it) * Second + 10 * Day) / Day).
    - apply Z.div_le_mono; unfold_units; lia.
    - rewrite Z.div_add by done. rewrite Day_eq. rewrite Z.div_mul_cancel_r by done. lia. }
  destruct (rule_loop_spec limit d newActive []) as (a' & sp' & limit' & E & Hb & Hc & Hl').
  - apply (proj1 (proj2 (proj2 F))). destruct F. lia.
  - unfold_units. lia.
  - done.
  - intros y Hy. by apply elem_of_nil in Hy.
  - intros i Hw Hi. split; [by intros (y & Hy%elem_of_nil & _)|]. intros Ha.
    apply (active_minute o r Hr Ho) in Ha.
    assert (it_start it * Second <= i * Second) as Hle by (destruct Hw; unfold_units; lia).
    pose proof (found_start o r _ d x F _ (floor_le Minute _ _ eq_refl Hle) Ha) as H.
    pose proof (Z.mod_pos_bound (i * Second) Minute ltac:(done)). lia.
  - lia.
  - exists a', sp', limit'. split; [done|]. split; [done|]. split; [done|]. lia.
Qed.
End rule.

(** ** The loop over the shifts of a rotation *)

Section rotation.
Import Rotation.
Context (it : TimeIterator).
Context (rot : Rotation) (h : Z -> Z) (lo hi : Z) (L : HandoffLaws rot h lo hi).
Context (Hlo : Minute <= h lo) (Hend : it_end it * Second <= h hi).
(** The participant of each shift. *)
Context (us : Z -> option string).

(** The resolved rotation may have been moved by earlier calls: its cached shift
    and position still assign the same participant to every shift. *)
Definition rot_ok (r : ResolvedRotation) : Prop :=
  let n := Z.of_nat (length (Users r)) in
  exists j, cached (rot:=rot) (h:=h) r j /\ lo <= j < hi /\ 2 <= n /\ 0 <= CurrentIndex r < n /\
    forall k, us k = Users r !! Z.to_nat ((CurrentIndex r + (k - j)) mod n).

Lemma UserID_ok fuel r t k :
  rot_ok r -> lo <= k < hi -> h k <= inst t < h (k + 1) -> hi - lo <= Z.of_nat fuel ->
  exists r' u, UserID fuel r t = Some (r', u) /\ us k = Some u /\
    in_shift (rot:=rot) (h:=h) r' k /\ rot_ok r' /\ Users r' = Users r.
Proof using L Hlo.
  intros (j & Hc & Hj & Hn & Hi & Hus) Hk Ht Hf.
  destruct (UserID_spec rot h lo hi L fuel r t j k Hc Hj Hk Ht Hn Hi ltac:(lia))
    as (r' & u & E & Hin & HU & HI & Hu).
  exists r', u. split; [done|]. split; [by rewrite Hus, <- HI|]. split; [done|]. split; [|done].
  pose proof (handoff_le (L:=L) lo k ltac:(lia) ltac:(lia) ltac:(lia)) as Hle.
  pose proof (handoff_lt (L:=L) k Hk) as Hlt. destruct Hin as (Er & Es & Ee).
  assert (Hm : 0 <= CurrentIndex r' < Z.of_nat (length (Users r))).
  { rewrite HI. apply Z.mod_pos_bound. lia. }
  exists k. rewrite HU. split; [|split; [done|split; [done|split; [done|]]]].
  - split; [done|]. split; [lia|]. split; [|right; done].
    rewrite Es. unfold zero_inst. unfold_units. lia.
  - intros k'. rewrite Hus, HI, Zplus_mod_idemp_l. do 3 f_equal. lia.
Qed.

(** Some shift of [id] covers [i]. *)
Definition shift_user (id : string) (i : Z) : Prop :=
  exists k, lo <= k < hi /\ h k <= i * Second < h (k + 1) /\ us k = Some id.

Lemma shift_unique j k x :
  lo <= j < hi -> lo <= k < hi -> h j <= x < h (j + 1) -> h k <= x < h (k + 1) -> j = k.
Proof using L.
  intros Hj Hk H1 H2. destruct (Z.lt_trichotomy j k) as [H|[H|H]]; [|done|].
  - pose proof (handoff_le (L:=L) (j + 1) k ltac:(lia) ltac:(lia) ltac:(lia)). lia.
  - pose proof (handoff_le (L:=L) (k + 1) j ltac:(lia) ltac:(lia) ltac:(lia)). lia.
Qed.

(** The loop sets the spans of the shifts, in order. *)
Lemma rot_loop_spec fuel : forall limit k r cur,
  rot_ok r -> lo <= k <= hi -> h k <= inst cur -> (k < hi -> inst cur < h (k + 1)) ->
  hi - k <= Z.of_nat limit -> hi - lo <= Z.of_nat fuel ->
  exists r' l,
    (forall mw, rot_loop limit fuel it r cur mw =
      match UserSetSpans it l mw with Some mw' => Some (r', mw') | None => None end) /\
    rot_ok r' /\ Users r' = Users r /\ spans_ok l /\
    Forall (fun s => h k <= tmin (span_start s) * Second) l /\
    forall id i, i < it_end it -> h k <= i * Second ->
      inst cur < it_end it * Second \/ inst cur <= i * Second ->
      on_span l id i <-> shift_user id i.
Proof using L Hlo Hend.
  induction limit as [|limit IH]; intros k r cur Hr Hk Hc1 Hc2 Hlim Hf; cbn [rot_loop];
    unfold Before; cbn [inst it_End time_Unix];
    destruct (inst cur <? it_end it * Second) eqn:EB; bprop; cbn [negb].
  - assert (k = hi) as -> by lia. lia.
  - exists r, []. split; [intros mw; done|]. split; [done|]. split; [done|].
    split; [split; constructor|]. split; [constructor|]. intros id i Hi H Hc. pose proof Second_pos. nia.
  - assert (k < hi) as Hkh.
    { destruct (decide (k < hi)); [done|]. assert (k = hi) as -> by lia. lia. }
    destruct (UserID_ok fuel r cur k Hr ltac:(lia) ltac:(auto) Hf)
      as (r1 & u & -> & Hu & (Er & Es & Ee) & Hr1 & HU1). cbn [mbind option_bind].
    pose proof (handoff_lt (L:=L) k ltac:(lia)) as Hlt.
    destruct (IH (k + 1) r1 (CurrentEnd r1) Hr1) as (r' & l & E & Hr' & HU & Hok & Hge & Hon);
      [lia|lia|rewrite Ee; intros; apply (handoff_lt (L:=L)); lia|lia|done|].
    exists r', ((CurrentStart r1, CurrentEnd r1, u) :: l).
    pose proof (handoff_minute (HandoffLaws:=L) k) as M1. pose proof (handoff_minute (HandoffLaws:=L) (k + 1)) as M2.
    pose proof (tmin_exact (CurrentStart r1)) as T1. rewrite Es in T1. specialize (T1 M1).
    pose proof (tmin_exact (CurrentEnd r1)) as T2. rewrite Ee in T2. specialize (T2 M2).
    pose proof (handoff_le (L:=L) lo k ltac:(lia) ltac:(lia) ltac:(lia)) as Hle0.
    split; [|split; [done|split; [congruence|split; [split|split]]]].
    + intros mw. cbn [UserSetSpans]. destruct (UserSetSpan it _ _ u mw) as [mw1|]; cbn [mbind option_bind]; [|done].
      apply E.
    + constructor; [|apply Hok]. intros _. unfold span_start. simpl. unfold_units. lia.
    + constructor; [|apply Hok]. eapply Forall_impl; [exact Hge|]. intros s Hs _ _ _.
      unfold span_end at 1. simpl in *. pose proof Second_pos. nia.
    + constructor; [unfold span_start; simpl; lia|]. eapply Forall_impl; [exact Hge|]. simpl. lia.
    + intros id i Hi Hge' _. unfold on_span. rewrite ex_in_cons. fold (on_span l id i).
      unfold span_id, span_covers, span_start, span_end. cbn [fst snd].
      rewrite in_span_exact by (rewrite ?Es, ?Ee; done). rewrite Es, Ee.
      destruct (decide (h (k + 1) <= i * Second)) as [Hd|Hd].
      * rewrite (Hon id i Hi Hd) by (right; by rewrite Ee). split; [intros [[_ H]|H]; [lia|done]|by right].
      * assert (~ on_span l id i) as Hno.
        { intros (s & Hs & _ & [H _]). rewrite Forall_forall in Hge. specialize (Hge s Hs).
          pose proof Second_pos. nia. }
        split.
        -- intros [[<- H]|H]; [|done]. exists k. split; [lia|]. done.
        -- intros (k' & Hk' & H1 & H2). left. assert (k' = k) as ->.
           { apply (shift_unique k' k (i * Second)); lia || done. }
           split; [congruence|lia].
  - exists r, []. split; [intros mw; done|]. split; [done|]. split; [done|].
    split; [split; constructor|]. split; [constructor|]. intros id i Hi H Hc. pose proof Second_pos. nia.
Qed.
End rotation.

(** ** The declarative reading of a rule *)

(** What is known of a loaded rotation: its handoffs, the shifts they are known
    for, and the shift its stored position belongs to. *)
Record RotData := mkRD { rd_h : Z -> Z; rd_lo : Z; rd_hi : Z; rd_j : Z }.

Section reading.
Import Rotation.

Definition participant (r : ResolvedRotation) (rd : RotData) (k : Z) : option string :=
  Users r !! Z.to_nat ((CurrentIndex r + (k - rd_j rd)) mod Z.of_nat (length (Users r))).

(** [u] is the user of the rotation at the second [i]. *)
Definition on_rotation (r : ResolvedRotation) (rd : RotData) (i : Z) (u : string) : Prop :=
  match Users r with
  | [] => False
  | [v] => u = v
  | _ => shift_user (rd_h rd) (rd_lo rd) (rd_hi rd) (participant r rd) u i
  end.

(** The handoffs are known from the window's start (and the stored shift) to its
    end, within the loop limit. *)
Definition rotation_fits (fuel : nat) (it : TimeIterator) (r : ResolvedRotation) (rd : RotData)
  : Prop :=
  (2 <= length (Users r))%nat ->
  HandoffLaws (Rotation.rr_Rotation r) (rd_h rd) (rd_lo rd) (rd_hi rd) /\
  cached (rot:=Rotation.rr_Rotation r) (h:=rd_h rd) r (rd_j rd) /\
  rd_lo rd <= rd_j rd < rd_hi rd /\
  0 <= CurrentIndex r < Z.of_nat (length (Users r)) /\
  Minute <= rd_h rd (rd_lo rd) <= it_start it * Second /\
  it_end it * Second <= rd_h rd (rd_hi rd) /\
  rd_hi rd - rd_lo rd <= Z.of_nat fuel /\
  (it_end it - it_start it) / 86400 + 11 + (rd_hi rd - rd_lo rd) <= 100000.

(** [r] is [r0] after any number of calls of [UserID]. *)
Definition moved (r0 : ResolvedRotation) (rd : RotData) (r : ResolvedRotation) : Prop :=
  Users r = Users r0 /\
  ((2 <= length (Users r0))%nat ->
   rot_ok (Rotation.rr_Rotation r0) (rd_h rd) (rd_lo rd) (rd_hi rd) (participant r0 rd) r).

Lemma moved_refl fuel it r rd : rotation_fits fuel it r rd -> moved r rd r.
Proof.
  intros H. split; [done|]. intros Hn. destruct (H Hn) as (_ & Hc & Hj & Hi & _).
  exists (rd_j rd). split; [done|]. split; [done|]. split; [lia|]. split; [done|]. done.
Qed.
End reading.

Section single.
Import Rotation.
Context {HG : GoSort} {HM : GoMapRange}.
Context (fuel : nat) (it : TimeIterator) (Hstep : it_step it = 60).
Context (Hbase : 864000 <= it_start it) (Hlt : it_start it < it_end it).

Definition whole_span (id : string) : span := (it_Start it, Add (it_End it) (it_Step it), id).

Lemma whole_span_covers id i : window it i -> span_covers (whole_span id) i.
Proof using Hstep.
  intros [H1 H2]. unfold span_covers, whole_span, in_span, span_start, span_end. cbn [fst snd].
  rewrite (Step_minute it Hstep). unfold tmin, Unix. rewrite !Truncate_minute_mod.
  unfold it_Start, it_End, time_Unix, Add. cbn [inst]. unfold Minute, Second. dlia.
Qed.

Lemma whole_span_late id : span_late (whole_span id).
Proof using Hbase.
  intros _. unfold whole_span, span_start, tmin, Unix. cbn [fst snd]. rewrite Truncate_minute_mod.
  unfold it_Start, time_Unix. cbn [inst]. unfold Minute, Second. dlia.
Qed.

Lemma whole_span_ok id : spans_ok [whole_span id].
Proof using Hbase. split; (constructor; [|constructor]); [apply whole_span_late|constructor]. Qed.

Context (l : Location).

Lemma rotation_spans_ready limit r0 rd r :
  rotation_fits fuel it r0 rd -> moved r0 rd r ->
  100000 - ((it_end it - it_start it) / 86400 + 11) <= Z.of_nat limit ->
  exists r' sp,
    (forall mw, rotation_spans limit fuel it l r mw =
       match UserSetSpans it sp mw with Some mw' => Some (r', mw') | None => None end) /\
    moved r0 rd r' /\ spans_ok sp /\
    forall i id, window it i -> on_span sp id i <-> on_rotation r0 rd i id.
Proof using Hstep Hbase Hlt.
  intros Hfit [HU Hok] Hlim. unfold rotation_spans, on_rotation. rewrite HU.
  destruct (Users r0) as [|u [|u' us]] eqn:EU.
  - exists r, []. split; [intros mw; by destruct mw|]. split; [by split; rewrite EU|].
    split; [split; constructor|]. intros i id _. split; [by intros (x & Hx%elem_of_nil & _)|done].
  - exists r, [whole_span u]. split; [|split; [by split; rewrite EU|split; [apply whole_span_ok|]]].
    + intros mw. unfold UserID. rewrite HU. cbn [mbind option_bind UserSetSpans whole_span].
      by destruct (UserSetSpan _ _ _ _ _).
    + intros i id Hi. unfold on_span. rewrite ex_in_cons, ex_in_nil. unfold span_id at 1. simpl.
      pose proof (whole_span_covers u i Hi). split; [intros [[-> _]|[]]; done|intros ->; auto].
  - assert (2 <= length (Users r0))%nat as Hn by (rewrite EU; simpl; lia).
    rewrite <- EU in *. specialize (Hok Hn). destruct (Hfit Hn) as (L & Hc & Hj & Hi & [Hlo Hs] & He & Hf & Hrnd).
    set (h := rd_h rd) in *. set (lo := rd_lo rd) in *. set (hi := rd_hi rd) in *.
    assert (exists k, lo <= k < hi /\ h k <= it_start it * Second < h (k + 1)) as (k & Hk & Hks).
    { assert (it_start it * Second < h hi) as Hhi by (pose proof Second_pos; nia).
      clear - Hs Hhi Hj. assert (lo <= hi) as Hle by lia. clear Hj.
      revert Hhi. pattern hi. apply Zlt_lower_bound_ind with (z := lo); [|done].
      clear hi Hle. intros hi IH Hle Hhi. destruct (decide (hi = lo)) as [->|Hne]; [lia|].
      destruct (decide (it_start it * Second < h (hi - 1))) as [Hd|Hd].
      - destruct (IH (hi - 1)) as (k & Hk & Hks); [lia|done|]. exists k. split; [lia|done].
      - exists (hi - 1). rewrite Z.sub_add. split; [lia|lia]. }
    destruct (rot_loop_spec it (Rotation.rr_Rotation r0) h lo hi L Hlo He (participant r0 rd) fuel limit k r
      (In_ (it_Start it) l) Hok) as (r' & sp & E & Hok' & HU' & Hsp & _ & Hon);
      [lia|simpl; lia|simpl; lia|lia|done|].
    exists r', sp. split; [exact E|]. split; [by split; [congruence|]|]. split; [done|].
    intros i id [Hw1 Hw2]. apply Hon; [done| |left; simpl]; pose proof Second_pos; nia.
Qed.
Context (o : Z) (Hl : fixed_at l o) (Ho : o mod 60 = 0).
Context (Hdays : (it_end it - it_start it) / 86400 + 11 <= 100000).

Lemma rule_spans_ready rule :
  wf_rule rule ->
  exists a sp limit, rule_spans it l rule = Some (a, limit) /\ blank a sp /\
    (forall i, window it i -> covered sp i <-> active_at o rule (i * Second)) /\
    100000 - ((it_end it - it_start it) / 86400 + 11) <= Z.of_nat limit.
Proof using Hstep Hl Ho Hbase Hlt Hdays.
  intros Hr. unfold rule_spans.
  assert (Z.of_nat loop_limit = 100000) as Hlim by (unfold loop_limit; lia).
  set (lim := loop_limit) in *. clearbody lim.
  assert (0 <= (it_end it - it_start it) / 86400) by (apply Z.div_pos; lia).
  destruct (AlwaysActive rule) eqn:EA; [|destruct (NeverActive rule) eqn:EN]; cbn [negb].
  - destruct (SetSpan_spec it Hstep newActive [] (it_Start it) (Add (it_End it) (it_Step it)))
      as (a & sp & -> & Hb & Hc & _); [done| |].
    { intros Hne. split; [exact (whole_span_late EmptyString Hne)|]. by intros x Hx%elem_of_nil. }
    cbn [mbind option_bind]. exists a, sp, lim. split; [done|]. split; [done|]. split; [|lia].
    intros i Hi. rewrite (Hc i Hi). split; [intros _; by apply always_active|].
    intros _. right. by apply (whole_span_covers EmptyString).
  - exists newActive, [], lim. split; [done|]. split; [done|]. split; [|lia].
    intros i Hi. split; [by intros (x & Hx%elem_of_nil & _)|]. intros H'.
    by destruct (never_active o rule _ EN H').
  - destruct (rule_loop_ready it Hstep l o Hl Ho rule Hr EN EA lim Hbase ltac:(lia) ltac:(lia))
      as (a & sp & limit & E & Hb & Hc & Hlim'). exists a, sp, limit. rewrite Hlim in Hlim'. done.
Qed.

(** ** The calculators *)

Context (rots0 : list ResolvedRotation) (rds : nat -> RotData).

(** The rule is active at the second [i], and [u] is its target, or the user of
    the rotation that is. *)
Definition rule_user (rr : ResolvedRule) (i : Z) (u : string) : Prop :=
  active_at o (Calculators.rr_Rule rr) (i * Second) /\
  match Calculators.rr_Rotation rr with
  | Some p => exists r, rots0 !! p = Some r /\ on_rotation r (rds p) i u
  | None => TType (RTarget (Calculators.rr_Rule rr)) = TargetTypeUser /\
            u = TID (RTarget (Calculators.rr_Rule rr))
  end.

Definition rule_ok (rr : ResolvedRule) : Prop :=
  wf_rule (Calculators.rr_Rule rr) /\
  forall p, Calculators.rr_Rotation rr = Some p ->
    exists r, rots0 !! p = Some r /\ rotation_fits fuel it r (rds p).

Definition rots_ok (rots : list ResolvedRotation) : Prop :=
  forall p r0, rots0 !! p = Some r0 -> rotation_fits fuel it r0 (rds p) ->
    exists r, rots !! p = Some r /\ moved r0 (rds p) r.

Lemma rots_ok_refl : rots_ok rots0.
Proof. intros p r0 H Hf. exists r0. split; [done|]. by eapply moved_refl. Qed.

(** The calculator [k] reports the users of [P] within the window. *)
Definition single_ready (w : store) (k : nat) (P : Z -> string -> Prop) : Prop :=
  exists r, get_single w k = Some r /\
    forall i v, window it i -> single_val w r i v -> forall u, u <> EmptyString -> v = u <-> P i u.

Lemma user_val_ext w w' k u i id :
  wf_store w -> ext w w' -> get_user w k = Some u -> user_val w' k i id <-> user_val w k i id.
Proof.
  intros Hw [_ Hext] Hu. pose proof Hu as Hk. apply get_user_lookup in Hk.
  destruct (Hw k _ Hk) as [Hc _]. assert (k < length w)%nat as Hlt' by by eapply lookup_lt_Some.
  assert (get_user w' k = Some u) as Hu' by (rewrite <- Hu; by apply get_same, Hext).
  rewrite (user_val_iff w' k u i id Hu'), (user_val_iff w k u i id Hu).
  split; intros (c & Hin & H); exists c; (split; [done|]); destruct (Hc id c Hin) as [Hck _].
  - rewrite <- (act_val_same w w' c i); [done|]. apply Hext. lia.
  - rewrite (act_val_same w w' c i); [done|]. apply Hext. lia.
Qed.

Lemma ext_single_ready w w' k P : wf_store w -> ext w w' -> single_ready w k P -> single_ready w' k P.
Proof.
  intros Hw Hext (r & Hr & HP). pose proof Hr as Hk. apply get_single_lookup in Hk.
  assert (k < length w)%nat as Hlt' by by eapply lookup_lt_Some.
  destruct (Hw k _ Hk) as (Ha & _ & Hj & _). exists r.
  split; [rewrite <- Hr; by apply get_same, Hext|]. intros i v Hi Hv. apply HP; [done|].
  unfold single_val in *. rewrite (act_val_same w w') in Hv by (apply Hext; lia).
  destruct (act_val w (sr_act r) i); [|done]. destruct (sr_rot r) as [j|] eqn:EJ; [|done].
  destruct (Hj j eq_refl) as [_ [u Hu]]. destruct Hv as [Hv|[-> Hv]].
  - left. by rewrite <- (user_val_ext w w' j u).
  - right. split; [done|]. intros id. rewrite <- (user_val_ext w w' j u); done.
Qed.

Lemma on_rotation_unique r rd i u v :
  rotation_fits fuel it r rd -> on_rotation r rd i u -> on_rotation r rd i v -> u = v.
Proof.
  intros Hf. unfold on_rotation. destruct (Users r) as [|a [|b us]] eqn:EU; [done|congruence|].
  destruct (Hf ltac:(rewrite EU; simpl; lia)) as (L & _).
  intros (k & Hk & H1 & Hu) (k' & Hk' & H2 & Hv).
  assert (k = k') as -> by by eapply (shift_unique _ _ _ _ L). congruence.
Qed.

(** Why a single-rule calculator over ready parts reports the users of the rule. *)
Lemma single_val_rule w rr act rot i v :
  act_val w act i = true <-> active_at o (Calculators.rr_Rule rr) (i * Second) ->
  match Calculators.rr_Rotation rr, rot with
  | Some p, Some k => exists r, rots0 !! p = Some r /\ rotation_fits fuel it r (rds p) /\
      forall id, user_val w k i id <-> on_rotation r (rds p) i id
  | None, None => True
  | _, _ => False
  end ->
  single_val w (mkSingle act rot (RTarget (Calculators.rr_Rule rr)) EmptyString false) i v ->
  forall u, u <> EmptyString -> v = u <-> rule_user rr i u.
Proof.
  intros Ha Hrot Hv u Hu. unfold single_val, rule_user in *. cbn [sr_act sr_rot sr_target] in Hv.
  destruct (act_val w act i).
  2:{ subst v. split; [congruence|]. intros [H _]. apply Ha in H. done. }
  assert (active_at o (Calculators.rr_Rule rr) (i * Second)) as Hact by by apply Ha.
  destruct (Calculators.rr_Rotation rr) as [p|], rot as [k|]; try done.
  - destruct Hrot as (r & Hr & Hfit & Huv). split.
    + intros ->. destruct Hv as [Hv|[Hv _]]; [|done]. split; [done|]. exists r. split; [done|]. by apply Huv.
    + intros [_ (r' & Hr' & Hon)]. assert (r' = r) as -> by congruence.
      destruct Hv as [Hv|[_ Hno]]; [|by destruct (Hno u); apply Huv].
      eapply on_rotation_unique; [done|by apply Huv|done].
  - destruct (decide (TType (RTarget (Calculators.rr_Rule rr)) = TargetTypeUser)) as [Ht|Ht].
    + subst v. split; [intros <-; done|by intros (_ & _ & ->)].
    + subst v. split; [congruence|]. by intros (_ & ? & _).
Qed.

(** The active calculator of a rule, registered and initialised. *)
Lemma act_registered w a sp (cov : Z -> Prop) :
  wf_store w -> blank a sp -> (forall i, window it i -> covered sp i <-> cov i) ->
  <[length w := SActive (initActive a)]> (NewActiveCalculator w) = w ++ [SActive (initActive a)] /\
  wf_store (w ++ [SActive (initActive a)]) /\
  active_ready it (w ++ [SActive (initActive a)]) (length w) cov.
Proof.
  intros Hw Hb Hc. split; [|split].
  - unfold NewActiveCalculator. by rewrite insert_app_r_alt, Nat.sub_diag by lia.
  - apply wf_store_snoc; [done|]. by eapply blank_wf.
  - assert ((w ++ [SActive (initActive a)]) !! length w = Some (SActive (initActive a))) as E
      by by rewrite lookup_app_r, Nat.sub_diag by lia.
    split.
    + exists (initActive a). split; [by apply get_active_lookup|]. by eapply blank_wf.
    + intros i Hi. rewrite (blank_val _ _ a sp i Hb E). by apply Hc.
Qed.

(** The user calculator of a rule's rotation. *)
Lemma rotation_registered limit rr rots w :
  wf_store w -> rule_ok rr -> rots_ok rots ->
  100000 - ((it_end it - it_start it) / 86400 + 11) <= Z.of_nat limit ->
  exists rot rots' w',
    match Calculators.rr_Rotation rr with
    | None => Some (None, rots, w)
    | Some p =>
        r ← rots !! p;
        '(r, (m, w)) ← rotation_spans limit fuel it l r (∅, w);
        w ← UserInit m w;
        Some (Some (Nat.pred (length w)), <[p := r]> rots, w)
    end = Some (rot, rots', w') /\ wf_store w' /\ ext w w' /\ rots_ok rots' /\
    match Calculators.rr_Rotation rr, rot with
    | Some p, Some k => exists r, rots0 !! p = Some r /\ rotation_fits fuel it r (rds p) /\
        (exists u, get_user w' k = Some u) /\
        forall i, window it i -> forall id, user_val w' k i id <-> on_rotation r (rds p) i id
    | None, None => True
    | _, _ => False
    end.
Proof using Hstep Hbase Hlt.
  intros Hw [_ Hrot] Hrots Hlim. destruct (Calculators.rr_Rotation rr) as [p|]; [|by exists None, rots, w].
  destruct (Hrot p eq_refl) as (r0 & Hr0 & Hfit). destruct (Hrots p r0 Hr0 Hfit) as (r & Hr & Hmv).
  rewrite Hr. cbn [mbind option_bind].
  destruct (rotation_spans_ready limit r0 (rds p) r Hfit Hmv Hlim) as (r' & sp & E & Hmv' & Hok & Hon).
  rewrite E. apply pend_none in Hw.
  destruct (new_user it Hstep _ sp w Hw ltac:(done) Hok) as (m & w1 & w' & E1 & E2 & Hext & Hlen & HP & Hu).
  rewrite E1. cbn [mbind option_bind]. rewrite E2. cbn [mbind option_bind].
  eexists _, _, w'. split; [reflexivity|]. split; [by apply pend_none|]. split; [done|]. split.
  - intros q rq Hq Hqfit. destruct (decide (q = p)) as [->|Hne].
    + exists r'. assert (rq = r0) as -> by congruence. split; [|done].
      apply list_lookup_insert_eq. by eapply lookup_lt_Some.
    + rewrite list_lookup_insert_ne by done. by apply Hrots.
  - exists r0. split; [done|]. split; [done|]. destruct Hu as [(u & Hu & _) Hv].
    split; [by exists u|]. intros i Hi id. rewrite (Hv id i Hi). by apply Hon.
Qed.

Lemma NewSingleRuleCalculator_ready rr rots w :
  wf_store w -> rule_ok rr -> rots_ok rots ->
  exists rots' w', NewSingleRuleCalculator fuel it l rr rots w = Some (rots', w') /\
    wf_store w' /\ ext w w' /\ rots_ok rots' /\ (0 < length w')%nat /\
    single_ready w' (Nat.pred (length w')) (rule_user rr).
Proof using Hstep Hl Ho Hbase Hlt Hdays.
  intros Hw Hrr Hrots. unfold NewSingleRuleCalculator.
  destruct (rule_spans_ready (Calculators.rr_Rule rr) (proj1 Hrr)) as (a & sp & limit & -> & Hb & Hc & Hlim).
  cbn [mbind option_bind].
  destruct (act_registered w a sp _ Hw Hb Hc) as (-> & Hw1 & Ha).
  set (w1 := w ++ [SActive (initActive a)]) in *.
  destruct (rotation_registered limit rr rots w1 Hw1 Hrr Hrots Hlim)
    as (rot & rots' & w2 & -> & Hw2 & Hext2 & Hrots' & Hrot).
  cbn [mbind option_bind]. set (s := mkSingle _ _ _ _ _).
  assert (ext w2 (w2 ++ [SSingle s])) as Hext3 by apply ext_app.
  assert (length w1 = S (length w)) as L1 by (unfold w1; rewrite length_app; simpl; lia).
  assert (length w1 <= length w2)%nat as L2 by apply Hext2.
  assert (active_ready it (w2 ++ [SSingle s]) (length w)
    (fun i => active_at o (Calculators.rr_Rule rr) (i * Second))) as Ha'
    by (eapply ext_active_ready; [|exact Ha]; by eapply ext_trans).
  eexists rots', _. split; [reflexivity|]. split; [|split; [|split; [done|split]]].
  - apply wf_store_snoc; [done|]. simpl. split; [lia|]. split; [|split; [|done]].
    + destruct Ha' as [(x & Hx & _) _]. by exists x.
    + intros j ->. destruct (Calculators.rr_Rotation rr); [|done].
      destruct Hrot as (_ & _ & _ & (u & Hu) & _). apply get_user_lookup in Hu.
      assert (j < length w2)%nat as Hj by by eapply lookup_lt_Some.
      split; [done|]. exists u. apply get_user_lookup. by rewrite lookup_app_l.
  - eapply ext_trans; [|done]. eapply ext_trans; [|done]. apply ext_app.
  - rewrite length_app. simpl. lia.
  - exists s. rewrite length_app. simpl. replace (Nat.pred (length w2 + 1)) with (length w2) by lia.
    split; [apply get_single_lookup; by rewrite lookup_app_r, Nat.sub_diag by lia|].
    intros i v Hi. apply single_val_rule; [by apply Ha'|].
    destruct (Calculators.rr_Rotation rr) as [p|], rot as [k|]; try done.
    destruct Hrot as (r & Hr & Hfit & (u & Hu) & Hv). exists r. split; [done|]. split; [done|].
    intros id. rewrite <- (Hv i Hi). by apply (user_val_ext w2 _ k u).
Qed.

(** The single-rule calculators are registered in the order of the rules. *)
Lemma single_loop_ready rules : forall rots w,
  wf_store w -> Forall rule_ok rules -> rots_ok rots ->
  exists ks rots' w', single_loop fuel it l rules rots w = Some (ks, rots', w') /\
    wf_store w' /\ ext w w' /\
    Forall2 (fun k rr => single_ready w' k (rule_user rr)) ks rules.
Proof using Hstep Hl Ho Hbase Hlt Hdays.
  induction rules as [|rr rules IH]; intros rots w Hw Hrs Hrots; cbn [single_loop].
  { exists [], rots, w. split; [done|]. split; [done|]. split; [apply ext_refl|constructor]. }
  inversion Hrs as [|? ? Hrr Hrs']; subst.
  destruct (NewSingleRuleCalculator_ready rr rots w Hw Hrr Hrots)
    as (rots1 & w1 & -> & Hw1 & Hext1 & Hrots1 & Hlen & Hs). cbn [mbind option_bind].
  destruct (IH rots1 w1 Hw1 Hrs' Hrots1) as (ks & rots' & w' & -> & Hw' & Hext' & HF).
  cbn [mbind option_bind]. eexists _, rots', w'. split; [reflexivity|]. split; [done|].
  split; [exact (ext_trans _ _ _ Hext1 Hext')|]. constructor; [|done].
  exact (ext_single_ready _ _ _ _ Hw1 Hext' Hs).
Qed.

Definition rules_ready (w : store) (k : nat) (rules : list ResolvedRule) : Prop :=
  exists r, w !! k = Some (SRules r) /\
    Forall2 (fun k rr => single_ready w k (rule_user rr)) (r_rules r) rules.

Lemma NewRulesCalculator_ready rules w :
  wf_store w -> Forall rule_ok rules ->
  exists k w', NewRulesCalculator fuel it l rules rots0 w = Some (k, w') /\
    wf_store w' /\ ext w w' /\ rules_ready w' k rules.
Proof using Hstep Hl Ho Hbase Hlt Hdays.
  intros Hw Hrs. unfold NewRulesCalculator.
  destruct (single_loop_ready rules rots0 w Hw Hrs rots_ok_refl) as (ks & rots' & w' & -> & Hw' & Hext & HF).
  cbn [mbind option_bind]. eexists _, _. split; [reflexivity|].
  assert (ext w' (w' ++ [SRules (mkRules ks [] false)])) as Hext' by apply ext_app.
  split; [|split; [exact (ext_trans _ _ _ Hext Hext')|]].
  - apply wf_store_snoc; [done|]. simpl. split; [|done]. intros j Hj.
    apply list_elem_of_lookup in Hj as [n Hn]. destruct (Forall2_lookup_l _ _ _ _ _ HF Hn) as (rr & _ & r & Hr & _).
    apply get_single_lookup in Hr. assert (j < length w')%nat as Hlt' by by eapply lookup_lt_Some.
    split; [done|]. exists r. apply get_single_lookup. by rewrite lookup_app_l.
  - exists (mkRules ks [] false). split; [by rewrite lookup_app_r, Nat.sub_diag by lia|].
    eapply Forall2_impl; [exact HF|]. intros k rr. exact (ext_single_ready _ _ _ _ Hw' Hext').
Qed.
End single.
