(* ===== verification/OnCall.v ===== *)
(** * Calculating on-call shifts: [oncall/state.go]

    [CalculateShifts] builds the calculators of a schedule, iterates over the
    timestamps at which anything may change, and turns the users on call at
    each into shifts. *)

From S2P Require Import Prelude GoTime Clock WeekdayFilter Assignment Rule.
From S2P Require Rotation.
From S2P Require Import TempSchedule TimeIterator Calculators.

Record Shift := mkShiftOC {
  s_UserID : string;
  s_Start : Time;
  s_End : Time;
  s_Truncated : bool
}.

Record OnCallState := mkState {
  tempScheds : list TemporarySchedule;
  rules : list ResolvedRule;
  rotations : list Rotation.ResolvedRotation;     (** what the rules point at *)
  overrides : list UserOverride;
  history : list Shift;
  now : Time;
  loc : Location
}.

Definition shift_before (a b : Shift) : bool := Before (s_Start a) (s_Start b).

(** The order of [sortShifts]. *)
Definition shift_less (a b : Shift) : bool :=
  if EqualT (s_Start a) (s_Start b) then String.ltb (s_UserID a) (s_UserID b)
  else Before (s_Start a) (s_Start b).

(** ** The bookkeeping of shifts: [setOnCall] *)

Record Book := mkBook { shifts : list Shift; isOnCall : gmap string Shift }.

Section calculate.
Context `{GoSort} `{GoMapRange}.

Definition sortShifts (s : list Shift) : list Shift := sort_slice shift_less s.

(** The first loop of [setOnCall]. *)
Definition add_users (now : Time) (userIDs : list string) (m : gmap string Shift)
  : gmap string Shift :=
  fold_left (fun m id =>
    match m !! id with
    | Some _ => m
    | None => <[id := mkShiftOC id now zeroTime false]> m
    end) userIDs m.

(** The second loop, over a map whose entries it may delete. *)
Fixpoint end_users (start now : Time) (still : gset string) (ids : list (string * Shift))
  (b : Book) : Book :=
  match ids with
  | [] => b
  | (id, shift) :: ids =>
      if decide (id ∈ still) then end_users start now still ids b
      else
        let shifts' :=
          if After now start
          then shifts b ++ [mkShiftOC (s_UserID shift) (s_Start shift) now (s_Truncated shift)]
          else shifts b in
        end_users start now still ids (mkBook shifts' (delete id (isOnCall b)))
  end.

Definition setOnCall (start : Time) (t : Z) (userIDs : list string) (b : Book) : Book :=
  let now := time_Unix t in
  let m := add_users now userIDs (isOnCall b) in
  end_users start now (list_to_set userIDs) (map_range m) (mkBook (shifts b) m).

(** After the loop: the shifts that are not over are truncated. *)
Definition finish (t : Z) (b : Book) : list Shift :=
  sortShifts (shifts b ++
    map (fun e => mkShiftOC (s_UserID e.2) (s_Start e.2) (time_Unix t) true)
      (map_range (isOnCall b))).

(** ** [CalculateShifts] *)

(** The positions of the calculators the loop reads. *)
Record Calcs := mkCalcs { c_hist : nat; c_act : nat; c_usr : nat; c_ov : nat; c_rules : nat }.

Definition historyCutoff (st : OnCallState) : Time := Add (Truncate (now st) Minute) Minute.

Definition hist_spans (st : OnCallState) : list span :=
  map (fun s => (s_Start s, if IsZero (s_End s) then historyCutoff st else s_End s, s_UserID s))
    (sort_slice shift_before (history st)).

Definition build (fuel : nat) (st : OnCallState) (it : TimeIterator) : option (Calcs * store) :=
  '(hist, w) ← NewUserCalculator it (hist_spans st) [];
  '(act, usr, w) ← NewTemporaryScheduleCalculator it (tempScheds st) w;
  '(ov, w) ← NewOverrideCalculator it (overrides st) w;
  '(rl, w) ← NewRulesCalculator fuel it (loc st) (rules st) (rotations st) w;
  Some (mkCalcs hist act usr ov rl, w).

(** The users the loop body passes to [setOnCall]. *)
Definition users_at (st : OnCallState) (c : Calcs) (t : Z) (w : store) : option (list string) :=
  if Before (time_Unix t) (historyCutoff st) then
    u ← get_user w (c_hist c); Some (u_active u)
  else
    act ← get_active w (c_act c);
    if Active act then u ← get_user w (c_usr c); Some (u_active u)
    else
      match w !! c_ov c with
      | Some (SOverride o) => r ← get_rules w (c_rules c); MapUsers w o (r_userIDs r)
      | _ => None
      end.

Fixpoint run_ticks (start : Time) (l : list (Z * option (list string))) (b : Book)
  : option Book :=
  match l with
  | [] => Some b
  | (t, us) :: l => us ← us; run_ticks start l (setOnCall start t us b)
  end.

(** The iterator of the loop: it begins at the current time if that is before
    the requested start. *)
Definition newIterator (st : OnCallState) (start end_ : Time) : TimeIterator :=
  let start := Truncate start Minute in
  let end_ := Truncate end_ Minute in
  let tiStart :=
    if negb (IsZero (now st)) && Before (now st) start then Truncate (now st) Minute else start in
  NewTimeIterator tiStart end_ Minute.

(** [fuel] bounds the loop over the ticks and those of [UserID]. *)
Definition CalculateShifts (fuel : nat) (st : OnCallState) (start end_ : Time)
  : option (list Shift) :=
  let it := newIterator st start end_ in
  '(c, w) ← build fuel st it;
  '(l, last) ← ticks (users_at st c) fuel it w;
  b ← run_ticks (Truncate start Minute) l (mkBook [] ∅);
  Some (finish (it_t last) b).
End calculate.

(** ** From the users at each tick to shifts

    [setOnCall] is called once per tick with the users on call from then on.  The
    shifts it leaves, with those still open at the end, cover exactly the times at
    which a user was on call, from the requested start. *)

Definition shift_covers (u : string) (i : Z) (s : Shift) : Prop :=
  s_UserID s = u /\ Unix (s_Start s) <= i < Unix (s_End s).

Lemma Unix_time_Unix t : Unix (time_Unix t) = t.
Proof. unfold Unix, time_Unix. cbn [inst]. by rewrite Z.div_mul. Qed.

Lemma time_Unix_lt a b : inst (time_Unix a) < inst (time_Unix b) <-> a < b.
Proof. unfold time_Unix, Second. cbn [inst]. lia. Qed.

(** ** The two loops of [setOnCall] *)

Lemma add_users_lookup now ids : forall m id,
  add_users now ids m !! id =
    match m !! id with
    | Some s => Some s
    | None => if decide (id ∈ ids) then Some (mkShiftOC id now zeroTime false) else None
    end.
Proof.
  induction ids as [|x ids IH]; intros m id; cbn [add_users fold_left].
  { by destruct (m !! id). }
  fold (add_users now ids (match m !! x with Some _ => m | None => <[x:=mkShiftOC x now zeroTime false]> m end)).
  rewrite IH. destruct (m !! x) as [sx|] eqn:EX.
  - destruct (m !! id) eqn:E; [done|]. destruct (decide (id ∈ ids)) as [H|H].
    + by rewrite decide_True by by right.
    + rewrite decide_False; [done|]. intros [->|]%elem_of_cons; [congruence|done].
  - destruct (decide (id = x)) as [->|Hne].
    + rewrite lookup_insert_eq, EX. by rewrite decide_True by by left.
    + rewrite lookup_insert_ne by done. destruct (m !! id); [done|].
      destruct (decide (id ∈ ids)); [rewrite decide_True|rewrite decide_False]; try done;
        rewrite elem_of_cons; tauto.
Qed.

Lemma end_users_spec start now still : forall ids b,
  NoDup ids.*1 ->
  let b' := end_users start now still ids b in
  (forall id, isOnCall b' !! id =
     if decide (id ∈ ids.*1 /\ id ∉ still) then None else isOnCall b !! id) /\
  forall s, s ∈ shifts b' <-> s ∈ shifts b \/
    (After now start = true /\ exists id x, (id, x) ∈ ids /\ (id ∉ still) /\
       s = mkShiftOC (s_UserID x) (s_Start x) now (s_Truncated x)).
Proof.
  induction ids as [|[id x] ids IH]; intros b Hnd; cbn [end_users fmap list_fmap].
  { split.
    - intros id. rewrite decide_False; [done|]. by intros [?%elem_of_nil _].
    - intros s. split; [by left|]. intros [H|(_ & id & x & H%elem_of_nil & _)]; done. }
  apply NoDup_cons in Hnd as [Hid Hnd]. destruct (decide (id ∈ still)) as [Hs|Hs].
  - destruct (IH b Hnd) as [H1 H2]. split.
    + intros id'. rewrite H1. destruct (decide ((id' ∈ ids.*1) /\ id' ∉ still)) as [H|H].
      * rewrite decide_True; [done|]. split; [right|]; apply H.
      * rewrite decide_False; [done|]. intros [[->|H']%elem_of_cons Hn]; [done|]. tauto.
    + intros s. rewrite H2. split; (intros [H|(Ha & i & y & Hin & Hns & ->)]; [by left|right; split; [done|]]).
      * exists i, y. split; [by right|done].
      * exists i, y. apply elem_of_cons in Hin as [[= -> ->]|Hin]; done.
  - set (sh := if After now start then _ else _).
    destruct (IH (mkBook sh (delete id (isOnCall b))) Hnd) as [H1 H2]. cbn [isOnCall shifts] in *. split.
    + intros id'. rewrite H1. destruct (decide (id' = id)) as [->|Hne].
      * rewrite (decide_True (P := (id ∈ id :: ids.*1) /\ _)) by (split; [by left|done]).
        destruct (decide _); [done|]. apply lookup_delete_eq.
      * rewrite lookup_delete_ne by done. destruct (decide ((id' ∈ ids.*1) /\ id' ∉ still)) as [H|H].
        -- rewrite decide_True; [done|]. split; [right|]; apply H.
        -- rewrite decide_False; [done|]. intros [[->|H']%elem_of_cons Hn]; [done|]. tauto.
    + intros s. rewrite H2. unfold sh. destruct (After now start); rewrite ?elem_of_app, ?list_elem_of_singleton.
      * split.
        -- intros [[H| ->]|(_ & i & y & Hin & Hns & ->)]; [by left|right|right]; (split; [done|]).
           ++ exists id, x. split; [by left|done].
           ++ exists i, y. split; [by right|done].
        -- intros [H|(_ & i & y & [[= -> ->]|Hin]%elem_of_cons & Hns & ->)]; [by left; left|by left; right|].
           right. split; [done|]. by exists i, y.
      * split; intros [H|(Ha & _)]; [by left|done|by left|done].
Qed.

Section timeline.
Context {HG : GoSort} {HM : GoMapRange}.

(** One call: the users are now exactly [us]; a shift is closed for every user
    who is no longer among them. *)
Lemma setOnCall_spec start t us b :
  let b' := setOnCall start t us b in
  (forall id, isOnCall b' !! id =
     if decide (id ∈ us) then
       match isOnCall b !! id with
       | Some s => Some s
       | None => Some (mkShiftOC id (time_Unix t) zeroTime false)
       end
     else None) /\
  forall s, s ∈ shifts b' <-> s ∈ shifts b \/
    (After (time_Unix t) start = true /\ exists id x, isOnCall b !! id = Some x /\ (id ∉ us) /\
       s = mkShiftOC (s_UserID x) (s_Start x) (time_Unix t) (s_Truncated x)).
Proof.
  unfold setOnCall. set (m := add_users _ _ _).
  destruct (end_users_spec start (time_Unix t) (list_to_set us) (map_range m) (mkBook (shifts b) m)
    (map_range_nodup m)) as [H1 H2]. cbn [isOnCall shifts] in *.
  assert (forall id, id ∈ (map_range m).*1 <-> is_Some (m !! id)) as Hdom.
  { intros id. rewrite list_elem_of_fmap. split.
    - intros ([i x] & -> & H). apply map_range_elem in H. by exists x.
    - intros [x H]. exists (id, x). split; [done|by apply map_range_elem]. }
  assert (forall id, m !! id = match isOnCall b !! id with
    | Some s => Some s
    | None => if decide (id ∈ us) then Some (mkShiftOC id (time_Unix t) zeroTime false) else None
    end) as Hm by apply add_users_lookup.
  split.
  - intros id. rewrite H1, Hm. destruct (decide (id ∈ us)) as [Hin|Hin].
    + rewrite decide_False; [done|]. rewrite elem_of_list_to_set. tauto.
    + destruct (isOnCall b !! id) as [s|] eqn:E; [|by destruct (decide _)].
      rewrite decide_True; [done|]. rewrite elem_of_list_to_set. split; [|done].
      apply Hdom. rewrite Hm, E. by eexists.
  - intros s. rewrite H2. split; (intros [H|(Ha & id & x & H)]; [by left|right; split; [done|exists id, x]]);
      rewrite map_range_elem, elem_of_list_to_set in *.
    + destruct H as (Hx & Hn & ->). split; [|done]. rewrite Hm in Hx.
      destruct (isOnCall b !! id); [done|]. by rewrite decide_False in Hx.
    + destruct H as (Hx & Hn & ->). split; [|done]. by rewrite Hm, Hx.
Qed.

(** ** The whole loop *)

(** [b] covers the second [i] for [u], if its open shifts go on. *)
Definition book_covers (b : Book) (u : string) (i : Z) : Prop :=
  ex_in (shift_covers u i) (shifts b) \/
  exists s, isOnCall b !! u = Some s /\ Unix (s_Start s) <= i.

(** The book after a tick at [t] that saw the users [us]; [H] is who is on call
    when, for the times of [G] from the requested start [lo]. *)
Record book_ok (H : Z -> string -> Prop) (G : Z -> Prop) (lo t : Z) (us : list string) (b : Book) : Prop := {
  k_users : forall u, is_Some (isOnCall b !! u) <-> u ∈ us;
  k_open : forall u s, isOnCall b !! u = Some s -> s_UserID s = u /\ Unix (s_Start s) <= t;
  k_closed : forall s, s ∈ shifts b -> Unix (s_End s) <= t;
  k_exact : forall u i, lo <= i < t -> G i -> book_covers b u i <-> H i u
}.

Lemma book_step H G start t us t' us' b :
  book_ok H G (Unix start) t us b -> inst start mod Second = 0 -> t <= t' ->
  (forall u i, t <= i < t' -> G i -> H i u <-> u ∈ us) ->
  book_ok H G (Unix start) t' us' (setOnCall start t' us' b).
Proof.
  intros [K1 K2 K3 K4] Hs Ht HH. destruct (setOnCall_spec start t' us' b) as [S1 S2].
  set (b' := setOnCall start t' us' b) in *. split.
  - intros u. rewrite S1. destruct (decide (u ∈ us')) as [Hu|Hu].
    + split; [done|]. intros _. destruct (isOnCall b !! u); by eexists.
    + split; [by intros []|done].
  - intros u s. rewrite S1. destruct (decide (u ∈ us')) as [Hu|]; [|done].
    destruct (isOnCall b !! u) as [x|] eqn:E; intros [= <-].
    + destruct (K2 u x E). split; [done|lia].
    + cbn [s_UserID s_Start]. rewrite Unix_time_Unix. done.
  - intros s Hin. apply S2 in Hin as [Hin|(_ & id & x & _ & _ & ->)]; [specialize (K3 s Hin); lia|].
    cbn [s_End]. by rewrite Unix_time_Unix.
  - intros u i Hi HGi.
    assert (book_covers b' u i <-> book_covers b u i) as ->.
    { unfold book_covers. split.
      - intros [(s & Hin & Hsu & Hc)|(s & Hu & Hc)].
        + apply S2 in Hin as [Hin|(_ & id & x & Hx & _ & ->)]; [left; exists s; done|right].
          cbn [s_UserID s_Start s_End] in *. destruct (K2 id x Hx) as [Hid _]. exists x.
          split; [congruence|lia].
        + right. rewrite S1 in Hu. destruct (decide (u ∈ us')); [|done].
          destruct (isOnCall b !! u) as [x|] eqn:E; injection Hu as <-; [by exists x|].
          cbn [s_Start] in Hc. rewrite Unix_time_Unix in Hc. lia.
      - intros [(s & Hin & Hc)|(s & Hu & Hc)].
        + left. exists s. split; [apply S2; by left|done].
        + destruct (decide (u ∈ us')) as [Hin|Hin].
          * right. exists s. split; [|done]. rewrite S1, Hu. by rewrite decide_True.
          * left. exists (mkShiftOC (s_UserID s) (s_Start s) (time_Unix t') (s_Truncated s)). split.
            -- apply S2. right. split; [|by exists u, s]. apply Z.ltb_lt.
               unfold Unix, time_Unix in *. cbn [inst]. unfold Second in *. dlia.
            -- split; cbn [s_UserID s_Start s_End]; [apply (K2 u s Hu)|]. rewrite Unix_time_Unix. lia. }
    destruct (decide (i < t)) as [Hlt|Hge]; [by apply K4; [lia|]|]. rewrite (HH u i ltac:(lia) HGi), <- K1. split.
    + intros [(s & Hin & _ & Hc)|(s & Hu & _)]; [specialize (K3 s Hin); lia|by eexists].
    + intros [s Hu]. right. exists s. split; [done|]. destruct (K2 u s Hu). lia.
Qed.

(** Ticks in order, each with the users it sees, after a tick at [t]. *)
Fixpoint ticks_ok (H : Z -> string -> Prop) (G : Z -> Prop) (end_ t : Z) (us : list string)
  (l : list (Z * list string)) : Prop :=
  match l with
  | [] => end_ <= t
  | (t', us') :: l =>
      t <= t' /\ (forall u i, t <= i < t' -> G i -> H i u <-> u ∈ us) /\ ticks_ok H G end_ t' us' l
  end.

Definition some_users (l : list (Z * list string)) : list (Z * option (list string)) :=
  map (fun p => (p.1, Some p.2)) l.

Lemma run_ticks_spec H G start end_ : forall l t us b,
  inst start mod Second = 0 -> book_ok H G (Unix start) t us b -> ticks_ok H G end_ t us l ->
  exists b' t' us', run_ticks start (some_users l) b = Some b' /\
    book_ok H G (Unix start) t' us' b' /\ end_ <= t'.
Proof.
  induction l as [|[t1 us1] l IH]; intros t us b Hs Hb Hl; cbn [some_users map run_ticks].
  { exists b, t, us. simpl in Hl. split; [done|]. split; done. }
  destruct Hl as (Ht & HH & Hl). cbn [mbind option_bind fst snd].
  destruct (IH t1 us1 (setOnCall start t1 us1 b) Hs) as (b' & t' & us' & E & Hb' & He);
    [by apply (book_step H G start t us)|done|].
  by exists b', t', us'.
Qed.

(** The shifts returned: sorted, and for the times from the requested start they
    cover exactly who was on call. *)
Lemma finish_spec H G lo end_ t us b t' :
  book_ok H G lo t us b -> end_ <= t -> end_ <= t' ->
  StronglySorted (not_after shift_less) (finish t' b) /\
  forall i u, lo <= i < end_ -> G i -> ex_in (shift_covers u i) (finish t' b) <-> H i u.
Proof.
  intros [K1 K2 K3 K4] He He'. unfold finish, sortShifts. split.
  - apply sort_slice_sorted. split.
    + intros x y. unfold shift_less, EqualT, Before. intros Hxy.
      destruct (Z.eqb_spec (inst (s_Start x)) (inst (s_Start y))) as [E|E].
      * rewrite E, Z.eqb_refl. by apply string_ltb_asym.
      * rewrite (proj2 (Z.eqb_neq _ _)) by lia. bprop. lia.
    + intros x y z. unfold shift_less, EqualT, Before. intros Hyx Hzy.
      destruct (Z.eqb_spec (inst (s_Start y)) (inst (s_Start x))) as [E|E];
        destruct (Z.eqb_spec (inst (s_Start z)) (inst (s_Start y))) as [E'|E'];
        destruct (Z.eqb_spec (inst (s_Start z)) (inst (s_Start x))) as [E2|E2]; bprop; try lia.
      by eapply string_ltb_cotrans.
  - intros i u Hi HGi. rewrite (ex_in_perm _ _ _ (sort_slice_perm _ _)), ex_in_app, ex_in_map.
    rewrite <- K4 by (lia || done). unfold book_covers.
    split; (intros [Hc|Hc]; [by left|right]).
    + destruct Hc as ([id x] & Hin & Hid & Hc). apply map_range_elem in Hin. cbn [s_UserID s_Start s_End fst snd] in *.
      exists x. destruct (K2 id x Hin) as [E _]. split; [congruence|lia].
    + destruct Hc as (x & Hx & Hc). exists (u, x). split; [by apply map_range_elem|].
      split; cbn [s_UserID s_Start s_End fst snd]; [by apply (K2 u x)|]. rewrite Unix_time_Unix. lia.
Qed.
End timeline.
