(* ===== verification/OnCallSpec.v ===== *)
(** * Who is on call: the specification of [CalculateShifts] in
      [oncall/state.go], and its refinement

    The specification says of every second who is on call: before the history
    cutoff the recorded shifts, then the temporary schedules, then the rules with
    the overrides applied.  [CalculateShifts] builds calculators, iterates over
    the timestamps at which anything may change and keeps a book of shifts; the
    shifts it returns cover exactly what the specification says. *)

From S2P Require Import Prelude GoTime Clock WeekdayFilter Assignment Rule.
From S2P Require Rotation.
From S2P Require Import TempSchedule TimeIterator Calculators Spans Constructors RuleCalc.
From S2P Require Import OnCall.

(** ** Spans that do not overlap *)

Definition apart_spans (a b : span) : Prop :=
  span_id a = span_id b -> nonempty_span a -> nonempty_span b ->
  tmin (span_end a) <= tmin (span_start b) \/ tmin (span_end b) <= tmin (span_start a).

Definition disjoint_spans (l : list span) : Prop :=
  Forall span_late l /\ ForallOrdPairs apart_spans l.

Lemma disjoint_spans_perm l l' : l ≡ₚ l' -> disjoint_spans l -> disjoint_spans l'.
Proof.
  intros E [H1 H2]. split; [by rewrite <- E|]. apply (pairwise_perm _ l); [|done|done].
  unfold apart_spans. intros x y H Hid Hx Hy. specialize (H (eq_sym Hid) Hy Hx). tauto.
Qed.

(** In order of their starts, spans that do not overlap follow each other. *)
Lemma ordered_spans_ok l :
  StronglySorted (fun a b => inst (span_start a) <= inst (span_start b)) l ->
  disjoint_spans l -> spans_ok l.
Proof.
  intros Hs [H1 H2]. split; [done|]. clear H1.
  induction Hs as [|a l Hs IH Ha]; [constructor|]. inversion H2 as [|? ? Hap H2']; subst.
  constructor; [|auto]. rewrite Forall_forall in Hap. rewrite Forall_forall in Ha. apply Forall_forall. intros b Hb Hid Hna Hnb.
  destruct (Hap b Hb Hid Hna Hnb) as [H|H]; [done|].
  pose proof (tmin_le _ _ (Ha b Hb)). unfold nonempty_span in Hnb. lia.
Qed.

Lemma StronglySorted_omap {A B} (R : A -> A -> Prop) (S : B -> B -> Prop) (f : A -> option B) l :
  (forall x y a b, R x y -> f x = Some a -> f y = Some b -> S a b) ->
  StronglySorted R l -> StronglySorted S (omap f l).
Proof.
  intros HRS. induction 1 as [|x l Hl IH Hx]; cbn [omap list_omap]; [constructor|].
  destruct (f x) as [a|] eqn:E; [|done]. constructor; [done|].
  rewrite Forall_forall in Hx. apply Forall_forall. intros b (y & Hy & Hb)%list_elem_of_omap. exact (HRS x y a b (Hx y Hy) E Hb).
Qed.

Lemma omap_Some {A B} (f : A -> B) l : omap (fun x => Some (f x)) l = map f l.
Proof. induction l as [|x l IH]; [done|]. cbn [map]. by rewrite <- IH. Qed.

Lemma disjoint_spans_nil : disjoint_spans [].
Proof. split; constructor. Qed.

Lemma disjoint_spans_one s : 59 < tmin (span_start s) -> disjoint_spans [s].
Proof. intros H. split; constructor; try constructor. intros _. exact H. Qed.

Section sorted.
Context {HG : GoSort}.

Lemma sort_spans_ok {A} (less : A -> A -> bool) (st : A -> Time) (f : A -> option span) l :
  (forall x y, less x y = Before (st x) (st y)) ->
  (forall x s, f x = Some s -> span_start s = st x) ->
  disjoint_spans (omap f l) -> spans_ok (omap f (sort_slice less l)).
Proof.
  intros Hless Hst Hd. apply ordered_spans_ok.
  - eapply StronglySorted_omap; [|apply sort_slice_sorted].
    + intros x y a b Hxy Ha Hb. unfold not_after in Hxy. rewrite Hless in Hxy. unfold Before in Hxy. bprop.
      rewrite (Hst x a Ha), (Hst y b Hb). exact Hxy.
    + split; [intros x y|intros x y z]; rewrite !Hless; unfold Before; intros; bprop; lia.
  - eapply disjoint_spans_perm; [|exact Hd]. symmetry. by rewrite sort_slice_perm.
Qed.

Lemma sort_map_spans_ok {A} (less : A -> A -> bool) (f : A -> span) l :
  (forall x y, less x y = Before (span_start (f x)) (span_start (f y))) ->
  disjoint_spans (map f l) -> spans_ok (map f (sort_slice less l)).
Proof.
  intros Hless Hd. rewrite <- omap_Some in *.
  apply (sort_spans_ok less (fun x => span_start (f x))); [done|by intros x s [= <-]|done].
Qed.
End sorted.

(** ** The specification *)

Section spec.
(** The offset of the schedule's location, and what is known of the rotations. *)
Context (o : Z) (rds : nat -> RotData).
Context (st : OnCallState).

(** The cutoff, in Unix seconds. *)
Definition cutoff : Z := tmin (historyCutoff st).

Definition hist_span (s : Shift) : span :=
  (s_Start s, if IsZero (s_End s) then historyCutoff st else s_End s, s_UserID s).

(** [u]'s recorded shifts cover [i]; a shift that is not over ends at the cutoff. *)
Definition recorded (i : Z) (u : string) : Prop := on_span (map hist_span (history st)) u i.

Definition temp_active (i : Z) : Prop :=
  ex_in (fun t => in_span (tsStart t) (tsEnd t) i) (tempScheds st).
Definition temp_user (i : Z) (u : string) : Prop :=
  on_span (shift_spans (concat (map tsShifts (tempScheds st)))) u i.

(** The users of the rules, before overrides. *)
Definition base_user (i : Z) (u : string) : Prop :=
  u <> EmptyString /\ ex_in (fun rr => rule_user o (rotations st) rds rr i u) (rules st).

Definition added (i : Z) (u : string) : Prop := on_span (omap add_span (overrides st)) u i.
Definition removed (i : Z) (u : string) : Prop := on_span (omap remove_span (overrides st)) u i.
Definition replaced (i : Z) (u v : string) : Prop :=
  ex_in (fun x => ov_RemoveUserID x = u /\ ov_AddUserID x = v /\
                  u <> EmptyString /\ v <> EmptyString /\ in_span (ov_Start x) (ov_End x) i)
    (overrides st).

(** A replacement takes precedence over a removal of the same user. *)
Definition overridden (i : Z) (u : string) : Prop :=
  added i u \/
  exists v, base_user i v /\
    (replaced i v u \/ (u = v /\ ~ removed i v /\ forall v', ~ replaced i v v')).

Definition on_call_at (i : Z) (u : string) : Prop :=
  (i < cutoff /\ recorded i u) \/
  (cutoff <= i /\ temp_active i /\ temp_user i u) \/
  (cutoff <= i /\ ~ temp_active i /\ overridden i u).

(** ** What is asked of the inputs *)

(** The span of a replacement, under the user it replaces. *)
Definition replace_key (x : UserOverride) : option span :=
  if negb (no_id (ov_AddUserID x)) && negb (no_id (ov_RemoveUserID x))
  then Some (ov_Start x, ov_End x, ov_RemoveUserID x) else None.

Fixpoint no_newline (s : string) : Prop :=
  match s with EmptyString => True | String c s => c <> newline /\ no_newline s end.

(** Recorded shifts of a user, temporary schedules, shifts of a user in them and
    overrides of a kind for a user do not overlap; user ids hold no newline. *)
Record inputs_ok (fuel : nat) (it : TimeIterator) : Prop := {
  i_hist : disjoint_spans (map hist_span (history st));
  i_temps : disjoint_spans (temp_spans (tempScheds st));
  i_shifts : disjoint_spans (shift_spans (concat (map tsShifts (tempScheds st))));
  i_add : disjoint_spans (omap add_span (overrides st));
  i_remove : disjoint_spans (omap remove_span (overrides st));
  i_replace : disjoint_spans (omap replace_key (overrides st));
  i_ids : Forall (fun x => no_newline (ov_RemoveUserID x)) (overrides st);
  i_rules : Forall (rule_ok fuel it (rotations st) rds) (rules st)
}.
End spec.

(** ** Ids of replacements *)

Lemma SplitN2_replace_id a b : no_newline a -> SplitN2 (replace_id a b) = Some (a, b).
Proof.
  unfold replace_id. induction a as [|c a IH]; simpl; [done|]. intros [Hc Ha].
  destruct (Ascii.eqb_spec c newline) as [|_]; [done|]. by rewrite (IH Ha).
Qed.

Lemma replace_span_id x s :
  no_newline (ov_RemoveUserID x) -> replace_span x = Some s ->
  SplitN2 (span_id s) = Some (ov_RemoveUserID x, ov_AddUserID x) /\
  replace_key x = Some (span_start s, span_end s, ov_RemoveUserID x) /\
  ov_RemoveUserID x <> EmptyString /\ ov_AddUserID x <> EmptyString.
Proof.
  intros Hn. unfold replace_span, replace_key, no_id.
  destruct (String.eqb_spec (ov_AddUserID x) EmptyString), (String.eqb_spec (ov_RemoveUserID x) EmptyString);
    cbn [negb andb]; try done. intros [= <-]. split; [by apply SplitN2_replace_id|]. done.
Qed.

(** Replacements that do not overlap per replaced user do not overlap per pair. *)
Lemma replace_disjoint os :
  Forall (fun x => no_newline (ov_RemoveUserID x)) os ->
  disjoint_spans (omap replace_key os) -> disjoint_spans (omap replace_span os).
Proof.
  intros Hn [H1 H2]. split.
  - rewrite Forall_forall in Hn. rewrite Forall_forall in H1. apply Forall_forall. intros s (x & Hx & Hs)%list_elem_of_omap.
    destruct (replace_span_id x s (Hn x Hx) Hs) as (_ & Hk & _).
    apply (H1 (span_start s, span_end s, ov_RemoveUserID x)). apply list_elem_of_omap. by exists x.
  - clear H1. induction Hn as [|x os Hx Hn IH]; cbn [omap list_omap] in *; [constructor|].
    destruct (replace_span x) as [s|] eqn:Es.
    + destruct (replace_span_id x s Hx Es) as (HS & Hk & _). rewrite Hk in H2.
      inversion H2 as [|? ? Hap H2']; subst. constructor; [|auto].
      rewrite Forall_forall in Hn. rewrite Forall_forall in Hap. apply Forall_forall. intros s' (y & Hy & Hs')%list_elem_of_omap.
      destruct (replace_span_id y s' (Hn y Hy) Hs') as (HS' & Hk' & _).
      intros Hid. apply (Hap (span_start s', span_end s', ov_RemoveUserID y)).
      * apply list_elem_of_omap. by exists y.
      * unfold span_id. simpl. rewrite Hid, HS' in HS. congruence.
    + apply IH. destruct (replace_key x); [by inversion H2|done].
Qed.

(** ** What the calculators report at a tick *)

(** No calculator changes between [t] and [i]. *)
Definition still (S0 : store) (t i : Z) : Prop := forall c, act_val S0 c t = act_val S0 c i.

Lemma user_val_still S0 t i k id : still S0 t i -> user_val S0 k t id <-> user_val S0 k i id.
Proof.
  intros H. split; intros (u & c & Hu & Hc & Hv); exists u, c; (split; [done|]); (split; [done|]).
  - by rewrite <- H.
  - by rewrite H.
Qed.

Lemma single_val_still S0 t i r id : still S0 t i -> single_val S0 r t id <-> single_val S0 r i id.
Proof.
  intros H. unfold single_val. rewrite (H (sr_act r)). destruct (act_val S0 (sr_act r) i); [|done].
  destruct (sr_rot r) as [k|]; [|done]. setoid_rewrite (user_val_still S0 t i k); done.
Qed.

(** Without a bound in between, the store stands still. *)
Lemma inv_still S0 t i w :
  store_inv S0 t w -> t <= i -> (forall b, bound w b -> i < b) -> still S0 t i.
Proof.
  intros [_ Hd] Hti Hb c. unfold act_val. destruct (get_active S0 c) as [a0|] eqn:E0; [|done].
  specialize (Hd c). apply get_active_lookup in E0. unfold describes_sub in Hd. rewrite E0 in Hd.
  destruct (w !! c) as [[a| | | |]|] eqn:E; try done. destruct Hd as (_ & Hv & _ & Hs).
  rewrite (Hs i Hti), <- Hv. symmetry.
  destruct (states a) as [|v rest] eqn:ES; [done|]. cbn [state_at].
  rewrite (proj2 (Z.leb_gt _ _)); [done|]. apply Hb. exists c, a, v, rest.
  split; [by apply get_active_lookup|done].
Qed.

Lemma inv_active S0 t w k a0 :
  store_inv S0 t w -> get_active S0 k = Some a0 ->
  exists a, get_active w k = Some a /\ Active a = act_val S0 k t.
Proof.
  intros [_ Hd] E0. specialize (Hd k). unfold act_val. rewrite E0. apply get_active_lookup in E0.
  unfold describes_sub in Hd. rewrite E0 in Hd. destruct (w !! k) as [[a| | | |]|] eqn:E; try done.
  exists a. split; [by apply get_active_lookup|apply Hd].
Qed.

Lemma inv_user S0 t w k u0 :
  store_inv S0 t w -> get_user S0 k = Some u0 ->
  exists u, get_user w k = Some u /\ forall id, id ∈ u_active u <-> user_val S0 k t id.
Proof.
  intros [_ Hd] E0. specialize (Hd k). apply get_user_lookup in E0.
  unfold describes_sub in Hd. rewrite E0 in Hd. destruct (w !! k) as [[|u| | |]|] eqn:E; try done.
  exists u. split; [by apply get_user_lookup|apply Hd].
Qed.

Lemma inv_single S0 t w k r0 :
  store_inv S0 t w -> get_single S0 k = Some r0 ->
  exists r, get_single w k = Some r /\ single_val S0 r0 t (sr_userID r).
Proof.
  intros [_ Hd] E0. specialize (Hd k). apply get_single_lookup in E0.
  unfold describes_sub in Hd. rewrite E0 in Hd. destruct (w !! k) as [[| |r| |]|] eqn:E; try done.
  exists r. split; [by apply get_single_lookup|apply Hd].
Qed.

Lemma mapM_single_elem w ks rs id :
  mapM (get_single w) ks = Some rs ->
  id ∈ map sr_userID rs <-> exists k r, k ∈ ks /\ get_single w k = Some r /\ id = sr_userID r.
Proof.
  revert rs. induction ks as [|k ks IH]; intros rs; cbn [mapM].
  { intros [= <-]. simpl. split; [by intros H%elem_of_nil|by intros (k & r & H%elem_of_nil & _)]. }
  destruct (get_single w k) as [r|] eqn:E; cbn [mbind option_bind]; [|done].
  destruct (mapM (get_single w) ks) as [rs'|]; cbn [mbind option_bind]; [|done].
  intros [= <-]. cbn [map]. rewrite elem_of_cons, (IH rs' eq_refl). split.
  - intros [->|(j & r' & Hj & Hr & ->)]; [exists k, r|exists j, r']; rewrite elem_of_cons; auto.
  - intros (j & r' & [->|Hj]%elem_of_cons & Hr & ->); [left; congruence|right; by exists j, r'].
Qed.

Lemma inv_rules S0 t w k r0 :
  store_inv S0 t w -> S0 !! k = Some (SRules r0) ->
  exists r, get_rules w k = Some r /\ forall id, id ∈ r_userIDs r <->
    id <> EmptyString /\ exists j rj, j ∈ r_rules r0 /\ get_single w j = Some rj /\ id = sr_userID rj.
Proof.
  intros [_ Hd] E0. specialize (Hd k). unfold describes_sub in Hd. rewrite E0 in Hd.
  destruct (w !! k) as [[| | | |r]|] eqn:E; try done. destruct Hd as (Er & rs & Hrs & Hids).
  exists r. split; [unfold get_rules; by rewrite E|]. intros id.
  rewrite Hids, nonempty_spec, <- Er, (mapM_single_elem w _ rs id Hrs). tauto.
Qed.
Lemma inv_override S0 t w k x0 :
  store_inv S0 t w -> S0 !! k = Some (SOverride x0) ->
  exists x, w !! k = Some (SOverride x) /\ o_add x = o_add x0 /\ map_val S0 x0 t (userMap x).
Proof.
  intros [_ Hd] E0. specialize (Hd k). unfold describes_sub in Hd. rewrite E0 in Hd.
  destruct (w !! k) as [[| | |x|]|] eqn:E; try done. exists x. split; [done|]. split; apply Hd.
Qed.

Lemma MapUsers_spec w x ids u :
  get_user w (o_add x) = Some u ->
  exists r, MapUsers w x ids = Some r /\ forall id, id ∈ r <->
    (exists v, v ∈ ids /\ match userMap x !! v with
                          | None => id = v
                          | Some y => y <> EmptyString /\ id = y
                          end) \/ id ∈ u_active u.
Proof.
  intros Hu. unfold MapUsers. rewrite Hu. cbn [mbind option_bind]. eexists. split; [reflexivity|].
  intros id. rewrite elem_of_app, list_elem_of_omap.
  assert (forall v, match userMap x !! v with
      | Some newID => if String.eqb newID EmptyString then None else Some newID
      | None => Some v end = Some id <->
    match userMap x !! v with None => id = v | Some y => y <> EmptyString /\ id = y end) as H.
  { intros v. destruct (userMap x !! v) as [y|]; [|by split; [intros [= ->]|intros ->]].
    destruct (String.eqb_spec y EmptyString) as [->|Hy].
    - split; [done|by intros [? _]].
    - split; [by intros [= ->]|by intros [_ ->]]. }
  setoid_rewrite H. done.
Qed.

(** ** Overrides at a time *)

Lemma pairwise_omap {A B} (S : B -> B -> Prop) (f : A -> option B) l :
  ForallOrdPairs S (omap f l) ->
  ForallOrdPairs (fun x y => forall a b, f x = Some a -> f y = Some b -> S a b) l.
Proof.
  induction l as [|x l IH]; cbn [omap list_omap]; [constructor|].
  destruct (f x) as [a|] eqn:E; intros H.
  - inversion H as [|? ? Ha Hl]; subst. constructor; [|auto]. apply Forall_forall.
    intros y Hy a' b Ha' Hb. assert (a' = a) as -> by congruence. rewrite Forall_forall in Ha. apply Ha, list_elem_of_omap. by exists y.
  - constructor; [|auto]. apply Forall_forall. intros y Hy a' b Ha'. congruence.
Qed.

Lemma on_span_omap {A} (f : A -> option span) l id i :
  on_span (omap f l) id i <->
  ex_in (fun x => exists s, f x = Some s /\ span_id s = id /\ span_covers s i) l.
Proof.
  unfold on_span. split.
  - intros (s & (x & Hx & Hs)%list_elem_of_omap & H). exists x. split; [done|]. by exists s.
  - intros (x & Hx & s & Hs & H). exists s. split; [|done]. apply list_elem_of_omap. by exists x.
Qed.

Lemma on_span_perm l l' id i : l ≡ₚ l' -> on_span l id i <-> on_span l' id i.
Proof. apply ex_in_perm. Qed.

Lemma replaced_iff st i a b :
  Forall (fun x => no_newline (ov_RemoveUserID x)) (overrides st) ->
  replaced st i a b <->
  exists rid, on_span (omap replace_span (overrides st)) rid i /\ SplitN2 rid = Some (a, b).
Proof.
  intros Hn. rewrite Forall_forall in Hn. split.
  - intros (x & Hx & <- & <- & Ha & Hb & Hc).
    exists (replace_id (ov_RemoveUserID x) (ov_AddUserID x)).
    split; [|by apply SplitN2_replace_id, Hn]. apply on_span_omap. exists x. split; [done|].
    unfold replace_span, no_id. destruct (String.eqb_spec (ov_AddUserID x) EmptyString); [done|].
    destruct (String.eqb_spec (ov_RemoveUserID x) EmptyString); [done|]. by eexists.
  - intros (rid & (x & Hx & s & Hs & <- & Hc)%on_span_omap & HS).
    destruct (replace_span_id x s (Hn x Hx) Hs) as (HS' & Hk & H1 & H2).
    exists x. split; [done|]. assert (ov_RemoveUserID x = a /\ ov_AddUserID x = b) as [<- <-]
      by (split; congruence).
    split; [done|]. split; [done|]. split; [done|]. split; [done|].
    unfold replace_key in Hk. destruct (_ && _) in Hk; [|done]. injection Hk as E1 E2.
    unfold span_covers in Hc. by rewrite <- E1, <- E2 in Hc.
Qed.

(** At any time a user has at most one replacement. *)
Lemma replaced_unique st i a b b' :
  disjoint_spans (omap replace_key (overrides st)) ->
  replaced st i a b -> replaced st i a b' -> b = b'.
Proof.
  intros [_ Hd] (x & Hx & Ha & <- & Hna & Hnb & Hc) (y & Hy & Ha' & <- & _ & Hnb' & Hc').
  apply pairwise_omap in Hd.
  assert (forall z, ov_RemoveUserID z = a -> ov_AddUserID z <> EmptyString ->
    replace_key z = Some (ov_Start z, ov_End z, a)) as HK.
  { intros z <- Hz. unfold replace_key, no_id. destruct (String.eqb_spec (ov_AddUserID z) EmptyString); [done|].
    by destruct (String.eqb_spec (ov_RemoveUserID z) EmptyString). }
  apply list_elem_of_In in Hx, Hy.
  pose proof (HK x Ha Hnb) as Kx. pose proof (HK y Ha' Hnb') as Ky.
  destruct (ForallOrdPairs_In Hd x y Hx Hy) as [->|[H|H]]; [done|exfalso..];
    [specialize (H _ _ Kx Ky eq_refl)|specialize (H _ _ Ky Kx eq_refl)];
    unfold in_span, nonempty_span, span_start, span_end in *; simpl in H; lia.
Qed.

(** The map of an override calculator applies removals and replacements. *)
Lemma map_val_overridden st S0 x0 i m v u :
  Forall (fun x => no_newline (ov_RemoveUserID x)) (overrides st) ->
  disjoint_spans (omap replace_key (overrides st)) ->
  (forall id, user_val S0 (o_remove x0) i id <-> removed st i id) ->
  (forall id, user_val S0 (o_replace x0) i id <-> on_span (omap replace_span (overrides st)) id i) ->
  map_val S0 x0 i m ->
  match m !! v with None => u = v | Some y => y <> EmptyString /\ u = y end <->
  replaced st i v u \/ (u = v /\ ~ removed st i v /\ forall v', ~ replaced st i v v').
Proof.
  intros Hn Hd Hrem Hrep (M1 & M2 & M3).
  assert (forall a b, replaced st i a b <->
    exists rid, user_val S0 (o_replace x0) i rid /\ SplitN2 rid = Some (a, b)) as HR.
  { intros a b. rewrite (replaced_iff st i a b Hn). by setoid_rewrite Hrep. }
  assert (forall a, ~ replaced st i a EmptyString) as HE by (intros a (x & _ & _ & ? & _ & ? & _); congruence).
  destruct (m !! v) as [y|] eqn:EM.
  - destruct (M1 v y EM) as [Hy|[-> Hy]].
    + apply HR in Hy. split.
      * intros [_ ->]. by left.
      * intros [H|(_ & _ & H)]; [|by destruct (H y)]. pose proof (replaced_unique st i v u y Hd H Hy) as ->.
        split; [intros ->; by apply (HE v)|done].
    + apply Hrem in Hy. split; [by intros [? _]|]. intros [H|(_ & H & _)]; [|done].
      destruct (M3 v EM) as [Hr|Hr]; [by apply HR, HE in Hr|].
      apply HR in H as (rid & Hrid & HS). by destruct (Hr rid u Hrid).
  - destruct (M2 v EM) as [Hno Hno2].
    assert (forall b, ~ replaced st i v b) as HNR.
    { intros b H. apply HR in H as (rid & Hrid & HS). by apply (Hno2 rid b Hrid). }
    split.
    + intros ->. right. split; [done|]. split; [by rewrite <- Hrem|done].
    + intros [H|[-> _]]; [by apply HNR in H|done].
Qed.

(** ** The store that is built *)

Lemma ext_override_ready it w w' k os : ext w w' -> override_ready it w k os -> override_ready it w' k os.
Proof.
  intros Hext (x & Hx & H1 & H2 & H3). exists x.
  split; [rewrite (proj2 Hext); [done|by eapply lookup_lt_Some]|].
  split; [|split]; by eapply ext_user_ready.
Qed.

Section refine.
Context {HG : GoSort} {HM : GoMapRange}.
Context (o : Z) (rds : nat -> RotData) (st : OnCallState).

Definition sorted_shifts : list FixedShift :=
  sort_slice shift_by_start (concat (map tsShifts (sort_slice temp_by_start (tempScheds st)))).

Record built (it : TimeIterator) (c : Calcs) (w : store) : Prop := {
  w_wf : wf_store w;
  w_hist : user_ready it w (c_hist c) (hist_spans st);
  w_act : active_ready it w (c_act c) (temp_active st);
  w_usr : user_ready it w (c_usr c) (shift_spans sorted_shifts);
  w_ov : override_ready it w (c_ov c) (sort_slice override_by_start (overrides st));
  w_rules : rules_ready it o (rotations st) rds w (c_rules c) (rules st)
}.

Lemma sorted_shifts_perm : sorted_shifts ≡ₚ concat (map tsShifts (tempScheds st)).
Proof.
  unfold sorted_shifts. rewrite sort_slice_perm.
  assert (sort_slice temp_by_start (tempScheds st) ≡ₚ tempScheds st) as E by apply sort_slice_perm.
  revert E. generalize (sort_slice temp_by_start (tempScheds st)), (tempScheds st). intros l l'.
  induction 1; simpl; [done|by apply Permutation_app_head| |by etransitivity].
  rewrite !app_assoc. apply Permutation_app_tail, Permutation_app_comm.
Qed.

Lemma build_ready fuel it :
  it_step it = 60 -> 864000 <= it_start it -> it_start it < it_end it ->
  (it_end it - it_start it) / 86400 + 11 <= 100000 ->
  fixed_at (loc st) o -> o mod 60 = 0 -> inputs_ok rds st fuel it ->
  exists c w, build fuel st it = Some (c, w) /\ built it c w.
Proof.
  intros Hstep Hbase Hlt Hdays Hl Ho [I1 I2 I3 I4 I5 I6 I7 I8]. unfold build.
  destruct (NewUserCalculator_ready it Hstep (hist_spans st) []) as (k1 & w1 & -> & W1 & X1 & R1).
  { by intros k s Hk. }
  { apply (sort_map_spans_ok shift_before (hist_span st)); [done|done]. }
  cbn [mbind option_bind].
  destruct (NewTemporaryScheduleCalculator_ready it Hstep (tempScheds st) w1 W1)
    as (act & usr & w2 & -> & W2 & X2 & R2 & R2').
  { unfold temp_spans. rewrite map_map. apply (sort_map_spans_ok temp_by_start); [done|].
    by rewrite <- map_map. }
  { apply (sort_map_spans_ok shift_by_start); [done|]. eapply disjoint_spans_perm; [|exact I3].
    unfold shift_spans. apply Permutation_map. rewrite <- sorted_shifts_perm. unfold sorted_shifts.
    by rewrite sort_slice_perm. }
  cbn [mbind option_bind].
  destruct (NewOverrideCalculator_ready it Hstep (overrides st) w2 W2) as (k3 & w3 & -> & W3 & X3 & R3).
  { apply (sort_spans_ok _ ov_Start); [done| |done]. intros x s. unfold add_span.
    destruct (_ && _); [by intros [= <-]|done]. }
  { apply (sort_spans_ok _ ov_Start); [done| |done]. intros x s. unfold remove_span.
    destruct (_ && _); [by intros [= <-]|done]. }
  { apply (sort_spans_ok _ ov_Start); [done| |by apply replace_disjoint]. intros x s. unfold replace_span.
    destruct (_ && _); [by intros [= <-]|done]. }
  cbn [mbind option_bind].
  destruct (NewRulesCalculator_ready fuel it Hstep Hbase Hlt (loc st) o Hl Ho Hdays (rotations st) rds
    (rules st) w3 W3 I8) as (k4 & w4 & -> & W4 & X4 & R4).
  cbn [mbind option_bind]. eexists _, w4. split; [reflexivity|].
  assert (ext w2 w4) as X24 by exact (ext_trans _ _ _ X3 X4).
  split; cbn [c_hist c_act c_usr c_ov c_rules].
  - done.
  - exact (ext_user_ready _ _ _ _ _ (ext_trans _ _ _ X2 X24) R1).
  - exact (ext_active_ready _ _ _ _ _ X24 R2).
  - exact (ext_user_ready _ _ _ _ _ X24 R2').
  - exact (ext_override_ready _ _ _ _ _ X4 R3).
  - exact R4.
Qed.

(** ** The users of a tick *)

Lemma before_cutoff t : Before (time_Unix t) (historyCutoff st) = (t <? cutoff st).
Proof.
  assert (cutoff st * Second = inst (historyCutoff st)) as H.
  { apply tmin_exact. unfold historyCutoff, Add. cbn [inst]. rewrite Truncate_minute_mod.
    unfold Minute, Second. dlia. }
  unfold Before. rewrite <- H. unfold time_Unix. cbn [inst]. pose proof Second_pos.
  destruct (t <? cutoff st) eqn:E; bprop; [apply Z.ltb_lt|apply Z.ltb_ge]; nia.
Qed.

Section tick.
Context (it : TimeIterator) (c : Calcs) (S0 : store) (HB : built it c S0).
Context (fuel : nat) (HI : inputs_ok rds st fuel it).

(** The rules report the base users. *)
Lemma rules_at t w i r0 r :
  store_inv S0 t w -> still S0 t i -> window it i ->
  S0 !! c_rules c = Some (SRules r0) ->
  Forall2 (fun k rr => single_ready it S0 k (rule_user o (rotations st) rds rr)) (r_rules r0) (rules st) ->
  (forall id, id ∈ r_userIDs r <->
     id <> EmptyString /\ exists j rj, j ∈ r_rules r0 /\ get_single w j = Some rj /\ id = sr_userID rj) ->
  forall id, id ∈ r_userIDs r <-> base_user o rds st i id.
Proof.
  intros Hinv Hst Hw E0 HF Hids id. rewrite Hids. unfold base_user.
  split; (intros [Hne H]; split; [done|]).
  - destruct H as (j & rj & Hj & Hrj & ->). apply list_elem_of_lookup in Hj as [n Hn].
    destruct (Forall2_lookup_l _ _ _ _ _ HF Hn) as (rr & Hrr & r1 & Hr1 & HP).
    exists rr. split; [by eapply list_elem_of_lookup_2|].
    destruct (inv_single S0 t w j r1 Hinv Hr1) as (rj' & Hrj' & Hv).
    assert (rj' = rj) as -> by congruence.
    apply (HP i (sr_userID rj) Hw); [by apply (single_val_still S0 t i)|done|done].
  - destruct H as (rr & Hrr & Hu). apply list_elem_of_lookup in Hrr as [n Hn].
    destruct (Forall2_lookup_r _ _ _ _ _ HF Hn) as (j & Hj & r1 & Hr1 & HP).
    destruct (inv_single S0 t w j r1 Hinv Hr1) as (rj & Hrj & Hv).
    exists j, rj. split; [by eapply list_elem_of_lookup_2|]. split; [done|]. symmetry.
    apply (HP i (sr_userID rj) Hw); [by apply (single_val_still S0 t i)|done|done].
Qed.

(** The overridden users of the rules. *)
Lemma overridden_at t w :
  store_inv S0 t w ->
  exists x r us, w !! c_ov c = Some (SOverride x) /\ get_rules w (c_rules c) = Some r /\
    MapUsers w x (r_userIDs r) = Some us /\
    forall i, still S0 t i -> window it i -> forall u, u ∈ us <-> overridden o rds st i u.
Proof using HB HI.
  intros Hinv. destruct HB as [_ _ _ _ (x0 & Ex & Hadd & Hrem & Hrep) (r0 & Er & HF)].
  destruct (inv_override S0 t w _ x0 Hinv Ex) as (x & Hx & Eadd & Hm).
  destruct (inv_rules S0 t w _ r0 Hinv Er) as (r & Hr & Hids).
  destruct Hadd as [(ua & Hua & _) Hadd]. destruct (inv_user S0 t w _ ua Hinv Hua) as (u & Hu & Huids).
  rewrite <- Eadd in Hu. destruct (MapUsers_spec w x (r_userIDs r) u Hu) as (us & Hus & Husin).
  exists x, r, us. split; [done|]. split; [done|]. split; [done|].
  intros i Hst Hw v. rewrite Husin. unfold overridden.
  assert (forall id k l l', user_ready it S0 k l -> l ≡ₚ l' -> user_val S0 k t id <-> on_span l' id i) as Huv.
  { intros id k l l' [_ Hv] Hp. rewrite (user_val_still S0 t i k id Hst), (Hv id i Hw). by apply on_span_perm. }
  assert (forall f : UserOverride -> option span,
    omap f (sort_slice override_by_start (overrides st)) ≡ₚ omap f (overrides st)) as HP
    by (intros f; by rewrite sort_slice_perm).
  rewrite Huids, (user_val_still S0 t i _ _ Hst), (Hadd v i Hw), (on_span_perm _ _ _ _ (HP add_span)).
  fold (added st i v). setoid_rewrite (rules_at t w i r0 r Hinv Hst Hw Er HF Hids).
  assert (map_val S0 x0 i (userMap x)) as Hm'.
  { destruct Hm as (M1 & M2 & M3). split; [|split].
    - intros id y E. destruct (M1 id y E) as [(rid & H)|[-> H]]; [left; exists rid|right];
        by rewrite (user_val_still S0 t i _ _ Hst) in H.
    - intros id E. destruct (M2 id E) as [H1 H2]. rewrite (user_val_still S0 t i _ _ Hst) in H1.
      split; [done|]. intros rid y. rewrite <- (user_val_still S0 t i _ _ Hst). apply H2.
    - intros id E. destruct (M3 id E) as [(rid & H)|H]; [left; exists rid|right].
      + by rewrite (user_val_still S0 t i _ _ Hst) in H.
      + intros rid y. rewrite <- (user_val_still S0 t i _ _ Hst). apply H. }
  setoid_rewrite (map_val_overridden st S0 x0 i (userMap x) _ _ (i_ids _ _ _ _ HI) (i_replace _ _ _ _ HI)
    (fun id => iff_trans (proj2 Hrem id i Hw) (on_span_perm _ _ _ _ (HP remove_span)))
    (fun id => iff_trans (proj2 Hrep id i Hw) (on_span_perm _ _ _ _ (HP replace_span))) Hm').
  tauto.
Qed.

(** The loop body does not panic, and reports who is on call until the next
    bound, unless the cutoff comes first. *)
Lemma users_at_spec t w :
  store_inv S0 t w ->
  exists us, users_at st c t w = Some us /\
    forall i, still S0 t i -> window it i -> (t < cutoff st <-> i < cutoff st) ->
      forall u, u ∈ us <-> on_call_at o rds st i u.
Proof using HB HI.
  intros Hinv. unfold users_at. rewrite before_cutoff. unfold on_call_at.
  destruct (overridden_at t w Hinv) as (x & r & us3 & Ex & Er & EM & Hov).
  destruct HB as [_ [(uh & Huh & _) Hhist] [(a0 & Ha0 & _) Hact] [(uu & Huu & _) Husr] _ _].
  destruct (inv_user S0 t w _ uh Hinv Huh) as (u1 & E1 & H1).
  destruct (inv_active S0 t w _ a0 Hinv Ha0) as (a & E2 & H2).
  destruct (inv_user S0 t w _ uu Hinv Huu) as (u3 & E3 & H3).
  rewrite E1, E2, E3, Ex, Er. cbn [mbind option_bind].
  destruct (t <? cutoff st) eqn:ET; bprop; [|destruct (Active a) eqn:EA].
  - exists (u_active u1). split; [done|]. intros i Hst Hw Hc u.
    rewrite H1, (user_val_still S0 t i _ _ Hst), (Hhist u i Hw). unfold recorded.
    assert (i < cutoff st) as Hic by tauto. rewrite (on_span_perm _ (map (hist_span st) (history st))); [|].
    + split; [auto|]. intros [[_ H]|[[H _]|[H _]]]; [done|lia|lia].
    + unfold hist_spans. change (fun s => _) with (hist_span st). by rewrite sort_slice_perm.
  - exists (u_active u3). split; [done|]. intros i Hst Hw Hc u.
    assert (temp_active st i) as Hta by (apply (Hact i Hw); by rewrite <- (Hst _), <- H2).
    rewrite H3, (user_val_still S0 t i _ _ Hst), (Husr u i Hw). unfold temp_user.
    rewrite (on_span_perm _ (shift_spans (concat (map tsShifts (tempScheds st))))).
    + split; [intros; right; left; split; [lia|done]|]. intros [[H _]|[(_ & _ & H)|(_ & H & _)]]; [lia|done|done].
    + unfold shift_spans. apply Permutation_map, sorted_shifts_perm.
  - exists us3. split; [done|]. intros i Hst Hw Hc u.
    assert (~ temp_active st i) as Hta.
    { intros H. apply (Hact i Hw) in H. rewrite <- (Hst _), <- H2 in H. done. }
    rewrite (Hov i Hst Hw u). split; [intros; right; right; split; [lia|done]|].
    intros [[H _]|[(_ & H & _)|(_ & _ & H)]]; [lia|done|done].
Qed.
End tick.
(** ** The iterator of the loop *)

Lemma Truncate_tmin t : Unix (Truncate (Truncate t Minute) Minute) = tmin t.
Proof.
  unfold tmin, Unix. rewrite !Truncate_minute_mod. unfold Minute, Second. dlia.
Qed.

Lemma newIterator_spec start end_ :
  let it := newIterator st start end_ in
  it_init it = false /\ it_t it = 0 /\ it_step it = 60 /\ it_end it = tmin end_ /\
  it_start it <= tmin start /\ (IsZero (now st) = false -> it_start it <= tmin (now st)).
Proof.
  unfold newIterator, NewTimeIterator. change (dTruncate Minute Second) with Minute. cbn [it_init it_t it_step it_end it_start].
  rewrite Truncate_tmin. split; [done|]. split; [done|]. split; [done|]. split; [done|].
  destruct (negb (IsZero (now st)) && Before (now st) (Truncate start Minute)) eqn:E; rewrite Truncate_tmin.
  - apply andb_true_iff in E as [_ E]. unfold Before in E. bprop. split; [|done].
    rewrite Truncate_minute_mod in E. apply tmin_le. pose proof (Z.mod_pos_bound (inst start) Minute). unfold_units. lia.
  - split; [done|]. intros Hz. rewrite Hz in E. cbn [negb andb] in E. unfold Before in E. bprop.
    rewrite Truncate_minute_mod in E. unfold tmin, Unix. rewrite !Truncate_minute_mod.
    apply Z.div_le_mono; [done|]. unfold Minute, Second in *. dlia.
Qed.

(** The store as it is built describes any time before its entries. *)
Lemma initial_inv S0 t :
  wf_store S0 -> (forall k a v rest, get_active S0 k = Some a -> states a = v :: rest -> t < acT v) ->
  store_inv S0 t S0.
Proof.
  intros Hw Hb. split; [done|].
  assert (forall c, act_val S0 c t = false) as Hno.
  { intros c. unfold act_val. destruct (get_active S0 c) as [a|] eqn:E; [|done].
    destruct (states a) as [|v rest] eqn:ES; [done|]. cbn [state_at].
    rewrite (proj2 (Z.leb_gt _ _)); [done|]. by eapply Hb. }
  assert (forall k id, ~ user_val S0 k t id) as HnoU.
  { intros k id (u & c & _ & _ & H). by rewrite Hno in H. }
  intros k. unfold describes_sub. destruct (S0 !! k) as [s|] eqn:E; [|done].
  pose proof (Hw k s E) as Hs. destruct s as [a|u|r|x|r]; simpl in Hs.
  - destruct Hs as (Hi & Ha & Hact). pose proof (proj2 (get_active_lookup _ _ _) E) as Eg.
    unfold describes_active. rewrite Hact. split; [done|]. split; [|split; [|done]].
    + specialize (Hno k). unfold act_val in Hno. by rewrite Eg in Hno.
    + destruct (states a) as [|v rest] eqn:ES; [done|]. destruct Ha as (_ & H1 & H2).
      split; [by eapply Hb|done].
  - destruct Hs as (_ & _ & -> & Hc). split; [done|]. split; [constructor|]. split; [|done].
    intros id. split; [by intros H%elem_of_nil|by intros H%HnoU].
  - destruct Hs as (_ & _ & _ & ->). split; [done|]. split; [done|]. split; [done|].
    unfold single_val. by rewrite Hno.
  - destruct Hs as (_ & _ & _ & _ & -> & _). split; [done|]. split; [done|]. split; [done|]. split; [|split].
    + intros id v H. by rewrite lookup_empty in H.
    + intros id _. split; [apply HnoU|]. by intros rid v H%HnoU.
    + intros id H. by rewrite lookup_empty in H.
  - destruct Hs as (Hj & ->). split; [done|].
    destruct (mapM_single_spec S0 (r_rules r)) as (rs & Hrs & HF); [intros j Hin; by apply Hj|].
    exists rs. split; [done|]. clear Hrs. induction HF as [|j rj js rs Hr HF IH]; [done|].
    simpl. apply get_single_lookup in Hr. destruct (Hw j _ Hr) as (_ & _ & _ & ->). simpl.
    apply IH. intros j' Hin. apply Hj. by right.
Qed.

Lemma start_loop_pos ks (w : store) step start :
  0 < step -> 0 < start -> (forall k t, k ∈ ks -> sub_start k w = Some t -> 0 <= t) ->
  0 < start_loop ks w step start.
Proof.
  intros Hs. revert start. induction ks as [|k ks IH]; intros start H0 Hk; cbn [start_loop]; [done|].
  destruct (sub_start k w) as [t|] eqn:E.
  - apply IH; [|intros k' t' Hin; apply Hk; by right]. pose proof (Hk k t ltac:(by left) E).
    destruct (negb _ && _) eqn:EB; [|done]. bprop.
    pose proof (Z.rem_bound_pos t step ltac:(lia) Hs). pose proof (Z.rem_le t step ltac:(lia) Hs). lia.
  - apply IH; [done|]. intros k' t' Hin. apply Hk. by right.
Qed.

(** Where the iterator begins: at or before the window and every entry. *)
Lemma first_tick_spec it (w : store) :
  wf_store w -> it_step it = 60 -> 0 < it_start it ->
  0 < first_tick it w <= it_start it /\
  forall k a v rest, get_active w k = Some a -> states a = v :: rest -> first_tick it w <= acT v.
Proof.
  intros Hw Hstep H0. unfold first_tick. rewrite Hstep.
  assert (forall k a v rest, get_active w k = Some a -> states a = v :: rest -> 59 < acT v) as He.
  { intros k a v rest Ha Hs. apply get_active_lookup in Ha. destruct (Hw k _ Ha) as (_ & H & _).
    rewrite Hs in H. apply H. }
  destruct (start_loop_le (seq 0 (sub_count w)) w 60 (it_start it) ltac:(done)) as [H1 H2].
  split; [split; [|done]|].
  - apply start_loop_pos; [done|done|]. intros k t _ Ht. simpl in Ht.
    destruct (w !! k) as [[a| | | |]|] eqn:E; try done. injection Ht as <-. unfold StartUnix.
    destruct (states a) as [|v rest] eqn:ES; [done|].
    pose proof (He k a v rest (proj2 (get_active_lookup _ _ _) E) ES). lia.
  - intros k a v rest Ha Hs. pose proof (He k a v rest Ha Hs).
    pose proof (proj1 (get_active_lookup _ _ _) Ha) as E.
    apply (H2 k); [|simpl; rewrite E; unfold StartUnix; by rewrite Hs|lia|lia].
    apply elem_of_seq. simpl. apply lookup_lt_Some in E. lia.
Qed.

(** ** The ticks *)

(** Someone is on call now, in a shift that ends at the cutoff for the purpose of
    the history; or there is no current time. *)
Definition current : Prop :=
  IsZero (now st) = true \/
  (ex_in (fun s => IsZero (s_End s) = true) (history st) /\
   Forall (fun s => tmin (s_Start s) < cutoff st) (history st)).

Lemma cutoff_eq : cutoff st = tmin (now st) + 60.
Proof.
  unfold cutoff, historyCutoff, tmin, Unix, Add. rewrite !Truncate_minute_mod. cbn [inst].
  rewrite ?Truncate_minute_mod. unfold Minute, Second. dlia.
Qed.

(** The recorded users change at the cutoff. *)
Lemma current_changes :
  disjoint_spans (map (hist_span st) (history st)) -> IsZero (now st) = false -> current ->
  exists u, recorded st (cutoff st - 1) u /\ ~ recorded st (cutoff st) u.
Proof.
  intros [_ Hd] Hz [H|[(s & Hs & Hopen) Hpast]]; [congruence|]. rewrite Forall_forall in Hpast.
  pose proof (Hpast s Hs) as Hps.
  assert (tmin (span_end (hist_span st s)) = cutoff st) as Hend by (unfold hist_span; by rewrite Hopen).
  exists (s_UserID s). unfold recorded, on_span. rewrite !ex_in_map. split.
  - exists s. split; [done|]. split; [done|]. unfold span_covers, in_span. rewrite Hend.
    unfold span_start, hist_span. simpl. lia.
  - intros (y & Hy & Hid & Hc). unfold span_covers, in_span in Hc.
    destruct (ForallOrdPairs_In Hd (hist_span st s) (hist_span st y)) as [E|[E|E]];
      [apply in_map; by apply list_elem_of_In..| | |].
    + rewrite <- E, Hend in Hc. lia.
    + specialize (E (eq_sym Hid)). unfold nonempty_span in E. rewrite Hend in E.
      pose proof (Hpast y Hy) as Hpy. unfold span_start, hist_span in *. simpl in *. lia.
    + specialize (E Hid). unfold nonempty_span in E. rewrite Hend in E.
      pose proof (Hpast y Hy) as Hpy. unfold span_start, hist_span in *. simpl in *. lia.
Qed.

(** The times for which the ticks are enough. *)
Definition settled (it : TimeIterator) (i : Z) : Prop := window it i /\ (i < cutoff st \/ current).

Section loop.
Context (it : TimeIterator) (c : Calcs) (S0 : store) (HB : built it c S0).
Context (fuel : nat) (HI : inputs_ok rds st fuel it).
Context (Hnow : IsZero (now st) = false -> it_start it < cutoff st).

(** A tick before the cutoff is not the last before a time after it. *)
Lemma cutoff_side t i :
  0 < t <= i -> settled it i -> (forall j, t <= j <= i -> still S0 t j) ->
  (t < cutoff st <-> i < cutoff st).
Proof using HB HI Hnow.
  intros Ht [Hw Hs] Hst. split; [|lia]. intros Hlt. destruct (decide (i < cutoff st)) as [|Hge]; [done|exfalso].
  destruct Hs as [|Hcur]; [lia|]. destruct (IsZero (now st)) eqn:Hz.
  - rewrite cutoff_eq in Hlt. unfold IsZero in Hz. bprop. unfold tmin, Unix in Hlt.
    rewrite Truncate_minute_mod, Hz in Hlt.
    assert ((zero_inst - zero_inst mod Minute) / Second + 60 <= 0) as Hneg by (vm_compute; discriminate). lia.
  - specialize (Hnow eq_refl).
    destruct (current_changes (i_hist _ _ _ _ HI) Hz Hcur) as (u & H1 & H2). apply H2.
    destruct HB as [_ [_ Hhist] _ _ _ _]. unfold recorded in *.
    assert (forall j, window it j -> t <= j <= i ->
      on_span (map (hist_span st) (history st)) u j <-> user_val S0 (c_hist c) t u) as HH.
    { intros j Hwj Hj. rewrite (user_val_still S0 t j _ _ (Hst j Hj)), (Hhist u j Hwj). symmetry.
      apply on_span_perm. unfold hist_spans. change (fun s => _) with (hist_span st). by rewrite sort_slice_perm. }
    unfold window in *. apply HH; [lia|lia|]. by apply (HH (cutoff st - 1)); [lia|lia|].
Qed.

Lemma trace_ticks_ok t w l :
  trace (Inv:=store_inv S0) (bound:=bound) (users_at st c) (it_end it) t w l ->
  0 < t -> store_inv S0 t w -> forall us, users_at st c t w = Some us ->
  exists lus, l = some_users lus /\
    ticks_ok (on_call_at o rds st) (settled it) (it_end it) t us lus.
Proof using HB HI Hnow.
  induction 1 as [t w Hle|t w t' w' l Hend Hlt Hb HI' HT IH]; intros H0 Hinv us Hus.
  { exists []. done. }
  destruct (users_at_spec it c S0 HB fuel HI t' w' HI') as (us' & Hus' & _).
  destruct (IH ltac:(lia) HI' us' Hus') as (lus & -> & Hok).
  exists ((t', us') :: lus). split; [unfold some_users; simpl; by rewrite Hus'|].
  split; [lia|]. split; [|done]. intros u i Hi HGi.
  assert (forall j, t <= j <= i -> still S0 t j) as Hst.
  { intros j Hj. apply (inv_still S0 t j w); [done|lia|]. intros b Hbd. specialize (Hb b Hbd). lia. }
  destruct (users_at_spec it c S0 HB fuel HI t w Hinv) as (us2 & Hus2 & Hspec).
  assert (us2 = us) as -> by congruence. symmetry. apply Hspec.
  - apply Hst. lia.
  - apply HGi.
  - apply cutoff_side; [lia|done|done].
Qed.
End loop.

(** [CalculateShifts] against the specification. *)
Lemma CalculateShifts_spec fuel start end_ :
  let it := newIterator st start end_ in
  fixed_at (loc st) o -> o mod 60 = 0 ->
  864000 <= it_start it -> it_start it < it_end it ->
  (it_end it - it_start it) / 86400 + 11 <= 100000 ->
  it_end it < Z.of_nat fuel -> inputs_ok rds st fuel it ->
  exists l, CalculateShifts fuel st start end_ = Some l /\
    StronglySorted (not_after shift_less) l /\
    forall i u, tmin start <= i < tmin end_ -> i < cutoff st \/ current ->
      ex_in (shift_covers u i) l <-> on_call_at o rds st i u.
Proof.
  intros it Hl Ho Hbase Hlt Hdays Hfuel HI.
  destruct (newIterator_spec start end_) as (Hinit & Ht0 & Hstep & Hend & Hs1 & Hs2). fold it in Hinit, Ht0, Hstep, Hend, Hs1, Hs2.
  destruct (build_ready fuel it Hstep Hbase Hlt Hdays Hl Ho HI) as (c & w & Ebuild & HB).
  pose proof (w_wf _ _ _ HB) as Hw.
  destruct (first_tick_spec it w Hw Hstep ltac:(lia)) as ([F1 F2] & F3).
  destruct fuel as [|fuel]; [lia|].
  destruct (ticks_fresh (L:=store_laws w) (users_at st c) fuel it w) as (w1 & l & last & ET & HI1 & HT & Hlast);
    [done|lia|lia|lia|done| | |lia|].
  { apply initial_inv; [done|]. intros k a v rest Ha Hsa. specialize (F3 k a v rest Ha Hsa). lia. }
  { intros b (k & a & v & rest & Ha & Hsa & ->). by eapply F3. }
  set (F := first_tick it w) in *.
  destruct (users_at_spec it c w HB (S fuel) HI F w1 HI1) as (us & Hus & _).
  assert (Hnow : IsZero (now st) = false -> it_start it < cutoff st)
    by (intros Hz; specialize (Hs2 Hz); rewrite cutoff_eq; lia).
  destruct (trace_ticks_ok it c w HB (S fuel) HI Hnow F w1 l HT F1 HI1 us Hus) as (lus & -> & Hok).
  set (G := settled it) in *. set (H := on_call_at o rds st) in *.
  assert (Unix (Truncate start Minute) = tmin start) as Eu by done.
  assert (book_ok H G (Unix (Truncate start Minute)) F [] (mkBook [] ∅)) as HK.
  { split; cbn [isOnCall shifts].
    - intros u. rewrite lookup_empty. split; [by intros []|by intros Hn%elem_of_nil].
    - intros u s Hs. by rewrite lookup_empty in Hs.
    - by intros s Hs%elem_of_nil.
    - intros u i Hi. lia. }
  destruct (run_ticks_spec H G (Truncate start Minute) (it_end it) ((F, us) :: lus) F [] (mkBook [] ∅))
    as (b & t' & us' & ER & HK' & Ht'); [|done| |].
  { rewrite Truncate_minute_mod. unfold Minute, Second. dlia. }
  { split; [lia|]. split; [intros u i Hi; lia|done]. }
  unfold CalculateShifts. fold it. rewrite Ebuild. cbn [mbind option_bind]. rewrite ET. cbn [mbind option_bind].
  cbn [some_users map fst snd] in ER. rewrite Hus. fold (some_users lus) in ER. rewrite ER. cbn [mbind option_bind].
  destruct (finish_spec H G _ (it_end it) t' us' b (it_t last) HK' Ht' Hlast) as [HS HE].
  eexists. split; [reflexivity|]. split; [exact HS|].
  intros i u Hi Hc. apply HE; [rewrite Eu; lia|]. split; [split; lia|done].
Qed.
End refine.

(** C3: in a location with a constant whole-minute offset, for a window that
    begins at least ten days into 1970 and is within the loop limit, and inputs
    whose spans do not overlap, [CalculateShifts] returns: it does not panic and
    its loops end.  With overrides that overlap it may panic
    ([overlapping_overrides_panic]).  The shifts are sorted, and at every second of the window a
    shift of a user covers it exactly when the specification has the user on
    call: the recorded history before the cutoff; after it the temporary
    schedule if one is active, else the users of the active rules (targets and
    participants of rotations) with replacements, removals and additions
    applied.  After the cutoff this needs someone to be on call at the current
    time by the history, or no current time ([current]), see
    [user_missing_after_the_cutoff]. *)
Theorem CalculateShifts_exact {HG : GoSort} {HM : GoMapRange} o rds st fuel start end_
  (it := newIterator st start end_)
  (Hl : fixed_at (loc st) o) (Ho : o mod 60 = 0)
  (Hbase : 864000 <= it_start it) (Hlt : it_start it < it_end it)
  (Hdays : (it_end it - it_start it) / 86400 + 11 <= 100000)
  (Hfuel : it_end it < Z.of_nat fuel) (HI : inputs_ok rds st fuel it) :
  exists l, CalculateShifts fuel st start end_ = Some l /\
    StronglySorted (not_after shift_less) l /\
    forall i u, tmin start <= i < tmin end_ -> i < cutoff st \/ current st ->
      ex_in (shift_covers u i) l <-> on_call_at o rds st i u.
Proof. exact (CalculateShifts_spec o rds st fuel start end_ Hl Ho Hbase Hlt Hdays Hfuel HI). Qed.

(** A schedule on January 13, 1970, 01:00: "a" is on call; one rule has "u" and
    another a daily rotation of "b" and "c" always on call; "v" replaces "u" from
    02:00 to 03:00. *)
Definition sample_rotation : Rotation.ResolvedRotation :=
  Rotation.mkResolved (Rotation.mkRotation Rotation.TypeDaily (time_Unix 1036800) 1) 0
    (time_Unix 1036800) zeroTime ["b"; "c"]%string.

Definition sample_state : OnCallState :=
  mkState []
    [mkRR (NewAlwaysActive "" (UserTarget "u")) None;
     mkRR (NewAlwaysActive "" (RotationTarget "r")) (Some O)]
    [sample_rotation]
    [mkOv "v" "u" (time_Unix 1044000) (time_Unix 1047600)]
    [mkShiftOC "a" (time_Unix 1036800) zeroTime false]
    (time_Unix 1040400) UTC.

Definition sample_rds (_ : nat) : RotData :=
  mkRD (Rotation.clock_handoff (Rotation.rr_Rotation sample_rotation)) 0 3 0.

#[local] Existing Instance stable_go_sort.
#[local] Existing Instance ordered_map_range.

Lemma sample_inputs :
  inputs_ok sample_rds sample_state (Z.to_nat 1300000)
    (newIterator sample_state (time_Unix 1040400) (time_Unix 1213200)).
Proof.
  split.
  - apply disjoint_spans_one. vm_compute. reflexivity.
  - apply disjoint_spans_nil.
  - apply disjoint_spans_nil.
  - apply disjoint_spans_nil.
  - apply disjoint_spans_nil.
  - apply disjoint_spans_one. vm_compute. reflexivity.
  - repeat constructor; vm_compute; discriminate.
  - constructor; [|constructor; [|constructor]]; (split; [repeat split; try done; repeat constructor; lia|]).
    + intros p. discriminate.
    + intros p [= <-]. exists sample_rotation. split; [reflexivity|]. intros _.
      split; [|split; [|split; [|split; [|split; [|split]]]]].
      * apply (Rotation.handoff_sub (L:=Rotation.clock_handoffs (Rotation.rr_Rotation sample_rotation) 0 ltac:(right; left; reflexivity)
          ltac:(simpl; lia) ltac:(intros u; reflexivity) eq_refl)); vm_compute; discriminate.
      * split; [reflexivity|]. split; [vm_compute; split; [discriminate|reflexivity]|].
        split; [vm_compute; discriminate|left; reflexivity].
      * simpl. lia.
      * simpl. lia.
      * vm_compute. split; discriminate.
      * vm_compute. discriminate.
      * split; [|vm_compute; discriminate]. simpl rd_hi. simpl rd_lo. lia.
Qed.

Definition show (s : Shift) : string * Z * Z * bool :=
  (s_UserID s, Unix (s_Start s), Unix (s_End s), s_Truncated s).

Lemma CalculateShifts_exact_witness :
  exists l, CalculateShifts (Z.to_nat 1300000) sample_state (time_Unix 1040400) (time_Unix 1213200) = Some l /\
    map show l =
      [("a", 1036800, 1040460, false); ("b", 1040460, 1123200, false); ("u", 1040460, 1044000, false);
       ("v", 1044000, 1047600, false); ("u", 1047600, 1213200, true); ("c", 1123200, 1209600, false);
       ("b", 1209600, 1213200, true)]%string /\
    on_call_at 0 sample_rds sample_state 1045000 "v".
Proof.
  destruct (CalculateShifts_exact 0 sample_rds sample_state (Z.to_nat 1300000)
    (time_Unix 1040400) (time_Unix 1213200)) as (l & E & _ & H).
  - intros u. reflexivity.
  - reflexivity.
  - vm_compute. discriminate.
  - vm_compute. reflexivity.
  - vm_compute. discriminate.
  - vm_compute. reflexivity.
  - exact sample_inputs.
  - exists l. split; [exact E|]. vm_compute in E. injection E as <-. split; [reflexivity|].
    apply H.
    + vm_compute. split; [discriminate|reflexivity].
    + right. right. split.
      * eexists. split; [left|reflexivity].
      * constructor; [reflexivity|constructor].
    + eexists. split; [do 3 right; left|]. vm_compute. repeat split; discriminate.
Defined.

(** Without anyone on call at the current time the iterator need not stop at
    the cutoff: the user of a rule that is always active is missing from the
    rest of the window (only the tick at its end sees the rule). *)
Lemma user_missing_after_the_cutoff :
  let st := mkState [] [mkRR (NewAlwaysActive "" (UserTarget "u")) None] [] [] []
    (time_Unix 1040400) UTC in
  option_map (map show) (CalculateShifts 1000 st (time_Unix 1040400) (time_Unix 1213200)) =
    Some [("u", 1213200, 1213200, true)]%string /\
  on_call_at 0 sample_rds st 1100000 "u".
Proof.
  split; [vm_compute; reflexivity|]. right. right. split; [vm_compute; discriminate|].
  split; [by intros (x & Hx%elem_of_nil & _)|]. right. exists "u"%string. split.
  - split; [done|]. eexists. split; [left|]. split; [by apply always_active|done].
  - right. split; [done|]. split; [by intros (x & Hx%elem_of_nil & _)|]. by intros v (x & Hx%elem_of_nil & _).
Qed.

(** Two overlapping overrides that add the same user are not merged: registering
    the second panics. *)
Lemma overlapping_overrides_panic :
  let st := mkState [] [] []
    [mkOv "v" "" (time_Unix 1044000) (time_Unix 1047600); mkOv "v" "" (time_Unix 1045800) (time_Unix 1051200)]
    [] (time_Unix 1040400) UTC in
  CalculateShifts 1000 st (time_Unix 1040400) (time_Unix 1213200) = None.
Proof. vm_compute. reflexivity. Qed.
