(* ===== verification/Dest.v ===== *)
(** * Notification destinations: [gadb/dest.go]

    A destination is a type and a map of arguments.  JSON encoding and hashing
    are the standard library's and are parameters of what uses them. *)

From S2P Require Import Prelude.

(** A nil map of arguments and an empty one read the same. *)
Record DestV1 := mkDest { dArgs : gmap string string; dType : string }.

(** A read of a Go map gives the zero value for an absent key. *)
Definition Arg (ns : DestV1) (name : string) : string := default "" (dArgs ns !! name).

Definition SetArg (name value : string) (ns : DestV1) : DestV1 :=
  mkDest (<[name := value]> (dArgs ns)) (dType ns).

(** Pairs of a name and a value; an odd one out panics before any is set. *)
Fixpoint set_args (args : list string) (d : DestV1) : option DestV1 :=
  match args with
  | [] => Some d
  | [_] => None
  | name :: value :: args => set_args args (SetArg name value d)
  end.

Definition NewDestV1 (typeID : string) (args : list string) : option DestV1 :=
  set_args args (mkDest ∅ typeID).

Definition Equal `{GoMapRange} (ns other : DestV1) : bool :=
  if negb (String.eqb (dType ns) (dType other)) then false
  else if negb (size (dArgs ns) =? size (dArgs other))%nat then false
  else forallb (fun kv => String.eqb (Arg other kv.1) kv.2) (map_range (dArgs ns)).

(** ** Reading back what was set *)

Lemma Arg_SetArg ns name value name' :
  Arg (SetArg name value ns) name' = if decide (name' = name) then value else Arg ns name'.
Proof.
  unfold Arg, SetArg. cbn [dArgs]. destruct (decide (name' = name)) as [->|Hne].
  - by rewrite lookup_insert_eq.
  - by rewrite lookup_insert_ne.
Qed.

(** The last value given for a name. *)
Fixpoint last_given (args : list string) (name : string) (v : string) : string :=
  match args with
  | n :: value :: args => last_given args name (if decide (name = n) then value else v)
  | _ => v
  end.

Lemma set_args_spec args : forall d d', set_args args d = Some d' ->
  dType d' = dType d /\ forall name, Arg d' name = last_given args name (Arg d name).
Proof.
  induction args as [args IH] using (induction_ltof1 _ length); unfold ltof in IH.
  destruct args as [|n [|v args]]; intros d d' E; cbn [set_args] in E; [by injection E as <-|done|].
  destruct (IH args ltac:(simpl; lia) _ _ E) as [HT HA]. split; [done|].
  intros name. rewrite HA, Arg_SetArg. done.
Qed.

Lemma set_args_even args : forall d, Nat.Even (length args) <-> is_Some (set_args args d).
Proof.
  induction args as [args IH] using (induction_ltof1 _ length); unfold ltof in IH.
  intros d. destruct args as [|n [|v args]]; cbn [set_args].
  - split; [by eexists|]. intros _. by exists 0%nat.
  - split; [intros [k Hk]; simpl in Hk; lia|by intros [? ?]].
  - rewrite <- (IH args ltac:(simpl; lia)). simpl. by rewrite Nat.Even_succ_succ.
Qed.

(** [NewDestV1] panics exactly on an odd number of arguments; else the
    destination has the type, and every name reads as the last value given for
    it, names never given as the empty string. *)
Theorem NewDestV1_reads_back typeID args :
  (NewDestV1 typeID args = None <-> ~ Nat.Even (length args)) /\
  forall d, NewDestV1 typeID args = Some d ->
    dType d = typeID /\ forall name, Arg d name = last_given args name "".
Proof.
  unfold NewDestV1. split.
  - rewrite (set_args_even args (mkDest ∅ typeID)), <- eq_None_not_Some. done.
  - intros d E. destruct (set_args_spec args _ _ E) as [HT HA]. split; [done|].
    intros name. rewrite HA. unfold Arg. cbn [dArgs]. by rewrite lookup_empty.
Qed.

(** ** Comparison *)

Section Equal.
Context {HR : GoMapRange}.

Lemma Equal_spec ns other : Equal ns other = true <->
  dType ns = dType other /\ size (dArgs ns) = size (dArgs other) /\
  forall k v, dArgs ns !! k = Some v -> Arg other k = v.
Proof.
  unfold Equal. destruct (String.eqb_spec (dType ns) (dType other)) as [HT|HT]; cbn [negb]; [|split; [done|by intros (? & ? & ?)]].
  destruct (Nat.eqb_spec (size (dArgs ns)) (size (dArgs other))) as [HS|HS]; cbn [negb]; [|split; [done|by intros (? & ? & ?)]].
  rewrite forallb_forall. split.
  - intros H. split; [done|]. split; [done|]. intros k v Hk.
    apply elem_of_map_to_list in Hk. rewrite <- map_range_perm in Hk. apply list_elem_of_In in Hk.
    by apply H, String.eqb_eq in Hk.
  - intros (_ & _ & H) [k v] Hk%list_elem_of_In. rewrite map_range_perm in Hk.
    apply elem_of_map_to_list in Hk. apply String.eqb_eq. by apply H.
Qed.

(** On destinations without empty argument values [Equal] is equality. *)
Theorem Equal_is_equality ns other
  (Hns : forall k, dArgs ns !! k <> Some ""%string) :
  Equal ns other = true <-> ns = other.
Proof.
  rewrite Equal_spec. split; [|intros ->; split; [done|]; split; [done|]; intros k v Hk; unfold Arg; by rewrite Hk].
  intros (HT & HS & HA).
  assert (dArgs ns ⊆ dArgs other) as Hsub.
  { apply map_subseteq_spec. intros k v Hk. specialize (HA k v Hk). unfold Arg in HA.
    destruct (dArgs other !! k) as [w|] eqn:E; cbn in HA; [by subst|]. subst v. by destruct (Hns k). }
  assert (dArgs ns = dArgs other) as HE.
  { apply map_eq. intros k. destruct (dArgs ns !! k) as [v|] eqn:E.
    { symmetry. by apply (lookup_weaken _ _ _ _ E Hsub). }
    destruct (dArgs other !! k) as [w|] eqn:E'; [|done]. exfalso.
    assert (dArgs ns ⊂ dArgs other) as Hlt.
    { split; [done|]. intros Hsup. apply (lookup_weaken _ _ _ _ E') in Hsup. congruence. }
    apply map_subset_size in Hlt. lia. }
  destruct ns, other; simpl in *; congruence.
Qed.

(** With an empty value it is not even symmetric: an absent argument reads as
    the empty string. *)
Lemma Equal_not_symmetric :
  Equal (mkDest {["a" := ""%string]} "t") (mkDest {["b" := "x"%string]} "t") = true /\
  Equal (mkDest {["b" := "x"%string]} "t") (mkDest {["a" := ""%string]} "t") = false.
Proof.
  split.
  - apply Equal_spec. cbn [dType dArgs]. rewrite !map_size_singleton. split; [done|]. split; [done|].
    intros k v [<- <-]%lookup_singleton_Some. done.
  - apply not_true_iff_false. rewrite Equal_spec. cbn [dType dArgs]. intros (_ & _ & H).
    by specialize (H "b"%string "x"%string (lookup_singleton_eq _ _)).
Qed.
End Equal.

Lemma Equal_is_equality_witness :
  @Equal ordered_map_range (mkDest {["a" := "1"%string]} "t") (mkDest {["a" := "1"%string]} "t") = true <->
  mkDest {["a" := "1"%string]} "t" = mkDest {["a" := "1"%string]} "t".
Proof.
  apply (@Equal_is_equality ordered_map_range). intros k E. cbn [dArgs] in E.
  apply lookup_singleton_Some in E as [_ E]. discriminate.
Defined.
