(* ===== verification/Messages.v ===== *)
(** * Outgoing messages and their deduplication: [engine/message/message.go],
      [splitpendingbytype.go], [deduponcallnotifications.go],
      [dedupstatusmessages.go], [dedupalerts.go], [bundlealerts.go]

    Before messages are queued, those that need not be sent on their own are
    taken out: superseded ones are deleted, duplicate alert notifications and
    several for one service are bundled.  The callbacks that write to the
    database are state transformers that may fail. *)

From S2P Require Import Prelude GoTime Dest.

(** ** Data *)

(** [gadb.EnumOutgoingMessagesType] is a string. *)
Definition MessageTypeAlert : string := "alert_notification".
Definition MessageTypeAlertStatus : string := "alert_status_update".
Definition MessageTypeTest : string := "test_notification".
Definition MessageTypeVerification : string := "verification_message".
Definition MessageTypeAlertBundle : string := "alert_notification_bundle".
Definition MessageTypeScheduleOnCallUsers : string := "schedule_on_call_notification".
Definition MessageTypeSignalMessage : string := "signal_message".

(** [notification.DestID]: two ids that may be null. *)
Record DestID := mkDestID { CMID : option string; NCID : option string }.

#[export] Instance DestID_eq_dec : EqDecision DestID.
Proof. solve_decision. Defined.
#[export] Instance DestID_countable : Countable DestID.
Proof.
  refine (inj_countable' (fun d => (CMID d, NCID d)) (fun p => mkDestID p.1 p.2) _).
  by intros [].
Defined.

Record Message := mkMsg {
  mID : string;
  mType : string;
  mDestID : DestID;
  mDest : DestV1;
  mAlertID : Z;
  mAlertLogID : Z;
  mVerifyID : string;
  mUserID : string;
  mServiceID : string;
  mScheduleID : string;
  mCreatedAt : Time;
  mSentAt : Time;
  mStatusAlertIDs : list Z
}.

(** ** [splitPendingByType] *)

(** Not sent, and of one of the types. *)
Definition matches (types : list string) (m : Message) : bool :=
  IsZero (mSentAt m) && existsb (String.eqb (mType m)) types.

Fixpoint splitPendingByType (messages : list Message) (types : list string)
  : list Message * list Message :=
  match messages with
  | [] => ([], [])
  | msg :: messages =>
      let '(matching, remainder) := splitPendingByType messages types in
      if negb (IsZero (mSentAt msg)) then (matching, msg :: remainder)
      else if existsb (String.eqb (mType msg)) types then (msg :: matching, remainder)
      else (matching, msg :: remainder)
  end.

(** ** Superseded messages *)

(** The loop of both functions: the first message of each key is kept. *)
Fixpoint dedup_loop {K} `{Countable K} (key : Message -> K) (seen : gset K) (l : list Message)
  : list Message * list string :=
  match l with
  | [] => ([], [])
  | msg :: l =>
      if decide (key msg ∈ seen) then
        let '(kept, toDelete) := dedup_loop key seen l in (kept, mID msg :: toDelete)
      else
        let '(kept, toDelete) := dedup_loop key ({[key msg]} ∪ seen) l in (msg :: kept, toDelete)
  end.

Definition oncall_key (m : Message) : string * DestID := (mScheduleID m, mDestID m).
Definition status_key (m : Message) : Z * DestID := (mAlertID m, mDestID m).
Definition alert_key (m : Message) : DestID * Z := (mDestID m, mAlertID m).
Definition bundle_key (m : Message) : DestID * string := (mDestID m, mServiceID m).

Definition newer (a b : Message) : bool := After (mCreatedAt a) (mCreatedAt b).
Definition later_log (a b : Message) : bool := mAlertLogID b <? mAlertLogID a.
Definition older (a b : Message) : bool := Before (mCreatedAt a) (mCreatedAt b).

Section dedup.
Context `{GoSort}.

Definition dedupOnCallNotifications (messages : list Message) : list Message * list string :=
  let '(toProcess, result) := splitPendingByType messages [MessageTypeScheduleOnCallUsers] in
  let '(kept, toDelete) := dedup_loop oncall_key ∅ (sort_slice newer toProcess) in
  (result ++ kept, toDelete).

Definition dedupStatusMessages (messages : list Message) : list Message * list string :=
  let '(toProcess, result) := splitPendingByType messages [MessageTypeAlertStatus] in
  let '(kept, toDelete) := dedup_loop status_key ∅ (sort_slice later_log toProcess) in
  (result ++ kept, toDelete).
End dedup.

(** ** Bundling *)

(** Appending to an entry of a map of slices. *)
Definition append_at {K V} `{Countable K} (k : K) (v : V) (m : gmap K (list V)) : gmap K (list V) :=
  <[k := default [] (m !! k) ++ [v]]> m.

Fixpoint alerts_loop (alerts : gmap (DestID * Z) string) (duplicates : gmap string (list string))
  (l : list Message) : list Message * gmap string (list string) :=
  match l with
  | [] => ([], duplicates)
  | msg :: l =>
      match alerts !! alert_key msg with
      | Some parentID => alerts_loop alerts (append_at parentID (mID msg) duplicates) l
      | None =>
          let '(kept, duplicates) := alerts_loop (<[alert_key msg := mID msg]> alerts) duplicates l in
          (msg :: kept, duplicates)
      end
  end.

(** Bundles first, then by creation time. *)
Definition typeOrder (m : Message) : Z :=
  if String.eqb (mType m) MessageTypeAlertBundle then 0 else 1.

Definition bundle_less (a b : Message) : bool :=
  if negb (String.eqb (mType a) (mType b)) then typeOrder a <? typeOrder b
  else Before (mCreatedAt a) (mCreatedAt b).

Definition group_by_key (l : list Message) : gmap (DestID * string) (list Message) :=
  fold_left (fun groups msg => append_at (bundle_key msg) msg groups) l ∅.

(** The first message of a group made into a bundle. *)
Definition as_bundle (m : Message) (bundleID : string) : Message :=
  mkMsg bundleID MessageTypeAlertBundle (mDestID m) (mDest m) 0 (mAlertLogID m) (mVerifyID m)
    (mUserID m) (mServiceID m) (mScheduleID m) (mCreatedAt m) (mSentAt m) (mStatusAlertIDs m).

Section bundle.
Context `{GoSort} `{GoMapRange}.
(** The state behind the callbacks; [None] is an error. *)
Context {S : Type}.
Context (newBundleFunc : Message -> S -> option (string * S)).
Context (bundleFunc : string -> list string -> S -> option S).

Fixpoint run_bundles (l : list (string * list string)) (s : S) : option S :=
  match l with
  | [] => Some s
  | (parentID, duplicateIDs) :: l => s ← bundleFunc parentID duplicateIDs s; run_bundles l s
  end.

Definition dedupAlerts (msgs : list Message) (s : S) : option (list Message * S) :=
  match msgs with
  | [] => Some (msgs, s)
  | _ =>
      let '(toProcess, result) := splitPendingByType msgs [MessageTypeAlert] in
      let '(kept, duplicates) := alerts_loop ∅ ∅ (sort_slice older toProcess) in
      s ← run_bundles (map_range duplicates) s;
      Some (result ++ kept, s)
  end.

(** One group; a group always has a message. *)
Definition bundle_group (msgs : list Message) (s : S) : option (list Message * S) :=
  match msgs with
  | [] => None
  | [msg] => Some ([msg], s)
  | m0 :: rest =>
      if negb (String.eqb (mType m0) MessageTypeAlertBundle) then
        '(bundleID, s) ← newBundleFunc m0 s;
        s ← bundleFunc bundleID (map mID msgs) s;
        Some ([as_bundle m0 bundleID], s)
      else
        s ← bundleFunc (mID m0) (map mID rest) s;
        Some ([m0], s)
  end.

Fixpoint bundle_loop (groups : list (DestID * string * list Message)) (s : S)
  : option (list Message * S) :=
  match groups with
  | [] => Some ([], s)
  | (_, msgs) :: groups =>
      '(out, s) ← bundle_group msgs s;
      '(rest, s) ← bundle_loop groups s;
      Some (out ++ rest, s)
  end.

Definition bundleAlertMessages (messages : list Message) (s : S) : option (list Message * S) :=
  let '(toProcess, result) :=
    splitPendingByType messages [MessageTypeAlert; MessageTypeAlertBundle] in
  let groups := group_by_key (sort_slice bundle_less toProcess) in
  '(out, s) ← bundle_loop (map_range groups) s;
  Some (result ++ out, s).
End bundle.

(** ** Splitting *)

Lemma split_filter ms types :
  splitPendingByType ms types =
    (List.filter (matches types) ms, List.filter (fun m => negb (matches types m)) ms).
Proof.
  induction ms as [|m ms IH]; cbn [splitPendingByType List.filter]; [done|]. rewrite IH. unfold matches.
  destruct (IsZero (mSentAt m)); cbn [negb andb]; [|done].
  by destruct (existsb (String.eqb (mType m)) types).
Qed.

Lemma filter_split_perm {A} (f : A -> bool) l :
  List.filter (fun x => negb (f x)) l ++ List.filter f l ≡ₚ l.
Proof.
  induction l as [|x l IH]; simpl; [done|]. destruct (f x); simpl; [|by constructor].
  by rewrite <- Permutation_middle, IH.
Qed.

Lemma filter_false {A} (f : A -> bool) l :
  List.filter f (List.filter (fun x => negb (f x)) l) = [].
Proof. induction l as [|x l IH]; simpl; [done|]. destruct (f x) eqn:E; simpl; [done|]. by rewrite E. Qed.

Lemma filter_true {A} (f : A -> bool) l : (forall x, x ∈ l -> f x = true) -> List.filter f l = l.
Proof.
  induction l as [|x l IH]; simpl; intros H; [done|]. rewrite H by left.
  f_equal. apply IH. intros; apply H. by right.
Qed.

Lemma NoDup_map_inj {A B} (f : A -> B) l x y :
  NoDup (map f l) -> x ∈ l -> y ∈ l -> f x = f y -> x = y.
Proof.
  induction l as [|z l IH]; cbn [map]; intros HN Hx Hy E; [by apply elem_of_nil in Hx|].
  apply NoDup_cons in HN as [Hz HN].
  assert (forall w, w ∈ l -> f z <> f w) as Hne.
  { intros w Hw E'. apply Hz. rewrite E'. by apply list_elem_of_fmap_2. }
  apply elem_of_cons in Hx as [->|Hx]; apply elem_of_cons in Hy as [->|Hy]; [done|..].
  - by destruct (Hne y Hy).
  - by destruct (Hne x Hx).
  - by apply IH.
Qed.

(** ** The loop that keeps the first of each key *)

Lemma dedup_loop_spec {K} `{Countable K} (key : Message -> K) (R : Message -> Message -> Prop) l :
  StronglySorted R l -> forall seen,
  exists kept dropped, dedup_loop key seen l = (kept, map mID dropped) /\
    kept ++ dropped ≡ₚ l /\ NoDup (map key kept) /\ (forall k, k ∈ kept -> key k ∉ seen) /\
    forall m, m ∈ dropped -> key m ∈ seen \/ exists k, k ∈ kept /\ key k = key m /\ R k m.
Proof.
  induction 1 as [|x l Hl IH Hx]; intros seen; cbn [dedup_loop].
  { exists [], []. split; [done|]. split; [done|]. split; [constructor|].
    split; intros m Hm; by apply elem_of_nil in Hm. }
  destruct (decide (key x ∈ seen)) as [Hs|Hs].
  - destruct (IH seen) as (kept & dropped & -> & HP & HN & HK & HD).
    exists kept, (x :: dropped). split; [done|]. split; [by rewrite <- Permutation_middle, HP|].
    split; [done|]. split; [done|]. intros m [->|Hm]%elem_of_cons; [by left|by apply HD].
  - destruct (IH ({[key x]} ∪ seen)) as (kept & dropped & -> & HP & HN & HK & HD).
    exists (x :: kept), dropped. split; [done|]. split; [simpl; by rewrite HP|].
    split; [|split].
    + cbn [map]. constructor; [|done]. intros (k & Hk & Hin)%list_elem_of_fmap.
      apply (HK k Hin). rewrite <- Hk. set_solver.
    + intros k [->|Hk]%elem_of_cons; [done|]. specialize (HK k Hk). set_solver.
    + intros m Hm. destruct (HD m Hm) as [Hin|(k & Hk & HE & HR)].
      * apply elem_of_union in Hin as [Hin%elem_of_singleton|Hin]; [|by left].
        right. exists x. split; [by left|]. split; [done|]. rewrite Forall_forall in Hx.
        apply Hx. rewrite <- HP. apply elem_of_app. by right.
      * right. exists k. split; [by right|done].
Qed.

(** ** What deduplication promises *)

(** The outcome of a deduplication: what is left, together with what was
    dropped, is the input; only pending messages of the type are dropped, each
    for one that is left, with the same key, and at least as good; and no two
    pending messages left share a key. *)
Definition superseded {K} (key : Message -> K) (better : Message -> Message -> Prop) (ty : string)
  (msgs result dropped : list Message) : Prop :=
  result ++ dropped ≡ₚ msgs /\
  (forall m, m ∈ dropped -> matches [ty] m = true /\
     exists k, k ∈ result /\ matches [ty] k = true /\ key k = key m /\ better k m) /\
  NoDup (map key (List.filter (matches [ty]) result)).

(** Keeping the first of each key, after a sort. *)
Lemma superseded_first {K} `{Countable K} (key : Message -> K) (R : Message -> Message -> Prop)
  ty msgs sorted kept dropped :
  sorted ≡ₚ List.filter (matches [ty]) msgs -> kept ++ dropped ≡ₚ sorted -> NoDup (map key kept) ->
  (forall m, m ∈ dropped -> exists k, k ∈ kept /\ key k = key m /\ R k m) ->
  superseded key R ty msgs
    (List.filter (fun m => negb (matches [ty] m)) msgs ++ kept) dropped.
Proof.
  intros HS HP HN HD.
  assert (forall m, m ∈ kept \/ m ∈ dropped -> matches [ty] m = true) as HM.
  { intros m Hm. assert (m ∈ List.filter (matches [ty]) msgs) as Hin.
    { rewrite <- HS, <- HP, elem_of_app. done. }
    by apply elem_of_filter_bool in Hin as [_ ?]. }
  split; [|split].
  - by rewrite <- app_assoc, HP, HS, filter_split_perm.
  - intros m Hm. split; [by apply HM; right|]. destruct (HD m Hm) as (k & Hk & HE & HR).
    exists k. split; [apply elem_of_app; by right|]. split; [by apply HM; left|done].
  - rewrite List.filter_app, filter_false, (filter_true _ kept); [done|]. intros m Hm. apply HM. by left.
Qed.

Section dedup_spec.
Context {HG : GoSort}.

Lemma dedup_superseded {K} `{Countable K} (key : Message -> K) (less : Message -> Message -> bool) ty msgs :
  strict_weak less ->
  exists kept dropped,
    dedup_loop key ∅ (sort_slice less (List.filter (matches [ty]) msgs)) = (kept, map mID dropped) /\
    superseded key (not_after less) ty msgs
      (List.filter (fun m => negb (matches [ty] m)) msgs ++ kept) dropped.
Proof.
  intros Hw. set (sorted := sort_slice less _).
  destruct (dedup_loop_spec key (not_after less) sorted (sort_slice_sorted _ _ Hw) ∅)
    as (kept & dropped & E & HP & HN & _ & HD).
  exists kept, dropped. split; [done|].
  apply (superseded_first key _ ty msgs sorted); [apply sort_slice_perm|done|done|].
  intros m Hm. destruct (HD m Hm) as [Hin|?]; [set_solver|done].
Qed.

Lemma strict_weak_newer : strict_weak newer.
Proof. split; unfold newer, After; intros *; rewrite ?Z.ltb_lt, ?Z.ltb_ge; lia. Qed.
Lemma strict_weak_older : strict_weak older.
Proof. split; unfold older, Before; intros *; rewrite ?Z.ltb_lt, ?Z.ltb_ge; lia. Qed.
Lemma strict_weak_later_log : strict_weak later_log.
Proof. split; unfold later_log; intros *; rewrite ?Z.ltb_lt, ?Z.ltb_ge; lia. Qed.

(** On-call notifications: exactly the pending ones that have a pending one
    for the same schedule and destination, created no earlier, are removed, and
    their ids are the ones to delete; one is left for each schedule and
    destination, and all other messages are untouched. *)
Theorem dedupOnCallNotifications_keeps_newest msgs result toDelete
  (E : dedupOnCallNotifications msgs = (result, toDelete)) :
  exists dropped, toDelete = map mID dropped /\
    superseded oncall_key (fun k m => inst (mCreatedAt m) <= inst (mCreatedAt k))
      MessageTypeScheduleOnCallUsers msgs result dropped.
Proof.
  unfold dedupOnCallNotifications in E. rewrite split_filter in E.
  destruct (dedup_superseded oncall_key newer MessageTypeScheduleOnCallUsers msgs strict_weak_newer)
    as (kept & dropped & EL & HS1 & HS2 & HS3).
  rewrite EL in E. injection E as <- <-. exists dropped. split; [done|]. split; [done|].
  split; [|done]. intros m Hm. destruct (HS2 m Hm) as (HM & k & Hk & HMk & HE & HR).
  split; [done|]. exists k. split; [done|]. split; [done|]. split; [done|].
  unfold not_after, newer, After in HR. by bprop.
Qed.

(** Status updates: of the pending ones for an alert and destination the one
    with the latest log entry is left. *)
Theorem dedupStatusMessages_keeps_latest msgs result toDelete
  (E : dedupStatusMessages msgs = (result, toDelete)) :
  exists dropped, toDelete = map mID dropped /\
    superseded status_key (fun k m => mAlertLogID m <= mAlertLogID k)
      MessageTypeAlertStatus msgs result dropped.
Proof.
  unfold dedupStatusMessages in E. rewrite split_filter in E.
  destruct (dedup_superseded status_key later_log MessageTypeAlertStatus msgs strict_weak_later_log)
    as (kept & dropped & EL & HS1 & HS2 & HS3).
  rewrite EL in E. injection E as <- <-. exists dropped. split; [done|]. split; [done|].
  split; [|done]. intros m Hm. destruct (HS2 m Hm) as (HM & k & Hk & HMk & HE & HR).
  split; [done|]. exists k. split; [done|]. split; [done|]. split; [done|].
  unfold not_after, later_log in HR. by bprop.
Qed.
End dedup_spec.

(** ** Duplicate alerts *)

Lemma append_at_lookup {K V} `{Countable K} (k k' : K) (v : V) (m : gmap K (list V)) :
  append_at k v m !! k' = if decide (k' = k) then Some (default [] (m !! k) ++ [v]) else m !! k'.
Proof.
  unfold append_at. destruct (decide (k' = k)) as [->|Hne]; [by rewrite lookup_insert_eq|].
  by rewrite lookup_insert_ne.
Qed.

(** The ids listed under a parent. *)
Definition listed (duplicates : gmap string (list string)) (parentID id : string) : Prop :=
  exists ids, duplicates !! parentID = Some ids /\ id ∈ ids.

Lemma listed_append parentID id duplicates p i :
  listed (append_at parentID id duplicates) p i <->
  listed duplicates p i \/ (p = parentID /\ i = id).
Proof.
  unfold listed. rewrite append_at_lookup. destruct (decide (p = parentID)) as [->|Hne].
  - split.
    + intros (ids & [= <-] & Hin). apply elem_of_app in Hin as [Hin|Hin%list_elem_of_singleton]; [|by right].
      destruct (duplicates !! parentID) as [ids|]; [left; by exists ids|by apply elem_of_nil in Hin].
    + intros [(ids & E & Hin)|[_ ->]]; eexists; (split; [reflexivity|]); apply elem_of_app.
      * left. by rewrite E.
      * right. by left.
  - split; [by left|]. intros [?|[? _]]; done.
Qed.

(** The message a dropped one is bundled into: what the map has for its key,
    else the first with the key. *)
Definition parent_of (alerts : gmap (DestID * Z) string) (kept : list Message)
  (R : Message -> Message -> Prop) (m : Message) (p : string) : Prop :=
  match alerts !! alert_key m with
  | Some p' => p = p'
  | None => exists k, k ∈ kept /\ alert_key k = alert_key m /\ R k m /\ p = mID k
  end.

Lemma alerts_loop_spec R l : StronglySorted R l -> forall alerts duplicates,
  exists kept dropped duplicates', alerts_loop alerts duplicates l = (kept, duplicates') /\
    kept ++ dropped ≡ₚ l /\ NoDup (map alert_key kept) /\
    (forall k, k ∈ kept -> alerts !! alert_key k = None) /\
    (forall m, m ∈ dropped -> exists p, parent_of alerts kept R m p) /\
    forall p id, listed duplicates' p id <-> listed duplicates p id \/
      exists m, m ∈ dropped /\ mID m = id /\ parent_of alerts kept R m p.
Proof.
  induction 1 as [|x l Hl IH Hx]; intros alerts duplicates; cbn [alerts_loop].
  { exists [], [], duplicates. split; [done|]. split; [done|]. split; [constructor|].
    split; [by intros k Hk%elem_of_nil|]. split; [by intros k Hk%elem_of_nil|].
    intros p id. split; [by left|]. intros [?|(m & Hm%elem_of_nil & _)]; done. }
  destruct (alerts !! alert_key x) as [px|] eqn:EX.
  - destruct (IH alerts (append_at px (mID x) duplicates))
      as (kept & dropped & duplicates' & -> & HP & HN & HK & HD & HL).
    exists kept, (x :: dropped), duplicates'. split; [done|].
    split; [by rewrite <- Permutation_middle, HP|]. split; [done|]. split; [done|]. split.
    + intros m [->|Hm]%elem_of_cons; [|by apply HD]. exists px. unfold parent_of. by rewrite EX.
    + intros p id. rewrite HL, listed_append. split.
      * intros [[?|[-> ->]]|(m & Hm & H)]; [by left|right; exists x|right; exists m; split; [by right|done]].
        split; [by left|]. split; [done|]. unfold parent_of. by rewrite EX.
      * intros [?|(m & [->|Hm]%elem_of_cons & <- & Hp)]; [by left; left| |right; by exists m].
        unfold parent_of in Hp. rewrite EX in Hp. left. right. done.
  - destruct (IH (<[alert_key x := mID x]> alerts) duplicates)
      as (kept & dropped & duplicates' & -> & HP & HN & HK & HD & HL).
    exists (x :: kept), dropped, duplicates'. split; [done|]. split; [simpl; by rewrite HP|].
    assert (forall k, k ∈ kept -> alert_key k <> alert_key x /\ alerts !! alert_key k = None) as HK'.
    { intros k Hk. by specialize (HK k Hk) as [? ?]%lookup_insert_None. }
    assert (forall m, m ∈ dropped -> forall p,
      parent_of (<[alert_key x := mID x]> alerts) kept R m p <-> parent_of alerts (x :: kept) R m p) as HPO.
    { intros m Hm p. unfold parent_of. destruct (decide (alert_key m = alert_key x)) as [->|Hne].
      - rewrite lookup_insert_eq, EX. split.
        + intros ->. exists x. split; [by left|]. split; [done|]. split; [|done].
          rewrite Forall_forall in Hx. apply Hx. rewrite <- HP, elem_of_app. by right.
        + intros (k & [->|Hk]%elem_of_cons & HE & _ & ->); [done|]. by destruct (HK' k Hk) as [? _].
      - rewrite lookup_insert_ne by done. destruct (alerts !! alert_key m); [done|].
        split; intros (k & Hk & HE & H); exists k; (split; [|done]); [by right|].
        apply elem_of_cons in Hk as [->|Hk]; [congruence|done]. }
    split; [|split; [|split]].
    + cbn [map]. constructor; [|done]. intros (k & Hk & Hin)%list_elem_of_fmap.
      by destruct (HK' k Hin).
    + intros k [->|Hk]%elem_of_cons; [done|by apply HK'].
    + intros m Hm. destruct (HD m Hm) as [p Hp]. exists p. by apply HPO.
    + intros p id. rewrite HL. split; (intros [?|(m & Hm & Hid & Hp)]; [by left|right; exists m]);
        (split; [done|]; split; [done|]; by apply HPO).
Qed.

(** Duplicate alert notifications: of the pending ones for an alert and a
    destination the oldest is left, and the calls that record the others name
    exactly those, each under the one that is left. *)
Theorem dedupAlerts_bundles_into_oldest {HG : GoSort} {HM : GoMapRange} {S}
  (bundleFunc : string -> list string -> S -> option S) msgs s result s'
  (E : dedupAlerts bundleFunc msgs s = Some (result, s')) :
  exists dropped calls, run_bundles bundleFunc calls s = Some s' /\
    superseded alert_key (fun k m => inst (mCreatedAt k) <= inst (mCreatedAt m))
      MessageTypeAlert msgs result dropped /\
    forall p id, ex_in (fun c => c.1 = p /\ id ∈ c.2) calls <->
      exists m k, m ∈ dropped /\ mID m = id /\ k ∈ result /\ mID k = p /\
        matches [MessageTypeAlert] k = true /\ alert_key k = alert_key m.
Proof.
  assert (msgs = [] \/ msgs <> []) as [->|Hne] by (destruct msgs; auto).
  { injection E as <- <-. exists [], []. split; [done|]. split.
    - split; [done|]. split; [by intros m Hm%elem_of_nil|constructor].
    - intros p id. split; [by intros []%ex_in_nil|by intros (m & k & Hm%elem_of_nil & _)]. }
  unfold dedupAlerts in E. destruct msgs as [|m0 ms]; [done|]. set (msgs := m0 :: ms) in *. clearbody msgs.
  rewrite split_filter in E. set (sorted := sort_slice older _) in *.
  set (R := not_after older).
  destruct (alerts_loop_spec R sorted (sort_slice_sorted _ _ strict_weak_older) ∅ ∅)
    as (kept & dropped & duplicates & EL & HP & HN & _ & HD & HL).
  rewrite EL in E. destruct (run_bundles bundleFunc (map_range duplicates) s) as [s1|] eqn:ER; [|done].
  injection E as <- <-. exists dropped, (map_range duplicates). split; [done|].
  assert (superseded alert_key R MessageTypeAlert msgs
    (List.filter (fun m => negb (matches [MessageTypeAlert] m)) msgs ++ kept) dropped) as HS.
  { apply (superseded_first alert_key R _ msgs sorted); [apply sort_slice_perm|done|done|].
    intros m Hm. destruct (HD m Hm) as [p Hp]. unfold parent_of in Hp. rewrite lookup_empty in Hp.
    destruct Hp as (k & Hk & HE & HR & _). by exists k. }
  destruct HS as (HS1 & HS2 & HS3). split.
  - split; [done|]. split; [|done]. intros m Hm. destruct (HS2 m Hm) as (Hty & k & Hk & HMk & HE & HR).
    split; [done|]. exists k. split; [done|]. split; [done|]. split; [done|].
    unfold R, not_after, older, Before in HR. by bprop.
  - assert (forall k, k ∈ kept -> matches [MessageTypeAlert] k = true) as HMK.
    { intros k Hk. assert (k ∈ sorted) as Hin by (rewrite <- HP, elem_of_app; by left).
      unfold sorted in Hin. rewrite sort_slice_perm in Hin. by apply elem_of_filter_bool in Hin as [_ ?]. }
    assert (forall m k, m ∈ dropped -> k ∈ List.filter (fun m => negb (matches [MessageTypeAlert] m)) msgs ++ kept ->
      matches [MessageTypeAlert] k = true -> alert_key k = alert_key m -> k ∈ kept) as HKK.
    { intros m k _ Hk HMk _. apply elem_of_app in Hk as [Hk|Hk]; [|done].
      apply elem_of_filter_bool in Hk as [_ Hk]. by rewrite HMk in Hk. }
    intros p id. transitivity (listed duplicates p id).
    { unfold ex_in, listed. split.
      - intros ([p' ids] & Hin & <- & Hid). rewrite map_range_perm in Hin. apply elem_of_map_to_list in Hin.
        by exists ids.
      - intros (ids & Hin & Hid). exists (p, ids). split; [|done].
        rewrite map_range_perm. by apply elem_of_map_to_list. }
    rewrite HL. split.
    + intros [(ids & E & _)|(m & Hm & Hid & Hp)]; [by rewrite lookup_empty in E|].
      unfold parent_of in Hp. rewrite lookup_empty in Hp. destruct Hp as (k & Hk & HE & _ & ->).
      exists m, k. split; [done|]. split; [done|]. split; [apply elem_of_app; by right|].
      split; [done|]. split; [by apply HMK|done].
    + intros (m & k & Hm & Hid & Hk & Hp & HMk & HE). right. exists m. split; [done|]. split; [done|].
      unfold parent_of. rewrite lookup_empty. exists k. pose proof (HKK m k Hm Hk HMk HE) as Hkk.
      split; [done|]. split; [done|]. split; [|done].
      destruct (HD m Hm) as [p' Hp']. unfold parent_of in Hp'. rewrite lookup_empty in Hp'.
      destruct Hp' as (k' & Hk' & HE' & HR & _).
      assert (k = k') as ->; [|done].
      apply (NoDup_map_inj alert_key kept); [done|done|done|congruence].
Qed.

(** ** What is left is part of the input *)

Lemma dedupOnCallNotifications_sub {HG : GoSort} msgs :
  exists dropped, (dedupOnCallNotifications msgs).1 ++ dropped ≡ₚ msgs.
Proof.
  unfold dedupOnCallNotifications. rewrite split_filter.
  destruct (dedup_superseded oncall_key newer MessageTypeScheduleOnCallUsers msgs strict_weak_newer)
    as (kept & dropped & -> & HP & _). by exists dropped.
Qed.

Lemma dedupStatusMessages_sub {HG : GoSort} msgs :
  exists dropped, (dedupStatusMessages msgs).1 ++ dropped ≡ₚ msgs.
Proof.
  unfold dedupStatusMessages. rewrite split_filter.
  destruct (dedup_superseded status_key later_log MessageTypeAlertStatus msgs strict_weak_later_log)
    as (kept & dropped & -> & HP & _). by exists dropped.
Qed.

Lemma dedupAlerts_sub {HG : GoSort} {HM : GoMapRange} {S}
  (bundleFunc : string -> list string -> S -> option S) msgs s result s' :
  dedupAlerts bundleFunc msgs s = Some (result, s') ->
  (exists dropped, result ++ dropped ≡ₚ msgs) /\
  exists calls, run_bundles bundleFunc calls s = Some s'.
Proof.
  unfold dedupAlerts. destruct msgs as [|m0 ms]; [intros [= <- <-]; split; [by exists []|by exists []]|].
  set (msgs := m0 :: ms). clearbody msgs. rewrite split_filter. set (sorted := sort_slice older _).
  destruct (alerts_loop_spec (not_after older) sorted (sort_slice_sorted _ _ strict_weak_older) ∅ ∅)
    as (kept & dropped & duplicates & -> & HP & _).
  destruct (run_bundles bundleFunc (map_range duplicates) s) as [s1|] eqn:ER; [|done].
  intros [= <- <-]. split; [|by exists (map_range duplicates)]. exists dropped.
  rewrite <- app_assoc, HP. unfold sorted. rewrite sort_slice_perm. apply filter_split_perm.
Qed.

(** ** Bundles *)

Definition alert_types : list string := [MessageTypeAlert; MessageTypeAlertBundle].

(** A call of one of the callbacks, with the id [newBundleFunc] returned. *)
Inductive call :=
  | CNew (m : Message) (bundleID : string)
  | CBundle (bundleID : string) (ids : list string).

Lemma group_by_key_lookup l k :
  group_by_key l !! k =
    match List.filter (fun m => bool_decide (bundle_key m = k)) l with [] => None | g => Some g end.
Proof.
  unfold group_by_key.
  assert (forall groups : gmap (DestID * string) (list Message),
    fold_left (fun groups msg => append_at (bundle_key msg) msg groups) l groups !! k =
    match default [] (groups !! k) ++ List.filter (fun m => bool_decide (bundle_key m = k)) l with
    | [] => groups !! k | g => Some g end) as H.
  { induction l as [|m l IH]; intros groups; cbn [fold_left List.filter].
    { rewrite app_nil_r. by destruct (groups !! k) as [[|]|]. }
    rewrite IH, append_at_lookup. destruct (decide (k = bundle_key m)) as [->|Hne].
    - rewrite bool_decide_true by done. cbn [from_option]. unfold id. rewrite <- app_assoc. simpl.
      by destruct (groups !! bundle_key m) as [[|? ?]|].
    - rewrite bool_decide_false by congruence. done. }
  rewrite H, lookup_empty. done.
Qed.

Lemma matches_alert_type m : matches alert_types m = true ->
  mType m = MessageTypeAlert \/ mType m = MessageTypeAlertBundle.
Proof.
  unfold matches, alert_types. intros [_ H]%andb_true_iff. simpl in H.
  apply orb_true_iff in H as [H|H]; [left|right; apply orb_true_iff in H as [H|H]; [|done]];
    by apply String.eqb_eq in H.
Qed.

(** On alerts and bundles the comparison is the lexicographic one. *)
Lemma bundle_less_lex a b : matches alert_types a = true -> matches alert_types b = true ->
  bundle_less a b = (typeOrder a <? typeOrder b) ||
    ((typeOrder a =? typeOrder b) && (inst (mCreatedAt a) <? inst (mCreatedAt b))).
Proof.
  intros [Ha|Ha]%matches_alert_type [Hb|Hb]%matches_alert_type;
    unfold bundle_less, typeOrder, Before; rewrite Ha, Hb; reflexivity.
Qed.

Lemma bundle_less_strict_weak : strict_weak_on (fun m => matches alert_types m = true) bundle_less.
Proof.
  split.
  - intros x y Hx Hy. rewrite !bundle_less_lex by done. lia.
  - intros x y z Hx Hy Hz. rewrite !bundle_less_lex by done. lia.
Qed.

(** What one message left stands for: [G] are the pending messages of its key. *)
Record stands_for (G : Message -> Prop) (calls : list call) (m' : Message) : Prop := {
  (** it is one of them, or the bundle made from one *)
  sf_origin : G m' \/ exists m0 id, G m0 /\ CNew m0 id ∈ calls /\ m' = as_bundle m0 id;
  (** every other one is recorded under it *)
  sf_complete : forall m, G m ->
    m' = m \/ exists ids, CBundle (mID m') ids ∈ calls /\ mID m ∈ ids;
  (** nothing else is, and only under a bundle *)
  sf_sound : forall p ids, CBundle p ids ∈ calls ->
    p = mID m' /\ mType m' = MessageTypeAlertBundle /\
    forall id, id ∈ ids -> exists m, G m /\ mID m = id;
  (** a new bundle is made only where there is none *)
  sf_new : forall m0 id, CNew m0 id ∈ calls -> forall m, G m -> mType m <> MessageTypeAlertBundle }.

Section bundle_spec.
Context {HG : GoSort} {HR : GoMapRange} {S : Type}.
Context (newBundleFunc : Message -> S -> option (string * S)).
Context (bundleFunc : string -> list string -> S -> option S).

(** The calls, in order, take one state to the other without an error. *)
Fixpoint calls_run (calls : list call) (s : S) : option S :=
  match calls with
  | [] => Some s
  | CNew m id :: calls =>
      '(id', s) ← newBundleFunc m s;
      if String.eqb id' id then calls_run calls s else None
  | CBundle id ids :: calls => s ← bundleFunc id ids s; calls_run calls s
  end.

Lemma calls_run_app c1 c2 s s1 : calls_run c1 s = Some s1 -> calls_run (c1 ++ c2) s = calls_run c2 s1.
Proof.
  revert s. induction c1 as [|[m id|id ids] c1 IH]; intros s; cbn [calls_run app].
  - by intros [= ->].
  - destruct (newBundleFunc m s) as [[id' s']|]; [|done]. cbn [mbind option_bind].
    destruct (String.eqb id' id); [|done]. apply IH.
  - destruct (bundleFunc id ids s) as [s'|]; [|done]. cbn [mbind option_bind]. apply IH.
Qed.

Lemma bundle_group_spec g s out s' :
  StronglySorted (not_after bundle_less) g -> Forall (fun m => matches alert_types m = true) g ->
  bundle_group newBundleFunc bundleFunc g s = Some (out, s') ->
  exists m' m0 calls, out = [m'] /\ m0 ∈ g /\ bundle_key m' = bundle_key m0 /\
    calls_run calls s = Some s' /\ stands_for (fun m => m ∈ g) calls m'.
Proof.
  intros HS HM E. destruct g as [|m0 [|m1 g]]; [done| |].
  - injection E as <- <-. exists m0, m0, []. split; [done|]. split; [by left|]. split; [done|].
    split; [done|]. constructor.
    + left. by left.
    + intros m ->%list_elem_of_singleton. by left.
    + by intros p ids H%elem_of_nil.
    + by intros m id H%elem_of_nil.
  - set (rest := m1 :: g) in *. change (bundle_group newBundleFunc bundleFunc (m0 :: rest) s) with
      (if negb (String.eqb (mType m0) MessageTypeAlertBundle) then
        '(bundleID, s) ← newBundleFunc m0 s;
        s ← bundleFunc bundleID (map mID (m0 :: rest)) s;
        Some ([as_bundle m0 bundleID], s)
      else
        s ← bundleFunc (mID m0) (map mID rest) s;
        Some ([m0], s)) in E.
    destruct (String.eqb (mType m0) MessageTypeAlertBundle) eqn:ET; cbn [negb] in E.
    + apply String.eqb_eq in ET. destruct (bundleFunc (mID m0) (map mID rest) s) as [s1|] eqn:EB; [|done].
      injection E as <- <-. exists m0, m0, [CBundle (mID m0) (map mID rest)].
      split; [done|]. split; [by left|]. split; [done|]. split; [cbn [calls_run]; by rewrite EB|].
      constructor.
      * left. by left.
      * intros m [->|Hm]%elem_of_cons; [by left|right]. exists (map mID rest). split; [by left|].
        by apply list_elem_of_fmap_2.
      * intros p ids [= -> ->]%list_elem_of_singleton. split; [done|]. split; [done|].
        intros id Hid. apply (list_elem_of_fmap mID rest) in Hid as (m & -> & Hm).
        exists m. split; [by right|done].
      * by intros m id ?%list_elem_of_singleton.
    + destruct (newBundleFunc m0 s) as [[id s1]|] eqn:EN; [|done]. cbn [mbind option_bind] in E.
      destruct (bundleFunc id (map mID (m0 :: rest)) s1) as [s2|] eqn:EB; [|done].
      injection E as <- <-. exists (as_bundle m0 id), m0, [CNew m0 id; CBundle id (map mID (m0 :: rest))].
      split; [done|]. split; [by left|]. split; [done|]. split.
      { cbn [calls_run]. rewrite EN. cbn [mbind option_bind]. rewrite String.eqb_refl, EB. done. }
      constructor.
      * right. exists m0, id. split; [by left|]. split; [by left|done].
      * intros m Hm. right. exists (map mID (m0 :: rest)). split; [right; by left|].
        by apply list_elem_of_fmap_2.
      * intros p ids [?|[= -> ->]%list_elem_of_singleton]%elem_of_cons; [done|]. split; [done|].
        split; [done|]. intros id' Hid. apply (list_elem_of_fmap mID (m0 :: rest)) in Hid as (m & -> & Hm).
        by exists m.
      * intros mm id' _ m Hm HT. apply elem_of_cons in Hm as [->|Hm].
        { by rewrite HT, String.eqb_refl in ET. }
        apply StronglySorted_inv in HS as [_ HS]. rewrite Forall_forall in HS.
        specialize (HS m Hm). rewrite Forall_forall in HM.
        unfold not_after in HS. rewrite bundle_less_lex in HS by (apply HM; first [by left|by right]).
        unfold typeOrder in HS. rewrite HT, ET in HS. simpl in HS. done.
Qed.

Lemma bundle_loop_spec groups s out s' :
  Forall (fun kg => StronglySorted (not_after bundle_less) kg.2 /\
    Forall (fun m => matches alert_types m = true /\ bundle_key m = kg.1) kg.2) groups ->
  bundle_loop newBundleFunc bundleFunc groups s = Some (out, s') ->
  exists callss, calls_run (concat callss) s = Some s' /\ map bundle_key out = map fst groups /\
    length callss = length groups /\
    Forall2 (fun m' kgc => stands_for (fun m => m ∈ kgc.1.2) kgc.2 m') out (zip groups callss).
Proof.
  intros HF. revert s out. induction HF as [|[k g] groups [HS HM] HF IH]; intros s out E; cbn [bundle_loop] in E.
  { injection E as <- <-. exists []. split; [done|]. split; [done|]. split; [done|constructor]. }
  cbn [fst snd] in *. destruct (bundle_group newBundleFunc bundleFunc g s) as [[o s1]|] eqn:EG; [|done].
  cbn [mbind option_bind] in E.
  destruct (bundle_loop newBundleFunc bundleFunc groups s1) as [[out' s2]|] eqn:EL; [|done].
  injection E as <- <-.
  destruct (bundle_group_spec g s o s1 HS) as (m' & m0 & calls & -> & H0 & HK & HC & HSF); [|done|].
  { eapply Forall_impl; [exact HM|]. by intros m [? _]. }
  destruct (IH s1 out' EL) as (callss & HCC & HKK & HLL & HFF).
  exists (calls :: callss). split; [|split; [|split]].
  - cbn [concat]. by rewrite (calls_run_app _ _ _ s1).
  - cbn [map app fst]. f_equal; [|done]. rewrite HK. rewrite Forall_forall in HM. by apply HM.
  - simpl. by rewrite HLL.
  - cbn [zip zip_with app]. by constructor.
Qed.

End bundle_spec.

(** The groups partition the pending messages by key. *)
Lemma groups_spec {HG : GoSort} {HR : GoMapRange} msgs k g :
  (k, g) ∈ map_range (group_by_key (sort_slice bundle_less (List.filter (matches alert_types) msgs))) ->
  StronglySorted (not_after bundle_less) g /\ g <> [] /\
  forall m, m ∈ g <-> m ∈ msgs /\ matches alert_types m = true /\ bundle_key m = k.
Proof.
  rewrite map_range_perm, elem_of_map_to_list, group_by_key_lookup.
  set (l := sort_slice bundle_less _).
  assert (forall m, m ∈ l <-> m ∈ msgs /\ matches alert_types m = true) as Hl.
  { intros m. unfold l. by rewrite sort_slice_perm, elem_of_filter_bool. }
  assert (StronglySorted (not_after bundle_less) l) as HS.
  { apply sort_slice_sorted_on. destruct bundle_less_strict_weak as [H1 H2].
    split; intros *; rewrite ?elem_of_filter_bool; intuition eauto. }
  intros E. assert (g = List.filter (fun m => bool_decide (bundle_key m = k)) l /\ g <> []) as [-> Hne].
  { destruct (List.filter _ l); [done|]. by injection E as <-. }
  split; [by apply sorted_filter|]. split; [done|]. intros m.
  rewrite elem_of_filter_bool, Hl, bool_decide_eq_true. tauto.
Qed.

Lemma groups_complete {HG : GoSort} {HR : GoMapRange} msgs m :
  m ∈ msgs -> matches alert_types m = true ->
  exists g, (bundle_key m, g) ∈
    map_range (group_by_key (sort_slice bundle_less (List.filter (matches alert_types) msgs))).
Proof.
  intros Hm HM. setoid_rewrite map_range_perm. setoid_rewrite elem_of_map_to_list.
  setoid_rewrite group_by_key_lookup.
  destruct (List.filter _ _) as [|x g] eqn:E; [|by eexists].
  assert (m ∈ @nil Message) as ?%elem_of_nil; [|done]. rewrite <- E, elem_of_filter_bool, sort_slice_perm.
  rewrite elem_of_filter_bool, bool_decide_eq_true. done.
Qed.

Lemma stands_for_iff (G G' : Message -> Prop) calls m' :
  (forall m, G m <-> G' m) -> stands_for G calls m' -> stands_for G' calls m'.
Proof.
  intros HE [H1 H2 H3 H4]. constructor.
  - destruct H1 as [H1|(m0 & id & H1 & H)]; [left; by apply HE|right; exists m0, id; by rewrite <- HE].
  - intros m Hm. by apply H2, HE.
  - intros p ids Hc. destruct (H3 p ids Hc) as (-> & HT & Hids). split; [done|]. split; [done|].
    intros id Hid. destruct (Hids id Hid) as (m & Hm & <-). exists m. by rewrite <- HE.
  - intros m0 id Hc m Hm. by apply (H4 m0 id Hc), HE.
Qed.

Lemma stands_for_groups (P : DestID * string -> Message -> Prop)
  (groups : list (DestID * string * list Message)) callss out :
  map bundle_key out = map fst groups ->
  Forall2 (fun m' kgc => stands_for (fun m => m ∈ kgc.1.2) kgc.2 m') out (zip groups callss) ->
  length callss = length groups ->
  (forall k g, (k, g) ∈ groups -> forall m, m ∈ g <-> P k m) ->
  Forall2 (fun calls m' => stands_for (P (bundle_key m')) calls m') callss out.
Proof.
  revert callss out. induction groups as [|[k g] groups IH]; intros [|c callss] [|m' out]; try done.
  cbn [map zip zip_with fst length]. intros [= HK HKK] HF [= HL] HP. inversion HF as [|? ? ? ? HS HF']; subst.
  constructor; [|apply IH; auto]; [|intros k' g' Hin; apply HP; by right].
  apply (stands_for_iff (fun m => m ∈ g)); [|done]. intros m. apply HP. by left.
Qed.

Lemma bundleAlertMessages_spec {HG : GoSort} {HR : GoMapRange} {S : Type}
  (newBundleFunc : Message -> S -> option (string * S))
  (bundleFunc : string -> list string -> S -> option S) msgs s result s'
  (E : bundleAlertMessages newBundleFunc bundleFunc msgs s = Some (result, s')) :
  exists out callss,
    result = List.filter (fun m => negb (matches alert_types m)) msgs ++ out /\
    calls_run newBundleFunc bundleFunc (concat callss) s = Some s' /\
    NoDup (map bundle_key out) /\
    (forall m, m ∈ msgs -> matches alert_types m = true ->
      exists m', m' ∈ out /\ bundle_key m' = bundle_key m) /\
    Forall2 (fun calls m' => stands_for
      (fun m => m ∈ msgs /\ matches alert_types m = true /\ bundle_key m = bundle_key m') calls m')
      callss out.
Proof.
  unfold bundleAlertMessages in E. rewrite split_filter in E. fold alert_types in E.
  set (sorted := sort_slice bundle_less _) in E. set (groups := group_by_key sorted) in E.
  destruct (bundle_loop newBundleFunc bundleFunc (map_range groups) s) as [[out s1]|] eqn:EL; [|done].
  injection E as <- <-.
  destruct (bundle_loop_spec newBundleFunc bundleFunc (map_range groups) s out s1)
    as (callss & HC & HK & HL & HF); [|done|].
  { apply Forall_forall. intros [k g] Hg. destruct (groups_spec msgs k g Hg) as (HS & _ & Hm).
    split; [done|]. apply Forall_forall. intros m [_ ?]%Hm. done. }
  exists out, callss. split; [done|]. split; [done|].
  assert (NoDup (map fst (map_range groups))) as HN.
  { rewrite map_range_perm. apply NoDup_fst_map_to_list. }
  split; [by rewrite HK|]. split.
  - intros m Hm HM. destruct (groups_complete msgs m Hm HM) as [g Hg].
    assert (bundle_key m ∈ map bundle_key out) as (m' & HE & Hin)%list_elem_of_fmap; [|by exists m'].
    rewrite HK. apply list_elem_of_fmap. by exists (bundle_key m, g).
  - apply (stands_for_groups (fun k m => m ∈ msgs /\ matches alert_types m = true /\ bundle_key m = k)
      (map_range groups)); [done|done|done|]. intros k g Hg. by apply groups_spec.
Qed.

(** Bundling: the messages left are those that are neither pending alerts nor
    pending bundles, and one for every destination and service that has any.
    That one is a pending message itself or a bundle just made from one, which
    happens only where there is no bundle; the calls that record the others name
    every other pending message of the key under the one left, and nothing
    else. *)
Theorem bundleAlertMessages_one_per_service {HG : GoSort} {HR : GoMapRange} {S : Type}
  (newBundleFunc : Message -> S -> option (string * S))
  (bundleFunc : string -> list string -> S -> option S) msgs s result s'
  (E : bundleAlertMessages newBundleFunc bundleFunc msgs s = Some (result, s')) :
  exists out callss,
    result = List.filter (fun m => negb (matches alert_types m)) msgs ++ out /\
    calls_run newBundleFunc bundleFunc (concat callss) s = Some s' /\
    NoDup (map bundle_key out) /\
    (forall m, m ∈ msgs -> matches alert_types m = true ->
      exists m', m' ∈ out /\ bundle_key m' = bundle_key m) /\
    Forall2 (fun calls m' => stands_for
      (fun m => m ∈ msgs /\ matches alert_types m = true /\ bundle_key m = bundle_key m') calls m')
      callss out.
Proof. by apply bundleAlertMessages_spec. Qed.

(** ** Concrete runs *)

Definition sample_dest : DestID := mkDestID (Some "cm1") None.

(** Two alerts of one service, three notifications: one alert twice. *)
Definition sample_msg (id ty : string) (alert created log : Z) : Message :=
  mkMsg id ty sample_dest (mkDest ∅ "builtin-twilio-sms") alert log "" "user1" "svc1" "sched1"
    (mkTime created UTC) zeroTime [].

Definition sample_alerts : list Message :=
  [sample_msg "a" MessageTypeAlert 1 20 0; sample_msg "b" MessageTypeAlert 1 10 0;
   sample_msg "c" MessageTypeAlert 2 30 0].

(** The callbacks log their calls; new bundles are called "new". *)
Definition log_bundle (id : string) (ids : list string) (s : list (string * list string)) :=
  Some (s ++ [(id, ids)]).
Definition log_new (m : Message) (s : list (string * list string)) : option (string * list (string * list string)) :=
  Some ("new"%string, s).

Lemma dedupOnCallNotifications_keeps_newest_witness :
  exists dropped, ["b"%string] = map mID dropped /\
    superseded oncall_key (fun k m => inst (mCreatedAt m) <= inst (mCreatedAt k))
      MessageTypeScheduleOnCallUsers
      [sample_msg "b" MessageTypeScheduleOnCallUsers 0 10 0; sample_msg "a" MessageTypeScheduleOnCallUsers 0 20 0]
      [sample_msg "a" MessageTypeScheduleOnCallUsers 0 20 0] dropped.
Proof.
  apply (@dedupOnCallNotifications_keeps_newest stable_go_sort). vm_compute. reflexivity.
Defined.

Lemma dedupStatusMessages_keeps_latest_witness :
  exists dropped, ["b"%string] = map mID dropped /\
    superseded status_key (fun k m => mAlertLogID m <= mAlertLogID k) MessageTypeAlertStatus
      [sample_msg "b" MessageTypeAlertStatus 1 10 7; sample_msg "a" MessageTypeAlertStatus 1 5 8]
      [sample_msg "a" MessageTypeAlertStatus 1 5 8] dropped.
Proof.
  apply (@dedupStatusMessages_keeps_latest stable_go_sort). vm_compute. reflexivity.
Defined.

Lemma dedupAlerts_bundles_into_oldest_witness :
  exists dropped calls, run_bundles log_bundle calls [] = Some [("b"%string, ["a"%string])] /\
    superseded alert_key (fun k m => inst (mCreatedAt k) <= inst (mCreatedAt m))
      MessageTypeAlert sample_alerts
      [sample_msg "b" MessageTypeAlert 1 10 0; sample_msg "c" MessageTypeAlert 2 30 0] dropped /\
    forall p id, ex_in (fun c => c.1 = p /\ id ∈ c.2) calls <->
      exists m k, m ∈ dropped /\ mID m = id /\
        k ∈ [sample_msg "b" MessageTypeAlert 1 10 0; sample_msg "c" MessageTypeAlert 2 30 0] /\ mID k = p /\
        matches [MessageTypeAlert] k = true /\ alert_key k = alert_key m.
Proof.
  apply (@dedupAlerts_bundles_into_oldest stable_go_sort ordered_map_range _ log_bundle sample_alerts []).
  vm_compute. reflexivity.
Defined.

Lemma bundleAlertMessages_one_per_service_witness :
  exists out callss,
    [as_bundle (sample_msg "b" MessageTypeAlert 1 10 0) "new"] =
      List.filter (fun m => negb (matches alert_types m)) sample_alerts ++ out /\
    calls_run log_new log_bundle (concat callss) [] = Some [("new"%string, ["b"; "a"; "c"]%string)] /\
    NoDup (map bundle_key out) /\
    (forall m, m ∈ sample_alerts -> matches alert_types m = true ->
      exists m', m' ∈ out /\ bundle_key m' = bundle_key m) /\
    Forall2 (fun calls m' => stands_for
      (fun m => m ∈ sample_alerts /\ matches alert_types m = true /\ bundle_key m = bundle_key m') calls m')
      callss out.
Proof.
  apply (@bundleAlertMessages_one_per_service stable_go_sort ordered_map_range). vm_compute. reflexivity.
Defined.
