(* ===== verification/Throttle.v ===== *)
(** * Rate limits: [engine/message/throttlerule.go],
      [throttleconfigbuilder.go], [ratelimit.go], [throttle.go]

    A rule allows [Count] messages per [Per] to a destination.  [Record] counts
    the sent messages per destination and duration and puts a destination in
    cooldown when a rule is used up.  The hash of a destination is a parameter:
    the code uses SHA-256 (of its JSON encoding, or of its type). *)

From S2P Require Import Prelude GoTime Dest Messages.

(** ** Rules and configurations *)

Record ThrottleRule := mkRule { Count : Z; Per : Z; Smooth : bool }.

#[export] Instance ThrottleRule_eq_dec : EqDecision ThrottleRule.
Proof. solve_decision. Defined.

(** The interface [ThrottleConfig]. *)
Record ThrottleConfig := mkConfig { Rules : Message -> list ThrottleRule; MaxDuration : Z }.

(** The loop of both [MaxDuration] and [setMax]. *)
Definition max_per (rs : list ThrottleRule) (dur : Z) : Z :=
  fold_left (fun dur r => if dur <? Per r then Per r else dur) rs dur.

(** [ThrottleRules] as a configuration: the same rules for all messages. *)
Definition ThrottleRules (rs : list ThrottleRule) : ThrottleConfig :=
  mkConfig (fun _ => rs) (max_per rs 0).

Definition maxThrottleDuration (cfgs : list ThrottleConfig) : Z :=
  fold_left (fun max cfg => if max <? MaxDuration cfg then MaxDuration cfg else max) cfgs 0.

(** ** The builder *)

Record builderRules := mkBuilderRules {
  br_msgTypes : list string;
  br_dstTypes : list string;
  br_rules : list ThrottleRule
}.

(** [builderRules.match]: an empty list of types matches any. *)
Definition match_types (types : list string) (t : string) : bool :=
  (length types =? 0)%nat || existsb (fun typ => String.eqb typ t) types.

Definition match_ (r : builderRules) (msg : Message) : bool :=
  if negb (match_types (br_msgTypes r) (mType msg)) then false
  else match_types (br_dstTypes r) (dType (mDest msg)).

(** [builderConfig.Rules] *)
Fixpoint builder_Rules (sets : list builderRules) (msg : Message) : list ThrottleRule :=
  match sets with
  | [] => []
  | set :: sets =>
      if negb (match_ set msg) then builder_Rules sets msg
      else br_rules set ++ builder_Rules sets msg
  end.

(** What a top-level builder accumulates; every builder made from it points to it. *)
Record TopBuilder := mkTop { tb_rules : list builderRules; tb_max : Z }.

(** A builder: the top-level one itself or a child of it with a filter.  The
    [rules] and [max] of a child are never written. *)
Record Builder := mkBuilder {
  b_child : bool;
  b_msgTypes : list string;
  b_dstTypes : list string
}.

Definition newBuilder : Builder := mkBuilder false [] [].
Definition newTop : TopBuilder := mkTop [] 0.

Definition WithMsgTypes (msgTypes : list string) (b : Builder) : Builder :=
  mkBuilder true msgTypes (b_dstTypes b).

Definition WithDestTypes (destTypes : list string) (b : Builder) : Builder :=
  mkBuilder true (b_msgTypes b) destTypes.

Definition setMax (rules : list ThrottleRule) (top : TopBuilder) : TopBuilder :=
  mkTop (tb_rules top) (max_per rules (tb_max top)).

Definition AddRules (rules : list ThrottleRule) (b : Builder) (top : TopBuilder) : TopBuilder :=
  let top := mkTop (tb_rules top ++ [mkBuilderRules (b_msgTypes b) (b_dstTypes b) rules]) (tb_max top) in
  setMax rules top.

(** The rules are the top's, the duration is the builder's own. *)
Definition Config (b : Builder) (top : TopBuilder) : ThrottleConfig :=
  mkConfig (builder_Rules (tb_rules top)) (if b_child b then 0 else tb_max top).

(** ** The configured limits *)

Definition DestTypeTwilioVoice : string := "builtin-twilio-voice".
Definition DestTypeTwilioSMS : string := "builtin-twilio-sms".
Definition DestTypeEmail : string := "builtin-smtp-email".

Definition GlobalCMThrottle : ThrottleConfig := ThrottleRules [mkRule 5 (5 * Second) false].

(** [init]: the calls in order. *)
Definition perCM : TopBuilder :=
  let b := newBuilder in
  let top := newTop in
  let phones := [DestTypeTwilioVoice; DestTypeTwilioSMS; DestTypeEmail] in
  let top := AddRules [mkRule 1 Minute false] (WithDestTypes phones b) top in
  let top := AddRules [mkRule 3 (1 * Minute) false; mkRule 20 (1 * Hour) true]
    (WithMsgTypes [MessageTypeScheduleOnCallUsers] b) top in
  let top := AddRules [mkRule 1 (3 * Minute) false; mkRule 3 (20 * Minute) false;
                       mkRule 8 (120 * Minute) true]
    (WithDestTypes phones (WithMsgTypes [MessageTypeAlertStatus] b)) top in
  let alertMessages := WithMsgTypes [MessageTypeAlert; MessageTypeAlertBundle] b in
  let top := AddRules [mkRule 3 (15 * Minute) false; mkRule 7 Hour true; mkRule 15 (3 * Hour) true]
    (WithDestTypes [DestTypeTwilioVoice] alertMessages) top in
  AddRules [mkRule 5 (15 * Minute) false; mkRule 11 Hour true; mkRule 21 (3 * Hour) true]
    (WithDestTypes [DestTypeTwilioSMS] alertMessages) top.

Definition PerCMThrottle : ThrottleConfig := Config newBuilder perCM.

(** ** Recording *)

Section Throttle.
(** [sha256.Sum256] and [json.Marshal]. *)
Context {H : Type} `{Countable H} (Sum256 : string -> H) (Marshal : DestV1 -> string).

Definition DestHash (ns : DestV1) : H := Sum256 (Marshal ns).

(** [ThrottleItem]: a destination's hash and a bucket. *)
Definition ThrottleItem : Type := H * Z.

(** The maps of a [Throttle]; its [cfg], [typeOnly] and [now] never change. *)
Record Throttle := mkThrottle {
  tr_cfg : ThrottleConfig;
  typeOnly : bool;
  tr_now : Time;
  tr_first : gmap ThrottleItem Time;
  tr_count : gmap ThrottleItem Z;
  tr_cooldown : gset H
}.

Definition NewThrottle (cfg : ThrottleConfig) (now : Time) (byTypeOnly : bool) : Throttle :=
  mkThrottle cfg byTypeOnly now ∅ ∅ ∅.

Definition destKey (tr : Throttle) (d : DestV1) : H :=
  if typeOnly tr then Sum256 (dType d) else DestHash d.

(** Reads of the maps: the zero value for an absent key. *)
Definition cnt (tr : Throttle) (k : ThrottleItem) : Z := default 0 (tr_count tr !! k).
Definition first_of (tr : Throttle) (k : ThrottleItem) : Time := default zeroTime (tr_first tr !! k).

(** An expression dividing by zero panics ([None]); the product wraps. *)
Definition smooth_limit (now first : Time) (rule prev : ThrottleRule) : option Z :=
  let elapsed := wrap64 (Sub now first - Per prev) in
  let per := wrap64 (Per rule - Per prev) in
  if per =? 0 then None
  else Some (wrap64 (elapsed * wrap64 (Count rule - Count prev)) `quot` per).

(** One round of the loop: [prev] is the rule before, the zero rule at first. *)
Definition Record_rule (msg : Message) (keyHash : H) (since : Z) (prev rule : ThrottleRule)
  (tr : Throttle) : option Throttle :=
  if Per rule <=? since then Some tr
  else
    let key := (keyHash, Per rule) in
    let count := cnt tr key + 1 in
    let old := first_of tr key in
    let firsts := if IsZero old || Before (mSentAt msg) old
      then <[key := mSentAt msg]> (tr_first tr) else tr_first tr in
    let first := default zeroTime (firsts !! key) in
    let tr := mkThrottle (tr_cfg tr) (typeOnly tr) (tr_now tr) firsts
      (<[key := count]> (tr_count tr)) (tr_cooldown tr) in
    let cool := mkThrottle (tr_cfg tr) (typeOnly tr) (tr_now tr) (tr_first tr) (tr_count tr)
      ({[keyHash]} ∪ tr_cooldown tr) in
    if Count rule <=? count then Some cool
    else if negb (Smooth rule) then Some tr
    else if (count <? Count prev) || (count =? 0) then Some tr
    else
      limit ← smooth_limit (tr_now tr) first rule prev;
      Some (if limit <? count - Count prev then cool else tr).

Fixpoint Record_loop (msg : Message) (keyHash : H) (since : Z) (prev : ThrottleRule)
  (rules : list ThrottleRule) (tr : Throttle) : option Throttle :=
  match rules with
  | [] => Some tr
  | rule :: rules =>
      tr ← Record_rule msg keyHash since prev rule tr;
      Record_loop msg keyHash since rule rules tr
  end.

Definition zeroRule : ThrottleRule := mkRule 0 0 false.

Definition Record_ (msg : Message) (tr : Throttle) : option Throttle :=
  let keyHash := destKey tr (mDest msg) in
  let since := Sub (tr_now tr) (mSentAt msg) in
  Record_loop msg keyHash since zeroRule (Rules (tr_cfg tr) msg) tr.

Definition InCooldown (tr : Throttle) (msg : Message) : bool :=
  bool_decide (destKey tr (mDest msg) ∈ tr_cooldown tr).

(** Recording one message after the other. *)
Fixpoint record_all (msgs : list Message) (tr : Throttle) : option Throttle :=
  match msgs with
  | [] => Some tr
  | msg :: msgs => tr ← Record_ msg tr; record_all msgs tr
  end.

(** ** What a record does *)

Definition first_with (msg : Message) (t : Time) : Time :=
  if IsZero t || Before (mSentAt msg) t then mSentAt msg else t.

(** The rule is used up by one more message: its count is reached, or, for a
    smooth rule past what the rule before allows, the share of the time gone. *)
Definition tripped (msg : Message) (tr : Throttle) (keyHash : H) (prev rule : ThrottleRule) : bool :=
  let count := cnt tr (keyHash, Per rule) + 1 in
  (Count rule <=? count) ||
  (Smooth rule && (Count prev <=? count) && negb (count =? 0) &&
   match smooth_limit (tr_now tr) (first_with msg (first_of tr (keyHash, Per rule))) rule prev with
   | Some limit => limit <? count - Count prev
   | None => false
   end).

(** What no record changes. *)
Definition same_setup (tr tr' : Throttle) : Prop :=
  tr_cfg tr' = tr_cfg tr /\ typeOnly tr' = typeOnly tr /\ tr_now tr' = tr_now tr.

Lemma Record_rule_spec msg h since prev rule tr tr' :
  Record_rule msg h since prev rule tr = Some tr' -> since < Per rule ->
  same_setup tr tr' /\
  (forall k, cnt tr' k = if decide (k = (h, Per rule)) then cnt tr k + 1 else cnt tr k) /\
  (forall k, first_of tr' k = if decide (k = (h, Per rule)) then first_with msg (first_of tr k) else first_of tr k) /\
  tr_cooldown tr' = (if tripped msg tr h prev rule then {[h]} ∪ tr_cooldown tr else tr_cooldown tr).
Proof.
  intros E Hs. unfold Record_rule in E. cbv zeta in E. destruct (Z.leb_spec (Per rule) since); [lia|].
  set (key := (h, Per rule)) in *.
  set (firsts := if _ || _ then _ else _) in E.
  assert (forall k, default zeroTime (firsts !! k) =
    if decide (k = key) then first_with msg (first_of tr k) else first_of tr k) as HF.
  { intros k. unfold firsts, first_with, first_of.
    destruct (decide (k = key)) as [->|Hne]; destruct (_ || _); try done;
      [by rewrite lookup_insert_eq|by rewrite lookup_insert_ne]. }
  assert (forall k, default 0 (<[key := cnt tr key + 1]> (tr_count tr) !! k) =
    if decide (k = key) then cnt tr k + 1 else cnt tr k) as HC.
  { intros k. destruct (decide (k = key)) as [->|Hne];
      [by rewrite lookup_insert_eq|by rewrite lookup_insert_ne]. }
  assert (default zeroTime (firsts !! key) = first_with msg (first_of tr key)) as HFk.
  { rewrite HF. by rewrite decide_True. }
  rewrite HFk in E. unfold tripped. fold key.
  revert E. destruct (Count rule <=? cnt tr key + 1); cbn [orb].
  2: destruct (Smooth rule); cbn [negb andb].
  2: destruct (Z.ltb_spec (cnt tr key + 1) (Count prev)), (Z.leb_spec (Count prev) (cnt tr key + 1));
    try lia; cbn [orb andb].
  3: destruct (cnt tr key + 1 =? 0); cbn [negb andb].
  4: cbn [tr_now]; destruct (smooth_limit _ _ _ _) as [limit|]; cbn [mbind option_bind]; [|done].
  4: destruct (limit <? cnt tr key + 1 - Count prev).
  all: intros [= <-]; split; [done|]; split; [exact HC|]; split; [exact HF|done].
Qed.

Lemma Record_rule_skip msg h since prev rule tr :
  Per rule <= since -> Record_rule msg h since prev rule tr = Some tr.
Proof. intros Hs. unfold Record_rule. destruct (Z.leb_spec (Per rule) since); [done|lia]. Qed.

Lemma same_setup_trans tr1 tr2 tr3 : same_setup tr1 tr2 -> same_setup tr2 tr3 -> same_setup tr1 tr3.
Proof. unfold same_setup. intuition congruence. Qed.

Lemma elem_of_cool (b : bool) (h h' : H) (c : gset H) :
  h' ∈ (if b then {[h]} ∪ c else c) <-> (b = true /\ h' = h) \/ h' ∈ c.
Proof.
  destruct b; [|intuition congruence]. rewrite elem_of_union, elem_of_singleton. intuition.
Qed.

Lemma Record_loop_spec msg h since rules : forall prev tr tr',
  Record_loop msg h since prev rules tr = Some tr' ->
  same_setup tr tr' /\
  (forall k, cnt tr k <= cnt tr' k) /\
  (forall k, k.1 <> h -> cnt tr' k = cnt tr k /\ first_of tr' k = first_of tr k) /\
  (forall h', h' ∈ tr_cooldown tr' -> h' ∈ tr_cooldown tr \/ h' = h) /\
  tr_cooldown tr ⊆ tr_cooldown tr' /\
  forall r, r ∈ rules -> since < Per r ->
    cnt tr (h, Per r) + 1 <= cnt tr' (h, Per r) /\
    (h ∈ tr_cooldown tr' \/ cnt tr (h, Per r) + 1 < Count r).
Proof.
  induction rules as [|rule rules IH]; intros prev tr tr' E; cbn [Record_loop] in E.
  { injection E as <-. split; [done|]. split; [done|]. split; [done|]. split; [by left|].
    split; [done|]. by intros r Hr%elem_of_nil. }
  destruct (Record_rule msg h since prev rule tr) as [tr1|] eqn:E1; [|done]. cbn [mbind option_bind] in E.
  destruct (IH _ _ _ E) as (HS & HM & HO & HCB & HC & HR).
  destruct (Z.le_gt_cases (Per rule) since) as [Hs|Hs].
  { rewrite Record_rule_skip in E1 by done. injection E1 as ->.
    split; [done|]. split; [done|]. split; [done|]. split; [done|]. split; [done|].
    intros r [->|Hr]%elem_of_cons Hr'; [lia|by apply HR]. }
  destruct (Record_rule_spec _ _ _ _ _ _ _ E1 Hs) as (HS1 & HM1 & HF1 & HC1).
  assert (forall k, cnt tr k <= cnt tr1 k) as HM1'.
  { intros k. rewrite HM1. destruct (decide _); lia. }
  split; [by apply (same_setup_trans _ tr1)|].
  split; [intros k; specialize (HM k); specialize (HM1' k); lia|].
  split.
  { intros k Hk. destruct (HO k Hk) as [-> ->]. rewrite HM1, HF1.
    assert (k <> (h, Per rule)) by (intros ->; done). by rewrite !decide_False by done. }
  split.
  { intros h' [Hh|Hh]%HCB; [|by right]. rewrite HC1, elem_of_cool in Hh. tauto. }
  assert (tr_cooldown tr ⊆ tr_cooldown tr1) as HC1'.
  { intros h' Hh. rewrite HC1, elem_of_cool. by right. }
  split; [by transitivity (tr_cooldown tr1)|].
  intros r [->|Hr]%elem_of_cons Hr'.
  - specialize (HM1 (h, Per rule)). rewrite decide_True in HM1 by done. specialize (HM (h, Per rule)).
    split; [lia|]. unfold tripped in HC1. destruct (Z.leb_spec (Count rule) (cnt tr (h, Per rule) + 1)); [|by right].
    cbn [orb] in HC1. left. apply HC. rewrite HC1. by apply elem_of_union_l, elem_of_singleton.
  - destruct (HR r Hr Hr') as [H1 H2]. specialize (HM1' (h, Per r)). split; [lia|].
    destruct H2; [by left|]. right. lia.
Qed.

(** ** The limit is kept *)

(** The rule applies to the message and its time has not passed. *)
Definition counts_for (cfg : ThrottleConfig) (now : Time) (r : ThrottleRule) (m : Message) : bool :=
  bool_decide (r ∈ Rules cfg m) && (Sub now (mSentAt m) <? Per r).

(** The messages a rule counts for a destination. *)
Definition used (tr : Throttle) (h : H) (r : ThrottleRule) (msgs : list Message) : Z :=
  Z.of_nat (length (List.filter (fun m => bool_decide (destKey tr (mDest m) = h) &&
    counts_for (tr_cfg tr) (tr_now tr) r m) msgs)).

Lemma used_snoc tr h r msgs m :
  used tr h r (msgs ++ [m]) = used tr h r msgs +
    (if bool_decide (destKey tr (mDest m) = h) && counts_for (tr_cfg tr) (tr_now tr) r m
     then 1 else 0).
Proof.
  unfold used. rewrite List.filter_app, length_app. cbn [List.filter].
  destruct (_ && _); simpl; lia.
Qed.

Lemma used_same tr tr' h r msgs : same_setup tr tr' -> used tr' h r msgs = used tr h r msgs.
Proof. intros (E1 & E2 & E3). unfold used, destKey. by rewrite E1, E2, E3. Qed.

(** Every counter is at least what its rules count, and a destination not in
    cooldown has room under each rule that has counted anything for it. *)
Definition counted (msgs : list Message) (tr : Throttle) : Prop :=
  forall h r, used tr h r msgs <= cnt tr (h, Per r) /\
    (h ∉ tr_cooldown tr -> used tr h r msgs = 0 \/ used tr h r msgs < Count r).

Lemma counted_new cfg now b : counted [] (NewThrottle cfg now b).
Proof. intros h r. unfold used, cnt. cbn. rewrite lookup_empty. simpl. split; [done|by left]. Qed.

Lemma counted_Record msgs m tr tr' :
  counted msgs tr -> Record_ m tr = Some tr' ->
  same_setup tr tr' /\ counted (msgs ++ [m]) tr'.
Proof.
  intros HI E. unfold Record_ in E. apply Record_loop_spec in E as (HS & HM & HO & HCB & HC & HR).
  split; [done|]. intros h r. rewrite (used_same tr tr' h r _ HS), used_snoc.
  destruct (HI h r) as [H1 H2]. specialize (HM (h, Per r)).
  destruct (bool_decide (destKey tr (mDest m) = h)) eqn:EH; cbn [andb].
  2: { split; [lia|]. intros Hh. rewrite Z.add_0_r. apply H2. auto. }
  apply bool_decide_eq_true in EH as EH'. unfold counts_for.
  destruct (bool_decide (r ∈ Rules (tr_cfg tr) m)) eqn:ER; cbn [andb].
  2: { split; [lia|]. intros Hh. rewrite Z.add_0_r. apply H2. auto. }
  apply bool_decide_eq_true in ER. destruct (Z.ltb_spec (Sub (tr_now tr) (mSentAt m)) (Per r)) as [Hs|Hs].
  2: { split; [lia|]. intros Hh. rewrite Z.add_0_r. apply H2. auto. }
  destruct (HR r ER Hs) as [H3 H4]. rewrite EH' in *. split; [lia|].
  intros Hh. right. destruct H4; [done|lia].
Qed.

Lemma counted_all msgs : forall done tr tr', counted done tr -> record_all msgs tr = Some tr' ->
  same_setup tr tr' /\ counted (done ++ msgs) tr'.
Proof.
  induction msgs as [|m msgs IH]; intros dn tr tr' HI E; cbn [record_all] in E.
  { injection E as <-. rewrite app_nil_r. split; [|done]. by split. }
  destruct (Record_ m tr) as [tr1|] eqn:E1; [|done].
  destruct (counted_Record _ _ _ _ HI E1) as [HS1 HI1].
  destruct (IH _ _ _ HI1 E) as [HS2 HI2]. rewrite <- app_assoc in HI2. split; [|done].
  by apply (same_setup_trans _ tr1).
Qed.

(** The limit is kept: recording a message for a destination that is not in
    cooldown leaves, under each rule that applies to the message, at most
    [Count] messages of the last [Per] that the rule applies to. *)
Theorem Record_keeps_limit cfg now b msgs tr m tr' r
  (E : record_all msgs (NewThrottle cfg now b) = Some tr) (HCD : InCooldown tr m = false)
  (ER : Record_ m tr = Some tr') (Hr : r ∈ Rules cfg m) (HC : 1 <= Count r) :
  used tr' (destKey tr (mDest m)) r (msgs ++ [m]) <= Count r.
Proof.
  destruct (counted_all msgs [] _ _ (counted_new cfg now b) E) as [HS HI].
  destruct (counted_Record _ _ _ _ HI ER) as [HS' _]. cbn [app] in HI.
  rewrite (used_same _ _ _ _ _ HS'), used_snoc.
  destruct (HI (destKey tr (mDest m)) r) as [_ H2].
  unfold InCooldown in HCD. apply bool_decide_eq_false in HCD. specialize (H2 HCD).
  destruct (_ && _); lia.
Qed.

(** ** Exactly when a destination is put in cooldown *)

Lemma tripped_same msg tr tr1 h prev rule :
  tr_now tr1 = tr_now tr -> cnt tr1 (h, Per rule) = cnt tr (h, Per rule) ->
  first_of tr1 (h, Per rule) = first_of tr (h, Per rule) ->
  tripped msg tr1 h prev rule = tripped msg tr h prev rule.
Proof. intros E1 E2 E3. unfold tripped. by rewrite E1, E2, E3. Qed.

Lemma Record_loop_frame msg h since rules : forall prev tr tr' k,
  Record_loop msg h since prev rules tr = Some tr' -> k.2 ∉ map Per rules ->
  cnt tr' k = cnt tr k /\ first_of tr' k = first_of tr k.
Proof.
  induction rules as [|rule rules IH]; intros prev tr tr' k E Hk; cbn [Record_loop] in E.
  { by injection E as <-. }
  destruct (Record_rule msg h since prev rule tr) as [tr1|] eqn:E1; [|done]. cbn [mbind option_bind] in E.
  apply not_elem_of_cons in Hk as [Hne Hk]. destruct (IH _ _ _ _ E Hk) as [-> ->].
  destruct (Z.le_gt_cases (Per rule) since) as [Hs|Hs].
  { rewrite Record_rule_skip in E1 by done. by injection E1 as ->. }
  destruct (Record_rule_spec _ _ _ _ _ _ _ E1 Hs) as (_ & HM & HF & _). rewrite HM, HF.
  by rewrite !decide_False by (intros ->; done).
Qed.

(** The rules with the one before each. *)
Fixpoint with_prev (prev : ThrottleRule) (rules : list ThrottleRule) : list (ThrottleRule * ThrottleRule) :=
  match rules with [] => [] | rule :: rules => (prev, rule) :: with_prev rule rules end.

Lemma Record_loop_exact msg h since rules : NoDup (map Per rules) -> forall prev tr tr',
  Record_loop msg h since prev rules tr = Some tr' ->
  (forall r, r ∈ rules -> cnt tr' (h, Per r) = cnt tr (h, Per r) + (if since <? Per r then 1 else 0)) /\
  (forall h', h' ∈ tr_cooldown tr' <-> h' ∈ tr_cooldown tr \/
    h' = h /\ ex_in (fun pr => since < Per pr.2 /\ tripped msg tr h pr.1 pr.2 = true) (with_prev prev rules)).
Proof.
  induction rules as [|rule rules IH]; intros HN prev tr tr' E; cbn [Record_loop] in E.
  { injection E as <-. split; [by intros r Hr%elem_of_nil|]. intros h'. cbn [with_prev].
    rewrite ex_in_nil. intuition. }
  cbn [map] in HN. apply NoDup_cons in HN as [Hn HN].
  destruct (Record_rule msg h since prev rule tr) as [tr1|] eqn:E1; [|done]. cbn [mbind option_bind] in E.
  destruct (IH HN _ _ _ E) as (HR & HC).
  destruct (Record_loop_frame _ _ _ _ _ _ _ (h, Per rule) E Hn) as [Hrule _].
  assert (forall r, r ∈ rules -> Per r <> Per rule) as Hne.
  { intros r Hr HE. apply Hn. rewrite <- HE. by apply list_elem_of_fmap_2. }
  assert (forall pr, pr ∈ with_prev rule rules -> pr.2 ∈ rules) as Hwp.
  { clear. revert rule. induction rules as [|r rules IH]; intros rule pr; cbn [with_prev];
      [by intros ?%elem_of_nil|]. intros [->|Hin]%elem_of_cons; [by left|right; by apply (IH r)]. }
  cbn [with_prev]. setoid_rewrite ex_in_cons. cbn [fst snd].
  destruct (Z.ltb_spec since (Per rule)) as [Hs|Hs].
  - destruct (Record_rule_spec _ _ _ _ _ _ _ E1 Hs) as ((_ & _ & HT) & HM & HF & HC1).
    assert (forall r, r ∈ rules -> cnt tr1 (h, Per r) = cnt tr (h, Per r) /\
      first_of tr1 (h, Per r) = first_of tr (h, Per r)) as Hsame.
    { intros r Hr. rewrite HM, HF. assert ((h, Per r) <> (h, Per rule)) by (intros [= HE]; by apply (Hne r)).
      by rewrite !decide_False. }
    split.
    + intros r [->|Hr]%elem_of_cons; [rewrite Hrule, HM, decide_True by done; by destruct (Z.ltb_spec since (Per rule)); [|lia]|].
      rewrite HR by done. by destruct (Hsame r Hr) as [-> _].
    + intros h'. rewrite HC, HC1, elem_of_cool.
      assert (ex_in (fun pr => since < Per pr.2 /\ tripped msg tr1 h pr.1 pr.2 = true) (with_prev rule rules) <->
        ex_in (fun pr => since < Per pr.2 /\ tripped msg tr h pr.1 pr.2 = true) (with_prev rule rules)) as ->.
      { apply ex_in_iff. intros [p r] Hpr. cbn [fst snd]. destruct (Hsame r (Hwp _ Hpr)) as [EA EB].
        by rewrite (tripped_same msg tr tr1 h p r HT EA EB). }
      tauto.
  - rewrite Record_rule_skip in E1 by done. injection E1 as <-. split.
    + intros r [->|Hr]%elem_of_cons; [|by apply HR]. rewrite Hrule.
      destruct (Z.ltb_spec since (Per rule)); lia.
    + intros h'. rewrite HC. intuition lia.
Qed.

(** [Record] puts a message's destination, and no other, in cooldown exactly
    when one of the rules whose time has not passed is used up by it, when the
    rules have different durations. *)
Theorem Record_cooldown_iff m tr tr' h
  (E : Record_ m tr = Some tr') (HN : NoDup (map Per (Rules (tr_cfg tr) m))) :
  h ∈ tr_cooldown tr' <-> h ∈ tr_cooldown tr \/
    h = destKey tr (mDest m) /\
    ex_in (fun pr => Sub (tr_now tr) (mSentAt m) < Per pr.2 /\
        tripped m tr (destKey tr (mDest m)) pr.1 pr.2 = true)
      (with_prev zeroRule (Rules (tr_cfg tr) m)).
Proof. unfold Record_ in E. by destruct (Record_loop_exact _ _ _ _ HN _ _ _ E) as [_ HC]. Qed.

(** Without smooth rules a destination is in cooldown exactly when a rule is
    used up. *)
Definition flat_rules (rs : list ThrottleRule) : Prop :=
  NoDup (map Per rs) /\ Forall (fun r => Smooth r = false /\ 1 <= Count r) rs.

Definition flat_exact (rs : list ThrottleRule) (msgs : list Message) (tr : Throttle) : Prop :=
  tr_cfg tr = ThrottleRules rs /\
  (forall h r, r ∈ rs -> cnt tr (h, Per r) = used tr h r msgs) /\
  forall h, h ∈ tr_cooldown tr <-> ex_in (fun r => Count r <= used tr h r msgs) rs.

Lemma with_prev_rules P rs : forall prev,
  ex_in (fun pr => P pr.2) (with_prev prev rs) <-> ex_in P rs.
Proof.
  induction rs as [|r rs IH]; intros prev; cbn [with_prev]; [by rewrite !ex_in_nil|].
  rewrite !ex_in_cons. cbn [snd]. by rewrite IH.
Qed.

Lemma flat_exact_Record rs msgs m tr tr' :
  flat_rules rs -> flat_exact rs msgs tr -> Record_ m tr = Some tr' -> flat_exact rs (msgs ++ [m]) tr'.
Proof.
  intros [HN HF] (Hcfg & HC & HCD) E. unfold Record_ in E. rewrite Hcfg in E. cbn [Rules ThrottleRules] in E.
  set (h0 := destKey tr (mDest m)) in *. set (since := Sub _ _) in *.
  destruct (Record_loop_spec _ _ _ _ _ _ _ E) as (HS & _ & HO & _).
  destruct (Record_loop_exact _ _ _ _ HN _ _ _ E) as [HR HCX].
  assert (forall h r, r ∈ rs -> used tr' h r (msgs ++ [m]) =
    used tr h r msgs + (if bool_decide (h0 = h) && (since <? Per r) then 1 else 0)) as HU.
  { intros h r Hr. rewrite (used_same tr tr' h r _ HS), used_snoc. unfold counts_for. rewrite Hcfg.
    cbn [Rules ThrottleRules]. rewrite (bool_decide_true (r ∈ rs)) by done. done. }
  split; [by destruct HS as [-> _]|]. split.
  - intros h r Hr. rewrite HU, <- HC by done.
    destruct (bool_decide (h0 = h)) eqn:EH.
    + apply bool_decide_eq_true in EH as <-. by rewrite HR.
    + apply bool_decide_eq_false in EH. destruct (HO (h, Per r)) as [-> _]; [naive_solver|]. cbn [andb]. lia.
  - intros h. rewrite HCX, HCD. rewrite Forall_forall in HF.
    transitivity (ex_in (fun r => Count r <= used tr h r msgs) rs \/
      ex_in (fun r => (since < Per r /\ Count r <= used tr h0 r msgs + 1) /\ h = h0) rs).
    { rewrite ex_in_and_r, <- (with_prev_rules (fun r => since < Per r /\ Count r <= used tr h0 r msgs + 1) rs zeroRule),
        (and_comm (h = h0)).
      apply or_iff_compat_l, and_iff_compat_r, ex_in_iff. intros [p r] Hpr. cbn [fst snd].
      assert (r ∈ rs) as Hr.
      { assert (ex_in (fun r' => r' = r) rs) as (r' & Hr' & ->); [|done].
        apply (with_prev_rules (fun r' => r' = r) rs zeroRule). by exists (p, r). }
      destruct (HF r Hr) as [Hsm _]. unfold tripped. rewrite Hsm, HC by done. cbn [andb].
      rewrite orb_false_r, Z.leb_le. done. }
    split.
    + intros [(r & Hr & H1)|(r & Hr & [H1 H2] & ->)]; exists r; (split; [done|]); rewrite HU by done.
      * destruct (_ && _); lia.
      * rewrite bool_decide_true by done. destruct (Z.ltb_spec since (Per r)); [|lia]. cbn [andb]. lia.
    + intros (r & Hr & H1). rewrite HU in H1 by done.
      destruct (bool_decide (h0 = h)) eqn:EH; cbn [andb] in H1; [|left; exists r; split; [done|lia]].
      apply bool_decide_eq_true in EH as <-.
      destruct (Z.ltb_spec since (Per r)); [right|left]; exists r; (split; [done|]); [|lia]. done.
Qed.

Lemma flat_exact_new rs now b : flat_rules rs -> flat_exact rs [] (NewThrottle (ThrottleRules rs) now b).
Proof.
  intros [_ HF]. split; [done|]. split; [done|]. intros h. split; [by intros ?%elem_of_empty|].
  intros (r & Hr & H1). rewrite Forall_forall in HF. specialize (HF r Hr). unfold used in H1. simpl in H1. lia.
Qed.

Lemma flat_exact_all rs msgs : flat_rules rs -> forall dn tr tr', flat_exact rs dn tr ->
  record_all msgs tr = Some tr' -> flat_exact rs (dn ++ msgs) tr'.
Proof.
  intros HF. induction msgs as [|m msgs IH]; intros dn tr tr' HI E; cbn [record_all] in E.
  { injection E as <-. by rewrite app_nil_r. }
  destruct (Record_ m tr) as [tr1|] eqn:E1; [|done].
  specialize (IH (dn ++ [m]) tr1 tr'). rewrite <- app_assoc in IH. apply IH; [|done].
  by apply (flat_exact_Record _ _ _ tr).
Qed.

(** With fixed rules of different durations, none of them smooth, a message
    is held back exactly when some rule has already counted its [Count]. *)
Theorem InCooldown_iff_used_up rs now b msgs tr m (HF : flat_rules rs)
  (E : record_all msgs (NewThrottle (ThrottleRules rs) now b) = Some tr) :
  InCooldown tr m = true <->
    exists r, r ∈ rs /\ Count r <= used tr (destKey tr (mDest m)) r msgs.
Proof.
  destruct (flat_exact_all rs msgs HF [] _ _ (flat_exact_new rs now b HF) E) as (_ & _ & HCD).
  unfold InCooldown. rewrite bool_decide_eq_true. apply HCD.
Qed.

End Throttle.

(** ** Configurations built from rules *)

Lemma max_per_spec rs : forall dur,
  dur <= max_per rs dur /\ (forall r, r ∈ rs -> Per r <= max_per rs dur) /\
  (max_per rs dur = dur \/ exists r, r ∈ rs /\ max_per rs dur = Per r).
Proof.
  unfold max_per. induction rs as [|r rs IH]; intros dur; cbn [fold_left].
  { split; [done|]. split; [by intros r Hr%elem_of_nil|by left]. }
  destruct (IH (if dur <? Per r then Per r else dur)) as (H1 & H2 & H3).
  set (m := fold_left _ _ _) in *. destruct (Z.ltb_spec dur (Per r)).
  all: split; [lia|]; split; [intros r' [->|Hr]%elem_of_cons; [lia|by apply H2]|].
  all: destruct H3 as [->|(r' & Hr & ->)]; [|right; exists r'; split; [by right|done]].
  - right. exists r. split; [by left|done].
  - by left.
Qed.

Lemma builder_Rules_spec sets msg r :
  r ∈ builder_Rules sets msg <-> ex_in (fun set => match_ set msg = true /\ r ∈ br_rules set) sets.
Proof.
  induction sets as [|set sets IH]; cbn [builder_Rules]; [by rewrite ex_in_nil, elem_of_nil|].
  rewrite ex_in_cons. destruct (match_ set msg); cbn [negb]; rewrite ?elem_of_app, IH; intuition congruence.
Qed.

(** A sequence of calls of [AddRules] on builders made from the top-level one. *)
Definition build (calls : list (Builder * list ThrottleRule)) : TopBuilder :=
  fold_left (fun top c => AddRules c.2 c.1 top) calls newTop.

Definition call_rules (c : Builder * list ThrottleRule) : builderRules :=
  mkBuilderRules (b_msgTypes c.1) (b_dstTypes c.1) c.2.

Lemma build_spec calls : forall top, let top' := fold_left (fun top c => AddRules c.2 c.1 top) calls top in
  tb_rules top' = tb_rules top ++ map call_rules calls /\
  tb_max top' = max_per (concat (map snd calls)) (tb_max top).
Proof.
  induction calls as [|c calls IH]; intros top; cbn [fold_left map concat]; [by rewrite app_nil_r|].
  destruct (IH (AddRules c.2 c.1 top)) as [-> ->]. cbn [AddRules setMax tb_rules tb_max].
  rewrite <- app_assoc. split; [done|]. unfold max_per. by rewrite fold_left_app.
Qed.

(** The configuration of the top-level builder applies to a message exactly
    the rules added by the calls whose filters match it, and its duration is the
    longest of all rules added: none of them looks further back. *)
Theorem Config_top_spec calls msg :
  let cfg := Config newBuilder (build calls) in
  (forall r, r ∈ Rules cfg msg <->
     exists c, c ∈ calls /\ match_ (call_rules c) msg = true /\ r ∈ c.2) /\
  (forall r, r ∈ Rules cfg msg -> Per r <= MaxDuration cfg) /\
  (MaxDuration cfg = 0 \/ exists c r, c ∈ calls /\ r ∈ c.2 /\ MaxDuration cfg = Per r).
Proof.
  intros cfg. destruct (build_spec calls newTop) as [HR HM].
  destruct (max_per_spec (concat (map snd calls)) 0) as (_ & H2 & H3).
  assert (forall r, r ∈ concat (map snd calls) <-> exists c, c ∈ calls /\ r ∈ c.2) as Hin.
  { intros r. rewrite list_elem_of_In, in_concat. setoid_rewrite in_map_iff. split.
    - intros (l & (c & <- & Hc) & Hr). exists c. by rewrite !list_elem_of_In.
    - intros (c & Hc & Hr). exists c.2. rewrite <- !list_elem_of_In. split; [|done]. exists c.
      by rewrite <- list_elem_of_In. }
  assert (forall r, r ∈ Rules cfg msg <->
    exists c, c ∈ calls /\ match_ (call_rules c) msg = true /\ r ∈ c.2) as HRules.
  { intros r. unfold cfg, Config. cbn [Rules]. unfold build. rewrite HR. cbn [newTop tb_rules app].
    rewrite builder_Rules_spec. apply (ex_in_map (fun set => match_ set msg = true /\ r ∈ br_rules set)). }
  assert (MaxDuration cfg = max_per (concat (map snd calls)) 0) as ->.
  { unfold cfg, Config, build. cbn [MaxDuration b_child newBuilder]. by rewrite HM. }
  split; [done|]. split.
  - intros r (c & Hc & _ & Hr)%HRules. apply H2, Hin. by exists c.
  - destruct H3 as [|(r & (c & Hc & Hr)%Hin & E)]; [by left|right; by exists c, r].
Qed.

(** The configuration of any other builder has the same rules but no duration. *)
Lemma Config_child_duration b top :
  Rules (Config (WithMsgTypes b newBuilder) top) = Rules (Config newBuilder top) /\
  MaxDuration (Config (WithMsgTypes b newBuilder) top) = 0.
Proof. done. Qed.

Lemma PerCMThrottle_spec msg r : r ∈ Rules PerCMThrottle msg -> Per r <= MaxDuration PerCMThrottle.
Proof.
  intros Hr. unfold PerCMThrottle, Config in *. cbn [Rules MaxDuration b_child newBuilder] in *.
  apply builder_Rules_spec in Hr as (set & Hset & _ & Hr).
  assert (forallb (fun set => forallb (fun r => Per r <=? tb_max perCM) (br_rules set)) (tb_rules perCM) = true)
    as HF by reflexivity.
  rewrite forallb_forall in HF. apply list_elem_of_In in Hset, Hr. specialize (HF set Hset).
  rewrite forallb_forall in HF. by apply Z.leb_le, HF.
Qed.

Lemma GlobalCMThrottle_spec msg r : r ∈ Rules GlobalCMThrottle msg -> Per r <= MaxDuration GlobalCMThrottle.
Proof. intros ->%list_elem_of_singleton. done. Qed.

Lemma maxThrottleDuration_spec cfgs cfg : cfg ∈ cfgs -> MaxDuration cfg <= maxThrottleDuration cfgs.
Proof.
  unfold maxThrottleDuration.
  assert (forall m0, let m := fold_left (fun max cfg => if max <? MaxDuration cfg then MaxDuration cfg else max)
    cfgs m0 in m0 <= m /\ forall cfg, cfg ∈ cfgs -> MaxDuration cfg <= m) as H.
  { clear cfg. induction cfgs as [|c cfgs IH]; intros m0; cbn [fold_left].
    { split; [done|]. by intros cfg ?%elem_of_nil. }
    destruct (IH (if m0 <? MaxDuration c then MaxDuration c else m0)) as [H1 H2].
    set (m := fold_left _ _ _) in *. destruct (Z.ltb_spec m0 (MaxDuration c));
      (split; [lia|]; intros cfg [->|Hc]%elem_of_cons; [lia|by apply H2]). }
  intros Hc. by apply H.
Qed.

(** ** No panic, and nothing lost by looking back only so far *)

Section totality.
Context {H : Type} `{Countable H} (Sum256 : string -> H) (Marshal : DestV1 -> string).

(** A smooth rule never has the duration of the rule before it. *)
Definition smooth_ok (rules : list ThrottleRule) : Prop :=
  Forall (fun pr => Smooth pr.2 = true -> wrap64 (Per pr.2 - Per pr.1) <> 0) (with_prev zeroRule rules).

Lemma Record_loop_total msg h since rules : forall prev tr,
  Forall (fun pr => Smooth pr.2 = true -> wrap64 (Per pr.2 - Per pr.1) <> 0) (with_prev prev rules) ->
  is_Some (@Record_loop H _ _ msg h since prev rules tr).
Proof.
  induction rules as [|rule rules IH]; intros prev tr HF; cbn [Record_loop with_prev] in *; [by eexists|].
  inversion HF as [|? ? Hr HF']; subst. cbn [fst snd] in Hr.
  assert (is_Some (Record_rule msg h since prev rule tr)) as [tr1 E].
  { unfold Record_rule. destruct (_ <=? _); [by eexists|]. cbv zeta. destruct (_ <=? _); [by eexists|].
    destruct (Smooth rule); cbn [negb]; [|by eexists].
    destruct (_ <? _); cbn [orb]; [by eexists|]. destruct (_ =? _); [by eexists|].
    unfold smooth_limit. destruct (Z.eqb_spec (wrap64 (Per rule - Per prev)) 0); [by destruct (Hr eq_refl)|].
    eexists. reflexivity. }
  rewrite E. cbn [mbind option_bind]. by apply IH.
Qed.

Lemma Record_total (tr : Throttle) m : smooth_ok (Rules (tr_cfg tr) m) ->
  is_Some (Record_ Sum256 Marshal m tr).
Proof. apply Record_loop_total. Qed.

Lemma Record_same_setup (tr tr' : Throttle) m :
  Record_ Sum256 Marshal m tr = Some tr' -> same_setup tr tr' /\ tr_cooldown tr ⊆ tr_cooldown tr'.
Proof. intros E. by apply Record_loop_spec in E as (HS & _ & _ & _ & HC & _). Qed.

Lemma record_all_total msgs : forall tr : Throttle, (forall m, smooth_ok (Rules (tr_cfg tr) m)) ->
  is_Some (record_all Sum256 Marshal msgs tr).
Proof.
  induction msgs as [|m msgs IH]; intros tr HF; cbn [record_all]; [by eexists|].
  destruct (Record_total tr m (HF m)) as [tr1 E]. rewrite E. cbn [mbind option_bind]. apply IH.
  apply Record_same_setup in E as [[-> _] _]. done.
Qed.

Lemma PerCM_smooth_ok m : smooth_ok (Rules PerCMThrottle m).
Proof.
  unfold PerCMThrottle, Config. cbn [Rules]. unfold smooth_ok.
  cbn [perCM AddRules WithDestTypes WithMsgTypes setMax tb_rules newTop app builder_Rules].
  repeat match goal with |- context [match_ ?b ?x] => destruct (match_ b x) end;
    cbn [negb br_rules app with_prev b_msgTypes b_dstTypes]; repeat constructor; vm_compute; done.
Qed.

Lemma Global_smooth_ok m : smooth_ok (Rules GlobalCMThrottle m).
Proof. repeat constructor. done. Qed.

(** With the configured limits recording never divides by zero, whatever was
    sent and when. *)
Theorem throttles_never_panic msgs now :
  is_Some (record_all Sum256 Marshal msgs (NewThrottle PerCMThrottle now false)) /\
  is_Some (record_all Sum256 Marshal msgs (NewThrottle GlobalCMThrottle now true)).
Proof.
  split; apply record_all_total; intros m; [apply PerCM_smooth_ok|apply Global_smooth_ok].
Qed.

Lemma Record_loop_old msg h since rules : forall prev tr,
  (forall r, r ∈ rules -> Per r <= since) -> @Record_loop H _ _ msg h since prev rules tr = Some tr.
Proof.
  induction rules as [|rule rules IH]; intros prev tr HF; cbn [Record_loop]; [done|].
  rewrite Record_rule_skip by (apply HF; by left). cbn [mbind option_bind]. apply IH.
  intros r Hr. apply HF. by right.
Qed.

(** Messages sent longer ago than the longest rule make no difference to a
    throttle: those the queue does not load from the database are not missed. *)
Theorem old_messages_do_not_count msgs cfg now b dur
  (HM : forall m r, r ∈ Rules cfg m -> Per r <= dur) :
  record_all Sum256 Marshal msgs (NewThrottle cfg now b) =
  record_all Sum256 Marshal (List.filter (fun m => Sub now (mSentAt m) <? dur) msgs)
    (NewThrottle cfg now b).
Proof.
  assert (forall tr : Throttle, tr_cfg tr = cfg -> tr_now tr = now ->
    record_all Sum256 Marshal msgs tr =
    record_all Sum256 Marshal (List.filter (fun m => Sub now (mSentAt m) <? dur) msgs) tr) as HA; [|by apply HA].
  induction msgs as [|m msgs IH]; intros tr Hc Hn; cbn [record_all List.filter]; [done|].
  destruct (Z.ltb_spec (Sub now (mSentAt m)) dur) as [Hs|Hs].
  - cbn [record_all]. destruct (Record_ Sum256 Marshal m tr) as [tr1|] eqn:E; [|done]. cbn [mbind option_bind].
    apply Record_same_setup in E as [(HS1 & _ & HS2) _]. apply IH; congruence.
  - unfold Record_ at 1. rewrite Hc, Hn, Record_loop_old; [by apply IH|].
    intros r Hr. specialize (HM m r Hr). lia.
Qed.
End totality.

(** ** Concrete runs *)

(** Texts to one destination, two seconds before now. *)
Definition sample_text : Message :=
  mkMsg "x" MessageTypeTest sample_dest (mkDest ∅ "builtin-twilio-sms") 0 0 "" "user1" "" ""
    (mkTime 0 UTC) (mkTime (98 * Second) UTC) [].

Definition sample_now : Time := mkTime (100 * Second) UTC.

(** The length of a string as its hash, and the type as the encoding. *)
Definition sample_hash (s : string) : Z := Z.of_nat (String.length s).

Definition sample_new : @Throttle Z _ _ := NewThrottle GlobalCMThrottle sample_now true.
Definition sample_tr (n : nat) : @Throttle Z _ _ :=
  default sample_new (record_all sample_hash dType (repeat sample_text n) sample_new).

Definition sample_rule : ThrottleRule := mkRule 5 (5 * Second) false.

Lemma Record_keeps_limit_witness :
  used sample_hash dType (sample_tr 5) (destKey sample_hash dType (sample_tr 4) (mDest sample_text)) sample_rule
    (repeat sample_text 4 ++ [sample_text]) <= Count sample_rule.
Proof.
  apply (Record_keeps_limit sample_hash dType GlobalCMThrottle sample_now true (repeat sample_text 4)
    (sample_tr 4) sample_text (sample_tr 5) sample_rule).
  - vm_compute. reflexivity.
  - vm_compute. reflexivity.
  - vm_compute. reflexivity.
  - left.
  - vm_compute. discriminate.
Defined.

Lemma Record_cooldown_iff_witness :
  18 ∈ tr_cooldown (sample_tr 5) <->
  18 ∈ tr_cooldown (sample_tr 4) \/
    18 = destKey sample_hash dType (sample_tr 4) (mDest sample_text) /\
    ex_in (fun pr => Sub (tr_now (sample_tr 4)) (mSentAt sample_text) < Per pr.2 /\
        tripped sample_text (sample_tr 4) (destKey sample_hash dType (sample_tr 4) (mDest sample_text)) pr.1 pr.2 = true)
      (with_prev zeroRule (Rules (tr_cfg (sample_tr 4)) sample_text)).
Proof.
  apply (Record_cooldown_iff sample_hash dType sample_text (sample_tr 4) (sample_tr 5)).
  - vm_compute. reflexivity.
  - replace (tr_cfg (sample_tr 4)) with GlobalCMThrottle by (vm_compute; reflexivity).
    apply NoDup_singleton.
Defined.

Lemma InCooldown_iff_used_up_witness :
  InCooldown sample_hash dType (sample_tr 5) sample_text = true <->
    exists r, r ∈ [sample_rule] /\
      Count r <= used sample_hash dType (sample_tr 5) (destKey sample_hash dType (sample_tr 5) (mDest sample_text)) r
        (repeat sample_text 5).
Proof.
  apply (InCooldown_iff_used_up sample_hash dType [sample_rule] sample_now true (repeat sample_text 5)
    (sample_tr 5) sample_text).
  - split; [apply NoDup_singleton|]. repeat constructor. vm_compute. discriminate.
  - vm_compute. reflexivity.
Defined.

Lemma old_messages_do_not_count_witness :
  record_all sample_hash dType (repeat sample_text 5) (NewThrottle GlobalCMThrottle sample_now true) =
  record_all sample_hash dType (List.filter (fun m => Sub sample_now (mSentAt m) <? 5 * Second) (repeat sample_text 5))
    (NewThrottle GlobalCMThrottle sample_now true).
Proof.
  apply (old_messages_do_not_count sample_hash dType (repeat sample_text 5) GlobalCMThrottle sample_now true (5 * Second)).
  intros m r Hr%list_elem_of_singleton. rewrite Hr. reflexivity.
Defined.
