(* ===== verification/Queue.v ===== *)
(** * The queue of outgoing messages: [engine/message/queue.go]

    Built from the messages of the last hours; the pending ones are handed out
    one at a time per destination type, the most urgent first, within the rate
    limits.  Every exported operation holds the queue's lock, so it is one
    step. *)

From S2P Require Import Prelude GoTime Dest Messages Throttle.

(** [rand.Shuffle]: some permutation, another one at each call. *)
Class GoRand := {
  shuffle : forall {A : Type}, nat -> list A -> list A;
  shuffle_perm : forall {A} n (l : list A), shuffle n l ≡ₚ l
}.

Definition no_shuffle : GoRand := {| shuffle := fun A n l => l; shuffle_perm := fun A n l => Permutation_refl l |}.

(** A type that is not in the map has priority 0. *)
Definition typePriority (t : string) : Z :=
  if String.eqb t MessageTypeVerification then 1
  else if String.eqb t MessageTypeTest then 2
  else if String.eqb t MessageTypeScheduleOnCallUsers then 3
  else if String.eqb t MessageTypeAlert then 4
  else if String.eqb t MessageTypeAlertBundle then 4
  else if String.eqb t MessageTypeAlertStatus then 5
  else if String.eqb t MessageTypeSignalMessage then 99
  else 0.

Section Queue.
Context {H : Type} `{Countable H} (Sum256 : string -> H) (Marshal : DestV1 -> string).
Context {HRd : GoRand}.

Record queue := mkQueue {
  sent : list Message;
  pending : gmap string (list Message);
  q_now : Time;
  firstAlert : gset (string * string);
  serviceSent : gmap string Time;
  userSent : gmap string Time;
  destSent : gmap DestID Time;
  cmThrottle : @Throttle H _ _;
  globalThrottle : @Throttle H _ _
}.

Definition set_pending (p : gmap string (list Message)) (q : queue) : queue :=
  mkQueue (sent q) p (q_now q) (firstAlert q) (serviceSent q) (userSent q) (destSent q)
    (cmThrottle q) (globalThrottle q).

Definition pending_of (q : queue) (destType : string) : list Message := default [] (pending q !! destType).

(** A read of a map of times. *)
Definition sent_at {K} `{Countable K} (m : gmap K Time) (k : K) : Time := default zeroTime (m !! k).

(** [m\[k\]] becomes [t] if that is later. *)
Definition latest {K} `{Countable K} (k : K) (t : Time) (m : gmap K Time) : gmap K Time :=
  if After t (sent_at m k) then <[k := t]> m else m.

Definition with_SentAt (m : Message) (t : Time) : Message :=
  mkMsg (mID m) (mType m) (mDestID m) (mDest m) (mAlertID m) (mAlertLogID m) (mVerifyID m)
    (mUserID m) (mServiceID m) (mScheduleID m) (mCreatedAt m) t (mStatusAlertIDs m).

Definition addSent (m : Message) (q : queue) : option queue :=
  let m := if IsZero (mSentAt m) then with_SentAt m (q_now q) else m in
  cm ← Record_ Sum256 Marshal m (cmThrottle q);
  global ← Record_ Sum256 Marshal m (globalThrottle q);
  Some (mkQueue (sent q ++ [m]) (pending q) (q_now q)
    ({[(mServiceID m, dType (mDest m))]} ∪ firstAlert q)
    (latest (mServiceID m) (mSentAt m) (serviceSent q))
    (latest (mUserID m) (mSentAt m) (userSent q))
    (latest (mDestID m) (mSentAt m) (destSent q)) cm global).

Fixpoint newQueue_loop (msgs : list Message) (q : queue) : option queue :=
  match msgs with
  | [] => Some q
  | m :: msgs =>
      if IsZero (mSentAt m) then
        newQueue_loop msgs (set_pending (append_at (dType (mDest m)) m (pending q)) q)
      else q ← addSent m q; newQueue_loop msgs q
  end.

Definition newQueue (msgs : list Message) (now : Time) : option queue :=
  newQueue_loop msgs (mkQueue [] ∅ now ∅ ∅ ∅ ∅
    (NewThrottle PerCMThrottle now false) (NewThrottle GlobalCMThrottle now true)).

Definition userPriority (q : queue) (userA userB : string) : bool * bool :=
  let sentA := sent_at (userSent q) userA in
  let sentB := sent_at (userSent q) userB in
  if EqualT sentA sentB then (false, false) else (Before sentA sentB, true).

Definition servicePriority (q : queue) (serviceA serviceB : string) : bool * bool :=
  let sentA := sent_at (serviceSent q) serviceA in
  let sentB := sent_at (serviceSent q) serviceB in
  if EqualT sentA sentB then (false, false) else (Before sentA sentB, true).

(** Neither throttle is in cooldown for it. *)
Definition eligible (q : queue) (p : Message) : bool :=
  if InCooldown Sum256 Marshal (globalThrottle q) p then false
  else negb (InCooldown Sum256 Marshal (cmThrottle q) p).

Definition filterPending (destType : string) (q : queue) : queue :=
  let pend := pending_of q destType in
  if (length pend =? 0)%nat then q
  else set_pending (<[destType := List.filter (eligible q) pend]> (pending q)) q.

(** The first alert of a service to a type of destination comes before all. *)
Definition msgPriority (q : queue) (p : Message) : Z :=
  if (String.eqb (mType p) MessageTypeAlert || String.eqb (mType p) MessageTypeAlertBundle) &&
     negb (bool_decide ((mServiceID p, dType (mDest p)) ∈ firstAlert q))
  then 0 else typePriority (mType p).

(** The comparisons of the two stable sorts.  [sort.SliceStable] compares an
    element only with one at a smaller index, so [i < j] for equal ones is
    false: their order is kept. *)
Definition created_less (pi pj : Message) : bool :=
  if EqualT (mCreatedAt pi) (mCreatedAt pj) then false else Before (mCreatedAt pi) (mCreatedAt pj).

Definition pending_less (q : queue) (pi pj : Message) : bool :=
  let piTypePriority := msgPriority q pi in
  let pjTypePriority := msgPriority q pj in
  if negb (piTypePriority =? pjTypePriority) then piTypePriority <? pjTypePriority
  else
    let '(isLess, ok) := userPriority q (mUserID pi) (mUserID pj) in
    if ok then isLess
    else
      let '(isLess, ok) := servicePriority q (mServiceID pi) (mServiceID pj) in
      if ok then isLess else false.

Definition sortPending (draw : nat) (destType : string) (q : queue) : queue :=
  let pend := pending_of q destType in
  if (length pend =? 0)%nat then q
  else
    let pend := shuffle draw pend in
    let pend := sort_stable created_less pend in
    let pend := sort_stable (pending_less q) pend in
    set_pending (<[destType := pend]> (pending q)) q.

(** The message, if any; [None] outside is a panic. *)
Definition NextByType (draw : nat) (destType : string) (q : queue) : option (option Message * queue) :=
  let q := filterPending destType q in
  let q := sortPending draw destType q in
  match pending_of q destType with
  | [] => Some (None, q)
  | next :: rest =>
      let q := set_pending (<[destType := rest]> (pending q)) q in
      q ← addSent next q;
      Some (Some next, q)
  end.

Definition SentByType (destType : string) (dur : Z) (q : queue) : Z :=
  let cutoff := Add (q_now q) (- dur) in
  Z.of_nat (length (List.filter (fun msg =>
    After (mSentAt msg) cutoff && String.eqb (dType (mDest msg)) destType) (sent q))).

Definition Types `{GoMapRange} (q : queue) : list string :=
  map fst (List.filter (fun tm : string * list Message => negb (length tm.2 =? 0)%nat) (map_range (pending q))).

(** Messages taken for one type until there are none left. *)
Fixpoint drain (fuel : nat) (draw : nat) (destType : string) (q : queue) : option (list Message * queue) :=
  match fuel with
  | O => None
  | S fuel =>
      '(next, q) ← NextByType draw destType q;
      match next with
      | None => Some ([], q)
      | Some msg => '(out, q) ← drain fuel (draw + 1) destType q; Some (msg :: out, q)
      end
  end.
(** ** Priorities *)

(** What the second sort compares, most significant first. *)
Definition urgency (q : queue) (m : Message) : Z * Z * Z :=
  (msgPriority q m, inst (sent_at (userSent q) (mUserID m)), inst (sent_at (serviceSent q) (mServiceID m))).

Definition lex3 (a b : Z * Z * Z) : bool :=
  (a.1.1 <? b.1.1) || ((a.1.1 =? b.1.1) && ((a.1.2 <? b.1.2) || ((a.1.2 =? b.1.2) && (a.2 <? b.2)))).

Lemma pending_less_urgency q a b : pending_less q a b = lex3 (urgency q a) (urgency q b).
Proof.
  unfold pending_less, lex3, urgency, userPriority, servicePriority, EqualT, Before. cbn [fst snd].
  repeat match goal with |- context [?x =? ?y] => destruct (Z.eqb_spec x y); cbn [negb] end;
    cbn [andb orb negb]; try lia;
    repeat match goal with |- context [?x <? ?y] => destruct (Z.ltb_spec x y) end; cbn [andb orb]; lia || done.
Qed.

Lemma pending_less_strict_weak q : strict_weak (pending_less q).
Proof.
  split; intros *; rewrite !pending_less_urgency; unfold lex3;
    set (a := urgency q x); set (b := urgency q y); try set (c := urgency q z); lia.
Qed.

Lemma created_less_before a b : created_less a b = (inst (mCreatedAt a) <? inst (mCreatedAt b)).
Proof. unfold created_less, EqualT, Before. blia. Qed.

Lemma created_less_strict_weak : strict_weak created_less.
Proof. split; intros *; rewrite !created_less_before; lia. Qed.

(** ** The operations on the pending messages *)

Lemma eligible_spec q m : eligible q m = true <->
  (destKey Sum256 Marshal (globalThrottle q) (mDest m) ∉ tr_cooldown (globalThrottle q)) /\
  (destKey Sum256 Marshal (cmThrottle q) (mDest m) ∉ tr_cooldown (cmThrottle q)).
Proof. unfold eligible, InCooldown. repeat case_bool_decide; simpl; intuition congruence. Qed.

Definition same_sent (q q' : queue) : Prop :=
  sent q' = sent q /\ q_now q' = q_now q /\ firstAlert q' = firstAlert q /\
  serviceSent q' = serviceSent q /\ userSent q' = userSent q /\ destSent q' = destSent q /\
  cmThrottle q' = cmThrottle q /\ globalThrottle q' = globalThrottle q.

Lemma pending_of_insert ty l q ty' :
  pending_of (set_pending (<[ty := l]> (pending q)) q) ty' = if decide (ty' = ty) then l else pending_of q ty'.
Proof.
  unfold pending_of. cbn [pending set_pending]. destruct (decide (ty' = ty)) as [->|Hne].
  - by rewrite lookup_insert_eq.
  - by rewrite lookup_insert_ne.
Qed.

Lemma filterPending_spec ty q :
  same_sent q (filterPending ty q) /\
  forall ty', pending_of (filterPending ty q) ty' =
    if decide (ty' = ty) then List.filter (eligible q) (pending_of q ty) else pending_of q ty'.
Proof.
  unfold filterPending. destruct (pending_of q ty) as [|m l] eqn:E; cbn [length Nat.eqb].
  - split; [done|]. intros ty'. destruct (decide (ty' = ty)) as [->|]; done.
  - split; [done|]. intros ty'. apply pending_of_insert.
Qed.

Lemma sortPending_spec draw ty q :
  same_sent q (sortPending draw ty q) /\
  (forall ty', ty' <> ty -> pending_of (sortPending draw ty q) ty' = pending_of q ty') /\
  pending_of (sortPending draw ty q) ty ≡ₚ pending_of q ty /\
  StronglySorted (lex_after (pending_less q) created_less) (pending_of (sortPending draw ty q) ty).
Proof.
  unfold sortPending. destruct (pending_of q ty) as [|m l] eqn:E; cbn [length Nat.eqb].
  - rewrite E. split; [done|]. split; [done|]. split; [done|constructor].
  - split; [done|]. split; [intros ty' Hne; rewrite pending_of_insert; by rewrite decide_False|].
    rewrite pending_of_insert, decide_True by done. split.
    + by rewrite !sort_stable_perm, shuffle_perm.
    + apply sort_stable_lex; [apply pending_less_strict_weak|].
      apply (sort_stable_sorted _ (fun _ => True)); [|by apply Forall_true].
      destruct created_less_strict_weak as [H1 H2]. split; eauto.
Qed.

(** What [addSent] stores. *)
Definition as_sent (q : queue) (m : Message) : Message :=
  if IsZero (mSentAt m) then with_SentAt m (q_now q) else m.

Lemma addSent_spec m q q' : addSent m q = Some q' ->
  sent q' = sent q ++ [as_sent q m] /\ pending q' = pending q /\ q_now q' = q_now q /\
  Record_ Sum256 Marshal (as_sent q m) (cmThrottle q) = Some (cmThrottle q') /\
  Record_ Sum256 Marshal (as_sent q m) (globalThrottle q) = Some (globalThrottle q').
Proof.
  unfold addSent. fold (as_sent q m). intros E.
  destruct (Record_ Sum256 Marshal (as_sent q m) (cmThrottle q)) as [cm|]; [|done]. cbn [mbind option_bind] in E.
  destruct (Record_ Sum256 Marshal (as_sent q m) (globalThrottle q)) as [g|]; [|done].
  injection E as <-. done.
Qed.

Lemma same_sent_eligible q q' m : same_sent q q' -> eligible q' m = eligible q m.
Proof. intros (_ & _ & _ & _ & _ & _ & E1 & E2). unfold eligible. by rewrite E1, E2. Qed.

Lemma same_sent_urgency q q' m : same_sent q q' -> urgency q' m = urgency q m.
Proof. intros (_ & _ & E1 & E2 & E3 & _). unfold urgency, msgPriority. by rewrite E1, E2, E3. Qed.

(** Before in the order the queue promises. *)
Definition comes_before (q : queue) (m m' : Message) : Prop :=
  lex3 (urgency q m') (urgency q m) = false /\
  (urgency q m' = urgency q m -> inst (mCreatedAt m) <= inst (mCreatedAt m')).

Lemma NextByType_cases draw ty q next q' : NextByType draw ty q = Some (next, q') ->
  q_now q' = q_now q /\
  (forall ty', ty' <> ty -> pending_of q' ty' = pending_of q ty') /\
  match next with
  | None => List.filter (eligible q) (pending_of q ty) = [] /\ pending_of q' ty = [] /\ same_sent q q'
  | Some m =>
      m :: pending_of q' ty ≡ₚ List.filter (eligible q) (pending_of q ty) /\
      Forall (comes_before q m) (pending_of q' ty) /\
      sent q' = sent q ++ [as_sent q m] /\
      Record_ Sum256 Marshal (as_sent q m) (cmThrottle q) = Some (cmThrottle q') /\
      Record_ Sum256 Marshal (as_sent q m) (globalThrottle q) = Some (globalThrottle q')
  end.
Proof.
  unfold NextByType. destruct (filterPending_spec ty q) as [HF1 HF2]. set (q1 := filterPending ty q) in *.
  destruct (sortPending_spec draw ty q1) as (HS1 & HS2 & HS3 & HS4). set (q2 := sortPending draw ty q1) in *.
  assert (same_sent q q2) as HQ by (unfold same_sent in *; intuition congruence).
  rewrite HF2, decide_True in HS3 by done.
  assert (forall ty', ty' <> ty -> pending_of q2 ty' = pending_of q ty') as HO.
  { intros ty' Hne. rewrite HS2, HF2 by done. by rewrite decide_False. }
  destruct (pending_of q2 ty) as [|m rest] eqn:EP; intros E.
  - injection E as <- <-. split; [apply HQ|]. split; [done|]. split; [|by split].
    by apply Permutation_nil in HS3.
  - destruct (addSent m _) as [q3|] eqn:EA; [|done]. cbn [mbind option_bind] in E. injection E as <- <-.
    apply addSent_spec in EA as (A1 & A2 & A3 & A4 & A5).
    assert (forall ty', pending_of q3 ty' = pending_of (set_pending (<[ty := rest]> (pending q2)) q2) ty') as A2'.
    { intros ty'. unfold pending_of. by rewrite A2. }
    destruct HQ as (B1 & B2 & B3 & B4 & B5 & B6 & B7 & B8).
    assert (as_sent (set_pending (<[ty := rest]> (pending q2)) q2) m = as_sent q m) as HA.
    { unfold as_sent. cbn [q_now set_pending]. by rewrite B2. }
    rewrite HA in *. cbn [sent q_now cmThrottle globalThrottle set_pending] in *.
    split; [congruence|]. split.
    { intros ty' Hne. rewrite A2', pending_of_insert, decide_False by done. by apply HO. }
    rewrite A2', pending_of_insert, decide_True by done. split; [done|]. split.
    { apply StronglySorted_inv in HS4 as [_ HS4]. eapply Forall_impl; [exact HS4|].
      intros m' [H1 H2]. rewrite !pending_less_urgency in H1, H2.
      rewrite !(same_sent_urgency q q1) in H1, H2 by done. split; [done|].
      intros HU. rewrite HU in H2. rewrite created_less_before in H2.
      assert (lex3 (urgency q m) (urgency q m) = false) as HL by (unfold lex3; lia).
      specialize (H2 HL). lia. }
    rewrite <- B1, <- B7, <- B8. done.
Qed.

(** ** The queue's invariant *)

Record queue_inv (q : queue) : Prop := {
  qi_cm : counted Sum256 Marshal (sent q) (cmThrottle q);
  qi_global : counted Sum256 Marshal (sent q) (globalThrottle q);
  qi_cm_setup : tr_cfg (cmThrottle q) = PerCMThrottle /\ typeOnly (cmThrottle q) = false /\
    tr_now (cmThrottle q) = q_now q;
  qi_global_setup : tr_cfg (globalThrottle q) = GlobalCMThrottle /\ typeOnly (globalThrottle q) = true /\
    tr_now (globalThrottle q) = q_now q;
  qi_pending : forall ty, Forall (fun m => IsZero (mSentAt m) = true /\ dType (mDest m) = ty) (pending_of q ty) }.

Lemma Record_setup (cfg : ThrottleConfig) b now m (tr tr' : Throttle) :
  Record_ Sum256 Marshal m tr = Some tr' -> tr_cfg tr = cfg /\ typeOnly tr = b /\ tr_now tr = now ->
  tr_cfg tr' = cfg /\ typeOnly tr' = b /\ tr_now tr' = now.
Proof. intros [(E1 & E2 & E3) _]%Record_same_setup (<- & <- & <-). done. Qed.

(** Recording a message in both throttles keeps what is said about them. *)
Lemma queue_inv_sent q q' m :
  queue_inv q -> sent q' = sent q ++ [m] -> q_now q' = q_now q ->
  Record_ Sum256 Marshal m (cmThrottle q) = Some (cmThrottle q') ->
  Record_ Sum256 Marshal m (globalThrottle q) = Some (globalThrottle q') ->
  (forall ty, Forall (fun m => IsZero (mSentAt m) = true /\ dType (mDest m) = ty) (pending_of q' ty)) ->
  queue_inv q'.
Proof.
  intros [H1 H2 H3 H4 H5] E EN EC EG HP. constructor; [..|done].
  - rewrite E. by destruct (counted_Record _ _ _ _ _ _ H1 EC).
  - rewrite E. by destruct (counted_Record _ _ _ _ _ _ H2 EG).
  - rewrite EN. by apply (Record_setup _ _ _ _ _ _ EC).
  - rewrite EN. by apply (Record_setup _ _ _ _ _ _ EG).
Qed.

Lemma addSent_total m q : queue_inv q -> is_Some (addSent m q).
Proof.
  intros [_ _ (H3 & _) (H4 & _) _]. unfold addSent. fold (as_sent q m).
  destruct (Record_total Sum256 Marshal (cmThrottle q) (as_sent q m)) as [cm ->].
  { rewrite H3. apply PerCM_smooth_ok. }
  destruct (Record_total Sum256 Marshal (globalThrottle q) (as_sent q m)) as [g ->].
  { rewrite H4. apply Global_smooth_ok. }
  by eexists.
Qed.

Lemma queue_inv_addSent m q q' : queue_inv q -> addSent m q = Some q' -> queue_inv q'.
Proof.
  intros HI E. apply addSent_spec in E as (A1 & A2 & A3 & A4 & A5).
  apply (queue_inv_sent q _ (as_sent q m)); try done. intros ty. unfold pending_of. rewrite A2. apply HI.
Qed.

Definition unsent (ty : string) (m : Message) : bool :=
  IsZero (mSentAt m) && String.eqb (dType (mDest m)) ty.

(** [newQueue] never fails and files every message. *)
Lemma newQueue_loop_spec msgs : forall q, queue_inv q ->
  exists q', newQueue_loop msgs q = Some q' /\ queue_inv q' /\ q_now q' = q_now q /\
    sent q' = sent q ++ List.filter (fun m => negb (IsZero (mSentAt m))) msgs /\
    forall ty, pending_of q' ty = pending_of q ty ++ List.filter (unsent ty) msgs.
Proof.
  induction msgs as [|m msgs IH]; intros q HI; cbn [newQueue_loop List.filter].
  { exists q. split; [done|]. split; [done|]. split; [done|]. rewrite app_nil_r. split; [done|].
    intros ty. by rewrite app_nil_r. }
  destruct (IsZero (mSentAt m)) eqn:EZ; cbn [negb andb].
  - set (q1 := set_pending _ q).
    assert (forall ty, pending_of q1 ty =
      if decide (ty = dType (mDest m)) then pending_of q ty ++ [m] else pending_of q ty) as HP.
    { intros ty. unfold q1, append_at. rewrite pending_of_insert. destruct (decide _) as [->|]; done. }
    destruct (IH q1) as (q' & -> & HI' & HN & HS & HP').
    { destruct HI as [H1 H2 H3 H4 H5]. constructor; try done. intros ty. rewrite HP.
      destruct (decide (ty = dType (mDest m))) as [->|]; [|done]. apply Forall_app. split; [done|].
      by constructor. }
    exists q'. split; [done|]. split; [done|]. split; [done|]. split; [done|].
    intros ty. replace (unsent ty m) with (String.eqb (dType (mDest m)) ty) by (unfold unsent; by rewrite EZ).
    rewrite HP', HP. destruct (decide (ty = dType (mDest m))) as [->|Hne].
    + by rewrite String.eqb_refl, <- app_assoc.
    + destruct (String.eqb_spec (dType (mDest m)) ty); [congruence|done].
  - destruct (addSent_total m q HI) as [q1 E]. rewrite E. cbn [mbind option_bind].
    pose proof (queue_inv_addSent _ _ _ HI E) as HI1. apply addSent_spec in E as (A1 & A2 & A3 & _).
    destruct (IH q1 HI1) as (q' & -> & HI' & HN & HS & HP'). exists q'. split; [done|]. split; [done|].
    split; [congruence|]. split.
    + rewrite HS, A1, <- app_assoc. unfold as_sent. by rewrite EZ.
    + intros ty. replace (unsent ty m) with false by (unfold unsent; by rewrite EZ).
      rewrite HP'. unfold pending_of. by rewrite A2.
Qed.

Lemma newQueue_spec msgs now : exists q, newQueue msgs now = Some q /\ queue_inv q /\ q_now q = now /\
  sent q = List.filter (fun m => negb (IsZero (mSentAt m))) msgs /\
  forall ty, pending_of q ty = List.filter (unsent ty) msgs.
Proof.
  unfold newQueue. destruct (newQueue_loop_spec msgs (mkQueue [] ∅ now ∅ ∅ ∅ ∅
    (NewThrottle PerCMThrottle now false) (NewThrottle GlobalCMThrottle now true))) as (q & -> & HI & HN & HS & HP).
  - constructor; [apply counted_new|apply counted_new|done|done|]. intros ty. unfold pending_of. cbn [pending].
    rewrite lookup_empty. constructor.
  - exists q. split; [done|]. split; [done|]. split; [done|]. split; [done|].
    intros ty. rewrite HP. unfold pending_of. cbn [pending]. by rewrite lookup_empty.
Qed.

Lemma NextByType_total draw ty q : queue_inv q -> is_Some (NextByType draw ty q).
Proof.
  intros HI. unfold NextByType. destruct (filterPending_spec ty q) as [HF _]. set (q1 := filterPending ty q) in *.
  destruct (sortPending_spec draw ty q1) as [HS _]. set (q2 := sortPending draw ty q1) in *.
  assert (same_sent q q2) as (_ & B2 & _ & _ & _ & _ & B7 & B8) by (unfold same_sent in *; intuition congruence).
  destruct (pending_of q2 ty) as [|m rest]; [by eexists|].
  destruct HI as [_ _ (H3 & _) (H4 & _) _]. set (q3 := set_pending _ q2). unfold addSent. fold (as_sent q3 m).
  destruct (Record_total Sum256 Marshal (cmThrottle q3) (as_sent q3 m)) as [cm ->].
  { unfold q3. cbn [cmThrottle set_pending]. rewrite B7, H3. apply PerCM_smooth_ok. }
  destruct (Record_total Sum256 Marshal (globalThrottle q3) (as_sent q3 m)) as [g ->].
  { unfold q3. cbn [globalThrottle set_pending]. rewrite B8, H4. apply Global_smooth_ok. }
  by eexists.
Qed.

Lemma Forall_perm_filter {A} (P : A -> Prop) (f : A -> bool) x rest l :
  Forall P l -> x :: rest ≡ₚ List.filter f l -> Forall P rest /\ P x.
Proof.
  intros HF HP. rewrite Forall_forall in HF. split; [apply Forall_forall; intros y Hy|].
  all: apply HF; assert (forall z, z ∈ x :: rest -> z ∈ l) as Hin by
    (intros z Hz; rewrite HP in Hz; by apply elem_of_filter_bool in Hz as [? _]).
  - apply Hin. by right.
  - apply Hin. by left.
Qed.

Lemma queue_inv_Next draw ty q next q' :
  queue_inv q -> NextByType draw ty q = Some (next, q') -> queue_inv q'.
Proof.
  intros HI E. apply NextByType_cases in E as (EN & HO & HC). destruct next as [m|].
  - destruct HC as (HP & _ & HS & HCm & HGl). apply (queue_inv_sent q _ (as_sent q m)); try done.
    intros ty'. destruct (decide (ty' = ty)) as [->|Hne]; [|rewrite HO by done; by apply HI].
    by apply (Forall_perm_filter _ _ m _ _ (qi_pending q HI ty)) in HP as [? _].
  - destruct HC as (_ & HP & B1 & B2 & B3 & B4 & B5 & B6 & B7 & B8).
    destruct HI as [H1 H2 H3 H4 H5]. constructor; rewrite ?B1, ?B7, ?B8, ?B2; try done.
    intros ty'. destruct (decide (ty' = ty)) as [->|Hne]; [rewrite HP; constructor|by rewrite HO].
Qed.

(** ** Reachable queues *)

Inductive reach (q0 : queue) : queue -> Prop :=
  | reach_start : reach q0 q0
  | reach_next draw ty q next q' :
      reach q0 q -> NextByType draw ty q = Some (next, q') -> reach q0 q'.

Lemma queue_reach_inv q0 q : queue_inv q0 -> reach q0 q -> queue_inv q.
Proof. induction 2 as [|draw ty q next q' _ IH E]; [done|]. by apply (queue_inv_Next draw ty q next). Qed.

Lemma reach_new msgs now q0 q : newQueue msgs now = Some q0 -> reach q0 q -> queue_inv q.
Proof. intros E. apply queue_reach_inv. destruct (newQueue_spec msgs now) as (q1 & E1 & HI & _). congruence. Qed.

(** No operation of a queue panics: it can be built from any messages, and
    the next message can be asked for in every state that is reached. *)
Theorem queue_never_panics msgs now : exists q0, newQueue msgs now = Some q0 /\
  forall q draw ty, reach q0 q -> is_Some (NextByType draw ty q).
Proof.
  destruct (newQueue_spec msgs now) as (q0 & E & HI & _). exists q0. split; [done|].
  intros q draw ty HR. by apply NextByType_total, (queue_reach_inv q0).
Qed.

(** [NextByType] hands out the most urgent of the pending messages of the type
    that no rate limit holds back, and none exactly if there are none; the others
    of the type that are not held back stay pending, other types are untouched,
    and the message counts as sent now. *)
Theorem NextByType_most_urgent draw ty q next q'
  (E : NextByType draw ty q = Some (next, q')) :
  (forall ty', ty' <> ty -> pending_of q' ty' = pending_of q ty') /\
  match next with
  | None => List.filter (eligible q) (pending_of q ty) = [] /\ pending_of q' ty = [] /\ sent q' = sent q
  | Some m =>
      m :: pending_of q' ty ≡ₚ List.filter (eligible q) (pending_of q ty) /\
      Forall (comes_before q m) (pending_of q' ty) /\
      sent q' = sent q ++ [as_sent q m]
  end.
Proof.
  apply NextByType_cases in E as (_ & HO & HC). split; [done|].
  destruct next; [by destruct HC as (? & ? & ? & _)|]. by destruct HC as (? & ? & ? & _).
Qed.

(** C21: the queue keeps the limits in every state it reaches: with the message
    just handed out, each rule that applies to it counts at most [Count] messages
    of the last [Per], to its destination for the limits per contact method, and
    to its type of destination for the global ones. *)
Theorem queue_keeps_limits msgs now q0 q draw ty m q' r
  (E0 : newQueue msgs now = Some q0) (HR : reach q0 q)
  (E : NextByType draw ty q = Some (Some m, q')) (HC : 1 <= Count r) :
  (r ∈ Rules PerCMThrottle (as_sent q m) ->
     used Sum256 Marshal (cmThrottle q') (DestHash Sum256 Marshal (mDest m)) r (sent q') <= Count r) /\
  (r ∈ Rules GlobalCMThrottle (as_sent q m) ->
     used Sum256 Marshal (globalThrottle q') (Sum256 (dType (mDest m))) r (sent q') <= Count r).
Proof.
  pose proof (reach_new _ _ _ _ E0 HR) as HI. apply NextByType_cases in E as (_ & _ & HP & _ & HS & HCm & HGl).
  assert (eligible q m = true) as HE.
  { assert (m ∈ List.filter (eligible q) (pending_of q ty)) as Hin by (rewrite <- HP; by left).
    by apply elem_of_filter_bool in Hin as [_ ?]. }
  destruct (proj1 (eligible_spec q m) HE) as [HG HCD]. clear HE.
  destruct HI as [H1 H2 (H3 & H4 & _) (H5 & H6 & _) _].
  assert (mDest (as_sent q m) = mDest m) as HD by (unfold as_sent; by destruct (IsZero _)).
  rewrite HS. split; intros Hr.
  - destruct (counted_Record _ _ _ _ _ _ H1 HCm) as [HSS _]. rewrite (used_same _ _ _ _ _ _ _ HSS), used_snoc.
    destruct (H1 (DestHash Sum256 Marshal (mDest m)) r) as [_ HU].
    unfold destKey in HCD. rewrite H4 in HCD. specialize (HU HCD). destruct (_ && _); lia.
  - destruct (counted_Record _ _ _ _ _ _ H2 HGl) as [HSS _]. rewrite (used_same _ _ _ _ _ _ _ HSS), used_snoc.
    destruct (H2 (Sum256 (dType (mDest m))) r) as [_ HU].
    unfold destKey in HG. rewrite H6 in HG. specialize (HU HG). destruct (_ && _); lia.
Qed.

(** ** Draining *)

Lemma eligible_mono draw ty q next q' m :
  NextByType draw ty q = Some (next, q') -> queue_inv q -> eligible q m = false -> eligible q' m = false.
Proof.
  intros E HI HE. apply NextByType_cases in E as (_ & _ & HC). destruct next as [x|].
  2: { destruct HC as (_ & _ & HC). by rewrite (same_sent_eligible q q'). }
  destruct HC as (_ & _ & _ & HCm & HGl). apply Record_same_setup in HCm as [(_ & C1 & _) C2].
  apply Record_same_setup in HGl as [(_ & G1 & _) G2]. unfold eligible, InCooldown, destKey in *.
  rewrite C1, G1. repeat case_bool_decide; try done; set_solver.
Qed.

Lemma drain_spec ty fuel : forall draw q, queue_inv q -> (length (pending_of q ty) < fuel)%nat ->
  exists out dropped q', drain fuel draw ty q = Some (out, q') /\ queue_inv q' /\ pending_of q' ty = [] /\
    out ++ dropped ≡ₚ pending_of q ty /\ Forall (fun m => eligible q' m = false) dropped /\
    (forall m, eligible q m = false -> eligible q' m = false) /\
    (forall ty', ty' <> ty -> pending_of q' ty' = pending_of q ty') /\
    sent q' = sent q ++ map (as_sent q) out.
Proof.
  induction fuel as [|fuel IH]; intros draw q HI HL; [lia|]. cbn [drain].
  destruct (NextByType_total draw ty q HI) as [[next q1] E]. rewrite E. cbn [mbind option_bind].
  pose proof (queue_inv_Next _ _ _ _ _ HI E) as HI1.
  pose proof (fun m => eligible_mono draw ty q next q1 m E HI) as HM.
  apply NextByType_cases in E as (EN & HO & HC). destruct next as [m|].
  - destruct HC as (HP & _ & HS & _).
    pose proof (filter_split_perm (eligible q) (pending_of q ty)) as HSP. rewrite <- HP in HSP.
    destruct (IH (draw + 1)%nat q1 HI1) as (out & dropped & q' & -> & HI' & HE & HD & HF & HM' & HO' & HS').
    { apply Permutation_length in HSP. rewrite length_app in HSP. simpl in HSP. lia. }
    exists (m :: out), (dropped ++ List.filter (fun x => negb (eligible q x)) (pending_of q ty)), q'.
    split; [done|]. split; [done|]. split; [done|]. split; [|split; [|split; [|split]]].
    + etransitivity; [|exact HSP]. rewrite app_assoc. cbn [app]. rewrite HD.
      apply (Permutation_app_comm (m :: pending_of q1 ty)).
    + apply Forall_app. split; [done|]. apply Forall_forall. intros x [_ Hx]%elem_of_filter_bool.
      apply negb_true_iff in Hx. auto.
    + auto.
    + intros ty' Hne. by rewrite HO', HO.
    + rewrite HS', HS, <- app_assoc. cbn [map app]. unfold as_sent. by rewrite EN.
  - destruct HC as (HN & HP & HSS). exists [], (pending_of q ty), q1. split; [done|]. split; [done|].
    split; [done|]. split; [done|]. split; [|split; [|split; [done|]]].
    + apply Forall_forall. intros x Hx. rewrite (same_sent_eligible q q1) by done.
      destruct (eligible q x) eqn:EX; [|done].
      assert (x ∈ List.filter (eligible q) (pending_of q ty)) as Hin by (by apply elem_of_filter_bool).
      rewrite HN in Hin. by apply elem_of_nil in Hin.
    + auto.
    + destruct HSS as (-> & _). by rewrite app_nil_r.
Qed.

(** Asking for messages of a type until there is none terminates, after at
    most one request more than there are pending; every pending message of the
    type is handed out at most once, and one that is not is held back by a rate
    limit when the last has been handed out. *)
Theorem draining_terminates msgs now draw ty :
  exists q0 out dropped q', newQueue msgs now = Some q0 /\
    drain (S (length (List.filter (unsent ty) msgs))) draw ty q0 = Some (out, q') /\
    out ++ dropped ≡ₚ List.filter (unsent ty) msgs /\
    Forall (fun m => eligible q' m = false) dropped /\
    sent q' = List.filter (fun m => negb (IsZero (mSentAt m))) msgs ++ map (fun m => with_SentAt m now) out.
Proof.
  destruct (newQueue_spec msgs now) as (q0 & E & HI & HN & HS & HP).
  destruct (drain_spec ty (S (length (List.filter (unsent ty) msgs))) draw q0 HI)
    as (out & dropped & q' & ED & _ & _ & HD & HF & _ & _ & HS'); [rewrite HP; lia|].
  exists q0, out, dropped, q'. split; [done|]. split; [done|]. rewrite HP in HD. split; [done|].
  split; [done|]. rewrite HS', HS. f_equal. apply map_ext_in. intros m Hm%list_elem_of_In.
  assert (m ∈ List.filter (unsent ty) msgs) as Hin by (rewrite <- HD, elem_of_app; by left).
  apply elem_of_filter_bool in Hin as [_ Hu]. unfold unsent in Hu. apply andb_true_iff in Hu as [Hu _].
  unfold as_sent. by rewrite Hu, HN.
Qed.

End Queue.

(** ** A concrete run *)

(** Two pending test messages to a destination of type "t". *)
Definition sample_pending (id : string) (created : Z) : Message :=
  mkMsg id MessageTypeTest (mkDestID None None) (mkDest ∅ "t") 0 0 "" "u" "" "" (mkTime created UTC) zeroTime [].

Definition sample_none : @queue Z _ _ :=
  mkQueue [] ∅ sample_now ∅ ∅ ∅ ∅ (NewThrottle PerCMThrottle sample_now false)
    (NewThrottle GlobalCMThrottle sample_now true).

Definition sample_q : @queue Z _ _ :=
  default sample_none
    (newQueue sample_hash dType [sample_pending "b" 20; sample_pending "a" 10] sample_now).

Definition sample_next : option Message * @queue Z _ _ :=
  default (None, sample_none) (@NextByType Z _ _ sample_hash dType no_shuffle 0 "t" sample_q).

Lemma NextByType_most_urgent_witness :
  (forall ty', ty' <> "t"%string -> pending_of sample_next.2 ty' = pending_of sample_q ty') /\
  match Some (sample_pending "a" 10) with
  | None => List.filter (eligible sample_hash dType sample_q) (pending_of sample_q "t") = [] /\
      pending_of sample_next.2 "t" = [] /\ sent sample_next.2 = sent sample_q
  | Some m =>
      m :: pending_of sample_next.2 "t" ≡ₚ
        List.filter (eligible sample_hash dType sample_q) (pending_of sample_q "t") /\
      Forall (comes_before sample_q m) (pending_of sample_next.2 "t") /\
      sent sample_next.2 = sent sample_q ++ [as_sent sample_q m]
  end.
Proof.
  apply (@NextByType_most_urgent Z _ _ sample_hash dType no_shuffle 0 "t" sample_q).
  vm_compute. reflexivity.
Defined.

Lemma queue_keeps_limits_witness :
  (sample_rule ∈ Rules PerCMThrottle (as_sent sample_q (sample_pending "a" 10)) ->
     used sample_hash dType (cmThrottle sample_next.2)
       (DestHash sample_hash dType (mDest (sample_pending "a" 10))) sample_rule (sent sample_next.2)
     <= Count sample_rule) /\
  (sample_rule ∈ Rules GlobalCMThrottle (as_sent sample_q (sample_pending "a" 10)) ->
     used sample_hash dType (globalThrottle sample_next.2)
       (sample_hash (dType (mDest (sample_pending "a" 10)))) sample_rule (sent sample_next.2)
     <= Count sample_rule).
Proof.
  apply (@queue_keeps_limits Z _ _ sample_hash dType no_shuffle
    [sample_pending "b" 20; sample_pending "a" 10] sample_now sample_q sample_q 0 "t").
  - vm_compute. reflexivity.
  - apply reach_start.
  - vm_compute. reflexivity.
  - vm_compute. discriminate.
Defined.
