(* ===== verification/Retry.v ===== *)
(** * Retrying: [retry/do.go], [retry/temporary.go], [retry/wrap.go],
      [util/sqlutil.MapError], [validation.IsClientError]

    Errors as far as the program inspects them, their classification, and the
    retry loop with its options. *)

From S2P Require Import Prelude GoTime.

(** ** Errors

    [errors.Is] and [errors.As] walk the chain of an error; a link is what they
    can find there. *)

Record link := mkLink {
  l_canceled : bool;              (** [context.Canceled] *)
  l_deadline : bool;              (** [context.DeadlineExceeded] *)
  l_conn_done : bool;             (** [sql.ErrConnDone] *)
  l_bad_conn : bool;              (** [driver.ErrBadConn] *)
  l_client : option bool;         (** has [ClientError()], and its result *)
  l_net : bool;                   (** is a [net.Error] *)
  l_temporary : option bool;      (** has [Temporary()], and its result *)
  l_pg : option string;           (** is a [pgconn.PgError], and its code *)
  l_sqlutil : option string;      (** is a [sqlutil.Error], and its code *)
  l_field : option string         (** is a [validation.FieldError], and its reason *)
}.

Definition plain : link := mkLink false false false false None false None None None None.

Record error := mkErr { e_text : string; e_chain : list link }.

Definition Is (f : link -> bool) (err : error) : bool := existsb f (e_chain err).

(** The first link of the chain that is of the type. *)
Fixpoint first_some {A B} (f : A -> option B) (l : list A) : option B :=
  match l with
  | [] => None
  | x :: l => match f x with Some y => Some y | None => first_some f l end
  end.

Definition As {B} (f : link -> option B) (err : error) : option B := first_some f (e_chain err).

Definition MapError (err : error) : option string :=
  match As l_pg err with Some code => Some code | None => As l_sqlutil err end.

Definition IsClientError (err : option error) : bool :=
  match err with
  | None => false
  | Some err => match As l_client err with Some b => b | None => false end
  end.

(** [TemporaryError] embeds the error without
    an [Unwrap] method, so its chain is one link. *)
Definition TemporaryError (err : error) : error :=
  mkErr (e_text err) [mkLink false false false false None false (Some true) None None None].

(** [validation.WrapError] *)
Definition WrapError (err : error) : error :=
  mkErr (e_text err) (mkLink false false false false (Some true) false None None None None :: e_chain err).

Definition IsTemporaryError (err : option error) : bool :=
  match err with
  | None => false
  | Some e =>
      if Is l_canceled e then false
      else if Is l_deadline e then false
      else if IsClientError err then false
      else if Is l_net e then true
      else if match As l_temporary e with Some b => b | None => false end then true
      else if Is l_conn_done e then true
      else if Is l_bad_conn e then true
      else match MapError e with
           | Some code =>
               if String.prefix "40" code || String.prefix "08" code then true
               else if String.eqb code "55P03" then true
               else false
           | None => false
           end
  end.

(** ** The Fibonacci table *)

(** The loop of [fib] extends [_fib] up to index [n]; Go's [int] wraps. *)
Fixpoint fib_loop (fuel : nat) (n : nat) (tbl : list Z) : list Z :=
  match fuel with
  | O => tbl
  | S fuel =>
      let i := (length tbl - 1)%nat in
      if (i <? n)%nat then
        fib_loop fuel n (tbl ++ [wrap64 (nth (i - 1) tbl 0 + nth i tbl 0)])
      else tbl
  end.

Definition fib_init : list Z := [0; 1].

(** The value and the table after the call. *)
Definition fib (n : nat) (tbl : list Z) : Z * list Z :=
  let tbl := fib_loop n n tbl in (nth n tbl 0, tbl).

(** ** The loop *)

Section Do.
Context {S : Type}.

(** An option sees the attempt and the last error; it may sleep. *)
Definition Option_ : Type := nat -> option error -> S -> bool * list Z.

(** A function sees the attempt; it may change the state. *)
Definition DoFunc : Type := nat -> S -> (bool * option error) * S.

Fixpoint run_opts (opts : list Option_) (n : nat) (err : option error) (s : S) : bool * list Z :=
  match opts with
  | [] => (true, [])
  | opt :: opts =>
      let '(b, slept) := opt n err s in
      if negb b then (false, slept)
      else let '(b, slept') := run_opts opts n err s in (b, slept ++ slept')
  end.

(** [None] is out of fuel: the loop has not ended yet. *)
Fixpoint Do_loop (fuel : nat) (fn : DoFunc) (opts : list Option_) (n : nat) (err : option error) (s : S)
  (slept : list Z) : option (option error * S * list Z) :=
  match fuel with
  | O => None
  | Datatypes.S fuel =>
      let '(go, more) := run_opts opts n err s in
      if negb go then Some (err, s, slept ++ more)
      else
        let '(retry, err, s) := fn n s in
        if negb retry then Some (err, s, slept ++ more)
        else Do_loop fuel fn opts (n + 1) err s (slept ++ more)
  end.

Definition Do (fuel : nat) (fn : DoFunc) (opts : list Option_) (s : S) : option (option error * S * list Z) :=
  Do_loop fuel fn opts 0 None s [].

(** Logging has no effect on the loop. *)
Definition Log : Option_ := fun _ _ _ => (true, []).
Definition Limit (n : Z) : Option_ := fun a _ _ => (Z.of_nat a <? n, []).

(** [intn] is the random number below 100 drawn for the attempt; the table is
    initialised up to [fib(30)]. *)
Definition backoff (intn : nat -> Z) (d : Z) (a : nat) : Z :=
  wrap64 (wrap64 ((fib a fib_init).1 * d) + (intn a - 50) * 1000000).
Definition FibBackoff (intn : nat -> Z) (d : Z) : Option_ := fun a _ _ =>
  if (a =? 0)%nat then (true, []) else (true, [backoff intn d a]).

(** [Context]: [ctx_err] tells whether the context is done. *)
Definition Context_ (ctx_err : S -> bool) : Option_ := fun _ _ s => (negb (ctx_err s), []).

Definition DoTemporaryError (fuel : nat) (fn : nat -> S -> option error * S) (opts : list Option_) (s : S) :=
  Do fuel (fun n s => let '(err, s) := fn n s in ((IsTemporaryError err, err), s)) opts s.


(** ** What the loop does *)

(** The first [k] attempts, one after the other: the answer of the last. *)
Fixpoint run_attempts (fn : DoFunc) (k : nat) (s : S) : (bool * option error) * S :=
  match k with
  | O => ((true, None), s)
  | Datatypes.S k => fn k (run_attempts fn k s).2
  end.

(** The options the program retries with. *)
Definition std_opts (lim : Z) (intn : nat -> Z) (d : Z) : list Option_ := [Log; Limit lim; FibBackoff intn d].

Lemma run_std_opts lim intn d n err s :
  run_opts (std_opts lim intn d) n err s =
    if Z.of_nat n <? lim then (true, if (n =? 0)%nat then [] else [backoff intn d n]) else (false, []).
Proof.
  unfold std_opts, run_opts, Log, Limit, FibBackoff. cbn [negb].
  destruct (Z.of_nat n <? lim); cbn [negb]; [|done]. by destruct (n =? 0)%nat.
Qed.

Lemma Do_loop_std fn lim intn d s0 : forall fuel n slept,
  (Z.to_nat lim < n + fuel)%nat -> Z.of_nat n < lim \/ (0 < n)%nat ->
  (forall i, (1 <= i <= n)%nat -> (run_attempts fn i s0).1.1 = true) ->
  slept = map (backoff intn d) (seq 1 (n - 1)) ->
  Z.of_nat n <= lim ->
  exists k, (1 <= k)%nat /\ Z.of_nat k <= lim /\
    Do_loop fuel fn (std_opts lim intn d) n (run_attempts fn n s0).1.2 (run_attempts fn n s0).2 slept =
      Some ((run_attempts fn k s0).1.2, (run_attempts fn k s0).2, map (backoff intn d) (seq 1 (k - 1))) /\
    (forall i, (1 <= i < k)%nat -> (run_attempts fn i s0).1.1 = true) /\
    ((run_attempts fn k s0).1.1 = false \/ Z.of_nat k = lim).
Proof.
  induction fuel as [|fuel IH]; intros n slept HF Hn HR HS HL; [lia|]. cbn [Do_loop].
  rewrite run_std_opts. destruct (Z.ltb_spec (Z.of_nat n) lim) as [Hlt|Hge]; cbn [negb].
  2: { exists n. assert (0 < n)%nat by lia. split; [lia|]. split; [lia|].
    rewrite app_nil_r, HS. split; [done|]. split; [|right; lia]. intros i Hi. apply HR. lia. }
  change (fn n (run_attempts fn n s0).2) with (run_attempts fn (Datatypes.S n) s0).
  destruct (run_attempts fn (Datatypes.S n) s0) as [[r e] s1] eqn:E.
  assert (slept ++ (if (n =? 0)%nat then [] else [backoff intn d n]) =
    map (backoff intn d) (seq 1 (Datatypes.S n - 1))) as ->.
  { rewrite HS. destruct n as [|n]; [done|]. cbn [Nat.eqb].
    replace (Datatypes.S (Datatypes.S n) - 1)%nat with (n + 1)%nat by lia.
    replace (Datatypes.S n - 1)%nat with n by lia. by rewrite seq_app, map_app. }
  destruct r; cbn [negb].
  - specialize (IH (Datatypes.S n) (map (backoff intn d) (seq 1 (Datatypes.S n - 1)))).
    rewrite E in IH. cbn [fst snd] in IH. rewrite Nat.add_1_r. apply IH; [lia|lia| |done|lia].
    intros i Hi. destruct (decide (i = Datatypes.S n)) as [->|]; [by rewrite E|apply HR; lia].
  - exists (Datatypes.S n). rewrite E. split; [lia|]. split; [lia|]. split; [done|].
    split; [|by left]. intros i Hi. apply HR. lia.
Qed.

(** A limit among the options bounds the loop; what every attempt preserves is
    preserved. *)
Lemma run_opts_limited opts lim n err s :
  Limit lim ∈ opts -> lim <= Z.of_nat n -> (run_opts opts n err s).1 = false.
Proof.
  intros Hin HL. induction opts as [|o opts IH]; [by apply elem_of_nil in Hin|]. cbn [run_opts].
  destruct (o n err s) as [b sl] eqn:E. destruct b; cbn [negb]; [|done].
  apply elem_of_cons in Hin as [<-|Hin].
  - unfold Limit in E. injection E as E _. apply Z.ltb_lt in E. lia.
  - specialize (IH Hin). destruct (run_opts opts n err s). cbn in *. done.
Qed.

Lemma Do_loop_limited opts lim fn : Limit lim ∈ opts -> forall fuel n err s slept,
  (0 < fuel)%nat -> (Z.to_nat lim < n + fuel)%nat -> is_Some (Do_loop fuel fn opts n err s slept).
Proof.
  intros Hin. induction fuel as [|fuel IH]; intros n err s slept H0 HF; [lia|]. cbn [Do_loop].
  destruct (run_opts opts n err s) as [go more] eqn:E. destruct go; cbn [negb]; [|by eexists].
  assert (Z.of_nat n < lim) as Hn.
  { destruct (Z.lt_ge_cases (Z.of_nat n) lim) as [|Hge]; [done|].
    pose proof (run_opts_limited opts lim n err s Hin Hge) as HR. rewrite E in HR. done. }
  destruct (fn n s) as [[r e] s1]. destruct r; cbn [negb]; [|by eexists]. apply IH; lia.
Qed.

Lemma Do_limited opts lim fn s : Limit lim ∈ opts ->
  is_Some (Do (Datatypes.S (Z.to_nat lim)) fn opts s).
Proof. intros Hin. apply (Do_loop_limited opts lim fn Hin); lia. Qed.

Lemma Do_loop_preserves (P : S -> Prop) fn opts :
  (forall n s, P s -> P (fn n s).2) -> forall fuel n err s slept e s' sl,
  P s -> Do_loop fuel fn opts n err s slept = Some (e, s', sl) -> P s'.
Proof.
  intros HP. induction fuel as [|fuel IH]; intros n err s slept e s' sl Hs E; cbn [Do_loop] in E; [done|].
  destruct (run_opts opts n err s) as [go more]. destruct go; cbn [negb] in E; [|by injection E as <- <- <-].
  specialize (HP n s Hs). destruct (fn n s) as [[r err1] s1]. cbn [snd] in HP.
  destruct r; cbn [negb] in E; [by apply (IH _ _ _ _ _ _ _ HP E)|by injection E as <- <- <-].
Qed.

Lemma DoTemporaryError_preserves (P : S -> Prop) fn opts fuel s e s' sl :
  (forall n s, P s -> P (fn n s).2) -> P s ->
  DoTemporaryError fuel fn opts s = Some (e, s', sl) -> P s'.
Proof.
  intros HP Hs. apply Do_loop_preserves; [|done]. intros n s1 H1. specialize (HP n s1 H1).
  by destruct (fn n s1).
Qed.

Lemma Do_std fn lim intn d s fuel : 1 <= lim -> (Z.to_nat lim < fuel)%nat ->
  exists k, (1 <= k)%nat /\ Z.of_nat k <= lim /\
    Do fuel fn (std_opts lim intn d) s =
      Some ((run_attempts fn k s).1.2, (run_attempts fn k s).2, map (backoff intn d) (seq 1 (k - 1))) /\
    (forall i, (1 <= i < k)%nat -> (run_attempts fn i s).1.1 = true) /\
    ((run_attempts fn k s).1.1 = false \/ Z.of_nat k = lim).
Proof.
  intros Hl HF. unfold Do.
  apply (Do_loop_std fn lim intn d s fuel O []); [lia|left; lia|intros; lia|done|lia].
Qed.

End Do.

(** [Wrap]: the result of the last attempt, with its error. *)
Definition Wrap {S T A} (fn : A -> S -> (T * option error) * S) (zero : T) (attempts : Z)
  (intn : nat -> Z) (bk : Z) (fuel : nat) (a : A) (s : S) : option (T * option error * S) :=
  let step (_ : nat) (ts : T * S) :=
    let '((res, err), s) := fn a ts.2 in (err, (res, s)) in
  '(err, ts, _) ← DoTemporaryError fuel step [Log; Limit attempts; FibBackoff intn bk] (zero, s);
  Some (ts.1, err, ts.2).

(** The attempts of [DoTemporaryError], without the answer whether to go on. *)
Fixpoint run_temp {S} (fn : nat -> S -> option error * S) (k : nat) (s : S) : option error * S :=
  match k with
  | O => (None, s)
  | Datatypes.S k => fn k (run_temp fn k s).2
  end.

Lemma run_temp_attempts {S} (fn : nat -> S -> option error * S) k s :
  run_attempts (fun n s => let '(err, s) := fn n s in ((IsTemporaryError err, err), s)) (Datatypes.S k) s =
    let '(err, s) := run_temp fn (Datatypes.S k) s in ((IsTemporaryError err, err), s).
Proof.
  induction k as [|k IH]; [done|].
  change (run_attempts ?f (Datatypes.S (Datatypes.S k)) s) with (f (Datatypes.S k) (run_attempts f (Datatypes.S k) s).2).
  cbv beta. rewrite IH. cbn [run_temp]. by destruct (fn k (run_temp fn k s).2).
Qed.

Lemma DoTemporaryError_spec {S} (fn : nat -> S -> option error * S) lim intn d fuel (s : S)
  (HL : 1 <= lim) (HF : (Z.to_nat lim < fuel)%nat) :
  exists k, (1 <= k)%nat /\ Z.of_nat k <= lim /\
    DoTemporaryError fuel fn [Log; Limit lim; FibBackoff intn d] s =
      Some ((run_temp fn k s).1, (run_temp fn k s).2, map (backoff intn d) (seq 1 (k - 1))) /\
    (forall i, (1 <= i < k)%nat -> IsTemporaryError (run_temp fn i s).1 = true) /\
    (IsTemporaryError (run_temp fn k s).1 = false \/ Z.of_nat k = lim).
Proof.
  unfold DoTemporaryError. destruct (Do_std (fun n s => let '(err, s) := fn n s in ((IsTemporaryError err, err), s))
    lim intn d s fuel HL HF) as (k & H1 & H2 & E & HR & HE).
  exists k. split; [done|]. split; [done|].
  assert (forall i, (1 <= i)%nat -> run_attempts (fun n s => let '(err, s) := fn n s in ((IsTemporaryError err, err), s)) i s =
    let '(err, s) := run_temp fn i s in ((IsTemporaryError err, err), s)) as HA.
  { intros [|i] Hi; [lia|]. apply run_temp_attempts. }
  unfold std_opts in E. rewrite E, !HA by done. rewrite HA in HE by done.
  destruct (run_temp fn k s) as [e s'] eqn:EK. cbn [fst snd] in *. split; [done|]. split; [|done].
  intros i Hi. specialize (HR i Hi). rewrite HA in HR by lia. by destruct (run_temp fn i s).
Qed.

(** C40: retrying terminates within the limit: with the options the program uses
    there is a number of attempts, at least one and at most the limit, after
    which the state and the error of the last attempt are returned; every attempt
    before it failed with a temporary error, the last one did not unless it is
    the limit's, and before each attempt but the first the time of the
    Fibonacci sequence is waited. *)
Theorem DoTemporaryError_ends_within_limit {S} (fn : nat -> S -> option error * S) lim intn d fuel (s : S)
  (HL : 1 <= lim) (HF : (Z.to_nat lim < fuel)%nat) :
  exists k, (1 <= k)%nat /\ Z.of_nat k <= lim /\
    DoTemporaryError fuel fn [Log; Limit lim; FibBackoff intn d] s =
      Some ((run_temp fn k s).1, (run_temp fn k s).2, map (backoff intn d) (seq 1 (k - 1))) /\
    (forall i, (1 <= i < k)%nat -> IsTemporaryError (run_temp fn i s).1 = true) /\
    (IsTemporaryError (run_temp fn k s).1 = false \/ Z.of_nat k = lim).
Proof. by apply DoTemporaryError_spec. Qed.

Lemma DoTemporaryError_ends_within_limit_witness :
  exists k, (1 <= k)%nat /\ Z.of_nat k <= 3 /\
    DoTemporaryError 4 (fun n (s : Z) => (if (n <? 1)%nat then Some (TemporaryError (mkErr "busy" [plain])) else None, s + 1))
      [Log; Limit 3; FibBackoff (fun _ => 50) 1000] 0 =
      Some ((run_temp (fun n (s : Z) => (if (n <? 1)%nat then Some (TemporaryError (mkErr "busy" [plain])) else None, s + 1)) k 0).1,
        (run_temp (fun n (s : Z) => (if (n <? 1)%nat then Some (TemporaryError (mkErr "busy" [plain])) else None, s + 1)) k 0).2,
        map (backoff (fun _ => 50) 1000) (seq 1 (k - 1))) /\
    (forall i, (1 <= i < k)%nat -> IsTemporaryError (run_temp (fun n (s : Z) =>
      (if (n <? 1)%nat then Some (TemporaryError (mkErr "busy" [plain])) else None, s + 1)) i 0).1 = true) /\
    (IsTemporaryError (run_temp (fun n (s : Z) =>
      (if (n <? 1)%nat then Some (TemporaryError (mkErr "busy" [plain])) else None, s + 1)) k 0).1 = false \/ Z.of_nat k = 3).
Proof. apply DoTemporaryError_ends_within_limit; lia. Defined.

(** ** The Fibonacci numbers *)

Fixpoint fib_pair (n : nat) : Z * Z :=
  match n with
  | O => (0, 1)
  | S n => let '(a, b) := fib_pair n in (b, a + b)
  end.

Definition fibonacci (n : nat) : Z := (fib_pair n).1.

Lemma fib_pair_snd n : (fib_pair n).2 = fibonacci (S n).
Proof. unfold fibonacci. simpl. by destruct (fib_pair n). Qed.

Lemma fibonacci_step n : fibonacci (S (S n)) = fibonacci n + fibonacci (S n).
Proof.
  rewrite <- (fib_pair_snd n). unfold fibonacci. simpl. by destruct (fib_pair n).
Qed.

(** The table holds the first Fibonacci numbers, wrapped. *)
Definition table_ok (tbl : list Z) : Prop :=
  (2 <= length tbl)%nat /\ forall i, (i < length tbl)%nat -> nth i tbl 0 = wrap64 (fibonacci i).

Lemma wrap64_add a b : wrap64 (wrap64 a + wrap64 b) = wrap64 (a + b).
Proof. unfold wrap64, two63. Z.to_euclidean_division_equations; lia. Qed.

Lemma fib_loop_ok fuel n : forall tbl, table_ok tbl -> (n + 1 <= length tbl + fuel)%nat ->
  table_ok (fib_loop fuel n tbl) /\ (n < length (fib_loop fuel n tbl))%nat.
Proof.
  induction fuel as [|fuel IH]; intros tbl [H1 H2] HL; cbn [fib_loop]; [split; [done|lia]|].
  destruct (Nat.ltb_spec (length tbl - 1) n); [|split; [done|lia]].
  apply IH; [|rewrite length_app; simpl; lia]. split; [rewrite length_app; simpl; lia|].
  intros i Hi. rewrite length_app in Hi. simpl in Hi. destruct (decide (i = length tbl)) as [->|].
  - rewrite app_nth2, Nat.sub_diag by lia. cbn [nth]. rewrite !H2, wrap64_add by lia.
    destruct (length tbl) as [|[|k]]; [lia..|]. rewrite fibonacci_step.
    replace (S (S k) - 1 - 1)%nat with k by lia. by replace (S (S k) - 1)%nat with (S k) by lia.
  - rewrite app_nth1 by lia. apply H2. lia.
Qed.

Lemma fib_init_ok : table_ok fib_init.
Proof. split; [simpl; lia|]. intros [|[|i]] Hi; [done|done|simpl in Hi; lia]. Qed.

Lemma fibonacci_mono n : 0 <= fibonacci n <= fibonacci (S n).
Proof.
  induction n as [|n IH]; [done|]. rewrite fibonacci_step. lia.
Qed.

Lemma fibonacci_le m n : (m <= n)%nat -> fibonacci m <= fibonacci n.
Proof. induction 1; [done|]. pose proof (fibonacci_mono m0). lia. Qed.

(** Whatever calls were made before, [fib] returns the Fibonacci number; it is
    exact up to 92, the last one an [int] holds, and wraps around after that. *)
Theorem fib_is_fibonacci calls n :
  let tbl := fold_left (fun tbl m => (fib m tbl).2) calls fib_init in
  (fib n tbl).1 = wrap64 (fibonacci n) /\ ((n <= 92)%nat -> (fib n tbl).1 = fibonacci n).
Proof.
  intros tbl. assert (table_ok tbl) as HT.
  { unfold tbl. clear tbl. generalize fib_init_ok. generalize fib_init.
    induction calls as [|m calls IH]; intros t Ht; cbn [fold_left]; [done|]. apply IH. unfold fib. cbn [snd].
    apply fib_loop_ok; [done|]. destruct Ht. lia. }
  assert ((fib n tbl).1 = wrap64 (fibonacci n)) as HE.
  { unfold fib. cbn [fst]. destruct (fib_loop_ok n n tbl HT) as [[_ H2] HL]; [destruct HT; lia|]. by apply H2. }
  split; [done|]. intros Hn. rewrite HE. apply wrap64_id.
  pose proof (fibonacci_le n 92 Hn) as HM. pose proof (fibonacci_mono n).
  assert (fibonacci 92 < two63) by reflexivity. unfold in64. unfold two63 in *. lia.
Qed.
