(* ===== verification/Diagnostics.v ===== *)
(** * Diagnostics of providers: [notification/nfymsg/diagnostics.go]

    What a provider says may quote a destination.  Only texts of a fixed list
    and codes of a fixed form are kept; errors are replaced by ones that keep
    their class and nothing else. *)

From S2P Require Import Prelude Text Retry.

Fixpoint all_digits (s : string) : bool :=
  match s with "" => true | String c s => is_digit c && all_digits s end.

(** [\[0-9\]{1,6}] *)
Definition code_digits (s : string) : bool :=
  all_digits s && (1 <=? String.length s)%nat && (String.length s <=? 6)%nat.

(** [\[1-5\]\[0-9\]{2}] *)
Definition http_status (s : string) : bool :=
  match s with
  | String a (String _ (String _ "")) =>
      all_digits s && (49 <=? Ascii.nat_of_ascii a)%nat && (Ascii.nat_of_ascii a <=? 53)%nat
  | _ => false
  end.

(** The text is the prefix and something [f] accepts. *)
Definition after_prefix (p : string) (f : string -> bool) (s : string) : bool :=
  match strip_prefix p s with Some rest => f rest | None => false end.

(** Digits and a closing bracket. *)
Fixpoint bracketed (s : string) (n : nat) : bool :=
  match s with
  | "]" => (1 <=? n)%nat && (n <=? 6)%nat
  | String c s => is_digit c && bracketed s (S n)
  | "" => false
  end.

Definition status_words : list string :=
  ["queued"; "sending"; "sent"; "delivered"; "read"; "failed"; "undelivered"; "initiated"; "ringing";
   "in-progress"; "completed"; "busy"; "no-answer"; "canceled"]%string.

(** [safeDiagnosticCode.MatchString] *)
Definition safeDiagnosticCode (s : string) : bool :=
  after_prefix "webhook request failed: HTTP status " http_status s ||
  after_prefix "Twilio error code " code_digits s ||
  existsb (fun w => after_prefix (w ++ ": [") (fun rest => bracketed rest 0) s) status_words.

Definition safe_texts : list string :=
  ([""; "queued"; "sending"; "sent"; "delivered"; "read"; "failed"; "undelivered"; "initiated"; "ringing";
    "in-progress"; "completed"; "busy"; "no-answer"; "canceled";
    "invalid or not allowed URL"; "destination address is not allowed by administrator";
    "invalid destination"; "invalid phone number"; "does not exist"; "unknown field ID"; "unsupported field ID";
    "scheme is required for URL"; "host is required for URL"; "url is not allowed by administator";
    "User not found."; "user group not found"; "invalid user group id"; "Channel is required."; "Channel is archived.";
    "Channel does not exist, is archived, or is private (invite goalert bot)."; "Permission Denied.";
    "alerts acked/closed before message sent"; "provider operation failed"; "provider details withheld";
    "No escalation policy steps"; "missing users, sent error to channel"; "empty user-group, sent error to channel";
    "failed to update user-group, sent error to channel and log";
    "unsupported operation"; "destination type is not enabled"; "unknown destination type";
    "gateway signing failed: gateway signing unavailable"; "gateway signing failed: gateway signing configuration is invalid";
    "gateway message type is not supported"; "webhook delivery identity is required";
    "webhook request could not be created"; "webhook alert state is invalid";
    "notification_recipient_invalid"; "notification_recipient_org_denied"; "notification_authority_unavailable";
    "webhook request failed"; "webhook request failed: context canceled";
    "webhook request failed: context deadline exceeded"])%string.

Definition withheld : string := "provider details withheld".

Definition DiagnosticText (text : string) : string :=
  if existsb (String.eqb text) safe_texts then text
  else if safeDiagnosticCode text then text
  else withheld.

(** [errors.New], [fmt.Errorf] with one wrapped error. *)
Definition errors_New (text : string) : error := mkErr text [plain].
Definition wraps (text : string) (l : link) : error := mkErr text [plain; l].

Definition Canceled : link := mkLink true false false false None false None None None None.
(** [context.DeadlineExceeded] is a [net.Error] and temporary. *)
Definition DeadlineExceeded : link := mkLink false true false false None true (Some true) None None None.

Definition ProviderError (err : option error) : option error :=
  match err with
  | None => None
  | Some e =>
      if Is l_canceled e then Some (wraps "provider operation failed: context canceled" Canceled)
      else if Is l_deadline e then Some (wraps "provider operation failed: context deadline exceeded" DeadlineExceeded)
      else
        let reason := match As l_field e with Some r => r | None => e_text e end in
        let text := DiagnosticText reason in
        let text :=
          if String.eqb text withheld then
            if IsClientError err then "invalid destination"%string else "provider operation failed"%string
          else text in
        let safe := errors_New text in
        if IsClientError err then Some (WrapError safe)
        else if IsTemporaryError err then Some (TemporaryError safe)
        else Some safe
  end.

(** ** Classes *)

(** The replacement of a provider's error is retried exactly if the error
    itself would have been, and is a cancellation, a timeout or a client error
    exactly if it was one, the first of these that applies; nothing else of the
    error is left but a text that may be stored. *)
Theorem ProviderError_keeps_class e : exists e', ProviderError (Some e) = Some e' /\
  IsTemporaryError (Some e') = IsTemporaryError (Some e) /\
  Is l_canceled e' = Is l_canceled e /\
  Is l_deadline e' = (negb (Is l_canceled e) && Is l_deadline e) /\
  IsClientError (Some e') =
    (negb (Is l_canceled e) && negb (Is l_deadline e) && IsClientError (Some e)) /\
  (DiagnosticText (e_text e') = e_text e' \/
   e_text e' = "provider operation failed: context canceled"%string \/
   e_text e' = "provider operation failed: context deadline exceeded"%string).
Proof.
  unfold ProviderError. destruct (Is l_canceled e) eqn:EC.
  { eexists. split; [reflexivity|]. unfold IsTemporaryError. rewrite EC. cbn. tauto. }
  destruct (Is l_deadline e) eqn:ED.
  { eexists. split; [reflexivity|]. unfold IsTemporaryError. rewrite EC, ED. cbn. tauto. }
  set (text := if String.eqb _ _ then _ else _).
  assert (DiagnosticText text = text) as HT.
  { unfold text. destruct (String.eqb_spec (DiagnosticText (match As l_field e with Some r => r | None => e_text e end)) withheld) as [|Hne].
    - by destruct (IsClientError (Some e)).
    - unfold DiagnosticText in *. set (r := match As l_field e with Some r => r | None => e_text e end) in *.
      destruct (existsb (String.eqb r) safe_texts) eqn:E1; [by rewrite E1|].
      destruct (safeDiagnosticCode r) eqn:E2; [by rewrite E1, E2|done]. }
  destruct (IsClientError (Some e)) eqn:EL.
  { eexists. split; [reflexivity|]. unfold IsTemporaryError. rewrite EC, ED, EL. cbn. tauto. }
  destruct (IsTemporaryError (Some e)) eqn:ET; eexists; (split; [reflexivity|]); cbn; tauto.
Qed.

(** ** Digits *)

(** The longest run of digits of a text, after [cur] digits. *)
Fixpoint digit_run (s : string) (cur : nat) : nat :=
  match s with
  | "" => cur
  | String c s => if is_digit c then digit_run s (S cur) else Nat.max cur (digit_run s 0)
  end.

Lemma digit_run_ge s : forall cur, (cur <= digit_run s cur)%nat.
Proof. induction s as [|c s IH]; intros cur; simpl; [lia|]. destruct (is_digit c); [specialize (IH (S cur))|]; lia. Qed.

Lemma all_digits_run s : forall cur, all_digits s = true -> digit_run s cur = (cur + String.length s)%nat.
Proof.
  induction s as [|c s IH]; intros cur; simpl; [lia|]. destruct (is_digit c); cbn [andb]; [|done].
  intros H. rewrite IH by done. lia.
Qed.

Definition bracket : Ascii.ascii := Ascii.ascii_of_nat 93.

Lemma bracketed_run s : forall n, bracketed s n = true -> (digit_run s n <= 6)%nat.
Proof.
  induction s as [|c s IH]; intros n H; [done|].
  assert (s = "" /\ c = bracket /\ (n <= 6)%nat \/ is_digit c = true /\ bracketed s (S n) = true) as [(-> & -> & Hn)|[Hc Hs]].
  { destruct s as [|c' s].
    - destruct (Ascii.eqb_spec c bracket) as [->|Hne]; [left|right].
      + cbn in H. apply andb_true_iff in H as [_ H]. apply Nat.leb_le in H. done.
      + destruct c as [[] [] [] [] [] [] [] []]; cbn in H; done || (exfalso; by apply Hne).
    - right. apply andb_true_iff. destruct c as [[] [] [] [] [] [] [] []]; exact H. }
  - simpl. lia.
  - simpl. rewrite Hc. by apply IH.
Qed.

(** After a text that does not end in a digit the count starts anew. *)
Lemma digit_run_app p rest c : is_digit c = false -> forall cur,
  digit_run ((p ++ String c "") ++ rest) cur = Nat.max (digit_run (p ++ String c "") cur) (digit_run rest 0).
Proof.
  intros Hc. induction p as [|a p IH]; intros cur.
  - change (digit_run (String c rest) cur = Nat.max (digit_run (String c "") cur) (digit_run rest 0)).
    simpl. rewrite Hc. simpl. lia.
  - change ((if is_digit a then digit_run ((p ++ String c "") ++ rest) (S cur)
        else Nat.max cur (digit_run ((p ++ String c "") ++ rest) 0)) =
      Nat.max (if is_digit a then digit_run (p ++ String c "") (S cur)
        else Nat.max cur (digit_run (p ++ String c "") 0)) (digit_run rest 0)).
    destruct (is_digit a); rewrite IH; lia.
Qed.

Lemma after_prefix_run p c f s :
  is_digit c = false -> (digit_run (p ++ String c "") 0 <= 6)%nat ->
  (forall rest, f rest = true -> (digit_run rest 0 <= 6)%nat) ->
  after_prefix (p ++ String c "") f s = true -> (digit_run s 0 <= 6)%nat.
Proof.
  intros Hc Hp Hf. unfold after_prefix. destruct (strip_prefix _ s) as [rest|] eqn:E; [|done].
  intros HF. apply strip_prefix_app in E as ->. rewrite digit_run_app by done. specialize (Hf rest HF). lia.
Qed.

Definition space : Ascii.ascii := Ascii.ascii_of_nat 32.
Definition open_bracket : Ascii.ascii := Ascii.ascii_of_nat 91.

Lemma safe_code_run s : safeDiagnosticCode s = true -> (digit_run s 0 <= 6)%nat.
Proof.
  unfold safeDiagnosticCode. intros [[H|H]%orb_true_iff|H]%orb_true_iff.
  - apply (after_prefix_run "webhook request failed: HTTP status" space http_status); [done|simpl; lia| |done].
    intros rest Hr. destruct rest as [|a [|b [|d [|? ?]]]]; try done. unfold http_status in Hr.
    apply andb_true_iff in Hr as [[Hr _]%andb_true_iff _]. rewrite all_digits_run by done. simpl. lia.
  - apply (after_prefix_run "Twilio error code" space code_digits); [done|simpl; lia| |done].
    intros rest Hr. unfold code_digits in Hr. apply andb_true_iff in Hr as [[Hr _]%andb_true_iff HL].
    apply Nat.leb_le in HL. rewrite all_digits_run by done. lia.
  - apply existsb_exists in H as (w & Hw & H).
    assert (exists p, (w ++ ": [")%string = (p ++ String open_bracket "")%string /\ (digit_run (p ++ String open_bracket "") 0 <= 6)%nat) as (p & HE & Hp).
    { exists (w ++ ": ")%string. repeat (destruct Hw as [<-|Hw]; [split; [reflexivity|vm_compute; lia]|]). done. }
    rewrite HE in H. apply (after_prefix_run p open_bracket (fun rest => bracketed rest 0)); [done|done| |done].
    intros rest. apply bracketed_run.
Qed.

(** A text kept from a provider never holds more than six digits in a row, so
    no phone number; keeping it again changes nothing. *)
Theorem DiagnosticText_holds_no_number t :
  (digit_run (DiagnosticText t) 0 <= 6)%nat /\ DiagnosticText (DiagnosticText t) = DiagnosticText t.
Proof.
  unfold DiagnosticText at 1 3 4. destruct (existsb (String.eqb t) safe_texts) eqn:E1.
  { split; [|unfold DiagnosticText; by rewrite E1]. apply existsb_exists in E1 as (x & Hx & <-%String.eqb_eq).
    assert (forallb (fun t => (digit_run t 0 <=? 6)%nat) safe_texts = true) as HF by reflexivity.
    rewrite forallb_forall in HF. by apply Nat.leb_le, HF. }
  destruct (safeDiagnosticCode t) eqn:E2.
  { split; [by apply safe_code_run|]. unfold DiagnosticText. by rewrite E1, E2. }
  split; [simpl; lia|reflexivity].
Qed.
