(* ===== verification/Outgoing.v ===== *)
(** * The table of outgoing messages: the statements of
      [engine/message/db.go], [gadb/providermessageid.go],
      [engine/message/status.go]

    A row is what a message is (never changed) and where it stands.  Each
    prepared statement is a function on the rows at a time; the table's
    constraints may refuse it.  SQL comparisons with null select nothing. *)

From S2P Require Import Prelude GoTime Dest Messages.

(** ** Provider ids *)

Record ProviderMessageID := mkPID { ExternalID : string; ProviderName : string }.

Definition PID_String (p : ProviderMessageID) : string :=
  if String.eqb (ProviderName p) "" || String.eqb (ExternalID p) "" then ""
  else (ProviderName p ++ ":" ++ ExternalID p)%string.

(** The column, or null. *)
Definition PID_Value (p : ProviderMessageID) : option string :=
  let name :=
    if String.eqb (ProviderName p) "builtin-twilio-sms" then "Twilio-SMS"%string
    else if String.eqb (ProviderName p) "builtin-twilio-voice" then "Twilio-Voice"%string
    else ProviderName p in
  let val := PID_String (mkPID (ExternalID p) name) in
  if String.eqb val "" then None else Some val.

(** [strings.Cut] at the first colon. *)
Fixpoint cut_colon (s : string) : option (string * string) :=
  match s with
  | "" => None
  | String c s =>
      if Ascii.eqb c (Ascii.ascii_of_nat 58) then Some (""%string, s)
      else '(a, b) ← cut_colon s; Some (String c a, b)
  end.

(** [None] is the error. *)
Definition PID_Scan (value : option string) : option ProviderMessageID :=
  match value with
  | None => Some (mkPID "" "")
  | Some v =>
      '(name, ext) ← cut_colon v;
      Some (mkPID ext
        (if String.eqb name "Twilio-SMS" then "builtin-twilio-sms"%string
         else if String.eqb name "Twilio-Voice" then "builtin-twilio-voice"%string
         else name))
  end.

(** ** Rows *)

(** [enum_outgoing_messages_status] *)
Inductive OStatus :=
  | Bundled | Delivered | Failed | Pending | QueuedRemotely | Read | Sending | Sent.

#[export] Instance OStatus_eq_dec : EqDecision OStatus.
Proof. solve_decision. Defined.

(** [Status.IsSent] *)
Definition IsSent (s : OStatus) : bool :=
  match s with QueuedRemotely | Delivered | Sent | Read => true | _ => false end.

Record Info := mkInfo {
  o_id : string;
  o_type : string;
  o_cm : option string;
  o_chan : option string;
  o_user : option string;
  o_service : option string;
  o_alert : option Z;
  o_alert_log : option Z;
  o_verify : option string;
  o_schedule : option string;
  o_created : Z;
  o_status_alerts : list Z
}.

Record State := mkState {
  last_status : OStatus;
  last_status_at : option Z;
  status_details : string;
  next_retry_at : option Z;
  retry_count : Z;
  cycle_id : option string;
  sending_deadline : option Z;
  fired_at : option Z;
  sent_at : option Z;
  provider_msg_id : option string;
  provider_seq : Z;
  src_value : option string
}.

Record ORow := mkRow { r_info : Info; r_state : State }.

Definition id_of (r : ORow) : string := o_id (r_info r).

(** A contact method, as far as the statements join it. *)
Record ContactMethod := mkCM {
  cm_type : string;
  cm_disabled : bool;
  cm_enable_status_updates : bool;
  cm_user : string;
  cm_dest : DestV1
}.

(** Null equals nothing. *)
Definition sql_eq (a b : option string) : bool :=
  match a, b with Some a, Some b => String.eqb a b | _, _ => false end.

Definition coalesce {A} (a b : option A) : option A := match a with Some _ => a | None => b end.

(** ** Statements on one row *)

Section row.
Variable now : Z.

(** [where id = $1 or provider_msg_id = $2] *)
Definition addressed (id pid : option string) (r : ORow) : bool :=
  sql_eq (Some (id_of r)) id || sql_eq (provider_msg_id (r_state r)) pid.

Definition set_tempFail (pid : option string) (details : string) (s : State) : State :=
  mkState Failed (Some now) details
    (if retry_count s <? 3 then Some (now + 15 * Second) else None) (retry_count s) (cycle_id s)
    (sending_deadline s) (fired_at s) (sent_at s) (coalesce pid (provider_msg_id s)) (provider_seq s) (src_value s).

Definition set_permFail (pid : option string) (details : string) (s : State) : State :=
  mkState Failed (Some now) details None (retry_count s) None
    (sending_deadline s) (fired_at s) (sent_at s) (coalesce pid (provider_msg_id s)) (provider_seq s) (src_value s).

Definition where_updateStatus (id pid : option string) (seq : Z) (r : ORow) : bool :=
  addressed id pid r &&
  ((provider_seq (r_state r) <=? seq) || (seq =? -1)) &&
  negb (bool_decide (last_status (r_state r) = Failed) || bool_decide (last_status (r_state r) = Pending)).

Definition set_updateStatus (pid : option string) (seq : Z) (st : OStatus) (details : string)
  (src : option string) (s : State) : State :=
  mkState st (Some now) details None (retry_count s) None None None
    (Some (match sent_at s with Some t => t | None => match fired_at s with Some t => t | None => now end end))
    (coalesce pid (provider_msg_id s)) (if seq =? -1 then provider_seq s else seq) (coalesce (src_value s) src).

Definition set_setSending (s : State) : State :=
  mkState Sending (Some now) "" None (retry_count s) (cycle_id s) (Some (now + 10 * Second)) (Some now)
    (sent_at s) None 0 (src_value s).

Definition where_sendDeadlineExpired (r : ORow) : bool :=
  bool_decide (last_status (r_state r) = Sending) &&
  match sending_deadline (r_state r) with Some d => d <=? now | None => false end.

Definition set_failed (details : string) (s : State) : State :=
  mkState Failed (Some now) details None (retry_count s) None (sending_deadline s) (fired_at s) (sent_at s)
    (provider_msg_id s) (provider_seq s) (src_value s).

Definition where_retryReset (r : ORow) : bool :=
  bool_decide (last_status (r_state r) = Failed) &&
  match next_retry_at (r_state r) with Some t => t <? now | None => false end &&
  (retry_count (r_state r) <? 3).

Definition set_retryReset (s : State) : State :=
  mkState Pending (last_status_at s) "" None (retry_count s + 1) (cycle_id s) (sending_deadline s) None None
    None 0 (src_value s).

Definition where_retryClear (r : ORow) : bool :=
  bool_decide (last_status (r_state r) = Failed) && (3 <=? retry_count (r_state r)) &&
  (match cycle_id (r_state r) with Some _ => true | None => false end ||
   match next_retry_at (r_state r) with Some _ => true | None => false end).

Definition set_retryClear (s : State) : State :=
  mkState (last_status s) (last_status_at s) (status_details s) None (retry_count s) None (sending_deadline s)
    (fired_at s) (sent_at s) (provider_msg_id s) (provider_seq s) (src_value s).

Definition set_bundle (parent : string) (s : State) : State :=
  mkState Bundled (Some now) parent (next_retry_at s) (retry_count s) None (sending_deadline s)
    (fired_at s) (sent_at s) (provider_msg_id s) (provider_seq s) (src_value s).

(** The joins with [user_contact_methods]. *)
Variable cms : gmap string ContactMethod.

Definition joined_cm (r : ORow) : option ContactMethod := o_cm (r_info r) ≫= fun id => cms !! id.

Definition where_cleanupStatusUpdateOptOut (r : ORow) : bool :=
  String.eqb (o_type (r_info r)) MessageTypeAlertStatus &&
  (bool_decide (last_status (r_state r) = Pending) ||
   (bool_decide (last_status (r_state r) = Failed) &&
    match next_retry_at (r_state r) with Some _ => true | None => false end)) &&
  match joined_cm r with Some cm => negb (cm_enable_status_updates cm) | None => false end.

Definition where_failDisabledCM (r : ORow) : bool :=
  bool_decide (last_status (r_state r) = Pending) &&
  negb (String.eqb (o_type (r_info r)) MessageTypeVerification) &&
  match joined_cm r with Some cm => cm_disabled cm | None => false end.

Definition where_failSMSVoice (r : ORow) : bool :=
  bool_decide (last_status (r_state r) = Pending) &&
  match joined_cm r with
  | Some cm => String.eqb (cm_type cm) "SMS" || String.eqb (cm_type cm) "VOICE"
  | None => false
  end.

Definition where_stuck (r : ORow) : bool :=
  bool_decide (last_status (r_state r) = QueuedRemotely) &&
  match last_status_at (r_state r) with Some t => t <? now - 60 * Second | None => false end &&
  match provider_msg_id (r_state r) with Some _ => true | None => false end.

(** A new row of [createAlertBundle]. *)
Definition new_bundle (id : string) (created : Z) (cm chan user service : option string) : ORow :=
  mkRow (mkInfo id MessageTypeAlertBundle cm chan user service None None None None created [])
    (mkState Pending (Some now) "" None 0 None None None None None 0 None).
End row.

(** ** Statements on the table *)

Inductive stmt :=
  | TempFail (id pid : option string) (details : string)
  | PermFail (id pid : option string) (details : string)
  | UpdateStatus (id pid : option string) (seq : Z) (st : option OStatus) (details : string) (src : option string)
  | SetSending (id : string)
  | SendDeadlineExpired
  | RetryReset
  | RetryClear
  | FailDisabledCM
  | FailSMSVoice
  | CleanupStatusUpdateOptOut
  | CreateAlertBundle (id : string) (created : Z) (cm chan user service : option string)
  | BundleMessages (parent : string) (ids : list string)
  | DeleteAny (ids : list string)
  | TouchStuck (ids : list string).

(** [update ... where] *)
Definition update (w : ORow -> bool) (set : State -> State) (rows : list ORow) : list ORow :=
  map (fun r => if w r then mkRow (r_info r) (set (r_state r)) else r) rows.

Definition touch (now : Z) (s : State) : State :=
  mkState (last_status s) (Some now) (status_details s) (next_retry_at s) (retry_count s) (cycle_id s)
    (sending_deadline s) (fired_at s) (sent_at s) (provider_msg_id s) (provider_seq s) (src_value s).

Definition is_id (ids : list string) (r : ORow) : bool := existsb (String.eqb (id_of r)) ids.

(** The check constraints on the status. *)
Definition is_null {A} (x : option A) : bool := match x with None => true | Some _ => false end.

Definition checks (s : State) : bool :=
  match last_status s with
  | Pending => is_null (fired_at s) && is_null (sent_at s)
  | Sending => negb (is_null (sending_deadline s)) && negb (is_null (fired_at s)) && is_null (sent_at s)
  | Failed | Bundled => true
  | _ => is_null (fired_at s) && negb (is_null (sent_at s))
  end.

(** The unique indexes. *)
Definition provider_ids (rows : list ORow) : list string :=
  omap (fun r => provider_msg_id (r_state r)) rows.

Definition table_ok (rows : list ORow) : bool :=
  forallb (fun r => checks (r_state r)) rows && bool_decide (NoDup (provider_ids rows)) &&
  bool_decide (NoDup (map id_of rows)).

Definition apply_stmt (cms : gmap string ContactMethod) (now : Z) (st : stmt) (rows : list ORow) : option (list ORow) :=
  match st with
  | TempFail id pid details => Some (update (addressed id pid) (set_tempFail now pid details) rows)
  | PermFail id pid details => Some (update (addressed id pid) (set_permFail now pid details) rows)
  | UpdateStatus id pid seq (Some st) details src =>
      Some (update (where_updateStatus id pid seq) (set_updateStatus now pid seq st details src) rows)
  | UpdateStatus _ _ _ None _ _ => None      (** not a value of the enum *)
  | SetSending id => Some (update (is_id [id]) (set_setSending now) rows)
  | SendDeadlineExpired =>
      Some (update (where_sendDeadlineExpired now) (set_failed now "send deadline expired") rows)
  | RetryReset => Some (update (where_retryReset now) set_retryReset rows)
  | RetryClear => Some (update where_retryClear set_retryClear rows)
  | FailDisabledCM => Some (update (where_failDisabledCM cms) (set_failed now "contact method disabled") rows)
  | FailSMSVoice =>
      Some (update (where_failSMSVoice cms) (set_failed now "SMS/Voice support not enabled by administrator") rows)
  | CleanupStatusUpdateOptOut => Some (List.filter (fun r => negb (where_cleanupStatusUpdateOptOut cms r)) rows)
  | CreateAlertBundle id created cm chan user service =>
      Some (rows ++ [new_bundle now id created cm chan user service])
  | BundleMessages parent ids => Some (update (is_id ids) (set_bundle now parent) rows)
  | DeleteAny ids => Some (List.filter (fun r => negb (is_id ids r)) rows)
  | TouchStuck ids => Some (update (is_id ids) (touch now) rows)
  end.

(** [None] is an error of the statement. *)
Definition exec (cms : gmap string ContactMethod) (now : Z) (st : stmt) (rows : list ORow) : option (list ORow) :=
  rows ← apply_stmt cms now st rows;
  if table_ok rows then Some rows else None.

(** ** Provider ids are read back *)

Definition colon : Ascii.ascii := Ascii.ascii_of_nat 58.

Fixpoint no_colon (s : string) : bool :=
  match s with "" => true | String c s => negb (Ascii.eqb c colon) && no_colon s end.

Lemma cut_colon_app a b : no_colon a = true -> cut_colon (a ++ String colon b) = Some (a, b).
Proof.
  induction a as [|c a IH]; cbn [no_colon]; [done|]. intros [Hc Ha]%andb_true_iff.
  apply negb_true_iff in Hc. change (cut_colon (String c (a ++ String colon b)) = Some (String c a, b)).
  cbn [cut_colon]. fold colon. rewrite Hc, IH by done. done.
Qed.

(** The column written for a provider's message id reads back as the id, with
    today's name for the two providers that have an older one in the column; an
    id without a name or without an external id is null and reads as the empty
    id. *)
Theorem ProviderMessageID_roundtrip p (HC : no_colon (ProviderName p) = true)
  (HL : ProviderName p <> "Twilio-SMS"%string /\ ProviderName p <> "Twilio-Voice"%string) :
  PID_Scan (PID_Value p) =
    Some (if String.eqb (ProviderName p) "" || String.eqb (ExternalID p) "" then mkPID "" "" else p).
Proof.
  destruct p as [ext name]. cbn [ProviderName ExternalID] in *. destruct HL as [HL1 HL2].
  unfold PID_Value, PID_String. cbn [ProviderName ExternalID].
  destruct (String.eqb ext "") eqn:HE; rewrite ?orb_true_r; cbn [String.eqb PID_Scan]; [done|].
  rewrite !orb_false_r. destruct (String.eqb name "") eqn:HN.
  { apply String.eqb_eq in HN as ->. done. }
  set (col := if String.eqb name "builtin-twilio-sms" then _ else _).
  assert (no_colon col = true /\ String.eqb col "" = false /\
    (if String.eqb col "Twilio-SMS" then "builtin-twilio-sms"%string
     else if String.eqb col "Twilio-Voice" then "builtin-twilio-voice"%string else col) = name) as (H1 & H2 & H3).
  { unfold col. destruct (String.eqb_spec name "builtin-twilio-sms") as [->|]; [done|].
    destruct (String.eqb_spec name "builtin-twilio-voice") as [->|]; [done|].
    by rewrite (proj2 (String.eqb_neq name _) HL1), (proj2 (String.eqb_neq name _) HL2). }
  rewrite H2. destruct (String.eqb_spec (col ++ ":" ++ ext) "") as [E|_]; [by destruct col|].
  cbn [PID_Scan]. change (col ++ ":" ++ ext)%string with (col ++ String colon ext)%string.
  rewrite cut_colon_app by done. cbn [mbind option_bind]. by rewrite H3.
Qed.

Lemma ProviderMessageID_roundtrip_witness :
  PID_Scan (PID_Value (mkPID "SM1:2" "builtin-twilio-sms")) =
    Some (if String.eqb "builtin-twilio-sms" "" || String.eqb "SM1:2" "" then mkPID "" ""
          else mkPID "SM1:2" "builtin-twilio-sms").
Proof.
  apply (ProviderMessageID_roundtrip (mkPID "SM1:2" "builtin-twilio-sms")); [reflexivity|].
  split; discriminate.
Defined.

(** ** What a statement does to a row *)

Lemma elem_of_update w set rows r' : r' ∈ update w set rows <->
  exists r, r ∈ rows /\ r' = if w r then mkRow (r_info r) (set (r_state r)) else r.
Proof. unfold update. rewrite list_elem_of_fmap. split; intros (r & H1 & H2); by exists r. Qed.

Lemma update_ids w set rows : map id_of (update w set rows) = map id_of rows.
Proof. unfold update. rewrite map_map. apply map_ext. intros r. by destruct (w r). Qed.

(** Statements that neither send, nor retry, nor insert. *)
Definition calm (st : stmt) : bool :=
  match st with
  | SetSending _ | RetryReset | CreateAlertBundle _ _ _ _ _ _ => false
  | UpdateStatus _ _ _ (Some s) _ _ => IsSent s
  | _ => true
  end.

(** The row is an old one that was not made pending, and not retried. *)
Definition calm_step (rows : list ORow) (r' : ORow) : Prop :=
  exists r, r ∈ rows /\ r_info r' = r_info r /\ retry_count (r_state r') = retry_count (r_state r) /\
    (last_status (r_state r') = Pending -> last_status (r_state r) = Pending).

Lemma calm_update w set rows r' :
  (forall s, retry_count (set s) = retry_count s /\ (last_status (set s) = Pending -> last_status s = Pending)) ->
  r' ∈ update w set rows -> calm_step rows r'.
Proof.
  intros HS (r & Hr & ->)%elem_of_update. exists r. split; [done|].
  destruct (w r); cbn [r_info r_state]; [|done]. destruct (HS (r_state r)). done.
Qed.

Lemma calm_keep f rows r' : r' ∈ List.filter f rows -> calm_step rows r'.
Proof. intros [Hr _]%elem_of_filter_bool. by exists r'. Qed.

Lemma calm_stmt cms now st rows rows' : calm st = true -> apply_stmt cms now st rows = Some rows' ->
  forall r', r' ∈ rows' -> calm_step rows r'.
Proof.
  intros HC E r'. destruct st as [| |id pid seq [s|] details src| | | | | | | | | | |]; try done; injection E as <-;
    try apply calm_keep; apply calm_update; intros s0; split; try done.
  cbn [last_status set_updateStatus]. intros ->. done.
Qed.

(** ** The life of a message *)

(** The rows, the ids a cycle has offered to send and not sent yet, and, for each
    id ever sent, how often. *)
Record Life := mkLife { lf_rows : list ORow; lf_offered : gset string; lf_attempts : gmap string nat }.

Definition attempts (m : Life) (id : string) : nat := default O (lf_attempts m !! id).

Lemma attempts_insert rows offered m id n i :
  attempts (mkLife rows offered (<[id := n]> (lf_attempts m))) i = if decide (i = id) then n else attempts m i.
Proof.
  unfold attempts. cbn [lf_attempts]. destruct (decide (i = id)) as [->|Hne].
  - by rewrite lookup_insert_eq.
  - by rewrite lookup_insert_ne.
Qed.

Definition fresh (m : Life) (r : ORow) : Prop :=
  last_status (r_state r) = Pending /\ retry_count (r_state r) = 0 /\ attempts m (id_of r) = O /\
  id_of r ∉ map id_of (lf_rows m).

Definition pending_ids (rows : list ORow) : gset string :=
  list_to_set (map id_of (List.filter (fun r => bool_decide (last_status (r_state r) = Pending)) rows)).

Inductive life_step (cms : gmap string ContactMethod) : Life -> Life -> Prop :=
  (** status reports, and the statements of a cycle that neither retry nor insert *)
  | life_calm m now st rows' :
      calm st = true -> exec cms now st (lf_rows m) = Some rows' ->
      life_step cms m (mkLife rows' (lf_offered m) (lf_attempts m))
  (** between cycles: failed messages are retried *)
  | life_retry m now rows' :
      lf_offered m = ∅ -> exec cms now RetryReset (lf_rows m) = Some rows' ->
      life_step cms m (mkLife rows' ∅ (lf_attempts m))
  (** any module of the engine adds a message *)
  | life_insert m r :
      fresh m r -> life_step cms m (mkLife (lf_rows m ++ [r]) (lf_offered m) (lf_attempts m))
  (** a cycle adds a bundle, and offers it *)
  | life_bundle m r :
      fresh m r -> life_step cms m (mkLife (lf_rows m ++ [r]) ({[id_of r]} ∪ lf_offered m) (lf_attempts m))
  (** a cycle reads the pending messages *)
  | life_offer m :
      lf_offered m = ∅ ->
      life_step cms m (mkLife (lf_rows m) (pending_ids (lf_rows m)) (lf_attempts m))
  (** it sends each at most once *)
  | life_send m now id rows' :
      id ∈ lf_offered m -> exec cms now (SetSending id) (lf_rows m) = Some rows' ->
      life_step cms m (mkLife rows' (lf_offered m ∖ {[id]}) (<[id := S (attempts m id)]> (lf_attempts m)))
  (** and ends *)
  | life_end m : life_step cms m (mkLife (lf_rows m) ∅ (lf_attempts m)).

Inductive life (cms : gmap string ContactMethod) : Life -> Prop :=
  | life_init : life cms (mkLife [] ∅ ∅)
  | life_next m m' : life cms m -> life_step cms m m' -> life cms m'.

(** Never more attempts than retries and one; not more than retries for a
    message that is pending or offered. *)
Definition row_inv (m : Life) (r : ORow) : Prop :=
  0 <= retry_count (r_state r) <= 3 /\
  Z.of_nat (attempts m (id_of r)) <= retry_count (r_state r) + 1 /\
  (last_status (r_state r) = Pending \/ id_of r ∈ lf_offered m ->
   Z.of_nat (attempts m (id_of r)) <= retry_count (r_state r)).

Record life_inv (m : Life) : Prop := {
  li_ids : NoDup (map id_of (lf_rows m));
  li_rows : forall r, r ∈ lf_rows m -> row_inv m r;
  li_offered : forall id, id ∈ lf_offered m -> (attempts m id <= 3)%nat;
  li_all : forall id, (attempts m id <= 4)%nat }.

Lemma exec_ok cms now st rows rows' : exec cms now st rows = Some rows' ->
  apply_stmt cms now st rows = Some rows' /\ NoDup (map id_of rows').
Proof.
  unfold exec. destruct (apply_stmt cms now st rows) as [rs|]; [|done]. cbn [mbind option_bind].
  destruct (table_ok rs) eqn:E; [|done]. intros [= <-]. split; [done|].
  unfold table_ok in E. apply andb_true_iff in E as [_ E]. by apply bool_decide_eq_true in E.
Qed.

Lemma life_inv_calm m cms now st rows' : life_inv m -> calm st = true ->
  exec cms now st (lf_rows m) = Some rows' -> life_inv (mkLife rows' (lf_offered m) (lf_attempts m)).
Proof.
  intros [H1 H2 H3 H4] HC E. apply exec_ok in E as [E HN]. constructor; [done| |done|done].
  intros r' Hr'. destruct (calm_stmt _ _ _ _ _ HC E r' Hr') as (r & Hr & HI & HR & HP).
  destruct (H2 r Hr) as (G1 & G2 & G3). unfold row_inv, id_of in *. rewrite HI, HR.
  split; [done|]. split; [done|]. intros [Hp|Ho]; apply G3; [left; auto|by right].
Qed.

Lemma life_inv_retry m cms now rows' : life_inv m -> lf_offered m = ∅ ->
  exec cms now RetryReset (lf_rows m) = Some rows' -> life_inv (mkLife rows' ∅ (lf_attempts m)).
Proof.
  intros [H1 H2 H3 H4] HO E. apply exec_ok in E as [E HN]. injection E as <-.
  constructor; [done| |by intros i Hi%elem_of_empty|done].
  intros r' (r & Hr & ->)%elem_of_update. destruct (H2 r Hr) as (G1 & G2 & G3).
  destruct (where_retryReset now r) eqn:EW.
  - unfold where_retryReset in EW. apply andb_true_iff in EW as [_ EW]. apply Z.ltb_lt in EW.
    unfold row_inv, attempts, id_of in *. cbn [r_info r_state retry_count set_retryReset lf_attempts] in *.
    split; [lia|]. split; [lia|]. intros _. done.
  - split; [done|]. split; [done|]. intros [Hp|Ho%elem_of_empty]; [apply G3; by left|done].
Qed.

Lemma life_inv_send m cms now id rows' : life_inv m -> id ∈ lf_offered m ->
  exec cms now (SetSending id) (lf_rows m) = Some rows' ->
  life_inv (mkLife rows' (lf_offered m ∖ {[id]}) (<[id := S (attempts m id)]> (lf_attempts m))).
Proof.
  intros [H1 H2 H3 H4] HO E. apply exec_ok in E as [E HN]. injection E as <-.
  constructor; [done| | |].
  - intros r' (r & Hr & ->)%elem_of_update. unfold is_id. cbn [existsb]. rewrite orb_false_r.
    destruct (String.eqb_spec (id_of r) id) as [<-|Hne].
    + destruct (H2 r Hr) as (G1 & G2 & G3). specialize (G3 (or_intror HO)).
      unfold row_inv. rewrite attempts_insert, decide_True by done. cbn [r_state retry_count set_setSending last_status lf_offered].
      split; [done|]. split; [unfold id_of in *; lia|]. intros [?|Ho]; [done|].
      by apply elem_of_difference in Ho as [_ Ho%not_elem_of_singleton].
    + unfold row_inv. rewrite attempts_insert, decide_False by done. destruct (H2 r Hr) as (F1 & F2 & F3).
      split; [done|]. split; [done|]. cbn [lf_offered].
      intros [Hp|[Ho _]%elem_of_difference]; apply F3; [by left|by right].
  - intros i [Hi Hne]%elem_of_difference. rewrite attempts_insert, decide_False by (intros ->; by apply Hne, elem_of_singleton).
    by apply H3.
  - intros i. rewrite attempts_insert. destruct (decide _) as [_|_]; [specialize (H3 id HO); lia|apply H4].
Qed.

Lemma elem_of_pending_ids rows id : id ∈ pending_ids rows <->
  exists r, r ∈ rows /\ id_of r = id /\ last_status (r_state r) = Pending.
Proof.
  unfold pending_ids. rewrite elem_of_list_to_set, list_elem_of_fmap.
  setoid_rewrite elem_of_filter_bool. setoid_rewrite bool_decide_eq_true.
  split; [intros (r & -> & Hr & Hp)|intros (r & Hr & <- & Hp)]; by exists r.
Qed.

Lemma life_inv_offer m : life_inv m -> life_inv (mkLife (lf_rows m) (pending_ids (lf_rows m)) (lf_attempts m)).
Proof.
  intros [H1 H2 H3 H4]. constructor; [done| | |done].
  - intros r Hr. destruct (H2 r Hr) as (G1 & G2 & G3). split; [done|]. split; [done|].
    intros [Hp|(r1 & Hr1 & HE & Hp)%elem_of_pending_ids]; apply G3; left; [done|].
    assert (r = r1) as -> by (by apply (NoDup_map_inj id_of (lf_rows m))). done.
  - intros id (r & Hr & <- & Hp)%elem_of_pending_ids. destruct (H2 r Hr) as (G1 & G2 & G3).
    specialize (G3 (or_introl Hp)). change (attempts _ (id_of r)) with (attempts m (id_of r)). lia.
Qed.

Lemma life_inv_insert m r offered : life_inv m -> fresh m r ->
  (offered = lf_offered m \/ offered = {[id_of r]} ∪ lf_offered m) ->
  life_inv (mkLife (lf_rows m ++ [r]) offered (lf_attempts m)).
Proof.
  intros [H1 H2 H3 H4] (F1 & F2 & F3 & F4) HO.
  assert (forall id, id ∈ offered -> id = id_of r \/ id ∈ lf_offered m) as HO'.
  { intros id Hid. destruct HO as [-> | ->]; [by right|].
    apply elem_of_union in Hid as [Hid%elem_of_singleton|Hid]; auto. }
  constructor; cbn [lf_rows lf_offered]; [| | |done].
  - rewrite map_app. apply NoDup_app. split; [done|]. split; [|apply NoDup_singleton].
    intros x Hx ->%list_elem_of_singleton. done.
  - intros r' [Hr| ->%list_elem_of_singleton]%elem_of_app; unfold row_inv.
    + destruct (H2 r' Hr) as (G1 & G2 & G3). split; [done|]. split; [done|]. cbn [lf_offered].
      intros [Hp|[HE|Ho]%HO']; apply G3; [by left| |by right].
      exfalso. apply F4. rewrite <- HE. apply list_elem_of_fmap. by exists r'.
    + change (attempts _ (id_of r)) with (attempts m (id_of r)). rewrite F2, F3. lia.
  - intros id [-> |Hid]%HO'; [|by apply H3]. change (attempts _ (id_of r)) with (attempts m (id_of r)). lia.
Qed.

Lemma life_inv_end m : life_inv m -> life_inv (mkLife (lf_rows m) ∅ (lf_attempts m)).
Proof.
  intros [H1 H2 H3 H4]. constructor; [done| |by intros i Hi%elem_of_empty|done].
  intros r Hr. destruct (H2 r Hr) as (G1 & G2 & G3). split; [done|]. split; [done|].
  intros [Hp|Hin%elem_of_empty]; [apply G3; by left|done].
Qed.

Lemma life_inv_reachable cms m : life cms m -> life_inv m.
Proof.
  induction 1 as [|m m' _ IH Hs].
  { constructor; [constructor|by intros r Hr%elem_of_nil|by intros i Hi%elem_of_empty|].
    intros i. unfold attempts. cbn. rewrite lookup_empty. simpl. lia. }
  destruct Hs as [m now st rows' HC E|m now rows' HO E|m r HF|m r HF|m HO|m now i rows' HO E|m].
  - by apply (life_inv_calm m cms now st).
  - by apply (life_inv_retry m cms now).
  - apply life_inv_insert; auto.
  - apply life_inv_insert; auto.
  - by apply life_inv_offer.
  - by apply (life_inv_send m cms now).
  - by apply life_inv_end.
Qed.

(** C20: no message is attempted more than four times: however status reports,
    cycles, failures and new messages follow each other, if a cycle sends only
    what it has read as pending, each once, then at most the first attempt and
    three retries are made for a message. *)
Theorem at_most_four_attempts cms m id (HR : life cms m) : (attempts m id <= 4)%nat.
Proof. by apply li_all, (life_inv_reachable cms). Qed.

(** A message inserted, offered and sent once. *)
Definition sample_row : ORow :=
  mkRow (mkInfo "m1" MessageTypeTest (Some "cm1"%string) None None None None None None None 0 [])
    (mkState Pending None "" None 0 None None None None None 0 None).

Definition sample_offered : Life := mkLife [sample_row] (pending_ids [sample_row]) ∅.

Definition sample_life : Life :=
  mkLife (update (is_id ["m1"%string]) (set_setSending 10) [sample_row])
    (lf_offered sample_offered ∖ {["m1"%string]})
    (<["m1"%string := S (attempts sample_offered "m1")]> (lf_attempts sample_offered)).

Lemma at_most_four_attempts_witness :
  attempts sample_life "m1" = 1%nat /\ (attempts sample_life "m1" <= 4)%nat.
Proof.
  split; [vm_compute; reflexivity|]. apply (at_most_four_attempts ∅).
  apply (life_next _ sample_offered).
  - apply (life_next _ (mkLife [sample_row] ∅ ∅)).
    + apply (life_next _ (mkLife [] ∅ ∅)); [apply life_init|].
      apply (life_insert _ (mkLife [] ∅ ∅) sample_row). split; [reflexivity|]. split; [reflexivity|].
      split; [vm_compute; reflexivity|]. intros Hin. by apply elem_of_nil in Hin.
    + by apply (life_offer _ (mkLife [sample_row] ∅ ∅)).
  - apply (life_send ∅ sample_offered 10 "m1"); [|vm_compute; reflexivity].
    apply elem_of_pending_ids. exists sample_row. split; [left|]. by split.
Defined.

(** ** The constraints *)

(** The checks of the table, the range of the retry counter, and a retry is due
    only for what has failed, or was bundled after that. *)
Definition row_ok (r : ORow) : Prop :=
  checks (r_state r) = true /\ 0 <= retry_count (r_state r) <= 3 /\
  (next_retry_at (r_state r) <> None ->
   last_status (r_state r) = Failed \/ last_status (r_state r) = Bundled).

(** What the callers see to: a status report is one of the four sent states, and
    a message being sent has not been. *)
Definition stmt_ok (rows : list ORow) (st : stmt) : Prop :=
  match st with
  | UpdateStatus _ _ _ (Some s) _ _ => IsSent s = true
  | SetSending id => forall r, r ∈ rows -> id_of r = id -> sent_at (r_state r) = None
  | _ => True
  end.

Lemma row_ok_update w set rows :
  (forall r, r ∈ rows -> w r = true -> row_ok r -> row_ok (mkRow (r_info r) (set (r_state r)))) ->
  (forall r, r ∈ rows -> row_ok r) -> forall r', r' ∈ update w set rows -> row_ok r'.
Proof.
  intros HS HR r' (r & Hr & ->)%elem_of_update. destruct (w r) eqn:E; [|by apply HR].
  apply HS; auto.
Qed.

(** Every statement keeps the check constraints on the status columns, the
    bound on the retries, and that only failed messages are due for a retry; so
    the database refuses one only for an id or a provider id that is taken. *)
Theorem statements_keep_constraints cms now st rows rows'
  (E : apply_stmt cms now st rows = Some rows') (HR : forall r, r ∈ rows -> row_ok r)
  (HS : stmt_ok rows st) : forall r', r' ∈ rows' -> row_ok r'.
Proof.
  destruct st as [| |id pid seq [s|] details src|id| | | | | | |id created cm chan user service| | |]; try done;
    cbn [apply_stmt stmt_ok] in *; injection E as <-.
  all: try (apply row_ok_update; [|done]; intros r Hr Hw (H1 & H2 & H3); unfold row_ok, checks in *;
    cbn [r_state set_tempFail set_permFail set_updateStatus set_setSending set_failed set_retryReset set_retryClear
         set_bundle touch last_status next_retry_at retry_count fired_at sent_at sending_deadline] in *).
  - auto.
  - auto.
  - destruct s; try done; (split; [done|]; by split).
  - unfold is_id in Hw. cbn [existsb] in Hw. rewrite orb_false_r in Hw. apply String.eqb_eq in Hw.
    rewrite (HS r Hr Hw). by split.
  - by split.
  - unfold where_retryReset in Hw. apply andb_true_iff in Hw as [_ Hw]. apply Z.ltb_lt in Hw.
    split; [done|]. split; [lia|done].
  - split; [done|]. by split.
  - by split.
  - by split.
  - intros r' [Hr _]%elem_of_filter_bool. by apply HR.
  - intros r' [Hr| ->%list_elem_of_singleton]%elem_of_app; [by apply HR|]. by split.
  - auto.
  - intros r' [Hr _]%elem_of_filter_bool. by apply HR.
  - by split.
Qed.

Lemma statements_keep_constraints_witness :
  row_ok (mkRow (r_info sample_row) (set_setSending 10 (r_state sample_row))).
Proof.
  apply (statements_keep_constraints ∅ 10 (SetSending "m1") [sample_row]
    (update (is_id ["m1"%string]) (set_setSending 10) [sample_row])); [reflexivity| | |left].
  - intros r ->%list_elem_of_singleton. split; [reflexivity|]. split; [split; discriminate|].
    intros H. by destruct H.
  - intros r ->%list_elem_of_singleton _. reflexivity.
Defined.

(** ** Retries and status reports *)

(** A message that fails temporarily is pending again at the first cycle more
    than fifteen seconds later, and not before; after the third retry it stays
    failed at every cycle. *)
Theorem temporary_failure_retried r now pid details later :
  let failed := mkRow (r_info r) (set_tempFail now pid details (r_state r)) in
  update (where_retryReset later) set_retryReset [failed] =
    if (retry_count (r_state r) <? 3) && (now + 15 * Second <? later)
    then [mkRow (r_info r) (set_retryReset (r_state failed))] else [failed].
Proof.
  intros failed. unfold update. cbn [map]. unfold where_retryReset, failed.
  cbn [r_state r_info set_tempFail last_status next_retry_at retry_count].
  rewrite bool_decide_true by done. cbn [andb].
  destruct (retry_count (r_state r) <? 3); cbn [andb]; [|done].
  by destruct (now + 15 * Second <? later).
Qed.

(** A report that is out of order changes nothing ... *)
Lemma stale_update_ignored now r id pid seq st details src :
  seq < provider_seq (r_state r) -> seq <> -1 ->
  update (where_updateStatus id pid seq) (set_updateStatus now pid seq st details src) [r] = [r].
Proof.
  intros H1 H2. unfold update. cbn [map]. unfold where_updateStatus.
  replace (provider_seq (r_state r) <=? seq) with false by lia. replace (seq =? -1) with false by lia.
  by rewrite andb_false_r.
Qed.

(** ... unless it is a failure, which has no place in the order: a delivered
    message is then sent again. *)
Lemma stale_failure_resends now r id details later :
  last_status (r_state r) = Delivered -> retry_count (r_state r) < 3 -> id_of r = id ->
  now + 15 * Second < later ->
  exists r', update (where_retryReset later) set_retryReset
    (update (addressed (Some id) None) (set_tempFail now None details) [r]) = [r'] /\
    last_status (r_state r') = Pending.
Proof.
  intros _ H2 <- H4. unfold update, addressed. cbn [map sql_eq]. rewrite String.eqb_refl. cbn [orb].
  unfold where_retryReset. cbn [r_state r_info set_tempFail last_status next_retry_at retry_count].
  rewrite bool_decide_true by done. replace (retry_count (r_state r) <? 3) with true by lia.
  replace (now + 15 * Second <? later) with true by lia. by eexists.
Qed.
