(* ===== verification/Sender.v ===== *)
(** * Sending messages: [engine/message/db.go]

    A cycle of [SendMessages]: in one transaction statements put the table in
    order and the queue is read; then every message the queue hands out is sent
    and its row updated.  The messages of a cycle are sent concurrently by the
    code, each touching its own row; here one after the other.  Every database
    call may fail.  The pause of the engine and the cancelled context, which only
    cut a cycle short, are not modelled. *)

From S2P Require Import Prelude Effects GoTime Dest Messages Throttle Queue Retry Diagnostics Outgoing.

(** ** Results of providers *)

(** [nfymsg.State] *)
Inductive NState :=
  | StateUnknown | StateSending | StatePending | StateSent | StateDelivered | StateRead
  | StateFailedTemp | StateFailedPerm | StateBundled.

#[export] Instance NState_eq_dec : EqDecision NState.
Proof. solve_decision. Defined.

(** [State.IsOK] *)
Definition IsOK (s : NState) : bool :=
  match s with StateSending | StateSent | StateDelivered | StateRead => true | _ => false end.

Record SendResult := mkResult {
  sr_ID : string;
  sr_ProviderMessageID : ProviderMessageID;
  sr_State : NState;
  sr_Details : string;
  sr_Sequence : Z;
  sr_SrcValue : string
}.

Definition with_Details (d : string) (r : SendResult) : SendResult :=
  mkResult (sr_ID r) (sr_ProviderMessageID r) (sr_State r) d (sr_Sequence r) (sr_SrcValue r).

Definition safeStatus (r : SendResult) : SendResult := with_Details (DiagnosticText (sr_Details r)) r.

(** [messageStateFromStatus] of [notification/store.go]; the column holds a
    value of the enum. *)
Definition messageStateFromStatus (s : OStatus) (hasNextRetry : bool) : NState :=
  match s with
  | QueuedRemotely | Sending => StateSending
  | Pending => StatePending
  | Read => StateRead
  | Sent => StateSent
  | Delivered => StateDelivered
  | Failed | Bundled => if hasNextRetry then StateFailedTemp else StateFailedPerm
  end.

(** ** The world *)

(** The table, the memory of the [DB], the number of database calls made and
    the messages given to the send function. *)
Record World := mkWorld {
  w_rows : list ORow;
  w_lastSent : Time;
  w_sentMessages : gmap string Message;
  w_calls : nat;
  w_sends : list string
}.

Definition set_rows (rows : list ORow) (w : World) : World :=
  mkWorld rows (w_lastSent w) (w_sentMessages w) (w_calls w) (w_sends w).
Definition tick (w : World) : World :=
  mkWorld (w_rows w) (w_lastSent w) (w_sentMessages w) (S (w_calls w)) (w_sends w).
Definition set_memory (t : Time) (m : gmap string Message) (w : World) : World :=
  mkWorld (w_rows w) t m (w_calls w) (w_sends w).
Definition log_send (id : string) (w : World) : World :=
  mkWorld (w_rows w) (w_lastSent w) (w_sentMessages w) (w_calls w) (w_sends w ++ [id]).

Notation M := (Effects.M World error).

(** A violated constraint: class 23, not temporary. *)
Definition refused : error :=
  mkErr "constraint" [mkLink false false false false None false None (Some "23505"%string) None None].
Definition out_of_fuel : error := mkErr "out of fuel" [plain].

Section Sender.
Context {H : Type} `{Countable H} (Sum256 : string -> H) (Marshal : DestV1 -> string).
Context {HRd : GoRand} {HG : GoSort} {HR : GoMapRange}.
(** The tables joined. *)
Context (cms : gmap string ContactMethod) (chans : gmap string DestV1).
(** The outcome and the time of the n-th database call. *)
Context (db_err : nat -> option error) (clock : nat -> Z).
(** The providers: the n-th call of the send function, the status function. *)
Context (send : nat -> Message -> option SendResult * option error).
Context (statusFn : ProviderMessageID -> option (option SendResult)).
(** Fresh ids, random numbers of the backoff, draws of the queue. *)
Context (uuid : nat -> string) (intn : nat -> Z) (draw : nat).
(** Settings. *)
Context (DisableMessageBundles TwilioEnable : bool).

(** A statement as a prepared one is executed, at the time [t]. *)
Definition stmt_at (t : Z) (st : stmt) (w : World) : option error * World :=
  match db_err (w_calls w) with
  | Some e => (Some e, tick w)
  | None =>
      match exec cms t st (w_rows w) with
      | Some rows => (None, set_rows rows (tick w))
      | None => (Some refused, tick w)
      end
  end.

Definition run (t : Z) (st : stmt) : M unit := fun w =>
  match stmt_at t st w with (None, w) => (Ok tt, w) | (Some e, w) => (Err e, w) end.

(** A call that changes nothing in the table. *)
Definition other_call : M unit := fun w =>
  match db_err (w_calls w) with Some e => (Err e, tick w) | None => (Ok tt, tick w) end.

(** A transaction: all of it has the time of its start; an error undoes it. *)
Definition in_tx {A} (body : Z -> M A) : M A := fun w =>
  match bind other_call (fun _ w => bind (body (clock (w_calls w))) (fun a => bind other_call (fun _ => ret a)) w) w with
  | (Ok a, w') => (Ok a, w')
  | (Err e, w') => (Err e, set_rows (w_rows w) w')
  | (Panic, w') => (Panic, set_rows (w_rows w) w')
  end.

(** [retry.DoTemporaryError] around a function that only reports an error. *)
Definition retrying (lim d : Z) (fn : World -> option error * World) : World -> option error * World := fun w =>
  match DoTemporaryError (S (Z.to_nat lim)) (fun _ => fn) [Log; Limit lim; FibBackoff intn d] w with
  | Some (e, w, _) => (e, w)
  | None => (Some out_of_fuel, w)
  end.

(** ** Reading the queue *)

(** [MessageMgrGetPending] *)
Definition in_queue (since : Z) (r : ORow) : bool :=
  match sent_at (r_state r) with Some t => since <=? t | None => false end ||
  (bool_decide (last_status (r_state r) = Pending) &&
   (is_null (o_cm (r_info r)) || String.eqb (o_type (r_info r)) MessageTypeVerification ||
    match joined_cm cms r with Some cm => negb (cm_disabled cm) | None => false end)).

(** The loop over the rows: what a row reads as. *)
Definition to_message (r : ORow) : Message :=
  let i := r_info r in
  let cm := joined_cm cms r in
  let chan := o_chan i ≫= fun c => chans !! c in
  mkMsg (o_id i) (o_type i)
    (mkDestID (match cm with Some _ => o_cm i | None => None end) (match chan with Some _ => o_chan i | None => None end))
    (match cm with Some cm => cm_dest cm | None => default (mkDest ∅ "") chan end)
    (default 0 (o_alert i)) (default 0 (o_alert_log i)) (default ""%string (o_verify i))
    (match cm with Some cm => cm_user cm | None => ""%string end)
    (default ""%string (o_service i)) (default ""%string (o_schedule i))
    (mkTime (o_created i) UTC)
    (match sent_at (r_state r) with Some t => mkTime t UTC | None => zeroTime end) (o_status_alerts i).

(** Messages to a destination of no type are passed over; sent ones go to the
    memory, the others to the result. *)
Fixpoint read_rows (rows : list ORow) (memory : gmap string Message) : list Message * gmap string Message :=
  match rows with
  | [] => ([], memory)
  | row :: rows =>
      let msg := to_message row in
      if String.eqb (dType (mDest msg)) "" then read_rows rows memory
      else if negb (IsZero (mSentAt msg)) then read_rows rows (<[mID msg := msg]> memory)
      else let '(result, memory) := read_rows rows memory in (msg :: result, memory)
  end.

Definition queue_cutoff (now : Time) : Time :=
  Add now (- maxThrottleDuration [PerCMThrottle; GlobalCMThrottle]).

(** The messages before they are deduplicated: read, and remembered. *)
Definition read_queue (now : Time) (w : World) : list Message * World :=
  let cutoff := queue_cutoff now in
  let sentSince := if IsZero (w_lastSent w) then cutoff else w_lastSent w in
  let '(result, memory) := read_rows (List.filter (in_queue (inst sentSince)) (w_rows w)) (w_sentMessages w) in
  let old (im : string * Message) := Before (mSentAt im.2) cutoff in
  (result ++ map snd (List.filter (fun im => negb (old im)) (map_range memory)),
   set_memory now (filter (fun im => old im = false) memory) w).

(** The callbacks of the two bundling steps. *)
Definition bundle_cb (t : Z) (parentID : string) (ids : list string) (w : World) : option World :=
  match run t (BundleMessages parentID ids) w with (Ok _, w) => Some w | _ => None end.

Definition new_bundle_cb (t : Z) (msg : Message) (w : World) : option (string * World) :=
  let newID := uuid (w_calls w) in
  match run t (CreateAlertBundle newID (inst (mCreatedAt msg)) (CMID (mDestID msg)) (NCID (mDestID msg))
    (if String.eqb (mUserID msg) "" then None else Some (mUserID msg)) (Some (mServiceID msg))) w with
  | (Ok _, w) => Some (newID, w)
  | _ => None
  end.

Definition delete_all (t : Z) (toDelete : list string) : M unit :=
  if (0 <? length toDelete)%nat then run t (DeleteAny toDelete) else ret tt.

(** An error of a callback is the error of the whole; the transaction is undone. *)
Definition callbacks {A} (f : World -> option (A * World)) : M A := fun w =>
  match f w with Some (a, w) => (Ok a, w) | None => (Err refused, w) end.

Definition make_queue (msgs : list Message) (now : Time) : M (@queue H _ _) := fun w =>
  match newQueue Sum256 Marshal msgs now with Some q => (Ok q, w) | None => (Panic, w) end.

Definition currentQueue (t : Z) : M (@queue H _ _) :=
  let now := mkTime t UTC in
  other_call ;;;
  let! result := (fun w => let '(result, w) := read_queue now w in (Ok result, w)) in
  let '(result, toDelete) := dedupOnCallNotifications result in
  delete_all t toDelete ;;;
  let '(result, toDelete) := dedupStatusMessages result in
  delete_all t toDelete ;;;
  let! result := callbacks (dedupAlerts (bundle_cb t) result) in
  if DisableMessageBundles then make_queue result now
  else
    let! result := callbacks (bundleAlertMessages (new_bundle_cb t) (bundle_cb t) result) in
    make_queue result now.

(** ** Status reports *)

(** The status of a report that is not a failure; none for a state that has no
    status, which the database refuses. *)
Definition report_status (s : NState) : option OStatus :=
  match s with
  | StateSending => Some QueuedRemotely
  | StateSent => Some Sent
  | StateDelivered => Some Delivered
  | StateRead => Some Read
  | _ => None
  end.

Definition nonempty (s : string) : option string := if String.eqb s "" then None else Some s.

Definition UpdateMessageStatus_ (status : option SendResult) (w : World) : option error * World :=
  match status with
  | None => (None, w)
  | Some status =>
      let status := safeStatus status in
      let cbID := nonempty (sr_ID status) in
      let pid := PID_Value (sr_ProviderMessageID status) in
      let t := clock (w_calls w) in
      match sr_State status with
      | StateFailedTemp => stmt_at t (TempFail cbID pid (sr_Details status)) w
      | StateFailedPerm => stmt_at t (PermFail cbID pid (sr_Details status)) w
      | s => stmt_at t (UpdateStatus cbID pid (sr_Sequence status) (report_status s) (sr_Details status)
               (nonempty (sr_SrcValue status))) w
      end
  end.

Definition UpdateMessageStatus (status : option SendResult) : World -> option error * World :=
  retrying 10 (100 * 1000000) (UpdateMessageStatus_ status).

(** ** Sending one message *)

(** The send function, retried; the status is that of the last attempt. *)
Definition send_retried (m : Message) (w : World) : option SendResult * option error * World :=
  let step (_ : nat) (sw : option SendResult * World) : option error * (option SendResult * World) :=
    let '(status, err) := send (length (w_sends sw.2)) m in
    (err, (option_map safeStatus status, log_send (mID m) sw.2)) in
  match DoTemporaryError 11 step [Log; Limit 10; FibBackoff intn (65 * 1000000)] (None, w) with
  | Some (err, (status, w), _) => (status, err, w)
  | None => (None, Some out_of_fuel, w)
  end.

Definition retryExec (st : stmt) : World -> option error * World :=
  retrying 15 (50 * 1000000) (fun w => stmt_at (clock (w_calls w)) st w).

(** An error of the statement, as a result. *)
Definition lift (f : World -> option error * World) : M unit := fun w =>
  match f w with (None, w) => (Ok tt, w) | (Some e, w) => (Err e, w) end.

(** Without an error and without a status the code dereferences nil. *)
Definition sendMessage (m : Message) : M bool := fun w =>
  match run (clock (w_calls w)) (SetSending (mID m)) w with
  | (Ok _, w) =>
      let '(status, err, w) := send_retried m w in
      let pID := match status with Some s => PID_Value (sr_ProviderMessageID s) | None => None end in
      match err, status with
      | Some e, _ => (lift (retryExec (TempFail (Some (mID m)) pID (e_text e))) ;;; ret false) w
      | None, None => (Panic, w)
      | None, Some s =>
          match sr_State s with
          | StateFailedTemp => (lift (retryExec (TempFail (Some (mID m)) pID (sr_Details s))) ;;; ret false) w
          | StateFailedPerm => (lift (retryExec (PermFail (Some (mID m)) pID (sr_Details s))) ;;; ret false) w
          | _ => (lift (UpdateMessageStatus (Some s)) ;;; ret true) w
          end
      end
  | (Err e, w) => (Err e, w)
  | (Panic, w) => (Panic, w)
  end.

(** ** Sending what is due *)

(** The number of failures. *)
Fixpoint send_each (msgs : list Message) : M nat :=
  match msgs with
  | [] => ret O
  | msg :: msgs => fun w =>
      match sendMessage msg w with
      | (Ok _, w) => send_each msgs w
      | (Err _, w) => bind (send_each msgs) (fun n => ret (S n)) w
      | (Panic, w) => (Panic, w)
      end
  end.

(** The queue after all messages of the type are handed out, and the error. *)
Definition sendMessagesByType (q : @queue H _ _) (typ : string) : M (@queue H _ _ * option error) := fun w =>
  match drain Sum256 Marshal (S (length (pending_of q typ))) draw typ q with
  | Some (msgs, q) =>
      bind (send_each msgs) (fun failures =>
        ret (q, if (0 <? failures)%nat then Some (mkErr "one or more failures when sending" [plain]) else None)) w
  | None => (Panic, w)
  end.

(** Every type by a goroutine of its own; its error is only logged. *)
Fixpoint send_types (types : list string) (q : @queue H _ _) : M unit :=
  match types with
  | [] => ret tt
  | typ :: types => bind (sendMessagesByType q typ) (fun qe => send_types types qe.1)
  end.

(** ** Messages stuck in a remote queue *)

(** [stuckMessages]: the ten that wait longest. *)
Definition stuck (t : Z) (rows : list ORow) : list ORow :=
  take 10 (sort_slice (fun a b =>
    default 0 (last_status_at (r_state a)) <? default 0 (last_status_at (r_state b)))
    (List.filter (where_stuck t) rows)).

(** [refreshMessageState]: the outer option is an error, the inner one an
    unsupported status. *)
Definition refreshMessageState (id : string) (providerID : ProviderMessageID) : option SendResult :=
  match statusFn providerID with
  | Some (Some status) =>
      Some (mkResult id providerID
        (match sr_State status with StateFailedTemp => StateFailedPerm | s => s end)
        (sr_Details status) (-1) (sr_SrcValue status))
  | _ => None
  end.

(** An error of an update is only logged. *)
Fixpoint refresh_each (toCheck : list (string * ProviderMessageID)) (w : World) : World :=
  match toCheck with
  | [] => w
  | (id, pid) :: toCheck => refresh_each toCheck (UpdateMessageStatus_ (refreshMessageState id pid) w).2
  end.

Definition read_stuck (r : ORow) : option (string * ProviderMessageID) :=
  pid ← PID_Scan (provider_msg_id (r_state r)); Some (id_of r, pid).

(** The touched rows; one whose id cannot be read fails the transaction. *)
Definition stuck_tx (t : Z) : M (list (string * ProviderMessageID)) := fun w =>
  let rows := stuck t (w_rows w) in
  bind (run t (TouchStuck (map id_of rows))) (fun _ =>
    match mapM read_stuck rows with
    | Some toCheck => ret toCheck
    | None => fail (mkErr "invalid provider id format" [plain])
    end) w.

Definition updateStuckMessages : M unit :=
  let! toCheck := in_tx stuck_tx in
  fun w => (Ok tt, refresh_each toCheck w).

(** ** The cycle *)

Definition prepare_table (t : Z) : M (@queue H _ _) :=
  other_call ;;;                             (** lock *)
  other_call ;;;                             (** current time *)
  run t CleanupStatusUpdateOptOut ;;;
  (if TwilioEnable then ret tt else run t FailSMSVoice) ;;;
  run t FailDisabledCM ;;;
  run t SendDeadlineExpired ;;;
  run t RetryClear ;;;
  run t RetryReset ;;;
  currentQueue t.

(** [ErrNoLock], when another instance holds the lock. *)
Definition ErrNoLock : error := mkErr "advisory lock already taken or incompatible version" [plain].

Definition SendMessages_ (gotLock : bool) : M unit :=
  other_call ;;;                             (** stale locks *)
  other_call ;;;                             (** connection *)
  other_call ;;;                             (** advisory lock *)
  if negb gotLock then fail ErrNoLock
  else
    let! q := in_tx prepare_table in
    send_types (Types q) q ;;;
    updateStuckMessages.
End Sender.
