(* ===== verification/Cycle.v ===== *)
(** * A cycle of sending is part of the life of the messages

    The definitions of [Sender] are related to the step relation of [Outgoing]:
    whatever a cycle does to the table, errors and undone transactions included,
    is a sequence of the steps the bound on attempts is proved for. *)

From S2P Require Import Prelude Effects GoTime Dest Messages Throttle Queue Retry Outgoing Sender.

(** ** Triples *)

(** From [P], a result satisfies [Q]; an error or a panic leaves [E]. *)
Notation ends P m Q E := (triple P m Q (fun _ => E)) (only parsing).

(** ** The ids to send *)

(** The ids of the messages not sent. *)
Definition unsent_ids (l : list Message) : list string :=
  map mID (List.filter (fun m => IsZero (mSentAt m)) l).

Definition good (O : gset string) (l : list Message) : Prop :=
  NoDup (unsent_ids l) /\ forall id, id ∈ unsent_ids l -> id ∈ O.

Lemma unsent_ids_app l l' : unsent_ids (l ++ l') = unsent_ids l ++ unsent_ids l'.
Proof. unfold unsent_ids. by rewrite List.filter_app, map_app. Qed.

Lemma filter_perm {A} (f : A -> bool) l l' : l ≡ₚ l' -> List.filter f l ≡ₚ List.filter f l'.
Proof.
  induction 1 as [|x l l' _ IH|x y l|l l' l'' _ IH1 _ IH2]; simpl; [done| | |by etransitivity].
  - destruct (f x); [by constructor|done].
  - destruct (f x), (f y); try done. constructor.
Qed.

Lemma unsent_ids_perm l l' : l ≡ₚ l' -> unsent_ids l ≡ₚ unsent_ids l'.
Proof. intros HP. apply Permutation_map. by apply filter_perm. Qed.

Lemma good_sub O l l' : (exists dropped, l' ++ dropped ≡ₚ l) -> good O l -> good O l'.
Proof.
  intros [d HP%unsent_ids_perm] [HN HO]. rewrite unsent_ids_app in HP. split.
  - rewrite <- HP in HN. by apply NoDup_app in HN as (? & _).
  - intros id Hid. apply HO. rewrite <- HP. apply elem_of_app. by left.
Qed.

Lemma good_mono (O O' : gset string) l : O ⊆ O' -> good O l -> good O' l.
Proof. intros HS [HN HO]. split; auto. Qed.

Lemma filter_none {A} (f : A -> bool) l : (forall x, x ∈ l -> f x = false) -> List.filter f l = [].
Proof.
  induction l as [|x l IH]; simpl; intros HF; [done|]. rewrite HF by left. apply IH. intros. apply HF. by right.
Qed.

Lemma diff_sub (O X : gset string) : O ∖ X ⊆ O.
Proof. set_solver. Qed.
Lemma diff_mono (O O' X : gset string) : O ⊆ O' -> O ∖ X ⊆ O' ∖ X.
Proof. set_solver. Qed.
Lemma diff_cons (O : gset string) i l : O ∖ list_to_set (i :: l) ⊆ (O ∖ {[i]}) ∖ list_to_set l.
Proof. cbn [list_to_set]. set_solver. Qed.

Section Cycle.
Context {H : Type} `{Countable H} (Sum256 : string -> H) (Marshal : DestV1 -> string).
Context {HRd : GoRand} {HG : GoSort} {HR : GoMapRange}.
Context (cms : gmap string ContactMethod) (chans : gmap string DestV1).
Context (db_err : nat -> option error) (clock : nat -> Z).
Context (send : nat -> Message -> option SendResult * option error).
Context (statusFn : ProviderMessageID -> option (option SendResult)).
Context (uuid : nat -> string) (intn : nat -> Z) (draw : nat).
Context (DisableMessageBundles TwilioEnable : bool).

(** Times are after 1970; new ids are new. *)
Hypothesis clock_pos : forall n, 0 <= clock n.
Hypothesis uuid_inj : forall n k, uuid n = uuid k -> n = k.

(** ** What is known of a world *)

(** The number of times a message was given to the send function. *)
Definition nsends (i : string) (w : World) : nat :=
  length (List.filter (fun j => String.eqb j i) (w_sends w)).

(** The world follows the life [m]: the ids of [O] are offered, and since [w0]
    each attempt has made at most ten calls of the send function. *)
Section follows.
Variables (m : Life) (w0 : World).

Definition follows (O : gset string) (w : World) : Prop :=
  exists m', rtc (life_step cms) m m' /\ lf_rows m' = w_rows w /\ O ⊆ lf_offered m' /\
    forall i, (nsends i w + 10 * attempts m i <= nsends i w0 + 10 * attempts m' i)%nat.

Lemma follows_mono O O' w : O' ⊆ O -> follows O w -> follows O' w.
Proof. intros HS (m' & H1 & H2 & H3 & H4). exists m'. split; [done|]. split; [done|]. split; [by etransitivity|done]. Qed.

Lemma follows_same O w w' : w_rows w' = w_rows w -> w_sends w' = w_sends w -> follows O w -> follows O w'.
Proof.
  intros E1 E2 (m' & H1 & H2 & H3 & H4). exists m'. split; [done|]. split; [congruence|]. split; [done|].
  intros i. unfold nsends. rewrite E2. apply H4.
Qed.

Lemma stmt_at_cases t st w : exists e w', stmt_at cms db_err t st w = (e, w') /\ w_sends w' = w_sends w /\
  w_lastSent w' = w_lastSent w /\ w_sentMessages w' = w_sentMessages w /\ w_calls w' = S (w_calls w) /\
  ((exists er, e = Some er) /\ w_rows w' = w_rows w \/ e = None /\ exec cms t st (w_rows w) = Some (w_rows w')).
Proof.
  unfold stmt_at. destruct (db_err (w_calls w)) as [er|].
  { exists (Some er), (tick w). repeat split; try done. left. split; [by exists er|done]. }
  destruct (exec cms t st (w_rows w)) as [rows|].
  - exists None, (set_rows rows (tick w)). repeat split; try done. by right.
  - exists (Some refused), (tick w). repeat split; try done. left. split; [by eexists|done].
Qed.

Lemma follows_calm O t st w : calm st = true -> follows O w -> follows O (stmt_at cms db_err t st w).2.
Proof.
  intros HC HF. destruct (stmt_at_cases t st w) as (e & w' & -> & HS & _ & _ & _ & [[_ HE]|[_ HE]]); cbn [snd].
  - by apply (follows_same O w).
  - destruct HF as (m' & H1 & H2 & H3 & H4).
    exists (mkLife (w_rows w') (lf_offered m') (lf_attempts m')). split.
    { eapply rtc_r; [exact H1|]. apply (life_calm cms m' t st); [done|]. by rewrite H2. }
    split; [done|]. split; [done|]. intros i. unfold nsends. rewrite HS. apply H4.
Qed.

Lemma retrying_preserves (P : World -> Prop) lim d fn w :
  (forall w, P w -> P (fn w).2) -> P w -> P (retrying intn lim d fn w).2.
Proof.
  intros HP Hw. unfold retrying.
  destruct (DoTemporaryError _ _ _ w) as [[[e w'] sl]|] eqn:E; [|done]. cbn [snd].
  eapply DoTemporaryError_preserves; [|exact Hw|exact E]. intros n. apply HP.
Qed.

Lemma report_calm s : match report_status s with Some st => IsSent st = true | None => True end.
Proof. by destruct s. Qed.

Lemma follows_report O status w : follows O w -> follows O (UpdateMessageStatus_ cms db_err clock status w).2.
Proof.
  intros HF. destruct status as [s|]; [|done]. unfold UpdateMessageStatus_.
  destruct (sr_State (safeStatus s)) eqn:ES; apply follows_calm; try done.
Qed.

(** ** One message *)

Lemma send_retried_spec msg w : exists k status err, (k <= 10)%nat /\
  send_retried send intn msg w =
    (status, err, mkWorld (w_rows w) (w_lastSent w) (w_sentMessages w) (w_calls w) (w_sends w ++ repeat (mID msg) k)).
Proof.
  unfold send_retried. set (step := fun (_ : nat) (sw : option SendResult * World) => _).
  destruct (DoTemporaryError_spec step 10 intn (65 * 1000000) 11 (None, w) ltac:(lia) ltac:(simpl; lia))
    as (k & H1 & H2 & -> & _).
  assert ((run_temp step k (None, w)).2.2 =
    mkWorld (w_rows w) (w_lastSent w) (w_sentMessages w) (w_calls w) (w_sends w ++ repeat (mID msg) k)) as HW.
  { clear H1 H2. induction k as [|k IH]; cbn [run_temp repeat].
    - rewrite app_nil_r. by destruct w.
    - unfold step at 1. destruct (send _ msg) as [status err]. cbn [snd]. rewrite IH. unfold log_send.
      cbn [w_rows w_lastSent w_sentMessages w_calls w_sends]. f_equal.
      rewrite <- app_assoc. f_equal. change (mID msg :: repeat (mID msg) k) with (repeat (mID msg) (S k)).
      by rewrite <- repeat_cons. }
  destruct (run_temp step k (None, w)) as [err [status w']]. cbn [fst snd] in *. subst w'.
  exists k, status, err. split; [lia|done].
Qed.

Lemma nsends_repeat i j k w : nsends i (mkWorld (w_rows w) (w_lastSent w) (w_sentMessages w) (w_calls w)
    (w_sends w ++ repeat j k)) = (nsends i w + if String.eqb j i then k else 0)%nat.
Proof.
  unfold nsends. cbn [w_sends]. rewrite List.filter_app, length_app. f_equal.
  induction k as [|k IH]; cbn [repeat List.filter]; [by destruct (String.eqb j i)|].
  destruct (String.eqb j i); cbn [length]; lia.
Qed.

Lemma follows_send O msg w : mID msg ∈ O -> follows O w ->
  follows (O ∖ {[mID msg]}) (sendMessage cms db_err clock send intn msg w).2.
Proof.
  intros HO HF. unfold sendMessage, run.
  destruct (stmt_at_cases (clock (w_calls w)) (SetSending (mID msg)) w)
    as (e & w1 & -> & HS & _ & _ & _ & [[[er ->] HE]|[-> HE]]).
  { cbn [snd]. apply (follows_mono O); [apply diff_sub|]. by apply (follows_same O w). }
  destruct HF as (m' & H1 & H2 & H3 & H4).
  destruct (send_retried_spec msg w1) as (k & status & err & Hk & ->). set (w2 := mkWorld _ _ _ _ _).
  assert (follows (O ∖ {[mID msg]}) w2) as HF2.
  { exists (mkLife (w_rows w1) (lf_offered m' ∖ {[mID msg]})
      (<[mID msg := S (attempts m' (mID msg))]> (lf_attempts m'))). split.
    { eapply rtc_r; [exact H1|]. apply (life_send cms m' (clock (w_calls w)) (mID msg)); [by apply H3|].
      by rewrite H2. }
    split; [done|]. split; [by apply diff_mono|]. intros i. unfold w2. rewrite nsends_repeat.
    assert (nsends i w1 = nsends i w) as -> by (unfold nsends; by rewrite HS).
    specialize (H4 i). rewrite attempts_insert.
    destruct (String.eqb_spec (mID msg) i) as [<-|Hne]; [rewrite decide_True by done; lia|].
    rewrite decide_False by done. lia. }
  assert (forall f (b : bool), (forall w, follows (O ∖ {[mID msg]}) w -> follows (O ∖ {[mID msg]}) (f w).2) ->
    follows (O ∖ {[mID msg]}) (bind (lift f) (fun _ => ret b) w2).2) as HL.
  { intros f b Hf. specialize (Hf w2 HF2). unfold bind, lift. destruct (f w2) as [[er|] w3]; done. }
  assert (forall st, calm st = true -> forall w, follows (O ∖ {[mID msg]}) w ->
    follows (O ∖ {[mID msg]}) (retryExec cms db_err clock intn st w).2) as HX.
  { intros st HC w3. apply retrying_preserves. intros w4. by apply follows_calm. }
  destruct err as [er|]; [apply HL; intros w3; by apply HX|].
  destruct status as [s|]; [|done].
  destruct (sr_State s); try (apply HL; intros w3; apply retrying_preserves; intros w4; apply follows_report).
  all: apply HL; intros w3; by apply HX.
Qed.

(** ** All messages *)

Lemma follows_each msgs : forall O w, NoDup (map mID msgs) -> (forall msg, msg ∈ msgs -> mID msg ∈ O) ->
  follows O w -> follows (O ∖ list_to_set (map mID msgs)) (send_each cms db_err clock send intn msgs w).2.
Proof.
  induction msgs as [|msg msgs IH]; intros O w HN HO HF; cbn [send_each map].
  { cbn [ret snd]. apply (follows_mono O); [apply diff_sub|done]. }
  cbn [map] in HN. apply NoDup_cons in HN as [Hn HN].
  pose proof (follows_send O msg w (HO msg ltac:(by left)) HF) as HF1.
  assert (follows ((O ∖ {[mID msg]}) ∖ list_to_set (map mID msgs))
    (send_each cms db_err clock send intn msgs (sendMessage cms db_err clock send intn msg w).2).2) as HF2.
  { apply IH; [done| |done]. intros msg' Hm. apply elem_of_difference. split; [apply HO; by right|].
    intros HE%elem_of_singleton. apply Hn. rewrite <- HE. by apply list_elem_of_fmap_2. }
  apply (follows_mono _ _ _ (diff_cons _ _ _)).
  destruct (sendMessage cms db_err clock send intn msg w) as [[b|er|] w1]; cbn [snd] in *.
  - done.
  - unfold bind. by destruct (send_each cms db_err clock send intn msgs w1) as [[n|er'|] w2].
  - eapply follows_mono; [|exact HF1]. apply diff_sub.
Qed.

(** ** All types *)

(** The pending messages of a type are offered. *)
Definition offered_type (O : gset string) (q : @queue H _ _) (ty : string) : Prop :=
  NoDup (map mID (pending_of q ty)) /\ forall msg, msg ∈ pending_of q ty -> mID msg ∈ O.

Lemma follows_types types : forall O q w, NoDup types -> queue_inv Sum256 Marshal q ->
  (forall ty, ty ∈ types -> offered_type O q ty) ->
  (forall ty ty' x y, ty <> ty' -> x ∈ pending_of q ty -> y ∈ pending_of q ty' -> mID x <> mID y) ->
  follows O w ->
  follows ∅ (send_types Sum256 Marshal cms db_err clock send intn draw types q w).2.
Proof.
  induction types as [|ty types IH]; intros O q w HN HI HO HD HF; cbn [send_types].
  { cbn [ret snd]. by apply (follows_mono O). }
  apply NoDup_cons in HN as [Hn HN]. destruct (HO ty ltac:(by left)) as [HNP HOP].
  destruct (drain_spec Sum256 Marshal ty (S (length (pending_of q ty))) draw q HI ltac:(lia))
    as (out & dropped & q' & ED & HI' & HE & HP & _ & _ & HQ & _).
  assert (forall msg, msg ∈ out -> msg ∈ pending_of q ty) as Hout.
  { intros msg Hm. rewrite <- HP. apply elem_of_app. by left. }
  assert (NoDup (map mID out)) as HNO.
  { rewrite <- HP, map_app in HNP. by apply NoDup_app in HNP as (? & _). }
  pose proof (follows_each out O w HNO (fun msg Hm => HOP msg (Hout msg Hm)) HF) as HF1.
  unfold bind, sendMessagesByType. rewrite ED. unfold bind.
  destruct (send_each cms db_err clock send intn out w) as [[n|er|] w1]; cbn [ret fst snd] in *;
    [|by apply (follows_mono (O ∖ list_to_set (map mID out)))..].
  apply (IH (O ∖ list_to_set (map mID out))); [done|done| | |done].
  - intros ty' Hty'. assert (ty' <> ty) as Hne by (intros ->; done). unfold offered_type. rewrite HQ by done.
    destruct (HO ty' ltac:(by right)) as [HN' HO']. split; [done|]. intros msg Hm.
    apply elem_of_difference. split; [by apply HO'|]. intros (msg' & HE' & Hm')%elem_of_list_to_set%list_elem_of_fmap.
    by apply (HD ty' ty msg msg' Hne Hm (Hout msg' Hm')).
  - intros t1 t2 x y Hne Hx Hy.
    assert (forall t z, z ∈ pending_of q' t -> z ∈ pending_of q t) as Hsub.
    { intros t z Hz. destruct (decide (t = ty)) as [->|Ht]; [rewrite HE in Hz; by apply elem_of_nil in Hz|].
      by rewrite HQ in Hz. }
    apply (HD t1 t2); auto.
Qed.

Lemma Types_NoDup (q : @queue H _ _) : NoDup (Types q).
Proof.
  unfold Types. assert (NoDup (map fst (map_range (pending q)))) as HN.
  { rewrite map_range_perm. apply NoDup_fst_map_to_list. }
  clear -HN. induction (map_range (pending q)) as [|[t l] ps IH]; cbn [List.filter map]; [constructor|].
  cbn [map fst] in HN. apply NoDup_cons in HN as [Hn HN]. destruct (negb _); [|by apply IH].
  cbn [map fst]. constructor; [|by apply IH]. intros (x & Hx & Hin)%list_elem_of_fmap. apply Hn.
  rewrite Hx. apply list_elem_of_fmap_2. by apply elem_of_filter_bool in Hin as [? _].
Qed.

(** A queue built from messages that are offered. *)
Lemma follows_queue msgs now q O w : newQueue Sum256 Marshal msgs now = Some q -> good O msgs ->
  follows O w -> follows ∅ (send_types Sum256 Marshal cms db_err clock send intn draw (Types q) q w).2.
Proof.
  intros E [HN HO] HF. destruct (newQueue_spec Sum256 Marshal msgs now) as (q' & E' & HI & _ & _ & HP).
  rewrite E in E'. injection E' as <-.
  assert (forall ty x, x ∈ pending_of q ty -> x ∈ List.filter (fun m => IsZero (mSentAt m)) msgs /\ dType (mDest x) = ty) as Hin.
  { intros ty x Hx. rewrite HP in Hx. apply elem_of_filter_bool in Hx as [Hx Hu].
    unfold unsent in Hu. apply andb_true_iff in Hu as [Hu Ht]. apply String.eqb_eq in Ht.
    split; [|done]. by apply elem_of_filter_bool. }
  apply (follows_types _ O); [apply Types_NoDup|done| | |done].
  - intros ty _. split.
    + assert (List.filter (unsent ty) msgs =
        List.filter (fun x => String.eqb (dType (mDest x)) ty) (List.filter (fun x => IsZero (mSentAt x)) msgs)) as HE.
      { clear. induction msgs as [|x msgs IH]; cbn [List.filter]; [done|]. unfold unsent at 1.
        destruct (IsZero (mSentAt x)); cbn [andb List.filter]; [by rewrite IH|done]. }
      rewrite HP, HE. by apply NoDup_map_filter.
    + intros x Hx. apply HO. apply list_elem_of_fmap_2. by apply (Hin ty).
  - intros ty ty' x y Hne Hx Hy HE. destruct (Hin ty x Hx) as [Hx1 Hx2]. destruct (Hin ty' y Hy) as [Hy1 Hy2].
    apply Hne. rewrite <- Hx2, <- Hy2. f_equal. f_equal. by apply (NoDup_map_inj mID _ x y HN).
Qed.

(** ** Stuck messages *)

Lemma follows_refresh O toCheck : forall w, follows O w ->
  follows O (refresh_each cms db_err clock statusFn toCheck w).
Proof.
  induction toCheck as [|[id pid] toCheck IH]; intros w HF; cbn [refresh_each]; [done|].
  apply IH. by apply follows_report.
Qed.

(** ** The transaction *)

(** The memory holds only sent messages, and was filled after 1970. *)
Definition memory_ok (w : World) : Prop :=
  (IsZero (w_lastSent w) = true \/ 0 <= inst (w_lastSent w)) /\
  forall id msg, w_sentMessages w !! id = Some msg -> IsZero (mSentAt msg) = false.

(** Within the transaction nothing is sent. *)
Definition opened (O : gset string) (w : World) : Prop :=
  (exists m', rtc (life_step cms) m m' /\ lf_rows m' = w_rows w /\ O ⊆ lf_offered m' /\
     lf_attempts m' = lf_attempts m) /\
  w_sends w = w_sends w0 /\ memory_ok w.

Definition clean (w : World) : Prop :=
  ((exists m', rtc (life_step cms) m m' /\ lf_rows m' = w_rows w /\ lf_offered m' = ∅ /\
     lf_attempts m' = lf_attempts m) /\
   forall id, id ∈ map id_of (w_rows w) -> id ∈ map id_of (lf_rows m)) /\
  w_sends w = w_sends w0 /\ memory_ok w.

Definition unsent_world (w : World) : Prop := w_sends w = w_sends w0.

Lemma triple_other (P : World -> Prop) :
  (forall w, P w -> P (tick w) /\ unsent_world (tick w)) ->
  ends P (other_call db_err) (fun _ => P) unsent_world.
Proof. intros HT w HP. unfold other_call. destruct (HT w HP). by destruct (db_err (w_calls w)). Qed.

Lemma clean_tick w : clean w -> clean (tick w) /\ unsent_world (tick w).
Proof. intros [H1 [H2 H3]]. split; [by split|done]. Qed.

Lemma opened_tick O w : opened O w -> opened O (tick w) /\ unsent_world (tick w).
Proof. intros [H1 [H2 H3]]. split; [by split|done]. Qed.

(** A statement that succeeds is a step; one that fails leaves the sends. *)
Lemma triple_run (P Q : World -> Prop) t st :
  (forall w, P w -> unsent_world w /\ memory_ok w) ->
  (forall w w', P w -> exec cms t st (w_rows w) = Some (w_rows w') -> unsent_world w' -> memory_ok w' ->
     w_calls w' = S (w_calls w) -> Q w') ->
  ends P (run cms db_err t st) (fun _ => Q) unsent_world.
Proof.
  intros HP HQ w Hw. unfold run. destruct (HP w Hw) as [HU HM].
  destruct (stmt_at_cases t st w) as (e & w' & -> & HS & HL & HSM & HCa & HC).
  assert (unsent_world w') as HU' by (unfold unsent_world in *; congruence).
  destruct HC as [[[er ->] _]|[-> HE]]; [done|]. apply (HQ w); try done.
  unfold memory_ok. by rewrite HL, HSM.
Qed.

Lemma exec_ids t st rows rows' : calm st = true \/ st = RetryReset -> exec cms t st rows = Some rows' ->
  forall id, id ∈ map id_of rows' -> id ∈ map id_of rows.
Proof.
  intros HC E id. apply exec_ok in E as [E _]. destruct HC as [HC| ->].
  - intros (r' & -> & Hr')%list_elem_of_fmap.
    destruct (calm_stmt _ _ _ _ _ HC E r' Hr') as (r & Hr & HI & _).
    assert (id_of r' = id_of r) as -> by (unfold id_of; by rewrite HI). by apply list_elem_of_fmap_2.
  - injection E as <-. by rewrite update_ids.
Qed.

Lemma triple_run_clean t st : calm st = true \/ st = RetryReset ->
  ends clean (run cms db_err t st) (fun _ => clean) unsent_world.
Proof.
  intros HC. apply triple_run; [by intros w (_ & ? & ?)|].
  intros w w' (((m' & H1 & H2 & H3 & H4) & HI) & _) HE HU HM _. split; [|done].
  split; [|intros id Hid; by apply HI, (exec_ids t st _ (w_rows w'))]. destruct HC as [HC| ->].
  - exists (mkLife (w_rows w') (lf_offered m') (lf_attempts m')). split; [|done].
    eapply rtc_r; [exact H1|]. apply (life_calm cms m' t st); [done|]. by rewrite H2.
  - exists (mkLife (w_rows w') ∅ (lf_attempts m')). split; [|done].
    eapply rtc_r; [exact H1|]. apply (life_retry cms m' t); [done|]. by rewrite H2.
Qed.

Lemma triple_run_opened O t st : calm st = true ->
  ends (opened O) (run cms db_err t st) (fun _ => opened O) unsent_world.
Proof.
  intros HC. apply triple_run; [by intros w (_ & ? & ?)|].
  intros w w' ((m' & H1 & H2 & H3 & H4) & _) HE HU HM _. split; [|done].
  exists (mkLife (w_rows w') (lf_offered m') (lf_attempts m')). split; [|done].
  eapply rtc_r; [exact H1|]. apply (life_calm cms m' t st); [done|]. by rewrite H2.
Qed.

(** ** Reading *)

Lemma read_rows_spec rows : forall memory result memory', read_rows cms chans rows memory = (result, memory') ->
  result = List.filter (fun msg => negb (String.eqb (dType (mDest msg)) "") && IsZero (mSentAt msg))
    (map (to_message cms chans) rows) /\
  ((forall id msg, memory !! id = Some msg -> IsZero (mSentAt msg) = false) ->
   forall id msg, memory' !! id = Some msg -> IsZero (mSentAt msg) = false).
Proof.
  induction rows as [|row rows IH]; intros memory result memory' E; cbn [read_rows map List.filter] in *.
  { by injection E as <- <-. }
  destruct (String.eqb (dType (mDest (to_message cms chans row))) ""); cbn [negb andb]; [by apply IH|].
  destruct (IsZero (mSentAt (to_message cms chans row))) eqn:EZ; cbn [negb] in E.
  - destruct (read_rows cms chans rows memory) as [res mem] eqn:ER. injection E as <- <-.
    destruct (IH _ _ _ ER) as [-> HM]. done.
  - destruct (IH _ _ _ E) as [-> HM]. split; [done|]. intros Hmem. apply HM. intros id msg Hl.
    apply lookup_insert_Some in Hl as [[_ <-]|[_ Hl]]; [done|by apply (Hmem id)].
Qed.

Lemma in_queue_pending since r : zero_inst < since -> in_queue cms since r = true ->
  IsZero (mSentAt (to_message cms chans r)) = true -> last_status (r_state r) = Pending.
Proof.
  intros HS HQ HZ. unfold in_queue in HQ. apply orb_true_iff in HQ as [HQ|HQ].
  - unfold to_message, IsZero in HZ. cbn [mSentAt] in HZ. destruct (sent_at (r_state r)) as [t|]; [|done].
    cbn [inst] in HZ. lia.
  - apply andb_true_iff in HQ as [HQ _]. by apply bool_decide_eq_true in HQ.
Qed.

Lemma queue_since t w : 0 <= t -> memory_ok w ->
  zero_inst < inst (if IsZero (w_lastSent w) then queue_cutoff (mkTime t UTC) else w_lastSent w).
Proof.
  intros Ht [HL _]. destruct (IsZero (w_lastSent w)).
  - unfold queue_cutoff, Add. cbn [inst].
    assert (maxThrottleDuration [PerCMThrottle; GlobalCMThrottle] = 10800000000000) as -> by (vm_compute; reflexivity).
    assert (zero_inst = -62135596800000000000) as -> by (vm_compute; reflexivity). lia.
  - destruct HL as [?|HL]; [done|]. assert (zero_inst < 0) by (vm_compute; reflexivity). lia.
Qed.

Lemma read_queue_spec t w result w' : 0 <= t -> memory_ok w ->
  NoDup (map id_of (w_rows w)) -> read_queue cms chans (mkTime t UTC) w = (result, w') ->
  good (pending_ids (w_rows w)) result /\ w_rows w' = w_rows w /\ w_sends w' = w_sends w /\ memory_ok w'.
Proof.
  intros Ht HM HN. unfold read_queue. pose proof (queue_since t w Ht HM) as HS.
  set (since := if IsZero (w_lastSent w) then _ else _) in *.
  destruct (read_rows cms chans _ (w_sentMessages w)) as [read memory] eqn:ER.
  apply read_rows_spec in ER as [-> Hmem]. specialize (Hmem (proj2 HM)). intros [= <- <-].
  assert (unsent_ids (map snd (List.filter (fun im : string * Message =>
    negb (Before (mSentAt im.2) (queue_cutoff (mkTime t UTC)))) (map_range memory))) = []) as HE.
  { unfold unsent_ids. rewrite filter_none; [done|]. intros x (im & -> & Him)%list_elem_of_fmap.
    apply elem_of_filter_bool in Him as [Him _]. rewrite map_range_perm in Him. destruct im as [id msg].
    apply elem_of_map_to_list in Him. by apply (Hmem id). }
  assert (forall l, unsent_ids (List.filter (fun msg => negb (String.eqb (dType (mDest msg)) "") && IsZero (mSentAt msg)) l) =
    map mID (List.filter (fun msg => negb (String.eqb (dType (mDest msg)) "") && IsZero (mSentAt msg)) l)) as HU.
  { intros l. unfold unsent_ids. f_equal. apply filter_true. intros x [_ Hx]%elem_of_filter_bool.
    by apply andb_true_iff in Hx as [_ ?]. }
  split; [|split; [done|split; [done|]]].
  - split.
    + rewrite unsent_ids_app, HE, app_nil_r, HU. apply NoDup_map_filter. rewrite map_map.
      by apply (NoDup_map_filter id_of).
    + intros id. rewrite unsent_ids_app, HE, app_nil_r, HU. intros (msg & -> & Hmsg)%list_elem_of_fmap.
      apply elem_of_filter_bool in Hmsg as [Hmsg Hk]. apply andb_true_iff in Hk as [_ Hk].
      apply list_elem_of_fmap in Hmsg as (r & -> & Hr). apply elem_of_filter_bool in Hr as [Hr Hq].
      apply elem_of_pending_ids. exists r. split; [done|]. split; [done|]. by apply (in_queue_pending (inst since)).
  - split; [by right|]. intros id msg [Hl _]%map_lookup_filter_Some. by apply (Hmem id).
Qed.

(** The read, as the offer. *)
Lemma triple_read t : 0 <= t -> life cms m ->
  ends clean ((fun w => let '(result, w) := read_queue cms chans (mkTime t UTC) w in (Ok result, w)) : M (list Message))
    (fun result w => exists O, good O result /\ opened O w /\ forall id, id ∈ O -> id ∈ map id_of (lf_rows m))
    unsent_world.
Proof.
  intros Ht Hlife w (((m' & H1 & H2 & H3 & H4) & HI) & HS & HM).
  destruct (read_queue cms chans (mkTime t UTC) w) as [result w'] eqn:E.
  assert (life cms m') as Hlife' by (clear -Hlife H1; induction H1; [done|]; apply IHrtc; by apply (life_next _ x)).
  pose proof (life_inv_reachable _ _ Hlife') as [HN _ _ _]. rewrite H2 in HN.
  destruct (read_queue_spec t w result w' Ht HM HN E) as (HG' & ER & ES & HM').
  exists (pending_ids (w_rows w)). split; [done|]. split.
  - split; [|split; [congruence|done]].
    exists (mkLife (lf_rows m') (pending_ids (lf_rows m')) (lf_attempts m')). split.
    { eapply rtc_r; [exact H1|]. by apply life_offer. }
    cbn [lf_rows lf_offered lf_attempts]. rewrite H2. split; [congruence|]. by split.
  - intros id (r & Hr & <- & _)%elem_of_pending_ids. apply HI. by apply list_elem_of_fmap_2.
Qed.

(** ** Bundling *)

Hypothesis uuid_fresh : forall n, attempts m (uuid n) = O /\ uuid n ∉ map id_of (lf_rows m).

Lemma bundle_cb_opened O t p ids w w' : opened O w -> bundle_cb cms db_err t p ids w = Some w' ->
  opened O w' /\ w_calls w' = S (w_calls w).
Proof.
  intros HO E. unfold bundle_cb in E. pose proof (triple_run_opened O t (BundleMessages p ids) eq_refl w HO) as HT.
  unfold run in *. destruct (stmt_at_cases t (BundleMessages p ids) w) as (e & w1 & EQ & _ & _ & _ & HC & _).
  rewrite EQ in *. destruct e; [done|]. injection E as <-. by split.
Qed.

Lemma new_bundle_cb_opened O t msg w id w' : opened O w ->
  new_bundle_cb cms db_err uuid t msg w = Some (id, w') ->
  opened ({[id]} ∪ O) w' /\ id = uuid (w_calls w) /\ w_calls w' = S (w_calls w).
Proof using uuid_fresh.
  intros ((m' & H1 & H2 & H3 & H4) & HS & HM) E. unfold new_bundle_cb in E. cbv zeta in E.
  set (st := CreateAlertBundle _ _ _ _ _ _) in E. unfold run in E.
  destruct (stmt_at_cases t st w) as (e & w1 & EQ & HSS & HL & HSM & HCa & HC).
  rewrite EQ in E. destruct e; [done|]. injection E as <- <-. split; [|done].
  destruct HC as [[[? ?] _]|[_ HE]]; [done|]. split; [|split; [congruence|unfold memory_ok; by rewrite HL, HSM]].
  apply exec_ok in HE as [HE HN]. unfold st in HE. cbn [apply_stmt] in HE. injection HE as HE.
  set (r := new_bundle _ _ _ _ _ _ _) in HE.
  exists (mkLife (lf_rows m' ++ [r]) ({[id_of r]} ∪ lf_offered m') (lf_attempts m')). split; [|split; [|split; [|done]]].
  - eapply rtc_r; [exact H1|]. apply life_bundle. split; [done|]. split; [done|]. split.
    + unfold attempts. rewrite H4. apply uuid_fresh.
    + rewrite H2. rewrite <- HE, map_app in HN. apply NoDup_app in HN as (_ & HN & _).
      intros Hin. apply (HN _ Hin). by left.
  - cbn [lf_rows]. by rewrite H2.
  - cbn [lf_offered]. by apply union_mono_l.
Qed.

Definition new_ids (calls : list call) : list string :=
  omap (fun c => match c with CNew _ id => Some id | CBundle _ _ => None end) calls.

Lemma calls_run_opened t calls : forall O w w', opened O w ->
  calls_run (new_bundle_cb cms db_err uuid t) (bundle_cb cms db_err t) calls w = Some w' ->
  opened (list_to_set (new_ids calls) ∪ O) w' /\ NoDup (new_ids calls) /\ (w_calls w <= w_calls w')%nat /\
  forall id, id ∈ new_ids calls -> exists k, (w_calls w <= k)%nat /\ id = uuid k.
Proof using uuid_fresh uuid_inj.
  induction calls as [|[msg id|p ids] calls IH]; intros O w w' HO E; cbn [calls_run new_ids omap list_omap] in *.
  - injection E as <-. cbn [list_to_set]. rewrite union_empty_l_L. split; [done|]. split; [constructor|].
    split; [done|]. by intros i Hi%elem_of_nil.
  - destruct (new_bundle_cb cms db_err uuid t msg w) as [[id' w1]|] eqn:E1; [|done]. cbn [mbind option_bind] in E.
    destruct (String.eqb_spec id' id) as [->|]; [|done].
    destruct (new_bundle_cb_opened O t msg w id w1 HO E1) as (HO1 & Hid & HC1).
    destruct (IH _ w1 w' HO1 E) as (HO2 & HN & HC2 & HU). fold (new_ids calls) in *.
    split; [|split; [|split]].
    + cbn [list_to_set]. destruct HO2 as [(m' & H1 & H2 & H3 & H4) HO2]. split; [|done]. exists m'.
      split; [done|]. split; [done|]. split; [|done]. etransitivity; [|exact H3]. clear. set_solver.
    + constructor; [|done]. intros Hin. destruct (HU id Hin) as (k & Hk & HE).
      rewrite Hid in HE. apply uuid_inj in HE. lia.
    + lia.
    + intros i [->|Hi]%elem_of_cons; [by exists (w_calls w)|]. destruct (HU i Hi) as (k & Hk & HE).
      exists k. split; [lia|done].
  - destruct (bundle_cb cms db_err t p ids w) as [w1|] eqn:E1; [|done]. cbn [mbind option_bind] in E.
    destruct (bundle_cb_opened O t p ids w w1 HO E1) as (HO1 & HC1).
    destruct (IH _ w1 w' HO1 E) as (HO2 & HN & HC2 & HU). split; [done|]. split; [done|]. split; [lia|].
    intros i Hi. destruct (HU i Hi) as (k & Hk & HE). exists k. split; [lia|done].
Qed.

Lemma run_bundles_opened t calls : forall O w w', opened O w ->
  run_bundles (bundle_cb cms db_err t) calls w = Some w' -> opened O w'.
Proof.
  induction calls as [|[p ids] calls IH]; intros O w w' HO E; cbn [run_bundles] in E; [by injection E as <-|].
  destruct (bundle_cb cms db_err t p ids w) as [w1|] eqn:E1; [|done]. cbn [mbind option_bind] in E.
  destruct (bundle_cb_opened O t p ids w w1 HO E1) as [HO1 _]. by apply (IH O w1).
Qed.

(** Where the id of a message left by bundling comes from. *)
Definition id_origin (msgs : list Message) (calls : list call) (m' : Message) : Prop :=
  (exists x, x ∈ msgs /\ matches alert_types x = true /\ bundle_key x = bundle_key m' /\ mID x = mID m') \/
  mID m' ∈ new_ids calls.

Lemma stands_for_origin msgs calls m' :
  stands_for (fun x => x ∈ msgs /\ matches alert_types x = true /\ bundle_key x = bundle_key m') calls m' ->
  id_origin msgs calls m' /\ IsZero (mSentAt m') = true.
Proof.
  intros [HO _ _ _]. assert (forall x, matches alert_types x = true -> IsZero (mSentAt x) = true) as HZ.
  { intros x Hx. unfold matches in Hx. by apply andb_true_iff in Hx as [? _]. }
  destruct HO as [(H1 & H2 & H3)|(x & id & (H1 & H2 & H3) & Hc & E)].
  - split; [|by apply HZ]. left. by exists m'.
  - subst m'. split; [|exact (HZ x H2)]. right. unfold new_ids. apply list_elem_of_omap.
    by exists (CNew x id).
Qed.

Lemma out_ids msgs callss out :
  NoDup (unsent_ids msgs) -> NoDup (concat (map new_ids callss)) ->
  (forall id, id ∈ concat (map new_ids callss) -> id ∉ unsent_ids msgs) ->
  NoDup (map bundle_key out) ->
  Forall2 (fun calls m' => id_origin msgs calls m') callss out ->
  NoDup (map mID out) /\
  forall id, id ∈ map mID out ->
    (exists x, x ∈ msgs /\ matches alert_types x = true /\ mID x = id) \/ id ∈ concat (map new_ids callss).
Proof.
  intros HN. assert (forall x, x ∈ msgs -> matches alert_types x = true ->
    x ∈ List.filter (fun x => IsZero (mSentAt x)) msgs) as Hf.
  { intros x Hx Hm. apply elem_of_filter_bool. split; [done|]. unfold matches in Hm.
    by apply andb_true_iff in Hm as [? _]. }
  assert (forall x, x ∈ msgs -> matches alert_types x = true -> mID x ∈ unsent_ids msgs) as Hu.
  { intros x Hx Hm. apply list_elem_of_fmap_2. by apply Hf. }
  intros HNC HF HK HO. induction HO as [|calls m' callss out Ho HO IH]; cbn [map concat] in *.
  { split; [constructor|]. by intros id Hid%elem_of_nil. }
  apply NoDup_app in HNC as (HNc & HD & HNC). apply NoDup_cons in HK as [Hk HK].
  destruct IH as [IH1 IH2]; [done|intros id Hid; apply HF, elem_of_app; by right|done|].
  split.
  - constructor; [|done]. intros (m2 & HE & Hm2)%list_elem_of_fmap.
    assert (exists calls2, calls2 ∈ callss /\ id_origin msgs calls2 m2) as (calls2 & Hc2 & Ho2).
    { clear -HO Hm2. induction HO as [|c x callss out Hx HO IH]; [by apply elem_of_nil in Hm2|].
      apply elem_of_cons in Hm2 as [->|Hm2]; [exists c; split; [by left|done]|].
      destruct (IH Hm2) as (c2 & ? & ?). exists c2. split; [by right|done]. }
    assert (forall i, i ∈ new_ids calls2 -> i ∈ concat (map new_ids callss)) as Hin2.
    { intros i Hi. apply list_elem_of_In, in_concat. exists (new_ids calls2).
      split; [by apply in_map, list_elem_of_In|by apply list_elem_of_In]. }
    destruct Ho as [(x & Hx1 & Hx2 & Hx3 & Hx4)|Hx], Ho2 as [(y & Hy1 & Hy2 & Hy3 & Hy4)|Hy].
    + assert (x = y) as ->.
      { apply (NoDup_map_inj mID (List.filter (fun x => IsZero (mSentAt x)) msgs)); auto. congruence. }
      apply Hk. apply list_elem_of_fmap. exists m2. split; [congruence|done].
    + apply (HF (mID m2)); [apply elem_of_app; right; auto|]. rewrite <- HE, <- Hx4. by apply Hu.
    + apply (HF (mID m')); [apply elem_of_app; by left|]. rewrite HE, <- Hy4. by apply Hu.
    + apply (HD (mID m') Hx). rewrite HE. auto.
  - intros id [->|Hid]%elem_of_cons.
    + destruct Ho as [(x & Hx1 & Hx2 & _ & Hx4)|Hx]; [left; by exists x|right; apply elem_of_app; by left].
    + destruct (IH2 id Hid) as [?|?]; [by left|right; apply elem_of_app; by right].
Qed.

Lemma bundles_good O msgs callss out :
  good O msgs -> NoDup (concat (map new_ids callss)) ->
  (forall id, id ∈ concat (map new_ids callss) -> id ∉ O) ->
  NoDup (map bundle_key out) ->
  Forall2 (fun calls m' => stands_for
    (fun x => x ∈ msgs /\ matches alert_types x = true /\ bundle_key x = bundle_key m') calls m') callss out ->
  good (list_to_set (concat (map new_ids callss)) ∪ O)
    (List.filter (fun x => negb (matches alert_types x)) msgs ++ out).
Proof.
  intros [HN HO] HNC HF HK HS.
  assert (Forall2 (fun calls m' => id_origin msgs calls m') callss out) as HOr.
  { eapply Forall2_impl; [exact HS|]. intros c x Hx. by apply stands_for_origin. }
  assert (unsent_ids out = map mID out) as HEO.
  { unfold unsent_ids. f_equal. apply filter_true. intros x Hx. clear -HS Hx.
    induction HS as [|c y callss out Hy HS IH]; [by apply elem_of_nil in Hx|].
    apply elem_of_cons in Hx as [->|Hx]; [|by apply IH]. by apply stands_for_origin in Hy as [_ ?]. }
  assert (forall id, id ∈ concat (map new_ids callss) -> id ∉ unsent_ids msgs) as HFU.
  { intros id Hid Hin. by apply (HF id Hid), HO. }
  destruct (out_ids msgs callss out HN HNC HFU HK HOr) as [HN1 HO1].
  set (rest := List.filter _ msgs).
  assert (forall x, x ∈ rest -> IsZero (mSentAt x) = true ->
    x ∈ List.filter (fun x => IsZero (mSentAt x)) msgs /\ matches alert_types x = false) as HRest.
  { intros x Hx HZ. apply elem_of_filter_bool in Hx as [Hx Hm]. apply negb_true_iff in Hm.
    split; [|done]. by apply elem_of_filter_bool. }
  split.
  - rewrite unsent_ids_app, HEO. apply NoDup_app. split; [|split; [|done]].
    + assert (List.filter (fun x => IsZero (mSentAt x)) rest =
        List.filter (fun x => negb (matches alert_types x)) (List.filter (fun x => IsZero (mSentAt x)) msgs)) as HE.
      { unfold rest. clear. induction msgs as [|x msgs IH]; cbn [List.filter]; [done|].
        destruct (IsZero (mSentAt x)) eqn:EZ; destruct (matches alert_types x) eqn:EM; cbn [negb List.filter];
          rewrite ?EZ, ?EM; cbn [negb]; congruence. }
      unfold unsent_ids at 1. rewrite HE. by apply NoDup_map_filter.
    + intros id Hid Hout. apply list_elem_of_fmap in Hid as (x & -> & Hx).
      apply elem_of_filter_bool in Hx as [Hx HZ]. destruct (HRest x Hx HZ) as [Hx1 Hx2].
      destruct (HO1 _ Hout) as [(y & Hy1 & Hy2 & Hy3)|Hnew].
      * assert (x = y) as ->; [|congruence]. apply (NoDup_map_inj mID _ x y HN); [done| |done].
        apply elem_of_filter_bool. split; [done|]. unfold matches in Hy2. by apply andb_true_iff in Hy2 as [? _].
      * apply (HFU _ Hnew). by apply list_elem_of_fmap_2.
  - intros id. rewrite unsent_ids_app, HEO, elem_of_app. intros [Hid|Hid].
    + apply elem_of_union_r. apply list_elem_of_fmap in Hid as (x & -> & Hx).
      apply elem_of_filter_bool in Hx as [Hx HZ]. destruct (HRest x Hx HZ) as [Hx1 _].
      apply HO. by apply list_elem_of_fmap_2.
    + destruct (HO1 id Hid) as [(y & Hy1 & Hy2 & <-)|Hnew].
      * apply elem_of_union_r, HO. apply list_elem_of_fmap_2, elem_of_filter_bool. split; [done|].
        unfold matches in Hy2. by apply andb_true_iff in Hy2 as [? _].
      * by apply elem_of_union_l, elem_of_list_to_set.
Qed.

Lemma new_ids_concat callss : new_ids (concat callss) = concat (map new_ids callss).
Proof.
  induction callss as [|c callss IH]; cbn [concat map]; [done|]. unfold new_ids in *. by rewrite omap_app, IH.
Qed.

(** ** The queue *)

(** What the transaction hands over: a queue whose pending messages are offered. *)
Definition ready (q : @queue H _ _) (w : World) : Prop :=
  exists msgs now O, newQueue Sum256 Marshal msgs now = Some q /\ good O msgs /\ opened O w.

(** The messages so far. *)
Definition reading (msgs : list Message) (w : World) : Prop :=
  exists O, good O msgs /\ opened O w /\ forall id, id ∈ O -> id ∈ map id_of (lf_rows m).

Lemma reading_sub msgs msgs' w : (exists dropped, msgs' ++ dropped ≡ₚ msgs) -> reading msgs w -> reading msgs' w.
Proof. intros HS (O & H1 & H2). exists O. split; [by apply (good_sub O msgs)|done]. Qed.

Lemma triple_delete t ids msgs :
  ends (reading msgs) (delete_all cms db_err t ids) (fun _ => reading msgs) unsent_world.
Proof.
  intros w (O & H1 & H2 & H3). unfold delete_all. destruct (0 <? length ids)%nat; [|by exists O].
  pose proof (triple_run_opened O t (DeleteAny ids) eq_refl w H2) as HT.
  destruct (run cms db_err t (DeleteAny ids) w) as [[[]|e|] w']; [by exists O|done|done].
Qed.

Lemma reading_unsent msgs w : reading msgs w -> unsent_world w.
Proof. by intros (O & _ & (_ & ? & _) & _). Qed.

Lemma triple_dedupAlerts t msgs :
  ends (reading msgs) (callbacks (dedupAlerts (bundle_cb cms db_err t) msgs)) reading unsent_world.
Proof.
  intros w Hw. unfold callbacks. destruct (dedupAlerts _ msgs w) as [[result w']|] eqn:E;
    [|by apply (reading_unsent msgs)].
  apply dedupAlerts_sub in E as [HS [calls HC]]. apply (reading_sub msgs); [done|].
  destruct Hw as (O & H1 & H2 & H3). exists O. split; [done|]. split; [|done].
  by apply (run_bundles_opened t calls O w).
Qed.

Lemma triple_bundle t msgs :
  ends (reading msgs)
    (callbacks (bundleAlertMessages (new_bundle_cb cms db_err uuid t) (bundle_cb cms db_err t) msgs))
    (fun msgs w => exists O, good O msgs /\ opened O w) unsent_world.
Proof using uuid_fresh uuid_inj.
  intros w Hw. unfold callbacks. destruct (bundleAlertMessages _ _ msgs w) as [[result w']|] eqn:E;
    [|by apply (reading_unsent msgs)].
  apply bundleAlertMessages_spec in E as (out & callss & -> & HC & HK & _ & HS).
  destruct Hw as (O & H1 & H2 & H3).
  destruct (calls_run_opened t _ O w w' H2 HC) as (HO & HN & _ & HU). rewrite new_ids_concat in *.
  exists (list_to_set (concat (map new_ids callss)) ∪ O). split; [|done]. apply bundles_good; try done.
  intros id Hid Hin. destruct (HU id Hid) as (k & _ & ->). by apply (proj2 (uuid_fresh k)), H3.
Qed.

Lemma triple_make_queue msgs now :
  ends (fun w => exists O, good O msgs /\ opened O w) (make_queue Sum256 Marshal msgs now) ready unsent_world.
Proof.
  intros w (O & H1 & H2). unfold make_queue. destruct (newQueue Sum256 Marshal msgs now) as [q|] eqn:E.
  - by exists msgs, now, O.
  - by destruct H2 as (_ & ? & _).
Qed.

Lemma triple_currentQueue t : 0 <= t -> life cms m ->
  ends clean (currentQueue Sum256 Marshal cms chans db_err uuid DisableMessageBundles t) ready unsent_world.
Proof using uuid_fresh uuid_inj.
  intros Ht HL. unfold currentQueue. apply triple_bind with (Q := fun _ => clean);
    [apply triple_other, clean_tick|intros _].
  apply triple_bind with (Q := reading); [by apply triple_read|intros msgs].
  pose proof (dedupOnCallNotifications_sub msgs) as HS1.
  destruct (dedupOnCallNotifications msgs) as [msgs1 del1]. cbn [fst] in HS1.
  apply triple_bind with (Q := fun _ => reading msgs1).
  { eapply triple_weaken; [apply (triple_delete t del1 msgs1)|..]; try done.
    intros w. by apply reading_sub. }
  intros _. pose proof (dedupStatusMessages_sub msgs1) as HS2.
  destruct (dedupStatusMessages msgs1) as [msgs2 del2]. cbn [fst] in HS2.
  apply triple_bind with (Q := fun _ => reading msgs2).
  { eapply triple_weaken; [apply (triple_delete t del2 msgs2)|..]; try done.
    intros w. by apply reading_sub. }
  intros _. apply triple_bind with (Q := reading); [apply triple_dedupAlerts|intros msgs3].
  destruct DisableMessageBundles.
  - eapply triple_weaken; [apply triple_make_queue|..]; try done. intros w (O & ? & ? & _). by exists O.
  - apply triple_bind with (Q := fun msgs w => exists O, good O msgs /\ opened O w); [apply triple_bundle|].
    intros msgs4. apply triple_make_queue.
Qed.

Lemma triple_prepare t : 0 <= t -> life cms m ->
  ends clean (prepare_table Sum256 Marshal cms chans db_err uuid DisableMessageBundles TwilioEnable t)
    ready unsent_world.
Proof using uuid_fresh uuid_inj.
  intros Ht HL. unfold prepare_table.
  do 2 (apply triple_bind with (Q := fun _ => clean); [apply triple_other, clean_tick|intros _]).
  apply triple_bind with (Q := fun _ => clean); [apply triple_run_clean; by left|intros _].
  apply triple_bind with (Q := fun _ => clean).
  { destruct TwilioEnable; [by intros w Hw|apply triple_run_clean; by left]. }
  intros _. do 3 (apply triple_bind with (Q := fun _ => clean); [apply triple_run_clean; by left|intros _]).
  apply triple_bind with (Q := fun _ => clean); [apply triple_run_clean; by right|intros _].
  by apply triple_currentQueue.
Qed.

(** An undone transaction leaves the rows it started with. *)
Lemma in_tx_spec {A} (P : World -> Prop) (Q : A -> World -> Prop) (body : Z -> M A) w :
  (forall t, 0 <= t -> ends P (body t) Q (fun w' => w_sends w' = w_sends w)) ->
  (forall w, P w -> P (tick w)) -> (forall a w, Q a w -> Q a (tick w)) ->
  (forall a w', Q a w' -> w_sends w' = w_sends w) -> P w ->
  match in_tx db_err clock body w with
  | (Ok a, w') => Q a w'
  | (_, w') => w_rows w' = w_rows w /\ w_sends w' = w_sends w
  end.
Proof using clock_pos.
  intros HT HP HQ HS Hw. unfold in_tx, bind, other_call.
  destruct (db_err (w_calls w)); cbn [set_rows w_rows w_sends tick]; [done|].
  specialize (HT (clock (w_calls (tick w))) (clock_pos _) (tick w) (HP w Hw)).
  destruct (body _ (tick w)) as [[a|e|] w1]; cbn [set_rows w_rows w_sends]; [|done|done].
  destruct (db_err (w_calls w1)); cbn [set_rows w_rows w_sends tick ret]; [|by apply HQ].
  split; [done|]. by apply (HS a).
Qed.

(** ** The whole cycle *)

Lemma triple_all {A} (P E : World -> Prop) (f : M A) :
  (forall w, P w -> E (f w).2) -> ends P f (fun _ => E) E.
Proof. intros HP w Hw. specialize (HP w Hw). by destruct (f w) as [[a|e|] w']. Qed.

Lemma follows_tick O w : follows O w -> follows O (tick w).
Proof. by apply follows_same. Qed.

Lemma stuck_tx_spec w : follows ∅ w ->
  match in_tx db_err clock (stuck_tx cms db_err) w with
  | (Ok _, w') => follows ∅ w' /\ w_sends w' = w_sends w
  | (_, w') => w_rows w' = w_rows w /\ w_sends w' = w_sends w
  end.
Proof using clock_pos.
  intros HF. apply (in_tx_spec (fun w' => follows ∅ w' /\ w_sends w' = w_sends w)
    (fun _ w' => follows ∅ w' /\ w_sends w' = w_sends w));
    [|intros ? [? ?]; split; [by apply follows_tick|done]|intros ? ? [? ?]; split; [by apply follows_tick|done]|
      by intros ? ? [? ?]|done].
  intros t Ht w1 [HF1 HS1]. unfold stuck_tx, bind, run.
  pose proof (follows_calm ∅ t (TouchStuck (map id_of (stuck t (w_rows w1)))) w1 eq_refl HF1) as HF2.
  destruct (stmt_at_cases t (TouchStuck (map id_of (stuck t (w_rows w1)))) w1) as (e & w2 & EQ & HS2 & _).
  rewrite EQ in *. cbn [snd] in HF2. destruct e; [congruence|].
  destruct (mapM read_stuck (stuck t (w_rows w1))); cbn [ret fail]; [|congruence]. split; [done|congruence].
Qed.

Lemma triple_stuck :
  ends (follows ∅) (updateStuckMessages cms db_err clock statusFn) (fun _ => follows ∅) (follows ∅).
Proof using clock_pos.
  apply triple_all. intros w HF. unfold updateStuckMessages, bind. pose proof (stuck_tx_spec w HF) as HT.
  destruct (in_tx db_err clock (stuck_tx cms db_err) w) as [[toCheck|e|] w']; cbn [snd].
  - apply follows_refresh. apply HT.
  - destruct HT. by apply (follows_same ∅ w).
  - destruct HT. by apply (follows_same ∅ w).
Qed.

(** Before the transaction: nothing has happened yet. *)
Definition at_start (w : World) : Prop :=
  w_rows w = lf_rows m /\ w_sends w = w_sends w0 /\ memory_ok w.

Lemma at_start_follows w : at_start w -> follows ∅ w.
Proof.
  intros (H1 & H2 & _). exists (mkLife (lf_rows m) ∅ (lf_attempts m)). split.
  { apply rtc_once, life_end. }
  split; [done|]. split; [done|]. intros i. unfold nsends. rewrite H2. done.
Qed.

Lemma at_start_clean w : at_start w -> clean w.
Proof.
  intros (H1 & H2 & H3). split; [|done]. split; [|by rewrite H1].
  exists (mkLife (lf_rows m) ∅ (lf_attempts m)). split; [apply rtc_once, life_end|]. by rewrite H1.
Qed.

Lemma ready_follows q w : ready q w ->
  follows ∅ (send_types Sum256 Marshal cms db_err clock send intn draw (Types q) q w).2.
Proof.
  intros (msgs & now & O & HQ & HGood & (m' & H1 & H2 & H3 & H4) & HS & _). apply (follows_queue msgs now q O); [done|done|].
  exists m'. split; [done|]. split; [done|]. split; [done|]. intros i. unfold nsends, attempts. rewrite HS, H4. done.
Qed.

Lemma triple_cycle gotLock : life cms m ->
  ends at_start (SendMessages_ Sum256 Marshal cms chans db_err clock send statusFn uuid intn draw
    DisableMessageBundles TwilioEnable gotLock) (fun _ => follows ∅) (follows ∅).
Proof using clock_pos uuid_fresh uuid_inj.
  intros HL. unfold SendMessages_.
  assert (ends at_start (other_call db_err) (fun _ => at_start) (follows ∅)) as HO.
  { intros w Hw. unfold other_call. assert (at_start (tick w)) by done.
    destruct (db_err (w_calls w)); [by apply at_start_follows|done]. }
  do 3 (apply triple_bind with (Q := fun _ => at_start); [done|intros _]).
  destruct gotLock; cbn [negb].
  2: { intros w Hw. by apply at_start_follows. }
  apply triple_bind with (Q := ready).
  - intros w Hw. pose proof (at_start_clean w Hw) as HC.
    assert (w_sends w = w_sends w0) as HS by apply HC.
    pose proof (in_tx_spec clean ready (prepare_table Sum256 Marshal cms chans db_err uuid DisableMessageBundles TwilioEnable) w) as HT.
    assert (match in_tx db_err clock (prepare_table Sum256 Marshal cms chans db_err uuid DisableMessageBundles TwilioEnable) w with
      | (Ok a, w') => ready a w'
      | (_, w') => w_rows w' = w_rows w /\ w_sends w' = w_sends w end) as HT'.
    { apply HT; [|intros w1 H1; by apply clean_tick| | |done].
      - intros t Ht. eapply triple_weaken; [by apply triple_prepare|done|done|]. intros x w1 H1. unfold unsent_world in H1. congruence.
      - intros q w1 (msgs & now & O & H1 & H2 & H3). exists msgs, now, O. split; [done|]. split; [done|]. by apply opened_tick.
      - intros q w1 (msgs & now & O & _ & _ & _ & H3 & _). congruence. }
    destruct (in_tx _ _ _ w) as [[q|e|] w']; [done|..];
      (destruct HT' as [HT1 HT2]; apply (follows_same ∅ w); [done|done|by apply at_start_follows]).
  - intros q. apply triple_bind with (Q := fun _ => follows ∅); [|intros _; apply triple_stuck].
    apply triple_all, ready_follows.
Qed.

End follows.

(** C6: a cycle of sending, with whatever errors of the database and answers of
    the providers, does to the table what a sequence of life steps does: it sends
    only messages it has read as pending, or bundled, each once; and gives a
    message to the provider at most ten times for each attempt. *)
Theorem cycle_refines_life gotLock m w (HL : life cms m) (HW : lf_rows m = w_rows w) (HM : memory_ok w)
  (HU : forall n, attempts m (uuid n) = O /\ uuid n ∉ map id_of (lf_rows m)) :
  let w' := (SendMessages_ Sum256 Marshal cms chans db_err clock send statusFn uuid intn draw
    DisableMessageBundles TwilioEnable gotLock w).2 in
  exists m', rtc (life_step cms) m m' /\ lf_rows m' = w_rows w' /\
    forall id, (nsends id w' + 10 * attempts m id <= nsends id w + 10 * attempts m' id)%nat /\
      (attempts m' id <= 4)%nat.
Proof using clock_pos uuid_inj.
  intros w'. assert (at_start m w w) as HA by done.
  pose proof (triple_cycle m w HU gotLock HL w HA) as HT. unfold w'.
  destruct (SendMessages_ _ _ _ _ _ _ _ _ _ _ _ _ _ _ w) as [r w1]. cbn [snd].
  assert (follows m w ∅ w1) as (m' & H1 & H2 & _ & H4) by (by destruct r).
  exists m'. split; [done|]. split; [done|]. intros id. split; [apply H4|].
  apply li_all, (life_inv_reachable cms). clear -HL H1. induction H1; [done|].
  apply IHrtc. by apply (life_next _ x).
Qed.
End Cycle.

(** ** A concrete cycle: one message, sent and delivered *)

Definition sample_cms : gmap string ContactMethod :=
  {["cm1"%string := mkCM "t" false true "u1" (mkDest ∅ "t")]}.

Fixpoint sample_uuid (n : nat) : string := match n with O => "u" | S n => String.append "u" (sample_uuid n) end.

Lemma sample_uuid_length n : String.length (sample_uuid n) = S n.
Proof. induction n as [|n IH]; [done|]. cbn [sample_uuid]. change (S (String.length (sample_uuid n)) = S (S n)). by rewrite IH. Qed.

Lemma sample_uuid_inj n k : sample_uuid n = sample_uuid k -> n = k.
Proof. intros E%(f_equal String.length). rewrite !sample_uuid_length in E. by injection E. Qed.

Lemma sample_uuid_fresh n : sample_uuid n ∉ ["m1"%string].
Proof. intros E%list_elem_of_singleton. by destruct n. Qed.

Definition sample_send (n : nat) (m : Message) : option SendResult * option error :=
  (Some (mkResult (mID m) (mkPID "1" "p") StateDelivered "delivered" 0 ""), None).

Definition sample_world : World := mkWorld [sample_row] zeroTime ∅ 0 [].

Definition sample_cycle : res error unit * World :=
  @SendMessages_ Z _ _ sample_hash dType no_shuffle stable_go_sort ordered_map_range sample_cms ∅
    (fun _ => None) (fun _ => 1000000000000000000) sample_send (fun _ => None) sample_uuid (fun _ => 50) 0
    false true true sample_world.

Lemma cycle_refines_life_witness :
  (map (fun r => last_status (r_state r)) (w_rows sample_cycle.2) = [Delivered] /\
   w_sends sample_cycle.2 = ["m1"%string]) /\
  exists m', rtc (life_step sample_cms) (mkLife [sample_row] ∅ ∅) m' /\ lf_rows m' = w_rows sample_cycle.2 /\
    forall id, (nsends id sample_cycle.2 + 10 * attempts (mkLife [sample_row] ∅ ∅) id
      <= nsends id sample_world + 10 * attempts m' id)%nat /\ (attempts m' id <= 4)%nat.
Proof.
  split; [vm_compute; split; reflexivity|].
  unfold sample_cycle.
  refine (@cycle_refines_life Z _ _ sample_hash dType no_shuffle stable_go_sort ordered_map_range sample_cms ∅
    (fun _ => None) (fun _ => 1000000000000000000) sample_send (fun _ => None) sample_uuid (fun _ => 50) 0%nat
    false true _ sample_uuid_inj true (mkLife [sample_row] ∅ ∅) sample_world _ _ _ _).
  - intros n. vm_compute. discriminate.
  - apply (life_next _ (mkLife [] ∅ ∅)); [apply life_init|].
    apply (life_insert _ (mkLife [] ∅ ∅) sample_row). split; [reflexivity|]. split; [reflexivity|].
    split; [vm_compute; reflexivity|]. intros Hin. by apply elem_of_nil in Hin.
  - reflexivity.
  - split; [left; reflexivity|]. intros id msg Hl. cbn [w_sentMessages sample_world] in Hl.
    by rewrite lookup_empty in Hl.
  - intros n. split; [reflexivity|apply sample_uuid_fresh].
Defined.
