(* ===== verification/NotificationRule.v ===== *)
(** * On-call notification rules

    [schedule/oncallnotificationrule.go], and the time of a rule's next
    notification, [nextOnCallNotification] of
    [engine/schedulemanager/update.go].

    A rule with a time notifies on the enabled days at that time; the theorems
    show that the engine computes the next such instant.  The text of a rule's
    id is a UUID, a separator and a decimal number. *)

From Stdlib Require Import Ascii.
From S2P Require Import Prelude Text GoTime Clock WeekdayFilter Rule Diagnostics.

(** ** [RuleID] *)

Record RuleID := mkRuleID { scheduleID : UUID; id : Z; valid : bool }.

(** ** Rules *)

Record OnCallNotificationRule := mkOCRule {
  ocID : RuleID;
  ChannelID : UUID;
  ocTime : option Clock;
  ocFilter : option WeekdayFilter;
  NextNotification : option Time
}.

Section RuleID.
Context `{UUIDText}.

Definition RuleID_String (r : RuleID) : string :=
  if negb (valid r) then "" else (uuid_String (scheduleID r) ++ ":" ++ itoa (id r))%string.

(** The bytes; [nil] is read as the empty text. *)
Definition MarshalText (r : RuleID) : string :=
  if negb (valid r) then "" else RuleID_String r.

(** [None] is an error. *)
Definition UnmarshalText (s : string) : option RuleID :=
  if String.eqb s "" then Some (mkRuleID 0 0 false)
  else if (String.length s <? 38)%nat then None
  else
    u ← uuid_Parse (String.substring 0 36 s);
    i ← ParseInt32 (String.substring 37 (String.length s - 37) s);
    Some (mkRuleID u i true).
End RuleID.

(** ** The next notification *)

Definition next_daily (c : Clock) (nowInZone : Time) : Time :=
  let newTime := FirstOfDay c nowInZone in
  if negb (After newTime nowInZone) then
    let '(y, m, d) := Date nowInZone in
    FirstOfDay c (date y m (d + 1) 0 0 0 0 (zone nowInZone))
  else newTime.

Definition next_filtered (c : Clock) (f : WeekdayFilter) (nowInZone : Time) : Time :=
  let newTime :=
    if DayOn f (Weekday nowInZone) then FirstOfDay c nowInZone
    else FirstOfDay c (NextActive f nowInZone) in
  if negb (After newTime nowInZone) then FirstOfDay c (NextActive f newTime) else newTime.

Definition nextOnCallNotification (nowInZone : Time) (rule : OnCallNotificationRule) : option Time :=
  match ocTime rule with
  | None => None
  | Some c =>
      match ocFilter rule with
      | None => Some (next_daily c nowInZone)
      | Some f =>
          if IsAlways f then Some (next_daily c nowInZone)
          else if IsNever f then None
          else Some (next_filtered c f nowInZone)
      end
  end.

Definition equalTimePtr (a b : option Time) : bool :=
  match a, b with
  | None, None => true
  | Some a, Some b => EqualT a b
  | _, _ => false
  end.

(** ** What a rule means *)

(** The days of a rule; without a filter, every day. *)
Definition rule_day (r : OnCallNotificationRule) (d : Z) : Prop :=
  match ocFilter r with None => True | Some f => day_on f d end.

(** The rule is due at the instant [i], in a location [o] seconds from UTC. *)
Definition due (o : Z) (r : OnCallNotificationRule) (i : Z) : Prop :=
  match ocTime r with
  | None => False
  | Some c => exists d, rule_day r d /\ i = mid o d + c
  end.

Definition wf_oc_rule (r : OnCallNotificationRule) : Prop :=
  match ocTime r with Some c => 0 <= c < Day | None => True end /\
  match ocFilter r with Some f => wf f | None => True end.

(** ** The text of an id reads back *)

(** What a value read from a text is: the zero id, or an id in range. *)
Definition wf_id (r : RuleID) : Prop :=
  if valid r then is_uuid (scheduleID r) /\ int32 (id r) = true
  else scheduleID r = uuid_Nil /\ id r = 0.

Section RuleID_roundtrip.
Context `{UUIDText}.

Lemma UnmarshalText_parts u n rest :
  is_uuid u -> int32 n = true -> String.length rest = 1%nat ->
  UnmarshalText (uuid_String u ++ rest ++ itoa n) = Some (mkRuleID u n true).
Proof.
  intros Hu Hn Hr. pose proof (uuid_String_length u) as HL. pose proof (itoa_nonempty n).
  unfold UnmarshalText.
  destruct (String.eqb_spec (uuid_String u ++ rest ++ itoa n)%string "") as [E|_].
  { apply (f_equal String.length) in E. rewrite string_length_app in E. simpl in E. lia. }
  assert (String.length (uuid_String u ++ rest ++ itoa n) = (37 + String.length (itoa n))%nat) as EL
    by (rewrite !string_length_app; lia).
  rewrite EL, (proj2 (Nat.ltb_ge _ _)) by lia.
  rewrite <- HL at 1. rewrite substring_prefix, (uuid_Parse_String u Hu). simpl.
  pose proof (substring_app (uuid_String u ++ rest) (itoa n)) as ES.
  rewrite string_length_app, HL, Hr in ES. change (36 + 1)%nat with 37%nat in ES.
  assert (((uuid_String u ++ rest) ++ itoa n)%string = (uuid_String u ++ rest ++ itoa n)%string) as EA.
  { symmetry. apply string_app_assoc. }
  rewrite EA in ES. rewrite Nat.sub_0_r, ES, ParseInt32_itoa by done. done.
Qed.

Lemma UnmarshalText_wf s r : UnmarshalText s = Some r -> wf_id r.
Proof.
  unfold UnmarshalText. destruct (String.eqb s ""); [intros [= <-]; by split|].
  destruct (String.length s <? 38)%nat; [done|].
  destruct (uuid_Parse (String.substring 0 36 s)) as [u|] eqn:EU; [|done]. simpl.
  destruct (ParseInt32 _) as [i|] eqn:EI; [|done].
  intros [= <-]. split; [by eapply uuid_Parse_range|]. by eapply ParseInt32_range.
Qed.

(** The text of a rule id reads back as the id, and an id read from any
    text is well formed, so that it survives being written and read again. *)
Theorem RuleID_roundtrip :
  (forall r, wf_id r -> UnmarshalText (MarshalText r) = Some r) /\
  (forall s r, UnmarshalText s = Some r -> wf_id r /\ UnmarshalText (MarshalText r) = Some r).
Proof.
  assert (forall r, wf_id r -> UnmarshalText (MarshalText r) = Some r) as HR.
  { intros [u n v] Hr. unfold wf_id, MarshalText, RuleID_String in *. destruct v; simpl in *.
    - destruct Hr. by apply UnmarshalText_parts.
    - by destruct Hr as [-> ->]. }
  split; [done|]. intros s r E. pose proof (UnmarshalText_wf s r E). auto.
Qed.

(** The separator is skipped without being read. *)
Lemma separator_not_checked u n c : is_uuid u -> int32 n = true ->
  UnmarshalText (uuid_String u ++ String c "" ++ itoa n) = Some (mkRuleID u n true).
Proof. intros. by apply UnmarshalText_parts. Qed.
End RuleID_roundtrip.

(** ** The next notification is the next due instant *)

Lemma day_on_everyDay d : day_on everyDay d.
Proof.
  unfold day_on, at_, everyDay. pose proof (Z.mod_pos_bound (d + 4) 7 ltac:(lia)).
  set (k := (d + 4) mod 7) in *. clearbody k.
  assert (k = 0 \/ k = 1 \/ k = 2 \/ k = 3 \/ k = 4 \/ k = 5 \/ k = 6) as HK by lia.
  by destruct HK as [->|[->|[->|[->|[->|[->| ->]]]]]].
Qed.

Lemma not_day_on_neverDays d : ~ day_on neverDays d.
Proof.
  unfold day_on, at_, neverDays. pose proof (Z.mod_pos_bound (d + 4) 7 ltac:(lia)).
  set (k := (d + 4) mod 7) in *. clearbody k.
  assert (k = 0 \/ k = 1 \/ k = 2 \/ k = 3 \/ k = 4 \/ k = 5 \/ k = 6) as HK by lia.
  by destruct HK as [->|[->|[->|[->|[->|[->| ->]]]]]].
Qed.

(** [t] is the first instant after [now] that satisfies [P]. *)
Definition first_after (P : Z -> Prop) (now : Z) (t : Z) : Prop :=
  P t /\ now < t /\ forall i, P i -> now < i -> t <= i.

Lemma first_after_unique P now t t' : first_after P now t -> first_after P now t' -> t = t'.
Proof. intros (H1 & H2 & H3) (H4 & H5 & H6). specialize (H3 t' H4 H5). specialize (H6 t H1 H2). lia. Qed.

Lemma first_after_later P now now' t :
  first_after P now t -> now <= now' -> now' < t -> first_after P now' t.
Proof. intros (H1 & H2 & H3) Hle Hlt. split_and!; [done|lia|].
  intros i HP Hi. apply H3; [done|lia].
Qed.

Section next.
Context (l : Location) (o : Z) (Hl : fixed_at l o).
Context (c : Clock) (Hc : 0 <= c < Day).

(** The days of a rule and the instants it is due, a day apart. *)
Definition at_clock (P : Z -> Prop) (i : Z) : Prop := exists d, P d /\ i = mid o d + c.

Lemma mid_le d e : mid o d <= mid o e <-> d <= e.
Proof. unfold mid. unfold_units. lia. Qed.

Lemma at_clock_first (P : Z -> Prop) now d :
  P d -> now < mid o d + c -> (forall j, P j -> now < mid o j + c -> d <= j) ->
  first_after (at_clock P) now (mid o d + c).
Proof.
  intros Hd Hn Hj. split_and!; [by exists d|done|]. intros i (j & HP & ->) Hi.
  specialize (Hj j HP Hi). apply mid_le in Hj. lia.
Qed.

Lemma next_daily_spec t (P : Z -> Prop) : zone t = l -> (forall d, P d) ->
  zone (next_daily c t) = l /\ first_after (at_clock P) (inst t) (inst (next_daily c t)).
Proof using Hl Hc.
  intros E HP. unfold next_daily. cbv zeta. set (D := local_day t).
  assert (mid o D <= inst t < mid o (D + 1)) as HD.
  { unfold D. destruct t as [i z]. simpl in E. subst z. exact (mid_local_day l o Hl i). }
  rewrite (First_mid l o Hl c t D E eq_refl). change (After (mkTime (mid o D + c) l) t) with (inst t <? mid o D + c).
  destruct (inst t <? mid o D + c) eqn:B; cbn [negb zone inst]; bprop.
  - split; [done|]. apply at_clock_first; [done|done|]. intros j _ Hj.
    apply Z.nlt_ge. intros Hlt. assert (j + 1 <= D) as Hle by lia. apply mid_le in Hle.
    pose proof (mid_mono o j (j + 1) ltac:(lia)). lia.
  - destruct (Date t) as [[y m] d] eqn:ED. rewrite E, (date_civil_shift l o Hl t) by done. fold D.
    match goal with |- context [FirstOfDay c ?x] => replace x with (mkTime (mid o (D + 1)) l)
      by (unfold mid; f_equal; unfold_units; lia) end.
    assert (local_day (mkTime (mid o (D + 1)) l) = D + 1) as EL.
    { rewrite <- (Z.add_0_r (mid o (D + 1))). apply (local_day_mid l o Hl). unfold_units. lia. }
    rewrite (First_mid l o Hl c (mkTime (mid o (D + 1)) l) (D + 1) eq_refl EL). cbn [zone inst]. split; [done|].
    apply at_clock_first; [done|lia|]. intros j _ Hj. apply Z.nlt_ge. intros Hlt.
    assert (j <= D) as Hle by lia. apply mid_le in Hle. lia.
Qed.

Lemma next_filtered_spec t f : zone t = l -> wf f -> IsNever f = false ->
  zone (next_filtered c f t) = l /\
  first_after (at_clock (day_on f)) (inst t) (inst (next_filtered c f t)).
Proof using Hl Hc.
  intros E Hf Hn. unfold next_filtered. cbv zeta. set (D := local_day t).
  assert (mid o D <= inst t < mid o (D + 1)) as HD.
  { unfold D. destruct t as [i z]. simpl in E. subst z. exact (mid_local_day l o Hl i). }
  assert (forall t', zone t' = l -> local_day t' = D -> exists k, 1 <= k /\
    FirstOfDay c (NextActive f t') = mkTime (mid o (D + k) + c) l /\ day_on f (D + k) /\
    forall j, D < j < D + k -> ~ day_on f j) as Hnext.
  { intros t' E' EL. destruct (NextActive_mid l o Hl f t' Hf E' Hn) as (k & Hk & EN & Hon & Hoff).
    rewrite EL in *. exists k. split; [lia|]. split; [|done]. rewrite EN.
    apply (First_mid l o Hl); [done|]. apply (local_day_midnight l o Hl). }
  assert (forall k, 1 <= k -> mid o (D + 1) <= mid o (D + k)) as Hmk by (intros; apply mid_le; lia).
  destruct (DayOn f (Weekday t)) eqn:EO.
  - rewrite (First_mid l o Hl c t D E eq_refl).
    apply (DayOn_spec f (Weekday t) D Hf) in EO; [|pose proof (Weekday_range t); lia|unfold Weekday, D; dlia].
    change (After (mkTime (mid o D + c) l) t) with (inst t <? mid o D + c). destruct (inst t <? mid o D + c) eqn:B; cbn [negb zone inst]; bprop.
    + split; [done|]. apply at_clock_first; [done|done|]. intros j _ Hj.
      apply Z.nlt_ge. intros Hlt. assert (j + 1 <= D) as Hle by lia. apply mid_le in Hle.
      pose proof (mid_mono o j (j + 1) ltac:(lia)). lia.
    + destruct (Hnext (mkTime (mid o D + c) l)) as (k & Hk & -> & Hon & Hoff);
        [done|by apply (local_day_mid l o Hl)|]. cbn [zone inst]. specialize (Hmk k Hk). split; [done|].
      apply at_clock_first; [done|lia|]. intros j Hj Hi. apply Z.nlt_ge. intros Hlt.
      apply (Hoff j); [|done]. split; [|lia]. apply Z.nle_gt. intros Hle. apply mid_le in Hle. lia.
  - destruct (Hnext t E eq_refl) as (k & Hk & -> & Hon & Hoff). specialize (Hmk k Hk).
    change (After (mkTime (mid o (D + k) + c) l) t) with (inst t <? mid o (D + k) + c).
    rewrite (proj2 (Z.ltb_lt _ _)) by lia. cbn [negb zone inst]. split; [done|].
    apply at_clock_first; [done|lia|]. intros j Hj Hi. apply Z.nlt_ge. intros Hlt.
    apply (Hoff j); [|done]. split; [|lia]. apply Z.nle_gt. intros Hle.
    destruct (decide (j = D)) as [->|].
    + apply (DayOn_spec f (Weekday t) D Hf) in Hj; [congruence|pose proof (Weekday_range t); lia|unfold Weekday, D; dlia].
    + assert (j + 1 <= D) as Hle' by lia. apply mid_le in Hle'.
      pose proof (mid_mono o j (j + 1) ltac:(lia)). lia.
Qed.
End next.

Lemma nextOnCallNotification_spec l o t r (Hl : fixed_at l o) (Et : zone t = l) (Hr : wf_oc_rule r) :
  match nextOnCallNotification t r with
  | Some t' => zone t' = l /\ first_after (due o r) (inst t) (inst t')
  | None => forall i, ~ due o r i
  end.
Proof.
  destruct Hr as [Hc Hf]. unfold nextOnCallNotification, due, rule_day.
  destruct (ocTime r) as [c|]; [|auto]. destruct (ocFilter r) as [f|].
  - destruct (IsAlways f) eqn:EA.
    { apply feq_true in EA. apply (next_daily_spec l o Hl c Hc); [done|]. rewrite EA.
      apply day_on_everyDay. }
    destruct (IsNever f) eqn:EN.
    { apply feq_true in EN. intros i (d & Hd & _). rewrite EN in Hd. by apply not_day_on_neverDays in Hd. }
    by apply (next_filtered_spec l o Hl c Hc).
  - by apply (next_daily_spec l o Hl c Hc t (fun _ => True)).
Qed.

(** In a location with a constant offset the engine's next notification of
    a rule is the first instant after now at which the rule is due, and there is
    none exactly if the rule is never due. *)
Theorem nextOnCallNotification_first l o t r
  (Hl : fixed_at l o) (Et : zone t = l) (Hr : wf_oc_rule r) :
  match nextOnCallNotification t r with
  | Some t' => zone t' = l /\ first_after (due o r) (inst t) (inst t')
  | None => forall i, ~ due o r i
  end.
Proof. by apply nextOnCallNotification_spec. Qed.

(** Weekdays at nine, in a location five hours behind UTC. *)
Definition weekdays_at_nine : OnCallNotificationRule :=
  mkOCRule (mkRuleID 1 1 true) 7 (Some (9 * Hour)) (Some [0; 1; 1; 1; 1; 1; 0]) None.

Lemma weekdays_at_nine_wf : wf_oc_rule weekdays_at_nine.
Proof. split; [by split|]. split; [done|]. repeat constructor; lia. Qed.

(** Friday 2023-11-17 at 10:00; Monday 2023-11-20 at 9:00. *)
Definition friday_at_ten : Time := mkTime (1700233200 * Second) est.

Lemma nextOnCallNotification_first_witness :
  exists t, nextOnCallNotification friday_at_ten weekdays_at_nine = Some t /\
    inst t = 1700488800 * Second /\
    first_after (due (-18000) weekdays_at_nine) (inst friday_at_ten) (inst t).
Proof.
  pose proof (nextOnCallNotification_first est (-18000) friday_at_ten weekdays_at_nine
    (fixed_zone_at (-18000)) eq_refl weekdays_at_nine_wf) as H.
  eexists. split; [vm_compute; reflexivity|]. split; [vm_compute; reflexivity|].
  exact (proj2 H).
Defined.

(** ** A sample id *)

Lemma RuleID_roundtrip_witness :
  let r := mkRuleID 5 (-12) true in
  @MarshalText nibble_uuid r = "aaaaaaaaaaaaaaaaaaaaaaaaaaaaaaaaaaaf:-12"%string /\
  @UnmarshalText nibble_uuid (@MarshalText nibble_uuid r) = Some r.
Proof.
  split; [vm_compute; reflexivity|].
  apply (proj1 (@RuleID_roundtrip nibble_uuid) (mkRuleID 5 (-12) true)).
  split; [by split|reflexivity].
Defined.
