(* ===== verification/OnCallUpdate.v ===== *)
(** * What the schedule manager computes

    [engine/schedulemanager/calcupdates.go] and the parts of [update.go] it
    calls: the users on call for a schedule now, the shifts to start and to
    stop, the channels to notify and the next times of the notification rules.

    A set of the mapset package is a [gset].  A missing location is the nil
    pointer, whose use panics: [None]. *)

From S2P Require Import Prelude Text GoTime Clock WeekdayFilter Assignment Rule TempSchedule NotificationRule.

(** ** Data *)

(** [schedule.Data], version 1. *)
Record Data := mkData {
  TempScheds : list TemporarySchedule;
  OnCallNotificationRules : list OnCallNotificationRule
}.

(** [gadb.SchedMgrRulesRow] *)
Record SchedMgrRulesRow := mkRulesRow {
  rr_ScheduleID : UUID;
  Sunday : bool; Monday : bool; Tuesday : bool; Wednesday : bool;
  Thursday : bool; Friday : bool; Saturday : bool;
  rr_StartTime : Clock;
  rr_EndTime : Clock;
  ResolvedUserID : UUID
}.

(** [gadb.SchedMgrOverridesRow] *)
Record SchedMgrOverridesRow := mkOverridesRow {
  AddUserID : option UUID;
  RemoveUserID : option UUID;
  TgtScheduleID : UUID
}.

(** Equal but for the locations of times, which JSON does not keep. *)
Definition same_rule (r r' : OnCallNotificationRule) : Prop :=
  ocID r = ocID r' /\ ChannelID r = ChannelID r' /\ ocTime r = ocTime r' /\
  ocFilter r = ocFilter r' /\ equalTimePtr (NextNotification r) (NextNotification r') = true.

Definition same_temp (t t' : TemporarySchedule) : Prop :=
  inst (tsStart t) = inst (tsStart t') /\ inst (tsEnd t) = inst (tsEnd t') /\
  Forall2 (fun s s' => inst (fsStart s) = inst (fsStart s') /\ inst (fsEnd s) = inst (fsEnd s') /\
                       fsUser s = fsUser s') (tsShifts t) (tsShifts t').

Definition same_data (d d' : Data) : Prop :=
  Forall2 same_temp (TempScheds d) (TempScheds d') /\
  Forall2 same_rule (OnCallNotificationRules d) (OnCallNotificationRules d').

Definition set_OnCallNotificationRules (rules : list OnCallNotificationRule) (d : Data) : Data :=
  mkData (TempScheds d) rules.

(** A rule with another next time or another channel. *)
Definition with_next (t : option Time) (r : OnCallNotificationRule) : OnCallNotificationRule :=
  mkOCRule (ocID r) (ChannelID r) (ocTime r) (ocFilter r) t.
Definition with_channel (c : UUID) (r : OnCallNotificationRule) : OnCallNotificationRule :=
  mkOCRule (ocID r) c (ocTime r) (ocFilter r) (NextNotification r).

Definition edited (r r' : OnCallNotificationRule) : Prop :=
  exists t c, r' = with_next t (with_channel c r).

(** What is stored as JSON: read with [json.Unmarshal], written into an existing
    document with [jsonutil.Apply], or one field of it with [jsonb_set].  A
    document that was read, with edited rules, reads back. *)
Class ScheduleJSON (Raw : Type) := {
  json_Unmarshal : Raw -> option Data;
  json_Apply : option Raw -> Data -> option Raw;
  jsonb_set_rules : Raw -> list OnCallNotificationRule -> Raw;
  json_Apply_reads : forall raw d rules, json_Unmarshal raw = Some d ->
    Forall2 edited (OnCallNotificationRules d) rules ->
    exists raw' d', json_Apply (Some raw) (set_OnCallNotificationRules rules d) = Some raw' /\
      json_Unmarshal raw' = Some d' /\ same_data (set_OnCallNotificationRules rules d) d';
  jsonb_set_reads : forall raw d rules, json_Unmarshal raw = Some d ->
    Forall2 edited (OnCallNotificationRules d) rules ->
    exists d', json_Unmarshal (jsonb_set_rules raw rules) = Some d' /\
               same_data (set_OnCallNotificationRules rules d) d'
}.

(** ** One schedule *)

Record updateInfo (Raw : Type) := mkInfo {
  ui_ScheduleID : UUID;
  TimeZone : option Location;
  RawScheduleData : option Raw;
  ScheduleData : Data;
  CurrentOnCall : option (gset UUID);
  Rules : list SchedMgrRulesRow;
  ActiveOverrides : list SchedMgrOverridesRow;
  MissingUsers : option (gset UUID);
  EligibleUsers : option (gset UUID)
}.
Arguments mkInfo {Raw}.
Arguments ui_ScheduleID {Raw}.
Arguments TimeZone {Raw}.
Arguments RawScheduleData {Raw}.
Arguments ScheduleData {Raw}.
Arguments CurrentOnCall {Raw}.
Arguments Rules {Raw}.
Arguments ActiveOverrides {Raw}.
Arguments MissingUsers {Raw}.
Arguments EligibleUsers {Raw}.

Record updateResult (Raw : Type) := mkUpdateResult {
  ur_ScheduleID : UUID;
  UsersToStart : gset UUID;
  UsersToStop : gset UUID;
  NewRawScheduleData : option Raw;
  NotificationChannels : gset UUID
}.
Arguments mkUpdateResult {Raw}.
Arguments ur_ScheduleID {Raw}.
Arguments UsersToStart {Raw}.
Arguments UsersToStop {Raw}.
Arguments NewRawScheduleData {Raw}.
Arguments NotificationChannels {Raw}.

Definition bit (b : bool) : Z := if b then 1 else 0.

(** The rule of a row, without the fields that have no part in [IsActive]. *)
Definition row_rule (row : SchedMgrRulesRow) : Rule :=
  mkRule "" ""
    [bit (Sunday row); bit (Monday row); bit (Tuesday row); bit (Wednesday row);
     bit (Thursday row); bit (Friday row); bit (Saturday row)]
    (rr_StartTime row) (rr_EndTime row) (mkTarget TargetTypeUnspecified "").

Definition ruleRowIsActive (row : SchedMgrRulesRow) (t : Time) : bool := IsActive (row_rule row) t.

Definition add_active (now : Time) (newOnCall : gset UUID) (r : SchedMgrRulesRow) : gset UUID :=
  if ruleRowIsActive r now then newOnCall ∪ {[ResolvedUserID r]} else newOnCall.

Definition apply_override (newOnCall : gset UUID) (ov : SchedMgrOverridesRow) : gset UUID :=
  let add s := match AddUserID ov with Some a => s ∪ {[a]} | None => s end in
  match RemoveUserID ov with
  | Some r => if bool_decide (r ∈ newOnCall) then add (newOnCall ∖ {[r]}) else newOnCall
  | None => add newOnCall
  end.

Section calc.
Context `{UUIDText} {Raw : Type} `{ScheduleJSON Raw}.

Definition calcLatestOnCall (info : updateInfo Raw) (now : Time) : option (gset UUID) :=
  let '(isActive, users) := TempOnCall uuid_Parse now (TempScheds (ScheduleData info)) in
  if isActive then
    let onCall := list_to_set users in
    Some (match MissingUsers info with Some missing => onCall ∖ missing | None => onCall end)
  else
    tz ← TimeZone info;
    let now := In_ now tz in
    let newOnCall := fold_left (add_active now) (Rules info) ∅ in
    Some (fold_left apply_override (ActiveOverrides info) newOnCall).

(** One iteration of the loop over the rules: the channels, the new rules in
    order, and whether one changed. *)
Definition calc_rule (now : Time) (onCallChanged : bool)
  (acc : gset UUID * list OnCallNotificationRule * bool) (r : OnCallNotificationRule)
  : gset UUID * list OnCallNotificationRule * bool :=
  let '(channels, newRules, dataNeedsUpdate) := acc in
  match ocTime r with
  | None =>
      (if onCallChanged then channels ∪ {[ChannelID r]} else channels, newRules ++ [r], dataNeedsUpdate)
  | Some _ =>
      let channels :=
        match NextNotification r with
        | Some next => if negb (After next now) then channels ∪ {[ChannelID r]} else channels
        | None => channels
        end in
      let newTime := nextOnCallNotification now r in
      if equalTimePtr (NextNotification r) newTime then (channels, newRules ++ [r], dataNeedsUpdate)
      else (channels, newRules ++ [with_next newTime r], true)
  end.

(** The outer [None] is a panic, the inner one the error of [jsonutil.Apply]. *)
Definition calcUpdates (info : updateInfo Raw) (now : Time) : option (option (updateResult Raw)) :=
  let current := default ∅ (CurrentOnCall info) in
  tz ← TimeZone info;
  let now := In_ now tz in
  newOnCall ← calcLatestOnCall info now;
  let newOnCall := match EligibleUsers info with Some e => newOnCall ∩ e | None => newOnCall end in
  let onCallChanged := negb (bool_decide (newOnCall = current)) in
  let '(stop, start) := if onCallChanged then (current ∖ newOnCall, newOnCall ∖ current) else (∅, ∅) in
  let '(channels, newRules, dataNeedsUpdate) :=
    fold_left (calc_rule now onCallChanged) (OnCallNotificationRules (ScheduleData info)) (∅, [], false) in
  if dataNeedsUpdate then
    match json_Apply (RawScheduleData info) (set_OnCallNotificationRules newRules (ScheduleData info)) with
    | None => Some None
    | Some raw => Some (Some (mkUpdateResult (ui_ScheduleID info) start stop (Some raw) channels))
    end
  else Some (Some (mkUpdateResult (ui_ScheduleID info) start stop None channels)).
End calc.

(** ** Who is on call *)

#[local] Set Warnings "-clear-no-such-hyp".

(** The rule row, read declaratively. *)
Definition row_active (o : Z) (i : Z) (row : SchedMgrRulesRow) : Prop := active_at o (row_rule row) i.

Definition wf_row (row : SchedMgrRulesRow) : Prop :=
  0 <= rr_StartTime row < Day /\ 0 <= rr_EndTime row < Day /\
  rr_StartTime row mod Minute = 0 /\ rr_EndTime row mod Minute = 0.

Lemma bit_range b : bit b = 0 \/ bit b = 1.
Proof. destruct b; [by right|by left]. Qed.

Lemma row_rule_wf row : wf_row row -> wf_rule (row_rule row).
Proof.
  intros Hr. split; [|exact Hr]. split; [done|].
  do 7 (constructor; [apply bit_range|]). constructor.
Qed.

(** The overrides of a schedule that are active at once mention different users:
    the trigger [fn_enforce_user_overide_no_conflict] and the check
    [user_overrides_check2] of the table. *)
Definition mentions (ov : SchedMgrOverridesRow) (u : UUID) : Prop :=
  AddUserID ov = Some u \/ RemoveUserID ov = Some u.

Definition apart_overrides (a b : SchedMgrOverridesRow) : Prop := forall u, mentions a u -> ~ mentions b u.

Definition overrides_ok (l : list SchedMgrOverridesRow) : Prop :=
  ForallOrdPairs apart_overrides l /\
  Forall (fun ov => forall u, AddUserID ov = Some u -> RemoveUserID ov <> Some u) l.

(** [base] with the overrides [l]: a user is added, replaces a user, or is in
    [base] and not removed. *)
Definition overridden (base : UUID -> Prop) (l : list SchedMgrOverridesRow) (u : UUID) : Prop :=
  ex_in (fun ov => RemoveUserID ov = None /\ AddUserID ov = Some u) l \/
  ex_in (fun ov => AddUserID ov = Some u /\ exists v, RemoveUserID ov = Some v /\ base v) l \/
  (base u /\ ~ ex_in (fun ov => RemoveUserID ov = Some u) l).

Lemma overridden_ext (base base' : UUID -> Prop) l u :
  (forall v, base v <-> base' v) -> overridden base l u <-> overridden base' l u.
Proof. intros E. unfold overridden. setoid_rewrite E. done. Qed.

Lemma overridden_perm base l l' u : l ≡ₚ l' -> overridden base l u <-> overridden base l' u.
Proof. intros E. unfold overridden. by rewrite !(ex_in_perm _ l l' E). Qed.

Lemma fold_overrides l : forall S u, overrides_ok l ->
  u ∈ fold_left apply_override l S <-> overridden (fun v => v ∈ S) l u.
Proof.
  induction l as [|ov l IH]; intros S u [HP HS]; cbn [fold_left].
  { unfold overridden. rewrite !ex_in_nil. tauto. }
  inversion HP as [|? ? Hov HP1]; subst. inversion HS as [|? ? Hself HS1]; subst.
  rewrite Forall_forall in Hov.
  assert (forall v, mentions ov v -> ~ ex_in (fun ov' => AddUserID ov' = Some v) l /\
    ~ ex_in (fun ov' => RemoveUserID ov' = Some v) l) as Hno.
  { intros v Hv. split; intros (ov' & Hin & E); apply (Hov ov' Hin v Hv); [by left|by right]. }
  assert (forall v, ~ mentions ov v -> v ∈ apply_override S ov <-> v ∈ S) as Hsame.
  { intros v Hv. unfold mentions, apply_override in *.
    destruct (RemoveUserID ov) as [r|], (AddUserID ov) as [a|]; try case_bool_decide;
      rewrite ?elem_of_union, ?elem_of_difference, ?elem_of_singleton; try tauto.
    - split; [intros [[]| ->]; [done|tauto]|]. intros; left; split; [done|]. intros ->. tauto.
    - split; [tauto|]. intros; split; [done|]. intros ->. tauto.
    - split; [intros [| ->]; [done|tauto]|tauto]. }
  rewrite IH by done. unfold overridden. rewrite !ex_in_cons.
  assert (ex_in (fun ov' => AddUserID ov' = Some u /\ exists v, RemoveUserID ov' = Some v /\ v ∈ apply_override S ov) l
    <-> ex_in (fun ov' => AddUserID ov' = Some u /\ exists v, RemoveUserID ov' = Some v /\ v ∈ S) l) as ->.
  { apply ex_in_iff. intros ov' Hin. apply and_iff_compat_l. split; intros (v & Hv & HvS); exists v;
      (split; [done|]); apply Hsame; try done; intros Hm; apply (Hov ov' Hin v Hm); by right. }
  destruct (decide (mentions ov u)) as [Hm|Hm].
  2:{ rewrite (Hsame u Hm). unfold mentions in Hm. tauto. }
  destruct (Hno u Hm) as [Hno1 Hno2].
  assert (forall Q : _ -> Prop, ~ ex_in (fun ov' => Q ov' /\ AddUserID ov' = Some u) l) as HnQ
    by (intros Q (ov' & Hin & _ & E); apply Hno1; by exists ov').
  assert (forall Q : _ -> Prop, ~ ex_in (fun ov' => AddUserID ov' = Some u /\ Q ov') l) as HnQ'
    by (intros Q (ov' & Hin & E & _); apply Hno1; by exists ov').
  pose proof (HnQ (fun ov' => RemoveUserID ov' = None)).
  pose proof (HnQ' (fun ov' => exists v, RemoveUserID ov' = Some v /\ v ∈ S)).
  assert (u ∈ apply_override S ov <->
    (RemoveUserID ov = None /\ AddUserID ov = Some u) \/
    (AddUserID ov = Some u /\ exists v, RemoveUserID ov = Some v /\ v ∈ S) \/
    (u ∈ S /\ RemoveUserID ov <> Some u)) as ->; [|tauto].
  clear -Hm Hself. unfold apply_override, mentions in *. specialize (Hself u).
  destruct (RemoveUserID ov) as [r|], (AddUserID ov) as [a|]; try case_bool_decide as HB;
    rewrite ?elem_of_union, ?elem_of_difference, ?elem_of_singleton;
    naive_solver.
Qed.

Lemma fold_active now rows : forall S u,
  u ∈ fold_left (add_active now) rows S <->
  u ∈ S \/ ex_in (fun row => ResolvedUserID row = u /\ ruleRowIsActive row now = true) rows.
Proof.
  induction rows as [|row rows IH]; intros S u; cbn [fold_left]; [rewrite ex_in_nil; tauto|].
  rewrite IH, ex_in_cons. unfold add_active. destruct (ruleRowIsActive row now); [|intuition congruence].
  rewrite elem_of_union, elem_of_singleton. intuition congruence.
Qed.

Section on_call.
Context `{UUIDText} {Raw : Type} `{ScheduleJSON Raw}.

(** The users of the rules that are active at [i]. *)
Definition base_user (o i : Z) (rows : list SchedMgrRulesRow) (u : UUID) : Prop :=
  ex_in (fun row => ResolvedUserID row = u /\ row_active o i row) rows.

(** A temporary schedule in force decides alone; otherwise the rules with the
    overrides. *)
Definition on_call_now (o i : Z) (info : updateInfo Raw) (u : UUID) : Prop :=
  let temps := TempScheds (ScheduleData info) in
  (covers temps i /\ (exists s, on_call temps s i /\ uuid_Parse s = Some u) /\
   match MissingUsers info with Some missing => u ∉ missing | None => True end) \/
  (~ covers temps i /\ overridden (base_user o i (Rules info)) (ActiveOverrides info) u).

(** What the database promises of a schedule. *)
Record info_ok (l : Location) (info : updateInfo Raw) : Prop := {
  ok_zone : TimeZone info = Some l;
  ok_temps : wf_list (TempScheds (ScheduleData info));
  ok_rows : Forall wf_row (Rules info);
  ok_overrides : overrides_ok (ActiveOverrides info);
  ok_rules : Forall wf_oc_rule (OnCallNotificationRules (ScheduleData info))
}.

Lemma calcLatestOnCall_spec l o info now (Hl : fixed_at l o) (Ho : o mod 60 = 0) (HI : info_ok l info) :
  exists S, calcLatestOnCall info now = Some S /\ forall u, u ∈ S <-> on_call_now o (inst now) info u.
Proof.
  destruct HI as [HZ HT HR HO _]. unfold calcLatestOnCall, on_call_now.
  destruct (TempOnCall_spec uuid_Parse now _ HT) as [Hc Hu].
  destruct (TempOnCall uuid_Parse now (TempScheds (ScheduleData info))) as [isActive users].
  cbn [fst snd] in *. destruct isActive.
  - eexists. split; [done|]. intros u. rewrite <- Hc. destruct (MissingUsers info) as [missing|];
      rewrite ?elem_of_difference, elem_of_list_to_set, Hu; naive_solver.
  - rewrite HZ. eexists. split; [done|]. intros u. rewrite fold_overrides by done. rewrite <- Hc.
    assert (overridden (fun v => v ∈ fold_left (add_active (In_ now l)) (Rules info) ∅) (ActiveOverrides info) u
      <-> overridden (base_user o (inst now) (Rules info)) (ActiveOverrides info) u) as ->; [|naive_solver].
    apply overridden_ext. intros v. rewrite fold_active, elem_of_empty. unfold base_user.
    assert (forall A : Prop, False \/ A <-> A) as -> by tauto. apply ex_in_iff. intros row Hrow.
    rewrite Forall_forall in HR. apply and_iff_compat_l. unfold ruleRowIsActive, row_active.
    by apply (IsActive_spec l o _ (In_ now l) Hl Ho (row_rule_wf row (HR row Hrow))).
Qed.

(** The users the engine finds on call for a schedule are those of the
    temporary schedule in force, without the deleted ones, and otherwise those
    of the rules with the overrides, whatever the order of rules and overrides. *)
Theorem calcLatestOnCall_exact l o info now
  (Hl : fixed_at l o) (Ho : o mod 60 = 0) (HI : info_ok l info) :
  exists S, calcLatestOnCall info now = Some S /\ forall u, u ∈ S <-> on_call_now o (inst now) info u.
Proof. exact (calcLatestOnCall_spec l o info now Hl Ho HI). Qed.
End on_call.

(** ** When a rule notifies *)

(** The rule's next time was computed at [i]. *)
Definition up_to_date (o i : Z) (r : OnCallNotificationRule) : Prop :=
  match ocTime r, NextNotification r with
  | None, _ => True
  | Some _, Some t => first_after (due o r) i (inst t)
  | Some _, None => forall j, ~ due o r j
  end.

(** What the loop does for one rule. *)
Definition fires (now : Time) (onCallChanged : bool) (r : OnCallNotificationRule) : bool :=
  match ocTime r with
  | None => onCallChanged
  | Some _ => match NextNotification r with Some next => negb (After next now) | None => false end
  end.

Definition refresh (now : Time) (r : OnCallNotificationRule) : OnCallNotificationRule :=
  match ocTime r with
  | None => r
  | Some _ => if equalTimePtr (NextNotification r) (nextOnCallNotification now r) then r
              else with_next (nextOnCallNotification now r) r
  end.

Definition stale (now : Time) (r : OnCallNotificationRule) : bool :=
  match ocTime r with
  | None => false
  | Some _ => negb (equalTimePtr (NextNotification r) (nextOnCallNotification now r))
  end.

Lemma calc_rules_spec now changed rules : forall channels news b,
  fold_left (calc_rule now changed) rules (channels, news, b) =
  (channels ∪ list_to_set (map ChannelID (List.filter (fires now changed) rules)),
   news ++ map (refresh now) rules, b || existsb (stale now) rules).
Proof.
  induction rules as [|r rules IH]; intros channels news b; cbn [fold_left map List.filter existsb].
  { cbn [list_to_set]. by rewrite app_nil_r, orb_false_r, union_empty_r_L. }
  set (fr := fires now changed r). set (rr := refresh now r). set (sr := stale now r).
  assert (calc_rule now changed (channels, news, b) r =
    (if fr then channels ∪ {[ChannelID r]} else channels, news ++ [rr], b || sr)) as ->.
  { unfold calc_rule, fr, rr, sr, fires, refresh, stale. destruct (ocTime r) as [c|].
    - destruct (equalTimePtr _ _), (NextNotification r) as [next|]; try destruct (After next now);
        simpl; by rewrite ?orb_false_r, ?orb_true_r.
    - by rewrite orb_false_r. }
  rewrite IH, <- app_assoc, orb_assoc. f_equal. f_equal.
  destruct fr; cbn [map list_to_set]; [|done]. by rewrite <- union_assoc_L.
Qed.

Lemma refresh_edited now r : edited r (refresh now r).
Proof.
  assert (edited r r) as Hr by (exists (NextNotification r), (ChannelID r); by destruct r).
  unfold refresh. destruct (ocTime r); [|done]. destruct (equalTimePtr _ _); [done|].
  exists (nextOnCallNotification now r), (ChannelID r). by destruct r.
Qed.

Lemma refresh_not_stale now rules : existsb (stale now) rules = false -> map (refresh now) rules = rules.
Proof.
  induction rules as [|r rules IH]; cbn [existsb map]; [done|]. intros E.
  apply orb_false_iff in E as [E1 E2]. rewrite (IH E2). f_equal.
  unfold refresh, stale in *. destruct (ocTime r); [|done]. by apply negb_false_iff in E1 as ->.
Qed.

Lemma due_edited o r r' i : edited r r' -> due o r' i <-> due o r i.
Proof. intros (t & c & ->). done. Qed.

Lemma due_same o r r' i : same_rule r r' -> due o r' i <-> due o r i.
Proof. intros (_ & _ & E1 & E2 & _). unfold due, rule_day. by rewrite E1, E2. Qed.

Lemma first_after_iff (P Q : Z -> Prop) i t : (forall j, P j <-> Q j) -> first_after P i t -> first_after Q i t.
Proof.
  intros E (H1 & H2 & H3). split_and!; [by apply E|done|]. intros j Hj. apply H3. by apply E.
Qed.

Lemma up_to_date_same o i r r' : same_rule r r' -> up_to_date o i r -> up_to_date o i r'.
Proof.
  intros Hs Hu. pose proof (fun j => due_same o r r' j Hs) as Hd. destruct Hs as (_ & _ & ET & _ & E).
  unfold up_to_date, equalTimePtr, EqualT in *. rewrite <- ET. destruct (ocTime r); [|done].
  destruct (NextNotification r) as [t|], (NextNotification r') as [t'|]; try done; bprop.
  - rewrite <- E. eapply first_after_iff; [|exact Hu]. intros j. by rewrite Hd.
  - intros j. by rewrite Hd.
Qed.

Lemma refresh_up_to_date l o now r :
  fixed_at l o -> zone now = l -> wf_oc_rule r -> up_to_date o (inst now) (refresh now r).
Proof.
  intros Hl Hz Hr. pose proof (nextOnCallNotification_spec l o now r Hl Hz Hr) as HN.
  unfold refresh, up_to_date. destruct (ocTime r) as [c|] eqn:ET; [|by rewrite ET].
  unfold equalTimePtr, EqualT.
  destruct (nextOnCallNotification now r) as [t|] eqn:EN, (NextNotification r) as [t'|] eqn:EX;
    cbn [with_next ocTime NextNotification]; rewrite ?ET, ?EX; try done; try apply HN.
  destruct (inst t' =? inst t) eqn:E; bprop; cbn [with_next ocTime NextNotification]; rewrite ET, ?EX, ?E; apply HN.
Qed.

(** A rule whose next time was computed at [i0] fires now exactly if it was due
    since. *)
Lemma fires_due o i0 now c r : i0 <= inst now -> ocTime r = Some c -> up_to_date o i0 r ->
  fires now false r = true <-> exists i, i0 < i <= inst now /\ due o r i.
Proof.
  intros Hi ET Hu. unfold fires, up_to_date in *. rewrite ET in *.
  destruct (NextNotification r) as [t|].
  - destruct Hu as (Hd & Hlt & Hmin). unfold After. rewrite negb_true_iff, Z.ltb_ge. split.
    + intros Hle. exists (inst t). split; [lia|done].
    + intros (i & Hi' & Hdi). specialize (Hmin i Hdi ltac:(lia)). lia.
  - split; [done|]. intros (i & _ & Hd). by destruct (Hu i).
Qed.

Section updates.
Context `{UUIDText} {Raw : Type} `{ScheduleJSON Raw}.

(** The document the rules came from. *)
Definition raw_ok (info : updateInfo Raw) : Prop :=
  match RawScheduleData info with
  | Some raw => json_Unmarshal raw = Some (ScheduleData info) \/ OnCallNotificationRules (ScheduleData info) = []
  | None => OnCallNotificationRules (ScheduleData info) = []
  end.

(** The data stored after an update. *)
Definition saved_data (info : updateInfo Raw) (r : updateResult Raw) : Data :=
  match NewRawScheduleData r with
  | None => ScheduleData info
  | Some raw => default (mkData [] []) (json_Unmarshal raw)
  end.

Definition saved_rules (info : updateInfo Raw) (r : updateResult Raw) : list OnCallNotificationRule :=
  OnCallNotificationRules (saved_data info r).

Definition refreshed (now : Time) (d : Data) : Data :=
  set_OnCallNotificationRules (map (refresh now) (OnCallNotificationRules d)) d.

Definition should_be_on_call (o i : Z) (info : updateInfo Raw) (u : UUID) : Prop :=
  on_call_now o i info u /\ match EligibleUsers info with Some e => u ∈ e | None => True end.

Lemma same_rule_refl r : same_rule r r.
Proof.
  split_and!; try done. unfold equalTimePtr, EqualT. destruct (NextNotification r); [|done].
  apply Z.eqb_refl.
Qed.

Lemma same_data_refl d : same_data d d.
Proof.
  split.
  - induction (TempScheds d) as [|t ts IH]; constructor; [|done]. split_and!; [done|done|].
    induction (tsShifts t); by constructor.
  - induction (OnCallNotificationRules d); constructor; [apply same_rule_refl|done].
Qed.

Lemma calcUpdates_spec l o info now (Hl : fixed_at l o) (Ho : o mod 60 = 0)
  (HI : info_ok l info) (HR : raw_ok info) :
  exists S r, calcUpdates info now = Some (Some r) /\
    (forall u, u ∈ S <-> should_be_on_call o (inst now) info u) /\
    ur_ScheduleID r = ui_ScheduleID info /\
    UsersToStart r = S ∖ default ∅ (CurrentOnCall info) /\
    UsersToStop r = default ∅ (CurrentOnCall info) ∖ S /\
    NotificationChannels r = list_to_set (map ChannelID (List.filter
      (fires (In_ now l) (negb (bool_decide (S = default ∅ (CurrentOnCall info)))))
      (OnCallNotificationRules (ScheduleData info)))) /\
    same_data (refreshed (In_ now l) (ScheduleData info)) (saved_data info r) /\
    (is_Some (NewRawScheduleData r) -> is_Some (RawScheduleData info) /\
       existsb (stale (In_ now l)) (OnCallNotificationRules (ScheduleData info)) = true).
Proof.
  destruct (calcLatestOnCall_spec l o info (In_ now l) Hl Ho HI) as (S0 & E0 & HS0).
  unfold calcUpdates. rewrite (ok_zone l info HI). cbn [mbind option_bind]. rewrite E0.
  cbn [mbind option_bind]. rewrite calc_rules_spec.
  set (S := match EligibleUsers info with Some e => S0 ∩ e | None => S0 end).
  set (cur := default ∅ (CurrentOnCall info)). set (rules := OnCallNotificationRules (ScheduleData info)).
  assert (forall u, u ∈ S <-> should_be_on_call o (inst now) info u) as HS.
  { intros u. unfold S, should_be_on_call. pose proof (HS0 u) as HS0u. cbn [In_ inst] in HS0u.
    destruct (EligibleUsers info); rewrite ?elem_of_intersection; tauto. }
  assert ((if negb (bool_decide (S = cur)) then (cur ∖ S, S ∖ cur) else (∅, ∅)) = (cur ∖ S, S ∖ cur)) as ->.
  { case_bool_decide as E; [|done]. cbn. rewrite E. by rewrite difference_diag_L. }
  rewrite union_empty_l_L, app_nil_l, orb_false_l. exists S.
  destruct (existsb (stale (In_ now l)) rules) eqn:ES.
  - unfold raw_ok in HR. fold rules in HR.
    destruct (RawScheduleData info) as [raw|] eqn:ER; [destruct HR as [HR|HR]|];
      try by rewrite HR in ES.
    destruct (json_Apply_reads raw (ScheduleData info) (map (refresh (In_ now l)) rules) HR)
      as (raw' & d' & EA & EU & Hs).
    { fold rules. clear. induction rules; constructor; [apply refresh_edited|done]. }
    rewrite EA. eexists. split; [done|]. split; [done|]. cbn. do 4 (split; [done|]).
    unfold saved_data, refreshed. cbn. rewrite EU. split; [exact Hs|]. intros _. split; [by eexists|done].
  - eexists. split; [done|]. split; [done|]. cbn. do 4 (split; [done|]).
    unfold saved_data, refreshed. cbn. fold rules. rewrite refresh_not_stale by done.
    split; [|by intros []]. unfold rules. destruct (ScheduleData info). apply same_data_refl.
Qed.

End updates.

(** ** Samples *)

(** A document that is its own JSON. *)
Definition plain_json : ScheduleJSON Data.
Proof.
  refine {|
    json_Unmarshal := Some;
    json_Apply := fun _ d => Some d;
    jsonb_set_rules := fun d rules => set_OnCallNotificationRules rules d
  |}.
  - intros raw d rules E _. exists (set_OnCallNotificationRules rules d), (set_OnCallNotificationRules rules d).
    split; [done|]. split; [done|]. apply same_data_refl.
  - intros raw d rules [= <-] _. eexists. split; [done|]. apply same_data_refl.
Defined.

#[local] Existing Instance nibble_uuid.
#[local] Existing Instance plain_json.

Definition everyone_always (u : UUID) : SchedMgrRulesRow :=
  mkRulesRow 1 true true true true true true true 0 0 u.

(** User 10 is always on call; 11 replaces them now, 12 is added. *)
Definition sample_info : updateInfo Data :=
  let d := mkData [] [with_next (Some (mkTime (1700229600 * Second) UTC)) weekdays_at_nine;
                      mkOCRule (mkRuleID 1 2 true) 8 None None None] in
  mkInfo 1 (Some est) (Some d) d (Some {[10]}) [everyone_always 10]
    [mkOverridesRow (Some 11) (Some 10) 1; mkOverridesRow (Some 12) None 1] None (Some {[10; 11; 12]}).

Lemma sample_info_ok : info_ok est sample_info.
Proof.
  split; try done.
  - split; constructor.
  - by repeat constructor.
  - split; [|repeat constructor; by intros u [= <-]].
    repeat constructor. intros u [[= <-]|[= <-]] [[=]|[=]].
  - constructor; [exact weekdays_at_nine_wf|]. by repeat constructor.
Qed.

(** Friday at ten: the rule of nine o'clock is due, the users changed. *)
Lemma calcLatestOnCall_exact_witness :
  exists S, calcLatestOnCall sample_info friday_at_ten = Some S /\
    11 ∈ S /\ on_call_now (-18000) (inst friday_at_ten) sample_info 11.
Proof.
  destruct (calcLatestOnCall_exact est (-18000) sample_info friday_at_ten
    (fixed_zone_at _) eq_refl sample_info_ok) as (S & E & HS).
  exists S. split; [exact E|].
  assert (option_map (fun S : gset UUID => bool_decide (11 ∈ S)) (calcLatestOnCall sample_info friday_at_ten) = Some true)
    as Hin by (vm_compute; reflexivity).
  rewrite E in Hin. injection Hin as Hin. apply bool_decide_eq_true_1 in Hin.
  split; [exact Hin|]. exact (proj1 (HS 11) Hin).
Defined.

