(* ===== verification/ScheduleManager.v ===== *)
(** * The schedule manager: [engine/schedulemanager]

    One transaction per cycle reads the rules, overrides, temporary schedules and
    open shifts of every schedule, computes what changed ([OnCallUpdate]) and
    writes it back.  Before the first cycle the channels of the stored rules are
    migrated, a few schedules per transaction.

    The tables a cycle only reads are [Static], those it writes are [Tables];
    [stmt_err] gives the outcome of the n-th database call.  The memory of the
    [DB] is not undone with a transaction. *)

From S2P Require Import Prelude Text Effects GoTime Clock WeekdayFilter Rule TempSchedule NotificationRule OnCallUpdate.

(** ** Tables *)

(** [schedule_rules] *)
Record ScheduleRuleRow := mkRuleRow {
  sr_row : UUID -> SchedMgrRulesRow;   (** all columns but the resolved user *)
  tgt_user_id : option UUID;
  tgt_rotation_id : option UUID
}.

(** [user_overrides] *)
Record OverrideRow := mkOverrideRow {
  or_row : SchedMgrOverridesRow;
  or_start : Z;
  or_end : Z
}.

(** [schedule_on_call_users] *)
Record OnCallRow := mkOnCallRow {
  oc_schedule : UUID;
  oc_user : UUID;
  oc_start : Z;
  oc_end : option Z
}.

Record Static := mkStatic {
  t_users : gset UUID;
  t_affiliation : gmap UUID UUID;         (** [CurrentUserOrganizationsQuery] *)
  t_schedules : gmap UUID (string * UUID);  (** time zone and organization *)
  t_rules : list ScheduleRuleRow;
  t_rotation_state : gmap UUID UUID;      (** the participant whose turn it is *)
  t_participants : gmap UUID UUID;        (** the user of a participant *)
  t_overrides : list OverrideRow;
  t_channels : gset UUID;
  t_dedup : gmap UUID UUID                (** [notification_channel_duplicates] *)
}.

Record Tables (Raw : Type) := mkTables {
  t_data : gmap UUID Raw;
  t_oncall : list OnCallRow;
  t_messages : list (UUID * UUID);        (** channel and schedule *)
  t_migrated : bool                       (** [State.HasMigratedScheduleData] *)
}.
Arguments mkTables {Raw}.
Arguments t_data {Raw}.
Arguments t_oncall {Raw}.
Arguments t_messages {Raw}.
Arguments t_migrated {Raw}.

(** The fields of the [DB]; [None] is [nil]. *)
Record Memory := mkMemory {
  migrateSchedIDs : option (list UUID);
  migrateMap : option (gmap UUID UUID)
}.

Record World (Raw : Type) := mkWorld { w_tbl : Tables Raw; w_mem : Memory; w_calls : nat }.
Arguments mkWorld {Raw}.
Arguments w_tbl {Raw}.
Arguments w_mem {Raw}.
Arguments w_calls {Raw}.

(** An error of the database, with the constraint it names, or another. *)
Inductive DBError := PgError (constraint : string) | OtherError.

Definition isScheduleDeleted (e : DBError) : bool :=
  match e with
  | PgError c =>
      String.eqb c "schedule_on_call_users_schedule_id_fkey" ||
      String.eqb c "schedule_data_schedule_id_fkey" ||
      String.eqb c "outgoing_messages_schedule_id_fkey"
  | OtherError => false
  end.

Section Manager.
Context `{UUIDText} {Raw : Type} `{ScheduleJSON Raw} {HR : GoMapRange}.
(** [util.LoadLocation]; the tables read; the time of the transaction. *)
Context (LoadLocation : string -> option Location) (st : Static) (tx_now : Time).
(** The outcome of the n-th database call; the five seconds are over before it. *)
Context (stmt_err : nat -> option DBError) (expired : nat -> bool).

Local Notation M := (Effects.M (World Raw) DBError).

Definition tick (w : World Raw) : World Raw := mkWorld (w_tbl w) (w_mem w) (S (w_calls w)).
Definition set_tbl (t : Tables Raw) (w : World Raw) : World Raw := mkWorld t (w_mem w) (w_calls w).
Definition set_mem (m : Memory) : M unit := fun w => (Ok tt, mkWorld (w_tbl w) m (w_calls w)).

Definition query {A} (f : Tables Raw -> A) : M A := fun w =>
  match stmt_err (w_calls w) with
  | Some e => (Err e, tick w)
  | None => (Ok (f (w_tbl w)), tick w)
  end.

(** A statement that a constraint may refuse. *)
Definition exec (f : Tables Raw -> Tables Raw + DBError) : M unit := fun w =>
  match stmt_err (w_calls w) with
  | Some e => (Err e, tick w)
  | None => match f (w_tbl w) with
            | inl t => (Ok tt, set_tbl t (tick w))
            | inr e => (Err e, tick w)
            end
  end.

Definition call : M unit := query (fun _ => tt).

(** ** Statements *)

Definition set_oncall (l : list OnCallRow) (t : Tables Raw) : Tables Raw :=
  mkTables (t_data t) l (t_messages t) (t_migrated t).
Definition set_data (d : gmap UUID Raw) (t : Tables Raw) : Tables Raw :=
  mkTables d (t_oncall t) (t_messages t) (t_migrated t).
Definition set_messages (l : list (UUID * UUID)) (t : Tables Raw) : Tables Raw :=
  mkTables (t_data t) (t_oncall t) l (t_migrated t).
Definition set_migrated (t : Tables Raw) : Tables Raw :=
  mkTables (t_data t) (t_oncall t) (t_messages t) true.

(** [SchedMgrRules] *)
Definition SchedMgrRules : list SchedMgrRulesRow :=
  omap (fun r =>
    let part := rot ← tgt_rotation_id r; p ← t_rotation_state st !! rot; t_participants st !! p in
    match tgt_user_id r with
    | Some u => Some (sr_row r u)
    | None => u ← part; Some (sr_row r u)
    end) (t_rules st).

(** [SchedMgrOverrides]: [now() BETWEEN start_time AND end_time] *)
Definition SchedMgrOverrides : list SchedMgrOverridesRow :=
  map or_row (List.filter (fun o => (or_start o <=? inst tx_now) && (inst tx_now <=? or_end o)) (t_overrides st)).

Definition is_open (s u : UUID) (r : OnCallRow) : bool :=
  (oc_schedule r =? s) && (oc_user r =? u) && bool_decide (oc_end r = None).

(** [SchedMgrOnCall] *)
Definition SchedMgrOnCall (t : Tables Raw) : list (UUID * UUID) :=
  omap (fun r => match oc_end r with None => Some (oc_schedule r, oc_user r) | Some _ => None end) (t_oncall t).

(** [SchedMgrVerifyUsers] *)
Definition SchedMgrVerifyUsers (ids : list UUID) : list UUID :=
  List.filter (fun u => bool_decide (u ∈ t_users st)) ids.

Definition schedule_exists (s : UUID) : bool := bool_decide (is_Some (t_schedules st !! s)).

(** [SchedMgrStartOnCall], with the foreign key and the index
    [idx_schedule_on_call_once]. *)
Definition SchedMgrStartOnCall (s u : UUID) (t : Tables Raw) : Tables Raw + DBError :=
  if negb (bool_decide (u ∈ t_users st)) then inl t
  else if negb (schedule_exists s) then inr (PgError "schedule_on_call_users_schedule_id_fkey")
  else if existsb (is_open s u) (t_oncall t) then inr (PgError "idx_schedule_on_call_once")
  else inl (set_oncall (t_oncall t ++ [mkOnCallRow s u (inst tx_now) None]) t).

(** [SchedMgrEndOnCall], with [CHECK (end_time > start_time)]. *)
Definition SchedMgrEndOnCall (s u : UUID) (t : Tables Raw) : Tables Raw + DBError :=
  if existsb (fun r => is_open s u r && (inst tx_now <=? oc_start r)) (t_oncall t)
  then inr (PgError "schedule_on_call_users_check")
  else inl (set_oncall (map (fun r =>
         if is_open s u r then mkOnCallRow (oc_schedule r) (oc_user r) (oc_start r) (Some (inst tx_now))
         else r) (t_oncall t)) t).

(** [SchedMgrSetData] *)
Definition SchedMgrSetData (s : UUID) (data : Raw) (t : Tables Raw) : Tables Raw + DBError :=
  inl (set_data (alter (fun _ => data) s (t_data t)) t).

(** [SchedMgrInsertMessage] *)
Definition SchedMgrInsertMessage (c s : UUID) (t : Tables Raw) : Tables Raw + DBError :=
  if negb (bool_decide (c ∈ t_channels st)) then inr (PgError "outgoing_messages_channel_id_fkey")
  else if negb (schedule_exists s) then inr (PgError "outgoing_messages_schedule_id_fkey")
  else inl (set_messages (t_messages t ++ [(c, s)]) t).

(** [SchedMgrSetDataV1Rules] *)
Definition SchedMgrSetDataV1Rules (s : UUID) (rules : list OnCallNotificationRule) (t : Tables Raw)
  : Tables Raw + DBError :=
  inl (set_data (alter (fun raw => jsonb_set_rules raw rules) s (t_data t)) t).

(** ** Migration of the channels *)

Definition set_ids (ids : list UUID) : M unit := fun w =>
  set_mem (mkMemory (Some ids) (migrateMap (w_mem w))) w.

Definition remap (m : gmap UUID UUID) (r : OnCallNotificationRule) : OnCallNotificationRule :=
  match m !! ChannelID r with Some c => with_channel c r | None => r end.

Fixpoint migrate_loop (m : gmap UUID UUID) (ids : list UUID) : M bool :=
  match ids with
  | [] => set_mem (mkMemory None None) ;;; ret true
  | sched :: rest => fun w =>
      if expired (w_calls w) then (Ok false, w)
      else
        bind (query (fun t => t_data t !! sched)) (fun rawData =>
        match rawData with
        | None => set_ids rest ;;; migrate_loop m rest
        | Some rawData =>
            match json_Unmarshal rawData with
            | None => fail OtherError
            | Some data =>
                let rules := OnCallNotificationRules data in
                let hadUpdate := existsb (fun r => bool_decide (is_Some (m !! ChannelID r))) rules in
                if negb hadUpdate then set_ids rest ;;; migrate_loop m rest
                else
                  exec (SchedMgrSetDataV1Rules sched (map (remap m) rules)) ;;;
                  set_ids rest ;;; migrate_loop m rest
            end
        end) w
  end.

Definition migrateScheduleDataNotifDedup : M bool :=
  let! mem := (fun w => (Ok (w_mem w), w)) in
  let! m := match migrateMap mem with
            | Some m => ret m
            | None => let! m := query (fun _ => t_dedup st) in
                      set_mem (mkMemory (migrateSchedIDs mem) (Some m)) ;;; ret m
            end in
  match migrateSchedIDs mem with
  | Some ids => migrate_loop m ids
  | None =>
      let! rows := query (fun t => map fst (map_range (t_data t))) in
      match rows with
      | [] => ret true
      | _ => set_ids rows ;;; migrate_loop m rows
      end
  end.

(** ** Loading *)

Definition newInfo (id : UUID) : updateInfo Raw :=
  mkInfo id None None (mkData [] []) (Some ∅) [] [] None None.

(** [f] on the entry that [getInfo] returns. *)
Definition getInfo (id : UUID) (f : updateInfo Raw -> updateInfo Raw)
  (m : gmap UUID (updateInfo Raw)) : gmap UUID (updateInfo Raw) :=
  <[id := f (default (newInfo id) (m !! id))]> m.

Definition with_raw (raw : Raw) (i : updateInfo Raw) : updateInfo Raw :=
  mkInfo (ui_ScheduleID i) (TimeZone i) (Some raw) (default (ScheduleData i) (json_Unmarshal raw))
    (CurrentOnCall i) (Rules i) (ActiveOverrides i) (MissingUsers i) (EligibleUsers i).
Definition with_override (o : SchedMgrOverridesRow) (i : updateInfo Raw) : updateInfo Raw :=
  mkInfo (ui_ScheduleID i) (TimeZone i) (RawScheduleData i) (ScheduleData i) (CurrentOnCall i)
    (Rules i) (ActiveOverrides i ++ [o]) (MissingUsers i) (EligibleUsers i).
Definition with_rule (r : SchedMgrRulesRow) (i : updateInfo Raw) : updateInfo Raw :=
  mkInfo (ui_ScheduleID i) (TimeZone i) (RawScheduleData i) (ScheduleData i) (CurrentOnCall i)
    (Rules i ++ [r]) (ActiveOverrides i) (MissingUsers i) (EligibleUsers i).
Definition with_zone (l : Location) (i : updateInfo Raw) : updateInfo Raw :=
  mkInfo (ui_ScheduleID i) (Some l) (RawScheduleData i) (ScheduleData i) (CurrentOnCall i)
    (Rules i) (ActiveOverrides i) (MissingUsers i) (EligibleUsers i).
Definition with_missing (s : gset UUID) (i : updateInfo Raw) : updateInfo Raw :=
  mkInfo (ui_ScheduleID i) (TimeZone i) (RawScheduleData i) (ScheduleData i) (CurrentOnCall i)
    (Rules i) (ActiveOverrides i) (Some s) (EligibleUsers i).
Definition with_current (u : UUID) (i : updateInfo Raw) : updateInfo Raw :=
  mkInfo (ui_ScheduleID i) (TimeZone i) (RawScheduleData i) (ScheduleData i)
    (Some (default ∅ (CurrentOnCall i) ∪ {[u]}))
    (Rules i) (ActiveOverrides i) (MissingUsers i) (EligibleUsers i).
Definition with_eligible (s : gset UUID) (i : updateInfo Raw) : updateInfo Raw :=
  mkInfo (ui_ScheduleID i) (TimeZone i) (RawScheduleData i) (ScheduleData i) (CurrentOnCall i)
    (Rules i) (ActiveOverrides i) (MissingUsers i) (Some s).

Notation Infos := (gmap UUID (updateInfo Raw)).

(** The time zones: a name that does not load ends the update. *)
Fixpoint load_zones (rows : list (UUID * (string * UUID))) (m : Infos) : M Infos :=
  match rows with
  | [] => ret m
  | (id, (tz, _)) :: rows =>
      match LoadLocation tz with
      | None => fail OtherError
      | Some l => load_zones rows (getInfo id (with_zone l) m)
      end
  end.

(** The users of the temporary schedules in force. *)
Definition temp_users (m : Infos) : gset UUID :=
  fold_left (fun s '(_, info) =>
    let '(isActive, users) := TempOnCall uuid_Parse tx_now (TempScheds (ScheduleData info)) in
    if isActive then s ∪ list_to_set users else s) (map_range m) ∅.

Definition verify_users (m : Infos) : M Infos :=
  let tempUsers := temp_users m in
  if bool_decide (tempUsers = ∅) then ret m
  else
    let! validUsers := query (fun _ => SchedMgrVerifyUsers (range_set tempUsers)) in
    let missing := tempUsers ∖ list_to_set validUsers in
    ret (if bool_decide (missing = ∅) then m else with_missing missing <$> m).

(** ** Staffing *)

(** The rows of the affiliation query for the users given. *)
Definition affiliation_of (users : gset UUID) : gmap UUID UUID :=
  filter (fun '(u, _) => u ∈ users) (t_affiliation st).

(** The users on call for one schedule row, those of its organization kept. *)
Definition add_eligible (affiliation : gmap UUID UUID) (m : Infos) (row : UUID * UUID) : option Infos :=
  let '(scheduleID, orgID) := row in
  match m !! scheduleID with
  | None => Some m
  | Some info =>
      users ← calcLatestOnCall info tx_now;
      let kept := filter (fun u =>
        default uuid_Nil (affiliation !! u) = orgID /\ orgID <> uuid_Nil) users in
      Some (<[scheduleID := with_eligible (default ∅ (EligibleUsers info) ∪ kept) info]> m)
  end.

Definition all_on_call (m : Infos) : option (gset UUID) :=
  fold_left (fun acc '(_, info) => s ← acc; u ← calcLatestOnCall info tx_now; Some (s ∪ u)) (map_range m) (Some ∅).

Definition loadStaffingEligibility (m : Infos) : M Infos :=
  let! users := need (all_on_call m) in
  let m := with_eligible ∅ <$> m in
  let! affiliation := query (fun _ => affiliation_of users) in
  let! rows := query (fun _ => map (fun '(id, (_, org)) => (id, org)) (map_range (t_schedules st))) in
  need (fold_left (fun acc row => m ← acc; add_eligible affiliation m row) rows (Some m)).

(** ** Writing *)

(** Runs a statement; [false] if its schedule was deleted. *)
Definition unless_deleted (m : M unit) : M bool := fun w =>
  match m w with
  | (Ok _, w) => (Ok true, w)
  | (Err e, w) => if isScheduleDeleted e then (Ok false, w) else (Err e, w)
  | (Panic, w) => (Panic, w)
  end.

(** A loop that [continue updateLoop] leaves: [false]. *)
Fixpoint while_there (f : UUID -> M unit) (l : list UUID) : M bool :=
  match l with
  | [] => ret true
  | u :: l => let! ok := unless_deleted (f u) in if (ok : bool) then while_there f l else ret false
  end.

Definition update_schedule (info : updateInfo Raw) : M unit :=
  let! result := need (calcUpdates info tx_now) in
  match result with
  | None => ret tt
  | Some result =>
      let s := ui_ScheduleID info in
      let! ok := while_there (fun u => exec (SchedMgrStartOnCall s u)) (range_set (UsersToStart result)) in
      if negb ok then ret tt else
      let! ok := while_there (fun u => exec (SchedMgrEndOnCall s u)) (range_set (UsersToStop result)) in
      if negb ok then ret tt else
      let! ok := match NewRawScheduleData result with
                 | Some raw => unless_deleted (exec (SchedMgrSetData s raw))
                 | None => ret true
                 end in
      if negb ok then ret tt else
      each (fun c => unless_deleted (exec (SchedMgrInsertMessage c s)) ;;; ret tt)
        (range_set (NotificationChannels result))
  end.

(** ** The cycle *)

Definition load : M Infos :=
  call ;;;                                       (* the time of the database *)
  let! dataRows := query (fun t => map_range (t_data t)) in
  let m := fold_left (fun m '(id, raw) => getInfo id (with_raw raw) m) dataRows ∅ in
  let! overrides := query (fun _ => SchedMgrOverrides) in
  let m := fold_left (fun m o => getInfo (TgtScheduleID o) (with_override o) m) overrides m in
  let! rules := query (fun _ => SchedMgrRules) in
  let m := fold_left (fun m r => getInfo (rr_ScheduleID r) (with_rule r) m) rules m in
  let! tzRows := query (fun _ => map_range (t_schedules st)) in
  let! m := load_zones tzRows m in
  let! m := verify_users m in
  let! onCallRows := query SchedMgrOnCall in
  let m := fold_left (fun m '(s, u) => getInfo s (with_current u) m) onCallRows m in
  loadStaffingEligibility m.

Definition update_body : M unit :=
  let! migrated := query t_migrated in           (* the state of the lock *)
  let! go := if (migrated : bool) then ret true
             else
               let! isDone := migrateScheduleDataNotifDedup in
               if (isDone : bool) then exec (fun t => inl (set_migrated t)) ;;; ret true else ret false in
  if negb go then call
  else
    let! m := load in
    each (fun '(_, info) => update_schedule info) (map_range m) ;;;
    call.                                        (* the commit *)

(** The transaction: an error or a panic undoes the tables. *)
Definition update : M unit := fun w =>
  match bind call (fun _ => update_body) w with
  | (Ok _, w') => (Ok tt, w')
  | (r, w') => (r, set_tbl (w_tbl w) w')
  end.
End Manager.
