(* ===== verification/ScheduleManagerSpec.v ===== *)
(** * What a cycle of the schedule manager leaves behind

    When no database call fails, an update ends with the open shifts of every
    schedule being those of the users who should be on call, and the channels
    that were due notified; a second update at the same time changes nothing.
    The two lemmas at the end show what a failing call costs. *)

From S2P Require Import Prelude Text Effects GoTime Clock WeekdayFilter Rule TempSchedule NotificationRule.
From S2P Require Import OnCallUpdate ScheduleManager.

(** ** Loading, one schedule at a time *)

Section load.
Context {Raw : Type}.
Notation Infos := (gmap UUID (updateInfo Raw)).

(** What [getInfo] returns. *)
Definition info_at (s : UUID) (m : Infos) : updateInfo Raw := default (newInfo s) (m !! s).

Lemma info_at_getInfo id f (m : Infos) s :
  info_at s (getInfo id f m) = if id =? s then f (info_at s m) else info_at s m.
Proof.
  unfold info_at, getInfo. destruct (id =? s) eqn:E; bprop.
  - subst. by rewrite lookup_insert_eq.
  - by rewrite lookup_insert_ne.
Qed.

Lemma getInfo_known id f (m : Infos) s : is_Some (getInfo id f m !! s) <-> id = s \/ is_Some (m !! s).
Proof. unfold getInfo. rewrite lookup_insert_is_Some. destruct (decide (id = s)); tauto. Qed.

Lemma fold_getInfo {R} (key : R -> UUID) (f : R -> updateInfo Raw -> updateInfo Raw) rows : forall (m : Infos) s,
  info_at s (fold_left (fun m r => getInfo (key r) (f r) m) rows m) =
  fold_left (fun i r => f r i) (List.filter (fun r => key r =? s) rows) (info_at s m).
Proof.
  induction rows as [|r rows IH]; intros m s; cbn [fold_left List.filter]; [done|].
  rewrite IH, info_at_getInfo. by destruct (key r =? s).
Qed.

Lemma fold_getInfo_known {R} (key : R -> UUID) (f : R -> updateInfo Raw -> updateInfo Raw) rows :
  forall (m : Infos) s,
  is_Some (fold_left (fun m r => getInfo (key r) (f r) m) rows m !! s) <->
  ex_in (fun r => key r = s) rows \/ is_Some (m !! s).
Proof.
  induction rows as [|r rows IH]; intros m s; cbn [fold_left]; [rewrite ex_in_nil; tauto|].
  rewrite IH, getInfo_known, ex_in_cons. tauto.
Qed.

(** A range over a map has one row for a key. *)
Lemma filter_map_range `{GoMapRange} {V} (m : gmap UUID V) (s : UUID) :
  List.filter (fun r => fst r =? s) (map_range m) =
  match m !! s with Some v => [(s, v)] | None => [] end.
Proof.
  pose proof (map_range_perm m) as HP.
  assert (NoDup (map fst (map_range m))) as HN.
  { rewrite HP. apply NoDup_fst_map_to_list. }
  assert (forall k v, (k, v) ∈ map_range m <-> m !! k = Some v) as HE.
  { intros k v. rewrite HP. apply elem_of_map_to_list. }
  set (l := map_range m) in *. clearbody l. clear HP.
  destruct (m !! s) as [v|] eqn:E.
  - apply HE in E. clear HE. revert HN E. induction l as [|[k x] l IH]; intros HN E; [by apply elem_of_nil in E|].
    cbn [List.filter fst map] in *. apply NoDup_cons in HN as [Hk HN].
    destruct (k =? s) eqn:Ek; bprop.
    + subst k. apply elem_of_cons in E as [E|E].
      * injection E as ->. f_equal. clear -Hk. induction l as [|[k y] l IH]; [done|]. cbn in *.
        apply not_elem_of_cons in Hk as [Hk1 Hk2]. destruct (Z.eqb_spec k s); [congruence|]. auto.
      * destruct Hk. by apply (list_elem_of_fmap_2 fst) in E.
    + apply elem_of_cons in E as [E|E]; [congruence|]. auto.
  - assert (forall v, (s, v) ∉ l) as Hno by (intros v Hv; apply HE in Hv; congruence). clear HE HN.
    induction l as [|[k x] l IH]; [done|]. cbn [List.filter fst].
    destruct (k =? s) eqn:Ek; bprop.
    + subst k. destruct (Hno x). by left.
    + apply IH. intros v Hv. apply (Hno v). by right.
Qed.

Lemma fold_overrides_info l : forall i : updateInfo Raw,
  fold_left (fun i o => with_override o i) l i =
  mkInfo (ui_ScheduleID i) (TimeZone i) (RawScheduleData i) (ScheduleData i) (CurrentOnCall i)
    (Rules i) (ActiveOverrides i ++ l) (MissingUsers i) (EligibleUsers i).
Proof.
  induction l as [|o l IH]; intros i; cbn [fold_left]; [destruct i; cbn; by rewrite app_nil_r|].
  rewrite IH. cbn. by rewrite <- app_assoc.
Qed.

Lemma fold_rules_info l : forall i : updateInfo Raw,
  fold_left (fun i r => with_rule r i) l i =
  mkInfo (ui_ScheduleID i) (TimeZone i) (RawScheduleData i) (ScheduleData i) (CurrentOnCall i)
    (Rules i ++ l) (ActiveOverrides i) (MissingUsers i) (EligibleUsers i).
Proof.
  induction l as [|o l IH]; intros i; cbn [fold_left]; [destruct i; cbn; by rewrite app_nil_r|].
  rewrite IH. cbn. by rewrite <- app_assoc.
Qed.

Lemma fold_current_info (l : list (UUID * UUID)) : forall i : updateInfo Raw, is_Some (CurrentOnCall i) ->
  fold_left (fun i r => with_current (snd r) i) l i =
  mkInfo (ui_ScheduleID i) (TimeZone i) (RawScheduleData i) (ScheduleData i)
    (Some (default ∅ (CurrentOnCall i) ∪ list_to_set (map snd l)))
    (Rules i) (ActiveOverrides i) (MissingUsers i) (EligibleUsers i).
Proof.
  induction l as [|r l IH]; intros i [c Hc]; cbn [fold_left map list_to_set].
  { destruct i; cbn in *. subst. cbn. by rewrite union_empty_r_L. }
  rewrite IH by (cbn; eauto). cbn. by rewrite <- union_assoc_L.
Qed.
End load.

Lemma fold_left_ext {A B} (f g : A -> B -> A) l : (forall a b, f a b = g a b) ->
  forall a, fold_left f l a = fold_left g l a.
Proof. intros E. induction l as [|b l IH]; intros a; cbn [fold_left]; [done|]. by rewrite E, IH. Qed.

Lemma and_iff_under (A B C : Prop) : (A -> B <-> C) -> A /\ B <-> A /\ C.
Proof. tauto. Qed.

(** ** The state of the database *)

Section cycle.
Context `{UUIDText} {Raw : Type} `{ScheduleJSON Raw} {HR : GoMapRange}.
Context (LoadLocation : string -> option Location) (st : Static) (tx_now : Time) (off : UUID -> Z).

Notation now := (inst tx_now).

Definition zone_of (s : UUID) : option Location :=
  match t_schedules st !! s with Some (tz, _) => LoadLocation tz | None => None end.
Definition org_of (s : UUID) : UUID :=
  match t_schedules st !! s with Some (_, org) => org | None => uuid_Nil end.
Definition rules_of (s : UUID) : list SchedMgrRulesRow :=
  List.filter (fun r => rr_ScheduleID r =? s) (SchedMgrRules st).
Definition overrides_of (s : UUID) : list SchedMgrOverridesRow :=
  List.filter (fun o => TgtScheduleID o =? s) (SchedMgrOverrides st tx_now).
Definition data_of (t : Tables Raw) (s : UUID) : Data := default (mkData [] []) (t_data t !! s ≫= json_Unmarshal).
Definition opens (t : Tables Raw) (s : UUID) : gset UUID :=
  list_to_set (map snd (List.filter (fun r => fst r =? s) (SchedMgrOnCall t))).

Definition known (s : UUID) : Prop := is_Some (t_schedules st !! s).

(** The schedule's organization is the one the user belongs to. *)
Definition affiliated (s u : UUID) : Prop := t_affiliation st !! u = Some (org_of s) /\ org_of s <> uuid_Nil.

(** Who is on call by temporary schedules, rules and overrides. *)
Definition scheduled (t : Tables Raw) (s u : UUID) : Prop :=
  let temps := TempScheds (data_of t s) in
  (covers temps now /\ exists name, on_call temps name now /\ uuid_Parse name = Some u) \/
  (~ covers temps now /\ overridden (base_user (off s) now (rules_of s)) (overrides_of s) u).

Definition should (t : Tables Raw) (s u : UUID) : Prop := scheduled t s u /\ affiliated s u.

(** What the constraints of the tables and earlier checks promise. *)
Record db_ok (t : Tables Raw) : Prop := {
  db_zones : forall s tz org, t_schedules st !! s = Some (tz, org) ->
    exists l, LoadLocation tz = Some l /\ fixed_at l (off s) /\ off s mod 60 = 0;
  db_rules : forall r, r ∈ SchedMgrRules st -> known (rr_ScheduleID r) /\ wf_row r;
  db_override_fk : forall o, o ∈ SchedMgrOverrides st tx_now -> known (TgtScheduleID o);
  db_overrides : forall s, overrides_ok (overrides_of s);
  db_data : forall s raw, t_data t !! s = Some raw -> known s;
  db_temps : forall s, wf_list (TempScheds (data_of t s));
  db_notify : forall s, Forall (fun r => wf_oc_rule r /\ ChannelID r ∈ t_channels st)
                          (OnCallNotificationRules (data_of t s));
  db_open : forall r, r ∈ t_oncall t -> oc_end r = None -> known (oc_schedule r) /\ oc_start r < now;
  db_users : forall u org, t_affiliation st !! u = Some org -> u ∈ t_users st
}.

(** What an update computes for one schedule. *)
Definition info_for (t : Tables Raw) (s : UUID) (missing eligible : option (gset UUID)) : updateInfo Raw :=
  mkInfo s (zone_of s) (t_data t !! s) (data_of t s) (Some (opens t s)) (rules_of s) (overrides_of s)
    missing eligible.

Section no_errors.
Context (stmt_err : nat -> option DBError) (Hno : forall n, stmt_err n = None).
Notation M := (Effects.M (World Raw) DBError).

Lemma bind_query {A B} (f : Tables Raw -> A) (k : A -> M B) w :
  bind (query stmt_err f) k w = k (f (w_tbl w)) (tick w).
Proof using Hno. unfold bind, query. by rewrite Hno. Qed.

Lemma exec_result f (w : World Raw) t : f (w_tbl w) = inl t -> exec stmt_err f w = (Ok tt, set_tbl t (tick w)).
Proof using Hno. intros E. unfold exec. by rewrite Hno, E. Qed.

Lemma load_zones_ok rows : forall m : gmap UUID (updateInfo Raw),
  (forall s tz org, (s, (tz, org)) ∈ rows -> is_Some (LoadLocation tz)) ->
  load_zones (Raw := Raw) LoadLocation rows m =
  ret (fold_left (fun m r => getInfo (fst r) (with_zone (default UTC (LoadLocation (fst (snd r))))) m) rows m).
Proof.
  induction rows as [|[s [tz org]] rows IH]; intros m Hz; cbn [load_zones fold_left]; [done|].
  destruct (Hz s tz org ltac:(by left)) as [l El]. cbn [fst snd]. rewrite El. cbn [default].
  apply IH. intros s' tz' org' Hin. apply (Hz s' tz' org'). by right.
Qed.

(** The entries before the check of users. *)
Definition loaded (t : Tables Raw) (m : gmap UUID (updateInfo Raw)) : Prop :=
  (forall s, is_Some (m !! s) <-> known s) /\
  forall s, info_at s m = mkInfo s (zone_of s) (t_data t !! s) (data_of t s) (Some ∅) (rules_of s)
    (overrides_of s) None None.

Definition load1 (t : Tables Raw) : gmap UUID (updateInfo Raw) :=
  let m := fold_left (fun m '(id, raw) => getInfo id (with_raw raw) m) (map_range (t_data t)) ∅ in
  let m := fold_left (fun m o => getInfo (TgtScheduleID o) (with_override o) m) (SchedMgrOverrides st tx_now) m in
  let m := fold_left (fun m r => getInfo (rr_ScheduleID r) (with_rule r) m) (SchedMgrRules st) m in
  fold_left (fun m r => getInfo (fst r) (with_zone (default UTC (LoadLocation (fst (snd r))))) m)
    (map_range (t_schedules st)) m.

Lemma load1_loaded t : db_ok t -> loaded t (load1 t).
Proof.
  intros HD. unfold load1. cbv zeta.
  rewrite (fold_left_ext (fun m '(id, raw) => getInfo id (with_raw raw) m)
    (fun m r => getInfo (fst r) (with_raw (snd r)) m)) by (intros ? []; done).
  split; intros s.
  - rewrite !fold_getInfo_known, lookup_empty.
    assert (is_Some (@None (updateInfo Raw)) <-> False) as -> by (split; [by intros []|done]).
    split; [|intros [[tz org] E]; left; exists (s, (tz, org)); split; [by apply map_range_elem|done]].
    intros [([k [tz org]] & Hin & <-)|[(r & Hin & <-)|[(o & Hin & <-)|[([k raw] & Hin & <-)|[]]]]].
    + apply map_range_elem in Hin. cbn. unfold known. by rewrite Hin.
    + by apply (db_rules t HD).
    + by apply (db_override_fk t HD).
    + apply map_range_elem in Hin. by eapply (db_data t HD).
  - rewrite !fold_getInfo, !filter_map_range, fold_rules_info, fold_overrides_info.
    unfold zone_of, data_of. pose proof (db_zones t HD s) as HZ.
    destruct (t_data t !! s) as [raw|], (t_schedules st !! s) as [[tz org]|]; cbn [fold_left fst snd];
      try destruct (HZ tz org eq_refl) as (l & El & _); try rewrite El; cbn; done.
Qed.

(** ** Users and shifts *)

(** The set of missing users holds no existing one. *)
Definition missing_ok (missing : option (gset UUID)) : Prop :=
  match missing with Some x => forall u, u ∈ x -> u ∉ t_users st | None => True end.

(** Every schedule has its entry, up to the shifts, the missing users and the
    eligible ones. *)
Definition entries (t : Tables Raw) (cur : UUID -> gset UUID) (m : gmap UUID (updateInfo Raw)) : Prop :=
  (forall s, is_Some (m !! s) <-> known s) /\
  forall s, known s -> exists missing, missing_ok missing /\
    m !! s = Some (mkInfo s (zone_of s) (t_data t !! s) (data_of t s) (Some (cur s)) (rules_of s)
      (overrides_of s) missing None).

Lemma loaded_entries t m : loaded t m -> entries t (fun _ => ∅) m.
Proof.
  intros [Hd Hi]. split; [done|]. intros s Hs. exists None. split; [done|].
  specialize (Hi s). unfold info_at in Hi. apply Hd in Hs as [i E]. rewrite E in *. cbn in Hi. by rewrite Hi.
Qed.

Lemma verify_users_ok t m w : loaded t m ->
  exists m' w', verify_users st tx_now stmt_err m w = (Ok m', w') /\ w_tbl w' = w_tbl w /\
    w_mem w' = w_mem w /\ entries t (fun _ => ∅) m'.
Proof using Hno.
  intros Hm. pose proof (loaded_entries t m Hm) as [HD HE]. unfold verify_users.
  case_bool_decide as E; [by exists m, w|]. rewrite bind_query.
  set (temps := temp_users tx_now m). set (missing := temps ∖ _).
  case_bool_decide as E2; [by exists m, (tick w)|].
  exists (with_missing missing <$> m), (tick w). split_and!; [done|done|done|]. split.
  - intros s. by rewrite lookup_fmap, fmap_is_Some.
  - intros s Hs. exists (Some missing). split.
    + cbn. intros u Hu Hin. unfold missing in Hu. apply elem_of_difference in Hu as [H1 H2]. apply H2.
      apply elem_of_list_to_set. unfold SchedMgrVerifyUsers. apply elem_of_filter_bool. split.
      * rewrite range_set_perm. by apply elem_of_elements.
      * by apply bool_decide_eq_true.
    + destruct (HE s Hs) as (miss & _ & Em). rewrite lookup_fmap, Em. done.
Qed.

Definition load2 (t : Tables Raw) (m : gmap UUID (updateInfo Raw)) : gmap UUID (updateInfo Raw) :=
  fold_left (fun m '(s, u) => getInfo s (with_current u) m) (SchedMgrOnCall t) m.

Lemma SchedMgrOnCall_elem (t : Tables Raw) s u :
  (s, u) ∈ SchedMgrOnCall t <-> exists r, r ∈ t_oncall t /\ oc_end r = None /\ oc_schedule r = s /\ oc_user r = u.
Proof.
  unfold SchedMgrOnCall. rewrite list_elem_of_omap. split.
  - intros (r & Hr & E). exists r. destruct (oc_end r); [done|]. injection E as -> ->. done.
  - intros (r & Hr & E & <- & <-). exists r. by rewrite E.
Qed.

Lemma load2_entries t m : db_ok t -> entries t (fun _ => ∅) m -> entries t (opens t) (load2 t m).
Proof.
  intros HD [Hd He]. unfold load2.
  rewrite (fold_left_ext (fun m '(s, u) => getInfo s (with_current u) m)
    (fun m r => getInfo (fst r) (with_current (snd r)) m)) by (intros ? []; done).
  assert (forall s, is_Some (fold_left (fun m r => getInfo (fst r) (with_current (snd r)) m)
    (SchedMgrOnCall t) m !! s) <-> known s) as Hd'.
  { intros s. rewrite fold_getInfo_known, Hd. split; [|tauto].
    intros [([k u] & Hin & <-)|]; [|done]. cbn. apply SchedMgrOnCall_elem in Hin as (r & Hr & E & <- & _).
    by apply (db_open t HD r Hr). }
  split; [done|]. intros s Hs. destruct (He s Hs) as (missing & Hmiss & Em). exists missing. split; [done|].
  pose proof (fold_getInfo fst (fun r : UUID * UUID => with_current (snd r)) (SchedMgrOnCall t) m s) as HF.
  unfold info_at in HF. rewrite Em in HF. cbn [default] in HF.
  rewrite fold_current_info in HF by (cbn; eauto). cbn in HF.
  apply Hd' in Hs as [i Ei]. rewrite Ei in *. cbn in HF. rewrite HF. by rewrite union_empty_l_L.
Qed.

(** ** Staffing *)

Lemma users_fold (l : list (UUID * updateInfo Raw)) : forall acc,
  (forall x, x ∈ l -> is_Some (calcLatestOnCall (snd x) tx_now)) ->
  exists users, fold_left (fun acc '(_, info) => s ← acc; u ← calcLatestOnCall info tx_now; Some (s ∪ u)) l (Some acc)
    = Some users /\ acc ⊆ users /\
    forall x S, x ∈ l -> calcLatestOnCall (snd x) tx_now = Some S -> S ⊆ users.
Proof.
  clear Hno stmt_err off.
  induction l as [|[k i] l IH]; intros acc Hl; cbn [fold_left].
  { exists acc. split; [done|]. split; [done|]. intros x S Hx. by apply elem_of_nil in Hx. }
  destruct (Hl (k, i) ltac:(by left)) as [S ES]. cbn [snd] in ES. rewrite ES. cbn [mbind option_bind].
  destruct (IH (acc ∪ S)) as (users & E & Hsub & Hin); [intros x Hx; apply Hl; by right|].
  exists users. split; [done|]. split; [set_solver|]. intros x S' Hx ES'.
  apply elem_of_cons in Hx as [->|Hx]; [|by eapply Hin]. cbn [snd] in ES'. set_solver.
Qed.

Lemma eligible_fold aff rows : forall m : gmap UUID (updateInfo Raw),
  NoDup (map fst rows) -> (forall s i, m !! s = Some i -> is_Some (calcLatestOnCall i tx_now)) ->
  exists m', fold_left (fun acc row => m ← acc; add_eligible tx_now aff m row) rows (Some m) = Some m' /\
    forall s, m' !! s =
      i ← m !! s;
      match list_find (fun r => fst r = s) rows with
      | None => Some i
      | Some (_, (_, org)) =>
          S ← calcLatestOnCall i tx_now;
          Some (with_eligible (default ∅ (EligibleUsers i) ∪
            filter (fun u => default uuid_Nil (aff !! u) = org /\ org <> uuid_Nil) S) i)
      end.
Proof.
  clear Hno stmt_err off.
  induction rows as [|[k org] rows IH]; intros m HN Hm; cbn [fold_left map fst] in *.
  { exists m. split; [done|]. intros s. by destruct (m !! s). }
  apply NoDup_cons in HN as [Hk HN]. cbn [mbind option_bind]. unfold add_eligible at 2.
  assert (forall m1 : gmap UUID (updateInfo Raw), list_find (fun r : UUID * UUID => fst r = k) rows = None) as Hfk.
  { intros _. apply list_find_None, Forall_forall. intros x Hx <-. apply Hk.
    by apply list_elem_of_fmap_2. }
  specialize (Hfk m).
  destruct (m !! k) as [i|] eqn:Ei.
  - destruct (Hm k i Ei) as [S ES]. rewrite ES. cbn [mbind option_bind].
    set (i' := with_eligible _ i). destruct (IH (<[k := i']> m) HN) as (m' & E & Hlk).
    { intros s j Ej. destruct (decide (s = k)) as [->|].
      - rewrite lookup_insert_eq in Ej. injection Ej as <-. exists S. exact ES.
      - rewrite lookup_insert_ne in Ej by congruence. by eapply Hm. }
    exists m'. split; [done|]. intros s. rewrite Hlk. cbn [list_find].
    destruct (decide (fst (k, org) = s)) as [Es|Es]; cbn [fst] in Es.
    + subst s. rewrite lookup_insert_eq, Ei. cbn [mbind option_bind]. rewrite Hfk, ES. done.
    + rewrite lookup_insert_ne by done. destruct (m !! s) as [j|]; [|done]. cbn [mbind option_bind].
      generalize (list_find (fun r : UUID * UUID => fst r = s) rows). by intros [[? []]|].
  - destruct (IH m HN Hm) as (m' & E & Hlk). exists m'. split; [done|]. intros s. rewrite Hlk. cbn [list_find].
    destruct (decide (fst (k, org) = s)) as [Es|Es]; cbn [fst] in Es.
    + subst s. by rewrite Ei.
    + destruct (m !! s) as [j|]; [|done]. cbn [mbind option_bind].
      generalize (list_find (fun r : UUID * UUID => fst r = s) rows). by intros [[? []]|].
Qed.

Lemma info_for_ok t s missing eligible : db_ok t -> known s ->
  exists l, fixed_at l (off s) /\ off s mod 60 = 0 /\ info_ok l (info_for t s missing eligible).
Proof.
  intros HD [[tz org] Es]. destruct (db_zones t HD s tz org Es) as (l & El & Hl & Ho).
  exists l. split; [done|]. split; [done|]. split; cbn.
  - unfold zone_of. by rewrite Es.
  - apply (db_temps t HD).
  - apply Forall_forall. intros r Hr. apply elem_of_filter_bool in Hr as [Hr _]. by apply (db_rules t HD).
  - apply (db_overrides t HD).
  - eapply Forall_impl; [apply (db_notify t HD)|]. by intros r [].
Qed.

(** The entries before the update is computed. *)
Definition ready (t : Tables Raw) (m : gmap UUID (updateInfo Raw)) : Prop :=
  (forall s, is_Some (m !! s) <-> known s) /\
  forall s, known s -> exists missing eligible, missing_ok missing /\
    m !! s = Some (info_for t s missing (Some eligible)) /\
    forall u, u ∈ eligible <-> on_call_now (off s) now (info_for t s missing None) u /\ affiliated s u.

Lemma list_find_schedule s tz org : t_schedules st !! s = Some (tz, org) ->
  exists n, list_find (fun r => fst r = s)
    (map (fun '(id, (_, org)) => (id, org)) (map_range (t_schedules st))) = Some (n, (s, org)).
Proof.
  intros Es. destruct (list_find_elem_of (fun r : UUID * UUID => fst r = s)
    (map (fun '(id, (_, org)) => (id, org)) (map_range (t_schedules st))) (s, org)) as [[n [s' org']] E]; [|done|].
  - apply list_elem_of_fmap. exists (s, (tz, org)). split; [done|]. by apply map_range_elem.
  - exists n. rewrite E. apply list_find_Some in E as (E & Es' & _). cbn in Es'. subst s'.
    apply list_elem_of_lookup_2, list_elem_of_fmap in E as ([k [tz' o']] & [= <- <-] & Hin).
    apply map_range_elem in Hin. rewrite Hin in Es. injection Es as _ ->. done.
Qed.

Lemma loadStaffing_ok t m w : db_ok t -> entries t (opens t) m ->
  exists m' w', loadStaffingEligibility st tx_now stmt_err m w = (Ok m', w') /\ w_tbl w' = w_tbl w /\
    w_mem w' = w_mem w /\ ready t m'.
Proof using Hno.
  intros HD [Hd He].
  assert (forall s, known s -> exists missing S, missing_ok missing /\
    m !! s = Some (info_for t s missing None) /\
    calcLatestOnCall (info_for t s missing None) tx_now = Some S /\
    forall u, u ∈ S <-> on_call_now (off s) now (info_for t s missing None) u) as HS.
  { intros s Hs. destruct (He s Hs) as (missing & Hmiss & Em).
    destruct (info_for_ok t s missing None HD Hs) as (l & Hl & Ho & HI).
    destruct (calcLatestOnCall_spec l (off s) _ tx_now Hl Ho HI) as (S & ES & HuS). by exists missing, S. }
  assert (forall s i, m !! s = Some i -> is_Some (calcLatestOnCall i tx_now)) as Hcalc.
  { intros s i E. destruct (HS s) as (missing & S & _ & Em & ES & _); [by apply Hd; exists i|].
    rewrite E in Em. injection Em as ->. by exists S. }
  unfold loadStaffingEligibility.
  destruct (users_fold (map_range m) ∅) as (users & EU & _ & Hsub).
  { intros [s i] Hin. apply map_range_elem in Hin. by eapply Hcalc. }
  unfold all_on_call. rewrite EU. unfold bind at 1. cbn [need]. rewrite !bind_query.
  set (aff := affiliation_of st users). set (rows := map _ (map_range (t_schedules st))).
  destruct (eligible_fold aff rows (with_eligible ∅ <$> m)) as (m' & EF & Hlk).
  { unfold rows. rewrite map_map. rewrite (map_ext _ fst) by (intros [? []]; done).
    rewrite (map_range_perm (t_schedules st)). apply NoDup_fst_map_to_list. }
  { intros s i E. rewrite lookup_fmap in E. apply fmap_Some in E as (j & Ej & ->).
    exact (Hcalc s j Ej). }
  rewrite EF. exists m', (tick (tick w)). split_and!; [done|done|done|].
  assert (forall s, known s -> exists missing eligible, missing_ok missing /\
    m' !! s = Some (info_for t s missing (Some eligible)) /\
    forall u, u ∈ eligible <-> on_call_now (off s) now (info_for t s missing None) u /\ affiliated s u) as HF.
  { intros s Hs. destruct (HS s Hs) as (missing & S & Hmiss & Em & ES & HuS). exists missing.
    pose proof Hs as [[tz org] Es]. destruct (list_find_schedule s tz org Es) as [n EL].
    eexists. split; [done|]. rewrite Hlk, lookup_fmap, Em. cbn [fmap option_fmap option_map mbind option_bind].
    unfold rows. rewrite EL.
    change (calcLatestOnCall (with_eligible ∅ (info_for t s missing None)) tx_now)
      with (calcLatestOnCall (info_for t s missing None) tx_now). rewrite ES. cbn [mbind option_bind].
    split; [reflexivity|]. intros u. cbn [default EligibleUsers with_eligible]. rewrite union_empty_l_L, elem_of_filter, HuS.
    unfold affiliated, org_of. rewrite Es.
    rewrite (and_comm (_ /\ _) (on_call_now _ _ _ u)). apply and_iff_under. intros Hu.
    assert (aff !! u = t_affiliation st !! u) as ->.
    { unfold aff, affiliation_of. destruct (t_affiliation st !! u) as [o|] eqn:Ea.
      - apply map_lookup_filter_Some. split; [done|].
        apply (Hsub (s, info_for t s missing None) S); [by apply map_range_elem|done|by apply HuS].
      - apply map_lookup_filter_None. by left. }
    destruct (t_affiliation st !! u) as [o|]; cbn; split; intros [E1 E2]; try done.
    - by subst o.
    - by injection E1 as ->. }
  split; [|exact HF]. intros s. split; [|intros Hs; destruct (HF s Hs) as (? & ? & _ & E & _); eauto].
  intros [i E]. apply Hd. rewrite Hlk, lookup_fmap in E. by destruct (m !! s).
Qed.

Lemma load_ok (w : World Raw) : db_ok (w_tbl w) ->
  exists m w', load LoadLocation st tx_now stmt_err w = (Ok m, w') /\ w_tbl w' = w_tbl w /\
    w_mem w' = w_mem w /\ ready (w_tbl w) m.
Proof using Hno.
  intros HD. unfold load, call. rewrite !bind_query. rewrite load_zones_ok.
  2:{ intros s tz org Hin. apply map_range_elem in Hin. destruct (db_zones _ HD s tz org Hin) as (l & -> & _). eauto. }
  unfold bind at 1. cbn [ret]. change (w_tbl (tick (tick w))) with (w_tbl w).
  change (fold_left _ (map_range (t_schedules st)) _) with (load1 (w_tbl w)).
  set (w5 := tick _). destruct (verify_users_ok (w_tbl w) (load1 (w_tbl w)) w5) as (m2 & w6 & E & Et & Em & HE);
    [by apply load1_loaded|].
  unfold bind at 1. rewrite E, bind_query, Et. change (w_tbl w5) with (w_tbl w).
  change (fold_left _ (SchedMgrOnCall (w_tbl w)) m2) with (load2 (w_tbl w) m2).
  destruct (loadStaffing_ok (w_tbl w) (load2 (w_tbl w) m2) (tick w6) HD) as (m & w' & E' & Et' & Em' & HR').
  { by apply load2_entries. }
  exists m, w'. split; [exact E'|]. rewrite Et', Em'. cbn. by rewrite Et, Em.
Qed.

(** ** Writing *)

Definition closed (i : Z) (r : OnCallRow) : OnCallRow := mkOnCallRow (oc_schedule r) (oc_user r) (oc_start r) (Some i).

(** The open rows of the users [l] are closed, one after the other. *)
Definition close_rows (s : UUID) (l : list UUID) (rows : list OnCallRow) : list OnCallRow :=
  fold_left (fun rows u => map (fun r => if is_open s u r then closed now r else r) rows) l rows.

Lemma close_rows_cons s u l rows :
  close_rows s (u :: l) rows = close_rows s l (map (fun r => if is_open s u r then closed now r else r) rows).
Proof. done. Qed.

Lemma is_open_iff s u r : is_open s u r = true <-> oc_schedule r = s /\ oc_user r = u /\ oc_end r = None.
Proof. clear Hno stmt_err off. unfold is_open. rewrite !andb_true_iff, bool_decide_eq_true, !Z.eqb_eq. tauto. Qed.

Lemma close_rows_open s l : forall rows r, oc_end r = None ->
  r ∈ close_rows s l rows <-> r ∈ rows /\ (oc_schedule r = s -> oc_user r ∉ l).
Proof.
  clear Hno stmt_err off.
  induction l as [|u l IH]; intros rows r Hr; [cbn [close_rows fold_left]|rewrite close_rows_cons].
  { split; [|tauto]. intros Hin. split; [done|]. intros _. apply not_elem_of_nil. }
  rewrite IH by done. rewrite list_elem_of_fmap.
  assert ((exists y, r = (if is_open s u y then closed now y else y) /\ y ∈ rows) <->
    r ∈ rows /\ is_open s u r = false) as ->.
  { split.
    - intros (y & E & Hy). destruct (is_open s u y) eqn:Ey; [by subst r|]. by subst y.
    - intros [Hin Ho]. exists r. by rewrite Ho. }
  rewrite <- not_true_iff_false, is_open_iff, not_elem_of_cons. tauto.
Qed.

(** The open rows of closed rows are rows. *)
Lemma while_there_ok (f : UUID -> M unit) (g : UUID -> Tables Raw -> Tables Raw) l : forall (w : World Raw),
  (forall u l1 l2 w', l = l1 ++ u :: l2 -> w_tbl w' = fold_left (fun t u => g u t) l1 (w_tbl w) -> w_mem w' = w_mem w ->
     exists w'', f u w' = (Ok tt, w'') /\ w_tbl w'' = g u (w_tbl w') /\ w_mem w'' = w_mem w') ->
  exists w', while_there f l w = (Ok true, w') /\
    w_tbl w' = fold_left (fun t u => g u t) l (w_tbl w) /\ w_mem w' = w_mem w.
Proof.
  induction l as [|u l IH]; intros w Hf; cbn [while_there fold_left]; [by exists w|].
  destruct (Hf u [] l w eq_refl eq_refl eq_refl) as (w1 & E & Et & Em).
  unfold bind, unless_deleted. rewrite E. destruct (IH w1) as (w' & E' & Et' & Em').
  { intros u' l1 l2 w' El Ew Emw. apply (Hf u' (u :: l1) l2); [by rewrite El|by rewrite Ew, Et|congruence]. }
  exists w'. split; [exact E'|]. by rewrite Et', Em', Et, Em.
Qed.

Lemma starts_ok s l (w : World Raw) : known s -> NoDup l ->
  (forall u, u ∈ l -> u ∈ t_users st /\ u ∉ opens (w_tbl w) s) ->
  exists w', while_there (fun u => exec stmt_err (SchedMgrStartOnCall st tx_now s u)) l w = (Ok true, w') /\
    w_tbl w' = set_oncall (t_oncall (w_tbl w) ++ map (fun u => mkOnCallRow s u now None) l) (w_tbl w) /\
    w_mem w' = w_mem w.
Proof using Hno.
  intros Hs HN Hl.
  set (g := fun u (t : Tables Raw) => set_oncall (t_oncall t ++ [mkOnCallRow s u now None]) t).
  assert (forall l1 t, fold_left (fun t u => g u t) l1 t =
    set_oncall (t_oncall t ++ map (fun u => mkOnCallRow s u now None) l1) t) as Hg.
  { induction l1 as [|u l1 IH]; intros t; cbn [fold_left map]; [rewrite app_nil_r; by destruct t|].
    rewrite IH. unfold g, set_oncall. cbn. by rewrite <- app_assoc. }
  destruct (while_there_ok (fun u => exec stmt_err (SchedMgrStartOnCall st tx_now s u)) g l w) as (w' & E & Et & Em).
  2:{ exists w'. by rewrite Et, Hg. }
  intros u l1 l2 w' El Ew Em. rewrite Hg in Ew.
  assert (u ∈ l) as Hu by (rewrite El; apply elem_of_app; right; by left). destruct (Hl u Hu) as [Huser Hopen].
  exists (set_tbl (g u (w_tbl w')) (tick w')). split; [|done]. apply exec_result.
  unfold SchedMgrStartOnCall. rewrite bool_decide_eq_true_2 by done. cbn [negb].
  unfold schedule_exists. rewrite bool_decide_eq_true_2 by done. cbn [negb].
  destruct (existsb _ _) eqn:EX; [exfalso|done]. apply existsb_exists in EX as (r & Hr & Ho).
  apply list_elem_of_In in Hr. apply is_open_iff in Ho as (E1 & E2 & E3).
  rewrite Ew in Hr. cbn in Hr. apply elem_of_app in Hr as [Hr|Hr].
  - apply Hopen. unfold opens. apply elem_of_list_to_set, list_elem_of_fmap. exists (s, u). split; [done|].
    apply elem_of_filter_bool. split; [|apply Z.eqb_refl]. apply SchedMgrOnCall_elem. by exists r.
  - apply list_elem_of_fmap in Hr as (u' & -> & Hu'). cbn in E2. subst u'.
    rewrite El, NoDup_app in HN. destruct HN as (_ & HN & _). apply (HN u Hu'). by left.
Qed.

Lemma stops_ok s l (w : World Raw) :
  (forall r, r ∈ t_oncall (w_tbl w) -> oc_end r = None -> oc_schedule r = s -> oc_user r ∈ l -> oc_start r < now) ->
  exists w', while_there (fun u => exec stmt_err (SchedMgrEndOnCall tx_now s u)) l w = (Ok true, w') /\
    w_tbl w' = set_oncall (close_rows s l (t_oncall (w_tbl w))) (w_tbl w) /\ w_mem w' = w_mem w.
Proof using Hno.
  intros Hl.
  set (g := fun u (t : Tables Raw) =>
    set_oncall (map (fun r => if is_open s u r then closed now r else r) (t_oncall t)) t).
  assert (forall l1 t, fold_left (fun t u => g u t) l1 t = set_oncall (close_rows s l1 (t_oncall t)) t) as Hg.
  { induction l1 as [|u l1 IH]; intros t; cbn [fold_left close_rows]; [by destruct t|]. by rewrite IH. }
  destruct (while_there_ok (fun u => exec stmt_err (SchedMgrEndOnCall tx_now s u)) g l w) as (w' & E & Et & Em).
  2:{ exists w'. by rewrite Et, Hg. }
  intros u l1 l2 w' El Ew Em. rewrite Hg in Ew.
  assert (u ∈ l) as Hu by (rewrite El; apply elem_of_app; right; by left).
  exists (set_tbl (g u (w_tbl w')) (tick w')). split; [|done]. apply exec_result. unfold SchedMgrEndOnCall.
  destruct (existsb _ _) eqn:EX; [exfalso|done]. apply existsb_exists in EX as (r & Hr & Ho).
  apply list_elem_of_In in Hr. apply andb_true_iff in Ho as [Ho Hlt]. bprop.
  apply is_open_iff in Ho as (E1 & E2 & E3). rewrite Ew in Hr. cbn in Hr.
  apply close_rows_open in Hr as [Hr _]; [|done]. subst u. specialize (Hl r Hr E3 E1 Hu). lia.
Qed.

Lemma messages_ok s l : forall (w : World Raw), known s -> (forall c, c ∈ l -> c ∈ t_channels st) ->
  exists w', each (fun c => unless_deleted (exec stmt_err (SchedMgrInsertMessage st c s)) ;;; ret tt) l w = (Ok tt, w') /\
    w_tbl w' = set_messages (t_messages (w_tbl w) ++ map (fun c => (c, s)) l) (w_tbl w) /\ w_mem w' = w_mem w.
Proof using Hno.
  induction l as [|c l IH]; intros w Hs Hl; cbn [each map].
  { exists w. rewrite app_nil_r. by destruct (w_tbl w). }
  set (t := set_messages (t_messages (w_tbl w) ++ [(c, s)]) (w_tbl w)).
  assert (exec stmt_err (SchedMgrInsertMessage st c s) w = (Ok tt, set_tbl t (tick w))) as E.
  { apply exec_result. unfold SchedMgrInsertMessage. rewrite bool_decide_eq_true_2 by (apply Hl; by left).
    unfold schedule_exists. by rewrite bool_decide_eq_true_2. }
  destruct (IH (set_tbl t (tick w)) Hs) as (w' & E' & Et' & Em'); [intros c' Hc; apply Hl; by right|].
  exists w'. split; [|rewrite Et'; cbn; by rewrite <- app_assoc].
  unfold bind at 1. unfold bind at 1. unfold unless_deleted. rewrite E. exact E'.
Qed.

(** ** One schedule *)

Lemma opens_elem (t : Tables Raw) s u :
  u ∈ opens t s <-> exists r, r ∈ t_oncall t /\ oc_end r = None /\ oc_schedule r = s /\ oc_user r = u.
Proof.
  unfold opens. rewrite elem_of_list_to_set, list_elem_of_fmap. rewrite <- SchedMgrOnCall_elem. split.
  - intros ([s' u'] & -> & Hin). apply elem_of_filter_bool in Hin as [Hin E]. cbn in *. bprop. by subst.
  - intros Hin. exists (s, u). split; [done|]. apply elem_of_filter_bool. split; [done|apply Z.eqb_refl].
Qed.

(** The users on call change. *)
Definition changes (t : Tables Raw) (s : UUID) : Prop := ~ forall u, u ∈ opens t s <-> should t s u.

(** The channel [c] is to be notified for the schedule [s]. *)
Definition notify (t : Tables Raw) (s c : UUID) : Prop :=
  ex_in (fun q => ChannelID q = c /\
    match ocTime q with
    | None => changes t s
    | Some _ => exists next, NextNotification q = Some next /\ inst next <= now
    end) (OnCallNotificationRules (data_of t s)).

Definition here (s : UUID) : Time := In_ tx_now (default UTC (zone_of s)).

(** [t'] is [t] with the schedule [s] brought up to date, as seen from [t0]. *)
Record updated (t0 : Tables Raw) (s : UUID) (t t' : Tables Raw) : Prop := {
  up_opens : forall u, u ∈ opens t' s <-> should t0 s u;
  up_rows : forall r, oc_end r = None -> oc_schedule r <> s -> r ∈ t_oncall t' <-> r ∈ t_oncall t;
  up_data : same_data (refreshed (here s) (data_of t0 s)) (data_of t' s);
  up_docs : is_Some (t_data t' !! s) -> is_Some (t_data t !! s);
  up_data_other : forall s', s' <> s -> t_data t' !! s' = t_data t !! s';
  up_messages : exists l, t_messages t' = t_messages t ++ map (fun c => (c, s)) l /\
    NoDup l /\ forall c, c ∈ l <-> notify t0 s c;
  up_migrated : t_migrated t' = t_migrated t
}.

(** The schedule [s] has not been processed yet. *)
Record untouched (t0 : Tables Raw) (s : UUID) (t : Tables Raw) : Prop := {
  un_opens : opens t s = opens t0 s;
  un_rows : forall r, r ∈ t_oncall t -> oc_end r = None -> oc_schedule r = s -> oc_start r < now;
  un_data : t_data t !! s = t_data t0 !! s
}.

Lemma should_info t0 s missing eligible u : db_ok t0 -> missing_ok missing ->
  (forall u, u ∈ eligible <-> on_call_now (off s) now (info_for t0 s missing None) u /\ affiliated s u) ->
  should_be_on_call (off s) now (info_for t0 s missing (Some eligible)) u <-> should t0 s u.
Proof.
  intros HD Hmiss Hel. unfold should_be_on_call, should. cbn [EligibleUsers info_for]. rewrite Hel.
  change (on_call_now (off s) now (info_for t0 s missing (Some eligible)) u)
    with (on_call_now (off s) now (info_for t0 s missing None) u).
  assert (affiliated s u -> on_call_now (off s) now (info_for t0 s missing None) u <-> scheduled t0 s u) as HE; [|tauto].
  intros [Ha _]. apply (db_users t0 HD) in Ha. unfold on_call_now, scheduled. cbn.
  assert (match missing with Some x => u ∉ x | None => True end) as Hm; [|tauto].
  destruct missing as [x|]; [|done]. intros Hx. by apply (Hmiss u Hx).
Qed.

(** What is computed for a schedule, in terms of the database. *)
Lemma calc_db t0 s missing eligible : db_ok t0 -> known s -> missing_ok missing ->
  (forall u, u ∈ eligible <-> on_call_now (off s) now (info_for t0 s missing None) u /\ affiliated s u) ->
  exists r, calcUpdates (info_for t0 s missing (Some eligible)) tx_now = Some (Some r) /\
    (forall u, u ∈ UsersToStart r <-> should t0 s u /\ u ∉ opens t0 s) /\
    (forall u, u ∈ UsersToStop r <-> u ∈ opens t0 s /\ ~ should t0 s u) /\
    (forall c, c ∈ NotificationChannels r <-> notify t0 s c) /\
    (forall u, should t0 s u \/ ~ should t0 s u) /\
    same_data (refreshed (here s) (data_of t0 s)) (saved_data (info_for t0 s missing (Some eligible)) r) /\
    (is_Some (NewRawScheduleData r) -> is_Some (t_data t0 !! s) /\
       existsb (stale (here s)) (OnCallNotificationRules (data_of t0 s)) = true).
Proof.
  intros HD Hs Hmiss Hel. destruct (info_for_ok t0 s missing (Some eligible) HD Hs) as (l & Hl & Ho & HI).
  assert (raw_ok (info_for t0 s missing (Some eligible))) as HRw.
  { unfold raw_ok. cbn. unfold data_of. destruct (t_data t0 !! s) as [raw|]; [|done]. cbn.
    destruct (json_Unmarshal raw); [by left|by right]. }
  destruct (calcUpdates_spec l (off s) _ tx_now Hl Ho HI HRw) as (S & r & E & HS & _ & Est & Esp & Ech & Hsv & Hraw).
  cbn [CurrentOnCall info_for default ScheduleData RawScheduleData] in *.
  assert (zone_of s = Some l) as Ez by exact (ok_zone l _ HI).
  assert (here s = In_ tx_now l) as Eh by (unfold here; by rewrite Ez). rewrite <- Eh in *.
  assert (forall u, u ∈ S <-> should t0 s u) as HS'.
  { intros u. rewrite HS. by apply should_info. }
  exists r. split; [done|]. split; [|split; [|split; [|split; [|done]]]].
  4: { intros u. rewrite <- HS'. destruct (decide (u ∈ S)); tauto. }
  - intros u. by rewrite Est, elem_of_difference, HS'.
  - intros u. by rewrite Esp, elem_of_difference, HS'.
  - intros c. rewrite Ech, elem_of_list_to_set, list_elem_of_fmap. unfold notify, ex_in.
    setoid_rewrite elem_of_filter_bool.
    assert (S <> opens t0 s <-> changes t0 s) as Hch.
    { unfold changes. split; intros HN HE; apply HN.
      - apply set_eq. intros u. by rewrite HS', HE.
      - intros u. by rewrite <- HE, HS'. }
    assert (forall q, fires (here s) (negb (bool_decide (S = opens t0 s))) q = true <->
      match ocTime q with
      | None => changes t0 s
      | Some _ => exists next, NextNotification q = Some next /\ inst next <= now
      end) as Hf.
    { intros q. unfold fires. destruct (ocTime q).
      - destruct (NextNotification q) as [next|]; [|split; [done|by intros (? & ? & _)]].
        unfold After. rewrite negb_true_iff, Z.ltb_ge. unfold here. cbn [In_ inst].
        split; [intros Hle; by exists next|by intros (? & [= <-] & ?)].
      - rewrite negb_true_iff, bool_decide_eq_false. exact Hch. }
    split.
    + intros (q & -> & Hq & Hfq). exists q. split; [done|]. split; [done|]. by apply Hf.
    + intros (q & Hq & <- & Hfq). exists q. split; [done|]. split; [done|]. by apply Hf.
Qed.

Lemma should_dec_user t0 s u : db_ok t0 -> should t0 s u -> u ∈ t_users st.
Proof. intros HD [_ [Ha _]]. by apply (db_users t0 HD) in Ha. Qed.

Lemma notify_channel t0 s c : db_ok t0 -> notify t0 s c -> c ∈ t_channels st.
Proof.
  intros HD (q & Hq & <- & _). pose proof (db_notify t0 HD s) as HF. rewrite Forall_forall in HF.
  by apply (HF q Hq).
Qed.

(** The document after the write, if there is one. *)
Lemma write_data_ok s (r : updateResult Raw) (w : World Raw) :
  exists w', match NewRawScheduleData r with
    | Some raw => unless_deleted (exec stmt_err (SchedMgrSetData s raw))
    | None => ret true
    end w = (Ok true, w') /\ w_mem w' = w_mem w /\
    w_tbl w' = match NewRawScheduleData r with
      | Some raw => set_data (alter (fun _ => raw) s (t_data (w_tbl w))) (w_tbl w)
      | None => w_tbl w
      end.
Proof using Hno.
  destruct (NewRawScheduleData r) as [raw|]; [|by exists w].
  exists (set_tbl (set_data (alter (fun _ => raw) s (t_data (w_tbl w))) (w_tbl w)) (tick w)).
  split; [|done]. unfold unless_deleted. by erewrite exec_result.
Qed.

(** The tables after the statements for a result. *)
Definition written (s : UUID) (r : updateResult Raw) (t : Tables Raw) : Tables Raw :=
  mkTables
    (match NewRawScheduleData r with Some raw => alter (fun _ => raw) s (t_data t) | None => t_data t end)
    (close_rows s (range_set (UsersToStop r))
      (t_oncall t ++ map (fun u => mkOnCallRow s u now None) (range_set (UsersToStart r))))
    (t_messages t ++ map (fun c => (c, s)) (range_set (NotificationChannels r)))
    (t_migrated t).

Lemma range_set_elem (S : gset UUID) u : u ∈ range_set S <-> u ∈ S.
Proof. by rewrite range_set_perm, elem_of_elements. Qed.

Lemma update_schedule_run s info r (w : World Raw) :
  calcUpdates info tx_now = Some (Some r) -> ui_ScheduleID info = s -> known s ->
  (forall u, u ∈ UsersToStart r -> u ∈ t_users st /\ u ∉ opens (w_tbl w) s) ->
  (forall x, x ∈ t_oncall (w_tbl w) -> oc_end x = None -> oc_schedule x = s -> oc_start x < now) ->
  (forall u, u ∈ UsersToStart r -> u ∉ UsersToStop r) ->
  (forall c, c ∈ NotificationChannels r -> c ∈ t_channels st) ->
  exists w', update_schedule st tx_now stmt_err info w = (Ok tt, w') /\
    w_mem w' = w_mem w /\ w_tbl w' = written s r (w_tbl w).
Proof using Hno.
  intros E <- Hs Hst Ur Hdj Hch. set (s := ui_ScheduleID info) in *.
  unfold update_schedule. rewrite E. unfold bind at 1. cbn [need]. fold s.
  destruct (starts_ok s (range_set (UsersToStart r)) w Hs) as (w1 & E1 & T1 & M1).
  { rewrite range_set_perm. apply NoDup_elements. }
  { intros u Hu. apply Hst. by apply range_set_elem. }
  destruct (stops_ok s (range_set (UsersToStop r)) w1) as (w2 & E2 & T2 & M2).
  { intros x Hx Hend Hsch Hu. rewrite T1 in Hx. cbn in Hx. apply elem_of_app in Hx as [Hx|Hx]; [by apply Ur|].
    apply list_elem_of_fmap in Hx as (u & -> & Hx). apply range_set_elem in Hx, Hu. by destruct (Hdj u). }
  destruct (write_data_ok s r w2) as (w3 & E3 & M3 & T3).
  destruct (messages_ok s (range_set (NotificationChannels r)) w3 Hs) as (w4 & E4 & T4 & M4).
  { intros c Hc. apply Hch. by apply range_set_elem. }
  exists w4. split.
  { rewrite (bind_ok _ _ _ _ _ E1). cbn [negb]. rewrite (bind_ok _ _ _ _ _ E2). cbn [negb].
    rewrite (bind_ok _ _ _ _ _ E3). exact E4. }
  split; [congruence|]. unfold written.
  rewrite T4, T3. destruct (NewRawScheduleData r); cbn; rewrite T2; cbn; by rewrite T1.
Qed.

Lemma written_opens s r t u :
  u ∈ opens (written s r t) s <-> (u ∈ opens t s \/ u ∈ UsersToStart r) /\ u ∉ UsersToStop r.
Proof.
  rewrite !opens_elem. cbn [written t_oncall]. split.
  - intros (x & Hx & Hend & Hsch & <-). apply close_rows_open in Hx as [Hx Hn]; [|done].
    rewrite range_set_elem in Hn. split; [|auto]. apply elem_of_app in Hx as [Hx|Hx]; [left; by exists x|right].
    apply list_elem_of_fmap in Hx as (u & -> & Hx). by apply range_set_elem in Hx.
  - intros [Hu Hn]. assert (exists x, x ∈ t_oncall t ++ map (fun u => mkOnCallRow s u now None)
      (range_set (UsersToStart r)) /\ oc_end x = None /\ oc_schedule x = s /\ oc_user x = u) as (x & Hx & Hend & Hsch & <-).
    { destruct Hu as [(x & Hx & Hr)|Hu]; [exists x; split; [apply elem_of_app; by left|done]|].
      exists (mkOnCallRow s u now None). split; [|done]. apply elem_of_app. right.
      apply list_elem_of_fmap. exists u. split; [done|]. by apply range_set_elem. }
    exists x. split; [|done]. apply close_rows_open; [done|]. split; [done|]. intros _. by rewrite range_set_elem.
Qed.

Lemma update_schedule_ok t0 s missing eligible (w : World Raw) :
  db_ok t0 -> known s -> missing_ok missing ->
  (forall u, u ∈ eligible <-> on_call_now (off s) now (info_for t0 s missing None) u /\ affiliated s u) ->
  untouched t0 s (w_tbl w) ->
  exists w', update_schedule st tx_now stmt_err (info_for t0 s missing (Some eligible)) w = (Ok tt, w') /\
    w_mem w' = w_mem w /\ updated t0 s (w_tbl w) (w_tbl w').
Proof using Hno.
  intros HD Hs Hmiss Hel [Uo Ur Ud].
  destruct (calc_db t0 s missing eligible HD Hs Hmiss Hel) as (r & E & Hst & Hsp & Hch & Hdec & Hsv & Hraw).
  destruct (update_schedule_run s (info_for t0 s missing (Some eligible)) r w E eq_refl Hs) as (w' & Ew & Em & Et);
    [|exact Ur| | |].
  { intros u Hu. apply Hst in Hu as [Hu Hn]. rewrite Uo. split; [by eapply should_dec_user|done]. }
  { intros u Hu Hu'. apply Hst in Hu. apply Hsp in Hu'. tauto. }
  { intros c Hc. apply Hch in Hc. by eapply notify_channel. }
  exists w'. split; [done|]. split; [done|]. rewrite Et. split.
  - intros u. rewrite written_opens, Uo, Hst, Hsp.
    destruct (decide (u ∈ opens t0 s)), (Hdec u); tauto.
  - intros x Hend Hne. cbn [written t_oncall]. rewrite close_rows_open, elem_of_app by done. split; [|tauto].
    intros [[Hx|Hx] _]; [done|]. by apply list_elem_of_fmap in Hx as (u & -> & _).
  - assert (data_of (written s r (w_tbl w)) s = saved_data (info_for t0 s missing (Some eligible)) r) as ->; [|done].
    unfold data_of, saved_data. cbn [written t_data]. destruct (NewRawScheduleData r) as [raw|].
    + destruct (Hraw ltac:(by eexists)) as [[raw0 Eraw] _]. rewrite lookup_alter_eq, Ud, Eraw. done.
    + cbn. unfold data_of. by rewrite Ud.
  - cbn [written t_data]. destruct (NewRawScheduleData r) as [raw|]; [|done]. by rewrite lookup_alter_eq, fmap_is_Some.
  - intros s' Hne. cbn [written t_data]. destruct (NewRawScheduleData r) as [raw|]; [|done]. by rewrite lookup_alter_ne.
  - exists (range_set (NotificationChannels r)). split; [done|]. split; [rewrite range_set_perm; apply NoDup_elements|].
    intros c. by rewrite range_set_elem.
  - done.
Qed.

(** ** All schedules *)

(** The schedules [ks] are still to be processed. *)
Record progress (t0 : Tables Raw) (ks : list UUID) (t : Tables Raw) : Prop := {
  pr_todo : forall s, s ∈ ks -> untouched t0 s t;
  pr_opens : forall s u, known s -> s ∉ ks -> u ∈ opens t s <-> should t0 s u;
  pr_data : forall s, known s -> s ∉ ks -> same_data (refreshed (here s) (data_of t0 s)) (data_of t s);
  pr_messages : exists news, t_messages t = t_messages t0 ++ news /\ NoDup news /\
    forall c s, (c, s) ∈ news <-> known s /\ s ∉ ks /\ notify t0 s c;
  pr_migrated : t_migrated t = t_migrated t0
}.

Lemma opens_other t t' s s' : s' <> s ->
  (forall r, oc_end r = None -> oc_schedule r <> s -> r ∈ t_oncall t' <-> r ∈ t_oncall t) ->
  opens t' s' = opens t s'.
Proof.
  intros Hne Hr. apply set_eq. intros u. rewrite !opens_elem.
  split; intros (x & Hx & He & Hs & Hu); exists x; (split; [|done]); apply Hr; congruence.
Qed.

Lemma updated_untouched t0 s s' t t' : s' <> s -> updated t0 s t t' -> untouched t0 s' t -> untouched t0 s' t'.
Proof.
  intros Hne HU [Uo Ur Ud]. pose proof (up_rows _ _ _ _ HU) as Hr. split.
  - by rewrite (opens_other t t' s s' Hne Hr).
  - intros r Hin He Hs. apply Ur; [|done|done]. apply (Hr r He); [congruence|done].
  - by rewrite (up_data_other _ _ _ _ HU s' Hne).
Qed.

Lemma NoDup_messages (l : list UUID) (s : UUID) (news : list (UUID * UUID)) :
  NoDup news -> NoDup l -> (forall c, (c, s) ∉ news) -> NoDup (news ++ map (fun c => (c, s)) l).
Proof.
  intros HN HL Hno'. apply NoDup_app. split; [done|]. split.
  - intros [c k] Hin Hin'. apply list_elem_of_fmap in Hin' as (c' & [= -> ->] & _). by apply (Hno' c').
  - clear -HL. induction HL as [|c l Hc HL IH]; cbn [map]; constructor; [|done].
    intros Hin. apply list_elem_of_fmap in Hin as (c' & [= <-] & Hin). done.
Qed.

Lemma progress_step t0 s ks t t' : known s -> s ∉ ks ->
  progress t0 (s :: ks) t -> updated t0 s t t' -> progress t0 ks t'.
Proof.
  intros Hs Hnk HP HU. split.
  - intros s' Hin. eapply updated_untouched; [|exact HU|apply (pr_todo _ _ _ HP); by right].
    intros ->. done.
  - intros s' u Hk Hn. destruct (decide (s' = s)) as [->|Hne]; [apply (up_opens _ _ _ _ HU)|].
    rewrite (opens_other t t' s s' Hne (up_rows _ _ _ _ HU)). apply (pr_opens _ _ _ HP); [done|].
    by apply not_elem_of_cons.
  - intros s' Hk Hn. destruct (decide (s' = s)) as [->|Hne]; [apply (up_data _ _ _ _ HU)|].
    assert (data_of t' s' = data_of t s') as ->.
    { unfold data_of. by rewrite (up_data_other _ _ _ _ HU s' Hne). }
    apply (pr_data _ _ _ HP); [done|]. by apply not_elem_of_cons.
  - destruct (pr_messages _ _ _ HP) as (news & En & HN & Hnews).
    destruct (up_messages _ _ _ _ HU) as (l & El & HL & Hl).
    exists (news ++ map (fun c => (c, s)) l). split; [by rewrite El, En, app_assoc|]. split.
    + apply NoDup_messages; [done|done|]. intros c Hc. apply Hnews in Hc as (_ & Hc & _). apply Hc. by left.
    + intros c s'. rewrite elem_of_app, Hnews, list_elem_of_fmap, not_elem_of_cons. split.
      * intros [(H1 & [H2 H3] & H4)|(c' & [= -> ->] & Hc)]; [done|]. by rewrite <- Hl.
      * intros (Hk & Hn & Hc). destruct (decide (s' = s)) as [->|Hne]; [right|by left].
        exists c. split; [done|]. by apply Hl.
  - rewrite (up_migrated _ _ _ _ HU). apply (pr_migrated _ _ _ HP).
Qed.

Lemma schedules_ok t0 (l : list (UUID * updateInfo Raw)) : forall (w : World Raw), db_ok t0 ->
  NoDup (map fst l) ->
  (forall s info, (s, info) ∈ l -> known s /\ exists missing eligible, missing_ok missing /\
     info = info_for t0 s missing (Some eligible) /\
     forall u, u ∈ eligible <-> on_call_now (off s) now (info_for t0 s missing None) u /\ affiliated s u) ->
  progress t0 (map fst l) (w_tbl w) ->
  exists w', each (fun '(_, info) => update_schedule st tx_now stmt_err info) l w = (Ok tt, w') /\
    w_mem w' = w_mem w /\ progress t0 [] (w_tbl w').
Proof using Hno.
  induction l as [|[s info] l IH]; intros w HD HN Hl HP; cbn [each map fst] in *; [by exists w|].
  destruct (Hl s info ltac:(by left)) as (Hs & missing & eligible & Hmiss & -> & Hel).
  destruct (update_schedule_ok t0 s missing eligible w HD Hs Hmiss Hel) as (w1 & E & Em & HU);
    [apply (pr_todo _ _ _ HP); by left|].
  apply NoDup_cons in HN as [Hn HN].
  destruct (IH w1 HD HN) as (w' & E' & Em' & HP'); [intros; apply Hl; by right|by eapply progress_step|].
  exists w'. split; [|by rewrite Em', Em]. by rewrite (bind_ok _ _ _ _ _ E).
Qed.

Lemma progress_start t0 ks : db_ok t0 -> (forall s, known s -> s ∈ ks) -> progress t0 ks t0.
Proof.
  intros HD Hks. split.
  - intros s Hs. split; [done| |done]. intros r Hr He Es. by apply (db_open t0 HD r Hr He).
  - intros s u Hk Hn. by destruct (Hn (Hks s Hk)).
  - intros s Hk Hn. by destruct (Hn (Hks s Hk)).
  - exists []. split; [by rewrite app_nil_r|]. split; [constructor|]. intros c s. split; [by intros ?%elem_of_nil|].
    intros (Hk & Hn & _). by destruct (Hn (Hks s Hk)).
  - done.
Qed.

Lemma ready_rows t0 m : ready t0 m -> NoDup (map fst (map_range m)) /\ (forall s, known s -> s ∈ map fst (map_range m)) /\
  forall s info, (s, info) ∈ map_range m -> known s /\ exists missing eligible, missing_ok missing /\
     info = info_for t0 s missing (Some eligible) /\
     forall u, u ∈ eligible <-> on_call_now (off s) now (info_for t0 s missing None) u /\ affiliated s u.
Proof.
  intros [Hd He]. split; [|split].
  - rewrite (map_range_perm m). apply NoDup_fst_map_to_list.
  - intros s Hs. destruct (He s Hs) as (? & ? & _ & E & _). eapply (list_elem_of_fmap_2' fst); [|].
    + apply map_range_elem. exact E.
    + done.
  - intros s info Hin. apply map_range_elem in Hin. assert (known s) as Hs by (apply Hd; by exists info).
    split; [done|]. destruct (He s Hs) as (missing & eligible & Hmiss & E & Hel). rewrite Hin in E.
    injection E as ->. by exists missing, eligible.
Qed.

Lemma update_ok (w : World Raw) : db_ok (w_tbl w) -> t_migrated (w_tbl w) = true ->
  forall expired, exists w', update LoadLocation st tx_now stmt_err expired w = (Ok tt, w') /\
    w_mem w' = w_mem w /\ progress (w_tbl w) [] (w_tbl w').
Proof using Hno.
  intros HD Hmig expired. set (t0 := w_tbl w). unfold update, call. rewrite bind_query. unfold update_body.
  rewrite bind_query. change (w_tbl (tick w)) with t0. unfold t0 at 1. rewrite Hmig, bind_ret. cbn [negb].
  destruct (load_ok (tick (tick w)) HD) as (m & w1 & E1 & T1 & M1 & HRd).
  change (w_tbl (tick (tick w))) with t0 in *. destruct (ready_rows t0 m HRd) as (HN & Hks & Hrows).
  rewrite (bind_ok _ _ _ _ _ E1).
  destruct (schedules_ok t0 (map_range m) w1 HD HN Hrows) as (w2 & E2 & M2 & HP).
  { rewrite T1. by apply progress_start. }
  rewrite (bind_ok _ _ _ _ _ E2). unfold call, query. rewrite Hno. exists (tick w2). split; [done|].
  split; [|done]. cbn. by rewrite M2, M1.
Qed.

Lemma saved_up_to_date t0 s t : db_ok t0 -> known s ->
  same_data (refreshed (here s) (data_of t0 s)) (data_of t s) ->
  Forall (up_to_date (off s) now) (OnCallNotificationRules (data_of t s)).
Proof.
  intros HD Hs [_ Hsame]. destruct (info_for_ok t0 s None None HD Hs) as (l & Hl & _ & HI).
  assert (here s = In_ tx_now l) as Eh by (unfold here; by rewrite (ok_zone l _ HI : zone_of s = Some l)).
  pose proof (ok_rules l _ HI) as Hw. cbn [ScheduleData info_for] in Hw.
  assert (Forall (up_to_date (off s) now) (map (refresh (here s)) (OnCallNotificationRules (data_of t0 s)))) as Hr.
  { rewrite Eh. clear -Hw Hl. induction Hw; constructor; [|done]. by apply (refresh_up_to_date l (off s) (In_ tx_now l)). }
  cbn [refreshed set_OnCallNotificationRules OnCallNotificationRules] in Hsame.
  clear -Hr Hsame. induction Hsame as [|q q' qs qs' Hq _ IH]; [constructor|].
  inversion Hr; subst. constructor; [by eapply up_to_date_same|auto].
Qed.


(** ** A quiet update *)

(** Nothing has happened since [i0]. *)
Definition quiet (i0 : Z) (t : Tables Raw) : Prop :=
  forall s, known s -> (forall u, u ∈ opens t s <-> should t s u) /\
    Forall (fun q => up_to_date (off s) i0 q /\ forall i, i0 < i <= now -> ~ due (off s) q i)
      (OnCallNotificationRules (data_of t s)).

Lemma quiet_rule l o i0 q : fixed_at l o -> wf_oc_rule q -> i0 <= now -> up_to_date o i0 q ->
  (forall i, i0 < i <= now -> ~ due o q i) ->
  stale (In_ tx_now l) q = false /\
  forall c, ocTime q = Some c -> ~ exists next, NextNotification q = Some next /\ inst next <= now.
Proof.
  intros Hl Hq Hi Hu Hnd. unfold stale, up_to_date in *. destruct (ocTime q) as [c|] eqn:ET; [|done].
  pose proof (nextOnCallNotification_spec l o (In_ tx_now l) q Hl eq_refl Hq) as HN. cbn [In_ inst] in HN.
  destruct (NextNotification q) as [t|] eqn:EX.
  - pose proof Hu as (Hd & Hlt & _).
    assert (now < inst t) as Hfut.
    { apply Z.nle_gt. intros Hle. by apply (Hnd (inst t)). }
    split; [|by intros c' _ (next & [= <-] & Hle); lia].
    destruct (nextOnCallNotification (In_ tx_now l) q) as [t'|]; [|by destruct (HN (inst t))].
    destruct HN as [_ HN]. pose proof (first_after_later _ _ _ _ Hu Hi Hfut) as HF.
    unfold equalTimePtr, EqualT. rewrite (first_after_unique _ _ _ _ HF HN), Z.eqb_refl. done.
  - split; [|by intros c' _ (next & [=] & _)].
    destruct (nextOnCallNotification (In_ tx_now l) q) as [t'|]; [|done].
    destruct HN as (_ & Hd & _). by destruct (Hu (inst t')).
Qed.

Lemma quiet_schedule i0 t0 s missing eligible (w : World Raw) :
  i0 <= now -> db_ok t0 -> known s -> missing_ok missing ->
  (forall u, u ∈ eligible <-> on_call_now (off s) now (info_for t0 s missing None) u /\ affiliated s u) ->
  quiet i0 t0 -> w_tbl w = t0 ->
  exists w', update_schedule st tx_now stmt_err (info_for t0 s missing (Some eligible)) w = (Ok tt, w') /\
    w_tbl w' = t0.
Proof using Hno.
  intros Hi HD Hs Hmiss Hel HQ Ew. destruct (HQ s Hs) as [HQo HQr].
  destruct (calc_db t0 s missing eligible HD Hs Hmiss Hel) as (r & E & Hst & Hsp & Hch & _ & _ & Hraw).
  destruct (info_for_ok t0 s None None HD Hs) as (l & Hl & _ & HI).
  assert (here s = In_ tx_now l) as Eh by (unfold here; by rewrite (ok_zone l _ HI : zone_of s = Some l)).
  pose proof (ok_rules l _ HI) as Hw. cbn [ScheduleData info_for] in Hw.
  assert (forall q, q ∈ OnCallNotificationRules (data_of t0 s) -> stale (here s) q = false /\
    forall c, ocTime q = Some c -> ~ exists next, NextNotification q = Some next /\ inst next <= now) as Hrule.
  { intros q Hq. rewrite Forall_forall in HQr, Hw. destruct (HQr q Hq). rewrite Eh.
    by eapply (quiet_rule l (off s) i0); [|apply Hw| | |]. }
  assert (UsersToStart r = ∅) as Est.
  { apply elem_of_equiv_empty_L. intros u Hu. apply Hst in Hu as [Hu Hn]. apply Hn, HQo, Hu. }
  assert (UsersToStop r = ∅) as Esp.
  { apply elem_of_equiv_empty_L. intros u Hu. apply Hsp in Hu as [Hu Hn]. apply Hn, HQo, Hu. }
  assert (NotificationChannels r = ∅) as Ech.
  { apply elem_of_equiv_empty_L. intros c Hc. apply Hch in Hc as (q & Hq & _ & Hc). destruct (Hrule q Hq) as [_ Hn].
    destruct (ocTime q) as [c'|] eqn:ET; [by apply (Hn c')|]. by apply Hc. }
  assert (NewRawScheduleData r = None) as Eraw.
  { destruct (NewRawScheduleData r) as [raw|]; [|done]. destruct (Hraw ltac:(by eexists)) as [_ HX].
    apply existsb_exists in HX as (q & Hq & Hqs). apply list_elem_of_In in Hq. destruct (Hrule q Hq). congruence. }
  assert (range_set (∅ : gset UUID) = []) as Er.
  { apply Permutation_nil. by rewrite range_set_perm, elements_empty. }
  exists w. split; [|done]. unfold update_schedule. rewrite E. unfold bind at 1. cbn [need].
  by rewrite Est, Esp, Ech, Eraw, !Er.
Qed.

(** An update to which nothing has happened since the last one, no change of
    who should be on call and no rule due, writes nothing: there are no repeated
    shifts and no repeated notifications. *)
Theorem quiet_update_writes_nothing i0 (w : World Raw) expired
  (HD : db_ok (w_tbl w)) (Hmig : t_migrated (w_tbl w) = true) (Hi : i0 <= now)
  (HQ : quiet i0 (w_tbl w)) :
  exists w', update LoadLocation st tx_now stmt_err expired w = (Ok tt, w') /\ w_tbl w' = w_tbl w.
Proof using Hno.
  set (t0 := w_tbl w) in *. unfold update, call. rewrite bind_query. unfold update_body.
  rewrite bind_query. change (w_tbl (tick w)) with t0. rewrite Hmig, bind_ret. cbn [negb].
  destruct (load_ok (tick (tick w)) HD) as (m & w1 & E1 & T1 & _ & HRd).
  change (w_tbl (tick (tick w))) with t0 in *. destruct (ready_rows t0 m HRd) as (_ & _ & Hrows).
  rewrite (bind_ok _ _ _ _ _ E1).
  assert (forall l w1, (forall x, x ∈ l -> x ∈ map_range m) -> w_tbl w1 = t0 ->
    exists w2, each (fun '(_, info) => update_schedule st tx_now stmt_err info) l w1 = (Ok tt, w2) /\
      w_tbl w2 = t0) as Heach.
  { clear -HD Hrows HQ Hi Hno. induction l as [|[s info] l IH]; intros w1 Hl Tw; cbn [each]; [by exists w1|].
    destruct (Hrows s info (Hl _ ltac:(by left))) as (Hs & missing & eligible & Hmiss & -> & Hel).
    destruct (quiet_schedule i0 t0 s missing eligible w1 Hi HD Hs Hmiss Hel HQ Tw) as (w2 & E & T2).
    rewrite (bind_ok _ _ _ _ _ E). apply IH; [|done]. intros x Hx. apply Hl. by right. }
  destruct (Heach (map_range m) w1) as (w2 & E2 & T2); [done|by rewrite T1|].
  rewrite (bind_ok _ _ _ _ _ E2). unfold call, query. rewrite Hno. by exists (tick w2).
Qed.
End no_errors.
End cycle.

(** ** When calls fail *)

Section failures.
Context `{UUIDText} {Raw : Type} `{ScheduleJSON Raw} {HR : GoMapRange}.
Context (LoadLocation : string -> option Location) (st : Static) (tx_now : Time).
Context (stmt_err : nat -> option DBError) (expired : nat -> bool).

(** A cycle that succeeds ends with its commit. *)
Lemma update_ends_with_commit (w w' : World Raw) :
  update LoadLocation st tx_now stmt_err expired w = (Ok tt, w') ->
  exists n, w_calls w' = S n /\ stmt_err n = None.
Proof.
  assert (forall w1 w2 : World Raw, call stmt_err w1 = (Ok tt, w2) ->
    exists n, w_calls w2 = S n /\ stmt_err n = None) as Hcall.
  { intros w1 w2. unfold call, query. destruct (stmt_err (w_calls w1)) eqn:E; [done|].
    intros [= <-]. by exists (w_calls w1). }
  unfold update. destruct (bind _ _ w) as [[[]|e|] w1] eqn:E; try done. intros [= <-].
  apply bind_inv in E as (_ & w2 & _ & E). unfold update_body in E.
  apply bind_inv in E as (mig & w3 & _ & E). apply bind_inv in E as (go & w4 & _ & E).
  destruct (negb go); [by eapply Hcall|].
  apply bind_inv in E as (m & w5 & _ & E). apply bind_inv in E as (_ & w6 & _ & E). by eapply Hcall.
Qed.

(** PostgreSQL refuses every statement of a transaction after a failed one, the
    commit too.  So an update that succeeds had no failing call: the statements
    that are skipped because their schedule was deleted fail the whole update. *)
Lemma skipped_statements_fail_the_update (w w' : World Raw) :
  (forall k n, (k < n)%nat -> stmt_err k <> None -> stmt_err n <> None) ->
  update LoadLocation st tx_now stmt_err expired w = (Ok tt, w') ->
  forall k, (k < w_calls w')%nat -> stmt_err k = None.
Proof.
  intros Habort E k Hk. destruct (update_ends_with_commit w w' E) as (n & En & Hn).
  destruct (stmt_err k) eqn:Ek; [|done]. destruct (decide (k = n)) as [->|]; [congruence|].
  exfalso. apply (Habort k n); [lia|by rewrite Ek|done].
Qed.
End failures.

(** ** A small database *)

#[local] Existing Instance nibble_uuid.
#[local] Existing Instance plain_json.
#[local] Existing Instance ordered_map_range.

(** User 10 belongs to the organization of schedule 1 and is on call there by a
    rule; user 11 is recorded as on call, and not any more. *)
Definition sample_static : Static :=
  mkStatic {[10; 11]} {[10 := 100]} {[1 := ("est"%string, 100)]}
    [mkRuleRow (fun u => mkRulesRow 1 true true true true true true true 0 0 u) (Some 10) None]
    ∅ ∅ [] {[7; 8]} {[7 := 8]}.

Definition sample_data (next : Time) : Data :=
  mkData [] [with_next (Some next) weekdays_at_nine; mkOCRule (mkRuleID 1 2 true) 8 None None None].

Definition sample_tables (u : UUID) (next : Time) : Tables Data :=
  mkTables {[1 := sample_data next]} [mkOnCallRow 1 u 0 None] [] true.

Definition sample_world (u : UUID) (next : Time) : World Data :=
  mkWorld (sample_tables u next) (mkMemory None None) 0.

Definition always_est (_ : string) : option Location := Some est.

Lemma sample_known s : known sample_static s <-> s = 1.
Proof.
  unfold known. cbn. split; [|intros ->; by rewrite lookup_singleton_eq].
  intros [x E]. by apply lookup_singleton_Some in E as [<- _].
Qed.

Lemma sample_data_of u next s :
  data_of (sample_tables u next) s = if decide (s = 1) then sample_data next else mkData [] [].
Proof.
  unfold data_of. cbn [sample_tables t_data]. destruct (decide (s = 1)) as [->|Hne].
  - by rewrite lookup_singleton_eq.
  - by rewrite lookup_singleton_ne.
Qed.

Lemma sample_db_ok t u next : 0 < inst t ->
  db_ok always_est sample_static t (fun _ => -18000) (sample_tables u next).
Proof.
  intros Ht. split.
  - intros s tz org _. exists est. split; [done|]. split; [apply fixed_zone_at|done].
  - intros r Hr. unfold SchedMgrRules in Hr. cbn in Hr. apply list_elem_of_singleton in Hr as ->.
    split; [by apply sample_known|done].
  - intros o Ho. by apply elem_of_nil in Ho.
  - intros s. split; constructor.
  - intros s raw E. cbn in E. apply lookup_singleton_Some in E as [<- _]. by apply sample_known.
  - intros s. rewrite sample_data_of. destruct (decide (s = 1)); split; constructor.
  - intros s. rewrite sample_data_of. destruct (decide (s = 1)); [|constructor].
    constructor; [split; [exact weekdays_at_nine_wf|apply elem_of_union; left; by apply elem_of_singleton]|].
    constructor; [split; [by split|apply elem_of_union; right; by apply elem_of_singleton]|constructor].
  - intros r Hr _. cbn in Hr. apply list_elem_of_singleton in Hr as ->. split; [by apply sample_known|done].
  - intros v org E. cbn in E. apply lookup_singleton_Some in E as [<- _]. apply elem_of_union. left.
    by apply elem_of_singleton.
Qed.

(** Friday, nine o'clock; Monday, nine o'clock. *)
Definition friday_at_nine : Time := mkTime (1700229600 * Second) UTC.
Definition monday_at_nine : Time := mkTime (1700488800 * Second) UTC.

Definition run_sample (t : Time) (w : World Data) : res DBError unit * World Data :=
  update always_est sample_static t (fun _ => None) (fun _ => false) w.


(** An hour later. *)
Definition friday_at_eleven : Time := mkTime (1700236800 * Second) est.

Lemma sample_should u : should sample_static friday_at_eleven (fun _ => -18000) (sample_tables 10 monday_at_nine) 1 u
  <-> u = 10.
Proof.
  unfold should, scheduled. rewrite sample_data_of. cbn [decide TempScheds sample_data]. split.
  - intros [_ [Ha _]]. cbn in Ha. by apply lookup_singleton_Some in Ha as [<- _].
  - intros ->. split; [|split; [cbn; apply lookup_singleton_eq|discriminate]]. right.
    split; [intros Hc; by apply ex_in_nil in Hc|]. right. right. split; [|intros Hc; by apply ex_in_nil in Hc].
    exists (everyone_always 10). split; [by left|]. split; [done|].
    apply (IsActive_spec est (-18000) (row_rule (everyone_always 10)) friday_at_eleven (fixed_zone_at _) eq_refl);
      [by apply row_rule_wf|done|vm_compute; reflexivity].
Qed.

Lemma sample_quiet : quiet sample_static friday_at_eleven (fun _ => -18000) (inst friday_at_ten)
  (sample_tables 10 monday_at_nine).
Proof.
  intros s Hs. apply sample_known in Hs as ->. split.
  - intros u. rewrite sample_should.
    assert (opens (sample_tables 10 monday_at_nine) 1 = {[10]}) as -> by (vm_compute; reflexivity).
    apply elem_of_singleton.
  - rewrite sample_data_of. cbn [decide]. pose proof (nextOnCallNotification_spec est (-18000) friday_at_ten
      weekdays_at_nine (fixed_zone_at _) eq_refl weekdays_at_nine_wf) as HN.
    assert (nextOnCallNotification friday_at_ten weekdays_at_nine = Some (mkTime (inst monday_at_nine) est)) as EN
      by (vm_compute; reflexivity).
    rewrite EN in HN. destruct HN as [_ HN]. constructor; [split; [exact HN|]|].
    + intros i Hi Hd. destruct HN as (_ & _ & Hmin). specialize (Hmin i Hd ltac:(lia)).
      revert Hi Hmin. unfold friday_at_eleven, monday_at_nine. cbn [inst]. unfold Second. lia.
    + constructor; [split; [done|]|constructor]. intros i _ Hd. exact Hd.
Qed.

Lemma quiet_update_writes_nothing_witness :
  exists w', run_sample friday_at_eleven (sample_world 10 monday_at_nine) = (Ok tt, w') /\
    w_tbl w' = sample_tables 10 monday_at_nine.
Proof.
  apply (quiet_update_writes_nothing always_est sample_static friday_at_eleven (fun _ => -18000)
    (fun _ => None) (fun _ => eq_refl) (inst friday_at_ten) (sample_world 10 monday_at_nine) (fun _ => false)
    (sample_db_ok friday_at_eleven 10 monday_at_nine eq_refl) eq_refl).
  - vm_compute. discriminate.
  - exact sample_quiet.
Defined.

(** ** A migration that is cut short *)

(** The channels of the rules stored for a schedule. *)
Definition stored_channels (w : World Data) (s : UUID) : list UUID :=
  map ChannelID (OnCallNotificationRules (data_of (w_tbl w) s)).

(** Channel 7 was merged into channel 8. *)
Definition unmigrated : World Data :=
  let d := mkData [] [mkOCRule (mkRuleID 1 2 true) 7 None None None] in
  mkWorld (mkTables {[1 := d; 2 := d]} [] [] false) (mkMemory None None) 0.

Definition two_schedules : Static :=
  mkStatic ∅ ∅ {[1 := ("est"%string, 100); 2 := ("est"%string, 100)]} [] ∅ ∅ [] {[7; 8]} {[7 := 8]}.

Definition run_migration (stmt_err : nat -> option DBError) (w : World Data) : res DBError unit * World Data :=
  update always_est two_schedules friday_at_ten stmt_err (fun _ => false) w.

(** Without errors both schedules are migrated. *)
Example migration_completes :
  let w := (run_migration (fun _ => None) unmigrated).2 in
  t_migrated (w_tbl w) = true /\ stored_channels w 1 = [8] /\ stored_channels w 2 = [8].
Proof. vm_compute. by split_and!. Qed.

(** Schedule 2 is migrated, then the read of schedule 1 fails: the transaction is
    undone, but schedule 2 stays off the list.  The next update migrates schedule
    1 and records that all are done. *)
Lemma migration_loses_a_schedule :
  let run := run_migration (fun n => if (n =? 6)%nat then Some OtherError else None) in
  let w1 := run unmigrated in
  let w2 := run w1.2 in
  w1.1 = Err OtherError /\ w2.1 = Ok tt /\ t_migrated (w_tbl w2.2) = true /\
  stored_channels w2.2 2 = [7] /\ stored_channels w2.2 1 = [8].
Proof. vm_compute. by split_and!. Qed.
