(* ===== verification/IDLocker.v ===== *)
(** * Locks per id: [ctxlock]

    [Lock] takes one of the slots of an id, fails when the queue is full, or
    queues a channel and waits for [Unlock] to receive from it or for its context
    to end.  The sections between taking and releasing the mutex are functions on
    the locker; the goroutines that call them interleave in the step relation, and
    any of them may call [Unlock] for any id at any time, as in the code.
    The channel of a call of [Lock] is named by the goroutine that made it. *)

From S2P Require Import Prelude.

(** ** The locker *)

(** [Timeout] ends the context of a waiting call, as its caller may. *)
Record Config := mkConfig { MaxHeld : Z; MaxWait : Z }.

(** [None] is the panic. *)
Definition newConfig (cfg : Config) : option Config :=
  let cfg := if MaxHeld cfg =? 0 then mkConfig 1 (MaxWait cfg) else cfg in
  if MaxHeld cfg <? 0 then None else Some cfg.

Section IDLocker.
Context {K : Type} `{Countable K}.

Record IDLocker := mkLocker { count : gmap K Z; queue : gmap K (list nat) }.

Definition NewIDLocker : IDLocker := mkLocker ∅ ∅.

Definition count_of (l : IDLocker) (id : K) : Z := default 0 (count l !! id).
Definition queue_of (l : IDLocker) (id : K) : list nat := default [] (queue l !! id).

(** [delete] keeps the map from growing. *)
Definition set_queue (id : K) (q : list nat) (m : gmap K (list nat)) : gmap K (list nat) :=
  match q with [] => delete id m | _ => <[id := q]> m end.

Inductive LockResult := Granted | QueueFull | Queued.

(** [Lock], up to its wait. *)
Definition lock_enter (cfg : Config) (id : K) (ch : nat) (l : IDLocker) : LockResult * IDLocker :=
  if count_of l id <? MaxHeld cfg then
    (Granted, mkLocker (<[id := count_of l id + 1]> (count l)) (queue l))
  else if negb (MaxWait cfg =? -1) && (MaxWait cfg <=? Z.of_nat (length (queue_of l id))) then
    (QueueFull, l)
  else (Queued, mkLocker (count l) (<[id := queue_of l id ++ [ch]]> (queue l))).

Fixpoint remove_ch (ch : nat) (q : list nat) : list nat :=
  match q with
  | [] => []
  | c :: q => if (c =? ch)%nat then q else c :: remove_ch ch q
  end.

(** The clean-up of a call whose context ended. *)
Definition abandon (id : K) (ch : nat) (l : IDLocker) : IDLocker :=
  mkLocker (count l) (set_queue id (remove_ch ch (queue_of l id)) (queue l)).

Inductive UnlockResult := Panics | Released (l : IDLocker) | Receives (ch : nat) (l : IDLocker).

(** One iteration of [Unlock], up to its receive. *)
Definition unlock_iter (id : K) (l : IDLocker) : UnlockResult :=
  match queue_of l id with
  | [] =>
      let n := count_of l id - 1 in
      if n <? 0 then Panics
      else Released (mkLocker (if n =? 0 then delete id (count l) else <[id := n]> (count l)) (queue l))
  | ch :: q => Receives ch (mkLocker (count l) (set_queue id q (queue l)))
  end.

(** ** Goroutines *)

(** Where a call of [Lock], or a call of [Unlock], is. *)
Inductive Phase :=
  | Waiting        (** in the [select] *)
  | Abandoned      (** the channel is closed, the clean-up is to be done *)
  | Holding        (** [Lock] returned nil *)
  | Failed         (** [Lock] returned an error *)
  | Unlocking      (** in [Unlock], receiving *)
  | Done.          (** [Unlock] returned *)

#[global] Instance Phase_eq_dec : EqDecision Phase.
Proof. solve_decision. Defined.

(** [receiving]: the mutex is held by an [Unlock] that waits at its receive. *)
Record Sys := mkSys {
  locker : IDLocker;
  threads : gmap nat (K * Phase);
  receiving : option (nat * K * nat)
}.

Definition init : Sys := mkSys NewIDLocker ∅ None.

Definition set_phase (t : nat) (id : K) (p : Phase) (s : Sys) : Sys :=
  mkSys (locker s) (<[t := (id, p)]> (threads s)) (receiving s).
Definition set_locker (l : IDLocker) (s : Sys) : Sys := mkSys l (threads s) (receiving s).
Definition set_receiving (r : option (nat * K * nat)) (s : Sys) : Sys := mkSys (locker s) (threads s) r.

(** What [Unlock] by [t] does next, with the mutex. *)
Definition after_iter (t : nat) (id : K) (s : Sys) : option Sys :=
  match unlock_iter id (locker s) with
  | Panics => None
  | Released l => Some (set_receiving None (set_phase t id Done (set_locker l s)))
  | Receives ch l => Some (set_receiving (Some (t, id, ch)) (set_phase t id Unlocking (set_locker l s)))
  end.

Definition phase_of (r : LockResult) : Phase :=
  match r with Granted => Holding | QueueFull => Failed | Queued => Waiting end.

(** [None] after a step is the panic of [Unlock], which ends the run. *)
Inductive step (cfg : Config) : Sys -> option Sys -> Prop :=
  | step_lock s t id r l :
      receiving s = None -> threads s !! t = None -> lock_enter cfg id t (locker s) = (r, l) ->
      step cfg s (Some (set_phase t id (phase_of r) (set_locker l s)))
  | step_context s t id :                (* the context ends, or the timeout *)
      threads s !! t = Some (id, Waiting) -> step cfg s (Some (set_phase t id Abandoned s))
  | step_cleanup s t id :
      receiving s = None -> threads s !! t = Some (id, Abandoned) ->
      step cfg s (Some (set_phase t id Failed (set_locker (abandon id t (locker s)) s)))
  | step_unlock s t id :                 (* whoever calls it, held or not *)
      receiving s = None -> threads s !! t = None -> step cfg s (after_iter t id s)
  | step_granted s t id ch :             (* the send of the waiting call *)
      receiving s = Some (t, id, ch) -> threads s !! ch = Some (id, Waiting) ->
      step cfg s (Some (set_receiving None (set_phase ch id Holding (set_phase t id Done s))))
  | step_closed s t id ch :              (* the receive from a closed channel *)
      receiving s = Some (t, id, ch) -> threads s !! ch = Some (id, Abandoned) ->
      step cfg s (after_iter t id s).

Inductive reach (cfg : Config) : Sys -> Prop :=
  | reach_init : reach cfg init
  | reach_step s s' : reach cfg s -> step cfg s (Some s') -> reach cfg s'.

(** ** Counting *)

(** A call of [Lock] that returned nil holds a slot, a call of [Unlock] gives one up
    from its start. *)
Definition weight (p : Phase) : Z := match p with Holding => 1 | Unlocking | Done => -1 | _ => 0 end.

Definition holds (id : K) (x : K * Phase) : Z := if bool_decide (x.1 = id) then weight x.2 else 0.

(** The calls of [Lock] for [id] that returned nil, without as many as [Unlock]
    was called for it. *)
Definition holders (id : K) (s : Sys) : Z := tally (holds id) (threads s).

(** ** The invariant *)

(** The slot that an [Unlock] at its receive is handing over. *)
Definition handing (id : K) (s : Sys) : Z :=
  match receiving s with Some (_, id', _) => if decide (id' = id) then 1 else 0 | None => 0 end.

(** The calls of [Lock] whose channel is in a queue or received from. *)
Definition pending (p : Phase) : Prop := p = Waiting \/ p = Abandoned.

Record inv (cfg : Config) (s : Sys) : Prop := {
  i_count : forall id, count_of (locker s) id = holders id s + handing id s;
  i_max : forall id, count_of (locker s) id <= MaxHeld cfg;
  i_pos : forall id n, count (locker s) !! id = Some n -> 0 < n;
  i_full : forall id q, queue (locker s) !! id = Some q -> q <> [] /\ count_of (locker s) id = MaxHeld cfg;
  i_len : forall id, MaxWait cfg <> -1 -> Z.of_nat (length (queue_of (locker s) id)) <= Z.max 0 (MaxWait cfg);
  i_nodup : forall id, NoDup (queue_of (locker s) id);
  i_queued : forall id c, c ∈ queue_of (locker s) id -> exists p, threads s !! c = Some (id, p) /\ pending p;
  i_waiting : forall id c, threads s !! c = Some (id, Waiting) ->
    c ∈ queue_of (locker s) id \/ exists t, receiving s = Some (t, id, c);
  i_receiving : forall t id c, receiving s = Some (t, id, c) ->
    threads s !! t = Some (id, Unlocking) /\ c ∉ queue_of (locker s) id /\
    exists p, threads s !! c = Some (id, p) /\ pending p;
  i_unlocking : forall t id, threads s !! t = Some (id, Unlocking) -> exists c, receiving s = Some (t, id, c);
  i_hand : forall t id c, receiving s = Some (t, id, c) -> 1 <= count_of (locker s) id
}.

Lemma queue_of_set id q m id' : default [] (set_queue id q m !! id') =
  if decide (id = id') then q else default [] (m !! id').
Proof.
  unfold set_queue. destruct (decide (id = id')) as [<-|Hne]; destruct q;
    rewrite ?lookup_delete_eq, ?lookup_insert_eq, ?lookup_delete_ne, ?lookup_insert_ne by done; done.
Qed.

Lemma set_queue_lookup id q m id' q' : set_queue id q m !! id' = Some q' ->
  (id = id' /\ q' = q /\ q <> []) \/ (id <> id' /\ m !! id' = Some q').
Proof.
  unfold set_queue. destruct (decide (id = id')) as [<-|Hne]; destruct q;
    rewrite ?lookup_delete_eq, ?lookup_insert_eq, ?lookup_delete_ne, ?lookup_insert_ne by done; naive_solver.
Qed.

Lemma count_of_insert id n m q id' : count_of (mkLocker (<[id := n]> m) q) id' =
  if decide (id = id') then n else default 0 (m !! id').
Proof.
  unfold count_of. cbn. destruct (decide (id = id')) as [<-|]; [by rewrite lookup_insert_eq|by rewrite lookup_insert_ne].
Qed.

Lemma init_inv cfg : 1 <= MaxHeld cfg -> inv cfg init.
Proof.
  intros Hc. split; cbn; intros; try (rewrite lookup_empty in *; done); unfold count_of, queue_of in *; cbn;
    rewrite ?lookup_empty; cbn; try lia; try done; try constructor.
  by apply elem_of_nil in H0.
Qed.

(** A call that returned changes neither locker nor receive. *)
Lemma holders_set id t id' p s :
  holders id (set_phase t id' p s) =
  holders id s + holds id (id', p) - match threads s !! t with Some x => holds id x | None => 0 end.
Proof.
  unfold holders, set_phase. cbn [threads]. destruct (threads s !! t) as [x|] eqn:E.
  - rewrite (tally_update _ _ _ _ x E). lia.
  - rewrite tally_insert by done. lia.
Qed.

Lemma holds_eq id id' p : holds id (id', p) = if decide (id' = id) then weight p else 0.
Proof. unfold holds. cbn. by case_bool_decide; case_decide. Qed.

Lemma count_nonneg cfg s id : inv cfg s -> 0 <= count_of (locker s) id.
Proof.
  intros HI. unfold count_of. destruct (count (locker s) !! id) as [n|] eqn:E; cbn; [|lia]. pose proof (i_pos _ _ HI id n E). lia.
Qed.

Lemma holders_nonneg cfg s id : inv cfg s -> 0 <= holders id s.
Proof.
  intros HI. pose proof (i_count _ _ HI id) as Hc. pose proof (count_nonneg _ _ id HI) as Hn.
  pose proof (i_hand _ _ HI) as Hh. unfold handing in Hc. destruct (receiving s) as [[[t id'] c]|]; [|lia].
  destruct (decide (id' = id)) as [->|]; [specialize (Hh _ _ _ eq_refl)|]; lia.
Qed.

#[local] Set Warnings "-clear-no-such-hyp".

(** Sums with decided terms. *)
Ltac dec_lia := repeat case_decide; first [lia | exfalso; intuition congruence].

(** Reads of updated maps, by cases. *)
Ltac lk := repeat match goal with
  | E : context [<[?a := _]> _ !! ?b] |- _ =>
      destruct (decide (a = b)) as [?|]; [subst; rewrite lookup_insert_eq in E|rewrite lookup_insert_ne in E by done]
  | |- context [<[?a := _]> _ !! ?b] =>
      destruct (decide (a = b)) as [?|]; [subst; rewrite lookup_insert_eq|rewrite lookup_insert_ne by done]
  end; simplify_eq.

Section steps.
Context (cfg : Config) (Hcfg : 1 <= MaxHeld cfg).

(** Only the phase of a call that neither waits nor unlocks changes. *)
Lemma inv_thread s t id p0 p :
  inv cfg s -> threads s !! t = Some (id, p0) \/ threads s !! t = None ->
  (threads s !! t = Some (id, p0) -> p0 <> Unlocking) ->
  (t ∈ queue_of (locker s) id -> pending p) -> (exists t0, receiving s = Some (t0, id, t)) \/ t ∈ queue_of (locker s) id \/ p <> Waiting ->
  (forall t0, receiving s = Some (t0, id, t) -> pending p) -> p <> Unlocking -> weight p = 0 -> weight p0 = 0 ->
  inv cfg (set_phase t id p s).
Proof.
  intros HI Ht Hp0 Hq Hw Hr Hu Hh Hh0. destruct HI. split; cbn [set_phase locker threads receiving] in *; try done.
  - intros id'. rewrite holders_set, !holds_eq, i_count0. unfold handing. cbn [set_phase receiving].
    destruct Ht as [Ht|Ht]; rewrite Ht; rewrite ?holds_eq, ?Hh, ?Hh0; dec_lia.
  - intros id' c Hc. destruct (i_queued0 id' c Hc) as (p' & E & Hp'). lk; [|by exists p'].
    destruct Ht as [Ht|Ht]; rewrite Ht in E; [|done]. injection E as <- _. exists p. auto.
  - intros id' c E. lk; [|by apply i_waiting0]. destruct Hw as [[t0 Hw]|[Hw|Hw]]; [right; by exists t0|by left|done].
  - intros t0 id' c E. destruct (i_receiving0 t0 id' c E) as (E1 & E2 & p' & E3 & E4). split_and!; [|done|].
    + lk; [|done]. destruct Ht as [Ht|Ht]; rewrite Ht in E1; [|done]. injection E1 as <- ->. by destruct (Hp0 Ht).
    + lk; [|by exists p']. destruct Ht as [Ht|Ht]; rewrite Ht in E3; [|done]. injection E3 as <- ->. exists p.
      split; [done|]. by eapply Hr.
  - intros t0 id' E. lk. by apply i_unlocking0.
Qed.

Lemma elem_of_remove_ch ch q c : NoDup q -> c ∈ remove_ch ch q <-> c ∈ q /\ c <> ch.
Proof.
  induction q as [|x q IH]; intros HN; cbn [remove_ch]; [split; [by intros ?%elem_of_nil|by intros [?%elem_of_nil _]]|].
  apply NoDup_cons in HN as [Hx HN]. destruct (Nat.eqb_spec x ch) as [->|Hne].
  - rewrite elem_of_cons. naive_solver.
  - rewrite !elem_of_cons, (IH HN). naive_solver.
Qed.

Lemma NoDup_remove_ch ch q : NoDup q -> NoDup (remove_ch ch q) /\ (length (remove_ch ch q) <= length q)%nat.
Proof.
  induction q as [|x q IH]; intros HN; cbn [remove_ch]; [done|].
  pose proof HN as HN'. apply NoDup_cons in HN as [Hx HN]. destruct (IH HN) as [IH1 IH2].
  destruct (Nat.eqb_spec x ch) as [->|Hne]; [split; [done|simpl; lia]|]. split; [|simpl; lia].
  apply NoDup_cons. split; [|done]. by intros [? _]%(elem_of_remove_ch ch q x HN).
Qed.

Lemma inv_abandon s t id :
  inv cfg s -> receiving s = None -> threads s !! t = Some (id, Abandoned) ->
  inv cfg (set_locker (abandon id t (locker s)) s) /\ t ∉ queue_of (abandon id t (locker s)) id.
Proof.
  intros HI Hr Ht. destruct HI.
  assert (forall id', queue_of (abandon id t (locker s)) id' =
    if decide (id = id') then remove_ch t (queue_of (locker s) id) else queue_of (locker s) id') as HQ.
  { intros id'. unfold queue_of at 1, abandon. cbn [queue]. by rewrite queue_of_set. }
  pose proof (i_nodup0 id) as HN. pose proof (NoDup_remove_ch t _ HN) as [HN1 HN2].
  split; [|rewrite HQ; destruct (decide (id = id)); [|done]; by intros [_ ?]%elem_of_remove_ch].
  split; cbn [set_locker locker threads receiving]; try done.
  - intros id' q E. unfold abandon in E. cbn [queue] in E.
    apply set_queue_lookup in E as [(<- & -> & Hne)|[_ E]]; [|by apply i_full0]. split; [done|].
    unfold queue_of in Hne. destruct (queue (locker s) !! id) as [q|] eqn:Eq; [|done]. by apply (i_full0 id q).
  - intros id' Hm. rewrite HQ. destruct (decide (id = id')) as [<-|]; [|by apply i_len0].
    specialize (i_len0 id Hm). lia.
  - intros id'. rewrite HQ. by destruct (decide (id = id')).
  - intros id' c Hc. rewrite HQ in Hc. destruct (decide (id = id')) as [<-|]; [|by apply i_queued0].
    apply elem_of_remove_ch in Hc as [Hc _]; [|done]. by apply i_queued0.
  - intros id' c E. left. rewrite HQ. destruct (i_waiting0 id' c E) as [Hc|[t0 Hc]]; [|congruence].
    destruct (decide (id = id')) as [<-|]; [|done]. apply elem_of_remove_ch; [done|]. split; [done|].
    intros ->. congruence.
  - intros t0 id' c E. congruence.
Qed.

Lemma inv_granted s t id :
  inv cfg s -> threads s !! t = None -> count_of (locker s) id < MaxHeld cfg ->
  inv cfg (set_phase t id Holding (set_locker
    (mkLocker (<[id := count_of (locker s) id + 1]> (count (locker s))) (queue (locker s))) s)).
Proof.
  intros HI Ht Hc. pose proof HI as HI'. destruct HI.
  set (l := mkLocker _ _). assert (forall id', count_of l id' = count_of (locker s) id' + if decide (id = id') then 1 else 0) as HC.
  { intros id'. unfold l. rewrite count_of_insert. destruct (decide (id = id')) as [<-|]; [done|]. unfold count_of. lia. }
  split; cbn [set_phase set_locker locker threads receiving]; try done.
  - intros id'. rewrite HC, holders_set, holds_eq. cbn [set_locker threads]. rewrite Ht, i_count0.
    unfold handing, holders. cbn. dec_lia.
  - intros id'. rewrite HC. destruct (decide (id = id')) as [<-|]; [lia|]. specialize (i_max0 id'). lia.
  - intros id' n E. unfold l in E. cbn [count] in E. lk; [|by eapply i_pos0].
    pose proof (count_nonneg cfg s id' HI'). lia.
  - intros id' q E. cbn [l queue] in E. destruct (i_full0 id' q E) as [H1 H2]. split; [done|]. rewrite HC.
    destruct (decide (id = id')) as [<-|]; lia.
  - intros id' c Hq. destruct (i_queued0 id' c Hq) as (p & E & Hp). exists p. lk; done.
  - intros id' c E. lk. by apply i_waiting0.
  - intros t0 id' c E. destruct (i_receiving0 t0 id' c E) as (E1 & E2 & p' & E3 & E4).
    split_and!; [lk; done|done|]. exists p'. lk; done.
  - intros t0 id' E. lk. by apply i_unlocking0.
  - intros t0 id' c E. rewrite HC. specialize (i_hand0 t0 id' c E). dec_lia.
Qed.

Lemma inv_queued s t id :
  inv cfg s -> receiving s = None -> threads s !! t = None -> MaxHeld cfg <= count_of (locker s) id ->
  (MaxWait cfg <> -1 -> Z.of_nat (length (queue_of (locker s) id)) < MaxWait cfg) ->
  inv cfg (set_phase t id Waiting (set_locker
    (mkLocker (count (locker s)) (<[id := queue_of (locker s) id ++ [t]]> (queue (locker s)))) s)).
Proof.
  intros HI Hr Ht Hc Hw. destruct HI. set (l := mkLocker _ _).
  assert (forall id', queue_of l id' = if decide (id = id') then queue_of (locker s) id ++ [t] else queue_of (locker s) id') as HQ.
  { intros id'. unfold queue_of at 1, l. cbn [queue].
    destruct (decide (id = id')) as [<-|]; [by rewrite lookup_insert_eq|by rewrite lookup_insert_ne]. }
  assert (forall id', t ∉ queue_of (locker s) id') as Hnew.
  { intros id' Hin. destruct (i_queued0 id' t Hin) as (p & E & _). congruence. }
  split; cbn [set_phase set_locker locker threads receiving]; try done.
  - intros id'. change (count_of l id') with (count_of (locker s) id'). rewrite holders_set, holds_eq.
    cbn [set_locker threads]. rewrite Ht, i_count0. unfold handing, holders. cbn.
    dec_lia.
  - intros id' q E. cbn [l queue] in E. change (count_of l id') with (count_of (locker s) id'). lk.
    + split; [by destruct (queue_of (locker s) id')|]. specialize (i_max0 id'). lia.
    + by apply i_full0.
  - intros id' Hm. rewrite HQ. destruct (decide (id = id')) as [<-|]; [|by apply i_len0].
    rewrite length_app. specialize (Hw Hm). simpl. lia.
  - intros id'. rewrite HQ. destruct (decide (id = id')) as [<-|]; [|done]. apply NoDup_app.
    split; [done|]. split; [|apply NoDup_singleton]. intros x Hx Hx'. apply list_elem_of_singleton in Hx' as ->.
    by apply (Hnew id).
  - intros id' c Hq. rewrite HQ in Hq.
    assert (c ∈ queue_of (locker s) id' \/ (c = t /\ id = id')) as [Hq'|[-> <-]].
    { destruct (decide (id = id')) as [<-|]; [|by left]. apply elem_of_app in Hq as [Hq|Hq]; [by left|right].
      by apply list_elem_of_singleton in Hq. }
    + destruct (i_queued0 id' c Hq') as (p & E & Hp). exists p. lk; done.
    + exists Waiting. rewrite lookup_insert_eq. split; [done|by left].
  - intros id' c E. left. rewrite HQ. lk.
    + destruct (decide (id' = id')); [|done]. apply elem_of_app. right. by left.
    + destruct (i_waiting0 id' c E) as [Hc'|[t0 Hc']]; [|congruence].
      destruct (decide (id = id')) as [<-|]; [apply elem_of_app; by left|done].
  - intros t0 id' c E. congruence.
  - intros t0 id' E. lk. by apply i_unlocking0.
Qed.

(** The last iteration of an [Unlock], with nobody queued. *)
Lemma inv_released s t id :
  inv cfg s -> receiving s = None -> threads s !! t = None -> queue_of (locker s) id = [] ->
  let n := count_of (locker s) id - 1 in 0 <= n ->
  inv cfg (set_receiving None (set_phase t id Done (set_locker
    (mkLocker (if n =? 0 then delete id (count (locker s)) else <[id := n]> (count (locker s)))
       (queue (locker s))) s))).
Proof.
  intros HI Hr Ht Hq n Hn. destruct HI. set (l := mkLocker _ _).
  assert (forall id', count_of l id' = count_of (locker s) id' - if decide (id = id') then 1 else 0) as HC.
  { intros id'. unfold l. destruct (n =? 0) eqn:En; bprop.
    - unfold count_of at 1. cbn [count]. destruct (decide (id = id')) as [<-|].
      + rewrite lookup_delete_eq. cbn. lia.
      + rewrite lookup_delete_ne by done. unfold count_of. lia.
    - rewrite count_of_insert. destruct (decide (id = id')) as [<-|]; [done|]. unfold count_of. lia. }
  split; cbn [set_receiving set_phase set_locker locker threads receiving]; try done.
  - intros id'. rewrite HC.
    change (holders id' (set_receiving None (set_phase t id Done (set_locker l s))))
      with (holders id' (set_phase t id Done s)). rewrite holders_set, !holds_eq, Ht, i_count0. cbn [weight].
    unfold handing. rewrite Hr. cbn. dec_lia.
  - intros id'. rewrite HC. specialize (i_max0 id'). dec_lia.
  - intros id' m E. unfold l in E. cbn [count] in E. destruct (n =? 0) eqn:En; bprop.
    + destruct (decide (id = id')) as [<-|]; [by rewrite lookup_delete_eq in E|].
      rewrite lookup_delete_ne in E by done. by eapply i_pos0.
    + lk; [lia|by eapply i_pos0].
  - intros id' q E. cbn [l queue] in E. destruct (i_full0 id' q E) as [H1 H2]. split; [done|]. rewrite HC.
    destruct (decide (id = id')) as [<-|]; [|lia]. unfold queue_of in Hq. by rewrite E in Hq.
  - intros id' c Hc. destruct (i_queued0 id' c Hc) as (p & E & Hp). exists p. lk; done.
  - intros id' c E. lk. destruct (i_waiting0 id' c E) as [Hc|[t0 Hc]]; [by left|congruence].
  - intros t0 id' E. lk. destruct (i_unlocking0 t0 id' E) as [c Hc]. congruence.
Qed.

(** [t] pops a channel and hands its slot over. *)
Lemma inv_receives s t id ch q :
  inv cfg s -> receiving s = None -> threads s !! t = None -> queue_of (locker s) id = ch :: q ->
  inv cfg (set_receiving (Some (t, id, ch)) (set_phase t id Unlocking (set_locker
    (mkLocker (count (locker s)) (set_queue id q (queue (locker s)))) s))).
Proof using Hcfg.
  intros HI Hr Ht Hq. destruct HI. set (l := mkLocker _ _).
  assert (forall id', queue_of l id' = if decide (id = id') then q else queue_of (locker s) id') as HQ.
  { intros id'. unfold queue_of at 1, l. cbn [queue]. by rewrite queue_of_set. }
  pose proof (i_nodup0 id) as HN. rewrite Hq in HN. apply NoDup_cons in HN as [Hch HN].
  assert (forall c, c ∈ q -> c ∈ queue_of (locker s) id) as Hsub by (intros; rewrite Hq; by right).
  assert (forall c, c ∈ queue_of (locker s) id -> c <> t) as Hnt.
  { intros c Hc ->. destruct (i_queued0 id t Hc) as (p & E & _). congruence. }
  split; cbn [set_receiving set_phase set_locker locker threads receiving]; try done.
  - intros id'. change (count_of l id') with (count_of (locker s) id').
    change (holders id' (set_receiving (Some (t, id, ch)) (set_phase t id Unlocking (set_locker l s))))
      with (holders id' (set_phase t id Unlocking s)). rewrite holders_set, !holds_eq, Ht, i_count0. cbn [weight].
    unfold handing. rewrite Hr. cbn. dec_lia.
  - intros id' q' E. cbn [l queue] in E. apply set_queue_lookup in E as [(<- & -> & Hne)|[_ E]]; [|by apply i_full0].
    split; [done|]. unfold queue_of in Hq. destruct (queue (locker s) !! id) as [q0|] eqn:Eq; [|done].
    by apply (i_full0 id q0).
  - intros id' Hm. rewrite HQ. destruct (decide (id = id')) as [<-|]; [|by apply i_len0].
    specialize (i_len0 id Hm). rewrite Hq in i_len0. simpl in i_len0. lia.
  - intros id'. rewrite HQ. by destruct (decide (id = id')).
  - intros id' c Hc. rewrite HQ in Hc.
    assert (c ∈ queue_of (locker s) id') as Hc' by (destruct (decide (id = id')) as [<-|]; auto).
    destruct (i_queued0 id' c Hc') as (p & E & Hp). exists p. lk; done.
  - intros id' c E. lk. rewrite HQ. destruct (i_waiting0 id' c E) as [Hc|[t0 Hc]]; [|congruence].
    destruct (decide (id = id')) as [<-|]; [|by left]. rewrite Hq in Hc.
    apply elem_of_cons in Hc as [->|Hc]; [right; by exists t|by left].
  - intros t0 id' c [= <- <- <-]. rewrite lookup_insert_eq. split; [done|]. split.
    + rewrite HQ. by destruct (decide (id = id)).
    + assert (ch ∈ queue_of (locker s) id) as Hin by (rewrite Hq; by left).
      destruct (i_queued0 id ch Hin) as (p & E & Hp). exists p.
      rewrite lookup_insert_ne by (intros <-; by apply (Hnt t)). done.
  - intros t0 id' E. lk; [by exists ch|]. destruct (i_unlocking0 t0 id' E) as [c Hc]. congruence.
  - intros t0 id' c [= <- <- <-]. change (count_of l id) with (count_of (locker s) id). unfold queue_of in Hq.
    destruct (queue (locker s) !! id) as [q0|] eqn:Eq; [|done]. destruct (i_full0 id q0 Eq) as [_ ->]. done.
Qed.

(** An [Unlock] with the mutex panics exactly when no slot is held. *)
Lemma after_iter_inv s t id :
  inv cfg s -> receiving s = None -> threads s !! t = None ->
  if decide (holders id s = 0) then after_iter t id s = None
  else exists s', after_iter t id s = Some s' /\ inv cfg s'.
Proof using Hcfg.
  intros HI Hr Ht. pose proof (i_count _ _ HI id) as Hc. unfold handing in Hc. rewrite Hr in Hc.
  pose proof (holders_nonneg _ _ id HI) as Hn. unfold after_iter, unlock_iter.
  destruct (queue_of (locker s) id) as [|ch q] eqn:Eq.
  - pose proof (inv_released s t id HI Hr Ht Eq) as HI'. cbv zeta in *. destruct (decide (holders id s = 0)) as [Hz|Hz].
    + by rewrite (proj2 (Z.ltb_lt _ _)) by lia.
    + rewrite (proj2 (Z.ltb_ge _ _)) by lia. eexists. split; [done|apply HI'; lia].
  - destruct (decide (holders id s = 0)) as [Hz|Hz].
    + unfold queue_of in Eq. destruct (queue (locker s) !! id) as [q0|] eqn:Eq0; [|done].
      destruct (i_full _ _ HI id q0 Eq0) as [_ Hf]. lia.
    + eexists. split; [done|]. by apply inv_receives.
Qed.

(** The receive from a closed channel: [t] still has to give its slot up. *)
Definition without_call (t : nat) (s : Sys) : Sys := mkSys (locker s) (delete t (threads s)) None.

Lemma holders_without_call s t id id' : threads s !! t = Some (id, Unlocking) ->
  holders id' s = holders id' (without_call t s) - if decide (id = id') then 1 else 0.
Proof.
  intros Ht. unfold holders, without_call. cbn [threads]. rewrite <- (insert_delete_id (threads s) t (id, Unlocking) Ht) at 1.
  rewrite tally_insert by apply lookup_delete_eq. rewrite holds_eq. cbn [weight]. dec_lia.
Qed.

Lemma inv_closed s t id ch :
  inv cfg s -> receiving s = Some (t, id, ch) -> threads s !! ch = Some (id, Abandoned) ->
  inv cfg (without_call t s) /\ 1 <= holders id (without_call t s).
Proof.
  intros HI Hr Hch. pose proof (holders_nonneg _ _ id HI) as Hn. pose proof HI as HI'. destruct HI.
  destruct (i_receiving0 t id ch Hr) as (Ht & Hnq & _).
  split; [|rewrite (holders_without_call s t id id Ht) in Hn; by case_decide; [lia|]].
  split; cbn [without_call locker threads receiving]; try done.
  - intros id'. rewrite i_count0, (holders_without_call s t id id' Ht). unfold handing. rewrite Hr. cbn. dec_lia.
  - intros id' c Hc. destruct (i_queued0 id' c Hc) as (p & E & Hp). exists p. rewrite lookup_delete_ne; [done|].
    intros <-. destruct Hp; congruence.
  - intros id' c E. apply lookup_delete_Some in E as [_ E]. destruct (i_waiting0 id' c E) as [Hc|[t0 Hc]]; [by left|].
    rewrite Hr in Hc. congruence.
  - intros t0 id' E. apply lookup_delete_Some in E as [Hne E]. destruct (i_unlocking0 t0 id' E) as [c Hc]. rewrite Hr in Hc. congruence.
Qed.

Lemma inv_handed s t id ch :
  inv cfg s -> receiving s = Some (t, id, ch) -> threads s !! ch = Some (id, Waiting) ->
  inv cfg (set_receiving None (set_phase ch id Holding (set_phase t id Done s))).
Proof.
  intros HI Hr Hch. destruct HI. destruct (i_receiving0 t id ch Hr) as (Ht & Hnq & _).
  assert (t <> ch) as Hne by (intros ->; congruence).
  split; cbn [set_receiving set_phase set_locker locker threads receiving]; try done.
  - intros id'. change (holders id' (set_receiving None (set_phase ch id Holding (set_phase t id Done s))))
      with (holders id' (set_phase ch id Holding (set_phase t id Done s))).
    rewrite !holders_set, !holds_eq, i_count0. cbn [set_phase threads].
    rewrite lookup_insert_ne, Ht, Hch, !holds_eq by done. cbn [weight]. unfold handing. rewrite Hr. cbn. dec_lia.
  - intros id' c Hc. destruct (i_queued0 id' c Hc) as (p & E & Hp). exists p. lk; try done.
    destruct Hp; congruence.
  - intros id' c E. lk. destruct (i_waiting0 id' c E) as [Hc|[t0 Hc]]; [by left|].
    rewrite Hr in Hc. congruence.
  - intros t0 id' E. lk. destruct (i_unlocking0 t0 id' E) as [c Hc]. rewrite Hr in Hc. congruence.
Qed.

Lemma after_iter_without_call s t id : after_iter t id (without_call t s) = after_iter t id s.
Proof.
  unfold after_iter, without_call. cbn [locker]. destruct (unlock_iter id (locker s)); [done|..];
    unfold set_receiving, set_phase, set_locker; cbn; by rewrite insert_delete_eq.
Qed.

Lemma after_closed s t id ch : inv cfg s -> receiving s = Some (t, id, ch) -> threads s !! ch = Some (id, Abandoned) ->
  exists s', after_iter t id s = Some s' /\ inv cfg s'.
Proof using Hcfg.
  intros HI Hr Hch. destruct (inv_closed s t id ch HI Hr Hch) as [HI' Hh]. rewrite <- after_iter_without_call.
  pose proof (after_iter_inv (without_call t s) t id HI' eq_refl (lookup_delete_eq _ _)) as Ha.
  destruct (decide (holders id (without_call t s) = 0)); [lia|done].
Qed.

(** Nobody holds the id, and an [Unlock] of it begins. *)
Definition surplus (id : K) (s : Sys) : Prop := receiving s = None /\ holders id s = 0.

Lemma step_inv s r : inv cfg s -> step cfg s r -> (r = None /\ exists id, surplus id s) \/ exists s', r = Some s' /\ inv cfg s'.
Proof using Hcfg.
  intros HI Hs. inversion Hs as [s0 t id r0 l Hr Ht El|s0 t id Ht|s0 t id Hr Ht|s0 t id Hr Ht|s0 t id ch Hr Hch|s0 t id ch Hr Hch];
    subst.
  - right. eexists. split; [done|]. unfold lock_enter in El. destruct (_ <? _) eqn:Ec; bprop.
    + injection El as <- <-. by apply inv_granted.
    + destruct (_ && _) eqn:Ew; injection El as <- <-; cbn [phase_of].
      * assert (set_locker (locker s) s = s) as -> by by destruct s.
        apply (inv_thread s t id Failed Failed HI); auto; try (intros; congruence).
        intros Hin. destruct HI. destruct (i_queued0 id t Hin) as (p & E & _). congruence.
      * apply inv_queued; try done. intros Hm. apply andb_false_iff in Ew as [Ew|Ew]; bprop; lia.
  - right. eexists. split; [done|]. apply (inv_thread s t id Waiting Abandoned HI); auto; try done; try (by intros; right).
  - right. eexists. split; [done|]. destruct (inv_abandon s t id HI Hr Ht) as [HI' Hn].
    apply (inv_thread _ t id Abandoned Failed HI'); auto; try done; cbn; try congruence.
  - pose proof (after_iter_inv s t id HI Hr Ht) as Ha. destruct (decide (holders id s = 0)); [left|by right]. split; [done|by exists id].
  - right. eexists. split; [done|]. by apply inv_handed.
  - right. by eapply after_closed.
Qed.

Lemma locker_reach_inv s : reach cfg s -> inv cfg s.
Proof using Hcfg.
  induction 1 as [|s s' _ IH Hs]; [by apply init_inv|].
  by destruct (step_inv s (Some s') IH Hs) as [[[=] _]|(s1 & [= <-] & HI)].
Qed.

(** ** What a locker promises *)

(** C28: whichever goroutines call [Lock] and [Unlock], for whichever ids and however
    their steps interleave, at most [MaxHeld] calls hold an id and at most
    [MaxWait] queue for it, and the maps keep no entry for an id nobody holds or
    waits for.  An [Unlock] panics exactly when nobody holds its id, so when
    [Unlock] was called for it as often as [Lock] returned nil; once it waits for
    a queued call it panics no more. *)
Theorem locker_keeps_limits s (HR : reach cfg s) :
  (forall t id, receiving s = None -> threads s !! t = None -> (after_iter t id s = None <-> holders id s = 0)) /\
  (receiving s <> None -> ~ step cfg s None) /\
  forall id, 0 <= holders id s <= MaxHeld cfg /\
    (MaxWait cfg <> -1 -> Z.of_nat (length (queue_of (locker s) id)) <= Z.max 0 (MaxWait cfg)) /\
    (forall n, count (locker s) !! id = Some n -> 0 < n) /\
    (forall q, queue (locker s) !! id = Some q -> q <> []).
Proof using Hcfg.
  pose proof (locker_reach_inv s HR) as HI. split; [|split].
  - intros t id Hr Ht. pose proof (after_iter_inv s t id HI Hr Ht) as Ha. destruct (decide (holders id s = 0)) as [Hz|Hz]; [done|].
    destruct Ha as (s' & -> & _). done.
  - intros Hr Hs. by destruct (step_inv s None HI Hs) as [(_ & id & ? & _)|(s' & [=] & _)].
  - intros id. split; [|split; [|split]].
    + pose proof (holders_nonneg _ _ id HI). pose proof (i_count _ _ HI id) as Hc. pose proof (i_max _ _ HI id).
      unfold handing in *. destruct (receiving s) as [[[? ?] ?]|]; [case_decide|]; lia.
    + apply (i_len _ _ HI).
    + apply (i_pos _ _ HI).
    + intros q E. by apply (i_full _ _ HI id q).
Qed.

(** No wake-up is lost: while a call waits for an id and no [Unlock] is
    under way, all slots of the id are held. *)
Theorem waiting_means_full s id c (HR : reach cfg s) (Hr : receiving s = None)
  (Hw : threads s !! c = Some (id, Waiting)) : holders id s = MaxHeld cfg.
Proof using Hcfg.
  pose proof (locker_reach_inv s HR) as HI. destruct (i_waiting _ _ HI id c Hw) as [Hq|[t E]]; [|congruence].
  unfold queue_of in Hq. destruct (queue (locker s) !! id) as [q|] eqn:Eq; [|by apply elem_of_nil in Hq].
  destruct (i_full _ _ HI id q Eq) as [_ Hf]. rewrite <- Hf, (i_count _ _ HI id).
  unfold handing. rewrite Hr. lia.
Qed.

(** The waiting calls and the length of the queue. *)
Definition waits (x : K * Phase) : Z := if bool_decide (snd x = Waiting) then 1 else 0.
Definition work (id : K) (s : Sys) : Z := tally waits (threads s) + Z.of_nat (length (queue_of (locker s) id)).

Lemma after_iter_work s t id ch s' :
  inv cfg s -> receiving s = Some (t, id, ch) -> after_iter t id s = Some s' ->
  receiving s' = None \/ ((exists c, receiving s' = Some (t, id, c)) /\ work id s' < work id s).
Proof.
  intros HI Hr E. destruct (i_receiving _ _ HI t id ch Hr) as (Ht & _).
  unfold after_iter, unlock_iter in E. destruct (queue_of (locker s) id) as [|c q] eqn:Eq.
  - destruct (_ <? 0); [done|]. injection E as <-. by left.
  - injection E as <-. right. split; [by eexists|]. unfold work. cbn [set_receiving set_phase set_locker threads locker].
    rewrite (tally_update _ _ _ _ _ Ht). unfold queue_of. cbn [queue]. rewrite queue_of_set.
    destruct (decide (id = id)); [|done]. unfold queue_of in Eq. rewrite Eq. cbn. lia.
Qed.

(** An [Unlock] at its receive is never stuck and returns: the call it
    receives from can always send or has closed its channel, and every step of
    the system until it returns reduces the waiting calls or the queue. *)
Theorem unlock_returns s t id ch (HR : reach cfg s) (Hr : receiving s = Some (t, id, ch)) :
  (exists s', step cfg s (Some s')) /\ 0 <= work id s /\
  forall s', step cfg s (Some s') ->
    receiving s' = None \/ ((exists c, receiving s' = Some (t, id, c)) /\ work id s' < work id s).
Proof using Hcfg.
  pose proof (locker_reach_inv s HR) as HI. split; [|split].
  - destruct (i_receiving _ _ HI t id ch Hr) as (_ & _ & p & Hch & [-> | ->]).
    + eexists. by eapply step_granted.
    + destruct (after_closed s t id ch HI Hr Hch) as (s' & E & _).
      exists s'. rewrite <- E. by eapply step_closed.
  - unfold work. pose proof (tally_nonneg waits (threads s)) as Hn.
    assert (forall x, 0 <= waits x) as Hx by (intros x; unfold waits; case_bool_decide; lia). specialize (Hn Hx). lia.
  - intros s' Hs. inversion Hs as [|s0 t0 id0 Ht0| | |s0 t0 id0 ch0 Hr0|s0 t0 id0 ch0 Hr0 Hch0 Hafter]; subst; try congruence.
    + right. split; [by exists ch|]. unfold work. cbn [set_phase threads locker].
      rewrite (tally_update _ _ _ _ _ Ht0).
      change (waits (id0, Waiting)) with 1. change (waits (id0, Abandoned)) with 0. lia.
    + by left.
    + rewrite Hr in Hr0. injection Hr0 as <- <- <-. by eapply after_iter_work.
Qed.
End steps.
End IDLocker.

(** ** A run *)

(** One slot and one place in the queue: call 1 holds, call 2 waits. *)
Definition one_slot : Config := mkConfig 1 1.

Definition one_held : Sys (K := Z) :=
  set_phase 1 5 Holding (set_locker (mkLocker {[5 := 1]} ∅) init).

Definition one_waits : Sys (K := Z) :=
  set_phase 2 5 Waiting (set_locker (mkLocker {[5 := 1]} {[5 := [2%nat]]}) one_held).

Lemma one_waits_reach : reach one_slot one_waits.
Proof.
  apply (reach_step _ one_held); [apply (reach_step _ init); [apply reach_init|]|].
  - exact (step_lock one_slot init 1 5 Granted (mkLocker {[5 := 1]} ∅) eq_refl eq_refl eq_refl).
  - exact (step_lock one_slot one_held 2 5 Queued (mkLocker {[5 := 1]} {[5 := [2%nat]]}) eq_refl eq_refl eq_refl).
Qed.

(** Then call 3, of [Unlock], receives from call 2. *)
Definition one_receives : Sys (K := Z) :=
  set_receiving (Some (3%nat, 5, 2%nat)) (set_phase 3 5 Unlocking (set_locker (mkLocker {[5 := 1]} ∅) one_waits)).

Lemma one_receives_reach : reach one_slot one_receives.
Proof.
  eapply reach_step; [exact one_waits_reach|].
  exact (step_unlock one_slot one_waits 3%nat 5 eq_refl eq_refl).
Qed.

(** As in [TestIDLocker_NoQueue]: locked, unlocked and unlocked again. *)
Definition one_unlocked : Sys (K := Z) := default init (after_iter 2 5 one_held).

Lemma one_unlocked_reach : reach one_slot one_unlocked.
Proof.
  apply (reach_step _ one_held).
  - apply (reach_step _ init); [apply reach_init|].
    exact (step_lock one_slot init 1 5 Granted (mkLocker {[5 := 1]} ∅) eq_refl eq_refl eq_refl).
  - exact (step_unlock one_slot one_held 2%nat 5 eq_refl eq_refl).
Qed.

Lemma surplus_unlock_panics : reach one_slot one_unlocked /\ step one_slot one_unlocked None.
Proof. split; [exact one_unlocked_reach|exact (step_unlock one_slot one_unlocked 3%nat 5 eq_refl eq_refl)]. Qed.

Lemma locker_keeps_limits_witness :
  holders 5 one_waits = 1 /\ queue_of (locker one_waits) 5 = [2%nat] /\
  (MaxWait one_slot <> -1 -> Z.of_nat (length (queue_of (locker one_waits) 5)) <= Z.max 0 1) /\
  (after_iter 3 5 one_unlocked = None <-> holders 5 one_unlocked = 0).
Proof.
  split; [vm_compute; reflexivity|]. split; [vm_compute; reflexivity|]. split.
  - exact (proj1 (proj2 (proj2 (proj2 (locker_keeps_limits one_slot ltac:(cbn; lia) one_waits one_waits_reach)) 5))).
  - exact (proj1 (locker_keeps_limits one_slot ltac:(cbn; lia) one_unlocked one_unlocked_reach) 3%nat 5 eq_refl eq_refl).
Defined.

Lemma waiting_means_full_witness : holders 5 one_waits = MaxHeld one_slot.
Proof.
  exact (waiting_means_full one_slot ltac:(cbn; lia) one_waits 5 2 one_waits_reach eq_refl eq_refl).
Defined.

Lemma unlock_returns_witness : work 5 one_receives = 1 /\ exists s', step one_slot one_receives (Some s').
Proof.
  split; [vm_compute; reflexivity|].
  exact (proj1 (unlock_returns one_slot ltac:(cbn; lia) one_receives 3 5 2 one_receives_reach eq_refl)).
Defined.
