(* ===== verification/Lifecycle.v ===== *)
(** * The lifecycle of the application: [app/lifecycle.Manager]

    A manager wraps the startup, run, shutdown, pause and resume functions of the
    application.  Its methods take the status out of a channel of size one and
    put it back: between the two nobody else reads or writes the manager.  Every
    call is a goroutine with a program counter; [advance] is its next step, up to
    where it gives the status back or waits.  The functions that are wrapped, and
    the contexts, end when the choice of the step says so. *)

From S2P Require Import Prelude.

(** ** The manager *)

Inductive Status :=
  | StatusUnknown | StatusStarting | StatusReady | StatusShutdown | StatusPausing | StatusPaused.

(** [ErrFunc] is what a wrapped function returned, [ErrContext] the error of a
    context, [ErrPauseOperation] that of [SetPauseResumer]. *)
Inductive Err :=
  | ErrAlreadyStarted | ErrShutdown | ErrPauseUnsupported | ErrPauseOperation | ErrContext | ErrFunc.

#[global] Instance Status_eq_dec : EqDecision Status.
Proof. solve_decision. Defined.
#[global] Instance Err_eq_dec : EqDecision Err.
Proof. solve_decision. Defined.

(** A function or a cancel function is [true] when it is set, a channel when it
    is closed; [held] when the status is out of its channel while a call waits.
    The channels [pauseDone] are named by the calls of [Pause] that made them;
    [pauseCancel] is set with it.  [shutdownErr] is never assigned. *)
Record Manager := mkManager {
  status : Status; held : bool;
  startupFunc : bool; pauseResume : bool;
  startupCancel : bool; startupDone : bool; startupErr : bool;
  runCancel : bool; runDone : bool;
  shutdownCancel : bool; shutdownDone : bool;
  pauseStart : bool; pauseDone : option nat; isPausing : bool;
  donePauses : gset nat
}.

Definition NewManager : Manager :=
  mkManager StatusUnknown false false false false false false false false false false false None false ∅.

Definition set_status (s : Status) (m : Manager) : Manager :=
  mkManager s (held m) (startupFunc m) (pauseResume m) (startupCancel m) (startupDone m) (startupErr m)
    (runCancel m) (runDone m) (shutdownCancel m) (shutdownDone m) (pauseStart m) (pauseDone m) (isPausing m) (donePauses m).
Definition set_held (b : bool) (m : Manager) : Manager :=
  mkManager (status m) b (startupFunc m) (pauseResume m) (startupCancel m) (startupDone m) (startupErr m)
    (runCancel m) (runDone m) (shutdownCancel m) (shutdownDone m) (pauseStart m) (pauseDone m) (isPausing m) (donePauses m).
Definition set_funcs (st pr : bool) (m : Manager) : Manager :=
  mkManager (status m) (held m) st pr (startupCancel m) (startupDone m) (startupErr m)
    (runCancel m) (runDone m) (shutdownCancel m) (shutdownDone m) (pauseStart m) (pauseDone m) (isPausing m) (donePauses m).
Definition set_startup (cancel done err : bool) (m : Manager) : Manager :=
  mkManager (status m) (held m) (startupFunc m) (pauseResume m) cancel done err
    (runCancel m) (runDone m) (shutdownCancel m) (shutdownDone m) (pauseStart m) (pauseDone m) (isPausing m) (donePauses m).
Definition set_run (cancel done : bool) (m : Manager) : Manager :=
  mkManager (status m) (held m) (startupFunc m) (pauseResume m) (startupCancel m) (startupDone m) (startupErr m)
    cancel done (shutdownCancel m) (shutdownDone m) (pauseStart m) (pauseDone m) (isPausing m) (donePauses m).
Definition set_shutdown (cancel done : bool) (m : Manager) : Manager :=
  mkManager (status m) (held m) (startupFunc m) (pauseResume m) (startupCancel m) (startupDone m) (startupErr m)
    (runCancel m) (runDone m) cancel done (pauseStart m) (pauseDone m) (isPausing m) (donePauses m).
Definition set_pauseStart (closed : bool) (m : Manager) : Manager :=
  mkManager (status m) (held m) (startupFunc m) (pauseResume m) (startupCancel m) (startupDone m) (startupErr m)
    (runCancel m) (runDone m) (shutdownCancel m) (shutdownDone m) closed (pauseDone m) (isPausing m) (donePauses m).
Definition set_pausing (ch : option nat) (b : bool) (m : Manager) : Manager :=
  mkManager (status m) (held m) (startupFunc m) (pauseResume m) (startupCancel m) (startupDone m) (startupErr m)
    (runCancel m) (runDone m) (shutdownCancel m) (shutdownDone m) (pauseStart m) ch b (donePauses m).
Definition set_donePauses (d : gset nat) (m : Manager) : Manager :=
  mkManager (status m) (held m) (startupFunc m) (pauseResume m) (startupCancel m) (startupDone m) (startupErr m)
    (runCancel m) (runDone m) (shutdownCancel m) (shutdownDone m) (pauseStart m) (pauseDone m) (isPausing m) d.

Definition end_pausing (m : Manager) : Manager := set_pausing (pauseDone m) false m.

(** ** The calls *)

(** [None] is a nil error. *)
Definition Result := option Err.

(** Where a call is: what it does next. *)
Inductive Pc :=
  | RunEnter
  | RunStartup (fn : bool)          (** in [startupFunc], when there is one *)
  | RunStarted                      (** takes the status after startup *)
  | RunFailing                      (** closes [startupDone] after a failed startup *)
  | RunMain                         (** in [runFunc] *)
  | RunEnded (r : Result)           (** closes [runDone] *)
  | RunCheck (r : Result)           (** takes the status after [runFunc] *)
  | RunWait (r : Result)            (** waits for [shutdownDone] *)
  | ShutEnter
  | ShutWaitOther                   (** waits for another call, or its context *)
  | ShutWaitDone                    (** waits for another call *)
  | ShutClose1 | ShutClose2 | ShutClose3
  | ShutWaitStartup                 (** waits for [startupDone] *)
  | ShutWaitPause                   (** waits for [pauseDone] *)
  | ShutFunc (isRunning : bool)     (** in [shutdownFunc] *)
  | ShutWaitRun (r : Result)        (** waits for [runDone] *)
  | ShutReturn (r : Result)         (** the deferred close of [shutdownDone] *)
  | PauseEnter
  | PauseWaitOther (ch : nat)       (** waits for another [Pause], or its context *)
  | PauseWaitStartup                (** waits for [startupDone], or its context *)
  | PauseCancelled                  (** its context ended *)
  | PauseStarted                    (** takes the status after startup *)
  | PausePausing                    (** in [pauseResume.Pause] *)
  | PausePaused (failed : bool)     (** takes the status after it *)
  | PauseReturn (r : Result)        (** the deferred close of [pauseDone] *)
  | ResumeEnter
  | ResumeWait (ch : nat)           (** waits for a [Pause] it cancelled *)
  | Resuming                        (** in [pauseResume.Resume] *)
  | SetStartupEnter
  | SetPauseEnter (pr : bool)
  | WaitEnter
  | Returned (r : Result).

(** How the wrapped function, or the wait, of a step ends: [Bad] is an error of
    the function, or the end of the context. *)
Inductive Choice := Good | Bad.

Definition result_of (c : Choice) : Result := match c with Good => None | Bad => Some ErrFunc end.

Inductive Outcome :=
  | Next (pc : Pc) (m : Manager)
  | PanicClose                      (** close of a closed channel *)
  | PanicNil                        (** call of a nil cancel function, or of a nil [pauseResume] *)
  | PanicState.                     (** "unexpected lifecycle state" *)

(** A close, then [k]. *)
Definition close (closed : bool) (k : Outcome) : Outcome := if closed then PanicClose else k.

Definition initShutdown (m : Manager) : Manager :=
  set_status StatusShutdown (set_shutdown true (shutdownDone m) m).

(** A method that takes the status. *)
Definition take (m : Manager) (k : Outcome) : option Outcome := if held m then None else Some k.
(** A receive from a channel that is only closed. *)
Definition receive (closed : bool) (k : Outcome) : option Outcome := if closed then Some k else None.

Definition SetStartupFunc (m : Manager) : Outcome :=
  match status m with
  | StatusShutdown => Next (Returned (Some ErrShutdown)) m
  | StatusUnknown => Next (Returned None) (set_funcs true (pauseResume m) m)
  | _ => Next (Returned (Some ErrAlreadyStarted)) m
  end.

Definition SetPauseResumer (pr : bool) (m : Manager) : Outcome :=
  if isPausing m || bool_decide (status m = StatusPausing) || bool_decide (status m = StatusPaused)
  then Next (Returned (Some ErrPauseOperation)) m
  else Next (Returned None) (set_funcs (startupFunc m) pr m).

Definition IsPausing (m : Manager) : bool :=
  match status m with
  | StatusPausing | StatusPaused | StatusShutdown => true
  | _ => isPausing m
  end.

(** [Run], step by step. *)
Definition run_enter (m : Manager) : Outcome :=
  match status m with
  | StatusShutdown => Next (Returned (Some ErrShutdown)) m
  | StatusUnknown =>
      Next (RunStartup (startupFunc m)) (set_status StatusStarting (set_startup true (startupDone m) (startupErr m) m))
  | _ => Next (Returned (Some ErrAlreadyStarted)) m
  end.

Definition run_startup (fn : bool) (c : Choice) (m : Manager) : Outcome :=
  match fn, c with
  | true, Bad => Next RunStarted (set_startup (startupCancel m) (startupDone m) true m)
  | _, _ => Next RunStarted m
  end.

Definition close_startup (m : Manager) : Manager := set_startup (startupCancel m) true (startupErr m) m.

Definition run_started (m : Manager) : Outcome :=
  match status m with
  | StatusShutdown => close (startupDone m) (Next (Returned None) (close_startup m))
  | StatusStarting =>
      if startupErr m then Next RunFailing m
      else close (startupDone m)
        (Next RunMain (set_status StatusReady (close_startup (set_run true (runDone m) m))))
  | _ => PanicState
  end.

(** [Shutdown], to its first wait. *)
Definition shut_enter (m : Manager) : Outcome :=
  match status m with
  | StatusShutdown => Next ShutWaitOther m
  | StatusStarting =>
      if startupCancel m then
        close (pauseStart m) (Next ShutWaitStartup (initShutdown (set_pauseStart true m)))
      else PanicNil
  | StatusUnknown => Next ShutClose1 (initShutdown m)
  | StatusPausing => if pauseDone m then Next ShutWaitPause (initShutdown m) else PanicNil
  | StatusReady => close (pauseStart m) (Next (ShutFunc true) (initShutdown (set_pauseStart true m)))
  | StatusPaused => Next (ShutFunc true) (initShutdown m)
  end.

(** [Pause] by the call [t]. *)
Definition pause_begin (m : Manager) : Outcome :=
  close (pauseStart m) (Next PausePausing (set_status StatusPausing (set_pauseStart true m))).

Definition pause_enter (t : nat) (m : Manager) : Outcome :=
  let m' := set_pausing (Some t) true m in
  if negb (pauseResume m) then Next (Returned (Some ErrPauseUnsupported)) m
  else
    match status m with
    | StatusShutdown => Next (Returned (Some ErrShutdown)) m
    | StatusPaused => Next (Returned None) m
    | StatusPausing => match pauseDone m with Some ch => Next (PauseWaitOther ch) m | None => PanicNil end
    | StatusStarting | StatusUnknown =>
        if isPausing m then match pauseDone m with Some ch => Next (PauseWaitOther ch) m | None => PanicNil end
        else Next PauseWaitStartup m'
    | StatusReady => pause_begin m'
    end.

Definition pause_started (m : Manager) : Outcome :=
  match status m with
  | StatusShutdown => Next (PauseReturn (Some ErrShutdown)) (end_pausing m)
  | StatusReady => pause_begin m
  | StatusStarting => if startupErr m then Next (PauseReturn (Some ErrFunc)) (end_pausing m) else PanicState
  | _ => PanicState
  end.

Definition pause_paused (failed : bool) (m : Manager) : Outcome :=
  match status m with
  | StatusShutdown => Next (PauseReturn (Some ErrShutdown)) (end_pausing m)
  | StatusPausing =>
      if failed then
        Next (PauseReturn (Some ErrFunc)) (set_status StatusReady (set_pauseStart false (end_pausing m)))
      else Next (PauseReturn None) (set_status StatusPaused (end_pausing m))
  | _ => PanicState
  end.

(** [Resume], to its first wait. *)
Definition resume_enter (m : Manager) : Outcome :=
  let cancel := match pauseDone m with Some ch => Next (ResumeWait ch) m | None => PanicNil end in
  if negb (pauseResume m) then Next (Returned (Some ErrPauseUnsupported)) m
  else
    match status m with
    | StatusShutdown => Next (Returned (Some ErrShutdown)) m
    | StatusUnknown | StatusStarting => if isPausing m then cancel else Next (Returned None) m
    | StatusPausing => cancel
    | StatusPaused => Next Resuming (set_held true (set_pauseStart false m))
    | StatusReady => Next (Returned None) m
    end.

(** The next step of the call [t] at [pc]; [None] when it has to wait. *)
Definition advance (t : nat) (pc : Pc) (c : Choice) (m : Manager) : option Outcome :=
  match pc with
  | RunEnter => take m (run_enter m)
  | RunStartup fn => Some (run_startup fn c m)
  | RunStarted => take m (run_started m)
  | RunFailing => Some (close (startupDone m) (Next (Returned (Some ErrFunc)) (close_startup m)))
  | RunMain => Some (Next (RunEnded (result_of c)) m)
  | RunEnded r => Some (close (runDone m) (Next (RunCheck r) (set_run (runCancel m) true m)))
  | RunCheck r =>
      take m (if bool_decide (status m = StatusShutdown) then Next (RunWait r) m else Next (Returned r) m)
  | RunWait r => receive (shutdownDone m) (Next (Returned r) m)
  | ShutEnter => take m (shut_enter m)
  | ShutWaitOther =>
      match c with
      | Good => receive (shutdownDone m) (Next (Returned None) m)
      | Bad => Some (if shutdownCancel m then Next ShutWaitDone m else PanicNil)
      end
  | ShutWaitDone => receive (shutdownDone m) (Next (Returned None) m)
  | ShutClose1 => Some (close (pauseStart m) (Next ShutClose2 (set_pauseStart true m)))
  | ShutClose2 => Some (close (startupDone m) (Next ShutClose3 (close_startup m)))
  | ShutClose3 => Some (close (shutdownDone m) (Next (Returned None) (set_shutdown (shutdownCancel m) true m)))
  | ShutWaitStartup => receive (startupDone m) (Next (ShutFunc false) m)
  | ShutWaitPause =>
      match pauseDone m with
      | Some ch => receive (bool_decide (ch ∈ donePauses m)) (Next (ShutFunc true) m)
      | None => None
      end
  | ShutFunc isRunning =>
      Some (if isRunning then if runCancel m then Next (ShutWaitRun (result_of c)) m else PanicNil
            else Next (ShutReturn (result_of c)) m)
  | ShutWaitRun r => receive (runDone m) (Next (ShutReturn r) m)
  | ShutReturn r => Some (close (shutdownDone m) (Next (Returned r) (set_shutdown (shutdownCancel m) true m)))
  | PauseEnter => take m (pause_enter t m)
  | PauseWaitOther ch =>
      match c with
      | Good => receive (bool_decide (ch ∈ donePauses m)) (Next PauseEnter m)
      | Bad => Some (Next (Returned (Some ErrContext)) m)
      end
  | PauseWaitStartup =>
      match c with
      | Good => receive (startupDone m) (Next PauseStarted m)
      | Bad => Some (Next PauseCancelled m)
      end
  | PauseCancelled => take m (Next (PauseReturn (Some ErrContext)) (end_pausing m))
  | PauseStarted => take m (pause_started m)
  | PausePausing =>                 (* [pauseResume] is read again, without the status *)
      Some (if pauseResume m then Next (PausePaused (match c with Good => false | Bad => true end)) m else PanicNil)
  | PausePaused failed => take m (pause_paused failed m)
  | PauseReturn r =>
      Some (close (bool_decide (t ∈ donePauses m)) (Next (Returned r) (set_donePauses ({[t]} ∪ donePauses m) m)))
  | ResumeEnter => take m (resume_enter m)
  | ResumeWait ch => receive (bool_decide (ch ∈ donePauses m)) (Next ResumeEnter m)
  | Resuming => Some (Next (Returned (result_of c)) (set_status StatusReady (set_held false m)))
  | SetStartupEnter => take m (SetStartupFunc m)
  | SetPauseEnter pr => take m (SetPauseResumer pr m)
  | WaitEnter =>
      match c with
      | Good => receive (startupDone m) (Next (Returned (if startupErr m then Some ErrFunc else None)) m)
      | Bad => Some (Next (Returned (Some ErrContext)) m)
      end
  | Returned r => None
  end.

(** ** The system *)

Record Sys := mkSys { mgr : Manager; threads : gmap nat Pc }.

Definition init : Sys := mkSys NewManager ∅.

(** A new call of a method, or a step of a call. *)
Inductive Act := Call (t : nat) (pc : Pc) | Adv (t : nat) (c : Choice).

Definition entry (pc : Pc) : bool :=
  match pc with
  | RunEnter | ShutEnter | PauseEnter | ResumeEnter | SetStartupEnter | SetPauseEnter _ | WaitEnter => true
  | _ => false
  end.

(** [Some None] when the call panics. *)
Definition do_act (a : Act) (s : Sys) : option (option Sys) :=
  match a with
  | Call t pc =>
      match threads s !! t with
      | None => if entry pc then Some (Some (mkSys (mgr s) (<[t := pc]> (threads s)))) else None
      | Some _ => None
      end
  | Adv t c =>
      match threads s !! t with
      | Some pc =>
          match advance t pc c (mgr s) with
          | Some (Next pc' m) => Some (Some (mkSys m (<[t := pc']> (threads s))))
          | Some _ => Some None
          | None => None
          end
      | None => None
      end
  end.

Inductive reach : Sys -> Prop :=
  | reach_init : reach init
  | reach_act a s s' : reach s -> do_act a s = Some (Some s') -> reach s'.

(** A run, executed. *)
Fixpoint run_acts (l : list Act) (s : Sys) : option Sys :=
  match l with
  | [] => Some s
  | a :: l => match do_act a s with Some (Some s) => run_acts l s | _ => None end
  end.

Lemma run_acts_reach l s s' : reach s -> run_acts l s = Some s' -> reach s'.
Proof.
  revert s. induction l as [|a l IH]; cbn; intros s HR E; [by simplify_eq|].
  destruct (do_act a s) as [[s1|]|] eqn:Ea; [|done|done]. eapply IH; [|exact E]. by eapply reach_act.
Qed.
