(* ===== verification/LifecycleSpec.v ===== *)
(** * What a lifecycle manager promises

    The invariant says, for every status, which calls may be where and which
    channels are closed; it counts the calls at a program counter.  From it: only
    overlapping pauses panic, the status follows the state machine,
    the wrapped functions run one at a time, and the calls never deadlock. *)

From S2P Require Import Prelude Lifecycle.

(** ** Who is where *)

(** Before [startupDone] is closed by [Run]. *)
Definition starting (pc : Pc) : bool := match pc with RunStartup _ | RunStarted => true | _ => false end.
Definition failing (pc : Pc) : bool := match pc with RunFailing => true | _ => false end.
(** Before [runDone] is closed. *)
Definition running (pc : Pc) : bool := match pc with RunMain | RunEnded _ => true | _ => false end.
Definition closing1 (pc : Pc) : bool := match pc with ShutClose1 => true | _ => false end.
Definition closing2 (pc : Pc) : bool := match pc with ShutClose2 => true | _ => false end.
Definition closing3 (pc : Pc) : bool := match pc with ShutClose3 => true | _ => false end.
Definition awaiting_startup (pc : Pc) : bool := match pc with ShutWaitStartup => true | _ => false end.
Definition awaiting_pause (pc : Pc) : bool := match pc with ShutWaitPause => true | _ => false end.
(** A shutdown that stops [Run]. *)
Definition stopping (pc : Pc) : bool :=
  match pc with ShutWaitPause | ShutFunc true | ShutWaitRun _ => true | _ => false end.
(** A shutdown that has nothing to stop, or has done so. *)
Definition finishing (pc : Pc) : bool := match pc with ShutFunc false | ShutReturn _ => true | _ => false end.
(** Before [shutdownDone] is closed. *)
Definition shutting (pc : Pc) : bool :=
  match pc with
  | ShutClose1 | ShutClose2 | ShutClose3 | ShutWaitStartup | ShutWaitPause | ShutFunc _ | ShutWaitRun _ | ShutReturn _ => true
  | _ => false
  end.
Definition pausing (pc : Pc) : bool := match pc with PausePausing | PausePaused _ => true | _ => false end.
Definition resuming (pc : Pc) : bool := match pc with Resuming => true | _ => false end.
(** Before its [pauseDone] is closed. *)
Definition in_pause (pc : Pc) : bool :=
  match pc with
  | PauseWaitStartup | PauseCancelled | PauseStarted | PausePausing | PausePaused _ | PauseReturn _ => true
  | _ => false
  end.

(** How many calls are there. *)
Definition number (f : Pc -> bool) (s : Sys) : Z := tally (fun pc => Z.b2z (f pc)) (threads s).

Lemma number_insert f s t pc m :
  number f (mkSys m (<[t := pc]> (threads s))) =
  number f s + Z.b2z (f pc) - match threads s !! t with Some pc0 => Z.b2z (f pc0) | None => 0 end.
Proof.
  unfold number. cbn [threads]. destruct (threads s !! t) as [x|] eqn:E.
  - rewrite (tally_update _ _ _ _ x E). lia.
  - rewrite tally_insert by done. lia.
Qed.

Lemma b2z_nonneg b : 0 <= Z.b2z b.
Proof. destruct b; cbn; lia. Qed.

Lemma number_nonneg f s : 0 <= number f s.
Proof. apply tally_nonneg. intros x. apply b2z_nonneg. Qed.

Lemma number_ge f s t pc : threads s !! t = Some pc -> Z.b2z (f pc) <= number f s.
Proof. intros E. apply (tally_ge (fun pc => Z.b2z (f pc)) _ t pc); [intros; apply b2z_nonneg|done]. Qed.

Lemma number_pos f s : 0 < number f s -> exists t pc, threads s !! t = Some pc /\ f pc = true.
Proof.
  intros Hp. destruct (tally_pos (fun pc => Z.b2z (f pc)) (threads s) Hp) as (t & pc & E & H).
  exists t, pc. split; [done|]. by destruct (f pc).
Qed.

(** ** The invariant *)

(** In [Ready], [Pausing] and [Paused]. *)
Definition started (m : Manager) (n : (Pc -> bool) -> Z) : Prop :=
  n starting = 0 /\ n failing = 0 /\ startupDone m = true /\ runCancel m = true /\
  n running + Z.b2z (runDone m) = 1 /\ n shutting = 0 /\ shutdownDone m = false.

(** The status decides who may be where and what is closed. *)
Definition inv_status (m : Manager) (n : (Pc -> bool) -> Z) : Prop :=
  match status m with
  | StatusUnknown =>
      n starting = 0 /\ n failing = 0 /\ n running = 0 /\ n shutting = 0 /\ n pausing = 0 /\
      startupDone m = false /\ startupErr m = false /\ runDone m = false /\ shutdownDone m = false /\
      pauseStart m = false /\ held m = false
  | StatusStarting =>
      n starting + n failing + Z.b2z (startupDone m) = 1 /\ n running = 0 /\ n shutting = 0 /\ n pausing = 0 /\
      n failing + Z.b2z (startupDone m) <= Z.b2z (startupErr m) /\
      startupCancel m = true /\ runDone m = false /\ shutdownDone m = false /\ pauseStart m = false /\ held m = false
  | StatusReady => started m n /\ n pausing = 0 /\ pauseStart m = false /\ held m = false
  | StatusPausing => started m n /\ n pausing = 1 /\ pauseStart m = true /\ held m = false
  | StatusPaused => started m n /\ n pausing = 0 /\ pauseStart m = negb (held m)
  | StatusShutdown =>
      n shutting + Z.b2z (shutdownDone m) = 1 /\ shutdownCancel m = true /\ held m = false /\
      n closing1 + Z.b2z (pauseStart m) = 1 /\
      n closing1 + n closing2 + n starting + n failing + Z.b2z (startupDone m) = 1 /\
      n starting + n failing <= n awaiting_startup /\
      n running + Z.b2z (runDone m) <= 1 /\ n running <= n stopping <= n running + Z.b2z (runDone m) /\
      n stopping <= Z.b2z (runCancel m) /\ n pausing <= 1
  end.

(** A channel of a [Pause] is closed, or its call is on the way to close it. *)
Definition will_close (s : Sys) (ch : nat) : Prop :=
  ch ∈ donePauses (mgr s) \/ exists pc, threads s !! ch = Some pc /\ in_pause pc = true.

Record inv (s : Sys) : Prop := {
  i_status : inv_status (mgr s) (fun f => number f s);
  i_held : number resuming s = Z.b2z (held (mgr s));
  i_pauseDone : forall ch, pauseDone (mgr s) = Some ch -> will_close s ch;
  i_waits : forall t ch, threads s !! t = Some (ResumeWait ch) -> will_close s ch;
  i_done : forall ch, ch ∈ donePauses (mgr s) -> exists r, threads s !! ch = Some (Returned r);
  i_isPausing : isPausing (mgr s) = true -> is_Some (pauseDone (mgr s));
  i_awaiting : 0 < number awaiting_pause s -> is_Some (pauseDone (mgr s));
  i_runcheck : forall t r, threads s !! t = Some (RunWait r) -> status (mgr s) = StatusShutdown;
  i_other : forall t, threads s !! t = Some ShutWaitOther \/ threads s !! t = Some ShutWaitDone ->
    status (mgr s) = StatusShutdown;
  i_pauseStarted : forall t, threads s !! t = Some PauseStarted -> startupDone (mgr s) = true;
  i_inPause : forall t pc, threads s !! t = Some pc -> in_pause pc = true -> is_Some (pauseDone (mgr s));
  i_resumer : isPausing (mgr s) = true -> pauseResume (mgr s) = true /\ status (mgr s) <> StatusPaused
}.

(** ** Every step preserves it *)

Lemma inv_status_ext m n n' : (forall f, n f = n' f) -> inv_status m n -> inv_status m n'.
Proof. intros E. unfold inv_status, started. destruct (status m); by rewrite <- !E. Qed.

(** The cases of a step. *)
Ltac cases_step := repeat match goal with
  | H : Some _ = Some _ |- _ => injection H as H; subst; cbn in *
  | H : Next _ _ = Next _ _ |- _ => injection H as ? ?; subst; cbn in *
  | H : None = Some _ |- _ => discriminate H
  | H : Some _ = None |- _ => discriminate H
  | H : PanicClose = Next _ _ |- _ => discriminate H
  | H : PanicNil = Next _ _ |- _ => discriminate H
  | H : PanicState = Next _ _ |- _ => discriminate H
  | H : context [match ?x with _ => _ end] |- _ => destruct x eqn:?; cbn in *
  end.

Ltac unfold_steps H :=
  unfold advance, take, receive, run_enter, run_startup, run_started, shut_enter, pause_enter, pause_started,
    pause_begin, pause_paused, resume_enter, SetStartupFunc, SetPauseResumer, initShutdown, end_pausing, close_startup, close in H.

Section counts.
Context (n : (Pc -> bool) -> Z) (Hn : forall f, 0 <= n f).
Context (Hsub : n closing1 + n closing2 + n closing3 + n awaiting_startup + n stopping <= n shutting).

(** A step, by the counts before it. *)
Lemma status_advance t pc c pc' m m' :
  (forall f, Z.b2z (f pc) <= n f) -> inv_status m n -> n resuming = Z.b2z (held m) ->
  advance t pc c m = Some (Next pc' m') ->
  let n' f := n f + Z.b2z (f pc') - Z.b2z (f pc) in
  inv_status m' n' /\ n' resuming = Z.b2z (held m').
Proof using Hn Hsub.
  intros Hge Hs Hh Ha n'.
  pose proof (Hn starting); pose proof (Hn failing); pose proof (Hn running); pose proof (Hn closing1);
  pose proof (Hn closing2); pose proof (Hn closing3); pose proof (Hn awaiting_startup);
  pose proof (Hn stopping); pose proof (Hn shutting); pose proof (Hn pausing); pose proof (Hn resuming).
  pose proof (Hge starting); pose proof (Hge failing); pose proof (Hge running); pose proof (Hge closing1);
  pose proof (Hge closing2); pose proof (Hge closing3); pose proof (Hge awaiting_startup);
  pose proof (Hge stopping); pose proof (Hge shutting); pose proof (Hge pausing); pose proof (Hge resuming).
  clear Hn Hge.
  destruct m as [st hd sf pr sc sd se rc rd hc hdn ps pdn isp dp]. unfold_steps Ha. unfold n' in *. clear n'.
  unfold inv_status, started in *.
  destruct pc, st; cbn in *; destruct_and?; subst; cbn in *; try lia.
  all: cases_step; subst; cbn in *; try done.
  all: repeat split; try done; try lia.
  all: repeat match goal with |- context [Z.b2z ?b] => destruct b; cbn in *; try lia end.
  all: try (destruct hd; done || (cbn in *; lia)).
  all: first [destruct sd; cbn in *; lia | destruct rd; cbn in *; lia].
Qed.
End counts.

Lemma number_le f g s : (forall pc, Z.b2z (f pc) <= Z.b2z (g pc)) -> number f s <= number g s.
Proof. intros Hfg. by apply tally_le. Qed.

Lemma number_shutting s :
  number closing1 s + number closing2 s + number closing3 s + number awaiting_startup s + number stopping s +
  number finishing s = number shutting s.
Proof. unfold number. rewrite <- !tally_plus. apply tally_ext. by intros []; try destruct isRunning. Qed.

Lemma number_sub s :
  number closing1 s + number closing2 s + number closing3 s + number awaiting_startup s + number stopping s <= number shutting s.
Proof. pose proof (number_shutting s). pose proof (number_nonneg finishing s). lia. Qed.

(** A step that does not touch the pauses. *)
Lemma will_close_step s ch t pc pc' m :
  will_close s ch -> threads s !! t = Some pc -> (in_pause pc = true -> in_pause pc' = true \/ t ∈ donePauses m) ->
  donePauses (mgr s) ⊆ donePauses m -> will_close (mkSys m (<[t := pc']> (threads s))) ch.
Proof.
  intros [Hin|(pc0 & E & Hp)] Ht Hpc Hd; unfold will_close; cbn [mgr threads]; [left; set_solver|].
  destruct (decide (t = ch)) as [<-|Hne]; [|right; exists pc0; by rewrite lookup_insert_ne].
  rewrite Ht in E. injection E as <-. destruct (Hpc Hp) as [Hp'|?]; [|by left].
  right. exists pc'. by rewrite lookup_insert_eq.
Qed.

(** What else a step changes. *)
Lemma advance_facts t pc c pc' m m' :
  advance t pc c m = Some (Next pc' m') ->
  (donePauses m' = if in_pause pc && negb (in_pause pc') then {[t]} ∪ donePauses m else donePauses m) /\
  (in_pause pc = true -> in_pause pc' = false -> exists r, pc' = Returned r) /\
  (pauseDone m' = pauseDone m \/ (pauseDone m' = Some t /\ in_pause pc' = true /\ in_pause pc = false)) /\
  (isPausing m' = true -> isPausing m = true \/ pauseDone m' = Some t) /\
  (forall ch, pc' = ResumeWait ch -> pauseDone m = Some ch) /\
  (pc' = ShutWaitPause -> is_Some (pauseDone m)) /\
  (status m = StatusShutdown -> status m' = StatusShutdown \/ pc = Resuming) /\
  ((exists r, pc' = RunWait r) \/ pc' = ShutWaitOther -> status m' = StatusShutdown) /\
  (pc' = ShutWaitDone -> pc = ShutWaitOther) /\ (forall r, pc <> Returned r) /\
  (in_pause pc' = true -> in_pause pc = true \/ pauseDone m' = Some t) /\
  (startupDone m = true -> startupDone m' = true) /\ (pc' = PauseStarted -> startupDone m' = true) /\
  ((isPausing m = true -> pauseResume m = true /\ status m <> StatusPaused) ->
    isPausing m' = true -> pauseResume m' = true /\ status m' <> StatusPaused).
Proof.
  intros Ha. destruct m as [st hd sf pr sc sd se rc rd hc hdn ps pdn isp dp]. unfold_steps Ha.
  destruct pc; cbn in *; cases_step; subst; cbn in *; bprop.
  all: split_and!; intros; try done; repeat match goal with H : _ \/ _ |- _ => destruct H | H : exists _, _ |- _ => destruct H end; simplify_eq; eauto 6.
  all: try match goal with H : bool_decide (_ = StatusShutdown) = true |- _ => by apply bool_decide_eq_true_1 in H end.
  all: split; [by apply H|done].
Qed.

Lemma inv_adv s t pc c pc' m :
  inv s -> threads s !! t = Some pc -> advance t pc c (mgr s) = Some (Next pc' m) ->
  inv (mkSys m (<[t := pc']> (threads s))).
Proof.
  intros HI Ht Ha. set (s' := mkSys m _).
  destruct (advance_facts _ _ _ _ _ _ Ha) as (Fd & Fr & Fp & Fi & Fw & Fa & Fs & Fc & Fo & Fn & Fq & Fu & Fu' & Fz).
  assert (forall ch, will_close s ch -> will_close s' ch) as HW.
  { intros ch Hw. apply (will_close_step s ch t pc pc' m Hw Ht).
    - intros Hp. rewrite Fd, Hp. destruct (in_pause pc'); [by left|right; cbn; apply elem_of_union; left; by apply elem_of_singleton].
    - rewrite Fd. case_match; [apply union_subseteq_r|done]. }
  assert (status (mgr s) = StatusShutdown -> status m = StatusShutdown) as HS.
  { intros E. destruct (Fs E) as [?|Hpc]; [done|]. subst pc. exfalso.
    pose proof (i_status s HI) as Hs. unfold inv_status in Hs. rewrite E in Hs.
    pose proof (number_ge resuming s t _ Ht) as Hg. rewrite (i_held s HI) in Hg. destruct Hs as (_ & _ & Hh & _).
    rewrite Hh in Hg. cbn in Hg. lia. }
  destruct (status_advance (fun f => number f s) (fun f => number_nonneg f s) (number_sub s) t pc c pc' _ m
    (fun f => number_ge f s t pc Ht) (i_status s HI) (i_held s HI) Ha) as [H1 H2].
  assert (forall f, number f s' = number f s + Z.b2z (f pc') - Z.b2z (f pc)) as HN
    by (intros f; unfold s'; by rewrite number_insert, Ht).
  split; fold s'; cbn [mgr threads].
  - eapply inv_status_ext; [|exact H1]. intros f. cbn. by rewrite HN.
  - by rewrite HN.
  - intros ch E. destruct Fp as [Fp|(Fp & Hp & _)]; [apply HW, (i_pauseDone s HI); cbn in E; congruence|].
    unfold s' in E. cbn in E. rewrite Fp in E. injection E as <-. right. exists pc'. split; [apply lookup_insert_eq|done].
  - intros t' ch E. destruct (decide (t = t')) as [<-|Hne].
    + unfold s' in E. cbn in E. rewrite lookup_insert_eq in E. injection E as ->. apply HW, (i_pauseDone s HI), Fw; done.
    + unfold s' in E. cbn in E. rewrite lookup_insert_ne in E by done. apply HW. by eapply (i_waits s HI).
  - intros ch Hin. assert (ch ∈ donePauses (mgr s) \/ (ch = t /\ exists r, pc' = Returned r)) as [Hd|[-> [r ->]]].
    { unfold s' in Hin. cbn in Hin. rewrite Fd in Hin. destruct (in_pause pc) eqn:E1, (in_pause pc') eqn:E2; cbn in Hin; try by left.
      apply elem_of_union in Hin as [->%elem_of_singleton|?]; [right; auto|by left]. }
    + destruct (i_done s HI ch Hd) as [r E]. exists r. unfold s'. cbn. rewrite lookup_insert_ne; [done|].
      intros <-. rewrite Ht in E. injection E as ->. by destruct (Fn r).
    + exists r. apply lookup_insert_eq.
  - intros E. destruct (Fi E) as [Hi|Hi]; [|by exists t].
    destruct (i_isPausing s HI Hi) as [ch Hch]. destruct Fp as [Fp|(Fp & _)]; cbn; rewrite Fp; eauto.
  - intros Hpos. rewrite HN in Hpos. pose proof (number_ge awaiting_pause s t pc Ht).
    assert (is_Some (pauseDone (mgr s))) as [ch Hch].
    { destruct (decide (0 < number awaiting_pause s)) as [Hp|]; [by apply (i_awaiting s HI)|].
      pose proof (b2z_nonneg (awaiting_pause pc)). apply Fa. destruct pc'; cbn [awaiting_pause Z.b2z] in Hpos; done || lia. }
    destruct Fp as [Fp|(Fp & _)]; cbn; rewrite Fp; eauto.
  - intros t' r E. unfold s' in *. cbn in *. destruct (decide (t = t')) as [<-|Hne].
    + rewrite lookup_insert_eq in E. injection E as ->. apply Fc. left. by exists r.
    + rewrite lookup_insert_ne in E by done. apply HS. by eapply (i_runcheck s HI).
  - intros t' E. unfold s' in *. cbn in *. destruct (decide (t = t')) as [<-|Hne].
    + rewrite lookup_insert_eq in E. destruct E as [E|E]; injection E as ->; [apply Fc; by right|].
      apply HS, (i_other s HI t). left. by rewrite Ht, Fo.
    + rewrite lookup_insert_ne in E by done. apply HS. by eapply (i_other s HI).
  - intros t' E. unfold s' in *. cbn in *. destruct (decide (t = t')) as [<-|Hne].
    + rewrite lookup_insert_eq in E. injection E as ->. by apply Fu'.
    + rewrite lookup_insert_ne in E by done. apply Fu. by eapply (i_pauseStarted s HI).
  - intros t' pc0 E Hp. unfold s' in *. cbn in *.
    assert (is_Some (pauseDone (mgr s)) -> is_Some (pauseDone m)) as Hm
      by (intros [ch Hch]; destruct Fp as [Fp|(Fp & _)]; rewrite Fp; eauto).
    destruct (decide (t = t')) as [<-|Hne].
    + rewrite lookup_insert_eq in E. injection E as ->. destruct (Fq Hp) as [Hq|Hq]; [|by exists t].
      apply Hm. by eapply (i_inPause s HI).
    + rewrite lookup_insert_ne in E by done. apply Hm. by eapply (i_inPause s HI).
  - exact (Fz (i_resumer s HI)).
Qed.

Lemma inv_call s t pc :
  inv s -> threads s !! t = None -> entry pc = true -> inv (mkSys (mgr s) (<[t := pc]> (threads s))).
Proof.
  intros HI Ht He. set (s' := mkSys _ _).
  assert (forall f, f pc = false -> number f s = number f s') as HN.
  { intros f Hf. unfold s'. rewrite number_insert, Ht, Hf. cbn. lia. }
  assert (forall ch, will_close s ch -> will_close s' ch) as HW.
  { intros ch [Hin|(pc0 & E & Hp)]; [by left|]. right. exists pc0. split; [|done]. unfold s'. cbn.
    rewrite lookup_insert_ne; [done|]. intros <-. congruence. }
  assert (forall t' pc0, threads s' !! t' = Some pc0 -> (t' = t /\ pc0 = pc) \/ threads s !! t' = Some pc0) as HT.
  { intros t' pc0 E. unfold s' in E. cbn in E. apply lookup_insert_Some in E as [[-> ->]|[_ E]]; auto. }
  split; fold s'; cbn [mgr].
  - pose proof (i_status s HI) as Hs. unfold inv_status, started in *.
    rewrite <- !HN by by destruct pc. done.
  - rewrite <- HN by by destruct pc. apply (i_held s HI).
  - intros ch E. by apply HW, (i_pauseDone s HI).
  - intros t' ch E. destruct (HT _ _ E) as [[-> <-]|E']; [done|]. apply HW. by eapply (i_waits s HI).
  - intros ch Hin. destruct (i_done s HI ch Hin) as [r E]. exists r. unfold s'. cbn.
    rewrite lookup_insert_ne; [done|]. intros <-. congruence.
  - apply (i_isPausing s HI).
  - rewrite <- HN by by destruct pc. apply (i_awaiting s HI).
  - intros t' r E. destruct (HT _ _ E) as [[-> <-]|E']; [done|]. by eapply (i_runcheck s HI).
  - intros t' [E|E]; destruct (HT _ _ E) as [[-> <-]|E']; try done; eapply (i_other s HI); eauto.
  - intros t' E; destruct (HT _ _ E) as [[-> <-]|E']; [done|]. by eapply (i_pauseStarted s HI).
  - intros t' pc0 E Hp; destruct (HT _ _ E) as [[-> ->]|E']; [by destruct pc|]. by eapply (i_inPause s HI).
  - apply (i_resumer s HI).
Qed.

Lemma manager_reach_inv s : reach s -> inv s.
Proof.
  induction 1 as [|a s s' _ IH Ha].
  - split; cbn; try done; try (intros; by rewrite lookup_empty in * ).
    set_solver.
  - destruct a as [t pc|t c]; cbn in Ha; destruct (threads s !! t) as [pc0|] eqn:Ht; try done.
    + destruct (entry pc) eqn:He; [|done]. injection Ha as <-. by apply inv_call.
    + destruct (advance t pc0 c (mgr s)) as [[pc' m| | |]|] eqn:E; try done. injection Ha as <-. by eapply inv_adv.
Qed.

Lemma pausing_inPause s : inv s -> 0 < number pausing s -> is_Some (pauseDone (mgr s)).
Proof.
  intros HI Hp. destruct (number_pos _ _ Hp) as (t & pc & E & Hf). apply (i_inPause s HI t pc E). by destruct pc.
Qed.

(** ** What a manager promises *)

(** The statuses a status can be followed by. *)
Definition edge (s s' : Status) : bool :=
  match s, s' with
  | StatusUnknown, (StatusStarting | StatusShutdown) => true
  | StatusStarting, (StatusReady | StatusShutdown) => true
  | StatusReady, (StatusPausing | StatusShutdown) => true
  | StatusPausing, (StatusReady | StatusPaused | StatusShutdown) => true
  | StatusPaused, (StatusReady | StatusShutdown) => true
  | _, _ => false
  end.

(** The counts and flags that a status implies, with those of a call. *)
Ltac use_inv s HI t pc Ht :=
  pose proof (i_status s HI) as Hs; pose proof (i_held s HI) as Hh; pose proof (number_sub s) as Hsub;
  pose proof (number_ge starting s t pc Ht); pose proof (number_ge failing s t pc Ht);
  pose proof (number_ge running s t pc Ht); pose proof (number_ge closing1 s t pc Ht);
  pose proof (number_ge closing2 s t pc Ht); pose proof (number_ge closing3 s t pc Ht);
  pose proof (number_ge awaiting_startup s t pc Ht); pose proof (number_ge stopping s t pc Ht);
  pose proof (number_ge shutting s t pc Ht); pose proof (number_ge pausing s t pc Ht);
  pose proof (number_ge resuming s t pc Ht);
  pose proof (number_nonneg starting s); pose proof (number_nonneg failing s); pose proof (number_nonneg running s);
  pose proof (number_nonneg closing1 s); pose proof (number_nonneg closing2 s); pose proof (number_nonneg closing3 s);
  pose proof (number_nonneg awaiting_startup s); pose proof (number_nonneg stopping s); pose proof (number_nonneg pausing s);
  pose proof (number_nonneg resuming s); unfold inv_status, started in Hs.

Ltac cases_all := repeat match goal with
  | H : Some _ = Some _ |- _ => injection H as H; subst; cbn in *
  | H : Next _ _ = Next _ _ |- _ => injection H as ? ?; subst; cbn in *
  | H : None = Some _ |- _ => discriminate H
  | H : Some _ = None |- _ => discriminate H
  | H : PanicClose = Next _ _ |- _ => discriminate H
  | H : PanicNil = Next _ _ |- _ => discriminate H
  | H : PanicState = Next _ _ |- _ => discriminate H
  | H : context [match ?x with _ => _ end] |- _ => destruct x eqn:?; cbn in *
  | |- context [match ?x with _ => _ end] => destruct x eqn:?; cbn in *
  end.

(** The outcomes of a step of a call at [pc]. *)
Definition allowed (m : Manager) (pc : Pc) (o : Outcome) : Prop :=
  match o with
  | Next _ _ => True
  | PanicClose => False
  | PanicNil => pc = PausePausing /\ pauseResume m = false /\ isPausing m = false
  | PanicState => pc = PauseStarted /\ (status m = StatusPausing \/ status m = StatusPaused)
  end.

Lemma outcome_allowed s t pc c o : inv s -> threads s !! t = Some pc -> advance t pc c (mgr s) = Some o -> allowed (mgr s) pc o.
Proof.
  intros HI Ht Ha. unfold allowed. use_inv s HI t pc Ht.
  assert (forall r, pc = PauseReturn r -> t ∉ donePauses (mgr s)) as Hpr.
  { intros r -> Hin. destruct (i_done s HI t Hin) as [r' E]. congruence. }
  pose proof (i_isPausing s HI) as Hip. pose proof (i_resumer s HI) as Hz.
  assert (status (mgr s) = StatusPausing -> is_Some (pauseDone (mgr s))) as Hp .
  { intros E. rewrite E in Hs. apply (pausing_inPause s HI). lia. }
  assert (pc = PauseStarted -> startupDone (mgr s) = true) as Hps by (intros ->; by apply (i_pauseStarted s HI t)).
  assert (pc = ShutWaitOther -> status (mgr s) = StatusShutdown) as Hso by (intros ->; apply (i_other s HI t); by left).
  destruct (mgr s) as [st hd sf pr sc sd se rc rd hc hdn ps pdn isp dp]. unfold_steps Ha.
  destruct pc, st; cbn in *; destruct_and?; subst; cbn in *; try lia.
  all: cases_all; subst; cbn in *; try done; try lia; auto.
  all: first
    [ by destruct (Hp eq_refl) | by destruct (Hip eq_refl)
    | by specialize (Hps eq_refl); subst; cbn in *; lia
    | by apply bool_decide_eq_true_1 in Heqb; destruct (Hpr _ eq_refl)
    | by discriminate (Hso eq_refl)
    | by destruct isp; [destruct (Hz eq_refl)|] ].
Qed.

(** Between setting [isPausing] and clearing it. *)
Definition active (pc : Pc) : bool :=
  match pc with PauseWaitStartup | PauseCancelled | PauseStarted | PausePausing | PausePaused _ => true | _ => false end.

Definition rejoining (pc : Pc) : bool := match pc with PauseStarted => true | _ => false end.

(** The runs in which no [Pause] begins while another one is under way. *)
Inductive calm : Sys -> Prop :=
  | calm_init : calm init
  | calm_act a s s' : calm s -> do_act a s = Some (Some s') -> number active s' <= 1 -> calm s'.

Lemma calm_reach s : calm s -> reach s.
Proof. induction 1; [apply reach_init|by eapply reach_act]. Qed.

Lemma advance_active t pc c m pc' m' : advance t pc c m = Some (Next pc' m') ->
  (active pc' = active pc /\ isPausing m' = isPausing m) \/
  (active pc = false /\ active pc' = true /\ isPausing m' = true) \/
  (active pc = true /\ active pc' = false /\ isPausing m' = false).
Proof.
  intros Ha. destruct m as [st hd sf pr sc sd se rc rd hc hdn ps pdn isp dp]. unfold_steps Ha.
  destruct pc; cbn in *; cases_step; subst; cbn in *; auto.
Qed.

(** Then [isPausing] counts them. *)
Lemma calm_active s : calm s -> number active s = Z.b2z (isPausing (mgr s)).
Proof.
  induction 1 as [|a s s' _ IH Ha Hle]; [done|].
  destruct a as [t pc|t c]; cbn in Ha; destruct (threads s !! t) as [pc0|] eqn:Ht; try done.
  - destruct (entry pc) eqn:He; [|done]. injection Ha as <-. rewrite number_insert, Ht, IH. by destruct pc; cbn; try lia.
  - destruct (advance t pc0 c (mgr s)) as [[pc' m| | |]|] eqn:E; try done. injection Ha as <-.
    rewrite number_insert, Ht in *. pose proof (number_ge active s t pc0 Ht). cbn [mgr].
    destruct (advance_active _ _ _ _ _ _ E) as [[-> ->]|[(E1 & E2 & ->)|(E1 & E2 & ->)]]; rewrite ?E1, ?E2 in *; cbn in *;
      destruct (isPausing (mgr s)); cbn in *; lia.
Qed.

Lemma calm_steps s t pc c o : calm s -> threads s !! t = Some pc -> advance t pc c (mgr s) = Some o -> exists pc' m, o = Next pc' m.
Proof.
  intros HC Ht Ha. pose proof (manager_reach_inv s (calm_reach s HC)) as HI. pose proof (calm_active s HC) as Hn.
  pose proof (outcome_allowed s t pc c o HI Ht Ha) as Ho. pose proof (number_ge active s t pc Ht) as Hg.
  destruct o as [pc' m| | |]; [by eauto|done|..]; cbn in Ho.
  - destruct Ho as (-> & _ & E). rewrite E in Hn. cbn in *. lia.
  - destruct Ho as [-> [E|E]]; cbn in Hg.
    + pose proof (i_status s HI) as Hs. unfold inv_status in Hs. rewrite E in Hs. destruct Hs as (_ & Hp & _).
      assert (number pausing s + number rejoining s <= number active s) as Hle.
      { unfold number. rewrite <- tally_plus. apply tally_le. by intros []. }
      pose proof (number_ge rejoining s t _ Ht) as Hg2. cbn in Hg2.
      destruct (isPausing (mgr s)); cbn in Hn; lia.
    + destruct (isPausing (mgr s)) eqn:Ei; cbn in Hn; [|lia]. by destruct (i_resumer s HI Ei).
Qed.

(** C27: the methods never close a channel twice and never call a cancel function
    that is not set.  Two panics remain, both of a [Pause] that waited for startup
    or went on beside another one: it finds the other at work when it takes the
    status again, or [pauseResume] was set to nil once the other had cleared
    [isPausing].  In a run in which no two [Pause] calls overlap nothing panics. *)
Theorem only_overlapping_pauses_panic s t pc c o (HR : reach s) (Ht : threads s !! t = Some pc)
  (Ha : advance t pc c (mgr s) = Some o) : allowed (mgr s) pc o /\ (calm s -> exists pc' m, o = Next pc' m).
Proof.
  split; [by apply (outcome_allowed s t pc c); [apply manager_reach_inv|..]|]. intros HC. by eapply calm_steps.
Qed.

(** The status only moves along the edges of the state machine, and never
    leaves [StatusShutdown]. *)
Theorem status_moves_along_edges s a s' (HR : reach s) (Ha : do_act a s = Some (Some s')) :
  status (mgr s') = status (mgr s) \/ edge (status (mgr s)) (status (mgr s')) = true.
Proof.
  destruct a as [t pc|t c]; cbn in Ha; destruct (threads s !! t) as [pc0|] eqn:Ht; try done.
  { destruct (entry pc); [|done]. injection Ha as <-. by left. }
  destruct (advance t pc0 c (mgr s)) as [[pc' m| | |]|] eqn:E; try done. injection Ha as <-. cbn.
  pose proof (manager_reach_inv s HR) as HI. use_inv s HI t pc0 Ht. clear HI HR.
  destruct (mgr s) as [st hd sf pr sc sd se rc rd hc hdn ps pdn isp dp]. unfold_steps E.
  destruct pc0, st; cbn in *; destruct_and?; subst; cbn in *; try lia; cases_step; subst; cbn in *;
    try (by left); try (by right); exfalso; lia.
Qed.

(** At most one call is in each wrapped function, [startupFunc] and [runFunc]
    are not run together, nothing is started after [shutdownFunc] was, and once
    [shutdownDone] is closed neither is running; [PauseWait] ends exactly in
    [StatusPausing], in [StatusPaused] until [Resume] begins, and at shutdown. *)
Theorem functions_run_one_at_a_time s (HR : reach s) :
  number starting s + number running s <= 1 /\ number shutting s <= 1 /\
  number pausing s <= 1 /\ number resuming s <= 1 /\
  (shutdownDone (mgr s) = true -> number starting s = 0 /\ number running s = 0 /\ number shutting s = 0) /\
  (forall t b, threads s !! t = Some (ShutFunc b) -> number starting s = 0 /\ number running s <= Z.b2z b) /\
  (pauseStart (mgr s) = true ->
     status (mgr s) = StatusPausing \/ status (mgr s) = StatusPaused \/ status (mgr s) = StatusShutdown) /\
  (status (mgr s) = StatusPausing \/ status (mgr s) = StatusPaused /\ number resuming s = 0 \/
   status (mgr s) = StatusShutdown /\ number closing1 s = 0 -> pauseStart (mgr s) = true).
Proof.
  pose proof (manager_reach_inv s HR) as HI. pose proof (i_status s HI) as Hs. pose proof (i_held s HI) as Hh.
  pose proof (number_shutting s) as Hsub.
  assert (forall t b, threads s !! t = Some (ShutFunc b) ->
    1 <= number (if b then stopping else finishing) s /\ 1 <= number shutting s) as HF.
  { intros t b E. pose proof (number_ge shutting s t _ E). split; [|done].
    destruct b; [exact (number_ge stopping s t _ E)|exact (number_ge finishing s t _ E)]. }
  pose proof (number_nonneg starting s); pose proof (number_nonneg failing s); pose proof (number_nonneg running s);
  pose proof (number_nonneg closing1 s); pose proof (number_nonneg closing2 s); pose proof (number_nonneg closing3 s);
  pose proof (number_nonneg awaiting_startup s); pose proof (number_nonneg stopping s); pose proof (number_nonneg pausing s);
  pose proof (number_nonneg resuming s); pose proof (number_nonneg finishing s).
  unfold inv_status, started in Hs. clear HI HR. destruct (mgr s) as [st hd sf pr sc sd se rc rd hc hdn ps pdn isp dp].
  destruct st; cbn in *; destruct_and?; subst; cbn in *; split_and!; intros; try done; try lia; auto.
  all: try (destruct rd; cbn in *; lia). all: try (destruct hdn; cbn in *; lia). all: try (destruct hd; cbn in *; lia).
  all: try match goal with E : _ !! _ = Some (ShutFunc ?b) |- _ =>
    destruct (HF _ _ E) as [? ?]; destruct b; cbn in *; lia || (destruct sd, rd; cbn in *; lia) end.
  all: repeat match goal with E : _ \/ _ |- _ => destruct E | E : _ /\ _ |- _ => destruct E end; try done.
  all: try match goal with |- ?b = true => destruct b eqn:?; cbn in *; try done; lia end.
  - destruct sd; cbn in *; lia.
  - destruct (HF _ _ H11); destruct b, hdn, rd; cbn in *; lia.
  - destruct hd; cbn in *; [lia|done].
Qed.


(** ** No deadlock *)

Definition can_step (s : Sys) : Prop :=
  exists t pc c o, threads s !! t = Some pc /\ advance t pc c (mgr s) = Some o.

(** The calls that wait for a channel only. *)
Definition waits (pc : Pc) : bool :=
  match pc with
  | RunWait _ | ShutWaitDone | ShutWaitStartup | ShutWaitPause | ShutWaitRun _ | ResumeWait _ | Returned _ => true
  | _ => false
  end.

Lemma can_step_free s t pc : inv s -> threads s !! t = Some pc -> waits pc = false -> can_step s.
Proof.
  intros HI Ht Hw. destruct (held (mgr s)) eqn:Eh.
  - assert (0 < number resuming s) as Hp by (rewrite (i_held s HI), Eh; cbn; lia).
    destruct (number_pos _ _ Hp) as (t' & pc' & E & Hf). destruct pc'; try done.
    exists t', Resuming, Good. by eexists.
  - exists t, pc, Bad. destruct pc; cbn; unfold take; rewrite ?Eh; try done; by eexists.
Qed.

Lemma can_step_class s f : inv s -> (forall pc, f pc = true -> waits pc = false) -> 0 < number f s -> can_step s.
Proof.
  intros HI Hf Hp. destruct (number_pos _ _ Hp) as (t & pc & E & Hc). by apply (can_step_free s t pc HI E), Hf.
Qed.

Lemma can_step_pause s ch : inv s -> will_close s ch -> ch ∈ donePauses (mgr s) \/ can_step s.
Proof.
  intros HI [Hin|(pc & E & Hp)]; [by left|]. right. apply (can_step_free s ch pc HI E). by destruct pc.
Qed.

(** A shutdown always goes on. *)
Lemma can_step_shutting s : inv s -> status (mgr s) = StatusShutdown -> shutdownDone (mgr s) = false -> can_step s.
Proof.
  intros HI Es Ed. pose proof (i_status s HI) as Hs. unfold inv_status in Hs. rewrite Es, Ed in Hs.
  destruct Hs as (H1 & _ & _ & _ & H2 & H3 & H4 & H5 & _).
  assert (0 < number shutting s) as Hp by (cbn in *; lia).
  destruct (number_pos _ _ Hp) as (t & pc & E & Hc). destruct (waits pc) eqn:Ew; [|by eapply can_step_free].
  pose proof (number_shutting s) as Hsub. pose proof (number_nonneg closing1 s). pose proof (number_nonneg closing2 s).
  pose proof (number_nonneg closing3 s). pose proof (number_nonneg finishing s). pose proof (number_nonneg stopping s).
  destruct pc; try done.
  - pose proof (number_ge awaiting_startup s t _ E) as Hg. cbn in Hg.
    destruct (startupDone (mgr s)) eqn:Esd; [exists t, ShutWaitStartup, Good; cbn; rewrite Esd; by eexists|].
    destruct (decide (0 < number starting s)); [by apply (can_step_class s starting HI); [intros []|]|].
    apply (can_step_class s failing HI); [by intros []|]. cbn in *. lia.
  - assert (0 < number awaiting_pause s) as Hg by (pose proof (number_ge awaiting_pause s t _ E) as Hg; cbn in Hg; lia).
    destruct (i_awaiting s HI Hg) as [ch Hch]. destruct (can_step_pause s ch HI (i_pauseDone s HI ch Hch)) as [Hin|]; [|done].
    exists t, ShutWaitPause, Good. cbn. rewrite Hch, bool_decide_eq_true_2 by done. by eexists.
  - pose proof (number_ge stopping s t _ E) as Hg. cbn in Hg.
    destruct (runDone (mgr s)) eqn:Er; [exists t, (ShutWaitRun r), Good; cbn; rewrite Er; by eexists|].
    apply (can_step_class s running HI); [by intros []|]. cbn in *. lia.
Qed.

(** No deadlock: while a call has not returned, some call can take its next
    step. *)
Theorem some_call_can_step s t pc (HR : reach s) (Ht : threads s !! t = Some pc)
  (Hpc : forall r, pc <> Returned r) : can_step s.
Proof.
  pose proof (manager_reach_inv s HR) as HI.
  assert (status (mgr s) = StatusShutdown -> shutdownDone (mgr s) = true \/ can_step s) as HD.
  { intros E. destruct (shutdownDone (mgr s)) eqn:Ed; [by left|right; by apply can_step_shutting]. }
  assert (0 < number shutting s -> status (mgr s) = StatusShutdown /\ shutdownDone (mgr s) = false) as HS.
  { intros Hp. pose proof (i_status s HI) as Hs. unfold inv_status, started in Hs.
    destruct (status (mgr s)); try (exfalso; lia). split; [done|]. destruct (shutdownDone (mgr s)); cbn in *; [lia|done]. }
  destruct (shutting pc) eqn:Esh.
  { pose proof (number_ge shutting s t pc Ht) as Hg. rewrite Esh in Hg. cbn in Hg.
    destruct HS as [? ?]; [lia|]. by apply can_step_shutting. }
  destruct (waits pc) eqn:Ew; [|by eapply can_step_free].
  destruct pc; try done.
  - destruct (HD (i_runcheck s HI t r Ht)) as [Ed|]; [|done]. exists t, (RunWait r), Good. cbn. rewrite Ed. by eexists.
  - destruct (HD (i_other s HI t (or_intror Ht))) as [Ed|]; [|done]. exists t, ShutWaitDone, Good. cbn. rewrite Ed. by eexists.
  - destruct (can_step_pause s ch HI (i_waits s HI t ch Ht)) as [Hin|]; [|done].
    exists t, (ResumeWait ch), Good. cbn. rewrite bool_decide_eq_true_2 by done. by eexists.
  - by destruct (Hpc r).
Qed.

(** Normal operation, as if no [Pause] had been called. *)
Definition unpaused (m : Manager) : Prop :=
  status m = StatusReady /\ pauseStart m = false /\ isPausing m = false.

(** A [Pause] returns nil with the manager paused, and after its function
    failed the manager is as before; [Resume] always ends ready; [Shutdown] returns
    only when nothing runs any more. *)
Theorem calls_keep_their_word m0 t pc c pc' m (Ha : advance t pc c m0 = Some (Next pc' m)) :
  (pc' = PauseReturn None \/ pc = PauseEnter /\ pc' = Returned None -> status m = StatusPaused) /\
  (forall f, pc = PausePaused f -> pc' <> PauseReturn None ->
     status m = StatusShutdown \/ unpaused m) /\
  (pc = Resuming -> status m = StatusReady) /\
  (forall r, (pc = ShutClose3 \/ pc = ShutWaitOther \/ pc = ShutWaitDone \/ pc = ShutReturn r) -> pc' <> ShutWaitDone ->
     shutdownDone m = true) /\
  (pc' = RunMain -> startupErr m = false /\ startupDone m = true /\ status m = StatusReady).
Proof.
  unfold unpaused. destruct m0 as [st hd sf pr sc sd se rc rd hc hdn ps pdn isp dp]. unfold_steps Ha.
  destruct pc; cbn in *; cases_step; subst; cbn in *; naive_solver.
Qed.

(** ** Runs *)

(** A [Pause] waits for startup, [Run] becomes ready, and a second [Pause]
    begins. *)
Definition two_pauses : list Act :=
  [Call 0 (SetPauseEnter true); Adv 0 Good; Call 1 PauseEnter; Adv 1 Good; Call 2 RunEnter; Adv 2 Good; Adv 2 Good;
   Adv 2 Good; Call 3 PauseEnter; Adv 3 Good].

Definition overlapping : Sys := default init (run_acts (two_pauses ++ [Adv 1 Good]) init).

Lemma overlapping_reach : reach overlapping.
Proof. apply (run_acts_reach (two_pauses ++ [Adv 1 Good]) init); [apply reach_init|by vm_compute]. Qed.

(** [isPausing] is not looked at in [StatusReady]: the first [Pause] panics. *)
Lemma overlapping_pauses_panic : reach overlapping /\ do_act (Adv 1 Good) overlapping = Some None.
Proof. split; [exact overlapping_reach|by vm_compute]. Qed.

(** The second [Pause] fails and clears [isPausing], so that [SetPauseResumer] may
    set nil; the first goes on without another look and calls it. *)
Definition without_resumer : list Act :=
  two_pauses ++ [Adv 3 Bad; Adv 3 Good; Adv 3 Good; Call 4 (SetPauseEnter false); Adv 4 Good; Adv 1 Good; Adv 1 Good].

Definition unset : Sys := default init (run_acts without_resumer init).

Lemma nil_resumer_panics :
  reach unset /\ threads unset !! 1%nat = Some PausePausing /\ do_act (Adv 1 Good) unset = Some None.
Proof.
  split; [|by vm_compute]. apply (run_acts_reach without_resumer init); [apply reach_init|by vm_compute].
Qed.

(** The second [Pause] fails and the first goes on, with the [pauseDone] of the
    second: [Shutdown] does not wait for it. *)
Definition beside_pause : Sys :=
  default init (run_acts (two_pauses ++ [Adv 3 Bad; Adv 3 Good; Adv 3 Good; Adv 1 Good; Adv 1 Good;
    Call 4 ShutEnter; Adv 4 Good; Adv 4 Good]) init).

Lemma shutdown_beside_pause :
  reach beside_pause /\ threads beside_pause !! 1%nat = Some PausePausing /\
  threads beside_pause !! 4%nat = Some (ShutFunc true).
Proof.
  split; [|by vm_compute].
  apply (run_acts_reach (two_pauses ++ [Adv 3 Bad; Adv 3 Good; Adv 3 Good; Adv 1 Good; Adv 1 Good;
    Call 4 ShutEnter; Adv 4 Good; Adv 4 Good]) init); [apply reach_init|by vm_compute].
Qed.

(** A pause that succeeds, up to its end, and a shutdown of the paused manager. *)
Definition one_pause : list Act :=
  [Call 0 (SetPauseEnter true); Adv 0 Good; Call 2 RunEnter; Adv 2 Good; Adv 2 Good; Adv 2 Good; Call 3 PauseEnter;
   Adv 3 Good; Adv 3 Good].

Definition about_to_pause : Sys := default init (run_acts one_pause init).

Lemma about_to_pause_reach : reach about_to_pause.
Proof. apply (run_acts_reach one_pause init); [apply reach_init|by vm_compute]. Qed.

(** No other [Pause] came near this one. *)
Lemma run_calm l : forall s s', calm s ->
  Forall (fun k => number active (default init (run_acts (firstn k l) s)) <= 1) (seq 0 (S (length l))) ->
  run_acts l s = Some s' -> calm s'.
Proof.
  induction l as [|a l IH]; cbn [run_acts]; intros s s' HC HF E; [by simplify_eq|].
  destruct (do_act a s) as [[s1|]|] eqn:Ea; [|done|done].
  change (length (a :: l)) with (S (length l)) in HF. rewrite <- cons_seq, <- fmap_S_seq in HF. apply Forall_cons in HF as [_ HF].
  rewrite Forall_fmap in HF. apply (IH s1); [|apply (Forall_impl _ _ _ HF); intros k; cbn; by rewrite Ea|done].
  apply (calm_act a s); [done..|]. cbn [seq] in HF. apply Forall_cons in HF as [HF _]. cbn in HF. by rewrite Ea in HF.
Qed.

Lemma about_to_pause_calm : calm about_to_pause.
Proof.
  apply (run_calm one_pause init); [apply calm_init|by apply (bool_decide_unpack _); vm_compute|by vm_compute].
Qed.

Definition stopping_paused : Sys :=
  default init (run_acts (one_pause ++ [Adv 3 Good; Adv 3 Good; Call 4 ShutEnter; Adv 4 Good]) init).

Lemma stopping_paused_reach : reach stopping_paused.
Proof.
  apply (run_acts_reach (one_pause ++ [Adv 3 Good; Adv 3 Good; Call 4 ShutEnter; Adv 4 Good]) init);
    [apply reach_init|by vm_compute].
Qed.

Lemma only_overlapping_pauses_panic_witness :
  (PausePausing = PausePausing /\ pauseResume (mgr unset) = false /\ isPausing (mgr unset) = false) /\
  exists pc' m, advance 3 (PausePaused false) Good (mgr about_to_pause) = Some (Next pc' m).
Proof.
  split.
  - exact (proj1 (only_overlapping_pauses_panic unset 1 PausePausing Good PanicNil (proj1 nil_resumer_panics)
      ltac:(vm_compute; reflexivity) ltac:(vm_compute; reflexivity))).
  - destruct (advance 3 (PausePaused false) Good (mgr about_to_pause)) as [o|] eqn:E; [|by vm_compute in E].
    destruct (proj2 (only_overlapping_pauses_panic about_to_pause 3 (PausePaused false) Good o about_to_pause_reach
      ltac:(vm_compute; reflexivity) E) about_to_pause_calm) as (pc' & m & ->). by exists pc', m.
Defined.

Lemma status_moves_along_edges_witness :
  exists s', do_act (Adv 3 Good) about_to_pause = Some (Some s') /\ status (mgr s') = StatusPaused /\
    (status (mgr s') = StatusPausing \/ edge StatusPausing (status (mgr s')) = true).
Proof.
  exists (default init (run_acts [Adv 3%nat Good] about_to_pause)). split; [vm_compute; reflexivity|].
  split; [vm_compute; reflexivity|].
  exact (status_moves_along_edges about_to_pause (Adv 3 Good) _ about_to_pause_reach ltac:(vm_compute; reflexivity)).
Defined.

Lemma functions_run_one_at_a_time_witness :
  threads stopping_paused !! 4%nat = Some (ShutFunc true) /\
  number running stopping_paused = 1 /\ number starting stopping_paused + number running stopping_paused <= 1.
Proof.
  split; [vm_compute; reflexivity|]. split; [vm_compute; reflexivity|].
  exact (proj1 (functions_run_one_at_a_time stopping_paused stopping_paused_reach)).
Defined.

Lemma some_call_can_step_witness : can_step stopping_paused.
Proof.
  exact (some_call_can_step stopping_paused 4 (ShutFunc true) stopping_paused_reach ltac:(vm_compute; reflexivity)
    (fun r => ltac:(discriminate))).
Defined.

Lemma calls_keep_their_word_witness :
  exists m, advance 3 (PausePaused false) Good (mgr about_to_pause) = Some (Next (PauseReturn None) m) /\
    status m = StatusPaused.
Proof.
  eexists. split; [vm_compute; reflexivity|].
  exact (proj1 (calls_keep_their_word (mgr about_to_pause) 3 (PausePaused false) Good (PauseReturn None) _
    ltac:(vm_compute; reflexivity)) (or_introl eq_refl)).
Defined.
