(* ===== verification/Escalation.v ===== *)
(** * Alerts and their escalation: [engine/escalationmanager]

    Every alert of a service whose policy has steps has a row in
    [escalation_policy_state].  A cycle of the manager brings the users on call
    for every step up to date, and then escalates: alerts that were never
    escalated to the first step, alerts whose step was deleted, and alerts whose
    delay is over, or that were forced, to the next step.  Each of the three
    statements notifies the users on call and the channels of the step.

    A table is a map by its primary key, or a list of rows; a join along a
    foreign key is a lookup.  [Static] is what a cycle only reads.  The order of
    a scan is that of [map_range]. *)

From S2P Require Import Prelude Effects Database GoTime.

(** ** Tables *)

Inductive AlertStatus := StatusTriggered | StatusActive | StatusClosed.

#[global] Instance AlertStatus_eq_dec : EqDecision AlertStatus.
Proof. solve_decision. Defined.

(** [alerts], [services], [escalation_policies], [escalation_policy_steps] *)
Record Alert := mkAlert { al_status : AlertStatus; al_service : UUID }.
Record Service := mkService { sv_policy : UUID; sv_org : UUID; maintenance_expires_at : option Z }.
Record Policy := mkPolicy { ep_org : UUID; ep_repeat : Z; step_count : Z }.
Record Step := mkStep { st_policy : UUID; step_number : Z; delay : Z; multi_ack : bool }.

(** [escalation_policy_actions]: [epa_there_can_only_be_one] *)
Inductive Target := TgtUser (id : UUID) | TgtSchedule (id : UUID) | TgtRotation (id : UUID) | TgtChannel (id : UUID).
Record Action := mkAction { act_step : UUID; act_target : Target }.

(** [escalation_policy_state] *)
Record EPState := mkState {
  es_policy : UUID;
  es_step : option UUID;
  es_number : Z;
  force_escalation : bool;
  last_escalation : option Z;
  loop_count : Z;
  next_escalation : option Z
}.

(** [ep_step_on_call_users] *)
Record StepOnCall := mkOnCall { oc_step : UUID; oc_user : UUID; oc_start : Z; oc_end : option Z }.

(** [notification_policy_cycles]: the columns an escalation gives. *)
Record NewCycle := mkCycle { nc_alert : Z; nc_user : UUID; nc_multi_ack : bool; nc_started : Z }.

(** [outgoing_messages]: alert notifications to channels. *)
Record ChannelMessage := mkMessage { cm_alert : Z; cm_service : UUID; cm_policy : UUID; cm_channel : UUID }.

(** [alertlog.EscalationMetaData] *)
Record EscalationMetaData := mkMeta {
  NewStepIndex : Z; Repeat : bool; Forced : bool; Deleted : bool; OldDelayMinutes : Z; NoOneOnCall : bool
}.

#[global] Instance Meta_eq_dec : EqDecision EscalationMetaData.
Proof. solve_decision. Defined.
#[global] Instance Meta_countable : Countable EscalationMetaData.
Proof.
  refine (inj_countable' (fun m => (NewStepIndex m, Repeat m, Forced m, Deleted m, OldDelayMinutes m, NoOneOnCall m))
    (fun '(a, b, c, d, e, f) => mkMeta a b c d e f) _). by intros [].
Defined.

Record Static := mkStatic {
  t_alerts : gmap Z Alert;
  t_policies : gmap UUID Policy;
  t_steps : gmap UUID Step;
  t_actions : list Action;
  t_rotation_state : gmap UUID UUID;      (** the participant whose turn it is *)
  t_participants : gmap UUID UUID;        (** the user of a participant *)
  t_schedule_on_call : list (UUID * UUID);  (** the open rows *)
  t_affiliation : gmap UUID UUID          (** [CurrentUserOrganizationsQuery] *)
}.

Record Tables := mkTables {
  t_services : gmap UUID Service;
  t_states : gmap Z EPState;
  t_on_call : list StepOnCall;
  t_cycles : list NewCycle;
  t_messages : list ChannelMessage;
  t_logs : list (Z * EscalationMetaData)
}.

Definition set_services (m : gmap UUID Service) (t : Tables) : Tables :=
  mkTables m (t_states t) (t_on_call t) (t_cycles t) (t_messages t) (t_logs t).
Definition set_states (m : gmap Z EPState) (t : Tables) : Tables :=
  mkTables (t_services t) m (t_on_call t) (t_cycles t) (t_messages t) (t_logs t).
Definition set_on_call (l : list StepOnCall) (t : Tables) : Tables :=
  mkTables (t_services t) (t_states t) l (t_cycles t) (t_messages t) (t_logs t).
Definition set_notified (cs : list NewCycle) (ms : list ChannelMessage) (t : Tables) : Tables :=
  mkTables (t_services t) (t_states t) (t_on_call t) cs ms (t_logs t).
Definition set_logs (l : list (Z * EscalationMetaData)) (t : Tables) : Tables :=
  mkTables (t_services t) (t_states t) (t_on_call t) (t_cycles t) (t_messages t) l.

Section Manager.
Context {HR : GoMapRange} {HG : GoSort}.
Context (st : Static).
(** Database calls; the alerts of which another transaction holds a row. *)
Context (db_err : nat -> option DBErr) (adv_lock : nat -> bool) (clock : nat -> Z) (locked : Z -> Z -> bool).

Local Notation M := (Effects.M (DBWorld Tables) DBErr).
Local Notation stmt := (Database.stmt db_err).
Local Notation WithTx := (Database.WithTx db_err adv_lock clock).
Local Notation Exec := (Database.Exec db_err adv_lock clock).

(** ** Users on call *)

(** [coalesce(act.user_id, part.user_id, sched.user_id)], null rows left out. *)
Definition target_users (a : Target) : list UUID :=
  match a with
  | TgtUser u => [u]
  | TgtRotation r =>
      match p ← t_rotation_state st !! r; t_participants st !! p with Some u => [u] | None => [] end
  | TgtSchedule s => map snd (List.filter (fun r => fst r =? s) (t_schedule_on_call st))
  | TgtChannel _ => []
  end.

Definition affiliated (u org : UUID) : bool := bool_decide (t_affiliation st !! u = Some org).

(** [on_call]: step and user. *)
Definition on_call : list (UUID * UUID) :=
  flat_map (fun a =>
    match s ← t_steps st !! act_step a; t_policies st !! st_policy s with
    | Some ep => map (pair (act_step a)) (List.filter (fun u => affiliated u (ep_org ep)) (target_users (act_target a)))
    | None => []
    end) (t_actions st).

Definition is_open (s u : UUID) (r : StepOnCall) : bool :=
  (oc_step r =? s) && (oc_user r =? u) && bool_decide (oc_end r = None).

(** [_end] *)
Definition end_on_call (now : Z) (r : StepOnCall) : StepOnCall :=
  if bool_decide (oc_end r = None) && negb (bool_decide ((oc_step r, oc_user r) ∈ on_call))
  then mkOnCall (oc_step r) (oc_user r) (oc_start r) (Some now) else r.

(** [on conflict do nothing], with the index [idx_ep_step_on_call]. *)
Definition insert_on_call (now : Z) (rows : list StepOnCall) (su : UUID * UUID) : list StepOnCall :=
  if existsb (is_open (fst su) (snd su)) rows then rows
  else rows ++ [mkOnCall (fst su) (snd su) now None].

Definition updateOnCall (now : Z) (t : Tables) : Tables :=
  set_on_call (fold_left (insert_on_call now) on_call (map (end_on_call now) (t_on_call t))) t.

(** ** Maintenance, and policies without steps *)

Definition clear_maintenance (now : Z) (s : Service) : Service :=
  match maintenance_expires_at s with
  | Some e => if e <=? now then mkService (sv_policy s) (sv_org s) None else s
  | None => s
  end.

Definition clearMaintExpiredSvc (now : Z) (t : Tables) : Tables :=
  set_services (clear_maintenance now <$> t_services t) t.

Definition no_steps (s : EPState) : bool :=
  bool_decide (es_step s = None) &&
  match t_policies st !! es_policy s with Some p => step_count p =? 0 | None => false end.

Definition cleanupNoSteps (t : Tables) : Tables :=
  set_states (filter (fun '(_, s) => no_steps s = false) (t_states t)) t.

(** ** What is escalated *)

(** [to_escalate] *)
Record Esc := mkEsc {
  e_alert : Z; e_step : UUID; e_number : Z; e_delay : Z; e_policy : UUID; e_service : UUID; e_multi_ack : bool;
  e_repeated : bool; e_forced : bool; e_old_delay : Z
}.

(** The step with a number: [(escalation_policy_id, step_number)] is unique. *)
Definition step_at (ep : UUID) (n : Z) : option (UUID * Step) :=
  head (List.filter (fun '(_, s) => (st_policy s =? ep) && (step_number s =? n)) (map_range (t_steps st))).

(** The joins with [alerts] and [services]: the alert may be escalated. *)
Definition escalatable (t : Tables) (id : Z) (s : EPState) : option UUID :=
  a ← t_alerts st !! id;
  sv ← t_services t !! al_service a;
  if (bool_decide (al_status a = StatusTriggered) || force_escalation s) &&
     bool_decide (maintenance_expires_at sv = None)
  then Some (al_service a) else None.

Definition new_esc (t : Tables) (id : Z) (s : EPState) : option Esc :=
  '(sid, step) ← step_at (es_policy s) 0;
  svc ← escalatable t id s;
  match last_escalation s with
  | None => Some (mkEsc id sid (step_number step) (delay step) (es_policy s) svc (multi_ack step) false false 0)
  | Some _ => None
  end.

Definition deleted_esc (t : Tables) (id : Z) (s : EPState) : option Esc :=
  svc ← escalatable t id s;
  ep ← t_policies st !! es_policy s;
  let repeated := step_count ep <=? es_number s in
  '(sid, step) ← step_at (es_policy s) (if repeated then 0 else es_number s);
  match last_escalation s, es_step s with
  | Some _, None =>
      Some (mkEsc id sid (step_number step) (delay step) (es_policy s) svc (multi_ack step) repeated false 0)
  | _, _ => None
  end.

(** The [CASE] of [normalEscalation]: -1 is the number of no step. *)
Definition next_number (ep : Policy) (s : EPState) (old : Z) : Z :=
  if old + 1 <? step_count ep then old + 1
  else if force_escalation s || (ep_repeat ep =? -1) then 0
  else if loop_count s <? ep_repeat ep then 0
  else -1.

Definition normal_esc (t : Tables) (now : Z) (id : Z) (s : EPState) : option Esc :=
  svc ← escalatable t id s;
  ep ← t_policies st !! es_policy s;
  oid ← es_step s;
  old ← t_steps st !! oid;
  '(sid, step) ← step_at (es_policy s) (next_number ep s (step_number old));
  match last_escalation s with
  | Some _ =>
      if match next_escalation s with Some n => n <? now | None => false end || force_escalation s
      then Some (mkEsc id sid (step_number step) (delay step) (es_policy s) svc (multi_ack step)
             (step_count ep <=? step_number old + 1) (force_escalation s) (delay old))
      else None
  | None => None
  end.

(** [for update skip locked limit n] *)
Definition take_unlocked (now : Z) (n : nat) (l : list Esc) : list Esc :=
  firstn n (List.filter (fun e => negb (locked now (e_alert e))) l).

Definition new_to_escalate (now : Z) (t : Tables) : list Esc :=
  take_unlocked now 1000 (omap (fun '(id, s) => new_esc t id s) (map_range (t_states t))).

Definition deleted_to_escalate (now : Z) (t : Tables) : list Esc :=
  take_unlocked now 100 (omap (fun '(id, s) => deleted_esc t id s) (map_range (t_states t))).

(** [order by next_escalation - now()], nulls last. *)
Definition due_before (a b : Z * EPState) : bool :=
  match next_escalation (snd a), next_escalation (snd b) with
  | Some x, Some y => x <? y
  | Some _, None => true
  | None, _ => false
  end.

Definition normal_to_escalate (now : Z) (t : Tables) : list Esc :=
  take_unlocked now 500 (omap (fun '(id, s) => normal_esc t now id s) (sort_slice due_before (map_range (t_states t)))).

(** ** Escalating *)

(** [_step_cycles]: the users to notify. *)
Definition step_users (t : Tables) (e : Esc) : list UUID :=
  match t_policies st !! e_policy e, t_services t !! e_service e with
  | Some ep, Some sv =>
      if sv_org sv =? ep_org ep then
        map oc_user (List.filter (fun r =>
          bool_decide (oc_end r = None) && (oc_step r =? e_step e) && affiliated (oc_user r) (ep_org ep)) (t_on_call t))
      else []
  | _, _ => []
  end.

(** [_step_channels] *)
Definition step_channels (e : Esc) : list UUID :=
  omap (fun a => match act_target a with TgtChannel c => if act_step a =? e_step e then Some c else None | _ => None end)
    (t_actions st).

Definition esc_cycles (now : Z) (t : Tables) (e : Esc) : list NewCycle :=
  map (fun u => mkCycle (e_alert e) u (e_multi_ack e) now) (step_users t e).

Definition esc_messages (e : Esc) : list ChannelMessage :=
  map (mkMessage (e_alert e) (e_service e) (e_policy e)) (step_channels e).

(** [step isnull and chan isnull] *)
Definition no_one (t : Tables) (e : Esc) : bool :=
  bool_decide (step_users t e = []) && bool_decide (step_channels e = []).

(** [_update], with the columns that the statements do not share. *)
Definition set_escalated (now : Z) (num loop : Z) (e : Esc) (s : EPState) : EPState :=
  mkState (es_policy s) (Some (e_step e)) num false (Some now) loop (Some (now + e_delay e * Minute)).

Definition upd_new (now : Z) (e : Esc) (s : EPState) : EPState :=
  set_escalated now (es_number s) (loop_count s) e s.
Definition upd_deleted (now : Z) (e : Esc) (s : EPState) : EPState :=
  set_escalated now (e_number e) (loop_count s) e s.
Definition upd_normal (now : Z) (e : Esc) (s : EPState) : EPState :=
  set_escalated now (e_number e) (if e_repeated e then loop_count s + 1 else loop_count s) e s.

(** The statement: all its parts read the tables as they were. *)
Definition escalate (sel : list Esc) (upd : Esc -> EPState -> EPState) (meta : bool -> Esc -> EscalationMetaData)
  (now : Z) (t : Tables) : list (Z * EscalationMetaData) * Tables :=
  (map (fun e => (e_alert e, meta (no_one t e) e)) sel,
   set_states (fold_left (fun m e => alter (upd e) (e_alert e) m) sel (t_states t))
     (set_notified (t_cycles t ++ flat_map (esc_cycles now t) sel) (t_messages t ++ flat_map esc_messages sel) t)).

Definition meta_new (noOne : bool) (e : Esc) : EscalationMetaData := mkMeta 0 false false false 0 noOne.
Definition meta_deleted (noOne : bool) (e : Esc) : EscalationMetaData :=
  mkMeta (e_number e) (e_repeated e) false false 0 noOne.
Definition meta_normal (noOne : bool) (e : Esc) : EscalationMetaData :=
  mkMeta (e_number e) (e_repeated e) (e_forced e) false (e_old_delay e) noOne.

Definition newPolicies (now : Z) (t : Tables) : list (Z * EscalationMetaData) * Tables + DBErr :=
  inl (escalate (new_to_escalate now t) (upd_new now) meta_new now t).

Definition deletedSteps (now : Z) (t : Tables) : list (Z * EscalationMetaData) * Tables + DBErr :=
  inl (escalate (deleted_to_escalate now t) (upd_deleted now) meta_deleted now t).

(** [loop_count] is an [integer]. *)
Definition loop_overflow (t : Tables) (e : Esc) : bool :=
  e_repeated e && match t_states t !! e_alert e with Some s => 2147483647 <=? loop_count s | None => false end.

Definition normalEscalation (now : Z) (t : Tables) : list (Z * EscalationMetaData) * Tables + DBErr :=
  let sel := normal_to_escalate now t in
  if existsb (loop_overflow t) sel then inr (PgErr "22003" "")
  else inl (escalate sel (upd_normal now) meta_normal now t).

(** ** The cycle *)

(** [batch[*esc] = append(batch[*esc], id)] *)
Definition add_batch (batch : gmap EscalationMetaData (list Z)) (row : Z * EscalationMetaData)
  : gmap EscalationMetaData (list Z) :=
  <[snd row := default [] (batch !! snd row) ++ [fst row]]> batch.

(** [LogManyTx]: one entry for every alert. *)
Definition LogManyTx (ids : list Z) (meta : EscalationMetaData) : M unit :=
  stmt (fun t => inl (tt, set_logs (t_logs t ++ map (fun id => (id, meta)) ids) t)).

Definition processEscalations (f : Z -> Tables -> list (Z * EscalationMetaData) * Tables + DBErr) : M unit :=
  WithTx (fun now =>
    let! rows := stmt (f now) in
    let batch := fold_left add_batch rows ∅ in
    each (fun '(meta, ids) => LogManyTx ids meta) (map_range batch)).

Definition update : M unit :=
  WithTx (fun now => Database.call db_err ;;; stmt (fun t => inl (tt, updateOnCall now t))) ;;;
  Exec (fun now t => inl (clearMaintExpiredSvc now t)) ;;;
  Exec (fun _ t => inl (cleanupNoSteps t)) ;;;
  processEscalations newPolicies ;;;
  processEscalations deletedSteps ;;;
  processEscalations normalEscalation.
End Manager.
