(* ===== verification/EscalationSpec.v ===== *)
(** * What a cycle of escalations does

    The users on call for the steps are brought up to date exactly.  The
    escalations of an alert follow its policy, step after step, and end with the
    last repetition, whatever fails and whatever else changes.  An alert that is
    acknowledged, or whose service is in maintenance, is left alone; a new alert
    is escalated in the next cycle that fails nowhere, and exactly the users on
    call and the channels of its first step are notified. *)

From S2P Require Import Prelude Effects Database GoTime Escalation.

Section spec.
Context {HR : GoMapRange} {HG : GoSort}.

(** ** Users on call *)

(** The users a target stands for. *)
Definition stands_for (st : Static) (a : Target) (u : UUID) : Prop :=
  match a with
  | TgtUser v => u = v
  | TgtRotation r => exists p, t_rotation_state st !! r = Some p /\ t_participants st !! p = Some u
  | TgtSchedule s => (s, u) ∈ t_schedule_on_call st
  | TgtChannel _ => False
  end.

(** Who should be on call for a step: a target of one of its actions stands for
    the user, who belongs to the organization of the policy. *)
Definition should_be_on_call (st : Static) (s u : UUID) : Prop :=
  exists a step ep, a ∈ t_actions st /\ act_step a = s /\ t_steps st !! s = Some step /\
    t_policies st !! st_policy step = Some ep /\ stands_for st (act_target a) u /\
    t_affiliation st !! u = Some (ep_org ep).

Lemma target_users_spec st a u : u ∈ target_users st a <-> stands_for st a u.
Proof.
  destruct a as [v|s|r|c]; cbn.
  - apply list_elem_of_singleton.
  - rewrite list_elem_of_fmap. split.
    + intros ([s' u'] & -> & Hin). apply elem_of_filter_bool in Hin as [Hin E]. cbn in E. bprop. by subst.
    + intros Hin. exists (s, u). split; [done|]. apply elem_of_filter_bool. split; [done|]. cbn. by rewrite Z.eqb_refl.
  - destruct (t_rotation_state st !! r) as [p|]; cbn; [|split; [by intros ?%elem_of_nil|naive_solver]].
    destruct (t_participants st !! p) as [v|] eqn:Ep; [|split; [by intros ?%elem_of_nil|naive_solver]].
    rewrite list_elem_of_singleton. naive_solver.
  - split; [by intros ?%elem_of_nil|done].
Qed.

Lemma on_call_spec st s u : (s, u) ∈ on_call st <-> should_be_on_call st s u.
Proof.
  unfold on_call, should_be_on_call. rewrite list_elem_of_In, in_flat_map. split.
  - intros (a & Ha & Hin). destruct (t_steps st !! act_step a) as [step|] eqn:Es; cbn in Hin; [|done].
    destruct (t_policies st !! st_policy step) as [ep|] eqn:Ep; cbn in Hin; [|done].
    apply in_map_iff in Hin as (v & [= <- ->] & Hv). apply filter_In in Hv as [Hv Haff].
    apply bool_decide_eq_true_1 in Haff. exists a, step, ep. rewrite <- target_users_spec, !list_elem_of_In. auto 8.
  - intros (a & step & ep & Ha & <- & Es & Ep & Hs & Haff). exists a. split; [by apply list_elem_of_In|].
    rewrite Es; cbn. rewrite Ep; cbn. apply in_map_iff. exists u. split; [done|]. apply filter_In.
    split; [by apply list_elem_of_In, target_users_spec|]. by apply bool_decide_eq_true_2.
Qed.

Lemma is_open_spec s u r : is_open s u r = true <-> oc_step r = s /\ oc_user r = u /\ oc_end r = None.
Proof.
  unfold is_open. rewrite !andb_true_iff, !Z.eqb_eq, bool_decide_eq_true. tauto.
Qed.

(** The open rows: step and user. *)
Definition open_pairs (l : list StepOnCall) : list (UUID * UUID) :=
  omap (fun r => match oc_end r with None => Some (oc_step r, oc_user r) | Some _ => None end) l.

Lemma open_pairs_cons r l :
  open_pairs (r :: l) = match oc_end r with None => (oc_step r, oc_user r) :: open_pairs l | Some _ => open_pairs l end.
Proof. unfold open_pairs. cbn. by destruct (oc_end r). Qed.

Lemma open_pairs_elem l s u : (s, u) ∈ open_pairs l <-> exists r, r ∈ l /\ is_open s u r = true.
Proof.
  unfold open_pairs. rewrite list_elem_of_omap. split.
  - intros (r & Hin & E). exists r. split; [done|]. apply is_open_spec. destruct (oc_end r); [done|]. by simplify_eq.
  - intros (r & Hin & E). exists r. split; [done|]. apply is_open_spec in E as (<- & <- & ->). done.
Qed.

Lemma existsb_open l s u : existsb (is_open s u) l = true <-> (s, u) ∈ open_pairs l.
Proof. rewrite open_pairs_elem, existsb_exists. by setoid_rewrite list_elem_of_In. Qed.

Lemma insert_on_call_open now l su :
  open_pairs (insert_on_call now l su) = if bool_decide (su ∈ open_pairs l) then open_pairs l else open_pairs l ++ [su].
Proof.
  destruct su as [s u]. unfold insert_on_call. cbn [fst snd]. destruct (existsb (is_open s u) l) eqn:E.
  - apply existsb_open in E. by rewrite bool_decide_eq_true_2.
  - rewrite bool_decide_eq_false_2 by (rewrite <- existsb_open; congruence).
    unfold open_pairs. by rewrite omap_app.
Qed.

Lemma insert_all_open now pairs l : NoDup (open_pairs l) ->
  let l' := fold_left (insert_on_call now) pairs l in
  NoDup (open_pairs l') /\ (forall p, p ∈ open_pairs l' <-> p ∈ open_pairs l \/ p ∈ pairs) /\
  exists new, l' = l ++ new /\ Forall (fun r => oc_start r = now /\ oc_end r = None) new.
Proof.
  revert l. induction pairs as [|p pairs IH]; intros l HN; cbn.
  - split; [done|]. split; [set_solver|]. exists []. by rewrite app_nil_r.
  - assert (NoDup (open_pairs (insert_on_call now l p)) /\
      (forall q, q ∈ open_pairs (insert_on_call now l p) <-> q ∈ open_pairs l \/ q = p)) as [HN' HE].
    { rewrite insert_on_call_open. case_bool_decide as Hp; [split; [done|set_solver]|]. split; [|set_solver].
      apply NoDup_app. split; [done|]. split; [set_solver|]. apply NoDup_singleton. }
    destruct (IH _ HN') as (H1 & H2 & new & H3 & H4). split; [done|]. split; [intros q; rewrite H2, HE; set_solver|].
    rewrite H3. unfold insert_on_call. case_match; [by exists new|].
    eexists (_ :: new). rewrite <- app_assoc. cbn. split; [done|]. by constructor.
Qed.

Lemma end_on_call_open st now l :
  open_pairs (map (end_on_call st now) l) = List.filter (fun p => bool_decide (p ∈ on_call st)) (open_pairs l).
Proof.
  induction l as [|r l IH]; [done|]. cbn [map]. rewrite !open_pairs_cons, IH. unfold end_on_call.
  destruct (oc_end r) as [e|] eqn:Ee.
  - rewrite bool_decide_eq_false_2 by done. cbn. by rewrite Ee.
  - rewrite bool_decide_eq_true_2 by done. cbn [List.filter andb].
    case_bool_decide; cbn; by rewrite ?Ee.
Qed.

Lemma updateOnCall_spec st now t (HU : NoDup (open_pairs (t_on_call t))) :
  let rows := t_on_call (updateOnCall st now t) in
  NoDup (open_pairs rows) /\ (forall s u, (s, u) ∈ open_pairs rows <-> should_be_on_call st s u).
Proof.
  cbv zeta. unfold updateOnCall. cbn [set_on_call t_on_call].
  destruct (insert_all_open now (on_call st) (map (end_on_call st now) (t_on_call t))) as (H1 & H2 & _).
  { rewrite end_on_call_open. by apply NoDup_ListNoDup, List.NoDup_filter, NoDup_ListNoDup. }
  split; [done|]. intros s u. rewrite H2, end_on_call_open, elem_of_filter_bool, bool_decide_eq_true, on_call_spec. tauto.
Qed.

(** After the update of the users on call exactly those who should be on call
    for a step have an open row, one each; who stays on call keeps the row, and
    the rows of the others end now. *)
Theorem updateOnCall_exact st now t (HU : NoDup (open_pairs (t_on_call t))) :
  let rows := t_on_call (updateOnCall st now t) in
  NoDup (open_pairs rows) /\
  (forall s u, (s, u) ∈ open_pairs rows <-> should_be_on_call st s u) /\
  (forall r, r ∈ t_on_call t -> oc_end r = None -> should_be_on_call st (oc_step r) (oc_user r) -> r ∈ rows) /\
  (forall r, r ∈ t_on_call t -> oc_end r = None -> ~ should_be_on_call st (oc_step r) (oc_user r) ->
     mkOnCall (oc_step r) (oc_user r) (oc_start r) (Some now) ∈ rows) /\
  (forall r, r ∈ t_on_call t -> oc_end r <> None -> r ∈ rows).
Proof.
  cbv zeta. destruct (updateOnCall_spec st now t HU) as [H1 H2]. split; [done|]. split; [done|]. clear H1 H2.
  unfold updateOnCall. cbn [set_on_call t_on_call].
  destruct (insert_all_open now (on_call st) (map (end_on_call st now) (t_on_call t))) as (_ & _ & new & H3 & _).
  { rewrite end_on_call_open. by apply NoDup_ListNoDup, List.NoDup_filter, NoDup_ListNoDup. }
  assert (forall r, r ∈ t_on_call t ->
    end_on_call st now r ∈ fold_left (insert_on_call now) (on_call st) (map (end_on_call st now) (t_on_call t))) as HE.
  { intros r Hr. rewrite H3. apply elem_of_app. left. apply list_elem_of_fmap. by exists r. }
  split; [|split]; intros r Hr Ho.
  - intros Hs. specialize (HE r Hr). unfold end_on_call in HE at 1. by rewrite bool_decide_eq_true_2, bool_decide_eq_true_2 in HE by (try done; by apply on_call_spec).
  - intros Hs. specialize (HE r Hr). unfold end_on_call in HE at 1.
    rewrite bool_decide_eq_true_2, bool_decide_eq_false_2 in HE by (try done; by rewrite on_call_spec). exact HE.
  - specialize (HE r Hr). unfold end_on_call in HE at 1. by rewrite bool_decide_eq_false_2 in HE by done.
Qed.

(** ** Transactions *)

Definition unbatch (b : list (EscalationMetaData * list Z)) : list (Z * EscalationMetaData) :=
  flat_map (fun '(meta, ids) => map (fun id => (id, meta)) ids) b.

#[local] Instance unbatch_perm_proper : Proper (Permutation ==> Permutation) unbatch.
Proof. intros b b' E. by apply Permutation_flat_map. Qed.

Lemma add_batch_perm rows b :
  unbatch (map_to_list (fold_left add_batch rows b)) ≡ₚ unbatch (map_to_list b) ++ rows.
Proof.
  revert b. induction rows as [|[id meta] rows IH]; intros b; cbn [fold_left]; [by rewrite app_nil_r|].
  rewrite IH. unfold add_batch at 1. cbn [fst snd].
  assert (unbatch (map_to_list (<[meta := default [] (b !! meta) ++ [id]]> b)) ≡ₚ
    unbatch (map_to_list b) ++ [(id, meta)]) as ->; [|by rewrite <- app_assoc].
  rewrite <- (insert_delete_eq b). rewrite map_to_list_insert by apply lookup_delete_eq.
  cbn [unbatch flat_map]. rewrite map_app. cbn [map].
  destruct (b !! meta) as [ids|] eqn:E; cbn.
  - rewrite <- (insert_delete_id b meta ids E) at 2. rewrite map_to_list_insert by apply lookup_delete_eq.
    cbn [unbatch flat_map]. fold (unbatch (map_to_list (delete meta b))).
    rewrite <- !app_assoc. apply Permutation_app_head. rewrite Permutation_app_comm. done.
  - rewrite delete_id by done. fold (unbatch (map_to_list b)). by rewrite Permutation_cons_append.
Qed.

Section manager.
Context (db_err : nat -> option DBErr) (adv_lock : nat -> bool) (clock : nat -> Z) (locked : Z -> Z -> bool).

Lemma log_batches (bs : list (EscalationMetaData * list Z)) w :
  match each (fun '(meta, ids) => LogManyTx db_err ids meta) bs w with
  | (Ok _, w') => db_tbl w' = set_logs (t_logs (db_tbl w) ++ unbatch bs) (db_tbl w)
  | _ => True
  end.
Proof.
  revert w. induction bs as [|[meta ids] bs IH]; intros w; cbn [each].
  - cbn. rewrite app_nil_r. by destruct (db_tbl w).
  - unfold bind, LogManyTx, stmt at 1. destruct (db_err (db_calls w)); [done|]. cbn.
    specialize (IH (set_tbl (set_logs (t_logs (db_tbl w) ++ map (fun id => (id, meta)) ids) (db_tbl w)) (tick w))).
    destruct (each _ bs _) as [[u|e|] w']; [|done|done]. rewrite IH. cbn. unfold set_logs. cbn.
    by rewrite <- app_assoc.
Qed.

(** What a transaction of escalations does: all of the statement, with one log
    entry for each of its rows, or nothing. *)
Lemma processEscalations_spec f w :
  match processEscalations db_err adv_lock clock f w with
  | (Ok _, w') => exists rows t1 logs, f (clock (db_calls w)) (db_tbl w) = inl (rows, t1) /\ logs ≡ₚ rows /\
      db_tbl w' = set_logs (t_logs t1 ++ logs) t1
  | (_, w') => db_tbl w' = db_tbl w
  end.
Proof.
  unfold processEscalations.
  apply (WithTx_spec db_err adv_lock clock (fun _ t => exists rows t1 logs, f (clock (db_calls w)) (db_tbl w) = inl (rows, t1) /\
    logs ≡ₚ rows /\ t = set_logs (t_logs t1 ++ logs) t1)).
  intros w' E. unfold bind at 1, stmt at 1. destruct (db_err (db_calls w')); [done|]. rewrite E.
  destruct (f (clock (db_calls w)) (db_tbl w)) as [[rows t1]|e] eqn:Ef; [|done].
  pose proof (log_batches (map_range (fold_left add_batch rows ∅)) (set_tbl t1 (tick w'))) as HL.
  destruct (each _ _ _) as [[u|e|] w'']; [|done|done]. cbn in HL.
  exists rows, t1, (unbatch (map_range (fold_left add_batch rows ∅))). split; [done|]. split; [|done].
  rewrite (map_range_perm (fold_left add_batch rows ∅)), add_batch_perm. by rewrite map_to_list_empty.
Qed.

(** A property of the tables that every part of a cycle keeps. *)
Record kept (st : Static) (I : Tables -> Prop) : Prop := {
  k_on_call : forall now t, I t -> I (updateOnCall st now t);
  k_maint : forall i t, I t -> I (clearMaintExpiredSvc (clock i) t);
  k_cleanup : forall t, I t -> I (cleanupNoSteps st t);
  k_new : forall i t rows t1 logs, I t -> newPolicies st locked (clock i) t = inl (rows, t1) -> logs ≡ₚ rows ->
    I (set_logs (t_logs t1 ++ logs) t1);
  k_deleted : forall i t rows t1 logs, I t -> deletedSteps st locked (clock i) t = inl (rows, t1) -> logs ≡ₚ rows ->
    I (set_logs (t_logs t1 ++ logs) t1);
  k_normal : forall i t rows t1 logs, I t -> normalEscalation st locked (clock i) t = inl (rows, t1) -> logs ≡ₚ rows ->
    I (set_logs (t_logs t1 ++ logs) t1)
}.

Lemma bind_keeps {A B} (I : Tables -> Prop) (m : Effects.M (DBWorld Tables) DBErr A) (k : A -> Effects.M _ _ B) w :
  I (db_tbl (m w).2) -> (forall a w', I (db_tbl w') -> I (db_tbl (k a w').2)) -> I (db_tbl (bind m k w).2).
Proof. intros Hm Hk. unfold bind. destruct (m w) as [[a|e|] w']; [by apply Hk|done|done]. Qed.

(** Then a whole cycle keeps it, wherever it ends. *)
Lemma update_keeps st I w : kept st I -> I (db_tbl w) -> I (db_tbl (update st db_err adv_lock clock locked w).2).
Proof.
  intros [K1 K2 K3 K4 K5 K6] HI. unfold update.
  assert (forall f w0, (forall i t rows t1 logs, I t -> f (clock i) t = inl (rows, t1) -> logs ≡ₚ rows ->
    I (set_logs (t_logs t1 ++ logs) t1)) -> I (db_tbl w0) -> I (db_tbl (processEscalations db_err adv_lock clock f w0).2)) as HP.
  { intros f w0 Hf H0. pose proof (processEscalations_spec f w0) as HS.
    destruct (processEscalations _ _ _ f w0) as [[u|e|] w']; cbn in *; [|by rewrite HS|by rewrite HS].
    destruct HS as (rows & t1 & logs & E & Hp & ->). by eapply Hf. }
  assert (forall f w0, (forall i t t', I t -> f (clock i) t = inl t' -> I t') ->
    I (db_tbl w0) -> I (db_tbl (Exec db_err adv_lock clock f w0).2)) as HX.
  { intros f w0 Hf H0. pose proof (Exec_spec db_err adv_lock clock f w0) as HS.
    destruct (Exec _ _ _ f w0) as [[u|e|] w']; cbn in *; [by eapply Hf|by rewrite HS|by rewrite HS]. }
  repeat (apply bind_keeps; [|intros _ w1 H1; clear dependent w; try (rename w1 into w; rename H1 into HI)]).
  - apply WithTx_keeps; [done|]. intros w' H'. unfold bind, call, stmt.
    destruct (db_err (db_calls w')); [done|]. cbn. destruct (db_err (S (db_calls w'))); [done|]. cbn. by apply K1.
  - apply HX; [|done]. intros i t t' Ht [= <-]. by apply K2.
  - apply HX; [|done]. intros i t t' Ht [= <-]. by apply K3.
  - by apply HP.
  - by apply HP.
  - by apply HP.
Qed.
End manager.

(** ** One alert *)

Definition logs_of (a : Z) (t : Tables) : list EscalationMetaData :=
  map snd (List.filter (fun l => fst l =? a) (t_logs t)).
Definition cycles_of (a : Z) (t : Tables) : list NewCycle := List.filter (fun c => nc_alert c =? a) (t_cycles t).
Definition messages_of (a : Z) (t : Tables) : list ChannelMessage := List.filter (fun m => cm_alert m =? a) (t_messages t).

(** What is chosen to be escalated. *)
Definition chosen (t : Tables) (g : Z -> EPState -> option Esc) (sel : list Esc) : Prop :=
  NoDup (map e_alert sel) /\
  forall e, e ∈ sel -> exists s, t_states t !! e_alert e = Some s /\ g (e_alert e) s = Some e.

Lemma take_unlocked_chosen locked now n t g l :
  (forall id s e, g id s = Some e -> e_alert e = id) -> l ≡ₚ map_to_list (t_states t) ->
  chosen t g (take_unlocked locked now n (omap (fun '(id, s) => g id s) l)).
Proof.
  intros Hg HP. set (l' := omap _ l).
  assert (NoDup l.*1) as HN by (rewrite HP; apply NoDup_fst_map_to_list).
  assert (forall e, e ∈ l' -> exists s, (e_alert e, s) ∈ l /\ g (e_alert e) s = Some e) as Hl'.
  { intros e He. apply list_elem_of_omap in He as ([id s] & Hin & E). exists s. by rewrite (Hg _ _ _ E). }
  assert (NoDup (map e_alert l')) as HN'.
  { clear HP Hl'. unfold l'. clear l'. induction l as [|[id s] l IH]; [constructor|]. cbn. apply NoDup_cons in HN as [Hx HN].
    destruct (g id s) as [e|] eqn:E; [|by apply IH]. cbn. apply NoDup_cons. split; [|by apply IH].
    rewrite (Hg _ _ _ E). intros Hin. apply Hx. apply list_elem_of_fmap in Hin as (e' & -> & He').
    apply list_elem_of_omap in He' as ([id' s'] & Hin & E'). apply list_elem_of_fmap. exists (id', s').
    by rewrite (Hg _ _ _ E'). }
  unfold take_unlocked. split.
  - rewrite <- List.firstn_map. apply (sublist_NoDup _ (map e_alert l')); [done|].
    etrans; [apply sublist_take|]. clear. induction l' as [|e l' IH]; [done|]. cbn. case_match; cbn; by constructor.
  - intros e He. assert (e ∈ List.filter (fun e => negb (locked now (e_alert e))) l') as He'
      by (rewrite <- (firstn_skipn n); apply elem_of_app; by left).
    apply elem_of_filter_bool in He' as [He' _]. clear He. rename He' into He.
    destruct (Hl' e He) as (s & Hin & E). exists s. split; [|done]. apply elem_of_map_to_list. by rewrite <- HP.
Qed.

(** A committed transaction of escalations, as one alert sees it. *)
Definition escalated_as (st : Static) (a : Z) (now : Z) (t t' : Tables) (upd : Esc -> EPState -> EPState)
  (meta : bool -> Esc -> EscalationMetaData) (e : Esc) : Prop :=
  t_states t' !! a = upd e <$> t_states t !! a /\
  logs_of a t' = logs_of a t ++ [meta (no_one st t e) e] /\
  cycles_of a t' = cycles_of a t ++ esc_cycles st now t e /\
  messages_of a t' = messages_of a t ++ esc_messages st e.

Definition rests (a : Z) (t t' : Tables) : Prop :=
  t_states t' !! a = t_states t !! a /\ logs_of a t' = logs_of a t /\
  cycles_of a t' = cycles_of a t /\ messages_of a t' = messages_of a t.

Lemma escalate_alert st sel upd meta now t g rows t1 logs a :
  chosen t g sel -> escalate st sel upd meta now t = (rows, t1) -> logs ≡ₚ rows ->
  let t' := set_logs (t_logs t1 ++ logs) t1 in
  ((forall e, e ∈ sel -> e_alert e <> a) /\ rests a t t') \/
  exists e s, e_alert e = a /\ e ∈ sel /\ t_states t !! a = Some s /\ g a s = Some e /\
    escalated_as st a now t t' upd meta e.
Proof.
  intros [HN Hsel] E HP t'. unfold escalate in E. injection E as <- <-.
  destruct (filter_one e_alert (esc_cycles st now t) nc_alert a sel HN) as [C1 C2].
  { intros e c Hc. unfold esc_cycles in Hc. apply list_elem_of_fmap in Hc as (u & -> & _). done. }
  destruct (filter_one e_alert (esc_messages st) cm_alert a sel HN) as [M1 M2].
  { intros e c Hc. unfold esc_messages in Hc. apply list_elem_of_fmap in Hc as (u & -> & _). done. }
  set (row e := [(e_alert e, meta (no_one st t e) e)]).
  destruct (filter_one e_alert row fst a sel HN) as [R1 R2].
  { intros e c Hc. unfold row in Hc. by apply list_elem_of_singleton in Hc as ->. }
  assert (flat_map row sel = map (fun e => (e_alert e, meta (no_one st t e) e)) sel) as HR'
    by (unfold row; clear; induction sel as [|e l IH]; [done|]; cbn; by rewrite IH).
  rewrite HR' in R1, R2. unfold escalated_as, rests, logs_of, cycles_of, messages_of.
  subst t'. cbn [set_logs set_states set_notified t_states t_logs t_cycles t_messages].
  rewrite !List.filter_app, !map_app.
  destruct (decide (Exists (fun e => e_alert e = a) sel)) as [Hex|Hex].
  - apply Exists_exists in Hex as (e & He & Ea). right. destruct (Hsel e He) as (s & Es & Eg).
    exists e, s. rewrite Ea in *. split; [done|]. split; [done|]. split; [done|]. split; [done|].
    rewrite (C1 e He Ea), (M1 e He Ea). split; [by rewrite <- Ea, (fold_alter_one upd e_alert)|]. split; [|done].
    f_equal. rewrite (filter_perm_fst logs _ a (row e) HP (R1 e He Ea)) by (cbn; lia). done.
  - assert (forall e, e ∈ sel -> e_alert e <> a) as Hn.
    { intros e He Ea. apply Hex, Exists_exists. eauto. }
    left. split; [done|]. rewrite (C2 Hn), (M2 Hn), !app_nil_r, (fold_alter_other upd e_alert) by done.
    rewrite (filter_perm_fst logs _ a [] HP (R2 Hn)) by (cbn; lia). cbn. by rewrite app_nil_r.
Qed.

(** The step found has the policy and the number asked for. *)
Lemma step_at_spec st ep n sid step :
  step_at st ep n = Some (sid, step) -> t_steps st !! sid = Some step /\ st_policy step = ep /\ step_number step = n.
Proof.
  unfold step_at. intros E. apply head_Some_elem_of in E. apply elem_of_filter_bool in E as [Hin E].
  apply map_range_elem in Hin. bprop. done.
Qed.

(** Why an alert is escalated. *)
Definition may_escalate (st : Static) (t : Tables) (a : Z) (s : EPState) : Prop :=
  exists al sv, t_alerts st !! a = Some al /\ t_services t !! al_service al = Some sv /\
    (al_status al = StatusTriggered \/ force_escalation s = true) /\ maintenance_expires_at sv = None.

Lemma escalatable_spec st t a s svc : escalatable st t a s = Some svc ->
  may_escalate st t a s /\ exists al, t_alerts st !! a = Some al /\ svc = al_service al.
Proof.
  unfold escalatable, may_escalate. destruct (t_alerts st !! a) as [al|]; cbn; [|done].
  destruct (t_services t !! al_service al) as [sv|] eqn:Esv; cbn; [|done].
  destruct (_ && _) eqn:E; [|done]. intros [= <-]. apply andb_true_iff in E as [E1 E2].
  apply bool_decide_eq_true_1 in E2. apply orb_true_iff in E1. rewrite bool_decide_eq_true in E1.
  split; [|by exists al]. by exists al, sv.
Qed.

(** The cases of the joins. *)
Ltac esc_cases E := repeat match type of E with
  | context [escalatable ?st ?t ?a ?s] => destruct (escalatable st t a s) as [svc|] eqn:Esc; cbn in E; [|discriminate E]
  | context [step_at ?st ?p ?n] => destruct (step_at st p n) as [[sid step]|] eqn:Estep; cbn in E; [|discriminate E]
  | context [t_policies ?st !! ?p] => destruct (t_policies st !! p) as [ep|] eqn:Eep; cbn in E; [|discriminate E]
  | context [t_steps ?st !! ?p] => destruct (t_steps st !! p) as [old|] eqn:Eold; cbn in E; [|discriminate E]
  | context [last_escalation ?s] => destruct (last_escalation s) as [lst|] eqn:Elast; cbn in E; try discriminate E
  | context [es_step ?s] => destruct (es_step s) as [oid|] eqn:Estp; cbn in E; try discriminate E
  end.

Lemma new_esc_spec st t a s e : new_esc st t a s = Some e ->
  e_alert e = a /\ e_policy e = es_policy s /\ e_number e = 0 /\ may_escalate st t a s /\ last_escalation s = None /\
  exists step, t_steps st !! e_step e = Some step /\ st_policy step = es_policy s /\ step_number step = 0.
Proof.
  intros E. unfold new_esc in E. esc_cases E; try discriminate E. injection E as <-. cbn.
  apply escalatable_spec in Esc as [Hm _]. apply step_at_spec in Estep as (H1 & H2 & H3). eauto 10.
Qed.

Lemma deleted_esc_spec st t a s e : deleted_esc st t a s = Some e ->
  e_alert e = a /\ may_escalate st t a s /\ is_Some (last_escalation s) /\ es_step s = None.
Proof.
  intros E. unfold deleted_esc in E. esc_cases E; try discriminate E. injection E as <-. cbn.
  apply escalatable_spec in Esc as [Hm _]. eauto 10.
Qed.

Lemma normal_esc_spec st t now a s e : normal_esc st t now a s = Some e ->
  e_alert e = a /\ may_escalate st t a s /\ is_Some (last_escalation s) /\ e_forced e = force_escalation s /\
  (force_escalation s = true \/ exists n, next_escalation s = Some n /\ n < now) /\
  exists ep oid old step, t_policies st !! es_policy s = Some ep /\ es_step s = Some oid /\ t_steps st !! oid = Some old /\
    t_steps st !! e_step e = Some step /\ st_policy step = es_policy s /\ step_number step = e_number e /\
    e_number e = next_number ep s (step_number old) /\ e_repeated e = (step_count ep <=? step_number old + 1).
Proof.
  intros E. unfold normal_esc in E. esc_cases E; try discriminate E. destruct (_ || _) eqn:Ed; [|done]. injection E as <-. cbn.
  apply escalatable_spec in Esc as [Hm _]. apply step_at_spec in Estep as (H1 & H2 & H3).
  split; [done|]. split; [done|]. split; [done|]. split; [done|]. split.
  - apply orb_true_iff in Ed as [Ed|Ed]; [right|by left]. destruct (next_escalation s) as [n|]; [|done]. bprop. eauto.
  - exists ep, oid, old, step. by rewrite H3.
Qed.

(** The three statements, as one alert sees them. *)
Definition seen (st : Static) (a : Z) (now : Z) (t t' : Tables) (g : Z -> EPState -> option Esc)
  (upd : Esc -> EPState -> EPState) (meta : bool -> Esc -> EscalationMetaData) (sel : list Esc) : Prop :=
  (((forall e, e ∈ sel -> e_alert e <> a) /\ rests a t t') \/
   exists e s, e ∈ sel /\ t_states t !! a = Some s /\ g a s = Some e /\ escalated_as st a now t t' upd meta e) /\
  t_services t' = t_services t /\ t_on_call t' = t_on_call t.

Section statements.
Context (st : Static) (locked : Z -> Z -> bool) (now : Z) (t : Tables).
Context (rows : list (Z * EscalationMetaData)) (t1 : Tables) (logs : list (Z * EscalationMetaData)) (HP : logs ≡ₚ rows).

Lemma escalate_seen sel upd meta g a :
  chosen t g sel -> escalate st sel upd meta now t = (rows, t1) ->
  seen st a now t (set_logs (t_logs t1 ++ logs) t1) g upd meta sel.
Proof using HP.
  intros Hc E. split; [|unfold escalate in E; by injection E as _ <-].
  destruct (escalate_alert st sel upd meta now t g rows t1 logs a Hc E HP) as [|(e & s & _ & H)]; [by left|].
  right. by exists e, s.
Qed.

Lemma new_seen a : newPolicies st locked now t = inl (rows, t1) ->
  seen st a now t (set_logs (t_logs t1 ++ logs) t1) (new_esc st t) (upd_new now) meta_new (new_to_escalate st locked now t).
Proof using HP.
  intros E. unfold newPolicies in E. apply escalate_seen; [|congruence].
  apply take_unlocked_chosen; [by intros id s e ?%new_esc_spec; tauto|apply map_range_perm].
Qed.

Lemma deleted_seen a : deletedSteps st locked now t = inl (rows, t1) ->
  seen st a now t (set_logs (t_logs t1 ++ logs) t1) (deleted_esc st t) (upd_deleted now) meta_deleted
    (deleted_to_escalate st locked now t).
Proof using HP.
  intros E. unfold deletedSteps in E. apply escalate_seen; [|congruence].
  apply take_unlocked_chosen; [by intros id s e ?%deleted_esc_spec; tauto|apply map_range_perm].
Qed.

Lemma normal_seen a : normalEscalation st locked now t = inl (rows, t1) ->
  seen st a now t (set_logs (t_logs t1 ++ logs) t1) (normal_esc st t now) (upd_normal now) meta_normal
    (normal_to_escalate st locked now t).
Proof using HP.
  unfold normalEscalation. destruct (existsb _ _); [done|]. intros E. apply escalate_seen; [|congruence].
  apply take_unlocked_chosen; [by intros id s e ?%normal_esc_spec; tauto|]. by rewrite sort_slice_perm, map_range_perm.
Qed.
End statements.

(** ** Alerts that are left alone *)

(** Acknowledged or closed, and not forced; or in maintenance beyond the cycle. *)
Definition at_rest (st : Static) (clock : nat -> Z) (a : Z) (s : EPState) (t : Tables) : Prop :=
  exists al, t_alerts st !! a = Some al /\
    (al_status al <> StatusTriggered /\ force_escalation s = false \/
     exists sv e, t_services t !! al_service al = Some sv /\ maintenance_expires_at sv = Some e /\ forall i, clock i < e).

Lemma at_rest_stays st clock a s t : at_rest st clock a s t -> ~ may_escalate st t a s.
Proof.
  intros (al & Ea & H) (al' & sv & Ea' & Es & Hs & Hm). rewrite Ea in Ea'. injection Ea' as <-.
  destruct H as [[H1 H2]|(sv' & e & Es' & Em & _)]; [naive_solver congruence|congruence].
Qed.

(** An alert that is not triggered, or whose service is in maintenance, is
    not escalated by a cycle, wherever the cycle fails: its state stays as it is,
    or is dropped with a policy that has no steps, and nothing is logged, nobody
    notified. *)
Theorem resting_alert_untouched st db_err adv_lock clock locked w a s
  (Hs : t_states (db_tbl w) !! a = Some s) (HA : at_rest st clock a s (db_tbl w)) :
  let t' := db_tbl (update st db_err adv_lock clock locked w).2 in
  (t_states t' !! a = Some s \/ t_states t' !! a = None /\ no_steps st s = true) /\
  logs_of a t' = logs_of a (db_tbl w) /\ cycles_of a t' = cycles_of a (db_tbl w) /\
  messages_of a t' = messages_of a (db_tbl w).
Proof.
  cbv zeta. set (t0 := db_tbl w) in *.
  set (I t := ((t_states t !! a = Some s \/ t_states t !! a = None /\ no_steps st s = true) /\
    logs_of a t = logs_of a t0 /\ cycles_of a t = cycles_of a t0 /\ messages_of a t = messages_of a t0) /\
    at_rest st clock a s t).
  enough (I (db_tbl (update st db_err adv_lock clock locked w).2)) as [H _] by done.
  assert (forall t t' now g upd meta sel, I t -> seen st a now t t' g upd meta sel ->
    (forall e, g a s = Some e -> may_escalate st t a s) -> I t') as HE.
  { intros t t' now g upd meta sel [(H1 & H2 & H3 & H4) HR'] [Hc [Hsv _]] Hg.
    assert (at_rest st clock a s t') as HR'' by (unfold at_rest in *; by rewrite Hsv). split; [|done].
    destruct Hc as [(_ & R1 & R2 & R3 & R4)|(e & s' & _ & E & Eg & _)].
    - by rewrite R1, R2, R3, R4.
    - exfalso. destruct H1 as [H1|[H1 _]]; [|congruence]. rewrite H1 in E. injection E as <-.
      by apply (at_rest_stays _ _ _ _ _ HR'), (Hg e). }
  apply update_keeps; [|split; [|done]; unfold I; auto]. split.
  - intros now t H. exact H.
  - intros i t [H (al & Ea & HR')]. split; [exact H|]. exists al. split; [done|].
    destruct HR' as [HR'|(sv & e & Es & Em & Hc)]; [by left|right]. exists sv, e.
    cbn [clearMaintExpiredSvc set_services t_services]. rewrite lookup_fmap, Es. cbn. unfold clear_maintenance. rewrite Em.
    rewrite (proj2 (Z.leb_gt _ _)) by done. done.
  - intros t [(H1 & H2) HR']. split; [|done]. split; [|done]. cbn [cleanupNoSteps set_states t_states].
    destruct H1 as [H1|[H1 Hno]]; [|right; split; [apply map_lookup_filter_None; by left|done]].
    destruct (no_steps st s) eqn:E; [right|left]; [split; [|done]; apply map_lookup_filter_None; right|by apply map_lookup_filter_Some].
    intros s' E'. rewrite H1 in E'. injection E' as <-. cbn. congruence.
  - intros i t rows t1 logs H E HP. eapply HE; [exact H|by eapply new_seen|]. by intros e ?%new_esc_spec; tauto.
  - intros i t rows t1 logs H E HP. eapply HE; [exact H|by eapply deleted_seen|]. by intros e ?%deleted_esc_spec; tauto.
  - intros i t rows t1 logs H E HP. eapply HE; [exact H|by eapply normal_seen|]. by intros e ?%normal_esc_spec; tauto.
Qed.

(** ** The order of escalations *)

Section order.
Context (a : Z) (p : UUID) (ep : Policy).

Local Notation n := (step_count ep).

(** The policy of the alert has steps, numbered from zero. *)
Definition policy_ok (st : Static) : Prop :=
  t_policies st !! p = Some ep /\ 0 < n /\
  forall sid step, t_steps st !! sid = Some step -> st_policy step = p -> 0 <= step_number step.

(** What the [i]-th escalation logs. *)
Definition expected (i : Z) (m : EscalationMetaData) : Prop :=
  NewStepIndex m = i mod n /\ Repeat m = (0 <? i) && (i mod n =? 0) /\ Forced m = false.

(** After [c] escalations. *)
Record progress (st : Static) (t : Tables) (c : Z) : Prop := {
  pr_logs : Z.of_nat (length (logs_of a t)) = c;
  pr_expected : forall i m, logs_of a t !! i = Some m -> expected (Z.of_nat i) m;
  pr_bound : 0 <= ep_repeat ep -> c <= n * (ep_repeat ep + 1);
  pr_state : exists s, t_states t !! a = Some s /\ es_policy s = p /\ force_escalation s = false /\
    (c = 0 -> last_escalation s = None /\ es_step s = None /\ loop_count s = 0) /\
    (0 < c -> is_Some (last_escalation s) /\ exists sid step, es_step s = Some sid /\ t_steps st !! sid = Some step /\
       st_policy step = p /\ step_number step = (c - 1) mod n /\ loop_count s = (c - 1) / n)
}.

Lemma progress_next st t t' c m s :
  0 < n -> progress st t c -> logs_of a t' = logs_of a t ++ [m] -> expected c m ->
  (0 <= ep_repeat ep -> c + 1 <= n * (ep_repeat ep + 1)) ->
  t_states t' !! a = Some s -> es_policy s = p -> force_escalation s = false -> is_Some (last_escalation s) ->
  (exists sid step, es_step s = Some sid /\ t_steps st !! sid = Some step /\
     st_policy step = p /\ step_number step = c mod n) -> loop_count s = c / n ->
  progress st t' (c + 1).
Proof.
  intros Hn [P1 P2 P3 P4] HL Hm Hb Hs Hp Hf Hl (sid & step & E1 & E2 & E3 & E4) Hloop. split; [|intros i m'|done|].
  - rewrite HL, length_app. cbn. lia.
  - rewrite HL. intros E. apply lookup_app_Some in E as [E|[Hi E]]; [by apply P2|].
    apply list_lookup_singleton_Some in E as [E <-]. replace (Z.of_nat i) with c by lia. done.
  - exists s. split; [done|]. split; [done|]. split; [done|]. split; [lia|]. intros _. split; [done|].
    exists sid, step. replace (c + 1 - 1) with c by lia. done.
Qed.

(** The arithmetic of a normal escalation. *)
Lemma next_number_order s c :
  0 < n -> 0 < c -> force_escalation s = false -> loop_count s = (c - 1) / n ->
  (0 <= ep_repeat ep -> c <= n * (ep_repeat ep + 1)) ->
  let k := (c - 1) mod n in
  next_number ep s k = -1 \/
  (next_number ep s k = c mod n /\ (n <=? k + 1) = (c mod n =? 0) /\
   (if n <=? k + 1 then loop_count s + 1 else loop_count s) = c / n /\
   (0 <= ep_repeat ep -> c + 1 <= n * (ep_repeat ep + 1))).
Proof.
  intros Hn Hc Hf Hl Hb k. unfold next_number. rewrite Hf, Hl. cbn.
  pose proof (Z.div_mod (c - 1) n ltac:(lia)) as Hd. pose proof (Z.mod_pos_bound (c - 1) n Hn) as Hm.
  set (q := (c - 1) / n) in *. fold k in Hd, Hm. clearbody q k.
  destruct (k + 1 <? n) eqn:Ek; bprop.
  - right. assert (c mod n = k + 1) as Em by (symmetry; apply (Z.mod_unique _ _ q); lia).
    assert (c / n = q) as Eq by (symmetry; apply (Z.div_unique _ _ _ (k + 1)); lia).
    rewrite Em, Eq. rewrite (proj2 (Z.leb_gt _ _)) by lia. rewrite (proj2 (Z.eqb_neq _ _)) by lia.
    split; [done|]. split; [done|]. split; [done|]. intros Hr. specialize (Hb Hr). assert (q < ep_repeat ep + 1) by nia. nia.
  - assert (c mod n = 0) as Em by (symmetry; apply (Z.mod_unique _ _ (q + 1)); lia).
    assert (c / n = q + 1) as Eq by (symmetry; apply (Z.div_unique _ _ _ 0); lia).
    rewrite Em, Eq, (proj2 (Z.leb_le _ _)) by lia. rewrite Z.eqb_refl.
    destruct (ep_repeat ep =? -1) eqn:Er; bprop; [right; split; [done|]; split; [done|]; split; [done|]; lia|].
    destruct (q <? ep_repeat ep) eqn:Eq'; bprop; [right|by left]. split; [done|]. split; [done|]. split; [done|]. nia.
Qed.

Lemma cycle_progress st db_err adv_lock clock locked w c :
  policy_ok st -> progress st (db_tbl w) c ->
  exists c', c <= c' /\ progress st (db_tbl (update st db_err adv_lock clock locked w).2) c'.
Proof.
  intros (Hpol & Hn & Hst) HP.
  apply (update_keeps db_err adv_lock clock locked st (fun t => exists c', c <= c' /\ progress st t c'));
    [|by exists c]. split.
  - intros now t (c' & Hc & [P1 P2 P3 P4]). exists c'. by split.
  - intros i t (c' & Hc & [P1 P2 P3 P4]). exists c'. by split.
  - intros t (c' & Hc & [P1 P2 P3 (s & Es & Ep & P4)]). exists c'. split; [done|]. split; try done. exists s. split; [|by split].
    cbn. apply map_lookup_filter_Some. split; [done|]. unfold no_steps. rewrite Ep, Hpol.
    rewrite (proj2 (Z.eqb_neq (step_count ep) 0)) by lia. by rewrite andb_false_r.
  - intros i t rows t1 logs (c' & Hc & HP') E HL. destruct (new_seen st locked _ t rows t1 logs HL a E) as [HS _].
    destruct HP' as [P1 P2 P3 (s & Es & Ep & Hf & H0 & H1)].
    destruct HS as [(_ & R1 & R2 & _)|(e & s' & _ & Es' & Eg & S1 & S2 & _)].
    { exists c'. split; [done|]. split; rewrite ?R2; try done. exists s. by rewrite R1. }
    rewrite Es in Es'. injection Es' as <-. apply new_esc_spec in Eg as (_ & _ & _ & _ & El & step & G1 & G2 & G3).
    destruct (decide (0 < c')) as [Hp|]; [destruct (H1 Hp) as [[? ?] _]; congruence|].
    assert (c' = 0) as -> by (subst c'; lia). destruct (H0 eq_refl) as (_ & _ & Hloop).
    exists (0 + 1). split; [lia|]. rewrite Es in S1.
    eapply progress_next; [done|by split; eauto 10|exact S2| |lia|exact S1|done|done|by eexists| |done].
    + split; [by rewrite Zmod_0_l|done].
    + exists (e_step e), step. rewrite Zmod_0_l, <- G3. cbn. rewrite G2, Ep. done.
  - intros i t rows t1 logs (c' & Hc & HP') E HL. destruct (deleted_seen st locked _ t rows t1 logs HL a E) as [HS _].
    destruct HP' as [P1 P2 P3 (s & Es & Ep & Hf & H0 & H1)].
    destruct HS as [(_ & R1 & R2 & _)|(e & s' & _ & Es' & Eg & _)].
    { exists c'. split; [done|]. split; rewrite ?R2; try done. exists s. by rewrite R1. }
    exfalso. rewrite Es in Es'. injection Es' as <-. apply deleted_esc_spec in Eg as (_ & _ & [l El] & Estp).
    destruct (decide (0 < c')) as [Hp|]; [destruct (H1 Hp) as (_ & sid & step & E1 & _); congruence|].
    destruct H0 as [H0 _]; [lia|]. congruence.
  - intros i t rows t1 logs (c' & Hc & HP') E HL. destruct (normal_seen st locked _ t rows t1 logs HL a E) as [HS _].
    pose proof HP' as [P1 P2 P3 (s & Es & Ep & Hf & H0 & H1)].
    destruct HS as [(_ & R1 & R2 & _)|(e & s' & _ & Es' & Eg & S1 & S2 & _)].
    { exists c'. split; [done|]. split; rewrite ?R2; try done. exists s. by rewrite R1. }
    rewrite Es in Es'. injection Es' as <-.
    apply normal_esc_spec in Eg as (_ & _ & [l El] & Eforced & _ & ep' & oid & old & step & G1 & G2 & G3 & G4 & G5 & G6 & G7 & G8).
    rewrite Ep, Hpol in G1. injection G1 as <-.
    destruct (decide (0 < c')) as [Hp|]; [|destruct H0 as [H0 _]; [lia|congruence]].
    destruct (H1 Hp) as (_ & sid & old' & O1 & O2 & O3 & O4 & O5). rewrite G2 in O1. injection O1 as <-.
    rewrite G3 in O2. injection O2 as <-. rewrite O4 in G7, G8.
    destruct (next_number_order s c' Hn Hp Hf O5 P3) as [Hno|(N1 & N2 & N3 & N4)].
    { exfalso. rewrite Hno in G7. rewrite Ep in G5. specialize (Hst _ _ G4 G5). lia. }
    exists (c' + 1). split; [lia|]. rewrite Es in S1. rewrite N1 in G7.
    eapply progress_next; [done|exact HP'|exact S2| |exact N4|exact S1|done|done|by eexists| |].
    + split; [exact G7|]. split; [|cbn; congruence]. cbn. rewrite G8, N2. by rewrite (proj2 (Z.ltb_lt 0 c')).
    + exists (e_step e), step. rewrite G5, G6, G7. done.
    + cbn. by rewrite G8.
Qed.

(** What happens to an alert that nobody forces: cycles, that may fail anywhere,
    with anything else changing in between: alerts, services, users, policies.
    Only its policy stays, and its own state but for the time of the next
    escalation, which an acknowledgement clears. *)
Inductive history : Static -> Tables -> Prop :=
  | h_start st t s :
      policy_ok st -> t_states t !! a = Some s -> es_policy s = p -> force_escalation s = false ->
      last_escalation s = None -> es_step s = None -> loop_count s = 0 -> logs_of a t = [] -> history st t
  | h_cycle st db_err adv_lock clock locked w :
      history st (db_tbl w) -> history st (db_tbl (update st db_err adv_lock clock locked w).2)
  | h_change st t st' t' s next :
      history st t -> policy_ok st' -> (forall sid step, t_steps st !! sid = Some step -> st_policy step = p -> t_steps st' !! sid = Some step) ->
      t_states t !! a = Some s ->
      t_states t' !! a = Some (mkState (es_policy s) (es_step s) (es_number s) (force_escalation s) (last_escalation s)
        (loop_count s) next) ->
      logs_of a t' = logs_of a t -> history st' t'.

Lemma history_progress st t : history st t -> policy_ok st /\ exists c, progress st t c.
Proof.
  induction 1 as [st t s Hok Es Ep Hf Hl Hs Hloop HL|st db_err adv_lock clock locked w _ [Hok [c IH]]|
    st t st' t' s next _ [_ [c [P1 P2 P3 P4]]] Hok Hst Es Es' HL].
  - split; [done|]. exists 0. split; rewrite ?HL; [done|by intros i m|intros; destruct Hok as (_ & ? & _); nia|].
    exists s. split; [done|]. split; [done|]. split; [done|]. split; [done|lia].
  - split; [done|]. destruct (cycle_progress st db_err adv_lock clock locked w c Hok IH) as (c' & _ & HP). by exists c'.
  - split; [done|]. exists c. split; rewrite ?HL; [done..|]. destruct P4 as (s0 & E0 & H1 & H2 & H3 & H4).
    rewrite Es in E0. injection E0 as <-. eexists. split; [exact Es'|]. cbn. split; [done|]. split; [done|]. split; [done|].
    intros Hc. destruct (H4 Hc) as (Hl & sid & step & G1 & G2 & G3 & G4). split; [done|]. exists sid, step. auto.
Qed.

(** C7: while nobody forces an alert to escalate and its policy keeps its steps and
    its repeat count ([history]), its escalations go through the steps in order,
    starting over after the last, and, with a repeat count that is not negative,
    end after the repetitions the policy has: never more than
    [step_count * (repeat + 1)], whatever fails in the cycles and whatever else
    changes between them.  Once a step is deleted it may be more
    ([deleted_step_repeats_uncounted]). *)
Theorem escalations_follow_policy st t (HH : history st t) :
  (forall i m, logs_of a t !! i = Some m -> expected (Z.of_nat i) m) /\
  (0 <= ep_repeat ep -> Z.of_nat (length (logs_of a t)) <= n * (ep_repeat ep + 1)).
Proof. destruct (history_progress st t HH) as (_ & c & [P1 P2 P3 _]). rewrite P1. done. Qed.
End order.

(** ** A new alert *)

Lemma escalation_update_ok st db_err adv_lock clock locked w w' :
  update st db_err adv_lock clock locked w = (Ok tt, w') ->
  exists i1 i2 i4 i5 i6 t4 t5 rows4 rows5 rows6 u4 u5 u6 logs4 logs5 logs6,
    let t3 := cleanupNoSteps st (clearMaintExpiredSvc (clock i2) (updateOnCall st (clock i1) (db_tbl w))) in
    newPolicies st locked (clock i4) t3 = inl (rows4, u4) /\ logs4 ≡ₚ rows4 /\ t4 = set_logs (t_logs u4 ++ logs4) u4 /\
    deletedSteps st locked (clock i5) t4 = inl (rows5, u5) /\ logs5 ≡ₚ rows5 /\ t5 = set_logs (t_logs u5 ++ logs5) u5 /\
    normalEscalation st locked (clock i6) t5 = inl (rows6, u6) /\ logs6 ≡ₚ rows6 /\
    db_tbl w' = set_logs (t_logs u6 ++ logs6) u6.
Proof.
  unfold update. intros E.
  apply bind_inv in E as (u1 & w1 & E1 & E). apply bind_inv in E as (u2 & w2 & E2 & E).
  apply bind_inv in E as (u3 & w3 & E3 & E). apply bind_inv in E as (u4 & w4 & E4 & E).
  apply bind_inv in E as (u5 & w5 & E5 & E6).
  assert (db_tbl w1 = updateOnCall st (clock (db_calls w)) (db_tbl w)) as H1.
  { pose proof (WithTx_spec db_err adv_lock clock (fun _ t => t = updateOnCall st (clock (db_calls w)) (db_tbl w))
      (fun now => call db_err ;;; stmt db_err (fun t => inl (tt, updateOnCall st now t))) w) as HS.
    rewrite E1 in HS. apply HS. intros w0 E0. unfold bind, call, stmt.
    destruct (db_err (db_calls w0)); [done|]. cbn. destruct (db_err (S (db_calls w0))); [done|]. cbn. by rewrite E0. }
  pose proof (Exec_spec db_err adv_lock clock (fun now t => inl (clearMaintExpiredSvc now t)) w1) as H2. rewrite E2 in H2.
  pose proof (Exec_spec db_err adv_lock clock (fun _ t => inl (cleanupNoSteps st t)) w2) as H3. rewrite E3 in H3.
  pose proof (processEscalations_spec db_err adv_lock clock (newPolicies st locked) w3) as H4. rewrite E4 in H4.
  pose proof (processEscalations_spec db_err adv_lock clock (deletedSteps st locked) w4) as H5. rewrite E5 in H5.
  pose proof (processEscalations_spec db_err adv_lock clock (normalEscalation st locked) w5) as H6. rewrite E6 in H6.
  injection H2 as H2. injection H3 as H3. rewrite H1 in H2. rewrite <- H2 in H3. rewrite <- H3 in H4.
  destruct H4 as (rows4 & v4 & logs4 & A1 & A2 & A3), H5 as (rows5 & v5 & logs5 & B1 & B2 & B3),
    H6 as (rows6 & v6 & logs6 & C1 & C2 & C3).
  exists (db_calls w), (db_calls w1), (db_calls w3), (db_calls w4), (db_calls w5), (db_tbl w4), (db_tbl w5),
    rows4, rows5, rows6, v4, v5, v6, logs4, logs5, logs6. cbv zeta. auto 12.
Qed.

(** A triggered alert that was not escalated yet; [svc] is out of maintenance
    by the time of the cycle, [sid] the first step of the policy. *)
Record new_alert (st : Static) (clock : nat -> Z) (t : Tables) (a : Z) (s : EPState) (svc : UUID) (sv : Service)
  (sid : UUID) (step : Step) (ep : Policy) : Prop := {
  na_state : t_states t !! a = Some s;
  na_new : last_escalation s = None;
  na_alert : t_alerts st !! a = Some (mkAlert StatusTriggered svc);
  na_service : t_services t !! svc = Some sv;
  na_maint : forall e, maintenance_expires_at sv = Some e -> forall i, e <= clock i;
  na_policy : t_policies st !! es_policy s = Some ep;
  na_count : step_count ep <> 0;
  na_step : step_at st (es_policy s) 0 = Some (sid, step);
  na_delay : 1 <= delay step
}.

(** The channels of a step. *)
Definition channels_of (st : Static) (sid : UUID) : list UUID :=
  omap (fun x => match act_target x with TgtChannel c => if act_step x =? sid then Some c else None | _ => None end)
    (t_actions st).

(** Who is notified of the step. *)
Record paged (st : Static) (a : Z) (now : Z) (t t' : Tables) (s : EPState) (svc : UUID) (sv : Service)
  (sid : UUID) (step : Step) (ep : Policy) (users : list UUID) : Prop := {
  pg_state : t_states t' !! a =
    Some (mkState (es_policy s) (Some sid) (es_number s) false (Some now) (loop_count s) (Some (now + delay step * Minute)));
  pg_nodup : NoDup users;
  pg_users : forall u, u ∈ users <-> should_be_on_call st sid u /\ sv_org sv = ep_org ep;
  pg_cycles : cycles_of a t' = cycles_of a t ++ map (fun u => mkCycle a u (multi_ack step) now) users;
  pg_messages : messages_of a t' = messages_of a t ++ map (mkMessage a svc (es_policy s)) (channels_of st sid);
  pg_logs : exists noOne, logs_of a t' = logs_of a t ++ [mkMeta 0 false false false 0 noOne] /\
    (noOne = true <-> cycles_of a t' = cycles_of a t /\ messages_of a t' = messages_of a t)
}.

Lemma take_all_unlocked (locked : Z -> Z -> bool) now n l e :
  (forall a, locked now a = false) -> (length l <= n)%nat -> e ∈ l -> e ∈ take_unlocked locked now n l.
Proof.
  intros HL Hn He. unfold take_unlocked.
  assert (List.filter (fun e => negb (locked now (e_alert e))) l = l) as ->.
  { clear Hn He. induction l as [|x l IH]; [done|]. cbn. by rewrite HL, IH. }
  by rewrite firstn_all2.
Qed.

Lemma omap_length_le {A B} (f : A -> option B) l : (length (omap f l) <= length l)%nat.
Proof. induction l as [|x l IH]; cbn; [lia|]. destruct (f x); cbn; lia. Qed.

(** The users notified of a step, from the rows that the cycle has just updated. *)
Lemma step_users_on_call st now0 t0 t e step ep sv :
  NoDup (open_pairs (t_on_call t0)) -> t_on_call t = t_on_call (updateOnCall st now0 t0) ->
  t_policies st !! e_policy e = Some ep -> t_services t !! e_service e = Some sv ->
  t_steps st !! e_step e = Some step -> st_policy step = e_policy e ->
  NoDup (step_users st t e) /\
  forall u, u ∈ step_users st t e <-> should_be_on_call st (e_step e) u /\ sv_org sv = ep_org ep.
Proof.
  intros HU HO Ep Es Est Epol.
  destruct (updateOnCall_spec st now0 t0 HU) as [HN HB].
  unfold step_users. rewrite Ep, Es, HO. destruct (sv_org sv =? ep_org ep) eqn:Eo; bprop;
    [|split; [constructor|intros u; split; [by intros ?%elem_of_nil|by intros [_ ?]]]].
  set (rows := t_on_call (updateOnCall st now0 t0)) in *. split.
  - clear HB. clearbody rows. clear HO. induction rows as [|r rows IH]; [constructor|].
    rewrite open_pairs_cons in HN. cbn [List.filter]. destruct (oc_end r) as [x|] eqn:Er.
    + rewrite bool_decide_eq_false_2 by done. by apply IH.
    + rewrite bool_decide_eq_true_2 by done. apply NoDup_cons in HN as [Hx HN]. cbn [andb].
      destruct (_ && _) eqn:Ec; [|by apply IH]. cbn. apply NoDup_cons. split; [|by apply IH].
      intros Hin. apply Hx. apply list_elem_of_fmap in Hin as (r' & Eu & Hin).
      apply elem_of_filter_bool in Hin as [Hin Ef]. apply andb_true_iff in Ef as [Ef _]. apply andb_true_iff in Ef as [Ef1 Ef2].
      apply open_pairs_elem. exists r'. split; [done|]. apply is_open_spec. apply bool_decide_eq_true_1 in Ef1.
      apply andb_true_iff in Ec as [Ec _]. bprop. split; [congruence|done].
  - intros u. rewrite list_elem_of_fmap. split.
    + intros (r & -> & Hin). apply elem_of_filter_bool in Hin as [Hin Ef]. apply andb_true_iff in Ef as [Ef _].
      apply andb_true_iff in Ef as [Ef1 Ef2]. apply bool_decide_eq_true_1 in Ef1. bprop. split; [|done].
      apply HB, open_pairs_elem. exists r. split; [done|]. by apply is_open_spec.
    + intros [Hs _]. pose proof Hs as (x & step' & ep' & _ & _ & Est' & Ep' & _ & Haff).
      apply HB, open_pairs_elem in Hs as (r & Hin & Ho). apply is_open_spec in Ho as (H1 & H2 & H3).
      exists r. split; [done|]. apply elem_of_filter_bool. split; [done|].
      rewrite bool_decide_eq_true_2, H1, Z.eqb_refl by done. cbn. apply bool_decide_eq_true_2.
      rewrite H2, Haff. congruence.
Qed.

Lemma paged_rests st a now t t' t'' s svc sv sid step ep users :
  paged st a now t t' s svc sv sid step ep users -> rests a t' t'' -> paged st a now t t'' s svc sv sid step ep users.
Proof. intros [P1 P2 P3 P4 P5 P6] (R1 & R2 & R3 & R4). split; rewrite ?R1, ?R2, ?R3, ?R4; done. Qed.

(** A cycle in which no call fails escalates every new alert to the first step
    of its policy, and notifies, once each, exactly the users who should be on
    call for it at that time and the channels of the step; the log says so when
    there is nobody.  No more than 1000 alerts may be waiting, none may be locked
    by another transaction, and the cycle must be shorter than a minute. *)
Lemma new_alert_is_paged st db_err adv_lock clock locked w w' a s svc sv sid step ep
  (HOk : update st db_err adv_lock clock locked w = (Ok tt, w'))
  (HU : NoDup (open_pairs (t_on_call (db_tbl w)))) (HL : forall now id, locked now id = false)
  (HN : (size (t_states (db_tbl w)) <= 1000)%nat) (Hclock : forall i j, clock i <= clock j + Minute)
  (HA : new_alert st clock (db_tbl w) a s svc sv sid step ep) :
  exists i users, paged st a (clock i) (db_tbl w) (db_tbl w') s svc sv sid step ep users.
Proof.
  destruct HA as [A1 A2 A3 A4 A5 A6 A7 A8 A9]. pose proof (step_at_spec _ _ _ _ _ A8) as (S1 & S2 & S3).
  destruct (escalation_update_ok st db_err adv_lock clock locked w w' HOk) as
    (i1 & i2 & i4 & i5 & i6 & t4 & t5 & rows4 & rows5 & rows6 & u4 & u5 & u6 & logs4 & logs5 & logs6 &
     N1 & N2 & N3 & D1 & D2 & D3 & O1 & O2 & O3).
  set (t3 := cleanupNoSteps _ _) in N1.
  assert (t_states t3 !! a = Some s) as T1.
  { subst t3. cbn. apply map_lookup_filter_Some. split; [done|]. unfold no_steps. rewrite A6.
    rewrite (proj2 (Z.eqb_neq _ _)) by done. by rewrite andb_false_r. }
  assert (exists sv', t_services t3 !! svc = Some sv' /\ sv_org sv' = sv_org sv /\ maintenance_expires_at sv' = None)
    as (sv' & T2 & T3 & T4).
  { subst t3. cbn. rewrite lookup_fmap, A4. cbn. unfold clear_maintenance.
    destruct (maintenance_expires_at sv) as [e|] eqn:Em; [|by exists sv].
    rewrite (proj2 (Z.leb_le _ _)) by by apply A5. eexists. split; [done|]. done. }
  assert (t_on_call t3 = t_on_call (updateOnCall st (clock i1) (db_tbl w))) as T5 by done.
  assert (cycles_of a t3 = cycles_of a (db_tbl w) /\ messages_of a t3 = messages_of a (db_tbl w) /\
    logs_of a t3 = logs_of a (db_tbl w)) as (T6 & T7 & T8) by done.
  assert (size (t_states t3) <= 1000)%nat as T9.
  { etrans; [|exact HN]. subst t3. cbn. apply map_size_filter. }
  clearbody t3.
  set (e := mkEsc a sid (step_number step) (delay step) (es_policy s) svc (multi_ack step) false false 0).
  assert (new_esc st t3 a s = Some e) as Ee.
  { unfold new_esc, escalatable. rewrite A8. cbn. rewrite A3. cbn. rewrite T2. cbn.
    rewrite (bool_decide_eq_true_2 _ T4). cbn. by rewrite A2. }
  assert (e ∈ new_to_escalate st locked (clock i4) t3) as Hin.
  { apply take_all_unlocked; [by intros|..].
    - etrans; [apply omap_length_le|]. by rewrite (map_range_perm (t_states t3)), length_map_to_list.
    - apply list_elem_of_omap. exists (a, s). split; [by apply map_range_elem|done]. }
  destruct (new_seen st locked _ t3 rows4 u4 logs4 N2 a N1) as [H4 [Hsv4 Hoc4]]. rewrite <- N3 in H4, Hsv4, Hoc4.
  destruct H4 as [(Hno & _)|(e' & s' & _ & Es' & Ee' & X1 & X2 & X3 & X4)]; [by destruct (Hno e Hin)|].
  rewrite T1 in Es'. injection Es' as <-. rewrite Ee in Ee'. injection Ee' as <-.
  destruct (step_users_on_call st (clock i1) (db_tbl w) t3 e step ep sv' HU T5 A6 T2 S1 S2) as [U1 U2].
  exists i4, (step_users st t3 e).
  assert (paged st a (clock i4) (db_tbl w) t4 s svc sv sid step ep (step_users st t3 e)) as HP4.
  { split.
    - by rewrite X1, T1.
    - done.
    - intros u. rewrite U2, T3. done.
    - by rewrite X3, T6.
    - by rewrite X4, T7.
    - exists (no_one st t3 e). split; [by rewrite X2, T8|]. rewrite X3, X4, T6, T7. unfold no_one, esc_cycles, esc_messages.
      rewrite andb_true_iff, !bool_decide_eq_true. split.
      + intros [-> ->]. cbn. by rewrite !app_nil_r.
      + intros [H1 H2]. rewrite <- (app_nil_r (cycles_of a (db_tbl w))) in H1 at 2.
        rewrite <- (app_nil_r (messages_of a (db_tbl w))) in H2 at 2.
        apply app_inv_head in H1, H2. by apply map_eq_nil in H1, H2. }
  pose proof (pg_state _ _ _ _ _ _ _ _ _ _ _ _ HP4) as E4.
  assert (rests a t4 t5) as R5.
  { destruct (deleted_seen st locked _ t4 rows5 u5 logs5 D2 a D1) as [H5 _]. rewrite <- D3 in H5.
    destruct H5 as [[_ H5]|(e' & s' & _ & Es' & Ee' & _)]; [done|]. exfalso. rewrite E4 in Es'. injection Es' as <-.
    apply deleted_esc_spec in Ee' as (_ & _ & _ & [=]). }
  apply (paged_rests _ _ _ _ t5); [by eapply paged_rests|]. destruct R5 as [R5 _].
  destruct (normal_seen st locked _ t5 rows6 u6 logs6 O2 a O1) as [H6 _]. rewrite <- O3 in H6.
  destruct H6 as [[_ H6]|(e' & s' & _ & Es' & Ee' & _)]; [done|]. exfalso. rewrite R5, E4 in Es'. injection Es' as <-.
  apply normal_esc_spec in Ee' as (_ & _ & _ & _ & [[=]|(nx & [= <-] & Hlt)] & _).
  specialize (Hclock i6 i4). unfold Minute, Second in *. nia.
Qed.
End spec.

(** ** A policy of two steps *)

Definition sample_static : Static :=
  mkStatic {[1 := mkAlert StatusTriggered 10]} {[20 := mkPolicy 100 0 2]}
    {[30 := mkStep 20 0 5 false; 31 := mkStep 20 1 10 true]}
    [mkAction 30 (TgtUser 40); mkAction 30 (TgtRotation 60); mkAction 30 (TgtChannel 50); mkAction 31 (TgtSchedule 70)]
    {[60 := 61]} {[61 := 41]} [(70, 42)] {[40 := 100; 41 := 100; 42 := 101]}.

Definition sample_state : EPState := mkState 20 None 0 false None 0 None.

Definition sample_tables : Tables :=
  mkTables {[10 := mkService 20 100 (Some 500)]} {[1 := sample_state]} [mkOnCall 30 44 100 None] [] [] [].

(** No call fails; the n-th is made at 1000 + n. *)
Definition run_cycle (start : Z) (t : Tables) : res DBErr unit * DBWorld Tables :=
  @update ordered_map_range stable_go_sort sample_static (fun _ => None) (fun _ => true)
    (fun n => start + Z.of_nat (n `min` 1000)) (fun _ _ => false) (mkDB t 0).

(** The four cycles of a policy without repetition, ten minutes apart: two steps,
    and then nothing. *)
Definition after_cycles : Tables :=
  fold_left (fun t k => db_tbl (run_cycle (1000 + k * 11 * Minute) t).2) [0; 1; 2; 3] sample_tables.

Lemma updateOnCall_exact_witness :
  open_pairs (t_on_call (updateOnCall sample_static 200 sample_tables)) = [(30, 40); (30, 41)] /\
  ((30, 41) ∈ open_pairs (t_on_call (updateOnCall sample_static 200 sample_tables)) <->
   should_be_on_call sample_static 30 41).
Proof.
  split; [vm_compute; reflexivity|].
  exact (proj1 (proj2 (updateOnCall_exact sample_static 200 sample_tables ltac:(repeat constructor; set_solver))) 30 41).
Defined.

Lemma sample_policy_ok : policy_ok 20 (mkPolicy 100 0 2) sample_static.
Proof.
  split; [by vm_compute|]. split; [done|]. intros sid step E _. unfold sample_static in E. cbn [t_steps] in E.
  apply lookup_insert_Some in E as [[_ <-]|[_ E]]; [done|]. apply lookup_singleton_Some in E as [_ <-]. done.
Qed.

Notation sample_history := (@history ordered_map_range stable_go_sort 1 20 (mkPolicy 100 0 2) sample_static).

Lemma cycles_history l t : sample_history t ->
  sample_history (fold_left (fun t k => db_tbl (run_cycle (1000 + k * 11 * Minute) t).2) l t).
Proof.
  revert t. induction l as [|k l IH]; intros t Ht; [done|]. cbn [fold_left]. apply IH.
  exact (h_cycle 1 20 (mkPolicy 100 0 2) sample_static (fun _ => None) (fun _ => true)
    (fun n => 1000 + k * 11 * Minute + Z.of_nat (Nat.min n 1000)) (fun _ _ => false) (mkDB t 0) Ht).
Qed.

Lemma after_cycles_history : sample_history after_cycles.
Proof.
  apply cycles_history. by apply (h_start 1 20 (mkPolicy 100 0 2) sample_static sample_tables sample_state sample_policy_ok).
Qed.

Lemma escalations_follow_policy_witness :
  map NewStepIndex (logs_of 1 after_cycles) = [0; 1] /\
  Z.of_nat (length (logs_of 1 after_cycles)) <= 2 * (0 + 1).
Proof.
  split; [vm_compute; reflexivity|].
  exact (proj2 (@escalations_follow_policy ordered_map_range stable_go_sort 1 20 (mkPolicy 100 0 2)
    sample_static after_cycles after_cycles_history) ltac:(cbn; lia)).
Defined.

Lemma resting_alert_untouched_witness :
  logs_of 1 (db_tbl (run_cycle (-1000) sample_tables).2) = logs_of 1 sample_tables.
Proof.
  refine (proj1 (proj2 (@resting_alert_untouched ordered_map_range stable_go_sort sample_static (fun _ => None)
    (fun _ => true) (fun n => -1000 + Z.of_nat (Nat.min n 1000)) (fun _ _ => false) (mkDB sample_tables 0) 1 sample_state eq_refl _))).
  exists (mkAlert StatusTriggered 10). split; [vm_compute; reflexivity|]. right.
  exists (mkService 20 100 (Some 500)), 500. split; [vm_compute; reflexivity|]. split; [reflexivity|]. intros i. lia.
Defined.

(** An alert of a policy without repetition stands at the last step when it is
    deleted: the policy starts over at once, and the round is not counted. *)
Definition deleted_step_tables : Tables :=
  mkTables {[10 := mkService 20 100 None]} {[1 := mkState 20 None 2 false (Some 900) 0 (Some (900 + 10 * Minute))]} [] [] [] [].

Example deleted_step_repeats_uncounted :
  t_logs (db_tbl (run_cycle 1000 deleted_step_tables).2) = [(1, mkMeta 0 true false false 0 false)] /\
  loop_count <$> t_states (db_tbl (run_cycle 1000 deleted_step_tables).2) !! 1 = Some 0.
Proof. split; vm_compute; reflexivity. Qed.
