(* ===== verification/AlertDB.v ===== *)
(** * The tables of alerts, their triggers, and transactions

    The tables that the alert store writes, each statement with the triggers of
    [migrate/schema.sql] that it fires, and transactions as [database/sql] has
    them: a statement that fails aborts its transaction, of which the commit then
    fails.  What other transactions commit while a row lock is waited for is a
    parameter, and so is whether a commit that fails has taken effect. *)

From S2P Require Import Prelude Effects Database GoTime Escalation Validate Permission.

(** ** Tables *)

(** [alerts] *)
Record AlertRow := mkRow {
  r_summary : string; r_details : string; r_service : UUID; r_source : string;
  r_status : AlertStatus; r_dedup : option string; r_created : Z
}.

(** [enum_alert_log_event], and the two types that [logEntry] maps *)
Inductive LogType := TypeCreated | TypeClosed | TypeNotificationSent | TypeNoNotificationSent | TypeEscalated
  | TypeAcknowledged | TypePolicyUpdated | TypeDuplicateSupressed | TypeEscalationRequest
  | TypeAcknowledgeAll | TypeCloseAll.

#[global] Instance LogType_eq_dec : EqDecision LogType.
Proof. solve_decision. Defined.

(** What is marshalled: [CreatedMetaData], or another value. *)
Inductive LogMeta := CreatedMetaData (EPNoSteps : bool) | OtherMeta (json : string).

Inductive SubjectType := SubjectTypeUser | SubjectTypeIntegrationKey | SubjectTypeHeartbeatMonitor | SubjectTypeChannel.

(** The subject columns of [alert_logs] *)
Record Subject := mkSubject {
  sub_type : option SubjectType; sub_user : option UUID; sub_ikey : option UUID; sub_hb : option UUID;
  sub_channel : option UUID; sub_classifier : string
}.

(** [alert_logs] *)
Record LogRow := mkLog { lg_alert : Z; lg_event : LogType; lg_subject : Subject; lg_meta : option LogMeta; lg_time : Z }.

Record Tables := mkTables {
  t_alerts : gmap Z AlertRow;
  t_services : gmap UUID Escalation.Service;
  t_policies : gmap UUID Policy;
  t_steps : gmap UUID Step;
  t_states : gmap Z EPState;
  t_logs : list LogRow;
  t_data : gmap Z (gmap string string);   (** [alert_data] *)
  t_feedback : gmap Z string;             (** [alert_feedback] *)
  t_jobs : list Z;                        (** [river_job]: look-for-work of the status manager *)
  t_limit : option Z                      (** [unacked_alerts_per_service] *)
}.

Definition set_alerts (m : gmap Z AlertRow) (t : Tables) : Tables :=
  mkTables m (t_services t) (t_policies t) (t_steps t) (t_states t) (t_logs t) (t_data t) (t_feedback t) (t_jobs t) (t_limit t).
Definition set_states (m : gmap Z EPState) (t : Tables) : Tables :=
  mkTables (t_alerts t) (t_services t) (t_policies t) (t_steps t) m (t_logs t) (t_data t) (t_feedback t) (t_jobs t) (t_limit t).
Definition set_logs (l : list LogRow) (t : Tables) : Tables :=
  mkTables (t_alerts t) (t_services t) (t_policies t) (t_steps t) (t_states t) l (t_data t) (t_feedback t) (t_jobs t) (t_limit t).
Definition set_data (m : gmap Z (gmap string string)) (t : Tables) : Tables :=
  mkTables (t_alerts t) (t_services t) (t_policies t) (t_steps t) (t_states t) (t_logs t) m (t_feedback t) (t_jobs t) (t_limit t).
Definition set_feedback (m : gmap Z string) (t : Tables) : Tables :=
  mkTables (t_alerts t) (t_services t) (t_policies t) (t_steps t) (t_states t) (t_logs t) (t_data t) m (t_jobs t) (t_limit t).
Definition set_jobs (l : list Z) (t : Tables) : Tables :=
  mkTables (t_alerts t) (t_services t) (t_policies t) (t_steps t) (t_states t) (t_logs t) (t_data t) (t_feedback t) l (t_limit t).

(** ** Triggers *)

Definition with_status (s : AlertStatus) (d : option string) (r : AlertRow) : AlertRow :=
  mkRow (r_summary r) (r_details r) (r_service r) (r_source r) s d (r_created r).

(** [enum_alert_status] orders triggered, active, closed. *)
Definition status_number (s : AlertStatus) : Z :=
  match s with StatusTriggered => 0 | StatusActive => 1 | StatusClosed => 2 end.

Definition open (r : AlertRow) : bool := negb (bool_decide (r_status r = StatusClosed)).

(** [fn_clear_next_esc_on_alert_ack] *)
Definition clear_next (s : EPState) : EPState :=
  mkState (es_policy s) (es_step s) (es_number s) (force_escalation s) (last_escalation s) (loop_count s) None.

(** [UPDATE alerts SET status] of one row: [fn_prevent_reopen],
    [fn_clear_dedup_on_close], the constraint, [fn_clear_ep_state_on_alert_close],
    [fn_clear_next_esc_on_alert_ack] and [fn_track_alert_status], which adds one
    job per alert and transaction. *)
Definition set_status (status : AlertStatus) (id : Z) (marked : list Z) (t : Tables) : Tables * list Z + DBErr :=
  match t_alerts t !! id with
  | None => inl (t, marked)
  | Some r =>
      if bool_decide (r_status r = StatusClosed) then inr (PgErr "P0001" "")
      else
        let differs := negb (bool_decide (status = r_status r)) in
        let dedup := if differs && bool_decide (status = StatusClosed) then None else r_dedup r in
        if negb (Bool.eqb (bool_decide (status = StatusClosed)) (bool_decide (dedup = None))) then
          inr (PgErr "23514" "dedup_key_only_for_open_alerts")
        else
          let t := set_alerts (<[id := with_status status dedup r]> (t_alerts t)) t in
          let t := if differs && bool_decide (status = StatusClosed) then set_states (delete id (t_states t)) t else t in
          let t := if differs && bool_decide (r_status r = StatusActive) then set_states (alter clear_next id (t_states t)) t else t in
          if differs && negb (bool_decide (id ∈ marked)) then inl (set_jobs (t_jobs t ++ [id]) t, id :: marked)
          else inl (t, marked)
  end.

(** Several rows: the first error ends the statement. *)
Fixpoint set_statuses (status : AlertStatus) (ids : list Z) (marked : list Z) (t : Tables) : Tables * list Z + DBErr :=
  match ids with
  | [] => inl (t, marked)
  | id :: ids =>
      match set_status status id marked t with
      | inl (t, marked) => set_statuses status ids marked t
      | inr e => inr e
      end
  end.

Definition triggered_of (svc : UUID) (t : Tables) : gmap Z AlertRow :=
  filter (fun '(_, r) => r_service r = svc /\ r_status r = StatusTriggered) (t_alerts t).

(** [idx_no_alert_duplicates]: a null is like no other value. *)
Definition has_dedup (svc : UUID) (d : option string) (t : Tables) : bool :=
  match d with
  | None => false
  | Some _ => bool_decide (map_Exists (fun _ r => r_service r = svc /\ r_dedup r = d) (t_alerts t))
  end.

(** [fn_insert_ep_state_on_alert_insert] *)
Definition insert_state (id : Z) (svc : Escalation.Service) (t : Tables) : Tables :=
  match t_policies t !! sv_policy svc with
  | Some ep => if 0 <? step_count ep then set_states (<[id := mkState (sv_policy svc) None 0 false None 0 None]> (t_states t)) t else t
  | None => t
  end.

(** [fn_enforce_alert_limit]: a missing row is no limit. *)
Definition over_limit (svc : UUID) (t : Tables) : bool :=
  match t_limit t with
  | Some max => if max =? -1 then false else max <? Z.of_nat (size (triggered_of svc t))
  | None => false
  end.

(** [INSERT INTO alerts] *)
Definition insert_alert (id : Z) (r : AlertRow) (t : Tables) : Tables + DBErr :=
  if negb (Bool.eqb (negb (open r)) (bool_decide (r_dedup r = None))) then inr (PgErr "23514" "dedup_key_only_for_open_alerts")
  else if has_dedup (r_service r) (r_dedup r) t then inr (PgErr "23505" "idx_no_alert_duplicates")
  else
    let t := set_alerts (<[id := r]> (t_alerts t)) t in
    match t_services t !! r_service r with
    | None => inr (PgErr "23503" "alerts_services_id_fkey")
    | Some svc =>
        let t := if open r then insert_state id svc t else t in
        if over_limit (r_service r) t then inr (PgErr "23514" "unacked_alerts_per_service_limit") else inl t
    end.

(** [UPDATE escalation_policy_state SET force_escalation = TRUE] of one row:
    [fn_trig_alert_on_force_escalation] *)
Definition force (id : Z) (marked : list Z) (t : Tables) : Tables * list Z + DBErr :=
  match t_states t !! id with
  | None => inl (t, marked)
  | Some s =>
      let t' := set_states (<[id := mkState (es_policy s) (es_step s) (es_number s) true (last_escalation s) (loop_count s) (next_escalation s)]> (t_states t)) t in
      if force_escalation s then inl (t', marked) else set_status StatusTriggered id marked t'
  end.

(** ** Transactions *)

(** What an operation of the store fails with *)
Inductive AErr := EValid (v : VErr) | EDenied (d : Denied) | EGeneric (msg : string) | EPg (e : DBErr) | EAborted
  | ELog (text : string) | EClosed (id : Z) | EAcked (id : Z).

(** [w_seq] is the sequence of ids, which a rollback leaves; [w_marked] the
    alerts for which the transaction has added a job. *)
Record World := mkWorld { w_tbl : Tables; w_seq : Z; w_calls : nat; w_aborted : bool; w_marked : list Z }.

Section Transactions.
Context (db_err : nat -> option DBErr) (clock : nat -> Z) (wait : nat -> Z -> Tables -> Z * Tables) (commit_lost : nat -> bool).

Local Notation M := (Effects.M World AErr).

Definition tick (w : World) : World := mkWorld (w_tbl w) (w_seq w) (S (w_calls w)) (w_aborted w) (w_marked w).
Definition abort (w : World) : World := mkWorld (w_tbl w) (w_seq w) (w_calls w) true (w_marked w).
Definition set_tables (t : Tables) (w : World) : World := mkWorld t (w_seq w) (w_calls w) (w_aborted w) (w_marked w).

(** What a statement does to tables, sequence and marks. *)
Definition Stmt (A : Type) : Type := Z -> list Z -> Tables -> A * Z * list Z * Tables + Z * DBErr.

(** A statement of a transaction; in an aborted one it is refused ([25P02]). *)
Definition stmt {A} (f : Stmt A) : M A := fun w =>
  if w_aborted w then (Err EAborted, tick w)
  else match db_err (w_calls w) with
       | Some e => (Err (EPg e), abort (tick w))
       | None =>
           match f (w_seq w) (w_marked w) (w_tbl w) with
           | inl (a, seq, marked, t) => (Ok a, mkWorld t seq (S (w_calls w)) false marked)
           | inr (seq, e) => (Err (EPg e), mkWorld (w_tbl w) seq (S (w_calls w)) true (w_marked w))
           end
       end.

(** A statement that only reads *)
Definition query {A} (f : Tables -> A) : M A := stmt (fun seq marked t => inl (f t, seq, marked, t)).

(** A statement that takes a row lock: it sees what was committed meanwhile,
    and the ids that were given. *)
Definition lock_query {A} (f : Tables -> A) : M A := fun w =>
  stmt (fun seq marked t => let '(seq, t) := wait (w_calls w) seq t in inl (f t, seq, marked, t)) w.

(** A statement that changes statuses *)
Definition exec {A} (f : list Z -> Tables -> (A * Tables * list Z) + DBErr) : M A :=
  stmt (fun seq marked t =>
    match f marked t with
    | inl (a, t, marked) => inl (a, seq, marked, t)
    | inr e => inr (seq, e)
    end).

(** A query outside a transaction *)
Definition db_query {A} (f : Tables -> A) : M A := fun w =>
  match db_err (w_calls w) with
  | Some e => (Err (EPg e), tick w)
  | None => (Ok (f (w_tbl w)), tick w)
  end.

(** A statement outside a transaction, which is one of its own *)
Definition db_exec {A} (f : Tables -> (A * Tables) + DBErr) : M A := fun w =>
  match db_err (w_calls w) with
  | Some e => (Err (EPg e), tick w)
  | None =>
      match f (w_tbl w) with
      | inl (a, t) => (Ok a, set_tables t (tick w))
      | inr e => (Err (EPg e), tick w)
      end
  end.

(** [errors.Is(err, sql.ErrNoRows)] is [None]; any other error is returned. *)
Definition try {A} (m : M A) : M (A + AErr) := fun w =>
  match m w with
  | (Ok a, w) => (Ok (inl a), w)
  | (Err e, w) => (Ok (inr e), w)
  | (Panic, w) => (Panic, w)
  end.

Definition check (o : option Denied) : M unit := match o with Some d => fail (EDenied d) | None => ret tt end.
Definition valid (o : option VErr) : M unit := match o with Some v => fail (EValid v) | None => ret tt end.

(** [BeginTx], what runs in the transaction, at the time of its start, and
    [Commit], which refuses an aborted one; [Rollback] in all other cases. *)
Definition InTx {A} (body : Z -> M A) : M A := fun w =>
  match db_err (w_calls w) with
  | Some e => (Err (EPg e), tick w)
  | None =>
      let back w' := mkWorld (w_tbl w) (w_seq w') (w_calls w') false [] in
      match body (clock (w_calls w)) (mkWorld (w_tbl w) (w_seq w) (S (w_calls w)) false []) with
      | (Ok a, w') =>
          if w_aborted w' then (Err EAborted, back (tick w'))
          else match db_err (w_calls w') with
               | Some e =>
                   (Err (EPg e), if commit_lost (w_calls w') then mkWorld (w_tbl w') (w_seq w') (S (w_calls w')) false [] else back (tick w'))
               | None => (Ok a, mkWorld (w_tbl w') (w_seq w') (S (w_calls w')) false [])
               end
      | (Err e, w') => (Err e, back w')
      | (Panic, w') => (Panic, back w')
      end
  end.
End Transactions.
