(* ===== verification/AlertLog.v ===== *)
(** * The log of alerts: [alert/alertlog]

    An entry names who caused it: the source in the context of the request is
    looked up to classify it.  Entries are appended for one alert, for several, for
    all of a service or of an escalation policy that the event concerns. *)

From S2P Require Import Prelude Text Effects Database GoTime Escalation Unicode Validate Permission AlertDB.

(** What [logEntry] looks up: the destination types of channels, contact methods
    and messages, the minutes of a heartbeat, and the types of keys. *)
Record Directory := mkDirectory {
  d_channels : gmap UUID string;
  d_contacts : gmap UUID string;
  d_messages : gmap UUID (option string);
  d_monitors : gmap UUID Z;
  d_ikeys : gmap UUID string
}.

(** [nfydest.Registry.TypeInfo]: the name of a destination type, or an error. *)
Class Registry := { TypeInfo : string -> option string }.

Section AlertLog.
Context {HT : UUIDText} {HG : Registry}.
Context (dir : Directory).
Context (db_err : nat -> option DBErr).

Local Notation M := (Effects.M World AErr).
Local Notation stmt := (AlertDB.stmt db_err).
Local Notation query := (AlertDB.query db_err).

Definition no_subject : Subject := mkSubject None None None None None "".

Definition type_name (t : string) (msg : string) : M string :=
  match TypeInfo t with Some n => ret n | None => fail (ELog msg) end.

Definition found {A} (o : option A) (msg : string) : M A := match o with Some a => ret a | None => fail (ELog msg) end.

Definition expired_text (minutes : Z) : string :=
  ("expired after " ++ itoa minutes ++ " minute" ++ (if (minutes =? 1)%Z then "" else "s"))%string.

Definition ikey_text (t : string) : string :=
  if String.eqb t "generic" then "Generic API" else if String.eqb t "grafana" then "Grafana"
  else if String.eqb t "site24x7" then "Site24x7" else if String.eqb t "email" then "Email" else "".

(** The subject that [logEntry] finds for a source; a text that is not a UUID is
    an error, a panic ([uuid.MustParse]) or refused by the database. *)
Definition source_subject (c : Ctx) (ty : LogType) (src : SourceInfo) : M Subject :=
  match src_type src with
  | SourceTypeNotificationChannel =>
      let! id := found (uuid_Parse (src_id src)) "parse channel ID" in
      let! row := query (fun _ => d_channels dir !! id) in
      let! dest := found row "lookup notification channel destination" in
      let! name := type_name dest "lookup notification channel destination type" in
      ret (mkSubject (Some SubjectTypeChannel) None None None (Some id) name)
  | SourceTypeAuthProvider => ret (mkSubject (Some SubjectTypeUser) (UserNullUUID c) None None None "Web")
  | SourceTypeContactMethod =>
      if bool_decide (ty = TypeNoNotificationSent) then
        ret (mkSubject (Some SubjectTypeUser) (UserNullUUID c) None None None "no immediate rule")
      else
        let! id := need (uuid_Parse (src_id src)) in
        let! row := query (fun _ => d_contacts dir !! id) in
        let! dest := found row "lookup contact method type for callback ID" in
        let! name := type_name dest "lookup contact method type" in
        ret (mkSubject (Some SubjectTypeUser) (UserNullUUID c) None None None name)
  | SourceTypeNotificationCallback =>
      let! id := found (uuid_Parse (src_id src)) "parse channel ID" in
      let! row := query (fun _ => d_messages dir !! id) in
      let! dest := found (mjoin row) "lookup notification callback type" in
      let! name := type_name dest "lookup notification channel destination type" in
      ret (mkSubject (Some SubjectTypeUser) (UserNullUUID c) None None None name)
  | SourceTypeHeartbeat =>
      let! id := need (uuid_Parse (src_id src)) in
      let! row := query (fun _ => d_monitors dir !! id) in
      let! minutes := found row "lookup heartbeat monitor interval by ID" in
      let classifier := if bool_decide (ty = TypeCreated) then expired_text minutes
                        else if bool_decide (ty = TypeClosed) then "healthy" else "" in
      ret (mkSubject (Some SubjectTypeHeartbeatMonitor) None None (Some id) None classifier)
  | SourceTypeIntegrationKey =>
      let! row := stmt (fun seq marked t =>
        match uuid_Parse (src_id src) with
        | Some id => inl (d_ikeys dir !! id, seq, marked, t)
        | None => inr (seq, PgErr "22P02" "")
        end) in
      let! key := found row "lookup integration key type by ID" in
      let! id := need (uuid_Parse (src_id src)) in
      ret (mkSubject (Some SubjectTypeIntegrationKey) None (Some id) None None (ikey_text key))
  | SourceTypeCalendarSubscription | SourceTypeGQLAPIKey | SourceTypeUIK => ret no_subject
  end.

Definition set_classifier (s : string) (x : Subject) : Subject :=
  mkSubject (sub_type x) (sub_user x) (sub_ikey x) (sub_hb x) (sub_channel x) s.

(** [_TypeAcknowledgeAll], [_TypeCloseAll] *)
Definition entry_type (ty : LogType) : LogType * list string :=
  match ty with
  | TypeAcknowledgeAll => (TypeAcknowledged, ["Ack-All"])
  | TypeCloseAll => (TypeClosed, ["Close-All"])
  | _ => (ty, [])
  end.

Definition logEntry (c : Ctx) (ty : LogType) : M (LogType * Subject) :=
  let '(ty, classExtras) := entry_type ty in
  let! s := (match Permission.Source c with Some src => source_subject c ty src | None => ret no_subject end) in
  let classExtras := if String.eqb (sub_classifier s) "" then classExtras else sub_classifier s :: classExtras in
  ret (ty, set_classifier (join ", " classExtras) s).

(** An entry for every alert of a list, at the time of the transaction *)
Definition append (now : Z) (ids : list Z) (e : LogType * Subject) (meta : option LogMeta) (t : Tables) : Tables :=
  set_logs (t_logs t ++ map (fun id => mkLog id e.1 e.2 meta now) ids) t.

Definition write (f : Tables -> Tables) : M unit := stmt (fun seq marked t => inl (tt, seq, marked, f t)).

Definition LogManyTx (c : Ctx) (now : Z) (ids : list Z) (ty : LogType) (meta : option LogMeta) : M unit :=
  check (LimitCheckAny c [Some All]) ;;;
  let! e := logEntry c ty in
  write (append now ids e meta).

Definition LogTx (c : Ctx) (now : Z) (id : Z) (ty : LogType) (meta : option LogMeta) : M unit :=
  LogManyTx c now [id] ty meta.

(** [AlertLog_HasRecentDuplicate]: in the last five seconds *)
Definition recent_duplicate (now id : Z) (t : Tables) : bool :=
  existsb (fun l => (lg_alert l =? id)%Z && bool_decide (lg_event l = TypeDuplicateSupressed) && (now - 5 * Second <? lg_time l)%Z) (t_logs t).

(** A failure is logged only; the transaction stays aborted. *)
Definition MustLogTx (c : Ctx) (now : Z) (id : Z) (ty : LogType) (meta : option LogMeta) : M unit :=
  let log := let! _ := try (LogTx c now id ty meta) in ret tt in
  if bool_decide (ty = TypeDuplicateSupressed) then
    let! recent := try (query (recent_duplicate now id)) in
    match recent with
    | inl false => log
    | _ => ret tt
    end
  else log.

Definition uuid_valid (fname u : string) : M unit :=
  valid (if negb (String.length u =? 36)%nat || negb (bool_decide (is_Some (uuid_Parse u))) then NewFieldError fname "must be a valid UUID" else None).

(** The alerts in the order of a scan *)
Context {HR : GoMapRange}.

Definition ids_where (p : AlertRow -> bool) (t : Tables) : list Z :=
  map fst (List.filter (fun '(_, r) => p r) (map_range (t_alerts t))).

(** [AlertLog_InsertSvc] *)
Definition svc_concerned (svc : UUID) (ev : LogType) (r : AlertRow) : bool :=
  (r_service r =? svc)%Z &&
  (if bool_decide (ev = TypeClosed) then open r
   else (bool_decide (ev = TypeAcknowledged) || bool_decide (ev = TypeNotificationSent)) && bool_decide (r_status r = StatusTriggered)).

Definition LogServiceTx (c : Ctx) (now : Z) (serviceID : string) (ty : LogType) (meta : option LogMeta) : M unit :=
  check (LimitCheckAny c [Some All]) ;;;
  uuid_valid "ServiceID" serviceID ;;;
  let t := match ty with TypeAcknowledged => TypeAcknowledgeAll | TypeClosed => TypeCloseAll | _ => ty end in
  let! e := logEntry c t in
  let! svc := need (uuid_Parse serviceID) in
  write (fun t => append now (ids_where (svc_concerned svc e.1) t) e meta t).

(** [AlertLog_InsertEP] *)
Definition LogEPTx (c : Ctx) (now : Z) (epID : string) (ty : LogType) (meta : option LogMeta) : M unit :=
  check (LimitCheckAny c [Some All]) ;;;
  uuid_valid "EscalationPolicyID" epID ;;;
  let! e := logEntry c ty in
  let! ep := need (uuid_Parse epID) in
  write (fun t => append now (ids_where (fun r =>
    open r && match t_services t !! r_service r with Some s => sv_policy s =? ep | None => false end)%Z t) e meta t).
End AlertLog.
