(* ===== verification/AlertStore.v ===== *)
(** * The alert store: [alert]

    Alerts are created with deduplication, acknowledged, closed and escalated on
    request, one at a time, for a list or for all of a service; every operation is
    one transaction that locks the service.  The checks of permissions and of the
    organization are part of the operations. *)

From S2P Require Import Prelude Text Effects Database GoTime Escalation Unicode Validate Permission AlertData AlertDB AlertLog.

Section AlertStore.
Context {HU : Unicode} {HT : UUIDText} {HD : Digest} {HG : Registry} {HR : GoMapRange}.
Context (dir : Directory).
Context (db_err : nat -> option DBErr) (clock : nat -> Z) (wait : nat -> Z -> Tables -> Z * Tables) (commit_lost : nat -> bool)
  (rows_cut : nat -> option nat).

Local Notation M := (Effects.M World AErr).
Local Notation stmt := (AlertDB.stmt db_err).
Local Notation query := (AlertDB.query db_err).
Local Notation lock_query := (AlertDB.lock_query db_err wait).
Local Notation exec := (AlertDB.exec db_err).
Local Notation db_query := (AlertDB.db_query db_err).
Local Notation db_exec := (AlertDB.db_exec db_err).
Local Notation InTx := (AlertDB.InTx db_err clock commit_lost).
Local Notation LogTx := (AlertLog.LogTx dir db_err).
Local Notation MustLogTx := (AlertLog.MustLogTx dir db_err).

(** A value of [enum_alert_status]; the database refuses another text. *)
Definition status_of (s : string) : option AlertStatus :=
  if String.eqb s StatusTriggered_ then Some StatusTriggered
  else if String.eqb s StatusActive_ then Some StatusActive
  else if String.eqb s StatusClosed_ then Some StatusClosed else None.

Definition status_text (s : AlertStatus) : string :=
  match s with StatusTriggered => StatusTriggered_ | StatusActive => StatusActive_ | StatusClosed => StatusClosed_ end.

Definition bad_enum {A} : A + DBErr := inr (PgErr "22P02" "").

Definition norm (a : Alert) : M Alert := match Normalize a with inl n => ret n | inr v => fail (EValid v) end.

Definition creators (c : Ctx) (a : Alert) : option Denied :=
  LimitCheckAny c [Some System; Some Admin; Some User; Some (MatchService (ServiceID a))].

(** ** Organizations: [organization.go] *)

Definition checkOrganizationID (org : option UUID) : option VErr :=
  match org with Some 0 => NewFieldError "OrganizationID" "must be specified" | _ => None end.

Definition service_in (org : UUID) (svc : UUID) (t : Tables) : bool :=
  match t_services t !! svc with Some s => sv_org s =? org | None => false end.

Definition alert_in (org : UUID) (id : Z) (t : Tables) : bool :=
  match t_alerts t !! id with Some r => service_in org (r_service r) t | None => false end.

Definition CheckOrganization (c : Ctx) (id : Z) (org : option UUID) : M unit :=
  match org with
  | None => ret tt
  | Some o =>
      check (LimitCheckAny c [Some User]) ;;;
      valid (checkOrganizationID org) ;;;
      let! ok := db_query (alert_in o id) in
      if (ok : bool) then ret tt else fail (EPg ErrNoRows)
  end.

Definition checkServiceOrganization (serviceID : string) (org : option UUID) : M unit :=
  match org with
  | None => ret tt
  | Some o =>
      valid (checkOrganizationID org) ;;;
      let! svc := need (uuid_Parse serviceID) in
      let! ok := query (service_in o svc) in
      if (ok : bool) then ret tt else fail (EValid (Field (mkFieldErr "ServiceID" "service does not exist")))
  end.

(** [Alert_OrganizationIDs] *)
Definition ids_of_org (o : UUID) (ids : list Z) (t : Tables) : list Z :=
  List.filter (fun id => bool_decide (id ∈ ids) && alert_in o id t) (map fst (map_range (t_alerts t))).

Definition organizationAlertIDs (ids : list Z) (org : option UUID) (requireAll : bool) : M (list Z) :=
  match org with
  | None => ret ids
  | Some o =>
      valid (checkOrganizationID org) ;;;
      let! rows := db_query (ids_of_org o ids) in
      if requireAll then
        if (length rows =? length (remove_dups ids))%nat then ret ids else fail (EPg ErrNoRows)
      else ret rows
  end.

(** ** Creation *)

(** [Alert_LockService] *)
Definition lock_service : M unit := lock_query (fun _ => tt).

Definition service_has_steps (svc : UUID) (t : Tables) : bool :=
  match t_services t !! svc with
  | Some s => bool_decide (map_Exists (fun _ st => st_policy st = sv_policy s) (t_steps t))
  | None => false
  end.

(** [s.insert] *)
Definition insert (now : Z) (a : Alert) (svc : UUID) : AlertDB.Stmt (Z * Z) := fun seq marked t =>
  match status_of (Status_Value (Status a)) with
  | Some st =>
      if negb (bool_decide (Source_Value (Source a) ∈ sources)) then inr (seq, PgErr "22P02" "")
      else
        let r := mkRow (Summary a) (Details a) svc (Source_Value (Source a)) st (Some (Dedup_Value (DedupKey a))) now in
        match insert_alert seq r t with
        | inl t => inl ((seq, now), seq + 1, marked, t)
        | inr e => inr (seq + 1, e)
        end
  | None => inr (seq, PgErr "22P02" "")
  end.

Definition with_row (id created : Z) (a : Alert) : Alert :=
  mkAlert id (Status a) (Summary a) (Details a) (Source a) (ServiceID a) created (Dedup a).

Definition _create (now : Z) (a : Alert) : M (Alert * bool) :=
  let! svc := need (uuid_Parse (ServiceID a)) in
  let! row := stmt (insert now a svc) in
  let! hasSteps := query (service_has_steps svc) in
  ret (with_row row.1 row.2 a, negb hasSteps).

Definition CreateTxScoped (c : Ctx) (now : Z) (a : Alert) (org : option UUID) : M Alert :=
  let! n := norm a in
  (if String.eqb (Status n) StatusClosed_ then fail (EValid (Field (mkFieldErr "Status" "Cannot create a closed alert."))) else ret tt) ;;;
  check (creators c a) ;;;
  checkServiceOrganization (ServiceID n) org ;;;
  lock_service ;;;
  let! r := _create now n in
  MustLogTx c now (ID r.1) TypeCreated (Some (CreatedMetaData r.2)) ;;;
  ret r.1.

Definition CreateTx (c : Ctx) (now : Z) (a : Alert) : M Alert := CreateTxScoped c now a None.

(** ** Creation with deduplication *)

(** The rows with a service and a deduplication key *)
Definition with_key (svc : UUID) (key : string) (t : Tables) : option (Z * AlertRow) :=
  head (List.filter (fun '(_, r) => (r_service r =? svc) && bool_decide (r_dedup r = Some key)) (map_range (t_alerts t))).

(** [s.createUpdNew]: the row, and whether it was inserted. *)
Definition createUpdNew (now : Z) (n : Alert) (svc : UUID) : AlertDB.Stmt (Z * AlertRow * bool) := fun seq marked t =>
  match with_key svc (Dedup_Value (DedupKey n)) t with
  | Some (id, r) => inl (id, r, false, seq, marked, t)
  | None =>
      if negb (bool_decide (Source_Value (Source n) ∈ sources)) then inr (seq, PgErr "22P02" "")
      else
        let r := mkRow (Summary n) (Details n) svc (Source_Value (Source n)) StatusTriggered (Some (Dedup_Value (DedupKey n))) now in
        match insert_alert seq r t with
        | inl t => inl (seq, r, true, seq + 1, marked, t)
        | inr e => inr (seq + 1, e)
        end
  end.

(** [s.createUpdAck], [s.createUpdClose]: the row as it was. *)
Definition update_with_key (status : AlertStatus) (svc : UUID) (key : string) (marked : list Z) (t : Tables)
  : option (Z * AlertRow) * Tables * list Z + DBErr :=
  match with_key svc key t with
  | Some (id, r) =>
      if open r then
        match set_status status id marked t with
        | inl (t, marked) => inl (Some (id, r), t, marked)
        | inr e => inr e
        end
      else inl (None, t, marked)
  | None => inl (None, t, marked)
  end.

(** [Scan] of all the columns, and of the columns of an update *)
Definition scan_new (id : Z) (r : AlertRow) (n : Alert) : Alert :=
  mkAlert id (status_text (r_status r)) (r_summary r) (r_details r) (r_source r) (ServiceID n) (r_created r) (Dedup n).
Definition scan_upd (id : Z) (r : AlertRow) (n : Alert) : Alert :=
  mkAlert id (Status n) (r_summary r) (r_details r) (Source n) (ServiceID n) (r_created r) (Dedup n).

Definition CreateOrUpdateTxScoped (c : Ctx) (now : Z) (a : Alert) (org : option UUID) : M (option Alert * bool) :=
  check (creators c a) ;;;
  let! n := norm a in
  checkServiceOrganization (ServiceID n) org ;;;
  let! svc := need (uuid_Parse (ServiceID n)) in
  lock_service ;;;
  let key := Dedup_Value (DedupKey n) in
  match status_of (Status n) with
  | Some StatusTriggered =>
      let! row := stmt (createUpdNew now n svc) in
      let '(id, r, inserted) := row in
      if (inserted : bool) then
        let! hasSteps := query (service_has_steps svc) in
        MustLogTx c now id TypeCreated (Some (CreatedMetaData (negb hasSteps))) ;;;
        ret (Some (scan_new id r n), true)
      else
        MustLogTx c now id TypeDuplicateSupressed (Some (CreatedMetaData false)) ;;;
        ret (Some (scan_new id r n), false)
  | Some StatusActive =>
      let! row := exec (update_with_key StatusActive svc key) in
      match row with
      | None => ret (None, false)
      | Some (id, r) =>
          (if bool_decide (r_status r = StatusActive) then ret tt else MustLogTx c now id TypeAcknowledged None) ;;;
          ret (Some (scan_upd id r n), false)
      end
  | Some StatusClosed =>
      let! row := exec (update_with_key StatusClosed svc key) in
      match row with
      | None => ret (None, false)
      | Some (id, r) => MustLogTx c now id TypeClosed None ;;; ret (Some (scan_upd id r n), false)
      end
  | None => ret (Some n, false)
  end.

Definition CreateOrUpdateTx (c : Ctx) (now : Z) (a : Alert) : M (option Alert * bool) := CreateOrUpdateTxScoped c now a None.

(** [Alert_SetAlertMetadata]: the number of rows *)
Definition set_metadata (id : Z) (svc : option UUID) (meta : gmap string string) (t : Tables) : Z * Tables :=
  match t_alerts t !! id with
  | Some r =>
      if open r && match svc with Some s => r_service r =? s | None => true end then (1, set_data (<[id := meta]> (t_data t)) t)
      else (0, t)
  | None => (0, t)
  end.

Definition SetMetadataTx (c : Ctx) (id : Z) (meta : option (gmap string string)) : M unit :=
  check (LimitCheckAny c [Some User; Some Permission.Service]) ;;;
  valid (ValidateMetadata meta) ;;;
  let! rowCount := stmt (fun seq marked t =>
    let '(n, t) := set_metadata id (ServiceNullUUID c) (default ∅ meta) t in inl (n, seq, marked, t)) in
  if rowCount =? 0 then fail (EDenied (NewAccessDenied "alert closed, invalid, or wrong service")) else ret tt.

Definition createOrUpdate (c : Ctx) (a : Alert) (meta : option (gmap string string)) (org : option UUID) : M (option Alert * bool) :=
  check (creators c a) ;;;
  InTx (fun now =>
    let! r := CreateOrUpdateTxScoped c now a org in
    (match meta, r with
     | Some _, (Some n, true) => SetMetadataTx c (ID n) meta
     | _, _ => ret tt
     end) ;;;
    ret r).

Definition CreateOrUpdateScoped (c : Ctx) (a : Alert) (org : option UUID) : M (option Alert * bool) := createOrUpdate c a None org.
Definition CreateOrUpdate (c : Ctx) (a : Alert) : M (option Alert * bool) := CreateOrUpdateScoped c a None.
Definition CreateOrUpdateWithMeta (c : Ctx) (a : Alert) (meta : option (gmap string string)) : M (option Alert * bool) :=
  createOrUpdate c a meta None.

(** ** Changes of the status *)

(** [Alert_AlertMultiAck] *)
Definition alert_multi_ack (id : Z) (t : Tables) : bool :=
  match s ← t_states t !! id; st ← es_step s; t_steps t !! st with Some st => multi_ack st | None => false end.

(** [Alert_GetStatusAndLockService] *)
Definition joined_status (id : Z) (t : Tables) : option AlertStatus :=
  r ← t_alerts t !! id; _ ← t_services t !! r_service r; Some (r_status r).

(** [s.update] *)
Definition change_status (id : Z) (stat : string) (marked : list Z) (t : Tables) : unit * Tables * list Z + DBErr :=
  match status_of (Status_Value stat) with
  | Some st => match set_status st id marked t with inl (t, marked) => inl (tt, t, marked) | inr e => inr e end
  | None => bad_enum
  end.

Definition UpdateStatusTx (c : Ctx) (now : Z) (id : Z) (stat : string) : M unit :=
  let! row := lock_query (joined_status id) in
  match row with
  | None => fail (EPg ErrNoRows)
  | Some StatusClosed => fail (EClosed id)
  | Some old =>
      if bool_decide (old = StatusActive) && String.eqb stat StatusActive_ then
        let! multiAck := query (alert_multi_ack id) in
        if (multiAck : bool) then MustLogTx c now id TypeAcknowledged None else fail (EAcked id)
      else
        exec (change_status id stat) ;;;
        (if String.eqb stat StatusClosed_ then MustLogTx c now id TypeClosed None
         else if String.eqb stat StatusActive_ then MustLogTx c now id TypeAcknowledged None
         else ret tt)
  end.

Definition canTouchAlert (c : Ctx) (id : Z) : M unit :=
  let checks := [Some System; Some Admin; Some User] in
  if Permission.Service c then
    let! row := db_query (fun t => t_alerts t !! id) in
    match row with
    | None => fail (EPg ErrNoRows)
    | Some r => check (LimitCheckAny c (checks ++ [Some (MatchService (uuid_String (r_service r)))]))
    end
  else check (LimitCheckAny c checks).

Definition UpdateStatus (c : Ctx) (id : Z) (stat : string) : M unit :=
  valid (OneOf "Status" stat statuses) ;;;
  canTouchAlert c id ;;;
  InTx (fun now => UpdateStatusTx c now id stat).

Definition log_type (status : string) : LogType := if String.eqb status StatusClosed_ then TypeClosed else TypeAcknowledged.

(** [$2 > status] *)
Definition later (status : string) (r : AlertRow) : bool :=
  match status_of status with Some s => status_number (r_status r) <? status_number s | None => false end.

Definition advance (status : string) (ids : Tables -> list Z) (marked : list Z) (t : Tables) : list Z * Tables * list Z + DBErr :=
  match status_of status with
  | None => bad_enum
  | Some s => match set_statuses s (ids t) marked t with inl (t', marked) => inl (ids t, t', marked) | inr e => inr e end
  end.

Definition UpdateStatusByServiceScoped (c : Ctx) (serviceID status : string) (org : option UUID) : M unit :=
  check (LimitCheckAny c [Some System; Some Admin; Some User]) ;;;
  uuid_valid "ServiceID" serviceID ;;;
  valid (OneOf "Status" status [StatusActive_; StatusClosed_]) ;;;
  InTx (fun now =>
    checkServiceOrganization serviceID org ;;;
    AlertLog.LogServiceTx dir db_err c now serviceID (log_type status) None ;;;
    lock_service ;;;
    let! svc := need (uuid_Parse serviceID) in
    exec (advance status (ids_where (fun r => (r_service r =? svc) && later status r))) ;;;
    ret tt).

(** [s.updateByIDAndStatus] and [s.selectActiveMultiAck] *)
Definition advance_ids (status : string) (ids : list Z) (t : Tables) : list Z :=
  List.filter (fun id => bool_decide (id ∈ ids)) (ids_where (later status) t).

Definition multi_acked (ids advanced : list Z) (t : Tables) : list Z :=
  List.filter (fun id => bool_decide (id ∈ ids) && negb (bool_decide (id ∈ advanced)) && alert_multi_ack id t)
    (ids_where (fun r => bool_decide (r_status r = StatusActive)) t).

(** A user of the web interface with an organization *)
Definition human (c : Ctx) (org : option UUID) : bool :=
  bool_decide (is_Some org) && negb (System c) && User c && negb (String.eqb (UserID c) "") &&
  match Permission.Source c with Some s => bool_decide (src_type s = SourceTypeAuthProvider) | None => false end.

Definition UpdateManyAlertStatusScoped (c : Ctx) (status : string) (alertIDs : list Z) (meta : option LogMeta) (org : option UUID)
  : M (list Z) :=
  check (LimitCheckAny c [Some System; Some User]) ;;;
  if (length alertIDs =? 0)%nat then ret []
  else
    valid (Many [Range "AlertIDs" (Z.of_nat (length alertIDs)) 1 maxBatch; OneOf "Status" status [StatusActive_; StatusClosed_]]) ;;;
    let! ids := organizationAlertIDs alertIDs org false in
    InTx (fun now =>
      lock_service ;;;
      let! advancedIDs := exec (advance status (advance_ids status ids)) in
      let! additionalIDs :=
        (if String.eqb status StatusActive_ && human c org then query (multi_acked ids advancedIDs) else ret []) in
      let successfulIDs := advancedIDs ++ additionalIDs in
      AlertLog.LogManyTx dir db_err c now successfulIDs (log_type status) meta ;;;
      ret successfulIDs).

(** ** Escalation on request *)

(** [Alert_LockOneAlertService] *)
Definition maint_and_status (id : Z) (t : Tables) : option (bool * AlertStatus) :=
  r ← t_alerts t !! id; s ← t_services t !! r_service r; Some (bool_decide (is_Some (maintenance_expires_at s)), r_status r).

(** [Alert_RequestAlertEscalationByTime] *)
Definition request_escalation (id at_ : Z) (marked : list Z) (t : Tables) : bool * Tables * list Z + DBErr :=
  match t_states t !! id with
  | Some s =>
      if match last_escalation s with Some l => l <=? at_ | None => true end then
        match force id marked t with inl (t, marked) => inl (true, t, marked) | inr e => inr e end
      else inl (false, t, marked)
  | None => inl (false, t, marked)
  end.

Definition EscalateAsOf (c : Ctx) (id : Z) (at_ : Z) : M unit :=
  check (LimitCheckAny c [Some System; Some User]) ;;;
  InTx (fun now =>
    let! lck := lock_query (maint_and_status id) in
    match lck with
    | None => fail (EGeneric "alert not found")
    | Some (_, StatusClosed) => fail (EClosed id)
    | Some (true, _) => fail (EGeneric "service is in maintenance mode")
    | Some (false, _) =>
        let! at_ := (if at_ =? zero_inst then query (fun _ => now) else ret at_) in
        let! ok := exec (request_escalation id at_) in
        if (ok : bool) then LogTx c now id TypeEscalationRequest None
        else
          let! hasEP := query (fun t => bool_decide (is_Some (t_states t !! id))) in
          if (hasEP : bool) then fail (EGeneric "alert has already escalated")
          else fail (EGeneric "alert escalation policy is empty")
    end).

Definition EscalateManyScoped (c : Ctx) (alertIDs : list Z) (org : option UUID) : M (list Z) :=
  check (LimitCheckAny c [Some System; Some User]) ;;;
  match alertIDs with
  | [] => ret []
  | id :: _ =>
      valid (Range "AlertIDs" (Z.of_nat (length alertIDs)) 1 1) ;;;
      let! r := try (CheckOrganization c id org) in
      (match r with
       | inl _ => ret tt
       | inr (EPg ErrNoRows) => fail (EGeneric "alert not found")
       | inr e => fail e
       end) ;;;
      EscalateAsOf c id zero_inst ;;;
      ret alertIDs
  end.

(** ** Feedback *)

(** [Alert_SetManyAlertFeedback]: a row is changed once at most. *)
Fixpoint put_feedback (reason : string) (seen ids : list Z) (t : Tables) : Tables + DBErr :=
  match ids with
  | [] => inl t
  | id :: ids =>
      if bool_decide (id ∈ seen) then inr (PgErr "21000" "")
      else if bool_decide (is_Some (t_alerts t !! id)) then
        put_feedback reason (id :: seen) ids (set_feedback (<[id := reason]> (t_feedback t)) t)
      else inr (PgErr "23503" "alert_feedback_alert_id_fkey")
  end.

Definition set_many_feedback (reason : string) (ids : list Z) (t : Tables) : list Z * Tables + DBErr :=
  match put_feedback reason [] ids t with inl t => inl (ids, t) | inr e => inr e end.

Definition UpdateManyAlertFeedbackScoped (c : Ctx) (noiseReason : string) (alertIDs : list Z) (org : option UUID) : M (list Z) :=
  check (LimitCheckAny c [Some User]) ;;;
  valid (Many [Range "AlertIDs" (Z.of_nat (length alertIDs)) 1 maxBatch; Text "NoiseReason" noiseReason 1 255]) ;;;
  organizationAlertIDs alertIDs org true ;;;
  db_exec (set_many_feedback noiseReason alertIDs).

Definition UpdateFeedbackScoped (c : Ctx) (id : Z) (noiseReason : string) (org : option UUID) : M unit :=
  check (LimitCheckAny c [Some System; Some User]) ;;;
  valid (Text "NoiseReason" noiseReason 1 255) ;;;
  CheckOrganization c id org ;;;
  let! _ := db_exec (set_many_feedback noiseReason [id]) in ret tt.

(** ** Reading *)

(** [scanFrom]: a null leaves the pointer [nil], a bad text is an error. *)
Definition alert_of (id : Z) (r : AlertRow) : option Alert :=
  let a d := mkAlert id (status_text (r_status r)) (r_summary r) (r_details r) (r_source r)
    (uuid_String (r_service r)) (r_created r) d in
  match r_dedup r with
  | None => Some (a None)
  | Some key => d ← Dedup_Scan (Some key); Some (a (Some d))
  end.

(** The rows that were received before the reading failed, which is not asked for
    ([rows.Err]) *)
Definition db_rows {A} (f : Tables -> list A) : M (list A) := fun w =>
  match db_query f w with
  | (Ok l, w') => (Ok (match rows_cut (w_calls w) with Some n => take n l | None => l end), w')
  | r => r
  end.

Definition FindManyScoped (c : Ctx) (alertIDs : list Z) (org : option UUID) : M (list Alert) :=
  check (LimitCheckAny c [Some System; Some User]) ;;;
  if (length alertIDs =? 0)%nat then ret []
  else
    valid (Range "AlertIDs" (Z.of_nat (length alertIDs)) 1 maxBatch) ;;;
    valid (checkOrganizationID org) ;;;
    let! rows := db_rows (fun t => List.filter (fun '(id, r) =>
      bool_decide (id ∈ alertIDs) && match org with Some o => service_in o (r_service r) t | None => true end) (map_range (t_alerts t))) in
    found (mapM (fun '(id, r) => alert_of id r) rows) "scan".

Definition FindOneScoped (c : Ctx) (id : Z) (org : option UUID) : M Alert :=
  let! alerts := FindManyScoped c [id] org in
  match alerts with [] => fail (EPg ErrNoRows) | a :: _ => ret a end.

Definition EPID (c : Ctx) (id : Z) : M string :=
  check (LimitCheckAny c [Some System]) ;;;
  let! row := db_query (fun t => r ← t_alerts t !! id; s ← t_services t !! r_service r; Some (sv_policy s)) in
  match row with Some ep => ret (uuid_String ep) | None => fail (EPg ErrNoRows) end.

(** [s.svcInfo] *)
Definition ServiceInfo (c : Ctx) (names : gmap UUID string) (serviceID : string) : M (string * Z) :=
  check (LimitCheckAny c [Some User]) ;;;
  uuid_valid "ServiceID" serviceID ;;;
  let! svc := need (uuid_Parse serviceID) in
  let! row := db_query (fun t => n ← names !! svc; Some (n, Z.of_nat (size (triggered_of svc t)))) in
  match row with Some r => ret r | None => fail (EPg ErrNoRows) end.

(** [epState] *)
Definition State (c : Ctx) (alertIDs : list Z) : M (list (Z * option Z * Z * Z)) :=
  check (LimitCheckAny c [Some System; Some User]) ;;;
  valid (Range "AlertIDs" (Z.of_nat (length alertIDs)) 1 maxBatch) ;;;
  db_rows (fun t => omap (fun '(id, s) => if bool_decide (id ∈ alertIDs) then Some (id, last_escalation s, loop_count s, es_number s) else None)
    (map_range (t_states t))).

(** A failed query is answered like an alert without metadata. *)
Definition Metadata (c : Ctx) (id : Z) : M (gmap string string) :=
  check (LimitCheckAny c [Some System; Some User]) ;;;
  let! md := try (db_query (fun t => t_data t !! id)) in
  match md with
  | inl (Some m) => ret m
  | _ => ret ∅
  end.

Definition FindManyMetadata (c : Ctx) (alertIDs : list Z) : M (list (Z * gmap string string)) :=
  check (LimitCheckAny c [Some System; Some User]) ;;;
  valid (Range "AlertIDs" (Z.of_nat (length alertIDs)) 1 maxBatch) ;;;
  db_query (fun t => List.filter (fun '(id, _) => bool_decide (id ∈ alertIDs)) (map_range (t_data t))).

Definition Feedback (c : Ctx) (alertIDs : list Z) : M (list (Z * string)) :=
  check (LimitCheckAny c [Some System; Some User]) ;;;
  valid (Range "AlertIDs" (Z.of_nat (length alertIDs)) 1 maxBatch) ;;;
  db_query (fun t => List.filter (fun '(id, _) => bool_decide (id ∈ alertIDs)) (map_range (t_feedback t))).

(** ** Without an organization *)

Definition UpdateStatusByService (c : Ctx) (serviceID status : string) : M unit := UpdateStatusByServiceScoped c serviceID status None.
Definition UpdateManyAlertStatus (c : Ctx) (status : string) (alertIDs : list Z) (meta : option LogMeta) : M (list Z) :=
  UpdateManyAlertStatusScoped c status alertIDs meta None.
Definition Escalate (c : Ctx) (id : Z) (currentLevel : Z) : M unit := EscalateAsOf c id zero_inst.
Definition EscalateMany (c : Ctx) (alertIDs : list Z) : M (list Z) := EscalateManyScoped c alertIDs None.
Definition FindOne (c : Ctx) (id : Z) : M Alert := FindOneScoped c id None.
Definition FindMany (c : Ctx) (alertIDs : list Z) : M (list Alert) := FindManyScoped c alertIDs None.
Definition UpdateManyAlertFeedback (c : Ctx) (noiseReason : string) (alertIDs : list Z) : M (list Z) :=
  UpdateManyAlertFeedbackScoped c noiseReason alertIDs None.
Definition UpdateFeedback (c : Ctx) (id : Z) (noiseReason : string) : M unit := UpdateFeedbackScoped c id noiseReason None.
End AlertStore.
