(* ===== verification/AlertInvariant.v ===== *)
(** * What every operation on alerts keeps

    An alert that is not closed has a deduplication key, which no other of its
    service has; only open alerts have an escalation state; closed alerts stay as
    they are; the log only grows.  Each operation of the store keeps this, whatever
    fails, if what other transactions commit keeps it too.  An example of the store is
    at the end. *)

From S2P Require Import Prelude Text Effects Database GoTime Escalation Unicode Validate Permission AlertData AlertDB AlertLog AlertStore.

(** ** The invariant *)

Record inv (t : Tables) : Prop := {
  inv_dedup id r : t_alerts t !! id = Some r -> r_status r = StatusClosed <-> r_dedup r = None;
  inv_unique i j r s : t_alerts t !! i = Some r -> t_alerts t !! j = Some s ->
    r_service r = r_service s -> r_dedup r = r_dedup s -> r_dedup r <> None -> i = j;
  inv_states id s : t_states t !! id = Some s -> exists r, t_alerts t !! id = Some r /\ r_status r <> StatusClosed
}.

Definition same_alert (r r' : AlertRow) : Prop :=
  r_summary r' = r_summary r /\ r_details r' = r_details r /\ r_service r' = r_service r /\ r_source r' = r_source r /\
  r_created r' = r_created r.

(** From [t] to [t'] *)
Record later_tables (t t' : Tables) : Prop := {
  later_alert id r : t_alerts t !! id = Some r -> exists r', t_alerts t' !! id = Some r' /\ same_alert r r' /\
    (r_dedup r' = r_dedup r \/ r_dedup r' = None) /\ (r_status r = StatusClosed -> r' = r);
  later_logs : t_logs t `prefix_of` t_logs t'
}.

#[global] Instance later_refl : Reflexive later_tables.
Proof. intros t. split; [|done]. intros id r Hr. exists r. split_and!; try done. by left. Qed.

#[global] Instance later_trans : Transitive later_tables.
Proof.
  intros t1 t2 t3 [A1 L1] [A2 L2]. split; [|by etransitivity]. intros id r Hr.
  destruct (A1 _ _ Hr) as (r2 & H2 & S2 & D2 & C2). destruct (A2 _ _ H2) as (r3 & H3 & S3 & D3 & C3).
  exists r3. split; [done|]. split; [unfold same_alert in *; intuition congruence|]. split; [intuition congruence|].
  intros Hc. specialize (C2 Hc). subst r2. by apply C3.
Qed.

(** The ids in use were given. *)
Definition ids_below (n : Z) (t : Tables) : Prop := forall id r, t_alerts t !! id = Some r -> id < n.

Record ok (seq : Z) (t : Tables) : Prop := { ok_inv : inv t; ok_ids : ids_below seq t }.

(** [t] before, [t'] after, with the sequence *)
Definition step_ok (seq : Z) (t : Tables) (seq' : Z) (t' : Tables) : Prop :=
  seq <= seq' /\ ok seq' t' /\ later_tables t t'.

Lemma ok_mono seq seq' t : ok seq t -> seq <= seq' -> ok seq' t.
Proof. intros [H1 H2] Hs. split; [done|]. intros id r Hr. specialize (H2 _ _ Hr). lia. Qed.

Lemma step_refl seq t : ok seq t -> step_ok seq t seq t.
Proof. intros H. split_and!; done || reflexivity. Qed.

Lemma step_trans s1 t1 s2 t2 s3 t3 : step_ok s1 t1 s2 t2 -> step_ok s2 t2 s3 t3 -> step_ok s1 t1 s3 t3.
Proof. intros (A1 & B1 & C1) (A2 & B2 & C2). split_and!; [lia|done|by etransitivity]. Qed.

(** Tables that differ elsewhere *)
Lemma step_other seq t t' : ok seq t -> t_alerts t' = t_alerts t -> t_states t' = t_states t ->
  t_logs t `prefix_of` t_logs t' -> step_ok seq t seq t'.
Proof.
  intros [[I1 I2 I3] B] Ea Es Hl. split_and!; [done| |].
  - split; [split|]; unfold ids_below; rewrite ?Ea, ?Es; done.
  - split; [|done]. rewrite Ea. apply later_refl.
Qed.

(** ** Statements *)

Lemma with_status_ok seq t id r status dedup m : ok seq t -> t_alerts t !! id = Some r -> r_status r <> StatusClosed ->
  (status = StatusClosed <-> dedup = None) -> (dedup = r_dedup r \/ dedup = None) ->
  (forall i s, m !! i = Some s -> is_Some (t_states t !! i) /\ (i = id -> status <> StatusClosed)) ->
  step_ok seq t seq (set_states m (set_alerts (<[id := with_status status dedup r]> (t_alerts t)) t)).
Proof.
  intros [[I1 I2 I3] B] Hr Hc Hd Hk Hm. split_and!; [done| |].
  - split; [split|].
    + cbn. intros i x. destruct (decide (i = id)) as [->|Hi]; [rewrite lookup_insert_eq; by intros [= <-]|].
      rewrite lookup_insert_ne by done. apply I1.
    + cbn. assert (forall i x, <[id:=with_status status dedup r]> (t_alerts t) !! i = Some x -> r_dedup x <> None ->
        exists y, t_alerts t !! i = Some y /\ r_service y = r_service x /\ r_dedup y = r_dedup x) as HX.
      { intros i x. destruct (decide (i = id)) as [->|Hi]; [rewrite lookup_insert_eq|rewrite lookup_insert_ne by done].
        - intros [= <-] Hn. cbn in Hn. exists r. split; [done|]. split; [done|]. cbn. destruct Hk; congruence.
        - intros Hx _. by exists x. }
      intros i j x y Hx Hy Es Ed Hn. destruct (HX _ _ Hx Hn) as (x' & Hx' & Sx & Dx).
      destruct (HX _ _ Hy ltac:(congruence)) as (y' & Hy' & Sy & Dy). apply (I2 i j x' y'); congruence.
    + cbn. intros i s Hs. destruct (Hm _ _ Hs) as [[s' Hs'] Hi]. destruct (I3 _ _ Hs') as (x & Hx & Hx').
      destruct (decide (i = id)) as [->|Hne]; [rewrite lookup_insert_eq; eexists; split; [done|]; by apply Hi|].
      rewrite lookup_insert_ne by done. by exists x.
    + intros i x. cbn. destruct (decide (i = id)) as [->|Hi]; [intros _; by eapply B|]. rewrite lookup_insert_ne by done. apply B.
  - split; [|done]. cbn. intros i x Hx. destruct (decide (i = id)) as [->|Hi].
    + rewrite lookup_insert_eq. eexists. split; [done|]. assert (x = r) as -> by congruence. split; [done|].
      split; [done|]. by intros.
    + rewrite lookup_insert_ne by done. exists x. split_and!; try done. by left.
Qed.

Lemma set_states_same t : set_states (t_states t) t = t.
Proof. by destruct t. Qed.

Lemma set_status_ok seq t status id marked t' marked' : ok seq t -> set_status status id marked t = inl (t', marked') ->
  step_ok seq t seq t'.
Proof.
  intros HO. unfold set_status. destruct (t_alerts t !! id) as [r|] eqn:Hr; [|intros [= <- <-]; by apply step_refl].
  destruct (bool_decide_reflect (r_status r = StatusClosed)) as [|Hc]; [done|].
  set (differs := negb (bool_decide (status = r_status r))).
  set (dedup := if differs && bool_decide (status = StatusClosed) then None else r_dedup r).
  destruct (negb (Bool.eqb _ _)) eqn:Ek; [done|].
  assert (status = StatusClosed <-> dedup = None) as Hd.
  { apply negb_false_iff, eqb_prop in Ek. destruct (bool_decide_reflect (status = StatusClosed)), (bool_decide_reflect (dedup = None)); done. }
  set (m := if differs && bool_decide (r_status r = StatusActive) then alter clear_next id
     (if differs && bool_decide (status = StatusClosed) then delete id (t_states t) else t_states t)
     else if differs && bool_decide (status = StatusClosed) then delete id (t_states t) else t_states t).
  assert (step_ok seq t seq (set_states m (set_alerts (<[id := with_status status dedup r]> (t_alerts t)) t))) as HS.
  { apply with_status_ok; try done.
    - unfold dedup. destruct (_ && _); [by right|by left].
    - intros i s Hs. assert (is_Some ((if differs && bool_decide (status = StatusClosed) then delete id (t_states t) else t_states t) !! i)) as Hi.
      { unfold m in Hs. destruct (differs && bool_decide (r_status r = StatusActive)); [|by eexists].
        apply lookup_alter_Some in Hs as [(-> & s' & Hs' & _)|[_ Hs']]; by eexists. }
      destruct (differs && bool_decide (status = StatusClosed)) eqn:E.
      + destruct Hi as [s' Hi]. apply lookup_delete_Some in Hi as [Hne Hi]. split; [by eexists|]. intros ->. done.
      + split; [done|]. intros -> ->. unfold differs in E. rewrite (bool_decide_eq_false_2 (StatusClosed = r_status r)) in E by congruence. done. }
  assert (forall b, step_ok seq t seq (if b : bool then set_jobs (t_jobs t ++ [id]) (set_states m (set_alerts (<[id:=with_status status dedup r]> (t_alerts t)) t))
    else set_states m (set_alerts (<[id:=with_status status dedup r]> (t_alerts t)) t))) as HJ.
  { intros []; [|done]. eapply step_trans; [exact HS|]. apply step_other; try done. apply HS. }
  intros E. specialize (HJ (differs && negb (bool_decide (id ∈ marked)))). revert E. unfold m in *. clear HS m.
  destruct (differs && bool_decide (status = StatusClosed)), (differs && bool_decide (r_status r = StatusActive)),
    (differs && negb (bool_decide (id ∈ marked))); intros [= <- <-]; exact HJ.
Qed.

Lemma set_statuses_ok seq status ids : forall t marked t' marked', ok seq t ->
  set_statuses status ids marked t = inl (t', marked') -> step_ok seq t seq t'.
Proof.
  induction ids as [|id ids IH]; intros t marked t' marked' HO; cbn; [intros [= <- <-]; by apply step_refl|].
  destruct (set_status status id marked t) as [[t1 m1]|] eqn:E; [|done]. intros E'.
  pose proof (set_status_ok _ _ _ _ _ _ _ HO E) as HS. eapply step_trans; [exact HS|]. eapply IH; [apply HS|exact E'].
Qed.

Lemma insert_alert_ok seq r t t' : ok seq t -> insert_alert seq r t = inl t' -> step_ok seq t (seq + 1) t'.
Proof.
  intros [[I1 I2 I3] B] E. assert (t_alerts t !! seq = None) as Hf.
  { destruct (t_alerts t !! seq) as [x|] eqn:Hx; [|done]. specialize (B _ _ Hx). lia. }
  unfold insert_alert in E. destruct (negb (Bool.eqb _ _)) eqn:Ek; [done|].
  assert (r_status r = StatusClosed <-> r_dedup r = None) as Hd.
  { unfold open in Ek. apply negb_false_iff, eqb_prop in Ek. rewrite negb_involutive in Ek.
    destruct (bool_decide_reflect (r_status r = StatusClosed)), (bool_decide_reflect (r_dedup r = None)); done. }
  destruct (has_dedup (r_service r) (r_dedup r) t) eqn:Eu; [done|].
  assert (forall i x, t_alerts t !! i = Some x -> r_service x = r_service r -> r_dedup x = r_dedup r -> r_dedup r = None) as Hu.
  { intros i x Hx Hs Hx'. destruct (r_dedup r) as [d|] eqn:Ed; [|done]. exfalso. unfold has_dedup in Eu.
    apply bool_decide_eq_false_1 in Eu. apply Eu. exists i, x. by split_and!. }
  change (t_services (set_alerts _ t)) with (t_services t) in E.
  destruct (t_services t !! r_service r) as [svc|]; [|done].
  set (t1 := set_alerts (<[seq:=r]> (t_alerts t)) t) in E.
  assert (exists m, (if open r then insert_state seq svc t1 else t1) = set_states m t1 /\
    (forall i s, m !! i = Some s -> is_Some (t_states t !! i) \/ (i = seq /\ open r = true))) as (m & Em & Hm).
  { destruct (open r); [|exists (t_states t); split; [done|]; intros i s Hs; left; by eexists]. unfold insert_state. cbn.
    destruct (t_policies t !! sv_policy svc) as [ep|]; [destruct (0 <? step_count ep)|];
      [|exists (t_states t); split; [done|]; intros i s Hs; left; by eexists..].
    eexists. split; [reflexivity|]. intros i s Hs. destruct (decide (i = seq)) as [->|Hi]; [by right|].
    rewrite lookup_insert_ne in Hs by done. left. by eexists. }
  rewrite Em in E. destruct (over_limit _ _); [done|]. injection E as <-. split_and!; [lia| |].
  - split; [split|].
    + cbn. intros i x. destruct (decide (i = seq)) as [->|Hi]; [rewrite lookup_insert_eq; by intros [= <-]|].
      rewrite lookup_insert_ne by done. apply I1.
    + cbn. intros i j x y. destruct (decide (i = seq)) as [->|Hi], (decide (j = seq)) as [->|Hj];
        rewrite ?lookup_insert_eq, ?lookup_insert_ne by done; try done.
      * intros [= <-] Hy Es Ed Hn. destruct Hn. by eapply Hu.
      * intros Hx [= <-] Es Ed Hn. destruct Hn. rewrite Ed. by eapply Hu.
      * apply I2.
    + cbn. intros i s Hs. destruct (Hm _ _ Hs) as [[s' Hs']|[-> Ho]].
      * destruct (I3 _ _ Hs') as (x & Hx & Hx'). exists x. split; [|done]. rewrite lookup_insert_ne; [done|]. intros <-. congruence.
      * exists r. rewrite lookup_insert_eq. split; [done|]. unfold open in Ho. by apply negb_true_iff, bool_decide_eq_false_1 in Ho.
    + intros i x. cbn. destruct (decide (i = seq)) as [->|Hi]; [lia|]. rewrite lookup_insert_ne by done. intros Hx.
      specialize (B _ _ Hx). lia.
  - split; [|done]. cbn. intros i x Hx. exists x. rewrite lookup_insert_ne by (intros ->; congruence). split_and!; try done. by left.
Qed.

Lemma force_ok seq t id marked t' marked' : ok seq t -> force id marked t = inl (t', marked') -> step_ok seq t seq t'.
Proof.
  intros HO. unfold force. destruct (t_states t !! id) as [s|] eqn:Es; [|intros [= <- <-]; by apply step_refl].
  set (s' := mkState _ _ _ _ _ _ _). assert (step_ok seq t seq (set_states (<[id:=s']> (t_states t)) t)) as HS.
  { destruct HO as [[I1 I2 I3] B]. split_and!; [done| |].
    - split; [split|]; try done. cbn. intros i x. destruct (decide (i = id)) as [->|Hi].
      + rewrite lookup_insert_eq. intros [= <-]. by eapply I3.
      + rewrite lookup_insert_ne by done. apply I3.
    - split; [exact (later_alert _ _ (later_refl t))|done]. }
  destruct (force_escalation s); [intros [= <- <-]; exact HS|]. intros E.
  eapply step_trans; [exact HS|]. eapply set_status_ok; [apply HS|exact E].
Qed.

(** ** The monad *)

Section Keeps.
Context (db_err : nat -> option DBErr) (clock : nat -> Z) (wait : nat -> Z -> Tables -> Z * Tables) (commit_lost : nat -> bool).
Context (Hwait : forall n seq t, ok seq t -> step_ok seq t (wait n seq t).1 (wait n seq t).2).

Local Notation M := (Effects.M World AErr).

Definition keeps {A} (m : M A) : Prop := forall w, ok (w_seq w) (w_tbl w) ->
  step_ok (w_seq w) (w_tbl w) (w_seq (m w).2) (w_tbl (m w).2).

Lemma keeps_ret {A} (a : A) : keeps (ret a).
Proof. intros w. apply step_refl. Qed.
Lemma keeps_fail {A} e : keeps (fail (A := A) e).
Proof. intros w. apply step_refl. Qed.
Lemma keeps_need {A} (o : option A) : keeps (need o).
Proof. intros w HO. unfold need. destruct o; by apply step_refl. Qed.
Lemma keeps_check o : keeps (check o).
Proof. destruct o; [apply keeps_fail|apply keeps_ret]. Qed.
Lemma keeps_valid o : keeps (valid o).
Proof. destruct o; [apply keeps_fail|apply keeps_ret]. Qed.

Lemma keeps_bind {A B} (m : M A) (k : A -> M B) : keeps m -> (forall a, keeps (k a)) -> keeps (bind m k).
Proof.
  intros Hm Hk w HO. specialize (Hm w HO). unfold bind. destruct (m w) as [[a|e|] w1]; cbn in *; try done.
  eapply step_trans; [exact Hm|]. apply Hk, Hm.
Qed.

Lemma keeps_try {A} (m : M A) : keeps m -> keeps (try m).
Proof. intros Hm w HO. specialize (Hm w HO). unfold try. by destruct (m w) as [[a|e|] w1]. Qed.

Lemma keeps_stmt {A} (f : AlertDB.Stmt A) :
  (forall seq marked t, ok seq t -> match f seq marked t with
     | inl (_, seq', _, t') => step_ok seq t seq' t' | inr (seq', _) => seq <= seq' end) ->
  keeps (AlertDB.stmt db_err f).
Proof.
  intros Hf w HO. unfold AlertDB.stmt. destruct (w_aborted w); [by apply step_refl|].
  destruct (db_err (w_calls w)); [by apply step_refl|]. specialize (Hf (w_seq w) (w_marked w) (w_tbl w) HO).
  destruct (f (w_seq w) (w_marked w) (w_tbl w)) as [[[[a seq'] mk] t']|[seq' e]]; cbn; [done|].
  split_and!; [done|by eapply ok_mono|reflexivity].
Qed.

Lemma keeps_query {A} (f : Tables -> A) : keeps (AlertDB.query db_err f).
Proof. apply keeps_stmt. intros seq marked t. apply step_refl. Qed.

Lemma keeps_lock {A} (f : Tables -> A) : keeps (AlertDB.lock_query db_err wait f).
Proof using Hwait.
  intros w. unfold AlertDB.lock_query. apply keeps_stmt. intros seq marked t HO. specialize (Hwait (w_calls w) seq t HO).
  by destruct (wait (w_calls w) seq t) as [seq' t'].
Qed.

Lemma keeps_exec {A} (f : list Z -> Tables -> (A * Tables * list Z) + DBErr) :
  (forall seq marked t a t' marked', ok seq t -> f marked t = inl (a, t', marked') -> step_ok seq t seq t') ->
  keeps (AlertDB.exec db_err f).
Proof.
  intros Hf. apply keeps_stmt. intros seq marked t HO. destruct (f marked t) as [[[a t'] mk]|e] eqn:E; [by eapply Hf|done].
Qed.

Lemma keeps_db_query {A} (f : Tables -> A) : keeps (AlertDB.db_query db_err f).
Proof. intros w HO. unfold AlertDB.db_query. destruct (db_err (w_calls w)); by apply step_refl. Qed.

Lemma keeps_db_exec {A} (f : Tables -> (A * Tables) + DBErr) :
  (forall seq t a t', ok seq t -> f t = inl (a, t') -> step_ok seq t seq t') -> keeps (AlertDB.db_exec db_err f).
Proof.
  intros Hf w HO. unfold AlertDB.db_exec. destruct (db_err (w_calls w)); [by apply step_refl|].
  destruct (f (w_tbl w)) as [[a t']|e] eqn:E; [by eapply Hf|by apply step_refl].
Qed.

(** What is undone leaves the sequence. *)
Lemma keeps_InTx {A} (body : Z -> M A) : (forall now, keeps (body now)) -> keeps (AlertDB.InTx db_err clock commit_lost body).
Proof.
  intros Hb w HO. unfold AlertDB.InTx. destruct (db_err (w_calls w)); [by apply step_refl|].
  specialize (Hb (clock (w_calls w)) (mkWorld (w_tbl w) (w_seq w) (S (w_calls w)) false []) HO).
  destruct (body _ _) as [[a|e|] w']; cbn in *;
    assert (step_ok (w_seq w) (w_tbl w) (w_seq w') (w_tbl w)) as HB by (destruct Hb as (Hs & _ & _); split_and!; [done|by eapply ok_mono|reflexivity]);
    [|done|done].
  destruct (w_aborted w'); [exact HB|]. destruct (db_err (w_calls w')); [|exact Hb]. by destruct (commit_lost (w_calls w')).
Qed.
End Keeps.

(** ** An example of the alert store *)

Definition sample_digest : Digest := {| sha512_hex := fun s => s |}.
Definition sample_registry : Registry := {| TypeInfo := fun t => Some t |}.
Definition sample_directory : Directory := mkDirectory ∅ ∅ ∅ ∅ ∅.

#[local] Existing Instance ascii_unicode.
#[local] Existing Instance nibble_uuid.
#[local] Existing Instance sample_digest.
#[local] Existing Instance sample_registry.
#[local] Existing Instance ordered_map_range.

(** A service with a policy of two steps, of which the second may be acknowledged
    by several *)
Definition sample_db : Tables :=
  mkTables ∅ {[10 := mkService 20 100 None]} {[20 := mkPolicy 100 0 2]}
    {[30 := mkStep 20 0 5 false; 31 := mkStep 20 1 10 true]} ∅ [] ∅ ∅ [] (Some 5).

Definition sample_world : World := mkWorld sample_db 1 0 false [].
Definition sample_wait : nat -> Z -> Tables -> Z * Tables := fun _ s t => (s, t).
Definition sample_clock : nat -> Z := fun n => 900 + Z.of_nat n.

Definition sample_alert (summary status : string) : Alert := mkAlert 0 status summary "" "" (uuid_String 10) 0 None.
Definition sample_user : Ctx := UserContext Background "u" RoleAdmin.

Definition ask (a : Alert) (w : World) : res AErr (option Alert * bool) * World :=
  createOrUpdate sample_directory (fun _ => None) sample_clock sample_wait (fun _ => false) sample_user a None None w.

Definition one_alert : World := (ask (sample_alert "disk full" "") sample_world).2.

(** Created, suppressed, acknowledged, acknowledged again, closed, created again *)
Example sample_requests :
  let r1 := ask (sample_alert "disk full" "") sample_world in
  let r2 := ask (sample_alert "disk full" "") r1.2 in
  let r3 := ask (sample_alert "disk full" "active") r2.2 in
  let r4 := ask (sample_alert "disk full" "active") r3.2 in
  let r5 := ask (sample_alert "disk full" "closed") r4.2 in
  let r6 := ask (sample_alert "disk full" "closed") r5.2 in
  let r7 := ask (sample_alert "disk full" "") r6.2 in
  let id r := match r with (Ok (Some a, n), _) => Some (ID a, n) | _ => None end in
  map id [r1; r2; r3; r4; r5; r6; r7] =
    [Some (1, true); Some (1, false); Some (1, false); Some (1, false); Some (1, false); None; Some (2, true)] /\
  map (fun l => (lg_alert l, lg_event l)) (t_logs (w_tbl r7.2)) =
    [(1, TypeCreated); (1, TypeDuplicateSupressed); (1, TypeAcknowledged); (1, TypeClosed); (2, TypeCreated)].
Proof. vm_compute. split; reflexivity. Qed.

(** A database that fails while the entry is written makes the commit fail: nothing
    is created. *)
Example sample_failed_log :
  let fails n := if (n =? 4)%nat then Some OtherErr else None in
  let r := createOrUpdate sample_directory fails sample_clock sample_wait (fun _ => false) sample_user (sample_alert "disk full" "") None None sample_world in
  r.1 = Err EAborted /\ w_tbl r.2 = sample_db /\ w_seq r.2 = 2.
Proof. vm_compute. repeat split. Qed.

(** [Metadata] answers a failed query like an alert without metadata. *)
Example sample_metadata_failure :
  (Metadata (fun _ => Some OtherErr) sample_user 1 sample_world).1 = Ok ∅.
Proof. reflexivity. Qed.
