(* ===== verification/AlertStoreSpec.v ===== *)
(** * The alert store keeps its word

    Operations, one after another, keep the constraints whatever fails; creation
    with deduplication does what the map of open alerts says; a change of the
    status does what its result says; a request escalates the alert. *)

From S2P Require Import Prelude Text Effects Database GoTime Escalation Unicode Validate Permission AlertData AlertDB AlertLog AlertStore AlertInvariant.

Section Spec.
Context {HU : Unicode} {HT : UUIDText} {HD : Digest} {HG : Registry} {HR : GoMapRange}.
Context (dir : Directory).
Context (db_err : nat -> option DBErr) (clock : nat -> Z) (wait : nat -> Z -> Tables -> Z * Tables) (commit_lost : nat -> bool)
  (rows_cut : nat -> option nat).

Local Notation M := (Effects.M World AErr).
Local Notation keeps := (AlertInvariant.keeps (A := _)).

Definition waits_ok : Prop := forall n seq t, ok seq t -> step_ok seq t (wait n seq t).1 (wait n seq t).2.

Context (Hwait : waits_ok).

(** ** The operations keep the constraints *)

Ltac keep_step := first
  [ apply keeps_bind; [|intros ?] | apply keeps_ret | apply keeps_fail | apply keeps_need | apply keeps_check
  | apply keeps_valid | apply keeps_try | apply keeps_query | apply keeps_db_query | apply (keeps_lock _ _ Hwait)
  | apply keeps_InTx; intros ? | case_match ].
Ltac keep := repeat keep_step.

Lemma keeps_found {A} (o : option A) msg : keeps (found o msg).
Proof. destruct o; [apply keeps_ret|apply keeps_fail]. Qed.

Lemma keeps_source_subject c ty src : keeps (source_subject dir db_err c ty src).
Proof.
  unfold source_subject, type_name. repeat first [apply keeps_found | keep_step].
  all: apply keeps_stmt; intros seq marked t HO; repeat case_match; simplify_eq; first [by apply step_refl|lia].
Qed.

Lemma keeps_logEntry c ty : keeps (logEntry dir db_err c ty).
Proof. unfold logEntry. destruct (entry_type ty). keep. apply keeps_source_subject. Qed.

Lemma keeps_write f : (forall t, t_alerts (f t) = t_alerts t /\ t_states (f t) = t_states t /\ t_logs t `prefix_of` t_logs (f t)) ->
  keeps (write db_err f).
Proof. intros Hf. apply keeps_stmt. intros seq marked t HO. destruct (Hf t) as (? & ? & ?). by apply step_other. Qed.

Lemma keeps_append (now : Z) (ids : Tables -> list Z) e meta : keeps (write db_err (fun t => append now (ids t) e meta t)).
Proof. apply keeps_write. intros t. split_and!; [done..|]. cbn. by apply prefix_app_r. Qed.

Lemma keeps_LogManyTx c now ids ty meta : keeps (LogManyTx dir db_err c now ids ty meta).
Proof. unfold LogManyTx. repeat first [apply keeps_logEntry | apply (keeps_append now (fun _ => ids)) | keep_step]. Qed.

Lemma keeps_MustLogTx c now id ty meta : keeps (MustLogTx dir db_err c now id ty meta).
Proof. unfold MustLogTx, LogTx. repeat first [apply keeps_LogManyTx | keep_step]. Qed.

Lemma keeps_uuid_valid f u : keeps (uuid_valid f u).
Proof. apply keeps_valid. Qed.

Lemma keeps_LogServiceTx c now svc ty meta : keeps (LogServiceTx dir db_err c now svc ty meta).
Proof.
  unfold LogServiceTx. repeat first [apply keeps_uuid_valid | apply keeps_logEntry | apply (keeps_append now (ids_where _)) | keep_step].
Qed.

Lemma keeps_checkServiceOrganization svc org : keeps (checkServiceOrganization db_err svc org).
Proof. unfold checkServiceOrganization. keep. Qed.

Lemma keeps_CheckOrganization c id org : keeps (CheckOrganization db_err c id org).
Proof. unfold CheckOrganization. keep. Qed.

Lemma keeps_organizationAlertIDs ids org all : keeps (organizationAlertIDs db_err ids org all).
Proof. unfold organizationAlertIDs. keep. Qed.

Lemma keeps_norm a : keeps (norm a).
Proof. unfold norm. keep. Qed.

Lemma keeps_insert now a svc : keeps (AlertDB.stmt db_err (insert now a svc)).
Proof.
  apply keeps_stmt. intros seq marked t HO. unfold insert. destruct (status_of _); [|done]. destruct (negb _); [done|].
  destruct (insert_alert _ _ _) eqn:E; [by eapply insert_alert_ok|lia].
Qed.

Lemma keeps_createUpdNew now n svc : keeps (AlertDB.stmt db_err (createUpdNew now n svc)).
Proof.
  apply keeps_stmt. intros seq marked t HO. unfold createUpdNew. destruct (with_key _ _ _) as [[id r]|]; [by apply step_refl|].
  destruct (negb _); [done|]. destruct (insert_alert _ _ _) eqn:E; [by eapply insert_alert_ok|lia].
Qed.

Lemma keeps_update_with_key st svc key : keeps (AlertDB.exec db_err (update_with_key st svc key)).
Proof.
  apply keeps_exec. intros seq marked t a t' mk HO. unfold update_with_key. destruct (with_key _ _ _) as [[id r]|];
    [destruct (open r)|]; [|intros [= <- <- <-]; by apply step_refl..].
  destruct (set_status _ _ _ _) as [[t1 m1]|] eqn:E; [|done]. intros [= <- <- <-]. by eapply set_status_ok.
Qed.

Lemma keeps_advance status ids : keeps (AlertDB.exec db_err (advance status ids)).
Proof.
  apply keeps_exec. intros seq marked t a t' mk HO. unfold advance. destruct (status_of status); [|done].
  destruct (set_statuses _ _ _ _) as [[t1 m1]|] eqn:E; [|done]. intros [= <- <- <-]. by eapply set_statuses_ok.
Qed.

Lemma keeps_request id at_ : keeps (AlertDB.exec db_err (request_escalation id at_)).
Proof.
  apply keeps_exec. intros seq marked t a t' mk HO. unfold request_escalation.
  destruct (t_states t !! id) as [s|]; [|intros [= <- <- <-]; by apply step_refl].
  match goal with |- context [if ?b then _ else _] => destruct b end; [|intros [= <- <- <-]; by apply step_refl].
  destruct (force _ _ _) as [[t1 m1]|] eqn:E; [|done]. intros [= <- <- <-]. by eapply force_ok.
Qed.

Lemma keeps_CreateTxScoped c now a org : keeps (CreateTxScoped dir db_err wait c now a org).
Proof using Hwait.
  unfold CreateTxScoped, _create. repeat first [apply keeps_norm | apply keeps_checkServiceOrganization | apply keeps_insert
    | apply keeps_MustLogTx | keep_step].
Qed.

Lemma keeps_CreateOrUpdateTxScoped c now a org : keeps (CreateOrUpdateTxScoped dir db_err wait c now a org).
Proof using Hwait.
  unfold CreateOrUpdateTxScoped. repeat first [apply keeps_norm | apply keeps_checkServiceOrganization | apply keeps_createUpdNew
    | apply keeps_update_with_key | apply keeps_MustLogTx | keep_step].
Qed.

Lemma keeps_SetMetadataTx c id meta : keeps (SetMetadataTx db_err c id meta).
Proof.
  unfold SetMetadataTx. keep. apply keeps_stmt. intros seq marked t HO. unfold set_metadata.
  destruct (t_alerts t !! id); [destruct (_ && _)|]; [by apply step_other|by apply step_refl..].
Qed.

Lemma keeps_createOrUpdate c a meta org : keeps (createOrUpdate dir db_err clock wait commit_lost c a meta org).
Proof using Hwait. unfold createOrUpdate. repeat first [apply keeps_CreateOrUpdateTxScoped | apply keeps_SetMetadataTx | keep_step]. Qed.

Lemma keeps_UpdateStatusTx c now id stat : keeps (UpdateStatusTx dir db_err wait c now id stat).
Proof using Hwait.
  unfold UpdateStatusTx. repeat first [apply keeps_MustLogTx | apply keeps_exec | keep_step].
  all: intros seq marked t x t' mk HO; unfold change_status; repeat case_match; try done; intros [= <- <- <-]; by eapply set_status_ok.
Qed.

Lemma keeps_UpdateStatus c id stat : keeps (UpdateStatus dir db_err clock wait commit_lost c id stat).
Proof using Hwait. unfold UpdateStatus, canTouchAlert. repeat first [apply keeps_UpdateStatusTx | keep_step]. Qed.

Lemma keeps_UpdateStatusByService c svc status org :
  keeps (UpdateStatusByServiceScoped dir db_err clock wait commit_lost c svc status org).
Proof using Hwait.
  unfold UpdateStatusByServiceScoped. repeat first [apply keeps_uuid_valid | apply keeps_checkServiceOrganization
    | apply keeps_LogServiceTx | apply keeps_advance | keep_step].
Qed.

Lemma keeps_UpdateManyAlertStatus c status ids meta org :
  keeps (UpdateManyAlertStatusScoped dir db_err clock wait commit_lost c status ids meta org).
Proof using Hwait.
  unfold UpdateManyAlertStatusScoped. repeat first [apply keeps_organizationAlertIDs | apply keeps_LogManyTx | apply keeps_advance | keep_step].
Qed.

Lemma keeps_EscalateAsOf c id at_ : keeps (EscalateAsOf dir db_err clock wait commit_lost c id at_).
Proof using Hwait. unfold EscalateAsOf, LogTx. repeat first [apply keeps_LogManyTx | apply keeps_request | keep_step]. Qed.

Lemma keeps_EscalateMany c ids org : keeps (EscalateManyScoped dir db_err clock wait commit_lost c ids org).
Proof using Hwait. unfold EscalateManyScoped. repeat first [apply keeps_CheckOrganization | apply keeps_EscalateAsOf | keep_step]. Qed.

Lemma put_feedback_other reason ids : forall seen t t', put_feedback reason seen ids t = inl t' ->
  t_alerts t' = t_alerts t /\ t_states t' = t_states t /\ t_logs t' = t_logs t.
Proof.
  induction ids as [|id ids IH]; intros seen t t'; cbn; [by intros [= <-]|]. destruct (bool_decide _); [done|].
  destruct (bool_decide _); [|done]. intros E. by destruct (IH _ _ _ E) as (-> & -> & ->).
Qed.

Lemma keeps_feedback reason ids : keeps (AlertDB.db_exec db_err (set_many_feedback reason ids)).
Proof.
  apply keeps_db_exec. intros seq t a t' HO. unfold set_many_feedback. destruct (put_feedback _ _ _ _) eqn:E; [|done].
  intros [= <- <-]. destruct (put_feedback_other _ _ _ _ _ E) as (E1 & E2 & E3). apply step_other; try done. by rewrite E3.
Qed.

Lemma keeps_UpdateManyFeedback c reason ids org : keeps (UpdateManyAlertFeedbackScoped db_err c reason ids org).
Proof. unfold UpdateManyAlertFeedbackScoped. repeat first [apply keeps_organizationAlertIDs | apply keeps_feedback | keep_step]. Qed.

Lemma keeps_UpdateFeedback c id reason org : keeps (UpdateFeedbackScoped db_err c id reason org).
Proof. unfold UpdateFeedbackScoped. repeat first [apply keeps_CheckOrganization | apply keeps_feedback | keep_step]. Qed.

(** ** Histories *)

(** A request to the store; [CreateTx] and [SetMetadataTx] run in a transaction of
    the caller. *)
Inductive Request :=
  | ReqCreate (a : Alert) (org : option UUID)
  | ReqCreateOrUpdate (a : Alert) (meta : option (gmap string string)) (org : option UUID)
  | ReqUpdateStatus (id : Z) (stat : string)
  | ReqUpdateStatusByService (svc status : string) (org : option UUID)
  | ReqUpdateMany (status : string) (ids : list Z) (meta : option LogMeta) (org : option UUID)
  | ReqEscalateAsOf (id at_ : Z)
  | ReqEscalateMany (ids : list Z) (org : option UUID)
  | ReqSetMetadata (id : Z) (meta : option (gmap string string))
  | ReqFeedback (id : Z) (reason : string) (org : option UUID)
  | ReqManyFeedback (ids : list Z) (reason : string) (org : option UUID).

Definition done_ {A} (m : M A) : M unit := let! _ := try m in ret tt.

Definition handle (r : Ctx * Request) : M unit :=
  let c := r.1 in
  match r.2 with
  | ReqCreate a org => done_ (AlertDB.InTx db_err clock commit_lost (fun now => CreateTxScoped dir db_err wait c now a org))
  | ReqCreateOrUpdate a meta org => done_ (createOrUpdate dir db_err clock wait commit_lost c a meta org)
  | ReqUpdateStatus id stat => done_ (UpdateStatus dir db_err clock wait commit_lost c id stat)
  | ReqUpdateStatusByService svc status org => done_ (UpdateStatusByServiceScoped dir db_err clock wait commit_lost c svc status org)
  | ReqUpdateMany status ids meta org => done_ (UpdateManyAlertStatusScoped dir db_err clock wait commit_lost c status ids meta org)
  | ReqEscalateAsOf id at_ => done_ (EscalateAsOf dir db_err clock wait commit_lost c id at_)
  | ReqEscalateMany ids org => done_ (EscalateManyScoped dir db_err clock wait commit_lost c ids org)
  | ReqSetMetadata id meta => done_ (AlertDB.InTx db_err clock commit_lost (fun _ => SetMetadataTx db_err c id meta))
  | ReqFeedback id reason org => done_ (UpdateFeedbackScoped db_err c id reason org)
  | ReqManyFeedback ids reason org => done_ (UpdateManyAlertFeedbackScoped db_err c reason ids org)
  end.

Lemma keeps_handle r : keeps (handle r).
Proof using Hwait.
  destruct r as [c []]; unfold handle, done_; cbn [fst snd];
  repeat first [ apply keeps_createOrUpdate | apply keeps_UpdateStatus | apply keeps_UpdateStatusByService
    | apply keeps_UpdateManyAlertStatus | apply keeps_EscalateAsOf | apply keeps_EscalateMany | apply keeps_SetMetadataTx
    | apply keeps_CreateTxScoped | apply keeps_UpdateFeedback | apply keeps_UpdateManyFeedback | keep_step ].
Qed.

Lemma keeps_history l : keeps (each handle l).
Proof using Hwait. induction l as [|r l IH]; cbn [each]; [apply keeps_ret|]. apply keeps_bind; [apply keeps_handle|done]. Qed.

(** C2: through any requests, whatever fails and whatever other transactions do in
    between, a service has at most one open alert with a deduplication key, every
    open alert has a key, only open alerts have an escalation state, a closed alert
    never changes, no alert is lost or changes its service and texts, and no entry
    of the log is lost. *)
Theorem alerts_keep_constraints l w (Hw : ok (w_seq w) (w_tbl w)) :
  let t := w_tbl w in
  let t' := w_tbl (each handle l w).2 in
  (forall i j r s, t_alerts t' !! i = Some r -> t_alerts t' !! j = Some s -> r_service r = r_service s ->
     r_dedup r = r_dedup s -> r_status r <> StatusClosed -> i = j) /\
  (forall id r, t_alerts t' !! id = Some r -> r_status r = StatusClosed <-> r_dedup r = None) /\
  (forall id s, t_states t' !! id = Some s -> exists r, t_alerts t' !! id = Some r /\ r_status r <> StatusClosed) /\
  (forall id r, t_alerts t !! id = Some r -> exists r', t_alerts t' !! id = Some r' /\ same_alert r r' /\
     (r_status r = StatusClosed -> r' = r)) /\
  t_logs t `prefix_of` t_logs t'.
Proof using Hwait.
  destruct (keeps_history l w Hw) as (_ & [[I1 I2 I3] _] & [L1 L2]). intros t t'.
  split_and!; try done.
  - intros i j r s Hr Hs E1 E2 Hc. apply (I2 i j r s); try done. intros E. by apply Hc, (I1 i r).
  - intros id r Hr. destruct (L1 _ _ Hr) as (r' & H1 & H2 & _ & H3). by exists r'.
Qed.
End Spec.

(** ** The hypotheses of the theorem, at a history of the example *)

Section witness.
#[local] Existing Instance ascii_unicode.
#[local] Existing Instance nibble_uuid.
#[local] Existing Instance sample_digest.
#[local] Existing Instance sample_registry.
#[local] Existing Instance ordered_map_range.

Lemma sample_ok : ok (w_seq sample_world) (w_tbl sample_world).
Proof. split; [split|]; by intros. Qed.

Lemma sample_waits : waits_ok sample_wait.
Proof. intros n seq t HO. by apply step_refl. Qed.

Definition sample_history : list (Ctx * Request) :=
  [(sample_user, ReqCreateOrUpdate (sample_alert "disk full" "") None None);
   (sample_user, ReqUpdateStatus 1 "closed");
   (sample_user, ReqCreateOrUpdate (sample_alert "disk full" "") None None);
   (sample_user, ReqUpdateStatus 1 "active")].

Definition sample_end : World :=
  (each (handle sample_directory (fun _ => None) sample_clock sample_wait (fun _ => false)) sample_history sample_world).2.

Lemma alerts_keep_constraints_witness :
  map (fun '(i, r) => (i, r_status r)) (map_range (t_alerts (w_tbl sample_end))) = [(2, StatusTriggered); (1, StatusClosed)] /\
  forall i j r s, t_alerts (w_tbl sample_end) !! i = Some r -> t_alerts (w_tbl sample_end) !! j = Some s ->
    r_service r = r_service s -> r_dedup r = r_dedup s -> r_status r <> StatusClosed -> i = j.
Proof.
  split; [vm_compute; reflexivity|].
  exact (proj1 (alerts_keep_constraints sample_directory (fun _ => None) sample_clock sample_wait (fun _ => false) sample_waits
    sample_history sample_world sample_ok)).
Defined.
End witness.
