(* ===== verification/AlertDedup.v ===== *)
(** * Creation with deduplication implements a map

    What the database says of open alerts is a map from a service and a
    deduplication key to an alert and its status.  [createOrUpdate] reads and
    writes that map: a trigger finds the alert or adds one, an acknowledgment
    changes its status, a close removes it. *)

From S2P Require Import Prelude Text Effects Database GoTime Escalation Unicode Validate Permission AlertData AlertDB AlertLog AlertStore AlertInvariant.

(** ** The specification *)

Local Abbreviation OpenAlerts := (gmap (UUID * string) (Z * AlertStatus)).

(** The alert and whether it is new, and the map after *)
Definition spec (fresh : Z) (k : UUID * string) (status : AlertStatus) (m : OpenAlerts) : option (Z * bool) * OpenAlerts :=
  match status, m !! k with
  | StatusTriggered, None => (Some (fresh, true), <[k := (fresh, StatusTriggered)]> m)
  | StatusTriggered, Some (id, _) => (Some (id, false), m)
  | StatusActive, Some (id, _) => (Some (id, false), <[k := (id, StatusActive)]> m)
  | StatusClosed, Some (id, _) => (Some (id, false), delete k m)
  | _, None => (None, m)
  end.

Definition represents (t : Tables) (m : OpenAlerts) : Prop := forall k id st,
  m !! k = Some (id, st) <->
  exists r, t_alerts t !! id = Some r /\ r_service r = k.1 /\ r_dedup r = Some k.2 /\ r_status r = st.

Lemma represents_unique t m m' : represents t m -> represents t m' -> m = m'.
Proof.
  intros H1 H2. apply map_eq. intros k. destruct (m !! k) as [[i s]|] eqn:E1.
  - apply H1 in E1. symmetry. by apply H2.
  - destruct (m' !! k) as [[i s]|] eqn:E2; [|done]. apply H2, H1 in E2. congruence.
Qed.

(** What a request does to the alert of its key *)
Definition after (fresh : Z) (st : AlertStatus) (o : option (Z * AlertStatus)) : option (Z * AlertStatus) :=
  match st, o with
  | StatusTriggered, None => Some (fresh, StatusTriggered)
  | StatusTriggered, o => o
  | StatusActive, o => (fun x => (x.1, StatusActive)) <$> o
  | StatusClosed, _ => None
  end.

Lemma spec_lookup fresh k st m k' : (spec fresh k st m).2 !! k' = if decide (k' = k) then after fresh st (m !! k) else m !! k'.
Proof.
  unfold spec, after. destruct (decide (k' = k)) as [->|Hne].
  - destruct st, (m !! k) as [[i s]|] eqn:E; cbn; rewrite ?lookup_insert_eq, ?lookup_delete_eq; done.
  - destruct st, (m !! k) as [[i s]|] eqn:E; cbn; rewrite ?lookup_insert_ne, ?lookup_delete_ne; done.
Qed.

(** The map of the database *)
Definition open_alerts (t : Tables) : OpenAlerts :=
  list_to_map (omap (fun '(id, r) => key ← r_dedup r; Some ((r_service r, key), (id, r_status r))) (map_to_list (t_alerts t))).

Lemma open_alerts_represents t : inv t -> represents t (open_alerts t).
Proof.
  intros [_ HU _] k id st. unfold open_alerts. set (l := omap _ _).
  assert (forall k' v, (k', v) ∈ l <-> exists id r key, t_alerts t !! id = Some r /\ r_dedup r = Some key /\
    k' = (r_service r, key) /\ v = (id, r_status r)) as Hl.
  { intros k' v. unfold l. rewrite list_elem_of_omap. split.
    - intros ([i r] & Hi & E). apply elem_of_map_to_list in Hi. destruct (r_dedup r) as [key|] eqn:Ed; [|done].
      injection E as <- <-. by exists i, r, key.
    - intros (i & r & key & Hr & Ed & -> & ->). exists (i, r). rewrite elem_of_map_to_list. split; [done|]. cbn. by rewrite Ed. }
  etransitivity; [symmetry; apply (elem_of_list_to_map' (M := gmap (UUID * string)))|].
  2: { rewrite Hl. split.
    + intros (i & r & key & Hr & Ed & -> & [= -> ->]). by exists r.
    + intros (r & Hr & Es & Ed & <-). exists id, r, k.2. split_and!; try done. rewrite Es. by destruct k. }
  intros [j y] Hx Hy. apply Hl in Hx as (i & r & key & Hr & Ed & E1 & [= -> ->]).
  apply Hl in Hy as (j' & s & key' & Hs & Ed' & E2 & [= -> ->]).
  assert (i = j') as ->; [|congruence]. eapply HU; try done; congruence.
Qed.

Section dedup.
Context {HR : GoMapRange}.

Lemma with_key_some svc key t id r : with_key svc key t = Some (id, r) ->
  t_alerts t !! id = Some r /\ r_service r = svc /\ r_dedup r = Some key.
Proof.
  unfold with_key. intros E. apply head_Some_elem_of, list_elem_of_In, filter_In in E as [Hin E]. bprop.
  rewrite <- list_elem_of_In, map_range_elem in Hin. split_and!; try done. by apply bool_decide_eq_true_1 in H0.
Qed.

Lemma with_key_none svc key t id r : with_key svc key t = None -> t_alerts t !! id = Some r ->
  r_service r = svc -> r_dedup r <> Some key.
Proof.
  unfold with_key. intros E Hr Es Ed. apply head_None in E. assert ((id, r) ∈ @nil (Z * AlertRow)) as Hin; [|by apply elem_of_nil in Hin].
  rewrite <- E. apply list_elem_of_In, filter_In. rewrite <- list_elem_of_In, map_range_elem. split; [done|].
  by rewrite Es, Z.eqb_refl, bool_decide_eq_true_2.
Qed.

Lemma represents_lookup t m svc key : represents t m ->
  m !! (svc, key) = (fun '(id, r) => (id, r_status r)) <$> with_key svc key t.
Proof.
  intros HR'. destruct (with_key svc key t) as [[id r]|] eqn:E; cbn.
  - apply with_key_some in E as (Hr & Es & Ed). apply HR'. by exists r.
  - destruct (m !! (svc, key)) as [[id st]|] eqn:Em; [|done]. apply HR' in Em as (r & Hr & Es & Ed & _).
    by destruct (with_key_none _ _ _ _ _ E Hr Es).
Qed.
End dedup.

(** ** The statements *)

Lemma set_status_row st id marked t t' marked' r : set_status st id marked t = inl (t', marked') ->
  t_alerts t !! id = Some r ->
  r_status r <> StatusClosed /\
  t_alerts t' = <[id := with_status st (if bool_decide (st = StatusClosed) then None else r_dedup r) r]> (t_alerts t) /\
  t_services t' = t_services t /\ t_logs t' = t_logs t.
Proof.
  unfold set_status. intros E Hr. rewrite Hr in E. destruct (bool_decide_reflect (r_status r = StatusClosed)); [done|].
  destruct (negb (Bool.eqb _ _)); [done|]. split; [done|].
  assert ((if negb (bool_decide (st = r_status r)) && bool_decide (st = StatusClosed) then None else r_dedup r) =
    (if bool_decide (st = StatusClosed) then None else r_dedup r)) as Ed.
  { destruct (bool_decide_reflect (st = StatusClosed)) as [->|]; [|by rewrite andb_false_r].
    by rewrite (bool_decide_eq_false_2 (StatusClosed = r_status r)) by congruence. }
  rewrite Ed in E. clear Ed. repeat (case_match; try done); injection E as <- <-; done.
Qed.

Lemma insert_alert_row seq r t t' : insert_alert seq r t = inl t' ->
  t_alerts t' = <[seq := r]> (t_alerts t) /\ t_logs t' = t_logs t.
Proof.
  unfold insert_alert, insert_state. intros E. repeat (case_match; try done); injection E as <-; done.
Qed.

Lemma represents_insert t t' m seq r svc key : ids_below seq t -> t_alerts t' = <[seq := r]> (t_alerts t) ->
  r_service r = svc -> r_dedup r = Some key -> m !! (svc, key) = None -> represents t m ->
  represents t' (<[(svc, key) := (seq, r_status r)]> m).
Proof.
  intros HB Ea Es Ed Hm HM k id st. rewrite Ea. destruct (decide (k = (svc, key))) as [->|Hk].
  - rewrite lookup_insert_eq. cbn. split.
    + intros [= <- <-]. exists r. by rewrite lookup_insert_eq.
    + intros (r' & Hr & E1 & E2 & E3). destruct (decide (id = seq)) as [->|Hi].
      * rewrite lookup_insert_eq in Hr. congruence.
      * rewrite lookup_insert_ne in Hr by done. assert (m !! (svc, key) = Some (id, st)) as E; [|congruence].
        apply HM. by exists r'.
  - rewrite lookup_insert_ne by done. rewrite (HM k id st). split; intros (r' & Hr & E1 & E2 & E3); exists r'; split_and!; try done.
    + rewrite lookup_insert_ne; [done|]. intros <-. specialize (HB _ _ Hr). lia.
    + destruct (decide (id = seq)) as [->|Hi]; [|by rewrite lookup_insert_ne in Hr].
      rewrite lookup_insert_eq in Hr. injection Hr as <-. destruct Hk. destruct k. cbn in *. congruence.
Qed.

Lemma represents_update t t' m id r svc key st dedup : inv t -> t_alerts t !! id = Some r -> r_service r = svc ->
  r_dedup r = Some key -> t_alerts t' = <[id := with_status st dedup r]> (t_alerts t) -> (dedup = Some key \/ dedup = None) ->
  represents t m ->
  represents t' (match dedup with Some _ => <[(svc, key) := (id, st)]> m | None => delete (svc, key) m end).
Proof.
  intros [_ HU _] Hr Es Ed Ea Hd HM k i s. rewrite Ea.
  assert (forall j x, t_alerts t !! j = Some x -> r_service x = svc -> r_dedup x = Some key -> j = id) as Hj.
  { intros j x Hx E1 E2. eapply HU; try done; congruence. }
  assert (k <> (svc, key) -> m !! k = Some (i, s) <->
    exists x, <[id := with_status st dedup r]> (t_alerts t) !! i = Some x /\ r_service x = k.1 /\ r_dedup x = Some k.2 /\ r_status x = s) as Hne.
  { intros Hk. rewrite (HM k i s). split; intros (x & Hx & E1 & E2 & E3); exists x; split_and!; try done.
    - rewrite lookup_insert_ne; [done|]. intros <-. destruct Hk. destruct k. cbn in *. congruence.
    - destruct (decide (i = id)) as [->|Hi]; [|by rewrite lookup_insert_ne in Hx]. rewrite lookup_insert_eq in Hx.
      injection Hx as <-. cbn in *. destruct Hk. destruct k. cbn in *. destruct Hd; congruence. }
  destruct (decide (k = (svc, key))) as [->|Hk].
  - destruct Hd as [->| ->]; [rewrite lookup_insert_eq|rewrite lookup_delete_eq]; cbn; split; try done.
    + intros [= <- <-]. eexists. rewrite lookup_insert_eq. done.
    + intros (x & Hx & E1 & E2 & E3). destruct (decide (i = id)) as [->|Hi].
      * rewrite lookup_insert_eq in Hx. injection Hx as <-. by rewrite <- E3.
      * rewrite lookup_insert_ne in Hx by done. by destruct Hi; eapply Hj.
    + intros (x & Hx & E1 & E2 & E3). destruct (decide (i = id)) as [->|Hi].
      * rewrite lookup_insert_eq in Hx. by injection Hx as <-.
      * rewrite lookup_insert_ne in Hx by done. by destruct Hi; eapply Hj.
  - destruct dedup; rewrite ?lookup_insert_ne, ?lookup_delete_ne by done; by apply Hne.
Qed.

(** ** What a transaction that succeeds has done *)

Section effects.
Context {HU : Unicode} {HT : UUIDText} {HD : Digest} {HG : Registry} {HR : GoMapRange}.
Context (dir : Directory).
Context (db_err : nat -> option DBErr) (clock : nat -> Z) (wait : nat -> Z -> Tables -> Z * Tables) (commit_lost : nat -> bool).

Local Notation M := (Effects.M World AErr).

(** Operations that leave the tables *)
Definition reads {A} (m : M A) : Prop := forall w, w_tbl (m w).2 = w_tbl w /\ w_seq (m w).2 = w_seq w.

Lemma reads_bind {A B} (m : M A) (k : A -> M B) : reads m -> (forall a, reads (k a)) -> reads (bind m k).
Proof.
  intros Hm Hk w. destruct (Hm w) as [E1 E2]. unfold bind. destruct (m w) as [[a|e|] w1]; cbn in *; try done.
  destruct (Hk a w1) as [E3 E4]. split; congruence.
Qed.

Lemma reads_stmt {A} (f : AlertDB.Stmt A) :
  (forall seq mk t, match f seq mk t with inl (_, seq', _, t') => seq' = seq /\ t' = t | inr (seq', _) => seq' = seq end) ->
  reads (AlertDB.stmt db_err f).
Proof.
  intros Hf w. unfold AlertDB.stmt. destruct (w_aborted w); [done|]. destruct (db_err (w_calls w)); [done|].
  specialize (Hf (w_seq w) (w_marked w) (w_tbl w)). destruct (f _ _ _) as [[[[a s] mk] t]|[s e]]; cbn; naive_solver.
Qed.

Ltac read_step := first
  [ apply reads_bind; [|intros ?] | (intros ?; split; reflexivity) | apply reads_stmt; intros; done | case_match ].

Lemma reads_logEntry c ty : reads (logEntry dir db_err c ty).
Proof.
  unfold logEntry, source_subject, found, type_name, need. destruct (entry_type ty).
  repeat read_step; try (apply reads_stmt; intros; repeat case_match; simplify_eq; done).
Qed.

Lemma reads_check o : reads (check o).
Proof. destruct o; by intros w. Qed.
Lemma reads_valid o : reads (valid o).
Proof. destruct o; by intros w. Qed.
Lemma reads_org svc org : reads (checkServiceOrganization db_err svc org).
Proof.
  unfold checkServiceOrganization, need. repeat first [apply reads_valid | read_step].
Qed.

(** At most one entry is added to the log: one for the alert, of the type. *)
Definition logs_only (id : Z) (ty : LogType) (t t' : Tables) : Prop :=
  exists l, t' = set_logs (t_logs t ++ l) t /\ (length l <= 1)%nat /\ Forall (fun e => lg_alert e = id /\ lg_event e = ty) l.

Lemma logs_none id ty t : logs_only id ty t t.
Proof. exists []. rewrite app_nil_r. split; [by destruct t|]. split; [cbn; lia|constructor]. Qed.

Lemma entry_type_same w c ty e w' : ty <> TypeAcknowledgeAll -> ty <> TypeCloseAll ->
  logEntry dir db_err c ty w = (Ok e, w') -> e.1 = ty.
Proof.
  intros H1 H2 E. unfold logEntry in E. assert (entry_type ty = (ty, [])) as Et by (by destruct ty). rewrite Et in E.
  apply bind_inv in E as (s & w1 & _ & E). by injection E as <- <-.
Qed.

Lemma LogTx_logs c now id ty meta w : ty <> TypeAcknowledgeAll -> ty <> TypeCloseAll ->
  logs_only id ty (w_tbl w) (w_tbl (LogTx dir db_err c now id ty meta w).2) /\
  w_seq (LogTx dir db_err c now id ty meta w).2 = w_seq w.
Proof.
  intros H1 H2. unfold LogTx, LogManyTx, bind. destruct (reads_check (LimitCheckAny c [Some All]) w) as [E1 E2].
  destruct (check _ w) as [[[]|e|] w1]; cbn in E1, E2 |- *; rewrite <- E1, <- E2; try (split; [apply logs_none|done]).
  destruct (reads_logEntry c ty w1) as [E3 E4]. destruct (logEntry dir db_err c ty w1) as [[e|e|] w2] eqn:El;
    cbn in E3, E4 |- *; rewrite <- E3, <- E4; try (split; [apply logs_none|done]).
  unfold write, AlertDB.stmt. destruct (w_aborted w2); [split; [apply logs_none|done]|].
  destruct (db_err (w_calls w2)); [split; [apply logs_none|done]|]. cbn. split; [|done]. eexists. split; [reflexivity|].
  split; [cbn; lia|]. apply entry_type_same in El; [|done..]. by repeat constructor.
Qed.

Lemma MustLogTx_logs c now id ty meta w : ty <> TypeAcknowledgeAll -> ty <> TypeCloseAll ->
  logs_only id ty (w_tbl w) (w_tbl (MustLogTx dir db_err c now id ty meta w).2) /\
  w_seq (MustLogTx dir db_err c now id ty meta w).2 = w_seq w.
Proof.
  intros H1 H2. assert (forall w, let r := (let! _ := try (LogTx dir db_err c now id ty meta) in ret tt) w in
    logs_only id ty (w_tbl w) (w_tbl r.2) /\ w_seq r.2 = w_seq w) as HL.
  { intros w0. pose proof (LogTx_logs c now id ty meta w0 H1 H2) as HL. unfold bind, try.
    by destruct (LogTx dir db_err c now id ty meta w0) as [[a|e|] w1]. }
  unfold MustLogTx. destruct (bool_decide _); [|apply HL].
  assert (reads (AlertDB.query db_err (recent_duplicate now id))) as HQ by (apply reads_stmt; by intros).
  destruct (HQ w) as [E1 E2]. unfold bind at 1 3, try at 1 3. destruct (AlertDB.query db_err (recent_duplicate now id) w) as [[b|e|] w1]; cbn in E1, E2 |- *;
    rewrite <- E1, <- E2; try (split; [apply logs_none|done]).
  destruct b; [split; [apply logs_none|done]|apply HL].
Qed.

(** A statement of a transaction that is not aborted *)
Lemma stmt_ok {A} (f : AlertDB.Stmt A) w a w' : AlertDB.stmt db_err f w = (Ok a, w') ->
  exists mk, f (w_seq w) (w_marked w) (w_tbl w) = inl (a, w_seq w', mk, w_tbl w').
Proof.
  unfold AlertDB.stmt. destruct (w_aborted w); [done|]. destruct (db_err (w_calls w)); [done|].
  destruct (f _ _ _) as [[[[x s] mk] t]|[s e]] eqn:E; [|done]. intros [= <- <-]. by exists mk.
Qed.

Lemma exec_inv {A} (f : list Z -> Tables -> (A * Tables * list Z) + DBErr) w a w' : AlertDB.exec db_err f w = (Ok a, w') ->
  (exists mk mk', f mk (w_tbl w) = inl (a, w_tbl w', mk')) /\ w_seq w' = w_seq w.
Proof.
  intros E. apply stmt_ok in E as (mk & E). destruct (f (w_marked w) (w_tbl w)) as [[[x t] m]|e] eqn:Ef; [|done].
  injection E as <- <- <- <-. split; [|done]. by eexists _, _.
Qed.

Lemma InTx_ok {A} (body : Z -> M A) w a w' : AlertDB.InTx db_err clock commit_lost body w = (Ok a, w') ->
  exists w1, body (clock (w_calls w)) (mkWorld (w_tbl w) (w_seq w) (S (w_calls w)) false []) = (Ok a, w1) /\
    w_tbl w' = w_tbl w1 /\ w_seq w' = w_seq w1.
Proof.
  unfold AlertDB.InTx. destruct (db_err (w_calls w)); [done|].
  destruct (body _ _) as [[x|e|] w1]; [|done|done]. destruct (w_aborted w1); [done|]. destruct (db_err (w_calls w1)); [done|].
  intros [= <- <-]. by exists w1.
Qed.
End effects.
