(* ===== verification/AlertDedupSpec.v ===== *)
(** * [createOrUpdate] refines the map of open alerts, and succeeds *)

From S2P Require Import Prelude Text Effects Database GoTime Escalation Unicode Validate Permission AlertData AlertDB AlertLog AlertStore AlertInvariant AlertStoreSpec AlertDedup.

Section refinement.
Context {HU : Unicode} {HT : UUIDText} {HD : Digest} {HG : Registry} {HR : GoMapRange}.
Context (dir : Directory).
Context (db_err : nat -> option DBErr) (clock : nat -> Z) (wait : nat -> Z -> Tables -> Z * Tables) (commit_lost : nat -> bool).

Local Notation M := (Effects.M World AErr).

Lemma represents_ext t t' m : t_alerts t' = t_alerts t -> represents t m -> represents t' m.
Proof. intros E HM k id st. rewrite E. apply HM. Qed.

Lemma check_ok o w u w' : check o w = (Ok u, w') -> o = None /\ w' = w.
Proof. destruct o; [done|]. by intros [= <- <-]. Qed.

Lemma norm_ok a w n w' : norm a w = (Ok n, w') -> Normalize a = inl n /\ w' = w.
Proof. unfold norm. destruct (Normalize a); [|done]. by intros [= <- <-]. Qed.

Lemma need_ok {A} (o : option A) (w : World) a w' : need (E := AErr) o w = (Ok a, w') -> o = Some a /\ w' = w.
Proof. unfold need. destruct o; [|done]. by intros [= <- <-]. Qed.

(** The tables once the service is locked *)
Lemma lock_ok {A} (f : Tables -> A) w a w' : AlertDB.lock_query db_err wait f w = (Ok a, w') ->
  exists n, wait n (w_seq w) (w_tbl w) = (w_seq w', w_tbl w') /\ a = f (w_tbl w').
Proof.
  intros E. apply stmt_ok in E as (mk & E). exists (w_calls w). destruct (wait (w_calls w) (w_seq w) (w_tbl w)) as [s t].
  by injection E as <- <- _ <-.
Qed.

Lemma logged_ok {A} c now id ty meta (x : A) w y w' : ty <> TypeAcknowledgeAll -> ty <> TypeCloseAll ->
  bind (MustLogTx dir db_err c now id ty meta) (fun _ => ret x) w = (Ok y, w') ->
  y = x /\ logs_only id ty (w_tbl w) (w_tbl w').
Proof.
  intros H1 H2 E. apply bind_inv in E as (u & w1 & E & [= <- <-]). split; [done|].
  destruct (MustLogTx_logs dir db_err c now id ty meta w H1 H2) as [HL _]. by rewrite E in HL.
Qed.

Lemma status_of_normal a n : Normalize a = inl n -> is_Some (status_of (Status n)).
Proof.
  intros HN. destruct (Normalize_checks a n HN) as (_ & _ & _ & _ & Hs & _).
  unfold statuses in Hs. unfold status_of. rewrite !elem_of_cons, elem_of_nil in Hs.
  destruct Hs as [->|[->|[->|[]]]]; by eexists.
Qed.

Lemma Normalize_fields a n st : Normalize a = inl n -> status_of (Status a) = Some st ->
  ServiceID n = ServiceID a /\ Dedup n = Dedup a /\ Status n = Status a.
Proof.
  unfold Normalize. destruct (Many _); [done|]. intros [= <-] Hs. split_and!; [done..|]. cbn.
  by destruct (String.eqb_spec (Status a) "") as [E|]; [rewrite E in Hs|].
Qed.

(** What the log says of each kind of request *)
Definition log_of (st : AlertStatus) (isNew : bool) : LogType :=
  match st with
  | StatusTriggered => if isNew then TypeCreated else TypeDuplicateSupressed
  | StatusActive => TypeAcknowledged
  | StatusClosed => TypeClosed
  end.

Definition refined (seq : Z) (t : Tables) (k : UUID * string) (st : AlertStatus) (o : option Alert) (isNew : bool) (t' : Tables) : Prop :=
  (forall m, represents t m -> represents t' (spec seq k st m).2 /\
     (spec seq k st m).1 = (fun x => (ID x, isNew)) <$> o) /\
  exists l, t_logs t' = t_logs t ++ l /\ (length l <= 1)%nat /\
    Forall (fun e => Some (lg_alert e) = ID <$> o /\ lg_event e = log_of st isNew) l.

Lemma refined_logs seq t k st a isNew t1 t' : ok seq t -> t_logs t1 = t_logs t -> logs_only (ID a) (log_of st isNew) t1 t' ->
  (forall m, represents t m -> represents t1 (spec seq k st m).2 /\ (spec seq k st m).1 = Some (ID a, isNew)) ->
  refined seq t k st (Some a) isNew t'.
Proof.
  intros HO El (l & -> & Hl & HF) HM. split.
  - intros m Hm. destruct (HM m Hm) as [H1 H2]. split; [|done]. by eapply represents_ext.
  - exists l. cbn. rewrite El. split; [done|]. split; [done|]. eapply Forall_impl; [exact HF|]. intros e [E1 E2].
    cbn. by rewrite E1.
Qed.

Lemma refined_none seq t k st t' : t' = t -> st <> StatusTriggered ->
  (forall m, represents t m -> m !! k = None) -> refined seq t k st None false t'.
Proof.
  intros -> Hst Hk. split.
  - intros m Hm. specialize (Hk m Hm). unfold spec. rewrite Hk. by destruct st.
  - exists []. rewrite app_nil_r. split; [done|]. split; [cbn; lia|constructor].
Qed.

(** The statements against the map *)
Lemma createUpdNew_refined now n svc seq mk t id r ins seq' mk' t' : ok seq t ->
  createUpdNew now n svc seq mk t = inl (id, r, ins, seq', mk', t') ->
  t_logs t' = t_logs t /\ forall m, represents t m ->
    represents t' (spec seq (svc, Dedup_Value (DedupKey n)) StatusTriggered m).2 /\
    (spec seq (svc, Dedup_Value (DedupKey n)) StatusTriggered m).1 = Some (id, ins).
Proof.
  intros HO. unfold createUpdNew. set (key := Dedup_Value (DedupKey n)). destruct (with_key svc key t) as [[i x]|] eqn:Ek.
  - intros [= <- <- <- <- <- <-]. split; [done|]. intros m Hm. unfold spec. rewrite (represents_lookup t m svc key Hm), Ek. done.
  - destruct (negb _); [done|]. destruct (insert_alert _ _ _) as [t1|] eqn:Ei; [|done]. intros [= <- <- <- <- <- <-].
    apply insert_alert_row in Ei as [Ea El]. split; [done|]. intros m Hm. unfold spec.
    pose proof (represents_lookup t m svc key Hm) as Em. rewrite Ek in Em. cbn in Em. rewrite Em. split; [|done].
    apply (represents_insert t t1 m seq _ svc key (ok_ids _ _ HO) Ea eq_refl eq_refl Em Hm).
Qed.

Lemma update_refined st svc key mk t o t' mk' seq : ok seq t -> st <> StatusTriggered ->
  update_with_key st svc key mk t = inl (o, t', mk') ->
  match o with
  | Some (id, r) => t_logs t' = t_logs t /\ forall m, represents t m ->
      represents t' (spec seq (svc, key) st m).2 /\ (spec seq (svc, key) st m).1 = Some (id, false)
  | None => t' = t /\ forall m, represents t m -> m !! (svc, key) = None
  end.
Proof.
  intros HO Hst. unfold update_with_key. destruct (with_key svc key t) as [[i x]|] eqn:Ek.
  - pose proof (with_key_some _ _ _ _ _ Ek) as (Hx & Es & Ed). destruct (open x) eqn:Eo.
    + destruct (set_status st i mk t) as [[t1 m1]|] eqn:E; [|done]. intros [= <- <- <-].
      destruct (set_status_row _ _ _ _ _ _ _ E Hx) as (Hc & Ea & _ & El). split; [done|]. intros m Hm.
      pose proof (represents_lookup t m svc key Hm) as Em. rewrite Ek in Em. cbn in Em. unfold spec. rewrite Em.
      pose proof (represents_update t t1 m i x svc key st _ (ok_inv _ _ HO) Hx Es Ed Ea) as HRep.
      destruct st; [done| |]; cbn in HRep |- *; (split; [|done]).
      * rewrite Ed in HRep. apply HRep; [by left|done].
      * apply HRep; [by right|done].
    + exfalso. unfold open in Eo. apply negb_false_iff, bool_decide_eq_true_1 in Eo.
      apply (inv_dedup _ (ok_inv _ _ HO) _ _ Hx) in Eo. congruence.
  - intros [= <- <- <-]. split; [done|]. intros m Hm. by rewrite (represents_lookup t m svc key Hm), Ek.
Qed.

Lemma CreateOrUpdateTx_refined c now a org w o isNew w' (Hwait : waits_ok wait) : ok (w_seq w) (w_tbl w) ->
  CreateOrUpdateTxScoped dir db_err wait c now a org w = (Ok (o, isNew), w') ->
  exists n svc st k seq t, Normalize a = inl n /\ uuid_Parse (ServiceID n) = Some svc /\ status_of (Status n) = Some st /\
    wait k (w_seq w) (w_tbl w) = (seq, t) /\ refined seq t (svc, Dedup_Value (DedupKey n)) st o isNew (w_tbl w').
Proof.
  intros HO E. unfold CreateOrUpdateTxScoped in E. apply bind_inv in E as (u & w1 & E1 & E). apply check_ok in E1 as [_ ->].
  apply bind_inv in E as (n & w1 & E1 & E). apply norm_ok in E1 as [HN ->].
  apply bind_inv in E as (u1 & w1 & E1 & E). destruct (reads_org db_err (ServiceID n) org w) as [R1 R2]. rewrite E1 in R1, R2. cbn in R1, R2.
  apply bind_inv in E as (svc & w2 & E2 & E). apply need_ok in E2 as [Hsvc ->].
  apply bind_inv in E as (u2 & w2 & E2 & E). apply lock_ok in E2 as (k & Ek & _). rewrite R1, R2 in Ek.
  destruct (status_of_normal a n HN) as [st Est]. exists n, svc, st, k, (w_seq w2), (w_tbl w2). split_and!; try done.
  assert (ok (w_seq w2) (w_tbl w2)) as HO2.
  { destruct (Hwait k _ _ HO) as (_ & H & _). by rewrite Ek in H. }
  rewrite Est in E. destruct st.
  - apply bind_inv in E as ([[id r] ins] & w3 & E3 & E). apply stmt_ok in E3 as (mk & E3).
    destruct (createUpdNew_refined _ _ _ _ _ _ _ _ _ _ _ _ HO2 E3) as [El HM]. destruct ins.
    + apply bind_inv in E as (hs & w4 & E4 & E). assert (w_tbl w4 = w_tbl w3) as R4.
      { pose proof (reads_stmt db_err (fun seq marked t => inl (service_has_steps svc t, seq, marked, t)) ltac:(done) w3) as [R _].
        unfold AlertDB.query in E4. by rewrite E4 in R. }
      apply logged_ok in E as [[= -> ->] HL]; [|done..]. rewrite R4 in HL.
      by apply (refined_logs _ _ _ _ _ _ (w_tbl w3)).
    + apply logged_ok in E as [[= -> ->] HL]; [|done..]. by apply (refined_logs _ _ _ _ _ _ (w_tbl w3)).
  - apply bind_inv in E as (row & w3 & E3 & E). apply exec_inv in E3 as [(mk & mk' & E3) _].
    pose proof (update_refined StatusActive _ _ _ _ _ _ _ _ HO2 ltac:(done) E3) as HM. destruct row as [[id r]|].
    + destruct HM as [El HM]. destruct (bool_decide (r_status r = StatusActive)).
      * apply bind_inv in E as (u3 & w4 & [= <- <-] & [= <- <- <-]).
        apply (refined_logs _ _ _ _ _ _ (w_tbl w3)); try done. apply logs_none.
      * apply logged_ok in E as [[= -> ->] HL]; [|done..]. by apply (refined_logs _ _ _ _ _ _ (w_tbl w3)).
    + destruct HM as [Et HM]. injection E as <- <- <-. by apply refined_none.
  - apply bind_inv in E as (row & w3 & E3 & E). apply exec_inv in E3 as [(mk & mk' & E3) _].
    pose proof (update_refined StatusClosed _ _ _ _ _ _ _ _ HO2 ltac:(done) E3) as HM. destruct row as [[id r]|].
    + destruct HM as [El HM]. apply logged_ok in E as [[= -> ->] HL]; [|done..]. by apply (refined_logs _ _ _ _ _ _ (w_tbl w3)).
    + destruct HM as [Et HM]. injection E as <- <- <-. by apply refined_none.
Qed.

Lemma SetMetadataTx_data c id meta w u w' : SetMetadataTx db_err c id meta w = (Ok u, w') ->
  exists m, w_tbl w' = set_data m (w_tbl w).
Proof.
  unfold SetMetadataTx. intros E. apply bind_inv in E as (u1 & w1 & E1 & E). apply check_ok in E1 as [_ ->].
  apply bind_inv in E as (u2 & w1 & E1 & E). assert (w1 = w) as -> by (destruct (ValidateMetadata meta); [done|by injection E1]).
  apply bind_inv in E as (n & w2 & E2 & E). apply stmt_ok in E2 as (mk & E2).
  assert (w_tbl w' = w_tbl w2) as -> by (destruct (n =? 0); [done|by injection E as _ ->]).
  assert (w_tbl w = set_data (t_data (w_tbl w)) (w_tbl w)) as Es by (by destruct (w_tbl w)).
  clear E E1. unfold set_metadata in E2. destruct (t_alerts (w_tbl w) !! id); [destruct (_ && _)|]; injection E2 as _ _ _ <-; by eexists.
Qed.

(** C4: creation with deduplication implements the map of open alerts: what it
    returns and the map after are those of [spec] on the map at the time the service
    is locked, and the log has at most one more entry, for that alert and of the
    type that fits. *)
Theorem createOrUpdate_refines_map c a meta org w o isNew w' (Hwait : waits_ok wait) (Hw : ok (w_seq w) (w_tbl w))
  (HE : createOrUpdate dir db_err clock wait commit_lost c a meta org w = (Ok (o, isNew), w')) :
  exists n svc st k seq t, Normalize a = inl n /\ uuid_Parse (ServiceID n) = Some svc /\ status_of (Status n) = Some st /\
    wait k (w_seq w) (w_tbl w) = (seq, t) /\
    represents t (open_alerts t) /\
    let after := spec seq (svc, Dedup_Value (DedupKey n)) st (open_alerts t) in
    represents (w_tbl w') after.2 /\ after.1 = (fun x => (ID x, isNew)) <$> o /\
    exists l, t_logs (w_tbl w') = t_logs t ++ l /\ (length l <= 1)%nat /\
      Forall (fun e => Some (lg_alert e) = ID <$> o /\ lg_event e = log_of st isNew) l.
Proof.
  unfold createOrUpdate in HE. apply bind_inv in HE as (u & w1 & E1 & HE). apply check_ok in E1 as [_ ->].
  apply InTx_ok in HE as (w1 & HE & -> & _). apply bind_inv in HE as ([o1 n1] & w2 & E2 & HE).
  apply bind_inv in HE as (u2 & w3 & E3 & [= -> -> ->]).
  apply CreateOrUpdateTx_refined in E2 as (n & svc & st & k & seq & t & HN & Hs & Hst & Hk & HM & l & El & Hl & HF); [|done..]. cbn in Hk.
  assert (t_alerts (w_tbl w1) = t_alerts (w_tbl w2) /\ t_logs (w_tbl w1) = t_logs (w_tbl w2)) as [Ea Elog].
  { destruct meta as [m|]; [|by injection E3 as _ ->]. destruct o as [x|]; [|by injection E3 as _ ->].
    destruct isNew; [|by injection E3 as _ ->]. by apply SetMetadataTx_data in E3 as [m' ->]. }
  assert (inv t) as HI by (destruct (Hwait k _ _ Hw) as (_ & [H _] & _); by rewrite Hk in H).
  pose proof (open_alerts_represents t HI) as HR0. destruct (HM _ HR0) as [HM1 HM2].
  exists n, svc, st, k, seq, t. cbv zeta. split_and!; try done.
  - by apply (represents_ext (w_tbl w2)).
  - exists l. by rewrite Elog.
Qed.
End refinement.

(** ** Where nothing fails *)

Section success.
Context {HU : Unicode} {HT : UUIDText} {HD : Digest} {HG : Registry} {HR : GoMapRange}.
Context (dir : Directory).
Context (clock : nat -> Z) (wait : nat -> Z -> Tables -> Z * Tables) (commit_lost : nat -> bool).

Local Abbreviation no_err := (fun _ : nat => @None DBErr).

Lemma stmt_run {A} (f : AlertDB.Stmt A) w a seq mk t : w_aborted w = false ->
  f (w_seq w) (w_marked w) (w_tbl w) = inl (a, seq, mk, t) ->
  AlertDB.stmt no_err f w = (Ok a, mkWorld t seq (S (w_calls w)) false mk).
Proof. intros E Ef. unfold AlertDB.stmt. by rewrite E, Ef. Qed.

(** A source that is not looked up *)
Definition plain_source (c : Ctx) : Prop :=
  match Permission.Source c with Some s => src_type s = SourceTypeAuthProvider | None => True end.

Lemma LimitCheckAny_All c : All c = true -> LimitCheckAny c [Some All] = None.
Proof. intros Ha. unfold LimitCheckAny. rewrite Ha. cbn. by rewrite Ha. Qed.

Lemma MustLogTx_run c now id ty meta w : All c = true -> plain_source c -> w_aborted w = false ->
  exists w', MustLogTx dir no_err c now id ty meta w = (Ok tt, w') /\ w_aborted w' = false.
Proof.
  intros Ha Hp Hw. assert (forall w, w_aborted w = false -> exists w', (let! _ := try (LogTx dir no_err c now id ty meta) in ret tt) w = (Ok tt, w') /\ w_aborted w' = false) as HL.
  { intros w0 H0. assert (exists e, logEntry dir no_err c ty w0 = (Ok e, w0)) as [e He].
    { unfold logEntry. destruct (entry_type ty) as [ty' l]. unfold plain_source in Hp. destruct (Permission.Source c) as [s|].
      - unfold source_subject. rewrite Hp. eexists. reflexivity.
      - eexists. reflexivity. }
    unfold LogTx, LogManyTx, bind, try. rewrite (LimitCheckAny_All c Ha). cbn [check ret]. rewrite He.
    unfold write. rewrite (stmt_run _ w0 tt (w_seq w0) (w_marked w0) _ H0 eq_refl). by eexists. }
  unfold MustLogTx. destruct (bool_decide _); [|by apply HL]. unfold bind at 1, try at 1, AlertDB.query.
  erewrite stmt_run by done. destruct (recent_duplicate now id (w_tbl w)); [by eexists|by apply HL].
Qed.

Lemma insert_alert_run seq r t key : ids_below seq t -> r_dedup r = Some key -> r_status r = StatusTriggered ->
  with_key (r_service r) key t = None -> is_Some (t_services t !! r_service r) ->
  match t_limit t with Some max => max = -1 \/ Z.of_nat (size (triggered_of (r_service r) t)) < max | None => True end ->
  exists t', insert_alert seq r t = inl t'.
Proof.
  intros HB Ed Es Ek [svc Hsvc] Hlim. unfold insert_alert, open. rewrite Ed, Es.
  rewrite (bool_decide_eq_false_2 (StatusTriggered = StatusClosed)), (bool_decide_eq_false_2 (Some key = None)) by done. cbn [negb Bool.eqb].
  assert (has_dedup (r_service r) (Some key) t = false) as ->.
  { apply bool_decide_eq_false_2. intros (i & x & Hx & E1 & E2). by destruct (with_key_none _ _ _ _ _ Ek Hx E1). }
  change (t_services (set_alerts _ t)) with (t_services t). rewrite Hsvc. set (t1 := insert_state _ _ _).
  assert (over_limit (r_service r) t1 = false) as ->; [|by eexists].
  assert (t_limit t1 = t_limit t /\ t_alerts t1 = <[seq:=r]> (t_alerts t)) as [E1 E2].
  { unfold t1, insert_state. by repeat case_match. }
  unfold over_limit, triggered_of. rewrite E1, E2. destruct (t_limit t) as [max|]; [|done].
  destruct (Z.eqb_spec max (-1)); [done|]. destruct Hlim as [|Hlim]; [done|]. apply Z.ltb_ge.
  rewrite map_filter_insert_True by done. unfold triggered_of in Hlim. rewrite map_size_insert_None; [lia|].
  apply map_lookup_filter_None. left. destruct (t_alerts t !! seq) as [x|] eqn:Ex; [|done]. specialize (HB _ _ Ex). lia.
Qed.

Lemma set_status_run st id mk t r key : t_alerts t !! id = Some r -> r_status r <> StatusClosed -> r_dedup r = Some key ->
  exists t' mk', set_status st id mk t = inl (t', mk').
Proof.
  intros Hr Hc Hd. unfold set_status. rewrite Hr, (bool_decide_eq_false_2 _ Hc), Hd.
  destruct st; cbn; rewrite ?(bool_decide_eq_false_2 (StatusClosed = r_status r)) by congruence; cbn;
    rewrite ?andb_false_r; repeat (case_match; try done); by eexists _, _.
Qed.

Lemma createUpdNew_run now n svc a seq mk t : ids_below seq t -> Normalize a = inl n -> is_Some (t_services t !! svc) ->
  match t_limit t with Some max => max = -1 \/ Z.of_nat (size (triggered_of svc t)) < max | None => True end ->
  exists row seq' t', createUpdNew now n svc seq mk t = inl (row, seq', mk, t').
Proof.
  intros HB HN Hs Hl. destruct (Normalize_checks a n HN) as (_ & _ & _ & Hsrc & _ & _).
  unfold createUpdNew. set (key := Dedup_Value (DedupKey n)).
  destruct (with_key svc key t) as [[id r]|] eqn:Ek; [by eexists _, _, _|].
  assert (Source_Value (Source n) = Source n) as ->.
  { unfold Source_Value. destruct (String.eqb_spec (Source n) "") as [E|]; [|done]. exfalso. rewrite E in Hsrc.
    revert Hsrc. unfold sources. rewrite !elem_of_cons, elem_of_nil. intuition discriminate. }
  rewrite (bool_decide_eq_true_2 _ Hsrc). cbn [negb].
  destruct (insert_alert_run seq (mkRow (Summary n) (Details n) svc (Source n) StatusTriggered (Some key) now) t key HB
    eq_refl eq_refl Ek Hs Hl) as (t' & ->). by eexists _, _, _.
Qed.

Lemma update_run st svc key mk t : inv t -> exists row t' mk', update_with_key st svc key mk t = inl (row, t', mk').
Proof.
  intros HI. unfold update_with_key. destruct (with_key svc key t) as [[id r]|] eqn:Ek; [|by eexists _, _, _].
  destruct (with_key_some _ _ _ _ _ Ek) as (Hr & _ & Hd). destruct (open r) eqn:Eo; [|by eexists _, _, _].
  assert (r_status r <> StatusClosed) as Hc by (intros E; apply (inv_dedup _ HI _ _ Hr) in E; congruence).
  destruct (set_status_run st id mk t r key Hr Hc Hd) as (t' & mk' & ->). by eexists _, _, _.
Qed.

Lemma bind_logged {A} c now id ty meta (x : A) w : All c = true -> plain_source c -> w_aborted w = false ->
  exists w', bind (MustLogTx dir no_err c now id ty meta) (fun _ => ret x) w = (Ok x, w') /\ w_aborted w' = false.
Proof.
  intros Ha Hp Hw. destruct (MustLogTx_run c now id ty meta w Ha Hp Hw) as (w' & E & Hw'). exists w'. unfold bind. by rewrite E.
Qed.

(** What [CreateOrUpdateTxScoped] does once the service is locked *)
Lemma CreateOrUpdateTx_run c now a n svc w : creators c a = None -> plain_source c -> Normalize a = inl n ->
  uuid_Parse (ServiceID n) = Some svc -> w_aborted w = false ->
  (let '(seq, t) := wait (w_calls w) (w_seq w) (w_tbl w) in
   ok seq t /\ is_Some (t_services t !! svc) /\
   match t_limit t with Some max => max = -1 \/ Z.of_nat (size (triggered_of svc t)) < max | None => True end) ->
  exists x w', CreateOrUpdateTxScoped dir no_err wait c now a None w = (Ok x, w') /\ w_aborted w' = false.
Proof.
  intros Hc Hp HN Hsvc H0 HW. assert (All c = true) as Ha by (unfold creators, LimitCheckAny in Hc; by destruct (All c)).
  destruct (wait _ _ _) as [seq t] eqn:Ewt. destruct HW as ([HI HB] & Hs & Hl).
  unfold CreateOrUpdateTxScoped. rewrite Hc. cbn [check]. unfold norm. rewrite HN. rewrite !bind_ret.
  unfold checkServiceOrganization. rewrite bind_ret. rewrite (bind_ok _ _ svc w w) by (unfold need; by rewrite Hsvc).
  unfold lock_service. set (w1 := mkWorld t seq (S (w_calls w)) false (w_marked w)).
  rewrite (bind_ok _ _ tt w w1) by (unfold AlertDB.lock_query; apply stmt_run; [done|by rewrite Ewt]).
  destruct (status_of_normal a n HN) as [st Est]. rewrite Est. destruct st.
  - destruct (createUpdNew_run now n svc a seq (w_marked w) t HB HN Hs Hl) as ([[id r] ins] & seq' & t' & E).
    rewrite (bind_ok _ _ _ w1 _ (stmt_run _ w1 _ _ _ _ eq_refl E)). destruct ins.
    + erewrite bind_ok by (unfold AlertDB.query; by apply stmt_run). by eexists _; apply bind_logged.
    + by eexists _; apply bind_logged.
  - destruct (update_run StatusActive svc (Dedup_Value (DedupKey n)) (w_marked w) t HI) as (row & t' & mk' & E).
    erewrite bind_ok by (unfold AlertDB.exec; apply stmt_run; [done|]; cbn; by rewrite E).
    destruct row as [[id r]|]; [|by eexists _, _]. destruct (bool_decide _); [rewrite bind_ret; by eexists _, _|].
    by eexists _; apply bind_logged.
  - destruct (update_run StatusClosed svc (Dedup_Value (DedupKey n)) (w_marked w) t HI) as (row & t' & mk' & E).
    erewrite bind_ok by (unfold AlertDB.exec; apply stmt_run; [done|]; cbn; by rewrite E).
    destruct row as [[id r]|]; [|by eexists _, _]. by eexists _; apply bind_logged.
Qed.

(** Without failures of the database, a request of somebody who may make it is
    answered, unless a trigger would exceed the limit of the service. *)
Theorem createOrUpdate_succeeds c a n svc w (Hwait : waits_ok wait) (Hw : ok (w_seq w) (w_tbl w))
  (Hc : creators c a = None) (Hp : plain_source c) (HN : Normalize a = inl n) (Hsvc : uuid_Parse (ServiceID n) = Some svc)
  (Hex : forall k, let t := (wait k (w_seq w) (w_tbl w)).2 in is_Some (t_services t !! svc) /\
     match t_limit t with Some max => max = -1 \/ Z.of_nat (size (triggered_of svc t)) < max | None => True end) :
  exists o isNew w', createOrUpdate dir no_err clock wait commit_lost c a None None w = (Ok (o, isNew), w').
Proof.
  unfold createOrUpdate. rewrite Hc. cbn [check]. rewrite bind_ret. unfold AlertDB.InTx.
  set (w0 := mkWorld _ _ _ false []).
  destruct (CreateOrUpdateTx_run c (clock (w_calls w)) a n svc w0 Hc Hp HN Hsvc eq_refl) as ([o isNew] & w' & E & Hw').
  { pose proof (Hwait (w_calls w0) _ _ Hw) as (_ & HO & _). pose proof (Hex (w_calls w0)) as HE. cbn [w_seq w_tbl w0].
    destruct (wait _ _ _) as [seq t]. done. }
  rewrite (bind_ok _ _ _ w0 w' E). cbn. rewrite Hw'. by eexists _, _, _.
Qed.
End success.

(** ** The hypotheses of the theorems, at the example *)

Section witness.
#[local] Existing Instance ascii_unicode.
#[local] Existing Instance nibble_uuid.
#[local] Existing Instance sample_digest.
#[local] Existing Instance sample_registry.
#[local] Existing Instance ordered_map_range.

Lemma createOrUpdate_refines_map_witness : exists o w1,
  createOrUpdate sample_directory (fun _ => None) sample_clock sample_wait (fun _ => false) sample_user (sample_alert "disk full" "") None None
    sample_world = (Ok (o, true), w1) /\
  exists n svc st k seq t, Normalize (sample_alert "disk full" "") = inl n /\ uuid_Parse (ServiceID n) = Some svc /\
    status_of (Status n) = Some st /\ sample_wait k (w_seq sample_world) (w_tbl sample_world) = (seq, t) /\
    represents (w_tbl w1) (spec seq (svc, Dedup_Value (DedupKey n)) st (open_alerts t)).2.
Proof.
  assert (exists o w1, createOrUpdate sample_directory (fun _ => None) sample_clock sample_wait (fun _ => false) sample_user
    (sample_alert "disk full" "") None None sample_world = (Ok (o, true), w1)) as (o & w1 & Ho) by (eexists _, _; vm_compute; reflexivity).
  exists o, w1. split; [exact Ho|].
  destruct (createOrUpdate_refines_map _ _ _ _ _ _ _ _ _ _ _ _ _ sample_waits sample_ok Ho)
    as (n & svc & st & k & seq & t & H1 & H2 & H3 & H4 & _ & H5 & _).
  exists n, svc, st, k, seq, t. exact (conj H1 (conj H2 (conj H3 (conj H4 H5)))).
Defined.

Lemma createOrUpdate_succeeds_witness :
  (exists n, Normalize (sample_alert "disk  full" "") = inl n /\ uuid_Parse (ServiceID n) = Some 10) /\
  exists o isNew w', createOrUpdate sample_directory (fun _ => None) sample_clock sample_wait (fun _ => false) sample_user
    (sample_alert "disk  full" "") None None sample_world = (Ok (o, isNew), w').
Proof.
  assert (exists n, Normalize (sample_alert "disk  full" "") = inl n /\ uuid_Parse (ServiceID n) = Some 10) as (n & H1 & H2)
    by (eexists; split; [vm_compute; reflexivity|vm_compute; reflexivity]).
  split; [by exists n|].
  apply (createOrUpdate_succeeds sample_directory sample_clock sample_wait (fun _ => false) sample_user (sample_alert "disk  full" "") n 10
    sample_world sample_waits sample_ok); [vm_compute; reflexivity|vm_compute; exact I|exact H1|exact H2|].
  intros k. split; [by eexists|]. right. vm_compute. reflexivity.
Defined.
End witness.
