(* ===== verification/AlertEngine.v ===== *)
(** * From a request to the engine

    What the alert store writes is what the escalation manager reads: a new alert
    is escalated to the first step of its policy by the next cycle, and an alert
    for which escalation was requested is selected by the next cycle however long
    its delay is. *)

From S2P Require Import Prelude Text Effects Database GoTime Escalation EscalationSpec Unicode Validate Permission AlertData AlertDB AlertLog AlertStore AlertInvariant AlertStoreSpec AlertDedup AlertDedupSpec.

(** The tables of the store as the escalation manager sees them *)
Definition engine_alert (r : AlertRow) : Escalation.Alert := Escalation.mkAlert (r_status r) (r_service r).

Record engine_sees (t : AlertDB.Tables) (st : Static) (et : Escalation.Tables) : Prop := {
  sees_alerts : Escalation.t_alerts st = engine_alert <$> t_alerts t;
  sees_policies : Escalation.t_policies st = t_policies t;
  sees_steps : Escalation.t_steps st = t_steps t;
  sees_services : Escalation.t_services et = t_services t;
  sees_states : Escalation.t_states et = t_states t
}.

Section engine.
Context {HU : Unicode} {HT : UUIDText} {HD : Digest} {HG : Registry} {HR : GoMapRange} {HS : GoSort}.
Context (dir : Directory).
Context (db_err : nat -> option DBErr) (clock : nat -> Z) (wait : nat -> Z -> AlertDB.Tables -> Z * AlertDB.Tables)
  (commit_lost : nat -> bool).

(** ** A new alert *)

Lemma insert_alert_state seq r t t' svc ep : insert_alert seq r t = inl t' -> open r = true ->
  t_services t !! r_service r = Some svc -> t_policies t !! sv_policy svc = Some ep -> 0 < step_count ep ->
  t_states t' !! seq = Some (mkState (sv_policy svc) None 0 false None 0 None) /\
  t_services t' = t_services t /\ t_policies t' = t_policies t /\ t_steps t' = t_steps t.
Proof.
  intros E Ho Hs Hp Hc. unfold insert_alert in E. destruct (negb (Bool.eqb _ _)); [done|]. destruct (has_dedup _ _ _); [done|].
  change (t_services (set_alerts _ t)) with (t_services t) in E. rewrite Hs, Ho in E. unfold insert_state in E.
  change (t_policies (set_alerts _ t)) with (t_policies t) in E. rewrite Hp, (proj2 (Z.ltb_lt _ _)) in E by done.
  destruct (over_limit _ _); [done|]. injection E as <-. cbn. by rewrite lookup_insert_eq.
Qed.

(** What the store has written of a new alert *)
Record created (t' : AlertDB.Tables) (id : Z) (svc : UUID) (sv : Escalation.Service) : Prop := {
  cr_row : exists r, t_alerts t' !! id = Some r /\ r_status r = StatusTriggered /\ r_service r = svc;
  cr_service : t_services t' !! svc = Some sv;
  cr_state : t_states t' !! id = Some (mkState (sv_policy sv) None 0 false None 0 None)
}.

Lemma created_same t t' id svc sv : created t id svc sv -> t_alerts t' = t_alerts t -> t_states t' = t_states t ->
  t_services t' = t_services t -> created t' id svc sv.
Proof. intros [H1 H2 H3] E1 E2 E3. split; by rewrite ?E1, ?E2, ?E3. Qed.

Lemma createOrUpdateTx_created c now a org w x w' svc :
  CreateOrUpdateTxScoped dir db_err wait c now a org w = (Ok (Some x, true), w') ->
  uuid_Parse (ServiceID a) = Some svc ->
  (forall k sv, t_services (wait k (w_seq w) (w_tbl w)).2 !! svc = Some sv ->
     exists ep, t_policies (wait k (w_seq w) (w_tbl w)).2 !! sv_policy sv = Some ep /\ 0 < step_count ep) ->
  exists sv, created (w_tbl w') (ID x) svc sv.
Proof.
  intros E Hsvc HP. unfold CreateOrUpdateTxScoped in E. apply bind_inv in E as (u & w1 & E1 & E). apply check_ok in E1 as [_ ->].
  apply bind_inv in E as (n & w1 & E1 & E). apply norm_ok in E1 as [HN ->]. destruct (Normalize_checks a n HN) as (En & _).
  apply bind_inv in E as (u1 & w1 & E1 & E). destruct (reads_org db_err (ServiceID n) org w) as [R1 R2]. rewrite E1 in R1, R2. cbn in R1, R2.
  apply bind_inv in E as (svc' & w2 & E2 & E). apply need_ok in E2 as [Hsvc' ->].
  assert (svc' = svc) as -> by (rewrite En in Hsvc'; cbn in Hsvc'; congruence).
  apply bind_inv in E as (u2 & w2 & E2 & E). apply lock_ok in E2 as (k & Ek & _). rewrite R1, R2 in Ek.
  specialize (HP k). rewrite Ek in HP. cbn in HP. destruct (status_of (Status n)) as [[]|]; [| | |done].
  2, 3: apply bind_inv in E as ([[id r]|] & w3 & E3 & E); [|done];
    first [destruct (bool_decide _); [by apply bind_inv in E as (? & ? & ? & E)|]; by apply bind_inv in E as (? & ? & ? & E)
          |by apply bind_inv in E as (? & ? & ? & E)].
  apply bind_inv in E as ([[id r] ins] & w3 & E3 & E). apply stmt_ok in E3 as (mk & E3). destruct ins; [|by apply bind_inv in E as (? & ? & ? & E)].
  apply bind_inv in E as (hs & w4 & E4 & E). apply stmt_ok in E4 as (mk4 & E4). injection E4 as _ _ _ Et4.
  apply logged_ok in E as [[= ->] (l & El & _)]; [|done..].
  unfold createUpdNew in E3. destruct (with_key _ _ _) as [[i y]|]; [done|]. destruct (negb _); [done|].
  destruct (insert_alert _ _ _) as [t1|] eqn:Ei; [|done]. injection E3 as <- <- _ _ ->.
  pose proof (insert_alert_row _ _ _ _ Ei) as [Ea _].
  destruct (t_services (w_tbl w2) !! svc) as [sv|] eqn:Esv.
  - destruct (HP sv eq_refl) as (ep & Hep & Hc).
    destruct (insert_alert_state _ _ _ _ sv ep Ei eq_refl Esv Hep Hc) as (Hst & Hsv & _). exists sv.
    apply (created_same (w_tbl w3)); try (rewrite El, <- Et4; done). split.
    + rewrite Ea. cbn. rewrite lookup_insert_eq. by eexists.
    + by rewrite Hsv.
    + done.
  - exfalso. unfold insert_alert in Ei. cbn in Ei. rewrite Esv in Ei. repeat (case_match; try done).
Qed.

Lemma createOrUpdate_created c a meta org w x w' svc :
  createOrUpdate dir db_err clock wait commit_lost c a meta org w = (Ok (Some x, true), w') ->
  uuid_Parse (ServiceID a) = Some svc ->
  (forall k sv, t_services (wait k (w_seq w) (w_tbl w)).2 !! svc = Some sv ->
     exists ep, t_policies (wait k (w_seq w) (w_tbl w)).2 !! sv_policy sv = Some ep /\ 0 < step_count ep) ->
  exists sv, created (w_tbl w') (ID x) svc sv.
Proof.
  intros E Hsvc HP. unfold createOrUpdate in E. apply bind_inv in E as (u & w1 & E1 & E). apply check_ok in E1 as [_ ->].
  apply InTx_ok in E as (w1 & E & Et & _). apply bind_inv in E as (r & w2 & E2 & E).
  apply bind_inv in E as (u2 & w3 & E3 & [= -> ->]).
  destruct (createOrUpdateTx_created c _ a org _ x w2 svc E2 Hsvc HP) as (sv & HC). exists sv. rewrite Et.
  destruct meta as [m|]; [|by injection E3 as _ ->]. apply SetMetadataTx_data in E3 as [m' E4]. rewrite E4.
  by apply (created_same (w_tbl w2)).
Qed.

(** C13: an alert that [createOrUpdate] reports as new is paged by the next cycle of
    the escalation manager in which nothing fails: exactly the users who should be
    on call for the first step are notified, once each, with its channels. *)
Theorem new_alert_is_paged_by_engine c a meta org w x w' svc st ev ev' db_err' adv_lock clock' locked
  (HC : createOrUpdate dir db_err clock wait commit_lost c a meta org w = (Ok (Some x, true), w'))
  (Hsvc : uuid_Parse (ServiceID a) = Some svc)
  (HP : forall k sv, t_services (wait k (w_seq w) (w_tbl w)).2 !! svc = Some sv ->
     exists ep, t_policies (wait k (w_seq w) (w_tbl w)).2 !! sv_policy sv = Some ep /\ 0 < step_count ep)
  (Hsee : engine_sees (w_tbl w') st (db_tbl ev))
  (HOk : Escalation.update st db_err' adv_lock clock' locked ev = (Ok tt, ev'))
  (HU' : NoDup (open_pairs (t_on_call (db_tbl ev)))) (HL : forall now id, locked now id = false)
  (HN : (size (Escalation.t_states (db_tbl ev)) <= 1000)%nat) (Hclock : forall i j, clock' i <= clock' j + Minute)
  (Hready : forall sv, t_services (w_tbl w') !! svc = Some sv ->
     (forall e, maintenance_expires_at sv = Some e -> forall i, e <= clock' i) /\
     (exists ep, Escalation.t_policies st !! sv_policy sv = Some ep /\ step_count ep <> 0) /\
     exists sid step, step_at st (sv_policy sv) 0 = Some (sid, step) /\ 1 <= delay step) :
  exists i users sv sid step ep, t_services (w_tbl w') !! svc = Some sv /\ step_at st (sv_policy sv) 0 = Some (sid, step) /\
    paged st (ID x) (clock' i) (db_tbl ev) (db_tbl ev') (mkState (sv_policy sv) None 0 false None 0 None) svc sv sid step ep users /\
    forall u, u ∈ users <-> should_be_on_call st sid u /\ sv_org sv = ep_org ep.
Proof.
  destruct (createOrUpdate_created c a meta org w x w' svc HC Hsvc HP) as (sv & [(r & Hr & Er & Es) Hsv Hst]).
  destruct Hsee as [S1 S2 S3 S4 S5]. destruct (Hready sv Hsv) as (Hm & (ep & Hep & Hn) & sid & step & Hstep & Hd).
  destruct (new_alert_is_paged st db_err' adv_lock clock' locked ev ev' (ID x) (mkState (sv_policy sv) None 0 false None 0 None)
    svc sv sid step ep HOk HU' HL HN Hclock) as (i & users & HPg).
  { split; rewrite ?S1, ?S4, ?S5; try done. rewrite lookup_fmap, Hr. cbn. unfold engine_alert. by rewrite Er, Es. }
  exists i, users, sv, sid, step, ep. split_and!; [done|done|exact HPg|]. by destruct HPg.
Qed.

(** ** A request *)

Lemma set_status_states st id mk t t' mk' : set_status st id mk t = inl (t', mk') -> st <> StatusClosed ->
  (t_states t' = t_states t \/ t_states t' = alter clear_next id (t_states t)) /\ t_services t' = t_services t /\
  t_policies t' = t_policies t /\ t_steps t' = t_steps t /\ t_logs t' = t_logs t.
Proof.
  unfold set_status. intros E Hst. destruct (t_alerts t !! id) as [r|]; [|injection E as <- _; auto 10].
  rewrite (bool_decide_eq_false_2 _ Hst), !andb_false_r in E.
  repeat (case_match; simplify_eq; try done); cbn; auto 10.
Qed.

(** What a request leaves: the alert will be escalated. *)
Record requested (t t' : AlertDB.Tables) (id : Z) (at_ : Z) : Prop := {
  rq_alert : exists r r', t_alerts t !! id = Some r /\ r_status r <> StatusClosed /\ t_alerts t' !! id = Some r' /\
    r_service r' = r_service r /\ r_status r' <> StatusClosed /\
    exists sv, t_services t' !! r_service r' = Some sv /\ maintenance_expires_at sv = None;
  rq_state : exists s s', t_states t !! id = Some s /\ t_states t' !! id = Some s' /\ force_escalation s' = true /\
    match last_escalation s with Some l => l <= at_ | None => True end /\
    es_policy s' = es_policy s /\ es_step s' = es_step s /\ last_escalation s' = last_escalation s /\
    loop_count s' = loop_count s /\ es_number s' = es_number s;
  rq_steps : t_policies t' = t_policies t /\ t_steps t' = t_steps t;
  rq_log : exists e, t_logs t' = t_logs t ++ [e] /\ lg_alert e = id /\ lg_event e = TypeEscalationRequest
}.

Lemma force_requested id mk t t' mk' r s : force id mk t = inl (t', mk') -> t_alerts t !! id = Some r -> t_states t !! id = Some s ->
  r_status r <> StatusClosed ->
  (exists r', t_alerts t' !! id = Some r' /\ r_service r' = r_service r /\ r_status r' <> StatusClosed) /\
  (exists s', t_states t' !! id = Some s' /\ force_escalation s' = true /\ es_policy s' = es_policy s /\ es_step s' = es_step s /\
     last_escalation s' = last_escalation s /\ loop_count s' = loop_count s /\ es_number s' = es_number s) /\
  t_services t' = t_services t /\ t_policies t' = t_policies t /\ t_steps t' = t_steps t /\ t_logs t' = t_logs t.
Proof.
  intros E Hr Hs Hc. unfold force in E. rewrite Hs in E. set (t1 := set_states _ t) in E. destruct (force_escalation s) eqn:Ef.
  - injection E as <- <-. split_and!; try done; [by exists r|]. cbn. rewrite lookup_insert_eq. eexists. split; [done|]. done.
  - destruct (set_status_row _ _ _ _ _ _ r E Hr) as (_ & Ea & _ & _).
    destruct (set_status_states _ _ _ _ _ _ E ltac:(done)) as (Est & E2 & E3 & E4 & E5). split_and!; try done.
    + rewrite Ea, lookup_insert_eq. by eexists.
    + destruct Est as [-> | ->]; [|rewrite lookup_alter_eq]; cbn; rewrite lookup_insert_eq; cbn; eexists; split; done.
Qed.

Lemma EscalateAsOf_ok c id at_ w w' : EscalateAsOf dir db_err clock wait commit_lost c id at_ w = (Ok tt, w') ->
  exists k seq t now, wait k (w_seq w) (w_tbl w) = (seq, t) /\
    requested t (w_tbl w') id (if at_ =? zero_inst then now else at_).
Proof.
  intros E. unfold EscalateAsOf in E. apply bind_inv in E as (u & w1 & E1 & E). apply check_ok in E1 as [_ ->].
  apply InTx_ok in E as (w1 & E & Et & _). set (now := clock _) in E.
  apply bind_inv in E as (lck & w2 & E2 & E). apply lock_ok in E2 as (k & Ek & ->). cbn in Ek.
  exists k, (w_seq w2), (w_tbl w2), now. split; [done|]. rewrite Et. clear Et. unfold maint_and_status in E.
  destruct (t_alerts (w_tbl w2) !! id) as [r|] eqn:Hr; [|done]. cbn in E.
  destruct (t_services (w_tbl w2) !! r_service r) as [sv|] eqn:Hsv; [|done]. cbn in E.
  assert (maintenance_expires_at sv = None /\ r_status r <> StatusClosed) as [Hm Hc].
  { destruct (maintenance_expires_at sv); [by destruct (r_status r)|]. by destruct (r_status r). }
  rewrite Hm in E. assert (exists w3, w_tbl w3 = w_tbl w2 /\
    (let! ok := AlertDB.exec db_err (request_escalation id (if at_ =? zero_inst then now else at_)) in
     if (ok : bool) then LogTx dir db_err c now id TypeEscalationRequest None
     else let! hasEP := AlertDB.query db_err (fun t => bool_decide (is_Some (t_states t !! id))) in
          if (hasEP : bool) then fail (EGeneric "alert has already escalated") else fail (EGeneric "alert escalation policy is empty")) w3 = (Ok tt, w1))
    as (w3 & Et3 & E3).
  { destruct (r_status r); [| |done]; apply bind_inv in E as (at1 & w3 & E3 & E); exists w3;
      (destruct (at_ =? zero_inst); [apply stmt_ok in E3 as (mk & E3); injection E3 as <- _ _ Et|injection E3 as <- <-]); done. }
  clear E. apply bind_inv in E3 as (ok0 & w4 & E4 & E). destruct ok0; [|by apply bind_inv in E as ([] & ? & ? & E)].
  apply exec_inv in E4 as [(mk & mk' & E4) _]. rewrite Et3 in E4. unfold request_escalation in E4.
  destruct (t_states (w_tbl w2) !! id) as [s|] eqn:Hs; [|done].
  destruct (match last_escalation s with Some l => _ | None => true end) eqn:El; [|done].
  destruct (force _ _ _) as [[t1 m1]|] eqn:Ef; [|done]. injection E4 as Et4 _. subst t1.
  destruct (force_requested _ _ _ _ _ r s Ef Hr Hs Hc) as ((r' & Hr' & Er1 & Er2) & (s' & Hs' & F1 & F2 & F3 & F4 & F5 & F6) & G1 & G2 & G3 & G4).
  assert (exists e, w_tbl w1 = set_logs (t_logs (w_tbl w4) ++ [e]) (w_tbl w4) /\ lg_alert e = id /\ lg_event e = TypeEscalationRequest) as (e & -> & He).
  { unfold LogTx, LogManyTx in E. apply bind_inv in E as (u1 & w5 & E5 & E). apply check_ok in E5 as [_ ->].
    apply bind_inv in E as (en & w5 & E5 & E). destruct (reads_logEntry dir db_err c TypeEscalationRequest w4) as [R1 _].
    pose proof E5 as E6. rewrite E5 in R1. cbn in R1. apply entry_type_same in E6; [|done..].
    apply stmt_ok in E as (mk5 & E). injection E as _ _ <-.
 rewrite R1. by eexists. }
  split; cbn.
  - exists r, r'. split_and!; try done. exists sv. rewrite G1, Er1. done.
  - exists s, s'. split_and!; try done. destruct (last_escalation s); [by bprop|done].
  - by rewrite G2, G3.
  - exists e. by rewrite G4.
Qed.

Lemma requested_escalatable t t' id at_ st et s : requested t t' id at_ -> engine_sees t' st et -> t_states t' !! id = Some s ->
  force_escalation s = true /\ exists svc, escalatable st et id s = Some svc.
Proof.
  intros [(r & r' & _ & _ & Hr' & _ & _ & sv & Hsv & Hm) (s0 & s' & _ & Hs' & Hf & _) _ _] [S1 S2 S3 S4 S5] Hs.
  assert (s' = s) as -> by congruence. split; [done|]. exists (r_service r'). unfold escalatable. rewrite S1, lookup_fmap, Hr'. cbn.
  rewrite S4, Hsv. cbn. by rewrite Hf, Hm, orb_true_r.
Qed.

(** When [EscalateAsOf] succeeds, the alert is open, its service is not in
    maintenance, it was not escalated since the given time and the request is
    logged; and at any time after, the escalation manager selects it: for the first
    step if it was never escalated, else for the next step as forced, whatever is
    left of its delay. *)
Theorem requested_escalation_is_selected c id at_ w w' st et
  (HE : EscalateAsOf dir db_err clock wait commit_lost c id at_ w = (Ok tt, w'))
  (Hsee : engine_sees (w_tbl w') st et)
  (Hsteps : forall s ep, t_states (w_tbl w') !! id = Some s -> t_policies (w_tbl w') !! es_policy s = Some ep ->
     0 < step_count ep /\ forall n, 0 <= n < step_count ep -> is_Some (step_at st (es_policy s) n)) :
  exists k seq t now s, wait k (w_seq w) (w_tbl w) = (seq, t) /\ requested t (w_tbl w') id (if at_ =? zero_inst then now else at_) /\
    t_states (w_tbl w') !! id = Some s /\
    forall ep, t_policies (w_tbl w') !! es_policy s = Some ep ->
      (last_escalation s = None -> exists e, new_esc st et id s = Some e /\ e_number e = 0 /\ e_alert e = id) /\
      (forall oid old l now', last_escalation s = Some l -> es_step s = Some oid -> t_steps (w_tbl w') !! oid = Some old ->
         0 <= step_number old ->
         exists e, normal_esc st et now' id s = Some e /\ e_alert e = id /\ e_forced e = true /\
           e_number e = (if step_number old + 1 <? step_count ep then step_number old + 1 else 0)).
Proof.
  destruct (EscalateAsOf_ok c id at_ w w' HE) as (k & seq & t & now & Hk & HRq). pose proof HRq as [_ (s0 & s & _ & Hs & _) _ _].
  exists k, seq, t, now, s. split_and!; try done. intros ep Hep.
  destruct (requested_escalatable t _ id _ st et s HRq Hsee Hs) as [Hf (svc & Esc)].
  destruct (Hsteps s ep Hs Hep) as [Hc Hn]. destruct Hsee as [S1 S2 S3 S4 S5]. split.
  - intros Hl. destruct (Hn 0 ltac:(lia)) as [[sid step] E0]. unfold new_esc. rewrite E0, Esc, Hl. cbn. eexists. split; [done|].
    cbn. by apply step_at_spec in E0 as (_ & _ & ->).
  - intros oid old l now' Hl Ho Hold Hpos. unfold normal_esc. rewrite Esc, S2, Hep, Ho. cbn. rewrite S3, Hold. cbn.
    assert (next_number ep s (step_number old) = if step_number old + 1 <? step_count ep then step_number old + 1 else 0) as ->.
    { unfold next_number. rewrite Hf. by destruct (step_number old + 1 <? step_count ep). }
    set (n := if step_number old + 1 <? step_count ep then step_number old + 1 else 0). assert (0 <= n < step_count ep) as Hb by (unfold n; destruct (Z.ltb_spec (step_number old + 1) (step_count ep)); lia).
    destruct (Hn n Hb) as [[sid step] E0]. rewrite E0. cbn. rewrite Hl, Hf, orb_true_r. eexists. split_and!; [done|done|done|].
    cbn. by apply step_at_spec in E0 as (_ & _ & ->).
Qed.
End engine.

(** ** The hypotheses of the theorems, at the example *)

Section witness.
#[local] Existing Instance ascii_unicode.
#[local] Existing Instance nibble_uuid.
#[local] Existing Instance sample_digest.
#[local] Existing Instance sample_registry.
#[local] Existing Instance ordered_map_range.
#[local] Existing Instance stable_go_sort.

Definition engine_static (t : AlertDB.Tables) : Static :=
  mkStatic (engine_alert <$> t_alerts t) (t_policies t) (t_steps t)
    [mkAction 30 (TgtUser 40); mkAction 30 (TgtChannel 50)] ∅ ∅ [] {[40 := 100]}.

Definition engine_tables (t : AlertDB.Tables) : DBWorld Escalation.Tables :=
  mkDB (Escalation.mkTables (t_services t) (t_states t) [] [] [] []) 0.

Definition engine_run (t : AlertDB.Tables) : res DBErr unit * DBWorld Escalation.Tables :=
  Escalation.update (engine_static t) (fun _ => None) (fun _ => true) (fun n => 1000 + Z.of_nat (Nat.min n 1000)) (fun _ _ => false) (engine_tables t).

Lemma new_alert_is_paged_by_engine_witness : exists x w1 ev',
  createOrUpdate sample_directory (fun _ => None) sample_clock sample_wait (fun _ => false) sample_user (sample_alert "disk full" "") None None
    sample_world = (Ok (Some x, true), w1) /\
  map nc_user (t_cycles (db_tbl (engine_run (w_tbl w1)).2)) = [40] /\
  exists i users sv sid step ep, t_services (w_tbl w1) !! 10 = Some sv /\
    paged (engine_static (w_tbl w1)) (ID x) (1000 + Z.of_nat (Nat.min i 1000)) (db_tbl (engine_tables (w_tbl w1))) (db_tbl ev')
      (mkState (sv_policy sv) None 0 false None 0 None) 10 sv sid step ep users.
Proof.
  assert (exists x w1, createOrUpdate sample_directory (fun _ => None) sample_clock sample_wait (fun _ => false) sample_user
    (sample_alert "disk full" "") None None sample_world = (Ok (Some x, true), w1) /\
    map nc_user (t_cycles (db_tbl (engine_run (w_tbl w1)).2)) = [40] /\ (engine_run (w_tbl w1)).1 = Ok tt /\
    t_services (w_tbl w1) = t_services sample_db /\ t_policies (w_tbl w1) = t_policies sample_db /\
    (size (t_states (w_tbl w1)) <= 1000)%nat /\
    step_at (engine_static (w_tbl w1)) 20 0 = Some (30, mkStep 20 0 5 false)) as (x & w1 & HE & Hc & Hok & Hsv & Hpol & Hsz & Hstep).
  { eexists _, _. split; [vm_compute; reflexivity|]. repeat split; vm_compute; try reflexivity. lia. }
  exists x, w1, (engine_run (w_tbl w1)).2. split; [exact HE|]. split; [exact Hc|].
  destruct (new_alert_is_paged_by_engine _ _ _ _ _ _ _ _ _ _ _ _ 10 (engine_static (w_tbl w1)) (engine_tables (w_tbl w1)) (engine_run (w_tbl w1)).2
    (fun _ => None) (fun _ => true) (fun n => 1000 + Z.of_nat (Nat.min n 1000)) (fun _ _ => false) HE) as (i & users & sv & sid & step & ep & H1 & _ & H2 & _).
  - vm_compute. reflexivity.
  - intros k sv Hk. vm_compute in Hk. injection Hk as <-. exists (mkPolicy 100 0 2). split; [vm_compute; reflexivity|done].
  - split; reflexivity.
  - unfold engine_run in *. rewrite <- Hok. apply surjective_pairing.
  - constructor.
  - reflexivity.
  - exact Hsz.
  - intros i j. unfold Minute, Second. lia.
  - intros sv. rewrite Hsv. intros Hs. vm_compute in Hs. injection Hs as <-. split; [done|]. cbn [sv_policy]. split.
    + exists (mkPolicy 100 0 2). change (Escalation.t_policies (engine_static (w_tbl w1))) with (t_policies (w_tbl w1)). rewrite Hpol. split; [vm_compute; reflexivity|done].
    + exists 30, (mkStep 20 0 5 false). split; [exact Hstep|]. cbn. lia.
  - exists i, users, sv, sid, step, ep. exact (conj H1 H2).
Defined.

Lemma requested_escalation_is_selected_witness : exists w1,
  EscalateAsOf sample_directory (fun _ => None) sample_clock sample_wait (fun _ => false) sample_user 1 zero_inst one_alert = (Ok tt, w1) /\
  exists s, t_states (w_tbl w1) !! 1 = Some s /\ force_escalation s = true /\
    exists e, new_esc (engine_static (w_tbl w1)) (db_tbl (engine_tables (w_tbl w1))) 1 s = Some e /\ e_number e = 0.
Proof.
  assert (exists w1 s, EscalateAsOf sample_directory (fun _ => None) sample_clock sample_wait (fun _ => false) sample_user 1 zero_inst one_alert = (Ok tt, w1) /\
    t_states (w_tbl w1) !! 1 = Some s /\ force_escalation s = true /\ es_policy s = 20 /\ last_escalation s = None /\
    t_policies (w_tbl w1) = t_policies sample_db /\ t_steps (w_tbl w1) = t_steps sample_db)
    as (w1 & s & HE & Hs & Hf & Hpol & Hl & Hp & Hst).
  { eexists _, _. split; [vm_compute; reflexivity|]. split; [vm_compute; reflexivity|]. repeat split; vm_compute; reflexivity. }
  exists w1. split; [exact HE|]. exists s. split; [exact Hs|]. split; [exact Hf|].
  destruct (requested_escalation_is_selected _ _ _ _ _ _ _ _ _ _ (engine_static (w_tbl w1)) (db_tbl (engine_tables (w_tbl w1))) HE)
    as (k & seq & t & now & s' & _ & _ & Hs' & HX).
  - split; reflexivity.
  - intros s0 ep Hs0 Hep. assert (s0 = s) as -> by (by rewrite Hs in Hs0; injection Hs0). rewrite Hpol, Hp in Hep. vm_compute in Hep.
    injection Hep as <-. split; [done|]. intros n Hn. cbn in Hn. rewrite Hpol. unfold step_at.
    change (Escalation.t_steps (engine_static (w_tbl w1))) with (t_steps (w_tbl w1)). rewrite Hst.
    assert (n = 0 \/ n = 1) as [->| ->] by lia; vm_compute; by eexists.
  - assert (s' = s) as -> by (by rewrite Hs in Hs'; injection Hs').
    destruct (HX (mkPolicy 100 0 2)) as [HN _]; [rewrite Hpol, Hp; vm_compute; reflexivity|].
    destruct (HN Hl) as (e & He & Hn & _). exists e. exact (conj He Hn).
Defined.
End witness.
