(* ===== verification/AlertStatusSpec.v ===== *)
(** * Changes of the status of alerts

    What [UpdateManyAlertStatus] returns is what it changed and logged; the
    outcome of [UpdateStatus] follows from the status and the step of the alert. *)

From S2P Require Import Prelude Text Effects Database GoTime Escalation Unicode Validate Permission AlertData AlertDB AlertLog AlertStore AlertInvariant AlertStoreSpec AlertDedup AlertDedupSpec.

Section status.
Context {HU : Unicode} {HT : UUIDText} {HD : Digest} {HG : Registry} {HR : GoMapRange}.
Context (dir : Directory).
Context (clock : nat -> Z) (wait : nat -> Z -> Tables -> Z * Tables) (commit_lost : nat -> bool).

(** ** Lists of alerts *)

Lemma ids_where_elem p t id : id ∈ ids_where p t <-> exists r, t_alerts t !! id = Some r /\ p r = true.
Proof.
  unfold ids_where. rewrite list_elem_of_fmap. split.
  - intros ([i r] & -> & Hin). apply elem_of_filter_bool in Hin as [Hin Hp]. apply map_range_elem in Hin. by exists r.
  - intros (r & Hr & Hp). exists (id, r). split; [done|]. apply elem_of_filter_bool. by rewrite map_range_elem.
Qed.

Lemma NoDup_filter_bool {A} (f : A -> bool) l : NoDup l -> NoDup (List.filter f l).
Proof.
  induction 1 as [|x l Hx Hl IH]; cbn; [constructor|]. destruct (f x); [|done]. apply NoDup_cons. split; [|done].
  intros Hin. apply elem_of_filter_bool in Hin as [Hin _]. done.
Qed.

Lemma ids_where_nodup p t : NoDup (ids_where p t).
Proof. apply NoDup_map_filter, map_range_nodup. Qed.

Definition advanced_row (st : AlertStatus) (r : AlertRow) : AlertRow :=
  with_status st (if bool_decide (st = StatusClosed) then None else r_dedup r) r.

Lemma OneOf_field f v o l : OneOf f v o <> Some (MultiField l).
Proof. unfold OneOf. by destruct (existsb _ _). Qed.

Lemma Range_field f v lo hi l : Range f v lo hi <> Some (MultiField l).
Proof. unfold Range. by repeat case_match. Qed.

Lemma log_type_plain s : log_type s <> TypeAcknowledgeAll /\ log_type s <> TypeCloseAll.
Proof. unfold log_type. by destruct (String.eqb s StatusClosed_). Qed.

Lemma in_tail (id i : Z) ids : id <> i -> bool_decide (id ∈ i :: ids) = bool_decide (id ∈ ids).
Proof. intros Hne. apply bool_decide_ext. rewrite elem_of_cons. tauto. Qed.

Lemma set_statuses_rows st ids : forall mk t t' mk', NoDup ids -> set_statuses st ids mk t = inl (t', mk') ->
  (forall id, t_alerts t' !! id = if bool_decide (id ∈ ids) then advanced_row st <$> t_alerts t !! id else t_alerts t !! id) /\
  t_services t' = t_services t /\ t_logs t' = t_logs t.
Proof.
  induction ids as [|i ids IH]; intros mk t t' mk' HN E; cbn in E; [injection E as <- <-; done|].
  apply NoDup_cons in HN as [Hi HN]. destruct (set_status st i mk t) as [[t1 m1]|] eqn:E1; [|done].
  destruct (IH _ _ _ _ HN E) as (Ha & Hs & Hl).
  destruct (t_alerts t !! i) as [r|] eqn:Hr.
  - destruct (set_status_row _ _ _ _ _ _ r E1 Hr) as (_ & Ea & Es & El). split; [|split; congruence]. intros id. rewrite Ha, Ea.
    destruct (decide (id = i)) as [->|Hne].
    + rewrite bool_decide_eq_false_2 by done. rewrite (bool_decide_eq_true_2 (i ∈ i :: ids)) by left. by rewrite Hr, lookup_insert_eq.
    + by rewrite lookup_insert_ne, in_tail.
  - unfold set_status in E1. rewrite Hr in E1. injection E1 as <- <-. split; [|done]. intros id. rewrite Ha.
    destruct (decide (id = i)) as [->|Hne]; [rewrite Hr; by repeat case_match|].
    by rewrite in_tail.
Qed.

(** The alert has an escalation that is at a step which several may acknowledge. *)
Definition at_shared_step (t : Tables) (id : Z) : Prop :=
  exists s step row, t_states t !! id = Some s /\ es_step s = Some step /\ t_steps t !! step = Some row /\ multi_ack row = true.

Lemma alert_multi_ack_shared id t : alert_multi_ack id t = true <-> at_shared_step t id.
Proof.
  unfold alert_multi_ack, at_shared_step. destruct (t_states t !! id) as [s|]; [|naive_solver]. cbn.
  destruct (es_step s) as [step|] eqn:Es; [|naive_solver]. cbn. destruct (t_steps t !! step) as [row|] eqn:Er; naive_solver.
Qed.

(** A change of status touches the escalation of no other alert, and no step. *)
Lemma set_status_other st id marked t t' marked' i : set_status st id marked t = inl (t', marked') -> i <> id ->
  t_states t' !! i = t_states t !! i /\ t_steps t' = t_steps t.
Proof.
  unfold set_status. intros E Hi. destruct (t_alerts t !! id); [|by injection E as <- <-].
  repeat (case_match; try done); injection E as <- <-; cbn; (split; [|done]);
    by rewrite ?lookup_alter_ne, ?lookup_delete_ne by done.
Qed.

Lemma set_statuses_states st i ids : forall mk t t' mk', set_statuses st ids mk t = inl (t', mk') -> i ∉ ids ->
  at_shared_step t' i <-> at_shared_step t i.
Proof.
  induction ids as [|id ids IH]; intros mk t t' mk' E Hi; cbn in E; [by injection E as <- <-|].
  apply not_elem_of_cons in Hi as [Hne Hi]. destruct (set_status st id mk t) as [[t1 m1]|] eqn:E1; [|done].
  destruct (set_status_other _ _ _ _ _ _ i E1 Hne) as [Es Ep]. rewrite (IH _ _ _ _ E Hi). unfold at_shared_step. by rewrite Es, Ep.
Qed.

(** ** [UpdateManyAlertStatus] *)

Section many.
Context (db_err : nat -> option DBErr).

Definition asked (ids : list Z) (org : option UUID) (t : Tables) : list Z :=
  match org with None => ids | Some o => ids_of_org o ids t end.

Lemma organizationAlertIDs_ok ids org w l w' : organizationAlertIDs db_err ids org false w = (Ok l, w') ->
  l = asked ids org (w_tbl w) /\ w_tbl w' = w_tbl w /\ w_seq w' = w_seq w.
Proof.
  unfold organizationAlertIDs, asked. destruct org as [o|]; [|by intros [= <- <-]]. intros E.
  apply bind_inv in E as (u & w1 & E1 & E). assert (w1 = w) as ->.
  { unfold valid in E1. destruct (checkOrganizationID (Some o)); [done|by injection E1]. }
  unfold bind, AlertDB.db_query in E. destruct (db_err (w_calls w)); [done|]. by injection E as <- <-.
Qed.

(** Where the commit is asked for after the log was written *)
Lemma LogManyTx_ok c now ids ty meta w u w' : ty <> TypeAcknowledgeAll -> ty <> TypeCloseAll ->
  LogManyTx dir db_err c now ids ty meta w = (Ok u, w') ->
  exists s, w_tbl w' = set_logs (t_logs (w_tbl w) ++ map (fun id => mkLog id ty s meta now) ids) (w_tbl w).
Proof.
  intros H1 H2 E. unfold LogManyTx in E. apply bind_inv in E as (u1 & w1 & E1 & E). apply check_ok in E1 as [_ ->].
  apply bind_inv in E as (en & w1 & E1 & E). destruct (reads_logEntry dir db_err c ty w) as [R1 _]. rewrite E1 in R1. cbn in R1.
  apply entry_type_same in E1; [|done..]. apply stmt_ok in E as (mk & E). assert (w_tbl w' = append now ids en meta (w_tbl w1)) as -> by congruence. rewrite R1.
  exists en.2. unfold append. by rewrite E1.
Qed.

(** The ids that are only logged *)
Lemma confirmed_ids ids0 mk mk' t t4 : NoDup (advance_ids StatusActive_ ids0 t) ->
  set_statuses StatusActive (advance_ids StatusActive_ ids0 t) mk t = inl (t4, mk') ->
  (forall id, t_alerts t4 !! id = if bool_decide (id ∈ advance_ids StatusActive_ ids0 t) then advanced_row StatusActive <$> t_alerts t !! id else t_alerts t !! id) ->
  forall id, id ∈ multi_acked ids0 (advance_ids StatusActive_ ids0 t) t4 <->
    id ∈ ids0 /\ (exists r, t_alerts t !! id = Some r /\ r_status r = StatusActive) /\ at_shared_step t id.
Proof.
  intros HN ES Hrows id. unfold multi_acked. rewrite elem_of_filter_bool, !andb_true_iff, negb_true_iff, bool_decide_eq_true,
    bool_decide_eq_false, ids_where_elem, alert_multi_ack_shared. rewrite Hrows.
  destruct (decide (id ∈ advance_ids StatusActive_ ids0 t)) as [Hin|Hout].
  - split; [by intros (_ & (_ & ?) & _)|]. intros (_ & (r & Hr & Hs) & _). exfalso.
    apply elem_of_filter_bool in Hin as [Hin _]. apply ids_where_elem in Hin as (r' & Hr' & Hl). rewrite Hr in Hr'. injection Hr' as <-.
    unfold later in Hl. rewrite Hs in Hl. by vm_compute in Hl.
  - rewrite (bool_decide_eq_false_2 _ Hout), (set_statuses_states _ _ _ _ _ _ _ ES Hout). setoid_rewrite bool_decide_eq_true. naive_solver.
Qed.

(** C25: [UpdateManyAlertStatus] returns, each once, exactly the alerts it was asked
    for of which the status is lower, and for an acknowledgment by a person those
    that are acknowledged already and whose escalation is at a step that several
    may acknowledge; the former get the status, every other alert stays, and there
    is one entry in the log for each alert that is returned. *)
Theorem UpdateManyAlertStatus_exact c status ids meta org w ids' w'
  (HE : UpdateManyAlertStatusScoped dir db_err clock wait commit_lost c status ids meta org w = (Ok ids', w')) (Hne : ids <> []) :
  exists st k seq t s now, status_of status = Some st /\ st <> StatusTriggered /\ wait k (w_seq w) (w_tbl w) = (seq, t) /\
    let ids0 := asked ids org (w_tbl w) in
    let advanced id := exists r, id ∈ ids0 /\ t_alerts t !! id = Some r /\ status_number (r_status r) < status_number st in
    let confirmed id := st = StatusActive /\ human c org = true /\ id ∈ ids0 /\
      (exists r, t_alerts t !! id = Some r /\ r_status r = StatusActive) /\ at_shared_step t id in
    NoDup ids' /\
    (forall id, id ∈ ids' <-> advanced id \/ confirmed id) /\
    (forall id r, t_alerts t !! id = Some r -> (advanced id -> t_alerts (w_tbl w') !! id = Some (advanced_row st r)) /\
       (~ advanced id -> t_alerts (w_tbl w') !! id = Some r)) /\
    t_logs (w_tbl w') = t_logs t ++ map (fun id => mkLog id (log_type status) s meta now) ids'.
Proof.
  unfold UpdateManyAlertStatusScoped in HE. apply bind_inv in HE as (u & w1 & E1 & HE). apply check_ok in E1 as [_ ->].
  destruct ids as [|i0 ids1] eqn:Ei; [done|]. rewrite <- Ei in *. clear Ei i0 ids1. destruct (length ids =? 0)%nat eqn:El; [apply Nat.eqb_eq in El; by destruct ids|].
  apply bind_inv in HE as (u1 & w1 & E1 & HE). assert (w1 = w /\ status ∈ [StatusActive_; StatusClosed_]) as [-> Hst].
  { unfold valid in E1. destruct (Many _) eqn:EM; [done|]. injection E1 as _ <-. split; [done|].
    apply Many_cons_none in EM as [_ EM]; [|apply Range_field].
    apply Many_cons_none in EM as [EM _]; [|apply OneOf_field]. by apply OneOf_in in EM. }
  apply bind_inv in HE as (ids0 & w1 & E2 & HE). apply organizationAlertIDs_ok in E2 as (-> & Et & Eq).
  set (ids0 := asked _ _ _) in *. apply InTx_ok in HE as (w2 & HE & -> & _). set (now := clock _) in HE.
  apply bind_inv in HE as (u2 & w3 & E3 & HE). apply lock_ok in E3 as (k & Ek & _). cbn in Ek. rewrite Et, Eq in Ek.
  apply bind_inv in HE as (adv & w4 & E4 & HE). apply exec_inv in E4 as [(mk & mk' & E4) _].
  unfold advance in E4. destruct (status_of status) as [st|] eqn:Est; [|done].
  destruct (set_statuses _ _ _ _) as [[t1 m1]|] eqn:ES; [|done]. injection E4 as <- Et4 _. subst t1.
  set (t := w_tbl w3) in *. assert (st <> StatusTriggered) as Hnt.
  { rewrite !elem_of_cons, elem_of_nil in Hst. destruct Hst as [->|[->|[]]]; vm_compute in Est; by injection Est as <-. }
  assert (NoDup (advance_ids status ids0 t)) as HN by (by apply NoDup_filter_bool, ids_where_nodup).
  assert (forall id, id ∈ advance_ids status ids0 t <-> exists r, id ∈ ids0 /\ t_alerts t !! id = Some r /\ status_number (r_status r) < status_number st) as HA.
  { intros id. unfold advance_ids. rewrite elem_of_filter_bool, ids_where_elem, bool_decide_eq_true. unfold later. rewrite Est.
    setoid_rewrite Z.ltb_lt. naive_solver. }
  destruct (set_statuses_rows _ _ _ _ _ _ HN ES) as (Hrows & _ & Hlogs).
  apply bind_inv in HE as (add & w5 & E5 & HE).
  set (confirmed := fun id => st = StatusActive /\ human c org = true /\ id ∈ ids0 /\
    (exists r, t_alerts t !! id = Some r /\ r_status r = StatusActive) /\ at_shared_step t id).
  assert (w_tbl w5 = w_tbl w4 /\ NoDup (advance_ids status ids0 t ++ add) /\ (forall id, id ∈ add <-> confirmed id)) as (Et5 & HN2 & Hadd).
  { destruct (String.eqb_spec status StatusActive_) as [->|Hs]; [destruct (human c org) eqn:Eh|]; cbn in E5;
      [|injection E5 as <- <-; rewrite app_nil_r; split; [done|]; split; [done|]; intros id; rewrite elem_of_nil;
        split; [done|intros (Hst' & ? & _); try congruence]..].
    2:{ rewrite !elem_of_cons, elem_of_nil in Hst. destruct Hst as [?|[->|[]]]; [done|]. vm_compute in Est. congruence. }
    apply stmt_ok in E5 as (mk5 & E5). injection E5 as <- _ _ <-. vm_compute in Est. injection Est as <-.
    pose proof (confirmed_ids ids0 mk m1 t (w_tbl w4) HN ES Hrows) as HM. split; [done|]. split.
    - apply NoDup_app. split_and!; [done| |apply NoDup_filter_bool, ids_where_nodup]. intros id Hi Hi'.
      apply HM in Hi' as (_ & (r & Hr & Hs) & _). apply HA in Hi as (r' & _ & Hr' & Hs'). rewrite Hr in Hr'. injection Hr' as <-.
      rewrite Hs in Hs'. cbn in Hs'. lia.
    - intros id. rewrite HM. unfold confirmed. tauto. }
  apply bind_inv in HE as (u6 & w6 & E6 & [= <- <-]).
  destruct (log_type_plain status) as [Hl1 Hl2]. apply (LogManyTx_ok _ _ _ _ _ _ _ _ Hl1 Hl2) in E6 as (s & E6).
  exists st, k, (w_seq w3), t, s, now. cbv zeta. rewrite E6. cbn. rewrite Et5, Hlogs. split_and!; try done.
  - intros id. rewrite elem_of_app, HA, Hadd. done.
  - intros id r Hr. rewrite Hrows. split; intros Hx.
    + rewrite bool_decide_eq_true_2 by by apply HA. by rewrite Hr.
    + rewrite bool_decide_eq_false_2 by by rewrite HA. done.
Qed.
End many.

(** ** [UpdateStatus] *)

Local Abbreviation no_err := (fun _ : nat => @None DBErr).

(** What a status change should come to, from the status of the alert and whether
    its step may be acknowledged by several *)
Definition outcome (id : Z) (stat : string) (t : Tables) : AErr + Tables -> Prop := fun o =>
  match joined_status id t with
  | None => o = inl (EPg ErrNoRows)
  | Some StatusClosed => o = inl (EClosed id)
  | Some old =>
      if bool_decide (old = StatusActive) && String.eqb stat StatusActive_ then
        if alert_multi_ack id t then exists t', o = inr t' /\ logs_only id TypeAcknowledged t t' else o = inl (EAcked id)
      else exists t' r st, o = inr t' /\ t_alerts t !! id = Some r /\ status_of stat = Some st /\
             t_alerts t' = <[id := advanced_row st r]> (t_alerts t) /\
             exists l, t_logs t' = t_logs t ++ l /\ (length l <= 1)%nat /\ Forall (fun e => lg_alert e = id) l
  end.

Lemma MustLogTx_done c now id ty meta w : All c = true -> plain_source c -> w_aborted w = false ->
  ty <> TypeAcknowledgeAll -> ty <> TypeCloseAll ->
  exists w', MustLogTx dir no_err c now id ty meta w = (Ok tt, w') /\ w_aborted w' = false /\ logs_only id ty (w_tbl w) (w_tbl w').
Proof.
  intros Ha Hp Hw H1 H2. destruct (MustLogTx_run dir c now id ty meta w Ha Hp Hw) as (w' & E & Hw').
  destruct (MustLogTx_logs dir no_err c now id ty meta w H1 H2) as [HL _]. rewrite E in HL. by exists w'.
Qed.

Lemma change_and_log c now id stat st w r t' mk' k : All c = true -> plain_source c -> w_aborted w = false ->
  status_of stat = Some st -> Status_Value stat = stat -> t_alerts (w_tbl w) !! id = Some r ->
  set_status st id (w_marked w) (w_tbl w) = inl (t', mk') ->
  (k = ret tt \/ exists ty, k = MustLogTx dir no_err c now id ty None /\ ty <> TypeAcknowledgeAll /\ ty <> TypeCloseAll) ->
  exists w', bind (AlertDB.exec no_err (change_status id stat)) (fun _ => k) w = (Ok tt, w') /\ w_aborted w' = false /\
    t_alerts (w_tbl w') = <[id := advanced_row st r]> (t_alerts (w_tbl w)) /\
    exists l, t_logs (w_tbl w') = t_logs (w_tbl w) ++ l /\ (length l <= 1)%nat /\ Forall (fun e => lg_alert e = id) l.
Proof.
  intros Ha Hp Hw Est Ev Hr Es Hk. destruct (set_status_row _ _ _ _ _ _ r Es Hr) as (_ & Ea & _ & El).
  set (w2 := mkWorld t' (w_seq w) (S (w_calls w)) false mk').
  rewrite (bind_ok _ _ tt w w2) by (unfold AlertDB.exec, change_status; apply stmt_run; [done|]; rewrite Ev, Est, Es; done).
  destruct Hk as [->|(ty & -> & H1 & H2)].
  - exists w2. split_and!; try done. exists []. rewrite app_nil_r. split_and!; [done|cbn; lia|constructor].
  - destruct (MustLogTx_done c now id ty None w2 Ha Hp eq_refl H1 H2) as (w' & -> & Hw' & l & El' & Hl & HF).
    exists w'. rewrite El'. split_and!; try done. exists l. cbn. rewrite El.
    split_and!; try done. eapply Forall_impl; [exact HF|]. by intros e [].
Qed.

Lemma UpdateStatusTx_outcome c now id stat w seq t : All c = true -> plain_source c -> stat ∈ statuses -> w_aborted w = false ->
  inv t -> wait (w_calls w) (w_seq w) (w_tbl w) = (seq, t) ->
  exists w', (exists e, UpdateStatusTx dir no_err wait c now id stat w = (Err e, w') /\ outcome id stat t (inl e)) \/
    (UpdateStatusTx dir no_err wait c now id stat w = (Ok tt, w') /\ w_aborted w' = false /\ outcome id stat t (inr (w_tbl w'))).
Proof.
  intros Ha Hp Hst Hw HI Hwt. unfold UpdateStatusTx, outcome.
  set (w1 := mkWorld t seq (S (w_calls w)) false (w_marked w)).
  rewrite (bind_ok _ _ (joined_status id t) w w1) by (unfold AlertDB.lock_query; apply stmt_run; [done|by rewrite Hwt]).
  destruct (joined_status id t) as [old|] eqn:Ej; [|exists w1; left; by eexists].
  assert (exists r, t_alerts t !! id = Some r /\ r_status r = old) as (r & Hr & Hro).
  { unfold joined_status in Ej. destruct (t_alerts t !! id) as [r|]; [|done]. exists r. split; [done|]. cbn in Ej.
    destruct (t_services t !! r_service r); [|done]. by injection Ej. }
  destruct (decide (old = StatusClosed)) as [->|Hc]; [exists w1; left; by eexists|].
  assert (exists st, status_of stat = Some st /\ Status_Value stat = stat) as (st & Est & Ev).
  { unfold statuses in Hst. rewrite !elem_of_cons, elem_of_nil in Hst. destruct Hst as [->|[->|[->|[]]]]; by eexists. }
  destruct (r_dedup r) as [key|] eqn:Ed; [|by apply (inv_dedup _ HI _ _ Hr) in Ed; congruence].
  destruct (set_status_run st id (w_marked w) t r key Hr ltac:(congruence) Ed) as (t' & mk' & Es).
  assert ((if String.eqb stat StatusClosed_ then MustLogTx dir no_err c now id TypeClosed None
     else if String.eqb stat StatusActive_ then MustLogTx dir no_err c now id TypeAcknowledged None else ret tt) = ret tt \/
    exists ty, (if String.eqb stat StatusClosed_ then MustLogTx dir no_err c now id TypeClosed None
     else if String.eqb stat StatusActive_ then MustLogTx dir no_err c now id TypeAcknowledged None else ret tt) =
      MustLogTx dir no_err c now id ty None /\ ty <> TypeAcknowledgeAll /\ ty <> TypeCloseAll) as HL.
  { destruct (String.eqb stat StatusClosed_); [right; by eexists|]. destruct (String.eqb stat StatusActive_); [right; by eexists|by left]. }
  destruct (change_and_log c now id stat st w1 r t' mk' _ Ha Hp eq_refl Est Ev Hr Es HL) as (w' & E & Hw' & Ea & Hlog).
  assert (exists t' r st, inr (w_tbl w') = inr (A := AErr) t' /\ t_alerts t !! id = Some r /\ status_of stat = Some st /\
    t_alerts t' = <[id := advanced_row st r]> (t_alerts t) /\
    exists l, t_logs t' = t_logs t ++ l /\ (length l <= 1)%nat /\ Forall (fun e => lg_alert e = id) l) as HO by (by exists (w_tbl w'), r, st).
  clear HL.
  destruct old; [| |done].
  - exists w'. right. split; [exact E|]. by split.
  - rewrite (bool_decide_eq_true_2 (StatusActive = StatusActive)) by done. cbn [andb]. destruct (String.eqb stat StatusActive_) eqn:Eq; [|exists w'; right; split; [exact E|]; by split].
    rewrite (bind_ok _ _ (alert_multi_ack id t) w1 (mkWorld t seq (S (S (w_calls w))) false (w_marked w))) by (unfold AlertDB.query; by apply stmt_run).
    destruct (alert_multi_ack id t); [|eexists; left; by eexists].
    destruct (MustLogTx_done c now id TypeAcknowledged None (mkWorld t seq (S (S (w_calls w))) false (w_marked w)) Ha Hp eq_refl) as (w'' & E' & Hw'' & HLo); [done|done|].
    exists w''. right. split; [exact E'|]. split; [done|]. by eexists.
Qed.

(** [UpdateStatus], where the database does not fail, does what the status of
    the alert asks for: an unknown or closed alert is refused, and an acknowledgment
    of an acknowledged one unless several may acknowledge at its step, which is only
    logged; otherwise the alert gets the status.  An error changes nothing. *)
Theorem UpdateStatus_outcome c id stat w (Hw : ok (w_seq w) (w_tbl w)) (Hwait : waits_ok wait) (Hst : stat ∈ statuses)
  (Hc : LimitCheckAny c [Some System; Some Admin; Some User] = None) (Hs : Permission.Service c = false) (Hp : plain_source c) :
  let r := UpdateStatus dir no_err clock wait commit_lost c id stat w in
  let t := (wait (S (w_calls w)) (w_seq w) (w_tbl w)).2 in
  match r.1 with
  | Ok _ => outcome id stat t (inr (w_tbl r.2))
  | Err e => outcome id stat t (inl e) /\ w_tbl r.2 = w_tbl w
  | Panic => False
  end.
Proof.
  assert (All c = true) as Ha by (unfold LimitCheckAny in Hc; by destruct (All c)).
  assert (OneOf "Status" stat statuses = None) as Eo.
  { unfold OneOf. assert (existsb (fun o => String.eqb o stat) statuses = true) as ->; [|done]. apply existsb_exists.
    exists stat. split; [by apply list_elem_of_In|apply String.eqb_refl]. }
  unfold UpdateStatus, canTouchAlert. rewrite Eo, Hs, Hc. cbn [valid check]. rewrite !bind_ret. unfold AlertDB.InTx.
  set (w0 := mkWorld _ _ _ false []). set (now := clock (w_calls w)).
  pose proof (Hwait (S (w_calls w)) _ _ Hw) as (_ & [HI _] & _). destruct (wait (S (w_calls w)) (w_seq w) (w_tbl w)) as [seq t] eqn:Ewt.
  destruct (UpdateStatusTx_outcome c now id stat w0 seq t Ha Hp Hst eq_refl HI Ewt) as (w' & [(e & E & HO)|(E & Hw' & HO)]); rewrite E; cbn; [done|].
  by rewrite Hw'.
Qed.
End status.

(** ** The hypotheses of the theorems, at the example *)

Section witness.
#[local] Existing Instance ascii_unicode.
#[local] Existing Instance nibble_uuid.
#[local] Existing Instance sample_digest.
#[local] Existing Instance sample_registry.
#[local] Existing Instance ordered_map_range.

(** A user of the web interface; alert 1 is acknowledged at the step that several
    may acknowledge, alert 2 at the other, and alert 3 is not acknowledged. *)
Definition web_user : Ctx := SourceContext sample_user (Some (mkSource SourceTypeAuthProvider "s")).

Definition acked_db : Tables :=
  let row key st := mkRow key "" 10 "" st (Some key) 0 in
  let at_step u := mkState 20 (Some u) 0 false None 0 None in
  set_states {[1 := at_step 31; 2 := at_step 30; 3 := at_step 31]}
    (set_alerts {[1 := row "a" StatusActive; 2 := row "b" StatusActive; 3 := row "c" StatusTriggered]} sample_db).

Lemma UpdateManyAlertStatus_exact_witness : exists w1,
  UpdateManyAlertStatusScoped sample_directory (fun _ => None) sample_clock sample_wait (fun _ => false) web_user "active"
    [7; 1; 1; 2; 3] None (Some 100) (mkWorld acked_db 4 0 false []) = (Ok [3; 1], w1) /\
  exists s now t, t_logs (w_tbl w1) = t_logs t ++ map (fun id => mkLog id (log_type "active") s None now) [3; 1].
Proof.
  assert (exists w1, UpdateManyAlertStatusScoped sample_directory (fun _ => None) sample_clock sample_wait (fun _ => false) web_user "active"
    [7; 1; 1; 2; 3] None (Some 100) (mkWorld acked_db 4 0 false []) = (Ok [3; 1], w1)) as (w1 & HE) by (eexists; vm_compute; reflexivity).
  exists w1. split; [exact HE|].
  destruct (UpdateManyAlertStatus_exact _ _ _ _ _ _ _ _ _ _ _ _ _ HE ltac:(done)) as (st & k & seq & t & s & now & _ & _ & _ & _ & _ & _ & HL).
  exists s, now, t. exact HL.
Defined.

Lemma UpdateStatus_outcome_witness :
  let r := UpdateStatus sample_directory (fun _ => None) sample_clock sample_wait (fun _ => false) sample_user 5 "closed" sample_world in
  r.1 = Err (EPg ErrNoRows) /\ outcome 5 "closed" sample_db (inl (EPg ErrNoRows)).
Proof.
  intros r. split; [vm_compute; reflexivity|].
  exact (proj1 (UpdateStatus_outcome sample_directory sample_clock sample_wait (fun _ => false) sample_user 5 "closed" sample_world sample_ok sample_waits
    ltac:(unfold statuses; set_solver) eq_refl eq_refl I)).
Defined.
End witness.
