(* ===== verification/Heartbeat.v ===== *)
(** * Heartbeat monitors: [heartbeat], and the mutations of [graphql2/graphqlapp]

    A monitor expects a heartbeat within its timeout.  The store keeps the monitors
    in a table of their own, next to the tables of alerts; what other transactions
    commit between two statements is a parameter, which depends on the rows that
    are locked. *)

From Stdlib Require Import Ascii.
From S2P Require Import Prelude Text Effects Database GoTime Escalation Unicode Validate Permission AlertData AlertDB.

Local Open Scope string_scope.
Local Open Scope Z_scope.

(** ** Data: [state.go], [monitor.go] *)

Inductive HBState := StateInactive | StateHealthy | StateUnhealthy.

#[global] Instance HBState_eq_dec : EqDecision HBState.
Proof. solve_decision. Defined.

Record Monitor := mkMonitor {
  m_ID : string; m_Name : string; m_ServiceID : string; m_Timeout : Z; m_AdditionalDetails : string; m_Muted : string;
  m_lastState : HBState; m_lastHeartbeat : option Z
}.

Definition with_id (id : string) (m : Monitor) : Monitor :=
  mkMonitor id (m_Name m) (m_ServiceID m) (m_Timeout m) (m_AdditionalDetails m) (m_Muted m) (m_lastState m) (m_lastHeartbeat m).
Definition with_timeout (d : Z) (m : Monitor) : Monitor :=
  mkMonitor (m_ID m) (m_Name m) (m_ServiceID m) d (m_AdditionalDetails m) (m_Muted m) (m_lastState m) (m_lastHeartbeat m).

(** [heartbeat_monitors]; the interval has microseconds. *)
Record MonRow := mkMon {
  hb_name : string; hb_service : UUID; hb_interval : Z; hb_details : option string; hb_muted : option string;
  hb_last : option Z; hb_state : HBState
}.

Definition set_hb_state (s : HBState) (r : MonRow) : MonRow :=
  mkMon (hb_name r) (hb_service r) (hb_interval r) (hb_details r) (hb_muted r) (hb_last r) s.

(** The database: [h_locked] are the rows that the transaction has locked. *)
Record HBWorld := mkHB { h_db : AlertDB.World; h_mons : gmap UUID MonRow; h_locked : gset UUID; h_limit : option Z }.

Definition h_calls (w : HBWorld) : nat := w_calls (h_db w).

(** [sql.NullString] of a Go string, and back *)
Definition null_string (s : string) : option string := if String.eqb s "" then None else Some s.

(** [sqlutil.IntervalMicro] *)
Definition IntervalMicro (d : Z) : Z := d `quot` 1000.

Section Heartbeat.
Context {HU : Unicode} {HT : UUIDText} {HR : GoMapRange}.
Context (db_err : nat -> option DBErr) (clock : nat -> Z) (commit_lost : nat -> bool).
Context (others : nat -> gset UUID -> gmap UUID MonRow -> gmap UUID MonRow).
Context (show : Z -> string) (new_id : nat -> UUID).

Local Notation M := (Effects.M HBWorld AErr).

(** ** Statements and transactions *)

(** The monitors that a statement sees *)
Definition seen (w : HBWorld) : gmap UUID MonRow := others (h_calls w) (h_locked w) (h_mons w).

(** A statement of a transaction, on the tables of alerts and the monitors: what it
    returns, the monitors after it, and the rows it locks. *)
Definition hb_stmt {A} (f : Tables -> gmap UUID MonRow -> A * gmap UUID MonRow * gset UUID + DBErr) : M A := fun w =>
  match AlertDB.stmt db_err (fun seq marked t =>
    match f t (seen w) with inl x => inl (x, seq, marked, t) | inr e => inr (seq, e) end) (h_db w) with
  | (Ok (a, m, l), d) => (Ok a, mkHB d m (h_locked w ∪ l) (h_limit w))
  | (Err e, d) => (Err e, mkHB d (h_mons w) (h_locked w) (h_limit w))
  | (Panic, d) => (Panic, mkHB d (h_mons w) (h_locked w) (h_limit w))
  end.

(** A statement outside a transaction *)
Definition hb_exec {A} (f : Z -> gmap UUID MonRow -> A * gmap UUID MonRow) : M A := fun w =>
  let d := AlertDB.tick (h_db w) in
  match db_err (h_calls w) with
  | Some e => (Err (EPg e), mkHB d (h_mons w) (h_locked w) (h_limit w))
  | None => let '(a, m) := f (clock (h_calls w)) (seen w) in (Ok a, mkHB d m (h_locked w) (h_limit w))
  end.

(** What an operation of another store does *)
Definition on_alerts {A} (m : Effects.M AlertDB.World AErr A) : M A := fun w =>
  let '(r, d) := m (h_db w) in (r, mkHB d (h_mons w) (h_locked w) (h_limit w)).

(** A transaction that begins with [begin]. *)
Definition InTx {A} (begin : M unit) (body : Z -> M A) : M A := fun w =>
  let ended t m w' := mkHB (mkWorld t (w_seq (h_db w')) (w_calls (h_db w')) false []) m ∅ (h_limit w) in
  let back w' := ended (w_tbl (h_db w)) (h_mons w) w' in
  let count w' := mkHB (AlertDB.tick (h_db w')) (h_mons w') (h_locked w') (h_limit w') in
  match db_err (h_calls w) with
  | Some e => (Err (EPg e), count w)
  | None =>
      match bind begin (fun _ => body (clock (h_calls w)))
              (mkHB (mkWorld (w_tbl (h_db w)) (w_seq (h_db w)) (S (h_calls w)) false []) (h_mons w) ∅ (h_limit w)) with
      | (Ok a, w') =>
          if w_aborted (h_db w') then (Err EAborted, back (count w'))
          else
            let kept := ended (w_tbl (h_db w')) (h_mons w') (count w') in
            match db_err (h_calls w') with
            | Some e => (Err (EPg e), if commit_lost (h_calls w') then kept else back (count w'))
            | None => (Ok a, kept)
            end
      | (Err e, w') => (Err e, back w')
      | (Panic, w') => (Panic, back w')
      end
  end.

(** ** The store: [monitor.go], [store.go] *)

Definition ParseUUID (fname u : string) : UUID + VErr :=
  match ValidUUID fname u, uuid_Parse u with
  | Some e, _ => inr e
  | None, Some id => inl id
  | None, None => inr (OtherError "")
  end.

(** [Monitor.Normalize] *)
Definition MonitorNormalize (m : Monitor) : Monitor + VErr :=
  match Many [ValidUUID "ServiceID" (m_ServiceID m); IDName "Name" (m_Name m);
              Duration "Timeout" show (m_Timeout m) (5 * Minute) (9000 * Hour);
              Text "AdditionalDetails" (m_AdditionalDetails m) 0 MaxDetailsLength;
              Text "Muted" (m_Muted m) 0 255] with
  | Some e => inr e
  | None => inl (with_timeout (dTruncate (m_Timeout m) Minute) m)
  end.

Definition ok_or {A} (x : A + VErr) : M A := match x with inl a => ret a | inr e => fail (EValid e) end.
Definition permit (o : option Denied) : M unit := match o with Some d => fail (EDenied d) | None => ret tt end.

(** [fromDB] *)
Definition fromDB (id : UUID) (r : MonRow) : Monitor :=
  mkMonitor (uuid_String id) (hb_name r) (uuid_String (hb_service r)) (hb_interval r * 1000) (default "" (hb_details r))
    (default "" (hb_muted r)) (hb_state r) (hb_last r).

(** The unique index on the name and the service *)
Definition name_taken (id : UUID) (r : MonRow) (m : gmap UUID MonRow) : bool :=
  existsb (fun '(i, x) => negb (i =? id) && (hb_service x =? hb_service r) && String.eqb (ToLower (hb_name x)) (ToLower (hb_name r)))
    (map_range m).

(** [fn_enforce_heartbeat_limit] *)
Definition too_many (limit : option Z) (svc : UUID) (m : gmap UUID MonRow) : bool :=
  match limit with
  | Some max => negb (max =? -1) && (max <? Z.of_nat (length (List.filter (fun '(_, x) => hb_service x =? svc) (map_range m))))
  | None => false
  end.

(** [HBInsert] *)
Definition HBInsert (limit : option Z) (id : UUID) (r : MonRow) (t : Tables) (m : gmap UUID MonRow) : gmap UUID MonRow + DBErr :=
  if bool_decide (is_Some (m !! id)) then inr (PgErr "23505" "heartbeat_monitors_pkey")
  else if name_taken id r m then inr (PgErr "23505" "heartbeat_monitor_name_service_id")
  else if negb (bool_decide (is_Some (t_services t !! hb_service r))) then inr (PgErr "23503" "heartbeat_monitors_service_id_fkey")
  else
    let m := <[id := r]> m in
    if too_many limit (hb_service r) m then inr (PgErr "23514" "heartbeat_monitors_per_service_limit") else inl m.

(** [Store.CreateTx] *)
Definition CreateTx (c : Ctx) (m : Monitor) : M Monitor :=
  permit (LimitCheckAny c [Some User; Some Admin]) ;;;
  let! n := ok_or (MonitorNormalize m) in
  let! id := (fun w => (Ok (new_id (h_calls w)), w)) in
  let! svc := need (uuid_Parse (m_ServiceID n)) in
  let! limit := (fun w => (Ok (h_limit w), w)) in
  hb_stmt (fun t mons =>
    match HBInsert limit id (mkMon (m_Name n) svc (IntervalMicro (m_Timeout n)) (null_string (m_AdditionalDetails n)) None None StateInactive) t mons with
    | inl mons => inl (tt, mons, {[id]})
    | inr e => inr e
    end) ;;;
  ret (with_id (uuid_String id) n).

(** [HBRecordHeartbeat] *)
Definition HBRecordHeartbeat (now : Z) (id : UUID) (m : gmap UUID MonRow) : gmap UUID MonRow :=
  alter (fun r => mkMon (hb_name r) (hb_service r) (hb_interval r) (hb_details r) (hb_muted r) (Some now) (hb_state r)) id m.

Definition RecordHeartbeat (idStr : string) : M unit :=
  let! id := ok_or (ParseUUID "MonitorID" idStr) in
  hb_exec (fun now m => (tt, HBRecordHeartbeat now id m)).

(** [validate.ParseManyUUID] *)
Definition ParseManyUUID (fname : string) (ids : list string) (max : Z) : list UUID + VErr :=
  if negb (max =? -1) && (max <? Z.of_nat (length ids)) then inr (Field (mkFieldErr fname ("must not have more than " ++ itoa max)))
  else
    let parsed := imap (fun i id => ParseUUID (fname ++ "[" ++ itoa (Z.of_nat i) ++ "]") id) ids in
    match Many (map (fun x => match x with inl _ => None | inr e => Some e end) parsed) with
    | Some e => inr e
    | None => inl (omap (fun x => match x with inl u => Some u | inr _ => None end) parsed)
    end.

Definition DeleteTx (c : Ctx) (idStrs : list string) : M unit :=
  permit (LimitCheckAny c [Some User; Some Admin]) ;;;
  let! ids := ok_or (ParseManyUUID "MonitorID" idStrs 100) in
  hb_stmt (fun _ m => inl (tt, foldr delete m ids, ∅)).

(** [HBUpdate] *)
Definition HBUpdate (id : UUID) (name : string) (interval : Z) (details muted : option string) (m : gmap UUID MonRow)
  : gmap UUID MonRow + DBErr :=
  match m !! id with
  | None => inl m
  | Some r =>
      let r := mkMon name (hb_service r) interval details muted (hb_last r) (hb_state r) in
      if name_taken id r m then inr (PgErr "23505" "heartbeat_monitor_name_service_id") else inl (<[id := r]> m)
  end.

Definition UpdateTx (c : Ctx) (m : Monitor) : M unit :=
  permit (LimitCheckAny c [Some User; Some Admin]) ;;;
  let! n := ok_or (MonitorNormalize m) in
  let! id := ok_or (ParseUUID "MonitorID" (m_ID n)) in
  hb_stmt (fun _ mons =>
    match HBUpdate id (m_Name n) (IntervalMicro (m_Timeout n)) (null_string (m_AdditionalDetails n)) (null_string (m_Muted n)) mons with
    | inl mons => inl (tt, mons, {[id]})
    | inr e => inr e
    end).

Definition FindOneTx (c : Ctx) (idStr : string) : M Monitor :=
  permit (LimitCheckAny c [Some User; Some Admin]) ;;;
  let! id := ok_or (ParseUUID "ID" idStr) in
  let! row := hb_stmt (fun _ m => inl (m !! id, m, match m !! id with Some _ => {[id]} | None => ∅ end)) in
  match row with Some r => ret (fromDB id r) | None => fail (EPg ErrNoRows) end.

(** [search.MaxResults] *)
Definition MaxResults : Z := 150.

(** [HBManyByID], [HBByService] *)
Definition select_monitors (p : UUID -> MonRow -> bool) (m : gmap UUID MonRow) : list Monitor :=
  map (fun '(id, r) => fromDB id r) (List.filter (fun '(id, r) => p id r) (map_range m)).

Definition FindMany (c : Ctx) (idStrs : list string) : M (list Monitor) :=
  permit (LimitCheckAny c [Some User; Some Admin]) ;;;
  match idStrs with
  | [] => ret []
  | _ =>
      let! ids := ok_or (ParseManyUUID "IDs" idStrs MaxResults) in
      hb_exec (fun _ m => (select_monitors (fun id _ => bool_decide (id ∈ ids)) m, m))
  end.

Definition FindAllByService (c : Ctx) (serviceIDStr : string) : M (list Monitor) :=
  permit (LimitCheckAny c [Some User; Some Admin]) ;;;
  let! serviceID := ok_or (ParseUUID "ServiceID" serviceIDStr) in
  hb_exec (fun _ m => (select_monitors (fun _ r => hb_service r =? serviceID) m, m)).

(** ** The mutations: [graphql2/graphqlapp/heartbeatmonitor.go] *)

Record CreateHeartbeatMonitorInput := mkCreateInput {
  ci_ServiceID : option string; ci_Name : string; ci_TimeoutMinutes : Z; ci_AdditionalDetails : option string; ci_Muted : option string
}.

Record UpdateHeartbeatMonitorInput := mkUpdateInput {
  ui_ID : string; ui_Name : option string; ui_TimeoutMinutes : option Z; ui_AdditionalDetails : option string; ui_Muted : option string
}.

(** [withContextTx]: in the transaction of the context, if it has one. *)
Definition withContextTx {A} (hasTx : bool) (fn : M A) : M A :=
  if hasTx then fn else InTx (ret tt) (fun _ => fn).

Definition CreateHeartbeatMonitor (c : Ctx) (hasTx : bool) (input : CreateHeartbeatMonitorInput) : M Monitor :=
  let hb := mkMonitor "" (ci_Name input) (default "" (ci_ServiceID input)) (wrap64 (ci_TimeoutMinutes input * Minute))
              (default "" (ci_AdditionalDetails input)) "" StateInactive None in
  withContextTx hasTx (CreateTx c hb).

Definition UpdateHeartbeatMonitor (c : Ctx) (hasTx : bool) (input : UpdateHeartbeatMonitorInput) : M unit :=
  withContextTx hasTx (
    let! hb := FindOneTx c (ui_ID input) in
    UpdateTx c (mkMonitor (m_ID hb) (default (m_Name hb) (ui_Name input)) (m_ServiceID hb)
      (match ui_TimeoutMinutes input with Some n => wrap64 (n * Minute) | None => m_Timeout hb end)
      (default (m_AdditionalDetails hb) (ui_AdditionalDetails input)) (m_Muted hb) (m_lastState hb) (m_lastHeartbeat hb))).
End Heartbeat.
