(* ===== verification/HeartbeatManager.v ===== *)
(** * The heartbeat manager: [engine/heartbeatmanager]

    Monitors that are due become unhealthy and raise an alert, those that have had
    a heartbeat become healthy and close it, all in one transaction under the lock
    of the module. *)

From Stdlib Require Import Ascii.
From S2P Require Import Prelude Text Effects Database GoTime Escalation Unicode Validate Permission AlertData AlertDB AlertLog AlertStore Heartbeat.

Local Open Scope string_scope.
Local Open Scope Z_scope.

(** ** [time.UnixDate]: "Mon Jan _2 15:04:05 MST 2006" *)

Definition day_names : list string := ["Sun"; "Mon"; "Tue"; "Wed"; "Thu"; "Fri"; "Sat"].
Definition month_names : list string := ["Jan"; "Feb"; "Mar"; "Apr"; "May"; "Jun"; "Jul"; "Aug"; "Sep"; "Oct"; "Nov"; "Dec"].

Definition nth_name (l : list string) (n : Z) : string := default "" (l !! Z.to_nat n).
Definition pad_left (c : ascii) (n : nat) (s : string) : string :=
  foldr String s (repeat c (n - String.length s)).

Definition UnixDate (zone_name : Z -> string) (t : Time) : string :=
  let '(y, m, d) := Date t in
  let '(hh, mm, ss) := ClockHMS t in
  nth_name day_names (Weekday t) ++ " " ++ nth_name month_names (m - 1) ++ " " ++ pad_left " " 2 (itoa d) ++ " " ++
  pad_left "0" 2 (itoa hh) ++ ":" ++ pad_left "0" 2 (itoa mm) ++ ":" ++ pad_left "0" 2 (itoa ss) ++ " " ++
  zone_name (Unix t) ++ " " ++ pad_left "0" 4 (itoa y).

Example UnixDate_sample : UnixDate (fun _ => "UTC") (time_Unix 1136239445) = "Mon Jan  2 22:04:05 UTC 2006".
Proof. vm_compute. reflexivity. Qed.

(** A row of either query; the second has no more than its first and third column. *)
Record HBRow := mkHBRow {
  hr_ID : string; hr_Name : string; hr_ServiceID : string; hr_LastHeartbeat : Z; hr_AddlDetails : string; hr_DisableReason : string
}.

Section HeartbeatManager.
Context {HU : Unicode} {HT : UUIDText} {HD : Digest} {HG : Registry} {HR : GoMapRange}.
Context (dir : Directory).
Context (db_err : nat -> option DBErr) (adv_lock : nat -> bool) (clock : nat -> Z).
Context (wait : nat -> Z -> Tables -> Z * Tables) (commit_lost : nat -> bool).
Context (others : nat -> gset UUID -> gmap UUID MonRow -> gmap UUID MonRow) (held : nat -> gset UUID).
Context (local : Location) (zone_name : Z -> string).

Local Notation M := (Effects.M HBWorld AErr).

(** The directory of the log has the minutes of the monitors
    ([AlertLog_HBIntervalMinutes] rounds). *)
Definition directory (m : gmap UUID MonRow) : Directory :=
  mkDirectory (d_channels dir) (d_contacts dir) (d_messages dir) ((fun r => (hb_interval r + 30000000) / 60000000) <$> m) (d_ikeys dir).

(** [row.Context] *)
Definition row_Context (c : Ctx) (r : HBRow) : Ctx :=
  ServiceSourceContext (WithoutAuth c) (hr_ServiceID r) (Some (mkSource SourceTypeHeartbeat (hr_ID r))).

(** [last_state != 'unhealthy' and now() - last_heartbeat >= heartbeat_interval];
    without a heartbeat neither condition holds. *)
Definition failed (now : Z) (r : MonRow) : bool :=
  negb (bool_decide (hb_state r = StateUnhealthy)) &&
  match hb_last r with Some l => hb_interval r * 1000 <=? now - l | None => false end.
Definition recovered (now : Z) (r : MonRow) : bool :=
  negb (bool_decide (hb_state r = StateHealthy)) &&
  match hb_last r with Some l => now - l <? hb_interval r * 1000 | None => false end.

(** [limit 250 for update skip locked]: [held] are the rows others have locked. *)
Definition batch (p : MonRow -> bool) (locked : gset UUID) (m : gmap UUID MonRow) : list (UUID * MonRow) :=
  take 250 (List.filter (fun '(id, r) => p r && negb (bool_decide (id ∈ locked))) (map_range m)).

Definition set_states (s : HBState) (rows : list (UUID * MonRow)) (m : gmap UUID MonRow) : gmap UUID MonRow :=
  foldr (fun '(id, _) => alter (set_hb_state s) id) m rows.

Definition fetch (p : MonRow -> bool) (s : HBState) : M (list (UUID * MonRow)) := fun w =>
  hb_stmt db_err others (fun _ m =>
    let rows := batch p (held (h_calls w)) m in inl (rows, set_states s rows m, list_to_set (map fst rows))) w.

Definition scan (x : UUID * MonRow) : HBRow :=
  mkHBRow (uuid_String x.1) (hb_name x.2) (uuid_String (hb_service x.2)) (default 0 (hb_last x.2))
    (default "" (hb_details x.2)) (default "" (hb_muted x.2)).

(** [DB.unhealthy], [DB.healthy] *)
Definition unhealthy (now : Z) : M (list HBRow) := let! rows := fetch (failed now) StateUnhealthy in ret (map scan rows).
Definition healthy (now : Z) : M (list HBRow) := let! rows := fetch (recovered now) StateHealthy in ret (map scan rows).

Definition row_dedup (r : HBRow) : DedupID := mkDedup "heartbeat" 1 (hr_ID r).

Definition expired_alert (r : HBRow) : Alert :=
  let details := "Last heartbeat: " ++ UnixDate zone_name (In_ (mkTime (hr_LastHeartbeat r) UTC) local) in
  let details := if String.eqb (hr_AddlDetails r) "" then details
                 else details ++ newline_text ++ newline_text ++ hr_AddlDetails r in
  mkAlert 0 StatusTriggered_ ("Heartbeat monitor '" ++ hr_Name r ++ "' expired.") (SanitizeText details MaxDetailsLength) ""
    (hr_ServiceID r) zero_inst (Some (row_dedup r)).

Definition healthy_alert (r : HBRow) : Alert :=
  mkAlert 0 StatusClosed_ "" "" "" (hr_ServiceID r) zero_inst (Some (row_dedup r)).

(** [alertStore.CreateOrUpdateTx] in the transaction of the monitors *)
Definition create_or_update (c : Ctx) (now : Z) (r : HBRow) (a : Alert) : M (option Alert * bool) := fun w =>
  on_alerts (CreateOrUpdateTxScoped (directory (h_mons w)) db_err wait (row_Context c r) now a None) w.

(** The loop over the monitors that have failed: the new alerts *)
Fixpoint raise_all (c : Ctx) (now : Z) (bad : list HBRow) : M (list Z) :=
  match bad with
  | [] => ret []
  | r :: bad =>
      if negb (String.eqb (hr_DisableReason r) "") then raise_all c now bad
      else
        let! res := create_or_update c now r (expired_alert r) in
        let '(a, isNew) := res in
        if (isNew : bool) then
          let! a := need a in
          let! new := raise_all c now bad in
          ret (ID a :: new)
        else raise_all c now bad
  end.

Definition close_all (c : Ctx) (now : Z) (good : list HBRow) : M unit :=
  each (fun r => let! _ := create_or_update c now r (healthy_alert r) in ret tt) good.

(** [lock.BeginTx], after the transaction has begun *)
Definition acquire : M unit :=
  let lift e := match e with EPg e => EPg (acquire_error e) | e => e end in
  let! got := (fun w => hb_stmt db_err others (fun _ m => inl (adv_lock (h_calls w), m, ∅)) w) in
  if (got : bool) then
    (fun w => match hb_stmt db_err others (fun _ m => inl (tt, m, ∅)) w with (Err e, w) => (Err (lift e), w) | r => r end)
  else fail (EPg ErrNoLock).

(** The alerts that are logged as created once the transaction is committed *)
Definition processAll (c : Ctx) : M (list Z) :=
  permit (LimitCheckAny c [Some System]) ;;;
  InTx db_err clock commit_lost acquire (fun now =>
    let! bad := unhealthy now in
    let! new := raise_all c now bad in
    let! good := healthy now in
    close_all c now good ;;;
    ret new).

Definition UpdateAll (c : Ctx) : M unit := processAll c ;;; ret tt.
End HeartbeatManager.
