(* ===== verification/HeartbeatSpec.v ===== *)
(** * What the heartbeat manager does

    [processAll] brings the monitors and the open alerts of the monitors up to date
    with the heartbeats, or changes nothing. *)

From Stdlib Require Import Ascii.
From S2P Require Import Prelude Text Effects Database GoTime Escalation Unicode Validate Permission AlertData AlertDB AlertLog AlertStore AlertInvariant AlertStoreSpec AlertDedup AlertDedupSpec Heartbeat HeartbeatManager.

Local Open Scope string_scope.
Local Open Scope Z_scope.

(** ** Batches *)

Lemma set_states_lookup s rows m id :
  set_states s rows m !! id = if bool_decide (id ∈ map fst rows) then set_hb_state s <$> m !! id else m !! id.
Proof.
  induction rows as [|[i r] rows IH]; cbn [set_states foldr map fst]; [done|]. fold (set_states s rows m).
  destruct (decide (i = id)) as [->|Hne].
  - rewrite lookup_alter_eq, IH. rewrite (bool_decide_eq_true_2 (id ∈ id :: _)) by left.
    destruct (bool_decide _); [|done]. by destruct (m !! id).
  - rewrite lookup_alter_ne, IH by done.
    assert (bool_decide (id ∈ i :: map fst rows) = bool_decide (id ∈ map fst rows)) as -> by (apply bool_decide_ext; set_solver).
    done.
Qed.

Section batch.
Context {HR : GoMapRange}.

(** A batch of the rows of [m] that satisfy [p]: all of them, if they are fewer
    than 250 and nobody else has locked one. *)
Record is_batch (p : MonRow -> bool) (locked : gset UUID) (m : gmap UUID MonRow) (rows : list (UUID * MonRow)) : Prop := {
  batch_nodup : NoDup (map fst rows);
  batch_length : (length rows <= 250)%nat;
  batch_sound : forall id r, (id, r) ∈ rows -> m !! id = Some r /\ p r = true;
  batch_complete : (length rows < 250)%nat -> forall id r, m !! id = Some r -> p r = true -> id ∉ locked -> (id, r) ∈ rows
}.

Lemma batch_is_batch p locked m : is_batch p locked m (batch p locked m).
Proof.
  unfold batch. set (l := List.filter _ (map_range m)).
  assert (forall id r, (id, r) ∈ l <-> m !! id = Some r /\ p r = true /\ id ∉ locked) as Hl.
  { intros id r. unfold l. rewrite elem_of_filter_bool, map_range_elem, andb_true_iff, negb_true_iff, bool_decide_eq_false. done. }
  split.
  - rewrite <- firstn_map. eapply sublist_NoDup; [|apply sublist_take].
    apply NoDup_map_filter, map_range_nodup.
  - rewrite length_take. lia.
  - intros id r Hin. assert ((id, r) ∈ l) as Hin' by (rewrite <- (take_drop 250 l); apply elem_of_app; by left).
    by apply Hl in Hin' as (? & ? & _).
  - rewrite length_take. intros Hlt id r Hm Hp Hn. rewrite take_ge by lia. by apply Hl.
Qed.
End batch.

(** ** The alert of a monitor *)

Lemma append_inj_l s a b : s ++ a = s ++ b -> a = b.
Proof. induction s as [|c s IH]; [by rewrite !append_nil|]. rewrite !append_cons. intros [= E]. by apply IH. Qed.

Definition unmuted (r : MonRow) : bool := String.eqb (default "" (hb_muted r)) "".
Definition uuid_rows (rows : list (UUID * MonRow)) : Prop := Forall (fun x => is_uuid x.1 /\ is_uuid (hb_service x.2)) rows.

Definition raised (rows : list (UUID * MonRow)) (svc id : UUID) : Prop :=
  exists r, (id, r) ∈ rows /\ unmuted r = true /\ hb_service r = svc.
Definition closed (rows : list (UUID * MonRow)) (svc id : UUID) : Prop := exists r, (id, r) ∈ rows /\ hb_service r = svc.

Lemma raised_cons x rows svc id :
  raised (x :: rows) svc id <-> (x.1 = id /\ unmuted x.2 = true /\ hb_service x.2 = svc) \/ raised rows svc id.
Proof. unfold raised. setoid_rewrite elem_of_cons. destruct x as [i r]. cbn. naive_solver. Qed.

Lemma closed_cons x rows svc id : closed (x :: rows) svc id <-> (x.1 = id /\ hb_service x.2 = svc) \/ closed rows svc id.
Proof. unfold closed. setoid_rewrite elem_of_cons. destruct x as [i r]. cbn. naive_solver. Qed.

#[global] Instance closed_dec rows svc id : Decision (closed rows svc id).
Proof.
  destruct (decide (Exists (fun x => x.1 = id /\ hb_service x.2 = svc) rows)) as [H|H]; [left|right].
  - apply Exists_exists in H as ([i r] & Hin & <- & <-). by exists r.
  - intros (r & Hin & <-). apply H. apply Exists_exists. by exists (id, r).
Defined.

Section Spec.
Context {HU : Unicode} {HT : UUIDText} {HD : Digest} {HG : Registry} {HR : GoMapRange}.
Context (dir : Directory).
Context (db_err : nat -> option DBErr) (adv_lock : nat -> bool) (clock : nat -> Z).
Context (wait : nat -> Z -> Tables -> Z * Tables) (commit_lost : nat -> bool).
Context (others : nat -> gset UUID -> gmap UUID MonRow -> gmap UUID MonRow) (held : nat -> gset UUID).
Context (local : Location) (zone_name : Z -> string).

Definition monitor_key (id : UUID) : string := Dedup_Value (mkDedup "heartbeat" 1 (uuid_String id)).

(** The open alert of a monitor of a service *)
Definition open_of (t : Tables) (svc id : UUID) : option (Z * AlertStatus) := open_alerts t !! (svc, monitor_key id).

Definition uuids_ok (m : gmap UUID MonRow) : Prop := forall id r, m !! id = Some r -> is_uuid id /\ is_uuid (hb_service r).

(** Meanwhile others keep the constraints, do not open or close the alerts of
    monitors, and leave the locked rows alone. *)
Context (Hwait : waits_ok wait).
Context (Hquiet : forall n seq t svc id, ok seq t -> open_of (wait n seq t).2 svc id = open_of t svc id).
Context (Hlocked : forall n l m id, id ∈ l -> others n l m !! id = m !! id).
Context (Huuids : forall n l m, uuids_ok m -> uuids_ok (others n l m)).

Local Notation tables w := (w_tbl (h_db w)).
Local Notation good_db w := (ok (w_seq (h_db w)) (w_tbl (h_db w))).

Lemma monitor_key_inj a b : is_uuid a -> is_uuid b -> monitor_key a = monitor_key b -> a = b.
Proof. intros Ha Hb E. apply uuid_String_inj; [done..|]. by apply (append_inj_l "heartbeat:1:"). Qed.

Lemma create_or_update_open c now x a st w o isNew w' : good_db w -> is_uuid x.1 -> is_uuid (hb_service x.2) ->
  Dedup a = Some (row_dedup (scan x)) -> ServiceID a = uuid_String (hb_service x.2) -> status_of (Status a) = Some st ->
  create_or_update dir db_err wait c now (scan x) a w = (Ok (o, isNew), w') ->
  good_db w' /\ h_mons w' = h_mons w /\ h_locked w' = h_locked w /\
  exists fresh, forall svc id, is_uuid id ->
    open_of (tables w') svc id =
      if decide (svc = hb_service x.2 /\ id = x.1) then after fresh st (open_of (tables w) svc id) else open_of (tables w) svc id.
Proof using Hwait Hquiet.
  intros Hw Hi Hs Ed Es Est. unfold create_or_update, on_alerts. set (d := directory _ _). set (cx := row_Context _ _).
  destruct (CreateOrUpdateTxScoped d db_err wait cx now a None (h_db w)) as [r w1] eqn:E. intros [= -> <-]. cbn [h_db h_mons h_locked].
  pose proof (keeps_CreateOrUpdateTxScoped d db_err wait Hwait cx now a None (h_db w) Hw) as HK. rewrite E in HK. cbn in HK.
  destruct HK as (_ & Hok & _). split_and!; [done..|].
  apply CreateOrUpdateTx_refined in E as (n & svc0 & st0 & k & seq & t & HN & Hsvc & Hst0 & Hk & HM & _); [|done..].
  destruct (Normalize_fields a n st HN Est) as (E1 & E2 & E3). rewrite E1, Es, uuid_Parse_String in Hsvc by done.
  injection Hsvc as <-. rewrite E3, Est in Hst0. injection Hst0 as <-.
  assert (ok seq t) as HO by (pose proof (Hwait k _ _ Hw) as (_ & H & _); by rewrite Hk in H).
  destruct (HM _ (open_alerts_represents t (ok_inv _ _ HO))) as [HR' _].
  pose proof (represents_unique _ _ _ (open_alerts_represents _ (ok_inv _ _ Hok)) HR') as EO.
  exists seq. intros svc id Hid. pose proof (Hquiet k _ _ svc id Hw) as HQ. rewrite Hk in HQ. cbn in HQ. rewrite <- HQ.
  unfold open_of. rewrite EO, spec_lookup. unfold DedupKey. rewrite E2, Ed. change (Dedup_Value (row_dedup (scan x))) with (monitor_key x.1).
  destruct (decide (svc = hb_service x.2 /\ id = x.1)) as [[-> ->]|Hne]; [by rewrite decide_True|].
  rewrite decide_False; [done|]. intros HE. apply Hne. split; [exact (f_equal fst HE)|]. by apply monitor_key_inj, (f_equal snd HE).
Qed.
(** ** The loops *)

Local Notation raise_all := (raise_all dir db_err wait local zone_name).
Local Notation close_all := (close_all dir db_err wait).

Lemma raise_all_open c now rows : forall w new w', good_db w -> uuid_rows rows ->
  raise_all c now (map scan rows) w = (Ok new, w') ->
  good_db w' /\ h_mons w' = h_mons w /\ h_locked w' = h_locked w /\
  forall svc id, is_uuid id ->
    (raised rows svc id -> is_Some (open_of (tables w') svc id)) /\
    (forall v, open_of (tables w) svc id = Some v -> open_of (tables w') svc id = Some v) /\
    (~ raised rows svc id -> open_of (tables w') svc id = open_of (tables w) svc id).
Proof using Hwait Hquiet.
  induction rows as [|x rows IH]; intros w new w' Hw HU'; cbn [map HeartbeatManager.raise_all].
  { intros [= <- <-]. split_and!; try done. intros svc id _. split_and!; [|done..]. by intros (r & Hr%not_elem_of_nil & _). }
  apply Forall_cons in HU' as [[Hx1 Hx2] HU']. destruct (unmuted x.2) eqn:Eu.
  - replace (negb _) with false by (unfold unmuted in Eu; cbn; by rewrite Eu). intros HE.
    apply bind_inv in HE as ([o isNew] & w1 & E1 & HE).
    apply (create_or_update_open c now x _ StatusTriggered) in E1 as (Hw1 & Em1 & El1 & fresh & H1); [|done..].
    assert (exists new', raise_all c now (map scan rows) w1 = (Ok new', w')) as [new' HE'].
    { destruct isNew; [|by eexists]. apply bind_inv in HE as (a & w2 & E2 & HE). assert (w2 = w1) as -> by (unfold need in E2; by destruct o; [injection E2|]).
      apply bind_inv in HE as (l & w2 & E3 & [= _ <-]). by exists l. }
    destruct (IH _ _ _ Hw1 HU' HE') as (Hw' & Em & El & H2). split_and!; [done|congruence..|].
    intros svc id Hid. specialize (H1 svc id Hid). destruct (H2 svc id Hid) as (A1 & A2 & A3). rewrite raised_cons.
    destruct (decide _) as [[-> ->]|Hne].
    + assert (is_Some (open_of (tables w1) (hb_service x.2) x.1)) as [v Hv].
      { rewrite H1. cbn. destruct (open_of (tables w) _ _); by eexists. }
      split_and!; [intros _; eexists; by apply A2| |naive_solver]. intros v' Hv'. apply A2. by rewrite H1, Hv'.
    + rewrite H1 in A2, A3. split_and!; [|done|naive_solver]. intros [HH|HH]; [naive_solver|by apply A1].
  - replace (negb _) with true by (unfold unmuted in Eu; cbn; by rewrite Eu). intros HE.
    destruct (IH _ _ _ Hw HU' HE) as (Hw' & Em & El & H2). split_and!; [done..|]. intros svc id Hid.
    specialize (H2 svc id Hid). rewrite raised_cons. rewrite Eu. naive_solver.
Qed.

Lemma close_all_open c now rows : forall w u w', good_db w -> uuid_rows rows ->
  close_all c now (map scan rows) w = (Ok u, w') ->
  h_mons w' = h_mons w /\
  forall svc id, is_uuid id ->
    (closed rows svc id -> open_of (tables w') svc id = None) /\
    (~ closed rows svc id -> open_of (tables w') svc id = open_of (tables w) svc id).
Proof using Hwait Hquiet.
  clear zone_name. unfold HeartbeatManager.close_all. induction rows as [|x rows IH]; intros w u w' Hw HU'; cbn [map each].
  { intros [= <- <-]. split; [done|]. intros svc id _. split; [|done]. by intros (r & Hr%not_elem_of_nil & _). }
  apply Forall_cons in HU' as [[Hx1 Hx2] HU']. intros HE. apply bind_inv in HE as (u1 & w1 & E1 & HE).
  apply bind_inv in E1 as ([o isNew] & w2 & E1 & [= <- <-]).
  apply (create_or_update_open c now x _ StatusClosed) in E1 as (Hw1 & Em1 & El1 & fresh & H1); [|done..].
  destruct (IH _ _ _ Hw1 HU' HE) as (Em & H2). split; [congruence|]. intros svc id Hid. rewrite closed_cons.
  specialize (H1 svc id Hid). destruct (H2 svc id Hid) as (A1 & A2).
  destruct (decide (closed rows svc id)) as [HC|HC]; [naive_solver|]. rewrite (A2 HC), H1.
  destruct (decide _) as [[-> ->]|Hne]; [naive_solver|]. split; [naive_solver|done].
Qed.
(** ** The statements and the transaction *)

Lemma hb_stmt_ok {A} (f : Tables -> gmap UUID MonRow -> A * gmap UUID MonRow * gset UUID + DBErr) w a w' :
  hb_stmt db_err others f w = (Ok a, w') ->
  exists l, f (tables w) (seen others w) = inl (a, h_mons w', l) /\ h_locked w' = h_locked w ∪ l /\
    tables w' = tables w /\ w_seq (h_db w') = w_seq (h_db w).
Proof.
  unfold hb_stmt. destruct (AlertDB.stmt _ _ _) as [[[[a0 m0] l0]|e|] d] eqn:E; [|done|done].
  apply stmt_ok in E as (mk & E). intros [= <- <-]. cbn. exists l0.
  destruct (f _ _) as [x|e]; [|done]. injection E as -> <- _ <-. done.
Qed.

Lemma fetch_ok p s w rows w' : fetch db_err others held p s w = (Ok rows, w') ->
  let m := seen others w in
  is_batch p (held (h_calls w)) m rows /\ h_mons w' = set_states s rows m /\
  h_locked w' = h_locked w ∪ list_to_set (map fst rows) /\ tables w' = tables w /\ w_seq (h_db w') = w_seq (h_db w).
Proof.
  intros E. apply hb_stmt_ok in E as (l & [= <- <- <-] & El & Et & Es). split_and!; [apply batch_is_batch|done..].
Qed.

Lemma acquire_ok w u w' : acquire db_err adv_lock others w = (Ok u, w') ->
  (uuids_ok (h_mons w) -> uuids_ok (h_mons w')) /\ tables w' = tables w /\ w_seq (h_db w') = w_seq (h_db w) /\
  ((forall n l m, others n l m = m) -> h_mons w' = h_mons w).
Proof using Huuids.
  unfold acquire. intros E. apply bind_inv in E as (got & w1 & E1 & E). apply hb_stmt_ok in E1 as (l & [= <- Em _] & _ & Et & Es).
  destruct (adv_lock _); [|done]. destruct (hb_stmt db_err others _ w1) as [[u1|e|] w2] eqn:E2; [|done|done].
  assert (w' = w2) as -> by congruence. apply hb_stmt_ok in E2 as (l2 & [= _ Em2 _] & _ & Et2 & Es2).
  split_and!; [|congruence..|].
  - intros HU'. rewrite <- Em2. apply Huuids. rewrite <- Em. by apply Huuids.
  - intros Ho. unfold seen in Em, Em2. rewrite Ho in Em, Em2. congruence.
Qed.

Lemma hb_InTx_ok {A} (begin : Effects.M HBWorld AErr unit) (body : Z -> Effects.M HBWorld AErr A) w a w' :
  InTx db_err clock commit_lost begin body w = (Ok a, w') ->
  exists u w0 w1 w2, begin w0 = (Ok u, w1) /\ body (clock (h_calls w)) w1 = (Ok a, w2) /\
    h_mons w0 = h_mons w /\ tables w0 = tables w /\ w_seq (h_db w0) = w_seq (h_db w) /\
    h_mons w' = h_mons w2 /\ tables w' = tables w2.
Proof.
  unfold InTx. destruct (db_err (h_calls w)); [done|]. set (w0 := mkHB _ (h_mons w) _ _).
  destruct (bind begin _ w0) as [[a0|e|] w2] eqn:E; [|done|done].
  apply bind_inv in E as (u & w1 & E1 & E2). destruct (w_aborted (h_db w2)); [done|].
  destruct (db_err (h_calls w2)); [done|]. intros [= -> <-]. by exists u, w0, w1, w2.
Qed.

Lemma InTx_back {A} (begin : Effects.M HBWorld AErr unit) (body : Z -> Effects.M HBWorld AErr A) w :
  (forall n, commit_lost n = false) ->
  match InTx db_err clock commit_lost begin body w with
  | (Ok _, _) => True
  | (_, w') => h_mons w' = h_mons w /\ tables w' = tables w
  end.
Proof.
  intros HC. unfold InTx. destruct (db_err (h_calls w)); [done|]. set (w0 := mkHB _ (h_mons w) _ _).
  destruct (bind begin _ w0) as [[a0|e|] w2]; [|done|done].
  destruct (w_aborted (h_db w2)); [done|]. destruct (db_err (h_calls w2)); [|done]. by rewrite HC.
Qed.
Lemma uuid_batch p locked m rows : uuids_ok m -> is_batch p locked m rows -> uuid_rows rows.
Proof. intros HU' HB. apply Forall_forall. intros [id r] Hin. by apply (HU' id r), (batch_sound _ _ _ _ HB). Qed.

Lemma set_states_uuids s rows m : uuids_ok m -> uuids_ok (set_states s rows m).
Proof.
  intros Hm id r. rewrite set_states_lookup. destruct (bool_decide _); [|apply Hm].
  intros (r0 & Hr & ->)%fmap_Some. by destruct (Hm id r0 Hr).
Qed.

(** C17: when a run of the heartbeat manager succeeds, it has read two batches: the
    monitors whose heartbeat is overdue, which are unhealthy then, and those with a
    heartbeat in time, which are healthy.  Each overdue monitor that is not muted
    has an open alert, the one it had if it had one; each healthy one has none;
    no other alert of a monitor is opened or closed. *)
Theorem processAll_exact c w new w' (Hw : good_db w) (Hm : uuids_ok (h_mons w))
  (HE : processAll dir db_err adv_lock clock wait commit_lost others held local zone_name c w = (Ok new, w')) :
  let now := clock (h_calls w) in
  exists k1 k2 m1 m2 bad good,
    is_batch (failed now) (held k1) m1 bad /\ is_batch (recovered now) (held k2) m2 good /\
    ((forall n l m, others n l m = m) -> m1 = h_mons w /\ m2 = set_states StateUnhealthy bad m1) /\
    (forall id r, (id, r) ∈ bad -> h_mons w' !! id = Some (set_hb_state StateUnhealthy r)) /\
    (forall id r, (id, r) ∈ good -> h_mons w' !! id = Some (set_hb_state StateHealthy r)) /\
    (forall id, id ∉ map fst good -> h_mons w' !! id = m2 !! id) /\
    forall svc id, is_uuid id ->
      (raised bad svc id -> is_Some (open_of (tables w') svc id)) /\
      (closed good svc id -> open_of (tables w') svc id = None) /\
      (~ closed good svc id -> forall v, open_of (tables w) svc id = Some v -> open_of (tables w') svc id = Some v) /\
      (~ raised bad svc id -> ~ closed good svc id -> open_of (tables w') svc id = open_of (tables w) svc id).
Proof using Hwait Hquiet Hlocked Huuids.
  intros now. unfold processAll in HE. apply bind_inv in HE as (u & w0 & E0 & HE).
  assert (w0 = w) as -> by (unfold permit in E0; by destruct (LimitCheckAny _ _); [|injection E0]). clear E0 u.
  apply hb_InTx_ok in HE as (u & wa & wb & wc & EA & HE & Ma & Ta & Sa & -> & ->). apply acquire_ok in EA as (Ub & Tb & Sb & Mb).
  rewrite Ma in Ub, Mb. specialize (Ub Hm). fold now in HE.
  apply bind_inv in HE as (rows & w1 & E1 & HE). apply bind_inv in E1 as (bad & w1' & E1 & [= <- <-]).
  apply fetch_ok in E1 as (B1 & M1 & L1 & T1 & S1). set (m1 := seen others wb) in *.
  apply bind_inv in HE as (new1 & w2 & E2 & HE).
  assert (good_db w1') as Hw1 by (rewrite T1, S1, Tb, Sb, Ta, Sa; exact Hw).
  assert (uuids_ok m1) as Hm1 by (by apply Huuids).
  apply raise_all_open in E2 as (Hw2 & M2 & L2 & H2); [|done|by eapply uuid_batch].
  apply bind_inv in HE as (rows2 & w3 & E3 & HE). apply bind_inv in E3 as (good & w3' & E3 & [= <- <-]).
  apply fetch_ok in E3 as (B2 & M3 & L3 & T3 & S3). set (m2 := seen others w2) in *.
  apply bind_inv in HE as (u2 & w4 & E4 & [= <- <-]).
  assert (good_db w3') as Hw3 by (by rewrite T3, S3).
  assert (uuids_ok m2) as Hm2 by (apply Huuids; rewrite M2, M1; by apply set_states_uuids).
  apply close_all_open in E4 as (M4 & H4); [|done|by eapply uuid_batch].
  assert (forall id r, (id, r) ∈ bad -> m2 !! id = Some (set_hb_state StateUnhealthy r)) as Hbad.
  { intros id r Hin. unfold m2, seen. rewrite Hlocked.
    - rewrite M2, M1, set_states_lookup, bool_decide_eq_true_2 by (by apply (list_elem_of_fmap_2 fst _ (id, r))).
      by rewrite (proj1 (batch_sound _ _ _ _ B1 id r Hin)).
    - rewrite L2, L1. apply elem_of_union_r, elem_of_list_to_set. by apply (list_elem_of_fmap_2 fst _ (id, r)). }
  assert (forall id r, (id, r) ∈ bad -> id ∉ map fst good) as Hdis.
  { intros id r Hin ([i r'] & -> & Hg)%list_elem_of_fmap. cbn in Hin. apply (batch_sound _ _ _ _ B2) in Hg as [Hg Hr].
    rewrite (Hbad _ _ Hin) in Hg. injection Hg as <-. apply (batch_sound _ _ _ _ B1) in Hin as [_ Hf].
    unfold failed, recovered in Hf, Hr. cbn in Hr. apply andb_true_iff in Hf as [_ Hf]. destruct (hb_last r); [|done].
    apply andb_true_iff in Hr as [_ Hr]. lia. }
  exists (h_calls wb), (h_calls w2), m1, m2, bad, good. split; [done|]. split; [done|].
  assert (forall id, h_mons w4 !! id = if bool_decide (id ∈ map fst good) then set_hb_state StateHealthy <$> m2 !! id else m2 !! id) as HM.
  { intros id. by rewrite M4, M3, set_states_lookup. }
  split_and!.
  - intros Ho. assert (m1 = h_mons wb) as E1 by apply Ho. assert (m2 = h_mons w2) as -> by apply Ho.
    split; [rewrite E1; by apply Mb|]. by rewrite M2, M1.
  - intros id r Hin. rewrite HM, bool_decide_eq_false_2 by (by eapply Hdis). by apply Hbad.
  - intros id r Hin. rewrite HM, bool_decide_eq_true_2 by (by apply (list_elem_of_fmap_2 fst _ (id, r))).
    by rewrite (proj1 (batch_sound _ _ _ _ B2 id r Hin)).
  - intros id Hin. by rewrite HM, bool_decide_eq_false_2.
  - intros svc id Hid. destruct (H2 svc id Hid) as (A1 & A2 & A3). destruct (H4 svc id Hid) as (C1 & C2).
    rewrite T3 in C2. rewrite T1, Tb, Ta in A2, A3. split_and!; [|done| |].
    + intros HR'. rewrite C2; [by apply A1|]. intros (r' & Hg & _). destruct HR' as (r & Hin & _).
      apply (Hdis _ _ Hin). by apply (list_elem_of_fmap_2 fst _ (id, r')).
    + intros HC v Hv. rewrite C2 by done. by apply A2.
    + intros HR' HC. rewrite C2 by done. by apply A3.
Qed.

(** A run that fails changes nothing, unless its commit took effect. *)
Theorem processAll_all_or_nothing c w (Hc : forall n, commit_lost n = false) :
  match processAll dir db_err adv_lock clock wait commit_lost others held local zone_name c w with
  | (Ok _, _) => True
  | (_, w') => h_mons w' = h_mons w /\ tables w' = tables w
  end.
Proof.
  unfold processAll. unfold permit. destruct (LimitCheckAny _ _); [done|]. rewrite bind_ret. by apply InTx_back.
Qed.
End Spec.

(** ** An example *)

Section witness.
#[local] Existing Instance ascii_unicode.
#[local] Existing Instance nibble_uuid.
#[local] Existing Instance sample_digest.
#[local] Existing Instance sample_registry.
#[local] Existing Instance ordered_map_range.

Definition hb_clock : nat -> Z := fun n => Hour + Z.of_nat n.
Definition quiet : nat -> gset UUID -> gmap UUID MonRow -> gmap UUID MonRow := fun _ _ m => m.
Definition engine : Ctx := default Background (SystemContext Background "Engine").

Definition monitor (svc last : Z) (s : HBState) : MonRow := mkMon "mon" svc 300000000 None None (Some last) s.

(** Monitor 40 is overdue; monitor 41, of which alert 1 is open, has had a heartbeat. *)
Definition hb_tables (limit : option Z) : Tables :=
  mkTables {[1 := mkRow "" "" 11 "manual" StatusActive (Some (monitor_key 41)) 0]}
    {[10 := mkService 20 100 None; 11 := mkService 20 100 None]} {[20 := mkPolicy 100 0 2]} ∅ ∅ [] ∅ ∅ [] limit.
Definition hb_world (limit : option Z) : HBWorld :=
  mkHB (mkWorld (hb_tables limit) 2 0 false []) {[40 := monitor 10 0 StateHealthy; 41 := monitor 11 (Hour - Minute) StateUnhealthy]} ∅ None.

Definition run_heartbeats (w : HBWorld) : res AErr (list Z) * HBWorld :=
  processAll sample_directory (fun _ => None) (fun _ => true) hb_clock sample_wait (fun _ => false) quiet (fun _ => ∅) UTC (fun _ => "UTC") engine w.

Example sample_run :
  let r := run_heartbeats (hb_world (Some 5)) in
  r.1 = Ok [2] /\ open_of (w_tbl (h_db r.2)) 10 40 = Some (2, StatusTriggered) /\ open_of (w_tbl (h_db r.2)) 11 41 = None /\
  hb_state <$> h_mons r.2 !! 40 = Some StateUnhealthy /\ hb_state <$> h_mons r.2 !! 41 = Some StateHealthy /\
  map (fun l => (lg_alert l, lg_event l, sub_classifier (lg_subject l))) (t_logs (w_tbl (h_db r.2))) =
    [(2, TypeCreated, "expired after 5 minutes"); (1, TypeClosed, "healthy")].
Proof. vm_compute. repeat split. Qed.

(** A service that has as many unacknowledged alerts as it may keeps the monitors of
    all other services from being handled. *)
Example limit_of_one_service_stops_all :
  let r := run_heartbeats (hb_world (Some 0)) in
  r.1 = Err (EPg (PgErr "23514" "unacked_alerts_per_service_limit")) /\ h_mons r.2 = h_mons (hb_world (Some 0)) /\
  open_of (w_tbl (h_db r.2)) 11 41 = Some (1, StatusActive).
Proof. vm_compute. repeat split. Qed.

Lemma hb_tables_ok limit : ok 2 (hb_tables limit).
Proof.
  assert (forall i r, t_alerts (hb_tables limit) !! i = Some r -> i = 1 /\ r = mkRow "" "" 11 "manual" StatusActive (Some (monitor_key 41)) 0) as H.
  { intros i r Hr. cbn [hb_tables t_alerts] in Hr.
    by apply lookup_singleton_Some in Hr as [<- <-]. }
  split; [split|].
  - intros i r Hr. by apply H in Hr as [_ ->].
  - intros i j r s Hr Hs _ _ _. apply H in Hr as [-> _]. by apply H in Hs as [-> _].
  - by intros i s Hs.
  - intros i r Hr. apply H in Hr as [-> _]. lia.
Qed.

Lemma hb_world_uuids limit : uuids_ok (h_mons (hb_world limit)).
Proof.
  assert (map_Forall (fun id r => 0 <= id < 2 ^ 128 /\ 0 <= hb_service r < 2 ^ 128) (h_mons (hb_world limit))) as H.
  { apply (bool_decide_unpack _). vm_compute. exact I. }
  exact H.
Qed.

Lemma processAll_exact_witness :
  exists w', run_heartbeats (hb_world (Some 5)) = (Ok [2], w') /\
  exists bad, is_batch (failed (hb_clock 0)) ∅ (h_mons (hb_world (Some 5))) bad /\
    forall svc id, is_uuid id -> raised bad svc id -> is_Some (open_of (w_tbl (h_db w')) svc id).
Proof.
  exists (run_heartbeats (hb_world (Some 5))).2. split; [vm_compute; reflexivity|].
  destruct (processAll_exact sample_directory (fun _ => None) (fun _ => true) hb_clock sample_wait (fun _ => false) quiet (fun _ => ∅)
    UTC (fun _ => "UTC") sample_waits ltac:(done) ltac:(done) ltac:(done) engine (hb_world (Some 5)) [2] _
    (hb_tables_ok (Some 5)) (hb_world_uuids (Some 5)) ltac:(vm_compute; reflexivity))
    as (k1 & k2 & m1 & m2 & bad & good & HB & _ & HM & _ & _ & _ & HO).
  exists bad. split; [by rewrite <- (proj1 (HM ltac:(done)))|]. intros svc id Hid Hr. by apply HO.
Defined.
End witness.
