(* ===== verification/HeartbeatApi.v ===== *)
(** * What the requests about monitors cannot do

    No request mutes a monitor, and a heartbeat for a monitor that does not exist is
    accepted. *)

From S2P Require Import Prelude Text Effects Database GoTime Escalation Unicode Validate Permission AlertData AlertDB AlertLog AlertStore AlertInvariant Heartbeat HeartbeatManager HeartbeatSpec.

Local Open Scope Z_scope.

Section Api.
Context {HU : Unicode} {HT : UUIDText} {HD : Digest} {HG : Registry} {HR : GoMapRange}.
Context (dir : Directory).
Context (db_err : nat -> option DBErr) (adv_lock : nat -> bool) (clock : nat -> Z).
Context (wait : nat -> Z -> Tables -> Z * Tables) (commit_lost : nat -> bool).
Context (others : nat -> gset UUID -> gmap UUID MonRow -> gmap UUID MonRow) (held : nat -> gset UUID).
Context (local : Location) (zone_name : Z -> string) (show : Z -> string) (new_id : nat -> UUID).

Local Notation M := (Effects.M HBWorld AErr).

Definition none_muted (m : gmap UUID MonRow) : Prop := map_Forall (fun _ r => hb_muted r = None) m.
Definition sound (w : HBWorld) : Prop := none_muted (h_mons w).

Context (Hothers : forall n l m, none_muted m -> none_muted (others n l m)).

(** No matter how it ends, [m] mutes nothing; what it returns satisfies [Q]. *)
Definition mutes_nothing {A} (m : M A) (Q : A -> Prop) : Prop := triple sound m (fun a w => sound w /\ Q a) (fun _ => sound).

Lemma mn_ret {A} (a : A) (Q : A -> Prop) : Q a -> mutes_nothing (ret a) Q.
Proof. intros HQ w Hw. done. Qed.
Lemma mn_fail {A} e (Q : A -> Prop) : mutes_nothing (fail e) Q.
Proof. intros w Hw. done. Qed.
Lemma mn_need {A} (o : option A) : mutes_nothing (need o) (fun _ => True).
Proof. intros w Hw. unfold need. by destruct o. Qed.
Lemma mn_permit o : mutes_nothing (permit o) (fun _ => True).
Proof. destruct o; [apply mn_fail|by apply mn_ret]. Qed.
Lemma mn_ok_or {A} (x : A + VErr) : mutes_nothing (ok_or x) (fun a => x = inl a).
Proof. destruct x; [by apply mn_ret|apply mn_fail]. Qed.

Lemma mn_bind {A B} (m : M A) (k : A -> M B) (Q : A -> Prop) (R : B -> Prop) :
  mutes_nothing m Q -> (forall a, Q a -> mutes_nothing (k a) R) -> mutes_nothing (bind m k) R.
Proof.
  intros Hm Hk w Hw. unfold bind. specialize (Hm w Hw). destruct (m w) as [[a|e|] w']; [|done|done].
  destruct Hm as [Hw' HQ]. by apply Hk.
Qed.

Lemma mn_weaken {A} (m : M A) (Q R : A -> Prop) : mutes_nothing m Q -> (forall a, Q a -> R a) -> mutes_nothing m R.
Proof. intros Hm HQ w Hw. specialize (Hm w Hw). destruct (m w) as [[a|e|] w']; naive_solver. Qed.

Lemma mn_stmt {A} (f : Tables -> gmap UUID MonRow -> A * gmap UUID MonRow * gset UUID + DBErr) (Q : A -> Prop) :
  (forall t m, none_muted m -> match f t m with inl (a, m', _) => none_muted m' /\ Q a | inr _ => True end) ->
  mutes_nothing (hb_stmt db_err others f) Q.
Proof using Hothers.
  intros Hf w Hw. pose proof (hb_stmt_ok db_err others f w) as HO. unfold hb_stmt in *.
  destruct (AlertDB.stmt _ _ _) as [[[[a m] l]|e|] d]; [|done|done]. destruct (HO _ _ eq_refl) as (l' & E & _). cbn in E.
  specialize (Hf (w_tbl (h_db w)) (seen others w) (Hothers _ _ _ Hw)). rewrite E in Hf. by destruct Hf.
Qed.

Lemma mn_exec {A} (f : Z -> gmap UUID MonRow -> A * gmap UUID MonRow) :
  (forall now m, none_muted m -> none_muted (f now m).2) -> mutes_nothing (hb_exec db_err clock others f) (fun _ => True).
Proof using Hothers.
  intros Hf w Hw. unfold hb_exec. destruct (db_err _); [done|].
  specialize (Hf (clock (h_calls w)) (seen others w) (Hothers _ _ _ Hw)). by destruct (f _ _) as [a m].
Qed.

Lemma mn_InTx {A} begin (body : Z -> M A) (Q : A -> Prop) : mutes_nothing begin (fun _ => True) -> (forall now, mutes_nothing (body now) Q) ->
  mutes_nothing (InTx db_err clock commit_lost begin body) Q.
Proof.
  intros Hb Hf w Hw. unfold InTx. destruct (db_err (h_calls w)); [done|].
  set (w0 := mkHB _ (h_mons w) _ _). specialize (mn_bind begin (fun _ => body (clock (h_calls w))) _ Q Hb (fun _ _ => Hf _) w0 Hw) as H.
  destruct (bind begin _ w0) as [[a|e|] w1]; [|done|done]. destruct H as [H1 HQ]. destruct (w_aborted _); [done|].
  destruct (db_err (h_calls w1)); [|done]. by destruct (commit_lost _).
Qed.

Lemma insert_unmuted id r m : none_muted m -> hb_muted r = None -> none_muted (<[id := r]> m).
Proof. intros Hm Hr. by apply map_Forall_insert_2. Qed.

Lemma mn_CreateTx c m : mutes_nothing (CreateTx db_err others show new_id c m) (fun _ => True).
Proof using Hothers.
  unfold CreateTx. eapply mn_bind; [apply mn_permit|intros _ _]. eapply mn_bind; [apply mn_ok_or|intros n _].
  apply (mn_bind _ _ (fun _ => True)); [by intros w Hw|intros id _]. eapply mn_bind; [apply mn_need|intros svc _].
  apply (mn_bind _ _ (fun _ => True)); [by intros w Hw|intros limit _].
  eapply mn_bind; [|intros _ _; by apply mn_ret]. apply (mn_stmt _ (fun _ => True)). intros t mons Hm.
  unfold HBInsert. repeat (case_match; simplify_eq; try done). split; [|done]. by apply insert_unmuted.
Qed.

Lemma mn_UpdateTx c m : m_Muted m = EmptyString -> mutes_nothing (UpdateTx db_err others show c m) (fun _ => True).
Proof using Hothers.
  intros Hm. unfold UpdateTx. eapply mn_bind; [apply mn_permit|intros _ _]. eapply mn_bind; [apply mn_ok_or|intros n Hn].
  eapply mn_bind; [apply mn_ok_or|intros id _]. apply (mn_stmt _ (fun _ => True)). intros t mons Hmo.
  assert (m_Muted n = EmptyString) as -> by (unfold MonitorNormalize in Hn; by destruct (Many _); [|injection Hn as <-]).
  unfold HBUpdate. destruct (mons !! id) as [r|]; [|done]. case_match; [|done]. case_match; simplify_eq. split; [|done].
  case_match; simplify_eq. by apply insert_unmuted.
Qed.

Lemma mn_FindOneTx c id : mutes_nothing (FindOneTx db_err others c id) (fun m => m_Muted m = EmptyString).
Proof using Hothers.
  unfold FindOneTx. eapply mn_bind; [apply mn_permit|intros _ _]. eapply mn_bind; [apply mn_ok_or|intros i _].
  eapply mn_bind; [apply (mn_stmt _ (fun o => forall r, o = Some r -> hb_muted r = None))|].
  - intros t m Hm. split; [done|]. intros r Hr. by apply (Hm i).
  - intros [r|] Hr; [|apply mn_fail]. apply mn_ret. cbn. by rewrite (Hr r).
Qed.

Lemma mn_on_alerts {A} (m : HBWorld -> Effects.M AlertDB.World AErr A) : mutes_nothing (fun w => on_alerts (m w) w) (fun _ => True).
Proof. intros w Hw. unfold on_alerts. by destruct (m w (h_db w)) as [[a|e|] d]. Qed.

Lemma mn_fetch p s : mutes_nothing (fetch db_err others held p s) (fun _ => True).
Proof using Hothers.
  intros w Hw. refine (mn_stmt _ (fun _ => True) _ w Hw). intros t m Hm. split; [|done]. intros id r.
  rewrite set_states_lookup. destruct (bool_decide _); [|apply Hm]. intros (x & Hx & ->)%fmap_Some. exact (Hm id x Hx).
Qed.

Lemma mn_acquire : mutes_nothing (acquire db_err adv_lock others) (fun _ => True).
Proof using Hothers.
  unfold acquire. apply (mn_bind _ _ (fun _ => True)).
  - intros w Hw. by refine (mn_stmt _ (fun _ => True) _ w Hw).
  - intros got _. destruct got; [|apply mn_fail]. intros w Hw.
    pose proof (mn_stmt (fun _ m => inl (tt, m, ∅)) (fun _ => True) ltac:(done) w Hw) as H.
    by destruct (hb_stmt _ _ _ _) as [[u|e|] w'].
Qed.

Lemma mn_raise_all c now bad : mutes_nothing (raise_all dir db_err wait local zone_name c now bad) (fun _ => True).
Proof.
  induction bad as [|r bad IH]; cbn [raise_all]; [by apply mn_ret|]. case_match; [done|].
  eapply mn_bind; [apply mn_on_alerts|]. intros [a isNew] _. destruct isNew; [|done].
  eapply mn_bind; [apply mn_need|]. intros a' _. eapply mn_bind; [apply IH|]. intros l _. by apply mn_ret.
Qed.

Lemma mn_close_all c now good : mutes_nothing (close_all dir db_err wait c now good) (fun _ => True).
Proof.
  unfold close_all. induction good as [|r good IH]; cbn [each]; [by apply mn_ret|].
  apply (mn_bind _ _ (fun _ => True)); [|intros _ _; apply IH].
  eapply mn_bind; [apply mn_on_alerts|]. intros a _. by apply mn_ret.
Qed.

Lemma mn_processAll c : mutes_nothing (processAll dir db_err adv_lock clock wait commit_lost others held local zone_name c) (fun _ => True).
Proof using Hothers.
  unfold processAll. eapply mn_bind; [apply mn_permit|intros _ _]. apply mn_InTx; [apply mn_acquire|]. intros now.
  unfold unhealthy, healthy. repeat first [ apply mn_fetch | apply mn_raise_all | apply mn_close_all
    | apply (mn_bind _ _ (fun _ => True)); [|intros ? _] | by apply mn_ret ].
Qed.

(** ** Histories *)

Inductive HBRequest :=
  | CreateRequest (input : CreateHeartbeatMonitorInput)
  | UpdateRequest (input : UpdateHeartbeatMonitorInput)
  | DeleteRequest (ids : list string)
  | HeartbeatRequest (id : string)
  | EngineRun.

Definition hb_handle (r : Ctx * HBRequest) : M unit := fun w =>
  let c := r.1 in
  let finish {A} (x : res AErr A * HBWorld) := (Ok tt, x.2) in
  match r.2 with
  | CreateRequest input => finish (CreateHeartbeatMonitor db_err clock commit_lost others show new_id c false input w)
  | UpdateRequest input => finish (UpdateHeartbeatMonitor db_err clock commit_lost others show c false input w)
  | DeleteRequest ids => finish (withContextTx db_err clock commit_lost false (DeleteTx db_err others c ids) w)
  | HeartbeatRequest id => finish (RecordHeartbeat db_err clock others id w)
  | EngineRun => finish (processAll dir db_err adv_lock clock wait commit_lost others held local zone_name c w)
  end.

Lemma mn_finish {A} (m : M A) (Q : A -> Prop) : mutes_nothing m Q -> forall w, sound w -> sound (m w).2.
Proof. intros Hm w Hw. specialize (Hm w Hw). destruct (m w) as [[a|e|] w']; naive_solver. Qed.

Lemma delete_unmuted ids m : none_muted m -> none_muted (foldr delete m ids).
Proof. intros Hm. induction ids as [|i ids IH]; cbn; [done|]. by apply map_Forall_delete. Qed.

(** Through any requests and runs of the engine no monitor is muted, whatever
    [muted] they ask for, if none was and nobody else mutes one. *)
Theorem requests_mute_nothing l w (Hw : sound w) : sound (each hb_handle l w).2.
Proof using Hothers.
  revert w Hw. induction l as [|[c r] l IH]; intros w Hw; [done|]. cbn [each]. unfold bind.
  assert (sound (hb_handle (c, r) w).2 /\ (hb_handle (c, r) w).1 = Ok tt) as [H1 H2].
  { split; [|by destruct r]. destruct r; unfold hb_handle; cbn [fst snd].
    - eapply mn_finish; [|done]. apply mn_InTx; [by apply mn_ret|]. intros _. apply mn_CreateTx.
    - eapply mn_finish; [|done]. apply mn_InTx; [by apply mn_ret|]. intros _.
      eapply mn_bind; [apply mn_FindOneTx|]. intros hb Hhb. by apply mn_UpdateTx.
    - eapply mn_finish; [|done]. apply mn_InTx; [by apply mn_ret|]. intros _. unfold DeleteTx.
      eapply mn_bind; [apply mn_permit|intros _ _]. eapply mn_bind; [apply mn_ok_or|intros ids' _].
      apply (mn_stmt _ (fun _ => True)). intros t m Hm. split; [|done]. by apply delete_unmuted.
    - eapply mn_finish; [|done]. unfold RecordHeartbeat. eapply mn_bind; [apply mn_ok_or|intros i _].
      apply mn_exec. intros now m Hm j r Hr. cbn in Hr. unfold HBRecordHeartbeat in Hr.
      apply lookup_alter_Some in Hr as [(-> & x & Hx & ->)|[_ Hr]]; [exact (Hm _ _ Hx)|exact (Hm _ _ Hr)].
    - eapply mn_finish; [apply mn_processAll|done]. }
  destruct (hb_handle (c, r) w) as [[u|e|] w1]; [|done|done]. by apply IH.
Qed.

(** A heartbeat for a monitor that does not exist is answered like any other. *)
Theorem unknown_heartbeat_accepted id w (Hi : is_uuid id) (He : db_err (h_calls w) = None) (Hn : seen others w !! id = None) :
  (RecordHeartbeat db_err clock others (uuid_String id) w).1 = Ok tt /\
  h_mons (RecordHeartbeat db_err clock others (uuid_String id) w).2 = seen others w.
Proof.
  unfold RecordHeartbeat. assert (ParseUUID "MonitorID" (uuid_String id) = inl id) as ->.
  { unfold ParseUUID, ValidUUID. by rewrite uuid_String_length, (uuid_Parse_String id Hi). }
  unfold ok_or. rewrite bind_ret. unfold hb_exec. rewrite He. cbn. split; [done|].
  unfold HBRecordHeartbeat. apply map_eq. intros j.
  destruct (decide (id = j)) as [<-|]; [by rewrite lookup_alter_eq, Hn|by rewrite lookup_alter_ne].
Qed.
End Api.

(** ** An administrator who asks for a muted monitor *)

Section witness.
#[local] Existing Instance ascii_unicode.
#[local] Existing Instance nibble_uuid.
#[local] Existing Instance sample_digest.
#[local] Existing Instance sample_registry.
#[local] Existing Instance ordered_map_range.

Definition muted_request : Ctx * HBRequest :=
  (sample_user, CreateRequest (mkCreateInput (Some (uuid_String 10)) "nightly" 5 None (Some "vacation"))).
Definition handle_sample : Ctx * HBRequest -> Effects.M HBWorld AErr unit :=
  hb_handle sample_directory (fun _ => None) (fun _ => true) hb_clock sample_wait (fun _ => false) quiet (fun _ => ∅) UTC
    (fun _ => "UTC") itoa (fun n => 50 + Z.of_nat n).

Lemma requests_mute_nothing_witness :
  let w := (each handle_sample [muted_request; (engine, EngineRun)] (hb_world (Some 5))).2 in
  sound (hb_world (Some 5)) /\ size (h_mons w) = 3%nat /\ sound w.
Proof.
  assert (sound (hb_world (Some 5))) as H0 by (apply (bool_decide_unpack _); vm_compute; exact I).
  split; [exact H0|]. split; [vm_compute; reflexivity|].
  apply (requests_mute_nothing sample_directory (fun _ => None) (fun _ => true) hb_clock sample_wait (fun _ => false) quiet (fun _ => ∅)
    UTC (fun _ => "UTC") itoa (fun n => 50 + Z.of_nat n)); [by intros|exact H0].
Defined.
End witness.
