(* ===== verification/ErrorMap.v ===== *)
(** * Errors of the database and of HTTP: [util/errutil], [limit]

    [MapDBError] turns what a constraint or a trigger refuses into an error for the
    client, and [HTTPError] chooses the status of the answer.  As in [Retry], an
    error is the links of its chain, with what these functions look for. *)

From S2P Require Import Prelude Text Unicode Database Permission Validate AlertData AlertDB Retry.

Local Open Scope string_scope.
Local Open Scope Z_scope.

(** ** Limits: [limit/id.go] *)

Definition limit_ids : list string :=
  ["notification_rules_per_user"; "contact_methods_per_user"; "ep_steps_per_policy"; "ep_actions_per_step";
   "participants_per_rotation"; "rules_per_schedule"; "integration_keys_per_service"; "unacked_alerts_per_service";
   "targets_per_schedule"; "heartbeat_monitors_per_service"; "user_overrides_per_schedule"; "calendar_subscriptions_per_user";
   "pending_signals_per_service"; "pending_signals_per_dest_per_service"].

(** [ID.Valid] *)
Definition limit_valid (id : string) : bool := match OneOf "LimitID" id limit_ids with None => true | Some _ => false end.

(** ** Errors *)

(** [sqlutil.Error] *)
Record SqlErr := mkSql { sq_code : string; sq_constraint : string; sq_table : string; sq_hint : string; sq_detail : string }.

Record hlink := mkHLink {
  h_link : link;
  h_sql : option SqlErr;           (** the fields of a [pgconn.PgError] *)
  h_permission : option bool;      (** is a [permission.Error], and whether unauthorized *)
  h_limit_err : option (string * Z);   (** is a [limitErr] *)
  h_body_limit : bool;             (** [http.MaxBytesError] *)
  h_queue_full : bool;             (** [ctxlock.ErrQueueFull] *)
  h_lock_timeout : bool;           (** [ctxlock.ErrTimeout] *)
  h_tx_done : bool                 (** [sql.ErrTxDone] *)
}.

Definition of_link (l : link) : hlink := mkHLink l None None None false false false false.
Definition client_link : link := mkLink false false false false (Some true) false None None None None.

Definition FieldErr (fname reason : string) : hlink :=
  of_link (mkLink false false false false (Some true) false None None None (Some reason)).
Definition GenericErr (message : string) : hlink := of_link client_link.
Definition LimitErr (id : string) (max : Z) : hlink := mkHLink client_link None None (Some (id, max)) false false false false.

(** [errors.As] for these types *)
Definition HAs {A} (f : hlink -> option A) (err : list hlink) : option A := first_some f err.
Definition HIs (f : hlink -> bool) (err : list hlink) : bool := existsb f err.

(** ** [limiterror.go] *)

Definition mapLimitError (s : SqlErr) : option (string * Z) :=
  if negb (HasPrefix (sq_hint s) "max=") then None
  else if negb (HasSuffix (sq_constraint s) "_limit") then None
  else
    let id := TrimSuffix (sq_constraint s) "_limit" in
    if negb (limit_valid id) then None
    else match Atoi (TrimPrefix (sq_hint s) "max=") with Some m => Some (id, m) | None => None end.

(** [limitErr.Error] *)
Definition limit_text (id : string) : string :=
  let texts := ["too many notification rules"; "too many contact methods"; "too many steps on this policy";
    "too many actions on this step"; "too many participants on this rotation"; "too many rules on this schedule";
    "too many integration keys on this service"; "too many unacknowledged alerts for this service";
    "too many targets on this schedule"; "too many heartbeat monitors on this service"; "too many user overrides on this schedule";
    "too many calendar subscriptions for this user"; "too many pending signals for this service";
    "too many pending signals for this destination on this service"] in
  match List.find (fun x => String.eqb x.1 id) (zip limit_ids texts) with Some (_, t) => t | None => "exceeded limit" end.

(** ** [maperror.go] *)

(** A [switch] over the name of the constraint *)
Definition lookup_case (cases : list (string * hlink)) (k : string) : option hlink :=
  match List.find (fun x => String.eqb x.1 k) cases with Some (_, e) => Some e | None => None end.

Definition fkey_cases : list (string * hlink) :=
  [("schedule_rules_tgt_rotation_id_fkey", FieldErr "RotationID" "rotation does not exist");
   ("user_calendar_subscriptions_user_id_fkey", FieldErr "UserID" "user does not exist");
   ("user_calendar_subscriptions_schedule_id_fkey", FieldErr "ScheduleID" "schedule does not exist");
   ("schedule_data_schedule_id_fkey", FieldErr "ScheduleID" "schedule does not exist");
   ("user_overrides_add_user_id_fkey", FieldErr "AddUserID" "user does not exist");
   ("user_overrides_remove_user_id_fkey", FieldErr "RemoveUserID" "user does not exist");
   ("user_overrides_tgt_schedule_id_fkey", FieldErr "TargetID" "schedule does not exist");
   ("alerts_services_id_fkey", FieldErr "ServiceID" "service does not exist");
   ("schedule_rules_tgt_user_id_fkey", FieldErr "TargetID" "user does not exist");
   ("rotation_participants_user_id_fkey", FieldErr "UserID" "user does not exist");
   ("auth_basic_users_user_id_fkey", FieldErr "UserID" "user does not exist")].

Definition unique_case (e : SqlErr) : option hlink :=
  let c := sq_constraint e in
  if String.eqb c "idx_int_key_name_svc_ext" then Some (FieldErr "Name" "already in use")
  else if String.eqb c "auth_basic_users_username_key" then Some (FieldErr "Username" "already in use")
  else if HasPrefix c (sq_table e ++ "_name") then Some (FieldErr "Name" "already in use")
  else lookup_case
    [("user_contact_methods_type_value_key", FieldErr "Value" "contact method already exists for that type and value");
     ("user_notification_rules_contact_method_id_delay_minutes_key",
        FieldErr "DelayMinutes" "notification rule already exists for that delay and contact method");
     ("heartbeat_monitor_name_service_id", FieldErr "Name" "heartbeat monitor already exists with that name");
     ("idx_no_alert_duplicates", FieldErr "" "duplicate alert already exists");
     ("auth_basic_users_pkey", FieldErr "UserID" "already has a basic auth username configured");
     ("epa_no_duplicate_schedules", GenericErr "same schedule cannot be assigned twice to the same step");
     ("epa_no_duplicate_rotations", GenericErr "same rotation cannot be assigned twice to the same step");
     ("epa_no_duplicate_users", GenericErr "same user cannot be assigned twice to the same step");
     ("epa_no_duplicate_channels", GenericErr "same destination cannot be assigned twice to the same step")] c.

Definition check_case (e : SqlErr) : option hlink :=
  match mapLimitError e with
  | Some (id, m) => Some (LimitErr id m)
  | None => lookup_case
      [("user_overrides_check2", FieldErr "AddUserID" "cannot be the same as the user being replaced");
       ("user_override_no_conflict_allowed",
          FieldErr "UserID" ("cannot override the same user twice at the same time, check existing overrides; " ++ sq_hint e));
       ("alert_status_user_id_match", FieldErr "AlertStatusCMID" "contact method is for wrong user");
       ("notification_rule_user_id_match", FieldErr "UserID" "contact method is for wrong user")] (sq_constraint e)
  end.

Definition policy_case (e : SqlErr) : option hlink :=
  if String.eqb (sq_constraint e) "services_escalation_policy_id_fkey" then
    if Contains (sq_detail e) "is still referenced" then Some (FieldErr "EscalationPolicyID" "is currently in use")
    else if Contains (sq_detail e) "is not present" then Some (FieldErr "EscalationPolicyID" "does not exist")
    else None
  else None.

Definition MapDBError (err : list hlink) : list hlink :=
  match HAs h_sql err with
  | None => err
  | Some e =>
      let by_code :=
        if String.eqb (sq_code e) "23503" then lookup_case fkey_cases (sq_constraint e)
        else if String.eqb (sq_code e) "23505" then unique_case e
        else if String.eqb (sq_code e) "23514" then check_case e
        else None in
      match by_code with
      | Some l => [l]
      | None => match policy_case e with Some l => [l] | None => err end
      end
  end.

(** ** [httperror.go] *)

Definition isCancel (err : list hlink) : bool :=
  HIs (fun l => l_canceled (h_link l)) err || HIs h_tx_done err ||
  match HAs h_sql err with Some e => String.eqb (sq_code e) "57014" | None => false end.

Definition IsUnauthorized (err : list hlink) : bool := match HAs h_permission err with Some u => u | None => false end.
Definition IsPermissionError (err : list hlink) : bool := match HAs h_permission err with Some _ => true | None => false end.
Definition is_client (err : list hlink) : bool := match HAs (fun l => l_client (h_link l)) err with Some b => b | None => false end.
Definition IsLimitError (err : list hlink) : bool := match HAs h_limit_err err with Some _ => true | None => false end.

(** The status that is written *)
Definition HTTPError (err : list hlink) : Z :=
  let err := MapDBError err in
  if HIs h_body_limit err then 413
  else if HIs h_queue_full err then 429
  else if HIs h_lock_timeout err then 408
  else if isCancel err then 499
  else if IsUnauthorized err then 401
  else if IsPermissionError err then 403
  else if is_client err then 400
  else if IsLimitError err then 409
  else if HIs (fun l => l_deadline (h_link l)) err then 504
  else 500.

(** [ScrubError]: whether the error is replaced *)
Definition ScrubError (err : list hlink) : bool := negb (is_client err).

(** ** The errors of the alert store *)

(** [details] are the other fields of an error of the driver, [other] its errors
    that are not from the database server. *)
Definition chain_of (details : string -> string -> SqlErr) (other : link) (e : AErr) : list hlink :=
  match e with
  | EValid (OtherError _) | EGeneric _ | ELog _ | EAborted => [of_link plain]
  | EValid _ | EClosed _ | EAcked _ => [of_link client_link]
  | EDenied d => [mkHLink client_link None (Some (unauthorized d)) None false false false false]
  | EPg (PgErr code k) =>
      [mkHLink (mkLink false false false false None false None (Some code) None None) (Some (details code k)) None None false false false false]
  | EPg OtherErr => [of_link other]
  | EPg _ => [of_link plain]
  end.

Definition retry_error (err : list hlink) : error := mkErr "" (map h_link err).

(** ** What the mapping does *)

Lemma limit_valid_in id : id ∈ limit_ids -> limit_valid id = true.
Proof.
  intros Hid. unfold limit_valid, OneOf. destruct (existsb _ _) eqn:E; [done|].
  rewrite <- not_true_iff_false, existsb_exists in E. destruct E. exists id. split; [by apply list_elem_of_In|apply String.eqb_refl].
Qed.

(** Every class of client error in the program answers [true]. *)
Definition clients_true (err : list hlink) : Prop := Forall (fun l => l_client (h_link l) <> Some false) err.
Definition limits_are_clients (err : list hlink) : Prop :=
  Forall (fun l => is_Some (h_limit_err l) -> l_client (h_link l) = Some true) err.

Lemma is_client_in err l : clients_true err -> l ∈ err -> l_client (h_link l) = Some true -> is_client err = true.
Proof.
  unfold is_client, HAs. induction 1 as [|x err Hx Herr IH]; [by intros ?%not_elem_of_nil|].
  intros [->|Hin]%elem_of_cons Hl; cbn [first_some]; [by rewrite Hl|].
  destruct (l_client (h_link x)) as [[]|]; [done|done|by apply IH].
Qed.

Lemma IsLimitError_in err : IsLimitError err = true -> exists l, l ∈ err /\ is_Some (h_limit_err l).
Proof.
  unfold IsLimitError, HAs. induction err as [|x err IH]; [done|]. cbn [first_some].
  destruct (h_limit_err x) as [y|] eqn:E; [intros _; exists x; split; [by left|by eexists]|].
  intros H. destruct (IH H) as (l & Hl & Hs). exists l. split; [by right|done].
Qed.

Lemma lookup_case_client cases k l : Forall (fun x => l_client (h_link x.2) = Some true) cases ->
  lookup_case cases k = Some l -> l_client (h_link l) = Some true.
Proof.
  unfold lookup_case. intros HF. destruct (List.find _ _) as [[n e]|] eqn:E; [|done]. intros [= <-].
  apply find_some in E as [E _]. rewrite Forall_forall in HF. exact (HF (n, e) (proj2 (list_elem_of_In _ _) E)).
Qed.

Lemma mapped_client e l :
  (if String.eqb (sq_code e) "23503" then lookup_case fkey_cases (sq_constraint e)
   else if String.eqb (sq_code e) "23505" then unique_case e
   else if String.eqb (sq_code e) "23514" then check_case e else None) = Some l \/ policy_case e = Some l ->
  l_client (h_link l) = Some true.
Proof.
  assert (forall fname reason, l_client (h_link (FieldErr fname reason)) = Some true) as HF by done.
  unfold unique_case, check_case, policy_case. intros [H|H]; revert H.
  - repeat case_match; try done; try (by intros [= <-]); apply lookup_case_client; repeat constructor.
  - repeat case_match; try done; by intros [= <-].
Qed.

(** A limit that a trigger enforces is an error for the client: its status is that
    of any bad request. *)
Theorem limits_are_bad_requests id max table detail (Hid : id ∈ limit_ids) (Hmax : Text.int64 max = true) :
  let pg := mkHLink plain (Some (mkSql "23514" (id ++ "_limit") table ("max=" ++ itoa max) detail)) None None false false false false in
  MapDBError [pg] = [LimitErr id max] /\ HTTPError [pg] = 400.
Proof.
  intros pg. assert (MapDBError [pg] = [LimitErr id max]) as E.
  { unfold MapDBError, pg. cbn [HAs first_some h_sql]. unfold check_case, mapLimitError. cbn [sq_code sq_hint sq_constraint].
    change (String.eqb "23514" "23503") with false. change (String.eqb "23514" "23505") with false. change (String.eqb "23514" "23514") with true.
    cbv iota. assert (HasPrefix ("max=" ++ itoa max) "max=" = true) as -> by (unfold HasPrefix; by rewrite strip_prefix_self).
    rewrite HasSuffix_self, TrimSuffix_self, limit_valid_in by done. cbn [negb].
    by rewrite TrimPrefix_app, Atoi_itoa. }
  split; [exact E|]. unfold HTTPError. by rewrite E.
Qed.

(** The status for limits is never written. *)
Theorem conflict_is_never_answered err : clients_true err -> limits_are_clients err -> HTTPError err <> 409.
Proof.
  intros HC HL. unfold HTTPError. set (err' := MapDBError err).
  assert (clients_true err' /\ limits_are_clients err') as [HC' HL'].
  { unfold err', MapDBError. destruct (HAs h_sql err) as [e|]; [|done]. destruct (if String.eqb _ _ then _ else _) as [l|] eqn:E1;
      [|destruct (policy_case e) as [l|] eqn:E2; [|done]].
    all: assert (l_client (h_link l) = Some true) as Hl by (apply (mapped_client e); auto);
      split; (constructor; [rewrite Hl; done|constructor]). }
  destruct (IsLimitError err') eqn:EL.
  - apply IsLimitError_in in EL as (l & Hin & Hs). unfold limits_are_clients in HL'. rewrite Forall_forall in HL'.
    rewrite (is_client_in err' l HC' Hin (HL' l Hin Hs)). by repeat case_match.
  - by repeat case_match.
Qed.
