(* ===== verification/Webhooks.v ===== *)
(** * Webhooks that raise alerts: [genericapi], [grafana], [site24x7],
      [prometheusalertmanager]

    Each handler takes the service from the context, builds an alert from the
    request and creates or closes it, retrying errors that may be temporary.  A
    request is what the handler reads of it: form values, and the body as decoded
    by [encoding/json]. *)

From Stdlib Require Import Ascii.
From S2P Require Import Prelude Text Effects Database GoTime Escalation Unicode Validate Permission AlertData AlertDB AlertLog AlertStore Retry ErrorMap.

Local Open Scope string_scope.
Local Open Scope Z_scope.

(** ** Retrying an operation of the store *)

Section retrying.
Context (details : string -> string -> SqlErr) (other : link) (intn : nat -> Z).

Local Notation M := (Effects.M AlertDB.World AErr).

Definition chain (e : AErr) : list hlink := chain_of details other e.

(** An attempt: what it returned is kept next to the database. *)
Definition attempt {A} (m : M A) (_ : nat) (s : AlertDB.World * option (res AErr A)) :=
  let '(r, w) := m s.1 in
  (match r with Err e => Some (retry_error (chain e)) | _ => None end, (w, Some r)).

(** [retry.DoTemporaryError] with [retry.Log], [retry.Limit(lim)] and
    [retry.FibBackoff(time.Second)] *)
Definition retried {A} (lim : Z) (m : M A) : M A := fun w =>
  match DoTemporaryError (S (Z.to_nat lim)) (attempt m) [Log; Limit lim; FibBackoff intn Second] (w, None) with
  | Some (_, (w', Some r), _) => (r, w')
  | _ => (Panic, w)
  end.
End retrying.

(** ** Payloads *)

(** [url_Parse] is the scheme and the host of [url.Parse]. *)
Section Payloads.
Context {HU : Unicode} (url_Parse : string -> option (string * string)).

(** [validate.AbsoluteURL] *)
Definition AbsoluteURL (s : string) : bool :=
  match url_Parse s with Some (scheme, host) => negb (String.eqb scheme "") && negb (String.eqb host "") | None => false end.

Definition trim_text (s : string) : string := text (TrimSpace (runes s)).
Definition two_lines : string := newline_text ++ newline_text.

Definition hook_alert (source service summary details status : string) (dedup : option DedupID) : Alert :=
  mkAlert 0 status summary details source service zero_inst dedup.

(** *** [genericapi/handler.go] *)

Record GenericBody := mkGenericBody {
  gb_Summary : option string; gb_Details : option string; gb_Action : option string; gb_Dedup : option string;
  gb_Meta : option (gmap string string)
}.

(** [gq_json]: [None] if the body is not JSON, else what was decoded or the error *)
Record GenericRequest := mkGenericRequest {
  gq_form : string -> string; gq_meta : list string; gq_json : option (GenericBody + list hlink); gq_accept_json : bool
}.

Definition form_meta (l : list string) : gmap string string :=
  foldl (fun m v => match cut "=" v with Some (key, val) => <[key := val]> m | None => m end) ∅ l.

Definition empty_body : GenericBody := mkGenericBody None None None None None.

Definition generic_alert (serviceID : string) (form : string -> string) (b : GenericBody) : Alert :=
  let summary := default (form "summary") (gb_Summary b) in
  let details := default (form "details") (gb_Details b) in
  let dedup := default (form "dedup") (gb_Dedup b) in
  let action := default (form "action") (gb_Action b) in
  hook_alert "generic" serviceID (SanitizeText summary MaxSummaryLength) (SanitizeText details MaxDetailsLength)
    (if String.eqb action "close" then StatusClosed_ else StatusTriggered_) (NewUserDedup dedup).

(** *** [site24x7/site24x7.go] *)

Record post := mkPost { MonitorDashboardURL : string; p_Status : string; MonitorName : string }.

Definition site24x7_status (s : string) : option string :=
  if existsb (String.eqb s) ["DOWN"; "CRITICAL"; "TROUBLE"] then Some StatusTriggered_
  else if String.eqb s "UP" then Some StatusClosed_ else None.

Definition site24x7_alert (serviceID dedup : string) (g : post) (status : string) : Alert :=
  let urlStr := if AbsoluteURL (MonitorDashboardURL g) then MonitorDashboardURL g else "" in
  let body := trim_text (urlStr ++ two_lines ++ MonitorName g) in
  hook_alert "site24x7" serviceID (SanitizeText (MonitorName g) MaxSummaryLength) (SanitizeText body MaxDetailsLength) status
    (NewUserDedup dedup).

(** *** [grafana/grafana.go] *)

Record Legacy := mkLegacy {
  gl_RuleName : string; gl_Message : string; gl_State : string; gl_RuleURL : string; gl_ImageURL : string
}.

(** No alert for [no_data]; [None] is an error. *)
Definition alertsFromLegacy (serviceID dedup : string) (g : Legacy) : option (list Alert) :=
  let mk status :=
    let urlStr := if AbsoluteURL (gl_RuleURL g) then gl_RuleURL g else "" in
    let body := trim_text (urlStr ++ two_lines ++ gl_Message g) in
    let body := if AbsoluteURL (gl_ImageURL g) then body ++ two_lines ++ "![Panel Snapshot](" ++ gl_ImageURL g ++ ")" else body in
    [hook_alert "grafana" serviceID (SanitizeText (gl_RuleName g) MaxSummaryLength) (SanitizeText body MaxDetailsLength) status
       (NewUserDedup dedup)] in
  if String.eqb (gl_State g) "alerting" then Some (mk StatusTriggered_)
  else if String.eqb (gl_State g) "ok" then Some (mk StatusClosed_)
  else if String.eqb (gl_State g) "no_data" then Some [] else None.

Record V1Alert := mkV1 {
  v_Status : string; v_Labels : gmap string string; v_Annotations : gmap string string; v_ValueString : string;
  v_Fingerprint : string; v_GeneratorURL : string; v_SlienceURL : string; v_ImageURL : string
}.

(** [strings.ReplaceAll] of one character *)
Fixpoint replace_char (c : ascii) (by_ s : string) : string :=
  match s with
  | "" => ""
  | String a s => if Ascii.eqb a c then by_ ++ replace_char c by_ s else String a (replace_char c by_ s)
  end.

Definition escapeTableCell (s : string) : string := replace_char "|" "\|" (replace_char (ascii_of_nat 10) "<br />" s).

Definition backtick : string := String (ascii_of_nat 96) "".

Fixpoint fence (fuel : nat) (s delim : string) : string :=
  match fuel with
  | O => delim
  | S fuel => if Contains s delim then fence fuel s (delim ++ backtick) else delim
  end.

(** [codeBlock]; a delimiter longer than the text is not in it. *)
Definition code_fence (s : string) : string := fence (S (String.length s)) s (backtick ++ backtick ++ backtick).
Definition codeBlock (s : string) : string := code_fence s ++ newline_text ++ s ++ newline_text ++ code_fence s.

(** A template ranges over a map in the order of its keys. *)
Definition key_le (x y : string * string) : Prop := String.leb x.1 y.1 = true.
#[global] Instance key_le_dec : RelDecision key_le.
Proof. intros x y. unfold key_le. exact _. Defined.

Definition table (title rule : string) (m : gmap string string) : string :=
  if bool_decide (m = ∅) then ""
  else
    newline_text ++ "| " ++ title ++ " | Value |" ++ newline_text ++ "| " ++ rule ++ " | ----- |" ++
    foldr String.append "" (map (fun '(k, v) => newline_text ++ "| " ++ k ++ " | " ++ escapeTableCell v ++ " |") (merge_sort key_le (map_to_list m))).

(** [detailsTmpl] *)
Definition detailsTmpl (a : V1Alert) : string :=
  let if_ (s t : string) := if String.eqb s "" then "" else t in
  table "Label" "-----" (v_Labels a) ++ table "Annotation" "----------" (v_Annotations a) ++ newline_text ++ two_lines ++
  if_ (v_GeneratorURL a) ("Source: " ++ v_GeneratorURL a) ++ two_lines ++
  if_ (v_SlienceURL a) ("Silence: " ++ v_SlienceURL a) ++ two_lines ++
  if_ (v_ImageURL a) ("![Panel Snapshot](" ++ v_ImageURL a ++ ")") ++ two_lines ++
  codeBlock (v_ValueString a) ++ newline_text.

Definition v1_status (s : string) : option string :=
  if String.eqb s "firing" then Some StatusTriggered_ else if String.eqb s "resolved" then Some StatusClosed_ else None.

Fixpoint alertsFromV1 (serviceID : string) (l : list V1Alert) : option (list Alert) :=
  match l with
  | [] => Some []
  | a :: l =>
      alertStatus ← v1_status (v_Status a);
      let summary := default "" (v_Annotations a !! "summary") in
      let summary := if String.eqb summary "" then default "" (v_Labels a !! "alertname") else summary in
      let x := hook_alert "grafana" serviceID (SanitizeText summary MaxSummaryLength)
                 (SanitizeText (detailsTmpl a) MaxDetailsLength) alertStatus (NewUserDedup (v_Fingerprint a)) in
      rest ← alertsFromV1 serviceID l;
      Some (x :: rest)
  end.

(** *** [prometheusalertmanager/prometheusalertmanager.go] *)

Record postBodyAlert := mkPBA {
  pa_AlertName : string; pa_Instance : string; pa_Summary : string; pa_Details : string; pa_GeneratorURL : string
}.

Record postBody := mkPB {
  pb_Status : string; pb_ExternalURL : string; pb_Alerts : list postBodyAlert; pb_Instance : string; pb_AlertName : string;
  pb_Summary : string; pb_Details : string
}.

Definition alert_Summary (a : postBodyAlert) : string :=
  if String.eqb (pa_Summary a) "" then pa_AlertName a ++ " " ++ pa_Instance a else pa_Summary a.
Definition gen (a : postBodyAlert) : string :=
  if String.eqb (pa_GeneratorURL a) "" then "" else " [View](" ++ pa_GeneratorURL a ++ ")".
Definition alert_Details (a : postBodyAlert) : string :=
  if String.eqb (pa_Details a) "" then alert_Summary a ++ gen a else pa_Details a ++ gen a.

(** [postBody.Summary]: [b.Alerts[0]] of no alerts is a panic. *)
Definition body_Summary (b : postBody) : option string :=
  if negb (String.eqb (pb_Summary b) "") then Some (pb_Summary b)
  else if String.eqb (pb_AlertName b) "" then
    a ← head (pb_Alerts b);
    Some (alert_Summary a ++ " and " ++ itoa (Z.of_nat (length (pb_Alerts b)) - 1) ++ " others")
  else if negb (String.eqb (pb_Instance b) "") then Some (pb_AlertName b ++ " " ++ pb_Instance b)
  else Some (pb_AlertName b ++ " " ++ join "," (map pa_Instance (pb_Alerts b))).

Definition body_Details (b : postBody) (payload : string) : string :=
  (if String.eqb (pb_ExternalURL b) "" then "" else "[Prometheus Alertmanager UI](" ++ pb_ExternalURL b ++ ")" ++ two_lines) ++
  (if String.eqb (pb_Details b) "" then foldr String.append "" (map (fun a => alert_Details a ++ two_lines) (pb_Alerts b))
   else pb_Details b ++ two_lines) ++
  (if String.eqb payload "" then ""
   else "## Payload" ++ two_lines ++ "```json" ++ newline_text ++ payload ++ newline_text ++ "```" ++ newline_text).

Definition prometheus_alert (serviceID : string) (b : postBody) (payload status : string) : option Alert :=
  s ← body_Summary b;
  let summary := SanitizeText s MaxSummaryLength in
  Some (hook_alert "prometheusAlertmanager" serviceID summary (SanitizeText (body_Details b payload) MaxDetailsLength) status
          (NewUserDedup summary)).
End Payloads.

(** ** Handlers *)

Section Handlers.
Context {HU : Unicode} {HT : UUIDText} {HD : Digest} {HG : Registry} {HR : GoMapRange}.
Context (dir : Directory).
Context (db_err : nat -> option DBErr) (clock : nat -> Z) (wait : nat -> Z -> Tables -> Z * Tables) (commit_lost : nat -> bool).
Context (details : string -> string -> SqlErr) (other : link) (intn : nat -> Z).
Context (url_Parse : string -> option (string * string)).

Local Notation M := (Effects.M AlertDB.World AErr).
Local Notation chain := (chain details other).
Local Notation create c a meta := (createOrUpdate dir db_err clock wait commit_lost c a meta None).
Local Notation retried := (retried details other intn).

(** What a handler answers: the status, and the body of the generic API. *)
Definition Answer : Type := Z * option (Z * string * bool).

(** [errutil.HTTPError] of an error of the store; a panic is not answered. *)
Definition answer {A} (m : M A) (k : A -> M Answer) : M Answer := fun w =>
  match m w with
  | (Ok a, w) => k a w
  | (Err e, w) => (Ok (HTTPError (chain e), None), w)
  | (Panic, w) => (Panic, w)
  end.

Definition authorized (c : Ctx) (k : M Answer) : M Answer := answer (check (LimitCheckAny c [Some Permission.Service])) (fun _ => k).

(** [Handler.ServeCreateAlert] *)
Definition ServeCreateAlert (c : Ctx) (r : GenericRequest) : M Answer :=
  authorized c (
    match (match gq_json r with Some (inr e) => inr e | Some (inl b) => inl b | None => inl empty_body end) with
    | inr e => ret (HTTPError e, None)
    | inl b =>
        let a := generic_alert (Permission.ServiceID c) (gq_form r) b in
        let meta := default (form_meta (gq_meta r)) (gb_Meta b) in
        answer (retried 10 (create c a (Some meta))) (fun x =>
          let resp := match x.1 with Some n => (ID n, ServiceID n, x.2) | None => (0, "", false) end in
          ret (if gq_accept_json r then (200, Some resp) else (204, None)))
    end).

(** [Site24x7ToEventsAPI]; the body is [None] if it cannot be decoded. *)
Definition Site24x7ToEventsAPI (c : Ctx) (body : option post) (dedup : string) : M Answer :=
  authorized c (
    match body with
    | None => ret (400, None)
    | Some g =>
        match site24x7_status (p_Status g) with
        | None => ret (400, None)
        | Some status => answer (retried 10 (create c (site24x7_alert url_Parse (Permission.ServiceID c) dedup g status) None)) (fun _ => ret (200, None))
        end
    end).

(** [PrometheusAlertmanagerEventsAPI] *)
Definition PrometheusAlertmanagerEventsAPI (c : Ctx) (body : option (postBody * string)) : M Answer :=
  authorized c (
    match body with
    | None => ret (400, None)
    | Some (b, payload) =>
        match v1_status (pb_Status b) with
        | None => ret (400, None)
        | Some status =>
            let! msg := need (prometheus_alert (Permission.ServiceID c) b payload status) in
            answer (retried 10 (create c msg None)) (fun _ => ret (200, None))
        end
    end).

(** The payload of Grafana: what reading it failed with, its version, and the body as either version decodes it *)
Record GrafanaRequest := mkGrafana {
  gr_read : option (list hlink); gr_version : option string; gr_legacy : option Legacy; gr_v1 : option (list V1Alert); gr_dedup : string
}.

Definition grafana_alerts (serviceID : string) (r : GrafanaRequest) : option (list Alert) :=
  v ← gr_version r;
  if String.eqb v "1" then l ← gr_v1 r; alertsFromV1 serviceID l
  else if String.eqb v "" then g ← gr_legacy r; alertsFromLegacy url_Parse serviceID (gr_dedup r) g
  else None.

(** The loop over the alerts: whether one has failed *)
Fixpoint create_each (c : Ctx) (alerts : list Alert) : M bool :=
  match alerts with
  | [] => ret false
  | a :: alerts =>
      let! r := try (retried 10 (create c a None)) in
      let! failures := create_each c alerts in
      ret (match r with inl _ => failures | inr _ => true end)
  end.

(** [GrafanaToEventsAPI] *)
Definition GrafanaToEventsAPI (c : Ctx) (r : GrafanaRequest) : M Answer :=
  authorized c (
    match gr_read r, grafana_alerts (Permission.ServiceID c) r with
    | Some e, _ => ret (HTTPError e, None)
    | None, None => ret (400, None)
    | None, Some [] => ret (200, None)
    | None, Some alerts =>
        let! hasFailures := create_each c (take 10 alerts) in
        ret (if (hasFailures : bool) then 500 else 200, None)
    end).
End Handlers.
