(* ===== verification/WebhookSpec.v ===== *)
(** * What the answer of a webhook says

    Creating and closing with a deduplication key is idempotent, so the retries of
    the handlers are safe even when a commit fails that has taken effect: an answer
    of success means that the alert is as the request asks, any other that it is
    as it was, or as the request asks. *)

From Stdlib Require Import Ascii.
From S2P Require Import Prelude Text Effects Database GoTime Escalation Unicode Validate Permission AlertData AlertDB AlertLog AlertStore AlertInvariant AlertStoreSpec AlertDedup AlertDedupSpec Retry ErrorMap Webhooks.

Local Open Scope string_scope.
Local Open Scope Z_scope.

(** ** Retrying *)

Section retrying.
Context (details : string -> string -> SqlErr) (other : link) (intn : nat -> Z).

Local Notation M := (Effects.M AlertDB.World AErr).

Definition temporary (e : AErr) : bool := IsTemporaryError (Some (retry_error (chain details other e))).

(** The database before the attempt [i] *)
Definition before {A} (m : M A) (i : nat) (w : AlertDB.World) : AlertDB.World := Nat.iter i (fun w => (m w).2) w.

Lemma run_attempt {A} (m : M A) k w o :
  run_temp (attempt details other m) (S k) (w, o) =
    (match (m (before m k w)).1 with Err e => Some (retry_error (chain details other e)) | _ => None end,
     ((m (before m k w)).2, Some (m (before m k w)).1)).
Proof.
  assert (forall k o, (run_temp (attempt details other m) k (w, o)).2.1 = before m k w) as HB.
  { induction k0 as [|j IH]; intros o0; [done|]. cbn [run_temp]. specialize (IH o0). unfold attempt at 1. rewrite IH.
    unfold before. rewrite Nat.iter_succ. fold (before m j w). by destruct (m (before m j w)). }
  change (run_temp ?f (S k) ?s) with (f k (run_temp f k s).2). unfold attempt at 1. rewrite HB.
  by destruct (m (before m k w)).
Qed.

(** The answer is that of the last attempt; every attempt before it failed with an
    error that may be temporary, and it did not, unless it is the last allowed. *)
Lemma retried_last {A} lim (m : M A) w (HL : 1 <= lim) :
  exists k, Z.of_nat k < lim /\ retried details other intn lim m w = m (before m k w) /\
    (forall i, (i < k)%nat -> exists e, (m (before m i w)).1 = Err e /\ temporary e = true) /\
    (forall e, (m (before m k w)).1 = Err e -> temporary e = true -> Z.of_nat k + 1 = lim).
Proof.
  destruct (DoTemporaryError_spec (attempt details other m) lim intn Second (S (Z.to_nat lim)) (w, None) HL ltac:(lia))
    as (k & H1 & H2 & E & HR & HE).
  destruct k as [|k]; [lia|]. exists k. split; [lia|]. unfold retried. rewrite E, run_attempt. cbn [fst snd].
  split; [by destruct (m (before m k w))|]. split.
  - intros i Hi. specialize (HR (S i) ltac:(lia)). rewrite run_attempt in HR. cbn [fst] in HR.
    destruct (m (before m i w)).1 as [a|e|]; [done| |done]. by exists e.
  - intros e He Ht. rewrite run_attempt, He in HE. cbn [fst] in HE. unfold temporary in Ht. rewrite Ht in HE. destruct HE; [done|lia].
Qed.

Lemma before_inv {A} (m : M A) (P : AlertDB.World -> Prop) k w : P w -> (forall w, P w -> P (m w).2) -> P (before m k w).
Proof. intros HP Hm. induction k as [|k IH]; [done|]. unfold before in *. cbn. by apply Hm. Qed.
End retrying.

(** ** Creation is idempotent *)

Lemma after_idempotent f1 f2 st o : after f2 st (after f1 st o) = after f1 st o.
Proof. by destruct st, o as [[i s]|]. Qed.

Section idempotence.
Context {HU : Unicode} {HT : UUIDText} {HD : Digest} {HG : Registry} {HR : GoMapRange}.
Context (dir : Directory).
Context (db_err : nat -> option DBErr) (clock : nat -> Z) (wait : nat -> Z -> Tables -> Z * Tables) (commit_lost : nat -> bool).
Context (details : string -> string -> SqlErr) (other : link) (intn : nat -> Z).
Context (url_Parse : string -> option (string * string)).

Local Notation M := (Effects.M AlertDB.World AErr).
Local Notation create c a meta := (createOrUpdate dir db_err clock wait commit_lost c a meta None).

(** What a request is about: the alert, normalized, has service and key [k] and asks
    for the status [st]. *)
Definition asks (a : Alert) (k : UUID * string) (st : AlertStatus) : Prop :=
  exists n svc, Normalize a = inl n /\ uuid_Parse (ServiceID n) = Some svc /\ status_of (Status n) = Some st /\
    k = (svc, Dedup_Value (DedupKey n)).

(** Nobody else opens, changes or closes the alert of that key meanwhile. *)
Definition undisturbed (k : UUID * string) : Prop :=
  forall n seq t, ok seq t -> open_alerts (wait n seq t).2 !! k = open_alerts t !! k.

Context (Hwait : waits_ok wait).

Local Notation at_ k w := (open_alerts (w_tbl w) !! k).

(** The keys that the request changes, and how *)
Definition changed (k : UUID * string) (fresh : Z) (st : AlertStatus) (w w' : AlertDB.World) : Prop :=
  forall k', undisturbed k' -> at_ k' w' = if decide (k' = k) then after fresh st (at_ k' w) else at_ k' w.
Definition unchanged (w w' : AlertDB.World) : Prop := forall k', undisturbed k' -> at_ k' w' = at_ k' w.

Lemma changed_again k f f' st w w' w'' : changed k f st w w' -> changed k f' st w' w'' -> changed k f st w w''.
Proof using.
  intros H1 H2 k' Hk. rewrite (H2 k' Hk), (H1 k' Hk). destruct (decide (k' = k)); [apply after_idempotent|done].
Qed.

Lemma create_body c now a meta k st w o isNew w' : ok (w_seq w) (w_tbl w) -> asks a k st ->
  bind (CreateOrUpdateTxScoped dir db_err wait c now a None) (fun r =>
    (match meta, r with
     | Some _, (Some n, true) => SetMetadataTx db_err c (ID n) meta
     | _, _ => ret tt
     end) ;;; ret r) w = (Ok (o, isNew), w') ->
  exists fresh, changed k fresh st w w'.
Proof using Hwait.
  intros Hw (n & svc & HN & Hsvc & Hst & ->) HE. apply bind_inv in HE as ([o1 n1] & w1 & E1 & HE).
  pose proof (keeps_CreateOrUpdateTxScoped dir db_err wait Hwait c now a None w Hw) as HK. rewrite E1 in HK. destruct HK as (_ & Hok & _). cbn in Hok.
  apply CreateOrUpdateTx_refined in E1 as (n' & svc' & st' & j & seq & t & HN' & Hsvc' & Hst' & Hj & HM & _); [|done..].
  rewrite HN in HN'. injection HN' as <-. rewrite Hsvc in Hsvc'. injection Hsvc' as <-. rewrite Hst in Hst'. injection Hst' as <-.
  assert (ok seq t) as HO by (pose proof (Hwait j _ _ Hw) as (_ & H & _); by rewrite Hj in H).
  destruct (HM _ (open_alerts_represents t (ok_inv _ _ HO))) as [HR' _].
  pose proof (represents_unique _ _ _ (open_alerts_represents _ (ok_inv _ _ Hok)) HR') as EO.
  assert (open_alerts (w_tbl w') = open_alerts (w_tbl w1)) as EA.
  { apply bind_inv in HE as (u & w2 & E2 & [= _ _ <-]). destruct meta as [meta|]; [|by injection E2 as _ ->].
    destruct o1 as [x|]; [|by injection E2 as _ ->]. destruct n1; [|by injection E2 as _ ->].
    apply SetMetadataTx_data in E2 as (m & ->). done. }
  exists seq. intros k' Hk'. rewrite EA, EO, spec_lookup. pose proof (Hk' j _ _ Hw) as HQ. rewrite Hj in HQ. cbn in HQ. rewrite HQ.
  by destruct (decide _) as [->|]; [rewrite HQ|].
Qed.

(** Whatever fails, also a commit that took effect, the alert of the key is as it was
    or as the request asks; after a result it is as the request asks. *)
Lemma create_outcome c a meta k st w : ok (w_seq w) (w_tbl w) -> asks a k st ->
  let r := create c a meta w in
  (exists fresh, changed k fresh st w r.2) \/ (unchanged w r.2 /\ forall x, r.1 <> Ok x).
Proof using Hwait.
  intros Hw Ha. unfold createOrUpdate. destruct (creators c a) as [d|]; [by right|]. cbn [check]. rewrite bind_ret.
  unfold AlertDB.InTx. destruct (db_err (w_calls w)); [by right|]. set (w0 := mkWorld _ _ _ false []).
  destruct (bind _ _ w0) as [[[o isNew]|e|] w1] eqn:E; [|by right|by right].
  apply (create_body c _ a meta k st w0 o isNew w1) in E as [fresh E]; [|done|done].
  destruct (w_aborted w1); [by right|]. destruct (db_err (w_calls w1)); [|left; by exists fresh].
  destruct (commit_lost _); [left; by exists fresh|by right].
Qed.

Lemma create_retried lim c a meta k st w (HL : 1 <= lim) : ok (w_seq w) (w_tbl w) -> asks a k st ->
  let r := retried details other intn lim (create c a meta) w in
  ok (w_seq r.2) (w_tbl r.2) /\
  ((exists fresh, changed k fresh st w r.2) \/ (unchanged w r.2 /\ forall x, r.1 <> Ok x)).
Proof using Hwait.
  intros Hw Ha. set (m := create c a meta). destruct (retried_last details other intn lim m w HL) as (j & _ & -> & _).
  assert (ok (w_seq (before m j w)) (w_tbl (before m j w)) /\
    (unchanged w (before m j w) \/ exists fresh, changed k fresh st w (before m j w))) as [Hj HS].
  { apply before_inv; [split; [done|by left]|]. intros x [Hx HS]. split; [by apply (keeps_createOrUpdate dir db_err clock wait commit_lost Hwait)|].
    pose proof (create_outcome c a meta k st x Hx Ha) as HC. cbv zeta in HC. fold m in HC.
    destruct HC as [[f HC]|[HC _]], HS as [HS|[f' HS]].
    - right. exists f. intros k' Hk. by rewrite (HC k' Hk), (HS k' Hk).
    - right. exists f'. by eapply changed_again.
    - left. intros k' Hk. by rewrite (HC k' Hk), (HS k' Hk).
    - right. exists f'. intros k' Hk. by rewrite (HC k' Hk), (HS k' Hk). }
  cbv zeta. split; [by apply (keeps_createOrUpdate dir db_err clock wait commit_lost Hwait)|].
  pose proof (create_outcome c a meta k st _ Hj Ha) as HC. cbv zeta in HC. fold m in HC. destruct HC as [[f E]|[E HR']].
  - left. destruct HS as [HS|[f' HS]]; [|exists f'; by eapply changed_again].
    exists f. intros k' Hk. by rewrite (E k' Hk), (HS k' Hk).
  - destruct HS as [HS|[f' HS]].
    + right. split; [|done]. intros k' Hk. by rewrite (E k' Hk), (HS k' Hk).
    + left. exists f'. intros k' Hk. by rewrite (E k' Hk), (HS k' Hk).
Qed.

Lemma HTTPError_fails err : 400 <= HTTPError err.
Proof. unfold HTTPError. repeat case_match; lia. Qed.

(** The answer of a handler that ends with a retried creation *)
Lemma answer_retried c a meta k st w (f : option Alert * bool -> Webhooks.Answer) status resp w' (Hk : undisturbed k) :
  ok (w_seq w) (w_tbl w) -> asks a k st ->
  answer details other (retried details other intn 10 (create c a meta)) (fun x => ret (f x)) w = (Ok (status, resp), w') ->
  (exists fresh, at_ k w' = after fresh st (at_ k w)) \/ (at_ k w' = at_ k w /\ 400 <= status).
Proof using Hwait.
  intros Hw Ha. pose proof (create_retried 10 c a meta k st w ltac:(lia) Hw Ha) as [_ HO]. cbv zeta in HO. unfold answer.
  assert (forall w1 fresh, changed k fresh st w w1 -> at_ k w1 = after fresh st (at_ k w)) as HC.
  { intros w1 fresh HC. by rewrite (HC k Hk), decide_True. }
  destruct (retried _ _ _ _ _ w) as [[x|e|] w1]; cbn [fst snd] in HO; [| |done].
  - intros [= _ <-]. destruct HO as [[fr HO]|[_ HO]]; [left; eauto|]. by destruct (HO x).
  - intros [= <- _ <-]. destruct HO as [[fr HO]|[HO _]]; [left; eauto|]. right. split; [by apply HO|]. apply HTTPError_fails.
Qed.

(** C14: an answer of success of the generic API is true whatever failed in between,
    also when a commit was retried that had taken effect: the alert with the key of
    the request is open, the one there was if there was one, or closed if that was
    asked for.  Any other answer leaves it as it was or as the request asks. *)
Theorem ServeCreateAlert_is_true c r b k st w status resp w' (Hk : undisturbed k) (Hw : ok (w_seq w) (w_tbl w))
  (Hb : gq_json r = None /\ b = empty_body \/ gq_json r = Some (inl b))
  (Ha : asks (generic_alert (Permission.ServiceID c) (gq_form r) b) k st)
  (HE : ServeCreateAlert dir db_err clock wait commit_lost details other intn c r w = (Ok (status, resp), w')) :
  (status = 200 \/ status = 204 -> exists fresh, at_ k w' = after fresh st (at_ k w)) /\
  (at_ k w' = at_ k w \/ exists fresh, at_ k w' = after fresh st (at_ k w)).
Proof using Hwait.
  unfold ServeCreateAlert, authorized, answer at 1 in HE. destruct (LimitCheckAny c _) as [d|].
  { assert (400 <= status) by (injection HE as <- _ _; apply HTTPError_fails). injection HE as _ _ <-. split; [intros; exfalso; lia|by left]. }
  cbn [check ret] in HE. replace (match gq_json r with Some (inr e) => inr e | Some (inl b) => inl b | None => inl empty_body end)
    with (inl b : GenericBody + list hlink) in HE by (by destruct Hb as [[-> ->]| ->]).
  destruct (answer_retried c _ (Some (default (form_meta (gq_meta r)) (gb_Meta b))) k st w (fun x => if gq_accept_json r then (200, Some (match x.1 with Some n => (ID n, ServiceID n, x.2) | None => (0, "", false) end)) else (204, None))
    status resp w' Hk Hw Ha) as [HO|[HO Hs]].
  - rewrite <- HE. unfold answer. destruct (retried _ _ _ _ _ w) as [[x|e|] w1]; [|done|done]. by destruct (gq_accept_json r).
  - split; [done|by right].
  - split; [intros; exfalso; lia|by left].
Qed.

(** ** Two things the handlers do *)

(** A notification without alerts, summary and common name is a panic. *)
Theorem prometheus_without_alerts_panics c b payload w (Hc : LimitCheckAny c [Some Permission.Service] = None)
  (Hs : is_Some (v1_status (pb_Status b))) (Hb : pb_Summary b = "" /\ pb_AlertName b = "" /\ pb_Alerts b = []) :
  PrometheusAlertmanagerEventsAPI dir db_err clock wait commit_lost details other intn c (Some (b, payload)) w = (Panic, w).
Proof.
  destruct Hb as (E1 & E2 & E3), Hs as [status Hs]. unfold PrometheusAlertmanagerEventsAPI, authorized, answer. rewrite Hc. cbn [check ret].
  rewrite Hs. unfold prometheus_alert, body_Summary. rewrite E1, E2, E3. done.
Qed.
End idempotence.

Lemma Contains_length sub : forall s, Contains s sub = true -> (String.length sub <= String.length s)%nat.
Proof.
  assert (forall s, HasPrefix s sub = true -> (String.length sub <= String.length s)%nat) as HP.
  { intros s H. apply HasPrefix_app in H. rewrite H, string_length_app. lia. }
  induction s as [|c s IH]; cbn [Contains]; intros [H|H]%orb_true_iff; try by apply HP.
  apply IH in H. cbn. lia.
Qed.

(** The delimiter of a code block does not occur in it. *)
Theorem code_fence_outside s : Contains s (code_fence s) = false.
Proof.
  unfold code_fence. set (d := backtick ++ backtick ++ backtick).
  assert (forall fuel d, (String.length s < fuel + String.length d)%nat -> Contains s (fence fuel s d) = false) as HF.
  { induction fuel as [|fuel IH]; intros d0 Hd; cbn [fence].
    - apply not_true_is_false. intros H%Contains_length. lia.
    - destruct (Contains s d0) eqn:E; [|done]. apply IH. rewrite string_length_app. change (String.length backtick) with 1%nat. lia. }
  apply HF. lia.
Qed.

(** ** A commit whose outcome is lost *)

Section witness.
#[local] Existing Instance ascii_unicode.
#[local] Existing Instance nibble_uuid.
#[local] Existing Instance sample_digest.
#[local] Existing Instance sample_registry.
#[local] Existing Instance ordered_map_range.

Definition key_ctx : Ctx := ServiceContext Background (uuid_String 10).
Definition sample_form (s : string) : string := if String.eqb s "summary" then "disk full" else if String.eqb s "dedup" then "disk" else "".
Definition sample_request : GenericRequest := mkGenericRequest sample_form ["team=ops"] None true.
Definition sample_details (code k : string) : SqlErr := mkSql code k "" "" "".

(** The connection breaks while the first transaction is committed, which it is. *)
Definition breaks (n : nat) : option DBErr := if (n =? 6)%nat then Some (PgErr "08006" "") else None.
Definition serve (w : AlertDB.World) : res AErr Webhooks.Answer * AlertDB.World :=
  ServeCreateAlert sample_directory breaks sample_clock sample_wait (fun _ => true) sample_details plain (fun _ => 50) key_ctx sample_request w.

Example sample_lost_commit :
  let r := serve sample_world in
  r.1 = Ok (200, Some (1, uuid_String 10, false)) /\
  open_alerts (w_tbl r.2) !! (10, "user:1:disk") = Some (1, StatusTriggered) /\
  map (fun l => (lg_alert l, lg_event l)) (t_logs (w_tbl r.2)) = [(1, TypeCreated); (1, TypeDuplicateSupressed)] /\
  t_data (w_tbl r.2) !! 1 = Some {["team" := "ops"]}.
Proof. vm_compute. repeat split. Qed.

Lemma sample_asks : asks (generic_alert (uuid_String 10) sample_form empty_body) (10, "user:1:disk") StatusTriggered.
Proof.
  set (a := generic_alert _ _ _). exists (match Normalize a with inl n => n | inr _ => a end), 10.
  split_and!; vm_compute; reflexivity.
Qed.

Lemma sample_served : exists w', serve sample_world = (Ok (200, Some (1, uuid_String 10, false)), w').
Proof. exists (serve sample_world).2. vm_compute. reflexivity. Qed.

Lemma sample_undisturbed k : undisturbed sample_wait k.
Proof. intros n seq t _. reflexivity. Qed.

Lemma ServeCreateAlert_is_true_witness :
  exists w', serve sample_world = (Ok (200, Some (1, uuid_String 10, false)), w') /\
    exists fresh, open_alerts (w_tbl w') !! (10, "user:1:disk") =
      after fresh StatusTriggered (open_alerts (w_tbl sample_world) !! (10, "user:1:disk")).
Proof.
  destruct sample_served as [w' E]. exists w'. split; [exact E|]. unfold serve in E.
  refine (proj1 (ServeCreateAlert_is_true sample_directory breaks sample_clock sample_wait (fun _ => true) sample_details plain (fun _ => 50)
    sample_waits key_ctx sample_request empty_body (10, "user:1:disk") StatusTriggered sample_world 200
    (Some (1, uuid_String 10, false)) w' (sample_undisturbed _) sample_ok (or_introl (conj eq_refl eq_refl)) sample_asks E) (or_introl eq_refl)).
Defined.

Definition nothing_firing : postBody := mkPB "firing" "" [] "" "" "" "".

Lemma prometheus_without_alerts_panics_witness :
  PrometheusAlertmanagerEventsAPI sample_directory breaks sample_clock sample_wait (fun _ => true) sample_details plain (fun _ => 50)
    key_ctx (Some (nothing_firing, "")) sample_world = (Panic, sample_world).
Proof. apply prometheus_without_alerts_panics; [vm_compute; reflexivity|by eexists|done]. Defined.
End witness.
