(* ===== verification/Email.v ===== *)
(** * Email that raises alerts: [mailgun], [smtpsrv], [integrationkey.Store.Authorize]

    Mailgun posts an email to the webhook of [mailgun], the SMTP server of the
    program receives one in a session; the recipient is the id of an integration
    key, with a deduplication text after a plus sign. *)

From Stdlib Require Import Ascii.
From S2P Require Import Prelude Text Effects Database GoTime Escalation Unicode Validate Permission AlertData AlertDB AlertLog AlertStore Retry ErrorMap Webhooks.

Local Open Scope string_scope.
Local Open Scope Z_scope.

Section Email.
Context {HU : Unicode} {HT : UUIDText} {HD : Digest} {HG : Registry} {HR : GoMapRange}.
Context (dir : Directory).
Context (db_err : nat -> option DBErr) (clock : nat -> Z) (wait : nat -> Z -> Tables -> Z * Tables) (commit_lost : nat -> bool).
Context (details : string -> string -> SqlErr) (other : link) (intn : nat -> Z).
(** The service of a key by its id and type: [integration_keys] *)
Context (key_service : UUID -> string -> option UUID).

Local Notation M := (Effects.M AlertDB.World AErr).
Local Notation chain := (chain details other).
Local Notation create c a := (createOrUpdate dir db_err clock wait commit_lost c a None None).

(** ** Integration keys: [integrationkey/store.go] *)

Definition key_types : list string := ["grafana"; "site24x7"; "prometheusAlertmanager"; "generic"; "email"; "universal"].

Definition GetServiceID (c : Ctx) (id type : string) : M string :=
  valid (Many [ValidUUID "IntegrationKeyID" id; OneOf "IntegrationType" type key_types]) ;;;
  check (LimitCheckAny c [Some System; Some Admin; Some User]) ;;;
  let! keyUUID := need (uuid_Parse id) in
  let! row := db_query db_err (fun _ => key_service keyUUID type) in
  match row with Some svc => ret (uuid_String svc) | None => fail (EPg ErrNoRows) end.

(** The context of the service of the key, and the error; [SudoContext] may panic. *)
Definition Authorize (c : Ctx) (id : UUID) (type : string) : M (Ctx * option AErr) :=
  let! c' := need (SudoContext c) in
  let! r := try (GetServiceID c' (uuid_String id) type) in
  match r with
  | inr (EPg ErrNoRows) => ret (c, Some (EDenied Unauthorized))
  | inr e => ret (c, Some e)
  | inl serviceID => ret (ServiceSourceContext c serviceID (Some (mkSource SourceTypeIntegrationKey (uuid_String id))), None)
  end.

(** ** [mailgun/mailgun.go] *)

(** [httpError] *)
Definition httpError (err : list hlink) : Z := if is_client err then 406 else if IsLimitError err then 406 else 500.

(** What is read of a request: whether the content type and the form can be parsed,
    whether the signature is right, the address of the recipient, and form values. *)
Record MailgunRequest := mkMailgun {
  mg_parsed : bool; mg_signed : bool; mg_address : option string; mg_form : string -> string
}.

Definition email_alert (service summary details : string) (dedup : option DedupID) : Alert :=
  hook_alert "email" service summary details StatusTriggered_ dedup.

Definition mail_summary (subject : string) : string := SanitizeText subject MaxSummaryLength.
Definition mail_details (from body : string) : string := SanitizeText ("From: " ++ from ++ two_lines ++ body) MaxDetailsLength.

(** What the closure of the retries keeps: the context, the last error, and the
    service of the alert *)
Record MailState := mkMail { ms_ctx : Ctx; ms_err : option (list hlink); ms_service : string }.

(** One call of the closure: what it returns, or a panic. *)
Definition mail_attempt (id : UUID) (a : string -> Alert) (s : MailState) : M (option (list hlink) * MailState) :=
  let! s := (if String.eqb (ms_service s) "" then
               let! r := Authorize (ms_ctx s) id "email" in
               ret (mkMail r.1 (chain <$> r.2) (Permission.ServiceID r.1))
             else ret s) in
  match ms_err s with
  | Some e => ret (Some e, s)
  | None =>
      let! r := try (create (ms_ctx s) (a (ms_service s))) in
      let err := match r with inl _ => None | inr e => Some (MapDBError (chain e)) end in
      ret (err, mkMail (ms_ctx s) err (ms_service s))
  end.

(** The closure as [DoTemporaryError] calls it; [None] is after a panic. *)
Definition mail_fn (id : UUID) (a : string -> Alert) (_ : nat) (x : AlertDB.World * option (option (list hlink) * MailState))
  : option error * (AlertDB.World * option (option (list hlink) * MailState)) :=
  match x.2 with
  | None => (None, x)
  | Some (_, s) =>
      match mail_attempt id a s x.1 with
      | (Ok (err, s), w) => (retry_error <$> err, (w, Some (err, s)))
      | (_, w) => (None, (w, None))
      end
  end.

(** [ingressHandler.ServeHTTP], with Mailgun enabled: the status *)
Definition MailgunServeHTTP (c : Ctx) (EmailDomain : string) (r : MailgunRequest) : M Z :=
  if negb (mg_parsed r) then ret 406
  else if negb (mg_signed r) then ret 406
  else match mg_address r with
  | None => ret (httpError [of_link client_link])
  | Some recipient =>
      let! parts := need (cut "@" recipient) in
      if negb (String.eqb (ToLower parts.2) EmailDomain) then ret (httpError [of_link client_link])
      else
        let '(mailbox, dedupStr) := match cut "+" parts.1 with Some (a, d) => (a, d) | None => (parts.1, "") end in
        match ValidUUID "recipient" mailbox, uuid_Parse mailbox with
        | Some _, _ => ret (httpError [of_link client_link])
        | None, None => ret (httpError [of_link plain])
        | None, Some tokID =>
            let a service := email_alert service (mail_summary (mg_form r "subject"))
                               (mail_details (mg_form r "from") (mg_form r "body-plain")) (NewUserDedup dedupStr) in
            fun w =>
              match DoTemporaryError 13 (mail_fn tokID a) [Log; Limit 12; FibBackoff intn Second] (w, Some (None, mkMail c None "")) with
              | Some (_, (w, Some (None, _)), _) => (Ok 200, w)
              | Some (_, (w, Some (Some e, _)), _) => (Ok (httpError e), w)
              | Some (_, (w, None), _) => (Panic, w)
              | None => (Panic, w)
              end
        end
  end.

(** ** [smtpsrv] *)

(** [strings.EqualFold]; [mail.ParseAddress]: the address and its text *)
Context (EqualFold : string -> string -> bool) (ParseAddress : string -> option (string * string)).

Record SMTPConfig := mkSMTP { sc_Domain : string; sc_AllowedDomains : list string; sc_MaxRecipients : Z }.
Record Session := mkSession { ss_from : string; ss_dedup : string; ss_auth : list Ctx }.
Definition new_session : Session := mkSession "" "" [].

(** [smtp.SMTPError]: its code *)
Definition SMTPResult : Type := option Z.

(** [NewServer] *)
Definition server_config (cfg : SMTPConfig) : SMTPConfig :=
  mkSMTP (sc_Domain cfg) (sc_AllowedDomains cfg) (if sc_MaxRecipients cfg =? 0 then 1 else sc_MaxRecipients cfg).

(** [parseAllowedDomains] of [app/initsmtpsrv.go] *)
Definition parseAllowedDomains (additionalDomains primaryDomain : string) : list string :=
  split_char "," (if Contains additionalDomains primaryDomain then additionalDomains
                  else additionalDomains ++ "," ++ primaryDomain).

Definition isValidDomain (cfg : SMTPConfig) (d : string) : bool :=
  EqualFold d (sc_Domain cfg) || existsb (fun v => EqualFold v d) (sc_AllowedDomains cfg).

Definition Mail (from : string) (s : Session) : SMTPResult * Session :=
  match ParseAddress from with
  | None => (Some 501, s)
  | Some (_, text) => (None, mkSession text (ss_dedup s) (ss_auth s))
  end.

(** [AuthorizeFunc] of [app/initsmtpsrv.go]; the id is a UUID. *)
Definition AuthorizeFunc (c : Ctx) (id : string) : M Ctx :=
  match uuid_Parse id with
  | None => fail (EValid (Field (mkFieldErr "" "")))
  | Some tok =>
      let! r := Authorize c tok "email" in
      match r.2 with Some e => fail e | None => ret r.1 end
  end.

Definition Rcpt (cfg : SMTPConfig) (background : Ctx) (recipient : string) (s : Session) : M (SMTPResult * Session) :=
  match ParseAddress recipient with
  | None => ret (Some 501, s)
  | Some (address, _) =>
      match cut "@" address with
      | None => ret (Some 501, s)
      | Some (id, domain) =>
          if negb (isValidDomain cfg domain) then ret (Some 550, s)
          else
            let '(id, dedup) := match cut "+" id with Some (a, d) => (a, d) | None => (id, "") end in
            let s := mkSession (ss_from s) dedup (ss_auth s) in
            match ValidUUID "recipient" id with
            | Some _ => ret (Some 501, s)
            | None =>
                if sc_MaxRecipients cfg <=? Z.of_nat (length (ss_auth s)) then ret (Some 452, s)
                else
                  let! r := try (AuthorizeFunc background id) in
                  match r with
                  | inr e => ret (if IsUnauthorized (chain e) then Some 550 else Some 451, s)
                  | inl c => ret (None, mkSession (ss_from s) (ss_dedup s) (ss_auth s ++ [c]))
                  end
            end
      end
  end.

(** The alerts of the recipients, until one cannot be created *)
Fixpoint create_for (a : string -> Alert) (l : list Ctx) : M SMTPResult :=
  match l with
  | [] => ret None
  | c :: l =>
      let! r := try (retried details other intn 12 (create c (a (Permission.ServiceID c)))) in
      match r with inl _ => create_for a l | inr _ => ret (Some 451) end
  end.

(** [Session.Data]; the email is [None] if it cannot be parsed, else its subject and
    text. *)
Definition Data (email : option (string * string)) (s : Session) : M SMTPResult :=
  match ss_auth s with
  | [] => ret (Some 503)
  | auth =>
      match email with
      | None => ret (Some 554)
      | Some (subject, body) =>
          let dedup := if String.eqb (ss_dedup s) "" then None else NewUserDedup (ss_dedup s) in
          create_for (fun service => email_alert service (mail_summary subject) (mail_details (ss_from s) body) dedup) auth
      end
  end.

Definition Reset (_ : Session) : Session := new_session.
End Email.
