(* ===== verification/EmailSpec.v ===== *)
(** * What becomes of an email

    An email that the SMTP server accepts has raised an alert for each recipient.
    The webhook for Mailgun does not retry a creation that has failed, although it
    retries; and a recipient that is refused changes the deduplication of the
    others. *)

From Stdlib Require Import Ascii.
From S2P Require Import Prelude Text Effects Database GoTime Escalation Unicode Validate Permission AlertData AlertDB AlertLog AlertStore AlertInvariant AlertStoreSpec AlertDedup AlertDedupSpec Retry ErrorMap Webhooks WebhookSpec Email.

Local Open Scope string_scope.
Local Open Scope Z_scope.

Section Email.
Context {HU : Unicode} {HT : UUIDText} {HD : Digest} {HG : Registry} {HR : GoMapRange}.
Context (dir : Directory).
Context (db_err : nat -> option DBErr) (clock : nat -> Z) (wait : nat -> Z -> Tables -> Z * Tables) (commit_lost : nat -> bool).
Context (details : string -> string -> SqlErr) (other : link) (intn : nat -> Z).
Context (key_service : UUID -> string -> option UUID).
Context (EqualFold : string -> string -> bool) (ParseAddress : string -> option (string * string)).

Local Notation M := (Effects.M AlertDB.World AErr).
Local Notation mail_fn := (mail_fn dir db_err clock wait commit_lost details other key_service).
Local Notation mail_attempt := (mail_attempt dir db_err clock wait commit_lost details other key_service).
Local Notation Rcpt := (Rcpt db_err details other key_service EqualFold ParseAddress).
Local Notation Data := (Data dir db_err clock wait commit_lost details other intn).
Local Notation at_ k w := (open_alerts (w_tbl w) !! k).

(** ** Mailgun *)

(** What the closure returns is the error it keeps. *)
Lemma mail_keeps_error id a s w err s' w' : mail_attempt id a s w = (Ok (err, s'), w') -> ms_err s' = err.
Proof.
  unfold Email.mail_attempt. intros E. apply bind_inv in E as (s1 & w1 & _ & E). destruct (ms_err s1) as [e|] eqn:Ee.
  - by injection E as <- <- _.
  - apply bind_inv in E as (r & w2 & _ & E). by injection E as <- <- _.
Qed.

(** Once a creation has failed, every further attempt returns its error and does not
    touch the database: the retries wait, and do nothing. *)
Theorem failed_creation_not_retried id a w x k e s w1 :
  run_temp (mail_fn id a) (S k) (w, x) = (Some (retry_error e), (w1, Some (Some e, s))) -> ms_service s <> "" ->
  forall j, (k <= j)%nat -> run_temp (mail_fn id a) (S j) (w, x) = (Some (retry_error e), (w1, Some (Some e, s))).
Proof.
  intros E Hs. assert (ms_err s = Some e) as He.
  { change (run_temp ?f (S k) ?p) with (f k (run_temp f k p).2) in E. unfold Email.mail_fn at 1 in E.
    destruct (run_temp _ k (w, x)) as [er [w0 [[o s0]|]]]; cbn [fst snd] in E; [|done].
    destruct (mail_attempt id a s0 w0) as [[[err s1]|er1|] w2] eqn:EA; [|done|done].
    injection E as _ <- -> ->. by apply mail_keeps_error in EA. }
  intros j Hj. induction Hj as [|j Hj IH]; [done|].
  change (run_temp ?f (S (S j)) ?p) with (f (S j) (run_temp f (S j) p).2). rewrite IH. cbn [snd].
  unfold Email.mail_fn, Email.mail_attempt. cbn [fst snd]. destruct (String.eqb_spec (ms_service s) "") as [|_]; [done|].
  rewrite bind_ret, He. done.
Qed.

(** ** SMTP *)

(** A recipient beyond the limit is refused, and the deduplication of the alerts of
    the recipients before it is replaced. *)
Theorem refused_recipient_replaces_dedup cfg c recipient address text id domain s w
  (Ha : ParseAddress recipient = Some (address, text)) (Hc : cut "@" address = Some (id, domain))
  (Hd : isValidDomain EqualFold cfg domain = true) (Hm : sc_MaxRecipients cfg <= Z.of_nat (length (ss_auth s)))
  (Hu : forall a d, cut "+" id = Some (a, d) -> ValidUUID "recipient" a = None) (Hn : cut "+" id = None -> ValidUUID "recipient" id = None) :
  Rcpt cfg c recipient s w =
    (Ok (Some 452, mkSession (ss_from s) (match cut "+" id with Some (_, d) => d | None => "" end) (ss_auth s)), w).
Proof.
  unfold Email.Rcpt. rewrite Ha, Hc, Hd. cbn [negb]. destruct (cut "+" id) as [[a d]|]; cbn [ss_auth].
  - rewrite (Hu a d eq_refl). by rewrite (proj2 (Z.leb_le _ _) Hm).
  - rewrite (Hn eq_refl). by rewrite (proj2 (Z.leb_le _ _) Hm).
Qed.

Context (Hwait : waits_ok wait).

Lemma create_for_open a l : forall w w', ok (w_seq w) (w_tbl w) ->
  create_for dir db_err clock wait commit_lost details other intn a l w = (Ok None, w') ->
  (forall c, c ∈ l -> exists k, asks (a (Permission.ServiceID c)) k StatusTriggered) ->
  forall k, undisturbed wait k ->
    (forall v, at_ k w = Some v -> at_ k w' = Some v) /\
    (forall c, c ∈ l -> asks (a (Permission.ServiceID c)) k StatusTriggered -> is_Some (at_ k w')).
Proof using Hwait.
  induction l as [|c l IH]; intros w w' Hw HE HA k Hk; cbn [create_for] in HE.
  { injection HE as <-. split; [done|]. by intros c ?%not_elem_of_nil. }
  apply bind_inv in HE as (r & w1 & E1 & HE). destruct (HA c ltac:(left)) as [kc Hc].
  pose proof (create_retried dir db_err clock wait commit_lost details other intn Hwait 12 c (a (Permission.ServiceID c)) None kc
    StatusTriggered w ltac:(lia) Hw Hc) as [Hw1 HO]. cbv zeta in Hw1, HO. unfold try in E1.
  destruct (retried _ _ _ _ _ w) as [[x|e|] w2]; cbn [fst snd] in Hw1, HO; [|by injection E1 as <- <-|done].
  injection E1 as <- <-. destruct HO as [[f HO]|[_ HO]]; [|by destruct (HO x)].
  destruct (IH _ _ Hw1 HE ltac:(intros c' Hc'; apply HA; by right) k Hk) as [I1 I2]. split.
  - intros v Hv. apply I1. rewrite (HO k Hk), Hv. by destruct (decide _).
  - intros c' [->|Hc']%elem_of_cons Hk'; [|by eapply I2]. destruct Hc as (n & svc & HN & Hsvc & Hst & ->).
    destruct Hk' as (n' & svc' & HN' & Hsvc' & Hst' & ->). rewrite HN in HN'. injection HN' as <-.
    rewrite Hsvc in Hsvc'. injection Hsvc' as <-.
    assert (exists v, at_ (svc, Dedup_Value (DedupKey n)) w2 = Some v) as [v Hv].
    { rewrite (HO _ Hk), decide_True by done. unfold after. case_match; [by eexists|by eexists]. }
    exists v. by apply I1.
Qed.

(** The alert that a session asks for of a service *)
Definition session_alert (subject body : string) (s : Session) (service : string) : Alert :=
  email_alert service (mail_summary subject) (mail_details (ss_from s) body)
    (if String.eqb (ss_dedup s) "" then None else NewUserDedup (ss_dedup s)).

(** C32: when the SMTP server accepts an email, every recipient's service has an open
    alert with the key of the email, the one it had if it had one. *)
Theorem accepted_email_raises_alerts subject body s w w' (Hw : ok (w_seq w) (w_tbl w))
  (HE : Data (Some (subject, body)) s w = (Ok None, w')) :
  let a := session_alert subject body s in
  ss_auth s <> [] /\
  ((forall c, c ∈ ss_auth s -> exists k, asks (a (Permission.ServiceID c)) k StatusTriggered) ->
   forall c k, c ∈ ss_auth s -> undisturbed wait k -> asks (a (Permission.ServiceID c)) k StatusTriggered ->
     is_Some (at_ k w') /\ forall v, at_ k w = Some v -> at_ k w' = Some v).
Proof using Hwait.
  intros a. unfold Email.Data in HE. destruct (ss_auth s) as [|c0 l] eqn:El; [done|]. split; [done|]. intros HA c k Hc Hk Hak.
  destruct (create_for_open a (c0 :: l) w w' Hw HE HA k Hk) as [H1 H2]. split; [by apply (H2 c)|done].
Qed.
End Email.

(** ** An email while the database fails once *)

Section witness.
#[local] Existing Instance ascii_unicode.
#[local] Existing Instance nibble_uuid.
#[local] Existing Instance sample_digest.
#[local] Existing Instance sample_registry.
#[local] Existing Instance ordered_map_range.

Definition sample_keys (id : UUID) (type : string) : option UUID :=
  if (id =? 60) && String.eqb type "email" then Some 10 else if (id =? 61) && String.eqb type "email" then Some 11 else None.
Definition serialization (call n : nat) : option DBErr := if (n =? call)%nat then Some (PgErr "40001" "") else None.
Definition sample_address (s : string) : option (string * string) := Some (s, s).
Definition mail_form (s : string) : string := if String.eqb s "subject" then "disk full" else "".
Definition sample_mail : MailgunRequest := mkMailgun true true (Some (uuid_String 60 ++ "+disk@oncall.test")) mail_form.

Definition post_mail (call : nat) : res AErr Z * AlertDB.World :=
  MailgunServeHTTP sample_directory (serialization call) sample_clock sample_wait (fun _ => false) sample_details plain (fun _ => 50)
    sample_keys Background "oncall.test" sample_mail sample_world.

(** Without a failure the alert is raised; one serialization failure at the commit
    and the email is given up, after all of the waiting. *)
Example mailgun_gives_up :
  (post_mail 100).1 = Ok 200 /\ size (t_alerts (w_tbl (post_mail 100).2)) = 1%nat /\
  (post_mail 6).1 = Ok 500 /\ t_alerts (w_tbl (post_mail 6).2) = ∅ /\ w_calls (post_mail 6).2 = 7%nat.
Proof. vm_compute. repeat split. Qed.

Definition smtp : SMTPConfig := mkSMTP "oncall.test" [] 1.
Definition rcpt (to : string) (s : Session) (w : AlertDB.World) : res AErr (SMTPResult * Session) * AlertDB.World :=
  Rcpt (fun _ => None) sample_details plain sample_keys String.eqb sample_address smtp Background to s w.
Definition data (call : nat) (s : Session) (w : AlertDB.World) : res AErr SMTPResult * AlertDB.World :=
  Data sample_directory (serialization call) sample_clock sample_wait (fun _ => false) sample_details plain (fun _ => 50)
    (Some ("disk full", "")) s w.

Definition rcpt_session (to : string) (s : Session) : Session :=
  match (rcpt to s sample_world).1 with Ok (_, s) => s | _ => s end.
Definition one_rcpt : Session := rcpt_session (uuid_String 60 ++ "+disk@oncall.test") new_session.
Definition two_rcpt : Session := rcpt_session (uuid_String 61 ++ "+cpu@oncall.test") one_rcpt.

(** The SMTP server retries the same failure, and uses the deduplication of a
    recipient that it has refused. *)
Example smtp_retries :
  (data 5 one_rcpt sample_world).1 = Ok None /\
  open_alerts (w_tbl (data 5 one_rcpt sample_world).2) !! (10, "user:1:disk") = Some (2, StatusTriggered) /\
  (rcpt (uuid_String 61 ++ "+cpu@oncall.test") one_rcpt sample_world).1 = Ok (Some 452, two_rcpt) /\
  open_alerts (w_tbl (data 100 two_rcpt sample_world).2) !! (10, "user:1:cpu") = Some (1, StatusTriggered).
Proof. vm_compute. repeat split. Qed.

Definition mail_alert (service : string) : Alert := email_alert service "disk full" "" (NewUserDedup "disk").
Definition mail_run (k : nat) :=
  run_temp (mail_fn sample_directory (serialization 6) sample_clock sample_wait (fun _ => false) sample_details plain sample_keys 60 mail_alert) k
    (sample_world, Some (None, mkMail Background None "")).

Lemma failed_creation_not_retried_witness : exists e w1, (mail_run 1).1 = Some e /\ mail_run 12 = (Some e, w1).
Proof.
  destruct (mail_run 1) as [[e|] [w1 [[[le|] s]|]]] eqn:E; try (exfalso; vm_compute in E; discriminate E).
  assert (Some e = Some (retry_error le) /\ ms_service s <> "") as [He Hs].
  { revert E. unfold mail_run. vm_compute. intros [= <- <- <- <-]. split; [reflexivity|discriminate]. }
  exists e, (w1, Some (Some le, s)). split; [done|]. rewrite He in E |- *.
  exact (failed_creation_not_retried sample_directory (serialization 6) sample_clock sample_wait (fun _ => false) sample_details plain
    sample_keys 60 mail_alert sample_world (Some (None, mkMail Background None "")) 0 le s w1 E Hs 11 (Nat.le_0_l 11)).
Defined.

Lemma refused_recipient_replaces_dedup_witness :
  rcpt (uuid_String 61 ++ "+cpu@oncall.test") one_rcpt sample_world =
    (Ok (Some 452, mkSession "" "cpu" (ss_auth one_rcpt)), sample_world).
Proof.
  assert (forall a d, cut "+" (uuid_String 61 ++ "+cpu") = Some (a, d) -> ValidUUID "recipient" a = None) as Hu.
  { intros a d E. vm_compute in E. injection E as <- <-. vm_compute. reflexivity. }
  assert (cut "+" (uuid_String 61 ++ "+cpu") = None -> ValidUUID "recipient" (uuid_String 61 ++ "+cpu") = None) as Hn.
  { intros E. vm_compute in E. discriminate E. }
  refine (eq_trans (refused_recipient_replaces_dedup (fun _ => None) sample_details plain sample_keys String.eqb sample_address smtp Background
    (uuid_String 61 ++ "+cpu@oncall.test") (uuid_String 61 ++ "+cpu@oncall.test") (uuid_String 61 ++ "+cpu@oncall.test")
    (uuid_String 61 ++ "+cpu") "oncall.test" one_rcpt sample_world eq_refl _ eq_refl _ Hu Hn) _); vm_compute; try reflexivity.
  discriminate.
Defined.

Definition one_alert_of (service : string) : Alert := email_alert service (mail_summary "disk full") (mail_details "" "") (NewUserDedup "disk").

Lemma one_asks : asks (one_alert_of (uuid_String 10)) (10, "user:1:disk") StatusTriggered.
Proof.
  exists (match Normalize (one_alert_of (uuid_String 10)) with inl n => n | inr _ => one_alert_of "" end), 10.
  split_and!; vm_compute; reflexivity.
Qed.

Definition one_session : Session := mkSession "" "disk" [ServiceContext Background (uuid_String 10)].

Lemma accepted_email_raises_alerts_witness :
  exists w', data 5 one_session sample_world = (Ok None, w') /\ is_Some (open_alerts (w_tbl w') !! (10, "user:1:disk")).
Proof.
  assert (exists w', data 5 one_session sample_world = (Ok None, w')) as [w' E]
    by (exists (data 5 one_session sample_world).2; vm_compute; reflexivity).
  exists w'. split; [exact E|].
  destruct (accepted_email_raises_alerts sample_directory (serialization 5) sample_clock sample_wait (fun _ => false) sample_details plain
    (fun _ => 50) sample_waits "disk full" "" one_session sample_world w' sample_ok E) as [_ H].
  refine (proj1 (H _ (ServiceContext Background (uuid_String 10)) _ _ (sample_undisturbed _) one_asks)).
  - intros c Hc. apply list_elem_of_singleton in Hc as ->. exists (10, "user:1:disk"). exact one_asks.
  - by left.
Defined.
End witness.
