(* ===== verification/AuthToken.v ===== *)
(** * Tokens: [auth/authtoken]

    A token is encoded as bytes with a version, followed by a signature, in
    base64; the oldest form is the text of a UUID.  [Parse] asks a function
    whether the signature is valid for the type and the bytes before it. *)

From Stdlib Require Import Ascii String.
From S2P Require Import Prelude Text GoTime Unicode Validate.

(** ** Bytes of a number, the most significant first *)

Fixpoint be_bytes (n : nat) (z : Z) : list Z :=
  match n with
  | O => []
  | S n => be_bytes n (z / 256) ++ [z mod 256]
  end.

Definition be_value (bs : list Z) : Z := fold_left (fun a b => a * 256 + b) bs 0.

Lemma be_bytes_length n : forall z, length (be_bytes n z) = n.
Proof. induction n as [|n IH]; intros z; [done|]. cbn. rewrite length_app, IH. cbn. lia. Qed.

Lemma be_bytes_byte n : forall z, Forall byte (be_bytes n z).
Proof.
  induction n as [|n IH]; intros z; cbn; [constructor|]. apply Forall_app. split; [apply IH|].
  constructor; [|constructor]. unfold byte. apply Z.mod_pos_bound. lia.
Qed.

Lemma be_value_snoc bs b : be_value (bs ++ [b]) = be_value bs * 256 + b.
Proof. unfold be_value. by rewrite fold_left_app. Qed.

Lemma be_value_bytes n : forall z, 0 <= z < 256 ^ Z.of_nat n -> be_value (be_bytes n z) = z.
Proof.
  induction n as [|n IH]; intros z Hz; [cbn in *; unfold be_value; cbn; lia|].
  rewrite Nat2Z.inj_succ, Z.pow_succ_r in Hz by lia. cbn [be_bytes]. rewrite be_value_snoc, IH by dlia. dlia.
Qed.

Lemma be_value_range bs : Forall byte bs -> 0 <= be_value bs < 256 ^ Z.of_nat (length bs).
Proof.
  induction bs as [|b bs IH] using rev_ind; intros HF; [cbn; unfold be_value; cbn; lia|].
  apply Forall_app in HF as [HF Hb]. inversion Hb as [|? ? Hb' _]; subst. specialize (IH HF). unfold byte in Hb'.
  rewrite be_value_snoc, length_app, Nat2Z.inj_add. cbn [length]. rewrite Z.pow_add_r by lia. change (256 ^ Z.of_nat 1) with 256. lia.
Qed.

Lemma be_bytes_value bs : Forall byte bs -> be_bytes (length bs) (be_value bs) = bs.
Proof.
  induction bs as [|b bs IH] using rev_ind; intros HF; [done|].
  apply Forall_app in HF as [HF Hb]. inversion Hb as [|? ? Hb' _]; subst. unfold byte in Hb'.
  rewrite length_app, Nat.add_comm. cbn [length Nat.add be_bytes]. rewrite be_value_snoc.
  replace ((be_value bs * 256 + b) / 256) with (be_value bs) by dlia.
  replace ((be_value bs * 256 + b) mod 256) with b by dlia. by rewrite IH.
Qed.

Local Open Scope string_scope.
Local Open Scope Z_scope.

(** ** [base64.URLEncoding]: with padding

    Line breaks are skipped everywhere; after padding there is nothing else. *)

Definition pad : ascii := "=".

Definition padding (n : nat) : string :=
  match (n mod 3)%nat with 1%nat => "==" | 2%nat => "=" | _ => "" end.

Definition PaddedEncode (bs : list Z) : string := EncodeToString bs ++ padding (length bs).

Fixpoint quanta (cs : list ascii) : option (list Z) :=
  match cs with
  | [] => Some []
  | a :: b :: c :: d :: rest =>
      va ← b64_value a; vb ← b64_value b;
      if Ascii.eqb c pad then
        if Ascii.eqb d pad && bool_decide (rest = []) then b64_bytes [va; vb] else None
      else
        vc ← b64_value c;
        if Ascii.eqb d pad then if bool_decide (rest = []) then b64_bytes [va; vb; vc] else None
        else vd ← b64_value d; bs ← b64_bytes [va; vb; vc; vd]; more ← quanta rest; Some (bs ++ more)%list
  | _ => None
  end.

Definition PaddedDecode (s : string) : option (list Z) :=
  quanta (List.filter (fun c => negb (line_break c)) (list_ascii_of_string s)).

Lemma b64_char_not_pad v : 0 <= v < 64 -> Ascii.eqb (b64_char v) pad = false.
Proof.
  intros Hv. destruct (Ascii.eqb_spec (b64_char v) pad) as [E|]; [|done].
  destruct (b64_value_char v Hv) as [_ HV]. by rewrite E in HV.
Qed.

Definition b64_chars (vs : list Z) : list ascii := map b64_char vs.

Lemma chars_of_encode vs : list_ascii_of_string (foldr (fun v s => String (b64_char v) s) "" vs) = b64_chars vs.
Proof. induction vs as [|v vs IH]; [done|]. cbn. by rewrite IH. Qed.

Lemma chars_app a b : list_ascii_of_string (a ++ b) = (list_ascii_of_string a ++ list_ascii_of_string b)%list.
Proof. induction a as [|c a IH]; [done|]. rewrite append_cons. cbn. by rewrite IH. Qed.

Lemma no_breaks vs : Forall (fun v => 0 <= v < 64) vs -> List.filter (fun c => negb (line_break c)) (b64_chars vs) = b64_chars vs.
Proof.
  induction 1 as [|v vs Hv _ IH]; [done|]. cbn. destruct (b64_value_char v Hv) as [-> _]. cbn. f_equal. exact IH.
Qed.

Lemma PaddedDecode_Encode bs : Forall byte bs -> PaddedDecode (PaddedEncode bs) = Some bs.
Proof.
  intros HF. unfold PaddedDecode, PaddedEncode, EncodeToString. rewrite chars_app, chars_of_encode, List.filter_app.
  rewrite no_breaks by by apply b64_split_range.
  assert (List.filter (fun c => negb (line_break c)) (list_ascii_of_string (padding (length bs))) = list_ascii_of_string (padding (length bs))) as ->.
  { unfold padding. by destruct (length bs mod 3)%nat as [|[|[|]]]. }
  assert (forall v, 0 <= v < 64 -> b64_value (b64_char v) = Some v) as HC by (intros v Hv; apply b64_value_char, Hv).
  induction bs as [|x|x y|x y z bs IH] using list_ind3; [done|..]; rewrite ?Forall_cons in HF; unfold byte in HF; cbn [b64_split b64_chars map app].
  - cbn -[b64_value b64_char]. rewrite !HC by dlia. cbn. repeat f_equal. dlia.
  - change (padding (length [x; y])) with "=". cbn [list_ascii_of_string quanta]. rewrite !HC by dlia. cbn [mbind option_bind].
    rewrite b64_char_not_pad by dlia. cbn. repeat f_equal; dlia.
  - destruct HF as (Hx & Hy & Hz & HF). cbn [quanta]. rewrite !HC by dlia. cbn [mbind option_bind]. rewrite !b64_char_not_pad by dlia.
    assert (padding (length (x :: y :: z :: bs)) = padding (length bs)) as ->.
    { unfold padding. replace (length (x :: y :: z :: bs)) with (length bs + 1 * 3)%nat by (cbn; lia). by rewrite Nat.Div0.mod_add. }
    specialize (IH HF). unfold b64_chars in IH. cbn [mbind option_bind b64_bytes]. rewrite IH. cbn. repeat f_equal; dlia.
Qed.

Lemma EncodeToString_length bs : Z.of_nat (String.length (EncodeToString bs)) = (Z.of_nat (length bs) * 4 + 2) / 3.
Proof.
  unfold EncodeToString. induction bs as [|x|x y|x y z bs IH] using list_ind3; [done|done|done|].
  cbn [b64_split foldr String.length length]. rewrite !Nat2Z.inj_succ, IH. dlia.
Qed.

Lemma b64_bytes_byte vs bs : Forall (fun v => 0 <= v < 64) vs -> (length vs <= 4)%nat -> b64_bytes vs = Some bs -> Forall byte bs.
Proof.
  intros HF Hl E. destruct vs as [|a [|b [|c [|d [|e vs]]]]]; cbn in E, Hl; try lia; simplify_eq; rewrite ?Forall_cons in HF; unfold byte;
    repeat (constructor; [dlia|]); constructor.
Qed.

Lemma quanta_byte cs : forall bs, quanta cs = Some bs -> Forall byte bs.
Proof.
  induction cs as [cs IH] using (induction_ltof1 _ (@length ascii)); unfold ltof in IH. intros bs E.
  destruct cs as [|a [|b [|c [|d cs]]]]; cbn [quanta] in E; [by injection E as <-|done..|].
  apply bind_Some in E as (va & Ea & E). apply bind_Some in E as (vb & Eb & E). apply b64_value_range in Ea, Eb.
  destruct (Ascii.eqb c pad).
  { destruct (_ && _); [|done]. by eapply b64_bytes_byte, E; [repeat constructor; lia|cbn; lia]. }
  apply bind_Some in E as (vc & Ec & E). apply b64_value_range in Ec. destruct (Ascii.eqb d pad).
  { destruct (bool_decide _); [|done]. by eapply b64_bytes_byte, E; [repeat constructor; lia|cbn; lia]. }
  apply bind_Some in E as (vd & Ed & E). apply b64_value_range in Ed. apply bind_Some in E as (b4 & E4 & E).
  apply bind_Some in E as (more & Em & [= <-]). apply Forall_app. split; [|eapply IH, Em; cbn; lia].
  by eapply b64_bytes_byte, E4; [repeat constructor; lia|cbn; lia].
Qed.

(** ** Tokens: [type.go], [token.go] *)

Definition TypeUnknown : Z := 0.
Definition TypeSession : Z := 1.
Definition TypeCalSub : Z := 2.
Definition TypeUIK : Z := 3.

Record Token := mkToken { Version : Z; TokType : Z; ID : UUID; CreatedAt : Time }.

(** ** [Encode]: [encode.go]

    A [SignFunc] that is not given adds nothing. *)

Inductive TokErr := TokInvalid (v : VErr) | SignErr (msg : string).

Definition SignFunc : Type := list Z -> list Z + string.

Definition two64 : Z := 18446744073709551616.

(** The bytes that are signed *)
Definition payload (t : Token) : list Z :=
  (if Version t =? 1 then 83 :: be_bytes 16 (ID t)
   else if Version t =? 2 then 86 :: 2 :: TokType t :: be_bytes 16 (ID t) ++ be_bytes 8 (Unix (CreatedAt t) mod two64)
   else 86 :: 3 :: TokType t :: be_bytes 16 (ID t))%list.

Definition sign_with (signFn : option SignFunc) (b : list Z) : list Z + string :=
  match signFn with None => inl [] | Some f => f b end.

Section token.
Context {HT : UUIDText}.

Definition Encode (t : Token) (signFn : option SignFunc) : string + TokErr :=
  let finish (enc : list Z -> string) b :=
    match sign_with signFn b with
    | inl sig => inl (enc (b ++ sig)%list)
    | inr e => inr (SignErr e)
    end in
  if Version t =? 0 then inl (uuid_String (ID t))
  else if Version t =? 1 then
    if negb (TokType t =? TypeSession) then inr (TokInvalid (Field (mkFieldErr "Type" "version 1 only supports session tokens")))
    else finish PaddedEncode (payload t)
  else if (Version t =? 2) || (Version t =? 3) then finish EncodeToString (payload t)
  else inr (TokInvalid (Field (mkFieldErr "Type" "unsupported version"))).

(** ** [Parse]: [parse.go] *)

Definition VerifyFunc : Type := Z -> list Z -> list Z -> bool * bool.

Definition alwaysValid : VerifyFunc := fun _ _ _ => (true, false).

(** A versioned token of [n] bytes: what [mk] reads of them *)
Definition parse_signed_token (n : nat) (ty : Z) (mk : list Z -> Token) (verifyFn : VerifyFunc) (data : list Z) : Token * bool + string :=
  if (length data <? n)%nat then inr "invalid length"
  else let '(valid, isOldKey) := verifyFn ty (take n data) (drop n data) in
       if valid then inl (mk data, isOldKey) else inr "invalid signature".

Definition id_at (n : nat) (data : list Z) : UUID := be_value (take 16 (drop n data)).

Definition signed64 (z : Z) : Z := if z <? two63 then z else z - two64.

(** The error is the text of the generic error; those of the libraries are not
    spelled as they are. *)
Definition Parse (s : string) (verifyFn : option VerifyFunc) : Token * bool + string :=
  if (String.length s =? 0)%nat then inr "invalid length"
  else if (String.length s =? 36)%nat then
    match uuid_Parse s with
    | None => inr "invalid UUID"
    | Some id => inl (mkToken 0 TypeUnknown id zeroTime, false)
    end
  else
    let verifyFn := default alwaysValid verifyFn in
    let decode := match s with String "U"%char _ => PaddedDecode | _ => DecodeString end in
    match decode s with
    | None => inr "illegal base64 data"
    | Some data =>
        match data with
        | h :: v :: _ =>
            if h =? 83 then
              parse_signed_token 17 TypeSession (fun data => mkToken 1 TypeSession (id_at 1 data) zeroTime) verifyFn data
            else if negb (h =? 86) then inr "invalid token header format"
            else
              let ty := nth 2 data 0 in
              if v =? 3 then parse_signed_token 19 ty (fun data => mkToken 3 ty (id_at 3 data) zeroTime) verifyFn data
              else if v =? 2 then
                parse_signed_token 27 ty (fun data => mkToken 2 ty (id_at 3 data)
                  (time_Unix (signed64 (be_value (take 8 (drop 19 data)))))) verifyFn data
              else inr "unsupported token version"
        | _ => inr "invalid length"
        end
    end.

(** ** What is encoded is parsed *)

Definition wf_token (t : Token) : Prop := is_uuid (ID t) /\ byte (TokType t) /\ in64 (Unix (CreatedAt t)).

(** What the text of a token keeps of it *)
Definition normal (t : Token) : Token :=
  if Version t =? 0 then mkToken 0 TypeUnknown (ID t) zeroTime
  else if Version t =? 1 then mkToken 1 TypeSession (ID t) zeroTime
  else if Version t =? 2 then mkToken 2 (TokType t) (ID t) (time_Unix (Unix (CreatedAt t)))
  else mkToken 3 (TokType t) (ID t) zeroTime.

Definition payload_length (v : Z) : nat := if v =? 1 then 17 else if v =? 2 then 27 else 19.

Lemma payload_size t : length (payload t) = payload_length (Version t).
Proof.
  unfold payload, payload_length. repeat case_match; cbn [length]; rewrite ?length_app, ?be_bytes_length; done.
Qed.

Lemma payload_byte t : byte (TokType t) -> Forall byte (payload t).
Proof.
  intros HT'. unfold payload. repeat case_match; repeat (apply Forall_cons; split; [unfold byte in *; lia|]);
    rewrite ?Forall_app; split_and?; apply be_bytes_byte.
Qed.

Lemma Encode_head h bs : exists rest, EncodeToString (h :: bs) = String (b64_char (h / 4)) rest.
Proof. unfold EncodeToString. destruct bs as [|x [|y bs]]; cbn; by eexists. Qed.

Lemma signed64_mod z : in64 z -> signed64 (z mod two64) = z.
Proof. unfold in64, signed64, two63, two64. intros Hz. blia; dlia. Qed.

Lemma id_at_app n u rest pre : is_uuid u -> length pre = n -> id_at n (pre ++ be_bytes 16 u ++ rest)%list = u.
Proof.
  intros Hu <-. unfold id_at. rewrite drop_app_length, take_app_length' by by rewrite be_bytes_length. by apply be_value_bytes.
Qed.

Lemma parse_signed_app n ty mk v p sig : length p = n ->
  parse_signed_token n ty mk v (p ++ sig)%list =
  let '(valid, old) := v ty p sig in if valid then inl (mk (p ++ sig)%list, old) else inr "invalid signature".
Proof.
  intros <-. unfold parse_signed_token. rewrite length_app. assert (length p + length sig <? length p = false)%nat as -> by (apply Nat.ltb_ge; lia).
  rewrite take_app_length, drop_app_length. done.
Qed.

Lemma Unix_of_seconds z : Unix (time_Unix z) = z.
Proof. unfold Unix, time_Unix. cbn. apply Z.div_mul. done. Qed.

(** What [Parse] does with the bytes of a token and a signature *)
Lemma parse_bytes t sig v s : wf_token t -> Version t ∈ [1; 2; 3] ->
  (Version t = 1 -> TokType t = TypeSession) -> Forall byte sig -> String.length s <> 36%nat -> (0 < String.length s)%nat ->
  (match s with String "U"%char _ => PaddedDecode | _ => DecodeString end) s = Some (payload t ++ sig)%list ->
  Parse s (Some v) = let '(valid, old) := v (TokType t) (payload t) sig in
                     if valid then inl (normal t, old) else inr "invalid signature".
Proof.
  intros (Hu & Hb & Hc) Hv H1 Hs H36 H0 HD. unfold Parse. rewrite (proj2 (Nat.eqb_neq _ _) H36).
  assert (String.length s =? 0 = false)%nat as -> by (apply Nat.eqb_neq; lia). rewrite HD. cbn [default].
  pose proof (payload_size t) as HL. unfold payload, normal, payload_length in *.
  rewrite !elem_of_cons, elem_of_nil in Hv. destruct Hv as [E|[E|[E|[]]]]; rewrite E in *; cbn [Z.eqb Pos.eqb] in *; cbn [app].
  - rewrite (H1 eq_refl), !app_comm_cons, (parse_signed_app 17 _ _ _ (83 :: be_bytes 16 (ID t)) sig HL).
    change ((83 :: be_bytes 16 (ID t)) ++ sig)%list with ([83] ++ be_bytes 16 (ID t) ++ sig)%list.
    rewrite id_at_app by done. cbn [app]. destruct (be_bytes 16 (ID t) ++ sig)%list eqn:E2; [|done].
    apply (f_equal length) in E2. rewrite length_app, be_bytes_length in E2. done.
  - unfold id. rewrite !app_comm_cons, (parse_signed_app 27 _ _ _ (86 :: 2 :: TokType t :: be_bytes 16 (ID t) ++ be_bytes 8 _) sig HL).
    set (c := be_bytes 8 _).
    change ((86 :: 2 :: TokType t :: be_bytes 16 (ID t) ++ c) ++ sig)%list with ([86; 2; TokType t] ++ (be_bytes 16 (ID t) ++ c) ++ sig)%list.
    rewrite <- (app_assoc (be_bytes 16 (ID t))), id_at_app by done. rewrite !(app_assoc _ (be_bytes 16 (ID t))).
    rewrite drop_app_length' by by rewrite length_app, be_bytes_length. rewrite take_app_length' by (symmetry; apply be_bytes_length).
    unfold c. rewrite be_value_bytes, signed64_mod by done || by apply Z.mod_pos_bound. done.
  - unfold id. rewrite !app_comm_cons, (parse_signed_app 19 _ _ _ (86 :: 3 :: TokType t :: be_bytes 16 (ID t)) sig HL).
    change ((86 :: 3 :: TokType t :: be_bytes 16 (ID t)) ++ sig)%list with ([86; 3; TokType t] ++ be_bytes 16 (ID t) ++ sig)%list.
    by rewrite id_at_app.
Qed.

Lemma encode_parses t signFn s v (Hwf : wf_token t) (Hs : forall f b sig, signFn = Some f -> f b = inl sig -> Forall byte sig)
  (HE : Encode t signFn = inl s) (H36 : Version t = 0 \/ String.length s <> 36%nat) :
  if Version t =? 0 then Parse s (Some v) = inl (normal t, false)
  else exists sig, sign_with signFn (payload t) = inl sig /\
    Parse s (Some v) = let '(valid, old) := v (TokType t) (payload t) sig in
                       if valid then inl (normal t, old) else inr "invalid signature".
Proof.
  unfold Encode in HE. destruct (Z.eqb_spec (Version t) 0) as [E0|N0].
  - injection HE as <-. unfold Parse. rewrite uuid_String_length. cbn [Nat.eqb]. rewrite uuid_Parse_String by apply Hwf.
    unfold normal. by rewrite E0.
  - destruct H36 as [|H36]; [done|].
    assert (exists enc sig, s = enc (payload t ++ sig)%list /\ sign_with signFn (payload t) = inl sig /\ Version t ∈ [1; 2; 3] /\
      (Version t = 1 -> TokType t = TypeSession) /\ enc = if Version t =? 1 then PaddedEncode else EncodeToString) as (enc & sig & -> & Esig & Hv & H1 & Henc).
    { destruct (Z.eqb_spec (Version t) 1) as [E1|N1].
      - destruct (Z.eqb_spec (TokType t) TypeSession) as [Et|]; [|done]. cbn in HE. destruct (sign_with _ _) as [sig|] eqn:Es; [|done].
        injection HE as <-. exists PaddedEncode, sig. split_and!; try done. rewrite E1. by left.
      - destruct ((Version t =? 2) || (Version t =? 3)) eqn:E23; [|done]. destruct (sign_with _ _) as [sig|] eqn:Es; [|done].
        injection HE as <-. exists EncodeToString, sig. split_and!; try done. apply orb_true_iff in E23. rewrite !Z.eqb_eq in E23.
        destruct E23 as [-> | ->]; set_solver. }
    assert (Forall byte sig) as Hsig by (destruct signFn as [f|]; [by eapply Hs|by injection Esig as <-]).
    assert (Forall byte (payload t ++ sig)%list) as HB by (apply Forall_app; split; [apply payload_byte, Hwf|done]).
    assert (exists h rest, (payload t ++ sig)%list = h :: rest /\ h = if Version t =? 1 then 83 else 86) as (h & rest & Eh & Hh).
    { unfold payload. destruct (Version t =? 1); [by do 2 eexists|]. destruct (Version t =? 2); by do 2 eexists. }
    exists sig. split; [done|]. destruct (Encode_head h rest) as [tl Etl].
    rewrite !elem_of_cons, elem_of_nil in Hv. apply (parse_bytes t sig v); try done.
    + set_solver.
    + rewrite Eh, Henc. destruct (Version t =? 1); unfold PaddedEncode; rewrite Etl, ?append_cons; cbn; lia.
    + rewrite Henc. destruct (Z.eqb_spec (Version t) 1) as [E1|N1].
      * rewrite <- (PaddedDecode_Encode _ HB), Eh. unfold PaddedEncode. rewrite Etl, append_cons. by rewrite Hh.
      * rewrite <- (DecodeString_Encode _ HB), Eh, Etl. by rewrite Hh.
Qed.

(** C38: of the text that [Encode] gives for a token of version 1, 2 or 3, the
    function that verifies is asked for the type, the bytes that were signed and
    the signature; if it accepts them [Parse] returns what the version keeps of
    the token, and otherwise it refuses the text.  A text of 36 characters is
    excluded, since [Parse] reads it as a UUID ([unsigned_v2_read_as_uuid]).  A
    token of version 0 is the text of its id: the id is returned, and the function
    is not asked. *)
Theorem Parse_Encode t signFn s v (Hwf : wf_token t) (Hs : forall f b sig, signFn = Some f -> f b = inl sig -> Forall byte sig)
  (HE : Encode t signFn = inl s) (H36 : Version t = 0 \/ String.length s <> 36%nat) :
  if Version t =? 0 then Parse s (Some v) = inl (normal t, false)
  else exists sig, sign_with signFn (payload t) = inl sig /\
    Parse s (Some v) = let '(valid, old) := v (TokType t) (payload t) sig in
                       if valid then inl (normal t, old) else inr "invalid signature".
Proof. by apply encode_parses. Qed.

(** ** What is parsed was signed *)

Lemma take_be n k data : Forall byte data -> (k + n <= length data)%nat -> be_bytes n (be_value (take n (drop k data))) = take n (drop k data).
Proof.
  intros HF HL. rewrite <- (be_bytes_value (take n (drop k data))) at 2; [|by apply Forall_take, Forall_drop].
  f_equal. rewrite length_take, length_drop. lia.
Qed.

Lemma id_at_uuid k data : Forall byte data -> is_uuid (id_at k data).
Proof.
  intros HF. unfold id_at. destruct (be_value_range (take 16 (drop k data))) as [H1 H2]; [by apply Forall_take, Forall_drop|].
  split; [done|]. eapply Z.lt_le_trans; [exact H2|]. change (2 ^ 128) with (256 ^ 16). apply Z.pow_le_mono_r; [done|].
  rewrite length_take. lia.
Qed.

Lemma zero_in64 : in64 (Unix zeroTime).
Proof. vm_compute. by split. Qed.

Lemma wf_parts v ty u c : is_uuid u -> byte ty -> in64 (Unix c) -> wf_token (mkToken v ty u c).
Proof. done. Qed.

Lemma signed64_range z : 0 <= z < two64 -> in64 (signed64 z) /\ signed64 z mod two64 = z.
Proof. unfold in64, signed64, two63, two64. intros Hz. bcase; split; dlia. Qed.

Lemma parse_signed_inv n ty mk v data t old : parse_signed_token n ty mk v data = inl (t, old) ->
  (n <= length data)%nat /\ t = mk data /\ v ty (take n data) (drop n data) = (true, old).
Proof.
  unfold parse_signed_token. destruct (Nat.ltb_spec (length data) n); [done|]. destruct (v ty _ _) as [[] o]; [|done].
  intros [= <- <-]. done.
Qed.

(** Whatever text is parsed, the token is that of a UUID, with no type, or
    the bytes that encode all of it were accepted, with its type, by the function
    that verifies; no part of a token comes from bytes that were not signed. *)
Lemma Parse_authentic s v t old (HP : Parse s (Some v) = inl (t, old)) :
  wf_token t /\ normal t = t /\
  if Version t =? 0 then String.length s = 36%nat /\ uuid_Parse s = Some (ID t) /\ old = false
  else String.length s <> 36%nat /\ Version t ∈ [1; 2; 3] /\ exists sig, v (TokType t) (payload t) sig = (true, old).
Proof.
  unfold Parse in HP. destruct (String.length s =? 0)%nat; [done|]. destruct (Nat.eqb_spec (String.length s) 36) as [E36|N36].
  { destruct (uuid_Parse s) as [u|] eqn:Eu; [|done]. injection HP as <- <-. split; [|done].
    apply wf_parts; [by eapply uuid_Parse_range|done|apply zero_in64]. }
  destruct (_ s) as [data|] eqn:ED; [|done].
  assert (Forall byte data) as HF.
  { destruct s as [|c s']; [by injection ED as <-|]. destruct (decide (c = "U"%char)) as [->|Hc]; [by apply quanta_byte in ED|].
    apply (DecodeString_bytes (String c s')). rewrite <- ED. destruct c as [[] [] [] [] [] [] [] []]; try done. }
  clear ED. destruct data as [|h [|x data]]; [done|done|]. set (d := h :: x :: data) in *.
  destruct (Z.eqb_spec h 83) as [->|Hh].
  { apply parse_signed_inv in HP as (HL & -> & HV).
    split; [apply wf_parts; [by apply id_at_uuid|done|apply zero_in64]|]. split; [done|]. cbn [Version Z.eqb]. split_and!; [done|by left|].
    exists (drop 17 d). change (v TypeSession (take 17 d) (drop 17 d) = (true, old)) in HV. rewrite <- HV. cbn [TokType]. unfold payload. cbn [Version ID Z.eqb Pos.eqb].
      unfold id_at. rewrite take_be by (done || lia). done. }
  destruct (Z.eqb_spec h 86) as [->|]; [|done]. cbn [negb] in HP.
  assert (byte (nth 2 d 0)) as HT2.
  { destruct (nth_in_or_default 2 d 0) as [Hin| ->]; [|unfold byte; lia]. rewrite Forall_forall in HF. apply HF. by apply list_elem_of_In. }
  destruct (Z.eqb_spec x 3) as [->|].
  { apply parse_signed_inv in HP as (HL & -> & HV).
    split; [apply wf_parts; [by apply id_at_uuid|done|apply zero_in64]|]. split; [done|]. cbn [Version Z.eqb]. split_and!; [done|set_solver|].
    exists (drop 19 d). rewrite <- HV. cbn [TokType]. unfold payload. cbn [Version TokType ID Z.eqb Pos.eqb].
      unfold id_at. rewrite take_be by (done || lia). subst d. destruct data as [|y data]; [cbn in HL; lia|]. done. }
  destruct (Z.eqb_spec x 2) as [->|]; [|done].
  apply parse_signed_inv in HP as (HL & -> & HV). set (c := be_value (take 8 (drop 19 d))) in *.
  assert (0 <= c < two64) as Hc.
  { destruct (be_value_range (take 8 (drop 19 d))) as [H1 H2]; [by apply Forall_take, Forall_drop|]. split; [done|].
    rewrite length_take, length_drop in H2. replace (8 `min` (length d - 19))%nat with 8%nat in H2 by lia. exact H2. }
  destruct (signed64_range c Hc) as [Hc1 Hc2].
  split; [apply wf_parts; [by apply id_at_uuid|done|by rewrite Unix_of_seconds]|].
  unfold normal. cbn [Version ID TokType CreatedAt Z.eqb Pos.eqb]. rewrite Unix_of_seconds. split; [done|].
  split_and!; [done|set_solver|]. exists (drop 27 d). rewrite <- HV. unfold payload.
  cbn [Version ID TokType CreatedAt Z.eqb Pos.eqb]. rewrite Unix_of_seconds, Hc2. unfold id_at, c. rewrite !take_be by (done || lia).
  subst d. destruct data as [|y data]; [cbn in HL; lia|]. f_equal. cbn [take drop]. do 3 f_equal.
  change (take 24 data) with (take (16 + 8) data). rewrite <- take_take_drop. done.
Qed.

(** A token of version 2 that is encoded without a signature has the length of a
    UUID, and is read as one. *)
Lemma unsigned_v2_read_as_uuid t s v (Hv : Version t = 2) (HE : Encode t None = inl s) :
  String.length s = 36%nat /\ forall t' old, Parse s v = inl (t', old) -> Version t' = 0.
Proof.
  unfold Encode in HE. rewrite Hv in HE. cbn [Z.eqb Pos.eqb orb sign_with] in HE.
  assert (EncodeToString (payload t ++ [])%list = s) as <- by congruence.
  assert (String.length (EncodeToString (payload t ++ [])%list) = 36)%nat as HL.
  { apply Nat2Z.inj. by rewrite EncodeToString_length, app_nil_r, payload_size, Hv. }
  split; [done|]. intros t' old. unfold Parse. rewrite HL. cbn [Nat.eqb]. destruct (uuid_Parse _); [|done]. by intros [= <- <-].
Qed.
End token.

(** ** Examples *)

Section examples.
#[local] Existing Instance nibble_uuid.

Definition sample_sign : SignFunc := fun _ => inl [115; 105; 103].
Definition sample_verify : VerifyFunc := fun _ _ sig => (bool_decide (sig = [115; 105; 103]), true).
Definition sample_session : Token := mkToken 1 TypeSession 220116586012306023690892226266634256060 zeroTime.

(** The key of the tests *)
Example existing_key :
  Parse "U9obklyVC0wduWIy75nbivABDxwc-rANyqNA4CZQzhkJHuNlUCfJDPpcG6W9bEIPddqPbh-sxMS1Km87jC9yLASp3i1UWtdDu2udCzM="
    (Some (fun _ _ _ => (true, true))) = inl (mkToken 1 TypeSession 0xda1b925c950b4c1db96232ef99db8af0 zeroTime, true).
Proof. vm_compute. reflexivity. Qed.

Example v2_bytes : payload (mkToken 2 TypeCalSub 0x0102030405060708090a0b0c0d0e0f10 (time_Unix 1337)) =
  [86; 2; 2; 1; 2; 3; 4; 5; 6; 7; 8; 9; 10; 11; 12; 13; 14; 15; 16; 0; 0; 0; 0; 0; 0; 5; 57].
Proof. vm_compute. reflexivity. Qed.

Lemma Parse_Encode_witness :
  exists s, Encode sample_session (Some sample_sign) = inl s /\ Parse s (Some sample_verify) = inl (sample_session, true).
Proof.
  assert (exists s, Encode sample_session (Some sample_sign) = inl s) as [s HE] by (eexists; vm_compute; reflexivity).
  exists s. split; [exact HE|].
  assert (Hwf : wf_token sample_session) by (split_and!; vm_compute; by split).
  assert (Hs : forall f b sig, Some sample_sign = Some f -> f b = inl sig -> Forall byte sig).
  { intros f b sig [= <-] [= <-]. repeat constructor; unfold byte; lia. }
  assert (H36 : String.length s <> 36%nat) by (revert HE; vm_compute; by intros [= <-]).
  destruct (Parse_Encode sample_session (Some sample_sign) s sample_verify Hwf Hs HE (or_intror H36)) as (sig & Es & ->).
  injection Es as <-. reflexivity.
Defined.
End examples.
