(* ===== verification/Keyring.v ===== *)
(** * Keys: [keyring]

    A keyring signs with one key and verifies with several: the keys of earlier
    rotations and the next one, so that instances that have not refreshed their
    copy accept what others sign.  The keys are in a row of a table that all
    instances share; [refreshAndRotateKeys] reads it under a row lock and rotates
    the keys if it is time. *)

From Stdlib Require Import Ascii.
From S2P Require Import Prelude Text Effects Database GoTime Unicode Validate Permission AuthToken.

(** ** What is used of [crypto], [encoding/pem] and [encoding/json]

    A call that uses [crypto/rand] is given a number.  [ParsePKIX] gives [Some None]
    for a key of another kind. *)

Class Crypto := {
  PrivateKey : Type;
  PublicKey : Type;
  PEM : Type;
  public_of : PrivateKey -> PublicKey;
  ecdsa_GenerateKey : nat -> option PrivateKey;
  Sum512_224 : list Z -> list Z;
  ecdsa_Sign : nat -> PrivateKey -> list Z -> option (Z * Z);
  ecdsa_Verify : PublicKey -> list Z -> Z -> Z -> bool;
  MarshalPKIX : PublicKey -> option (list Z);
  ParsePKIX : list Z -> option (option PublicKey);
  MarshalEC : PrivateKey -> option (list Z);
  ParseEC : list Z -> option PrivateKey;
  EncryptPEMBlock : nat -> string -> list Z -> list Z -> option PEM;
  DecryptPEMBlock : PEM -> list Z -> option (list Z);
  pem_Type : PEM -> string;
  pem_EncodeToMemory : PEM -> list Z;
  pem_Decode : list Z -> option PEM;
  json_Marshal : gmap Z (list Z) -> list Z;
  json_Unmarshal : list Z -> option (gmap Z (list Z));
  ecdsa_Sign_range : forall n k d r s, ecdsa_Sign n k d = Some (r, s) -> 0 <= r < 2 ^ 224 /\ 0 <= s < 2 ^ 224;
  ecdsa_Sign_Verify : forall n k d r s, ecdsa_Sign n k d = Some (r, s) -> ecdsa_Verify (public_of k) d r s = true;
  ParsePKIX_Marshal : forall k d, MarshalPKIX k = Some d -> ParsePKIX d = Some (Some k);
  ParseEC_Marshal : forall k d, MarshalEC k = Some d -> ParseEC d = Some k;
  Decrypt_Encrypt : forall n l d k b, EncryptPEMBlock n l d k = Some b -> DecryptPEMBlock b k = Some d /\ pem_Type b = l;
  Decode_Encode : forall b, pem_Decode (pem_EncodeToMemory b) = Some b;
  Unmarshal_Marshal : forall m, json_Unmarshal (json_Marshal m) = Some m
}.

(** ** Encryption of the stored keys: [keys.go] *)

Section keys.
Context {HC : Crypto}.

Definition Keys : Type := list (list Z).

Definition key_list (k : Keys) : Keys := match k with [] => [[]] | _ => k end.

Definition Encrypt (rnd : nat) (k : Keys) (label : string) (data : list Z) : option (list Z) :=
  pem_EncodeToMemory <$> EncryptPEMBlock rnd label data (hd [] (key_list k)).

Fixpoint first_key (b : PEM) (ks : Keys) : option (list Z) :=
  match ks with
  | [] => None
  | k :: ks => match DecryptPEMBlock b k with Some d => Some d | None => first_key b ks end
  end.

(** [None] is a panic: what is not in PEM format is a nil block, which
    [DecryptPEMBlock] dereferences. *)
Definition Decrypt (k : Keys) (pemData : list Z) : option (list Z * string + string) :=
  match pem_Decode pemData with
  | None => None
  | Some b => Some (match first_key b (key_list k) with
                    | Some d => inl (d, pem_Type b)
                    | None => inr "invalid decryption key"
                    end)
  end.

(** ** The verification keys of the row *)

Definition marshalVerificationKeys (keys : gmap Z PublicKey) : option (list Z) :=
  if bool_decide (map_Forall (fun _ k => is_Some (MarshalPKIX k)) keys) then Some (json_Marshal (omap MarshalPKIX keys)) else None.

(** A key that cannot be parsed or is not for ECDSA is left out. *)
Definition parseVerificationKeys (data : list Z) : option (gmap Z PublicKey) :=
  match json_Unmarshal data with
  | None => None
  | Some m => Some (omap (fun d => match ParsePKIX d with Some (Some k) => Some k | _ => None end) m)
  end.
End keys.

(** ** Configuration *)

Record Config := mkConfig { cfg_Name : string; RotationDays : Z; MaxOldKeys : Z; cfg_Keys : Keys }.

(** The checks of [NewDB]; no configuration is the default one. *)
Definition NewDB_config (cfg : option Config) : Config + VErr :=
  let cfg := default (mkConfig "default" 0 0 []) cfg in
  let cfg := mkConfig (cfg_Name cfg) (RotationDays cfg) (if MaxOldKeys cfg =? 0 then 1 else MaxOldKeys cfg) (cfg_Keys cfg) in
  match Many [IDName "Name" (cfg_Name cfg); Range "MaxOldKeys" (MaxOldKeys cfg) 1 254;
              Range "RotationDays" (RotationDays cfg) 0 9000] with
  | Some e => inr e
  | None => inl cfg
  end.

(** ** The table and the memory of an instance *)

(** [keyring]: a row is for one name. *)
Record Row := mkRow { k_verification : list Z; k_signing : list Z; k_next : list Z; k_next_rotation : option Z; k_count : Z }.

Notation Table := (gmap string Row) (only parsing).

Section ring.
Context {HC : Crypto}.

Record Mem := mkMem { verificationKeys : gmap Z PublicKey; signingKey : option PrivateKey; rotationCount : Z }.

Inductive KErr := KDB (e : DBErr) | KJSON | KCrypto (msg : string).

(** [kw_tbl] is what is committed, [kw_view] what the transaction sees. *)
Record KWorld := mkKW { kw_tbl : Table; kw_view : Table; kw_mem : Mem; kw_calls : nat }.

Context (db_err : nat -> option DBErr) (clock : nat -> Z) (others : nat -> Table -> Table) (commit_lost : nat -> bool).
Context (cfg : Config).

Local Notation M := (Effects.M KWorld KErr).

Definition kw_tick (w : KWorld) : KWorld := mkKW (kw_tbl w) (kw_view w) (kw_mem w) (S (kw_calls w)).

(** A database call; a statement that waits for a lock sees what others have
    committed meanwhile. *)
Definition kcall {A} (f : KWorld -> A * KWorld) : M A := fun w =>
  match db_err (kw_calls w) with
  | Some e => (Err (KDB e), kw_tick w)
  | None => let '(a, w') := f w in (Ok a, kw_tick w')
  end.

Definition after_others (w : KWorld) : KWorld :=
  let t := others (kw_calls w) (kw_tbl w) in mkKW t t (kw_mem w) (kw_calls w).

Definition BeginTx : M unit := kcall (fun w => (tt, mkKW (kw_tbl w) (kw_tbl w) (kw_mem w) (kw_calls w))).

Definition txTime : M Z := kcall (fun w => (clock (kw_calls w), w)).

(** [fetchKeys], and the time *)
Definition fetchKeys : M (option Row * Z) :=
  kcall (fun w => let w := after_others w in ((kw_tbl w !! cfg_Name cfg, clock (kw_calls w)), w)).

Definition setKeys (r : Row) : M unit :=
  kcall (fun w => (tt, mkKW (kw_tbl w) (alter (fun _ => r) (cfg_Name cfg) (kw_view w)) (kw_mem w) (kw_calls w))).

(** [insertKeys]: the number of rows; nothing is done on conflict. *)
Definition insertKeys (r : Row) : M Z :=
  kcall (fun w => let w := after_others w in
    match kw_view w !! cfg_Name cfg with
    | Some _ => (0, w)
    | None => (1, mkKW (kw_tbl w) (<[cfg_Name cfg := r]> (kw_view w)) (kw_mem w) (kw_calls w))
    end).

(** A commit that fails may have taken effect. *)
Definition Commit : M unit := fun w =>
  let done := mkKW (kw_view w) (kw_view w) (kw_mem w) (S (kw_calls w)) in
  match db_err (kw_calls w) with
  | Some e => (Err (KDB e), if commit_lost (kw_calls w) then done else kw_tick w)
  | None => (Ok tt, done)
  end.

(** [None] is an error of the libraries; a number is used for each. *)
Definition random {A} (f : nat -> option A) : M A := fun w =>
  match f (kw_calls w) with Some a => (Ok a, kw_tick w) | None => (Err (KCrypto "crypto"), kw_tick w) end.

Definition or_err {A} (o : option A) (e : KErr) : M A := match o with Some a => ret a | None => fail e end.

Definition set_mem (m : Mem) : M unit := fun w => (Ok tt, mkKW (kw_tbl w) (kw_view w) m (kw_calls w)).

Definition newKey : M (PrivateKey * list Z) :=
  let! key := random ecdsa_GenerateKey in
  let! data := or_err (MarshalEC key) (KCrypto "marshal") in
  let! data := random (fun n => Encrypt n (cfg_Keys cfg) "ECDSA PRIVATE KEY" data) in
  ret (key, data).

(** [None] is a panic; an error is [inr]. *)
Definition loadKey (encData : list Z) : option (PrivateKey + string) :=
  match Decrypt (cfg_Keys cfg) encData with
  | None => None
  | Some (inr e) => Some (inr e)
  | Some (inl (data, _)) => Some (match ParseEC data with Some k => inl k | None => inr "parse" end)
  end.

(** A signing key that cannot be loaded is none; the error is logged. *)
Definition load_signing (data : list Z) : M (option PrivateKey) :=
  let! r := need (loadKey data) in
  ret (match r with inl k => Some k | inr _ => None end).

Definition nextRotTime (t : Z) : option Z :=
  if 0 <? RotationDays cfg then Some (t + Hour * 24 * RotationDays cfg) else None.

Definition commitNewKeyring : M unit :=
  let! t := txTime in
  let! sign := newKey in
  let! next := newKey in
  let v := <[0 := public_of sign.1]> (<[1 := public_of next.1]> ∅) in
  let! vData := or_err (marshalVerificationKeys v) (KCrypto "marshal") in
  let! rowCount := insertKeys (mkRow vData sign.2 next.2 (nextRotTime t) 0) in
  Commit ;;;
  if rowCount =? 0 then
    let! row := fetchKeys in
    let! r := or_err row.1 (KDB ErrNoRows) in
    let! v := or_err (parseVerificationKeys (k_verification r)) KJSON in
    let! signKey := load_signing (k_signing r) in
    set_mem (mkMem v signKey (k_count r))
  else set_mem (mkMem v (Some sign.1) 0).

Definition rotateVerificationKeys (m : gmap Z PublicKey) (n : Z) (newKey : PublicKey) : gmap Z PublicKey :=
  <[(n + 1) mod 256 := newKey]>
    (fold_left (fun newM i => match m !! (i mod 256) with Some key => <[i mod 256 := key]> newM | None => newM end)
       (seqZ (n - MaxOldKeys cfg) (MaxOldKeys cfg + 1)) ∅).

(** [rotateT.Valid && !t.Before(rotateT.Time)] *)
Definition due (t : Z) (rotateT : option Z) : bool := match rotateT with Some r => negb (t <? r) | None => false end.

Definition refreshAndRotateKeys (forceRotation : bool) : M unit :=
  BeginTx ;;;
  let! row := fetchKeys in
  match row with
  | (None, _) => commitNewKeyring
  | (Some r, t) =>
      let! verificationKeys := or_err (parseVerificationKeys (k_verification r)) KJSON in
      let! new :=
        (if forceRotation || due t (k_next_rotation r) then
           let! nextKey := newKey in
           let count := k_count r + 1 in
           let verificationKeys := rotateVerificationKeys verificationKeys count (public_of nextKey.1) in
           let! vKeysData := or_err (marshalVerificationKeys verificationKeys) (KCrypto "marshal") in
           setKeys (mkRow vKeysData (k_next r) nextKey.2 (nextRotTime t) count) ;;;
           Commit ;;;
           ret (verificationKeys, k_next r, count)
         else ret (verificationKeys, k_signing r, k_count r)) in
      let! signKey := load_signing new.1.2 in
      set_mem (mkMem new.1.1 signKey new.2)
  end.

(** ** Signatures *)

(** [big.Int.Bytes] *)
Definition int_Bytes (z : Z) : list Z := be_bytes (if z =? 0 then 0 else Z.to_nat (Z.log2 z / 8 + 1)) z.

(** [copy] to an array of 28 bytes *)
Definition array28 (bs : list Z) : list Z := take 28 (bs ++ replicate 28 0).

(** [header] and [v1Signature] as bytes *)
Definition v1_bytes (index r s : Z) : list Z :=
  1 :: index :: Z.of_nat (length (int_Bytes r)) mod 256 :: Z.of_nat (length (int_Bytes s)) mod 256
    :: array28 (int_Bytes r) ++ array28 (int_Bytes s).

Definition Sign (rnd : nat) (m : Mem) (p : list Z) : list Z + string :=
  match signingKey m with
  | None => inr "signing key unavailable"
  | Some key =>
      match ecdsa_Sign rnd key (Sum512_224 p) with
      | None => inr "sign"
      | Some (r, s) => inl (v1_bytes (rotationCount m mod 256) r s)
      end
  end.

(** Whether the signature is valid, and made with an old key *)
Definition Verify (m : Mem) (p signature : list Z) : bool * bool :=
  match signature with
  | version :: index :: sig =>
      if negb (version =? 1) then (false, false)
      else if negb (length sig =? 58)%nat then (false, false)
      else
        let rlen := nth 0 sig 0 in
        let slen := nth 1 sig 0 in
        if (28 <? rlen) || (28 <? slen) then (false, false)
        else match verificationKeys m !! index with
             | None => (false, false)
             | Some key =>
                 let r := be_value (take (Z.to_nat rlen) (take 28 (drop 2 sig))) in
                 let s := be_value (take (Z.to_nat slen) (drop 30 sig)) in
                 if ecdsa_Verify key (Sum512_224 p) r s then
                   (true, negb (index =? rotationCount m mod 256) && negb (index =? (rotationCount m + 1) mod 256))
                 else (false, false)
             end
  | _ => (false, false)
  end.
End ring.

(** ** Encrypting everything again: [reencrypt.go] *)

Section reencrypt.
Context {HC : Crypto} {HR : GoMapRange}.

(** The tables [keyring] and [config] *)
Record RWorld := mkRW { rw_rings : gmap string Row; rw_configs : gmap Z (list Z); rw_calls : nat }.

Inductive RErr := RDenied (d : Denied) | RNoKeys | RDB (e : DBErr) | RDecrypt (msg : string) | REncrypt.

Context (db_err : nat -> option DBErr) (commit_lost : nat -> bool).

Local Notation M := (Effects.M RWorld RErr).

Definition rw_tick (w : RWorld) : RWorld := mkRW (rw_rings w) (rw_configs w) (S (rw_calls w)).

Definition rcall {A} (f : RWorld -> A * RWorld) : M A := fun w =>
  match db_err (rw_calls w) with
  | Some e => (Err (RDB e), rw_tick w)
  | None => let '(a, w') := f w in (Ok a, rw_tick w')
  end.

Definition decrypt (keys : Keys) (data : list Z) : M (list Z * string) :=
  let! r := need (Decrypt keys data) in
  match r with inl d => ret d | inr msg => fail (RDecrypt msg) end.

Definition encrypt (keys : Keys) (d : list Z * string) : M (list Z) := fun w =>
  match Encrypt (rw_calls w) keys d.2 d.1 with
  | Some enc => (Ok enc, rw_tick w)
  | None => (Err REncrypt, rw_tick w)
  end.

(** [Keyring_UpdateKeyringSecrets] *)
Definition with_secrets (sign next : list Z) (r : Row) : Row := mkRow (k_verification r) sign next (k_next_rotation r) (k_count r).

Definition UpdateKeyringSecrets (id : string) (sign next : list Z) : M unit :=
  rcall (fun w => (tt, mkRW (alter (with_secrets sign next) id (rw_rings w)) (rw_configs w) (rw_calls w))).

(** [Keyring_UpdateConfigPayload] *)
Definition UpdateConfigPayload (id : Z) (data : list Z) : M unit :=
  rcall (fun w => (tt, mkRW (rw_rings w) (alter (fun _ => data) id (rw_configs w)) (rw_calls w))).

Definition reencrypt_ring (keys : Keys) (ring : string * Row) : M unit :=
  let! sign := decrypt keys (k_signing ring.2) in
  let! next := decrypt keys (k_next ring.2) in
  let! encSign := encrypt keys sign in
  let! encNext := encrypt keys next in
  UpdateKeyringSecrets ring.1 encSign encNext.

Definition reencrypt_config (keys : Keys) (cfg : Z * list Z) : M unit :=
  let! dec := decrypt keys cfg.2 in
  let! enc := encrypt keys dec in
  UpdateConfigPayload cfg.1 enc.

(** What runs in the transaction: both tables are locked before they are read. *)
Definition reencrypt_tables (keys : Keys) : M unit :=
  rcall (fun w => (tt, w)) ;;;
  let! rings := rcall (fun w => (map_range (rw_rings w), w)) in
  each (reencrypt_ring keys) rings ;;;
  rcall (fun w => (tt, w)) ;;;
  let! cfgs := rcall (fun w => (map_range (rw_configs w), w)) in
  each (reencrypt_config keys) cfgs.

Definition ReEncryptAll (c : Ctx) (keys : Keys) : M unit := fun w =>
  match LimitCheckAny c [Some Admin] with
  | Some d => (Err (RDenied d), w)
  | None =>
      match keys with
      | [] => (Err RNoKeys, w)
      | _ =>
          let back w' := mkRW (rw_rings w) (rw_configs w) (rw_calls w') in
          match bind (rcall (fun w => (tt, w))) (fun _ => reencrypt_tables keys) w with
          | (Ok _, w') =>
              match db_err (rw_calls w') with
              | Some e => (Err (RDB e), if commit_lost (rw_calls w') then rw_tick w' else back (rw_tick w'))
              | None => (Ok tt, rw_tick w')
              end
          | (Err e, w') => (Err e, back w')
          | (Panic, w') => (Panic, back w')
          end
      end
  end.
End reencrypt.

(** ** The loop: [loop], [RotateKeys], [Shutdown]

    The channels have no buffer: a send and a receive happen at once.  A send on
    a closed channel panics. *)

Inductive Caller := Sending | Waiting | Answered | Panicked.

#[global] Instance Caller_eq_dec : EqDecision Caller.
Proof. solve_decision. Defined.

Inductive LoopState := Selecting | Rotating (i : nat) | Leaving | Ended.

Record Loop := mkLoop { lp_state : LoopState; lp_rotate : list Caller; lp_shutdown : list Caller }.

(** What closing a channel does to those that send on it and to those that receive *)
Definition close_send (l : list Caller) : list Caller := map (fun c => if decide (c = Sending) then Panicked else c) l.
Definition close_receive (l : list Caller) : list Caller :=
  map (fun c => match c with Sending => Panicked | Waiting => Answered | _ => c end) l.

Inductive loop_step : Loop -> Loop -> Prop :=
  | step_call_rotate s r d : loop_step (mkLoop s r d) (mkLoop s (r ++ [match s with Ended => Panicked | _ => Sending end]) d)
  | step_call_shutdown s r d : loop_step (mkLoop s r d) (mkLoop s r (d ++ [match s with Ended => Panicked | _ => Sending end]))
  | step_force i r d : r !! i = Some Sending -> loop_step (mkLoop Selecting r d) (mkLoop (Rotating i) (<[i := Waiting]> r) d)
  | step_answer i r d : loop_step (mkLoop (Rotating i) r d) (mkLoop Selecting (<[i := Answered]> r) d)
  | step_shutdown j r d : d !! j = Some Sending -> loop_step (mkLoop Selecting r d) (mkLoop Leaving r (<[j := Waiting]> d))
    (** a second call of [Shutdown] sends to the first, which waits on the same channel *)
  | step_handover s r d j k : d !! j = Some Sending -> d !! k = Some Waiting ->
      loop_step (mkLoop s r d) (mkLoop s r (<[j := Waiting]> (<[k := Answered]> d)))
    (** [close(db.forceRotate)], after which the range over it ends at once, and the
        deferred [close(db.shutdown)] *)
  | step_end r d : loop_step (mkLoop Leaving r d) (mkLoop Ended (close_send r) (close_receive d)).
