(* ===== verification/KeyringSpec.v ===== *)
(** * What a keyring keeps

    The keys of all rotations are a list, of which the row of the table has the
    last two private keys and the last few public ones, and the memory of an
    instance a copy from some rotation.  [refreshAndRotateKeys] keeps this, with
    any errors and with other instances at work, and two instances that are not
    too many rotations apart accept each other's signatures. *)

From Stdlib Require Import Ascii String.
From S2P Require Import Prelude Text Effects Database GoTime Unicode Validate Permission AuthToken Keyring.

Section spec.
Context {HC : Crypto}.
Context (cfg : Config) (Hold : 1 <= MaxOldKeys cfg <= 254).

(** ** Keys at a rotation *)

Definition pub_at (ks : list PrivateKey) (i : Z) : option PublicKey := if i <? 0 then None else public_of <$> ks !! Z.to_nat i.

(** The public keys that an instance has after [c] rotations, by the last byte of their number *)
Definition keys_at (ks : list PrivateKey) (c : Z) (m : gmap Z PublicKey) : Prop :=
  forall b k, m !! b = Some k <-> exists i, c - MaxOldKeys cfg <= i <= c + 1 /\ b = i mod 256 /\ pub_at ks i = Some k.

Definition stored (k : PrivateKey) (data : list Z) : Prop := loadKey cfg data = Some (inl k).

Definition ring (ks : list PrivateKey) (o : option Row) : Prop :=
  match o with
  | None => ks = []
  | Some r => 0 <= k_count r /\ Z.of_nat (length ks) = k_count r + 2 /\
      (exists m, parseVerificationKeys (k_verification r) = Some m /\ keys_at ks (k_count r) m) /\
      (exists k, ks !! Z.to_nat (k_count r) = Some k /\ stored k (k_signing r)) /\
      (exists k, ks !! Z.to_nat (k_count r + 1) = Some k /\ stored k (k_next r))
  end.

Definition mem_at (ks : list PrivateKey) (m : Mem) : Prop :=
  0 <= rotationCount m /\ rotationCount m + 2 <= Z.of_nat (length ks) /\ keys_at ks (rotationCount m) (verificationKeys m) /\
  (signingKey m = None \/ signingKey m = ks !! Z.to_nat (rotationCount m)).

Lemma pub_at_app ks new i : i < Z.of_nat (length ks) -> pub_at (ks ++ new) i = pub_at ks i.
Proof. intros Hi. unfold pub_at. destruct (Z.ltb_spec i 0); [done|]. rewrite lookup_app_l; [done|lia]. Qed.

Lemma keys_at_app ks new c m : c + 2 <= Z.of_nat (length ks) -> keys_at ks c m -> keys_at (ks ++ new) c m.
Proof.
  intros Hc Hm b k. rewrite (Hm b k). split; intros (i & Hi & Hb & Hk); exists i; split_and!; try done; try lia;
    by rewrite pub_at_app in * by lia.
Qed.

(** A memory stays good when keys are added. *)
Lemma mem_at_app ks new m : mem_at ks m -> mem_at (ks ++ new) m.
Proof.
  intros (H1 & H2 & H3 & H4). split_and!; [done|rewrite length_app; lia|by apply keys_at_app|].
  destruct H4 as [H4|H4]; [by left|right]. rewrite lookup_app_l; [done|lia].
Qed.

Lemma byte_inj i j : i mod 256 = j mod 256 -> Z.abs (i - j) < 256 -> i = j.
Proof. clear. intros. dlia. Qed.

(** ** Rotation of the verification keys *)

Lemma rotate_loop (m : gmap Z PublicKey) l : forall (acc : gmap Z PublicKey) b,
  fold_left (fun newM i => match m !! (i mod 256) with Some key => <[i mod 256 := key]> newM | None => newM end) l acc !! b =
  if bool_decide (b ∈ map (fun i => i mod 256) l) then match m !! b with Some k => Some k | None => acc !! b end else acc !! b.
Proof.
  clear Hold. induction l as [|i l IH]; intros acc b; [done|]. cbn [fold_left map]. rewrite IH.
  destruct (decide (b = i mod 256)) as [->|Hne].
  - rewrite (bool_decide_eq_true_2 (_ ∈ _ :: _)) by left. destruct (m !! (i mod 256)) as [k|] eqn:E; [|by case_bool_decide].
    rewrite lookup_insert_eq. by case_bool_decide.
  - rewrite (bool_decide_ext (b ∈ i mod 256 :: _) (b ∈ map (fun i => i mod 256) l)) by (rewrite elem_of_cons; tauto).
    destruct (m !! (i mod 256)) as [k|]; [|done]. by rewrite lookup_insert_ne.
Qed.

(** The keys of [n] rotations become those of [n + 1]. *)
Lemma rotate_keys ks key n m : Z.of_nat (length ks) = n + 2 -> keys_at ks n m ->
  keys_at (ks ++ [key]) (n + 1) (rotateVerificationKeys cfg m (n + 1) (public_of key)).
Proof using Hold.
  intros HL Hm b k. unfold rotateVerificationKeys.
  assert (pub_at (ks ++ [key]) (n + 2) = Some (public_of key)) as Hnew.
  { unfold pub_at. destruct (Z.ltb_spec (n + 2) 0); [lia|]. rewrite lookup_app_r by lia.
    replace (Z.to_nat (n + 2) - length ks)%nat with 0%nat by lia. done. }
  replace (n + 1 + 1) with (n + 2) by lia.
  destruct (decide (b = (n + 2) mod 256)) as [->|Hne].
  { rewrite lookup_insert_eq. split.
    - intros [= <-]. exists (n + 2). split_and!; [lia|lia|done|done].
    - intros (i & Hi & Hb & Hk). apply byte_inj in Hb; [|lia]. congruence. }
  rewrite lookup_insert_ne by done. rewrite rotate_loop, lookup_empty.
  assert (b ∈ map (fun i => i mod 256) (seqZ (n + 1 - MaxOldKeys cfg) (MaxOldKeys cfg + 1)) <->
    exists i, n + 1 - MaxOldKeys cfg <= i <= n + 1 /\ b = i mod 256) as HW.
  { rewrite list_elem_of_fmap. setoid_rewrite elem_of_seqZ. split; intros (i & H1 & H2); exists i; split; (done || lia). }
  split.
  - case_bool_decide as HB; [|done]. destruct (m !! b) as [k'|] eqn:Eb; [|done]. intros [= ->]. apply HW in HB as (i & Hi & ->).
    apply Hm in Eb as (j & Hj & Hb & Hk). apply byte_inj in Hb; [|lia]. subst j. exists i. split_and!; [lia|lia|done|].
    by rewrite pub_at_app by lia.
  - intros (i & Hi & -> & Hk). assert (i <> n + 2) by (intros ->; by apply Hne).
    rewrite bool_decide_eq_true_2 by (apply HW; exists i; split; [lia|done]).
    rewrite pub_at_app in Hk by lia. assert (m !! (i mod 256) = Some k) as -> by (apply Hm; exists i; split_and!; [lia|lia|done|done]). done.
Qed.

(** The first two keys *)
Lemma first_keys k0 k1 : keys_at [k0; k1] 0 (<[0 := public_of k0]> (<[1 := public_of k1]> ∅)).
Proof using Hold.
  intros b k. split.
  - rewrite !lookup_insert_Some, lookup_empty. intros [[<- <-]|[_ [[<- <-]|[_ [=]]]]]; [exists 0|exists 1]; split_and!; done || lia.
  - intros (i & Hi & -> & Hk). unfold pub_at in Hk. destruct (Z.ltb_spec i 0); [done|]. assert (i = 0 \/ i = 1) as [-> | ->] by lia.
    + by rewrite lookup_insert_eq.
    + rewrite lookup_insert_ne by done. by rewrite lookup_insert_eq.
Qed.

(** ** The texts of keys are read back *)

Lemma parse_marshal keys data : marshalVerificationKeys keys = Some data -> parseVerificationKeys data = Some keys.
Proof.
  unfold marshalVerificationKeys, parseVerificationKeys. case_bool_decide as HF; [|done]. intros [= <-]. rewrite Unmarshal_Marshal.
  f_equal. apply map_eq. intros b. rewrite !lookup_omap. destruct (keys !! b) as [k|] eqn:E; [|done]. cbn.
  destruct (HF b k E) as [d Hd]. rewrite Hd. cbn. by rewrite (ParsePKIX_Marshal _ _ Hd).
Qed.

Lemma stored_new n key data enc : MarshalEC key = Some data -> Encrypt n (cfg_Keys cfg) "ECDSA PRIVATE KEY" data = Some enc -> stored key enc.
Proof.
  intros HM HE. unfold Encrypt in HE. apply fmap_Some in HE as (b & Hb & ->). unfold stored, loadKey, Decrypt. rewrite Decode_Encode.
  apply Decrypt_Encrypt in Hb as [Hb _]. destruct (key_list (cfg_Keys cfg)) as [|k0 l] eqn:El; [by unfold key_list in El; destruct (cfg_Keys cfg)|].
  cbn [hd] in Hb. cbn [first_key]. rewrite Hb. by rewrite (ParseEC_Marshal _ _ HM).
Qed.

(** ** What others do to the table *)

Definition extends (f : Table -> Table) : Prop :=
  forall ks t, ring ks (t !! cfg_Name cfg) -> exists new, ring (ks ++ new) (f t !! cfg_Name cfg).

(** ** A refresh *)

Section refresh.
Context (db_err : nat -> option DBErr) (clock : nat -> Z) (others : nat -> Table -> Table) (commit_lost : nat -> bool).
Context (Hothers : forall n, extends (others n)).
Context (ks0 : list PrivateKey) (mem0 : Mem).

Local Notation at_name w := (kw_tbl w !! cfg_Name cfg).
Local Notation refresh := (refreshAndRotateKeys db_err clock others commit_lost cfg).

Definition kept (w : KWorld) : Prop := kw_mem w = mem0 /\ exists new, ring (ks0 ++ new) (at_name w).

(** An error leaves the memory. *)
Definition erred (x : option KErr) (w : KWorld) : Prop := is_Some x /\ kept w.

Definition framed (P : KWorld -> Prop) : Prop := forall w, P w -> P (kw_tick w).

Lemma triple_kcall {A} P (f : KWorld -> A * KWorld) (Q : A -> KWorld -> Prop) : framed kept ->
  (forall w, P w -> kept w) -> (forall w a w', P w -> f w = (a, w') -> Q a (kw_tick w')) ->
  triple P (kcall db_err f) Q erred.
Proof.
  intros Hk HP HQ w Hw. unfold kcall. destruct (db_err (kw_calls w)); [split; [done|by apply Hk, HP]|].
  destruct (f w) as [a w'] eqn:E. by eapply HQ.
Qed.

Lemma kept_framed : framed kept.
Proof. by intros w Hw. Qed.

Lemma triple_random {A} P (f : nat -> option A) : framed P -> (forall w, P w -> kept w) ->
  triple P (random f) (fun a w => (exists n, f n = Some a) /\ P w) erred.
Proof.
  intros HF HP w Hw. unfold random. destruct (f (kw_calls w)) eqn:E; [split; [by eexists|by apply HF]|].
  split; [done|by apply HP, HF].
Qed.

Lemma triple_or_err {A} P (o : option A) e : (forall w, P w -> kept w) -> triple P (or_err o e) (fun a w => o = Some a /\ P w) erred.
Proof. intros HP w Hw. unfold or_err. destruct o; [done|]. split; [done|by apply HP]. Qed.

Lemma triple_newKey P : framed P -> (forall w, P w -> kept w) ->
  triple P (newKey cfg) (fun kd w => stored kd.1 kd.2 /\ P w) erred.
Proof.
  intros HF HP. unfold newKey. eapply triple_bind; [by apply triple_random|]. intros key. cbv beta.
  eapply triple_bind; [apply triple_or_err; intros w [_ Hw]; by apply HP|].
  intros data. eapply triple_bind.
  { apply triple_random; [intros w (H1 & H2 & Hw); split_and!; [done..|by apply HF]|intros w (_ & _ & Hw); by apply HP]. }
  intros enc w ([n Hn] & Hm & _ & Hw). split; [by eapply stored_new|done].
Qed.

(** The row that others leave, when a lock on it is got *)
Definition locked (ks : list PrivateKey) (w : KWorld) : Prop :=
  kw_mem w = mem0 /\ ks0 `prefix_of` ks /\ ring ks (at_name w) /\ kw_view w = kw_tbl w.

Lemma kept_others w : kept w -> exists ks, locked ks (after_others others w).
Proof using Hothers.
  intros (Hm & new & Hr). destruct (Hothers (kw_calls w) (ks0 ++ new) _ Hr) as [new' Hr'].
  exists ((ks0 ++ new) ++ new'). split_and!; [done|rewrite <- app_assoc; by eexists|done|done].
Qed.

Lemma locked_kept ks w : locked ks w -> kept w.
Proof. intros (Hm & [new ->] & Hr & _). split; [done|by exists new]. Qed.

Lemma triple_fetch P : (forall w, P w -> kept w) ->
  triple P (fetchKeys db_err clock others cfg) (fun r w => exists ks, locked ks w /\ ring ks r.1 /\ r.1 = at_name w) erred.
Proof using Hothers.
  intros HP. apply triple_kcall; [apply kept_framed|done|]. intros w a w' Hw [= <- <-].
  destruct (kept_others w (HP w Hw)) as [ks Hk]. exists ks. split_and!; [exact Hk|exact (proj1 (proj2 (proj2 Hk)))|done].
Qed.

(** A signing key that cannot be loaded is none. *)
Lemma triple_load P (o : option PrivateKey) data : (forall w, P w -> exists k, o = Some k /\ stored k data) ->
  triple P (load_signing cfg data) (fun k w => k = o /\ P w) erred.
Proof.
  intros HP w Hw. destruct (HP w Hw) as (k & -> & Hs). unfold load_signing, need, bind. unfold stored in Hs. by rewrite Hs.
Qed.

(** A commit of what extends the keys: it took effect or not. *)
Lemma triple_commit ks :
  triple (fun w => kw_mem w = mem0 /\ ks0 `prefix_of` ks /\ kept w /\ ring ks (kw_view w !! cfg_Name cfg))
    (Commit db_err commit_lost)
    (fun _ w => kw_mem w = mem0 /\ ks0 `prefix_of` ks /\ ring ks (at_name w)) erred.
Proof.
  intros w (Hm & Hp & Hk & Hr). unfold Commit. destruct (db_err (kw_calls w)); [|done].
  split; [done|]. destruct (commit_lost (kw_calls w)); [|done]. destruct Hp as [new ->]. split; [done|by exists new].
Qed.

Lemma ring_rotated ks r m key enc vData nr : ring ks (Some r) -> parseVerificationKeys (k_verification r) = Some m -> stored key enc ->
  marshalVerificationKeys (rotateVerificationKeys cfg m (k_count r + 1) (public_of key)) = Some vData ->
  ring (ks ++ [key]) (Some (mkRow vData (k_next r) enc nr (k_count r + 1))).
Proof using Hold.
  intros (H0 & HL & (m' & Em & Hm) & _ & (k' & Ek' & Hk')) Em' Hs Hv. rewrite Em in Em'. injection Em' as ->.
  cbn. split_and!; [lia|rewrite length_app; cbn; lia|..].
  - eexists. split; [by apply parse_marshal|]. by apply rotate_keys.
  - exists k'. split; [|done]. rewrite lookup_app_l; [done|lia].
  - exists key. split; [|done]. rewrite lookup_app_r by lia. replace (_ - _)%nat with 0%nat by lia. done.
Qed.

(** What a refresh establishes *)
Definition refreshed (w : KWorld) : Prop := exists new, ring (ks0 ++ new) (at_name w) /\ mem_at (ks0 ++ new) (kw_mem w).

Lemma triple_set_mem ks m : mem_at ks m -> ks0 `prefix_of` ks ->
  triple (fun w => ring ks (at_name w)) (set_mem m) (fun _ => refreshed) erred.
Proof. intros Hm [new ->] w Hr. exists new. by split. Qed.

Lemma mem_of_ring ks r m k : ring ks (Some r) -> parseVerificationKeys (k_verification r) = Some m ->
  k = ks !! Z.to_nat (k_count r) -> mem_at ks (mkMem m k (k_count r)).
Proof.
  intros (H0 & HL & (m' & Em & Hm) & _) Em' Hk. rewrite Em in Em'. injection Em' as ->. split_and!; cbn; [done|lia|done|by right].
Qed.

(** Signing key and memory from a row that is known *)
Lemma triple_install ks r m count P : ring ks (Some r) -> parseVerificationKeys (k_verification r) = Some m -> ks0 `prefix_of` ks ->
  count = k_count r -> (forall w, P w -> ring ks (at_name w)) ->
  triple P (bind (load_signing cfg (k_signing r)) (fun k => set_mem (mkMem m k count))) (fun _ => refreshed) erred.
Proof.
  intros Hr Em Hp -> HP. eapply triple_bind.
  - apply (triple_load P (ks !! Z.to_nat (k_count r))). intros w _. apply Hr.
  - intros k w [-> Hw]. apply (triple_set_mem ks); [by apply (mem_of_ring ks r)|done|by apply HP].
Qed.

Definition fetched (ks : list PrivateKey) (r : Row) (w : KWorld) : Prop := locked ks w /\ ring ks (Some r) /\ at_name w = Some r.

Lemma fetched_framed ks r : framed (fetched ks r).
Proof. by intros w. Qed.

Lemma fetched_kept ks r w : fetched ks r w -> kept w.
Proof. intros [Hl _]. exact (locked_kept ks w Hl). Qed.

Lemma triple_rotation ks r m t : parseVerificationKeys (k_verification r) = Some m ->
  triple (fetched ks r)
    (let! nextKey := newKey cfg in
     let! vKeysData := or_err (marshalVerificationKeys (rotateVerificationKeys cfg m (k_count r + 1) (public_of nextKey.1))) (KCrypto "marshal") in
     setKeys db_err cfg (mkRow vKeysData (k_next r) nextKey.2 (nextRotTime cfg t) (k_count r + 1)) ;;;
     Commit db_err commit_lost ;;;
     ret (rotateVerificationKeys cfg m (k_count r + 1) (public_of nextKey.1), k_next r, k_count r + 1))
    (fun new w => exists ks' r', ks0 `prefix_of` ks' /\ ring ks' (Some r') /\ ring ks' (at_name w) /\
       parseVerificationKeys (k_verification r') = Some new.1.1 /\ new.1.2 = k_signing r' /\ new.2 = k_count r') erred.
Proof using Hold.
  intros Em. eapply triple_bind; [apply triple_newKey; [apply fetched_framed|intros w [Hl _]; by eapply locked_kept]|].
  intros [key enc]. cbn [fst snd]. eapply triple_bind; [apply triple_or_err; intros w [_ Hl]; exact (fetched_kept _ _ _ Hl)|].
  intros vData. eapply triple_bind.
  - apply (triple_kcall _ _ (fun _ w => exists r', r' = mkRow vData (k_next r) enc (nextRotTime cfg t) (k_count r + 1) /\
      marshalVerificationKeys (rotateVerificationKeys cfg m (k_count r + 1) (public_of key)) = Some vData /\
      kw_mem w = mem0 /\ ks0 `prefix_of` (ks ++ [key]) /\ kept w /\ ring (ks ++ [key]) (Some r') /\ ring (ks ++ [key]) (kw_view w !! cfg_Name cfg))).
    + apply kept_framed.
    + intros w (_ & _ & Hl). exact (fetched_kept _ _ _ Hl).
    + intros w a w' (Hv & Hs & Hl & Hr & Ha) [= <- <-]. pose proof (ring_rotated ks r m key enc vData (nextRotTime cfg t) Hr Em Hs Hv) as Hn.
      destruct Hl as (Hmem & Hp & Hring & Hview). eexists. split_and!; [done|done|done| |exact (locked_kept ks w (conj Hmem (conj Hp (conj Hring Hview))))|done|].
      * by apply prefix_app_r.
      * cbn [kw_view kw_tick]. rewrite Hview, lookup_alter_eq, Ha. exact Hn.
  - intros u w (r' & -> & Hv & Hm & Hp & Hk & Hn & Hview). pose proof (triple_commit (ks ++ [key]) w) as HC'. unfold bind.
    specialize (HC' (conj Hm (conj Hp (conj Hk Hview)))). destruct (Commit db_err commit_lost w) as [[u'|e|] w']; [|done|done].
    destruct HC' as (Hm' & _ & Hr'). exists (ks ++ [key]), (mkRow vData (k_next r) enc (nextRotTime cfg t) (k_count r + 1)).
    refine (conj Hp (conj Hn (conj Hr' (conj (parse_marshal _ _ Hv) (conj eq_refl eq_refl))))).
Qed.

Lemma new_ring k0 k1 e0 e1 vData nr : marshalVerificationKeys (<[0 := public_of k0]> (<[1 := public_of k1]> ∅)) = Some vData ->
  stored k0 e0 -> stored k1 e1 -> ring [k0; k1] (Some (mkRow vData e0 e1 nr 0)) /\
  mem_at [k0; k1] (mkMem (<[0 := public_of k0]> (<[1 := public_of k1]> ∅)) (Some k0) 0).
Proof using Hold.
  intros Hv H0 H1. split.
  - cbn. split_and!; [done|done|..].
    + eexists. split; [by apply parse_marshal|apply first_keys].
    + by exists k0.
    + by exists k1.
  - split_and!; cbn; [done|done|apply first_keys|by right].
Qed.

Definition no_row (w : KWorld) : Prop := kept w /\ ks0 = [].

(** A row that others have inserted meanwhile is read again. *)
Lemma triple_reread P : (forall w, P w -> kept w) ->
  triple P
    (let! row := fetchKeys db_err clock others cfg in
     let! r := or_err row.1 (KDB ErrNoRows) in
     let! v := or_err (parseVerificationKeys (k_verification r)) KJSON in
     let! signKey := load_signing cfg (k_signing r) in
     set_mem (mkMem v signKey (k_count r))) (fun _ => refreshed) erred.
Proof using Hothers.
  intros HP. eapply triple_bind; [by apply triple_fetch|]. intros [o t]. cbn [fst]. eapply triple_bind.
  { apply triple_or_err. intros w (ks & Hl & _). exact (locked_kept ks w Hl). }
  intros r. eapply triple_bind.
  { apply triple_or_err. intros w (_ & ks & Hl & _). exact (locked_kept ks w Hl). }
  intros v w (Ev & -> & ks & Hl & Hr & Ha).
  exact (triple_install ks r v (k_count r) (fun w => ring ks (at_name w)) Hr Ev (proj1 (proj2 Hl)) eq_refl (fun _ H => H) w (proj1 (proj2 (proj2 Hl)))).
Qed.

Lemma triple_commitNewKeyring : triple no_row (commitNewKeyring db_err clock others commit_lost cfg) (fun _ => refreshed) erred.
Proof using Hold Hothers.
  unfold commitNewKeyring. eapply triple_bind.
  { apply (triple_kcall _ _ (fun _ => no_row)); [apply kept_framed|by intros w [? _]|]. intros w a w' Hw [= <- <-]. exact Hw. }
  intros t. eapply triple_bind; [apply triple_newKey; [by intros w|by intros w [? _]]|]. intros [k0 e0]. cbn [fst snd].
  eapply triple_bind; [apply triple_newKey; [by intros w|by intros w (_ & ? & _)]|]. intros [k1 e1]. cbn [fst snd].
  eapply triple_bind; [apply triple_or_err; by intros w (_ & _ & ? & _)|]. intros vData.
  eapply triple_bind.
  { apply (triple_kcall _ _ (fun n w => kept w /\ ks0 = [] /\ kw_mem w = mem0 /\
      (n = 0 /\ kept (mkKW (kw_view w) (kw_view w) (kw_mem w) (kw_calls w)) \/
       n = 1 /\ ring [k0; k1] (kw_view w !! cfg_Name cfg) /\
         mem_at [k0; k1] (mkMem (<[0 := public_of k0]> (<[1 := public_of k1]> ∅)) (Some k0) 0)))).
    { apply kept_framed. } { by intros w (_ & _ & _ & ? & _). }
    intros w a w' (Hv & H1 & H0 & Hk & Hks) E. destruct (kept_others w Hk) as [ks Hl]. set (w1 := after_others others w) in *.
    pose proof (new_ring k0 k1 e0 e1 vData (nextRotTime cfg t) Hv H0 H1) as [Hn1 Hn2].
    cbv beta zeta in E. fold w1 in E. destruct (kw_view w1 !! cfg_Name cfg) as [r|] eqn:Er; injection E as <- <-.
    - split_and!; [exact (locked_kept _ _ Hl)|done|apply Hl|left]. split; [done|]. destruct Hl as (Hm & [new ->] & Hr & Hvw).
      split; [done|]. exists new. exact Hr.
    - split_and!; [exact (locked_kept _ _ Hl)|done|apply Hl|right]. split_and!; [done| |done]. cbn [kw_view kw_tick]. rewrite lookup_insert_eq. exact Hn1. }
  intros n. unfold bind at 1. intros w (Hk & Hks & Hm & Hn). unfold Commit.
  assert (kept (mkKW (kw_view w) (kw_view w) (kw_mem w) (S (kw_calls w)))) as Hdone.
  { destruct Hn as [[_ Hd]|(_ & Hr & _)]; [exact Hd|]. split; [done|]. exists [k0; k1]. by rewrite Hks. }
  destruct (db_err (kw_calls w)); [split; [done|]; by destruct (commit_lost (kw_calls w))|].
  destruct Hn as [[-> Hd]|(-> & Hr & Hmem)].
  - cbn [Z.eqb]. exact (triple_reread kept (fun _ H => H) _ Hdone).
  - exists [k0; k1]. rewrite Hks. by split.
Qed.

Lemma triple_refresh force : triple kept (refresh force) (fun _ => refreshed) erred.
Proof using Hold Hothers.
  unfold refreshAndRotateKeys. eapply triple_bind.
  { apply (triple_kcall _ _ (fun _ => kept)); [apply kept_framed|done|]. intros w a w' Hw [= <- <-]. exact Hw. }
  intros u. eapply triple_bind; [by apply triple_fetch|]. intros [[r|] t].
  - eapply triple_bind.
    { apply triple_or_err. intros w (ks & Hl & _). exact (locked_kept ks w Hl). }
    intros m. eapply (triple_bind _ _ _ (fun new w => exists ks' r', ks0 `prefix_of` ks' /\ ring ks' (Some r') /\ ring ks' (at_name w) /\
       parseVerificationKeys (k_verification r') = Some new.1.1 /\ new.1.2 = k_signing r' /\ new.2 = k_count r')).
    + intros w (Em & ks & Hl & Hr & Ha). cbn [fst] in Hr, Ha. destruct (force || due t (k_next_rotation r)).
      * exact (triple_rotation ks r m t Em w (conj Hl (conj Hr (eq_sym Ha)))).
      * exists ks, r. refine (conj (proj1 (proj2 Hl)) (conj Hr (conj _ (conj Em (conj eq_refl eq_refl))))). by rewrite <- Ha.
    + intros [[v data] count]. cbn [fst snd]. intros w (ks & r' & Hp & Hr & Ha & Ev & -> & Hc).
      exact (triple_install ks r' v count (fun w => ring ks (at_name w)) Hr Ev Hp Hc (fun _ H => H) w Ha).
  - intros w (ks & Hl & Hr & _). apply (triple_commitNewKeyring w). split; [exact (locked_kept ks w Hl)|].
    cbn in Hr. subst ks. destruct Hl as (_ & [new Hp] & _). by destruct ks0.
Qed.
End refresh.

(** ** Instances that share a table *)

(** The table and the memories of the instances.  A refresh of an instance, at
    its start or later, may meet any errors, and see at each lock what refreshes of
    others have committed meanwhile. *)
Inductive instances : Table -> list Mem -> Prop :=
  | instances_none t : t !! cfg_Name cfg = None -> instances t []
  | instances_start t ms force db_err clock others commit_lost r w' : instances t ms ->
      (forall n, extends (others n)) ->
      refreshAndRotateKeys db_err clock others commit_lost cfg force (mkKW t t (mkMem ∅ None 0) 0) = (r, w') ->
      instances (kw_tbl w') (match r with Ok _ => ms ++ [kw_mem w'] | _ => ms end)
  | instances_refresh t ms i m force db_err clock others commit_lost r w' : instances t ms -> ms !! i = Some m ->
      (forall n, extends (others n)) ->
      refreshAndRotateKeys db_err clock others commit_lost cfg force (mkKW t t m 0) = (r, w') ->
      instances (kw_tbl w') (<[i := kw_mem w']> ms).

(** A refresh from a memory *)
Lemma refresh_from ks t m force db_err clock others commit_lost r w' : ring ks (t !! cfg_Name cfg) ->
  (forall n, extends (others n)) ->
  refreshAndRotateKeys db_err clock others commit_lost cfg force (mkKW t t m 0) = (r, w') ->
  exists new, ring (ks ++ new) (kw_tbl w' !! cfg_Name cfg) /\
    match r with Ok _ => mem_at (ks ++ new) (kw_mem w') | Err _ => kw_mem w' = m | Panic => False end.
Proof using Hold.
  intros Hr Ho E. pose proof (triple_refresh db_err clock others commit_lost Ho ks m force (mkKW t t m 0)) as HT.
  rewrite E in HT. destruct r as [u|e|].
  - apply HT. split; [done|]. exists []. by rewrite app_nil_r.
  - destruct HT as (_ & Hm & new & Hn); [|by exists new]. split; [done|]. exists []. by rewrite app_nil_r.
  - destruct HT as [[e He] _]; [|done]. split; [done|]. exists []. by rewrite app_nil_r.
Qed.

Lemma instances_mem t ms : instances t ms -> exists ks, ring ks (t !! cfg_Name cfg) /\ Forall (mem_at ks) ms.
Proof using Hold.
  induction 1 as [t Ht|t ms force db_err clock others commit_lost r w' HI (ks & Hr & HF) Ho E
    |t ms i m force db_err clock others commit_lost r w' HI (ks & Hr & HF) Hi Ho E].
  - exists []. rewrite Ht. split; [done|constructor].
  - destruct (refresh_from ks t _ _ _ _ _ _ r w' Hr Ho E) as (new & Hn & Hm). exists (ks ++ new). split; [done|].
    assert (Forall (mem_at (ks ++ new)) ms) by (eapply Forall_impl; [exact HF|]; intros; by apply mem_at_app).
    destruct r; [apply Forall_app; split; [done|by apply Forall_singleton]|done|done].
  - destruct (refresh_from ks t _ _ _ _ _ _ r w' Hr Ho E) as (new & Hn & Hm). exists (ks ++ new). split; [done|].
    assert (Forall (mem_at (ks ++ new)) ms) as HF' by (eapply Forall_impl; [exact HF|]; intros; by apply mem_at_app).
    apply Forall_insert; [done|]. destruct r; [done| |done]. rewrite Hm. by eapply Forall_lookup_1 in HF'.
Qed.

(** ** Signatures *)

Lemma int_Bytes_small z : 0 <= z < 2 ^ 224 -> (length (int_Bytes z) <= 28)%nat /\ be_value (int_Bytes z) = z /\ Forall byte (int_Bytes z).
Proof.
  clear. intros Hz. unfold int_Bytes. set (n := if z =? 0 then 0%nat else Z.to_nat (Z.log2 z / 8 + 1)).
  assert ((n <= 28)%nat /\ z < 256 ^ Z.of_nat n) as [H1 H2].
  { subst n. destruct (Z.eqb_spec z 0) as [->|Hn]; [split; [lia|done]|].
    assert (Z.log2 z < 224) by (apply Z.log2_lt_pow2; lia). pose proof (Z.log2_nonneg z).
    assert (0 <= Z.log2 z / 8 < 28) as Hd by dlia. split; [lia|]. rewrite Z2Nat.id by lia.
    change 256 with (2 ^ 8). rewrite <- Z.pow_mul_r by lia.
    eapply Z.lt_le_trans; [apply (Z.log2_spec z); lia|]. apply Z.pow_le_mono_r; [done|dlia]. }
  rewrite be_bytes_length. split_and!; [done|apply be_value_bytes; split; [apply Hz|exact H2]|apply be_bytes_byte].
Qed.

Lemma array28_take bs : (length bs <= 28)%nat -> length (array28 bs) = 28%nat /\ take (length bs) (array28 bs) = bs.
Proof.
  clear. intros Hl. unfold array28. split; [rewrite length_take, length_app, length_replicate; lia|].
  rewrite take_take, Nat.min_l by lia. apply take_app_length.
Qed.

(** A signature is read as it was written. *)
Lemma Verify_bytes m p index r s : 0 <= r < 2 ^ 224 -> 0 <= s < 2 ^ 224 ->
  Verify m p (v1_bytes index r s) =
  match verificationKeys m !! index with
  | None => (false, false)
  | Some key => if ecdsa_Verify key (Sum512_224 p) r s then
                  (true, negb (index =? rotationCount m mod 256) && negb (index =? (rotationCount m + 1) mod 256))
                else (false, false)
  end.
Proof.
  clear. intros Hr Hs. destruct (int_Bytes_small r Hr) as (Hr1 & Hr2 & _), (int_Bytes_small s Hs) as (Hs1 & Hs2 & _).
  destruct (array28_take _ Hr1) as [Hr3 Hr4], (array28_take _ Hs1) as [Hs3 Hs4].
  unfold Verify, v1_bytes. set (lr := Z.of_nat (length (int_Bytes r)) mod 256). set (ls := Z.of_nat (length (int_Bytes s)) mod 256).
  assert (lr = Z.of_nat (length (int_Bytes r))) as Elr by (apply Z.mod_small; lia).
  assert (ls = Z.of_nat (length (int_Bytes s))) as Els by (apply Z.mod_small; lia).
  cbn [Z.eqb Pos.eqb negb length]. rewrite length_app, Hr3, Hs3. cbn [Nat.add Nat.eqb negb nth].
  assert ((28 <? lr) || (28 <? ls) = false) as -> by (apply orb_false_iff; rewrite !Z.ltb_ge; lia).
  destruct (verificationKeys m !! index); [|done]. rewrite Elr, Els, !Nat2Z.id.
  cbn [drop].
  rewrite drop_0, take_app_length', drop_app_length' by done. by rewrite Hr4, Hs4, Hr2, Hs2.
Qed.

Lemma signed_is_accepted t ms a b rnd p sig (HI : instances t ms) (Ha : a ∈ ms) (Hb : b ∈ ms)
  (HS : Sign rnd a p = inl sig) :
  rotationCount b - MaxOldKeys cfg <= rotationCount a <= rotationCount b + 1 ->
  Verify b p sig = (true, bool_decide (rotationCount a < rotationCount b)).
Proof using Hold.
  intros Hw. destruct (instances_mem t ms HI) as (ks & _ & HF). rewrite Forall_forall in HF.
  destruct (HF a Ha) as (Ha0 & Ha1 & _ & Hk), (HF b Hb) as (Hb0 & Hb1 & Hbk & _).
  unfold Sign in HS. destruct (signingKey a) as [key|]; [|done]. destruct Hk as [|Hk]; [done|].
  destruct (ecdsa_Sign rnd key (Sum512_224 p)) as [[r s]|] eqn:Es; [|done]. injection HS as <-.
  destruct (ecdsa_Sign_range _ _ _ _ _ Es) as [Hr Hs]. rewrite (Verify_bytes b p _ r s Hr Hs).
  assert (verificationKeys b !! (rotationCount a mod 256) = Some (public_of key)) as ->.
  { apply Hbk. exists (rotationCount a). split_and!; [lia|lia|done|]. unfold pub_at. destruct (Z.ltb_spec (rotationCount a) 0); [lia|].
    by rewrite <- Hk. }
  rewrite (ecdsa_Sign_Verify _ _ _ _ _ Es). f_equal. case_bool_decide as Hlt.
  - apply andb_true_iff. rewrite !negb_true_iff, !Z.eqb_neq. split; intros E; apply byte_inj in E; lia.
  - assert (rotationCount a = rotationCount b \/ rotationCount a = rotationCount b + 1) as [-> | ->] by lia.
    + by rewrite Z.eqb_refl.
    + rewrite Z.eqb_refl. by rewrite andb_false_r.
Qed.

(** C15: however many instances use a keyring, with whatever errors and in whatever
    order they refresh and rotate: what one signs, another accepts if it is at most
    one rotation behind and at most [MaxOldKeys] ahead, and calls the key old if it
    is ahead. *)
Theorem instances_accept_each_other t ms a b rnd p sig (HI : instances t ms) (Ha : a ∈ ms) (Hb : b ∈ ms)
  (HS : Sign rnd a p = inl sig) :
  rotationCount b - MaxOldKeys cfg <= rotationCount a <= rotationCount b + 1 ->
  Verify b p sig = (true, bool_decide (rotationCount a < rotationCount b)).
Proof using Hold. exact (signed_is_accepted t ms a b rnd p sig HI Ha Hb HS). Qed.

(** A refresh is something that others may do. *)
Lemma refresh_extends force m db_err clock others commit_lost (Ho : forall n, extends (others n)) :
  extends (fun t => kw_tbl (refreshAndRotateKeys db_err clock others commit_lost cfg force (mkKW t t m 0)).2).
Proof using Hold.
  intros ks t Hr. destruct (refreshAndRotateKeys _ _ _ _ _ _ _) as [r w'] eqn:E.
  destruct (refresh_from ks t m force db_err clock others commit_lost r w' Hr Ho E) as (new & Hn & _). by exists new.
Qed.

Lemma extends_id : extends (fun t => t).
Proof. intros ks t Hr. exists []. by rewrite app_nil_r. Qed.

(** ** When keys are rotated *)

Section alone.
Context (now : Z) (commit_lost : nat -> bool).

Local Abbreviation refresh_alone := (refreshAndRotateKeys (fun _ => None) (fun _ => now) (fun _ t => t) commit_lost cfg).

Lemma random_tbl {A} (f : nat -> option A) w a w' : random f w = (Ok a, w') -> w' = kw_tick w.
Proof. unfold random. destruct (f (kw_calls w)); [|done]. by intros [= _ <-]. Qed.

Lemma or_err_same {A} (o : option A) e (w w' : KWorld) a : or_err o e w = (Ok a, w') -> o = Some a /\ w' = w.
Proof. unfold or_err. destruct o; [|done]. by intros [= <- <-]. Qed.

Lemma newKey_tbl w a w' : newKey cfg w = (Ok a, w') -> kw_tbl w' = kw_tbl w /\ kw_view w' = kw_view w.
Proof.
  unfold newKey. intros E. apply bind_inv in E as (k & w1 & E1 & E). apply random_tbl in E1 as ->.
  apply bind_inv in E as (d & w2 & E2 & E). apply or_err_same in E2 as [_ ->].
  apply bind_inv in E as (e & w3 & E3 & E). apply random_tbl in E3 as ->. by injection E as _ <-.
Qed.

(** A refresh that succeeds rotates the keys if it is asked to or the time of
    the next rotation has come: the next key becomes the signing key, and the
    rotation after it is [RotationDays] later.  Otherwise the row stays as it is. *)
Theorem rotation_when_due force t m r w' (Hr : t !! cfg_Name cfg = Some r)
  (HE : refresh_alone force (mkKW t t m 0) = (Ok tt, w')) :
  exists r', kw_tbl w' !! cfg_Name cfg = Some r' /\ rotationCount (kw_mem w') = k_count r' /\
    if force || due now (k_next_rotation r) then
      k_count r' = k_count r + 1 /\ k_signing r' = k_next r /\ k_next_rotation r' = nextRotTime cfg now
    else kw_tbl w' = t /\ r' = r.
Proof.
  unfold refreshAndRotateKeys in HE. apply bind_inv in HE as (u & w1 & [= <- <-] & HE).
  apply bind_inv in HE as (row & w1 & [= <- <-] & HE). cbn [kw_tbl kw_tick after_others] in HE. rewrite Hr in HE.
  apply bind_inv in HE as (v & w1 & E1 & HE). apply or_err_same in E1 as [Ev ->].
  apply bind_inv in HE as (new & w1 & E1 & HE). apply bind_inv in HE as (k & w2 & E2 & HE).
  assert (w2 = w1) as ->.
  { unfold load_signing, need, bind in E2. destruct (loadKey cfg new.1.2); [|done]. by injection E2. }
  injection HE as <-. cbn [kw_tbl kw_mem rotationCount].
  destruct (force || due now (k_next_rotation r)) eqn:Ed.
  - apply bind_inv in E1 as ([key enc] & w2 & E3 & E1). apply newKey_tbl in E3 as [Et Evw]. cbn in Et, Evw.
    apply bind_inv in E1 as (vd & w3 & E4 & E1). apply or_err_same in E4 as [_ ->].
    apply bind_inv in E1 as (u1 & w3 & [= <- <-] & E1). apply bind_inv in E1 as (u2 & w3 & [= <- <-] & [= <- <-]).
    eexists. cbn [kw_tbl kw_view kw_tick fst snd]. rewrite Evw, lookup_alter_eq, Hr. cbn. split_and!; done.
  - injection E1 as <- <-. exists r. cbn. by split_and!.
Qed.
End alone.
End spec.

(** ** Encrypting everything again *)

Section again.
Context {HC : Crypto} {HR : GoMapRange}.
Context (db_err : nat -> option DBErr) (commit_lost : nat -> bool) (keys : Keys).

Local Notation key0 := (hd [] (key_list keys)).

(** What the keys open is also what the first of them opens in the new text. *)
Definition opens_again (old new : list Z) : Prop := exists d, Decrypt keys old = Some (inl d) /\ Decrypt [key0] new = Some (inl d).

Definition row_again (r r' : Row) : Prop :=
  r' = with_secrets (k_signing r') (k_next r') r /\ opens_again (k_signing r) (k_signing r') /\ opens_again (k_next r) (k_next r').

Lemma rcall_ok {A} (f : RWorld -> A * RWorld) w a w' : rcall db_err f w = (Ok a, w') -> exists w1, f w = (a, w1) /\ w' = rw_tick w1.
Proof.
  unfold rcall. destruct (db_err (rw_calls w)); [done|]. destruct (f w) as [a1 w1] eqn:E. intros [= <- <-]. by exists w1.
Qed.

Lemma decrypt_ok data w d w' : decrypt keys data w = (Ok d, w') -> Decrypt keys data = Some (inl d) /\ w' = w.
Proof.
  unfold decrypt, need, bind. destruct (Decrypt keys data) as [[d0|e]|]; [|done|done]. by intros [= <- <-].
Qed.

Lemma encrypt_ok d w enc w' : encrypt keys d w = (Ok enc, w') -> Decrypt [key0] enc = Some (inl d) /\ rw_rings w' = rw_rings w /\ rw_configs w' = rw_configs w.
Proof.
  unfold encrypt, Encrypt. destruct (EncryptPEMBlock _ _ _ _) as [b|] eqn:E; [|done]. intros [= <- <-]. split; [|done].
  apply Decrypt_Encrypt in E as [E1 E2]. unfold Decrypt. rewrite Decode_Encode. cbn [key_list first_key]. rewrite E1, E2. by destruct d.
Qed.

Lemma reencrypt_ring_ok id r w w' : reencrypt_ring db_err keys (id, r) w = (Ok tt, w') ->
  exists r', row_again r r' /\ rw_rings w' = alter (with_secrets (k_signing r') (k_next r')) id (rw_rings w) /\ rw_configs w' = rw_configs w.
Proof.
  unfold reencrypt_ring. intros E. apply bind_inv in E as (s & w1 & E1 & E). apply decrypt_ok in E1 as [Es ->].
  apply bind_inv in E as (n & w1 & E1 & E). apply decrypt_ok in E1 as [En ->].
  apply bind_inv in E as (es & w1 & E1 & E). apply encrypt_ok in E1 as (Hs & R1 & C1).
  apply bind_inv in E as (en & w2 & E1 & E). apply encrypt_ok in E1 as (Hn & R2 & C2).
  apply rcall_ok in E as (w3 & [= <-] & ->). exists (with_secrets es en r). cbn. rewrite R2, R1, C2, C1.
  split_and!; [|done|done]. split_and!; [done|by exists s|by exists n].
Qed.

Lemma reencrypt_config_ok id data w w' : reencrypt_config db_err keys (id, data) w = (Ok tt, w') ->
  exists data', opens_again data data' /\ rw_configs w' = alter (fun _ => data') id (rw_configs w) /\ rw_rings w' = rw_rings w.
Proof.
  unfold reencrypt_config. intros E. apply bind_inv in E as (d & w1 & E1 & E). apply decrypt_ok in E1 as [Ed ->].
  apply bind_inv in E as (enc & w1 & E1 & E). apply encrypt_ok in E1 as (Hd & R1 & C1).
  apply rcall_ok in E as (w3 & [= <-] & ->). exists enc. cbn. rewrite R1, C1. split; [by exists d|done].
Qed.

(** A loop that replaces, under each key of a list, the value by one in a relation to it *)
Lemma each_alter {K V} `{Countable K} (op : K * V -> M RWorld RErr unit) (get : RWorld -> gmap K V) (R : V -> V -> Prop) (same : RWorld -> RWorld -> Prop) :
  (forall w, same w w) -> (forall a b c, same a b -> same b c -> same a c) ->
  (forall k v w w', op (k, v) w = (Ok tt, w') -> exists v', R v v' /\ same w w' /\
     (get w !! k = Some v -> get w' !! k = Some v') /\ forall j, j <> k -> get w' !! j = get w !! j) ->
  forall l w w', NoDup l.*1 -> (forall k v, (k, v) ∈ l -> get w !! k = Some v) -> each op l w = (Ok tt, w') ->
  same w w' /\ forall k, match get w !! k with
    | Some v => exists v', get w' !! k = Some v' /\ (k ∈ l.*1 -> R v v') /\ (k ∉ l.*1 -> v' = v)
    | None => get w' !! k = None
    end.
Proof.
  intros Hrefl Htrans Hop. induction l as [|[k v] l IH]; intros w w' HN Hl E.
  { injection E as <-. split; [done|]. intros k. destruct (get w !! k) as [v|]; [|done]. exists v. split_and!; [done|set_solver|done]. }
  cbn [each] in E. apply bind_inv in E as ([] & w1 & E1 & E). cbn in HN. apply NoDup_cons in HN as [Hk HN].
  destruct (Hop _ _ _ _ E1) as (v' & HRv & Hs1 & Hg & Ho). specialize (Hg (Hl k v ltac:(left))).
  assert (forall k0 v0, (k0, v0) ∈ l -> get w1 !! k0 = Some v0) as Hl1.
  { intros k0 v0 Hin. rewrite Ho; [apply Hl; by right|]. intros ->. apply Hk. apply list_elem_of_fmap. by exists (k, v0). }
  destruct (IH w1 w' HN Hl1 E) as [Hs2 Hall]. split; [by eapply Htrans|]. intros j. specialize (Hall j).
  destruct (decide (j = k)) as [->|Hne].
  - rewrite (Hl k v ltac:(left)). rewrite Hg in Hall. destruct Hall as (v2 & Hv2 & _ & Hx). rewrite (Hx Hk) in Hv2.
    exists v'. split_and!; [done|done|]. intros Hnot. destruct Hnot. cbn. left.
  - rewrite Ho in Hall by done. destruct (get w !! j) as [vj|]; [|done]. destruct Hall as (v2 & Hv2 & H1 & H2).
    exists v2. cbn. rewrite not_elem_of_cons, elem_of_cons. split_and!; [done| |]; [intros [?|?]; [done|auto]|intros [_ ?]; auto].
Qed.

Lemma in_range {K V} `{Countable K} (m : gmap K V) k v : m !! k = Some v -> k ∈ (map_range m).*1.
Proof. intros Hk. apply list_elem_of_fmap. exists (k, v). split; [done|]. by apply map_range_elem. Qed.

(** Every key and configuration opens with the first key. *)
Definition encrypted_again (w w' : RWorld) : Prop :=
  (forall id, match rw_rings w !! id with
              | Some row => exists row', rw_rings w' !! id = Some row' /\ row_again row row'
              | None => rw_rings w' !! id = None end) /\
  (forall id, match rw_configs w !! id with
              | Some data => exists data', rw_configs w' !! id = Some data' /\ opens_again data data'
              | None => rw_configs w' !! id = None end).

Lemma reencrypt_tables_ok w u w' : reencrypt_tables db_err keys w = (Ok u, w') -> encrypted_again w w'.
Proof.
  intros EB. unfold reencrypt_tables in EB. apply bind_inv in EB as (u2 & w2 & E1 & EB). apply rcall_ok in E1 as (w0 & [= _ <-] & ->).
  apply bind_inv in EB as (rings & w2 & E1 & EB). apply rcall_ok in E1 as (w0 & [= <- <-] & ->).
  apply bind_inv in EB as ([] & w3 & E1 & EB).
  apply (each_alter _ rw_rings row_again (fun a b => rw_configs b = rw_configs a)) in E1 as [C1 R1]; [|done|congruence| | |].
  2:{ intros k v a b E. apply reencrypt_ring_ok in E as (v' & Hv & Hr & Hc). exists v'. split_and!; [done|done| |].
      - intros Hk. rewrite Hr, lookup_alter_eq, Hk. cbn. f_equal. symmetry. apply Hv.
      - intros j Hj. by rewrite Hr, lookup_alter_ne. }
  2:{ apply map_range_nodup. }
  2:{ intros k v. by rewrite map_range_elem. }
  apply bind_inv in EB as (u3 & w4 & E1 & EB). apply rcall_ok in E1 as (w0 & [= _ <-] & ->).
  apply bind_inv in EB as (cfgs & w4 & E1 & EB). apply rcall_ok in E1 as (w0 & [= <- <-] & ->). destruct u.
  apply (each_alter _ rw_configs opens_again (fun a b => rw_rings b = rw_rings a)) in EB as [R2 C2]; [|done|congruence| | |].
  2:{ intros k v a b E. apply reencrypt_config_ok in E as (v' & Hv & Hc & Hr). exists v'. split_and!; [done|done| |].
      - intros Hk. by rewrite Hc, lookup_alter_eq, Hk.
      - intros j Hj. by rewrite Hc, lookup_alter_ne. }
  2:{ apply map_range_nodup. }
  2:{ intros k v. by rewrite map_range_elem. }
  cbn [rw_tick rw_rings rw_configs] in *. split; intros id.
  - rewrite R2. specialize (R1 id). destruct (rw_rings w !! id) as [row|] eqn:Er; [|done]. destruct R1 as (v' & Hv & HR1 & _).
    exists v'. split; [done|]. apply HR1. by eapply in_range.
  - specialize (C2 id). rewrite C1 in C2. destruct (rw_configs w !! id) as [d|] eqn:Er; [|done]. destruct C2 as (v' & Hv & HR1 & _).
    exists v'. split; [done|]. apply HR1. by eapply in_range.
Qed.

(** C37: when [ReEncryptAll] succeeds, every stored key and configuration is encrypted
    with the first of the keys, and opens to what it opened to with all of them;
    nothing else of a row changes.  Any failure changes nothing, be it of a
    check, a key, or any call of the database, except that of a commit of which
    the answer was lost: then all of it was done. *)
Theorem ReEncryptAll_first_key c w r w' (HE : ReEncryptAll db_err commit_lost c keys w = (r, w')) :
  match r with
  | Ok _ => encrypted_again w w'
  | _ =>
      (rw_rings w' = rw_rings w /\ rw_configs w' = rw_configs w) \/
      exists k e, r = Err (RDB e) /\ rw_calls w' = S k /\ db_err k = Some e /\ commit_lost k = true /\ encrypted_again w w'
  end.
Proof.
  unfold ReEncryptAll in HE. destruct (LimitCheckAny c _); [injection HE as <- <-; by left|].
  destruct keys as [|k0 ks] eqn:Ek; [injection HE as <- <-; by left|]. rewrite <- Ek in *.
  destruct (bind _ _ w) as [[u|e|] w1] eqn:EB; [|injection HE as <- <-; by left..].
  apply bind_inv in EB as (u1 & w2 & E1 & EB). apply rcall_ok in E1 as (w0 & [= _ <-] & ->).
  apply reencrypt_tables_ok in EB. destruct (db_err (rw_calls w1)) as [e|] eqn:Ee; injection HE as <- <-; [|exact EB].
  destruct (commit_lost (rw_calls w1)) eqn:El; [right|by left]. exists (rw_calls w1), e. done.
Qed.
End again.

(** ** The loop *)

Lemma leaving_step s s' i : loop_step s s' -> lp_state s = Leaving \/ lp_state s = Ended ->
  (lp_state s' = Leaving \/ lp_state s' = Ended) /\
  (lp_state s = Leaving /\ lp_rotate s !! i = Some Sending \/ lp_rotate s !! i = Some Panicked ->
   lp_state s' = Leaving /\ lp_rotate s' !! i = Some Sending \/ lp_rotate s' !! i = Some Panicked).
Proof.
  intros HS HL. destruct HS; cbn in *; (split; [naive_solver|]); intros Hi.
  - destruct Hi as [[-> Hi]|Hi]; [left|right]; rewrite lookup_app_l by (by eapply lookup_lt_Some); done.
  - done.
  - naive_solver.
  - naive_solver.
  - naive_solver.
  - done.
  - right. unfold close_send. rewrite list_lookup_fmap. destruct Hi as [[_ ->]| ->]; done.
Qed.

(** A call of [RotateKeys] that has not been taken when the loop leaves is not
    answered: its send panics when the channel is closed. *)
Lemma pending_rotation_panics s s' i : rtc loop_step s s' -> lp_state s = Leaving -> lp_rotate s !! i = Some Sending ->
  lp_state s' = Ended -> lp_rotate s' !! i = Some Panicked.
Proof.
  intros HR Hl Hi He.
  assert (lp_state s = Leaving \/ lp_state s = Ended) as HL by by left.
  assert (lp_state s = Leaving /\ lp_rotate s !! i = Some Sending \/ lp_rotate s !! i = Some Panicked) as HP by by left.
  clear Hl Hi. induction HR as [s|s s1 s' HS HR IH]; [destruct HP as [[Hl _]|HP]; [congruence|done]|].
  destruct (leaving_step _ _ i HS HL) as [HL1 HP1]. by apply IH; [|exact HL1|apply HP1].
Qed.

(** ** Keys that are numbers, and a ring at work *)

Definition toy_hash (d : list Z) : Z := be_value d mod 2 ^ 224.

Definition toy_decode {A} `{Countable A} (l : list Z) : option A := match l with [Zpos p] => decode p | _ => None end.

Lemma toy_decode_encode {A} `{Countable A} (a : A) : toy_decode [Zpos (encode a)] = Some a.
Proof. apply decode_encode. Qed.

#[local, refine] Instance toy_crypto : Crypto := {|
  PrivateKey := Z; PublicKey := Z; PEM := string * list Z * list Z;
  public_of k := k;
  ecdsa_GenerateKey n := Some (Z.of_nat n);
  Sum512_224 d := d;
  ecdsa_Sign _ k d := Some (k mod 2 ^ 224, toy_hash d);
  ecdsa_Verify k d r s := (r =? k mod 2 ^ 224) && (s =? toy_hash d);
  MarshalPKIX k := Some [k];
  ParsePKIX d := match d with [k] => Some (Some k) | _ => None end;
  MarshalEC k := Some [k];
  ParseEC d := match d with [k] => Some k | _ => None end;
  EncryptPEMBlock _ l d k := Some (l, d, k);
  DecryptPEMBlock b k := if bool_decide (b.2 = k) then Some b.1.2 else None;
  pem_Type b := b.1.1;
  pem_EncodeToMemory b := [Zpos (encode b)];
  pem_Decode := toy_decode;
  json_Marshal m := [Zpos (encode m)];
  json_Unmarshal := toy_decode
|}.
Proof.
  - intros n k d r s [= <- <-]. split; apply Z.mod_pos_bound; done.
  - intros n k d r s [= <- <-]. by rewrite !Z.eqb_refl.
  - by intros k d [= <-].
  - by intros k d [= <-].
  - intros n l d k b [= <-]. cbn. by rewrite bool_decide_eq_true_2.
  - intros b. apply toy_decode_encode.
  - intros m. apply toy_decode_encode.
Defined.

Definition sample_config : Config := mkConfig "browser-sessions" 1 30 [[1]].

Local Abbreviation run force tb m now := (refreshAndRotateKeys (fun _ => None) (fun _ => now) (fun _ t => t) (fun _ => false) sample_config force (mkKW tb tb m 0)).

Definition blank : Mem := mkMem ∅ None 0.

(** An instance that starts, a second one, and a rotation by the first a day later *)
Definition ring1 : KWorld := (run false ∅ blank 0).2.
Definition ring2 : KWorld := (run false (kw_tbl ring1) blank 5).2.
Definition ring3 : KWorld := (run false (kw_tbl ring2) (kw_mem ring1) Day).2.

Example counts : map (fun w => rotationCount (kw_mem w)) [ring1; ring2; ring3] = [0; 0; 1].
Proof. vm_compute. reflexivity. Qed.

Lemma ran {A B} (p : A * B) a : p.1 = a -> p = (a, p.2).
Proof. by intros <-; destruct p. Qed.

Lemma sample_instances : instances sample_config (kw_tbl ring3) [kw_mem ring3; kw_mem ring2].
Proof.
  assert (forall n : nat, extends sample_config (fun t => t)) as HE by (intros _; apply extends_id).
  assert (instances sample_config (kw_tbl ring1) [kw_mem ring1]) as H1.
  { refine (instances_start sample_config ∅ [] false _ _ (fun _ t => t) _ (Ok tt) ring1 (instances_none _ ∅ eq_refl) HE (ran _ _ _)).
    vm_compute. reflexivity. }
  assert (instances sample_config (kw_tbl ring2) [kw_mem ring1; kw_mem ring2]) as H2.
  { refine (instances_start sample_config _ _ false _ _ (fun _ t => t) _ (Ok tt) ring2 H1 HE (ran _ _ _)). vm_compute. reflexivity. }
  refine (instances_refresh sample_config _ _ 0 (kw_mem ring1) false _ _ (fun _ t => t) _ (Ok tt) ring3 H2 eq_refl HE (ran _ _ _)).
  vm_compute. reflexivity.
Qed.

(** The instance that has rotated signs; the other accepts it. *)
Lemma instances_accept_each_other_witness :
  exists sig, Sign 0 (kw_mem ring3) [7] = inl sig /\ Verify (kw_mem ring2) [7] sig = (true, false).
Proof.
  assert (exists sig, Sign 0 (kw_mem ring3) [7] = inl sig) as [sig HS] by (eexists; vm_compute; reflexivity).
  exists sig. split; [exact HS|].
  exact (instances_accept_each_other sample_config ltac:(cbn; lia) (kw_tbl ring3) _ (kw_mem ring3) (kw_mem ring2) 0 [7] sig sample_instances
    ltac:(left) ltac:(right; left) HS ltac:(vm_compute; split; discriminate)).
Defined.

Lemma rotation_when_due_witness :
  exists r, kw_tbl ring2 !! "browser-sessions" = Some r /\ due Day (k_next_rotation r) = true /\
    exists r', kw_tbl ring3 !! "browser-sessions" = Some r' /\ k_count r' = k_count r + 1.
Proof.
  assert (exists r, kw_tbl ring2 !! "browser-sessions" = Some r) as [r Hr] by (eexists; vm_compute; reflexivity).
  assert (due Day (k_next_rotation r) = true) as Hd by (revert Hr; vm_compute; by intros [= <-]).
  exists r. split; [exact Hr|]. split; [exact Hd|].
  destruct (rotation_when_due sample_config Day (fun _ => false) false (kw_tbl ring2) (kw_mem ring1) r ring3 Hr (ran _ _ ltac:(vm_compute; reflexivity))) as (r' & Hr' & _ & HX).
  rewrite Hd in HX. cbn [orb] in HX. exists r'. exact (conj Hr' (proj1 HX)).
Defined.

(** A row that was written while rotation was switched off is not rotated later,
    though the configuration asks for it. *)
Example no_time_no_rotation :
  let t0 := kw_tbl (refreshAndRotateKeys (fun _ => None) (fun _ => 0) (fun _ t => t) (fun _ => false)
              (mkConfig "browser-sessions" 0 30 [[1]]) false (mkKW ∅ ∅ blank 0)).2 in
  k_count <$> (kw_tbl (run false t0 blank (1000 * Day)).2 !! "browser-sessions") = Some 0.
Proof. vm_compute. reflexivity. Qed.

(** ** New data keys *)

Section again_witness.
#[local] Existing Instance ordered_map_range.

Definition admin : Ctx := mkCtx (Some RoleAdmin) (Some "a") None None (Some 1) None None.

Definition old_text (d : list Z) : list Z := default [] (Encrypt 0 [[1]] "X" d).

Definition old_tables : RWorld := mkRW {["api-keys" := mkRow [] (old_text [5]) (old_text [6]) None 0]} {[7 := old_text [8]]} 0.

Lemma ReEncryptAll_first_key_witness :
  let r := ReEncryptAll (fun _ => None) (fun _ => false) admin [[2]; [1]] old_tables in
  r.1 = Ok tt /\ exists row, rw_rings r.2 !! "api-keys" = Some row /\ Decrypt [[2]] (k_signing row) = Some (inl ([5], "X")).
Proof.
  intros r. assert (r.1 = Ok tt) as Hr by (vm_compute; reflexivity). split; [exact Hr|].
  destruct (ReEncryptAll_first_key (fun _ => None) (fun _ => false) [[2]; [1]] admin old_tables (Ok tt) r.2 (ran r (Ok tt) Hr)) as [H _].
  specialize (H "api-keys"). destruct H as (row & Hrow & _ & (d & Hd & Hn) & _). exists row. split; [exact Hrow|].
  vm_compute in Hd. injection Hd as <-. exact Hn.
Defined.
End again_witness.
