(* ===== verification/Session.v ===== *)
(** * Requests and who makes them: [auth/handler.go], [auth/requester.go], [calsub.Store.Authorize]

    [WrapHandler] finds out who makes a request before it is handled: a token of
    an integration key or of a calendar subscription stands for a service or a
    user, a session, named by a token or a cookie, for the user that has logged
    in. *)

From Stdlib Require Import Ascii String.
From S2P Require Import Prelude Text Effects Database GoTime Unicode Validate Permission AlertDB Email AuthToken Keyring.

Local Open Scope string_scope.
Local Open Scope Z_scope.

(** ** The requester: [requester.go] *)

Record Requester := mkRequester { rq_user : UUID; rq_session : UUID }.

Definition zero_requester : Requester := mkRequester 0 0.

(** A request context: the permissions, and what is installed as the requester *)
Record RCtx := mkRC { rc_perm : Ctx; rc_requester : option Requester }.

Section requester.
Context {HT : UUIDText}.

Definition Requester_Valid (r : Requester) : bool := negb (rq_user r =? uuid_Nil) && negb (rq_session r =? uuid_Nil).

Definition parseCanonicalRequesterUUID (value : string) : option UUID :=
  match uuid_Parse value with
  | Some id => if negb (id =? uuid_Nil) && String.eqb (uuid_String id) value then Some id else None
  | None => None
  end.

Definition NewRequester (userID sessionID : string) : Requester + string :=
  match parseCanonicalRequesterUUID userID with
  | None => inr "invalid User identity"
  | Some u => match parseCanonicalRequesterUUID sessionID with
              | None => inr "invalid Session identity"
              | Some s => inl (mkRequester u s)
              end
  end.

Definition WithRequester (c : RCtx) (r : Requester) : RCtx := if Requester_Valid r then mkRC (rc_perm c) (Some r) else c.
Definition withoutRequester (c : RCtx) : RCtx := mkRC (rc_perm c) (Some zero_requester).
Definition RequesterFromContext (c : RCtx) : option Requester :=
  match rc_requester c with Some r => if Requester_Valid r then Some r else None | None => None end.
End requester.

(** ** The token of a request: [gettoken.go] *)

Record Request := mkRequest {
  rq_path : string;
  rq_form_error : bool;              (** the form cannot be parsed *)
  rq_form : string -> string;        (** [FormValue] *)
  rq_authorization : string;
  rq_agent : string;
  rq_cookies : list (string * string)
}.

Fixpoint ascii_lower (s : string) : string :=
  match s with
  | "" => ""
  | String c s =>
      let n := nat_of_ascii c in
      String (if (65 <=? n)%nat && (n <=? 90)%nat then ascii_of_nat (n + 32) else c) (ascii_lower s)
  end.

(** [Request.BasicAuth] of [net/http]: the text after "Basic ", in any case, decoded *)
Definition BasicAuth (std_decode : string -> option string) (auth : string) : option (string * string) :=
  if (String.length auth <? 6)%nat || negb (String.eqb (ascii_lower (String.substring 0 6 auth)) "basic ") then None
  else match std_decode (String.substring 6 (String.length auth - 6) auth) with
       | Some c => cut ":"%char c
       | None => None
       end.

Definition GetToken (std_decode : string -> option string) (r : Request) : string :=
  let or (a : string) (b : string) := if String.eqb a "" then b else a in
  or (rq_form r "token") (or (rq_form r "integrationKey") (or (rq_form r "integration_key") (or (rq_form r "key")
    (or (TrimPrefix (rq_authorization r) "Bearer ")
       (match BasicAuth std_decode (rq_authorization r) with Some (_, p) => p | None => "" end))))).

(** ** The tables *)

(** [auth_user_sessions] *)
Record SessionRow := mkSessionRow { s_user : option UUID; s_agent : string; s_created : Z; s_last : option Z }.

(** [user_calendar_subscriptions] *)
Record CalSubRow := mkCalSub { cs_user : UUID; cs_disabled : bool; cs_created : Z; cs_last : option Z }.

Record SWorld := mkSW {
  sw_sessions : gmap UUID SessionRow;
  sw_users : gmap UUID string;                        (** [users.role] *)
  sw_calsubs : gmap UUID CalSubRow;
  sw_cookies : list (string * string);                (** what [Set-Cookie] has set *)
  sw_alert : AlertDB.World
}.

Inductive SErr := SNotFound | SDB (e : DBErr) | SText (msg : string) | SToken (e : TokErr) | SDenied (d : Denied) | SAlert (e : AErr).

Definition CookieName : string := "goalert_session.2".
Definition v1CookieName : string := "goalert_session".

Section Handler.
Context {HU : Unicode} {HT : UUIDText} {HC : Crypto} {HR : GoMapRange}.
Context (db_err : nat -> option DBErr) (clock : nat -> Z).
(** The two keyrings as they are in memory at a call, and the number for a signature *)
Context (SessionKeyring APIKeyring : nat -> Mem).
Context (std_decode : string -> option string).
(** The tables of integration keys *)
Context (key_service : UUID -> string -> option UUID) (uik_service : UUID -> UUID -> option UUID).
(** [expflag.UnivKeys], and [ParseWithClaims] of the JWT package: the header value
    at "key", if it is a number, and the subject and id of the claims if the token
    is valid for the public key, issuer and audience. *)
Context (UnivKeys : bool) (jwt_key : string -> option Z) (jwt_claims : string -> PublicKey -> string -> string -> option (string * string)).
Context (CalendarSubscriptionsDisabled : bool).

Local Notation M := (Effects.M SWorld SErr).

Definition sw_calls (w : SWorld) : nat := w_calls (sw_alert w).
Definition set_sw_alert (a : AlertDB.World) (w : SWorld) : SWorld := mkSW (sw_sessions w) (sw_users w) (sw_calsubs w) (sw_cookies w) a.
Definition sw_tick (w : SWorld) : SWorld := set_sw_alert (AlertDB.tick (sw_alert w)) w.
Definition set_sessions (m : gmap UUID SessionRow) (w : SWorld) : SWorld := mkSW m (sw_users w) (sw_calsubs w) (sw_cookies w) (sw_alert w).

(** A statement on its own, at the time it is made *)
Definition scall {A} (f : Z -> SWorld -> A * SWorld) : M A := fun w =>
  match db_err (sw_calls w) with
  | Some e => (Err (SDB e), sw_tick w)
  | None => let '(a, w') := f (clock (sw_calls w)) w in (Ok a, sw_tick w')
  end.

(** Code of other packages that works on the tables of alerts *)
Definition lift_alert {A} (m : Effects.M AlertDB.World AErr A) : M A := fun w =>
  match m (sw_alert w) with
  | (Ok a, x) => (Ok a, set_sw_alert x w)
  | (Err e, x) => (Err (SAlert e), set_sw_alert x w)
  | (Panic, x) => (Panic, set_sw_alert x w)
  end.

Definition keep_error {A} (m : M A) : M (A + SErr) := fun w =>
  match m w with
  | (Ok a, w) => (Ok (inl a), w)
  | (Err e, w) => (Ok (inr e), w)
  | (Panic, w) => (Panic, w)
  end.

Definition lift_sum {A B} (r : A + B) (f : B -> SErr) : M A := match r with inl a => ret a | inr b => fail (f b) end.

(** ** Sessions *)

(** [SetCookieAge]: the name and value; age and attributes are left out. *)
Definition SetCookie (name val : string) : M unit := fun w =>
  (Ok tt, mkSW (sw_sessions w) (sw_users w) (sw_calsubs w) (sw_cookies w ++ [(name, val)])%list (sw_alert w)).

Definition setSessionCookie (val : string) : M unit := SetCookie CookieName val.

(** The row of [startSession]; the id is new. *)
Definition CreateSession (newID : UUID) (userAgent : string) (userID : UUID) : M Token :=
  let! e := scall (fun now w =>
    match sw_users w !! userID, sw_sessions w !! newID with
    | None, _ => (Some (PgErr "23503" "auth_user_sessions_user_id_fkey"), w)
    | _, Some _ => (Some (PgErr "23505" "auth_user_sessions_pkey"), w)
    | Some _, None => (None, set_sessions (<[newID := mkSessionRow (Some userID) userAgent now (Some now)]> (sw_sessions w)) w)
    end) in
  match e with Some e => fail (SDB e) | None => ret (mkToken 1 TypeSession newID zeroTime) end.

(** [last_access_at isnull OR last_access_at < now() - '1 minute'] *)
Definition touch (now : Z) (s : SessionRow) : SessionRow :=
  match s_last s with
  | Some t => if t <? now - Minute then mkSessionRow (s_user s) (s_agent s) (s_created s) (Some now) else s
  | None => mkSessionRow (s_user s) (s_agent s) (s_created s) (Some now)
  end.

Record CurrentUserSession := mkCurrent { cu_id : UUID; cu_user : UUID; cu_role : Role }.

(** [fetchSession]: the session is touched whether its user is found or not. *)
Definition fetchSession (id : UUID) : M (option (UUID * string)) :=
  scall (fun now w =>
    (s ← sw_sessions w !! id; u ← s_user s; role ← sw_users w !! u; Some (u, role),
     set_sessions (alter (touch now) id (sw_sessions w)) w)).

Definition FindCurrentUserSession (id : UUID) : M CurrentUserSession :=
  if id =? uuid_Nil then fail SNotFound
  else
    let! row := fetchSession id in
    match row with
    | None => fail SNotFound
    | Some (user, role) =>
        let! role := lift_sum (Role_Scan role) SText in
        if user =? uuid_Nil then fail (SText "current user session has invalid user identity") else ret (mkCurrent id user role)
    end.

Definition in_ids (ids : list UUID) (id : UUID) : bool := bool_decide (id ∈ ids).

Definition keep_sessions (keep : UUID -> SessionRow -> bool) (w : SWorld) : SWorld :=
  set_sessions (filter (fun '(id, s) => keep id s = true) (sw_sessions w)) w.

(** [endSession]: ids that are not UUIDs are an error. *)
Definition endSession (ids : list string) : M unit :=
  let! ids := lift_sum (match mapM uuid_Parse ids with Some l => inl l | None => inr "invalid UUID" end) SText in
  scall (fun _ w => (tt, keep_sessions (fun id _ => negb (in_ids ids id)) w)).

(** [endSessionUser] compares the column with the whole array, which the
    database refuses. *)
Definition endSessionUser (ids : list string) : M unit :=
  let! _ := lift_sum (match mapM uuid_Parse ids with Some l => inl l | None => inr "invalid UUID" end) SText in
  let! _ := scall (fun _ w => (tt, w)) in fail (SDB (PgErr "22P02" "")).

Definition allowed (c : Ctx) (checks : list (option Checker)) : M unit :=
  match LimitCheckAny c checks with Some d => fail (SDenied d) | None => ret tt end.

Definition EndUserSessionTx (c : Ctx) (ids : list string) : M unit :=
  allowed c [Some User] ;;;
  if Admin c then endSession ids else endSessionUser ids.

(** [None] as the source is a nil pointer. *)
Definition EndAllUserSessionsTx (c : Ctx) : M unit :=
  allowed c [Some Admin; Some (MatchUser (UserID c))] ;;;
  let! src := need (Permission.Source c) in
  let! id := lift_sum (match uuid_Parse (src_id src) with Some id => inl id | None => inr "invalid UUID" end) SText in
  scall (fun _ w => (tt, keep_sessions (fun i s => negb (bool_decide (s_user s = UserNullUUID c /\ is_Some (UserNullUUID c)) && negb (i =? id))) w)).

(** ** Tokens of a session *)

Definition verify_human : nat -> VerifyFunc := fun n t p sig =>
  if negb (t =? TypeSession) then (false, false) else Verify (SessionKeyring n) p sig.

Definition verify_any : nat -> VerifyFunc := fun n t p sig =>
  if t =? TypeSession then Verify (SessionKeyring n) p sig else Verify (APIKeyring n) p sig.

Record Credential := mkCredential { cr_token : Token; signedWithOldKey : bool }.

Definition parseHumanSessionCredential (n : nat) (tokenStr : string) : Credential + string :=
  match Parse tokenStr (Some (verify_human n)) with
  | inr e => inr e
  | inl (tok, isOld) =>
      if negb (TokType tok =? TypeSession) then inr "invalid human authentication token type" else inl (mkCredential tok isOld)
  end.

(** The first valid cookie of each name; the current name wins. *)
Fixpoint select_cookies (n : nat) (cookies : list (string * string)) (current legacy : option Credential) : option Credential :=
  match cookies with
  | [] => match current with Some c => Some c | None => legacy end
  | (name, value) :: cookies =>
      let parsed := match parseHumanSessionCredential n value with inl c => Some c | inr _ => None end in
      if String.eqb name CookieName then select_cookies n cookies (match current with Some c => Some c | None => parsed end) legacy
      else if String.eqb name v1CookieName then select_cookies n cookies current (match legacy with Some c => Some c | None => parsed end)
      else select_cookies n cookies current legacy
  end.

Definition selectHumanSessionCookie (n : nat) (r : Request) : option Credential := select_cookies n (rq_cookies r) None None.

(** [updateUA] *)
Definition updateUA (id : UUID) (agent : string) : M unit :=
  scall (fun _ w => (tt, set_sessions (alter (fun s => mkSessionRow (s_user s) agent (s_created s) (s_last s)) id (sw_sessions w)) w)).

(** A new signature for the cookie; what fails is logged. *)
Definition refresh_cookie (r : Request) (tok : Token) : M unit := fun w =>
  match Encode tok (Some (Sign (sw_calls w) (SessionKeyring (sw_calls w)))) with
  | inr _ => (Ok tt, w)
  | inl val => bind (setSessionCookie val) (fun _ => let! _ := keep_error (updateUA (ID tok) (rq_agent r)) in ret tt) w
  end.

Definition authUserWithCredential (c : RCtx) (r : Request) (cr : Credential) (isCookie : bool) : M RCtx :=
  let tok := cr_token cr in
  let! session := FindCurrentUserSession (ID tok) in
  if negb (cu_id session =? ID tok) || (cu_user session =? uuid_Nil) then fail (SText "invalid current human Session state")
  else
    let! requester := lift_sum (NewRequester (uuid_String (cu_user session)) (uuid_String (cu_id session))) SText in
    (if isCookie && signedWithOldKey cr then refresh_cookie r tok else ret tt) ;;;
    let perm := UserSourceContext (rc_perm c) (uuid_String (cu_user session)) (cu_role session)
                  (Some (mkSource SourceTypeAuthProvider (uuid_String (ID tok)))) in
    ret (WithRequester (mkRC perm (rc_requester c)) requester).

Definition tryAuthUser (c : RCtx) (r : Request) (tokenStr : string) (isCookie : bool) : M RCtx := fun w =>
  match parseHumanSessionCredential (sw_calls w) tokenStr with
  | inr e => (Err (SText e), w)
  | inl cr => authUserWithCredential c r cr isCookie w
  end.

(** ** Other tokens *)

(** [Store.Authorize] of calendar subscriptions: [CalSubAuthUser] compares the
    time to the second. *)
Definition CalSubAuthorize (c : Ctx) (tok : Token) : M Ctx :=
  if CalendarSubscriptionsDisabled || negb (TokType tok =? TypeCalSub) then fail (SDenied Unauthorized)
  else
    let! user := scall (fun now w =>
      match sw_calsubs w !! ID tok with
      | Some s =>
          if negb (cs_disabled s) && (cs_created s / Second * Second =? inst (CreatedAt tok)) then
            (Some (cs_user s), mkSW (sw_sessions w) (sw_users w) (<[ID tok := mkCalSub (cs_user s) (cs_disabled s) (cs_created s) (Some now)]> (sw_calsubs w)) (sw_cookies w) (sw_alert w))
          else (None, w)
      | None => (None, w)
      end) in
    match user with
    | None => fail (SDenied Unauthorized)
    | Some u => ret (UserSourceContext c (uuid_String u) RoleUser (Some (mkSource SourceTypeCalendarSubscription (uuid_String (ID tok)))))
    end.

(** [Store.Authorize] of integration keys, and the error it returns *)
Definition IntKeyAuthorize (c : Ctx) (tok : Token) (type : string) : M Ctx :=
  let! r := lift_alert (Authorize db_err key_service c (ID tok) type) in
  match r.2 with Some e => fail (SAlert e) | None => ret r.1 end.

(** [DB.VerifyJWT]: whether the key is current, and the subject and id *)
Definition VerifyJWT (m : Mem) (s iss aud : string) : option (bool * (string * string)) :=
  keyIndex ← jwt_key s;
  key ← verificationKeys m !! (keyIndex mod 256);
  claims ← jwt_claims s key iss aud;
  Some ((keyIndex mod 256 =? rotationCount m mod 256) || (keyIndex mod 256 =? (rotationCount m + 1) mod 256), claims).

Definition AuthorizeUIK (c : Ctx) (tokStr : string) : M Ctx := fun w =>
  if negb UnivKeys then (Err (SDenied Unauthorized), w)
  else match VerifyJWT (APIKeyring (sw_calls w)) tokStr "goalert" "uik-key-v1" with
       | None => (Err (SDenied Unauthorized), w)
       | Some (_, (subject, id)) =>
           match uuid_Parse subject, uuid_Parse id with
           | Some keyID, Some tokID =>
               bind (scall (fun _ w => (uik_service keyID tokID, w))) (fun service =>
                 match service with
                 | None => fail (SDenied Unauthorized)
                 | Some svc => ret (ServiceSourceContext c (uuid_String svc) (Some (mkSource SourceTypeUIK (uuid_String keyID))))
                 end) w
           | _, _ => (Err (SDenied Unauthorized), w)
           end
       end.

(** Retired: every token is refused. *)
Definition AuthorizeGraphQL (c : Ctx) : M Ctx := fail (SDenied Unauthorized).

(** ** Requests *)

(** The handler is called with a context, or the request is answered with an error. *)
Inductive Outcome := Served (c : RCtx) | BadForm | Refused (e : SErr).

Definition serve_with (c : RCtx) (m : M Ctx) : M (option Outcome) :=
  let! r := keep_error m in
  match r with
  | inr e => ret (Some (Refused e))
  | inl p => ret (Some (Served (mkRC p (rc_requester c))))
  end.

(** The types of keys of the paths for incoming messages *)
Definition key_type (path : string) : option string :=
  if String.eqb path "/v1/api/alerts" || String.eqb path "/api/v2/generic/incoming" then Some "generic"
  else if String.eqb path "/v1/webhooks/grafana" || String.eqb path "/api/v2/grafana/incoming" then Some "grafana"
  else if String.eqb path "/api/v2/site24x7/incoming" then Some "site24x7"
  else if String.eqb path "/api/v2/prometheusalertmanager/incoming" then Some "prometheusAlertmanager"
  else None.

(** [None]: not handled here *)
Definition authWithToken (c : RCtx) (r : Request) : M (option Outcome) := fun w =>
  if rq_form_error r then (Ok (Some BadForm), w)
  else
    let tokStr := GetToken std_decode r in
    if String.eqb tokStr "" then (Ok None, w)
    else if String.eqb (rq_path r) "/api/graphql" && HasPrefix tokStr "ey" then serve_with c (AuthorizeGraphQL (rc_perm c)) w
    else if String.eqb (rq_path r) "/api/v2/uik" && HasPrefix tokStr "ey" then serve_with c (AuthorizeUIK (rc_perm c) tokStr) w
    else match Parse tokStr (Some (verify_any (sw_calls w))) with
         | inr e => (Ok (Some (Refused (SText e))), w)
         | inl (tok, _) =>
             match key_type (rq_path r) with
             | Some type => serve_with c (IntKeyAuthorize (rc_perm c) tok type) w
             | None => if String.eqb (rq_path r) "/api/v2/calendar" then serve_with c (CalSubAuthorize (rc_perm c) tok) w else (Ok None, w)
             end
         end.

Definition WrapHandler (c : RCtx) (r : Request) : M Outcome :=
  let c := withoutRequester c in
  if HasPrefix (rq_path r) "/api/v2/slack" then ret (Served c)
  else if String.eqb (rq_path r) "/api/v2/mailgun/incoming" || String.eqb (rq_path r) "/v1/webhooks/mailgun" then ret (Served c)
  else
    let! handled := authWithToken c r in
    match handled with
    | Some o => ret o
    | None =>
        let tokStr := GetToken std_decode r in
        if negb (String.eqb tokStr "") then
          let! x := keep_error (tryAuthUser c r tokStr false) in
          ret (Served (match x with inl c => c | inr _ => c end))
        else
          let! credential := (fun w => (Ok (selectHumanSessionCookie (sw_calls w) r), w)) in
          match credential with
          | None => ret (Served c)
          | Some cr =>
              let! x := keep_error (authUserWithCredential c r cr true) in
              ret (Served (match x with inl c => c | inr _ => c end))
          end
    end.

(** [ServeLogout]: the sessions that the cookies name, whatever their signatures,
    and the one of the request. *)
Definition logout_ids (c : Ctx) (r : Request) : list string :=
  (omap (fun '(name, value) =>
      if String.eqb name CookieName || String.eqb name v1CookieName then
        match Parse value None with inl (tok, _) => Some (uuid_String (ID tok)) | inr _ => None end
      else None) (rq_cookies r) ++
   match Permission.Source c with
   | Some src => if bool_decide (src_type src = SourceTypeAuthProvider) then [src_id src] else []
   | None => []
   end)%list.

Definition ServeLogout (c : Ctx) (r : Request) : M unit :=
  SetCookie CookieName "" ;;;
  match logout_ids c r with
  | [] => ret tt
  | ids => let! _ := keep_error (endSession ids) in ret tt
  end.
End Handler.
