(* ===== verification/SessionSpec.v ===== *)
(** * Who a request is taken to come from

    Only a session of the table that a signed token names makes a requester, and
    a session that was created is recognized while its key is. *)

From Stdlib Require Import Ascii String.
From S2P Require Import Prelude Text Effects Database GoTime Unicode Validate Permission AlertDB Email AuthToken Keyring KeyringSpec Session.

Local Open Scope string_scope.
Local Open Scope Z_scope.

Section spec.
Context {HU : Unicode} {HT : UUIDText} {HC : Crypto} {HR : GoMapRange}.
Context (db_err : nat -> option DBErr) (clock : nat -> Z).
Context (SessionKeyring APIKeyring : nat -> Mem).
Context (std_decode : string -> option string).
Context (key_service : UUID -> string -> option UUID) (uik_service : UUID -> UUID -> option UUID).
Context (UnivKeys : bool) (jwt_key : string -> option Z) (jwt_claims : string -> PublicKey -> string -> string -> option (string * string)).
Context (CalendarSubscriptionsDisabled : bool).

Local Notation WrapHandler := (WrapHandler db_err clock SessionKeyring APIKeyring std_decode key_service uik_service UnivKeys jwt_key jwt_claims CalendarSubscriptionsDisabled).
Local Notation authWithToken := (authWithToken db_err clock SessionKeyring APIKeyring std_decode key_service uik_service UnivKeys jwt_key jwt_claims CalendarSubscriptionsDisabled).
Local Notation authUser := (authUserWithCredential db_err clock SessionKeyring).
Local Notation parse_human := (parseHumanSessionCredential SessionKeyring).
Local Notation GetToken := (GetToken std_decode).

(** The users of sessions are UUIDs. *)
Definition session_users (w : SWorld) : Prop := forall id s u, sw_sessions w !! id = Some s -> s_user s = Some u -> is_uuid u.

(** ** Credentials *)

Lemma parse_human_sound n text cr : parse_human n text = inl cr ->
  TokType (cr_token cr) = TypeSession /\ wf_token (cr_token cr) /\
  exists sig, Verify (SessionKeyring n) (payload (cr_token cr)) sig = (true, signedWithOldKey cr).
Proof.
  unfold parseHumanSessionCredential. destruct (Parse text _) as [[tok old]|] eqn:EP; [|done].
  destruct (Z.eqb_spec (TokType tok) TypeSession) as [Et|]; [|done]. cbn. intros [= <-]. cbn.
  apply Parse_authentic in EP as (Hwf & Hn & Hv). split_and!; [done|done|].
  destruct (Version tok =? 0) eqn:E0.
  - unfold normal in Hn. rewrite E0 in Hn. by rewrite <- Hn in Et.
  - destruct Hv as (_ & _ & sig & Hs). exists sig. unfold verify_human in Hs. by rewrite Et in Hs.
Qed.

Lemma select_sound n cookies : forall cur leg cr, select_cookies SessionKeyring n cookies cur leg = Some cr ->
  cur = Some cr \/ leg = Some cr \/ exists name value, (name, value) ∈ cookies /\ parse_human n value = inl cr.
Proof.
  induction cookies as [|[name value] cookies IH]; intros cur leg cr E; cbn [select_cookies] in E.
  { destruct cur; [left|right; left]; done. }
  set (p := match parse_human n value with inl c => Some c | inr _ => None end) in *.
  assert (p = Some cr -> exists name0 value0, (name0, value0) ∈ (name, value) :: cookies /\ parse_human n value0 = inl cr) as Hp.
  { subst p. destruct (parse_human n value) eqn:Ep; [|done]. intros [= ->]. exists name, value. split; [by left|done]. }
  assert (forall name0 value0, (name0, value0) ∈ cookies -> (name0, value0) ∈ (name, value) :: cookies) as Hin by (intros; by right).
  destruct (String.eqb name CookieName); [|destruct (String.eqb name v1CookieName)]; apply IH in E;
    (destruct E as [E|[E|(n0 & v0 & H0 & E)]]; [| |right; right; exists n0, v0; by split; [apply Hin|]]).
  - destruct cur; [by left|]. right; right. by apply Hp.
  - by right; left.
  - by left.
  - destruct leg; [by right; left|]. right; right. by apply Hp.
  - by left.
  - by right; left.
Qed.

(** ** Sessions *)

Lemma scall_ok {A} (f : Z -> SWorld -> A * SWorld) w a w' : scall db_err clock f w = (Ok a, w') ->
  exists w1, f (clock (sw_calls w)) w = (a, w1) /\ w' = sw_tick w1.
Proof.
  unfold scall. destruct (db_err (sw_calls w)); [done|]. destruct (f _ w) as [a1 w1] eqn:E. intros [= <- <-]. by exists w1.
Qed.

Lemma lift_sum_ok {A B} (r : A + B) f (w w' : SWorld) a : lift_sum r f w = (Ok a, w') -> r = inl a /\ w' = w.
Proof. destruct r; [|done]. by intros [= <- <-]. Qed.

Lemma find_current id w cur w' : FindCurrentUserSession db_err clock id w = (Ok cur, w') ->
  cu_id cur = id /\ exists s role, sw_sessions w !! id = Some s /\ s_user s = Some (cu_user cur) /\
    sw_users w !! cu_user cur = Some role /\ Role_Scan role = inl (cu_role cur).
Proof.
  unfold FindCurrentUserSession. destruct (id =? uuid_Nil); [done|]. intros E. apply bind_inv in E as (row & w1 & E1 & E).
  apply scall_ok in E1 as (w2 & [= Erow <-] & ->). destruct row as [[user role]|]; [|done].
  apply bind_inv in E as (ro & w2 & E2 & E). apply lift_sum_ok in E2 as [Er ->]. destruct (user =? uuid_Nil); [done|].
  injection E as <- <-. cbn. apply bind_Some in Erow as (s & Hs & E). apply bind_Some in E as (u & Hu & E).
  apply bind_Some in E as (ro' & Hro & [= <- <-]). split; [done|]. by exists s, ro'.
Qed.

Lemma canonical u v : is_uuid u -> parseCanonicalRequesterUUID (uuid_String u) = Some v -> v = u.
Proof.
  intros Hu. unfold parseCanonicalRequesterUUID. rewrite uuid_Parse_String by done. destruct (_ && _); [|done]. by intros [= ->].
Qed.

(** A requester that is found is the user of the session. *)
Lemma auth_user_sound c r cr b w c' w' : session_users w -> is_uuid (ID (cr_token cr)) -> authUser c r cr b w = (Ok c', w') ->
  exists s u role t, sw_sessions w !! ID (cr_token cr) = Some s /\ s_user s = Some u /\ sw_users w !! u = Some t /\ Role_Scan t = inl role /\
    c' = WithRequester (mkRC (UserSourceContext (rc_perm c) (uuid_String u) role (Some (mkSource SourceTypeAuthProvider (uuid_String (ID (cr_token cr))))))
           (rc_requester c)) (mkRequester u (ID (cr_token cr))).
Proof.
  intros HS Hid E. unfold authUserWithCredential in E. apply bind_inv in E as (cur & w1 & E1 & E).
  apply find_current in E1 as (Eid & s & t & Hs & Hu & Ht & Hr). destruct (_ || _); [done|].
  apply bind_inv in E as (q & w2 & E2 & E). apply lift_sum_ok in E2 as [Eq ->].
  apply bind_inv in E as (u2 & w3 & _ & [= <- <-]). exists s, (cu_user cur), (cu_role cur), t. split_and!; try done.
  unfold NewRequester in Eq. rewrite Eid in Eq. destruct (parseCanonicalRequesterUUID (uuid_String (cu_user cur))) as [u'|] eqn:E1; [|done].
  destruct (parseCanonicalRequesterUUID (uuid_String (ID (cr_token cr)))) as [i'|] eqn:E2; [|done]. injection Eq as <-.
  apply canonical in E1 as ->; [|by eapply HS]. by apply canonical in E2 as ->.
Qed.

Lemma keep_error_ok {A} (m : Effects.M SWorld SErr A) w x w' : keep_error m w = (Ok x, w') ->
  match x with inl a => m w = (Ok a, w') | inr e => m w = (Err e, w') end.
Proof. unfold keep_error. destruct (m w) as [[a|e|] w1]; [| |done]; by intros [= <- <-]. Qed.

Lemma serve_with_requester c m w o w' : serve_with c m w = (Ok (Some (Served o)), w') -> rc_requester o = rc_requester c.
Proof.
  unfold serve_with. intros E. apply bind_inv in E as ([p|e] & w1 & _ & E); [|done]. by injection E as <- <-.
Qed.

(** What the other tokens lead to has no requester, and where they do not apply nothing was done. *)
Lemma authWithToken_out c r w o w' : authWithToken c r w = (Ok o, w') ->
  match o with
  | None => w' = w
  | Some (Served c') => rc_requester c' = rc_requester c
  | Some _ => True
  end.
Proof.
  assert (forall m w o w', serve_with c m w = (Ok o, w') ->
    match o with None => w' = w | Some (Served c') => rc_requester c' = rc_requester c | Some _ => True end) as HS.
  { intros m w0 o0 w0' E. destruct o0 as [[c'| |e]|]; try done; [by eapply serve_with_requester|].
    unfold serve_with in E. apply bind_inv in E as ([p|e] & w1 & _ & E); done. }
  unfold Session.authWithToken. destruct (rq_form_error r); [by intros [= <- <-]|]. destruct (String.eqb _ ""); [by intros [= <- <-]|].
  destruct (_ && _); [by apply HS|]. destruct (_ && _); [by apply HS|].
  destruct (Parse _ _) as [[tok old]|e]; [|by intros [= <- <-]]. destruct (key_type _); [by apply HS|].
  destruct (String.eqb _ _); [by apply HS|]. by intros [= <- <-].
Qed.

(** C9: a handler that is called with a requester is called for the user of a session
    of the table, named by a token that the session keyring has verified and that the
    request has brought itself, and with the permissions of that user; what the
    context held before is never taken for a requester. *)
Theorem requester_is_session_user c r w c' w' q (Hu : session_users w) (HE : WrapHandler c r w = (Ok (Served c'), w'))
  (Hq : RequesterFromContext c' = Some q) :
  exists n text tok sig old s t role,
    (text = GetToken r \/ GetToken r = "" /\ exists name, (name, text) ∈ rq_cookies r) /\
    parse_human n text = inl (mkCredential tok old) /\ TokType tok = TypeSession /\ ID tok = rq_session q /\
    Verify (SessionKeyring n) (payload tok) sig = (true, old) /\
    sw_sessions w !! rq_session q = Some s /\ s_user s = Some (rq_user q) /\ sw_users w !! rq_user q = Some t /\ Role_Scan t = inl role /\
    rc_perm c' = UserSourceContext (rc_perm c) (uuid_String (rq_user q)) role (Some (mkSource SourceTypeAuthProvider (uuid_String (rq_session q)))).
Proof.
  unfold Session.WrapHandler in HE. set (c0 := withoutRequester c) in *. assert (RequesterFromContext c0 = None) as H0 by done.
  destruct (HasPrefix _ _); [injection HE as <- <-; congruence|]. destruct (_ || _); [injection HE as <- <-; congruence|].
  assert (forall n text cr b w1, parse_human n text = inl cr ->
    (text = GetToken r \/ GetToken r = "" /\ exists name, (name, text) ∈ rq_cookies r) -> authUser c0 r cr b w = (Ok c', w1) ->
    exists n text tok sig old s t role, (text = GetToken r \/ GetToken r = "" /\ exists name, (name, text) ∈ rq_cookies r) /\
      parse_human n text = inl (mkCredential tok old) /\ TokType tok = TypeSession /\ ID tok = rq_session q /\
      Verify (SessionKeyring n) (payload tok) sig = (true, old) /\
      sw_sessions w !! rq_session q = Some s /\ s_user s = Some (rq_user q) /\ sw_users w !! rq_user q = Some t /\ Role_Scan t = inl role /\
      rc_perm c' = UserSourceContext (rc_perm c) (uuid_String (rq_user q)) role (Some (mkSource SourceTypeAuthProvider (uuid_String (rq_session q))))) as HA.
  { intros n text cr b w1 Ep Ht Ea. destruct (parse_human_sound _ _ _ Ep) as (Ety & Hwf & sig & Hsig).
    destruct (auth_user_sound _ _ _ _ _ _ _ Hu (proj1 Hwf) Ea) as (s & u & role & t & Hs & Hsu & Ht' & Hrole & ->).
    unfold WithRequester in *. destruct (Requester_Valid (mkRequester u (ID (cr_token cr)))) eqn:EV; [|done].
    unfold RequesterFromContext in Hq. cbn [rc_requester] in Hq. rewrite EV in Hq. injection Hq as <-.
    destruct cr as [tok old]. exists n, text, tok, sig, old, s, t, role. by split_and!. }
  apply bind_inv in HE as (h & w1 & E1 & HE). apply authWithToken_out in E1. destruct h as [o|].
  { injection HE as -> <-. unfold RequesterFromContext in Hq, H0. by rewrite E1 in Hq. }
  subst w1. destruct (String.eqb (GetToken r) "") eqn:Et; cbn [negb] in HE.
  - apply bind_inv in HE as (cr & w2 & [= Ecr <-] & HE). destruct cr as [cr|]; [|injection HE as <- <-; congruence].
    apply bind_inv in HE as (x & w3 & E3 & HE). injection HE as Ec <-. apply keep_error_ok in E3. destruct x as [x|e]; [subst x|subst c'; congruence].
    apply select_sound in Ecr as [E|[E|(name & text & Hin & Ep)]]; [done|done|].
    eapply HA; [exact Ep| |exact E3]. right. split; [by apply String.eqb_eq|by exists name].
  - apply bind_inv in HE as (x & w3 & E3 & HE). injection HE as Ec <-. apply keep_error_ok in E3. destruct x as [x|e]; [subst x|subst c'; congruence].
    unfold tryAuthUser in E3. destruct (parse_human _ _) as [cr|] eqn:Ep; [|done]. eapply HA; [exact Ep|by left|exact E3].
Qed.

(** ** A session from its creation on *)

Lemma array28_byte bs : Forall byte bs -> Forall byte (array28 bs).
Proof.
  intros HF. apply Forall_take, Forall_app. split; [done|]. apply Forall_replicate. unfold byte. lia.
Qed.

Lemma Sign_bytes rnd m p sig : Sign rnd m p = inl sig -> Forall byte sig /\ length sig = 60%nat.
Proof.
  unfold Sign. destruct (signingKey m); [|done]. destruct (ecdsa_Sign _ _ _) as [[r s]|] eqn:E; [|done]. intros [= <-].
  destruct (ecdsa_Sign_range _ _ _ _ _ E) as [Hr Hs].
  destruct (int_Bytes_small r Hr) as (Hr1 & _ & Hr2), (int_Bytes_small s Hs) as (Hs1 & _ & Hs2).
  destruct (array28_take _ Hr1) as [Hr3 _], (array28_take _ Hs1) as [Hs3 _]. unfold v1_bytes. split.
  - repeat (apply Forall_cons; split; [unfold byte; (lia || (apply Z.mod_pos_bound; lia))|]).
    apply Forall_app. split; by apply array28_byte.
  - cbn [length]. by rewrite length_app, Hr3, Hs3.
Qed.

Definition session_token (id : UUID) : Token := mkToken 1 TypeSession id zeroTime.

(** The text of a signed session token is read back if the signature is accepted. *)
Lemma session_text id rnd m val n old : is_uuid id -> Encode (session_token id) (Some (Sign rnd m)) = inl val ->
  (forall sig, Sign rnd m (payload (session_token id)) = inl sig ->
     Verify (SessionKeyring n) (payload (session_token id)) sig = (true, old)) ->
  parse_human n val = inl (mkCredential (session_token id) old).
Proof.
  intros Hid HE HV. assert (wf_token (session_token id)) as Hwf by (apply wf_parts; [done|done|apply zero_in64]).
  assert (forall f b sig, Some (Sign rnd m) = Some f -> f b = inl sig -> Forall byte sig) as HB by (intros f b sig [= <-] Hs; by eapply Sign_bytes).
  assert (String.length val <> 36%nat) as H36.
  { unfold Encode in HE. cbn [Version session_token Z.eqb Pos.eqb TokType sign_with] in HE. rewrite Z.eqb_refl in HE. cbn [negb] in HE.
    destruct (Sign rnd m _) as [sig|] eqn:Es; [|done].
    assert (PaddedEncode (payload (session_token id) ++ sig)%list = val) as <- by congruence.
    apply Sign_bytes in Es as [_ Hl]. unfold PaddedEncode. rewrite string_length_app.
    pose proof (EncodeToString_length (payload (session_token id) ++ sig)%list) as HL.
    rewrite length_app, payload_size, Hl in HL. cbn [Version session_token payload_length Z.eqb Pos.eqb Nat.add] in HL.
    intros E. apply (f_equal Z.of_nat) in E. rewrite Nat2Z.inj_add, HL in E. vm_compute (Z.of_nat 36) in E.
    revert E. change ((Z.of_nat 77 * 4 + 2) / 3) with 103. lia. }
  pose proof (encode_parses (session_token id) (Some (Sign rnd m)) val (verify_human SessionKeyring n) Hwf HB HE (or_intror H36)) as HP.
  cbn [Version session_token Z.eqb Pos.eqb] in HP. destruct HP as (sig & Es & HP). unfold parseHumanSessionCredential. rewrite HP.
  unfold verify_human. cbn [TokType]. rewrite Z.eqb_refl. cbn [negb]. by rewrite (HV sig Es).
Qed.

(** The first valid cookie of the current name *)
Lemma select_current n before val after cr leg : Forall (fun '(name, value) => name = CookieName -> exists e, parse_human n value = inr e) before ->
  parse_human n val = inl cr -> select_cookies SessionKeyring n (before ++ (CookieName, val) :: after) None leg = Some cr.
Proof.
  intros HF Hp. assert (forall l leg, select_cookies SessionKeyring n l (Some cr) leg = Some cr) as HS.
  { intros l. induction l as [|[nm vl] l IH]; intros lg; cbn; [done|]. destruct (String.eqb nm CookieName); [done|]. by destruct (String.eqb nm v1CookieName). }
  revert leg. induction HF as [|[name value] l Hn HF IH]; intros leg; cbn [app select_cookies].
  - rewrite String.eqb_refl, Hp. apply HS.
  - destruct (String.eqb_spec name CookieName) as [->|Hne]; [destruct (Hn eq_refl) as [e ->]; apply IH|].
    destruct (String.eqb name v1CookieName); apply IH.
Qed.

Lemma refresh_cookie_cookies r tok w x w' : refresh_cookie db_err clock SessionKeyring r tok w = (x, w') -> x = Ok tt /\
  sw_cookies w' = (sw_cookies w ++ match Encode tok (Some (Sign (sw_calls w) (SessionKeyring (sw_calls w)))) with
                                   | inl val => [(CookieName, val)] | inr _ => [] end)%list.
Proof.
  unfold refresh_cookie. destruct (Encode _ _) as [val|e]; [|intros [= <- <-]; by rewrite app_nil_r].
  unfold bind, setSessionCookie, SetCookie, keep_error, updateUA, scall. cbn.
  by destruct (db_err _); intros [= <- <-].
Qed.

Lemma canonical_ok u : is_uuid u -> u <> 0 -> parseCanonicalRequesterUUID (uuid_String u) = Some u.
Proof.
  intros Hu Hn. unfold parseCanonicalRequesterUUID. rewrite uuid_Parse_String by done. unfold uuid_Nil.
  rewrite (proj2 (Z.eqb_neq _ _) Hn), String.eqb_refl. done.
Qed.

(** The context of a user's session *)
Definition session_ctx (c : Ctx) (user id : UUID) (role : Role) : RCtx :=
  mkRC (UserSourceContext c (uuid_String user) role (Some (mkSource SourceTypeAuthProvider (uuid_String id)))) (Some (mkRequester user id)).

Lemma auth_user_run c r id old w s user t role : is_uuid id -> id <> 0 -> is_uuid user -> user <> 0 -> db_err (sw_calls w) = None ->
  sw_sessions w !! id = Some s -> s_user s = Some user -> sw_users w !! user = Some t -> Role_Scan t = inl role ->
  exists w', authUser c r (mkCredential (session_token id) old) true w = (Ok (session_ctx (rc_perm c) user id role), w') /\
    sw_cookies w' = (sw_cookies w ++ if old then match Encode (session_token id) (Some (Sign (S (sw_calls w)) (SessionKeyring (S (sw_calls w))))) with
                                   | inl val => [(CookieName, val)] | inr _ => [] end else [])%list.
Proof.
  intros Hid Hid0 Hu Hu0 Hdb Hs Hsu Ht Hr. unfold authUserWithCredential. cbn [cr_token session_token ID signedWithOldKey].
  set (w1 := sw_tick (set_sessions (alter (touch (clock (sw_calls w))) id (sw_sessions w)) w)).
  assert (FindCurrentUserSession db_err clock id w = (Ok (mkCurrent id user role), w1)) as HF.
  { unfold FindCurrentUserSession, uuid_Nil. rewrite (proj2 (Z.eqb_neq _ _) Hid0). unfold bind, fetchSession, scall. rewrite Hdb, Hs.
    cbn. rewrite Hsu. cbn. rewrite Ht. cbn. rewrite Hr. cbn. by rewrite (proj2 (Z.eqb_neq _ _) Hu0). }
  rewrite (bind_ok _ _ _ _ _ HF). cbn [cu_id cu_user cu_role]. unfold uuid_Nil. rewrite Z.eqb_refl, (proj2 (Z.eqb_neq _ _) Hu0). cbn [negb orb].
  assert (NewRequester (uuid_String user) (uuid_String id) = inl (mkRequester user id)) as -> by (unfold NewRequester; by rewrite !canonical_ok).
  cbn [lift_sum]. rewrite bind_ret. cbn [andb].
  assert (Requester_Valid (mkRequester user id) = true) as HV.
  { unfold Requester_Valid, uuid_Nil. cbn. by rewrite (proj2 (Z.eqb_neq _ _) Hu0), (proj2 (Z.eqb_neq _ _) Hid0). }
  unfold WithRequester. rewrite HV. destruct old.
  - destruct (refresh_cookie db_err clock SessionKeyring r (session_token id) w1) as [x w'] eqn:Ec.
    apply refresh_cookie_cookies in Ec as HX. destruct HX as [-> Hc]. exists w'. unfold bind. rewrite Ec. by split.
  - exists w1. unfold bind. cbn. rewrite app_nil_r. by split.
Qed.

(** A request without a token, on a path that is not left to others *)
Definition cookie_request (r : Request) : Prop :=
  rq_form_error r = false /\ GetToken r = "" /\ HasPrefix (rq_path r) "/api/v2/slack" = false /\
  String.eqb (rq_path r) "/api/v2/mailgun/incoming" || String.eqb (rq_path r) "/v1/webhooks/mailgun" = false.

Lemma cookie_request_run c r w cr : cookie_request r -> selectHumanSessionCookie SessionKeyring (sw_calls w) r = Some cr ->
  WrapHandler c r w = bind (keep_error (authUser (withoutRequester c) r cr true))
    (fun x => ret (Served (match x with inl c => c | inr _ => withoutRequester c end))) w.
Proof.
  intros (Hf & Ht & Hs & Hm) Hc. unfold Session.WrapHandler. rewrite Hs, Hm. unfold Session.authWithToken. rewrite Hf, Ht. cbn [String.eqb negb].
  rewrite (bind_ok _ _ None w w) by done. rewrite (bind_ok _ _ (Some cr) w w); [done|]. by rewrite Hc.
Qed.

(** C22: the session that a login creates is recognized: a request with the cookie that
    was signed for it, on any instance that is not too many key rotations away, is
    handled for that user, with the role the user has now, as long as the session is
    in the table.  If its key was old, the answer sets a new cookie, which is not. *)
Theorem session_is_recognized cfg t ms a rnd val newID agent user w0 tok wl c r w before after s txt role
  (Hold : 1 <= MaxOldKeys cfg <= 254) (HI : instances cfg t ms) (Ha : a ∈ ms) (Hk : forall n, SessionKeyring n ∈ ms)
  (HL : CreateSession db_err clock newID agent user w0 = (Ok tok, wl)) (HE : Encode tok (Some (Sign rnd a)) = inl val)
  (Hid : is_uuid newID /\ newID <> 0) (Hu : is_uuid user /\ user <> 0)
  (Hs : sw_sessions w !! newID = Some s) (Hsu : s_user s = Some user) (Ht : sw_users w !! user = Some txt) (Hr : Role_Scan txt = inl role)
  (Hdb : db_err (sw_calls w) = None) (Hreq : cookie_request r) (Hck : rq_cookies r = (before ++ (CookieName, val) :: after)%list)
  (Hbefore : Forall (fun '(name, value) => name = CookieName -> exists e, parse_human (sw_calls w) value = inr e) before) :
  let b := SessionKeyring (sw_calls w) in
  rotationCount b - MaxOldKeys cfg <= rotationCount a <= rotationCount b + 1 ->
  exists w', WrapHandler c r w = (Ok (Served (session_ctx (rc_perm c) user newID role)), w') /\
    RequesterFromContext (session_ctx (rc_perm c) user newID role) = Some (mkRequester user newID) /\
    (rotationCount b <= rotationCount a -> sw_cookies w' = sw_cookies w) /\
    (rotationCount a < rotationCount b -> forall val', Encode tok (Some (Sign (S (sw_calls w)) (SessionKeyring (S (sw_calls w))))) = inl val' ->
       sw_cookies w' = (sw_cookies w ++ [(CookieName, val')])%list /\
       parse_human (S (sw_calls w)) val' = inl (mkCredential tok false)).
Proof.
  intros b Hw. assert (tok = session_token newID) as ->.
  { unfold CreateSession in HL. apply bind_inv in HL as (e & w2 & _ & HL). destruct e; [done|]. by injection HL. }
  set (old := bool_decide (rotationCount a < rotationCount b)).
  assert (parse_human (sw_calls w) val = inl (mkCredential (session_token newID) old)) as HP.
  { apply (session_text newID rnd a); [apply Hid|done|]. intros sig HS. exact (signed_is_accepted cfg Hold t ms a b rnd _ sig HI Ha (Hk _) HS Hw). }
  rewrite (cookie_request_run c r w (mkCredential (session_token newID) old) Hreq); [|unfold selectHumanSessionCookie; rewrite Hck; by apply select_current].
  destruct (auth_user_run (withoutRequester c) r newID old w s user txt role (proj1 Hid) (proj2 Hid) (proj1 Hu) (proj2 Hu) Hdb Hs Hsu Ht Hr) as (w' & HA & HC').
  exists w'. unfold bind, keep_error. rewrite HA. split; [done|]. split.
  { unfold RequesterFromContext, session_ctx, Requester_Valid, uuid_Nil. cbn.
    by rewrite (proj2 (Z.eqb_neq _ _) (proj2 Hu)), (proj2 (Z.eqb_neq _ _) (proj2 Hid)). }
  unfold old in HC'. split; intros Hlt.
  - rewrite HC', bool_decide_eq_false_2 by lia. apply app_nil_r.
  - intros val' Ev. rewrite HC', bool_decide_eq_true_2 by lia. rewrite Ev. split; [done|].
    apply (session_text newID (S (sw_calls w)) (SessionKeyring (S (sw_calls w)))); [apply Hid|done|]. intros sig HS.
    rewrite (signed_is_accepted cfg Hold t ms _ _ _ _ sig HI (Hk (S (sw_calls w))) (Hk (S (sw_calls w))) HS) by lia.
    by rewrite bool_decide_eq_false_2 by lia.
Qed.

(** ** Sessions that have ended *)

(** An ended session makes no requester. *)
Lemma ended_session_unknown c r cr b w : sw_sessions w !! ID (cr_token cr) = None -> ~ exists c' w', authUser c r cr b w = (Ok c', w').
Proof.
  intros Hn (c' & w' & E). unfold authUserWithCredential in E. apply bind_inv in E as (cur & w1 & E1 & _).
  apply find_current in E1 as (_ & s & t & Hs & _). congruence.
Qed.

(** A user who is not an administrator cannot end a session: the statement is refused
    whatever the ids are. *)
Lemma user_cannot_end_sessions c ids w : Admin c = false -> exists e w', EndUserSessionTx db_err clock c ids w = (Err e, w') /\ sw_sessions w' = sw_sessions w.
Proof.
  intros Ha. unfold EndUserSessionTx, allowed, bind, endSessionUser, lift_sum. rewrite Ha.
  destruct (LimitCheckAny c _); [by do 2 eexists|]. destruct (mapM uuid_Parse ids); [|by do 2 eexists].
  unfold bind, scall. cbn. destruct (db_err (sw_calls w)); by do 2 eexists.
Qed.

(** The password of basic authentication is never a token. *)
Lemma basic_password_unused r : GetToken r =
  let or (a b : string) := if String.eqb a "" then b else a in
  or (rq_form r "token") (or (rq_form r "integrationKey") (or (rq_form r "integration_key") (or (rq_form r "key")
    (TrimPrefix (rq_authorization r) "Bearer ")))).
Proof.
  assert ((if String.eqb (TrimPrefix (rq_authorization r) "Bearer ") "" then
             match BasicAuth std_decode (rq_authorization r) with Some (_, p) => p | None => "" end
           else TrimPrefix (rq_authorization r) "Bearer ") = TrimPrefix (rq_authorization r) "Bearer ") as HT';
    [|unfold Session.GetToken; cbv zeta; rewrite HT'; reflexivity].
  destruct (String.eqb_spec (TrimPrefix (rq_authorization r) "Bearer ") "") as [HE|]; [|done].
  assert (rq_authorization r = "" \/ rq_authorization r = "Bearer ") as [-> | ->]; [|done|done].
  unfold TrimPrefix in HE. destruct (strip_prefix "Bearer " (rq_authorization r)) as [x|] eqn:E; [|by left].
  apply strip_prefix_app in E. cbn in HE. subst x. by right.
Qed.
End spec.

(** ** A login, and a request after a rotation of the keys *)

Section witness.
#[local] Existing Instance ascii_unicode.
#[local] Existing Instance nibble_uuid.
#[local] Existing Instance toy_crypto.

Definition no_alerts : AlertDB.World := AlertDB.mkWorld (AlertDB.mkTables ∅ ∅ ∅ ∅ ∅ [] ∅ ∅ [] None) 1 0 false [].
Definition one_user : SWorld := mkSW ∅ {[50 := "admin"]} ∅ [] no_alerts.

Local Abbreviation no_err := (fun _ : nat => @None DBErr).
Local Abbreviation clock0 := (fun n : nat => Z.of_nat n * Minute).
Local Abbreviation keyring3 := (fun _ : nat => kw_mem ring3).
Local Abbreviation wrap c r w := (WrapHandler no_err clock0 keyring3 keyring3 (fun _ => None) (fun _ _ => None) (fun _ _ => None) false
  (fun _ => None) (fun _ _ _ _ => None) false c r w).

Definition login : res SErr Token * SWorld := CreateSession no_err clock0 77 "agent" 50 one_user.
Definition login_cookie : string :=
  match Encode (session_token 77) (Some (Sign 3 (kw_mem ring2))) with inl s => s | inr _ => "" end.
Definition with_cookie (value : string) : Request := mkRequest "/api/graphql" false (fun _ => "") "" "agent" [("theme", "dark"); (CookieName, value)].
Definition no_ctx : RCtx := mkRC Background (Some (mkRequester 1 2)).

(** The requester that the context held is gone, with or without the cookie. *)
Example inherited_requester :
  match (wrap no_ctx (with_cookie "") login.2).1 with Ok (Served c) => RequesterFromContext c | _ => Some zero_requester end = None.
Proof. vm_compute. reflexivity. Qed.

Lemma requester_is_session_user_witness :
  exists c w', wrap no_ctx (with_cookie login_cookie) login.2 = (Ok (Served c), w') /\ RequesterFromContext c = Some (mkRequester 50 77) /\
    exists s, sw_sessions login.2 !! 77 = Some s /\ s_user s = Some 50.
Proof.
  assert (exists c, (wrap no_ctx (with_cookie login_cookie) login.2).1 = Ok (Served c) /\ RequesterFromContext c = Some (mkRequester 50 77)) as (c & Hc & Hq)
    by (eexists; split; vm_compute; reflexivity).
  apply ran in Hc. exists c, (wrap no_ctx (with_cookie login_cookie) login.2).2. split; [exact Hc|]. split; [exact Hq|].
  assert (session_users login.2) as Hu.
  { intros id s u. change (sw_sessions login.2) with ({[77 := mkSessionRow (Some 50) "agent" 0 (Some 0)]} : gmap Z SessionRow).
    intros [_ <-]%lookup_singleton_Some [= <-]. split; done. }
  destruct (requester_is_session_user no_err clock0 keyring3 keyring3 (fun _ => None) (fun _ _ => None) (fun _ _ => None) false (fun _ => None) (fun _ _ _ _ => None) false
    no_ctx (with_cookie login_cookie) login.2 c _ (mkRequester 50 77) Hu Hc Hq)
    as (n & text & tok & sig & old & s & t & role & _ & _ & _ & _ & _ & Hs & Hsu & _).
  exists s. exact (conj Hs Hsu).
Defined.

Lemma sample_uuid u : (0 <? u) && (u <? 2 ^ 128) = true -> is_uuid u /\ u <> 0.
Proof. intros H. bprop. unfold is_uuid. lia. Qed.

Lemma session_is_recognized_witness :
  exists w', wrap no_ctx (with_cookie login_cookie) login.2 = (Ok (Served (session_ctx Background 50 77 RoleAdmin)), w').
Proof.
  assert (exists s, sw_sessions login.2 !! 77 = Some s /\ s_user s = Some 50) as (s & Hs & Hsu) by (eexists; split; vm_compute; reflexivity).
  assert (HE : Encode (session_token 77) (Some (Sign 3 (kw_mem ring2))) = inl login_cookie) by (vm_compute; reflexivity).
  assert (HL : login = (Ok (session_token 77), login.2)) by (apply ran; vm_compute; reflexivity).
  assert (Hreq : cookie_request (fun _ => None) (with_cookie login_cookie)) by (repeat split; vm_compute; reflexivity).
  assert (Hw : rotationCount (kw_mem ring3) - MaxOldKeys sample_config <= rotationCount (kw_mem ring2) <= rotationCount (kw_mem ring3) + 1)
    by (vm_compute; split; discriminate).
  destruct (session_is_recognized no_err clock0 keyring3 keyring3 (fun _ => None) (fun _ _ => None) (fun _ _ => None) false (fun _ => None) (fun _ _ _ _ => None) false
    sample_config (kw_tbl ring3) [kw_mem ring3; kw_mem ring2] (kw_mem ring2) 3 login_cookie 77 "agent" 50 one_user (session_token 77) login.2
    no_ctx (with_cookie login_cookie) login.2 [("theme", "dark")] [] s "admin" RoleAdmin ltac:(cbn; lia) sample_instances ltac:(right; left) ltac:(intros n; left)
    HL HE (sample_uuid 77 eq_refl) (sample_uuid 50 eq_refl) Hs Hsu eq_refl eq_refl eq_refl Hreq eq_refl
    ltac:(constructor; [intros E; discriminate E|constructor]) Hw) as (w' & HW & _).
  exists w'. exact HW.
Defined.

Example cookie_is_renewed :
  map fst (sw_cookies (wrap no_ctx (with_cookie login_cookie) login.2).2) = [CookieName].
Proof. vm_compute. reflexivity. Qed.

(** A logout ends the session that an unsigned cookie names. *)
Example unsigned_logout :
  let forged := match Encode (session_token 77) None with inl s => s | inr _ => "" end in
  sw_sessions (ServeLogout no_err clock0 Background (with_cookie forged) login.2).2 !! 77 = None.
Proof. vm_compute. reflexivity. Qed.
End witness.
