(* ===== verification/TimeZone.v ===== *)
(** * Time zones: [timezone]

    The names of the zones and their aliases are two embedded files, which are
    parameters here; the package reads them when the program starts.  A search for
    zones goes page by page. *)

From Stdlib Require Import Ascii.
From S2P Require Import Prelude Text Unicode Validate Permission.

Local Open Scope string_scope.
Local Open Scope list_scope.
Local Open Scope Z_scope.

Section TimeZone.
Context {HU : Unicode}.

(** ** The tables: [zones.go] *)

Definition newline : ascii := ascii_of_nat 10.

(** [strings.Split(strings.TrimSpace(data), "\n")[1:]]: without the header *)
Definition lines (data : string) : list string := tail (split_char newline (text (TrimSpace (runes data)))).

(** [strings.Cut(line, "=")]: before and after *)
Fixpoint Cut (line : string) : string * string :=
  match line with
  | "" => ("", "")
  | String c line => if Ascii.eqb c "=" then ("", line) else let '(a, b) := Cut line in (String c a, b)
  end.

Definition Zones (zoneData : string) : list string := merge_sort String.le (lines zoneData).

Definition add_zone (m : gmap string string) (zone : string) : gmap string string := <[zone := zone]> m.
Definition add_alias (m : gmap string string) (line : string) : gmap string string :=
  let '(alias, zone) := Cut line in <[alias := zone]> m.

(** [aliases[zone]] *)
Definition CanonicalZone (aliases : gmap string string) (zone : string) : string := default "" (aliases !! zone).

(** The package's [init], which panics ([None]) if a name is not that of a zone *)
Definition init (zoneData aliasData : string) : option (gmap string string) :=
  let aliases := foldl add_alias (foldl add_zone ∅ (Zones zoneData)) (lines aliasData) in
  if forallb (fun p => String.eqb (CanonicalZone aliases p.2) p.2) (map_to_list aliases) then Some aliases else None.

(** ** Searching: [search.go] *)

Record SearchOptions := mkOptions { so_Search : string; so_After : string; so_Omit : list string; so_Limit : Z }.

(** Whether the loop passes over a zone *)
Definition omitted (opts : SearchOptions) (zone : string) : bool :=
  (negb (String.eqb (so_Search opts) "") && negb (Contains (ToLower zone) (ToLower (so_Search opts)))) ||
  bool_decide (zone ∈ so_Omit opts) ||
  (negb (String.eqb (so_After opts) "") && String.leb zone (so_After opts)).

Fixpoint zone_loop (opts : SearchOptions) (zones results : list string) : list string :=
  match zones with
  | [] => results
  | zone :: zones =>
      if omitted opts zone then zone_loop opts zones results
      else let results := results ++ [zone] in
           if so_Limit opts <=? Z.of_nat (length results) then results else zone_loop opts zones results
  end.

(** Without options they are all empty. *)
Definition Search (c : Ctx) (zones : list string) (opts : option SearchOptions) : list string + Denied :=
  match LimitCheckAny c [Some User] with
  | Some e => inr e
  | None => inl (zone_loop (default (mkOptions "" "" [] 0) opts) zones [])
  end.

(** ** What they do *)

(** The name of a zone is its own, if it is not empty. *)
Lemma CanonicalZone_idempotent zoneData aliasData aliases z :
  init zoneData aliasData = Some aliases -> CanonicalZone aliases (CanonicalZone aliases z) = CanonicalZone aliases z \/ CanonicalZone aliases z = "".
Proof.
  unfold init. destruct (forallb _ _) eqn:EF; [|done]. intros [= <-]. set (m := foldl _ _ _) in *. unfold CanonicalZone at 2 3 4.
  destruct (m !! z) as [c|] eqn:E; [left; cbn|by right]. rewrite forallb_forall in EF.
  apply elem_of_map_to_list, list_elem_of_In in E. specialize (EF _ E). by apply String.eqb_eq in EF.
Qed.

Definition limit_of (opts : SearchOptions) : nat := Nat.max 1 (Z.to_nat (so_Limit opts)).
Definition matching (opts : SearchOptions) (zones : list string) : list string := List.filter (fun z => negb (omitted opts z)) zones.

Lemma zone_loop_take opts zones : forall results, (length results < limit_of opts)%nat ->
  zone_loop opts zones results = results ++ take (limit_of opts - length results) (matching opts zones).
Proof.
  induction zones as [|z zones IH]; intros results Hl; cbn; [by rewrite take_nil, app_nil_r|].
  destruct (omitted opts z) eqn:Eo; cbn; [by apply IH|]. rewrite length_app. cbn.
  destruct (limit_of opts - length results)%nat as [|k] eqn:Ek; [lia|]. cbn.
  destruct (Z.leb_spec (so_Limit opts) (Z.of_nat (length results + 1))) as [Hle|Hgt].
  - assert (k = 0)%nat as -> by (unfold limit_of in *; lia). by rewrite take_0.
  - rewrite IH by (rewrite length_app; unfold limit_of in *; cbn; lia). rewrite length_app, <- app_assoc. cbn.
    by replace (limit_of opts - (length results + 1))%nat with k by (unfold limit_of in *; lia).
Qed.

(** A page has the first zones after the cursor that the options do not exclude, at
    least one where there is one, whatever the limit. *)
Theorem Search_page c zones opts (Hc : LimitCheckAny c [Some User] = None) :
  Search c zones (Some opts) = inl (take (limit_of opts) (matching opts zones)).
Proof. unfold Search. rewrite Hc. cbn. rewrite zone_loop_take by (unfold limit_of; cbn; lia). by rewrite Nat.sub_0_r. Qed.

(** The options of the next page *)
Definition next_page (opts : SearchOptions) (page : list string) : SearchOptions :=
  match last page with Some z => mkOptions (so_Search opts) z (so_Omit opts) (so_Limit opts) | None => opts end.

Lemma leb_le a b : String.leb a b = true <-> String.le a b.
Proof. symmetry. apply Is_true_true. Qed.

Lemma omitted_next opts z last : last <> "" -> omitted opts last = false ->
  omitted (mkOptions (so_Search opts) last (so_Omit opts) (so_Limit opts)) z = omitted opts z || String.leb z last.
Proof.
  intros Hl Ho. unfold omitted. cbn. destruct (String.eqb_spec last ""); [done|]. cbn.
  destruct (_ && _); [done|]. destruct (bool_decide _); [done|]. cbn.
  destruct (String.leb z last) eqn:E; [by rewrite orb_true_r|]. rewrite orb_false_r.
  destruct (String.eqb_spec (so_After opts) "") as [|Ha]; [done|]. cbn. unfold omitted in Ho.
  apply orb_false_iff in Ho as [_ Ho]. destruct (String.eqb_spec (so_After opts) ""); [done|]. cbn in Ho.
  destruct (String.leb z (so_After opts)) eqn:E2; [|done]. destruct (String.leb_total (so_After opts) last) as [Hle|Hle]; [|congruence].
  apply leb_le in E2, Hle. assert (String.leb z last = true) as Hz by (apply leb_le; by etransitivity). congruence.
Qed.

Lemma matching_sub opts zones : matching opts zones `sublist_of` zones.
Proof. unfold matching. induction zones as [|z zones IH]; cbn; [done|]. destruct (negb _); [by apply sublist_skip|by apply sublist_cons]. Qed.

Lemma matching_split opts zones pre z suf : StronglySorted String.le zones -> NoDup zones -> matching opts zones = pre ++ z :: suf -> z <> "" ->
  matching (mkOptions (so_Search opts) z (so_Omit opts) (so_Limit opts)) zones = suf.
Proof.
  intros HS HN HM Hz. assert (z ∈ matching opts zones) as Hin by (rewrite HM; set_solver).
  apply list_elem_of_In, List.filter_In in Hin as [_ Ho]. apply negb_true_iff in Ho.
  assert (StronglySorted String.le (matching opts zones)) as HSm by by apply sorted_filter.
  assert (NoDup (matching opts zones)) as HNm by (eapply sublist_NoDup; [done|apply matching_sub]).
  transitivity (List.filter (fun x => negb (String.leb x z)) (matching opts zones)).
  { clear HM HS HN HSm HNm. unfold matching. induction zones as [|x zones IH]; cbn; [done|]. rewrite omitted_next by done.
    destruct (omitted opts x); cbn; [done|]. destruct (String.leb x z); cbn; [done|]. by rewrite IH. }
  rewrite HM in *. rewrite List.filter_app. cbn. assert (String.leb z z = true) as -> by (destruct (String.leb_total z z); done). cbn.
  assert (forall x, x ∈ pre -> String.leb x z = true) as Hpre.
  { intros x Hx. apply leb_le. eapply (sorted_app String.le); [exact HSm|done|by left]. }
  assert (forall x, x ∈ suf -> String.leb x z = false) as Hsuf.
  { intros x Hx. destruct (String.leb x z) eqn:E; [|done]. exfalso. rewrite cons_middle, app_assoc in HSm, HNm.
    assert (String.le z x) as H by (eapply (sorted_app String.le _ suf); [exact HSm|set_solver|done]).
    assert (x = z) as -> by (apply (anti_symm String.le); [by apply leb_le|done]).
    apply NoDup_app in HNm as (_ & HD & _). by apply (HD z); [set_solver|]. }
  assert (List.filter (fun x => negb (String.leb x z)) pre = []) as ->.
  { clear -Hpre. induction pre as [|x pre IH]; cbn; [done|]. rewrite Hpre by left. cbn. apply IH. intros y Hy. apply Hpre. by right. }
  clear -Hsuf. cbn. induction suf as [|x suf IH]; cbn; [done|]. rewrite Hsuf by left. cbn. f_equal. apply IH. intros y Hy. apply Hsuf. by right.
Qed.

(** The page after a page goes on where that one ended: no zone is left out and none
    is shown twice. *)
Theorem Search_next_page c zones opts page (Hc : LimitCheckAny c [Some User] = None) (HS : StronglySorted String.le zones)
  (HN : NoDup zones) (He : "" ∉ zones) (HP : Search c zones (Some opts) = inl page) (Hne : page <> []) :
  Search c zones (Some (next_page opts page)) = inl (take (limit_of opts) (drop (length page) (matching opts zones))) /\
  page = take (length page) (matching opts zones).
Proof.
  rewrite Search_page in HP by done. injection HP as <-. rewrite Search_page by done. set (m := matching opts zones) in *.
  destruct (last (take (limit_of opts) m)) as [z|] eqn:El; [|apply last_None in El; done].
  apply last_Some in El as [pre Hpre]. assert (m = pre ++ z :: drop (limit_of opts) m) as Hm.
  { rewrite <- (take_drop (limit_of opts) m) at 1. by rewrite Hpre, <- app_assoc. }
  assert (z <> "") as Hz.
  { intros ->. apply He. eapply elem_of_sublist; [|apply (matching_sub opts)]. fold m. rewrite Hm. set_solver. }
  unfold next_page. rewrite Hpre, last_snoc. unfold limit_of at 1. cbn [so_Limit]. fold (limit_of opts).
  rewrite (matching_split opts zones pre z _ HS HN Hm Hz). split.
  - f_equal. f_equal. rewrite <- Hpre, length_take. destruct (decide (limit_of opts <= length m)%nat); [by rewrite Nat.min_l|].
    rewrite !drop_ge by lia. done.
  - rewrite <- Hpre, length_take. by destruct (Nat.min_spec (limit_of opts) (length m)) as [[? ->]|[? ->]]; [|rewrite !take_ge by lia].
Qed.

(** The zones are sorted when the program has started. *)
Lemma Zones_sorted zoneData : StronglySorted String.le (Zones zoneData).
Proof. apply StronglySorted_merge_sort; apply _. Qed.
End TimeZone.
