(* ===== verification/Organization.v ===== *)
(** * Organizations and who belongs to them: [organization]

    An organization is a row of [organizations]; a normal one also has a row of
    [normal_organizations] with the key by which the enterprise knows it.  A user
    has at most one assignment to an organization, which says how many
    organizations matched: exactly one, or else the Default organization, in which
    nobody may do anything.  The statements have the constraints and triggers of
    [migrate/schema.sql]. *)

From Stdlib Require Import Ascii String.
From S2P Require Import Prelude Text Effects GoTime Unicode Validate Permission TimeZone.

Local Open Scope string_scope.
Local Open Scope Z_scope.

(** ** Texts *)

(** [utf8.ValidString]: what is decoded is what was written. *)
Definition ValidString (s : string) : bool := String.eqb (text (runes s)) s.

Definition has_nul (s : string) : bool := negb (all_chars (fun c => negb (Ascii.eqb c zero)) s).

Definition sourceConfigVersionBoundaryWhitespace : list Z :=
  [9; 10; 11; 12; 13; 32; 133; 160; 5760; 8192; 8193; 8194; 8195; 8196; 8197; 8198; 8199; 8200; 8201; 8202;
   8232; 8233; 8239; 8287; 12288].

(** [strings.Trim] with that set *)
Definition boundary (r : Z) : bool := bool_decide (r ∈ sourceConfigVersionBoundaryWhitespace).
Definition Trim (s : list Z) : list Z := trim_right boundary (trim_left boundary s).

(** [btrim] of PostgreSQL *)
Definition btrim (s : list Z) : list Z := trim_right (Z.eqb 32) (trim_left (Z.eqb 32) s).
Definition not_blank (s : string) : bool := negb (bool_decide (btrim (runes s) = [])).
Definition trimmed (s : string) : bool := bool_decide (btrim (runes s) = runes s) && negb (String.eqb s "").

(** ** Data: [organization.go], [user_assignment.go] *)

Definition ClassificationNormal : string := "NORMAL".
Definition ClassificationDefault : string := "DEFAULT".

Record Organization := mkOrganization {
  org_ID : UUID; org_Classification : string; org_DisplayName : string; org_CanonicalName : string;
  org_CreatedAt : Z; org_UpdatedAt : Z
}.

Record NormalOrganization := mkNormalOrganization {
  no_base : Organization; no_CorporateMappingKey : string; no_TimeZone : string
}.

Record CreateNormalOrganizationInput := mkCreateInput {
  in_DisplayName : string; in_CanonicalName : string; in_CorporateMappingKey : string; in_TimeZone : string
}.

Definition OrganizationRoleMember : string := "ORG_MEMBER".
Definition OrganizationRoleAdmin : string := "ORG_ADMIN".
Definition OrganizationRoleNone : string := "NONE".

Definition MappingOutcomeExactlyOne : string := "EXACTLY_ONE".
Definition MappingOutcomeZero : string := "ZERO".
Definition MappingOutcomeMultiple : string := "MULTIPLE".

Record AssignmentEvaluation := mkEvaluation { ev_at : Z; ev_SourceConfigVersion : string; ev_MatchedCount : Z }.

(** [UserOrganizationAssignmentValues] *)
Record AssignmentValues := mkValues {
  av_org : UUID; av_classification : string; av_role : string; av_outcome : string; av_evaluation : AssignmentEvaluation
}.

Record UserOrganizationAssignment := mkAssignment { ua_user : UUID; ua_values : AssignmentValues }.

Record CurrentUserOrganization := mkCurrentOrg { co_user : UUID; co_user_role : Role; co_org : UUID; co_role : string }.

Definition DefaultID : UUID := 0x296e2656722153febd0a832d24ccfd03.
Definition DefaultOrganizationCanonicalName : string := "ms-oncall.default".

(** ** Errors *)

(** What the database answers, as far as the program looks: code, constraint,
    schema, table, column. *)
Record PgError := mkPg { pg_Code : string; pg_Constraint : string; pg_Schema : string; pg_Table : string; pg_Column : string }.
Inductive DBError := Pg (e : PgError) | Canceled | OtherDBError.

Inductive OErr := ErrNotFound | ErrConflict | ErrInvalidInput (msg : string) | ErrInvariantViolation (msg : string)
  | ErrUserAssignmentNotFound | ErrUserAssignmentConflict | ODB (e : DBError) | OOther (msg : string).

(** The tables of a constraint, for [mapWriteError] *)
Definition on_table (e : PgError) (table : string) : bool := String.eqb (pg_Schema e) "public" && String.eqb (pg_Table e) table.
Definition any_of (s : string) (l : list string) : bool := existsb (String.eqb s) l.

Definition write_target (e : PgError) : option OErr :=
  let c := pg_Constraint e in
  let to (t : OErr) (b : bool) := if b then Some t else None in
  if String.eqb (pg_Code e) "23505" then
    if any_of c ["organizations_pkey"; "organizations_canonical_name_key"; "organizations_id_classification_key"; "organizations_single_default_idx"]
    then to ErrConflict (on_table e "organizations")
    else if any_of c ["normal_organizations_pkey"; "normal_organizations_corporate_mapping_key_key"]
    then to ErrConflict (on_table e "normal_organizations") else None
  else if String.eqb (pg_Code e) "23514" then
    if any_of c ["organizations_display_name_not_blank"; "organizations_canonical_name_not_blank"; "organizations_audit_timestamp_order";
                 "organizations_default_delete_forbidden"; "organizations_id_immutable"; "organizations_classification_immutable";
                 "organizations_canonical_name_immutable"; "organizations_created_at_immutable"]
    then to (ErrInvariantViolation "") (on_table e "organizations")
    else if any_of c ["normal_organizations_classification_normal"; "normal_organizations_corporate_mapping_key_not_blank";
                      "normal_organizations_iana_time_zone_not_blank"; "normal_organizations_organization_id_immutable";
                      "normal_organizations_classification_immutable"; "normal_organizations_corporate_mapping_key_immutable"]
    then to (ErrInvariantViolation "") (on_table e "normal_organizations")
    else if String.eqb c "normal_organizations_base_invariant"
    then to (ErrInvariantViolation "") (on_table e "organizations" && String.eqb (pg_Column e) "id") else None
  else if String.eqb (pg_Code e) "23503" then
    to (ErrInvariantViolation "") (String.eqb c "normal_organizations_organization_classification_fkey" && on_table e "normal_organizations")
  else if String.eqb (pg_Code e) "22P02" then to (ErrInvariantViolation "") (String.eqb c "")
  else if String.eqb (pg_Code e) "23502" then
    to (ErrInvariantViolation "") (String.eqb c "" && String.eqb (pg_Schema e) "public" &&
      any_of (pg_Table e ++ "." ++ pg_Column e)
        ["organizations.id"; "organizations.classification"; "organizations.display_name"; "organizations.canonical_name";
         "organizations.created_at"; "organizations.updated_at"; "normal_organizations.organization_id";
         "normal_organizations.organization_classification"; "normal_organizations.corporate_mapping_key"; "normal_organizations.iana_time_zone"])
  else None.

Definition mapWriteError (e : DBError) : OErr :=
  match e with Pg p => default (ODB e) (write_target p) | _ => ODB e end.

Definition assignment_target (e : PgError) : option OErr :=
  let here := on_table e "user_organization_assignments" in
  let to (t : OErr) (b : bool) := if b then Some t else None in
  if String.eqb (pg_Code e) "23505" then to ErrUserAssignmentConflict (String.eqb (pg_Constraint e) "user_organization_assignments_pkey" && here)
  else if String.eqb (pg_Code e) "23514" || String.eqb (pg_Code e) "23503" then to (ErrInvalidInput "") here
  else if String.eqb (pg_Code e) "22P02" then to (ErrInvalidInput "") (String.eqb (pg_Constraint e) "")
  else if String.eqb (pg_Code e) "23502" then to (ErrInvalidInput "") (String.eqb (pg_Constraint e) "" && here)
  else None.

Definition mapUserAssignmentWriteError (e : DBError) : OErr :=
  match e with Pg p => default (ODB e) (assignment_target p) | _ => ODB e end.

(** ** Tables *)

(** [organizations], by id *)
Record OrgRow := mkOrg { or_class : string; or_display : string; or_canonical : string; or_created : Z; or_updated : Z }.

(** [normal_organizations], by the id of the organization; its classification is
    a constant. *)
Record NormalRow := mkNormal { nr_key : string; nr_zone : string }.

(** [user_organization_assignments], by user *)
Record AssignRow := mkAssign {
  as_org : UUID; as_class : string; as_normal : option UUID; as_role : string; as_outcome : string;
  as_at : Z; as_version : string; as_count : Z
}.

Record OTables := mkOTables {
  ot_orgs : gmap UUID OrgRow; ot_normals : gmap UUID NormalRow; ot_users : gmap UUID string; ot_assigns : gmap UUID AssignRow
}.

Definition set_orgs (m : gmap UUID OrgRow) (t : OTables) : OTables := mkOTables m (ot_normals t) (ot_users t) (ot_assigns t).
Definition set_normals (m : gmap UUID NormalRow) (t : OTables) : OTables := mkOTables (ot_orgs t) m (ot_users t) (ot_assigns t).
Definition set_assigns (m : gmap UUID AssignRow) (t : OTables) : OTables := mkOTables (ot_orgs t) (ot_normals t) (ot_users t) m.

Definition refuse {A} (code constraint table : string) : A + DBError := inr (Pg (mkPg code constraint "public" table "")).

(** A text that PostgreSQL cannot store *)
Definition bad_text (s : string) : bool := negb (ValidString s) || has_nul s.
Definition encoding_error {A} : A + DBError := inr (Pg (mkPg "22021" "" "" "" "")).

Record OWorld := mkOW { ow_tbl : OTables; ow_calls : nat }.

(** [ORDER BY id] *)
Definition id_le (a b : UUID * OrgRow) : Prop := a.1 <= b.1.
#[export] Instance id_le_dec a b : Decision (id_le a b) := Z_le_dec a.1 b.1.

Section Organization.
Context {HU : Unicode} {HT : UUIDText} {HR : GoMapRange}.
(** The n-th call of the database fails with [db_err n], the time of a statement,
    and whether a commit that fails has taken effect *)
Context (db_err : nat -> option DBError) (clock : nat -> Z) (commit_lost : nat -> bool).
(** [uuid.NewRandom], which may fail *)
Context (new_id : nat -> option UUID).
(** The names and aliases of the zones *)
Context (aliases : gmap string string).

Local Notation M := (Effects.M OWorld OErr).

(** The constant is the canonical text of the number. *)
Definition DefaultOrganizationID : string := uuid_String DefaultID.

Definition ow_tick (w : OWorld) : OWorld := mkOW (ow_tbl w) (S (ow_calls w)).

(** A statement, and its answer *)
Definition ostmt {A} (f : Z -> OTables -> A * OTables + DBError) : M (A + DBError) := fun w =>
  match db_err (ow_calls w) with
  | Some e => (Ok (inr e), ow_tick w)
  | None =>
      match f (clock (ow_calls w)) (ow_tbl w) with
      | inl (a, t) => (Ok (inl a), ow_tick (mkOW t (ow_calls w)))
      | inr e => (Ok (inr e), ow_tick w)
      end
  end.

Definition oread {A} (f : OTables -> A) : M (A + DBError) := ostmt (fun _ t => inl (f t, t)).

Definition or_fail {A} (f : DBError -> OErr) (m : M (A + DBError)) : M A :=
  let! r := m in match r with inl a => ret a | inr e => fail (f e) end.

Definition of_sum {A} (r : A + OErr) : M A := match r with inl a => ret a | inr e => fail e end.

(** A transaction: begin, the body, and the commit, whose error is [on_commit].
    The first statement of each body locks the rows that it works on. *)
Definition InTx {A} (on_commit : DBError -> OErr) (body : M A) : M A := fun w =>
  match db_err (ow_calls w) with
  | Some e => (Err (ODB e), ow_tick w)
  | None =>
      match body (ow_tick w) with
      | (Ok a, w') =>
          match db_err (ow_calls w') with
          | Some e => (Err (on_commit e), mkOW (ow_tbl (if commit_lost (ow_calls w') then w' else w)) (S (ow_calls w')))
          | None => (Ok a, ow_tick w')
          end
      | (Err e, w') => (Err e, mkOW (ow_tbl w) (ow_calls w'))
      | (Panic, w') => (Panic, mkOW (ow_tbl w) (ow_calls w'))
      end
  end.

(** ** Validation: [organization.go] *)

Definition blank (s : string) : bool := bool_decide (TrimSpace (runes s) = []).
Definition untrimmed (s : string) : bool := negb (bool_decide (TrimSpace (runes s) = runes s)).

Definition canonicalTimeZone (value : string) : string + OErr :=
  if blank value || untrimmed value then inr (ErrInvalidInput "IANA time zone must be non-empty and trimmed")
  else let zone := CanonicalZone aliases value in
       if String.eqb zone "" then inr (ErrInvalidInput "unknown IANA time zone") else inl zone.

Definition validateCreateInput (input : CreateNormalOrganizationInput) : CreateNormalOrganizationInput + OErr :=
  if blank (in_DisplayName input) then inr (ErrInvalidInput "display name is required")
  else if blank (in_CanonicalName input) || untrimmed (in_CanonicalName input) then
    inr (ErrInvalidInput "canonical name must be non-empty and trimmed")
  else if blank (in_CorporateMappingKey input) || untrimmed (in_CorporateMappingKey input) then
    inr (ErrInvalidInput "corporate mapping key must be non-empty and trimmed")
  else match canonicalTimeZone (in_TimeZone input) with
       | inr e => inr e
       | inl zone => inl (mkCreateInput (in_DisplayName input) (in_CanonicalName input) (in_CorporateMappingKey input) zone)
       end.

Definition validateClassification (c : string) : bool := String.eqb c ClassificationNormal || String.eqb c ClassificationDefault.

Definition validateLoadedOrganization (o : Organization) : option OErr :=
  if org_ID o =? uuid_Nil then Some (ErrInvariantViolation "missing stable identity")
  else if negb (validateClassification (org_Classification o)) then Some (ErrInvariantViolation "unknown classification")
  else if blank (org_DisplayName o) || blank (org_CanonicalName o) || untrimmed (org_CanonicalName o) then
    Some (ErrInvariantViolation "invalid persisted identity")
  else if (org_CreatedAt o =? zero_inst) || (org_UpdatedAt o =? zero_inst) || (org_UpdatedAt o <? org_CreatedAt o) then
    Some (ErrInvariantViolation "invalid audit timestamps")
  else None.

(** ** Reading: [store.go] *)

Definition organization_row (id : UUID) (r : OrgRow) : Organization :=
  mkOrganization id (or_class r) (or_display r) (or_canonical r) (or_created r) (or_updated r).

Definition scanOrganization (id : UUID) (r : OrgRow) : Organization + OErr :=
  match validateLoadedOrganization (organization_row id r) with Some e => inr e | None => inl (organization_row id r) end.

Definition scanNormalOrganization (id : UUID) (r : OrgRow) (n : NormalRow) : NormalOrganization + OErr :=
  match validateLoadedOrganization (organization_row id r) with
  | Some e => inr e
  | None =>
      if negb (String.eqb (or_class r) ClassificationNormal) then inr (ErrInvariantViolation "subtype base is not NORMAL")
      else if blank (nr_key n) || untrimmed (nr_key n) then inr (ErrInvariantViolation "invalid corporate mapping key")
      else match canonicalTimeZone (nr_zone n) with
           | inl zone => if String.eqb zone (nr_zone n) then inl (mkNormalOrganization (organization_row id r) (nr_key n) (nr_zone n))
                         else inr (ErrInvariantViolation "invalid canonical IANA time zone")
           | inr _ => inr (ErrInvariantViolation "invalid canonical IANA time zone")
           end
  end.

Definition findOrganization (id : UUID) : M Organization :=
  let! row := or_fail ODB (oread (fun t => ot_orgs t !! id)) in
  match row with None => fail ErrNotFound | Some r => of_sum (scanOrganization id r) end.

(** The normal organizations that the join finds, of which [QueryRow] takes the first *)
Definition normal_where (p : UUID -> NormalRow -> bool) (t : OTables) : option (UUID * OrgRow * NormalRow) :=
  head (omap (fun '(id, n) =>
    match ot_orgs t !! id with
    | Some r => if String.eqb (or_class r) ClassificationNormal && p id n then Some (id, r, n) else None
    | None => None
    end) (map_range (ot_normals t))).

Definition findNormalOrganization (p : UUID -> NormalRow -> bool) : M NormalOrganization :=
  let! row := or_fail ODB (oread (normal_where p)) in
  match row with None => fail ErrNotFound | Some (id, r, n) => of_sum (scanNormalOrganization id r n) end.

Definition by_id (id : UUID) : UUID -> NormalRow -> bool := fun i _ => i =? id.

Definition FindByID (id : UUID) : M Organization :=
  if id =? uuid_Nil then fail (ErrInvalidInput "Organization ID is required") else findOrganization id.

(** The error of a call, as a value *)
Definition otry {A} (m : M A) : M (A + OErr) := fun w =>
  match m w with
  | (Ok a, w) => (Ok (inl a), w)
  | (Err e, w) => (Ok (inr e), w)
  | (Panic, w) => (Panic, w)
  end.

Definition FindNormalByID (id : UUID) : M NormalOrganization :=
  if id =? uuid_Nil then fail (ErrInvalidInput "Organization ID is required")
  else
    let! normal := otry (findNormalOrganization (by_id id)) in
    match normal with
    | inl n => ret n
    | inr ErrNotFound =>
        let! base := findOrganization id in
        if String.eqb (org_Classification base) ClassificationDefault then fail ErrNotFound
        else fail (ErrInvariantViolation "NORMAL base has no subtype")
    | inr e => fail e
    end.

Definition FindNormalByCorporateMappingKey (key : string) : M NormalOrganization :=
  if blank key || untrimmed key then fail (ErrInvalidInput "corporate mapping key must be non-empty and trimmed")
  else findNormalOrganization (fun _ n => String.eqb (nr_key n) key).

(** At most two rows are read. *)
Definition default_rows (t : OTables) : list (UUID * OrgRow) :=
  take 2 (merge_sort id_le (List.filter (fun '(_, r) => String.eqb (or_class r) ClassificationDefault) (map_range (ot_orgs t)))).

Definition FindDefault : M Organization :=
  let! rows := or_fail ODB (oread default_rows) in
  let! found := of_sum (foldr (fun '(id, r) acc =>
    match scanOrganization id r with inr e => inr e | inl o => match acc with inr e => inr e | inl l => inl (o :: l) end end) (inl []) rows) in
  match found with
  | [o] => if String.eqb (uuid_String (org_ID o)) DefaultOrganizationID && String.eqb (org_CanonicalName o) DefaultOrganizationCanonicalName
           then ret o else fail (ErrInvariantViolation "distinguished Default Organization identity is missing or contradictory")
  | _ => fail (ErrInvariantViolation "distinguished Default Organization identity is missing or contradictory")
  end.

(** ** Writing *)

Definition is_some {A} (o : option A) : bool := match o with Some _ => true | None => false end.
Definition canonical_taken (name : string) (m : gmap UUID OrgRow) : bool :=
  existsb (fun '(_, r) => String.eqb (or_canonical r) name) (map_range m).
Definition key_taken (key : string) (m : gmap UUID NormalRow) : bool :=
  existsb (fun '(_, n) => String.eqb (nr_key n) key) (map_range m).

(** The insert of a base: checks, then unique indexes *)
Definition insert_base (id : UUID) (display canonical : string) (now : Z) (t : OTables) : unit * OTables + DBError :=
  if bad_text display || bad_text canonical then encoding_error
  else if negb (not_blank display) then refuse "23514" "organizations_display_name_not_blank" "organizations"
  else if negb (trimmed canonical) then refuse "23514" "organizations_canonical_name_not_blank" "organizations"
  else if is_some (ot_orgs t !! id) then refuse "23505" "organizations_pkey" "organizations"
  else if canonical_taken canonical (ot_orgs t) then refuse "23505" "organizations_canonical_name_key" "organizations"
  else inl (tt, set_orgs (<[id := mkOrg ClassificationNormal display canonical now now]> (ot_orgs t)) t).

(** The insert of the subtype, with its foreign key *)
Definition insert_normal (id : UUID) (key zone : string) (t : OTables) : unit * OTables + DBError :=
  if bad_text key || bad_text zone then encoding_error
  else if negb (trimmed key) then refuse "23514" "normal_organizations_corporate_mapping_key_not_blank" "normal_organizations"
  else if negb (not_blank zone) then refuse "23514" "normal_organizations_iana_time_zone_not_blank" "normal_organizations"
  else if is_some (ot_normals t !! id) then refuse "23505" "normal_organizations_pkey" "normal_organizations"
  else if key_taken key (ot_normals t) then refuse "23505" "normal_organizations_corporate_mapping_key_key" "normal_organizations"
  else match ot_orgs t !! id with
       | Some r => if String.eqb (or_class r) ClassificationNormal
                   then inl (tt, set_normals (<[id := mkNormal key zone]> (ot_normals t)) t)
                   else refuse "23503" "normal_organizations_organization_classification_fkey" "normal_organizations"
       | None => refuse "23503" "normal_organizations_organization_classification_fkey" "normal_organizations"
       end.

Definition CreateNormal (input : CreateNormalOrganizationInput) : M NormalOrganization :=
  let! input := of_sum (validateCreateInput input) in
  let! id := (fun w => match new_id (ow_calls w) with Some id => (Ok id, w) | None => (Err (OOther "generate Organization identity"), w) end) in
  InTx mapWriteError (
    or_fail mapWriteError (ostmt (insert_base id (in_DisplayName input) (in_CanonicalName input))) ;;;
    or_fail mapWriteError (ostmt (fun _ => insert_normal id (in_CorporateMappingKey input) (in_TimeZone input))) ;;;
    findNormalOrganization (by_id id)).

(** [greatest(clock_timestamp(), OLD.updated_at + interval '1 microsecond')] *)
Definition touched (now : Z) (r : OrgRow) : Z := Z.max now (or_updated r + 1000).

(** The update of the display name under the trigger of [organizations] *)
Definition with_display (display : string) (now : Z) (r : OrgRow) : OrgRow :=
  mkOrg (or_class r) display (or_canonical r) (or_created r)
    (if String.eqb display (or_display r) then or_updated r else touched now r).

Definition update_display (id : UUID) (display : string) (now : Z) (t : OTables) : option OrgRow * OTables + DBError :=
  if bad_text display then encoding_error
  else match ot_orgs t !! id with
       | Some r =>
           if negb (String.eqb (or_class r) ClassificationNormal) then inl (None, t)
           else if negb (not_blank display) then refuse "23514" "organizations_display_name_not_blank" "organizations"
           else let r := with_display display now r in inl (Some r, set_orgs (<[id := r]> (ot_orgs t)) t)
       | None => inl (None, t)
       end.

Definition UpdateDisplayName (id : UUID) (displayName : string) : M Organization :=
  if (id =? uuid_Nil) || blank displayName then fail (ErrInvalidInput "Organization ID and display name are required")
  else
    InTx mapWriteError (
      let! row := or_fail mapWriteError (ostmt (update_display id displayName)) in
      match row with
      | Some r => of_sum (scanOrganization id r)
      | None =>
          let! base := findOrganization id in
          if negb (String.eqb (org_Classification base) ClassificationNormal) then
            fail (ErrInvalidInput "Default Organization is not mutable through the normal store")
          else fail (ErrInvariantViolation "failed to update normal Organization")
      end).

(** The update of the zone; the trigger touches the base if the zone is another. *)
Definition touch_base (id : UUID) (now : Z) (t : OTables) : Z * OTables + DBError :=
  match ot_orgs t !! id with
  | Some r =>
      if String.eqb (or_class r) ClassificationNormal then
        inl (1, set_orgs (<[id := mkOrg (or_class r) (or_display r) (or_canonical r) (or_created r)
                  (if now =? or_updated r then or_updated r else touched now r)]> (ot_orgs t)) t)
      else inr (Pg (mkPg "23514" "normal_organizations_base_invariant" "public" "organizations" "id"))
  | None => inr (Pg (mkPg "23514" "normal_organizations_base_invariant" "public" "organizations" "id"))
  end.

(** The number of rows that are updated *)
Definition update_zone (id : UUID) (zone : string) (now : Z) (t : OTables) : Z * OTables + DBError :=
  if bad_text zone then encoding_error
  else match ot_normals t !! id with
       | None => inl (0, t)
       | Some n =>
           if negb (not_blank zone) then refuse "23514" "normal_organizations_iana_time_zone_not_blank" "normal_organizations"
           else
             let t := set_normals (<[id := mkNormal (nr_key n) zone]> (ot_normals t)) t in
             if String.eqb zone (nr_zone n) then inl (1, t) else touch_base id now t
       end.

Definition UpdateTimeZone (id : UUID) (timeZone : string) : M NormalOrganization :=
  if id =? uuid_Nil then fail (ErrInvalidInput "Organization ID is required")
  else
    let! zone := of_sum (canonicalTimeZone timeZone) in
    InTx mapWriteError (
      let! rows := or_fail mapWriteError (ostmt (update_zone id zone)) in
      if rows =? 1 then findNormalOrganization (by_id id)
      else
        let! base := findOrganization id in
        if String.eqb (org_Classification base) ClassificationDefault then fail (ErrInvalidInput "Default Organization has no normal subtype")
        else fail (ErrInvariantViolation "NORMAL base has no subtype")).

(** ** Assignments: [user_assignment.go], [user_assignment_store.go] *)

Definition validateOrganizationRole (r : string) : bool := any_of r [OrganizationRoleMember; OrganizationRoleAdmin; OrganizationRoleNone].
Definition validateMappingOutcome (o : string) : bool := any_of o [MappingOutcomeExactlyOne; MappingOutcomeZero; MappingOutcomeMultiple].

(** The error is its text. *)
Definition validateSourceConfigVersion (v : string) : option string :=
  if negb (ValidString v) then Some "source/config version must be valid UTF-8"
  else if has_nul v then Some "source/config version cannot contain U+0000"
  else if String.eqb v "" || negb (bool_decide (Trim (runes v) = runes v)) then Some "source/config version must be non-empty and trimmed"
  else None.

Definition postgresTimestamptzMinimum : Z := inst (date (-4713) 11 24 0 0 0 0 UTC).
Definition postgresTimestamptzEnd : Z := inst (date 294277 1 1 0 0 0 0 UTC).
Definition MaxInt32 : Z := 2147483647.

Definition validateAssignmentEvaluation (e : AssignmentEvaluation) : option string :=
  if ev_at e =? zero_inst then Some "authoritative evaluation time is required"
  else if (ev_at e <? postgresTimestamptzMinimum) || negb (ev_at e <? postgresTimestamptzEnd) then
    Some "authoritative evaluation time is outside PostgreSQL timestamptz range"
  else match validateSourceConfigVersion (ev_SourceConfigVersion e) with
       | Some m => Some m
       | None =>
           if ev_MatchedCount e <? 0 then Some "matched count cannot be negative"
           else if MaxInt32 <? ev_MatchedCount e then Some "matched count exceeds PostgreSQL integer range"
           else None
       end.

Definition in_default (v : AssignmentValues) : bool :=
  String.eqb (av_classification v) ClassificationDefault && (av_org v =? DefaultID) && String.eqb (av_role v) OrganizationRoleNone.

Definition validateUserOrganizationAssignmentValues (v : AssignmentValues) : option string :=
  let count := ev_MatchedCount (av_evaluation v) in
  if av_org v =? uuid_Nil then Some "effective Organization ID is required"
  else if negb (validateClassification (av_classification v)) then Some "unknown effective Organization classification"
  else if negb (validateOrganizationRole (av_role v)) then Some "unknown Organization role"
  else if negb (validateMappingOutcome (av_outcome v)) then Some "unknown mapping outcome"
  else match validateAssignmentEvaluation (av_evaluation v) with
       | Some m => Some m
       | None =>
           if String.eqb (av_outcome v) MappingOutcomeExactlyOne then
             if negb (count =? 1) || negb (String.eqb (av_classification v) ClassificationNormal) || (av_org v =? DefaultID) ||
                negb (any_of (av_role v) [OrganizationRoleMember; OrganizationRoleAdmin])
             then Some "EXACTLY_ONE requires one normal Organization match and member or admin role" else None
           else if String.eqb (av_outcome v) MappingOutcomeZero then
             if negb (count =? 0) || negb (in_default v) then Some "ZERO requires the distinguished Default Organization and NONE role" else None
           else
             if (count <=? 1) || negb (in_default v) then Some "MULTIPLE requires the distinguished Default Organization and NONE role" else None
       end.

Definition effectiveNormalOrganizationID (v : AssignmentValues) : option UUID :=
  if String.eqb (av_classification v) ClassificationNormal then Some (av_org v) else None.

(** A time is stored to the microsecond. *)
Definition row_of (v : AssignmentValues) : AssignRow :=
  mkAssign (av_org v) (av_classification v) (effectiveNormalOrganizationID v) (av_role v) (av_outcome v)
    (ev_at (av_evaluation v) / 1000 * 1000) (ev_SourceConfigVersion (av_evaluation v)) (ev_MatchedCount (av_evaluation v)).

Definition values_of (a : AssignRow) : AssignmentValues :=
  mkValues (as_org a) (as_class a) (as_role a) (as_outcome a) (mkEvaluation (as_at a) (as_version a) (as_count a)).

(** The constraint [user_organization_assignments_mapping_truth] *)
Definition mapping_truth (a : AssignRow) : bool :=
  let default := String.eqb (as_class a) ClassificationDefault && (as_org a =? DefaultID) && bool_decide (as_normal a = None) &&
                 String.eqb (as_role a) OrganizationRoleNone in
  (String.eqb (as_outcome a) MappingOutcomeExactlyOne && (as_count a =? 1) && String.eqb (as_class a) ClassificationNormal &&
     negb (as_org a =? DefaultID) && bool_decide (as_normal a = Some (as_org a)) &&
     any_of (as_role a) [OrganizationRoleMember; OrganizationRoleAdmin]) ||
  (String.eqb (as_outcome a) MappingOutcomeZero && (as_count a =? 0) && default) ||
  (String.eqb (as_outcome a) MappingOutcomeMultiple && (1 <? as_count a) && default).

Definition assignments : string := "user_organization_assignments".

(** The conversion of the values, the checks of the table, its key and its
    foreign keys *)
Definition insert_assignment (user : UUID) (a : AssignRow) (t : OTables) : AssignRow * OTables + DBError :=
  if negb (validateClassification (as_class a) && validateOrganizationRole (as_role a) && validateMappingOutcome (as_outcome a)) then
    inr (Pg (mkPg "22P02" "" "" "" ""))
  else if bad_text (as_version a) then encoding_error
  else if (as_count a <? - MaxInt32 - 1) || (MaxInt32 <? as_count a) then inr (Pg (mkPg "22003" "" "" "" ""))
  else if as_org a =? uuid_Nil then refuse "23514" "user_organization_assignments_effective_organization_id_non_nil" assignments
  else if negb (mapping_truth a) then refuse "23514" "user_organization_assignments_mapping_truth" assignments
  else if String.eqb (as_version a) "" || negb (bool_decide (Trim (runes (as_version a)) = runes (as_version a))) then
    refuse "23514" "user_organization_assignments_source_config_version_not_blank" assignments
  else if user =? uuid_Nil then refuse "23514" "user_organization_assignments_user_id_non_nil" assignments
  else if is_some (ot_assigns t !! user) then refuse "23505" "user_organization_assignments_pkey" assignments
  else if negb (match as_normal a with Some n => is_some (ot_normals t !! n) | None => true end) then
    refuse "23503" "user_org_assignments_effective_normal_organization_fkey" assignments
  else if negb (match ot_orgs t !! as_org a with Some r => String.eqb (or_class r) (as_class a) | None => false end) then
    refuse "23503" "user_organization_assignments_effective_organization_fkey" assignments
  else if negb (is_some (ot_users t !! user)) then refuse "23503" "user_organization_assignments_user_id_fkey" assignments
  else inl (a, set_assigns (<[user := a]> (ot_assigns t)) t).

Definition scanUserOrganizationAssignment (user : UUID) (a : AssignRow) : UserOrganizationAssignment + OErr :=
  if user =? uuid_Nil then inr (ErrInvariantViolation "missing UserOrganizationAssignment identity")
  else match validateUserOrganizationAssignmentValues (values_of a) with
       | Some m => inr (ErrInvariantViolation m)
       | None => inl (mkAssignment user (values_of a))
       end.

(** The error of the scan passes through [mapUserAssignmentWriteError], which
    keeps what is not of the database. *)
Definition CreateUserOrganizationAssignment (user : UUID) (v : AssignmentValues) : M UserOrganizationAssignment :=
  if user =? uuid_Nil then fail (ErrInvalidInput "User ID is required")
  else match validateUserOrganizationAssignmentValues v with
       | Some m => fail (ErrInvalidInput m)
       | None =>
           let! a := or_fail mapUserAssignmentWriteError (ostmt (fun _ => insert_assignment user (row_of v))) in
           of_sum (scanUserOrganizationAssignment user a)
       end.

Definition FindUserOrganizationAssignment (user : UUID) : M UserOrganizationAssignment :=
  if user =? uuid_Nil then fail (ErrInvalidInput "User ID is required")
  else
    let! row := or_fail ODB (oread (fun t => ot_assigns t !! user)) in
    match row with None => fail ErrUserAssignmentNotFound | Some a => of_sum (scanUserOrganizationAssignment user a) end.

(** The row of [CurrentUserOrganizationsQuery] for a user: user, assignment,
    organization and normal organization, joined *)
Definition operational (t : OTables) (user : UUID) : option (string * UUID * string) :=
  role ← ot_users t !! user;
  a ← ot_assigns t !! user;
  o ← ot_orgs t !! as_org a;
  n ← as_normal a;
  _ ← ot_normals t !! as_org a;
  if any_of role ["user"; "admin"] && String.eqb (as_outcome a) MappingOutcomeExactlyOne && (as_count a =? 1) &&
     String.eqb (as_class a) ClassificationNormal && negb (as_org a =? DefaultID) && (n =? as_org a) &&
     any_of (as_role a) [OrganizationRoleMember; OrganizationRoleAdmin] && String.eqb (or_class o) (as_class a)
  then Some (role, as_org a, as_role a) else None.

(** The text of a column as a [permission.Role] *)
Definition role_text (s : string) : Role :=
  if String.eqb s "admin" then RoleAdmin else if String.eqb s "user" then RoleUser
  else if String.eqb s "unknown" then RoleUnknown else RoleOther s.
Definition known_role (r : Role) : bool := match r with RoleUser | RoleAdmin => true | _ => false end.

Definition FindCurrentUserOrganization (user : UUID) : M CurrentUserOrganization :=
  if user =? uuid_Nil then fail (ErrInvalidInput "User ID is required")
  else
    let! row := or_fail ODB (oread (fun t => operational t user)) in
    match row with
    | None => fail ErrNotFound
    | Some (userRole, org, role) =>
        if (org =? uuid_Nil) || String.eqb (uuid_String org) DefaultOrganizationID || negb (known_role (role_text userRole)) ||
           negb (any_of role [OrganizationRoleMember; OrganizationRoleAdmin])
        then fail (ErrInvariantViolation "invalid current User Organization projection")
        else ret (mkCurrentOrg user (role_text userRole) org role)
    end.

(** [user_relationship.go] *)
Definition ValidateUserOrganizationTx (user parent : UUID) : M unit :=
  if (user =? uuid_Nil) || (parent =? uuid_Nil) then fail ErrNotFound
  else
    let! target := FindCurrentUserOrganization user in
    if negb (co_org target =? parent) then fail ErrNotFound else ret tt.

(** ** Which organization a user belongs to: [assignment_resolver.go] *)

Inductive ResolverErr := ErrResolverConfiguration (msg : string) | ErrResolverInput | ErrStaleConfiguration | ResolverOrg (e : OErr).

Record Resolver := mkResolver { rs_version : string; rs_keys : gmap string string }.

Record AssignmentDecision := mkDecision {
  de_outcome : string; de_count : Z; de_org : UUID; de_classification : string; de_version : string
}.

Definition normalizeEnterpriseMappingIdentifier (value : string) : option string :=
  if negb (ValidString value) || has_nul value then None
  else let normalized := text (Trim (runes value)) in if String.eqb normalized "" then None else Some normalized.

Definition validateResolverCorporateMappingKey (value : string) : bool :=
  ValidString value && negb (has_nul value) && negb (String.eqb value "") && bool_decide (Trim (runes value) = runes value).

Fixpoint add_rules (rules : list (string * string)) (m : gmap string string) : gmap string string + ResolverErr :=
  match rules with
  | [] => inl m
  | (identifier, key) :: rules =>
      match normalizeEnterpriseMappingIdentifier identifier with
      | None => inr (ErrResolverConfiguration "mapping rule identifier is invalid")
      | Some id =>
          if negb (validateResolverCorporateMappingKey key) then inr (ErrResolverConfiguration "corporate mapping target is invalid")
          else match m !! id with
               | Some configured => if negb (String.eqb configured key) then inr (ErrResolverConfiguration "normalized mapping rule is contradictory")
                                    else add_rules rules (<[id := key]> m)
               | None => add_rules rules (<[id := key]> m)
               end
      end
  end.

Definition NewOrganizationAssignmentResolver (version : string) (rules : list (string * string)) : Resolver + ResolverErr :=
  match validateSourceConfigVersion version with
  | Some _ => inr (ErrResolverConfiguration "source/config version is invalid")
  | None =>
      if MaxInt32 <? Z.of_nat (length rules) then inr (ErrResolverConfiguration "too many mapping rules")
      else match add_rules rules ∅ with inr e => inr e | inl m => inl (mkResolver version m) end
  end.

Definition validateResolvedNormalOrganization (key : string) (n : NormalOrganization) : bool :=
  negb (org_ID (no_base n) =? uuid_Nil) && negb (String.eqb (uuid_String (org_ID (no_base n))) DefaultOrganizationID) &&
  String.eqb (org_Classification (no_base n)) ClassificationNormal && String.eqb (no_CorporateMappingKey n) key.

Definition validateResolvedDefaultOrganization (o : Organization) : bool :=
  String.eqb (uuid_String (org_ID o)) DefaultOrganizationID && String.eqb (org_Classification o) ClassificationDefault &&
  String.eqb (org_CanonicalName o) DefaultOrganizationCanonicalName.

Local Notation R A := (Effects.M OWorld ResolverErr A).

Definition reading {A} (f : OErr -> ResolverErr) (m : M A) : R A := fun w =>
  match m w with (Ok a, w) => (Ok a, w) | (Err e, w) => (Err (f e), w) | (Panic, w) => (Panic, w) end.

Definition stale_target (e : OErr) : ResolverErr := match e with ErrNotFound => ErrStaleConfiguration | e => ResolverOrg e end.

(** The organizations of the keys, in order *)
Fixpoint match_keys (keys : list string) (matched : gset UUID) : R (gset UUID) :=
  match keys with
  | [] => ret matched
  | key :: keys =>
      let! normal := reading stale_target (FindNormalByCorporateMappingKey key) in
      if negb (validateResolvedNormalOrganization key normal) then
        fail (ResolverOrg (ErrInvariantViolation "contradictory Normal Organization lookup result"))
      else match_keys keys ({[org_ID (no_base normal)]} ∪ matched)
  end.

(** The keys that the rules give for the identifiers *)
Definition corporateKeys (r : Resolver) (ids : list string) : option (gset string) :=
  normalized ← mapM normalizeEnterpriseMappingIdentifier ids;
  Some (list_to_set (omap (fun id => rs_keys r !! id) normalized)).

Definition Resolve (r : Resolver) (ids : list string) : R AssignmentDecision :=
  match corporateKeys r ids with
  | None => fail ErrResolverInput
  | Some keys =>
      let! matched := match_keys (merge_sort String.le (elements keys)) ∅ in
      match elements matched with
      | [id] => ret (mkDecision MappingOutcomeExactlyOne 1 id ClassificationNormal (rs_version r))
      | ids =>
          let! d := reading ResolverOrg FindDefault in
          if negb (validateResolvedDefaultOrganization d) then
            fail (ResolverOrg (ErrInvariantViolation "contradictory distinguished Default Organization"))
          else ret (mkDecision (match ids with [] => MappingOutcomeZero | _ => MappingOutcomeMultiple end)
                      (Z.of_nat (length ids)) (org_ID d) ClassificationDefault (rs_version r))
      end
  end.
End Organization.
