(* ===== verification/OrganizationSpec.v ===== *)
(** * What the tables of organizations keep, and whose user is where

    Every operation keeps the constraints, and what it has written it can read; a
    user is in an organization exactly if the assignment says that one matched; and
    what the resolver decides can be stored and is then found. *)

From Stdlib Require Import Ascii String.
From S2P Require Import Prelude Text Effects GoTime Unicode Validate Permission TimeZone Organization.

Local Open Scope string_scope.
Local Open Scope Z_scope.

Section Spec.
Context {HU : Unicode} {HT : UUIDText} {HR : GoMapRange}.
Context (db_err : nat -> option DBError) (clock : nat -> Z) (commit_lost : nat -> bool).
Context (new_id : nat -> option UUID) (aliases : gmap string string).
(** The clock is after the year one, an id is not nil, and the name that a zone has
    is the name of itself. *)
Context (Hclock : forall n, zero_inst < clock n).
Context (Hid : forall n id, new_id n = Some id -> is_uuid id /\ id <> uuid_Nil).
Context (Hzones : forall z c, aliases !! z = Some c -> canonicalTimeZone aliases c = inl c \/ c = "").

Local Notation M := (Effects.M OWorld OErr).

Record org_inv (t : OTables) : Prop := {
  oi_org id r : ot_orgs t !! id = Some r ->
    is_uuid id /\ id <> uuid_Nil /\ (or_class r = ClassificationNormal \/ or_class r = ClassificationDefault) /\
    blank (or_display r) = false /\ blank (or_canonical r) = false /\ untrimmed (or_canonical r) = false /\
    zero_inst < or_created r <= or_updated r;
  oi_canonical id id' r r' : ot_orgs t !! id = Some r -> ot_orgs t !! id' = Some r' -> or_canonical r = or_canonical r' -> id = id';
  oi_default id r : ot_orgs t !! id = Some r -> or_class r = ClassificationDefault -> id = DefaultID /\ or_canonical r = DefaultOrganizationCanonicalName;
  oi_default_there : exists r, ot_orgs t !! DefaultID = Some r /\ or_class r = ClassificationDefault;
  oi_normal id n : ot_normals t !! id = Some n ->
    (exists r, ot_orgs t !! id = Some r /\ or_class r = ClassificationNormal) /\
    blank (nr_key n) = false /\ untrimmed (nr_key n) = false /\ canonicalTimeZone aliases (nr_zone n) = inl (nr_zone n);
  oi_key id id' n n' : ot_normals t !! id = Some n -> ot_normals t !! id' = Some n' -> nr_key n = nr_key n' -> id = id';
  oi_assign user a : ot_assigns t !! user = Some a ->
    mapping_truth a = true /\ is_Some (ot_users t !! user) /\
    (exists r, ot_orgs t !! as_org a = Some r /\ or_class r = as_class a) /\
    (forall n, as_normal a = Some n -> is_Some (ot_normals t !! n))
}.

(** What is never changed *)
Definition lasts (t t' : OTables) : Prop :=
  (forall id r, ot_orgs t !! id = Some r -> exists r', ot_orgs t' !! id = Some r' /\ or_class r' = or_class r /\
     or_canonical r' = or_canonical r /\ or_created r' = or_created r /\ or_updated r <= or_updated r') /\
  (forall id n, ot_normals t !! id = Some n -> exists n', ot_normals t' !! id = Some n' /\ nr_key n' = nr_key n) /\
  (forall user a, ot_assigns t !! user = Some a -> ot_assigns t' !! user = Some a) /\
  ot_users t' = ot_users t.

Lemma lasts_refl t : lasts t t.
Proof.
  split_and!; [|by intros id n Hn; exists n|done|done]. intros id r Hr. exists r. split_and!; done || lia.
Qed.

Lemma lasts_trans t1 t2 t3 : lasts t1 t2 -> lasts t2 t3 -> lasts t1 t3.
Proof.
  intros (O1 & N1 & A1 & U1) (O2 & N2 & A2 & U2). split_and!; [| |by auto|congruence].
  - intros id r Hr. destruct (O1 _ _ Hr) as (r2 & Hr2 & ? & ? & ? & ?). destruct (O2 _ _ Hr2) as (r3 & Hr3 & ? & ? & ? & ?).
    exists r3. split_and!; congruence || lia.
  - intros id n Hn. destruct (N1 _ _ Hn) as (n2 & Hn2 & ?). destruct (N2 _ _ Hn2) as (n3 & Hn3 & ?). exists n3. split; congruence.
Qed.

Definition moves (t t' : OTables) : Prop := org_inv t' /\ lasts t t'.

(** ** Statements *)

Lemma existsb_none {A} (p : A -> bool) l : existsb p l = false -> forall x, x ∈ l -> p x = false.
Proof.
  intros HE x Hx. destruct (p x) eqn:Ep; [|done]. exfalso. assert (existsb p l = true) as H1; [|congruence].
  apply existsb_exists. exists x. split; [by apply list_elem_of_In|done].
Qed.

Lemma canonical_free name m id r : canonical_taken name m = false -> m !! id = Some r -> or_canonical r <> name.
Proof.
  intros HF Hr <-. pose proof (existsb_none _ _ HF (id, r) (proj2 (map_range_elem _ _ _) Hr)) as HE. cbn in HE.
  by rewrite String.eqb_refl in HE.
Qed.

Lemma key_free key m id n : key_taken key m = false -> m !! id = Some n -> nr_key n <> key.
Proof.
  intros HF Hn <-. pose proof (existsb_none _ _ HF (id, n) (proj2 (map_range_elem _ _ _) Hn)) as HE. cbn in HE.
  by rewrite String.eqb_refl in HE.
Qed.

Lemma not_some {A} (o : option A) : is_some o = false -> o = None.
Proof. by destruct o. Qed.

(** An organization that is added, or gets another display name and time *)
Lemma put_base id r t : org_inv t -> is_uuid id -> id <> uuid_Nil -> blank (or_display r) = false ->
  blank (or_canonical r) = false -> untrimmed (or_canonical r) = false -> zero_inst < or_created r <= or_updated r ->
  match ot_orgs t !! id with
  | None => or_class r = ClassificationNormal /\ (forall i x, ot_orgs t !! i = Some x -> or_canonical x <> or_canonical r)
  | Some r0 => or_class r = or_class r0 /\ or_canonical r = or_canonical r0 /\ or_created r = or_created r0 /\ or_updated r0 <= or_updated r
  end -> moves t (set_orgs (<[id := r]> (ot_orgs t)) t).
Proof.
  intros HI Hu Hn Hd Hc Hct Htm Hold. split.
  - split; cbn.
    + intros i x. destruct (decide (i = id)) as [->|Hne].
      * rewrite lookup_insert_eq. intros [= <-]. split_and!; try done; [|lia..]. destruct (ot_orgs t !! id) as [r0|] eqn:E0; [|left; apply Hold].
        destruct Hold as [-> _]. apply (oi_org t HI id r0 E0).
      * rewrite lookup_insert_ne by done. apply (oi_org t HI).
    + assert (forall i x, i <> id -> ot_orgs t !! i = Some x -> or_canonical x <> or_canonical r) as HU1.
      { intros i x Hi Hx Heq. destruct (ot_orgs t !! id) as [r0|] eqn:E0; [|by eapply Hold].
        destruct Hold as (_ & Ec & _). apply Hi. eapply (oi_canonical t HI); [exact Hx|exact E0|congruence]. }
      intros i j x y. destruct (decide (i = id)) as [->|Hi], (decide (j = id)) as [->|Hj];
        rewrite ?lookup_insert_eq, ?lookup_insert_ne by done; [done| | |apply (oi_canonical t HI)].
      * intros [= <-] Hy He. exfalso. by eapply HU1.
      * intros Hx [= <-] He. exfalso. by eapply HU1.
    + intros i x. destruct (decide (i = id)) as [->|Hne].
      * rewrite lookup_insert_eq. intros [= <-] HD. destruct (ot_orgs t !! id) as [r0|] eqn:E0.
        -- destruct Hold as (Ec & En & _). rewrite En. apply (oi_default t HI id r0 E0). congruence.
        -- destruct Hold as [Ec _]. by rewrite Ec in HD.
      * rewrite lookup_insert_ne by done. apply (oi_default t HI).
    + destruct (oi_default_there t HI) as (r0 & Hr0 & Hc0). destruct (decide (id = DefaultID)) as [->|Hne].
      * rewrite Hr0 in Hold. exists r. rewrite lookup_insert_eq. split; [done|]. destruct Hold as [-> _]. done.
      * exists r0. by rewrite lookup_insert_ne by done.
    + intros i n Hin. destruct (oi_normal t HI i n Hin) as ((r0 & Hr0 & Hc0) & Hrest). split; [|done].
      destruct (decide (i = id)) as [->|Hne].
      * rewrite Hr0 in Hold. exists r. rewrite lookup_insert_eq. split; [done|]. destruct Hold as [-> _]. done.
      * exists r0. by rewrite lookup_insert_ne by done.
    + apply (oi_key t HI).
    + intros user a Ha. destruct (oi_assign t HI user a Ha) as (H1 & H2 & (r0 & Hr0 & Hc0) & H4). split_and!; try done.
      destruct (decide (as_org a = id)) as [<-|Hne].
      * rewrite Hr0 in Hold. exists r. rewrite lookup_insert_eq. split; [done|]. destruct Hold as [-> _]. done.
      * exists r0. by rewrite lookup_insert_ne by done.
  - split_and!; cbn; [|by intros i n Hin; exists n|done|done].
    intros i x Hx. destruct (decide (i = id)) as [->|Hne].
    + rewrite Hx in Hold. exists r. rewrite lookup_insert_eq. split_and!; [done|apply Hold..].
    + exists x. rewrite lookup_insert_ne by done. split_and!; done || lia.
Qed.

Lemma insert_base_moves id d c now t u t' : org_inv t -> is_uuid id -> id <> uuid_Nil -> blank d = false -> blank c = false ->
  untrimmed c = false -> zero_inst < now -> insert_base id d c now t = inl (u, t') -> moves t t'.
Proof.
  intros HI Hu Hn Hd Hc Hct Ht E. unfold insert_base, encoding_error, refuse in E.
  destruct (_ || _); [done|]. destruct (negb _); [done|]. destruct (negb _); [done|].
  destruct (is_some _) eqn:Es; [done|]. destruct (canonical_taken _ _) eqn:Ec; [done|]. injection E as <- <-.
  apply put_base; try done. rewrite (not_some _ Es). split; [done|]. intros i x. by apply canonical_free.
Qed.

(** A normal organization that is added, or gets another zone *)
Lemma put_normal id n t : org_inv t -> (exists r, ot_orgs t !! id = Some r /\ or_class r = ClassificationNormal) ->
  blank (nr_key n) = false -> untrimmed (nr_key n) = false -> canonicalTimeZone aliases (nr_zone n) = inl (nr_zone n) ->
  match ot_normals t !! id with
  | None => forall i x, ot_normals t !! i = Some x -> nr_key x <> nr_key n
  | Some n0 => nr_key n = nr_key n0
  end -> moves t (set_normals (<[id := n]> (ot_normals t)) t).
Proof.
  intros HI Hr Hk Hkt Hz Hold. split.
  - split; cbn; [apply (oi_org t HI)|apply (oi_canonical t HI)|apply (oi_default t HI)|apply (oi_default_there t HI)| | |].
    + intros i x. destruct (decide (i = id)) as [->|Hne]; [rewrite lookup_insert_eq; by intros [= <-]|].
      rewrite lookup_insert_ne by done. apply (oi_normal t HI).
    + assert (forall i x, i <> id -> ot_normals t !! i = Some x -> nr_key x <> nr_key n) as HU1.
      { intros i x Hi Hx Heq. destruct (ot_normals t !! id) as [n0|] eqn:E0; [|by eapply Hold].
        apply Hi. eapply (oi_key t HI); [exact Hx|exact E0|congruence]. }
      intros i j x y. destruct (decide (i = id)) as [->|Hi], (decide (j = id)) as [->|Hj];
        rewrite ?lookup_insert_eq, ?lookup_insert_ne by done; [done| | |apply (oi_key t HI)].
      * intros [= <-] Hy He. exfalso. by eapply HU1.
      * intros Hx [= <-] He. exfalso. by eapply HU1.
    + intros user a Ha. destruct (oi_assign t HI user a Ha) as (H1 & H2 & H3 & H4). split_and!; try done.
      intros m Hm. destruct (decide (m = id)) as [->|Hne]; [by rewrite lookup_insert_eq|]. rewrite lookup_insert_ne by done. by apply H4.
  - split_and!; cbn; [|  |done|done].
    + intros i x Hx. exists x. split_and!; done || lia.
    + intros i x Hx. destruct (decide (i = id)) as [->|Hne].
      * rewrite Hx in Hold. exists n. by rewrite lookup_insert_eq.
      * exists x. by rewrite lookup_insert_ne by done.
Qed.

Lemma insert_normal_moves id key zone t u t' : org_inv t -> blank key = false -> untrimmed key = false ->
  canonicalTimeZone aliases zone = inl zone -> insert_normal id key zone t = inl (u, t') -> moves t t'.
Proof.
  intros HI Hk Hkt Hz E. unfold insert_normal, encoding_error, refuse in E.
  destruct (_ || _); [done|]. destruct (negb _); [done|]. destruct (negb _); [done|].
  destruct (is_some _) eqn:Es; [done|]. destruct (key_taken _ _) eqn:Ek; [done|].
  destruct (ot_orgs t !! id) as [r|] eqn:Er; [|done]. destruct (String.eqb_spec (or_class r) ClassificationNormal) as [Ec|]; [|done].
  injection E as <- <-. apply put_normal; try done; [by exists r|]. rewrite (not_some _ Es). intros i x. by apply key_free.
Qed.

Lemma touched_later now r : or_updated r <= touched now r.
Proof. unfold touched. lia. Qed.

Lemma update_display_moves id d now t x t' : org_inv t -> blank d = false -> update_display id d now t = inl (x, t') -> moves t t'.
Proof.
  intros HI Hd E. unfold update_display, encoding_error, refuse in E. destruct (bad_text d); [done|].
  destruct (ot_orgs t !! id) as [r|] eqn:Er; [|injection E as <- <-; split; [done|apply lasts_refl]].
  destruct (negb _); [injection E as <- <-; split; [done|apply lasts_refl]|]. destruct (negb _); [done|]. injection E as <- <-.
  destruct (oi_org t HI id r Er) as (Hu & Hn & Hc & _ & Hcb & Hct & Ht). pose proof (touched_later now r).
  apply put_base; try done; cbn; [destruct (String.eqb d _); lia|]. rewrite Er. split_and!; try done. destruct (String.eqb d _); lia.
Qed.

Lemma moves_trans t1 t2 t3 : moves t1 t2 -> moves t2 t3 -> moves t1 t3.
Proof. intros [_ L1] [I2 L2]. split; [done|by eapply lasts_trans]. Qed.

Lemma touch_base_moves id now t x t' : org_inv t -> touch_base id now t = inl (x, t') -> moves t t'.
Proof.
  intros HI E. unfold touch_base in E. destruct (ot_orgs t !! id) as [r|] eqn:Er; [|done]. destruct (String.eqb _ _); [|done]. injection E as <- <-.
  destruct (oi_org t HI id r Er) as (Hu & Hn & Hc & Hd & Hcb & Hct & Ht). pose proof (touched_later now r).
  apply put_base; try done; cbn; [destruct (now =? _); lia|]. rewrite Er. split_and!; try done. destruct (now =? _); lia.
Qed.

Lemma update_zone_moves id zone now t x t' : org_inv t -> canonicalTimeZone aliases zone = inl zone ->
  update_zone id zone now t = inl (x, t') -> moves t t'.
Proof.
  intros HI Hz E. unfold update_zone, encoding_error, refuse in E. destruct (bad_text zone); [done|].
  destruct (ot_normals t !! id) as [n|] eqn:En; [|injection E as <- <-; split; [done|apply lasts_refl]].
  destruct (negb _); [done|]. destruct (oi_normal t HI id n En) as (Hr & Hk & Hkt & _).
  assert (moves t (set_normals (<[id := mkNormal (nr_key n) zone]> (ot_normals t)) t)) as HM by (apply put_normal; try done; by rewrite En).
  destruct (String.eqb zone _); [by injection E as <- <-|]. eapply moves_trans; [exact HM|]. apply (touch_base_moves id now _ x); [apply HM|done].
Qed.

Lemma insert_assignment_inv user a t b t' : insert_assignment user a t = inl (b, t') ->
  b = a /\ t' = set_assigns (<[user := a]> (ot_assigns t)) t /\ ot_assigns t !! user = None /\ mapping_truth a = true /\
  is_Some (ot_users t !! user) /\ (exists r, ot_orgs t !! as_org a = Some r /\ or_class r = as_class a) /\
  (forall n, as_normal a = Some n -> is_Some (ot_normals t !! n)).
Proof.
  unfold insert_assignment, encoding_error, refuse. intros E.
  destruct (negb _); [done|]. destruct (bad_text _); [done|]. destruct (_ || _); [done|]. destruct (as_org a =? uuid_Nil); [done|].
  destruct (mapping_truth a) eqn:Em; [|done]. cbn [negb] in E. destruct (_ || _); [done|]. destruct (user =? uuid_Nil); [done|].
  destruct (is_some (ot_assigns t !! user)) eqn:Ea; [done|]. destruct (negb _) eqn:En; [done|]. destruct (negb _) eqn:Eo in E; [done|].
  destruct (negb _) eqn:Eu in E; [done|]. injection E as <- <-. apply negb_false_iff in En, Eo, Eu. split_and!; try done.
  - by apply not_some.
  - destruct (ot_users t !! user); [by eexists|done].
  - destruct (ot_orgs t !! as_org a) as [r|]; [|done]. exists r. split; [done|]. by apply String.eqb_eq.
  - intros n Hn. rewrite Hn in En. destruct (ot_normals t !! n); [by eexists|done].
Qed.

Lemma insert_assignment_moves user a t b t' : org_inv t -> insert_assignment user a t = inl (b, t') -> moves t t'.
Proof.
  intros HI E. apply insert_assignment_inv in E as (-> & -> & Hnone & Hm & Hu & Ho & Hn). split.
  - split; cbn; [apply (oi_org t HI)|apply (oi_canonical t HI)|apply (oi_default t HI)|apply (oi_default_there t HI)
      |apply (oi_normal t HI)|apply (oi_key t HI)|]. intros u x. destruct (decide (u = user)) as [->|Hne].
    + rewrite lookup_insert_eq. by intros [= <-].
    + rewrite lookup_insert_ne by done. apply (oi_assign t HI).
  - destruct (lasts_refl t) as (L1 & L2 & _ & L4). split_and!; cbn; try done. intros u x Hx.
    rewrite lookup_insert_ne; [done|]. intros <-. congruence.
Qed.

(** ** Operations *)

Local Abbreviation InTx := (InTx db_err commit_lost).
Local Abbreviation ostmt := (ostmt db_err clock).

(** Whatever it returns, the tables have only moved on. *)
Definition moves_on {A} (m : M A) : Prop := forall w, org_inv (ow_tbl w) -> moves (ow_tbl w) (ow_tbl (m w).2).

Lemma moves_refl t : org_inv t -> moves t t.
Proof. intros HI. split; [done|apply lasts_refl]. Qed.

Lemma moves_on_ret {A} (a : A) : moves_on (ret a).
Proof. intros w HI. by apply moves_refl. Qed.

Lemma moves_on_fail {A} e : moves_on (fail (A := A) e).
Proof. intros w HI. by apply moves_refl. Qed.

Lemma moves_on_of_sum {A} (r : A + OErr) : moves_on (of_sum r).
Proof. destruct r; [apply moves_on_ret|apply moves_on_fail]. Qed.

Lemma moves_on_bind {A B} (m : M A) (k : A -> M B) : moves_on m -> (forall a, moves_on (k a)) -> moves_on (bind m k).
Proof.
  intros Hm Hk w HI. unfold bind. specialize (Hm w HI). destruct (m w) as [[a|e|] w1]; cbn in *; try done.
  eapply moves_trans; [exact Hm|]. apply Hk, Hm.
Qed.

Lemma moves_on_ostmt {A} (f : Z -> OTables -> A * OTables + DBError) :
  (forall n t a t', org_inv t -> f (clock n) t = inl (a, t') -> moves t t') -> moves_on (ostmt f).
Proof.
  intros Hf w HI. unfold Organization.ostmt. destruct (db_err _); [by apply moves_refl|].
  destruct (f _ _) as [[a t]|e] eqn:E; [|by apply moves_refl]. by eapply Hf.
Qed.

Lemma moves_on_oread {A} (f : OTables -> A) : moves_on (oread db_err clock f).
Proof. apply moves_on_ostmt. intros n t a t' HI [= _ <-]. by apply moves_refl. Qed.

Lemma moves_on_or_fail {A} g (m : M (A + DBError)) : moves_on m -> moves_on (or_fail g m).
Proof. intros Hm. apply moves_on_bind; [done|]. intros [a|e]; [apply moves_on_ret|apply moves_on_fail]. Qed.

Lemma moves_on_otry {A} (m : M A) : moves_on m -> moves_on (otry m).
Proof. intros Hm w HI. specialize (Hm w HI). unfold otry. by destruct (m w) as [[a|e|] w1]. Qed.

Lemma moves_on_InTx {A} g (m : M A) : moves_on m -> moves_on (InTx g m).
Proof.
  intros Hm w HI. unfold Organization.InTx. destruct (db_err _); [by apply moves_refl|].
  specialize (Hm (ow_tick w) HI). destruct (m _) as [[a|e|] w1]; [|by apply moves_refl..].
  destruct (db_err _); [|done]. cbn. destruct (commit_lost _); [done|by apply moves_refl].
Qed.

Lemma moves_on_find id : moves_on (findOrganization db_err clock id).
Proof.
  apply moves_on_bind; [apply moves_on_or_fail, moves_on_oread|]. intros [r|]; [apply moves_on_of_sum|apply moves_on_fail].
Qed.

Lemma moves_on_find_normal p : moves_on (findNormalOrganization db_err clock aliases p).
Proof.
  apply moves_on_bind; [apply moves_on_or_fail, moves_on_oread|]. intros [[[id r] n]|]; [apply moves_on_of_sum|apply moves_on_fail].
Qed.

Lemma bind_of_sum {A B} (a : A) (k : A -> M B) w : bind (of_sum (inl a)) k w = k a w.
Proof. done. Qed.

Lemma of_sum_ok {A} (r : A + OErr) w a w' : of_sum r w = (Ok a, w') -> r = inl a /\ w' = w.
Proof. destruct r; [by intros [= <- <-]|done]. Qed.

Lemma canonicalTimeZone_canonical z c : canonicalTimeZone aliases z = inl c -> canonicalTimeZone aliases c = inl c.
Proof using Hzones.
  unfold canonicalTimeZone at 1. destruct (_ || _); [done|]. unfold CanonicalZone. destruct (aliases !! z) as [c'|] eqn:E; cbn; [|done].
  destruct (String.eqb_spec c' "") as [|Hne]; [done|]. intros [= <-]. by destruct (Hzones _ _ E).
Qed.

Lemma validateCreateInput_ok i j : validateCreateInput aliases i = inl j ->
  blank (in_DisplayName j) = false /\ blank (in_CanonicalName j) = false /\ untrimmed (in_CanonicalName j) = false /\
  blank (in_CorporateMappingKey j) = false /\ untrimmed (in_CorporateMappingKey j) = false /\
  canonicalTimeZone aliases (in_TimeZone j) = inl (in_TimeZone j).
Proof using Hzones.
  unfold validateCreateInput. destruct (blank (in_DisplayName i)) eqn:E1; [done|].
  destruct (_ || _) eqn:E2; [done|]. destruct (_ || _) eqn:E3 in |- *; [done|]. destruct (canonicalTimeZone _ _) as [z|] eqn:E4; [|done].
  intros [= <-]. cbn. apply orb_false_iff in E2 as [? ?], E3 as [? ?]. split_and!; try done. by eapply canonicalTimeZone_canonical.
Qed.

Lemma moves_on_CreateNormal i : moves_on (CreateNormal db_err clock commit_lost new_id aliases i).
Proof using Hclock Hid Hzones.
  unfold CreateNormal. destruct (validateCreateInput aliases i) as [j|e] eqn:Ev; [|apply moves_on_fail].
  destruct (validateCreateInput_ok _ _ Ev) as (Hd & Hc & Hct & Hk & Hkt & Hz). intros w HI. rewrite bind_of_sum.
  unfold bind at 1. destruct (new_id (ow_calls w)) as [id|] eqn:Ei; [|by apply moves_refl]. destruct (Hid _ _ Ei) as [Hu Hn].
  revert w HI Ei. intros w HI _. apply (moves_on_InTx mapWriteError); [|done]. apply moves_on_bind.
  - apply moves_on_or_fail, moves_on_ostmt. intros n t a t' HI' E. eapply (insert_base_moves id); [done|done|done| | | |apply (Hclock n)|exact E]; done.
  - intros _. apply moves_on_bind; [|intros _; apply moves_on_find_normal]. apply moves_on_or_fail, moves_on_ostmt. intros n t a t' HI' E.
    eapply insert_normal_moves; [done| | | |exact E]; done.
Qed.

Lemma moves_on_UpdateDisplayName id d : moves_on (UpdateDisplayName db_err clock commit_lost id d).
Proof.
  unfold UpdateDisplayName. destruct (_ || _) eqn:E; [apply moves_on_fail|]. apply orb_false_iff in E as [_ Hd]. apply moves_on_InTx, moves_on_bind.
  - apply moves_on_or_fail, moves_on_ostmt. intros n t a t' HI E. by eapply update_display_moves.
  - intros [r|]; [apply moves_on_of_sum|]. apply moves_on_bind; [apply moves_on_find|]. intros b. destruct (negb _); apply moves_on_fail.
Qed.

Lemma moves_on_UpdateTimeZone id z : moves_on (UpdateTimeZone db_err clock commit_lost aliases id z).
Proof using Hzones.
  unfold UpdateTimeZone. destruct (id =? uuid_Nil); [apply moves_on_fail|].
  destruct (canonicalTimeZone aliases z) as [c|e] eqn:Ez; [|apply moves_on_fail]. intros w HI. rewrite bind_of_sum. revert w HI.
  apply moves_on_InTx, moves_on_bind.
  - apply moves_on_or_fail, moves_on_ostmt. intros n t a t' HI E. eapply update_zone_moves; [done| |exact E]. by eapply canonicalTimeZone_canonical.
  - intros rows. destruct (rows =? 1); [apply moves_on_find_normal|]. apply moves_on_bind; [apply moves_on_find|]. intros b.
    destruct (String.eqb _ _); apply moves_on_fail.
Qed.

Lemma moves_on_CreateAssignment u v : moves_on (CreateUserOrganizationAssignment db_err clock u v).
Proof.
  unfold CreateUserOrganizationAssignment. destruct (u =? uuid_Nil); [apply moves_on_fail|]. destruct (validateUserOrganizationAssignmentValues v); [apply moves_on_fail|].
  apply moves_on_bind; [|intros a; apply moves_on_of_sum]. apply moves_on_or_fail, moves_on_ostmt. intros n t a t' HI E. by eapply insert_assignment_moves.
Qed.

(** A request to the store *)
Inductive Op :=
  | OpCreate (i : CreateNormalOrganizationInput)
  | OpDisplay (id : UUID) (name : string)
  | OpZone (id : UUID) (zone : string)
  | OpAssign (user : UUID) (v : AssignmentValues).

Definition run (o : Op) (w : OWorld) : OWorld :=
  match o with
  | OpCreate i => (CreateNormal db_err clock commit_lost new_id aliases i w).2
  | OpDisplay id name => (UpdateDisplayName db_err clock commit_lost id name w).2
  | OpZone id zone => (UpdateTimeZone db_err clock commit_lost aliases id zone w).2
  | OpAssign user v => (CreateUserOrganizationAssignment db_err clock user v w).2
  end.

Lemma run_moves o w : org_inv (ow_tbl w) -> moves (ow_tbl w) (ow_tbl (run o w)).
Proof using Hclock Hid Hzones.
  destruct o; cbn [run];
    [apply moves_on_CreateNormal|apply moves_on_UpdateDisplayName|apply moves_on_UpdateTimeZone|apply moves_on_CreateAssignment].
Qed.

(** What has been stored is accepted when it is read. *)
Lemma scan_stored t id r : org_inv t -> ot_orgs t !! id = Some r -> scanOrganization id r = inl (organization_row id r).
Proof.
  intros HI Hr. destruct (oi_org t HI id r Hr) as (_ & Hn & Hc & Hd & Hcb & Hct & Ht).
  unfold scanOrganization, validateLoadedOrganization, organization_row. cbn. rewrite (proj2 (Z.eqb_neq _ _) Hn), Hd, Hcb, Hct.
  assert (validateClassification (or_class r) = true) as -> by (destruct Hc as [-> | ->]; done).
  cbn. rewrite !(proj2 (Z.eqb_neq _ _)), (proj2 (Z.ltb_ge _ _)) by lia. done.
Qed.

Lemma scan_stored_normal t id r n : org_inv t -> ot_orgs t !! id = Some r -> ot_normals t !! id = Some n ->
  scanNormalOrganization aliases id r n = inl (mkNormalOrganization (organization_row id r) (nr_key n) (nr_zone n)).
Proof.
  intros HI Hr Hn. pose proof (scan_stored t id r HI Hr) as HS. unfold scanOrganization in HS.
  destruct (oi_normal t HI id n Hn) as ((r' & Hr' & Hc) & Hk & Hkt & Hz). assert (r' = r) as -> by congruence.
  unfold scanNormalOrganization. destruct (validateLoadedOrganization _); [done|]. rewrite Hc, Hk, Hkt, Hz. cbn. by rewrite String.eqb_refl.
Qed.
End Spec.

(** The tables of [init] have canonical names, which are in order if they begin and
    end without spaces. *)
Lemma names_canonical `{Unicode} zoneData aliasData aliases : init zoneData aliasData = Some aliases ->
  (forall z c, aliases !! z = Some c -> untrimmed c = false) ->
  forall z c, aliases !! z = Some c -> canonicalTimeZone aliases c = inl c \/ c = "".
Proof.
  intros HI HT z c Hz. destruct (String.eqb_spec c "") as [|Hne]; [by right|left]. unfold canonicalTimeZone.
  pose proof (HT _ _ Hz) as Hu. destruct (blank c) eqn:Eb.
  { unfold blank in Eb. unfold untrimmed in Hu. rewrite negb_false_iff, bool_decide_eq_true in *. rewrite Eb in Hu.
    destruct c as [|a c]; [done|]. unfold runes in Hu. cbn in Hu. by destruct (DecodeRune a c). }
  rewrite Hu. cbn. assert (CanonicalZone aliases z = c) as Hcz by (unfold CanonicalZone; by rewrite Hz).
  destruct (CanonicalZone_idempotent _ _ _ z HI) as [HE|HE]; rewrite Hcz in HE; [|done]. rewrite HE. by destruct (String.eqb_spec c "").
Qed.

(** C18: after any operations, with any errors, the tables satisfy their constraints:
    there is one Default organization, a normal one has a normal base, names and
    keys are unique, and an assignment is to an organization that is there, as its
    outcome says.  Identities, names, keys and assignments stay as they were. *)
Theorem operations_keep_constraints `{Unicode} `{UUIDText} `{GoMapRange} db_err clock commit_lost new_id zoneData aliasData aliases ops w
  (Hclock : forall n, zero_inst < clock n) (Hid : forall n id, new_id n = Some id -> is_uuid id /\ id <> uuid_Nil)
  (Hinit : init zoneData aliasData = Some aliases) (Htrim : forall z c, aliases !! z = Some c -> untrimmed c = false)
  (HI : org_inv aliases (ow_tbl w)) :
  moves aliases (ow_tbl w) (ow_tbl (foldl (fun w o => run db_err clock commit_lost new_id aliases o w) w ops)).
Proof.
  revert w HI. induction ops as [|o ops IH]; intros w HI; [by apply moves_refl|]. cbn [foldl].
  pose proof (run_moves db_err clock commit_lost new_id aliases Hclock Hid (names_canonical _ _ _ Hinit Htrim) o w HI) as HM.
  eapply moves_trans; [exact HM|]. apply IH, HM.
Qed.

(** ** Where a user is *)


Lemma DefaultID_uuid : is_uuid DefaultID.
Proof. split; vm_compute; [discriminate|reflexivity]. Qed.

#[local] Arguments any_of : simpl never.

Section reads.
Context {HU : Unicode} {HT : UUIDText} {HR : GoMapRange}.
Context (clock : nat -> Z) (aliases : gmap string string).

Definition no_dberr : nat -> option DBError := fun _ => None.

(** The organization that the assignment of a user says, if one has matched *)
Definition home (t : OTables) (user : UUID) : option CurrentUserOrganization :=
  role ← ot_users t !! user;
  a ← ot_assigns t !! user;
  if any_of role ["user"; "admin"] && String.eqb (as_outcome a) MappingOutcomeExactlyOne
  then Some (mkCurrentOrg user (role_text role) (as_org a) (as_role a)) else None.

Lemma truth_exactly_one a : mapping_truth a = true -> as_outcome a = MappingOutcomeExactlyOne ->
  as_count a = 1 /\ as_class a = ClassificationNormal /\ as_org a <> DefaultID /\ as_normal a = Some (as_org a) /\
  any_of (as_role a) [OrganizationRoleMember; OrganizationRoleAdmin] = true.
Proof.
  unfold mapping_truth. intros HM Ho. rewrite Ho in HM. cbn in HM. rewrite !orb_false_r in HM.
  repeat (apply andb_true_iff in HM as [HM ?]). rewrite bool_decide_eq_true in *. split_and!; try done.
  - by apply Z.eqb_eq.
  - by apply String.eqb_eq.
  - by apply Z.eqb_neq, negb_true_iff.
Qed.

Lemma operational_home t user : org_inv aliases t ->
  operational t user = (fun c => (default "" (ot_users t !! user), co_org c, co_role c)) <$> home t user.
Proof.
  intros HI. unfold operational, home. destruct (ot_users t !! user) as [role|]; [|done]. cbn.
  destruct (ot_assigns t !! user) as [a|] eqn:Ea; [|done]. cbn. destruct (oi_assign _ t HI user a Ea) as (HM & _ & (r & Hr & Hc) & Hn).
  rewrite Hr. cbn. destruct (String.eqb_spec (as_outcome a) MappingOutcomeExactlyOne) as [Eo|No].
  - destruct (truth_exactly_one a HM Eo) as (-> & Hcl & Hd & Hno & Hro). rewrite Hno. cbn. destruct (Hn _ Hno) as [x ->]. cbn.
    rewrite Hcl, (proj2 (Z.eqb_neq _ _) Hd), Z.eqb_refl, Hro, Hc, Hcl. cbn. by destruct (any_of role _).
  - rewrite !andb_false_r. cbn. destruct (as_normal a); [|done]. cbn. by destruct (ot_normals t !! as_org a).
Qed.

(** The user is found in an organization exactly if the assignment says that one
    matched: of the joins of the query none takes anything away from it, as the
    constraints have it. *)
Lemma current_is_home db_err user w : org_inv aliases (ow_tbl w) -> user <> uuid_Nil -> db_err (ow_calls w) = None ->
  FindCurrentUserOrganization db_err clock user w =
  (match home (ow_tbl w) user with Some c => Ok c | None => Err ErrNotFound end, ow_tick w).
Proof.
  intros HI Hu Hdb. unfold FindCurrentUserOrganization. rewrite (proj2 (Z.eqb_neq _ _) Hu). unfold bind, or_fail, oread, Organization.ostmt. cbn.
  unfold bind. rewrite Hdb. cbn. rewrite (operational_home _ _ HI). destruct (home (ow_tbl w) user) as [c|] eqn:Eh; cbn; [|by destruct w].
  unfold home in Eh. destruct (ot_users (ow_tbl w) !! user) as [role|] eqn:Er; [|done]. cbn in *.
  destruct (ot_assigns (ow_tbl w) !! user) as [a|] eqn:Ea; [|done]. cbn in Eh.
  destruct (any_of role _) eqn:Ero; [|done]. destruct (String.eqb_spec (as_outcome a) MappingOutcomeExactlyOne) as [Eo|]; [|done].
  injection Eh as <-. cbn. destruct (oi_assign _ _ HI user a Ea) as (HM & _ & (r & Hr & Hc) & Hn).
  destruct (truth_exactly_one a HM Eo) as (_ & _ & Hd & _ & Hro). destruct (oi_org _ _ HI _ _ Hr) as (Hou & Hon & _).
  rewrite (proj2 (Z.eqb_neq _ _) Hon), Hro. cbn. destruct (String.eqb_spec (uuid_String (as_org a)) DefaultOrganizationID) as [Es|_].
  { destruct Hd. by apply uuid_String_inj; [|apply DefaultID_uuid|]. }
  assert (known_role (role_text role) = true) as ->; [|by destruct w].
  unfold any_of in Ero. cbn in Ero. unfold role_text. destruct (String.eqb role "admin"); [done|]. by destruct (String.eqb role "user").
Qed.
End reads.

(** ** A sample: two normal organizations and three users *)

Section sample.
#[local] Existing Instance ascii_unicode.
#[local] Existing Instance nibble_uuid.
#[local] Existing Instance ordered_map_range.

Definition sample_zoneData : string := "# zones
UTC
Europe/Oslo
".
Definition sample_aliasData : string := "# aliases
Norway=Europe/Oslo
".
Definition sample_aliases : gmap string string := {["UTC" := "UTC"; "Europe/Oslo" := "Europe/Oslo"; "Norway" := "Europe/Oslo"]}.

Lemma sample_init : init sample_zoneData sample_aliasData = Some sample_aliases.
Proof. vm_compute. reflexivity. Qed.

Lemma sample_trimmed z c : sample_aliases !! z = Some c -> untrimmed c = false.
Proof.
  intros Hz. assert (c = "UTC" \/ c = "Europe/Oslo") as [-> | ->]; [|vm_compute; reflexivity..].
  unfold sample_aliases in Hz. repeat (apply lookup_insert_Some in Hz as [[_ <-]|[_ Hz]]; [auto|]).
  apply lookup_singleton_Some in Hz as [_ <-]. auto.
Qed.

(** Two organizations, [OpsID] and [DevID]; user 7 is in the first, user 8 in none, and
    user 9, an administrator, in the second. *)
Definition OpsID : UUID := 10.
Definition DevID : UUID := 11.

Definition sample_at : Z := inst (date 2024 3 1 0 0 0 0 UTC).

Definition sample_decision (org : UUID) (role : string) : AssignRow :=
  mkAssign org ClassificationNormal (Some org) role MappingOutcomeExactlyOne sample_at "v1" 1.

Definition sample_orgs : OTables :=
  mkOTables {[DefaultID := mkOrg ClassificationDefault "Default" DefaultOrganizationCanonicalName 1000 1000;
              OpsID := mkOrg ClassificationNormal "Operations" "acme.ops" 1000 2000;
              DevID := mkOrg ClassificationNormal "Development" "acme.dev" 1000 1000]}
            {[OpsID := mkNormal "ops" "UTC"; DevID := mkNormal "dev" "Europe/Oslo"]}
            {[7 := "user"; 8 := "user"; 9 := "admin"]}
            {[7 := sample_decision OpsID OrganizationRoleMember; 9 := sample_decision DevID OrganizationRoleAdmin]}.

Definition sample_orgs_world : OWorld := mkOW sample_orgs 0.

Ltac in_sample H :=
  unfold sample_orgs in H; cbn [ot_orgs ot_normals ot_users ot_assigns] in H;
  repeat first [apply lookup_insert_Some in H as [[<- <-]|[_ H]] | apply lookup_singleton_Some in H as [<- <-]].

Lemma sample_org_inv : org_inv sample_aliases sample_orgs.
Proof.
  split.
  - intros id r H. in_sample H; (split; [split; vm_compute; discriminate || reflexivity|]); split_and!; try (vm_compute; reflexivity || discriminate); auto.
  - intros id id' r r' H H' E. in_sample H; in_sample H'; (reflexivity || discriminate E).
  - intros id r H E. in_sample H; [split; reflexivity|discriminate E..].
  - eexists. split; vm_compute; reflexivity.
  - intros id n H. in_sample H; (split; [eexists; split; vm_compute; reflexivity|]); split_and!; vm_compute; reflexivity.
  - intros id id' n n' H H' E. in_sample H; in_sample H'; (reflexivity || discriminate E).
  - intros user a H. in_sample H; (split; [vm_compute; reflexivity|]); (split; [eexists; vm_compute; reflexivity|]);
      (split; [eexists; split; vm_compute; reflexivity|]); intros n [= <-]; eexists; vm_compute; reflexivity.
Qed.

Definition sample_clock (n : nat) : Z := 5000 + Z.of_nat n.
Definition sample_new_id (n : nat) : option UUID := Some (100 + Z.of_nat n mod 8).

(** An organization is created, another gets another name and zone, and user 8 an
    assignment; the last request fails. *)
Definition sample_ops : list Op :=
  [OpCreate (mkCreateInput "Sales" "acme.sales" "sales" "Norway"); OpDisplay OpsID "Ops"; OpZone OpsID "Norway";
   OpAssign 8 (values_of (sample_decision OpsID OrganizationRoleAdmin)); OpAssign 8 (values_of (sample_decision DevID OrganizationRoleMember))].

Lemma operations_keep_constraints_witness :
  let w' := foldl (fun w o => run (fun _ => None) sample_clock (fun _ => false) sample_new_id sample_aliases o w) sample_orgs_world sample_ops in
  moves sample_aliases sample_orgs (ow_tbl w') /\ ot_normals (ow_tbl w') !! OpsID = Some (mkNormal "ops" "Europe/Oslo") /\
  (as_org <$> ot_assigns (ow_tbl w') !! 8) = Some OpsID /\ or_display <$> ot_orgs (ow_tbl w') !! 100 = Some "Sales".
Proof.
  split; [|vm_compute; split_and!; reflexivity].
  apply (operations_keep_constraints (fun _ => None) sample_clock (fun _ => false) sample_new_id sample_zoneData sample_aliasData sample_aliases
    sample_ops sample_orgs_world).
  - intros n. assert (zero_inst < 0) by (vm_compute; reflexivity). unfold sample_clock. lia.
  - intros n id [= <-]. pose proof (Z.mod_pos_bound (Z.of_nat n) 8 ltac:(lia)). unfold is_uuid, uuid_Nil. lia.
  - apply sample_init.
  - apply sample_trimmed.
  - apply sample_org_inv.
Defined.
End sample.

(** ** What the resolver decides

    The decision depends on the set of organizations that the identifiers map to,
    and on nothing else; it can be stored as the assignment of a user, who is then
    found in that organization, or nowhere if not exactly one matched. *)

(** ** Lists with one element *)

Lemma head_only {A} (l : list A) x : x ∈ l -> (forall y, y ∈ l -> y = x) -> head l = Some x.
Proof. intros Hx HA. destruct l as [|y l]; [by apply elem_of_nil in Hx|]. cbn. f_equal. apply HA. by left. Qed.

Lemma list_only {A} (l : list A) x : NoDup l -> x ∈ l -> (forall y, y ∈ l -> y = x) -> l = [x].
Proof.
  intros HN Hx HA. destruct l as [|y l]; [by apply elem_of_nil in Hx|]. assert (y = x) as -> by (apply HA; left).
  destruct l as [|z l]; [done|]. assert (z = x) as -> by (apply HA; right; left). apply NoDup_cons in HN as [HN _]. by destruct HN; left.
Qed.

Lemma Forall2_In_r_elem {A B} {P : A -> B -> Prop} {l k y} : Forall2 P l k -> y ∈ k -> exists x, x ∈ l /\ P x y.
Proof. intros HF Hy. apply list_elem_of_lookup in Hy as [i Hi]. destruct (Forall2_lookup_r _ _ _ _ _ HF Hi) as (x & Hx & HP). exists x. split; [by eapply list_elem_of_lookup_2|done]. Qed.

Lemma Forall2_In_l_elem {A B} {P : A -> B -> Prop} {l k x} : Forall2 P l k -> x ∈ l -> exists y, y ∈ k /\ P x y.
Proof. intros HF Hx. apply list_elem_of_lookup in Hx as [i Hi]. destruct (Forall2_lookup_l _ _ _ _ _ HF Hi) as (y & Hy & HP). exists y. split; [by eapply list_elem_of_lookup_2|done]. Qed.

Section Resolver.
Context {HU : Unicode} {HT : UUIDText} {HR : GoMapRange}.
Context (clock : nat -> Z) (aliases : gmap string string).

(** The organizations of a set of keys *)
Definition organizations_of (keys : gset string) (t : OTables) : gset UUID :=
  dom (filter (fun p => nr_key p.2 ∈ keys) (ot_normals t)).

Lemma organizations_of_elem keys t id : id ∈ organizations_of keys t <-> exists n, ot_normals t !! id = Some n /\ nr_key n ∈ keys.
Proof.
  unfold organizations_of. rewrite elem_of_dom. unfold is_Some. setoid_rewrite map_lookup_filter_Some. naive_solver.
Qed.

Lemma find_key t id n : org_inv aliases t -> ot_normals t !! id = Some n ->
  exists r, ot_orgs t !! id = Some r /\ or_class r = ClassificationNormal /\
    normal_where (fun _ x => String.eqb (nr_key x) (nr_key n)) t = Some (id, r, n).
Proof.
  intros HI Hn. destruct (oi_normal _ t HI id n Hn) as ((r & Hr & Hc) & _). exists r. split; [done|]. split; [done|].
  unfold normal_where. apply head_only.
  - apply list_elem_of_omap. exists (id, n). split; [by apply map_range_elem|]. by rewrite Hr, Hc, !String.eqb_refl.
  - intros [[i x] y] Hy. apply list_elem_of_omap in Hy as ([j m] & Hj & Hm). apply map_range_elem in Hj.
    destruct (ot_orgs t !! j) as [x0|] eqn:Ex; [|done]. destruct (String.eqb _ _ && _) eqn:Eb; [|done]. injection Hm as <- <- <-.
    apply andb_true_iff in Eb as [_ Ek]. apply String.eqb_eq in Ek. assert (j = id) as -> by (eapply (oi_key _ t HI); [exact Hj|exact Hn|exact Ek]).
    congruence.
Qed.

Lemma find_by_key w id n : org_inv aliases (ow_tbl w) -> ot_normals (ow_tbl w) !! id = Some n ->
  exists r, ot_orgs (ow_tbl w) !! id = Some r /\ or_class r = ClassificationNormal /\
    FindNormalByCorporateMappingKey no_dberr clock aliases (nr_key n) w =
    (Ok (mkNormalOrganization (organization_row id r) (nr_key n) (nr_zone n)), ow_tick w).
Proof.
  intros HI Hn. destruct (find_key _ _ _ HI Hn) as (r & Hr & Hc & HW). exists r. split; [done|]. split; [done|].
  destruct (oi_normal _ _ HI id n Hn) as (_ & Hk & Hkt & _). unfold FindNormalByCorporateMappingKey. rewrite Hk, Hkt. cbn [orb].
  unfold findNormalOrganization, bind, or_fail, oread, ostmt. cbn -[normal_where]. unfold bind. cbn -[normal_where]. rewrite HW. cbn.
  rewrite (scan_stored_normal _ _ _ _ _ HI Hr Hn). by destruct w.
Qed.

Lemma match_keys_exact keys : forall matched w, org_inv aliases (ow_tbl w) ->
  (forall k, k ∈ keys -> exists id n, ot_normals (ow_tbl w) !! id = Some n /\ nr_key n = k) ->
  exists w' m, match_keys no_dberr clock aliases keys matched w = (Ok m, w') /\ ow_tbl w' = ow_tbl w /\
    m = matched ∪ organizations_of (list_to_set keys) (ow_tbl w).
Proof.
  induction keys as [|k keys IH]; intros matched w HI Hall; cbn [match_keys].
  { exists w, matched. split; [done|]. split; [done|]. apply set_eq. intros i. rewrite elem_of_union, organizations_of_elem. set_solver. }
  destruct (Hall k ltac:(left)) as (id & n & Hn & Hk). destruct (find_by_key w id n HI Hn) as (r & Hr & Hc & HF). rewrite Hk in HF.
  unfold bind at 1, reading at 1. rewrite HF. cbn [no_base org_ID organization_row].
  destruct (oi_org _ _ HI id r Hr) as (Hu & Hnil & _).
  assert (validateResolvedNormalOrganization k (mkNormalOrganization (organization_row id r) k (nr_zone n)) = true) as ->.
  { unfold validateResolvedNormalOrganization. cbn. rewrite (proj2 (Z.eqb_neq _ _) Hnil), Hc, !String.eqb_refl. cbn.
    destruct (String.eqb_spec (uuid_String id) DefaultOrganizationID) as [E|]; [|done].
    apply uuid_String_inj in E as ->; [|done|apply DefaultID_uuid]. destruct (oi_default_there _ _ HI) as (r0 & Hr0 & Hc0).
    assert (r0 = r) as -> by congruence. rewrite Hc in Hc0. discriminate. }
  cbn [negb]. destruct (IH ({[id]} ∪ matched) (ow_tick w) HI) as (w' & m & HE & Ht & Hm); [intros x Hx; apply Hall; by right|].
  exists w', m. split; [exact HE|]. split; [exact Ht|]. rewrite Hm. apply set_eq. intros i. cbn.
  rewrite !elem_of_union, !organizations_of_elem, elem_of_singleton. split.
  - intros [[->|Hi]|(x & Hx & Hx')]; [right; exists n; set_solver|by left|right; exists x; set_solver].
  - intros [Hi|(x & Hx & Hx')]; [by left; right|]. rewrite elem_of_union, elem_of_singleton in Hx'. destruct Hx' as [Hx'|Hx'].
    + left; left. eapply (oi_key _ _ HI); [exact Hx|exact Hn|congruence].
    + right. by exists x.
Qed.

Lemma merge_sort_one {A} (R : relation A) `{!RelDecision R} x : merge_sort R [x] = [x].
Proof. done. Qed.

Lemma find_default w : org_inv aliases (ow_tbl w) -> exists r,
  FindDefault no_dberr clock w = (Ok (organization_row DefaultID r), ow_tick w) /\ or_class r = ClassificationDefault /\
  or_canonical r = DefaultOrganizationCanonicalName.
Proof.
  intros HI. destruct (oi_default_there _ _ HI) as (r & Hr & Hc). destruct (oi_default _ _ HI _ _ Hr Hc) as [_ Hn]. exists r.
  split; [|done]. assert (default_rows (ow_tbl w) = [(DefaultID, r)]) as HD.
  { unfold default_rows. match goal with |- take 2 (merge_sort _ ?l) = _ => assert (l = [(DefaultID, r)]) as -> end; [|done].
    apply list_only.
    - apply NoDup_ListNoDup, List.NoDup_filter, NoDup_ListNoDup. eapply NoDup_fmap_1, map_range_nodup.
    - apply elem_of_filter_bool. split; [by apply map_range_elem|]. cbn. by rewrite Hc.
    - intros [i x] Hx. apply elem_of_filter_bool in Hx as [Hx Ex]. apply map_range_elem in Hx. apply String.eqb_eq in Ex.
      destruct (oi_default _ _ HI _ _ Hx Ex) as [-> _]. congruence. }
  unfold FindDefault, bind, or_fail, oread, ostmt. cbn -[default_rows]. unfold bind. cbn -[default_rows]. rewrite HD. cbn [foldr].
  rewrite (scan_stored _ _ _ _ HI Hr). cbn. rewrite Hn, !String.eqb_refl. by destruct w.
Qed.

Local Abbreviation Resolve := (Resolve no_dberr clock aliases).

(** Where the database does not fail and the keys of the rules are of normal
    organizations, the decision is that of the organizations which the identifiers
    map to: the one, if it is one, and else the Default organization, with their
    number. *)
Theorem Resolve_exact r ids keys w (HI : org_inv aliases (ow_tbl w)) (HK : corporateKeys r ids = Some keys)
  (Hall : forall k, k ∈ keys -> exists id n, ot_normals (ow_tbl w) !! id = Some n /\ nr_key n = k) :
  let S := organizations_of keys (ow_tbl w) in
  exists d w', Resolve r ids w = (Ok d, w') /\ ow_tbl w' = ow_tbl w /\ de_count d = Z.of_nat (size S) /\ de_version d = rs_version r /\
    match elements S with
    | [id] => d = mkDecision MappingOutcomeExactlyOne 1 id ClassificationNormal (rs_version r)
    | l => d = mkDecision (match l with [] => MappingOutcomeZero | _ => MappingOutcomeMultiple end) (Z.of_nat (size S)) DefaultID
             ClassificationDefault (rs_version r)
    end.
Proof.
  intros S. unfold Organization.Resolve. rewrite HK. unfold bind at 1.
  destruct (match_keys_exact (merge_sort String.le (elements keys)) ∅ w HI) as (w1 & m & HE & Ht & Hm).
  { intros k Hk. apply Hall. rewrite merge_sort_Permutation in Hk. by apply elem_of_elements. }
  assert (m = S) as ->.
  { rewrite Hm. apply set_eq. intros i. unfold S. rewrite elem_of_union, !organizations_of_elem.
    setoid_rewrite elem_of_list_to_set. setoid_rewrite merge_sort_Permutation. setoid_rewrite elem_of_elements. set_solver. }
  rewrite HE. assert (size S = length (elements S)) as Hsz by done.
  destruct (find_default w1) as (x & HD & Hc & Hn); [by rewrite Ht|].
  assert (validateResolvedDefaultOrganization (organization_row DefaultID x) = true) as HV.
  { unfold validateResolvedDefaultOrganization. cbn. rewrite Hc, Hn. unfold DefaultOrganizationID. by rewrite !String.eqb_refl. }
  destruct (elements S) as [|id [|id' l]].
  - do 2 eexists. unfold bind, reading. rewrite HD, HV. cbn. rewrite Hsz. split_and!; done.
  - do 2 eexists. rewrite Hsz. split_and!; done.
  - do 2 eexists. unfold bind, reading. rewrite HD, HV. cbn -[length]. rewrite Hsz. split_and!; done.
Qed.

Lemma mapM_set ids ids' l : (forall x, x ∈ ids <-> x ∈ ids') -> mapM normalizeEnterpriseMappingIdentifier ids = Some l ->
  exists l', mapM normalizeEnterpriseMappingIdentifier ids' = Some l' /\ (forall y, y ∈ l <-> y ∈ l').
Proof.
  intros HS HM. apply mapM_Some in HM. destruct (mapM normalizeEnterpriseMappingIdentifier ids') as [l'|] eqn:E'.
  - exists l'. split; [done|]. apply mapM_Some in E'. intros y. split; intros Hy.
    + destruct (Forall2_In_r_elem HM Hy) as (x & Hx & Ex). apply HS in Hx. destruct (Forall2_In_l_elem E' Hx) as (z & Hz & Ez). congruence.
    + destruct (Forall2_In_r_elem E' Hy) as (x & Hx & Ex). apply HS in Hx. destruct (Forall2_In_l_elem HM Hx) as (z & Hz & Ez). congruence.
  - exfalso. apply mapM_None_1, Exists_exists in E' as (x & Hx & Ex). apply HS in Hx.
    destruct (Forall2_In_l_elem HM Hx) as (z & Hz & Ez). congruence.
Qed.

(** Order and repetition of the identifiers do not matter, whatever the database
    answers. *)
Lemma Resolve_ignores_order db_err r ids ids' : (forall x, x ∈ ids <-> x ∈ ids') ->
  Organization.Resolve db_err clock aliases r ids = Organization.Resolve db_err clock aliases r ids'.
Proof.
  intros HS. unfold Organization.Resolve. assert (corporateKeys r ids = corporateKeys r ids') as ->; [|done]. unfold corporateKeys.
  destruct (mapM normalizeEnterpriseMappingIdentifier ids) as [l|] eqn:E.
  - destruct (mapM_set _ _ _ HS E) as (l' & -> & Hl). cbn. f_equal. apply set_eq. intros x.
    rewrite !elem_of_list_to_set, !list_elem_of_omap. by setoid_rewrite Hl.
  - destruct (mapM normalizeEnterpriseMappingIdentifier ids') as [l'|] eqn:E'; [|done].
    destruct (mapM_set ids' ids l') as (l & El & _); [by intros x; rewrite HS|done|congruence].
Qed.

(** ** From a decision to an assignment *)

(** The assignment that keeps a decision *)
Definition values_for (d : AssignmentDecision) (role : string) (at_ : Z) : AssignmentValues :=
  mkValues (de_org d) (de_classification d) role (de_outcome d) (mkEvaluation at_ (de_version d) (de_count d)).

Definition exactly_one (d : AssignmentDecision) : bool := String.eqb (de_outcome d) MappingOutcomeExactlyOne.

(** Roles that an assignment with a decision may have *)
Definition fits (d : AssignmentDecision) (role : string) : bool :=
  if exactly_one d then any_of role [OrganizationRoleMember; OrganizationRoleAdmin] else String.eqb role OrganizationRoleNone.

(** What a decision comes with, as [Resolve_exact] says *)
Definition decided (d : AssignmentDecision) (t : OTables) : Prop :=
  (exactly_one d = true /\ de_count d = 1 /\ de_classification d = ClassificationNormal /\ is_Some (ot_normals t !! de_org d)) \/
  (de_outcome d = MappingOutcomeZero /\ de_count d = 0 /\ de_classification d = ClassificationDefault /\ de_org d = DefaultID) \/
  (de_outcome d = MappingOutcomeMultiple /\ 1 < de_count d /\ de_classification d = ClassificationDefault /\ de_org d = DefaultID).

Lemma Resolve_decided r ids keys w d w' : org_inv aliases (ow_tbl w) -> corporateKeys r ids = Some keys ->
  (forall k, k ∈ keys -> exists id n, ot_normals (ow_tbl w) !! id = Some n /\ nr_key n = k) ->
  Resolve r ids w = (Ok d, w') -> decided d (ow_tbl w) /\ de_version d = rs_version r /\ ow_tbl w' = ow_tbl w.
Proof.
  intros HI HK Hall HR1. destruct (Resolve_exact r ids keys w HI HK Hall) as (d' & w1 & HR2 & Ht & _ & Hv & Hd).
  rewrite HR1 in HR2. injection HR2 as <- <-. split; [|done]. destruct (elements (organizations_of keys (ow_tbl w))) as [|id [|id' l]] eqn:El.
  - right; left. rewrite Hd. cbn. assert (size (organizations_of keys (ow_tbl w)) = 0)%nat as ->; [|done].
    change (length (elements (organizations_of keys (ow_tbl w))) = 0)%nat. by rewrite El.
  - left. rewrite Hd. split_and!; [done..|]. assert (id ∈ organizations_of keys (ow_tbl w)) as Hid by (apply elem_of_elements; rewrite El; left).
    apply organizations_of_elem in Hid as (n & Hn & _). by exists n.
  - right; right. rewrite Hd. cbn. split_and!; try done.
    assert (size (organizations_of keys (ow_tbl w)) = length (id :: id' :: l)) as -> by (rewrite <- El; done). cbn [length]. lia.
Qed.

Lemma decided_org d t : org_inv aliases t -> decided d t -> de_org d <> uuid_Nil /\
  (exists r, ot_orgs t !! de_org d = Some r /\ or_class r = de_classification d) /\ (exactly_one d = true -> de_org d <> DefaultID).
Proof.
  intros HI HD. destruct (oi_default_there _ t HI) as (r0 & Hr0 & Hc0). destruct HD as [(E & _ & Hc & [n Hn])|HD].
  - destruct (oi_normal _ t HI _ _ Hn) as ((r & Hr & Hcr) & _). destruct (oi_org _ t HI _ _ Hr) as (_ & Hnil & _).
    split; [done|]. split; [exists r; by rewrite Hc|]. intros _ Heq. rewrite Heq in Hr. assert (r = r0) as -> by congruence. rewrite Hcr in Hc0. discriminate.
  - assert (de_org d = DefaultID /\ de_classification d = ClassificationDefault /\ exactly_one d = false) as (-> & -> & ->)
      by (unfold exactly_one; destruct HD as [(-> & _ & -> & ->)|(-> & _ & -> & ->)]; done).
    split; [done|]. split; [by exists r0|done].
Qed.

Lemma values_valid d t role at_ : org_inv aliases t -> decided d t -> validateSourceConfigVersion (de_version d) = None ->
  de_count d <= MaxInt32 -> zero_inst < at_ < postgresTimestamptzEnd -> fits d role = true ->
  validateUserOrganizationAssignmentValues (values_for d role at_) = None /\ mapping_truth (row_of (values_for d role at_)) = true.
Proof.
  intros HI HD Hv Hc Ht Hf. destruct (decided_org d t HI HD) as (Hnil & _ & Hdef).
  assert (0 <= de_count d) by (destruct HD as [(_ & -> & _)|[(_ & -> & _)|(_ & ? & _)]]; lia).
  assert (validateAssignmentEvaluation (mkEvaluation at_ (de_version d) (de_count d)) = None) as HE.
  { unfold validateAssignmentEvaluation. cbn [ev_at ev_SourceConfigVersion ev_MatchedCount]. rewrite Hv.
    assert (postgresTimestamptzMinimum < zero_inst) by (vm_compute; reflexivity).
    by rewrite (proj2 (Z.eqb_neq at_ zero_inst)), (proj2 (Z.ltb_ge at_ postgresTimestamptzMinimum)), (proj2 (Z.ltb_lt at_ postgresTimestamptzEnd)),
      (proj2 (Z.ltb_ge (de_count d) 0)), (proj2 (Z.ltb_ge MaxInt32 (de_count d))) by lia. }
  unfold validateUserOrganizationAssignmentValues, mapping_truth, row_of, values_for, effectiveNormalOrganizationID, in_default, fits, exactly_one in *.
  cbn [av_org av_classification av_role av_outcome av_evaluation ev_at ev_SourceConfigVersion ev_MatchedCount as_org as_class as_normal as_role as_outcome as_count].
  rewrite HE, (proj2 (Z.eqb_neq _ _) Hnil).
  destruct HD as [(Ho & -> & -> & _)|[(Ho & -> & -> & ->)|(Ho & Hlt & -> & ->)]].
  - unfold exactly_one in Ho. rewrite Ho in Hf. specialize (Hdef Ho). apply String.eqb_eq in Ho. rewrite Ho, Hf, (proj2 (Z.eqb_neq _ _) Hdef).
    change (String.eqb ClassificationNormal ClassificationNormal) with true. cbv iota. rewrite (bool_decide_eq_true_2 (Some _ = Some _)) by done.
    assert (validateOrganizationRole role = true) as ->; [|done]. unfold validateOrganizationRole, any_of in *. cbn in *.
    rewrite !orb_false_r in *. apply orb_true_iff in Hf as [-> | ->]; [done|by rewrite orb_true_r].
  - rewrite Ho in *. apply String.eqb_eq in Hf as ->. split; reflexivity.
  - rewrite Ho in *. apply String.eqb_eq in Hf as ->. cbn. rewrite (proj2 (Z.leb_gt _ _) Hlt), (proj2 (Z.ltb_lt _ _) Hlt). split; reflexivity.
Qed.

Lemma insert_decided user d role at_ t txt : org_inv aliases t -> decided d t -> validateSourceConfigVersion (de_version d) = None ->
  de_count d <= MaxInt32 -> zero_inst < at_ < postgresTimestamptzEnd -> fits d role = true ->
  user <> uuid_Nil -> ot_users t !! user = Some txt -> ot_assigns t !! user = None ->
  let a := row_of (values_for d role at_) in insert_assignment user a t = inl (a, set_assigns (<[user := a]> (ot_assigns t)) t).
Proof.
  intros HI HD Hv Hc Ht Hf Hu Hus Has. destruct (values_valid d t role at_ HI HD Hv Hc Ht Hf) as [HV HM].
  destruct (decided_org d t HI HD) as (Hnil & (r & Hr & Hcr) & _). cbv zeta. unfold insert_assignment. rewrite HM, Has, Hus.
  assert (exists n, as_normal (row_of (values_for d role at_)) = n /\ match n with Some n => is_some (ot_normals t !! n) = true | None => True end) as (n & -> & Hn).
  { eexists. split; [done|]. unfold row_of, values_for, effectiveNormalOrganizationID. cbn. destruct (String.eqb_spec (de_classification d) ClassificationNormal) as [E|]; [|done].
    destruct HD as [(_ & _ & _ & [x Hx])|[(_ & _ & E' & _)|(_ & _ & E' & _)]]; [by rewrite Hx| |]; rewrite E in E'; discriminate. }
  unfold validateUserOrganizationAssignmentValues in HV. cbn [values_for av_org av_classification av_role av_outcome] in HV.
  cbn [row_of values_for as_org as_class as_role as_outcome as_version as_count av_org av_classification av_role av_outcome av_evaluation ev_SourceConfigVersion ev_MatchedCount].
  rewrite (proj2 (Z.eqb_neq _ _) Hnil) in *. destruct (validateClassification _); [|done]. destruct (validateOrganizationRole _); [|done].
  destruct (validateMappingOutcome _); [|done]. clear HV. unfold validateSourceConfigVersion in Hv. unfold bad_text.
  destruct (ValidString _); [|done]. destruct (has_nul _); [done|]. cbn in Hv. destruct (_ || _); [done|].
  assert (0 <= de_count d) by (destruct HD as [(_ & -> & _)|[(_ & -> & _)|(_ & ? & _)]]; lia).
  assert (0 <= MaxInt32) by done. rewrite !(proj2 (Z.ltb_ge _ _)), (proj2 (Z.eqb_neq _ _) Hu), Hr by lia. cbn [negb andb orb is_some].
  rewrite Hcr, String.eqb_refl. destruct n; [rewrite Hn|]; done.
Qed.

(** C23: the identifiers of a user are resolved and the decision is stored: it is
    accepted, and the user is then found in the organization that matched, with
    the role that was given, or is found nowhere if none or several matched. *)
Theorem resolved_user_is_found r ids keys w d w1 user txt role at_ (HI : org_inv aliases (ow_tbl w)) (HK : corporateKeys r ids = Some keys)
  (Hall : forall k, k ∈ keys -> exists id n, ot_normals (ow_tbl w) !! id = Some n /\ nr_key n = k)
  (HR1 : Resolve r ids w = (Ok d, w1)) (Hv : validateSourceConfigVersion (rs_version r) = None) (Hc : de_count d <= MaxInt32)
  (Hat : zero_inst + 1000 <= at_ < postgresTimestamptzEnd) (Hf : fits d role = true)
  (Hu : user <> uuid_Nil) (Hus : ot_users (ow_tbl w) !! user = Some txt) (Has : ot_assigns (ow_tbl w) !! user = None) :
  exists a w2, CreateUserOrganizationAssignment no_dberr clock user (values_for d role at_) w1 = (Ok a, w2) /\
    (FindCurrentUserOrganization no_dberr clock user w2).1 =
      if any_of txt ["user"; "admin"] && exactly_one d then Ok (mkCurrentOrg user (role_text txt) (de_org d) role) else Err ErrNotFound.
Proof.
  destruct (Resolve_decided r ids keys w d w1 HI HK Hall HR1) as (HD & Hver & Ht). rewrite <- Hver in Hv.
  destruct (values_valid d _ role at_ HI HD Hv Hc ltac:(lia) Hf) as [HV _].
  pose proof (insert_decided user d role at_ _ txt HI HD Hv Hc ltac:(lia) Hf Hu Hus Has) as HIn. cbv zeta in HIn.
  set (a := row_of (values_for d role at_)) in *.
  assert (values_of a = values_for d role (at_ / 1000 * 1000)) as Hva by done.
  assert (zero_inst < at_ / 1000 * 1000 < postgresTimestamptzEnd) as Hat2.
  { assert (zero_inst = (zero_inst / 1000) * 1000) by (vm_compute; reflexivity). dlia. }
  destruct (values_valid d _ role (at_ / 1000 * 1000) HI HD Hv Hc Hat2 Hf) as [HV2 _].
  rewrite <- Hva in HV2.
  exists (mkAssignment user (values_of a)), (ow_tick (mkOW (set_assigns (<[user := a]> (ot_assigns (ow_tbl w))) (ow_tbl w)) (ow_calls w1))).
  assert (or_fail mapUserAssignmentWriteError (ostmt no_dberr clock (fun _ => insert_assignment user a)) w1 =
    (Ok a, ow_tick (mkOW (set_assigns (<[user := a]> (ot_assigns (ow_tbl w))) (ow_tbl w)) (ow_calls w1)))) as HS.
  { unfold or_fail. unfold bind at 1, ostmt. cbn -[insert_assignment]. by rewrite Ht, HIn. }
  unfold CreateUserOrganizationAssignment. rewrite (proj2 (Z.eqb_neq _ _) Hu), HV. fold a. unfold bind at 1. rewrite HS.
  unfold scanUserOrganizationAssignment. rewrite (proj2 (Z.eqb_neq _ _) Hu), HV2.
  split; [done|]. rewrite (current_is_home _ aliases); [|cbn|done..].
  2:{ eapply (insert_assignment_moves aliases user a); [exact HI|exact HIn]. }
  unfold home. cbn [ow_tbl ow_tick set_assigns ot_users ot_assigns fst]. rewrite Hus, lookup_insert_eq. cbn [mbind option_bind].
  change (as_outcome a) with (de_outcome d). unfold exactly_one. by destruct (_ && _).
Qed.
End Resolver.

Section witness.
#[local] Existing Instance ascii_unicode.
#[local] Existing Instance nibble_uuid.
#[local] Existing Instance ordered_map_range.

Definition sample_rules : list (string * string) := [("team-ops", "ops"); ("team-dev", "dev"); ("ops-oslo", "ops")].
Definition sample_resolver : Resolver := mkResolver "v1" {["team-ops" := "ops"; "team-dev" := "dev"; "ops-oslo" := "ops"]}.

Example sample_resolver_is_made : NewOrganizationAssignmentResolver "v1" sample_rules = inl sample_resolver.
Proof. vm_compute. reflexivity. Qed.

Definition resolved (ids : list string) := Resolve no_dberr sample_clock sample_aliases sample_resolver ids sample_orgs_world.

(** Two identifiers of one organization are one match; of two organizations, none. *)
Example two_matches : match (resolved ["team-ops"; "team-dev"; "other"]).1 with Ok d => de_outcome d | _ => "" end = MappingOutcomeMultiple.
Proof. vm_compute. reflexivity. Qed.

Lemma resolved_user_is_found_witness : exists a w2,
  CreateUserOrganizationAssignment no_dberr sample_clock 8
    (values_for (mkDecision MappingOutcomeExactlyOne 1 OpsID ClassificationNormal "v1") OrganizationRoleMember sample_at)
    (resolved ["ops-oslo"; " team-ops "; "other"]).2 = (Ok a, w2) /\
  (FindCurrentUserOrganization no_dberr sample_clock 8 w2).1 = Ok (mkCurrentOrg 8 RoleUser OpsID OrganizationRoleMember).
Proof.
  assert (HR1 : resolved ["ops-oslo"; " team-ops "; "other"] =
    (Ok (mkDecision MappingOutcomeExactlyOne 1 OpsID ClassificationNormal "v1"), (resolved ["ops-oslo"; " team-ops "; "other"]).2))
    by (vm_compute; reflexivity).
  destruct (resolved_user_is_found sample_clock sample_aliases sample_resolver ["ops-oslo"; " team-ops "; "other"] {["ops"]} sample_orgs_world
    (mkDecision MappingOutcomeExactlyOne 1 OpsID ClassificationNormal "v1") (resolved ["ops-oslo"; " team-ops "; "other"]).2 8 "user" OrganizationRoleMember sample_at) as (a & w2 & HC & HF).
  - apply sample_org_inv.
  - vm_compute. reflexivity.
  - intros k Hk. apply elem_of_singleton in Hk as ->. exists OpsID, (mkNormal "ops" "UTC"). split; reflexivity.
  - exact HR1.
  - reflexivity.
  - vm_compute. discriminate.
  - split; vm_compute; [discriminate|reflexivity].
  - reflexivity.
  - discriminate.
  - reflexivity.
  - reflexivity.
  - exists a, w2. split; [exact HC|exact HF].
Defined.
End witness.
