(* ===== verification/ExecutionContext.v ===== *)
(** * Authority of a request: [executioncontext]

    An execution context says for whom a request acts and in which organization.
    It is made from the requester that the authentication has found and from the
    tables of organizations, and is checked when it is made; whoever looks at one
    that is not valid sees nothing in it.  It is the evidence for changes of contact
    methods and notification rules, which are in the next file.  The definitions come
    first, then which execution context a request gets. *)

From Stdlib Require Import Ascii String.
From S2P Require Import Prelude Text Effects GoTime Unicode Validate Permission Session SessionSpec TimeZone Organization OrganizationSpec.

Local Open Scope string_scope.
Local Open Scope Z_scope.

(** ** Values: [execution_context.go] *)

Definition PrincipalKindHuman : string := "HUMAN".
Definition PrincipalKindIntegration : string := "INTEGRATION".
Definition PrincipalKindOrganizationSystem : string := "ORG_SYSTEM".
Definition PrincipalKindMachine : string := "MACHINE".
Definition PrincipalKindPlatformSystem : string := "PLATFORM_SYSTEM".

Definition AuthorityModeOrganizationScoped : string := "ORG_SCOPED".
Definition AuthorityModeDefaultRestricted : string := "DEFAULT_RESTRICTED".
Definition AuthorityModePlatformGlobal : string := "PLATFORM_GLOBAL".

Record AuthenticationSource := mkAuthSource { sourceType : string; sourceID : string }.
Record PrivilegeMetadata := mkPrivileges { p_organizationRole : string; p_platformAdmin : bool }.

Record ExecutionContext := mkEC {
  ec_valid : bool; ec_principalKind : string; ec_principalID : string; ec_actualActorID : string;
  ec_source : AuthenticationSource; ec_privileges : PrivilegeMetadata; ec_authorityMode : string;
  ec_organization : UUID; ec_hasOrganization : bool
}.

Definition zero_EC : ExecutionContext := mkEC false "" "" "" (mkAuthSource "" "") (mkPrivileges "" false) "" uuid_Nil false.

(** The methods have a pointer, which may be nil. *)
Definition Valid (c : option ExecutionContext) : bool := match c with Some c => ec_valid c | None => false end.

Definition when_valid {A} (zero : A) (get : ExecutionContext -> A) (c : option ExecutionContext) : A :=
  match c with Some c => if ec_valid c then get c else zero | None => zero end.

Definition PrincipalKind : option ExecutionContext -> string := when_valid "" ec_principalKind.
Definition PrincipalID : option ExecutionContext -> string := when_valid "" ec_principalID.
Definition ActualActorID : option ExecutionContext -> string := when_valid "" ec_actualActorID.
Definition AuthSource : option ExecutionContext -> option AuthenticationSource := when_valid None (fun c => Some (ec_source c)).
Definition Privileges : option ExecutionContext -> option PrivilegeMetadata := when_valid None (fun c => Some (ec_privileges c)).
Definition AuthorityMode : option ExecutionContext -> string := when_valid "" ec_authorityMode.
Definition EffectiveOrganizationID : option ExecutionContext -> option UUID :=
  when_valid None (fun c => if ec_hasOrganization c then Some (ec_organization c) else None).

(** The methods of these two *)
Definition source_Type (s : option AuthenticationSource) : string := match s with Some s => sourceType s | None => "" end.
Definition source_ID (s : option AuthenticationSource) : string := match s with Some s => sourceID s | None => "" end.
Definition PlatformAdmin (p : option PrivilegeMetadata) : bool := match p with Some p => p_platformAdmin p | None => false end.

(** [executionContextSpec] *)
Record ECSpec := mkECSpec {
  sp_principalKind : string; sp_principalID : string; sp_actualActorID : string; sp_sourceType : string; sp_sourceID : string;
  sp_role : string; sp_platformAdmin : bool; sp_authorityMode : string; sp_organization : option UUID
}.

Definition validPrincipalKind (k : string) : bool :=
  any_of k [PrincipalKindHuman; PrincipalKindIntegration; PrincipalKindOrganizationSystem; PrincipalKindMachine; PrincipalKindPlatformSystem].
Definition validAuthorityMode (m : string) : bool :=
  any_of m [AuthorityModeOrganizationScoped; AuthorityModeDefaultRestricted; AuthorityModePlatformGlobal].
Definition validOrganizationRole (r : string) : bool := any_of r [OrganizationRoleMember; OrganizationRoleAdmin; OrganizationRoleNone].
Definition validateStableIdentity (v : string) : bool := negb (String.eqb v "") && ValidString v && negb (has_nul v).

Definition validHumanAuthorityCombination (s : ECSpec) : bool :=
  if String.eqb (sp_authorityMode s) AuthorityModeDefaultRestricted then String.eqb (sp_role s) OrganizationRoleNone
  else if String.eqb (sp_authorityMode s) AuthorityModePlatformGlobal then sp_platformAdmin s && String.eqb (sp_role s) OrganizationRoleNone
  else if String.eqb (sp_authorityMode s) AuthorityModeOrganizationScoped then
    String.eqb (sp_role s) OrganizationRoleMember || String.eqb (sp_role s) OrganizationRoleAdmin
  else false.

Definition validNonHumanMetadata (s : ECSpec) : bool := String.eqb (sp_role s) OrganizationRoleNone && negb (sp_platformAdmin s).

Definition validPrincipalAuthorityCombination (s : ECSpec) : bool :=
  let kind := String.eqb (sp_principalKind s) in
  let mode := String.eqb (sp_authorityMode s) in
  if kind PrincipalKindHuman then validHumanAuthorityCombination s
  else if kind PrincipalKindIntegration || kind PrincipalKindOrganizationSystem then
    validNonHumanMetadata s && mode AuthorityModeOrganizationScoped
  else if kind PrincipalKindMachine then
    validNonHumanMetadata s && (mode AuthorityModeOrganizationScoped || mode AuthorityModePlatformGlobal)
  else if kind PrincipalKindPlatformSystem then validNonHumanMetadata s && mode AuthorityModePlatformGlobal
  else false.

(** [SourceType.String] *)
Definition SourceType_String (s : SourceType) : string :=
  match s with
  | SourceTypeNotificationCallback => "SourceTypeNotificationCallback"
  | SourceTypeIntegrationKey => "SourceTypeIntegrationKey"
  | SourceTypeAuthProvider => "SourceTypeAuthProvider"
  | SourceTypeContactMethod => "SourceTypeContactMethod"
  | SourceTypeHeartbeat => "SourceTypeHeartbeat"
  | SourceTypeNotificationChannel => "SourceTypeNotificationChannel"
  | SourceTypeCalendarSubscription => "SourceTypeCalendarSubscription"
  | SourceTypeGQLAPIKey => "SourceTypeGQLAPIKey"
  | SourceTypeUIK => "SourceTypeUIK"
  end.

(** A context of a request, and what is installed in it as the execution context *)
Record HCtx := mkHC { hc_req : RCtx; hc_value : option ExecutionContext }.
Definition hc_perm (c : HCtx) : Ctx := rc_perm (hc_req c).

(** [WithExecutionContext], [ExecutionContextFromContext] *)
Definition WithExecutionContext (c : HCtx) (v : ExecutionContext) : HCtx := if ec_valid v then mkHC (hc_req c) (Some v) else c.
Definition ExecutionContextFromContext (c : HCtx) : option ExecutionContext :=
  match hc_value c with Some v => if ec_valid v then Some v else None | None => None end.

(** What makes it unavailable *)
Inductive HErr := Failure (reason : string) | LookupFailure (operation : string) (e : OErr + string).

Section ExecutionContext.
Context {HT : UUIDText}.
Context (db_err : nat -> option DBError) (clock : nat -> Z).
(** Whether the context of the request has ended *)
Context (ctx_err : bool).

(** The checks of [newExecutionContext] on the organization, with the Default one *)
Definition organization_fits (s : ECSpec) (default_id : UUID) : option string :=
  if String.eqb (sp_authorityMode s) AuthorityModeOrganizationScoped then
    match sp_organization s with
    | Some o => if o =? default_id then Some "ORG_SCOPED effective Organization" else None
    | None => Some "ORG_SCOPED effective Organization"
    end
  else if is_some (sp_organization s) then Some "effective Organization is incompatible with authority mode"
  else None.

Definition newExecutionContext (s : ECSpec) : ExecutionContext + string :=
  if negb (validPrincipalKind (sp_principalKind s)) then inr "principal kind"
  else if negb (validateStableIdentity (sp_principalID s)) then inr "principal identity"
  else if negb (validateStableIdentity (sp_actualActorID s)) then inr "actual-actor identity"
  else if negb (validateStableIdentity (sp_sourceType s)) then inr "authentication-source type"
  else if negb (validateStableIdentity (sp_sourceID s)) then inr "authentication-source identity"
  else if negb (validOrganizationRole (sp_role s)) then inr "Organization role metadata"
  else if negb (validAuthorityMode (sp_authorityMode s)) then inr "authority mode"
  else if bool_decide (sp_organization s = Some uuid_Nil) then inr "effective Organization identity"
  else match uuid_Parse DefaultOrganizationID with
       | None => inr "distinguished Default Organization contract"
       | Some default_id =>
           if default_id =? uuid_Nil then inr "distinguished Default Organization contract"
           else match organization_fits s default_id with
                | Some e => inr e
                | None =>
                    if negb (validPrincipalAuthorityCombination s) then inr "principal privilege and authority-mode combination"
                    else inl (mkEC true (sp_principalKind s) (sp_principalID s) (sp_actualActorID s)
                                (mkAuthSource (sp_sourceType s) (sp_sourceID s)) (mkPrivileges (sp_role s) (sp_platformAdmin s))
                                (sp_authorityMode s) (default uuid_Nil (sp_organization s)) (is_some (sp_organization s)))
                end
       end.

(** ** Scopes: [policy_scope.go] *)

Definition EligibleForOrganizationBusinessScope (c : option ExecutionContext) (target : UUID) : bool :=
  if negb (Valid c) || negb (String.eqb (AuthorityMode c) AuthorityModeOrganizationScoped) || (target =? uuid_Nil) then false
  else match uuid_Parse DefaultOrganizationID with
       | None => false
       | Some d =>
           if (d =? uuid_Nil) || (target =? d) then false
           else match EffectiveOrganizationID c with
                | Some o => negb (o =? uuid_Nil) && negb (o =? d) && (o =? target)
                | None => false
                end
       end.

Definition EligibleForPlatformGlobalScope (c : option ExecutionContext) : bool :=
  Valid c && String.eqb (AuthorityMode c) AuthorityModePlatformGlobal.

(** ** Of a human: [human_execution_context.go], [human_execution_context_http.go] *)

Local Notation M := (Effects.M OWorld HErr).

Definition lookup_or {A} (f : OErr -> HErr) (m : Effects.M OWorld OErr A) : M A := fun w =>
  match m w with (Ok a, w) => (Ok a, w) | (Err e, w) => (Err (f e), w) | (Panic, w) => (Panic, w) end.

(** What the permissions of the context say, against the requester *)
Definition corroborated (p : Ctx) (r : Requester) : bool :=
  String.eqb (UserID p) (uuid_String (rq_user r)) &&
  match Source p with
  | Some s => bool_decide (src_type s = SourceTypeAuthProvider) && String.eqb (src_id s) (uuid_String (rq_session r))
  | None => false
  end.

Definition human_spec (r : Requester) (current : CurrentUserOrganization) : ECSpec :=
  mkECSpec PrincipalKindHuman (uuid_String (co_user current)) (uuid_String (co_user current))
    (SourceType_String SourceTypeAuthProvider) (uuid_String (rq_session r)) (co_role current)
    (match co_user_role current with RoleAdmin => true | _ => false end) AuthorityModeOrganizationScoped (Some (co_org current)).

Definition Construct (c : HCtx) : M ExecutionContext :=
  if ctx_err then fail (LookupFailure "operation context is not current" (inr "context"))
  else
    match RequesterFromContext (hc_req c) with
    | None => fail (Failure "authenticated-human Requester is required")
    | Some r =>
        if negb (corroborated (hc_perm c) r) then fail (Failure "legacy authentication metadata is inconsistent with Requester")
        else
          let! current := lookup_or (fun e => LookupFailure "read current User Organization" (inl e))
                            (FindCurrentUserOrganization db_err clock (rq_user r)) in
          let admin := match co_user_role current with RoleAdmin => true | _ => false end in
          if negb (co_user current =? rq_user r) then fail (Failure "current global User state is inconsistent")
          else if negb (known_role (co_user_role current)) then fail (Failure "current global User role is invalid")
          else if negb (eqb (Admin (hc_perm c)) admin) then fail (Failure "legacy and current global User roles are inconsistent")
          else if (co_org current =? uuid_Nil) || String.eqb (uuid_String (co_org current)) DefaultOrganizationID ||
                  negb (any_of (co_role current) [OrganizationRoleMember; OrganizationRoleAdmin])
          then fail (Failure "current User Organization is not operational")
          else match newExecutionContext (human_spec r current) with
               | inr e => fail (LookupFailure "construct typed ExecutionContext" (inr e))
               | inl v =>
                   if negb (EligibleForOrganizationBusinessScope (Some v) (co_org current)) then
                     fail (LookupFailure "construct typed ExecutionContext" (inr "invalid ExecutionContext"))
                   else ret v
               end
    end.

(** The context that the handler gets; one that came with the request is covered. *)
Definition WrapHandler (c : HCtx) : Effects.M OWorld HErr HCtx := fun w =>
  let c := mkHC (hc_req c) (Some zero_EC) in
  match RequesterFromContext (hc_req c) with
  | None => (Ok c, w)
  | Some _ =>
      match Construct c w with
      | (Ok v, w) => (Ok (if ec_valid v then WithExecutionContext c v else c), w)
      | (Err _, w) => (Ok c, w)
      | (Panic, w) => (Panic, w)
      end
  end.
End ExecutionContext.

(** ** Which authority a request gets

    A handler finds an execution context exactly if the authentication has found a
    requester who is, by the tables as they are now, in an organization, and with
    the role that the permissions of the request say; and it says what the tables
    say. *)

#[local] Arguments any_of : simpl never.

(** ** Texts of small letters, digits and dashes *)

Definition plain (c : ascii) : bool := lower c || is_digit c || Ascii.eqb c "-".

Lemma plain_code c : plain c = true -> 0 < code c < 128 /\ (65 <=? code c) && (code c <=? 90) = false.
Proof.
  destruct c as [b0 b1 b2 b3 b4 b5 b6 b7]. destruct b7; [destruct b0, b1, b2, b3, b4, b5, b6; discriminate|].
  destruct b0, b1, b2, b3, b4, b5, b6; try discriminate; intros _; repeat split; reflexivity.
Qed.

Lemma encode_code c : 0 <= code c < 128 -> EncodeRune (code c) = String c "".
Proof.
  intros Hc. unfold EncodeRune. rewrite (proj2 (Z.ltb_ge _ _)), (proj2 (Z.ltb_ge _ _)), (proj2 (Z.leb_gt _ _)), (proj2 (Z.ltb_lt _ 128)) by lia.
  cbn. unfold char, code. by rewrite N2Z.id, ascii_N_embedding.
Qed.

Lemma plain_runes s : all_chars plain s = true -> text (runes s) = s /\ has_nul s = false /\ forall `{Unicode}, map LowerRune (runes s) = runes s.
Proof.
  induction s as [|c s IH]; [done|]. cbn [all_chars]. intros H. apply andb_true_iff in H as [Hc Hs]. destruct (IH Hs) as (IH1 & IH2 & IH3).
  apply plain_code in Hc as [Hc Hup]. assert (runes (String c s) = code c :: runes s) as ->.
  { change (String c s) with (String c "" ++ s). rewrite <- encode_code by lia. apply runes_encode. left. lia. }
  cbn [text foldr map]. rewrite encode_code by lia. split_and!; [cbn; f_equal; exact IH1| |intros HU; by rewrite IH3, LowerRune_ascii, Hup by lia].
  unfold has_nul in *. cbn [all_chars]. apply negb_false_iff in IH2. rewrite IH2, andb_true_r. apply negb_false_iff, negb_true_iff.
  destruct (Ascii.eqb_spec c zero) as [->|]; [|done]. change (code zero) with 0 in Hc. lia.
Qed.

Lemma plain_lower `{Unicode} s : all_chars plain s = true -> ToLower s = s.
Proof. intros Hs. unfold ToLower. destruct (plain_runes s Hs) as (Ht & _ & Hl). by rewrite Hl. Qed.

Lemma plain_identity s : s <> "" -> all_chars plain s = true -> validateStableIdentity s = true.
Proof.
  intros Hne Hs. destruct (plain_runes s Hs) as (Ht & Hn & _). unfold validateStableIdentity, ValidString.
  rewrite Ht, String.eqb_refl, Hn. by destruct (String.eqb_spec s "").
Qed.

Section Spec.
Context {HU : Unicode} {HT : UUIDText}.
(** The text of a UUID has hexadecimal digits and dashes. *)
Context (Hplain : forall u, all_chars plain (uuid_String u) = true).

Lemma uuid_identity u : validateStableIdentity (uuid_String u) = true.
Proof using Hplain.
  apply plain_identity; [|apply Hplain]. pose proof (uuid_String_length u) as Hl. by destruct (uuid_String u).
Qed.

(** The execution context of a requester who is in an organization *)
Definition human_context (r : Requester) (h : CurrentUserOrganization) : ExecutionContext :=
  mkEC true PrincipalKindHuman (uuid_String (co_user h)) (uuid_String (co_user h))
    (mkAuthSource "SourceTypeAuthProvider" (uuid_String (rq_session r)))
    (mkPrivileges (co_role h) (match co_user_role h with RoleAdmin => true | _ => false end))
    AuthorityModeOrganizationScoped (co_org h) true.

Definition in_operation (h : CurrentUserOrganization) : Prop :=
  is_uuid (co_org h) /\ co_org h <> uuid_Nil /\ co_org h <> DefaultID /\
  any_of (co_role h) [OrganizationRoleMember; OrganizationRoleAdmin] = true /\ known_role (co_user_role h) = true.

Lemma home_in_operation aliases t user h : org_inv aliases t -> home t user = Some h -> in_operation h /\ co_user h = user.
Proof.
  intros HI Eh. unfold home in Eh. destruct (ot_users t !! user) as [role|] eqn:Er; [|done]. cbn in Eh.
  destruct (ot_assigns t !! user) as [a|] eqn:Ea; [|done]. cbn in Eh.
  destruct (any_of role _) eqn:Ero; [|done]. destruct (String.eqb_spec (as_outcome a) MappingOutcomeExactlyOne) as [Eo|]; [|done].
  injection Eh as <-. cbn. destruct (oi_assign _ t HI user a Ea) as (HM & _ & (r & Hr & Hc) & Hn).
  destruct (truth_exactly_one a HM Eo) as (_ & _ & Hd & _ & Hro). destruct (oi_org _ t HI _ _ Hr) as (Hou & Hon & _).
  unfold in_operation. split_and!; try done.
  unfold any_of in Ero. cbn in Ero. unfold role_text. cbn. destruct (String.eqb role "admin"); [done|]. by destruct (String.eqb role "user").
Qed.

Lemma default_parses : uuid_Parse DefaultOrganizationID = Some DefaultID.
Proof. apply uuid_Parse_String, DefaultID_uuid. Qed.

Lemma human_spec_accepted r h : in_operation h -> newExecutionContext (human_spec r h) = inl (human_context r h).
Proof using Hplain.
  intros (_ & Hn & Hd & Hr & _). unfold newExecutionContext, human_spec. cbn [sp_principalKind sp_principalID sp_actualActorID sp_sourceType sp_sourceID
    sp_role sp_authorityMode sp_organization sp_platformAdmin]. rewrite !uuid_identity.
  change (validPrincipalKind PrincipalKindHuman) with true. change (validateStableIdentity (SourceType_String SourceTypeAuthProvider)) with true.
  change (validAuthorityMode AuthorityModeOrganizationScoped) with true. cbn [negb].
  assert (validOrganizationRole (co_role h) = true) as ->.
  { unfold validOrganizationRole, any_of in *. cbn in *. destruct (String.eqb (co_role h) _); [done|]. by destruct (String.eqb (co_role h) _). }
  cbn [negb]. rewrite bool_decide_eq_false_2 by (intros [= E]; done). rewrite default_parses. change (DefaultID =? uuid_Nil) with false. cbv iota.
  unfold organization_fits. cbn. rewrite (proj2 (Z.eqb_neq _ _) Hd).
  unfold validPrincipalAuthorityCombination, validHumanAuthorityCombination. cbn.
  unfold any_of in Hr. cbn in Hr. rewrite orb_false_r in Hr. by rewrite Hr.
Qed.

Lemma eligible r h : in_operation h -> EligibleForOrganizationBusinessScope (Some (human_context r h)) (co_org h) = true.
Proof.
  intros (_ & Hn & Hd & _). unfold EligibleForOrganizationBusinessScope. cbn. rewrite (proj2 (Z.eqb_neq _ _) Hn), default_parses.
  change (DefaultID =? uuid_Nil) with false. cbn. by rewrite (proj2 (Z.eqb_neq _ _) Hd), Z.eqb_refl.
Qed.

(** What a handler should find *)
Definition admitted (t : OTables) (c : HCtx) : option ExecutionContext :=
  r ← RequesterFromContext (hc_req c);
  h ← home t (rq_user r);
  if corroborated (hc_perm c) r && eqb (Admin (hc_perm c)) (match co_user_role h with RoleAdmin => true | _ => false end)
  then Some (human_context r h) else None.

Lemma RequesterFromContext_user c r : RequesterFromContext c = Some r -> rq_user r <> uuid_Nil.
Proof.
  unfold RequesterFromContext. destruct (rc_requester c) as [q|]; [|done]. destruct (Requester_Valid q) eqn:E; [|done]. intros [= <-].
  unfold Requester_Valid in E. apply andb_true_iff in E as [E _]. by apply Z.eqb_neq, negb_true_iff.
Qed.

Lemma Construct_exact db_err clock aliases c w : org_inv aliases (ow_tbl w) -> db_err (ow_calls w) = None ->
  exists w', ow_tbl w' = ow_tbl w /\
    match admitted (ow_tbl w) c with
    | Some v => Construct db_err clock false c w = (Ok v, w')
    | None => exists e, Construct db_err clock false c w = (Err e, w')
    end.
Proof using Hplain.
  intros HI Hdb. unfold admitted, Construct. destruct (RequesterFromContext (hc_req c)) as [r|] eqn:Er; [|exists w; split; [done|by eexists]].
  pose proof (RequesterFromContext_user _ _ Er) as Hu. cbn [mbind option_bind].
  destruct (corroborated (hc_perm c) r); cbn [negb andb];
    [|exists w; split; [done|]; destruct (home (ow_tbl w) (rq_user r)); cbn; by eexists].
  exists (ow_tick w). split; [done|]. unfold bind, lookup_or. rewrite (current_is_home _ _ _ _ _ HI Hu Hdb).
  destruct (home (ow_tbl w) (rq_user r)) as [h|] eqn:Eh; [|by eexists]. cbn [mbind option_bind].
  destruct (home_in_operation _ _ _ _ HI Eh) as [HO Hh]. pose proof HO as (Hi & Hn & Hd & Hro & Hk).
  rewrite Hh, Z.eqb_refl, Hk. cbn [negb]. destruct (eqb _ _); cbn [negb]; [|by eexists].
  rewrite (proj2 (Z.eqb_neq _ _) Hn), Hro. cbn [negb orb]. rewrite orb_false_r.
  destruct (String.eqb_spec (uuid_String (co_org h)) DefaultOrganizationID) as [Es|_].
  { destruct Hd. by apply uuid_String_inj; [|apply DefaultID_uuid|]. }
  by rewrite human_spec_accepted, eligible.
Qed.

Lemma admitted_valid t c v : admitted t c = Some v -> ec_valid v = true /\ is_Some (RequesterFromContext (hc_req c)).
Proof.
  unfold admitted. destruct (RequesterFromContext (hc_req c)); [|done]. cbn. destruct (home _ _); [|done]. cbn. destruct (_ && _); [|done].
  intros [= <-]. by split; [|eexists].
Qed.

Lemma WrapHandler_admitted db_err clock aliases c w v : org_inv aliases (ow_tbl w) -> db_err (ow_calls w) = None -> admitted (ow_tbl w) c = Some v ->
  exists w', WrapHandler db_err clock false c w = (Ok (mkHC (hc_req c) (Some v)), w') /\ ow_tbl w' = ow_tbl w.
Proof using Hplain.
  intros HI Hdb Ha. destruct (admitted_valid _ _ _ Ha) as [Hv [r Er]]. unfold WrapHandler. cbn [hc_req]. rewrite Er.
  destruct (Construct_exact db_err clock aliases (mkHC (hc_req c) (Some zero_EC)) w HI Hdb) as (w' & Ht & HC).
  change (admitted _ (mkHC _ _)) with (admitted (ow_tbl w) c) in HC. rewrite Ha in HC. rewrite HC, Hv. unfold WithExecutionContext. rewrite Hv. by exists w'.
Qed.

(** C12: a handler finds the execution context that the requester and the tables give
    at this moment, and no other: it is that of the user of the session, in the one
    organization where the user is, with the roles of the tables, whatever the
    request has brought along.  Where the database fails there is none. *)
Theorem admission_exact db_err clock aliases ctx_err c w (HI : org_inv aliases (ow_tbl w)) :
  exists c' w', WrapHandler db_err clock ctx_err c w = (Ok c', w') /\ hc_req c' = hc_req c /\ ow_tbl w' = ow_tbl w /\
    ExecutionContextFromContext c' =
      (if ctx_err || is_some (db_err (ow_calls w)) then None else admitted (ow_tbl w) c).
Proof using Hplain.
  unfold WrapHandler. cbn [hc_req]. destruct (RequesterFromContext (hc_req c)) as [r|] eqn:Er.
  2:{ do 2 eexists. split_and!; [done..|]. unfold admitted. rewrite Er. by destruct (_ || _). }
  set (c0 := mkHC (hc_req c) (Some zero_EC)).
  destruct (ctx_err || is_some (db_err (ow_calls w))) eqn:Ef.
  - assert (exists e w', Construct db_err clock ctx_err c0 w = (Err e, w') /\ ow_tbl w' = ow_tbl w) as (e & w' & -> & Ht).
    { unfold Construct. destruct ctx_err; [by eauto|]. unfold c0. cbn [hc_req]. rewrite Er. destruct (negb _); [by eauto|].
      cbn in Ef. destruct (db_err (ow_calls w)) as [e|] eqn:Ed; [|done].
      unfold bind at 1, lookup_or, FindCurrentUserOrganization. rewrite (proj2 (Z.eqb_neq _ _) (RequesterFromContext_user _ _ Er)).
      unfold bind, or_fail, oread, ostmt. unfold bind. rewrite Ed. cbn. by eauto. }
    exists c0, w'. by split_and!.
  - apply orb_false_iff in Ef as [-> Ef]. destruct (db_err (ow_calls w)) eqn:Ed; [done|].
    destruct (admitted (ow_tbl w) c) as [v|] eqn:Ev.
    + destruct (admitted_valid _ _ _ Ev) as [Hv _]. destruct (WrapHandler_admitted db_err clock aliases c w v HI Ed Ev) as (w' & HW & Ht).
      unfold WrapHandler in HW. cbn [hc_req] in HW. rewrite Er in HW. eexists _, w'. split; [exact HW|]. split_and!; [done..|]. cbn. by rewrite Hv.
    + destruct (Construct_exact db_err clock aliases c0 w HI Ed) as (w' & Ht & HC). change (admitted _ c0) with (admitted (ow_tbl w) c) in HC.
      rewrite Ev in HC. destruct HC as [e ->]. exists c0, w'. by split_and!.
Qed.

(** The request of a session, as the authentication hands it on, is admitted if the
    user is in an organization. *)
Lemma session_admitted t c user id h role v : user <> uuid_Nil -> id <> uuid_Nil -> System c = false ->
  home t user = Some h -> co_user_role h = role ->
  admitted t (mkHC (session_ctx c user id role) v) = Some (human_context (mkRequester user id) h).
Proof using Hplain.
  intros Hu Hid Hs Hh Hr. unfold admitted, session_ctx, RequesterFromContext, Requester_Valid. cbn.
  rewrite (proj2 (Z.eqb_neq _ _) Hu), (proj2 (Z.eqb_neq _ _) Hid). cbn. rewrite Hh. cbn.
  assert (corroborated (UserSourceContext c (uuid_String user) role (Some (mkSource SourceTypeAuthProvider (uuid_String id)))) (mkRequester user id) = true) as Hc.
  { unfold corroborated, UserSourceContext, UserContext, UserID, Source. cbn. by rewrite (plain_lower _ (Hplain _)), !String.eqb_refl. }
  unfold hc_perm. cbn. rewrite Hc. unfold Admin. assert (System (UserSourceContext c (uuid_String user) role (Some (mkSource SourceTypeAuthProvider (uuid_String id)))) = false) as -> by done.
  rewrite Hr. cbn. by destruct role.
Qed.
End Spec.

(** ** A sample *)

Lemma nibbles_plain k : forall n acc, all_chars plain acc = true -> all_chars plain (nibbles k n acc) = true.
Proof.
  induction k as [|k IH]; intros n acc Ha; cbn [nibbles]; [done|]. apply IH. cbn [all_chars]. rewrite Ha, andb_true_r.
  pose proof (Z.mod_pos_bound n 16 ltac:(lia)) as Hm. assert (Z.to_nat (n mod 16) < 16)%nat as Hlt by lia.
  generalize dependent (Z.to_nat (n mod 16)). intros m Hlt. do 16 (destruct m as [|m]; [vm_compute; reflexivity|]). lia.
Qed.

Lemma nibble_plain u : all_chars plain (@uuid_String nibble_uuid u) = true.
Proof. by apply nibbles_plain. Qed.

Section witness.
#[local] Existing Instance ascii_unicode.
#[local] Existing Instance nibble_uuid.
#[local] Existing Instance ordered_map_range.

(** A request of user 7 in session 77 that brings an execution context of another
    organization *)
Definition forged : ExecutionContext :=
  human_context (mkRequester 9 77) (mkCurrentOrg 9 RoleAdmin DevID OrganizationRoleAdmin).
Definition sample_request : HCtx := mkHC (session_ctx Background 7 77 RoleUser) (Some forged).

Lemma admission_exact_witness : exists c' w',
  WrapHandler (fun _ => None) sample_clock false sample_request sample_orgs_world = (Ok c', w') /\
  ExecutionContextFromContext c' =
    Some (human_context (mkRequester 7 77) (mkCurrentOrg 7 RoleUser OpsID OrganizationRoleMember)).
Proof.
  destruct (admission_exact nibble_plain (fun _ => None) sample_clock sample_aliases false sample_request sample_orgs_world) as (c' & w' & HW & _ & _ & HV).
  - apply sample_org_inv.
  - exists c', w'. split; [exact HW|]. rewrite HV. vm_compute. reflexivity.
Defined.

(** User 8 is in no organization, and the role of user 9 has changed since. *)
Example no_organization : admitted sample_orgs (mkHC (session_ctx Background 8 77 RoleUser) None) = None.
Proof. vm_compute. reflexivity. Qed.
Example role_has_changed : admitted sample_orgs (mkHC (session_ctx Background 9 77 RoleUser) None) = None.
Proof. vm_compute. reflexivity. Qed.
End witness.
