(* ===== verification/ContactRules.v ===== *)
(** * Changes of contact methods and notification rules: who may make them

    [executioncontext/cmnr_authority.go], [cmnr_transaction.go],
    [user/contactmethod/cmnr_guard.go] and the deletion of contact methods, and the
    creation and deletion of notification rules in [user/notificationrule].  Each
    checks the evidence of the request, locks what it is going to change, and
    checks every owner against the tables of organizations before it changes
    anything.  The other columns of a contact method, and the other tables whose rows
    go with it, are not here.  The definitions come first, then that what changes is
    authorized. *)

From Stdlib Require Import Ascii String.
From S2P Require Import Prelude Text Effects Unicode Validate Permission AlertData AlertDB Heartbeat Session SessionSpec Organization OrganizationSpec ExecutionContext.

Local Open Scope string_scope.
Local Open Scope Z_scope.

(** ** Tables *)

(** [user_notification_rules] *)
Record ContactRuleRow := mkRuleRow { rr_user : UUID; rr_delay : Z; rr_cm : UUID }.

(** The owners of [user_contact_methods], the rules, the tables of organizations and
    users, and the limit [notification_rules_per_user] *)
Record CTables := mkCTables { ct_cms : gmap UUID UUID; ct_rules : gmap UUID ContactRuleRow; ct_org : OTables; ct_limit : option Z }.
Record CWorld := mkCW { cw_tbl : CTables; cw_calls : nat }.

Inductive CErr := CDenied (d : Denied) | CInvalid (e : VErr) | CDB (e : DBError).

(** [NotificationRule]; a rule that is to be created has its id from the store. *)
Record NotificationRule := mkNR { nr_UserID : string; nr_DelayMinutes : Z; nr_ContactMethodID : UUID }.

(** [CMNRMutationAuthority]; the zero value grants nothing. *)
Record CMNRMutationAuthority := mkAuthority { au_valid : bool; au_system : bool; au_owner : UUID; au_home : UUID; au_platformAdmin : bool }.

(** What a caller passes as the database; a pointer may be nil. *)
Inductive DBTX := OnTx (there : bool) | OnDB (there : bool) | OnConn (there : bool) | OtherDBTX.

(** [slices.Compact] *)
Fixpoint Compact (l : list UUID) : list UUID :=
  match l with
  | [] => []
  | x :: l => match Compact l with y :: l' => if x =? y then y :: l' else x :: y :: l' | [] => [x] end
  end.

Section ContactRules.
Context {HU : Unicode} {HT : UUIDText} {HR : GoMapRange}.
Context (db_err : nat -> option DBError) (commit_lost : nat -> bool).

Local Notation M := (Effects.M CWorld CErr).

Definition denied {A} : M A := fail (CDenied (NewAccessDenied "")).
Definition permit_or {A} (r : A + Denied) : M A := match r with inl a => ret a | inr d => fail (CDenied d) end.
Definition valid_or {A} (r : A + VErr) : M A := match r with inl a => ret a | inr e => fail (CInvalid e) end.

Definition cw_tick (w : CWorld) : CWorld := mkCW (cw_tbl w) (S (cw_calls w)).

(** A statement *)
Definition cstmt {A} (f : CTables -> A * CTables + DBError) : M A := fun w =>
  match db_err (cw_calls w) with
  | Some e => (Err (CDB e), cw_tick w)
  | None =>
      match f (cw_tbl w) with
      | inl (a, t) => (Ok a, cw_tick (mkCW t (cw_calls w)))
      | inr e => (Err (CDB e), cw_tick w)
      end
  end.

Definition cread {A} (f : CTables -> A) : M A := cstmt (fun t => inl (f t, t)).

(** ** Evidence: [cmnr_authority.go] *)

(** The conditions on the values that the request carries *)
Definition human_evidence (p : Ctx) (owner : UUID) (r : Requester) (v : ExecutionContext) (s : SourceInfo) : bool :=
  let value := Some v in
  String.eqb (PrincipalKind value) PrincipalKindHuman && String.eqb (AuthorityMode value) AuthorityModeOrganizationScoped &&
  (rq_user r =? owner) && String.eqb (PrincipalID value) (uuid_String owner) && String.eqb (ActualActorID value) (uuid_String owner) &&
  bool_decide (src_type s = SourceTypeAuthProvider) && String.eqb (src_id s) (uuid_String (rq_session r)) &&
  String.eqb (source_Type (AuthSource value)) (SourceType_String (src_type s)) && String.eqb (source_ID (AuthSource value)) (src_id s) &&
  eqb (PlatformAdmin (Privileges value)) (Admin p).

Definition CheckCMNRMutationAuthority (c : HCtx) : CMNRMutationAuthority + Denied :=
  let p := hc_perm c in
  let no := inr (NewAccessDenied "") in
  match LimitCheckAny p [Some User] with
  | Some d => inr d
  | None =>
      if System p then inl (mkAuthority true true uuid_Nil uuid_Nil false)
      else match uuid_Parse (UserID p) with
           | None => no
           | Some owner =>
               if owner =? uuid_Nil then no
               else match RequesterFromContext (hc_req c), ExecutionContextFromContext c, Permission.Source p with
                    | None, None, None => inl (mkAuthority true false owner uuid_Nil false)
                    | Some r, Some v, Some s =>
                        if negb (human_evidence p owner r v s) then no
                        else match EffectiveOrganizationID (Some v) with
                             | Some home =>
                                 if EligibleForOrganizationBusinessScope (Some v) home
                                 then inl (mkAuthority true false owner home (PlatformAdmin (Privileges (Some v))))
                                 else no
                             | None => no
                             end
                    | _, _, _ => no
                    end
           end
  end.

(** The organization of a locked owner *)
Definition current_org (t : OTables) (owner : UUID) : option UUID := (fun x => x.1.2) <$> operational t owner.

(** [AuthorizeUser] on the transaction *)
Definition AuthorizeUser (a : CMNRMutationAuthority) (owner : UUID) : M unit :=
  if negb (au_valid a) || (owner =? uuid_Nil) || (negb (au_system a) && negb (au_platformAdmin a) && negb (au_owner a =? owner)) then denied
  else if au_system a then
    let! found := cread (fun t => is_some (ot_users (ct_org t) !! owner)) in
    if found : bool then ret tt else denied
  else
    let! locked := cread (fun t => is_some (ot_users (ct_org t) !! owner) && is_some (ot_assigns (ct_org t) !! owner)) in
    if negb locked then denied
    else
      let! org := cread (fun t => current_org (ct_org t) owner) in
      match org with
      | None => denied
      | Some organizationID =>
          if negb (au_platformAdmin a) && negb (au_home a =? uuid_Nil) && negb (au_home a =? organizationID) then denied else ret tt
      end.

(** ** [cmnr_transaction.go] *)

(** A transaction of its own: what an error leaves is as it was before. *)
Definition own_tx {A} (operation : M A) : M A := fun w =>
  match db_err (cw_calls w) with
  | Some e => (Err (CDB e), cw_tick w)
  | None =>
      match operation (cw_tick w) with
      | (Ok a, w') =>
          match db_err (cw_calls w') with
          | Some e => (Err (CDB e), mkCW (cw_tbl (if commit_lost (cw_calls w') then w' else w)) (S (cw_calls w')))
          | None => (Ok a, cw_tick w')
          end
      | (Err e, w') => (Err e, mkCW (cw_tbl w) (cw_calls w'))
      | (Panic, w') => (Panic, mkCW (cw_tbl w) (cw_calls w'))
      end
  end.

Definition WithCMNRTransaction {A} (db : DBTX) (operation : M A) : M A :=
  match db with
  | OnTx true => operation
  | OnDB true | OnConn true => own_tx operation
  | _ => denied
  end.

(** ** [cmnr_guard.go] *)

Definition LockCMNRContactMethods (ids : list UUID) : M (gmap UUID UUID) :=
  cread (fun t => filter (fun p => p.1 ∈ ids) (ct_cms t)).

Definition AuthorizeCMNROwners (a : CMNRMutationAuthority) (cms : gmap UUID UUID) : M unit :=
  each (AuthorizeUser a) (Compact (merge_sort Z.le (map snd (map_range cms)))).

(** [cms[cm]]: of a key that is missing it is the nil UUID. *)
Definition owner_in (cms : gmap UUID UUID) (cm : UUID) : UUID := default uuid_Nil (cms !! cm).

(** Rules that a condition selects; the statements order them by id, which no result
    depends on. *)
Definition rules_where (f : UUID * ContactRuleRow -> bool) (t : CTables) : list (UUID * ContactRuleRow) := List.filter f (map_range (ct_rules t)).

Definition without_cms (ids : list UUID) (t : CTables) : CTables :=
  mkCTables (filter (fun p => p.1 ∉ ids) (ct_cms t))
    (filter (fun p => ~ (rr_cm p.2 ∈ ids /\ is_Some (ct_cms t !! rr_cm p.2))) (ct_rules t)) (ct_org t) (ct_limit t).

(** [deleteCMNRTargets] of contact methods; their rules go with them. *)
Definition delete_cms (a : CMNRMutationAuthority) (ids : list UUID) : M unit :=
  let! cms := LockCMNRContactMethods ids in
  let lockedIDs := map fst (map_range cms) in
  let! rules := cread (rules_where (fun p => bool_decide (rr_cm p.2 ∈ lockedIDs))) in
  if existsb (fun p => negb (owner_in cms (rr_cm p.2) =? rr_user p.2)) rules then denied
  else
    AuthorizeCMNROwners a cms ;;;
    cstmt (fun t => inl (tt, without_cms lockedIDs t)).

(** [contactmethod.Store.Delete] *)
Definition DeleteContactMethods (c : HCtx) (db : DBTX) (ids : list string) : M unit :=
  let! authority := permit_or (CheckCMNRMutationAuthority c) in
  match ids with
  | [] => ret tt
  | _ =>
      let! uids := valid_or (ParseManyUUID "ContactMethodID" ids 50) in
      WithCMNRTransaction db (delete_cms authority uids)
  end.

(** ** [notificationrule.go], [store.go] *)

Definition validateDelay (d : Z) : option VErr := Range "DelayMinutes" d 0 9000.

(** [Normalize(false)] *)
Definition NR_Normalize (n : NotificationRule) : NotificationRule + VErr :=
  match Many [validateDelay (nr_DelayMinutes n); ValidUUID "UserID" (nr_UserID n)] with
  | Some e => inr e
  | None => inl n
  end.

Definition check_refuses {A} (code constraint : string) : A + DBError := inr (Pg (mkPg code constraint "public" "user_notification_rules" "")).

(** The insert: the trigger that the owner is that of the contact method, the keys,
    then the limit and the foreign keys *)
Definition insert_rule (id : UUID) (r : ContactRuleRow) (t : CTables) : unit * CTables + DBError :=
  let t' := mkCTables (ct_cms t) (<[id := r]> (ct_rules t)) (ct_org t) (ct_limit t) in
  let cm := ct_cms t !! rr_cm r in
  if match cm with Some owner => negb (rr_user r =? owner) | None => false end then inr (Pg (mkPg "23514" "notification_rule_user_id_match" "" "" ""))
  else if is_some (ct_rules t !! id) then check_refuses "23505" "user_notification_rules_pkey"
  else if existsb (fun p => (rr_cm p.2 =? rr_cm r) && (rr_delay p.2 =? rr_delay r)) (map_range (ct_rules t)) then
    check_refuses "23505" "user_notification_rules_contact_method_id_delay_minutes_key"
  else if negb (is_some cm) then check_refuses "23503" "user_notification_rules_contact_method_id_fkey"
  else if negb (is_some (ot_users (ct_org t) !! rr_user r)) then check_refuses "23503" "user_notification_rules_user_id_fkey"
  else if match ct_limit t with Some max => negb (max =? -1) && (max <? Z.of_nat (length (rules_where (fun p => rr_user p.2 =? rr_user r) t'))) | None => false end
  then inr (Pg (mkPg "23514" "notification_rules_per_user_limit" "" "" ""))
  else inl (tt, t').

(** [MustParse] cannot panic on what [Normalize] has accepted. *)
Definition create_rule (a : CMNRMutationAuthority) (id : UUID) (n : NotificationRule) : M unit :=
  let! cms := LockCMNRContactMethods [nr_ContactMethodID n] in
  let! owner := need (uuid_Parse (nr_UserID n)) in
  if (owner =? uuid_Nil) || negb (owner_in cms (nr_ContactMethodID n) =? owner) then denied
  else
    AuthorizeUser a owner ;;;
    cstmt (insert_rule id (mkRuleRow owner (nr_DelayMinutes n) (nr_ContactMethodID n))).

(** [CreateTx] with the id that [uuid.New] gives; without a transaction it uses the
    database of the store. *)
Definition CreateTx (c : HCtx) (tx : bool) (id : UUID) (n : option NotificationRule) : M NotificationRule :=
  let! authority := permit_or (CheckCMNRMutationAuthority c) in
  match n with
  | None => denied
  | Some n =>
      let! n := valid_or (NR_Normalize n) in
      WithCMNRTransaction (if tx then OnTx true else OnDB true) (create_rule authority id n) ;;;
      ret n
  end.

(** The locked contact methods of the rules, with the owners of the rules; [None]
    where one is not its owner's *)
Fixpoint rule_owners (cms : gmap UUID UUID) (rules : list (UUID * ContactRuleRow)) (owners : gmap UUID UUID) : option (gmap UUID UUID) :=
  match rules with
  | [] => Some owners
  | (_, r) :: rules =>
      if (rr_user r =? uuid_Nil) || negb (owner_in cms (rr_cm r) =? rr_user r) then None
      else rule_owners cms rules (<[rr_cm r := rr_user r]> owners)
  end.

(** [deleteCMNRTargets] of rules *)
Definition delete_rules (a : CMNRMutationAuthority) (ids : list UUID) : M unit :=
  let! cmIDs := cread (fun t => map (fun p => rr_cm p.2) (rules_where (fun p => bool_decide (p.1 ∈ ids)) t)) in
  let! cms := LockCMNRContactMethods cmIDs in
  let! rules := cread (rules_where (fun p => bool_decide (p.1 ∈ ids))) in
  match rule_owners cms rules ∅ with
  | None => denied
  | Some owners =>
      AuthorizeCMNROwners a owners ;;;
      cstmt (fun t => inl (tt, mkCTables (ct_cms t) (filter (fun p => p.1 ∉ map fst rules) (ct_rules t)) (ct_org t) (ct_limit t)))
  end.

Definition DeleteTx (c : HCtx) (tx : bool) (ids : list string) : M unit :=
  let! authority := permit_or (CheckCMNRMutationAuthority c) in
  match ids with
  | [] => ret tt
  | _ =>
      let! uids := valid_or (ParseManyUUID "NotificationRuleID" ids 50) in
      WithCMNRTransaction (if tx then OnTx true else OnDB true) (delete_rules authority uids)
  end.
End ContactRules.

(** ** Changes are authorized

    Whatever is requested and whatever fails, a contact method or a rule changes
    only if its owner is one for whom the request has evidence, by the tables as they
    are when it changes. *)

#[local] Arguments any_of : simpl never.

(** ** For whom evidence holds *)

Definition allowed (a : CMNRMutationAuthority) (t : OTables) (owner : UUID) : bool :=
  au_valid a && negb (owner =? uuid_Nil) &&
  (if au_system a then is_some (ot_users t !! owner)
   else match current_org t owner with
        | Some org => au_platformAdmin a || ((au_owner a =? owner) && ((au_home a =? uuid_Nil) || (au_home a =? org)))
        | None => false
        end).

Lemma current_org_there t owner org : current_org t owner = Some org -> is_some (ot_users t !! owner) && is_some (ot_assigns t !! owner) = true.
Proof.
  unfold current_org, operational. destruct (ot_users t !! owner); [|done]. by destruct (ot_assigns t !! owner).
Qed.

Lemma elem_of_Compact x l : x ∈ Compact l <-> x ∈ l.
Proof.
  induction l as [|y l IH]; [done|]. cbn. rewrite elem_of_cons, <- IH. destruct (Compact l) as [|z l']; [set_solver|].
  destruct (Z.eqb_spec y z) as [->|]; set_solver.
Qed.

Section Spec.
Context {HU : Unicode} {HT : UUIDText} {HR : GoMapRange}.
Context (db_err : nat -> option DBError) (commit_lost : nat -> bool).

Local Notation M := (Effects.M CWorld CErr).

(** What does not change the tables *)
Definition only_reads {A} (m : M A) : Prop := forall w, cw_tbl (m w).2 = cw_tbl w.

Lemma only_reads_ret {A} (a : A) : only_reads (ret a).
Proof. done. Qed.
Lemma only_reads_fail {A} e : only_reads (fail (A := A) e).
Proof. done. Qed.
Lemma only_reads_cread {A} (f : CTables -> A) : only_reads (cread db_err f).
Proof. intros w. unfold cread, cstmt. by destruct (db_err _). Qed.
Lemma only_reads_bind {A B} (m : M A) (k : A -> M B) : only_reads m -> (forall a, only_reads (k a)) -> only_reads (bind m k).
Proof. intros Hm Hk w. unfold bind. specialize (Hm w). destruct (m w) as [[a|e|] w1]; cbn in *; [|done..]. by rewrite Hk. Qed.
Lemma only_reads_each {A} (f : A -> M unit) l : (forall a, only_reads (f a)) -> only_reads (each f l).
Proof. intros Hf. induction l; cbn; [apply only_reads_ret|]. by apply only_reads_bind. Qed.
Lemma only_reads_if {A} (b : bool) (m n : M A) : only_reads m -> only_reads n -> only_reads (if b then m else n).
Proof. by destruct b. Qed.
#[local] Hint Resolve only_reads_ret only_reads_fail only_reads_cread only_reads_if : core.

Lemma only_reads_AuthorizeUser a owner : only_reads (AuthorizeUser db_err a owner).
Proof.
  unfold AuthorizeUser, denied. apply only_reads_if; [done|]. apply only_reads_if; (apply only_reads_bind; [apply only_reads_cread|intros b]); [by destruct b|].
  apply only_reads_if; [done|]. apply only_reads_bind; [apply only_reads_cread|]. intros [org|]; [|done]. by apply only_reads_if.
Qed.

Lemma only_reads_run {A} (m : M A) w r w' : only_reads m -> m w = (r, w') -> cw_tbl w' = cw_tbl w.
Proof. intros Hm E. rewrite <- (Hm w). by rewrite E. Qed.

Lemma cread_inv {A} (f : CTables -> A) w a w' : cread db_err f w = (Ok a, w') -> a = f (cw_tbl w) /\ cw_tbl w' = cw_tbl w.
Proof. unfold cread, cstmt. destruct (db_err _); [done|]. by intros [= <- <-]. Qed.

Lemma AuthorizeUser_sound a owner w w' : AuthorizeUser db_err a owner w = (Ok tt, w') -> allowed a (ct_org (cw_tbl w)) owner = true.
Proof.
  unfold AuthorizeUser, denied, allowed. destruct (au_valid a); [|done]. destruct (owner =? uuid_Nil); [done|]. cbn [negb orb andb].
  destruct (au_system a); cbn [negb andb].
  - intros E. apply bind_inv in E as (b & w1 & E & Eb). apply cread_inv in E as [-> _]. by destruct (is_some _).
  - destruct (_ && _) eqn:Eo; [done|]. intros E. apply bind_inv in E as (b & w1 & E & Eb). apply cread_inv in E as [_ Ht].
    destruct (negb b); [done|]. apply bind_inv in Eb as (o & w2 & E & Eb). apply cread_inv in E as [-> _]. rewrite Ht in Eb.
    destruct (current_org _ _) as [org|]; [|done]. destruct (au_platformAdmin a); [done|]. cbn in *. apply negb_false_iff in Eo. rewrite Eo.
    destruct (au_home a =? uuid_Nil); [done|]. cbn in *. by destruct (au_home a =? org).
Qed.

Lemma each_sound a l : forall w w', each (AuthorizeUser db_err a) l w = (Ok tt, w') ->
  cw_tbl w' = cw_tbl w /\ forall owner, owner ∈ l -> allowed a (ct_org (cw_tbl w)) owner = true.
Proof.
  induction l as [|x l IH]; cbn; intros w w' E; [injection E as <-; split; [done|]; intros o Ho; by apply elem_of_nil in Ho|].
  apply bind_inv in E as ([] & w1 & E & El). pose proof (AuthorizeUser_sound _ _ _ _ E) as HA.
  pose proof (only_reads_run _ _ _ _ (only_reads_AuthorizeUser a x) E) as Ht. apply IH in El as [Ht' Hl]. rewrite Ht in *. split; [done|].
  intros o [->|Ho]%elem_of_cons; [done|by apply Hl].
Qed.

Lemma AuthorizeCMNROwners_sound a cms w w' : AuthorizeCMNROwners db_err a cms w = (Ok tt, w') ->
  cw_tbl w' = cw_tbl w /\ forall cm owner, cms !! cm = Some owner -> allowed a (ct_org (cw_tbl w)) owner = true.
Proof.
  intros E. apply each_sound in E as [Ht HA]. split; [done|]. intros cm owner Hc. apply HA. rewrite elem_of_Compact, merge_sort_Permutation.
  apply list_elem_of_fmap. exists (cm, owner). split; [done|]. by apply map_range_elem.
Qed.

(** ** What changes *)

Record authorized_change (a : CMNRMutationAuthority) (t t' : CTables) : Prop := {
  ac_org : ct_org t' = ct_org t;
  ac_limit : ct_limit t' = ct_limit t;
  ac_cms cm : ct_cms t' !! cm = ct_cms t !! cm \/
    (exists owner, ct_cms t !! cm = Some owner /\ ct_cms t' !! cm = None /\ allowed a (ct_org t) owner = true);
  ac_rules id : ct_rules t' !! id = ct_rules t !! id \/
    (exists r, ct_rules t !! id = Some r /\ ct_rules t' !! id = None /\ allowed a (ct_org t) (rr_user r) = true) \/
    (exists r, ct_rules t !! id = None /\ ct_rules t' !! id = Some r /\ ct_cms t !! rr_cm r = Some (rr_user r) /\
       allowed a (ct_org t) (rr_user r) = true)
}.

Lemma change_refl a t : authorized_change a t t.
Proof. split; auto. Qed.

(** On tables [t], a body changes what it may, whether it succeeds or not. *)
Definition authorized {A} (a : CMNRMutationAuthority) (t : CTables) (m : M A) : Prop :=
  forall w, cw_tbl w = t -> authorized_change a t (cw_tbl (m w).2).

Lemma authorized_reads {A} a t (m : M A) : only_reads m -> authorized a t m.
Proof. intros Hm w <-. rewrite Hm. apply change_refl. Qed.

Lemma authorized_own_tx {A} a t (m : M A) : authorized a t m -> authorized a t (own_tx db_err commit_lost m).
Proof.
  intros Hm w <-. unfold own_tx. destruct (db_err _); [apply change_refl|]. specialize (Hm (cw_tick w) eq_refl).
  destruct (m _) as [[x|e|] w1]; [|apply change_refl..]. destruct (db_err _); [|done]. cbn. destruct (commit_lost _); [done|apply change_refl].
Qed.

Lemma authorized_tx {A} a t db (m : M A) : authorized a t m -> authorized a t (WithCMNRTransaction db_err commit_lost db m).
Proof.
  intros Hm. destruct db as [[]|[]|[]|]; cbn; try (by apply authorized_reads); [done|by apply authorized_own_tx..].
Qed.

(** After a part that only reads *)
Lemma authorized_bind {A B} a t (m : M A) (k : A -> M B) : only_reads m ->
  (forall w x w1, cw_tbl w = t -> m w = (Ok x, w1) -> authorized a t (k x)) -> authorized a t (bind m k).
Proof.
  intros Hm Hk w <-. unfold bind. destruct (m w) as [r w1] eqn:E. pose proof (only_reads_run _ _ _ _ Hm E) as Ht.
  destruct r as [x|e|]; cbn [snd]; [|rewrite Ht; apply change_refl..]. exact (Hk w x w1 eq_refl E w1 Ht).
Qed.

Lemma authorized_cread {A B} a t (f : CTables -> A) (k : A -> M B) : authorized a t (k (f t)) -> authorized a t (bind (cread db_err f) k).
Proof. intros Hk. apply authorized_bind; [apply only_reads_cread|]. intros w x w1 <- E. by apply cread_inv in E as [-> _]. Qed.

Lemma authorized_owners {B} a t cms (k : M B) : ((forall cm owner, cms !! cm = Some owner -> allowed a (ct_org t) owner = true) -> authorized a t k) ->
  authorized a t (AuthorizeCMNROwners db_err a cms ;;; k).
Proof.
  intros Hk. apply authorized_bind; [apply only_reads_each; intros x; apply only_reads_AuthorizeUser|]. intros w [] w1 <- E.
  apply AuthorizeCMNROwners_sound in E as [_ HA]. by apply Hk.
Qed.

Lemma authorized_cstmt {A} a t (f : CTables -> A * CTables + DBError) :
  (forall x t', f t = inl (x, t') -> authorized_change a t t') -> authorized a t (cstmt db_err f).
Proof.
  intros Hf w <-. unfold cstmt. destruct (db_err _); [apply change_refl|]. destruct (f (cw_tbl w)) as [[x t]|e]; [by eapply Hf|apply change_refl].
Qed.

Lemma filter_cases {A} (P : UUID * A -> Prop) `{!forall x, Decision (P x)} (m : gmap UUID A) id :
  filter P m !! id = m !! id \/ exists r, m !! id = Some r /\ filter P m !! id = None /\ ~ P (id, r).
Proof.
  destruct (m !! id) as [r|] eqn:E; [|left; apply map_lookup_filter_None; by left].
  destruct (decide (P (id, r))); [left; by apply map_lookup_filter_Some_2|right]. exists r. split_and!; [done| |done].
  apply map_lookup_filter_None. right. intros x Hx. by assert (x = r) as -> by congruence.
Qed.

Lemma locked_elem (ids : list UUID) (m : gmap UUID UUID) cm : cm ∈ map fst (map_range (filter (fun p => p.1 ∈ ids) m)) <-> cm ∈ ids /\ is_Some (m !! cm).
Proof.
  rewrite list_elem_of_fmap. split.
  - intros ([c o] & -> & Hin). apply map_range_elem, map_lookup_filter_Some in Hin as [Hm Hi]. split; [done|by exists o].
  - intros [Hi [o Ho]]. exists (cm, o). split; [done|]. apply map_range_elem. by apply map_lookup_filter_Some_2.
Qed.

Lemma rules_where_elem f t id r : (id, r) ∈ rules_where f t <-> ct_rules t !! id = Some r /\ f (id, r) = true.
Proof. unfold rules_where. rewrite elem_of_filter_bool, map_range_elem. tauto. Qed.

Lemma delete_cms_authorized a t ids : authorized a t (delete_cms db_err a ids).
Proof.
  unfold delete_cms, LockCMNRContactMethods. apply authorized_cread, authorized_cread. set (cms := filter _ (ct_cms t)). set (locked := map fst (map_range cms)).
  destruct (existsb _ _) eqn:EX; [by apply authorized_reads|]. apply authorized_owners. intros HA. apply authorized_cstmt. intros [] t' [= <-].
  assert (forall cm owner, cm ∈ locked -> ct_cms t !! cm = Some owner -> cms !! cm = Some owner) as Hlock.
  { intros cm owner Hc Ho. apply locked_elem in Hc as [Hi _]. by apply map_lookup_filter_Some_2. }
  split; [done..| |].
  - intros cm. cbn. destruct (filter_cases (fun p => p.1 ∉ locked) (ct_cms t) cm) as [->|(owner & Ho & Hn & HP)]; [by left|right].
    exists owner. split_and!; [done..|]. eapply HA, Hlock; [|done]. cbn in HP. by apply dec_stable in HP.
  - intros id. cbn. destruct (filter_cases (fun p => ~ (rr_cm p.2 ∈ locked /\ is_Some (ct_cms t !! rr_cm p.2))) (ct_rules t) id)
      as [->|(r & Hr & Hn & HP)]; [by left|right; left]. exists r. split_and!; [done..|]. apply dec_stable in HP as [Hl [owner Ho]]. cbn in Hl, Ho.
    pose proof (Hlock _ _ Hl Ho) as Hc. pose proof (existsb_none _ _ EX (id, r)) as HE. cbn in HE. unfold owner_in in HE. rewrite Hc in HE.
    assert (owner = rr_user r) as <-; [|by eapply HA]. apply Z.eqb_eq, negb_false_iff, HE. apply rules_where_elem. split; [done|]. by apply bool_decide_eq_true.
Qed.

Lemma insert_rule_inv id r t u t' : insert_rule id r t = inl (u, t') -> t' = mkCTables (ct_cms t) (<[id := r]> (ct_rules t)) (ct_org t) (ct_limit t) /\
  ct_rules t !! id = None /\ ct_cms t !! rr_cm r = Some (rr_user r).
Proof.
  unfold insert_rule, check_refuses. destruct (ct_cms t !! rr_cm r) as [o|]; cbn.
  - destruct (rr_user r =? o) eqn:Eo; [|done]. apply Z.eqb_eq in Eo as ->. cbn. destruct (is_some _) eqn:Es; [done|].
    destruct (existsb _ _); [done|]. destruct (negb _); [done|]. destruct (match ct_limit t with Some _ => _ | None => _ end); [done|].
    intros [= _ <-]. split_and!; [done| |done]. by apply not_some.
  - destruct (is_some _); [done|]. by destruct (existsb _ _).
Qed.

Lemma create_rule_authorized a t id n : authorized a t (create_rule db_err a id n).
Proof.
  unfold create_rule, LockCMNRContactMethods. apply authorized_cread. destruct (uuid_Parse (nr_UserID n)) as [owner|]; cbn [need]; [|by apply authorized_reads].
  apply authorized_bind; [done|]. intros w0 o w2 _ [= <- _]. destruct (_ || _); [by apply authorized_reads|].
  apply authorized_bind; [apply only_reads_AuthorizeUser|]. intros w [] w1 Hw E. apply AuthorizeUser_sound in E. rewrite Hw in E. apply authorized_cstmt.
  intros u t' Hi. apply insert_rule_inv in Hi as (-> & Hn & Hc). split; [done..|by left|]. intros i. cbn.
  destruct (decide (i = id)) as [->|]; [|left; by apply lookup_insert_ne]. right; right. eexists. rewrite lookup_insert_eq. split_and!; done.
Qed.

Lemma rule_owners_inv cms rules : forall owners0 owners, rule_owners cms rules owners0 = Some owners ->
  (forall cm o, owners0 !! cm = Some o -> owners0 !! cm = cms !! cm) ->
  (forall cm o, owners !! cm = Some o -> owners !! cm = cms !! cm) /\
  (forall id r, (id, r) ∈ rules -> cms !! rr_cm r = Some (rr_user r) /\ owners !! rr_cm r = Some (rr_user r)) /\
  (forall cm o, owners0 !! cm = Some o -> owners !! cm = Some o).
Proof.
  induction rules as [|[i r] rules IH]; cbn; intros owners0 owners; [intros [= <-] H0; split_and!; [done| |done]; intros id r Hr; by apply elem_of_nil in Hr|].
  destruct (_ || _) eqn:Eo; [done|]. apply orb_false_iff in Eo as [Hn Eo]. apply negb_false_iff, Z.eqb_eq in Eo. apply Z.eqb_neq in Hn.
  intros E H0. assert (cms !! rr_cm r = Some (rr_user r)) as Hc.
  { unfold owner_in in Eo. destruct (cms !! rr_cm r); cbn in Eo; congruence. }
  destruct (IH _ _ E) as (I1 & I2 & I3).
  { intros cm o. destruct (decide (cm = rr_cm r)) as [->|Hne]; [by rewrite lookup_insert_eq|rewrite lookup_insert_ne by done; apply H0]. }
  split_and!; [done| |].
  - intros id x [Hx|Hx]%elem_of_cons; [|by eapply I2]. injection Hx as -> ->. split; [done|]. apply I3, lookup_insert_eq.
  - intros cm o Ho. apply I3. destruct (decide (cm = rr_cm r)) as [->|Hne]; [|by rewrite lookup_insert_ne].
    rewrite lookup_insert_eq. specialize (H0 _ _ Ho). congruence.
Qed.

Lemma delete_rules_authorized a t ids : authorized a t (delete_rules db_err a ids).
Proof.
  unfold delete_rules, LockCMNRContactMethods. apply authorized_cread, authorized_cread, authorized_cread.
  destruct (rule_owners _ _ _) as [owners|] eqn:EO; [|by apply authorized_reads]. apply rule_owners_inv in EO as (_ & HO & _); [|done].
  apply authorized_owners. intros HA. apply authorized_cstmt. intros [] t' [= <-]. split; [done..|by left|]. intros id. cbn.
  destruct (filter_cases (fun p => p.1 ∉ map fst (rules_where (fun p => bool_decide (p.1 ∈ ids)) t)) (ct_rules t) id)
    as [->|(r & Hr & Hn & HP)]; [by left|right; left]. exists r. split_and!; [done..|]. apply dec_stable in HP. cbn in HP.
  apply list_elem_of_fmap in HP as ([i x] & -> & Hx). cbn in Hr. apply rules_where_elem in Hx as Hx'. destruct Hx' as [Hx' _].
  assert (x = r) as -> by congruence. by eapply HA, (HO _ _ Hx).
Qed.

(** A request to the two stores *)
Inductive CRequest :=
  | ReqDeleteCM (db : DBTX) (ids : list string)
  | ReqCreate (tx : bool) (id : UUID) (n : option NotificationRule)
  | ReqDelete (tx : bool) (ids : list string).

Definition handle (c : HCtx) (r : CRequest) (w : CWorld) : CWorld :=
  match r with
  | ReqDeleteCM db ids => (DeleteContactMethods db_err commit_lost c db ids w).2
  | ReqCreate tx id n => (CreateTx db_err commit_lost c tx id n w).2
  | ReqDelete tx ids => (DeleteTx db_err commit_lost c tx ids w).2
  end.

Lemma after_evidence {B} c (k : CMNRMutationAuthority -> M B) w :
  (forall a, CheckCMNRMutationAuthority c = inl a -> authorized a (cw_tbl w) (k a)) ->
  cw_tbl (bind (permit_or (CheckCMNRMutationAuthority c)) k w).2 = cw_tbl w \/
  exists a, CheckCMNRMutationAuthority c = inl a /\ authorized_change a (cw_tbl w) (cw_tbl (bind (permit_or (CheckCMNRMutationAuthority c)) k w).2).
Proof. intros Hk. destruct (CheckCMNRMutationAuthority c) as [a|d]; [right|by left]. exists a. split; [done|]. by apply Hk. Qed.

Lemma handle_authorized c r w :
  cw_tbl (handle c r w) = cw_tbl w \/
  exists a, CheckCMNRMutationAuthority c = inl a /\ authorized_change a (cw_tbl w) (cw_tbl (handle c r w)).
Proof.
  destruct r as [db ids|tx id n|tx ids]; apply after_evidence; intros a _.
  - destruct ids as [|i ids]; [by apply authorized_reads|]. destruct (ParseManyUUID _ _ _); [|by apply authorized_reads].
    apply authorized_tx, delete_cms_authorized.
  - destruct n as [n|]; [|by apply authorized_reads]. destruct (NR_Normalize n) as [n'|]; [|by apply authorized_reads].
    intros w1 <-. unfold bind at 1. cbn [valid_or ret]. unfold bind.
    pose proof (authorized_tx a (cw_tbl w1) (if tx then OnTx true else OnDB true) _ (create_rule_authorized a (cw_tbl w1) id n') w1 eq_refl) as HT'.
    by destruct (WithCMNRTransaction _ _ _ _ w1) as [[x|e|] w2].
  - destruct ids as [|i ids]; [by apply authorized_reads|]. destruct (ParseManyUUID _ _ _); [|by apply authorized_reads].
    apply authorized_tx, delete_rules_authorized.
Qed.

Definition handle_all (steps : list (HCtx * CRequest)) (w : CWorld) : CWorld := foldl (fun w s => handle s.1 s.2 w) w steps.

(** Some step has evidence for an owner. *)
Definition some_step_may (steps : list (HCtx * CRequest)) (t : OTables) (owner : UUID) : Prop :=
  exists c r a, (c, r) ∈ steps /\ CheckCMNRMutationAuthority c = inl a /\ allowed a t owner = true.

(** C10: whatever is requested, by whomever, and whatever fails: a contact method that
    is gone, a rule that is gone and a rule that is new are of an owner for whom one of
    the requests has evidence: it comes from the system, or the owner is in an
    organization and is the one who asks, or the one who asks is an administrator.  All
    else is as it was. *)
Theorem changes_are_authorized steps : forall w, let w' := handle_all steps w in
  (forall cm owner, ct_cms (cw_tbl w) !! cm = Some owner ->
     ct_cms (cw_tbl w') !! cm = Some owner \/ some_step_may steps (ct_org (cw_tbl w)) owner) /\
  (forall cm owner, ct_cms (cw_tbl w') !! cm = Some owner -> ct_cms (cw_tbl w) !! cm = Some owner) /\
  (forall i x, ct_rules (cw_tbl w) !! i = Some x ->
     ct_rules (cw_tbl w') !! i = Some x \/ some_step_may steps (ct_org (cw_tbl w)) (rr_user x)) /\
  (forall i x, ct_rules (cw_tbl w') !! i = Some x ->
     ct_rules (cw_tbl w) !! i = Some x \/ some_step_may steps (ct_org (cw_tbl w)) (rr_user x)) /\
  ct_org (cw_tbl w') = ct_org (cw_tbl w).
Proof.
  induction steps as [|[c r] steps IH]; intros w; cbv zeta; [by split_and!; auto|].
  change (handle_all ((c, r) :: steps) w) with (handle_all steps (handle c r w)). set (w1 := handle c r w).
  destruct (IH w1) as (I1 & I2 & I3 & I4 & I5).
  assert (forall o, some_step_may steps (ct_org (cw_tbl w)) o -> some_step_may ((c, r) :: steps) (ct_org (cw_tbl w)) o) as Hlater.
  { intros o (c' & r' & a & Hin & Hrest). exists c', r', a. split; [by right|done]. }
  pose proof (handle_authorized c r w) as HP. fold w1 in HP. clearbody w1. destruct HP as [Hs|(a & Ha & Hch)].
  { rewrite Hs in *. split_and!; [| | | |done].
    - intros cm o Hc. destruct (I1 cm o Hc); eauto.
    - done.
    - intros i x Hx. destruct (I3 i x Hx); eauto.
    - intros i x Hx. destruct (I4 i x Hx); eauto. }
  rewrite (ac_org _ _ _ Hch) in *.
  assert (forall o, allowed a (ct_org (cw_tbl w)) o = true -> some_step_may ((c, r) :: steps) (ct_org (cw_tbl w)) o) as Hnow.
  { intros o Ho. exists c, r, a. split; [by left|done]. }
  split_and!; [| | | |done].
  - intros cm o Hc. destruct (ac_cms _ _ _ Hch cm) as [E|(o' & Ho' & _ & HA)]; [rewrite <- E in Hc; destruct (I1 cm o Hc); eauto|].
    right. apply Hnow. congruence.
  - intros cm o Hc. apply I2 in Hc. destruct (ac_cms _ _ _ Hch cm) as [E|(o' & _ & E & _)]; congruence.
  - intros i x Hx. destruct (ac_rules _ _ _ Hch i) as [E|[(y & Hy & _ & HA)|(y & Hy & _)]]; [rewrite <- E in Hx; destruct (I3 i x Hx); eauto| |congruence].
    right. apply Hnow. congruence.
  - intros i x Hx. destruct (I4 i x Hx) as [Hx'|]; [|eauto].
    destruct (ac_rules _ _ _ Hch i) as [E|[(y & _ & Hy & _)|(y & _ & Hy & _ & HA)]]; [left; congruence|congruence|]. right. apply Hnow. congruence.
Qed.

(** ** Requests of a session *)

Lemma current_org_home aliases t owner : org_inv aliases t -> current_org t owner = co_org <$> home t owner.
Proof. intros HI. unfold current_org. rewrite (operational_home _ _ _ HI). by destruct (home t owner). Qed.

Lemma human_authority c r h : RequesterFromContext (hc_req c) = Some r -> ExecutionContextFromContext c = Some (human_context r h) ->
  corroborated (hc_perm c) r = true -> in_operation h -> co_user h = rq_user r -> is_uuid (rq_user r) ->
  LimitCheckAny (hc_perm c) [Some User] = None -> System (hc_perm c) = false ->
  Admin (hc_perm c) = (match co_user_role h with RoleAdmin => true | _ => false end) ->
  CheckCMNRMutationAuthority c = inl (mkAuthority true false (rq_user r) (co_org h) (Admin (hc_perm c))).
Proof.
  intros Hr Hv Hc HO Hh Hu HL HS HA. unfold CheckCMNRMutationAuthority. rewrite HL, HS, Hr, Hv.
  unfold corroborated in Hc. apply andb_true_iff in Hc as [Hid Hc]. apply String.eqb_eq in Hid. rewrite Hid, uuid_Parse_String by done.
  pose proof (RequesterFromContext_user _ _ Hr) as Hn. rewrite (proj2 (Z.eqb_neq _ _) Hn).
  destruct (Permission.Source (hc_perm c)) as [s|]; [|done]. apply andb_true_iff in Hc as [Ht Hs]. rewrite bool_decide_eq_true in Ht. apply String.eqb_eq in Hs.
  assert (human_evidence (hc_perm c) (rq_user r) r (human_context r h) s = true) as ->.
  { unfold human_evidence. cbn. rewrite Z.eqb_refl, Hh, !String.eqb_refl, Hs, Ht, !String.eqb_refl. cbn. rewrite bool_decide_eq_true_2 by done.
    rewrite <- HA. by destruct (Admin _). }
  cbn [negb EffectiveOrganizationID when_valid human_context ec_valid ec_hasOrganization ec_organization]. change (mkEC _ _ _ _ _ _ _ _ _) with (human_context r h).
  rewrite (eligible r h HO). cbn. by rewrite HA.
Qed.

(** A rule is of the owner of its contact method, as the trigger has it. *)
Definition rules_consistent (t : CTables) : Prop := forall id r, ct_rules t !! id = Some r -> ct_cms t !! rr_cm r = Some (rr_user r).

Context (Hdb : forall n, db_err n = None).

Lemma cread_run {A} (f : CTables -> A) w : cread db_err f w = (Ok (f (cw_tbl w)), cw_tick w).
Proof using Hdb. unfold cread, cstmt. rewrite Hdb. by destruct w. Qed.

Lemma AuthorizeUser_complete a owner w : allowed a (ct_org (cw_tbl w)) owner = true ->
  exists w', AuthorizeUser db_err a owner w = (Ok tt, w').
Proof using Hdb.
  unfold allowed, AuthorizeUser. destruct (au_valid a); [|done]. destruct (owner =? uuid_Nil); [done|]. cbn [negb orb andb].
  destruct (au_system a); cbn [negb andb].
  - intros HA. rewrite (bind_ok _ _ _ _ _ (cread_run _ w)), HA. by eexists.
  - intros HA. destruct (current_org (ct_org (cw_tbl w)) owner) as [org|] eqn:Eo; [|done].
    assert (negb (au_platformAdmin a) && negb (au_owner a =? owner) = false) as -> by (destruct (au_platformAdmin a), (au_owner a =? owner); done).
    rewrite (bind_ok _ _ _ _ _ (cread_run _ w)), (current_org_there _ _ _ Eo). cbn [negb].
    rewrite (bind_ok _ _ _ _ _ (cread_run _ _)). cbn [cw_tick cw_tbl]. rewrite Eo.
    assert (negb (au_platformAdmin a) && negb (au_home a =? uuid_Nil) && negb (au_home a =? org) = false) as ->; [|by eexists].
    destruct (au_platformAdmin a); [done|]. cbn in *. apply andb_true_iff in HA as [_ HA]. by destruct (au_home a =? uuid_Nil), (au_home a =? org).
Qed.

Lemma each_complete a l : forall w, (forall owner, owner ∈ l -> allowed a (ct_org (cw_tbl w)) owner = true) ->
  exists w', each (AuthorizeUser db_err a) l w = (Ok tt, w') /\ cw_tbl w' = cw_tbl w.
Proof using Hdb.
  induction l as [|x l IH]; cbn; intros w HA; [by exists w|]. destruct (AuthorizeUser_complete a x w) as [w1 E1]; [apply HA; left|].
  rewrite (bind_ok _ _ _ _ _ E1). pose proof (only_reads_run _ _ _ _ (only_reads_AuthorizeUser a x) E1) as Ht.
  destruct (IH w1) as (w' & E & Ht'); [rewrite Ht; intros o Ho; apply HA; by right|]. exists w'. split; [done|congruence].
Qed.

Lemma own_tx_run {A} (m : M A) x w w' : m (cw_tick w) = (Ok x, w') -> own_tx db_err commit_lost m w = (Ok x, cw_tick w').
Proof using Hdb. intros E. unfold own_tx. by rewrite !Hdb, E, Hdb. Qed.

(** Where the owners of all the contact methods are allowed, the contact methods and
    their rules are deleted. *)
Lemma delete_cms_complete a ids w : rules_consistent (cw_tbl w) ->
  (forall cm owner, cm ∈ ids -> ct_cms (cw_tbl w) !! cm = Some owner -> allowed a (ct_org (cw_tbl w)) owner = true) ->
  exists w' locked, delete_cms db_err a ids w = (Ok tt, w') /\ cw_tbl w' = without_cms locked (cw_tbl w) /\
    forall cm, cm ∈ locked <-> cm ∈ ids /\ is_Some (ct_cms (cw_tbl w) !! cm).
Proof using Hdb.
  intros HC HA. unfold delete_cms, LockCMNRContactMethods. rewrite (bind_ok _ _ _ _ _ (cread_run _ w)). set (cms := filter _ _).
  rewrite (bind_ok _ _ _ _ _ (cread_run _ _)). cbn [cw_tick cw_tbl]. set (locked := map fst (map_range cms)).
  destruct (existsb _ _) eqn:EX.
  { exfalso. apply existsb_exists in EX as ([id r] & Hin & HE). apply list_elem_of_In, rules_where_elem in Hin as [Hr Hl]. cbn in Hl, HE.
    rewrite bool_decide_eq_true in Hl. apply locked_elem in Hl as [Hl _]. unfold owner_in in HE.
    assert (cms !! rr_cm r = Some (rr_user r)) as Hcm by (apply map_lookup_filter_Some_2; [apply (HC _ _ Hr)|done]). rewrite Hcm in HE. cbn in HE. by rewrite Z.eqb_refl in HE. }
  unfold AuthorizeCMNROwners. edestruct (each_complete a (Compact (merge_sort Z.le (map snd (map_range cms))))) as (w1 & E1 & Ht).
  2:{ rewrite (bind_ok _ _ _ _ _ E1). unfold cstmt. rewrite Hdb. eexists _, locked. split; [done|]. cbn. rewrite Ht. split; [done|]. intros cm. apply locked_elem. }
  intros owner Ho. rewrite elem_of_Compact, merge_sort_Permutation in Ho. apply list_elem_of_fmap in Ho as ([cm o] & -> & Hin).
  apply map_range_elem, map_lookup_filter_Some in Hin as [Hm Hi]. by eapply HA.
Qed.

End Spec.

(** What an authority may touch is not of an owner for whom it does not hold. *)
Lemma untouched a t t' : authorized_change a t t' ->
  (forall cm owner, ct_cms t !! cm = Some owner -> allowed a (ct_org t) owner = false -> ct_cms t' !! cm = Some owner) /\
  (forall i x, ct_rules t !! i = Some x -> allowed a (ct_org t) (rr_user x) = false -> ct_rules t' !! i = Some x).
Proof.
  intros HC. split.
  - intros cm owner Hc Hn. destruct (ac_cms _ _ _ HC cm) as [->|(o & Ho & _ & HA)]; [done|]. assert (o = owner) as -> by congruence. congruence.
  - intros i x Hx Hn. destruct (ac_rules _ _ _ HC i) as [->|[(r & Hr & _ & HA)|(r & Hr & _)]]; [done| |congruence].
    assert (r = x) as -> by congruence. congruence.
Qed.

Lemma allowed_self `{Unicode} aliases t user h admin : org_inv aliases t -> home t user = Some h -> user <> uuid_Nil ->
  allowed (mkAuthority true false user (co_org h) admin) t user = true.
Proof.
  intros HI Hh Hn. unfold allowed. cbn. rewrite (proj2 (Z.eqb_neq _ _) Hn), (current_org_home _ _ _ HI), Hh. cbn.
  by rewrite !Z.eqb_refl, !orb_true_r.
Qed.

Lemma allowed_other t user org admin owner : admin = false -> owner <> user -> allowed (mkAuthority true false user org admin) t owner = false.
Proof.
  intros -> Ho. unfold allowed. cbn. rewrite (proj2 (Z.eqb_neq user owner)) by congruence. destruct (current_org t owner); cbn; by rewrite andb_false_r.
Qed.

Lemma session_authority `{Unicode} `{UUIDText} p user id h : is_uuid user -> user <> uuid_Nil -> id <> uuid_Nil -> System p = false ->
  (forall u, all_chars plain (uuid_String u) = true) -> in_operation h -> co_user h = user ->
  let c := mkHC (session_ctx p user id (co_user_role h)) (Some (human_context (mkRequester user id) h)) in
  CheckCMNRMutationAuthority c = inl (mkAuthority true false user (co_org h) (Admin (hc_perm c))).
Proof.
  intros Hu Hn Hid HS Hplain HO Hh c. assert (All (hc_perm c) = true) as HAll by done.
  assert (System (hc_perm c) = false) as HS' by (unfold c, hc_perm; exact HS).
  assert (k_role (hc_perm c) = Some (co_user_role h)) as Hk by done. assert (known_role (co_user_role h) = true) as Hkn by apply HO.
  apply (human_authority c (mkRequester user id) h); try done.
  - unfold c, RequesterFromContext, Requester_Valid. cbn. by rewrite (proj2 (Z.eqb_neq _ _) Hn), (proj2 (Z.eqb_neq _ _) Hid).
  - unfold corroborated, c, hc_perm, UserID, Permission.Source. cbn. by rewrite (plain_lower _ (Hplain _)), !String.eqb_refl.
  - assert (User (hc_perm c) = true) as HUs by (unfold User; rewrite HS', Hk; by destruct (co_user_role h)).
    unfold LimitCheckAny. rewrite HAll. cbn [negb existsb]. by rewrite HUs, bool_decide_eq_false_2.
  - unfold Admin. rewrite HS', Hk. by destruct (co_user_role h).
Qed.

(** C11: the session of a user who is in an organization, from the authentication on:
    its request to delete contact methods of the user is served where nothing fails,
    and they are gone with their rules; and unless the user is an administrator no
    request that it makes, whatever fails, touches a contact method or a rule of
    anybody else. *)
Theorem session_changes_own `{Unicode} `{UUIDText} `{GoMapRange}
  (Hplain : forall u, all_chars plain (uuid_String u) = true)
  db_err0 clock aliases p user id h inherited w0 w (Hu : is_uuid user /\ user <> uuid_Nil) (Hid : id <> uuid_Nil) (HS : System p = false)
  (HI : org_inv aliases (ct_org (cw_tbl w))) (Hw0 : ow_tbl w0 = ct_org (cw_tbl w)) (Hdb0 : db_err0 (ow_calls w0) = None)
  (Hh : home (ct_org (cw_tbl w)) user = Some h) (HC : rules_consistent (cw_tbl w)) :
  exists c w0', WrapHandler db_err0 clock false (mkHC (session_ctx p user id (co_user_role h)) inherited) w0 = (Ok c, w0') /\
    (forall commit_lost ids uids, ids <> [] -> ParseManyUUID "ContactMethodID" ids 50 = inl uids ->
       (forall cm, cm ∈ uids -> ct_cms (cw_tbl w) !! cm = Some user) ->
       exists w', DeleteContactMethods (fun _ => None) commit_lost c (OnDB true) ids w = (Ok tt, w') /\
         (forall cm, ct_cms (cw_tbl w') !! cm = if decide (cm ∈ uids) then None else ct_cms (cw_tbl w) !! cm) /\
         (forall i r, ct_rules (cw_tbl w') !! i = Some r <-> ct_rules (cw_tbl w) !! i = Some r /\ rr_cm r ∉ uids)) /\
    (co_user_role h <> RoleAdmin -> forall db_err commit_lost r,
       (forall cm owner, ct_cms (cw_tbl w) !! cm = Some owner -> owner <> user -> ct_cms (cw_tbl (handle db_err commit_lost c r w)) !! cm = Some owner) /\
       (forall i x, ct_rules (cw_tbl w) !! i = Some x -> rr_user x <> user -> ct_rules (cw_tbl (handle db_err commit_lost c r w)) !! i = Some x)).
Proof.
  destruct Hu as [Hui Hn]. pose proof (home_in_operation _ _ _ _ HI Hh) as [HO Hhu].
  pose proof (session_admitted Hplain _ p user id h (co_user_role h) inherited Hn Hid HS Hh eq_refl) as Ha.
  destruct (WrapHandler_admitted Hplain db_err0 clock aliases (mkHC (session_ctx p user id (co_user_role h)) inherited) w0
    (human_context (mkRequester user id) h)) as (w0' & HW & _); [by rewrite Hw0|done|by rewrite Hw0|]. eexists _, w0'. split; [exact HW|].
  set (c := mkHC _ _). assert (CheckCMNRMutationAuthority c = inl (mkAuthority true false user (co_org h) (Admin (hc_perm c)))) as HA.
  { apply (session_authority p user id h); done. }
  split.
  - intros commit_lost ids uids Hne Hp Hown.
    destruct (delete_cms_complete (fun _ => None) (fun _ => eq_refl) (mkAuthority true false user (co_org h) (Admin (hc_perm c))) uids (cw_tick w) HC)
      as (w' & locked & HD & Ht & Hk).
    { intros cm owner Hc Ho. cbn in Ho. rewrite (Hown _ Hc) in Ho. injection Ho as <-. by eapply allowed_self. }
    exists (cw_tick w'). split; [|split].
    + unfold DeleteContactMethods. rewrite HA. destruct ids as [|i ids]; [done|]. unfold permit_or. rewrite bind_ret, Hp. unfold valid_or. rewrite bind_ret. cbn [WithCMNRTransaction]. by apply own_tx_run.
    + intros cm. cbn. rewrite Ht. cbn. destruct (decide (cm ∈ uids)) as [Hi|Hi].
      * apply map_lookup_filter_None. right. intros x Hx. cbn. intros []. apply Hk. split; [done|by exists x].
      * destruct (ct_cms (cw_tbl w) !! cm) as [o|] eqn:Ec; [|apply map_lookup_filter_None; by left]. apply map_lookup_filter_Some_2; [done|]. cbn. rewrite Hk. tauto.
    + intros i r. cbn. rewrite Ht. cbn. rewrite map_lookup_filter_Some. cbn. split; intros [Hr HP]; (split; [done|]); specialize (HC _ _ Hr);
        [intros Hi; destruct HP|intros [Hi _]; apply HP]; rewrite Hk in *; cbn in *; rewrite HC in *; [|tauto]. split; [split|]; done.
  - intros Hna db_err commit_lost r. assert (forall owner, owner <> user -> allowed (mkAuthority true false user (co_org h) (Admin (hc_perm c))) (ct_org (cw_tbl w)) owner = false) as Hno.
    { intros owner Ho. apply allowed_other; [|done]. unfold c, hc_perm, session_ctx. cbn. unfold Admin. change (System _) with (System p). rewrite HS. cbn. by destruct (co_user_role h). }
    destruct (handle_authorized db_err commit_lost c r w) as [->|(a & Ea & Hch)]; [done|]. rewrite HA in Ea. injection Ea as <-.
    apply untouched in Hch as [U1 U2]. split; [intros cm owner Hc Ho; by apply U1; [|apply Hno]|intros i x Hx Ho; by apply U2; [|apply Hno]].
Qed.

Section witness.
#[local] Existing Instance ascii_unicode.
#[local] Existing Instance nibble_uuid.
#[local] Existing Instance ordered_map_range.

(** Contact methods 21 and 22 of user 7 and 23 of user 9, each with a rule *)
Definition sample_contacts : CTables :=
  mkCTables {[21 := 7; 22 := 7; 23 := 9]} {[31 := mkRuleRow 7 0 21; 32 := mkRuleRow 7 5 22; 33 := mkRuleRow 9 0 23]} sample_orgs (Some 20).
Definition sample_contacts_world : CWorld := mkCW sample_contacts 0.

Lemma sample_consistent : rules_consistent sample_contacts.
Proof.
  intros id r H. cbn in H. repeat first [apply lookup_insert_Some in H as [[_ <-]|[_ H]]; [reflexivity|] | apply lookup_singleton_Some in H as [_ <-]]; reflexivity.
Qed.

Lemma session_changes_own_witness : exists c w0', WrapHandler (fun _ => None) sample_clock false sample_request sample_orgs_world = (Ok c, w0') /\
  (exists w', DeleteContactMethods (fun _ => None) (fun _ => false) c (OnDB true) [uuid_String 21; uuid_String 22] sample_contacts_world = (Ok tt, w') /\
     ct_cms (cw_tbl w') !! 21 = None /\ ct_cms (cw_tbl w') !! 23 = Some 9) /\
  ct_cms (cw_tbl (handle (fun _ => None) (fun _ => false) c (ReqDeleteCM (OnDB true) [uuid_String 23]) sample_contacts_world)) !! 23 = Some 9.
Proof.
  destruct (session_changes_own nibble_plain (fun _ => None) sample_clock sample_aliases Background 7 77
    (mkCurrentOrg 7 RoleUser OpsID OrganizationRoleMember) (Some forged) sample_orgs_world sample_contacts_world) as (c & w0' & HW & HD & HB).
  - split; [split; vm_compute; [discriminate|reflexivity]|discriminate].
  - discriminate.
  - reflexivity.
  - apply sample_org_inv.
  - reflexivity.
  - reflexivity.
  - vm_compute. reflexivity.
  - apply sample_consistent.
  - exists c, w0'. split; [exact HW|]. split.
    + destruct (HD (fun _ => false) [uuid_String 21; uuid_String 22] [21; 22]) as (w' & HE & Hc & _); [discriminate|vm_compute; reflexivity| |].
      { intros cm Hcm. apply elem_of_cons in Hcm as [->|Hcm]; [reflexivity|]. apply list_elem_of_singleton in Hcm as ->. reflexivity. }
      exists w'. split; [exact HE|]. rewrite !Hc. split; vm_compute; reflexivity.
    + assert (HR : RoleUser <> RoleAdmin) by discriminate. apply (proj1 (HB HR _ _ _) 23 9); [reflexivity|discriminate].
Defined.

(** A session whose user is in no organization has no evidence, not even for contact
    methods that are not there. *)
Example missing_contact_method : exists w',
  DeleteContactMethods (fun _ => None) (fun _ => false) (mkHC (session_ctx Background 8 77 RoleUser) None) (OnDB true) [uuid_String 99] sample_contacts_world =
  (Err (CDenied (NewAccessDenied "")), w').
Proof. eexists. vm_compute. reflexivity. Qed.
End witness.
