(* ===== verification/StatusManager.v ===== *)
(** * Updates of the status of alerts: [engine/statusmgr]

    Who has been told of an alert is subscribed to its status.  Jobs look for
    subscriptions that do not know the current status, tell the subscriber, and
    remove subscriptions that are old or over.  The tables are those of the alert
    store, with the subscriptions, contact methods and messages. *)

From S2P Require Import Prelude Text Effects Database GoTime Escalation Unicode Validate Permission AlertDB AlertLog.

(** [alert_status_subscriptions]: of a contact method or a channel *)
Record Sub := mkSub {
  sub_alert : Z; sub_contact : option UUID; sub_channel : option UUID; sub_last : AlertStatus; sub_updated : Z
}.

(** [user_contact_methods] *)
Record Contact := mkContact { ct_user : UUID; ct_disabled : bool; ct_type : string }.

(** The rows of [outgoing_messages] of type [alert_status_update] *)
Record StatusMsg := mkStatusMsg {
  sm_id : UUID; sm_contact : option UUID; sm_channel : option UUID; sm_user : option UUID; sm_alert : Z; sm_log : Z
}.

Record STables := mkSTables {
  st_alerts : AlertDB.Tables;
  st_subs : gmap Z Sub;
  st_contacts : gmap UUID Contact;
  st_out : list StatusMsg;
  st_queue : list Z                (** jobs [status-manager-process-subscription] *)
}.

Definition set_subs (m : gmap Z Sub) (t : STables) : STables := mkSTables (st_alerts t) m (st_contacts t) (st_out t) (st_queue t).
Definition set_out (l : list StatusMsg) (t : STables) : STables := mkSTables (st_alerts t) (st_subs t) (st_contacts t) l (st_queue t).
Definition set_queue (l : list Z) (t : STables) : STables := mkSTables (st_alerts t) (st_subs t) (st_contacts t) (st_out t) l.

Inductive SMErr := SMDB (e : DBErr) | SMText (msg : string).

(** [smw_tbl] is what is committed, [smw_view] what the transaction sees. *)
Record SMWorld := mkSMW { smw_tbl : STables; smw_view : STables; smw_calls : nat }.

Section StatusManager.
Context {HR : GoMapRange}.
Context (db_err : nat -> option DBErr) (adv_lock : nat -> bool) (clock : nat -> Z) (commit_lost : nat -> bool).
(** What others have committed when a row lock is got *)
Context (others : nat -> STables -> STables).
(** [Registry.TypeInfo]: whether a type supports status updates, and requires them *)
Context (type_info : string -> option (bool * bool)) (new_id : nat -> UUID).

Local Notation M := (Effects.M SMWorld SMErr).

Definition smw_tick (w : SMWorld) : SMWorld := mkSMW (smw_tbl w) (smw_view w) (S (smw_calls w)).

(** [ErrNoRows] is what the query of the module lock answers; the others say
    with [None] that there is no row. *)
Definition smcall {A} (f : SMWorld -> A * SMWorld) : M A := fun w =>
  match db_err (smw_calls w) with
  | Some e => (Err (SMDB e), smw_tick w)
  | None => let '(a, w') := f w in (Ok a, smw_tick w')
  end.

(** A statement on the tables of the transaction *)
Definition smstmt {A} (f : STables -> A * STables) : M A :=
  smcall (fun w => let '(a, t) := f (smw_view w) in (a, mkSMW (smw_tbl w) t (smw_calls w))).

Definition sm_lock : M unit :=
  smcall (fun w => (tt, w)) ;;;
  let! got := smcall (fun w => (adv_lock (smw_calls w), w)) in
  if (got : bool) then
    (fun w => match smcall (fun w => (tt, w)) w with
              | (Err (SMDB e), w) => (Err (SMDB (acquire_error e)), w)
              | r => r end)
  else fail (SMDB ErrNoLock).

(** [WithTxShared]: the time of all statements is that of its start; a commit
    that fails may have taken effect. *)
Definition WithTxShared {A} (body : Z -> M A) : M A := fun w =>
  let w := mkSMW (smw_tbl w) (smw_tbl w) (smw_calls w) in
  match bind sm_lock (fun _ => smcall (fun w => (tt, w)) ;;; body (clock (smw_calls w))) w with
  | (Ok a, w') =>
      let done := mkSMW (smw_view w') (smw_view w') (S (smw_calls w')) in
      match db_err (smw_calls w') with
      | Some e => (Err (SMDB e), if commit_lost (smw_calls w') then done else smw_tick w')
      | None => (Ok a, done)
      end
  | (Err e, w') => (Err e, w')
  | (Panic, w') => (Panic, w')
  end.

(** ** [update.go] *)

(** [StatusMgrFindOne], which locks the rows of the subscription and the alert: it
    sees what is committed then. *)
Definition FindOne (id : Z) : M (option (Sub * AlertStatus)) :=
  smcall (fun w =>
    let t := others (smw_calls w) (smw_tbl w) in
    (s ← st_subs t !! id; a ← t_alerts (st_alerts t) !! sub_alert s; Some (s, r_status a), mkSMW t t (smw_calls w))).

Definition event_of (s : AlertStatus) : LogType :=
  match s with StatusTriggered => TypeEscalated | StatusActive => TypeAcknowledged | StatusClosed => TypeClosed end.

(** The last entry of a log with an event for an alert: its id, counted from one, and its user *)
Fixpoint last_entry (n : Z) (alert : Z) (ev : LogType) (logs : list LogRow) : option (Z * option UUID) :=
  match logs with
  | [] => None
  | l :: logs =>
      match last_entry (n + 1) alert ev logs with
      | Some e => Some e
      | None => if (lg_alert l =? alert) && bool_decide (lg_event l = ev) then Some (n, sub_user (lg_subject l)) else None
      end
  end.

(** [StatusMgrLogEntry] *)
Definition LogEntry (alert : Z) (ev : LogType) : M (option (Z * option UUID)) :=
  smstmt (fun t => (last_entry 1 alert ev (t_logs (st_alerts t)), t)).

Definition DeleteSub (id : Z) : M unit := smstmt (fun t => (tt, set_subs (delete id (st_subs t)) t)).

Definition with_last (now : Z) (s : AlertStatus) (x : Sub) : Sub := mkSub (sub_alert x) (sub_contact x) (sub_channel x) s now.

Definition UpdateSub (now : Z) (id : Z) (s : AlertStatus) : M unit :=
  smstmt (fun t => (tt, set_subs (alter (with_last now s) id (st_subs t)) t)).

Definition Send (msg : UUID -> StatusMsg) : M unit := fun w =>
  smstmt (fun t => (tt, set_out (st_out t ++ [msg (new_id (smw_calls w))]) t)) w.

Definition SendUserMsg (cm user : UUID) (alert log : Z) : M unit := Send (fun id => mkStatusMsg id (Some cm) None (Some user) alert log).
Definition SendChannelMsg (ch : UUID) (alert log : Z) : M unit := Send (fun id => mkStatusMsg id None (Some ch) None alert log).

Definition FindContact (cm : UUID) : M (option Contact) := smstmt (fun t => (st_contacts t !! cm, t)).

(** What the message comes to: the subscription goes on, or is to be deleted now. *)
Definition tell (s : Sub) (entry : option (Z * option UUID)) : M bool :=
  match entry with
  | None => ret true
  | Some (log, user) =>
      match sub_contact s, sub_channel s with
      | Some cm, _ =>
          let! info := FindContact cm in
          match info with
          | None => ret false
          | Some info =>
              if ct_disabled info then ret false
              else match type_info (ct_type info) with
                   | None => fail (SMText "lookup contact method type info")
                   | Some (supports, required) =>
                       if negb supports then ret false
                       else if negb (supports && required) && (default uuid_Nil user =? ct_user info) then ret true
                       else SendUserMsg cm (ct_user info) (sub_alert s) log ;;; ret true
                   end
          end
      | None, Some ch => SendChannelMsg ch (sub_alert s) log ;;; ret true
      | None, None => fail (SMText "invalid subscription")
      end
  end.

Definition update (id : Z) (now : Z) : M unit :=
  let! row := FindOne id in
  match row with
  | None => ret tt
  | Some (s, status) =>
      if bool_decide (sub_last s = status) then ret tt
      else
        let! entry := LogEntry (sub_alert s) (event_of status) in
        let! go_on := tell s entry in
        if negb go_on then DeleteSub id
        else if bool_decide (status = StatusClosed) then DeleteSub id
        else UpdateSub now id status
  end.

(** [process.go] *)
Definition processSubscription (id : Z) : M unit := WithTxShared (update id).

(** ** [lookforwork.go], [cleanup.go] *)

Definition outdated (now : Z) (alert : option Z) (t : STables) (s : Sub) : bool :=
  match t_alerts (st_alerts t) !! sub_alert s with
  | Some a => negb (bool_decide (sub_last s = r_status a)) && (now - 7 * Day <? sub_updated s) &&
              match alert with None => true | Some a => sub_alert s =? a end
  | None => false
  end.

(** [StatusMgrOutdated] *)
Definition Outdated (now : Z) (alert : option Z) (t : STables) : list Z :=
  map fst (List.filter (fun '(_, s) => outdated now alert t s) (map_range (st_subs t))).

(** The alert zero stands for all; the jobs are inserted by the client of the queue. *)
Definition lookForWork (alert : Z) : M unit :=
  let! ids := WithTxShared (fun now => smstmt (fun t => (Outdated now (if alert =? 0 then None else Some alert) t, t))) in
  match ids with
  | [] => ret tt
  | _ => smcall (fun w => (tt, mkSMW (set_queue (st_queue (smw_tbl w) ++ ids) (smw_tbl w)) (smw_view w) (smw_calls w)))
  end.

(** [StatusMgrCleanupStaleSubs] *)
Definition cleanup : M unit :=
  WithTxShared (fun now => smstmt (fun t => (tt, set_subs (filter (fun '(_, s) => (sub_updated s <? now - 7 * Day) = false) (st_subs t)) t))).

(** [trackStatus] of [engine/backend.go]: after the first message for an alert.
    The table has a key of channel, contact method and alert, but one of the first
    two is null, and nulls differ from each other: the key refuses nothing. *)
Definition trackStatus (seq : Z) (channel contact : option UUID) (alert : Z) : M unit :=
  let! e := smcall (fun w =>
    let t := smw_tbl w in
    match channel, contact with
    | Some _, Some _ | None, None => (Some (PgErr "23514" "alert_status_subscriptions_check"), w)
    | _, _ =>
        match t_alerts (st_alerts t) !! alert with
        | None => (Some (PgErr "23503" "alert_status_subscriptions_alert_id_fkey"), w)
        | Some _ => (None, mkSMW (set_subs (<[seq := mkSub alert contact channel StatusTriggered (clock (smw_calls w))]> (st_subs t)) t) (smw_view w) (smw_calls w))
        end
    end) in
  match e with Some e => fail (SMDB e) | None => ret tt end.
End StatusManager.
