(* ===== verification/StatusManagerSpec.v ===== *)
(** * Subscribers are told once, and of every status

    What a job changes, with any errors, that repeated jobs do not repeat a
    message, and that the jobs which are found bring all subscriptions up to
    date. *)

From S2P Require Import Prelude Text Effects Database GoTime Escalation Unicode Validate Permission AlertDB AlertLog StatusManager.

(** ** What a job may change *)

Definition status_in (t : STables) (s : Sub) : option AlertStatus := r_status <$> t_alerts (st_alerts t) !! sub_alert s.

(** A subscription that is there and does not know the status *)
Definition behind (t : STables) (id : Z) : Prop :=
  exists s a, st_subs t !! id = Some s /\ status_in t s = Some a /\ sub_last s <> a.

(** A message to a subscriber about the last entry that led to the status *)
Definition speaks_of (t : STables) (s : Sub) (a : AlertStatus) (m : StatusMsg) : Prop :=
  sm_alert m = sub_alert s /\
  (exists user, last_entry 1 (sub_alert s) (event_of a) (t_logs (st_alerts t)) = Some (sm_log m, user)) /\
  ((exists cm c, sub_contact s = Some cm /\ sm_contact m = Some cm /\ sm_channel m = None /\ st_contacts t !! cm = Some c /\
      ct_disabled c = false /\ sm_user m = Some (ct_user c)) \/
   (sub_contact s = None /\ sm_contact m = None /\ sub_channel s = sm_channel m /\ is_Some (sm_channel m))).

(** At most one message, and the subscription is deleted or knows the status *)
Definition told (now : Z) (id : Z) (t t' : STables) : Prop :=
  exists s a, st_subs t !! id = Some s /\ status_in t s = Some a /\ sub_last s <> a /\
    st_alerts t' = st_alerts t /\ st_contacts t' = st_contacts t /\ st_queue t' = st_queue t /\
    (st_subs t' = delete id (st_subs t) \/ a <> StatusClosed /\ st_subs t' = alter (with_last now a) id (st_subs t)) /\
    (st_out t' = st_out t \/ exists m, st_out t' = st_out t ++ [m] /\ speaks_of t s a m).

Section spec.
Context (db_err : nat -> option DBErr) (adv_lock : nat -> bool) (clock : nat -> Z) (commit_lost : nat -> bool).
Context (others : nat -> STables -> STables).
Context (type_info : string -> option (bool * bool)) (new_id : nat -> UUID).

Local Notation update := (update db_err others type_info new_id).
Local Notation processSubscription := (processSubscription db_err adv_lock clock commit_lost others type_info new_id).
Local Notation tell := (tell db_err type_info new_id).

Lemma smcall_cases {A} (f : SMWorld -> A * SMWorld) w :
  (exists e, smcall db_err f w = (Err (SMDB e), smw_tick w)) \/ (exists a w', f w = (a, w') /\ smcall db_err f w = (Ok a, smw_tick w')).
Proof.
  unfold smcall. destruct (db_err (smw_calls w)) as [e|]; [left; by exists e|right]. destruct (f w) as [a w']. by exists a, w'.
Qed.

Lemma smstmt_ok {A} (f : STables -> A * STables) w a w' : smstmt db_err f w = (Ok a, w') ->
  f (smw_view w) = (a, smw_view w') /\ smw_tbl w' = smw_tbl w.
Proof.
  unfold smstmt. intros E. destruct (smcall_cases (fun w => let '(a, t) := f (smw_view w) in (a, mkSMW (smw_tbl w) t (smw_calls w))) w) as [[e E']|(a' & w1 & E1 & E')];
    rewrite E' in E; [done|]. injection E as <- <-. destruct (f (smw_view w)) as [a1 t] eqn:Ef. by injection E1 as <- <-.
Qed.

(** A function that only works on the view, and does not panic *)
Definition local {A} (m : Effects.M SMWorld SMErr A) : Prop := forall w, smw_tbl (m w).2 = smw_tbl w /\ (m w).1 <> Panic.

Lemma local_smstmt {A} (f : STables -> A * STables) : local (smstmt db_err f).
Proof.
  intros w. unfold smstmt, smcall. destruct (db_err (smw_calls w)); [done|]. by destruct (f (smw_view w)).
Qed.

Lemma local_bind {A B} (m : Effects.M SMWorld SMErr A) (k : A -> Effects.M SMWorld SMErr B) : local m -> (forall a, local (k a)) -> local (bind m k).
Proof.
  intros Hm Hk w. unfold bind. destruct (Hm w) as [H1 H2]. destruct (m w) as [[a|e|] w1]; cbn in *; [|done|done].
  destruct (Hk a w1) as [H3 H4]. by rewrite H3.
Qed.

Lemma local_ret {A} (a : A) : local (ret a).
Proof. done. Qed.

Lemma local_fail {A} e : local (fail (A := A) e).
Proof. done. Qed.

Lemma local_send msg : local (Send db_err new_id msg).
Proof. intros w. unfold Send. apply local_smstmt. Qed.

#[local] Hint Resolve local_smstmt local_bind local_ret local_fail local_send : core.

Lemma local_tell s entry : local (tell s entry).
Proof.
  unfold StatusManager.tell, SendUserMsg, SendChannelMsg, FindContact. destruct entry as [[log user]|]; [|done].
  destruct (sub_contact s); [|destruct (sub_channel s); auto].
  apply local_bind; [auto|]. intros [info|]; [|done]. destruct (ct_disabled info); [done|]. destruct (type_info _) as [[su re]|]; [|done].
  destruct (negb su); [done|]. destruct (_ && _); auto.
Qed.

Lemma send_ok msg w u w' : Send db_err new_id msg w = (Ok u, w') -> exists id, smw_view w' = set_out (st_out (smw_view w) ++ [msg id]) (smw_view w).
Proof. unfold Send. intros E. apply smstmt_ok in E as [E _]. injection E as _ <-. by eexists. Qed.

Lemma tell_ok s a w b w' : tell s (last_entry 1 (sub_alert s) (event_of a) (t_logs (st_alerts (smw_view w)))) w = (Ok b, w') ->
  st_subs (smw_view w') = st_subs (smw_view w) /\ st_alerts (smw_view w') = st_alerts (smw_view w) /\
  st_contacts (smw_view w') = st_contacts (smw_view w) /\ st_queue (smw_view w') = st_queue (smw_view w) /\
  (st_out (smw_view w') = st_out (smw_view w) \/
   exists m, st_out (smw_view w') = st_out (smw_view w) ++ [m] /\ speaks_of (smw_view w) s a m).
Proof.
  unfold StatusManager.tell. destruct (last_entry _ _ _ _) as [[log user]|] eqn:EL.
  2:{ intros [= <- <-]. split_and!; try done. by left. }
  destruct (sub_contact s) as [cm|] eqn:Ec.
  - intros E. apply bind_inv in E as (info & w1 & E1 & E). apply smstmt_ok in E1 as [E1 _]. injection E1 as E1 Ev. rewrite Ev in *.
    destruct info as [info|]; [|injection E as _ <-; split_and!; try done; by left].
    destruct (ct_disabled info) eqn:Ed; [injection E as _ <-; split_and!; try done; by left|].
    destruct (type_info (ct_type info)) as [[su re]|]; [|done].
    destruct (negb su); [injection E as _ <-; split_and!; try done; by left|].
    destruct (_ && _); [injection E as _ <-; split_and!; try done; by left|].
    apply bind_inv in E as (u & w2 & E2 & [= _ <-]). apply send_ok in E2 as [id ->]. split_and!; try done. right.
    eexists. split; [done|]. split_and!; [done|by eexists|]. left. exists cm, info. done.
  - destruct (sub_channel s) as [ch|] eqn:Ech; [|done]. intros E. apply bind_inv in E as (u & w2 & E2 & [= _ <-]).
    apply send_ok in E2 as [id ->]. split_and!; try done. right. eexists. split; [done|]. split_and!; [done|by eexists|].
    right. cbn. by rewrite Ech.
Qed.

(** One run of [update] from what is committed: nothing, or [told] *)
Lemma update_cases id now w r w' : smw_view w = smw_tbl w -> update id now w = (r, w') ->
  exists t, (t = smw_tbl w \/ exists k, t = others k (smw_tbl w)) /\ smw_tbl w' = t /\
    match r with Ok _ => smw_view w' = t /\ ~ behind t id \/ told now id t (smw_view w') | Err _ => True | Panic => False end.
Proof.
  intros Hv E. unfold StatusManager.update in E. unfold bind at 1 in E. unfold FindOne in E.
  match type of E with context [smcall db_err ?f w] => destruct (smcall_cases f w) as [[e Ef]|(row & w1 & Ef & Ef2)] end.
  { rewrite Ef in E. injection E as <- <-. exists (smw_tbl w). by split; [left|]. }
  rewrite Ef2 in E. clear Ef2. set (t := others (smw_calls w) (smw_tbl w)) in *. cbv zeta in Ef. fold t in Ef.
  assert (smw_tbl w1 = t /\ smw_view w1 = t /\ row = (s ← st_subs t !! id; a ← t_alerts (st_alerts t) !! sub_alert s; Some (s, r_status a))) as (Ht & Hview & ->)
    by (injection Ef as <- <-; done).
  exists t. split; [right; by exists (smw_calls w)|]. destruct (st_subs t !! id) as [s|] eqn:Es.
  2:{ injection E as <- <-. split; [done|]. left. split; [done|]. intros (s & a & Hs & _). congruence. }
  cbn [mbind option_bind] in E. destruct (t_alerts (st_alerts t) !! sub_alert s) as [al|] eqn:Eal.
  2:{ injection E as <- <-. split; [done|]. left. split; [done|]. intros (s' & a & Hs & Ha & _). rewrite Es in Hs. injection Hs as <-.
      unfold status_in in Ha. by rewrite Eal in Ha. }
  cbn [mbind option_bind] in E. destruct (decide (sub_last s = r_status al)) as [Eq|Hne].
  { rewrite bool_decide_eq_true_2 in E by done. injection E as <- <-. split; [done|]. left. split; [done|].
    intros (s' & a & Hs & Ha & Hn). rewrite Es in Hs. injection Hs as <-. unfold status_in in Ha. rewrite Eal in Ha. by injection Ha as <-. }
  rewrite bool_decide_eq_false_2 in E by done. set (w2 := smw_tick w1) in *. assert (smw_tbl w2 = t /\ smw_view w2 = t) as [Ht2 Hv2] by done. clearbody w2.
  match type of E with ?m w2 = _ => assert (local m) as HLoc end.
  { apply local_bind; [apply local_smstmt|]. intros entry. apply local_bind; [apply local_tell|]. intros b.
    unfold DeleteSub, UpdateSub. destruct (negb b); [apply local_smstmt|]. destruct (bool_decide _); apply local_smstmt. }
  destruct (HLoc w2) as [Htbl Hnp]. rewrite E in Htbl, Hnp. cbn in Htbl, Hnp. split; [by rewrite Htbl|].
  destruct r as [[]|e|]; [|done|done]. right. clear Htbl Hnp HLoc.
  apply bind_inv in E as (entry & w3 & E3 & E). apply smstmt_ok in E3 as [[= <- Ev3] _]. rewrite Hv2 in *. rewrite Ev3 in E.
  apply bind_inv in E as (b & w4 & E4 & E). apply (tell_ok s (r_status al)) in E4 as (Hsubs & Hal & Hct & Hq & Hout).
  rewrite <- Ev3 in Hsubs, Hal, Hct, Hq, Hout.
  exists s, (r_status al). unfold status_in. rewrite Eal. split; [done|]. split; [done|]. split; [done|].
  unfold DeleteSub, UpdateSub in E. destruct (negb b); [|destruct (decide (r_status al = StatusClosed)) as [Hcl|Hcl]].
  - apply smstmt_ok in E as [[= E] _]. rewrite <- E. cbn. rewrite Hsubs. split_and!; try done. by left.
  - rewrite bool_decide_eq_true_2 in E by done. apply smstmt_ok in E as [[= E] _]. rewrite <- E. cbn. rewrite Hsubs. split_and!; try done. by left.
  - rewrite bool_decide_eq_false_2 in E by done. apply smstmt_ok in E as [[= E] _]. rewrite <- E. cbn. rewrite Hsubs. split_and!; try done. by right.
Qed.

(** Who was told is not behind. *)
Lemma told_not_behind now id t t' : told now id t t' -> ~ behind t' id.
Proof.
  intros (s & a & Hs & Ha & Hne & Hal & _ & _ & Hsubs & _) (s' & a' & Hs' & Ha' & Hne').
  destruct Hsubs as [E|[_ E]]; rewrite E in Hs'; [by rewrite lookup_delete_eq in Hs'|].
  rewrite lookup_alter_eq, Hs in Hs'. injection Hs' as <-. unfold status_in in *. rewrite Hal in Ha'. cbn in Ha', Hne'. congruence.
Qed.

Lemma told_out now id t t' : told now id t t' -> (length (st_out t') <= S (length (st_out t)))%nat.
Proof.
  intros (s & a & _ & _ & _ & _ & _ & _ & _ & [->|(m & -> & _)]); [lia|]. rewrite length_app. cbn. lia.
Qed.

Lemma sm_lock_keeps w : smw_tbl (sm_lock db_err adv_lock w).2 = smw_tbl w /\ smw_view (sm_lock db_err adv_lock w).2 = smw_view w /\
  (sm_lock db_err adv_lock w).1 <> Panic.
Proof.
  unfold sm_lock, bind, smcall. destruct (db_err (smw_calls w)); [done|]. cbn.
  destruct (db_err (S (smw_calls w))); [done|]. cbn. destruct (adv_lock (S (smw_calls w))); [|done]. cbn.
  by destruct (db_err (S (S (smw_calls w)))).
Qed.

(** [WithTxShared]: the lock and the commit *)
Lemma shared_cases {A} (body : Z -> Effects.M SMWorld SMErr A) (Q : STables -> A -> STables -> Prop) w r w' :
  (forall now w r w', smw_view w = smw_tbl w -> body now w = (r, w') ->
     exists t, (t = smw_tbl w \/ exists k, t = others k (smw_tbl w)) /\ smw_tbl w' = t /\
       match r with Ok a => Q t a (smw_view w') | Err _ => True | Panic => False end) ->
  WithTxShared db_err adv_lock clock commit_lost body w = (r, w') ->
  exists t, (t = smw_tbl w \/ exists k, t = others k (smw_tbl w)) /\
    match r with
    | Ok a => Q t a (smw_tbl w')
    | Err _ => smw_tbl w' = t \/ exists a, Q t a (smw_tbl w')
    | Panic => False
    end.
Proof.
  intros HB E. unfold WithTxShared in E. set (w0 := mkSMW (smw_tbl w) (smw_tbl w) (smw_calls w)) in *.
  assert (forall x w1, sm_lock db_err adv_lock w0 = (x, w1) -> smw_tbl w1 = smw_tbl w /\ smw_view w1 = smw_tbl w /\ x <> Panic) as HLk.
  { intros x w1 El. destruct (sm_lock_keeps w0) as (H1 & H2 & H3). rewrite El in H1, H2, H3. done. }
  match type of E with match ?m with _ => _ end = _ => destruct m as [[a|e|] w1] eqn:EB end.
  - apply bind_inv in EB as (u & w2 & E2 & EB). destruct (HLk _ _ E2) as (Ht2 & Hv2 & _).
    apply bind_inv in EB as (u' & w3 & E3 & EB). destruct (smcall_cases (fun w => (tt, w)) w2) as [[e Ee]|(a0 & w4 & [= <- <-] & Ee)]; rewrite Ee in E3; [done|].
    injection E3 as _ <-. assert (smw_view (smw_tick w2) = smw_tbl (smw_tick w2)) as Hvt by (cbn; congruence). destruct (HB _ _ _ _ Hvt EB) as (t & Ht & Etbl & HQ). cbn [smw_tick smw_tbl] in Ht. rewrite Ht2 in Ht.
    exists t. split; [done|]. destruct (db_err (smw_calls w1)) as [e|]; [|by injection E as <- <-].
    injection E as <- <-. destruct (commit_lost (smw_calls w1)); [right; by exists a|left; done].
  - injection E as <- <-. unfold bind at 1 in EB. destruct (sm_lock db_err adv_lock w0) as [[u|e'|] w2] eqn:E2; [| |done].
    + destruct (HLk _ _ eq_refl) as (Ht2 & Hv2 & _). unfold bind in EB.
      destruct (smcall_cases (fun w => (tt, w)) w2) as [[e0 Ee]|(a0 & w4 & [= <- <-] & Ee)]; rewrite Ee in EB.
      { injection EB as <- <-. exists (smw_tbl w). split; [by left|]. by left. }
      assert (smw_view (smw_tick w2) = smw_tbl (smw_tick w2)) as Hvt by (cbn; congruence). destruct (HB _ _ _ _ Hvt EB) as (t & Ht & Etbl & _). cbn [smw_tick smw_tbl] in Ht. rewrite Ht2 in Ht. exists t. split; [done|]. by left.
    + injection EB as <- <-. destruct (HLk _ _ eq_refl) as (Ht2 & _). exists (smw_tbl w). split; [by left|]. by left.
  - exfalso. unfold bind at 1 in EB. destruct (sm_lock db_err adv_lock w0) as [[u|e'|] w2] eqn:E2; [|done|by destruct (HLk _ _ eq_refl) as (_ & _ & ?)].
    destruct (HLk _ _ eq_refl) as (Ht2 & Hv2 & _). unfold bind in EB.
    destruct (smcall_cases (fun w => (tt, w)) w2) as [[e0 Ee]|(a0 & w4 & [= <- <-] & Ee)]; rewrite Ee in EB; [done|].
    assert (smw_view (smw_tick w2) = smw_tbl (smw_tick w2)) as Hvt by (cbn; congruence). destruct (HB _ _ _ _ Hvt EB) as (t & _ & _ & []).
Qed.

Lemma process_cases id w r w' : processSubscription id w = (r, w') ->
  exists t, (t = smw_tbl w \/ exists k, t = others k (smw_tbl w)) /\
    match r with
    | Ok _ => smw_tbl w' = t /\ ~ behind t id \/ exists now, told now id t (smw_tbl w')
    | Err _ => smw_tbl w' = t \/ exists now, told now id t (smw_tbl w')
    | Panic => False
    end.
Proof.
  intros E. apply (shared_cases _ (fun t _ t' => t' = t /\ ~ behind t id \/ exists now, told now id t t')) in E.
  - destruct E as (t & Ht & HR). exists t. split; [done|]. destruct r; [done| |done].
    destruct HR as [HR|(_ & [[HR _]|HR])]; [by left|by left|by right].
  - intros now w0 r0 w0' Hv E0. destruct (update_cases id now w0 r0 w0' Hv E0) as (t & Ht & Etbl & HR). exists t.
    split; [done|]. split; [done|]. destruct r0; [|done|done]. destruct HR as [HR|HR]; [by left|right; by exists now].
Qed.
End spec.

(** C16: a job for a subscription, with any errors and whatever others commit while it
    waits, changes nothing, or sends at most one message: to the subscriber, about the
    alert and the last entry of the log that led to its status, and the subscription
    then knows the status or is deleted.  After a job that succeeds the subscriber is
    not behind, and a second job sends nothing. *)
Theorem jobs_tell_once db_err adv_lock clock commit_lost others type_info new_id id w r w'
  (HE : processSubscription db_err adv_lock clock commit_lost others type_info new_id id w = (r, w')) :
  exists t, (t = smw_tbl w \/ exists k, t = others k (smw_tbl w)) /\
    (smw_tbl w' = t \/ exists now, told now id t (smw_tbl w')) /\
    (r = Ok tt \/ smw_tbl w' <> t -> ~ behind (smw_tbl w') id) /\
    forall db_err' w'' r', ~ behind (smw_tbl w') id ->
      processSubscription db_err' adv_lock clock commit_lost (fun _ t => t) type_info new_id id w' = (r', w'') -> smw_tbl w'' = smw_tbl w'.
Proof.
  destruct (process_cases _ _ _ _ _ _ _ _ _ _ _ HE) as (t & Ht & HR). exists t. split; [done|]. split.
  { destruct r as [u|e|]; [|done|done]. destruct HR as [[? _]|?]; [by left|by right]. }
  split.
  - intros Hor. destruct r as [u|e|]; [| |done].
    + destruct HR as [[-> HB]|[now HT]]; [done|by eapply told_not_behind].
    + destruct HR as [HR|[now HT]]; [|by eapply told_not_behind]. destruct Hor; done.
  - intros db' w'' r' HB E. destruct (process_cases _ _ _ _ _ _ _ _ _ _ _ E) as (t2 & Ht2 & HR2).
    assert (t2 = smw_tbl w') as -> by (destruct Ht2 as [?|[_ ?]]; done).
    assert (forall now, ~ told now id (smw_tbl w') (smw_tbl w'')) as HN.
    { intros now (s & a & Hs & Ha & Hne & _). apply HB. by exists s, a. }
    destruct r'; [| |done]; destruct HR2 as [HR2|[now HT]]; try (by destruct (HN now)); [by destruct HR2|done].
Qed.

(** ** All that is found is brought up to date *)

(** Subscriptions are of a contact method of a known type or of a channel. *)
Definition valid_subs (type_info : string -> option (bool * bool)) (t : STables) : Prop :=
  forall id s, st_subs t !! id = Some s ->
    match sub_contact s, sub_channel s with
    | Some cm, _ => forall c, st_contacts t !! cm = Some c -> is_Some (type_info (ct_type c))
    | None, ch => is_Some ch
    end.

Section quiet.
Context {HR : GoMapRange}.
Context (clock : nat -> Z) (commit_lost : nat -> bool) (type_info : string -> option (bool * bool)) (new_id : nat -> UUID).

Local Abbreviation no_err := (fun _ : nat => @None DBErr).
Local Abbreviation idle := (fun (_ : nat) (t : STables) => t).
Local Notation process := (processSubscription no_err (fun _ => true) clock commit_lost idle type_info new_id).

Lemma tell_total s entry w :
  match sub_contact s, sub_channel s with
  | Some cm, _ => forall c, st_contacts (smw_view w) !! cm = Some c -> is_Some (type_info (ct_type c))
  | None, ch => is_Some ch
  end -> exists b w', tell no_err type_info new_id s entry w = (Ok b, w').
Proof.
  intros Hv. unfold tell. destruct entry as [[log user]|]; [|by do 2 eexists]. destruct (sub_contact s) as [cm|].
  - unfold bind at 1. unfold FindContact, smstmt, smcall. cbn. destruct (st_contacts (smw_view w) !! cm) as [c|] eqn:Ec; [|by do 2 eexists].
    destruct (ct_disabled c); [by do 2 eexists|]. destruct (Hv c eq_refl) as [[su re] ->]. destruct (negb su); [by do 2 eexists|].
    destruct (_ && _); [by do 2 eexists|]. by do 2 eexists.
  - destruct Hv as [ch ->]. by do 2 eexists.
Qed.

Lemma update_total id now w : valid_subs type_info (smw_tbl w) -> exists w', update no_err idle type_info new_id id now w = (Ok tt, w').
Proof.
  intros Hv. unfold update, bind at 1, FindOne, smcall. cbn. destruct (st_subs (smw_tbl w) !! id) as [s|] eqn:Es; [|by eexists]. cbn.
  destruct (t_alerts _ !! _) as [al|]; [|by eexists]. cbn. destruct (bool_decide _); [by eexists|].
  unfold bind at 1, LogEntry, smstmt, smcall. cbn. unfold bind at 1.
  match goal with |- context [tell _ _ _ s ?e ?w0] => destruct (tell_total s e w0 (Hv id s Es)) as (b & w' & ->) end.
  destruct (negb b); [by eexists|]. destruct (bool_decide _); by eexists.
Qed.

Lemma process_run id w : valid_subs type_info (smw_tbl w) ->
  exists w', process id w = (Ok tt, w') /\ (smw_tbl w' = smw_tbl w /\ ~ behind (smw_tbl w) id \/ exists now, told now id (smw_tbl w) (smw_tbl w')).
Proof.
  intros Hv. destruct (process id w) as [r w'] eqn:E. exists w'.
  assert (r = Ok tt) as ->.
  { unfold processSubscription, WithTxShared, bind, sm_lock in E. cbn -[StatusManager.update] in E.
    match type of E with context [StatusManager.update _ _ _ _ id ?n ?w0] => destruct (update_total id n w0 Hv) as (w1 & E1); rewrite E1 in E end. by injection E as <- _. }
  split; [done|]. destruct (process_cases _ _ _ _ _ _ _ _ _ _ _ E) as (t & Ht & HR'). assert (t = smw_tbl w) as -> by (by destruct Ht as [?|[_ ?]]).
  exact HR'.
Qed.

Lemma told_valid now id t t' : told now id t t' -> valid_subs type_info t -> valid_subs type_info t'.
Proof.
  intros (s & a & Hs & _ & _ & _ & Hct & _ & Hsubs & _) Hv i x Hx. rewrite Hct. destruct Hsubs as [E|[_ E]]; rewrite E in Hx.
  - apply lookup_delete_Some in Hx as [_ Hx]. exact (Hv i x Hx).
  - destruct (decide (i = id)) as [->|Hne].
    + rewrite lookup_alter_eq, Hs in Hx. injection Hx as <-. exact (Hv id s Hs).
    + rewrite lookup_alter_ne in Hx by done. exact (Hv i x Hx).
Qed.

(** Others who are behind were so before, and are as they were. *)
Lemma told_behind now id t t' i : told now id t t' -> behind t' i -> i <> id /\ behind t i /\ st_subs t' !! i = st_subs t !! i.
Proof.
  intros HT HB. assert (i <> id) as Hne by (intros ->; by eapply told_not_behind). split; [done|].
  destruct HT as (s & a & _ & _ & _ & Hal & _ & _ & Hsubs & _).
  assert (st_subs t' !! i = st_subs t !! i) as E by (destruct Hsubs as [->|[_ ->]]; [by rewrite lookup_delete_ne|by rewrite lookup_alter_ne]).
  split; [|done]. destruct HB as (x & b & Hx & Hb & Hn). exists x, b. rewrite <- E. split_and!; [done| |done]. unfold status_in in *. by rewrite <- Hal.
Qed.

Lemma jobs_run ids : forall w, valid_subs type_info (smw_tbl w) -> exists w', each process ids w = (Ok tt, w') /\
  forall i, behind (smw_tbl w') i -> i ∉ ids /\ behind (smw_tbl w) i /\ st_subs (smw_tbl w') !! i = st_subs (smw_tbl w) !! i.
Proof.
  induction ids as [|id ids IH]; intros w Hv; [exists w; split; [done|]; intros i Hi; split_and!; [set_solver|done|done]|].
  destruct (process_run id w Hv) as (w1 & E1 & H1). cbn [each]. rewrite (bind_ok _ _ _ _ _ E1).
  assert (valid_subs type_info (smw_tbl w1)) as Hv1 by (destruct H1 as [[-> _]|[now HT]]; [done|by eapply told_valid]).
  destruct (IH w1 Hv1) as (w' & E' & H'). exists w'. split; [done|]. intros i Hi. destruct (H' i Hi) as (Hni & Hb & Es).
  destruct H1 as [[Et Hnb]|[now HT]].
  - rewrite Et in *. split_and!; [|done|done]. intros [->|Hin]%elem_of_cons; done.
  - destruct (told_behind now id _ _ i HT Hb) as (Hne & Hb' & Es'). split_and!; [|done|congruence]. intros [->|Hin]%elem_of_cons; done.
Qed.

Lemma Outdated_elem now alert t id : id ∈ Outdated now alert t <-> exists s, st_subs t !! id = Some s /\ outdated now alert t s = true.
Proof.
  unfold Outdated. rewrite list_elem_of_fmap. split.
  - intros ([i s] & -> & Hin). apply elem_of_filter_bool in Hin as [Hin Hp]. apply map_range_elem in Hin. by exists s.
  - intros (s & Hs & Hp). exists (id, s). split; [done|]. apply elem_of_filter_bool. by rewrite map_range_elem.
Qed.

(** C33: where the database does not fail, looking for work and running the jobs that it
    adds leaves only those subscribers behind that have not been told anything for
    seven days. *)
Theorem found_jobs_bring_up_to_date w w1 (Hv : valid_subs type_info (smw_tbl w))
  (HL : lookForWork no_err (fun _ => true) clock commit_lost 0 w = (Ok tt, w1)) :
  exists now w2, each process (drop (length (st_queue (smw_tbl w))) (st_queue (smw_tbl w1))) w1 = (Ok tt, w2) /\
    forall id s, behind (smw_tbl w2) id -> st_subs (smw_tbl w) !! id = Some s -> sub_updated s <= now - 7 * Day.
Proof.
  unfold lookForWork, WithTxShared, bind, sm_lock in HL. cbn -[Z.mul Day] in HL.
  set (now := clock _) in HL. exists now. set (ids := Outdated now None (smw_tbl w)) in HL.
  assert (smw_tbl w1 = set_queue (st_queue (smw_tbl w) ++ ids) (smw_tbl w)) as Et.
  { destruct ids as [|i l] eqn:Ei; injection HL as <-; cbn; [|done]. rewrite app_nil_r. by destruct (smw_tbl w). }
  assert (valid_subs type_info (smw_tbl w1)) as Hv1 by by rewrite Et.
  rewrite Et. cbn [st_queue set_queue]. rewrite drop_app_length.
  destruct (jobs_run ids w1 Hv1) as (w2 & E2 & H2). exists w2. split; [exact E2|]. intros id s Hb Hs.
  destruct (H2 id Hb) as (Hni & (x & a & Hx & Ha & Hne) & _). rewrite Et in Hx, Ha. cbn in Hx. rewrite Hs in Hx. injection Hx as <-.
  destruct (Z.le_gt_cases (sub_updated s) (now - 7 * Day)) as [|Hgt]; [done|]. destruct Hni. apply Outdated_elem. exists s. split; [done|].
  unfold status_in in Ha. cbn in Ha. unfold outdated. destruct (t_alerts (st_alerts (smw_tbl w)) !! sub_alert s) as [al|]; [|done].
  injection Ha as <-. rewrite bool_decide_eq_false_2 by done. cbn. rewrite andb_true_r. by apply Z.ltb_lt.
Qed.
End quiet.

(** ** An alert that a subscriber has acknowledged *)

Section witness.
#[local] Existing Instance ordered_map_range.

Definition acked_alert : AlertRow := mkRow "disk full" "" 10 "manual" StatusActive (Some "k") 0.
Definition acked_log : LogRow := mkLog 1 TypeAcknowledged (mkSubject (Some SubjectTypeUser) (Some 5) None None None "Web") None 3.

(** The user 5, who has acknowledged, the user 6 and a channel are subscribed. *)
Definition three_subs : STables :=
  mkSTables (AlertDB.mkTables {[1 := acked_alert]} ∅ ∅ ∅ ∅ [acked_log] ∅ ∅ [] None)
    {[11 := mkSub 1 (Some 105) None StatusTriggered 1; 12 := mkSub 1 (Some 106) None StatusTriggered 1; 13 := mkSub 1 None (Some 107) StatusTriggered 1]}
    {[105 := mkContact 5 false "sms"; 106 := mkContact 6 false "sms"]} [] [].

Definition three_world : SMWorld := mkSMW three_subs three_subs 0.
Definition sms_type (t : string) : option (bool * bool) := if String.eqb t "sms" then Some (true, false) else None.

Local Abbreviation process_sub := (processSubscription (fun _ => None) (fun _ => true) (fun n => Z.of_nat n) (fun _ => false) (fun _ t => t) sms_type (fun n => 1000 + Z.of_nat n)).
Local Abbreviation find_work := (lookForWork (fun _ => None) (fun _ => true) (fun n => Z.of_nat n) (fun _ => false)).

Example users_and_channel :
  let w := (each process_sub [11; 12; 13; 12] three_world).2 in
  map (fun m => (sm_contact m, sm_channel m, sm_log m)) (st_out (smw_tbl w)) = [(Some 106, None, 1); (None, Some 107, 1)].
Proof. vm_compute. reflexivity. Qed.

(** A destination that is tracked twice is told twice. *)
Example tracked_twice :
  let track n := trackStatus (fun _ => None) (fun n => Z.of_nat n) n (Some 107) None 1 in
  let w := (bind (track 21) (fun _ => bind (track 22) (fun _ => each process_sub [21; 22])) (mkSMW (set_subs ∅ three_subs) three_subs 0)).2 in
  map sm_channel (st_out (smw_tbl w)) = [Some 107; Some 107].
Proof. vm_compute. reflexivity. Qed.

(** A commit that is lost: the job is run again, and the message is not sent again. *)
Example lost_commit :
  let r := processSubscription (fun n => if (n =? 8)%nat then Some OtherErr else None) (fun _ => true) (fun n => Z.of_nat n) (fun _ => true)
             (fun _ t => t) sms_type (fun n => 1000 + Z.of_nat n) 13 three_world in
  r.1 = Err (SMDB OtherErr) /\ length (st_out (smw_tbl r.2)) = 1%nat /\ length (st_out (smw_tbl (process_sub 13 r.2).2)) = 1%nat.
Proof. vm_compute. repeat split. Qed.

Lemma jobs_tell_once_witness :
  exists w', process_sub 12 three_world = (Ok tt, w') /\ ~ behind (smw_tbl w') 12.
Proof.
  assert (exists w', process_sub 12 three_world = (Ok tt, w')) as [w' HE] by (eexists; vm_compute; reflexivity).
  exists w'. split; [exact HE|].
  destruct (jobs_tell_once _ _ _ _ _ _ _ _ _ _ _ HE) as (t & _ & _ & H & _). exact (H (or_introl eq_refl)).
Defined.

Lemma found_jobs_bring_up_to_date_witness :
  exists w1, find_work 0 three_world = (Ok tt, w1) /\ exists now w2, forall id s, behind (smw_tbl w2) id -> st_subs three_subs !! id = Some s -> sub_updated s <= now - 7 * Day.
Proof.
  assert (exists w1, find_work 0 three_world = (Ok tt, w1)) as [w1 HL] by (eexists; vm_compute; reflexivity).
  exists w1. split; [exact HL|].
  assert (Hv : valid_subs sms_type three_subs).
  { intros id s Hs. cbn [three_subs st_subs] in Hs. apply lookup_insert_Some in Hs as [[_ <-]|[_ Hs]].
    - intros c Hc. cbn [sub_contact three_subs st_contacts] in Hc. vm_compute in Hc. injection Hc as <-. by eexists.
    - apply lookup_insert_Some in Hs as [[_ <-]|[_ Hs]]; [intros c Hc; vm_compute in Hc; injection Hc as <-; by eexists|].
      apply lookup_singleton_Some in Hs as [_ <-]. by eexists. }
  destruct (found_jobs_bring_up_to_date (fun n => Z.of_nat n) (fun _ => false) sms_type (fun n => 1000 + Z.of_nat n) three_world w1 Hv HL) as (now & w2 & _ & H).
  exists now, w2. exact H.
Defined.
End witness.
