(* ===== verification/NotificationCycle.v ===== *)
(** * Notification cycles of users: [engine/npcyclemanager]

    An escalation starts a cycle for every user it notifies.  The rules of the
    user say after how many minutes which contact method is notified: each tick of
    a cycle queues a message for the rules whose delay has passed since the tick
    before.  A cycle ends when its alert is closed or, unless every user has to
    acknowledge, acknowledged.

    One statement does all this; its parts read the tables as they were.  Deleting
    a cycle deletes its messages ([ON DELETE CASCADE]). *)

From S2P Require Import Prelude Effects Database GoTime Escalation.

(** ** Tables *)

(** [notification_policy_cycles] *)
Record Cycle := mkNPCycle {
  cy_alert : Z; cy_user : UUID; started_at : Z; last_tick : option Z; cy_multi_ack : bool
}.

(** [user_notification_rules] *)
Record UserRule := mkUserRule { ur_user : UUID; ur_contact_method : UUID; delay_minutes : Z }.

(** [outgoing_messages]: alert notifications to users. *)
Record UserMessage := mkUserMessage {
  um_contact_method : UUID; um_alert : Z; um_cycle : UUID; um_user : UUID; um_service : UUID; um_policy : UUID
}.

#[global] Instance UserMessage_eq_dec : EqDecision UserMessage.
Proof. solve_decision. Defined.

(** [alert_logs]: acknowledgements by a user. *)
Record AckLog := mkAck { ack_alert : Z; ack_user : UUID; ack_time : Z }.

(** What is read. *)
Record NPStatic := mkNPStatic {
  np_alerts : gmap Z Alert;
  np_services : gmap UUID Service;
  np_policies : gmap UUID Policy;
  np_affiliation : gmap UUID UUID;        (** [CurrentUserOrganizationsQuery] *)
  np_rules : list UserRule;
  np_acks : list AckLog
}.

(** A log entry: nothing was sent to the user, because no rule is immediate or,
    if [denied], because the user does not belong to the organization. *)
Record NoNotification := mkNoNotification { nn_alert : Z; nn_user : UUID; nn_denied : bool }.

Record NPTables := mkNPTables {
  np_cycles : gmap UUID Cycle;
  np_messages : list UserMessage;
  np_logs : list NoNotification
}.

Section Manager.
Context {HR : GoMapRange} {HG : GoSort}.
Context (st : NPStatic).
Context (db_err : nat -> option DBErr) (adv_lock : nat -> bool) (clock : nat -> Z) (locked : Z -> UUID -> bool).

Local Notation M := (Effects.M (DBWorld NPTables) DBErr).

(** ** The statement *)

Definition due (now : Z) (c : Cycle) : bool :=
  match last_tick c with None => true | Some l => l <? now - Minute end.

(** [order by last_tick nulls first, started_at] *)
Definition tick_before (a b : UUID * Cycle) : bool :=
  match last_tick (snd a), last_tick (snd b) with
  | None, None => started_at (snd a) <? started_at (snd b)
  | None, Some _ => true
  | Some _, None => false
  | Some x, Some y => (x <? y) || ((x =? y) && (started_at (snd a) <? started_at (snd b)))
  end.

(** [lock_cycles] *)
Definition lock_cycles (now : Z) (t : NPTables) : list (UUID * Cycle) :=
  firstn 1250 (List.filter (fun ic => negb (locked now (fst ic)))
    (sort_slice tick_before (List.filter (fun ic => due now (snd ic)) (map_range (np_cycles t))))).

(** The service of the alert, and its policy. *)
Definition service_of (c : Cycle) : option (UUID * Service) :=
  a ← np_alerts st !! cy_alert c; sv ← np_services st !! al_service a; Some (al_service a, sv).

Definition recipient_valid (c : Cycle) : bool :=
  match service_of c with
  | Some (_, sv) =>
      bool_decide (np_affiliation st !! cy_user c = Some (sv_org sv)) &&
      match np_policies st !! sv_policy sv with Some ep => ep_org ep =? sv_org sv | None => false end
  | None => false
  end.

(** [deleted] *)
Definition is_over (c : Cycle) : bool :=
  match np_alerts st !! cy_alert c with
  | Some a =>
      negb (bool_decide (al_status a = StatusTriggered)) &&
      (bool_decide (al_status a = StatusClosed) || negb (cy_multi_ack c) ||
       existsb (fun l => (ack_alert l =? cy_alert c) && (ack_user l =? cy_user c) && (started_at c <? ack_time l)) (np_acks st))
  | None => false
  end.

(** [process_cycles] *)
Definition process_cycles (now : Z) (t : NPTables) : list (UUID * Cycle) :=
  List.filter (fun ic => negb (is_over (snd ic))) (lock_cycles now t).

(** The rules whose delay has passed since the last tick. *)
Definition fires (now : Z) (c : Cycle) (r : UserRule) : bool :=
  (ur_user r =? cy_user c) &&
  match last_tick c with None => true | Some l => l - started_at c <? delay_minutes r * Minute end &&
  (delay_minutes r * Minute <=? now - started_at c).

(** [inserted], for one cycle: [select distinct] *)
Definition inserted (now : Z) (ic : UUID * Cycle) : list UserMessage :=
  let '(id, c) := ic in
  match service_of c with
  | Some (svc, sv) =>
      if recipient_valid c then
        remove_dups (map (fun r => mkUserMessage (ur_contact_method r) (cy_alert c) id (ur_user r) svc (sv_policy sv))
          (List.filter (fires now c) (np_rules st)))
      else []
  | None => []
  end.

(** [greatest(last_tick, now())] *)
Definition set_tick (now : Z) (c : Cycle) : Cycle :=
  mkNPCycle (cy_alert c) (cy_user c) (started_at c)
    (Some (match last_tick c with Some l => Z.max l now | None => now end)) (cy_multi_ack c).

Definition no_first_notif_sent (now : Z) (ic : UUID * Cycle) : bool :=
  recipient_valid (snd ic) && bool_decide (last_tick (snd ic) = None) && bool_decide (inserted now ic = []).

Definition note (denied : bool) (ic : UUID * Cycle) : NoNotification :=
  mkNoNotification (cy_alert (snd ic)) (cy_user (snd ic)) denied.

Definition deleted (now : Z) (t : NPTables) : list (UUID * Cycle) :=
  List.filter (fun ic => is_over (snd ic)) (lock_cycles now t).

Definition queueMessages (now : Z) (t : NPTables) : list NoNotification * NPTables + DBErr :=
  let del := map fst (deleted now t) in
  let proc := process_cycles now t in
  inl (map (note false) (List.filter (no_first_notif_sent now) proc) ++
       map (note true) (List.filter (fun ic => negb (recipient_valid (snd ic))) proc),
       mkNPTables
         (fold_left (fun m ic => alter (set_tick now) (fst ic) m) proc
           (filter (fun '(id, _) => id ∉ del) (np_cycles t)))
         (List.filter (fun m => negb (bool_decide (um_cycle m ∈ del))) (np_messages t) ++ flat_map (inserted now) proc)
         (np_logs t)).

(** ** The cycle of the engine *)

(** [LogTx] *)
Definition log_one (n : NoNotification) : M unit :=
  Database.stmt db_err (fun t => inl (tt, mkNPTables (np_cycles t) (np_messages t) (np_logs t ++ [n]))).

(** A contact method was deleted meanwhile: the next cycle tries again. *)
Definition contact_method_deleted (e : DBErr) : bool :=
  match e with
  | PgErr c k => String.eqb c "23503" && String.eqb k "outgoing_messages_contact_method_id_fkey"
  | _ => false
  end.

Definition update : M unit := fun w =>
  match Database.BeginTx db_err adv_lock w with
  | (Ok _, w1) =>
      match Database.stmt db_err (queueMessages (clock (db_calls w))) w1 with
      | (Ok data, w2) =>
          match (each log_one data ;;; Database.call db_err) w2 with
          | (Ok _, w3) => (Ok tt, w3)
          | (r, w3) => (r, set_tbl (db_tbl w) w3)
          end
      | (Err e, w2) => (if contact_method_deleted e then Ok tt else Err e, set_tbl (db_tbl w) w2)
      | (Panic, w2) => (Panic, set_tbl (db_tbl w) w2)
      end
  | r => r
  end.
End Manager.
