(* ===== verification/NotificationCycleSpec.v ===== *)
(** * What the notification cycles of users do

    Whatever fails and whatever else changes, a rule of a user fires at most once
    in a cycle, and a contact method is notified once a rule for it is due.  The
    most overdue cycles go first.  A tick that fails nowhere handles every due
    cycle: it ends, or exactly the rules whose delay has passed since the last
    tick fire. *)

From S2P Require Import Prelude Effects Database GoTime Escalation NotificationCycle.

Section spec.
Context {HR : GoMapRange} {HG : GoSort}.

(** ** A tick *)

Lemma each_log db_err data w :
  match each (log_one db_err) data w with
  | (Ok _, w') => db_tbl w' = mkNPTables (np_cycles (db_tbl w)) (np_messages (db_tbl w)) (np_logs (db_tbl w) ++ data)
  | _ => True
  end.
Proof.
  revert w. induction data as [|n data IH]; intros w; [cbn; rewrite app_nil_r; by destruct (db_tbl w)|].
  cbn [each]. unfold bind, log_one at 1, Database.stmt at 1. destruct (db_err (db_calls w)); [done|]. set (w1 := set_tbl _ _). specialize (IH w1).
  destruct (each (log_one db_err) data w1) as [[u|e|] w2]; try done. rewrite IH. cbn. by rewrite <- app_assoc.
Qed.

(** The tables a tick leaves behind. *)
Definition ticked (st : NPStatic) (locked : Z -> UUID -> bool) (now : Z) (t t' : NPTables) : Prop :=
  exists data t1, queueMessages st locked now t = inl (data, t1) /\
    t' = mkNPTables (np_cycles t1) (np_messages t1) (np_logs t1 ++ data).

Lemma update_spec st db_err adv_lock clock locked w :
  match update st db_err adv_lock clock locked w with
  | (Ok _, w') => ticked st locked (clock (db_calls w)) (db_tbl w) (db_tbl w') \/
      db_tbl w' = db_tbl w /\ exists n e, db_err n = Some e /\ contact_method_deleted e = true
  | (_, w') => db_tbl w' = db_tbl w
  end.
Proof.
  unfold update. pose proof (BeginTx_tbl db_err adv_lock w) as H0.
  destruct (Database.BeginTx db_err adv_lock w) as [[u|e|] w1]; [|exact H0|exact H0]. cbn in H0.
  unfold Database.stmt at 1. destruct (db_err (db_calls w1)) as [e|] eqn:Ee.
  { destruct (contact_method_deleted e) eqn:Ec; [|done]. right. split; [done|]. eauto. }
  rewrite H0. destruct (queueMessages st locked (clock (db_calls w)) (db_tbl w)) as [[data t1]|e] eqn:Eq; [|by unfold queueMessages in Eq].
  unfold bind. pose proof (each_log db_err data (set_tbl t1 (tick w1))) as HL.
  destruct (each (log_one db_err) data (set_tbl t1 (tick w1))) as [[u'|e|] w3]; [|done|done].
  pose proof (call_tbl db_err w3) as Hc. destruct (Database.call db_err w3) as [[u''|e|] w4]; [|done|done].
  left. exists data, t1. split; [done|]. cbn in Hc. by rewrite Hc, HL.
Qed.

Lemma lock_cycles_elem locked now t id c :
  (id, c) ∈ lock_cycles locked now t -> np_cycles t !! id = Some c /\ due now c = true /\ locked now id = false.
Proof.
  unfold lock_cycles. intros Hin. apply elem_of_firstn in Hin.
  apply elem_of_filter_bool in Hin as [Hin Hl]. rewrite (sort_slice_perm tick_before) in Hin.
  apply elem_of_filter_bool in Hin as [Hin Hd]. apply map_range_elem in Hin. cbn in *. bprop. done.
Qed.

Lemma lock_cycles_nodup locked now t : NoDup (map fst (lock_cycles locked now t)).
Proof.
  unfold lock_cycles. rewrite <- List.firstn_map. eapply sublist_NoDup; [|apply sublist_take].
  assert (forall (f : UUID * Cycle -> bool) l, NoDup (map fst l) -> NoDup (map fst (List.filter f l))) as Hf.
  { intros f l HN. eapply sublist_NoDup; [exact HN|]. clear. induction l as [|x l IH]; [done|]. cbn.
    case_match; cbn; by constructor. }
  apply Hf. set (l := List.filter _ (map_range _)).
  assert (map fst (sort_slice tick_before l) ≡ₚ map fst l) as -> by by rewrite sort_slice_perm.
  apply Hf, map_range_nodup.
Qed.

(** The messages of one cycle. *)
Definition messages_of (id : UUID) (t : NPTables) : list UserMessage :=
  List.filter (fun m => um_cycle m =? id) (np_messages t).

Lemma inserted_cycle st now ic m : m ∈ inserted st now ic -> um_cycle m = fst ic.
Proof.
  unfold inserted. destruct ic as [id c]. destruct (service_of st c) as [[svc sv]|]; [|by intros ?%elem_of_nil].
  destruct (recipient_valid st c); [|by intros ?%elem_of_nil].
  rewrite elem_of_remove_dups, list_elem_of_fmap. by intros (r & -> & _).
Qed.

(** A tick, as one cycle sees it: not selected, over, or ticked. *)
Definition tick_of (st : NPStatic) (locked : Z -> UUID -> bool) (now : Z) (t t' : NPTables) (id : UUID) : Prop :=
  (forall c, (id, c) ∉ lock_cycles locked now t) /\
    np_cycles t' !! id = np_cycles t !! id /\ messages_of id t' = messages_of id t \/
  exists c, (id, c) ∈ lock_cycles locked now t /\
    (is_over st c = true /\ np_cycles t' !! id = None /\ messages_of id t' = [] \/
     is_over st c = false /\ np_cycles t' !! id = Some (set_tick now c) /\
       messages_of id t' = messages_of id t ++ inserted st now (id, c)).

Lemma fst_elem {A B} (l : list (A * B)) a b : (a, b) ∈ l -> a ∈ map fst l.
Proof. intros Hin. by apply (list_elem_of_fmap_2 fst _ (a, b)). Qed.

Lemma elem_of_fst {A B} (l : list (A * B)) a : a ∈ map fst l <-> exists b, (a, b) ∈ l.
Proof.
  rewrite list_elem_of_fmap. split; [intros ([a' b] & -> & Hin); by exists b|intros (b & Hin); by exists (a, b)].
Qed.

Lemma kept_messages (del : list UUID) l id :
  List.filter (fun m => um_cycle m =? id) (List.filter (fun m => negb (bool_decide (um_cycle m ∈ del))) l) =
  if bool_decide (id ∈ del) then [] else List.filter (fun m => um_cycle m =? id) l.
Proof.
  induction l as [|m l IH]; cbn [List.filter]; [by case_match|].
  destruct (bool_decide (um_cycle m ∈ del)) eqn:Ed; cbn [negb List.filter]; rewrite IH;
    destruct (um_cycle m =? id) eqn:E; bprop; subst; rewrite ?Ed; try done; by case_match.
Qed.

Lemma ticked_cycle st locked now t t' id : ticked st locked now t t' -> tick_of st locked now t t' id.
Proof.
  intros (data & t1 & E & ->). unfold queueMessages in E. injection E as _ <-. cbn.
  set (del := map fst (deleted st locked now t)). set (proc := process_cycles st locked now t).
  pose proof (lock_cycles_nodup locked now t) as HN.
  assert (NoDup (map fst proc)) as HNp.
  { eapply sublist_NoDup; [exact HN|]. unfold proc, process_cycles. generalize (lock_cycles locked now t) as l.
    clear. induction l as [|x l IH]; [done|]. cbn. case_match; cbn; by constructor. }
  assert (forall c, (id, c) ∈ proc <-> (id, c) ∈ lock_cycles locked now t /\ is_over st c = false) as Hproc.
  { intros c. unfold proc, process_cycles. rewrite elem_of_filter_bool. cbn. by rewrite negb_true_iff. }
  assert (id ∈ del <-> exists c, (id, c) ∈ lock_cycles locked now t /\ is_over st c = true) as Hdel.
  { unfold del, deleted. rewrite elem_of_fst. by setoid_rewrite elem_of_filter_bool. }
  assert (forall c c', (id, c) ∈ lock_cycles locked now t -> (id, c') ∈ lock_cycles locked now t -> c = c') as Huniq.
  { intros c c' H1%lock_cycles_elem H2%lock_cycles_elem. destruct H1 as [H1 _], H2 as [H2 _]. congruence. }
  destruct (filter_one fst (inserted st now) um_cycle id proc HNp (inserted_cycle st now)) as [I1 I2].
  unfold tick_of, messages_of. cbn. rewrite List.filter_app, kept_messages.
  destruct (decide (id ∈ map fst (lock_cycles locked now t))) as [Hin|Hin]; rewrite elem_of_fst in Hin.
  - destruct Hin as (c & Hin). right. exists c. split; [done|]. destruct (is_over st c) eqn:Eo; [left|right]; (split; [done|]).
    + assert (id ∈ del) as Hd by (apply Hdel; eauto).
      assert (forall x, x ∈ proc -> fst x <> id) as Hn.
      { intros [id' c'] Hx E. cbn in E. subst id'. apply Hproc in Hx as [Hx E]. rewrite (Huniq _ _ Hx Hin) in E. congruence. }
      rewrite bool_decide_eq_true_2, (I2 Hn) by done. rewrite (fold_alter_other (fun _ => set_tick now) fst) by done.
      split; [|done]. apply map_lookup_filter_None. right. by intros c' _ Hx.
    + assert (id ∉ del) as Hd.
      { rewrite Hdel. intros (c' & Hx & E). rewrite (Huniq _ _ Hx Hin) in E. congruence. }
      assert ((id, c) ∈ proc) as Hp by by apply Hproc.
      rewrite bool_decide_eq_false_2 by done. rewrite (I1 _ Hp eq_refl). split; [|done].
      rewrite (fold_alter_one (fun _ => set_tick now) fst proc _ (id, c)) by done. cbn.
      erewrite (proj2 (map_lookup_filter_Some _ _ _ c)); [done|]. split; [|done]. by apply lock_cycles_elem in Hin as [? _].
  - left. split; [intros c Hc; apply Hin; by exists c|].
    assert (id ∉ del) as Hd by (rewrite Hdel; intros (c' & Hx & _); eauto).
    assert (forall x, x ∈ proc -> fst x <> id) as Hn.
    { intros [id' c'] Hx E. cbn in E. subst id'. apply Hproc in Hx as [Hx _]. eauto. }
    rewrite bool_decide_eq_false_2, (I2 Hn), app_nil_r by done. split; [|done].
    rewrite (fold_alter_other (fun _ => set_tick now) fst) by done.
    destruct (np_cycles t !! id) as [c|] eqn:E; [by apply map_lookup_filter_Some|apply map_lookup_filter_None; by left].
Qed.

(** ** Every rule fires once *)

Section cycle.
Context (id : UUID) (a : Z) (u : UUID) (start : Z) (multi : bool) (rules : list UserRule).

Definition cycle_at (last : option Z) : Cycle := mkNPCycle a u start last multi.

(** The rules for a contact method whose delay had passed at the last tick. *)
Definition is_due (cm : UUID) (l : Z) (r : UserRule) : bool :=
  (ur_contact_method r =? cm) && (delay_minutes r * Minute <=? l - start).

Definition due_rules (cm : UUID) (last : option Z) : nat :=
  match last with None => 0%nat | Some l => length (List.filter (is_due cm l) rules) end.

Definition of_method (cm : UUID) (l : list UserMessage) : list UserMessage :=
  List.filter (fun m => um_contact_method m =? cm) l.

(** The user has these rules. *)
Definition has_rules (st : NPStatic) : Prop := List.filter (fun r => ur_user r =? u) (np_rules st) = rules.

Lemma inserted_spec st now last m :
  m ∈ inserted st now (id, cycle_at last) <->
  recipient_valid st (cycle_at last) = true /\
  exists r svc sv, r ∈ np_rules st /\ fires now (cycle_at last) r = true /\ service_of st (cycle_at last) = Some (svc, sv) /\
    m = mkUserMessage (ur_contact_method r) a id u svc (sv_policy sv).
Proof.
  unfold inserted. destruct (service_of st (cycle_at last)) as [[svc sv]|] eqn:Es.
  - destruct (recipient_valid st (cycle_at last)); [|split; [by intros ?%elem_of_nil|naive_solver]].
    rewrite elem_of_remove_dups, list_elem_of_fmap. setoid_rewrite elem_of_filter_bool.
    assert (forall r, fires now (cycle_at last) r = true -> ur_user r = u) as Hu.
    { intros r E. unfold fires in E. bprop. done. }
    split.
    + intros (r & -> & Hr & Hf). split; [done|]. exists r, svc, sv. cbn. by rewrite (Hu r Hf).
    + intros (_ & r & svc' & sv' & Hr & Hf & [= <- <-] & ->). exists r. cbn. by rewrite (Hu r Hf).
  - split; [by intros ?%elem_of_nil|naive_solver].
Qed.

Lemma nodup_same {A} (l : list A) : NoDup l -> (forall x y, x ∈ l -> y ∈ l -> x = y) -> (length l <= 1)%nat.
Proof.
  intros HN Hl. destruct HN as [|x l Hx HN]; [cbn; lia|]. destruct l as [|y l]; [cbn; lia|]. exfalso.
  apply Hx. rewrite (Hl x y) by set_solver. by left.
Qed.

Lemma length_filter_pos {A} (f : A -> bool) l : (0 < length (List.filter f l))%nat <-> exists x, x ∈ l /\ f x = true.
Proof.
  setoid_rewrite <- elem_of_filter_bool. destruct (List.filter f l) as [|x l']; cbn.
  - split; [lia|]. intros (x & Hx%elem_of_nil). done.
  - split; [|lia]. intros _. exists x. by left.
Qed.

(** The rules of a method that fire in a tick. *)
Definition firing (now : Z) (last : option Z) (cm : UUID) : list UserRule :=
  List.filter (fun r => (ur_contact_method r =? cm) && fires now (cycle_at last) r) rules.

Lemma inserted_count st now last cm : has_rules st ->
  let n := length (of_method cm (inserted st now (id, cycle_at last))) in
  (n <= 1)%nat /\ ((0 < n)%nat <-> recipient_valid st (cycle_at last) = true /\ (0 < length (firing now last cm))%nat).
Proof.
  intros HR'. cbv zeta. split.
  - apply nodup_same.
    + apply NoDup_ListNoDup, List.NoDup_filter, NoDup_ListNoDup. unfold inserted. repeat case_match; try apply NoDup_nil_2.
      apply NoDup_remove_dups.
    + unfold of_method. intros x y Hx Hy. rewrite elem_of_filter_bool, inserted_spec in Hx, Hy.
      destruct Hx as [(_ & r & svc & sv & _ & _ & E & ->) Ex], Hy as [(_ & r' & svc' & sv' & _ & _ & E' & ->) Ey].
      cbn in *. bprop. congruence.
  - unfold of_method, firing. rewrite !length_filter_pos. setoid_rewrite inserted_spec. rewrite <- HR'.
    setoid_rewrite elem_of_filter_bool. split.
    + intros (m & (Hv & r & svc & sv & Hr & Hf & Es & ->) & E). cbn in E. split; [done|]. exists r. rewrite E, Hf.
      split; [|done]. split; [done|]. unfold fires in Hf. by apply andb_true_iff in Hf as [Hf _]; apply andb_true_iff in Hf as [Hf _].
    + intros (Hv & r & [Hr Hu] & E). apply andb_true_iff in E as [E Hf].
      assert (exists svc sv, service_of st (cycle_at last) = Some (svc, sv)) as (svc & sv & Es).
      { unfold recipient_valid in Hv. destruct (service_of st (cycle_at last)) as [[svc sv]|]; [eauto|done]. }
      eexists. split; [split; [exact Hv|]; exists r, svc, sv; eauto|]. done.
Qed.

Lemma due_rules_tick st now last cm : has_rules st -> (forall l, last = Some l -> l <= now) ->
  due_rules cm (Some now) = (due_rules cm last + length (firing now last cm))%nat.
Proof.
  intros HR' Hl.
  assert (Forall (fun r => (ur_user r =? u) = true) rules) as HF.
  { rewrite <- HR'. apply Forall_forall. intros r Hr. by apply elem_of_filter_bool in Hr as [_ ?]. }
  cbn [due_rules]. unfold firing, fires, is_due, cycle_at. cbn [last_tick started_at cy_user].
  clear HR'. destruct last as [l|]; cbn [due_rules]; induction HF as [|r rs Hr HF IH]; try done; cbn [List.filter]; rewrite Hr;
    unfold is_due in *; destruct (ur_contact_method r =? cm); cbn [andb]; try done.
  - specialize (Hl l eq_refl). destruct (l - start <? delay_minutes r * Minute) eqn:E1,
      (delay_minutes r * Minute <=? now - start) eqn:E2, (delay_minutes r * Minute <=? l - start) eqn:E3; bprop;
      cbn [andb length] in *; rewrite ?IH; lia.
  - destruct (_ <=? _); cbn [length] in *; rewrite ?IH; lia.
Qed.

(** What happens to a cycle: ticks, that may fail anywhere, with anything else
    changing in between: the alert, the service, other cycles and messages.  The
    rules of the user stay; [valid] says that the recipient was at every tick. *)
Inductive history : bool -> NPTables -> Prop :=
  | nh_start t : np_cycles t !! id = Some (cycle_at None) -> messages_of id t = [] -> history true t
  | nh_tick valid st db_err adv_lock clock locked w : has_rules st -> history valid (db_tbl w) ->
      history (valid && recipient_valid st (cycle_at None)) (db_tbl (update st db_err adv_lock clock locked w).2)
  | nh_change valid t t' : history valid t ->
      np_cycles t' !! id = np_cycles t !! id -> messages_of id t' = messages_of id t -> history valid t'.

Definition fired (valid : bool) (t : NPTables) (last : option Z) (cm : UUID) : Prop :=
  let n := length (of_method cm (messages_of id t)) in
  (n <= due_rules cm last)%nat /\ (valid = true -> 0 < due_rules cm last -> 0 < n)%nat.

Definition cycle_inv (valid : bool) (t : NPTables) : Prop :=
  match np_cycles t !! id with
  | None => messages_of id t = []
  | Some c => exists last, c = cycle_at last /\ forall cm, fired valid t last cm
  end.

Lemma ticked_inv st locked now t t' valid : has_rules st -> ticked st locked now t t' -> cycle_inv valid t ->
  cycle_inv (valid && recipient_valid st (cycle_at None)) t'.
Proof.
  intros HR' HT HI. destruct (ticked_cycle st locked now t t' id HT) as [(_ & E1 & E2)|(c & Hin & HC)].
  - unfold cycle_inv in *. rewrite E1, E2. destruct (np_cycles t !! id) as [c|]; [|done].
    destruct HI as (last & -> & HF). exists last. split; [done|]. intros cm. unfold fired. rewrite E2.
    destruct (HF cm) as [H1 H2]. split; [done|]. intros [Hv _]%andb_true_iff. by apply H2.
  - apply lock_cycles_elem in Hin as (Ec & Hd & _). unfold cycle_inv in *. rewrite Ec in HI.
    destruct HC as [(_ & E1 & E2)|(_ & E1 & E2)]; rewrite E1; [done|].
    destruct HI as (last & -> & HF).
    assert (forall l, last = Some l -> l < now) as Hl.
    { intros l ->. unfold due in Hd. cbn in Hd. bprop. unfold Minute, Second in Hd. lia. }
    exists (Some now). split.
    { unfold set_tick, cycle_at. cbn. destruct last as [l|]; [|done]. rewrite Z.max_r; [done|]. specialize (Hl l eq_refl). lia. }
    intros cm. unfold fired. rewrite E2. unfold of_method at 1 2. rewrite List.filter_app, length_app.
    fold (of_method cm (messages_of id t)). fold (of_method cm (inserted st now (id, cycle_at last))).
    rewrite (due_rules_tick st now last cm HR') by (intros l E; specialize (Hl l E); lia).
    destruct (inserted_count st now last cm HR') as [N1 N2]. destruct (HF cm) as [F1 F2]. split; [lia|].
    intros [Hv Hr]%andb_true_iff. specialize (F2 Hv). change (recipient_valid st (cycle_at last)) with (recipient_valid st (cycle_at None)) in N2.
    rewrite Hr in N2. intros Hp. destruct (decide (0 < length (firing now last cm))%nat) as [Hf|Hf]; [|lia].
    pose proof (proj2 N2 (conj eq_refl Hf)). lia.
Qed.

Lemma history_inv valid t : history valid t -> cycle_inv valid t.
Proof.
  induction 1 as [t Ec Em|valid st db_err adv_lock clock locked w HR' _ IH|valid t t' _ IH E1 E2].
  - unfold cycle_inv. rewrite Ec. exists None. split; [done|]. intros cm. unfold fired. rewrite Em. cbn. lia.
  - assert (forall valid' t', db_tbl w = t' -> cycle_inv valid t' -> cycle_inv (valid && valid') t') as Hw.
    { intros valid' t' _. unfold cycle_inv. case_match; [|done]. intros (last & -> & HF). exists last. split; [done|].
      intros cm. destruct (HF cm) as [H1 H2]. split; [done|]. intros [Hv _]%andb_true_iff. by apply H2. }
    pose proof (update_spec st db_err adv_lock clock locked w) as HS.
    destruct (update st db_err adv_lock clock locked w) as [[x|e|] w']; cbn [snd]; [destruct HS as [HS|[HS _]]|..];
      [by eapply ticked_inv|by rewrite HS; apply Hw..].
  - unfold cycle_inv, fired in *. by rewrite E1, E2.
Qed.

(** C19: in a notification cycle every rule of the user fires at most once: a
    contact method has at most as many messages as it has rules that are due by
    the last tick.  If the recipient was valid at every tick it has a message
    once a rule is due, hence exactly one for a single rule.  No message is left
    when the cycle is gone.  It holds whatever fails. *)
Theorem rules_fire_once valid t (HH : history valid t) :
  match np_cycles t !! id with
  | None => messages_of id t = []
  | Some c => exists last, c = cycle_at last /\ forall cm,
      let n := length (of_method cm (messages_of id t)) in
      (n <= due_rules cm last)%nat /\
      (valid = true -> (0 < due_rules cm last -> 0 < n)%nat /\ (due_rules cm last = 1%nat -> n = 1%nat))
  end.
Proof.
  pose proof (history_inv valid t HH) as HI. unfold cycle_inv in HI. destruct (np_cycles t !! id); [|done].
  destruct HI as (last & -> & HF). exists last. split; [done|]. intros cm. destruct (HF cm) as [H1 H2]. cbv zeta.
  split; [done|]. intros Hv. specialize (H2 Hv). split; [done|]. lia.
Qed.
End cycle.

(** ** The order of cycles *)

Lemma tick_before_weak : strict_weak tick_before.
Proof.
  unfold tick_before. split; intros *; repeat case_match; rewrite ?orb_true_iff, ?orb_false_iff, ?andb_true_iff, ?andb_false_iff,
    ?Z.ltb_lt, ?Z.ltb_ge, ?Z.eqb_eq, ?Z.eqb_neq; try done; lia.
Qed.

(** A due cycle that nobody holds and the tick does not handle. *)
Definition passed_over (locked : Z -> UUID -> bool) (now : Z) (t : NPTables) (id : UUID) (c : Cycle) : Prop :=
  np_cycles t !! id = Some c /\ due now c = true /\ locked now id = false /\ (id, c) ∉ lock_cycles locked now t.

(** The most overdue cycles go first: where a due cycle is passed over, the
    tick handles 1250 others, and none of them has been waiting for less long. *)
Theorem most_overdue_first locked now t id c (HP : passed_over locked now t id c) :
  length (lock_cycles locked now t) = 1250%nat /\
  forall x, x ∈ lock_cycles locked now t -> tick_before (id, c) x = false.
Proof.
  destruct HP as (Hc & Hd & Hl & Hn). unfold lock_cycles in *. set (l := List.filter _ (map_range _)) in *. set (l' := List.filter _ (sort_slice _ _)) in *.
  assert ((id, c) ∈ l') as Hin.
  { apply elem_of_filter_bool. cbn. rewrite Hl. split; [|done]. rewrite (sort_slice_perm tick_before).
    apply elem_of_filter_bool. split; [by apply map_range_elem|done]. }
  pose proof Hin as Hin'. rewrite <- (firstn_skipn 1250 l') in Hin'. apply elem_of_app in Hin' as [?|Hs]; [done|]. split.
  - rewrite length_firstn. assert (0 < length (skipn 1250 l'))%nat as Hp
      by (destruct (skipn 1250 l'); [by apply elem_of_nil in Hs|cbn; lia]).
    rewrite length_skipn in Hp. lia.
  - intros x Hx. apply (sorted_app (not_after tick_before) (firstn 1250 l') (skipn 1250 l') x (id, c)); [|done|done].
    rewrite firstn_skipn. apply sorted_filter, sort_slice_sorted, tick_before_weak.
Qed.

Lemma all_selected locked now t id c :
  np_cycles t !! id = Some c -> due now c = true -> (forall i, locked now i = false) ->
  (length (List.filter (fun ic => due now (snd ic)) (map_range (np_cycles t))) <= 1250)%nat ->
  (id, c) ∈ lock_cycles locked now t.
Proof.
  intros Hc Hd Hl Hn. unfold lock_cycles. rewrite List.firstn_all2.
  - apply elem_of_filter_bool. cbn. rewrite Hl. split; [|done]. rewrite (sort_slice_perm tick_before).
    apply elem_of_filter_bool. split; [by apply map_range_elem|done].
  - etrans; [apply List.filter_length_le|].
    rewrite (Permutation_length (sort_slice_perm tick_before (List.filter _ (map_range _)))). done.
Qed.

(** ** A tick that fails nowhere *)

(** The delay of a rule has passed since the last tick. *)
Definition rule_fires (now : Z) (c : Cycle) (r : UserRule) : Prop :=
  ur_user r = cy_user c /\ started_at c + delay_minutes r * Minute <= now /\
  forall l, last_tick c = Some l -> l < started_at c + delay_minutes r * Minute.

Lemma fires_spec now c r : fires now c r = true <-> rule_fires now c r.
Proof.
  unfold fires, rule_fires. rewrite !andb_true_iff, Z.eqb_eq, Z.leb_le. destruct (last_tick c) as [l|].
  - rewrite Z.ltb_lt. split; [intros [[? ?] ?]; split; [done|]; split; [lia|]; intros ? [= <-]; lia|].
    intros (? & ? & Hl). specialize (Hl l eq_refl). lia.
  - split; [intros [[? _] ?]; split; [done|]; split; [lia|done]|]. intros (? & ? & _). lia.
Qed.

(** A cycle after the tick at [now]. *)
Definition cycle_ticked (st : NPStatic) (now : Z) (t t' : NPTables) (id : UUID) (c : Cycle) : Prop :=
  if negb (due now c) then np_cycles t' !! id = Some c /\ messages_of id t' = messages_of id t
  else if is_over st c then np_cycles t' !! id = None /\ messages_of id t' = []
  else np_cycles t' !! id = Some (mkNPCycle (cy_alert c) (cy_user c) (started_at c) (Some now) (cy_multi_ack c)) /\
    exists new, messages_of id t' = messages_of id t ++ new /\ NoDup (map um_contact_method new) /\
      forall cm, cm ∈ map um_contact_method new <->
        recipient_valid st c = true /\ exists r, r ∈ np_rules st /\ ur_contact_method r = cm /\ rule_fires now c r.

Lemma inserted_methods st now id c :
  let new := inserted st now (id, c) in
  NoDup (map um_contact_method new) /\
  forall cm, cm ∈ map um_contact_method new <->
    recipient_valid st c = true /\ exists r, r ∈ np_rules st /\ ur_contact_method r = cm /\ rule_fires now c r.
Proof.
  cbv zeta. destruct c as [a u start last multi].
  pose proof (inserted_spec id a u start multi st now last) as HS. unfold cycle_at in HS. set (c := mkNPCycle _ _ _ _ _) in *. split.
  - apply NoDup_fmap_2_strong.
    + intros x y Hx%HS Hy%HS E. destruct Hx as (_ & r & svc & sv & _ & _ & E1 & ->), Hy as (_ & r' & svc' & sv' & _ & _ & E2 & ->).
      cbn in E. congruence.
    + unfold inserted. repeat case_match; try apply NoDup_nil_2. apply NoDup_remove_dups.
  - intros cm. rewrite list_elem_of_fmap. setoid_rewrite HS. split.
    + intros (m & -> & Hv & r & svc & sv & Hr & Hf%fires_spec & _ & ->). eauto 8.
    + intros (Hv & r & Hr & <- & Hf%fires_spec).
      assert (exists svc sv, service_of st c = Some (svc, sv)) as (svc & sv & Es).
      { unfold recipient_valid in Hv. destruct (service_of st c) as [[svc sv]|]; [eauto|done]. }
      eexists. split; [|split; [done|]; exists r, svc, sv; eauto]. done.
Qed.

(** What is logged for a cycle: nobody could be notified at first, or not at all. *)
Definition noted (st : NPStatic) (now : Z) (t : NPTables) (n : NoNotification) : Prop :=
  exists id c, np_cycles t !! id = Some c /\ due now c = true /\ is_over st c = false /\
    nn_alert n = cy_alert c /\ nn_user n = cy_user c /\
    if recipient_valid st c then nn_denied n = false /\ last_tick c = None /\
      (forall r, r ∈ np_rules st -> ~ rule_fires now c r)
    else nn_denied n = true.

Lemma inserted_nil st now id c : recipient_valid st c = true ->
  inserted st now (id, c) = [] <-> (forall r, r ∈ np_rules st -> ~ rule_fires now c r).
Proof.
  intros Hv. destruct (inserted_methods st now id c) as [_ HM]. split.
  - intros E r Hr Hf. rewrite E in HM. specialize (HM (ur_contact_method r)). cbn in HM.
    eapply elem_of_nil, HM. split; [done|]. by exists r.
  - intros Hr. destruct (inserted st now (id, c)) as [|m l] eqn:E; [done|]. exfalso.
    destruct (proj1 (HM (um_contact_method m))) as (_ & r & Hin & _ & Hf); [cbn; by left|]. by apply (Hr r).
Qed.

(** A tick that fails nowhere handles every due cycle, if none is locked and
    no more than 1250 are due.  A cycle that is over goes, with its messages; of
    the others each contact method gets one message for the rules whose delay has
    passed since the last tick, and none if the recipient is not valid.  What is
    not due stays as it is, and exactly the failures to notify are logged. *)
Theorem tick_handles_all_due st db_err adv_lock clock locked w w'
  (HOK : update st db_err adv_lock clock locked w = (Ok tt, w'))
  (HF : forall n e, db_err n = Some e -> contact_method_deleted e = false)
  (HL : forall i, locked (clock (db_calls w)) i = false)
  (HN : (length (List.filter (fun ic => due (clock (db_calls w)) (snd ic)) (map_range (np_cycles (db_tbl w)))) <= 1250)%nat) :
  let now := clock (db_calls w) in
  (forall id c, np_cycles (db_tbl w) !! id = Some c -> cycle_ticked st now (db_tbl w) (db_tbl w') id c) /\
  exists logs, np_logs (db_tbl w') = np_logs (db_tbl w) ++ logs /\ forall n, n ∈ logs <-> noted st now (db_tbl w) n.
Proof.
  cbv zeta. pose proof (update_spec st db_err adv_lock clock locked w) as HS. rewrite HOK in HS.
  destruct HS as [HT|(_ & n & e & E & Ec)]; [|rewrite (HF n e E) in Ec; done].
  set (now := clock (db_calls w)) in *. set (t := db_tbl w) in *. split.
  - intros id c Hc. unfold cycle_ticked. destruct (ticked_cycle st locked now t (db_tbl w') id HT) as [(Hno & E1 & E2)|(c' & Hin & HC)].
    + destruct (due now c) eqn:Ed; cbn [negb]; [|by rewrite E1].
      exfalso. apply (Hno c). apply all_selected; [done|done|intros i; apply HL|exact HN].
    + apply lock_cycles_elem in Hin as (Ec & Ed & _). rewrite Hc in Ec. injection Ec as <-. rewrite Ed. cbn [negb].
      destruct HC as [(Eo & E1 & E2)|(Eo & E1 & E2)]; rewrite Eo; [done|].
      split; [|exists (inserted st now (id, c)); split; [done|]; apply inserted_methods].
      rewrite E1. unfold set_tick. f_equal. f_equal. unfold due in Ed. destruct (last_tick c) as [l|]; [|done].
      bprop. unfold Minute, Second in Ed. f_equal. lia.
  - destruct HT as (data & t1 & E & ->). unfold queueMessages in E. injection E as <- <-. cbn [np_logs]. eexists. split; [done|].
    assert (forall id c, (id, c) ∈ process_cycles st locked now t <->
      np_cycles t !! id = Some c /\ due now c = true /\ is_over st c = false) as HP.
    { intros id c. unfold process_cycles. rewrite elem_of_filter_bool. cbn. rewrite negb_true_iff. split.
      - intros [Hin%lock_cycles_elem Ho]. tauto.
      - intros (Hc & Hd & Ho). split; [|done]. apply all_selected; [done|done|intros i; apply HL|exact HN]. }
    intros n. rewrite elem_of_app, !list_elem_of_fmap. setoid_rewrite elem_of_filter_bool. unfold noted. split.
    + intros [([id c] & -> & [Hin%HP Hb])|([id c] & -> & [Hin%HP Hb])]; exists id, c; cbn in *.
      * unfold no_first_notif_sent in Hb. cbn [fst snd] in Hb. rewrite !andb_true_iff, !bool_decide_eq_true in Hb.
        destruct Hb as [[Ev El] En]. rewrite Ev. rewrite (inserted_nil st now id c Ev) in En. tauto.
      * bprop. rewrite Hb. tauto.
    + intros (id & c & Hc & Hd & Ho & Ea & Eu & Hb). destruct n as [na nu nd]. cbn in *.
      assert ((id, c) ∈ process_cycles st locked now t) as Hin by by apply HP.
      destruct (recipient_valid st c) eqn:Ev.
      * left. destruct Hb as (-> & El & Hr). exists (id, c). unfold note. cbn. rewrite Ea, Eu. split; [done|]. split; [done|].
        unfold no_first_notif_sent. cbn [fst snd]. rewrite (proj2 (inserted_nil st now id c Ev) Hr), Ev, El. done.
      * right. exists (id, c). unfold note. cbn. rewrite Ea, Eu, Hb, Ev. done.
Qed.

End spec.

(** ** A sample run *)

(** User 40 is notified at once over contact methods 50 and 51, and after ten
    minutes over 50 again. *)
Definition sample_rules : list UserRule := [mkUserRule 40 50 0; mkUserRule 40 51 0; mkUserRule 40 50 10].

Definition sample_np : NPStatic :=
  mkNPStatic {[1 := mkAlert StatusTriggered 10; 2 := mkAlert StatusClosed 10]} {[10 := mkService 20 100 None]}
    {[20 := mkPolicy 100 0 2]} {[40 := 100; 42 := 101]} (mkUserRule 41 52 0 :: sample_rules) [].

(** The cycle of user 40, one of a user of another organization, and one of an
    alert that was closed. *)
Definition sample_cycles : NPTables :=
  mkNPTables {[7 := mkNPCycle 1 40 1000 None false; 8 := mkNPCycle 1 42 1000 None false; 9 := mkNPCycle 2 40 500 (Some 600) false]}
    [mkUserMessage 50 2 9 40 10 20] [].

(** No call fails. *)
Definition run_tick (start : Z) (t : NPTables) : res DBErr unit * DBWorld NPTables :=
  @update ordered_map_range stable_go_sort sample_np (fun _ => None) (fun _ => true)
    (fun n => start + Z.of_nat (n `min` 1000)) (fun _ _ => false) (mkDB t 0).

(** Ticks, four minutes apart. *)
Definition after_ticks : NPTables :=
  fold_left (fun t k => db_tbl (run_tick (1000 + k * 4 * Minute) t).2) [1; 2; 3; 4] sample_cycles.

Lemma ticks_history l t :
  @history ordered_map_range stable_go_sort 7 1 40 1000 false sample_rules true t ->
  @history ordered_map_range stable_go_sort 7 1 40 1000 false sample_rules true
    (fold_left (fun t k => db_tbl (run_tick (1000 + k * 4 * Minute) t).2) l t).
Proof.
  revert t. induction l as [|k l IH]; intros t Ht; [done|]. cbn [fold_left]. apply IH.
  exact (nh_tick 7 1 40 1000 false sample_rules true sample_np (fun _ => None) (fun _ => true)
    (fun n => 1000 + k * 4 * Minute + Z.of_nat (Nat.min n 1000)) (fun _ _ => false) (mkDB t 0) eq_refl Ht).
Qed.

Lemma after_ticks_history : @history ordered_map_range stable_go_sort 7 1 40 1000 false sample_rules true after_ticks.
Proof. apply ticks_history. by apply nh_start. Qed.

Lemma rules_fire_once_witness :
  map um_contact_method (messages_of 7 after_ticks) = [50; 51; 50] /\
  match np_cycles after_ticks !! 7 with
  | None => messages_of 7 after_ticks = []
  | Some c => exists last, c = cycle_at 1 40 1000 false last /\ forall cm,
      let n := length (of_method cm (messages_of 7 after_ticks)) in
      (n <= due_rules 1000 sample_rules cm last)%nat /\
      (true = true -> (0 < due_rules 1000 sample_rules cm last -> 0 < n)%nat /\
        (due_rules 1000 sample_rules cm last = 1%nat -> n = 1%nat))
  end.
Proof.
  split; [vm_compute; reflexivity|].
  exact (@rules_fire_once ordered_map_range stable_go_sort 7 1 40 1000 false sample_rules true after_ticks after_ticks_history).
Defined.

Lemma tick_handles_all_due_witness :
  np_logs (db_tbl (run_tick 2000 sample_cycles).2) = [mkNoNotification 1 42 true] /\
  cycle_ticked sample_np 2000 sample_cycles (db_tbl (run_tick 2000 sample_cycles).2) 7 (mkNPCycle 1 40 1000 None false).
Proof.
  split; [vm_compute; reflexivity|].
  refine (proj1 (@tick_handles_all_due ordered_map_range stable_go_sort sample_np (fun _ => None) (fun _ => true)
    (fun n => 2000 + Z.of_nat (Nat.min n 1000)) (fun _ _ => false) (mkDB sample_cycles 0) (run_tick 2000 sample_cycles).2
    _ _ _ _) 7 (mkNPCycle 1 40 1000 None false) _).
  - vm_compute. reflexivity.
  - discriminate.
  - reflexivity.
  - vm_compute. lia.
  - vm_compute. reflexivity.
Defined.

(** 1251 cycles that were never ticked: the last one started has to wait. *)
Definition many_cycles : NPTables :=
  mkNPTables (list_to_map (map (fun i => (Z.of_nat i, mkNPCycle 1 40 (Z.of_nat i) None false)) (seq 0 1251))) [] [].

Lemma most_overdue_first_witness :
  length (@lock_cycles ordered_map_range stable_go_sort (fun _ _ => false) 0 many_cycles) = 1250%nat /\
  forall x, x ∈ @lock_cycles ordered_map_range stable_go_sort (fun _ _ => false) 0 many_cycles ->
    tick_before (1250, mkNPCycle 1 40 1250 None false) x = false.
Proof.
  apply (@most_overdue_first ordered_map_range stable_go_sort (fun _ _ => false) 0 many_cycles 1250
    (mkNPCycle 1 40 1250 None false)).
  split; [vm_compute; reflexivity|]. split; [reflexivity|]. split; [reflexivity|].
  - intros Hin.
    assert (existsb (fun ic => fst ic =? 1250)
      (@lock_cycles ordered_map_range stable_go_sort (fun _ _ => false) 0 many_cycles) = false) as Hno by (vm_compute; reflexivity).
    apply Bool.not_true_iff_false in Hno. apply Hno, existsb_exists. exists (1250, mkNPCycle 1 40 1250 None false).
    split; [by apply list_elem_of_In|reflexivity].
Defined.
