(* ===== verification/AlertPath.v ===== *)
(** * From an alert to the contact methods of the users on call

    The engine runs the modules one after another on the same database: the
    escalation manager starts a notification cycle for every user on call, the
    notification cycle manager queues the messages that the rules of the users
    ask for.  Together a new alert reaches everybody who should be on call. *)

From S2P Require Import Prelude Effects Database GoTime Escalation EscalationSpec NotificationCycle NotificationCycleSpec.

Section path.
Context {HR : GoMapRange} {HG : GoSort}.

(** The row of a cycle that was started: not ticked yet. *)
Definition new_row (c : NewCycle) : Cycle := mkNPCycle (nc_alert c) (nc_user c) (nc_started c) None (nc_multi_ack c).

(** The tables that the notification cycles work on hold the cycles started
    between [t] and [t'], still without messages. *)
Definition carried (a : Z) (t t' : Tables) (np : NPTables) : Prop :=
  forall new c, cycles_of a t' = cycles_of a t ++ new -> c ∈ new ->
    exists id, np_cycles np !! id = Some (new_row c) /\ NotificationCycleSpec.messages_of id np = [].

(** Nothing was changed that concerns the alert since it was escalated. *)
Record same_alert (st : Static) (nst : NPStatic) (a : Z) (s : EPState) (svc : UUID) (sv : Service) : Prop := {
  sa_alert : np_alerts nst !! a = Some (mkAlert StatusTriggered svc);
  sa_service : exists sv', np_services nst !! svc = Some sv' /\ sv_org sv' = sv_org sv /\ sv_policy sv' = es_policy s;
  sa_policies : np_policies nst = t_policies st;
  sa_affiliation : np_affiliation nst = t_affiliation st
}.

(** A user is notified over exactly the contact methods that have a rule whose
    delay has passed since the start. *)
Definition user_notified (nst : NPStatic) (now start : Z) (np' : NPTables) (id : UUID) (u : UUID) : Prop :=
  NoDup (map um_contact_method (NotificationCycleSpec.messages_of id np')) /\
  forall cm, cm ∈ map um_contact_method (NotificationCycleSpec.messages_of id np') <->
    exists r, r ∈ np_rules nst /\ ur_user r = u /\ ur_contact_method r = cm /\ start + delay_minutes r * Minute <= now.

Lemma new_row_valid st nst a s svc sv sid ep u c :
  same_alert st nst a s svc sv -> t_policies st !! es_policy s = Some ep -> sv_org sv = ep_org ep ->
  should_be_on_call st sid u -> (exists step, t_steps st !! sid = Some step /\ st_policy step = es_policy s) ->
  cy_alert c = a -> cy_user c = u -> recipient_valid nst c = true.
Proof.
  intros [A1 (sv' & A2 & A3 & A4) A5 A6] Hep Ho Hu (step & Hstep & Hsp) Ea Eu.
  unfold recipient_valid, service_of. rewrite Ea, A1. cbn. rewrite A2. cbn. rewrite A6, A5, A4, Hep, Eu, A3, Ho, Z.eqb_refl.
  destruct Hu as (x & step' & ep' & _ & _ & E1 & E2 & _ & E3). rewrite Hstep in E1. injection E1 as <-.
  rewrite Hsp, Hep in E2. injection E2 as <-. rewrite E3. by rewrite bool_decide_eq_true_2.
Qed.

(** C1: a new alert reaches everybody on call.  The escalation manager starts one
    cycle for each user who should be on call for the first step, and no other;
    the notification cycle manager then sends each of them one message over every
    contact method that has a rule whose delay has passed, an immediate one for
    instance, and over no other. *)
Theorem alert_reaches_users_on_call st db_err adv_lock clock locked w w' a s svc sv sid step ep
    nst db_err' adv_lock' clock' locked' v v'
  (HOk : Escalation.update st db_err adv_lock clock locked w = (Ok tt, w'))
  (HU : NoDup (open_pairs (t_on_call (db_tbl w)))) (HL : forall now id, locked now id = false)
  (HN : (size (t_states (db_tbl w)) <= 1000)%nat) (Hclock : forall i j, clock i <= clock j + Minute)
  (HA : new_alert st clock (db_tbl w) a s svc sv sid step ep)
  (HC : carried a (db_tbl w) (db_tbl w') (db_tbl v)) (HS : same_alert st nst a s svc sv)
  (HOk' : NotificationCycle.update nst db_err' adv_lock' clock' locked' v = (Ok tt, v'))
  (HF' : forall n e, db_err' n = Some e -> contact_method_deleted e = false)
  (HL' : forall now i, locked' now i = false)
  (HN' : (length (List.filter (fun ic => due (clock' (db_calls v)) (snd ic)) (map_range (np_cycles (db_tbl v)))) <= 1250)%nat) :
  exists i users, paged st a (clock i) (db_tbl w) (db_tbl w') s svc sv sid step ep users /\
    forall u, should_be_on_call st sid u -> sv_org sv = ep_org ep ->
      exists id c, np_cycles (db_tbl v') !! id = Some c /\ cy_alert c = a /\ cy_user c = u /\
        user_notified nst (clock' (db_calls v)) (clock i) (db_tbl v') id u.
Proof.
  assert (t_steps st !! sid = Some step /\ st_policy step = es_policy s) as Hstep
    by (destruct HA as [_ _ _ _ _ _ _ A8 _]; apply step_at_spec in A8; tauto).
  destruct (new_alert_is_paged st db_err adv_lock clock locked w w' a s svc sv sid step ep HOk HU HL HN Hclock HA) as (i & users & HP).
  exists i, users. split; [done|]. intros u Hu Ho. set (now := clock' (db_calls v)) in *.
  destruct (HC _ (mkCycle a u (multi_ack step) (clock i)) (pg_cycles _ _ _ _ _ _ _ _ _ _ _ _ HP)) as (id & Eid & Em).
  { apply list_elem_of_fmap. exists u. split; [done|]. by apply (pg_users _ _ _ _ _ _ _ _ _ _ _ _ HP). }
  set (c := new_row _) in Eid.
  assert (recipient_valid nst c = true) as Hv
    by (eapply (new_row_valid st nst a s svc sv sid ep u); [exact HS|by apply HA|done|done|by exists step|done|done]).
  pose proof (NotificationCycleSpec.update_spec nst db_err' adv_lock' clock' locked' v) as HT. rewrite HOk' in HT.
  destruct HT as [HT|(_ & n & e & E & Ec)]; [|rewrite (HF' n e E) in Ec; done].
  assert ((id, c) ∈ lock_cycles locked' now (db_tbl v)) as Hsel
    by (apply all_selected; [done|done|intros j; apply HL'|exact HN']).
  destruct (ticked_cycle nst locked' now (db_tbl v) (db_tbl v') id HT) as [(Hno & _)|(c' & Hin & H)]; [by destruct (Hno c)|].
  apply lock_cycles_elem in Hin as (Ec & _). rewrite Eid in Ec. injection Ec as <-.
  assert (is_over nst c = false) as Eo by (unfold is_over; cbn; rewrite (sa_alert _ _ _ _ _ _ HS); done).
  destruct H as [(? & _)|(_ & E1 & E2)]; [congruence|]. rewrite Em in E2. cbn [app] in E2.
  exists id, (set_tick now c). split; [done|]. split; [done|]. split; [done|]. unfold user_notified. rewrite E2.
  destruct (inserted_methods nst now id c) as [M1 M2]. split; [done|]. intros cm. rewrite M2. unfold rule_fires. cbn. split.
  - intros (_ & r & Hr & <- & Hu' & Hd & _). exists r. auto.
  - intros (r & Hr & Hu' & <- & Hd). split; [done|]. exists r. split; [done|]. split; [done|]. split; [done|]. by split.
Qed.
End path.

(** ** A sample alert *)

(** User 40 has an immediate rule and one of ten minutes, user 41 an immediate one. *)
Definition path_rules : list UserRule := [mkUserRule 40 50 0; mkUserRule 40 51 10; mkUserRule 41 52 0].

Definition path_np : NPStatic :=
  mkNPStatic (t_alerts sample_static) {[10 := mkService 20 100 None]} (t_policies sample_static)
    (t_affiliation sample_static) path_rules [].

(** The cycles that the sample cycle of escalations starts. *)
Definition path_cycles : NPTables :=
  mkNPTables (list_to_map (imap (fun k c => (Z.of_nat k, new_row c)) (t_cycles (db_tbl (run_cycle 1000 sample_tables).2)))) [] [].

Definition path_tick : res DBErr unit * DBWorld NPTables :=
  @NotificationCycle.update ordered_map_range stable_go_sort path_np (fun _ => None) (fun _ => true)
    (fun n => 5000 + Z.of_nat (n `min` 1000)) (fun _ _ => false) (mkDB path_cycles 0).

Lemma alert_reaches_users_on_call_witness :
  map (fun m => (um_user m, um_contact_method m)) (np_messages (db_tbl path_tick.2)) = [(41, 52); (40, 50)] /\
  exists i users, paged sample_static 1 (1000 + Z.of_nat (Nat.min i 1000)) sample_tables (db_tbl (run_cycle 1000 sample_tables).2)
      sample_state 10 (mkService 20 100 (Some 500)) 30 (mkStep 20 0 5 false) (mkPolicy 100 0 2) users /\
    forall u, should_be_on_call sample_static 30 u -> 100 = 100 ->
      exists id c, np_cycles (db_tbl path_tick.2) !! id = Some c /\ cy_alert c = 1 /\ cy_user c = u /\
        user_notified path_np 5000 (1000 + Z.of_nat (Nat.min i 1000)) (db_tbl path_tick.2) id u.
Proof.
  split; [vm_compute; reflexivity|].
  refine (@alert_reaches_users_on_call ordered_map_range stable_go_sort sample_static (fun _ => None) (fun _ => true)
    (fun n => 1000 + Z.of_nat (Nat.min n 1000)) (fun _ _ => false) (mkDB sample_tables 0)
    (run_cycle 1000 sample_tables).2 1 sample_state 10 (mkService 20 100 (Some 500)) 30 (mkStep 20 0 5 false)
    (mkPolicy 100 0 2) path_np (fun _ => None) (fun _ => true) (fun n => 5000 + Z.of_nat (Nat.min n 1000))
    (fun _ _ => false) (mkDB path_cycles 0) path_tick.2 _ _ _ _ _ _ _ _ _ _ _ _).
  - vm_compute. reflexivity.
  - repeat constructor; set_solver.
  - reflexivity.
  - vm_compute. lia.
  - intros i j. unfold Minute, Second. lia.
  - split; try (vm_compute; reflexivity); try done. intros e [= <-] i. lia.
  - intros new c E Hc.
    assert (cycles_of 1 (db_tbl (run_cycle 1000 sample_tables).2) = [mkCycle 1 40 false 1016; mkCycle 1 41 false 1016]) as HV
      by (vm_compute; reflexivity).
    assert (new = [mkCycle 1 40 false 1016; mkCycle 1 41 false 1016]) as -> by exact (eq_trans (eq_sym E) HV).
    clear E HV. apply elem_of_cons in Hc as [Hc|Hc]; [|apply list_elem_of_singleton in Hc]; rewrite Hc; [exists 0|exists 1];
      (split; vm_compute; reflexivity).
  - split; [reflexivity| |reflexivity|reflexivity]. exists (mkService 20 100 None). split; [vm_compute; reflexivity|done].
  - vm_compute. reflexivity.
  - discriminate.
  - reflexivity.
  - vm_compute. lia.
Defined.
