(* ===== verification/GatewayTarget.v ===== *)
(** * Gateway targets and the change of a token: [notification/webhook]

    A webhook that points at the Gateway ends in an opaque token
    ([gateway_target.go]).  [GatewayDestinationTokenURLCAS.prepare]
    ([gateway_token_cas.go]) computes the destination before and after a change of
    the token; [classifyGatewayDestinationTokenURLCASExecutionError] says what an
    error of the database leaves known.  Parsing of URLs is the interface
    [NetURL]; the code checks what it gets back, so no law of it is needed.
    Receivers and contexts are never nil. *)

From Stdlib Require Import Ascii.
From S2P Require Import Prelude Text Dest.

Local Open Scope string_scope.

(** [url.URL]; [User] says whether it is not nil. *)
Record URL := mkURL {
  Scheme : string; Opaque : string; User : bool; Host : string; Path : string; RawPath : string;
  ForceQuery : bool; RawQuery : string; Fragment : string; RawFragment : string
}.

Class NetURL := {
  url_Parse : string -> option URL;
  url_String : URL -> string;
  Hostname : URL -> string;
  Port : URL -> string;
  EscapedPath : URL -> string;
  ToLower : string -> string      (** [strings.ToLower] *)
}.

Definition gatewayContactMethodPathPrefix : string := "/v1/goalert/contact-method/".

(** ** Tokens *)

Definition token_prefix : string := "mso1_".

Definition validGatewayToken (token : string) : bool :=
  if negb (String.length token =? String.length token_prefix + 43)%nat || negb (HasPrefix token token_prefix) then false
  else
    let body := TrimPrefix token token_prefix in
    match DecodeString body with
    | Some decoded => (length decoded =? 32)%nat && String.eqb (EncodeToString decoded) body
    | None => false
    end.

(** ** The matcher *)

Definition canonicalHTTPSPort (port : string) : option string :=
  if String.eqb port "" then Some "443"
  else match Atoi port with
       | Some n => if (n <? 1)%Z || (65535 <? n)%Z || negb (String.eqb (itoa n) port) then None else Some port
       | None => None
       end.

Record GatewayTargetMatcher := mkMatcher { hostname : string; effectivePort : string }.

Section Gateway.
Context {HN : NetURL}.

Definition matcher_valid (m : GatewayTargetMatcher) : bool :=
  if String.eqb (hostname m) "" || negb (String.eqb (hostname m) (ToLower (hostname m))) || contains "*" (hostname m)
  then false
  else match canonicalHTTPSPort (effectivePort m) with Some port => String.eqb port (effectivePort m) | None => false end.

Definition NewGatewayTargetMatcher (origin : string) : option GatewayTargetMatcher :=
  u ← url_Parse origin;
  if negb (String.eqb (Scheme u) "https") || negb (String.eqb (Opaque u) "") || User u || String.eqb (Host u) "" ||
     negb (String.eqb (Path u) "") || negb (String.eqb (RawPath u) "") || ForceQuery u || negb (String.eqb (RawQuery u) "") ||
     negb (String.eqb (Fragment u) "") || negb (String.eqb (RawFragment u) "") || HasSuffix (Host u) ":"
  then None
  else
    let h := Hostname u in
    if String.eqb h "" || negb (String.eqb h (ToLower h)) || contains "*" h then None
    else port ← canonicalHTTPSPort (Port u); Some (mkMatcher h port).

(** [Match]: the canonical path. *)
Definition Match (m : GatewayTargetMatcher) (target : URL) : option string :=
  if negb (matcher_valid m) || negb (String.eqb (Scheme target) "https") || negb (String.eqb (Opaque target) "") ||
     User target || ForceQuery target || negb (String.eqb (RawQuery target) "") || negb (String.eqb (Fragment target) "") ||
     negb (String.eqb (RawFragment target) "") || negb (String.eqb (RawPath target) "") || HasSuffix (Host target) ":"
  then None
  else if negb (String.eqb (Hostname target) (hostname m)) then None
  else match canonicalHTTPSPort (Port target) with
       | None => None
       | Some port =>
           if negb (String.eqb port (effectivePort m)) then None
           else if negb (String.eqb (EscapedPath target) (Path target)) ||
                   negb (HasPrefix (Path target) gatewayContactMethodPathPrefix) then None
           else if validGatewayToken (TrimPrefix (Path target) gatewayContactMethodPathPrefix) then Some (Path target)
           else None
       end.

(** ** The change of a token *)

Definition DestTypeWebhook : string := "builtin-webhook".
Definition FieldWebhookURL : string := "webhook_url".

Definition NewWebhookDest (url : string) : DestV1 :=
  default (mkDest ∅ "") (NewDestV1 DestTypeWebhook [FieldWebhookURL; url]).

Record CASRequest := mkCASRequest { cr_contactMethodID : UUID; cr_expectedURL : string; cr_replacementToken : string }.

(** A URL that is the text of itself, and its path if it matches. *)
Definition matched_path (m : GatewayTargetMatcher) (url : string) : option string :=
  target ← url_Parse url;
  if negb (String.eqb (url_String target) url) then None else Match m target.

Definition prepare (m : GatewayTargetMatcher) (request : CASRequest) : option (DestV1 * DestV1) :=
  if (cr_contactMethodID request =? uuid_Nil)%Z || String.eqb (cr_expectedURL request) "" ||
     String.eqb (cr_replacementToken request) "" then None
  else
    canonicalPath ← matched_path m (cr_expectedURL request);
    let oldToken := TrimPrefix canonicalPath gatewayContactMethodPathPrefix in
    if negb (validGatewayToken (cr_replacementToken request)) || String.eqb (cr_replacementToken request) oldToken ||
       negb (HasSuffix (cr_expectedURL request) oldToken) then None
    else
      let replacementURL := TrimSuffix (cr_expectedURL request) oldToken ++ cr_replacementToken request in
      replacementPath ← matched_path m replacementURL;
      if negb (String.eqb replacementPath (gatewayContactMethodPathPrefix ++ cr_replacementToken request)) then None
      else Some (NewWebhookDest (cr_expectedURL request), NewWebhookDest replacementURL).
End Gateway.

(** ** Errors *)

(** The named errors of the package. *)
Inductive Sentinel :=
  | CASInvalid | CASPermissionDenied | CASConflict | CASUnavailable | CASOutcomeUnknown | CASCanceled | CASDeadlineExceeded
  | RotInvalid | RotPermissionDenied | RotConflict | RotUnavailable | RotOutcomeUnknown | RotReconciliationRequired
  | RotCanceled | RotDeadlineExceeded | RotTooEarly
  | SerializationUncertain | QuarantineUnconfirmed.

#[global] Instance Sentinel_eq_dec : EqDecision Sentinel.
Proof. solve_decision. Defined.

(** An error as far as the code inspects it: a named value, one that wraps
    another, or several.  [NilPointer] is a nil pointer in an interface. *)
Inductive GoError :=
  | Named (s : Sentinel)
  | ErrBadConn | ErrConnDone | ErrNoRows
  | PgError (code constraint : string)
  | NilPointer
  | Opaque_ (text : string)
  | Wrapped (cause : GoError)
  | Joined.                       (** several causes, which are not looked at *)

(** [errors.Unwrap] *)
Definition Unwrap (e : GoError) : option GoError := match e with Wrapped e => Some e | _ => None end.

(** [gatewayDestinationTokenURLCASSingleCausePostgresError] *)
Fixpoint single_cause_pg (fuel : nat) (err : option GoError) : option (string * string) :=
  match fuel, err with
  | S fuel, Some current =>
      match current with
      | Joined | NilPointer => None
      | PgError code constraint => Some (code, constraint)
      | _ => single_cause_pg fuel (Unwrap current)
      end
  | _, _ => None
  end.

(** [gatewayDestinationTokenURLCASSingleCauseMatches]; [is_target] is the comparison. *)
Fixpoint single_cause_matches (is_target : GoError -> bool) (fuel : nat) (err : option GoError) : bool :=
  match fuel, err with
  | S fuel, Some current =>
      match current with
      | Joined | NilPointer => false
      | _ => if is_target current then true else single_cause_matches is_target fuel (Unwrap current)
      end
  | _, _ => false
  end.

(** [gatewayDestinationTokenURLCASSingleCauseChain] *)
Fixpoint single_cause_chain (fuel : nat) (err : option GoError) : bool :=
  match fuel, err with
  | S fuel, Some current =>
      match current with
      | Joined | NilPointer => false
      | _ => match Unwrap current with None => true | next => single_cause_chain fuel next end
      end
  | _, _ => false
  end.

Definition is_ErrBadConn (e : GoError) : bool := match e with ErrBadConn => true | _ => false end.
Definition is_ErrConnDone (e : GoError) : bool := match e with ErrConnDone => true | _ => false end.
Definition is_ErrNoRows (e : GoError) : bool := match e with ErrNoRows => true | _ => false end.

(** [classifyGatewayDestinationTokenURLCASExecutionError]; [SafeToRetry] is of pgconn. *)
Definition classifyExecutionError (SafeToRetry : GoError -> bool) (err : GoError) : Sentinel :=
  if single_cause_matches is_ErrBadConn 64 (Some err) || single_cause_matches is_ErrConnDone 64 (Some err) ||
     (single_cause_chain 64 (Some err) && SafeToRetry err)
  then CASUnavailable
  else match single_cause_pg 64 (Some err) with
       | None => CASOutcomeUnknown
       | Some (code, constraint) =>
           if String.eqb code "23505" &&
              (String.eqb constraint "user_contact_methods_dest_key" || String.eqb constraint "user_contact_methods_type_value_key")
           then CASConflict
           else if String.eqb code "40003" || HasPrefix code "08" then CASOutcomeUnknown
           else if existsb (String.eqb code) ["57P01"; "57P02"; "57P03"; "57P04"; "57P05"] then CASOutcomeUnknown
           else CASUnavailable
       end.

(** [directGatewayDestinationTokenRotationError] *)
Definition direct (got : option GoError) (want : Sentinel) : bool :=
  match got with Some (Named s) => bool_decide (s = want) | _ => false end.

(** ** Tokens are the texts of 32 bytes *)

Lemma foldr_length vs : String.length (foldr (fun v s => String (b64_char v) s) "" vs) = length vs.
Proof. induction vs as [|v vs IH]; [done|]. cbn. by rewrite IH. Qed.

Lemma b64_split_length bs : (3 * length (b64_split bs) = 4 * length bs + (if length bs mod 3 =? 0 then 0 else if length bs mod 3 =? 1 then 2 else 1))%nat.
Proof.
  induction bs as [|x|x y|x y z bs IH] using list_ind3; [done..|]. cbn [b64_split length].
  replace (S (S (S (length bs))) mod 3)%nat with (length bs mod 3)%nat; [lia|].
  replace (S (S (S (length bs)))) with (length bs + 1 * 3)%nat by lia. by rewrite Nat.Div0.mod_add.
Qed.

(** A token is valid exactly if it is [mso1_] and the canonical text of 32
    bytes, and different bytes have different tokens. *)
Theorem validGatewayToken_iff token :
  (validGatewayToken token = true <->
   exists bs, length bs = 32%nat /\ Forall byte bs /\ token = token_prefix ++ EncodeToString bs) /\
  (forall bs bs', Forall byte bs -> Forall byte bs' ->
     token_prefix ++ EncodeToString bs = token_prefix ++ EncodeToString bs' -> bs = bs').
Proof.
  split; [split|].
  - unfold validGatewayToken. destruct (_ || _) eqn:E; [done|]. apply orb_false_iff in E as [_ E].
    apply negb_false_iff in E. apply HasPrefix_app in E.
    destruct (DecodeString _) as [bs|] eqn:Ed; [|done]. intros H. apply andb_true_iff in H as [Hl He].
    apply Nat.eqb_eq in Hl. apply String.eqb_eq in He. exists bs. split; [done|]. split; [by eapply DecodeString_bytes|]. by rewrite He.
  - intros (bs & Hl & HF & ->). unfold validGatewayToken, HasPrefix.
    rewrite strip_prefix_self, TrimPrefix_app, DecodeString_Encode, Hl, String.eqb_refl by done.
    assert (String.length (EncodeToString bs) = 43%nat) as Hlen.
    { unfold EncodeToString. rewrite foldr_length. pose proof (b64_split_length bs) as HB. rewrite Hl in HB. simpl in HB. lia. }
    rewrite string_length_app, Hlen. done.
  - intros bs bs' HF HF' E. apply (f_equal (fun s => TrimPrefix s token_prefix)) in E. rewrite !TrimPrefix_app in E.
    apply (f_equal DecodeString) in E. rewrite !DecodeString_Encode in E by done. congruence.
Qed.

(** ** Only the token changes *)

Lemma NewWebhookDest_eq url : NewWebhookDest url = mkDest {[FieldWebhookURL := url]} DestTypeWebhook.
Proof. reflexivity. Qed.

Section Gateway_spec.
Context {HN : NetURL}.

Lemma Match_spec m u p : Match m u = Some p ->
  p = Path u /\ Scheme u = "https" /\ Hostname u = hostname m /\ canonicalHTTPSPort (Port u) = Some (effectivePort m) /\
  exists token, validGatewayToken token = true /\ p = gatewayContactMethodPathPrefix ++ token.
Proof.
  unfold Match. match goal with |- (if ?b then _ else _) = _ -> _ => destruct b eqn:E0 end; [done|].
  destruct (String.eqb_spec (Hostname u) (hostname m)) as [Eh|]; [|done]. cbn [negb].
  destruct (canonicalHTTPSPort (Port u)) as [port|]; [|done].
  destruct (String.eqb_spec port (effectivePort m)) as [->|]; [|done]. cbn [negb].
  destruct (negb (String.eqb (EscapedPath u) (Path u)) || _) eqn:E1; [done|]. destruct (validGatewayToken _) eqn:Ev; [|done].
  intros [= <-]. split; [done|]. apply orb_false_iff in E1 as [_ E1]. apply negb_false_iff, HasPrefix_app in E1.
  repeat (apply orb_false_iff in E0 as [E0 ?]).
  split; [by match goal with H : negb (String.eqb (Scheme u) _) = false |- _ => apply negb_false_iff, String.eqb_eq in H end|].
  split; [done|]. split; [done|]. eexists. split; [exact Ev|done].
Qed.

(** A destination that leads to the Gateway, by its token. *)
Definition leads_to (m : GatewayTargetMatcher) (url token : string) : Prop :=
  validGatewayToken token = true /\
  exists u, url_Parse url = Some u /\ url_String u = url /\ Match m u = Some (gatewayContactMethodPathPrefix ++ token).

Lemma matched_path_leads m url p : matched_path m url = Some p ->
  leads_to m url (TrimPrefix p gatewayContactMethodPathPrefix) /\
  p = gatewayContactMethodPathPrefix ++ TrimPrefix p gatewayContactMethodPathPrefix.
Proof.
  unfold matched_path. intros E. apply bind_Some in E as (u & Eu & E).
  destruct (String.eqb_spec (url_String u) url) as [Es|]; [|done]. cbn [negb] in E.
  pose proof E as EM. apply Match_spec in E as (_ & _ & _ & _ & token & Hv & ->).
  rewrite TrimPrefix_app. split; [|done]. split; [done|]. exists u. done.
Qed.

Lemma leads_matched m url token : leads_to m url token -> matched_path m url = Some (gatewayContactMethodPathPrefix ++ token).
Proof.
  intros (_ & u & Eu & Es & Em). unfold matched_path. rewrite Eu. cbn [mbind option_bind].
  by rewrite Es, String.eqb_refl.
Qed.

(** Only the token at the end differs. *)
Definition token_only (m : GatewayTargetMatcher) (request : CASRequest) (expected replacement : DestV1) : Prop :=
  exists base oldToken,
    expected = NewWebhookDest (base ++ oldToken) /\ cr_expectedURL request = base ++ oldToken /\
    replacement = NewWebhookDest (base ++ cr_replacementToken request) /\
    leads_to m (base ++ oldToken) oldToken /\ leads_to m (base ++ cr_replacementToken request) (cr_replacementToken request) /\
    cr_replacementToken request <> oldToken /\ cr_contactMethodID request <> uuid_Nil.

Lemma prepared m request expected replacement :
  prepare m request = Some (expected, replacement) -> token_only m request expected replacement.
Proof.
  intros HE. unfold prepare in HE. destruct (_ || _) eqn:E0 in HE; [done|]. apply orb_false_iff in E0 as [E0 _]. apply orb_false_iff in E0 as [E0 _].
  apply bind_Some in HE as (p & Ep & HE). apply matched_path_leads in Ep as [Hl Hp].
  set (old := TrimPrefix p gatewayContactMethodPathPrefix) in *. destruct (negb (validGatewayToken _) || _ || _) eqn:E1; [done|].
  apply orb_false_iff in E1 as [E1 Hs]. apply orb_false_iff in E1 as [_ Hne]. apply negb_false_iff, HasSuffix_app in Hs.
  apply bind_Some in HE as (p' & Ep' & HE). apply matched_path_leads in Ep' as [Hl' _].
  destruct (String.eqb_spec p' (gatewayContactMethodPathPrefix ++ cr_replacementToken request)) as [->|]; [|done].
  cbn [negb] in HE. injection HE as <- <-. rewrite TrimPrefix_app in Hl'.
  exists (TrimSuffix (cr_expectedURL request) old), old. rewrite <- Hs. split; [done|]. split; [done|]. split; [done|].
  split; [done|]. split; [done|]. split; [by apply String.eqb_neq|]. by apply Z.eqb_neq in E0.
Qed.

(** A request as it has to be. *)
Definition well_formed (m : GatewayTargetMatcher) (request : CASRequest) : Prop :=
  exists base oldToken, cr_expectedURL request = base ++ oldToken /\
    leads_to m (base ++ oldToken) oldToken /\ leads_to m (base ++ cr_replacementToken request) (cr_replacementToken request) /\
    cr_replacementToken request <> oldToken /\ cr_contactMethodID request <> uuid_Nil.

(** [prepare] accepts exactly the requests whose URL leads to the Gateway with
    an old token at its end, leads there with the new one in its place, and the
    two differ; and what it computes keeps all of the URL but that token. *)
Theorem prepare_changes_only_token m request :
  (prepare m request <> None <-> well_formed m request) /\
  (forall expected replacement, prepare m request = Some (expected, replacement) -> token_only m request expected replacement).
Proof.
  split; [|apply prepared]. split.
  - destruct (prepare m request) as [[e r]|] eqn:E; [|done]. intros _.
    destruct (prepared _ _ _ _ E) as (base & old & _ & H1 & _ & H2 & H3 & H4 & H5). exists base, old. done.
  - intros (base & old & Eu & Ho & Hn & Hne & Hid). unfold prepare.
    apply Z.eqb_neq in Hid. rewrite Hid. cbn [orb]. rewrite Eu.
    assert (forall b t, validGatewayToken t = true -> String.eqb (b ++ t) "" = false /\ String.eqb t "" = false) as Hnil.
    { intros b t Ht. split; apply String.eqb_neq; intros E; [|by subst t]. destruct b; [|done].
      change (t = "") in E. by subst t. }
    destruct (Hnil base old (proj1 Ho)) as [-> _], (Hnil base _ (proj1 Hn)) as [_ ->]. cbn [orb].
    apply leads_matched in Ho.
    rewrite Ho. cbn [mbind option_bind]. rewrite TrimPrefix_app, (proj1 Hn). cbn [negb orb].
    apply String.eqb_neq in Hne. rewrite Hne, HasSuffix_self. cbn [negb orb].
    rewrite TrimSuffix_self, (leads_matched _ _ _ Hn). cbn [mbind option_bind]. by rewrite String.eqb_refl.
Qed.
End Gateway_spec.
