(* ===== verification/TokenStore.v ===== *)
(** * The contact methods behind a rotation: [notification/webhook/gateway_token_rotation.go]

    The database side of the rotation of a token: the conditional update of a
    contact method under a row lock, [compareAndSwapWithFence], and the locking
    read, [WithLockedGatewayDestination].  Every call may fail, and a commit may
    leave its outcome open.

    A world holds the contact methods, what the Gateway knows, and a count of the
    events so far.  [clock n] is the time of the n-th event, [c_err n] what a
    context says then, and [Env] how the calls of the database end.  Between two
    events others may change a contact method whose row is not locked.  Instants
    are in nanoseconds; receivers, contexts and interfaces are never nil. *)

From S2P Require Import Prelude Text GoTime Dest GatewayTarget.

Open Scope Z_scope.

(** ** Contexts *)

Inductive CtxErr := CtxCanceled | CtxDeadlineExceeded.

Record Ctx := mkCtx { c_err : nat -> option CtxErr; c_deadline : option Z; c_system : bool }.

(** ** Times *)

Definition is_zero (t : Z) : bool := t =? zero_inst.
Definition Sub (t u : Z) : Z := sat64 (t - u).

Definition BeginLimit : Z := 5 * Second.
Definition CASLimit : Z := 5 * Second.
Definition DiscardLimit : Z := 5 * Second.
Definition RecoveryLimit : Z := 5 * Second.
Definition ReleaseLimit : Z := 5 * Second.
Definition MaxOverlap : Z := 24 * Hour.

Definition earliest (first second : Z) : Z := if second <? first then second else first.

(** ** The world *)

(** [GatewayDestinationTokenRotationParticipantHandle]: bytes *)
Notation PHandle := (list Z) (only parsing).


Inductive Event :=
  | EBegin | EObserve (h : PHandle) | ERollback (h : PHandle) | EFinalize (h : PHandle)
  | EUpdate (id : UUID) | ECommit (id : UUID).

Record World (G : Type) := mkWorld {
  w_rows : gmap UUID DestV1;                (** [user_contact_methods.dest] *)
  w_doubt : option (UUID * DestV1);         (** a commit of which the outcome is open *)
  w_locked : option UUID;                   (** the row this process holds *)
  w_gw : G;
  w_n : nat;                                (** events so far *)
  w_trace : list (nat * Event)              (** what was asked of others, and when *)
}.
Arguments mkWorld {G}.
Arguments w_rows {G}.
Arguments w_doubt {G}.
Arguments w_locked {G}.
Arguments w_gw {G}.
Arguments w_n {G}.
Arguments w_trace {G}.

#[global] Instance DestV1_eq_dec : EqDecision DestV1.
Proof. solve_decision. Defined.

(** What the surroundings do at each event. *)
Record Env := mkEnv {
  clock : nat -> Z;
  foreign : nat -> option (UUID * option DestV1);   (** a change by others *)
  settles : nat -> option bool;             (** an open commit ends *)
  late : nat -> bool;                       (** how it ends when its lock is waited for *)
  conn_err : nat -> option GoError;         (** [acquire]: the error, and whether there is a connection *)
  conn_given : nat -> bool;
  begin_err : nat -> option GoError;        (** [BeginTx] *)
  tx_given : nat -> bool;
  find_err : nat -> option GoError;         (** [ContactMethodFindOneUpdate] *)
  update_err : nat -> option GoError;       (** [ContactMethodCompareAndSwapGatewayDest] *)
  rows_known : nat -> bool;                 (** the number of rows affected is known *)
  commit_fails : nat -> bool;
  rollback_fails : nat -> bool;
  close_ok : nat -> bool;                   (** the connection was closed *)
  SafeToRetry : GoError -> bool             (** [pgconn.SafeToRetry] *)
}.

Section Store.
Context {HN : NetURL} {G : Type}.
Context (env : Env).

Local Notation World := (World G).

Definition change (id : UUID) (d : option DestV1) (rows : gmap UUID DestV1) : gmap UUID DestV1 :=
  match d with Some d => <[id := d]> rows | None => delete id rows end.

(** The open commit of [id] ends. *)
Definition settle (committed : bool) (w : World) : World :=
  match w_doubt w with
  | Some (id, d) =>
      mkWorld (if committed then <[id := d]> (w_rows w) else w_rows w) None (w_locked w) (w_gw w) (w_n w) (w_trace w)
  | None => w
  end.

(** Others wait for a locked row. *)
Definition row_free (id : UUID) (w : World) : bool :=
  negb (bool_decide (w_locked w = Some id)) && match w_doubt w with Some (id', _) => negb (id =? id') | None => true end.

(** An event. *)
Definition tick (w : World) : World :=
  let n := w_n w in
  let w := match settles env n with Some b => settle b w | None => w end in
  let rows := match foreign env n with
              | Some (id, d) => if row_free id w then change id d (w_rows w) else w_rows w
              | None => w_rows w
              end in
  mkWorld rows (w_doubt w) (w_locked w) (w_gw w) (S n) (w_trace w).

Definition log_event (e : Event) (w : World) : World :=
  mkWorld (w_rows w) (w_doubt w) (w_locked w) (w_gw w) (w_n w) (w_trace w ++ [(w_n w, e)]).
Definition set_lock (l : option UUID) (w : World) : World :=
  mkWorld (w_rows w) (w_doubt w) l (w_gw w) (w_n w) (w_trace w).
Definition set_gw (g : G) (w : World) : World :=
  mkWorld (w_rows w) (w_doubt w) (w_locked w) g (w_n w) (w_trace w).

(** [time.Now()] and [monotonicNow()] *)
Definition Now (w : World) : Z * World := (clock env (w_n w), tick w).

(** ** Contexts *)

(** [ctx.Err()] *)
Definition Err (ctx : Ctx) (w : World) : option CtxErr * World := (c_err ctx (w_n w), tick w).

Definition WithDeadline (ctx : Ctx) (d : Z) : Ctx :=
  mkCtx (fun n => match c_err ctx n with Some e => Some e | None => if d <=? clock env n then Some CtxDeadlineExceeded else None end)
    (Some (match c_deadline ctx with Some d' => Z.min d' d | None => d end)) (c_system ctx).

Definition WithoutCancel (ctx : Ctx) : Ctx := mkCtx (fun _ => None) None (c_system ctx).

Definition cas_ctx_error (ctx : Ctx) (w : World) : option Sentinel * World :=
  let '(e, w) := Err ctx w in
  (match e with Some CtxCanceled => Some CASCanceled | Some CtxDeadlineExceeded => Some CASDeadlineExceeded | None => None end, w).

Definition rot_ctx_error (ctx : Ctx) (w : World) : option Sentinel * World :=
  let '(e, w) := Err ctx w in
  (match e with Some CtxCanceled => Some RotCanceled | Some CtxDeadlineExceeded => Some RotDeadlineExceeded | None => None end, w).

(** [gatewayDestinationTokenRotationBoundedContext] *)
Definition boundedContext (ctx : Ctx) (deadline : Z) (w : World) : option Ctx * World :=
  if is_zero deadline then (None, w)
  else
    let '(e, w) := Err ctx w in
    if bool_decide (e <> None) then (None, w)
    else
      let '(now, w) := Now w in
      if negb (now <? deadline) then (None, w)
      else
        let bounded := WithDeadline ctx deadline in
        let '(e, w) := Err bounded w in
        if bool_decide (e <> None) then (None, w) else (Some bounded, w).

(** ** The database *)

(** [store.acquire]; a connection without an error, or [None] and the error. *)
Definition DiscardBefore (notAfter : Z) (w : World) : bool * World :=
  if is_zero notAfter then (false, w)
  else
    let '(now, w) := Now w in
    if negb (now <? notAfter) then (false, w)
    else
      let closed := close_ok env (w_n w) in
      let '(now, w) := Now w in
      (closed && negb (notAfter <? now), w).

(** [SELECT ... FOR UPDATE]: it waits for an open commit of the row. *)
Definition FindOneUpdate (id : UUID) (w : World) : (DestV1 + GoError) * World :=
  let n := w_n w in
  let w := tick w in
  match find_err env n with
  | Some e => (inr e, w)
  | None =>
      let w := match w_doubt w with Some (id', _) => if id =? id' then settle (late env n) w else w | None => w end in
      match w_rows w !! id with
      | None => (inr ErrNoRows, w)
      | Some d => (inl d, set_lock (Some id) w)
      end
  end.

(** [UPDATE ... WHERE id = ... AND dest = expected]: the rows affected, if known.
    The change waits for the commit. *)
Definition CompareAndSwapUpdate (id : UUID) (expected : DestV1) (w : World) : (option Z + GoError) * World :=
  let n := w_n w in
  let w := tick (log_event (EUpdate id) w) in
  match update_err env n with
  | Some e => (inr e, w)
  | None => (inl (if rows_known env n then Some (if bool_decide (w_rows w !! id = Some expected) then 1 else 0) else None), w)
  end.

(** [tx.Commit] of the change of one row: an error leaves open what happened. *)
Definition Commit (id : UUID) (replacement : DestV1) (w : World) : bool * World :=
  let n := w_n w in
  let w := tick (log_event (ECommit id) w) in
  if commit_fails env n then (false, mkWorld (w_rows w) (Some (id, replacement)) None (w_gw w) (w_n w) (w_trace w))
  else (true, mkWorld (<[id := replacement]> (w_rows w)) (w_doubt w) None (w_gw w) (w_n w) (w_trace w)).

(** [tx.Rollback] *)
Definition Rollback (w : World) : bool * World :=
  let n := w_n w in (negb (rollback_fails env n), set_lock None (tick w)).

(** ** The fenced change: [compareAndSwapWithFence] *)

Definition quarantineUnknown (discardDeadline : Z) (w : World) : option Sentinel * World :=
  let '(discarded, w) := DiscardBefore discardDeadline w in
  (Some (if discarded then CASOutcomeUnknown else QuarantineUnconfirmed), w).

(** The [rollback] of the code. *)
Definition rollback (ctx : Ctx) (discardDeadline : Z) (safeErr : Sentinel) (w : World) : option Sentinel * World :=
  let '(ok, w) := Rollback w in
  if negb ok then quarantineUnknown discardDeadline w
  else
    let '(e, w) := cas_ctx_error ctx w in
    if bool_decide (e <> None) then quarantineUnknown discardDeadline w else (Some safeErr, w).

Definition rollbackUncertainTopology (discardDeadline : Z) (w : World) : option Sentinel * World :=
  let '(_, w) := Rollback w in
  let '(_, w) := DiscardBefore discardDeadline w in
  (Some QuarantineUnconfirmed, w).

(** What a failure before the transaction means: [connected] says that there is
    a connection to destroy. *)
Definition notBegun (ctx : Ctx) (discardDeadline : Z) (connected : bool) (err : option GoError) (w : World)
  : option Sentinel * World :=
  let '(discarded, w) := if connected then DiscardBefore discardDeadline w else (true, w) in
  if negb discarded then (Some QuarantineUnconfirmed, w)
  else
    let '(e, w) := cas_ctx_error ctx w in
    match e with
    | Some e => (Some e, w)
    | None => (Some (if direct err SerializationUncertain then QuarantineUnconfirmed else CASUnavailable), w)
    end.

(** Within the transaction. *)
Definition fencedUpdate (ctx : Ctx) (discardDeadline : Z) (id : UUID) (expected replacement : DestV1) (w : World)
  : option Sentinel * World :=
  let '(found, w) := FindOneUpdate id w in
  match found with
  | inr err =>
      if single_cause_matches is_ErrNoRows 64 (Some err) then rollback ctx discardDeadline CASConflict w
      else if direct (Some err) SerializationUncertain then rollbackUncertainTopology discardDeadline w
      else
        let '(e, w) := cas_ctx_error ctx w in
        rollback ctx discardDeadline (match e with Some e => e | None => CASUnavailable end) w
  | inl _ =>
      let '(result, w) := CompareAndSwapUpdate id expected w in
      match result with
      | inr err =>
          if direct (Some err) SerializationUncertain then rollbackUncertainTopology discardDeadline w
          else
            let classified := classifyExecutionError (SafeToRetry env) err in
            let '(e, w) := cas_ctx_error ctx w in
            rollback ctx discardDeadline
              (match e with
               | Some e => e
               | None => if bool_decide (classified = CASOutcomeUnknown) then CASUnavailable else classified
               end) w
      | inl None => rollback ctx discardDeadline CASUnavailable w
      | inl (Some rowsAffected) =>
          if rowsAffected =? 0 then rollback ctx discardDeadline CASConflict w
          else if rowsAffected =? 1 then
            let '(ok, w) := Commit id replacement w in
            if negb ok then quarantineUnknown discardDeadline w
            else
              let '(e, w) := cas_ctx_error ctx w in
              if bool_decide (e <> None) then quarantineUnknown discardDeadline w else (None, w)
          else rollback ctx discardDeadline CASUnavailable w
      end
  end.

Definition compareAndSwapWithFence (ctx : Ctx) (id : UUID) (expected replacement : DestV1) (w : World)
  : option Sentinel * World :=
  if id =? uuid_Nil then (Some CASInvalid, w)
  else if negb (c_system ctx) then (Some CASPermissionDenied, w)
  else
    let '(e, w) := cas_ctx_error ctx w in
    match e with
    | Some e => (Some e, w)
    | None =>
        match c_deadline ctx with
        | None => (Some CASDeadlineExceeded, w)
        | Some casDeadline =>
            let '(now, w) := Now w in
            if negb (now <? casDeadline) then (Some CASDeadlineExceeded, w)
            else
              let discardDeadline := casDeadline + DiscardLimit in
              let n := w_n w in
              let w := tick w in
              if bool_decide (conn_err env n <> None) || negb (conn_given env n) then
                notBegun ctx discardDeadline (conn_given env n) (conn_err env n) w
              else
                let n := w_n w in
                let w := tick w in
                if bool_decide (begin_err env n <> None) || negb (tx_given env n) then
                  notBegun ctx discardDeadline true (begin_err env n) w
                else fencedUpdate ctx discardDeadline id expected replacement w
        end
    end.

(** [gatewayDestinationTokenRotationFencedCAS.CompareAndSwap]: the errors of the
    store are those that it lets through. *)
Definition CompareAndSwap (m : GatewayTargetMatcher) (ctx : Ctx) (request : CASRequest) (w : World) : option Sentinel * World :=
  if negb (c_system ctx) then (Some CASPermissionDenied, w)
  else
    let '(e, w) := cas_ctx_error ctx w in
    match e with
    | Some e => (Some e, w)
    | None =>
        match prepare m request with
        | None => (Some CASInvalid, w)
        | Some (expected, replacement) =>
            let '(err, w) := compareAndSwapWithFence ctx (cr_contactMethodID request) expected replacement w in
            (match err with
             | None | Some (CASConflict | CASUnavailable | CASOutcomeUnknown | CASCanceled | CASDeadlineExceeded | QuarantineUnconfirmed) => err
             | Some _ => Some QuarantineUnconfirmed
             end, w)
        end
    end.

(** ** The locking read: [WithLockedGatewayDestination] *)

Definition operationContext (ctx : Ctx) (w : World) : option (Ctx * Z) * World :=
  let '(e, w) := Err ctx w in
  if bool_decide (e <> None) then (None, w)
  else
    let '(now, w) := Now w in
    let d := now + RecoveryLimit in
    let d := match c_deadline ctx with Some d' => earliest d d' | None => d end in
    let '(c, w) := boundedContext ctx d w in
    (match c with Some c => Some (c, d) | None => None end, w).

(** The release of the lock: nothing is certain if it fails, or if the time of
    the operation is over. *)
Definition release (operationCtx : Ctx) (txDeadline : Z) (w : World) : option Sentinel * World :=
  let '(ok, w) := Rollback w in
  if negb ok then let '(_, w) := DiscardBefore txDeadline w in (Some RotReconciliationRequired, w)
  else
    let '(e, w) := rot_ctx_error operationCtx w in
    if bool_decide (e <> None) then let '(_, w) := DiscardBefore txDeadline w in (Some RotReconciliationRequired, w)
    else (None, w).

(** The error, and what [inspect] gave if it was called. *)
Definition WithLocked {R} (ctx : Ctx) (id : UUID) (inspect : Ctx -> DestV1 -> World -> R * World) (w : World)
  : (option Sentinel * option R) * World :=
  if (id =? uuid_Nil) || negb (c_system ctx) then ((Some RotReconciliationRequired, None), w)
  else
    let '(oc, w) := operationContext ctx w in
    match oc with
    | None => ((Some RotReconciliationRequired, None), w)
    | Some (operationCtx, operationDeadline) =>
        let txDeadline := operationDeadline + ReleaseLimit in
        let n := w_n w in
        let w := tick w in
        if bool_decide (conn_err env n <> None) || negb (conn_given env n) then
          let '(_, w) := if conn_given env n then DiscardBefore txDeadline w else (true, w) in
          ((Some RotReconciliationRequired, None), w)
        else
          let n := w_n w in
          let w := tick w in
          if bool_decide (begin_err env n <> None) || negb (tx_given env n) then
            let '(_, w) := DiscardBefore txDeadline w in
            ((Some RotReconciliationRequired, None), w)
          else
            let '(found, w) := FindOneUpdate id w in
            match found with
            | inr _ =>
                let '(_, w) := release operationCtx txDeadline w in
                ((Some RotReconciliationRequired, None), w)
            | inl dest =>
                let '(r, w) := inspect operationCtx dest w in
                let '(err, w) := release operationCtx txDeadline w in
                ((err, Some r), w)
            end
    end.
End Store.
