(* ===== verification/TokenRotation.v ===== *)
(** * Rotation of a Gateway token: [notification/webhook/gateway_token_rotation.go]

    The coordinator replaces the token at the end of a contact method's URL.  The
    Gateway makes a new token beside the old one, which retires after a while; the
    URL is changed by one fenced update; and the Gateway is told to finish, or to
    take the new token back.  There is no transaction across the two sides, and
    every call may fail or leave its outcome open.

    The Gateway is the interface [Participant], as in the code. *)

From S2P Require Import Prelude Text GoTime Dest GatewayTarget TokenStore.

Open Scope Z_scope.

(** ** The Gateway's side *)

Definition handle_valid (h : PHandle) : bool := (0 <? length h)%nat && (length h <=? 4096)%nat.

Inductive ParticipantState := ActiveWithRetiring | RolledBack | Completed | OtherState.
Inductive TokenIdentity := TokenNew | TokenOld | TokenNeither | OtherIdentity.

Record Attempt := mkAttempt { at_handle : PHandle; newToken : string; activatedAt : Z; at_deadline : Z }.
Record Observation := mkObs { ob_state : ParticipantState; identity : TokenIdentity; observedAt : Z; ob_deadline : Z }.
Record BeginRequest := mkBegin { br_audience : string; br_destination : string; currentToken : string }.

Class Participant (G : Type) := {
  BeginRotation : Ctx -> nat -> BeginRequest -> G -> (Attempt * option GoError) * G;
  ObserveRotation : Ctx -> nat -> PHandle -> string -> G -> (Observation * option GoError) * G;
  RollbackRotation : Ctx -> nat -> PHandle -> G -> option GoError * G;
  FinalizeRotation : Ctx -> nat -> PHandle -> G -> option GoError * G
}.

Definition validInterval (start deadline : Z) : bool :=
  if is_zero start || is_zero deadline then false
  else let interval := Sub deadline start in (0 <? interval) && (interval <=? MaxOverlap).

Definition attempt_valid (a : Attempt) : bool :=
  handle_valid (at_handle a) && validGatewayToken (newToken a) && validInterval (activatedAt a) (at_deadline a).

Definition obs_valid (o : Observation) : bool :=
  match identity o with
  | OtherIdentity => false
  | _ =>
      match ob_state o with
      | ActiveWithRetiring => negb (is_zero (observedAt o)) && negb (is_zero (ob_deadline o))
      | RolledBack | Completed => is_zero (observedAt o) && is_zero (ob_deadline o)
      | OtherState => false
      end
  end.

(** [NewGatewayDestinationTokenRotationParticipantAttempt] *)
Definition NewAttempt (h : PHandle) (token : string) (activated deadline : Z) : option Attempt :=
  if negb (handle_valid h) || negb (validGatewayToken token) || is_zero activated || is_zero deadline ||
     negb (activated <? deadline) || (MaxOverlap <? Sub deadline activated)
  then None else Some (mkAttempt h token activated deadline).

(** ** Results *)

Inductive Status := PendingFinalization | StatusRolledBack | StatusCompleted | NeedsReconciliation.

(** [GatewayDestinationTokenRotationHandle] *)
Record Handle := mkHandle { hd_contactMethodID : UUID; hd_participant : PHandle }.

Definition hd_valid (h : Handle) : bool := negb (hd_contactMethodID h =? uuid_Nil) && handle_valid (hd_participant h).

(** The zero result is [None]. *)
Definition Outcome : Type := option (Status * Handle) * option Sentinel.

Definition failed (e : Sentinel) : Outcome := (None, Some e).
Definition succeeded (s : Status) (h : Handle) : Outcome := (Some (s, h), None).
Definition reconciliationResult (h : Handle) : Outcome := (Some (NeedsReconciliation, h), Some RotReconciliationRequired).

Record StartRequest := mkStart { sr_contactMethodID : UUID; sr_expectedURL : string; sr_audience : string; sr_destination : string }.

Definition beginError (err : option GoError) : Sentinel :=
  if direct err RotInvalid then RotInvalid
  else if direct err RotPermissionDenied then RotPermissionDenied
  else if direct err RotConflict then RotConflict
  else if direct err RotUnavailable then RotUnavailable
  else if direct err RotCanceled then RotCanceled
  else if direct err RotDeadlineExceeded then RotDeadlineExceeded
  else RotReconciliationRequired.

(** [gatewayDestinationTokenRotationSafeCASError] *)
Definition safeCASError (err : Sentinel) : option Sentinel :=
  match err with
  | CASInvalid => Some RotInvalid
  | CASPermissionDenied => Some RotPermissionDenied
  | CASConflict => Some RotConflict
  | CASUnavailable => Some RotUnavailable
  | CASCanceled => Some RotCanceled
  | CASDeadlineExceeded => Some RotDeadlineExceeded
  | _ => None
  end.

Definition localDeadline (anchor start deadline : Z) : option Z :=
  if is_zero anchor || negb (validInterval start deadline) then None else Some (anchor + Sub deadline start).


(** ** The coordinator *)

(** A canonical UUID that is not zero: [NewGatewayAudienceID], [NewGatewayDestinationID]. *)
Definition parseCanonicalUUID {HU : UUIDText} (value : string) : option UUID :=
  parsed ← uuid_Parse value; if String.eqb (uuid_String parsed) value then Some parsed else None.

Definition NewGatewayID {HU : UUIDText} (value : string) : option string :=
  parsed ← parseCanonicalUUID value; if parsed =? uuid_Nil then None else Some value.

Inductive Purpose := InspectUnknownCAS | InspectReconcile | InspectFinalize.

(** The coordinator is its matcher: what else it holds are the interfaces. *)
Notation Coordinator := GatewayTargetMatcher (only parsing).

(** ** Validation *)

Section Validation.
Context {HN : NetURL} {HU : UUIDText}.

Definition tokenFromURL (m : Coordinator) (url : string) : option string :=
  path ← matched_path m url; Some (TrimPrefix path gatewayContactMethodPathPrefix).

Definition prepareStart (m : Coordinator) (request : StartRequest) : option (string * string * string) :=
  if (sr_contactMethodID request =? uuid_Nil) || String.eqb (sr_expectedURL request) "" ||
     String.eqb (sr_audience request) "" || String.eqb (sr_destination request) "" then None
  else
    oldToken ← tokenFromURL m (sr_expectedURL request);
    if negb (validGatewayToken oldToken) || negb (HasSuffix (sr_expectedURL request) oldToken) then None
    else
      audience ← NewGatewayID (sr_audience request);
      destination ← NewGatewayID (sr_destination request);
      Some (audience, destination, oldToken).

Definition tokenFromAuthoritativeDestination (m : Coordinator) (d : DestV1) : option string :=
  if negb (String.eqb (dType d) DestTypeWebhook) || negb (size (dArgs d) =? 1)%nat then None
  else
    token ← tokenFromURL m (Arg d FieldWebhookURL);
    if validGatewayToken token then Some token else None.
End Validation.

Section Coordinator.
Context {HN : NetURL} {HU : UUIDText} {G : Type} {HP : Participant G}.
Context (env : Env) (m : Coordinator).

Local Notation World := (World G).

(** ** Calls of the Gateway *)

Definition Begin_ (ctx : Ctx) (r : BeginRequest) (w : World) : (Attempt * option GoError) * World :=
  let n := w_n w in
  let w := tick env (TokenStore.log_event EBegin w) in
  let '(a, g) := BeginRotation ctx n r (w_gw w) in (a, set_gw g w).

Definition Observe_ (ctx : Ctx) (h : PHandle) (token : string) (w : World) : (Observation * option GoError) * World :=
  let n := w_n w in
  let w := tick env (TokenStore.log_event (EObserve h) w) in
  let '(o, g) := ObserveRotation ctx n h token (w_gw w) in (o, set_gw g w).

Definition Rollback_ (ctx : Ctx) (h : PHandle) (w : World) : option GoError * World :=
  let n := w_n w in
  let w := tick env (TokenStore.log_event (ERollback h) w) in
  let '(e, g) := RollbackRotation ctx n h (w_gw w) in (e, set_gw g w).

Definition Finalize_ (ctx : Ctx) (h : PHandle) (w : World) : option GoError * World :=
  let n := w_n w in
  let w := tick env (TokenStore.log_event (EFinalize h) w) in
  let '(e, g) := FinalizeRotation ctx n h (w_gw w) in (e, set_gw g w).

(** [operationContext]: the context is live and the system's. *)
Definition operationContext (ctx : Ctx) (w : World) : option Sentinel * World :=
  if negb (c_system ctx) then (Some RotPermissionDenied, w)
  else if negb (matcher_valid m) then (Some RotInvalid, w)
  else rot_ctx_error env ctx w.

(** Taking the new token back; whether that is confirmed. *)
Definition rollbackBeforeLocalDeadline (ctx : Ctx) (h : PHandle) (localDeadline : Z) (w : World) : bool * World :=
  let '(now, w) := Now env w in
  if is_zero now || is_zero localDeadline || negb (now <? localDeadline) then (false, w)
  else
    let '(rc, w) := boundedContext env ctx (earliest (now + RecoveryLimit) localDeadline) w in
    match rc with
    | None => (false, w)
    | Some recoveryCtx =>
        let '(err, w) := Rollback_ recoveryCtx h w in
        if bool_decide (err <> None) then (false, w)
        else let '(e, w) := Err env recoveryCtx w in (bool_decide (e = None), w)
    end.

(** ** Under the lock *)

Definition observationLocalDeadline (o : Observation) (purpose : Purpose) (observeAnchor unknownLocalDeadline expectedGatewayDeadline : Z)
  : option Z :=
  match ob_state o with
  | ActiveWithRetiring =>
      let remaining := Sub (ob_deadline o) (observedAt o) in
      if is_zero observeAnchor || (MaxOverlap <? remaining) then None
      else match purpose with
           | InspectUnknownCAS =>
               if is_zero unknownLocalDeadline || is_zero expectedGatewayDeadline ||
                  negb (ob_deadline o =? expectedGatewayDeadline) then None
               else Some unknownLocalDeadline
           | _ => Some (observeAnchor + remaining)
           end
  | _ => Some zero_inst
  end.

Definition reconcileLocked (ctx : Ctx) (h : Handle) (o : Observation) (purpose : Purpose) (localDeadline : Z) (w : World)
  : Outcome * World :=
  match ob_state o, identity o, purpose with
  | ActiveWithRetiring, i, _ =>
      if is_zero localDeadline then (failed RotReconciliationRequired, w)
      else match i with
           | TokenNew => (succeeded PendingFinalization h, w)
           | TokenOld =>
               let '(ok, w) := rollbackBeforeLocalDeadline ctx (hd_participant h) localDeadline w in
               if negb ok then (failed RotReconciliationRequired, w)
               else match purpose with
                    | InspectUnknownCAS => (failed RotUnavailable, w)
                    | _ => (succeeded StatusRolledBack h, w)
                    end
           | _ => (failed RotReconciliationRequired, w)
           end
  | RolledBack, TokenOld, InspectReconcile => (succeeded StatusRolledBack h, w)
  | Completed, TokenNew, InspectReconcile => (succeeded StatusCompleted h, w)
  | _, _, _ => (failed RotReconciliationRequired, w)
  end.

Definition finalizeLocked (ctx : Ctx) (h : Handle) (o : Observation) (localDeadline : Z) (w : World) : Outcome * World :=
  match ob_state o, identity o with
  | ActiveWithRetiring, TokenNew =>
      let '(now, w) := Now env w in
      if is_zero now || is_zero localDeadline then (failed RotReconciliationRequired, w)
      else if now <? localDeadline then (failed RotTooEarly, w)
      else
        let '(e, w) := rot_ctx_error env ctx w in
        match e with
        | Some e => (failed e, w)
        | None =>
            let '(err, w) := Finalize_ ctx (hd_participant h) w in
            match err with
            | None => (succeeded StatusCompleted h, w)
            | Some _ =>
                (failed (if direct err RotCanceled then RotCanceled
                         else if direct err RotDeadlineExceeded then RotDeadlineExceeded
                         else if direct err RotUnavailable then RotUnavailable
                         else RotReconciliationRequired), w)
            end
        end
  | _, _ => (failed RotReconciliationRequired, w)
  end.

(** [gatewayDestinationTokenRotationValidLockContext] *)
Definition validLockContext (ctx : Ctx) (w : World) : bool * World :=
  let '(e, w) := Err env ctx w in
  if bool_decide (e <> None) || negb (c_system ctx) then (false, w)
  else match c_deadline ctx with
       | None => (false, w)
       | Some deadline =>
           let '(now, w) := Now env w in
           let remaining := Sub deadline now in
           ((0 <? remaining) && (remaining <=? RecoveryLimit), w)
       end.

(** The callback of [inspectLocked]. *)
Definition inspect (h : Handle) (purpose : Purpose) (unknownLocalDeadline expectedGatewayDeadline : Z)
  (lockCtx : Ctx) (d : DestV1) (w : World) : Outcome * World :=
  let '(ok, w) := validLockContext lockCtx w in
  if negb ok then (failed RotReconciliationRequired, w)
  else match tokenFromAuthoritativeDestination m d with
       | None => (failed RotReconciliationRequired, w)
       | Some token =>
           let '(observeAnchor, w) := Now env w in
           let '((o, err), w) := Observe_ lockCtx (hd_participant h) token w in
           if bool_decide (err <> None) || negb (obs_valid o) then (failed RotReconciliationRequired, w)
           else match observationLocalDeadline o purpose observeAnchor unknownLocalDeadline expectedGatewayDeadline with
                | None => (failed RotReconciliationRequired, w)
                | Some localDeadline =>
                    match purpose with
                    | InspectFinalize => finalizeLocked lockCtx h o localDeadline w
                    | _ => reconcileLocked lockCtx h o purpose localDeadline w
                    end
                end
       end.

Definition inspectLocked (ctx : Ctx) (h : Handle) (purpose : Purpose) (unknownLocalDeadline expectedGatewayDeadline : Z)
  (w : World) : Outcome * World :=
  let '((storeErr, called), w) :=
    WithLocked env ctx (hd_contactMethodID h) (inspect h purpose unknownLocalDeadline expectedGatewayDeadline) w in
  match storeErr, called with
  | None, Some (result, operationErr) =>
      match operationErr with
      | Some RotReconciliationRequired => (reconciliationResult h, w)
      | Some e => (failed e, w)
      | None => ((result, None), w)
      end
  | _, _ => (reconciliationResult h, w)
  end.

(** ** Operations *)

Definition recoverUnknownCAS (ctx : Ctx) (h : Handle) (localDeadline expectedGatewayDeadline : Z) (w : World) : Outcome * World :=
  let '(now, w) := Now env w in
  if is_zero now || is_zero localDeadline || negb (now <? localDeadline) then (reconciliationResult h, w)
  else
    let '(rc, w) := boundedContext env (WithoutCancel ctx) (earliest (now + RecoveryLimit) localDeadline) w in
    match rc with
    | None => (reconciliationResult h, w)
    | Some recoveryCtx => inspectLocked recoveryCtx h InspectUnknownCAS localDeadline expectedGatewayDeadline w
    end.

(** The new token is taken back, and [err] returned if that is confirmed. *)
Definition compensate (ctx : Ctx) (h : Handle) (localDeadline : Z) (err : Sentinel) (w : World) : Outcome * World :=
  let '(ok, w) := rollbackBeforeLocalDeadline (WithoutCancel ctx) (hd_participant h) localDeadline w in
  (if ok then failed err else reconciliationResult h, w).

(** After the Gateway has confirmed the attempt: the one update, and what it leaves known. *)
Definition swap (ctx : Ctx) (request : StartRequest) (h : Handle) (a : Attempt) (localDeadline : Z) (casCtx : Ctx) (w : World)
  : Outcome * World :=
  let '(casErr, w) := CompareAndSwap env m casCtx
    (mkCASRequest (sr_contactMethodID request) (sr_expectedURL request) (newToken a)) w in
  let '(casContextErr, w) := rot_ctx_error env casCtx w in
  match casErr with
  | None => match casContextErr with
            | None => (succeeded PendingFinalization h, w)
            | Some _ => (reconciliationResult h, w)
            end
  | Some e =>
      match safeCASError e with
      | Some safeErr => compensate ctx h localDeadline safeErr w
      | None =>
          if bool_decide (e = CASOutcomeUnknown) then recoverUnknownCAS ctx h localDeadline (at_deadline a) w
          else (reconciliationResult h, w)
      end
  end.

(** Whether there is time for the update. *)
Definition proceed (ctx : Ctx) (request : StartRequest) (h : Handle) (a : Attempt) (localDeadline : Z) (w : World)
  : Outcome * World :=
  let '(now, w) := Now env w in
  if is_zero now || (Sub localDeadline now <=? CASLimit + DiscardLimit + RecoveryLimit) then
    compensate ctx h localDeadline RotUnavailable w
  else
    let casDeadline := earliest (now + CASLimit) (localDeadline - DiscardLimit - RecoveryLimit) in
    let casDeadline := match c_deadline ctx with Some d => earliest casDeadline d | None => casDeadline end in
    let '(cc, w) := boundedContext env ctx casDeadline w in
    match cc with
    | None =>
        let '(ok, w) := rollbackBeforeLocalDeadline (WithoutCancel ctx) (hd_participant h) localDeadline w in
        if ok then
          let '(e, w) := rot_ctx_error env ctx w in
          (failed (match e with Some e => e | None => RotUnavailable end), w)
        else (reconciliationResult h, w)
    | Some casCtx => swap ctx request h a localDeadline casCtx w
    end.

Definition Start (ctx : Ctx) (request : StartRequest) (w : World) : Outcome * World :=
  let '(e, w) := operationContext ctx w in
  match e with
  | Some e => (failed e, w)
  | None =>
      match prepareStart m request with
      | None => (failed RotInvalid, w)
      | Some (audience, destination, oldToken) =>
          let '(beginAnchor, w) := Now env w in
          if is_zero beginAnchor then (failed RotInvalid, w)
          else
            let '(bc, w) := boundedContext env ctx (beginAnchor + BeginLimit) w in
            match bc with
            | None =>
                let '(e, w) := rot_ctx_error env ctx w in
                (failed (match e with Some e => e | None => RotUnavailable end), w)
            | Some beginCtx =>
                let '((attempt, err), w) := Begin_ beginCtx (mkBegin audience destination oldToken) w in
                let '(beginContextErr, w) := rot_ctx_error env beginCtx w in
                let h := mkHandle (sr_contactMethodID request) (at_handle attempt) in
                if bool_decide (err <> None) then
                  (if handle_valid (at_handle attempt) then reconciliationResult h else failed (beginError err), w)
                else if negb (attempt_valid attempt) || String.eqb (newToken attempt) oldToken then
                  (if handle_valid (at_handle attempt) then reconciliationResult h else failed RotReconciliationRequired, w)
                else match localDeadline beginAnchor (activatedAt attempt) (at_deadline attempt) with
                     | None => (reconciliationResult h, w)
                     | Some deadline =>
                         let '(callerErr, w) :=
                           match beginContextErr with Some e => (Some e, w) | None => rot_ctx_error env ctx w end in
                         match callerErr with
                         | Some e => compensate ctx h deadline e w
                         | None => proceed ctx request h attempt deadline w
                         end
                     end
            end
      end
  end.

Definition Reconcile (ctx : Ctx) (h : Handle) (w : World) : Outcome * World :=
  let '(e, w) := operationContext ctx w in
  match e with
  | Some e => (failed e, w)
  | None => if negb (hd_valid h) then (failed RotInvalid, w) else inspectLocked ctx h InspectReconcile zero_inst zero_inst w
  end.

Definition Finalize (ctx : Ctx) (h : Handle) (w : World) : Outcome * World :=
  let '(e, w) := operationContext ctx w in
  match e with
  | Some e => (failed e, w)
  | None => if negb (hd_valid h) then (failed RotInvalid, w) else inspectLocked ctx h InspectFinalize zero_inst zero_inst w
  end.
End Coordinator.
