(* ===== verification/TokenRotationSpec.v ===== *)
(** * What a rotation keeps

    Whatever fails, and however long it takes: the contact method never holds a
    token that the Gateway has revoked, the results say what happened, and the
    Gateway and the database are asked to change something once.  A rotation of
    which no call fails succeeds. *)

From S2P Require Import Prelude Text GoTime Dest GatewayTarget TokenStore TokenRotation.

Open Scope Z_scope.

(** ** The contract of the Gateway *)

(** What the Gateway keeps of an attempt. *)
Record GAttempt := mkGA { ga_old : string; ga_new : string; ga_state : ParticipantState }.

Definition with_state (s : ParticipantState) (ga : GAttempt) : GAttempt := mkGA (ga_old ga) (ga_new ga) s.

Definition identify (ga : GAttempt) (token : string) : TokenIdentity :=
  if String.eqb token (ga_new ga) then TokenNew else if String.eqb token (ga_old ga) then TokenOld else TokenNeither.

(** docs/gateway-destination-token-rotation-coordinator-v1.md, participant
    contract: a confirmed begin has made the pair, an error without a handle
    nothing; an observation identifies the token and changes nothing; what is
    not a transition of the active pair is not a success, and after an error the
    transition may have happened. *)
Class GatewayContract (G : Type) `{Participant G} := {
  attempt_of : G -> list Z -> option GAttempt;
  begin_confirmed : forall ctx n r g a g', BeginRotation ctx n r g = ((a, None), g') -> attempt_valid a = true ->
    attempt_of g' (at_handle a) = Some (mkGA (currentToken r) (newToken a) ActiveWithRetiring);
  begin_uncertain : forall ctx n r g a e g' ga, BeginRotation ctx n r g = ((a, e), g') ->
    attempt_of g (at_handle a) = None -> attempt_of g' (at_handle a) = Some ga ->
    ga_old ga = currentToken r /\ ga_state ga <> Completed;
  begin_nothing : forall ctx n r g a e g', BeginRotation ctx n r g = ((a, Some e), g') -> handle_valid (at_handle a) = false ->
    forall h, attempt_of g' h = attempt_of g h;
  begin_other : forall ctx n r g a e g', BeginRotation ctx n r g = ((a, e), g') ->
    forall h, h <> at_handle a \/ attempt_of g h <> None -> attempt_of g' h = attempt_of g h;
  observe_keeps : forall ctx n h token g o e g', ObserveRotation ctx n h token g = ((o, e), g') ->
    forall h', attempt_of g' h' = attempt_of g h';
  observe_exact : forall ctx n h token g o g', ObserveRotation ctx n h token g = ((o, None), g') -> obs_valid o = true ->
    exists ga, attempt_of g h = Some ga /\ ob_state o = ga_state ga /\ identity o = identify ga token;
  rollback_other : forall ctx n h g e g', RollbackRotation ctx n h g = (e, g') ->
    forall h', h' <> h -> attempt_of g' h' = attempt_of g h';
  rollback_exact : forall ctx n h g e g', RollbackRotation ctx n h g = (e, g') ->
    attempt_of g' h = attempt_of g h /\ e <> None \/
    exists ga, attempt_of g h = Some ga /\ ga_state ga = ActiveWithRetiring /\ attempt_of g' h = Some (with_state RolledBack ga);
  finalize_other : forall ctx n h g e g', FinalizeRotation ctx n h g = (e, g') ->
    forall h', h' <> h -> attempt_of g' h' = attempt_of g h';
  finalize_exact : forall ctx n h g e g', FinalizeRotation ctx n h g = (e, g') ->
    attempt_of g' h = attempt_of g h /\ e <> None \/
    exists ga, attempt_of g h = Some ga /\ ga_state ga = ActiveWithRetiring /\ attempt_of g' h = Some (with_state Completed ga)
}.

Section spec.
Context {HN : NetURL} {HU : UUIDText} {G : Type} {HP : Participant G} {HC : GatewayContract G}.
Context (m : GatewayTargetMatcher) (id : UUID).

Local Notation World := (World G).

(** ** The token of the contact method *)

Definition dest_token (d : DestV1) : option string := tokenFromAuthoritativeDestination m d.

(** The row has the token, or may get it from an open commit. *)
Definition may_hold (tok : string) (w : World) : Prop :=
  (exists d, w_rows w !! id = Some d /\ dest_token d = Some tok) \/
  (exists d, w_doubt w = Some (id, d) /\ dest_token d = Some tok).

(** This process has the lock of the row, which is [d]. *)
Definition held (d : DestV1) (w : World) : Prop :=
  w_locked w = Some id /\ w_rows w !! id = Some d /\ forall d', w_doubt w <> Some (id, d').

Lemma held_token d tok w : held d w -> may_hold tok w -> dest_token d = Some tok.
Proof. intros (_ & E & Hd) [(d' & E' & Ht)|(d' & E' & _)]; [congruence|by destruct (Hd d')]. Qed.

(** ** What does not touch the Gateway *)

Section attempt.
Context (old new : string).

(** Nobody else puts one of the two tokens into the contact method. *)
Definition polite (env : Env) : Prop :=
  forall n d, foreign env n = Some (id, Some d) -> dest_token d <> Some old /\ dest_token d <> Some new.

(** From [w] to [w'] neither token came into the row, and a locked row stayed. *)
Record quiet (w w' : World) : Prop := {
  q_gw : w_gw w' = w_gw w;
  q_hold : forall tok, tok = old \/ tok = new -> may_hold tok w' -> may_hold tok w;
  q_held : forall d, held d w -> held d w'
}.

#[local] Instance quiet_refl : Reflexive quiet.
Proof. intros w. split; auto. Qed.

#[local] Instance quiet_trans : Transitive quiet.
Proof. intros w1 w2 w3 [A1 A2 A3] [B1 B2 B3]. split; [congruence|eauto|eauto]. Qed.

Lemma settle_quiet b w : quiet w (settle b w).
Proof.
  unfold settle. destruct (w_doubt w) as [[i d]|] eqn:E; [|reflexivity]. split; cbn; [done|..].
  - intros tok _ [(d' & E' & Ht)|(d' & [=] & _)]. cbn in E'. unfold may_hold. rewrite E. destruct b; [|left; eauto].
    apply lookup_insert_Some in E' as [[-> ->]|[_ E']]; eauto.
  - intros d' (H1 & H2 & H3). split; [done|]. cbn. split; [|done]. destruct b; [|done].
    rewrite lookup_insert_ne; [done|]. intros ->. rewrite E in H3. by destruct (H3 d).
Qed.

Context (env : Env) (Hpol : polite env).

Lemma tick_quiet w : quiet w (tick env w).
Proof using Hpol.
  unfold tick. set (w1 := match settles env (w_n w) with Some b => settle b w | None => w end).
  assert (quiet w w1) as HQ by (subst w1; destruct (settles env (w_n w)); [apply settle_quiet|reflexivity]).
  etrans; [exact HQ|]. clearbody w1. clear HQ. destruct (foreign env (w_n w)) as [[i d]|] eqn:Ef; [|by split; cbn].
  destruct (row_free i w1) eqn:Er; [|by split; cbn]. split; cbn; [done|..].
  - intros tok Htok [(d' & E' & Ht)|H]; [|by right]. cbn in E'. destruct d as [d|]; cbn in E'.
    + apply lookup_insert_Some in E' as [[-> ->]|[_ E']]; [|left; eauto].
      destruct (Hpol _ _ Ef) as [H1 H2]. destruct Htok as [->| ->]; done.
    + apply lookup_delete_Some in E' as [_ E']. left. eauto.
  - intros d' (H1 & H2 & H3). split; [done|]. cbn. split; [|done]. assert (i <> id) as Hi.
    { intros ->. unfold row_free in Er. rewrite H1, bool_decide_eq_true_2 in Er; done. }
    destruct d; cbn; [by rewrite lookup_insert_ne|by rewrite lookup_delete_ne].
Qed.

Lemma log_quiet e w : quiet w (TokenStore.log_event e w).
Proof. by split. Qed.

Lemma tick_after w w' : quiet w w' -> quiet w (tick env w').
Proof using Hpol. intros HQ. etrans; [exact HQ|apply tick_quiet]. Qed.

Ltac ticks := repeat first [reflexivity | assumption | apply tick_after].

Lemma unlock_quiet w : w_gw (set_lock None w) = w_gw w /\ forall tok, may_hold tok (set_lock None w) -> may_hold tok w.
Proof. done. Qed.

Lemma Now_quiet w x w' : Now env w = (x, w') -> quiet w w'.
Proof using Hpol. intros [= _ <-]. apply tick_quiet. Qed.

Lemma Err_quiet ctx w x w' : Err env ctx w = (x, w') -> quiet w w'.
Proof using Hpol. intros [= _ <-]. apply tick_quiet. Qed.

Lemma cas_ctx_quiet ctx w x w' : cas_ctx_error env ctx w = (x, w') -> quiet w w'.
Proof using Hpol. intros [= _ <-]. apply tick_quiet. Qed.

Lemma rot_ctx_quiet ctx w x w' : rot_ctx_error env ctx w = (x, w') -> quiet w w'.
Proof using Hpol. intros [= _ <-]. apply tick_quiet. Qed.

Lemma bounded_quiet ctx d w x w' : boundedContext env ctx d w = (x, w') -> quiet w w'.
Proof using Hpol.
  unfold boundedContext, Err, Now. intros E. repeat case_match; simplify_eq; ticks.
Qed.

Lemma discard_quiet d w x w' : DiscardBefore env d w = (x, w') -> quiet w w'.
Proof using Hpol.
  unfold DiscardBefore, Now. intros E. repeat case_match; simplify_eq; ticks.
Qed.

(** The same where a lock is released. *)
Record calm (w w' : World) : Prop := {
  c_gw : w_gw w' = w_gw w;
  c_hold : forall tok, tok = old \/ tok = new -> may_hold tok w' -> may_hold tok w
}.

#[local] Instance calm_refl : Reflexive calm.
Proof. intros w. by split. Qed.

Lemma quiet_calm w w' : quiet w w' -> calm w w'.
Proof. intros [H1 H2 _]. by split. Qed.

Lemma calm_trans w1 w2 w3 : calm w1 w2 -> calm w2 w3 -> calm w1 w3.
Proof. intros [A1 A2] [B1 B2]. split; [congruence|eauto]. Qed.

Lemma find_quiet w r w' : FindOneUpdate env id w = (r, w') ->
  calm w w' /\ forall d, r = inl d -> held d w'.
Proof using Hpol.
  unfold FindOneUpdate. destruct (find_err env (w_n w)); [intros [= <- <-]; split; [apply quiet_calm, tick_quiet|done]|].
  set (w1 := match w_doubt (tick env w) with Some (i, _) => if id =? i then settle (late env (w_n w)) (tick env w) else tick env w | None => tick env w end).
  assert (quiet w w1 /\ forall d, w_doubt w1 <> Some (id, d)) as [HQ Hd].
  { subst w1. destruct (w_doubt (tick env w)) as [[i d]|] eqn:E; [|split; [apply tick_quiet|congruence]].
    destruct (Z.eqb_spec id i) as [->|Hne]; [|split; [apply tick_quiet|congruence]].
    split; [etrans; [apply tick_quiet|apply settle_quiet]|]. unfold settle. by rewrite E. }
  clearbody w1. destruct (w_rows w1 !! id) as [d|] eqn:E; intros [= <- <-].
  - split; [destruct HQ as [H1 H2 _]; by split|]. intros d' [= <-]. by split.
  - split; [by apply quiet_calm|done].
Qed.

Lemma update_quiet w e r w' : CompareAndSwapUpdate env id e w = (r, w') ->
  quiet w w' /\ (r = inl (Some 1) -> w_rows w' !! id = Some e).
Proof using Hpol.
  unfold CompareAndSwapUpdate. intros E.
  assert (quiet w (tick env (TokenStore.log_event (EUpdate id) w))) as HQ by (etrans; [apply log_quiet|apply tick_quiet]).
  destruct (update_err env (w_n w)); [by injection E as <- <-|]. injection E as <- <-. split; [done|].
  destruct (rows_known env (w_n w)); [|done]. by case_bool_decide.
Qed.

Lemma rollback_calm w x w' : Rollback env w = (x, w') -> calm w w'.
Proof using Hpol. intros [= _ <-]. destruct (tick_quiet w) as [H1 H2 _]. by split. Qed.

Lemma commit_spec w r x w' : Commit env id r w = (x, w') ->
  w_gw w' = w_gw w /\ forall tok, tok = old \/ tok = new -> may_hold tok w' -> may_hold tok w \/ dest_token r = Some tok.
Proof using Hpol.
  unfold Commit. intros E. destruct (tick_quiet (TokenStore.log_event (ECommit id) w)) as [H1 H2 _].
  destruct (commit_fails env (w_n w)); injection E as _ <-; (split; [exact H1|]); intros tok Ht [(d & Ed & Et)|(d & Ed & Et)]; cbn in Ed.
  - left. apply (H2 tok Ht). left. eauto.
  - injection Ed as <-. by right.
  - rewrite lookup_insert_eq in Ed. injection Ed as <-. by right.
  - left. apply (H2 tok Ht). right. eauto.
Qed.

(** An error that proves that nothing was changed. *)
Definition nothing_done (res : option Sentinel) : Prop :=
  match res with Some e => safeCASError e <> None | None => False end.

Lemma quarantine_spec d w res w' : quarantineUnknown env d w = (res, w') -> quiet w w' /\ ~ nothing_done res.
Proof using Hpol.
  unfold quarantineUnknown. destruct (DiscardBefore env d w) as [b w1] eqn:E. apply discard_quiet in E.
  intros [= <- <-]. split; [done|]. destruct b; cbn; intros H; by apply H.
Qed.

Lemma rollback_spec ctx d e w res w' : TokenStore.rollback env ctx d e w = (res, w') -> calm w w'.
Proof using Hpol.
  unfold TokenStore.rollback. destruct (Rollback env w) as [ok w1] eqn:E1. apply rollback_calm in E1. destruct ok; cbn [negb].
  - destruct (cas_ctx_error env ctx w1) as [x w2] eqn:E2. apply cas_ctx_quiet in E2. case_bool_decide; intros E.
    + apply quarantine_spec in E as [E _]. eapply calm_trans; [exact E1|]. apply quiet_calm. by etrans.
    + injection E as _ <-. eapply calm_trans; [exact E1|]. by apply quiet_calm.
  - intros E. apply quarantine_spec in E as [E _]. eapply calm_trans; [exact E1|]. by apply quiet_calm.
Qed.

Lemma topology_spec d w res w' : rollbackUncertainTopology env d w = (res, w') -> calm w w'.
Proof using Hpol.
  unfold rollbackUncertainTopology. destruct (Rollback env w) as [ok w1] eqn:E1. apply rollback_calm in E1.
  destruct (DiscardBefore env d w1) as [b w2] eqn:E2. apply discard_quiet in E2. intros [= _ <-].
  eapply calm_trans; [exact E1|]. by apply quiet_calm.
Qed.

Lemma notBegun_spec ctx d c e w res w' : notBegun env ctx d c e w = (res, w') -> quiet w w'.
Proof using Hpol.
  unfold notBegun. destruct (if c then DiscardBefore env d w else (true, w)) as [b w1] eqn:E1.
  assert (quiet w w1) as H1 by (destruct c; [by apply discard_quiet in E1|injection E1 as _ <-; reflexivity]).
  destruct b; cbn [negb]; [|by intros [= _ <-]].
  destruct (cas_ctx_error env ctx w1) as [x w2] eqn:E2. apply cas_ctx_quiet in E2. intros E. etrans; [exact H1|].
  by destruct x; injection E as _ <-.
Qed.

(** The update may have put [r] into the row, unless the error proves it did not. *)
Record swapped (r : DestV1) (w : World) (res : option Sentinel) (w' : World) : Prop := {
  s_gw : w_gw w' = w_gw w;
  s_hold : forall tok, tok = old \/ tok = new -> may_hold tok w' -> may_hold tok w \/ dest_token r = Some tok;
  s_nothing : nothing_done res -> calm w w'
}.

Lemma calm_swapped r w res w' : calm w w' -> swapped r w res w'.
Proof. intros HQ. split; [apply HQ|intros tok Ht Hm; left; by apply HQ|done]. Qed.

Lemma same_swapped r w res : swapped r w res w.
Proof. apply calm_swapped. reflexivity. Qed.

Lemma swapped_after r w w1 res w' : calm w w1 -> swapped r w1 res w' -> swapped r w res w'.
Proof.
  intros [A1 A2] [B1 B2 B3]. split; [congruence| |intros Hn; by apply (calm_trans _ w1); [split|apply B3]].
  intros tok Ht Hm. destruct (B2 tok Ht Hm); auto.
Qed.

Lemma fencedUpdate_spec ctx d e r w res w' : fencedUpdate env ctx d id e r w = (res, w') -> swapped r w res w'.
Proof using Hpol.
  unfold fencedUpdate. destruct (FindOneUpdate env id w) as [found w1] eqn:E1. apply find_quiet in E1 as [E1 _].
  intros E. apply (swapped_after _ _ w1); [done|]. destruct found as [d0|err].
  - destruct (CompareAndSwapUpdate env id e w1) as [result w2] eqn:E2. apply update_quiet in E2 as [E2 _].
    apply (swapped_after _ _ w2); [by apply quiet_calm|]. destruct result as [[k|]|err].
    + destruct (k =? 0); [by eapply calm_swapped, rollback_spec|]. destruct (k =? 1); [|by eapply calm_swapped, rollback_spec].
      destruct (Commit env id r w2) as [ok w3] eqn:E3. apply commit_spec in E3 as [C1 C2].
      assert (forall w4, quiet w3 w4 -> ~ nothing_done res -> swapped r w2 res w4) as HS.
      { intros w4 [Q1 Q2 _] Hn. split; [congruence|intros tok Ht Hm; by apply C2, Q2|done]. }
      destruct ok; cbn [negb] in E; [|apply quarantine_spec in E as [? ?]; by apply HS].
      destruct (cas_ctx_error env ctx w3) as [x w4] eqn:E4. apply cas_ctx_quiet in E4. case_bool_decide.
      * apply quarantine_spec in E as [? ?]. apply HS; [by etrans|done].
      * injection E as <- <-. apply HS; [done|by intros []].
    + by eapply calm_swapped, rollback_spec.
    + destruct (direct _ _); [by eapply calm_swapped, topology_spec|].
      destruct (cas_ctx_error env ctx w2) as [x w3] eqn:E3. apply cas_ctx_quiet in E3. apply rollback_spec in E.
      apply calm_swapped. eapply calm_trans; [by apply quiet_calm|exact E].
  - destruct (single_cause_matches _ _ _); [by eapply calm_swapped, rollback_spec|].
    destruct (direct _ _); [by eapply calm_swapped, topology_spec|].
    destruct (cas_ctx_error env ctx w1) as [x w3] eqn:E3. apply cas_ctx_quiet in E3. apply rollback_spec in E.
    apply calm_swapped. eapply calm_trans; [by apply quiet_calm|exact E].
Qed.

Lemma fence_spec ctx e r w res w' : compareAndSwapWithFence env ctx id e r w = (res, w') -> swapped r w res w'.
Proof using Hpol.
  unfold compareAndSwapWithFence. destruct (id =? uuid_Nil); [intros [= <- <-]; by apply same_swapped|].
  destruct (c_system ctx); cbn [negb]; [|intros [= <- <-]; by apply same_swapped].
  destruct (cas_ctx_error env ctx w) as [x w1] eqn:E1. apply cas_ctx_quiet in E1. intros E.
  apply (swapped_after _ _ w1); [by apply quiet_calm|]. destruct x; [injection E as <- <-; by apply same_swapped|].
  destruct (c_deadline ctx) as [dl|]; [|injection E as <- <-; by apply same_swapped].
  destruct (Now env w1) as [now w2] eqn:E2. apply Now_quiet in E2. apply (swapped_after _ _ w2); [by apply quiet_calm|].
  destruct (now <? dl); cbn [negb] in E; [|injection E as <- <-; by apply same_swapped].
  apply (swapped_after _ _ (tick env w2)); [by apply quiet_calm, tick_quiet|]. set (w3 := tick env w2) in *.
  destruct (_ || _); [by eapply calm_swapped, quiet_calm, notBegun_spec|].
  apply (swapped_after _ _ (tick env w3)); [by apply quiet_calm, tick_quiet|]. set (w4 := tick env w3) in *.
  destruct (_ || _); [by eapply calm_swapped, quiet_calm, notBegun_spec|]. by eapply fencedUpdate_spec.
Qed.

(** The replacement holds the new token. *)
Lemma leads_token url token : leads_to m url token -> dest_token (NewWebhookDest url) = Some token.
Proof.
  intros HL. unfold dest_token, tokenFromAuthoritativeDestination. rewrite NewWebhookDest_eq. cbn [dType dArgs].
  rewrite String.eqb_refl, map_size_singleton. cbn [negb orb Nat.eqb]. unfold Arg. cbn [dArgs]. rewrite lookup_singleton_eq. change (default _ (Some url)) with url.
  unfold tokenFromURL. rewrite (leads_matched _ _ _ HL). cbn [mbind option_bind].
  by rewrite TrimPrefix_app, (proj1 HL).
Qed.

Lemma prepare_token r e d : prepare m r = Some (e, d) -> dest_token d = Some (cr_replacementToken r).
Proof.
  intros E. destruct (prepared m r e d E) as (base & oldToken & _ & _ & -> & _ & Hl & _). by apply leads_token.
Qed.

Lemma CompareAndSwap_spec ctx url w res w' :
  CompareAndSwap env m ctx (mkCASRequest id url new) w = (res, w') -> old <> new ->
  w_gw w' = w_gw w /\ (may_hold old w' -> may_hold old w) /\ (nothing_done res -> calm w w').
Proof using Hpol.
  unfold CompareAndSwap. intros E Hne.
  assert (forall w1, calm w w1 -> w_gw w1 = w_gw w /\ (may_hold old w1 -> may_hold old w) /\ (nothing_done res -> calm w w1)) as HQ.
  { intros w1 HQ. split; [apply HQ|]. split; [apply HQ; by left|done]. }
  destruct (c_system ctx); cbn [negb] in E; [|injection E as <- <-; apply HQ; reflexivity].
  destruct (cas_ctx_error env ctx w) as [x w1] eqn:E1. apply cas_ctx_quiet in E1. destruct x; [injection E as <- <-; by apply HQ, quiet_calm|].
  destruct (prepare m _) as [[e d]|] eqn:Ep; [|injection E as <- <-; by apply HQ, quiet_calm].
  destruct (compareAndSwapWithFence env ctx _ e d w1) as [err w2] eqn:E2. apply fence_spec in E2.
  apply (swapped_after _ w) in E2; [|by apply quiet_calm]. destruct E2 as [S1 S2 S3].
  injection E as Eres <-. split; [done|]. apply prepare_token in Ep. cbn in Ep. split.
  - intros Hm. destruct (S2 old (or_introl eq_refl) Hm) as [?|E]; [done|]. congruence.
  - intros Hn. apply S3. destruct err as [[]|]; cbn in *; subst; cbn in *; done.
Qed.

(** ** Calls of the Gateway *)

Context (h : list Z).

Definition state_of (w : World) : option GAttempt := attempt_of (w_gw w) h.

(** A token that the Gateway has revoked is not in the contact method, and no
    open commit will put it there. *)
Definition safe (w : World) : Prop :=
  forall ga, state_of w = Some ga -> (ga_old ga = old /\ old <> new) /\ ga_new ga = new /\
    (ga_state ga = RolledBack -> ~ may_hold new w) /\ (ga_state ga = Completed -> ~ may_hold old w).

Lemma calm_safe w w' : calm w w' -> safe w -> safe w'.
Proof.
  intros [C1 C2] HS ga E. unfold state_of in *. rewrite C1 in E. destruct (HS ga E) as (H1 & H2 & H3 & H4).
  split; [done|]. split; [done|]. split; intros Hs Hm; [apply (H3 Hs)|apply (H4 Hs)]; apply C2; auto.
Qed.

(** The rows after a call of the Gateway. *)
Record still (w w' : World) : Prop := {
  i_hold : forall tok, tok = old \/ tok = new -> may_hold tok w' -> may_hold tok w;
  i_held : forall d, held d w -> held d w'
}.

Lemma quiet_still w w' : quiet w w' -> still w w'.
Proof. intros [_ H2 H3]. by split. Qed.

#[local] Instance still_trans : Transitive still.
Proof. intros w1 w2 w3 [A1 A2] [B1 B2]. split; eauto. Qed.

Lemma called_still e g w : still w (set_gw g (tick env (TokenStore.log_event e w))).
Proof using Hpol.
  assert (quiet w (tick env (TokenStore.log_event e w))) as [_ H2 H3] by (etrans; [apply log_quiet|apply tick_quiet]). by split.
Qed.

Lemma tick_log_gw e (w : World) : w_gw (tick env (TokenStore.log_event e w)) = w_gw w.
Proof using Hpol. apply (q_gw _ _ (tick_quiet (TokenStore.log_event e w))). Qed.

Lemma Observe_spec ctx tok w o err w' : Observe_ env ctx h tok w = ((o, err), w') ->
  still w w' /\ state_of w' = state_of w /\
  (err = None -> obs_valid o = true ->
     exists ga, state_of w = Some ga /\ ob_state o = ga_state ga /\ identity o = identify ga tok).
Proof using Hpol.
  unfold Observe_. rewrite tick_log_gw. destruct (ObserveRotation ctx (w_n w) h tok (w_gw w)) as [[o' e'] g] eqn:E.
  intros [= <- <- <-]. split; [apply called_still|]. split; [by apply (observe_keeps _ _ _ _ _ _ _ _ E)|].
  intros -> Hv. by apply (observe_exact _ _ _ _ _ _ _ E).
Qed.

(** A transition of the active pair to [s], or none and an error. *)
Definition transits (s : ParticipantState) (ok : bool) (w w' : World) : Prop :=
  still w w' /\ (state_of w' = state_of w /\ ok = false \/
    exists ga, state_of w = Some ga /\ ga_state ga = ActiveWithRetiring /\ state_of w' = Some (with_state s ga)).

Lemma Rollback_spec ctx w e w' : Rollback_ env ctx h w = (e, w') -> transits RolledBack (bool_decide (e = None)) w w'.
Proof using Hpol.
  unfold Rollback_. rewrite tick_log_gw. destruct (RollbackRotation ctx (w_n w) h (w_gw w)) as [e' g] eqn:E.
  intros [= <- <-]. split; [apply called_still|]. destruct (rollback_exact _ _ _ _ _ _ E) as [[H1 H2]|H]; [left|by right].
  split; [done|]. by apply bool_decide_eq_false_2.
Qed.

Lemma Finalize_spec ctx w e w' : Finalize_ env ctx h w = (e, w') -> transits Completed (bool_decide (e = None)) w w'.
Proof using Hpol.
  unfold Finalize_. rewrite tick_log_gw. destruct (FinalizeRotation ctx (w_n w) h (w_gw w)) as [e' g] eqn:E.
  intros [= <- <-]. split; [apply called_still|]. destruct (finalize_exact _ _ _ _ _ _ E) as [[H1 H2]|H]; [left|by right].
  split; [done|]. by apply bool_decide_eq_false_2.
Qed.

Lemma quiet_state w w' : quiet w w' -> state_of w' = state_of w.
Proof. intros [E _ _]. unfold state_of. by rewrite E. Qed.

Lemma transits_quiet s ok w1 w2 w3 w4 : quiet w1 w2 -> transits s ok w2 w3 -> quiet w3 w4 -> transits s ok w1 w4.
Proof.
  intros H1 [H2 H3] H4. split; [etrans; [by apply quiet_still|]; etrans; [exact H2|by apply quiet_still]|].
  by rewrite (quiet_state _ _ H4), <- (quiet_state _ _ H1).
Qed.

Lemma transits_false s ok w w' : transits s ok w w' -> transits s false w w'.
Proof. intros [H1 [[H2 _]|H2]]; split; auto. Qed.

Lemma rollbackBefore_spec ctx dl w ok w' : rollbackBeforeLocalDeadline env ctx h dl w = (ok, w') -> transits RolledBack ok w w'.
Proof using Hpol.
  unfold rollbackBeforeLocalDeadline. destruct (Now env w) as [now w1] eqn:E1. apply Now_quiet in E1.
  assert (forall w2, quiet w w2 -> transits RolledBack false w w2) as HN'.
  { intros w2 HQ. split; [by apply quiet_still|]. left. by rewrite (quiet_state _ _ HQ). }
  destruct (_ || _); [intros [= <- <-]; by apply HN'|].
  destruct (boundedContext env ctx _ w1) as [rc w2] eqn:E2. apply bounded_quiet in E2. assert (quiet w w2) as HQ by by etrans.
  destruct rc as [rc|]; [|intros [= <- <-]; by apply HN'].
  destruct (Rollback_ env rc h w2) as [err w3] eqn:E3. apply Rollback_spec in E3.
  destruct (bool_decide (err <> None)) eqn:He.
  - intros [= <- <-]. apply (transits_false _ (bool_decide (err = None))). eapply transits_quiet; [exact HQ|exact E3|reflexivity].
  - destruct (Err env rc w3) as [e w4] eqn:E4. apply Err_quiet in E4. intros [= <- <-].
    apply bool_decide_eq_false_1, dec_stable in He. rewrite bool_decide_eq_true_2 in E3 by done.
    pose proof (transits_quiet _ _ _ _ _ _ HQ E3 E4) as HT. destruct (bool_decide (e = None)); [done|by eapply transits_false].
Qed.

(** Under the lock on a row that does not hold a token the transition is safe. *)
Lemma rolled_safe ok d w w' : held d w -> dest_token d <> Some new -> safe w -> transits RolledBack ok w w' -> safe w' /\ held d w'.
Proof.
  intros Hd Ht HS [HQ HT]. assert (held d w') as Hd' by by apply HQ. split; [|done].
  assert (~ may_hold new w') as Hnew by (intros Hm; by apply Ht, (held_token d new w')).
  destruct HT as [[E _]|(ga & E & Ea & E')]; intros ga' Eg.
  - rewrite E in Eg. destruct (HS _ Eg) as (H1 & H2 & H3 & H4). split; [done|]. split; [done|]. split; [done|].
    intros Hs Hm. apply (H4 Hs). apply HQ; auto.
  - rewrite E' in Eg. injection Eg as <-. destruct (HS _ E) as (H1 & H2 & _). cbn. done.
Qed.

Lemma completed_safe ok d w w' : held d w -> dest_token d <> Some old -> safe w -> transits Completed ok w w' -> safe w' /\ held d w'.
Proof.
  intros Hd Ht HS [HQ HT]. assert (held d w') as Hd' by by apply HQ. split; [|done].
  assert (~ may_hold old w') as Hold by (intros Hm; by apply Ht, (held_token d old w')).
  destruct HT as [[E _]|(ga & E & Ea & E')]; intros ga' Eg.
  - rewrite E in Eg. destruct (HS _ Eg) as (H1 & H2 & H3 & H4). split; [done|]. split; [done|]. split; [|done].
    intros Hs Hm. apply (H3 Hs). apply HQ; auto.
  - rewrite E' in Eg. injection Eg as <-. destruct (HS _ E) as (H1 & H2 & _). cbn. done.
Qed.

(** ** Under the lock *)

Definition in_state (st : ParticipantState) (w : World) : Prop := exists ga, state_of w = Some ga /\ ga_state ga = st.

Lemma calm_in_state st w w' : calm w w' -> in_state st w -> in_state st w'.
Proof. intros [E _] (ga & Es & Ea). exists ga. split; [|done]. unfold state_of in *. by rewrite E. Qed.

(** What a result says of the Gateway. *)
Definition told (out : Outcome) (w : World) : Prop :=
  match out with
  | (Some (PendingFinalization, h'), None) => h' = mkHandle id h /\ in_state ActiveWithRetiring w
  | (Some (StatusRolledBack, h'), None) => h' = mkHandle id h /\ in_state RolledBack w
  | (Some (StatusCompleted, h'), None) => h' = mkHandle id h /\ in_state Completed w
  | (Some (NeedsReconciliation, h'), Some e) => h' = mkHandle id h /\ e = RotReconciliationRequired
  | (None, Some _) => True
  | _ => False
  end.

(** The failure of an update that was undone. *)
Definition undone (purpose : Purpose) (out : Outcome) (w : World) : Prop :=
  purpose = InspectUnknownCAS -> forall e, out = (None, Some e) -> e <> RotReconciliationRequired -> in_state RolledBack w.

Definition kept (purpose : Purpose) (out : Outcome) (w : World) : Prop := safe w /\ told out w /\ undone purpose out w.

Lemma calm_told out w w' : calm w w' -> told out w -> told out w'.
Proof.
  intros HQ. destruct out as [[[[] h']|] [e|]]; cbn; intros HT; try done;
    destruct HT as [H1 H2]; (split; [done|]); (by eapply calm_in_state) || done.
Qed.

Lemma calm_kept purpose out w w' : calm w w' -> kept purpose out w -> kept purpose out w'.
Proof.
  intros HQ (H1 & H2 & H3). split; [by eapply calm_safe|]. split; [by eapply calm_told|].
  intros Hp e Ho He. eapply calm_in_state; [exact HQ|]. by eapply H3.
Qed.

Lemma failed_kept purpose w : safe w -> kept purpose (failed RotReconciliationRequired) w.
Proof. intros HS. split; [done|]. split; [done|]. intros _ e [= <-] H. done. Qed.

Lemma transits_state st w w' : transits st true w w' -> in_state st w'.
Proof. intros [_ [[_ ?]|(ga & _ & _ & E)]]; [done|]. by exists (with_state st ga). Qed.

Lemma reconcileLocked_spec ctx o tok dl purpose d w out w' :
  held d w -> dest_token d = Some tok -> safe w ->
  (exists ga, state_of w = Some ga /\ ob_state o = ga_state ga /\ identity o = identify ga tok) ->
  reconcileLocked env ctx (mkHandle id h) o purpose dl w = (out, w') -> kept purpose out w'.
Proof using Hpol.
  intros Hd Ht HS (ga & Eg & Eo & Ei). unfold reconcileLocked. destruct (HS _ Eg) as (Go & Gn & _).
  assert (forall st x, ga_state ga = st -> told (succeeded x (mkHandle id h)) w -> kept purpose (succeeded x (mkHandle id h)) w) as HK.
  { intros st x _ HT. split; [done|]. split; [done|]. by intros _ e [=]. }
  assert (in_state (ga_state ga) w) as Hst by by exists ga.
  destruct (ob_state o) eqn:Es; rewrite <- Eo in Hst.
  - destruct (is_zero dl); [intros [= <- <-]; by apply failed_kept|].
    destruct (identity o) eqn:Eid; try (intros [= <- <-]; by apply failed_kept); [intros [= <- <-]; by eapply HK|].
    destruct (rollbackBeforeLocalDeadline _ _ _ _ _) as [ok w1] eqn:E1. apply rollbackBefore_spec in E1. cbn [hd_participant] in E1.
    assert (dest_token d <> Some new) as Hnew.
    { rewrite Ht. intros [= ->]. unfold identify in Ei. rewrite Gn, String.eqb_refl in Ei. done. }
    destruct (rolled_safe ok d w w1 Hd Hnew HS E1) as [HS1 _].
    destruct ok; cbn [negb]; [|intros [= <- <-]; by apply failed_kept]. apply transits_state in E1.
    destruct purpose; intros [= <- <-]; (split; [done|]); (split; [done|]); by intros ? e [=].
  - destruct (identity o) eqn:Eid; try (intros [= <- <-]; by apply failed_kept).
    destruct purpose; intros [= <- <-]; try (by apply failed_kept); by eapply HK.
  - destruct (identity o) eqn:Eid; try (intros [= <- <-]; by apply failed_kept).
    destruct purpose; intros [= <- <-]; try (by apply failed_kept); by eapply HK.
  - destruct (identity o); intros [= <- <-]; by apply failed_kept.
Qed.

Lemma finalizeLocked_spec ctx o tok dl d w out w' :
  held d w -> dest_token d = Some tok -> safe w ->
  (exists ga, state_of w = Some ga /\ ob_state o = ga_state ga /\ identity o = identify ga tok) ->
  finalizeLocked env ctx (mkHandle id h) o dl w = (out, w') -> kept InspectFinalize out w'.
Proof using Hpol.
  intros Hd Ht HS (ga & Eg & Eo & Ei). unfold finalizeLocked. destruct (HS _ Eg) as ([Go Hne] & Gn & _).
  assert (forall e w2, safe w2 -> kept InspectFinalize (failed e) w2) as HK by (intros e w2 H2; split; [done|]; split; [done|]; by intros [=]).
  destruct (ob_state o); try (intros [= <- <-]; by apply HK).
  destruct (identity o) eqn:Eid; try (intros [= <- <-]; by apply HK).
  assert (dest_token d <> Some old) as Hold.
  { rewrite Ht. intros [= ->]. unfold identify in Ei. rewrite Gn, Go in Ei. apply String.eqb_neq in Hne. rewrite Hne, String.eqb_refl in Ei. done. }
  destruct (Now env w) as [now w1] eqn:E1. apply Now_quiet in E1.
  pose proof (calm_safe _ _ (quiet_calm _ _ E1) HS) as HS1. pose proof (q_held _ _ E1 _ Hd) as Hd1.
  destruct (_ || _); [intros [= <- <-]; by apply HK|]. destruct (now <? dl); [intros [= <- <-]; by apply HK|].
  destruct (rot_ctx_error env ctx w1) as [e w2] eqn:E2. apply rot_ctx_quiet in E2.
  pose proof (calm_safe _ _ (quiet_calm _ _ E2) HS1) as HS2. pose proof (q_held _ _ E2 _ Hd1) as Hd2.
  destruct e as [e|]; [intros [= <- <-]; by apply HK|].
  destruct (Finalize_ _ _ _ _) as [err w3] eqn:E3. cbn [hd_participant] in E3. apply Finalize_spec in E3.
  destruct (completed_safe _ d w2 w3 Hd2 Hold HS2 E3) as [HS3 _].
  destruct err as [err|]; intros [= <- <-]; [by apply HK|]. split; [done|]. split; [|by intros [=]].
  split; [done|]. by apply transits_state in E3.
Qed.

Lemma validLock_quiet ctx w b w' : validLockContext env ctx w = (b, w') -> quiet w w'.
Proof using Hpol.
  unfold validLockContext, Err, Now. intros E. repeat case_match; simplify_eq; ticks.
Qed.

Lemma inspect_spec purpose u g ctx d w out w' : held d w -> safe w ->
  inspect env m (mkHandle id h) purpose u g ctx d w = (out, w') -> kept purpose out w'.
Proof using Hpol.
  intros Hd HS. unfold inspect. destruct (validLockContext env ctx w) as [b w1] eqn:E1. apply validLock_quiet in E1.
  pose proof (calm_safe _ _ (quiet_calm _ _ E1) HS) as HS1. pose proof (q_held _ _ E1 _ Hd) as Hd1.
  destruct b; cbn [negb]; [|intros [= <- <-]; by apply failed_kept].
  destruct (tokenFromAuthoritativeDestination m d) as [tok|] eqn:Et; [|intros [= <- <-]; by apply failed_kept].
  destruct (Now env w1) as [anchor w2] eqn:E2. apply Now_quiet in E2.
  pose proof (calm_safe _ _ (quiet_calm _ _ E2) HS1) as HS2. pose proof (q_held _ _ E2 _ Hd1) as Hd2.
  cbn [hd_participant]. destruct (Observe_ env ctx h tok w2) as [[o err] w3] eqn:E3. apply Observe_spec in E3 as (O1 & O2 & O3).
  assert (safe w3) as HS3.
  { intros ga Eg. rewrite O2 in Eg. destruct (HS2 ga Eg) as (H1 & H2 & H3 & H4). split; [done|]. split; [done|].
    split; intros Hs Hm; [apply (H3 Hs)|apply (H4 Hs)]; apply O1; auto. }
  pose proof (i_held _ _ O1 _ Hd2) as Hd3.
  destruct (bool_decide (err <> None)) eqn:He; cbn [orb]; [intros [= <- <-]; by apply failed_kept|].
  destruct (obs_valid o) eqn:Ev; cbn [negb]; [|intros [= <- <-]; by apply failed_kept].
  apply bool_decide_eq_false_1, dec_stable in He. specialize (O3 He eq_refl). rewrite <- O2 in O3.
  destruct (observationLocalDeadline _ _ _ _ _) as [dl|]; [|intros [= <- <-]; by apply failed_kept].
  destruct purpose; intros E.
  - by eapply reconcileLocked_spec.
  - by eapply reconcileLocked_spec.
  - by eapply finalizeLocked_spec.
Qed.

Lemma opctx_quiet ctx w x w' : TokenStore.operationContext env ctx w = (x, w') -> quiet w w'.
Proof using Hpol.
  unfold TokenStore.operationContext. destruct (Err env ctx w) as [e w1] eqn:E1. apply Err_quiet in E1.
  destruct (bool_decide _); [by intros [= _ <-]|]. destruct (Now env w1) as [now w2] eqn:E2. apply Now_quiet in E2.
  destruct (boundedContext _ _ _ w2) as [c w3] eqn:E3. apply bounded_quiet in E3. intros [= _ <-].
  etrans; [exact E1|]. by etrans.
Qed.

Lemma release_calm ctx d w x w' : release env ctx d w = (x, w') -> calm w w'.
Proof using Hpol.
  unfold release. destruct (Rollback env w) as [ok w1] eqn:E1. apply rollback_calm in E1. destruct ok; cbn [negb].
  - destruct (rot_ctx_error env ctx w1) as [e w2] eqn:E2. apply rot_ctx_quiet in E2.
    assert (calm w w2) as HQ by (eapply calm_trans; [exact E1|by apply quiet_calm]).
    destruct (bool_decide _); [|by intros [= _ <-]]. destruct (DiscardBefore env d w2) as [b w3] eqn:E3. apply discard_quiet in E3.
    intros [= _ <-]. eapply calm_trans; [exact HQ|by apply quiet_calm].
  - destruct (DiscardBefore env d w1) as [b w3] eqn:E3. apply discard_quiet in E3.
    intros [= _ <-]. eapply calm_trans; [exact E1|by apply quiet_calm].
Qed.

Lemma locked_spec purpose ctx f w err r w' :
  (forall ctx' d w1 out w2, held d w1 -> safe w1 -> f ctx' d w1 = (out, w2) -> kept purpose out w2) ->
  safe w -> WithLocked env ctx id f w = ((err, r), w') ->
  match r with Some out => kept purpose out w' | None => calm w w' end.
Proof using Hpol.
  intros Hf HS. unfold WithLocked. destruct (_ || _); [intros [= <- <- <-]; reflexivity|].
  destruct (TokenStore.operationContext env ctx w) as [oc w1] eqn:E1. apply opctx_quiet in E1.
  destruct oc as [[oc dl]|]; [|intros [= <- <- <-]; by apply quiet_calm].
  pose proof (tick_after _ _ E1) as E2. set (w2 := tick env w1) in *.
  destruct (bool_decide (conn_err env (w_n w1) <> None) || _).
  { destruct (if conn_given env (w_n w1) then DiscardBefore env (dl + ReleaseLimit) w2 else (true, w2)) as [b w3] eqn:E3.
    assert (quiet w2 w3) as HQ by (destruct (conn_given _ _); [by apply discard_quiet in E3|injection E3 as _ <-; reflexivity]).
    intros [= <- <- <-]. apply quiet_calm. by etrans. }
  pose proof (tick_after _ _ E2) as E3. set (w3 := tick env w2) in *.
  destruct (bool_decide (begin_err env (w_n w2) <> None) || _).
  { destruct (DiscardBefore env (dl + ReleaseLimit) w3) as [b w4] eqn:E4. apply discard_quiet in E4.
    intros [= <- <- <-]. apply quiet_calm. by etrans. }
  destruct (FindOneUpdate env id w3) as [found w4] eqn:E4. apply find_quiet in E4 as [E4 Hh].
  pose proof (calm_trans _ _ _ (quiet_calm _ _ E3) E4) as HQ. destruct found as [d|e].
  - destruct (f oc d w4) as [out w5] eqn:E5. apply Hf in E5; [|by apply Hh|by eapply calm_safe].
    destruct (release env oc _ w5) as [e w6] eqn:E6. apply release_calm in E6. intros [= <- <- <-]. by eapply calm_kept.
  - destruct (release env oc _ w4) as [e' w6] eqn:E6. apply release_calm in E6. intros [= <- <- <-]. by eapply calm_trans.
Qed.

Lemma reconciliation_kept purpose w : safe w -> kept purpose (reconciliationResult (mkHandle id h)) w.
Proof. intros HS. split; [done|]. split; [done|]. by intros _ e [=]. Qed.

Lemma inspectLocked_spec ctx purpose u g w out w' : safe w ->
  inspectLocked env m ctx (mkHandle id h) purpose u g w = (out, w') -> kept purpose out w'.
Proof using Hpol.
  intros HS. unfold inspectLocked. cbn [hd_contactMethodID].
  destruct (WithLocked env ctx id (inspect env m (mkHandle id h) purpose u g) w) as [[err r] w1] eqn:E1.
  apply (locked_spec purpose) in E1; [|intros; by eapply inspect_spec|done].
  assert (safe w1) as HS1 by (destruct r; [by apply E1|by eapply calm_safe]).
  destruct err as [err|]; [intros [= <- <-]; by apply reconciliation_kept|].
  destruct r as [[result [e|]]|]; [|intros [= <- <-]; exact E1|intros [= <- <-]; by apply reconciliation_kept].
  assert (kept purpose (failed e) w1 \/ e = RotReconciliationRequired) as HE.
  { destruct (decide (e = RotReconciliationRequired)) as [|He]; [by right|left]. destruct E1 as (_ & HT & HU').
    split; [done|]. split; [done|]. intros Hp e' [= <-] _. destruct result as [[[] h']|]; cbn in HT; try done;
      [by destruct HT as [_ ->]|]. by apply (HU' Hp e). }
  destruct e; intros [= <- <-]; try (by apply reconciliation_kept); by destruct HE.
Qed.

(** ** The start of a rotation *)

Lemma active_safe w ga : old <> new -> state_of w = Some ga -> ga_old ga = old -> ga_new ga = new -> ga_state ga = ActiveWithRetiring -> safe w.
Proof. intros Hne E H1 H2 H3 ga' E'. rewrite E in E'. injection E' as <-. rewrite H3. done. Qed.

Lemma compensate_spec ctx dl e w out w' : ~ may_hold new w -> safe w ->
  compensate env ctx (mkHandle id h) dl e w = (out, w') -> kept InspectUnknownCAS out w'.
Proof using Hpol.
  intros Hn HS. unfold compensate. cbn [hd_participant].
  destruct (rollbackBeforeLocalDeadline env (WithoutCancel ctx) h dl w) as [ok w1] eqn:E1. apply rollbackBefore_spec in E1.
  assert (safe w1) as HS1.
  { destruct E1 as [HQ [[E _]|(ga & E & Ea & E')]]; intros ga' Eg.
    - rewrite E in Eg. destruct (HS _ Eg) as (H1 & H2 & H3 & H4). split; [done|]. split; [done|].
      split; intros Hs Hm; [apply (H3 Hs)|apply (H4 Hs)]; apply HQ; auto.
    - rewrite E' in Eg. injection Eg as <-. destruct (HS _ E) as (H1 & H2 & _). cbn. split; [done|]. split; [done|].
      split; [|done]. intros _ Hm. apply Hn, HQ; auto. }
  intros [= <- <-]. destruct ok; [|by apply reconciliation_kept]. split; [done|]. split; [done|].
  intros _ _ _ _. by apply transits_state in E1.
Qed.

(** The pair is active and the new token is not in the contact method. *)
Definition begun (w : World) : Prop :=
  state_of w = Some (mkGA old new ActiveWithRetiring) /\ ~ may_hold new w.

Lemma begun_safe w : old <> new -> begun w -> safe w.
Proof. intros Hne [E _]. by eapply active_safe. Qed.

Lemma calm_begun w w' : calm w w' -> begun w -> begun w'.
Proof. intros [C1 C2] [E Hn]. unfold begun, state_of in *. rewrite C1. split; [done|]. intros Hm. apply Hn, C2; auto. Qed.

Lemma swap_kept ctx request a dl casCtx w out w' : old <> new -> begun w -> newToken a = new -> sr_contactMethodID request = id ->
  swap env m ctx request (mkHandle id h) a dl casCtx w = (out, w') -> kept InspectUnknownCAS out w'.
Proof using Hpol.
  intros Hne HB Ha Hid. unfold swap. rewrite Ha, Hid. destruct (CompareAndSwap env m casCtx _ w) as [res w1] eqn:E1.
  apply CompareAndSwap_spec in E1 as (S1 & S2 & S3); [|done].
  destruct (rot_ctx_error env casCtx w1) as [ce w2] eqn:E2. apply rot_ctx_quiet in E2.
  assert (state_of w2 = Some (mkGA old new ActiveWithRetiring)) as Hst.
  { rewrite (quiet_state _ _ E2). unfold state_of. rewrite S1. apply HB. }
  assert (safe w2) as HS2 by by eapply active_safe.
  destruct res as [e|].
  - destruct (safeCASError e) as [se|] eqn:Ee.
    + assert (begun w2) as [_ Hn].
      { eapply calm_begun; [|exact HB]. eapply calm_trans; [apply S3; cbn; congruence|by apply quiet_calm]. }
      intros E. by eapply compensate_spec.
    + destruct (bool_decide _); [|intros [= <- <-]; by apply reconciliation_kept].
      unfold recoverUnknownCAS. destruct (Now env w2) as [now w3] eqn:E3. apply Now_quiet in E3.
      destruct (_ || _); [intros [= <- <-]; apply reconciliation_kept; eapply calm_safe; [by apply quiet_calm|done]|].
      destruct (boundedContext env _ _ w3) as [rc w4] eqn:E4. apply bounded_quiet in E4.
      assert (safe w4) as HS4 by (eapply calm_safe; [apply quiet_calm; etrans; [exact E3|exact E4]|done]).
      destruct rc; [|intros [= <- <-]; by apply reconciliation_kept]. intros E. by eapply inspectLocked_spec.
  - destruct ce; intros [= <- <-]; [by apply reconciliation_kept|]. split; [done|]. split; [|by intros _ e [=]].
    split; [done|]. by eexists.
Qed.

Lemma proceed_kept ctx request a dl w out w' : old <> new -> begun w -> newToken a = new -> sr_contactMethodID request = id ->
  TokenRotation.proceed env m ctx request (mkHandle id h) a dl w = (out, w') -> kept InspectUnknownCAS out w'.
Proof using Hpol.
  intros Hne HB Ha Hid. unfold TokenRotation.proceed. destruct (Now env w) as [now w1] eqn:E1. apply Now_quiet in E1.
  pose proof (calm_begun _ _ (quiet_calm _ _ E1) HB) as HB1.
  destruct (_ || _); [intros E; eapply compensate_spec; [apply HB1|by apply begun_safe|exact E]|].
  destruct (boundedContext env ctx _ w1) as [cc w2] eqn:E2. apply bounded_quiet in E2.
  pose proof (calm_begun _ _ (quiet_calm _ _ E2) HB1) as HB2.
  destruct cc as [cc|]; [intros E; by eapply swap_kept|].
  pose proof (compensate_spec ctx dl RotUnavailable w2) as HCo. unfold compensate in HCo. cbn [hd_participant] in *.
  destruct (rollbackBeforeLocalDeadline env (WithoutCancel ctx) h dl w2) as [ok w3].
  specialize (HCo _ _ (proj2 HB2) (begun_safe _ Hne HB2) eq_refl). destruct ok.
  - destruct (rot_ctx_error env ctx w3) as [e w4] eqn:E4. apply rot_ctx_quiet in E4. intros [= <- <-].
    apply (calm_kept _ _ _ _ (quiet_calm _ _ E4)) in HCo as (H1 & H2 & H3). split; [done|]. split; [done|].
    intros Hp _ _ _. by apply (H3 Hp RotUnavailable).
  - by intros [= <- <-].
Qed.

Lemma op_ctx_quiet ctx w e w' : TokenRotation.operationContext env m ctx w = (e, w') -> quiet w w'.
Proof using Hpol.
  unfold TokenRotation.operationContext. destruct (negb (c_system ctx)); [intros [= _ <-]; reflexivity|].
  destruct (negb (matcher_valid m)); [intros [= _ <-]; reflexivity|]. apply rot_ctx_quiet.
Qed.

Lemma Reconcile_kept ctx w out w' : safe w -> Reconcile env m ctx (mkHandle id h) w = (out, w') -> safe w' /\ told out w'.
Proof using Hpol.
  intros HS. unfold Reconcile. destruct (TokenRotation.operationContext env m ctx w) as [e w1] eqn:E1. apply op_ctx_quiet in E1.
  assert (safe w1) as HS1 by (eapply calm_safe; [by apply quiet_calm|done]).
  destruct e as [e|]; [by intros [= <- <-]|]. destruct (negb _); [by intros [= <- <-]|].
  intros E. apply inspectLocked_spec in E as (H1 & H2 & _); done.
Qed.

Lemma Finalize_kept ctx w out w' : safe w -> Finalize env m ctx (mkHandle id h) w = (out, w') -> safe w' /\ told out w'.
Proof using Hpol.
  intros HS. unfold Finalize. destruct (TokenRotation.operationContext env m ctx w) as [e w1] eqn:E1. apply op_ctx_quiet in E1.
  assert (safe w1) as HS1 by (eapply calm_safe; [by apply quiet_calm|done]).
  destruct e as [e|]; [by intros [= <- <-]|]. destruct (negb _); [by intros [= <- <-]|].
  intros E. apply inspectLocked_spec in E as (H1 & H2 & _); done.
Qed.
End attempt.

(** ** What is uncertain comes with the handle *)

Section handled.
Context (env : Env) (hd : Handle).

(** Who has to reconcile has the handle to do so. *)
Definition handled (out : Outcome) : Prop :=
  out.2 = Some RotReconciliationRequired -> out.1 = Some (NeedsReconciliation, hd).

Lemma failed_handled e : e <> RotReconciliationRequired -> handled (failed e).
Proof. intros He [=]. done. Qed.

Lemma rot_ctx_error_named ctx (w : World) e w' : rot_ctx_error env ctx w = (Some e, w') -> e <> RotReconciliationRequired.
Proof. unfold rot_ctx_error. intros E. repeat case_match; by simplify_eq. Qed.

Lemma inspectLocked_handled ctx purpose u g (w : World) out w' :
  inspectLocked env m ctx hd purpose u g w = (out, w') -> handled out.
Proof.
  unfold inspectLocked. destruct (WithLocked _ _ _ _ _) as [[[err|] [[result [e|]]|]] w1]; intros E;
    try (by injection E as <- <-). destruct e; by injection E as <- <-.
Qed.

Lemma compensate_handled ctx dl e (w : World) out w' : e <> RotReconciliationRequired ->
  compensate env ctx hd dl e w = (out, w') -> handled out.
Proof.
  intros He. unfold compensate. destruct (rollbackBeforeLocalDeadline _ _ _ _ _) as [[] w1]; intros [= <- <-]; [by apply failed_handled|done].
Qed.

Lemma swap_handled ctx request a dl casCtx (w : World) out w' :
  swap env m ctx request hd a dl casCtx w = (out, w') -> handled out.
Proof.
  unfold swap, recoverUnknownCAS. destruct (CompareAndSwap env m casCtx _ w) as [[e|] w1];
    destruct (rot_ctx_error env casCtx w1) as [ce w2]; [|by destruct ce; intros [= <- <-]].
  destruct (safeCASError e) as [se|] eqn:Ee; [apply compensate_handled; by destruct e; simplify_eq Ee; intros <-|].
  destruct (bool_decide _); [|by intros [= <- <-]]. destruct (Now env w2) as [now w3].
  destruct (_ || _); [by intros [= <- <-]|]. destruct (boundedContext _ _ _ _) as [[rc|] w4]; [|by intros [= <- <-]].
  apply inspectLocked_handled.
Qed.

Lemma proceed_handled ctx request a dl (w : World) out w' :
  TokenRotation.proceed env m ctx request hd a dl w = (out, w') -> handled out.
Proof.
  unfold TokenRotation.proceed. destruct (Now env w) as [now w1]. destruct (_ || _); [by apply compensate_handled|].
  destruct (boundedContext _ _ _ _) as [[cc|] w2]; [apply swap_handled|].
  destruct (rollbackBeforeLocalDeadline _ _ _ _ _) as [[] w3]; [|by intros [= <- <-]].
  destruct (rot_ctx_error env ctx w3) as [[e|] w4] eqn:E4; intros [= <- <-]; apply failed_handled; [by eapply rot_ctx_error_named|done].
Qed.

Lemma operationContext_named ctx (w : World) e w' : TokenRotation.operationContext env m ctx w = (Some e, w') ->
  e <> RotReconciliationRequired.
Proof.
  unfold TokenRotation.operationContext. repeat case_match; try (by intros [= <- _]). apply rot_ctx_error_named.
Qed.

Lemma Reconcile_handled ctx (w : World) out w' : Reconcile env m ctx hd w = (out, w') -> handled out.
Proof.
  unfold Reconcile. destruct (TokenRotation.operationContext env m ctx w) as [[e|] w1] eqn:E1.
  - intros [= <- <-]. apply failed_handled. by eapply operationContext_named.
  - destruct (negb _); [intros [= <- <-]; by apply failed_handled|apply inspectLocked_handled].
Qed.

Lemma Finalize_handled ctx (w : World) out w' : Finalize env m ctx hd w = (out, w') -> handled out.
Proof.
  unfold Finalize. destruct (TokenRotation.operationContext env m ctx w) as [[e|] w1] eqn:E1.
  - intros [= <- <-]. apply failed_handled. by eapply operationContext_named.
  - destruct (negb _); [intros [= <- <-]; by apply failed_handled|apply inspectLocked_handled].
Qed.
End handled.

(** ** Histories of a rotation *)

Section history.
Context (T : string -> Prop).   (** the tokens that take part in rotations *)

(** Others put none of these tokens into the contact method. *)
Definition polite_all (env : Env) : Prop :=
  forall n d tok, foreign env n = Some (id, Some d) -> dest_token d = Some tok -> ~ T tok.

Lemma polite_all_pair env old new : polite_all env -> T old -> T new -> polite old new env.
Proof. intros HA Ho Hn n d E. split; intros E'; by eapply HA. Qed.

(** A token the Gateway makes is new. *)
Definition fresh (w : World) : Prop :=
  forall ctx n r a e g' ga, BeginRotation ctx n r (w_gw w) = ((a, e), g') -> attempt_of g' (at_handle a) = Some ga ->
    attempt_of (w_gw w) (at_handle a) = None /\ T (ga_new ga) /\ ga_new ga <> currentToken r /\ ~ may_hold (ga_new ga) w.

Definition rotates (request : StartRequest) : Prop :=
  sr_contactMethodID request = id /\ forall x y tok, prepareStart m request = Some (x, y, tok) -> T tok.

Definition unrevoked (h : list Z) (w : World) : Prop :=
  forall ga, attempt_of (w_gw w) h = Some ga -> T (ga_old ga) /\ T (ga_new ga) /\ ga_old ga <> ga_new ga /\
    (ga_state ga = RolledBack -> ~ may_hold (ga_new ga) w) /\ (ga_state ga = Completed -> ~ may_hold (ga_old ga) w).

Lemma safe_unrevoked old new h w : T old -> T new -> safe old new h w -> unrevoked h w.
Proof. intros Ho Hn HS ga E. by destruct (HS ga E) as ([-> ?] & -> & ? & ?). Qed.

Lemma unrevoked_safe h w ga : unrevoked h w -> attempt_of (w_gw w) h = Some ga ->
  T (ga_old ga) /\ T (ga_new ga) /\ ga_old ga <> ga_new ga /\ safe (ga_old ga) (ga_new ga) h w.
Proof.
  intros HU' E. destruct (HU' ga E) as (H1 & H2 & H3 & H4). split; [done|]. split; [done|]. split; [done|].
  intros ga' E'. unfold state_of in E'. rewrite E in E'. by injection E' as <-.
Qed.

(** The Gateway was asked to begin, and its answer named no attempt. *)
Definition nameless (w w' : World) : Prop :=
  exists ctx n r a err, BeginRotation ctx n r (w_gw w) = ((a, err), w_gw w') /\ handle_valid (at_handle a) = false.

(** What a start says. *)
Definition start_true (w : World) (out : Outcome) (w' : World) : Prop :=
  match out with
  | (Some (_, hd), _) => exists h, hd = mkHandle id h /\ unrevoked h w' /\ told h out w'
  | (None, Some e) =>
      if decide (e = RotReconciliationRequired) then nameless w w'
      else (forall h, attempt_of (w_gw w') h = attempt_of (w_gw w) h) \/ exists h, in_state h RolledBack w' /\ unrevoked h w'
  | (None, None) => False
  end.

Lemma kept_true old new h w out w' : T old -> T new -> kept old new h InspectUnknownCAS out w' -> handled (mkHandle id h) out ->
  start_true w out w'.
Proof.
  intros Ho Hn (HS & HT & HU') HH. apply (safe_unrevoked _ _ _ _ Ho Hn) in HS.
  destruct out as [[[s hd]|] [e|]]; cbn in *; try done.
  - exists h. destruct s; try done; by destruct HT as [-> HT].
  - exists h. destruct s; try done; by destruct HT as [-> HT].
  - destruct (decide _) as [->|He]; [by specialize (HH eq_refl)|]. right. exists h. split; [|done]. by eapply HU'.
Qed.

Lemma tick_gw env (w : World) : w_gw (tick env w) = w_gw w.
Proof. unfold tick. destruct (settles env (w_n w)) as [b|]; [|done]. unfold settle. by destruct (w_doubt w) as [[? ?]|]. Qed.

(** Before the Gateway is asked. *)
Lemma before_gw env ctx (w : World) :
  (forall e w', TokenRotation.operationContext env m ctx w = (e, w') -> w_gw w' = w_gw w) /\
  (forall x w', Now env w = (x, w') -> w_gw w' = w_gw w) /\
  (forall d x w', boundedContext env ctx d w = (x, w') -> w_gw w' = w_gw w) /\
  (forall x w', rot_ctx_error env ctx w = (x, w') -> w_gw w' = w_gw w).
Proof.
  unfold TokenRotation.operationContext, rot_ctx_error, boundedContext, Now, Err.
  split; [|split; [|split]]; intros; repeat case_match; simplify_eq; by rewrite ?tick_gw.
Qed.

Lemma Begin_spec env old new ctx r w a err w' : polite old new env -> Begin_ env ctx r w = ((a, err), w') ->
  BeginRotation ctx (w_n w) r (w_gw w) = ((a, err), w_gw w') /\ still old new w w'.
Proof.
  intros Hpol. unfold Begin_. rewrite tick_gw. destruct (BeginRotation ctx (w_n w) r (w_gw (TokenStore.log_event EBegin w))) as [x g] eqn:E.
  intros [= -> <-]. split; [exact E|by apply called_still].
Qed.

(** Right after the Gateway was asked. *)
Lemma after_begin env ctx ctx' request x y tok w w1 w2 w3 w4 w5 e1 now bc r a err ce :
  polite_all env -> rotates request -> fresh w -> prepareStart m request = Some (x, y, tok) -> currentToken r = tok ->
  TokenRotation.operationContext env m ctx w = (e1, w1) -> Now env w1 = (now, w2) -> boundedContext env ctx (now + BeginLimit) w2 = (bc, w3) ->
  Begin_ env ctx' r w3 = ((a, err), w4) -> rot_ctx_error env ctx' w4 = (ce, w5) ->
  (forall ga, attempt_of (w_gw w5) (at_handle a) = Some ga ->
     T tok /\ T (ga_new ga) /\ tok <> ga_new ga /\ ga_old ga = tok /\ ga_state ga <> Completed /\ ~ may_hold (ga_new ga) w5) /\
  BeginRotation ctx' (w_n w3) r (w_gw w) = ((a, err), w_gw w5).
Proof.
  intros HA [_ HT] HF Hp Hr E1 E2 E3 E4 E5. pose proof (HT _ _ _ Hp) as Htok.
  pose proof (proj1 (before_gw env ctx w) _ _ E1) as G1. pose proof (proj1 (proj2 (before_gw env ctx w1)) _ _ E2) as G2.
  pose proof (proj1 (proj2 (proj2 (before_gw env ctx w2))) _ _ _ E3) as G3.
  pose proof (proj2 (proj2 (proj2 (before_gw env ctx' w4))) _ _ E5) as G5.
  assert (BeginRotation ctx' (w_n w3) r (w_gw w) = ((a, err), w_gw w5)) as HB.
  { destruct (Begin_spec env tok tok ctx' r w3 a err w4) as [HB _]; [by apply polite_all_pair|done|]. congruence. }
  split; [|exact HB]. intros ga Ega. destruct (HF _ _ _ _ _ _ _ HB Ega) as (F1 & F2 & F3 & F4).
  destruct (begin_uncertain _ _ _ _ _ _ _ _ HB F1 Ega) as [B1 B2]. rewrite Hr in *.
  split; [done|]. split; [done|]. split; [done|]. split; [done|]. split; [done|]. intros Hm. apply F4.
  assert (polite tok (ga_new ga) env) as Hpol by by apply polite_all_pair.
  apply (op_ctx_quiet _ _ _ Hpol) in E1. apply (Now_quiet _ _ _ Hpol) in E2. apply (bounded_quiet _ _ _ Hpol) in E3.
  destruct (Begin_spec env _ _ _ _ _ _ _ _ Hpol E4) as [_ S4]. apply (rot_ctx_quiet _ _ _ Hpol) in E5.
  apply (q_hold _ _ _ _ E1); [auto|]. apply (q_hold _ _ _ _ E2); [auto|]. apply (q_hold _ _ _ _ E3); [auto|].
  apply (i_hold _ _ _ _ S4); [auto|]. apply (q_hold _ _ _ _ E5); auto.
Qed.

Lemma Start_true env ctx request w out w' : polite_all env -> rotates request -> fresh w ->
  Start env m ctx request w = (out, w') -> start_true w out w'.
Proof.
  intros HA HR' HF. pose proof (proj1 HR') as Hid. unfold Start.
  destruct (TokenRotation.operationContext env m ctx w) as [e1 w1] eqn:E1.
  pose proof (proj1 (before_gw env ctx w) _ _ E1) as G1.
  assert (forall e w2, e <> RotReconciliationRequired -> w_gw w2 = w_gw w -> start_true w (failed e) w2) as HE.
  { intros e w2 He Eg. cbn. destruct (decide _); [done|]. left. by rewrite Eg. }
  destruct e1 as [e|]; [intros [= <- <-]; apply HE; [by eapply operationContext_named|done]|].
  destruct (prepareStart m request) as [[[x y] tok]|] eqn:Ep; [|intros [= <- <-]; by apply HE].
  destruct (Now env w1) as [now w2] eqn:E2. pose proof (proj1 (proj2 (before_gw env ctx w1)) _ _ E2) as G2.
  destruct (is_zero now); [intros [= <- <-]; apply HE; [done|congruence]|].
  destruct (boundedContext env ctx (now + BeginLimit) w2) as [bc w3] eqn:E3.
  pose proof (proj1 (proj2 (proj2 (before_gw env ctx w2))) _ _ _ E3) as G3.
  destruct bc as [bc|].
  2:{ destruct (rot_ctx_error env ctx w3) as [e w4] eqn:E4.
      pose proof (proj2 (proj2 (proj2 (before_gw env ctx w3))) _ _ E4) as G4. intros [= <- <-].
      apply HE; [|congruence]. destruct e as [e|]; [by eapply rot_ctx_error_named|done]. }
  set (r := mkBegin x y tok). destruct (Begin_ env bc r w3) as [[a err] w4] eqn:E4.
  destruct (rot_ctx_error env bc w4) as [ce w5] eqn:E5.
  destruct (after_begin env ctx bc request x y tok w w1 w2 w3 w4 w5 None now (Some bc) r a err ce HA HR' HF Ep eq_refl E1 E2 E3 E4 E5) as [H5 HB].
  rewrite Hid. set (hd := mkHandle id (at_handle a)).
  assert (unrevoked (at_handle a) w5) as HU5.
  { intros ga Ega. destruct (H5 ga Ega) as (A1 & A2 & A3 & -> & A5 & A6). done. }
  assert (start_true w (reconciliationResult hd) w5) as HRec by (exists (at_handle a); done).
  assert (handle_valid (at_handle a) = false -> nameless w w5) as HNl by by exists bc, (w_n w3), r, a, err.
  destruct (bool_decide (err <> None)) eqn:Ee.
  { destruct (handle_valid (at_handle a)) eqn:Hv; intros [= <- <-]; [done|]. cbn. destruct (decide _); [by apply HNl|]. left.
    apply bool_decide_eq_true_1 in Ee. destruct err as [err|]; [|done]. by apply (begin_nothing _ _ _ _ _ _ _ HB). }
  apply bool_decide_eq_false_1, dec_stable in Ee. subst err.
  destruct (attempt_valid a) eqn:Ev; cbn [negb orb].
  2:{ destruct (handle_valid (at_handle a)); intros [= <- <-]; [done|]. by apply HNl. }
  pose proof (begin_confirmed _ _ _ _ _ _ HB Ev) as HC'. destruct (H5 _ HC') as (A1 & A2 & A3 & _ & _ & A6). cbn [ga_new] in A2, A3, A6.
  assert (polite tok (newToken a) env) as Hpol by by apply polite_all_pair.
  destruct (String.eqb (newToken a) tok); [destruct (handle_valid (at_handle a)); intros [= <- <-]; [done|by apply HNl]|].
  destruct (localDeadline now _ _) as [dl|]; [|by intros [= <- <-]].
  set (cw := match ce with Some e => (Some e, w5) | None => rot_ctx_error env ctx w5 end). destruct cw as [ce' w6] eqn:E6.
  assert (quiet tok (newToken a) w5 w6) as Q6.
  { subst cw. destruct ce; [injection E6 as _ <-; apply quiet_refl|by eapply rot_ctx_quiet]. }
  assert (begun tok (newToken a) (at_handle a) w6) as HB6.
  { eapply calm_begun; [by apply quiet_calm|]. by split. }
  destruct ce' as [e|]; intros E.
  - eapply (kept_true _ _ _ _ _ _ A1 A2).
    + eapply compensate_spec; [exact Hpol|apply HB6|by apply begun_safe|exact E].
    + eapply compensate_handled; [|exact E]. subst cw. destruct ce as [e0|]; [injection E6 as -> _|];
        by eapply rot_ctx_error_named.
  - eapply (kept_true _ _ _ _ _ _ A1 A2).
    + eapply proceed_kept; [exact Hpol|exact A3|exact HB6|done|done|exact E].
    + by eapply proceed_handled.
Qed.

(** A rotation whose start returned the handle [h]: it is reconciled and
    finalized any number of times, with anything failing, while others change
    the contact method and open commits end. *)
Inductive history (h : list Z) : World -> Prop :=
  | hi_start env ctx request w s e w' : polite_all env -> rotates request -> fresh w ->
      Start env m ctx request w = ((Some (s, mkHandle id h), e), w') -> history h w'
  | hi_tick env w : polite_all env -> history h w -> history h (tick env w)
  | hi_reconcile env ctx w : polite_all env -> history h w -> history h (Reconcile env m ctx (mkHandle id h) w).2
  | hi_finalize env ctx w : polite_all env -> history h w -> history h (Finalize env m ctx (mkHandle id h) w).2.

Lemma unrevoked_pair h w env tok : polite_all env -> T tok -> unrevoked h w ->
  exists old new, polite old new env /\ safe old new h w /\ forall w', safe old new h w' -> unrevoked h w'.
Proof.
  intros HA Ht HU'. destruct (attempt_of (w_gw w) h) as [ga|] eqn:E.
  - destruct (unrevoked_safe _ _ _ HU' E) as (A1 & A2 & A3 & A4). exists (ga_old ga), (ga_new ga).
    split; [by apply polite_all_pair|]. split; [done|]. intros w'. by apply safe_unrevoked.
  - exists tok, tok. split; [by apply polite_all_pair|]. split; [|intros w'; by apply safe_unrevoked].
    intros ga E'. unfold state_of in E'. congruence.
Qed.

Lemma unrevoked_step h w w' env tok : polite_all env -> T tok -> unrevoked h w ->
  (forall old new, polite old new env -> safe old new h w -> safe old new h w') -> unrevoked h w'.
Proof. intros HA Ht HU' Hs. destruct (unrevoked_pair h w env tok HA Ht HU') as (old & new & Hpol & HS & Hw). eauto. Qed.

(** A rotation has a token of [T] to speak of, and what a start establishes is kept. *)
Lemma history_kept h w : history h w -> (exists tok, T tok) /\ unrevoked h w.
Proof.
  induction 1 as [env ctx request w s e w' HA HR' HF E|env w HA _ [[tok Ht] IH]|env ctx w HA _ [[tok Ht] IH]|env ctx w HA _ [[tok Ht] IH]].
  - split.
    + unfold Start in E. destruct (TokenRotation.operationContext env m ctx w) as [[e1|] w1]; [done|].
      destruct (prepareStart m request) as [[[x y] tok]|] eqn:Ep; [|done]. exists tok. by eapply HR'.
    + pose proof (Start_true env ctx request w _ w' HA HR' HF E) as (h' & [= <-] & HU' & _). done.
  - split; [eauto|]. apply (unrevoked_step h w _ env tok HA Ht IH). intros old new Hpol HS.
    eapply calm_safe; [apply quiet_calm; by apply tick_quiet|done].
  - split; [eauto|]. apply (unrevoked_step h w _ env tok HA Ht IH). intros old new Hpol HS.
    destruct (Reconcile env m ctx (mkHandle id h) w) as [out w'] eqn:E. by apply (Reconcile_kept old new env Hpol) in E as [? _].
  - split; [eauto|]. apply (unrevoked_step h w _ env tok HA Ht IH). intros old new Hpol HS.
    destruct (Finalize env m ctx (mkHandle id h) w) as [out w'] eqn:E. by apply (Finalize_kept old new env Hpol) in E as [? _].
Qed.

(** C8: the contact method never holds a token that the Gateway has revoked.
    Once an attempt is rolled back its new token is not in the URL, and no open
    commit will put it there; once it is completed the old one is not.  It holds
    in every history of a rotation, whatever fails and however long calls take. *)
Theorem revoked_token_never_in_use h w (HH : history h w) ga (Hga : attempt_of (w_gw w) h = Some ga) :
  (ga_state ga = RolledBack -> ~ may_hold (ga_new ga) w) /\ (ga_state ga = Completed -> ~ may_hold (ga_old ga) w).
Proof. destruct (history_kept h w HH) as [_ HU']. by destruct (HU' ga Hga) as (_ & _ & _ & ?). Qed.

(** C24: the results say what happened.  A start, a reconciliation or a
    finalization that reports a state reports the Gateway's.  One that has to be
    reconciled returns the handle to do so, except a start to which the Gateway
    answered without naming an attempt.  A start that fails with another error has
    begun nothing, or its attempt is rolled back and the new token not in the URL. *)
Theorem results_are_true :
  (forall env ctx request w out w', polite_all env -> rotates request -> fresh w ->
     Start env m ctx request w = (out, w') -> start_true w out w') /\
  (forall env ctx h w out w', polite_all env -> history h w ->
     Reconcile env m ctx (mkHandle id h) w = (out, w') \/ Finalize env m ctx (mkHandle id h) w = (out, w') ->
     told h out w' /\ handled (mkHandle id h) out).
Proof.
  split; [intros; by eapply Start_true|]. intros env ctx h w out w' HA HH E.
  destruct (history_kept h w HH) as [[tok Ht] HU'].
  destruct (unrevoked_pair h w env tok HA Ht HU') as (old & new & Hpol & HS & _). destruct E as [E|E].
  - split; [by apply (Reconcile_kept old new env Hpol) in E as [_ ?]|by eapply Reconcile_handled].
  - split; [by apply (Finalize_kept old new env Hpol) in E as [_ ?]|by eapply Finalize_handled].
Qed.
End history.
End spec.

(** ** A small Gateway *)

(** One attempt with the handle [01], which overlaps for 21 seconds; the n-th event
    is at the n-th second. *)
Module Small.
Local Open Scope string_scope.

Definition tok (b : Z) : string := token_prefix ++ EncodeToString (repeat b 32).
Definition other (t : string) : string := if String.eqb t (tok 1) then tok 2 else tok 1.
Definition hnd : list Z := [1].
Definition time (n : nat) : Z := (Z.of_nat n * Second + 1)%Z.

Definition Gw : Type := option (GAttempt * Z).

Definition begin (ctx : Ctx) (n : nat) (r : BeginRequest) (g : Gw) : (Attempt * option GoError) * Gw :=
  match g with
  | None => ((mkAttempt hnd (other (currentToken r)) (time n) ((time n + 21 * Second)%Z), None),
             Some (mkGA (currentToken r) (other (currentToken r)) ActiveWithRetiring, (time n + 21 * Second)%Z))
  | Some _ => ((mkAttempt [] "" zero_inst zero_inst, Some (Named RotConflict)), g)
  end.

Definition observe (ctx : Ctx) (n : nat) (h : list Z) (token : string) (g : Gw) : (Observation * option GoError) * Gw :=
  (match g with
   | Some (ga, dl) =>
       if decide (h = hnd) then
         (match ga_state ga with
          | ActiveWithRetiring => mkObs ActiveWithRetiring (identify ga token) (time n) dl
          | s => mkObs s (identify ga token) zero_inst zero_inst
          end, None)
       else (mkObs OtherState OtherIdentity zero_inst zero_inst, Some (Named RotUnavailable))
   | None => (mkObs OtherState OtherIdentity zero_inst zero_inst, Some (Named RotUnavailable))
   end, g).

Definition move (s : ParticipantState) (due : Z -> bool) (h : list Z) (g : Gw) : option GoError * Gw :=
  match g with
  | Some (mkGA o n ActiveWithRetiring, dl) =>
      if decide (h = hnd) then if due dl then (None, Some (mkGA o n s, dl)) else (Some (Named RotConflict), g)
      else (Some (Named RotConflict), g)
  | _ => (Some (Named RotConflict), g)
  end.

#[local] Instance small_participant : Participant Gw := {|
  BeginRotation := begin;
  ObserveRotation := observe;
  RollbackRotation := fun _ n => move RolledBack (fun dl => (time n <? dl)%Z);
  FinalizeRotation := fun _ n => move Completed (fun dl => (dl <=? time n)%Z)
|}.

Definition attempt (g : Gw) (h : list Z) : option GAttempt := if decide (h = hnd) then fst <$> g else None.

Lemma move_other s due h g e g' : move s due h g = (e, g') -> forall h', h' <> h -> attempt g' h' = attempt g h'.
Proof. unfold move, attempt. intros E h' Hh. repeat case_match; by simplify_eq. Qed.

Lemma move_exact s due h g e g' : move s due h g = (e, g') ->
  attempt g' h = attempt g h /\ e <> None \/
  exists ga, attempt g h = Some ga /\ ga_state ga = ActiveWithRetiring /\ attempt g' h = Some (with_state s ga).
Proof.
  unfold move, attempt. intros E. repeat case_match; simplify_eq; try (by left). right. eexists. done.
Qed.

#[local] Instance small_contract : GatewayContract Gw.
Proof.
  refine {| attempt_of := attempt |}; cbn; unfold begin, observe; intros.
  - destruct g; simplify_eq. done.
  - destruct g; simplify_eq. unfold attempt in *. rewrite decide_True in * by done. cbn in *. by simplify_eq.
  - by destruct g; simplify_eq.
  - destruct g; simplify_eq; [done|]. cbn in *. unfold attempt. destruct (decide _) as [->|]; [|done]. by destruct H0.
  - by simplify_eq.
  - unfold attempt. destruct g as [[ga dl]|]; [|by simplify_eq]. destruct (decide _); [|by simplify_eq]. cbn.
    exists ga. split; [done|]. by destruct (ga_state ga) eqn:?; simplify_eq.
  - by eapply move_other.
  - by eapply move_exact.
  - by eapply move_other.
  - by eapply move_exact.
Defined.

(** URLs of one host. *)
#[local] Instance small_urls : NetURL := {|
  url_Parse := fun s => path ← strip_prefix "https://gw" s; Some (mkURL "https" "" false "gw" path "" false "" "" "");
  url_String := fun u => Scheme u ++ "://" ++ Host u ++ Path u;
  Hostname := Host;
  Port := fun _ => "";
  EscapedPath := Path;
  ToLower := fun s => s
|}.

#[local] Instance small_uuids : UUIDText := nibble_uuid.

Definition matcher : GatewayTargetMatcher := mkMatcher "gw" "443".
Definition url (b : Z) : string := "https://gw/v1/goalert/contact-method/" ++ tok b.
Definition dest (b : Z) : DestV1 := NewWebhookDest (url b).

(** The n-th event is in the n-th millisecond, and no call fails. *)
Definition env : Env := mkEnv (fun n => (Z.of_nat n * 1000000)%Z) (fun _ => None) (fun _ => None) (fun _ => true) (fun _ => None)
  (fun _ => true) (fun _ => None) (fun _ => true) (fun _ => None) (fun _ => None) (fun _ => true) (fun _ => false) (fun _ => false)
  (fun _ => true) (fun _ => false).
(** The same, and the row cannot be read. *)
Definition cut_off : Env := mkEnv (fun n => (Z.of_nat n * 1000000)%Z) (fun _ => None) (fun _ => None) (fun _ => true) (fun _ => None)
  (fun _ => true) (fun _ => None) (fun _ => true) (fun _ => Some (Named RotUnavailable)) (fun _ => None) (fun _ => true) (fun _ => false)
  (fun _ => false) (fun _ => true) (fun _ => false).
Definition ctx : Ctx := mkCtx (fun _ => None) None true.
Definition request : StartRequest := mkStart 7 (url 0) (uuid_String 5) (uuid_String 6).
Definition world : World Gw := mkWorld {[ 7 := dest 0 ]} None None None 1 [].
Definition handle : Handle := mkHandle 7 hnd.
End Small.

Section witnesses.
Import Small.
Existing Instances small_participant small_contract small_urls small_uuids.

Local Abbreviation all := (fun _ : string => True).

Lemma small_polite : polite_all matcher 7 all env.
Proof. by intros n d tok [=]. Qed.

Lemma small_rotates : rotates matcher 7 all request.
Proof. done. Qed.

Lemma small_fresh : fresh matcher 7 all world.
Proof.
  intros ctx n r a e g' ga [= <- <- <-]. unfold attempt_of, small_contract, attempt. cbn [at_handle].
  rewrite decide_True by done. intros [= <-]. cbn [ga_new].
  split; [done|]. split; [done|]. unfold other. split.
  - destruct (String.eqb_spec (currentToken r) (tok 1)) as [E|H]; [|congruence]. rewrite E. by apply String.eqb_neq.
  - assert (forall t, may_hold matcher 7 t world -> t = tok 0) as H0.
    { intros t [(d & Ed & Et)|(d & [=] & _)]. cbn in Ed. rewrite lookup_singleton_eq in Ed. injection Ed as <-. vm_compute in Et.
      injection Et as <-. by vm_compute. }
    intros Hm. apply H0 in Hm. destruct (String.eqb (currentToken r) _); by apply String.eqb_eq in Hm.
Qed.

Definition small_end : World Gw := (Finalize env matcher ctx handle (Start env matcher ctx request world).2).2.

Lemma small_history : history matcher 7 all hnd small_end.
Proof.
  apply (hi_finalize matcher 7 all hnd env ctx); [exact small_polite|].
  apply (hi_start matcher 7 all hnd env ctx request world PendingFinalization None); [exact small_polite|exact small_rotates|exact small_fresh|].
  by vm_compute.
Qed.

Lemma revoked_token_never_in_use_witness :
  attempt_of (w_gw small_end) hnd = Some (mkGA (tok 0) (tok 1) Completed) /\ ~ may_hold matcher 7 (tok 0) small_end.
Proof.
  assert (attempt_of (w_gw small_end) hnd = Some (mkGA (tok 0) (tok 1) Completed)) as E by (vm_compute; reflexivity).
  split; [exact E|]. apply (revoked_token_never_in_use matcher 7 all hnd small_end small_history _ E). reflexivity.
Defined.

Lemma results_are_true_witness :
  start_true matcher 7 all world (Start env matcher ctx request world).1 (Start env matcher ctx request world).2 /\
  (told 7 hnd (Reconcile env matcher ctx handle small_end).1 (Reconcile env matcher ctx handle small_end).2 /\
   handled handle (Reconcile env matcher ctx handle small_end).1) /\
  (Reconcile cut_off matcher ctx handle small_end).1.2 = Some RotReconciliationRequired /\
  handled handle (Reconcile cut_off matcher ctx handle small_end).1.
Proof.
  split; [|split; [|split; [vm_compute; reflexivity|]]].
  - exact (proj1 (results_are_true matcher 7 all) env ctx request world _ _ small_polite small_rotates small_fresh
      (surjective_pairing _)).
  - exact (proj2 (results_are_true matcher 7 all) env ctx hnd small_end _ _ small_polite small_history
      (or_introl (surjective_pairing _))).
  - exact (proj2 (proj2 (results_are_true matcher 7 all) cut_off ctx hnd small_end _ _ small_polite small_history
      (or_introl (surjective_pairing _)))).
Defined.
End witnesses.
