(* ===== verification/TokenProtocol.v ===== *)
(** * The order of a rotation's requests, and a rotation that succeeds

    What the coordinator asks of the Gateway and of the database, in which order,
    whatever the answers are; and, where no call fails, that it gets there. *)

From S2P Require Import Prelude Text GoTime Dest GatewayTarget TokenStore TokenRotation TokenRotationSpec.

Open Scope Z_scope.

Section protocol.
Context {HN : NetURL} {HU : UUIDText} {G : Type} {HP : Participant G}.
Context (m : GatewayTargetMatcher) (env : Env).

Local Notation World := (World G).

(** From [w] to [w'] exactly [l] was asked for. *)
Definition asks (l : list Event) (w w' : World) : Prop := map snd (w_trace w') = map snd (w_trace w) ++ l.

Lemma asks_refl w : asks [] w w.
Proof. unfold asks. by rewrite app_nil_r. Qed.

Lemma asks_trans l1 l2 w1 w2 w3 : asks l1 w1 w2 -> asks l2 w2 w3 -> asks (l1 ++ l2) w1 w3.
Proof. unfold asks. intros H1 H2. by rewrite H2, H1, <- app_assoc. Qed.

Lemma asks_quiet l w1 w2 w3 : asks [] w1 w2 -> asks l w2 w3 -> asks l w1 w3.
Proof. apply (asks_trans []). Qed.

Lemma asks_then_quiet l w1 w2 w3 : asks l w1 w2 -> asks [] w2 w3 -> asks l w1 w3.
Proof. intros H1 H2. pose proof (asks_trans _ _ _ _ _ H1 H2) as H. by rewrite app_nil_r in H. Qed.

Lemma settle_trace b (w : World) : w_trace (settle b w) = w_trace w.
Proof. unfold settle. by destruct (w_doubt w) as [[? ?]|]. Qed.

Lemma tick_trace (w : World) : w_trace (tick env w) = w_trace w.
Proof. unfold tick. cbn. destruct (settles env (w_n w)); [apply settle_trace|done]. Qed.

Lemma tick_asks w w' : asks [] w w' -> asks [] w (tick env w').
Proof. unfold asks. by rewrite tick_trace. Qed.

Ltac silent := repeat first [apply asks_refl | assumption | apply tick_asks].

Lemma Now_asks w x w' : Now env w = (x, w') -> asks [] w w'.
Proof. intros [= _ <-]. silent. Qed.

Lemma cas_ctx_asks ctx w x w' : cas_ctx_error env ctx w = (x, w') -> asks [] w w'.
Proof. intros [= _ <-]. silent. Qed.

Lemma rot_ctx_asks ctx w x w' : rot_ctx_error env ctx w = (x, w') -> asks [] w w'.
Proof. intros [= _ <-]. silent. Qed.

Lemma bounded_asks ctx d w x w' : boundedContext env ctx d w = (x, w') -> asks [] w w'.
Proof. unfold boundedContext, Err, Now. intros E. repeat case_match; simplify_eq; silent. Qed.

Lemma discard_asks d w x w' : DiscardBefore env d w = (x, w') -> asks [] w w'.
Proof. unfold DiscardBefore, Now. intros E. repeat case_match; simplify_eq; silent. Qed.

Lemma unlock_asks w w' : asks [] w w' -> asks [] w (set_lock None w').
Proof. done. Qed.

Lemma rollback_asks w x w' : TokenStore.Rollback env w = (x, w') -> asks [] w w'.
Proof. intros [= _ <-]. apply unlock_asks. silent. Qed.

Lemma find_asks id w x w' : FindOneUpdate env id w = (x, w') -> asks [] w w'.
Proof.
  unfold FindOneUpdate. destruct (find_err env (w_n w)); [intros [= _ <-]; silent|].
  set (w1 := match w_doubt (tick env w) with Some (i, _) => if id =? i then settle (late env (w_n w)) (tick env w) else tick env w | None => tick env w end).
  assert (asks [] w w1) as HQ.
  { subst w1. destruct (w_doubt (tick env w)) as [[i d]|]; [|silent]. destruct (id =? i); [|silent].
    unfold asks. by rewrite settle_trace, tick_trace, app_nil_r. }
  clearbody w1. destruct (w_rows w1 !! id); by intros [= _ <-].
Qed.

Lemma quarantine_asks d w x w' : quarantineUnknown env d w = (x, w') -> asks [] w w' /\ ~ nothing_done x.
Proof.
  unfold quarantineUnknown. destruct (DiscardBefore env d w) as [b w1] eqn:E. apply discard_asks in E.
  intros [= <- <-]. split; [done|]. destruct b; cbn; intros H; by apply H.
Qed.

Lemma undo_asks ctx d e w x w' : TokenStore.rollback env ctx d e w = (x, w') -> asks [] w w'.
Proof.
  unfold TokenStore.rollback. destruct (TokenStore.Rollback env w) as [ok w1] eqn:E1. apply rollback_asks in E1.
  destruct ok; cbn [negb].
  - destruct (cas_ctx_error env ctx w1) as [y w2] eqn:E2. apply cas_ctx_asks in E2. destruct (bool_decide _); intros E.
    + apply quarantine_asks in E as [E _]. eapply asks_quiet; [exact E1|]. by eapply asks_quiet.
    + injection E as _ <-. by eapply asks_quiet.
  - intros E. apply quarantine_asks in E as [E _]. by eapply asks_quiet.
Qed.

Lemma topology_asks d w x w' : rollbackUncertainTopology env d w = (x, w') -> asks [] w w'.
Proof.
  unfold rollbackUncertainTopology. destruct (TokenStore.Rollback env w) as [ok w1] eqn:E1. apply rollback_asks in E1.
  destruct (DiscardBefore env d w1) as [b w2] eqn:E2. apply discard_asks in E2. intros [= _ <-]. by eapply asks_quiet.
Qed.

Lemma notBegun_asks ctx d c e w x w' : notBegun env ctx d c e w = (x, w') -> asks [] w w'.
Proof.
  unfold notBegun. destruct (if c then DiscardBefore env d w else (true, w)) as [b w1] eqn:E1.
  assert (asks [] w w1) as H1 by (destruct c; [by apply discard_asks in E1|injection E1 as _ <-; apply asks_refl]).
  destruct b; cbn [negb]; [|by intros [= _ <-]].
  destruct (cas_ctx_error env ctx w1) as [y w2] eqn:E2. apply cas_ctx_asks in E2. intros E. eapply asks_quiet; [exact H1|].
  by destruct y; injection E as _ <-.
Qed.

Lemma commit_asks id r w x w' : Commit env id r w = (x, w') -> asks [ECommit id] w w'.
Proof.
  unfold Commit, asks. set (w1 := tick env (TokenStore.log_event (ECommit id) w)).
  assert (map snd (w_trace w1) = map snd (w_trace w) ++ [ECommit id]) as HT by (subst w1; rewrite tick_trace; cbn; by rewrite map_app).
  clearbody w1. by destruct (commit_fails env (w_n w)); intros [= _ <-].
Qed.

(** The requests of the update: a commit only after the update, and not if the
    result is that nothing was done. *)
Definition update_asks (id : UUID) (res : option Sentinel) (w w' : World) : Prop :=
  asks [] w w' \/ asks [EUpdate id] w w' \/ asks [EUpdate id; ECommit id] w w' /\ ~ nothing_done res.

Lemma update_asks_after id res w w1 w' : asks [] w w1 -> update_asks id res w1 w' -> update_asks id res w w'.
Proof.
  intros H1 [H|[H|[H Hn]]]; [left|right; left|right; right; split; [|done]]; by eapply asks_quiet.
Qed.

Lemma fenced_asks ctx d id e r w res w' : fencedUpdate env ctx d id e r w = (res, w') -> update_asks id res w w'.
Proof.
  unfold fencedUpdate. destruct (FindOneUpdate env id w) as [found w1] eqn:E1. apply find_asks in E1. intros E.
  apply (update_asks_after _ _ _ w1); [done|]. destruct found as [d0|err].
  - unfold CompareAndSwapUpdate in E.
    assert (asks [EUpdate id] w1 (tick env (TokenStore.log_event (EUpdate id) w1))) as HA.
    { unfold asks. rewrite tick_trace. cbn. by rewrite map_app. }
    set (w2 := tick env (TokenStore.log_event (EUpdate id) w1)) in *. right.
    assert (forall w3, asks [] w2 w3 -> asks [EUpdate id] w1 w3) as HQ by (intros w3 H; by eapply asks_then_quiet).
    destruct (update_err env (w_n w1)) as [err|].
    { left. apply HQ. destruct (direct _ _); [by apply topology_asks in E|].
      destruct (cas_ctx_error env ctx w2) as [x w3] eqn:E3. apply cas_ctx_asks in E3. apply undo_asks in E. by eapply asks_quiet. }
    destruct (rows_known env (w_n w1)); [|left; apply HQ; by eapply undo_asks].
    destruct (bool_decide _); cbn [Z.eqb Pos.eqb] in E; [|left; apply HQ; by eapply undo_asks]. right.
    destruct (Commit env id r w2) as [ok w3] eqn:E3.
    assert (asks [EUpdate id; ECommit id] w1 w3) as HA3.
    { apply commit_asks in E3. by apply (asks_trans _ _ _ _ _ HA E3). }
    destruct ok; cbn [negb] in E.
    + destruct (cas_ctx_error env ctx w3) as [x w4] eqn:E4. apply cas_ctx_asks in E4. destruct (bool_decide _).
      * apply quarantine_asks in E as [E Hn]. split; [|done]. eapply asks_then_quiet; [exact HA3|]. by eapply asks_quiet.
      * injection E as <- <-. split; [by eapply asks_then_quiet|by intros []].
    + apply quarantine_asks in E as [E Hn]. split; [|done]. by eapply asks_then_quiet.
  - left. destruct (single_cause_matches _ _ _); [by eapply undo_asks|]. destruct (direct _ _); [by eapply topology_asks|].
    destruct (cas_ctx_error env ctx w1) as [x w3] eqn:E3. apply cas_ctx_asks in E3. apply undo_asks in E. by eapply asks_quiet.
Qed.

Lemma fence_asks ctx id e r w res w' : compareAndSwapWithFence env ctx id e r w = (res, w') -> update_asks id res w w'.
Proof.
  unfold compareAndSwapWithFence. assert (update_asks id res w w) as H0 by (left; apply asks_refl).
  destruct (id =? uuid_Nil); [by intros [= _ <-]|]. destruct (c_system ctx); cbn [negb]; [|by intros [= _ <-]].
  destruct (cas_ctx_error env ctx w) as [x w1] eqn:E1. apply cas_ctx_asks in E1. destruct x; [intros [= _ <-]; by left|].
  destruct (c_deadline ctx) as [dl|]; [|intros [= _ <-]; by left].
  destruct (Now env w1) as [now w2] eqn:E2. apply Now_asks in E2. pose proof (asks_quiet _ _ _ _ E1 E2) as H2.
  destruct (now <? dl); cbn [negb]; [|intros [= _ <-]; by left].
  pose proof (tick_asks _ _ H2) as H3. set (w3 := tick env w2) in *.
  destruct (_ || _); [intros E; apply notBegun_asks in E; left; by eapply asks_quiet|].
  pose proof (tick_asks _ _ H3) as H4. set (w4 := tick env w3) in *.
  destruct (_ || _); [intros E; apply notBegun_asks in E; left; by eapply asks_quiet|].
  intros E. eapply update_asks_after; [exact H4|]. by eapply fenced_asks.
Qed.

Lemma CompareAndSwap_asks ctx r w res w' : CompareAndSwap env m ctx r w = (res, w') -> update_asks (cr_contactMethodID r) res w w'.
Proof.
  unfold CompareAndSwap. destruct (negb (c_system ctx)); [intros [= _ <-]; left; apply asks_refl|].
  destruct (cas_ctx_error env ctx w) as [x w1] eqn:E1. apply cas_ctx_asks in E1. destruct x; [intros [= _ <-]; by left|].
  destruct (prepare m r) as [[e d]|]; [|intros [= _ <-]; by left].
  destruct (compareAndSwapWithFence env ctx _ e d w1) as [err w2] eqn:E2. apply fence_asks in E2. intros [= <- <-].
  apply (update_asks_after _ _ _ w1); [done|]. destruct E2 as [H|[H|[H Hn]]]; [by left|by right; left|right; right].
  split; [done|]. intros Hx. apply Hn. destruct err as [[]|]; cbn in *; try done; by exfalso; apply Hx.
Qed.

(** ** The coordinator *)

Lemma call_asks e g w : asks [e] w (set_gw g (tick env (TokenStore.log_event e w))).
Proof. unfold asks. cbn [set_gw w_trace]. rewrite tick_trace. cbn. by rewrite map_app. Qed.

Lemma rollbackBefore_asks ctx h dl w ok w' : rollbackBeforeLocalDeadline env ctx h dl w = (ok, w') ->
  asks [] w w' /\ ok = false \/ asks [ERollback h] w w'.
Proof.
  unfold rollbackBeforeLocalDeadline. destruct (Now env w) as [now w1] eqn:E1. apply Now_asks in E1.
  destruct (_ || _); [intros [= <- <-]; by left|].
  destruct (boundedContext env ctx _ w1) as [rc w2] eqn:E2. apply bounded_asks in E2. pose proof (asks_quiet _ _ _ _ E1 E2) as HQ.
  destruct rc as [rc|]; [|intros [= <- <-]; by left]. unfold Rollback_.
  destruct (RollbackRotation _ _ _ _) as [err g]. pose proof (asks_quiet _ _ _ _ HQ (call_asks (ERollback h) g w2)) as HR'.
  set (w3 := set_gw g _) in *. destruct (bool_decide _); [intros [= <- <-]; by right|].
  unfold Err. intros [= <- <-]. right. eapply asks_then_quiet; [exact HR'|]. silent.
Qed.

(** Under the lock: one observation, and then at most one request. *)
Definition look_asks (h : list Z) (purpose : Purpose) (w w' : World) : Prop :=
  asks [] w w' \/ asks [EObserve h] w w' \/
  asks [EObserve h; match purpose with InspectFinalize => EFinalize h | _ => ERollback h end] w w'.

Lemma look_after h purpose w w1 w' : asks [] w w1 -> look_asks h purpose w1 w' -> look_asks h purpose w w'.
Proof. intros H1 [H|[H|H]]; [left|right; left|right; right]; by eapply asks_quiet. Qed.

Lemma look_then h purpose w w1 w' : look_asks h purpose w w1 -> asks [] w1 w' -> look_asks h purpose w w'.
Proof. intros [H|[H|H]] H1; [left|right; left|right; right]; by eapply asks_then_quiet. Qed.

Lemma reconcileLocked_asks ctx hd o purpose dl w out w' : reconcileLocked env ctx hd o purpose dl w = (out, w') ->
  asks [] w w' \/ asks [ERollback (hd_participant hd)] w w'.
Proof.
  unfold reconcileLocked. pose proof (asks_refl w) as H0. destruct (ob_state o); [|destruct (identity o), purpose; intros [= _ <-]; by left..].
  destruct (is_zero dl); [intros [= _ <-]; by left|]. destruct (identity o); try (intros [= _ <-]; by left).
  destruct (rollbackBeforeLocalDeadline _ _ _ _ _) as [ok w1] eqn:E1. apply rollbackBefore_asks in E1.
  assert (w' = w1 -> asks [] w w' \/ asks [ERollback (hd_participant hd)] w w') as HK by (intros ->; destruct E1 as [[? _]|?]; auto).
  destruct ok; cbn [negb]; [destruct purpose|]; intros [= _ <-]; by apply HK.
Qed.

Lemma finalizeLocked_asks ctx hd o dl w out w' : finalizeLocked env ctx hd o dl w = (out, w') ->
  asks [] w w' \/ asks [EFinalize (hd_participant hd)] w w'.
Proof.
  unfold finalizeLocked. pose proof (asks_refl w) as H0. destruct (ob_state o); try (intros [= _ <-]; by left).
  destruct (identity o); try (intros [= _ <-]; by left).
  destruct (Now env w) as [now w1] eqn:E1. apply Now_asks in E1. destruct (_ || _); [intros [= _ <-]; by left|].
  destruct (now <? dl); [intros [= _ <-]; by left|]. destruct (rot_ctx_error env ctx w1) as [e w2] eqn:E2. apply rot_ctx_asks in E2.
  pose proof (asks_quiet _ _ _ _ E1 E2) as HQ. destruct e; [intros [= _ <-]; by left|].
  unfold Finalize_. destruct (FinalizeRotation _ _ _ _) as [err g].
  pose proof (asks_quiet _ _ _ _ HQ (call_asks (EFinalize (hd_participant hd)) g w2)) as HR'.
  destruct err; intros [= _ <-]; by right.
Qed.

Lemma validLock_asks ctx w b w' : validLockContext env ctx w = (b, w') -> asks [] w w'.
Proof. unfold validLockContext, Err, Now. intros E. repeat case_match; simplify_eq; silent. Qed.

Lemma inspect_asks hd purpose u g ctx d w out w' : inspect env m hd purpose u g ctx d w = (out, w') ->
  look_asks (hd_participant hd) purpose w w'.
Proof.
  unfold inspect. destruct (validLockContext env ctx w) as [b w1] eqn:E1. apply validLock_asks in E1.
  destruct b; cbn [negb]; [|intros [= _ <-]; by left].
  destruct (tokenFromAuthoritativeDestination m d) as [tok|]; [|intros [= _ <-]; by left].
  destruct (Now env w1) as [anchor w2] eqn:E2. apply Now_asks in E2. pose proof (asks_quiet _ _ _ _ E1 E2) as HQ.
  unfold Observe_. destruct (ObserveRotation _ _ _ _ _) as [[o err] gw].
  pose proof (asks_quiet _ _ _ _ HQ (call_asks (EObserve (hd_participant hd)) gw w2)) as HR'. set (w3 := set_gw gw _) in *.
  destruct (_ || _); [intros [= _ <-]; by right; left|].
  destruct (observationLocalDeadline _ _ _ _ _) as [dl|]; [|intros [= _ <-]; by right; left]. intros E. right.
  assert (forall e, (asks [] w3 w' \/ asks [e] w3 w') ->
    asks [EObserve (hd_participant hd)] w w' \/ asks [EObserve (hd_participant hd); e] w w') as HK.
  { intros e [H|H]; [left; by eapply asks_then_quiet|right; by apply (asks_trans _ _ _ _ _ HR' H)]. }
  destruct purpose; apply HK; [by eapply reconcileLocked_asks..|by eapply finalizeLocked_asks].
Qed.

Lemma release_asks ctx d w x w' : release env ctx d w = (x, w') -> asks [] w w'.
Proof.
  unfold release. destruct (TokenStore.Rollback env w) as [ok w1] eqn:E1. apply rollback_asks in E1. destruct ok; cbn [negb].
  - destruct (rot_ctx_error env ctx w1) as [e w2] eqn:E2. apply rot_ctx_asks in E2. pose proof (asks_quiet _ _ _ _ E1 E2) as HQ.
    destruct (bool_decide _); [|by intros [= _ <-]]. destruct (DiscardBefore env d w2) as [b w3] eqn:E3. apply discard_asks in E3.
    intros [= _ <-]. by eapply asks_quiet.
  - destruct (DiscardBefore env d w1) as [b w3] eqn:E3. apply discard_asks in E3. intros [= _ <-]. by eapply asks_quiet.
Qed.

Lemma opctx_asks ctx w x w' : TokenStore.operationContext env ctx w = (x, w') -> asks [] w w'.
Proof.
  unfold TokenStore.operationContext. destruct (Err env ctx w) as [e w1] eqn:E1. injection E1 as _ E1.
  assert (asks [] w w1) as H1 by (subst w1; silent). destruct (bool_decide _); [by intros [= _ <-]|].
  destruct (Now env w1) as [now w2] eqn:E2. apply Now_asks in E2.
  destruct (boundedContext _ _ _ w2) as [c w3] eqn:E3. apply bounded_asks in E3. intros [= _ <-].
  eapply asks_quiet; [exact H1|]. by eapply asks_quiet.
Qed.

Lemma locked_asks {R} h purpose ctx id (f : Ctx -> DestV1 -> World -> R * World) w r w' :
  (forall c d w1 x w2, f c d w1 = (x, w2) -> look_asks h purpose w1 w2) ->
  WithLocked env ctx id f w = (r, w') -> look_asks h purpose w w'.
Proof.
  intros Hf. unfold WithLocked. destruct (_ || _); [intros [= _ <-]; left; apply asks_refl|].
  destruct (TokenStore.operationContext env ctx w) as [oc w1] eqn:E1. apply opctx_asks in E1.
  destruct oc as [[oc dl]|]; [|intros [= _ <-]; by left].
  pose proof (tick_asks _ _ E1) as E2. set (w2 := tick env w1) in *. destruct (bool_decide _ || _).
  { destruct (if conn_given env (w_n w1) then DiscardBefore env (dl + ReleaseLimit) w2 else (true, w2)) as [b w3] eqn:E3.
    assert (asks [] w2 w3) as HQ by (destruct (conn_given _ _); [by apply discard_asks in E3|injection E3 as _ <-; apply asks_refl]).
    intros [= _ <-]. left. by eapply asks_quiet. }
  pose proof (tick_asks _ _ E2) as E3. set (w3 := tick env w2) in *. destruct (bool_decide _ || _).
  { destruct (DiscardBefore env (dl + ReleaseLimit) w3) as [b w4] eqn:E4. apply discard_asks in E4.
    intros [= _ <-]. left. by eapply asks_quiet. }
  destruct (FindOneUpdate env id w3) as [found w4] eqn:E4. apply find_asks in E4.
  pose proof (asks_quiet _ _ _ _ E3 E4) as HQ. destruct found as [d|e].
  - destruct (f oc d w4) as [x w5] eqn:E5. apply Hf in E5. destruct (release env oc _ w5) as [e w6] eqn:E6. apply release_asks in E6.
    intros [= _ <-]. eapply look_then; [|exact E6]. by eapply look_after.
  - destruct (release env oc _ w4) as [e' w6] eqn:E6. apply release_asks in E6. intros [= _ <-]. left. by eapply asks_quiet.
Qed.

Lemma inspectLocked_asks ctx hd purpose u g w out w' : inspectLocked env m ctx hd purpose u g w = (out, w') ->
  look_asks (hd_participant hd) purpose w w'.
Proof.
  unfold inspectLocked. destruct (WithLocked env ctx _ _ w) as [[err r] w1] eqn:E1.
  apply (locked_asks (hd_participant hd) purpose) in E1; [|intros; by eapply inspect_asks]. intros E.
  assert (w' = w1) as ->; [|done]. repeat case_match; by simplify_eq.
Qed.

Lemma compensate_asks ctx hd dl e w out w' : compensate env ctx hd dl e w = (out, w') ->
  asks [] w w' \/ asks [ERollback (hd_participant hd)] w w'.
Proof.
  unfold compensate. destruct (rollbackBeforeLocalDeadline _ _ _ _ _) as [ok w1] eqn:E1. apply rollbackBefore_asks in E1.
  intros [= _ <-]. destruct E1 as [[? _]|?]; auto.
Qed.

(** What a start asks for after the Gateway's pair is active: the update, a commit
    of it, and then either nothing was committed and the new token is taken back,
    or the row is looked at first. *)
Definition swap_order (id : UUID) (h : list Z) (l : list Event) : Prop :=
  exists u b, l = u ++ b /\
    ((u = [] \/ u = [EUpdate id]) /\ (b = [] \/ b = [ERollback h]) \/
     (u = [] \/ u = [EUpdate id] \/ u = [EUpdate id; ECommit id]) /\ (b = [] \/ b = [EObserve h] \/ b = [EObserve h; ERollback h])).

Lemma swap_asks ctx request hd a dl casCtx w out w' : swap env m ctx request hd a dl casCtx w = (out, w') ->
  exists l, asks l w w' /\ swap_order (sr_contactMethodID request) (hd_participant hd) l.
Proof.
  unfold swap. destruct (CompareAndSwap env m casCtx _ w) as [res w1] eqn:E1. apply CompareAndSwap_asks in E1.
  cbn [cr_contactMethodID] in E1. set (id := sr_contactMethodID request) in *. set (h := hd_participant hd).
  destruct (rot_ctx_error env casCtx w1) as [ce w2] eqn:E2. apply rot_ctx_asks in E2.
  assert (exists u, asks u w w2 /\ (u = [] \/ u = [EUpdate id] \/ u = [EUpdate id; ECommit id] /\ ~ nothing_done res)) as (u & Hu & Hs).
  { destruct E1 as [H|[H|[H Hn]]]; eexists; (split; [by eapply asks_then_quiet|]); auto. }
  assert (forall w3, asks [] w2 w3 -> exists l, asks l w w3 /\ swap_order id h l) as H0.
  { intros w3 H. exists u. split; [by eapply asks_then_quiet|]. exists u, []. rewrite app_nil_r. split; [done|]. right.
    split; [tauto|by left]. }
  destruct res as [e|]; [|destruct ce; intros [= _ <-]; apply H0, asks_refl].
  destruct (safeCASError e) as [se|] eqn:Ee.
  - intros E. apply compensate_asks in E. destruct E as [E|E]; [by apply H0|]. exists (u ++ [ERollback h]).
    split; [by apply (asks_trans _ _ _ _ _ Hu E)|]. exists u, [ERollback h]. split; [done|]. left. split; [|by right].
    destruct Hs as [?|[?|[_ Hn]]]; [by left|by right|]. exfalso. apply Hn. cbn. congruence.
  - destruct (bool_decide _); [|intros [= _ <-]; apply H0, asks_refl]. unfold recoverUnknownCAS.
    destruct (Now env w2) as [now w3] eqn:E3. apply Now_asks in E3. destruct (_ || _); [intros [= _ <-]; by apply H0|].
    destruct (boundedContext env _ _ w3) as [rc w4] eqn:E4. apply bounded_asks in E4. pose proof (asks_quiet _ _ _ _ E3 E4) as HQ.
    destruct rc as [rc|]; [|intros [= _ <-]; by apply H0]. intros E. apply inspectLocked_asks in E.
    apply (look_after _ _ _ _ _ HQ) in E. assert (forall b, asks b w2 w' -> b = [] \/ b = [EObserve h] \/ b = [EObserve h; ERollback h] ->
      exists l, asks l w w' /\ swap_order id h l) as HK.
    { intros b Hb Hbs. exists (u ++ b). split; [by apply (asks_trans _ _ _ _ _ Hu Hb)|]. exists u, b. split; [done|]. right. tauto. }
    destruct E as [E|[E|E]]; eapply HK; eauto.
Qed.

Lemma proceed_asks ctx request hd a dl w out w' : TokenRotation.proceed env m ctx request hd a dl w = (out, w') ->
  exists l, asks l w w' /\ swap_order (sr_contactMethodID request) (hd_participant hd) l.
Proof.
  unfold TokenRotation.proceed. destruct (Now env w) as [now w1] eqn:E1. apply Now_asks in E1. set (h := hd_participant hd).
  set (id := sr_contactMethodID request).
  assert (forall w3 w4, asks [] w w3 -> asks [] w3 w4 \/ asks [ERollback h] w3 w4 -> exists l, asks l w w4 /\ swap_order id h l) as HK.
  { intros w3 w4 H3 [H|H]; eexists; (split; [by eapply asks_quiet|]); [exists [], []|exists [], [ERollback h]]; (split; [done|]); left; auto. }
  destruct (_ || _); [intros E; apply compensate_asks in E; by eapply HK|].
  destruct (boundedContext env ctx _ w1) as [cc w2] eqn:E2. apply bounded_asks in E2. pose proof (asks_quiet _ _ _ _ E1 E2) as HQ.
  destruct cc as [cc|].
  - intros E. apply swap_asks in E as (l & Hl & Ho). exists l. split; [by eapply asks_quiet|done].
  - destruct (rollbackBeforeLocalDeadline _ _ _ _ _) as [ok w3] eqn:E3. apply rollbackBefore_asks in E3.
    assert (asks [] w2 w3 \/ asks [ERollback h] w2 w3) as HR' by (destruct E3 as [[? _]|?]; auto). destruct ok.
    + destruct (rot_ctx_error env ctx w3) as [e w4] eqn:E4. apply rot_ctx_asks in E4. intros [= _ <-]. apply (HK w2); [done|].
      destruct HR'; [left|right]; by eapply asks_then_quiet.
    + intros [= _ <-]. by apply (HK w2).
Qed.

Lemma op_asks ctx w x w' : TokenRotation.operationContext env m ctx w = (x, w') -> asks [] w w'.
Proof.
  unfold TokenRotation.operationContext. repeat case_match; try (intros [= _ <-]; apply asks_refl). apply rot_ctx_asks.
Qed.

(** What a start asks for: nothing, or one new pair and then the change. *)
Definition start_asks (request : StartRequest) (w w' : World) : Prop :=
  asks [] w w' \/ exists h l, asks (EBegin :: l) w w' /\ swap_order (sr_contactMethodID request) h l.

Lemma Start_asks ctx request w out w' : Start env m ctx request w = (out, w') -> start_asks request w w'.
Proof.
  unfold Start. destruct (TokenRotation.operationContext env m ctx w) as [e1 w1] eqn:E1. apply op_asks in E1.
  destruct e1; [intros [= _ <-]; by left|].
  destruct (prepareStart m request) as [[[x y] tok]|]; [|intros [= _ <-]; by left].
  destruct (Now env w1) as [now w2] eqn:E2. apply Now_asks in E2. pose proof (asks_quiet _ _ _ _ E1 E2) as H2.
  destruct (is_zero now); [intros [= _ <-]; by left|].
  destruct (boundedContext env ctx (now + BeginLimit) w2) as [bc w3] eqn:E3. apply bounded_asks in E3.
  pose proof (asks_quiet _ _ _ _ H2 E3) as H3. destruct bc as [bc|].
  2:{ destruct (rot_ctx_error env ctx w3) as [e w4] eqn:E4. apply rot_ctx_asks in E4. intros [= _ <-]. left. by eapply asks_quiet. }
  unfold Begin_. destruct (BeginRotation _ _ _ _) as [[a err] g].
  pose proof (asks_quiet _ _ _ _ H3 (call_asks EBegin g w3)) as H4. set (w4 := set_gw g _) in *.
  destruct (rot_ctx_error env bc w4) as [ce w5] eqn:E5. apply rot_ctx_asks in E5. pose proof (asks_then_quiet _ _ _ _ H4 E5) as H5.
  set (h := at_handle a). assert (start_asks request w w5) as H0.
  { right. exists h, []. split; [done|]. exists [], []. split; [done|]. left. auto. }
  destruct (bool_decide _); [by intros [= _ <-]|]. destruct (_ || _); [by intros [= _ <-]|].
  destruct (localDeadline _ _ _) as [dl|]; [|by intros [= _ <-]].
  set (cw := match ce with Some e => (Some e, w5) | None => rot_ctx_error env ctx w5 end). destruct cw as [ce' w6] eqn:E6.
  assert (asks [] w5 w6) as H6.
  { subst cw. destruct ce; [injection E6 as _ <-; apply asks_refl|by apply rot_ctx_asks in E6]. }
  assert (forall l, asks l w6 w' -> swap_order (sr_contactMethodID request) h l -> start_asks request w w') as HK.
  { intros l Hl Ho. right. exists h, l. split; [|done]. apply (asks_trans [EBegin] l _ w6); [by eapply asks_then_quiet|done]. }
  destruct ce' as [e|]; intros E.
  - apply compensate_asks in E as [E|E]; (eapply HK; [exact E|]); [exists [], []|exists [], [ERollback h]]; (split; [done|]); left; auto.
  - apply proceed_asks in E as (l & Hl & Ho). by eapply HK.
Qed.

Lemma look_op_asks (op : Ctx -> Handle -> World -> Outcome * World) purpose ctx hd w :
  (forall ctx hd w, op ctx hd w = let '(e, w1) := TokenRotation.operationContext env m ctx w in
     match e with
     | Some e => (failed e, w1)
     | None => if negb (hd_valid hd) then (failed RotInvalid, w1) else inspectLocked env m ctx hd purpose zero_inst zero_inst w1
     end) -> look_asks (hd_participant hd) purpose w (op ctx hd w).2.
Proof.
  intros ->. destruct (TokenRotation.operationContext env m ctx w) as [e1 w1] eqn:E1. apply op_asks in E1.
  destruct e1; [by left|]. destruct (negb _); [by left|].
  destruct (inspectLocked _ _ _ _ _ _ _ w1) as [out w2] eqn:E2. apply inspectLocked_asks in E2. by eapply look_after.
Qed.

(** C26: what the coordinator asks for, whatever is answered.  A start makes at
    most one pair and then at most one update, commits it at most once, and asks
    the Gateway to take the new token back only if no commit was asked for, or
    after looking at the row; it never finalizes.  A reconciliation looks once and
    then takes the token back at most once, a finalization looks once and then
    finalizes at most once; neither touches the row. *)
Theorem requests_in_order ctx w :
  (forall request, start_asks request w (Start env m ctx request w).2) /\
  (forall hd, look_asks (hd_participant hd) InspectReconcile w (Reconcile env m ctx hd w).2) /\
  (forall hd, look_asks (hd_participant hd) InspectFinalize w (Finalize env m ctx hd w).2).
Proof.
  split; [|split]; intros.
  - destruct (Start env m ctx request w) as [out w'] eqn:E. by apply Start_asks in E.
  - by apply (look_op_asks (Reconcile env m)).
  - by apply (look_op_asks (Finalize env m)).
Qed.
End protocol.
