(* ===== verification/TokenSuccess.v ===== *)
(** * A rotation that succeeds

    Where every call answers in time and nobody else changes the contact method, a
    start replaces the token and a finalization completes the rotation once the
    overlap is over. *)

From S2P Require Import Prelude Text GoTime Dest GatewayTarget TokenStore TokenRotation TokenRotationSpec.

Open Scope Z_scope.

Section success.
Context {HN : NetURL} {HU : UUIDText} {G : Type} {HP : Participant G}.
Context (m : GatewayTargetMatcher) (env : Env) (id : UUID) (n0 : nat) (t0 : Z).

Local Notation World := (World G).

(** How many events an operation has at most. *)
Definition span : nat := 24.

(** The events of one operation: they are within five seconds, and no call of the
    database fails. *)
Record smooth : Prop := {
  sm_start : 0 <= t0;
  sm_clock : forall j, (n0 <= j < n0 + span)%nat -> t0 <= clock env j < t0 + 5 * Second;
  sm_mono : forall j k, (n0 <= j <= k)%nat -> (k < n0 + span)%nat -> clock env j <= clock env k;
  sm_alone : forall j d, (n0 <= j < n0 + span)%nat -> foreign env j <> Some (id, d);
  sm_calls : forall j, (n0 <= j < n0 + span)%nat ->
    conn_err env j = None /\ conn_given env j = true /\ begin_err env j = None /\ tx_given env j = true /\
    find_err env j = None /\ update_err env j = None /\ rows_known env j = true /\
    commit_fails env j = false /\ rollback_fails env j = false
}.

(** The context is not done before the operation is. *)
Record lives (ctx : Ctx) : Prop := {
  lv_system : c_system ctx = true;
  lv_err : forall j, (n0 <= j < n0 + span)%nat -> c_err ctx j = None;
  lv_deadline : forall d, c_deadline ctx = Some d -> t0 + 5 * Second <= d
}.

Context (HS : smooth).

Lemma lives_with ctx d : lives ctx -> t0 + 5 * Second <= d -> lives (WithDeadline env ctx d).
Proof using HS.
  intros [L1 L2 L3] Hd. split; cbn; [done|..].
  - intros j Hj. rewrite L2 by done. pose proof (sm_clock HS j Hj). by rewrite (proj2 (Z.leb_gt _ _)) by lia.
  - intros d' [= <-]. destruct (c_deadline ctx) as [d'|]; [|lia]. specialize (L3 _ eq_refl). lia.
Qed.

(** The row of the contact method is [d], the Gateway is [g], and [k] events of
    the operation are over. *)
Record state_at (k : nat) (d : DestV1) (g : G) (w : World) : Prop := {
  at_n : w_n w = (n0 + k)%nat;
  at_row : w_rows w !! id = Some d;
  at_doubt : forall d', w_doubt w <> Some (id, d');
  at_gw : w_gw w = g
}.

Lemma at_tick k d g w : (k < span)%nat -> state_at k d g w -> state_at (S k) d g (tick env w).
Proof using HS.
  intros Hk [A1 A2 A3 A4]. unfold tick.
  set (w1 := match settles env (w_n w) with Some b => settle b w | None => w end).
  assert (w_rows w1 !! id = Some d /\ (forall d', w_doubt w1 <> Some (id, d')) /\ w_gw w1 = w_gw w /\ w_n w1 = w_n w) as (B1 & B2 & B3 & B4).
  { subst w1. destruct (settles env (w_n w)) as [b|]; [|done]. unfold settle.
    destruct (w_doubt w) as [[i d']|] eqn:E; [|by rewrite E]. cbn. split; [|done]. destruct b; [|done].
    rewrite lookup_insert_ne; [done|]. intros ->. by apply (A3 d'). }
  clearbody w1. split; cbn; [rewrite A1; lia| |done|congruence].
  destruct (foreign env (w_n w)) as [[i d']|] eqn:Ef; [|done]. destruct (row_free i w1); [|done].
  assert (i <> id) as Hi. { intros ->. apply (sm_alone HS (w_n w) d'); [rewrite A1; unfold span in *; lia|done]. }
  destruct d'; cbn; [by rewrite lookup_insert_ne|by rewrite lookup_delete_ne].
Qed.

Lemma at_log k d g e w : state_at k d g w -> state_at k d g (TokenStore.log_event e w).
Proof using Type. by intros []. Qed.

Lemma at_lock k d g l w : state_at k d g w -> state_at k d g (set_lock l w).
Proof using Type. by intros []. Qed.

Lemma at_set_gw k d g g' w : state_at k d g w -> state_at k d g' (set_gw g' w).
Proof using Type. by intros []. Qed.

Lemma at_range k d g w : (k < span)%nat -> state_at k d g w -> (n0 <= w_n w < n0 + span)%nat.
Proof using Type. intros Hk [-> _ _ _]. unfold span in *. lia. Qed.

Lemma Now_passes k d g w : (k < span)%nat -> state_at k d g w ->
  t0 <= (Now env w).1 < t0 + 5 * Second /\ (Now env w).1 = clock env (n0 + k) /\ state_at (S k) d g (Now env w).2.
Proof using HS.
  intros Hk HA. cbn. split; [apply (sm_clock HS); by eapply at_range|]. split; [by rewrite (at_n _ _ _ _ HA)|by apply at_tick].
Qed.

Lemma Err_passes ctx k d g w : lives ctx -> (k < span)%nat -> state_at k d g w ->
  exists w', Err env ctx w = (None, w') /\ state_at (S k) d g w'.
Proof using HS.
  intros HL Hk HA. eexists. split; [unfold Err; by rewrite (lv_err _ HL) by by eapply at_range|by apply at_tick].
Qed.

Lemma cas_ctx_passes ctx k d g w : lives ctx -> (k < span)%nat -> state_at k d g w ->
  exists w', cas_ctx_error env ctx w = (None, w') /\ state_at (S k) d g w'.
Proof using HS.
  intros HL Hk HA. destruct (Err_passes ctx k d g w HL Hk HA) as (w' & E & HA'). unfold cas_ctx_error. rewrite E. eauto.
Qed.

Lemma rot_ctx_passes ctx k d g w : lives ctx -> (k < span)%nat -> state_at k d g w ->
  exists w', rot_ctx_error env ctx w = (None, w') /\ state_at (S k) d g w'.
Proof using HS.
  intros HL Hk HA. destruct (Err_passes ctx k d g w HL Hk HA) as (w' & E & HA'). unfold rot_ctx_error. rewrite E. eauto.
Qed.

Lemma not_zero t : 0 <= t -> is_zero t = false.
Proof using Type. intros Ht. unfold is_zero. apply Z.eqb_neq. assert (zero_inst < 0) by reflexivity. lia. Qed.

Lemma one_second_pos : 0 < Second.
Proof using Type. reflexivity. Qed.

Lemma bounded_passes ctx dl k d g w : lives ctx -> t0 + 5 * Second <= dl -> (k + 2 < span)%nat -> state_at k d g w ->
  exists w', boundedContext env ctx dl w = (Some (WithDeadline env ctx dl), w') /\ state_at (k + 3) d g w'.
Proof using HS.
  intros HL Hd Hk HA. pose proof (sm_start HS). pose proof one_second_pos. unfold boundedContext. rewrite not_zero by lia.
  destruct (Err_passes ctx k d g w HL ltac:(lia) HA) as (w1 & -> & A1). rewrite bool_decide_eq_false_2 by auto.
  destruct (Now_passes (S k) d g w1 ltac:(lia) A1) as (T2 & _ & A2). destruct (Now env w1) as [t w2]. cbn [fst snd] in *.
  rewrite (proj2 (Z.ltb_lt t dl)) by lia. cbn [negb].
  destruct (Err_passes (WithDeadline env ctx dl) (S (S k)) d g w2 (lives_with _ _ HL Hd) ltac:(lia) A2) as (w3 & -> & A3).
  rewrite bool_decide_eq_false_2 by auto. exists w3. split; [done|]. by replace (k + 3)%nat with (S (S (S k))) by lia.
Qed.

Ltac calls Hk HA := destruct (sm_calls HS _ (at_range _ _ _ _ Hk HA)) as (?C1 & ?C2 & ?C3 & ?C4 & ?C5 & ?C6 & ?C7 & ?C8 & ?C9).

Lemma find_passes k d g w : (k < span)%nat -> state_at k d g w ->
  exists w', FindOneUpdate env id w = (inl d, w') /\ state_at (S k) d g w'.
Proof using HS.
  intros Hk HA. calls Hk HA. unfold FindOneUpdate. rewrite C5.
  pose proof (at_tick k d g w Hk HA) as HA1. set (w1 := tick env w) in *. clearbody w1.
  assert (match w_doubt w1 with Some (i, _) => if id =? i then settle (late env (w_n w)) w1 else w1 | None => w1 end = w1) as ->.
  { destruct (w_doubt w1) as [[i d']|] eqn:E; [|done]. destruct (Z.eqb_spec id i) as [<-|]; [|done].
    by destruct (at_doubt _ _ _ _ HA1 d'). }
  rewrite (at_row _ _ _ _ HA1). eexists. split; [done|]. by apply at_lock.
Qed.

Lemma update_passes k d g w : (k < span)%nat -> state_at k d g w ->
  exists w', CompareAndSwapUpdate env id d w = (inl (Some 1), w') /\ state_at (S k) d g w'.
Proof using HS.
  intros Hk HA. calls Hk HA. pose proof (at_tick k d g _ Hk (at_log _ _ _ (EUpdate id) _ HA)) as HA1.
  eexists. split; [|exact HA1]. unfold CompareAndSwapUpdate. rewrite C6, C7.
  by rewrite bool_decide_eq_true_2 by apply (at_row _ _ _ _ HA1).
Qed.

Lemma commit_passes r k d g w : (k < span)%nat -> state_at k d g w ->
  exists w', Commit env id r w = (true, w') /\ state_at (S k) r g w'.
Proof using HS.
  intros Hk HA. calls Hk HA. pose proof (at_tick k d g _ Hk (at_log _ _ _ (ECommit id) _ HA)) as HA1.
  unfold Commit. rewrite C8. eexists. split; [done|]. destruct HA1. split; cbn; [done|by rewrite lookup_insert_eq|done|done].
Qed.

Lemma rollback_passes k d g w : (k < span)%nat -> state_at k d g w ->
  exists w', Rollback env w = (true, w') /\ state_at (S k) d g w'.
Proof using HS.
  intros Hk HA. calls Hk HA. unfold Rollback. rewrite C9. eexists. split; [done|]. by apply at_lock, at_tick.
Qed.

(** ** The update *)

Lemma fenced_passes ctx dl e r k g w : lives ctx -> (k + 3 < span)%nat -> state_at k e g w ->
  exists w', fencedUpdate env ctx dl id e r w = (None, w') /\ state_at (k + 4) r g w'.
Proof using HS.
  intros HL Hk HA. unfold fencedUpdate.
  destruct (find_passes k e g w ltac:(lia) HA) as (w1 & -> & A1).
  destruct (update_passes (S k) e g w1 ltac:(lia) A1) as (w2 & -> & A2). cbn [Z.eqb Pos.eqb].
  destruct (commit_passes r (S (S k)) e g w2 ltac:(lia) A2) as (w3 & -> & A3). cbn [negb].
  destruct (cas_ctx_passes ctx (S (S (S k))) r g w3 HL ltac:(lia) A3) as (w4 & -> & A4).
  rewrite bool_decide_eq_false_2 by auto. exists w4. split; [done|]. by replace (k + 4)%nat with (S (S (S (S k)))) by lia.
Qed.

(** A connection and a transaction on it. *)
Lemma connected_passes k d g w : (k + 1 < span)%nat -> state_at k d g w ->
  bool_decide (conn_err env (w_n w) <> None) || negb (conn_given env (w_n w)) = false /\
  bool_decide (begin_err env (w_n (tick env w)) <> None) || negb (tx_given env (w_n (tick env w))) = false /\
  state_at (k + 2) d g (tick env (tick env w)).
Proof using HS.
  intros Hk HA. assert (k < span)%nat as Hk1 by lia. assert (S k < span)%nat as Hk2 by lia.
  pose proof (at_tick k d g w Hk1 HA) as HA1. pose proof (at_tick (S k) d g _ Hk2 HA1) as HA2.
  destruct (sm_calls HS _ (at_range _ _ _ _ Hk1 HA)) as (-> & -> & _).
  destruct (sm_calls HS _ (at_range _ _ _ _ Hk2 HA1)) as (_ & _ & -> & -> & _).
  split; [done|]. split; [done|]. by replace (k + 2)%nat with (S (S k)) by lia.
Qed.

Lemma fence_passes ctx e r k g w dl : lives ctx -> c_deadline ctx = Some dl -> id <> uuid_Nil -> (k + 7 < span)%nat ->
  state_at k e g w ->
  exists w', compareAndSwapWithFence env ctx id e r w = (None, w') /\ state_at (k + 8) r g w'.
Proof using HS.
  intros HL Hd Hid Hk HA. unfold compareAndSwapWithFence. rewrite (proj2 (Z.eqb_neq _ _) Hid), (lv_system _ HL). cbn [negb].
  destruct (cas_ctx_passes ctx k e g w HL ltac:(lia) HA) as (w1 & -> & A1). rewrite Hd.
  destruct (Now_passes (S k) e g w1 ltac:(lia) A1) as (T2 & _ & A2). destruct (Now env w1) as [t w2]. cbn [fst snd] in *.
  pose proof (lv_deadline _ HL _ Hd). rewrite (proj2 (Z.ltb_lt t dl)) by lia. cbn [negb].
  destruct (connected_passes (S (S k)) e g w2 ltac:(lia) A2) as (-> & -> & A4). 
  destruct (fenced_passes ctx (dl + DiscardLimit) e r (S (S k) + 2) g _ HL ltac:(lia) A4) as (w5 & -> & A5).
  exists w5. split; [done|]. by replace (k + 8)%nat with (S (S k) + 2 + 4)%nat by lia.
Qed.

Lemma swap_passes ctx url token e r k g w dl : lives ctx -> c_deadline ctx = Some dl -> (k + 8 < span)%nat ->
  prepare m (mkCASRequest id url token) = Some (e, r) -> state_at k e g w ->
  exists w', CompareAndSwap env m ctx (mkCASRequest id url token) w = (None, w') /\ state_at (k + 9) r g w'.
Proof using HS.
  intros HL Hd Hk Hp HA. unfold CompareAndSwap. rewrite (lv_system _ HL). cbn [negb cr_contactMethodID].
  destruct (cas_ctx_passes ctx k e g w HL ltac:(lia) HA) as (w1 & -> & A1). rewrite Hp.
  destruct (prepared _ _ _ _ Hp) as (b & o & _ & _ & _ & _ & _ & _ & Hid).
  destruct (fence_passes ctx e r (S k) g w1 dl HL Hd Hid ltac:(lia) A1) as (w2 & -> & A2).
  exists w2. split; [done|]. by replace (k + 9)%nat with (S k + 8)%nat by lia.
Qed.

(** ** The start *)

(** The Gateway makes the attempt [a] and is [g'] then; it is the sixth event. *)
Definition begins (r : BeginRequest) (g : G) (a : Attempt) (g' : G) : Prop :=
  forall ctx, BeginRotation ctx (n0 + 5) r g = ((a, None), g').

(** The overlap is long enough: the start may take five seconds, and the limits of
    the update and of a recovery are kept. *)
Definition overlap_long (a : Attempt) : Prop :=
  20 * Second < Sub (at_deadline a) (activatedAt a).

Lemma proceed_passes ctx request a anchor e r k g w :
  lives ctx -> attempt_valid a = true -> overlap_long a -> t0 <= anchor < t0 + 5 * Second -> (k + 14 < span)%nat ->
  sr_contactMethodID request = id ->
  prepare m (mkCASRequest id (sr_expectedURL request) (newToken a)) = Some (e, r) -> state_at k e g w ->
  exists w', TokenRotation.proceed env m ctx request (mkHandle id (at_handle a)) a (anchor + Sub (at_deadline a) (activatedAt a)) w =
    (succeeded PendingFinalization (mkHandle id (at_handle a)), w') /\ state_at (k + 14) r g w'.
Proof using HS.
  intros HL Hv Hlong Han Hk Hid Hp HA. unfold TokenRotation.proceed. pose proof (sm_start HS). unfold overlap_long in Hlong.
  set (overlap := Sub (at_deadline a) (activatedAt a)) in *.
  assert (overlap <= MaxOverlap) as Hmax.
  { unfold attempt_valid, validInterval in Hv. repeat (apply andb_true_iff in Hv as [Hv ?]).
    destruct (_ || _); [done|]. match goal with H : _ && _ = true |- _ => apply andb_true_iff in H as [_ H]; by apply Z.leb_le in H end. }
  destruct (Now_passes k e g w ltac:(lia) HA) as (T1 & _ & A1). destruct (Now env w) as [t w1]. cbn [fst snd] in *.
  assert (Sub (anchor + overlap) t = anchor + overlap - t) as ->.
  { unfold Sub. apply sat64_id. unfold in64, two63, MaxOverlap, Hour, Minute, Second in *. lia. }
  rewrite not_zero by lia. rewrite (proj2 (Z.leb_gt _ _)) by (unfold CASLimit, DiscardLimit, RecoveryLimit in *; lia). cbn [orb].
  set (dl := match c_deadline ctx with Some d => _ | None => _ end).
  assert (t0 + 5 * Second <= dl) as Hdl.
  { subst dl. pose proof (lv_deadline _ HL). unfold earliest, CASLimit, DiscardLimit, RecoveryLimit in *.
    destruct (c_deadline ctx) as [d|]; [specialize (H0 _ eq_refl)|]; repeat case_match; lia. }
  clearbody dl. destruct (bounded_passes ctx dl (S k) e g w1 HL Hdl ltac:(lia) A1) as (w2 & -> & A2).
  unfold swap. rewrite Hid.
  assert (lives (WithDeadline env ctx dl)) as HL' by by apply lives_with.
  destruct (swap_passes (WithDeadline env ctx dl) _ _ e r (S k + 3) g w2 _ HL' eq_refl ltac:(lia) Hp A2) as (w3 & -> & A3).
  destruct (rot_ctx_passes (WithDeadline env ctx dl) (S k + 3 + 9) r g w3 HL' ltac:(lia) A3) as (w4 & -> & A4).
  exists w4. split; [done|]. by replace (k + 14)%nat with (S (S k + 3 + 9))%nat by lia.
Qed.

Lemma prepareStart_id request x y tok : prepareStart m request = Some (x, y, tok) -> sr_contactMethodID request <> uuid_Nil.
Proof using Type.
  unfold prepareStart. destruct (Z.eqb_spec (sr_contactMethodID request) uuid_Nil); done.
Qed.

Lemma Start_passes ctx request x y tok a e r g g' w :
  lives ctx -> matcher_valid m = true -> prepareStart m request = Some (x, y, tok) -> sr_contactMethodID request = id ->
  begins (mkBegin x y tok) g a g' -> attempt_valid a = true -> newToken a <> tok -> overlap_long a ->
  prepare m (mkCASRequest id (sr_expectedURL request) (newToken a)) = Some (e, r) -> state_at 0 e g w ->
  exists w', Start env m ctx request w = (succeeded PendingFinalization (mkHandle id (at_handle a)), w') /\ state_at 22 r g' w'.
Proof using HS.
  intros HL Hm Hp Hid HB Hv Hne Hlong Hpr HA. pose proof (sm_start HS). unfold Start, TokenRotation.operationContext.
  rewrite (lv_system _ HL), Hm. cbn [negb].
  destruct (rot_ctx_passes ctx 0 e g w HL ltac:(unfold span; lia) HA) as (w1 & -> & A1). rewrite Hp.
  destruct (Now_passes 1 e g w1 ltac:(unfold span; lia) A1) as (T2 & _ & A2). destruct (Now env w1) as [anchor w2]. cbn [fst snd] in *.
  rewrite not_zero by lia.
  assert (t0 + 5 * Second <= anchor + BeginLimit) as Hd by (unfold BeginLimit; lia).
  destruct (bounded_passes ctx _ 2 e g w2 HL Hd ltac:(unfold span; lia) A2) as (w3 & -> & A3). cbn [Nat.add] in A3.
  set (bc := WithDeadline env ctx _). assert (lives bc) as HLb by by apply lives_with.
  unfold Begin_. pose proof (at_tick 5 e g _ ltac:(unfold span; lia) (at_log _ _ _ EBegin _ A3)) as A4. rewrite (at_gw _ _ _ _ A4).
  rewrite (at_n _ _ _ _ A3), (HB bc). apply (at_set_gw _ _ _ g') in A4.
  destruct (rot_ctx_passes bc 6 e g' _ HLb ltac:(unfold span; lia) A4) as (w5 & -> & A5).
  rewrite bool_decide_eq_false_2 by auto. rewrite Hv. cbn [negb orb]. apply String.eqb_neq in Hne. rewrite Hne.
  assert (localDeadline anchor (activatedAt a) (at_deadline a) = Some (anchor + Sub (at_deadline a) (activatedAt a))) as ->.
  { unfold localDeadline. rewrite not_zero by lia. unfold attempt_valid in Hv. apply andb_true_iff in Hv as [_ ->]. done. }
  destruct (rot_ctx_passes ctx 7 e g' w5 HL ltac:(unfold span; lia) A5) as (w6 & -> & A6). rewrite Hid.
  destruct (proceed_passes ctx request a anchor e r 8 g' w6 HL Hv Hlong T2 ltac:(unfold span; lia) Hid Hpr A6) as (w7 & -> & A7).
  by exists w7.
Qed.

(** ** The finalization *)

Lemma validLock_passes ctx dl k d g w t : lives ctx -> c_deadline ctx = Some dl -> (k + 1 < span)%nat -> state_at k d g w ->
  t <= clock env (n0 + S k) -> dl <= t + RecoveryLimit ->
  exists w', validLockContext env ctx w = (true, w') /\ state_at (k + 2) d g w'.
Proof using HS.
  intros HL Hd Hk HA Ht Hdl. unfold validLockContext.
  destruct (Err_passes ctx k d g w HL ltac:(lia) HA) as (w1 & -> & A1). rewrite bool_decide_eq_false_2 by auto.
  rewrite (lv_system _ HL), Hd. cbn [negb orb].
  destruct (Now_passes (S k) d g w1 ltac:(lia) A1) as (T2 & Et & A2). destruct (Now env w1) as [now w2]. cbn [fst snd] in *.
  pose proof (lv_deadline _ HL _ Hd) as Hl. exists w2. split; [|by replace (k + 2)%nat with (S (S k)) by lia].
  assert (Sub dl now = dl - now) as ->.
  { unfold Sub. apply sat64_id. unfold in64, two63, RecoveryLimit, Second in *. lia. }
  rewrite (proj2 (Z.ltb_lt _ _)), (proj2 (Z.leb_le _ _)) by lia. done.
Qed.

Lemma release_passes ctx dl k d g w : lives ctx -> (k + 1 < span)%nat -> state_at k d g w ->
  exists w', release env ctx dl w = (None, w') /\ state_at (k + 2) d g w'.
Proof using HS.
  intros HL Hk HA. unfold release. destruct (rollback_passes k d g w ltac:(lia) HA) as (w1 & -> & A1). cbn [negb].
  destruct (rot_ctx_passes ctx (S k) d g w1 HL ltac:(lia) A1) as (w2 & -> & A2). rewrite bool_decide_eq_false_2 by auto.
  exists w2. split; [done|]. by replace (k + 2)%nat with (S (S k)) by lia.
Qed.

Lemma opctx_passes ctx k d g w : lives ctx -> (k + 4 < span)%nat -> state_at k d g w ->
  exists oc dl w', TokenStore.operationContext env ctx w = (Some (oc, dl), w') /\ state_at (k + 5) d g w' /\
    lives oc /\ c_deadline oc = Some dl /\ dl <= clock env (n0 + S k) + RecoveryLimit.
Proof using HS.
  intros HL Hk HA. unfold TokenStore.operationContext.
  destruct (Err_passes ctx k d g w HL ltac:(lia) HA) as (w1 & -> & A1). rewrite bool_decide_eq_false_2 by auto.
  destruct (Now_passes (S k) d g w1 ltac:(lia) A1) as (T2 & Et & A2). destruct (Now env w1) as [now w2]. cbn [fst snd] in *.
  set (dl := match c_deadline ctx with Some d' => _ | None => _ end). pose proof (lv_deadline _ HL) as Hl.
  assert (t0 + 5 * Second <= dl /\ dl <= now + RecoveryLimit /\ c_deadline (WithDeadline env ctx dl) = Some dl) as (H1 & H2 & H3).
  { subst dl. cbn. unfold earliest, RecoveryLimit in *. destruct (c_deadline ctx) as [d'|]; [specialize (Hl _ eq_refl)|split; [lia|]; split; [lia|done]].
    case_match; (split; [lia|]); (split; [lia|]); f_equal; lia. }
  clearbody dl. destruct (bounded_passes ctx dl (S (S k)) d g w2 HL H1 ltac:(lia) A2) as (w3 & -> & A3).
  exists (WithDeadline env ctx dl), dl, w3. split; [done|]. split; [by replace (k + 5)%nat with (S (S k) + 3)%nat by lia|].
  split; [by apply lives_with|]. split; [done|]. by rewrite <- Et.
Qed.

(** Under the lock the Gateway observes [o], and is [g1] then; and it finalizes. *)
Definition observes (h : list Z) (token : string) (g : G) (o : Observation) (g1 : G) : Prop :=
  forall ctx, ObserveRotation ctx (n0 + 12) h token g = ((o, None), g1).

Definition finalizes (h : list Z) (g g2 : G) : Prop :=
  forall ctx, FinalizeRotation ctx (n0 + 15) h g = (None, g2).

(** The end of the overlap in local time, counted from before the observation. *)
Definition remaining (o : Observation) : Z := Sub (ob_deadline o) (observedAt o).

Lemma observe_passes ctx h token o d g g1 w : observes h token g o g1 -> state_at 12 d g w ->
  exists w', Observe_ env ctx h token w = ((o, None), w') /\ state_at 13 d g1 w'.
Proof using HS.
  intros HO HA. unfold Observe_. pose proof (at_tick 12 d g _ ltac:(unfold span; lia) (at_log _ _ _ (EObserve h) _ HA)) as A1.
  rewrite (at_gw _ _ _ _ A1), (at_n _ _ _ _ HA), (HO ctx). eexists. split; [done|]. by eapply at_set_gw.
Qed.

(** The callback of a finalization: it is done, or it is too early. *)
Lemma inspect_passes ctx dl h token o d g g1 g2 w :
  lives ctx -> c_deadline ctx = Some dl -> dl <= clock env (n0 + 2) + RecoveryLimit ->
  tokenFromAuthoritativeDestination m d = Some token -> observes h token g o g1 -> finalizes h g1 g2 ->
  obs_valid o = true -> ob_state o = ActiveWithRetiring -> identity o = TokenNew -> state_at 9 d g w ->
  (remaining o <= 0 -> exists w', inspect env m (mkHandle id h) InspectFinalize zero_inst zero_inst ctx d w =
     (succeeded StatusCompleted (mkHandle id h), w') /\ state_at 16 d g2 w') /\
  (5 * Second <= remaining o <= MaxOverlap -> exists w', inspect env m (mkHandle id h) InspectFinalize zero_inst zero_inst ctx d w =
     (failed RotTooEarly, w') /\ state_at 14 d g1 w').
Proof using HS.
  intros HL Hd Hdl Ht HO HF Hv Hst Hi HA. pose proof (sm_start HS). unfold inspect.
  assert (clock env (n0 + 2) <= clock env (n0 + 10)) as Hm by (apply (sm_mono HS); unfold span; lia).
  destruct (validLock_passes ctx dl 9 d g w (clock env (n0 + 2)) HL Hd ltac:(unfold span; lia) HA Hm Hdl) as (w1 & -> & A1).
  cbn [negb Nat.add] in *. rewrite Ht. destruct (Now_passes 11 d g w1 ltac:(unfold span; lia) A1) as (T2 & Et & A2).
  destruct (Now env w1) as [anchor w2]. cbn [fst snd hd_participant] in *.
  destruct (observe_passes ctx h token o d g g1 w2 HO A2) as (w3 & -> & A3).
  rewrite bool_decide_eq_false_2 by auto. rewrite Hv. cbn [negb orb].
  unfold observationLocalDeadline, finalizeLocked. rewrite Hst, Hi, not_zero by lia. fold (remaining o). cbn [orb].
  destruct (Now_passes 13 d g1 w3 ltac:(unfold span; lia) A3) as (T4 & Et4 & A4). destruct (Now env w3) as [now w4]. cbn [fst snd] in *.
  assert (anchor <= now) as Hle by (subst anchor now; apply (sm_mono HS); unfold span; lia).
  unfold MaxOverlap. split; intros Hr.
  - rewrite (proj2 (Z.ltb_ge _ _)) by (unfold Hour, Minute, Second in *; lia). rewrite not_zero by lia. cbn [orb].
    assert (is_zero (anchor + remaining o) = false) as ->.
    { unfold is_zero, remaining. apply Z.eqb_neq. pose proof (sat64_range (ob_deadline o - observedAt o)) as HR.
      assert (zero_inst = -62135596800000000000) as -> by (vm_compute; reflexivity). unfold Sub. unfold in64, two63 in *. lia. }
    rewrite (proj2 (Z.ltb_ge now _)) by lia.
    destruct (rot_ctx_passes ctx 14 d g1 w4 HL ltac:(unfold span; lia) A4) as (w5 & -> & A5). unfold Finalize_.
    pose proof (at_tick 15 d g1 _ ltac:(unfold span; lia) (at_log _ _ _ (EFinalize h) _ A5)) as A6.
    cbn [hd_participant]. rewrite (at_gw _ _ _ _ A6), (at_n _ _ _ _ A5), (HF ctx).
    eexists. split; [done|]. by eapply at_set_gw.
  - rewrite (proj2 (Z.ltb_ge _ _)) by lia. rewrite !not_zero by (unfold Second in *; lia). cbn [orb].
    rewrite (proj2 (Z.ltb_lt now _)) by lia. by exists w4.
Qed.

Lemma Finalize_passes ctx h token o d g g1 g2 w :
  lives ctx -> matcher_valid m = true -> id <> uuid_Nil -> handle_valid h = true ->
  tokenFromAuthoritativeDestination m d = Some token -> observes h token g o g1 -> finalizes h g1 g2 ->
  obs_valid o = true -> ob_state o = ActiveWithRetiring -> identity o = TokenNew -> state_at 0 d g w ->
  (remaining o <= 0 -> exists w', Finalize env m ctx (mkHandle id h) w = (succeeded StatusCompleted (mkHandle id h), w') /\ state_at 18 d g2 w') /\
  (5 * Second <= remaining o <= MaxOverlap -> exists w', Finalize env m ctx (mkHandle id h) w = (failed RotTooEarly, w') /\ state_at 16 d g1 w').
Proof using HS.
  intros HL Hm Hid Hh Ht HO HF Hv Hst Hi HA. unfold Finalize, TokenRotation.operationContext. rewrite (lv_system _ HL), Hm. cbn [negb].
  destruct (rot_ctx_passes ctx 0 d g w HL ltac:(unfold span; lia) HA) as (w1 & -> & A1).
  unfold hd_valid. cbn [hd_contactMethodID hd_participant]. apply Z.eqb_neq in Hid. rewrite Hid, Hh. cbn [negb andb].
  unfold inspectLocked, WithLocked. cbn [hd_contactMethodID]. rewrite Hid, (lv_system _ HL). cbn [negb orb].
  destruct (opctx_passes ctx 1 d g w1 HL ltac:(unfold span; lia) A1) as (oc & dl & w2 & -> & A2 & HLo & Hdo & Hdl).
  destruct (connected_passes 6 d g w2 ltac:(unfold span; lia) A2) as (-> & -> & A4).
  destruct (find_passes 8 d g _ ltac:(unfold span; lia) A4) as (w5 & -> & A5).
  destruct (inspect_passes oc dl h token o d g g1 g2 w5 HLo Hdo Hdl Ht HO HF Hv Hst Hi A5) as [HC HE].
  split; intros Hr.
  - destruct (HC Hr) as (w6 & -> & A6). destruct (release_passes oc (dl + ReleaseLimit) 16 d g2 w6 HLo ltac:(unfold span; lia) A6) as (w7 & -> & A7).
    by exists w7.
  - destruct (HE Hr) as (w6 & -> & A6). destruct (release_passes oc (dl + ReleaseLimit) 14 d g1 w6 HLo ltac:(unfold span; lia) A6) as (w7 & -> & A7).
    by exists w7.
Qed.

(** What a start needs: a URL with an old token, a Gateway that makes a new one,
    and an overlap that is long enough. *)
Record startable (request : StartRequest) (a : Attempt) (before after : DestV1) (g g' : G) : Prop := {
  st_begins : exists x y tok, prepareStart m request = Some (x, y, tok) /\ begins (mkBegin x y tok) g a g' /\ newToken a <> tok;
  st_valid : attempt_valid a = true;
  st_overlap : overlap_long a;
  st_prepared : prepare m (mkCASRequest id (sr_expectedURL request) (newToken a)) = Some (before, after)
}.

(** What a finalization needs: the row has a token, and the Gateway says that it
    is the new one. *)
Record finalizable (h : list Z) (o : Observation) (d : DestV1) (g g1 g2 : G) : Prop := {
  fn_handle : handle_valid h = true;
  fn_valid : obs_valid o = true;
  fn_active : ob_state o = ActiveWithRetiring /\ identity o = TokenNew;
  fn_observes : exists token, tokenFromAuthoritativeDestination m d = Some token /\ observes h token g o g1;
  fn_finalizes : finalizes h g1 g2
}.

(** C34: where every call answers in time and the contact method is left alone, a
    start replaces the destination by the one with the new token, and says that
    the rotation waits for its finalization; it takes 22 events. *)
Theorem start_replaces_token ctx request a before after g' w (HL : lives ctx) (Hm : matcher_valid m = true)
  (Hid : sr_contactMethodID request = id) (Hst : startable request a before after (w_gw w) g')
  (HA : state_at 0 before (w_gw w) w) :
  exists w', Start env m ctx request w = (succeeded PendingFinalization (mkHandle id (at_handle a)), w') /\
    w_rows w' !! id = Some after /\ w_gw w' = g' /\ w_n w' = (w_n w + 22)%nat.
Proof using HS.
  destruct Hst as [(x & y & tok & Hp & HB & Hne) Hv Hl Hpr].
  destruct (Start_passes ctx request x y tok a before after _ g' w HL Hm Hp Hid HB Hv Hne Hl Hpr HA) as (w' & E & [A1 A2 _ A4]).
  exists w'. split; [done|]. split; [done|]. split; [done|]. rewrite A1, (at_n _ _ _ _ HA). lia.
Qed.

(** And a finalization completes it once the Gateway says that the overlap is
    over, while five seconds before it is refused and nothing is asked to end; the
    destination stays. *)
Theorem finalize_after_the_overlap ctx h o d g1 g2 w (HL : lives ctx) (Hm : matcher_valid m = true) (Hid : id <> uuid_Nil)
  (Hfn : finalizable h o d (w_gw w) g1 g2) (HA : state_at 0 d (w_gw w) w) :
  (remaining o <= 0 -> exists w', Finalize env m ctx (mkHandle id h) w = (succeeded StatusCompleted (mkHandle id h), w') /\
     w_rows w' !! id = Some d /\ w_gw w' = g2) /\
  (5 * Second <= remaining o <= MaxOverlap -> exists w', Finalize env m ctx (mkHandle id h) w = (failed RotTooEarly, w') /\
     w_rows w' !! id = Some d /\ w_gw w' = g1).
Proof using HS.
  destruct Hfn as [Hh Hv [Hst Hi] (token & Ht & HO) HF].
  destruct (Finalize_passes ctx h token o d _ g1 g2 w HL Hm Hid Hh Ht HO HF Hv Hst Hi HA) as [HC HE].
  split; intros Hr; [destruct (HC Hr) as (w' & E & [_ A2 _ A4])|destruct (HE Hr) as (w' & E & [_ A2 _ A4])]; by exists w'.
Qed.
End success.

(** ** Witnesses *)

Section witnesses.
Import Small.
Existing Instances small_participant small_urls small_uuids.

Lemma small_smooth n0 : (n0 <= 100)%nat -> smooth env 7 n0 (Z.of_nat n0 * 1000000).
Proof.
  intros Hn. split; cbn; unfold Second, span; [lia|lia|lia|done|done].
Qed.

Lemma small_lives n0 t0 : lives n0 t0 ctx.
Proof. split; [done|done|by intros d [=]]. Qed.

Definition small_attempt : Attempt := mkAttempt hnd (tok 1) (time 6) (time 6 + 21 * Second).
Definition small_began : Gw := Some (mkGA (tok 0) (tok 1) ActiveWithRetiring, time 6 + 21 * Second).
Lemma start_replaces_token_witness :
  lives 1 1000000 ctx /\
  exists w', Start env matcher ctx request world = (succeeded PendingFinalization handle, w') /\ w_rows w' !! 7 = Some (dest 1).
Proof.
  split; [apply small_lives|].
  destruct (start_replaces_token matcher env 7 1 1000000 (small_smooth 1 ltac:(lia)) ctx request small_attempt (dest 0) (dest 1)
    small_began world (small_lives _ _)) as (w' & E & Er & _).
  - by vm_compute.
  - done.
  - split; [|by vm_compute|by vm_compute|by vm_compute].
    exists (uuid_String 5), (uuid_String 6), (tok 0). split; [by vm_compute|]. split; [by intros c; vm_compute|].
    by apply String.eqb_neq.
  - split; [done|by vm_compute|done|done].
  - exact (ex_intro _ w' (conj E Er)).
Defined.

Definition small_over : World Gw := mkWorld {[ 7 := dest 1 ]} None None small_began 40 [].
Definition small_observed : Observation := mkObs ActiveWithRetiring TokenNew (time 52) (time 6 + 21 * Second).

Lemma finalize_after_the_overlap_witness :
  lives 40 40000000 ctx /\ remaining small_observed <= 0 /\
  exists w', Finalize env matcher ctx handle small_over = (succeeded StatusCompleted handle, w') /\ w_rows w' !! 7 = Some (dest 1).
Proof.
  split; [apply small_lives|]. assert (remaining small_observed <= 0) as Hr by (vm_compute; discriminate). split; [exact Hr|].
  destruct (proj1 (finalize_after_the_overlap matcher env 7 40 40000000 (small_smooth 40 ltac:(lia)) ctx hnd small_observed (dest 1)
    small_began (Some (mkGA (tok 0) (tok 1) Completed, time 6 + 21 * Second)) small_over (small_lives _ _)
    ltac:(by vm_compute) ltac:(done)
    ltac:(split; [done|by vm_compute|done|exists (tok 1); split; [by vm_compute|by intros c; vm_compute]|by intros c; vm_compute])
    ltac:(split; [done|by vm_compute|done|done])) Hr) as (w' & E & Er & _).
  exact (ex_intro _ w' (conj E Er)).
Defined.
End witnesses.
